(* ===== verification/_CoqProject ===== *)
-Q . S2P
Prelude.v
CMem.v
Endian.v
Utf8.v
Crc32.v
StunAttribute.v
StunFrame.v
StunErrorCode.v
StunAddress.v
StunText.v
TurnAttributes.v
StunIntegrity.v
Hashtable.v
VmProg.v
VmProgDb.v
Vm.v
VmRun.v
VmLife.v
G711.v
RingBuffer.v
RtpFrame.v
RtpFormat.v
RtpCodec.v
RtpEncode.v
Base64.v
Dict.v
OvList.v
Buffer.v
BufferSpec.v
BufferHeap.v
Chunker.v
Websocket.v
WebsocketSpec.v
WebServerBase.v
WebServerSend.v
WebServerFrames.v
WebServerReceive.v
WebServerStream.v
WebServerPortions.v
WebServerJson.v
JsonNumber.v
JsonGrammar.v
JsonValue.v
JsonTree.v
JsonOps.v
JsonPaths.v
JsonPointer.v
JsonDecode.v
JsonEncode.v
JsonText.v
JsonEncodeSpec.v
JsonScan.v
JsonDecodeSpec.v
JsonRoundtrip.v
Permission.v
VocsDb.v
VocsDbInv.v
VocsDbOps.v
VocsDbCreate.v
VocsDbAuth.v
VocsDbState.v
VocsDbProps.v
BackendRegistry.v
LinkedList.v
LinkedListRep.v
LinkedListOps.v
ListStore.v
VectorList.v
FrameBuffer.v
FrameBufferLaws.v
FrameBufferQueue.v
