(* ===== verification/Prelude.v ===== *)
(** * openvocs: a verified model of the voice conference system's core

    openvocs is a voice conference system in C: clients reach a server through a
    web socket and ICE, the server's Vocs service decides which loops they may
    hear and speak to, a resource manager runs the steps of every change as
    programs of a small virtual machine, and mixers exchange RTP with the media
    proxy. This library models the parts of it whose behaviour is their own: the
    wire formats (STUN, TURN, RTP, G.711, UTF-8, Base64, JSON), the containers below
    them, the virtual machine, and the database of domains that says who may do what.
    Each translated function has the name it has in C, and is an executable Rocq
    function; the theorems are stated about those.

    ** How C is read

    - A [w]-bit integer is a [Z] in its range; conversions and unsigned
      arithmetic reduce modulo [2^w] ([u8] ... [u64] in this file).
    - Octets live in the flat memory of [CMem.v], addresses are [Z]; an access
      to an address that is not allocated yields [None]. The host is little
      endian, as x86-64 and arm64 are.
    - An operation that is undefined in C, or whose [OV_ASSERT] fails, is [None].
      A theorem that says a function returns [Some] therefore says too that it
      reads and writes only what it may.
    - Out parameters and changed objects are components of the result.
    - Loops are structural where they count; otherwise they have fuel, chosen in
      the definition so that it cannot run out: the number of octets left (STUN,
      UTF-8), one more than the number of entities of the heap (linked lists, JSON
      trees), the number of octets of the memory (JSON texts: every turn reads one
      that was not read before). The
      loop of the virtual machine takes its fuel as an argument, because a client's
      handler may demand to be called forever; the theorems name an amount that is
      enough (see [VmRun.v]), and running out of it is a value of its own.
    - What is not in the repository's sources is a parameter: OpenSSL's [HMAC] and
      connections, the event loop, the client's handlers of the virtual machine, the frames and buffers taken
      from a cache.

    ** The files

    Foundations:
    - [Prelude.v]: integers, option monad, list lemmas, tactics and hints.
    - [CMem.v]: memory, regions, and the lemmas about writing and reading them.

    Encodings (src/lib/ov_base/src):
    - [Endian.v] (encodings/ov_endian.c), [Utf8.v] (encodings/ov_utf8.c),
      [Crc32.v] (ov_crc32.c), [Base64.v] (encodings/ov_base64.c). What is written
      is read back; validation decides the grammar of RFC 3629; the tables compute
      the bitwise CRC; Base64 is read exactly as RFC 4648 says.

    STUN and TURN (src/lib/ov_stun/src), bottom up:
    - [StunAttribute.v] (ov_stun_attribute.c), the frame of all attributes, and
      [StunFrame.v] (ov_stun_frame.c), the header and the slicing of messages: a
      message is accepted exactly if it consists of whole attributes.
    - [StunErrorCode.v], [StunAddress.v], [StunText.v], [TurnAttributes.v]: the
      attributes; encoders and decoders invert each other, through the interface
      [AttrCodec] where an attribute is as simple as that.
    - [StunIntegrity.v]: FINGERPRINT and MESSAGE-INTEGRITY; a protected message is
      accepted by its check, and the check accepts nothing but what carries the
      right digest. It uses [Crc32.v] and the slicing of [StunFrame.v].

    The virtual machine (src/lib/ov_vm/src), bottom up:
    - [Hashtable.v] (src/lib/ov_base/src/hashtable/ov_hashtable.c): the table
      refines a finite map.
    - [VmProg.v] (ov_vm_prog.c) and [VmProgDb.v] (ov_vm_prog_db.c): programs and
      their database, which refines a map of programs with aliases ([db_spec]) as
      long as no program with more than five aliases is removed, and by an alias
      only one that has no other: the code reads outside of an array, or memory
      that was freed, otherwise ([ops_defined]).
    - [Vm.v] (ov_vm.c): the machine. [VmRun.v]: the loop follows the relations
      [runs] and [unwinds]. [VmLife.v]: each call of the interface on the
      abstract database; an aborted program is compensated in reverse order, up to
      the first inverse handler that fails, and overdue programs are aborted.
      The client's handlers must leave the machine alone ([tame]), and those that
      revert must not ask for repetition ([never_repeats]). When nothing was
      completed the code reads the instruction before the first one: a failure
      or an abort there is undefined, in the model as in C.

    Media:
    - [G711.v] (src/lib/ov_codec/src/ov_codec_g711.c): the error of the
      quantisation is bounded.
    - [RtpFrame.v] (src/lib/ov_base/src/rtp/ov_rtp_frame.c), with the format in
      [RtpFormat.v] and the proofs in [RtpCodec.v] and [RtpEncode.v]: the decoder
      accepts exactly the frames in the format of RFC 3550, of any version, with
      at most 14 contributing sources, and reads what the encoder writes of these.

    Containers:
    - [RingBuffer.v] (ringbuffer/ov_ringbuffer.c) refines a bounded queue, but for
      its clear, which keeps the places of the elements it frees.
    - [OvList.v]: what ov_list.h promises of lists, as functions on sequences.
      [LinkedList.v] (list/ov_linked_list.c) is the implementation with its
      pointers; [LinkedListRep.v], [LinkedListOps.v] and [ListStore.v] show that a
      heap of lists refines a store of sequences.
    - [VectorList.v] (list/ov_vector_list.c) is the implementation in an array: it
      acts as lists do as long as it grows by two slots at least and is not one slot
      short.
    - [FrameBuffer.v] (rtp/ov_rtp_frame_buffer.c) uses lists through that
      contract; [FrameBufferLaws.v] and [FrameBufferQueue.v] show that it keeps of
      every stream the frames with the highest sequence numbers.

    Buffers (src/lib/ov_base/src):
    - [Buffer.v] (buffer/ov_buffer.c), with the laws in [BufferSpec.v];
      [BufferHeap.v]: several buffers beside each other in one memory.
    - [Chunker.v] (ov_chunker.c): a chunker refines the stream of the octets that
      were added and not yet taken.

    Web sockets (src/lib/ov_core/src), bottom up:
    - [Websocket.v] (ov_websocket_pointer.c) and [WebsocketSpec.v]: the parser
      accepts exactly the frames of RFC 6455 in the form described there; what is
      written is read back.
    - [WebServerBase.v] (ov_webserver_base.c): what an upgraded TLS connection does.
      OpenSSL, the event loop and the application are an [environment]; the
      hypothesis [ssl_laws] is the documented behaviour of [SSL_write] without
      partial writes.
    - [WebServerSend.v]: what is given to a connection is sent once, and when
      nothing is given while something waits in the queue, in order; a socket that
      takes everything drains it.
    - [WebServerFrames.v] and [WebServerReceive.v]: the code with its buffers in
      memory refines a connection whose frames are sequences of octets ([channel]),
      for the octets in a buffer and for those that arrive at the socket.
    - [WebServerStream.v]: on a [channel] the portions octets arrive in do not
      matter, and messages are delivered whole, in one frame or in fragments that
      are not empty.
      [WebServerPortions.v] says so of the code, for every sequence of portions.
    - [WebServerJson.v]: texts are sent in frames, and reach the application behind
      another connection as they were, when the sender's socket takes all it is
      given and the frames fit into the buffers.

    Dictionaries and JSON (src/lib/ov_base/src), bottom up:
    - [Dict.v] (dict/ov_dict.c): a dictionary refines a finite map.
    - [JsonValue.v] (json/ov_json_value.c, ov_json_object.c, ov_json_array.c and the
      scalar values): nodes of a heap that know their parents, and [JsonPointer.v]
      (json/ov_json_pointer.c). [JsonTree.v]: the heap is a forest ([json_wf]), and
      freeing a tree ends and removes exactly the tree. [JsonOps.v]: setting and
      deleting members keep the forest. [JsonPaths.v]: what these operations do to
      the paths of keys, and that nothing else changes ([changed]).
    - [JsonNumber.v]: doubles as 64 bits, strtod and printf on them as the parser
      and the printer use them. [JsonGrammar.v] (json/ov_json_grammar.c): the
      functions that find the end of strings, objects and arrays. [JsonDecode.v]
      and [JsonEncode.v] (json/ov_json_parser.c, ov_json.c): reading and writing.
    - [JsonText.v]: trees, what it means that a node represents one ([rep]), and
      their texts. [JsonEncodeSpec.v]: the encoder writes exactly the text of the
      tree, in the octets it calculated. [JsonScan.v] and [JsonDecodeSpec.v]: the
      decoder reads the texts of trees ([shape]). [JsonRoundtrip.v]: what is written
      is read back, for the trees that are [encodable] and [readable]: narrower
      than JSON, as the examples of what is not read show.

    The domain database (src/lib/ov_vocs_db/src), on top of these:
    - [Permission.v] (ov_vocs_permission.c, and ov_participation_state.c of ov_base).
    - [VocsDb.v] (ov_vocs_db.c): a tree of domains, projects, users, roles and loops
      with an index of ids, and a tree of states. [VocsDbInv.v]: what it means that
      the index and the tree agree ([db_inv]). [VocsDbOps.v], [VocsDbCreate.v],
      [VocsDbAuth.v], [VocsDbState.v]: deleting, creating, the questions and the
      administrators, the states keep it. [VocsDbProps.v]: what the database
      promises, for every sequence of operations from an empty one, and examples
      of what it does not promise. Roles called admin are outside of the index and
      share their id; the theorems say where they are an exception.

    The registry of mixers (src/lib/ov_vocs/src):
    - [BackendRegistry.v] (ov_mc_backend_registry.c): sockets, mixers and the users
      they are acquired for; no two users share a mixer as long as a mixer that
      leaves is released first.

    ** What is not modelled

    Random numbers (transaction ids, nonces), dumps and logs, the caches of
    released objects (an argument where it shows), tracing of time, conversions
    through floating point, and everything that is I/O: sockets, the event loop,
    threads, files, the SQLite copy under ov_database, LDAP, SNMP and the bindings
    of codec and encryption libraries. Of the web server: HTTP, the handshakes,
    timers, domains, STUN and its configuration. Of the domain database:
    passwords, updating and verifying whole items, SIP, volumes and layouts,
    exports and persistence. Of JSON: copying and dumping values, and reading files. *)
From stdpp Require Export base numbers list option gmap strings fin_maps.
From Stdlib Require Export ZArith Lia.

#[global] Open Scope Z_scope.
Declare Scope openvocs_scope.
Delimit Scope openvocs_scope with ov.
#[global] Open Scope openvocs_scope.

(** ** Machine integers

    A [w]-bit unsigned integer of the C code is a [Z]; the conversion to the
    type is reduction modulo [2^w]. *)

Definition u8 (x : Z) : Z := x mod 2 ^ 8.
Definition u16 (x : Z) : Z := x mod 2 ^ 16.
Definition u32 (x : Z) : Z := x mod 2 ^ 32.
Definition u64 (x : Z) : Z := x mod 2 ^ 64.

Definition is_byte (b : Z) : Prop := 0 <= b < 256.
Definition bytes (l : list Z) : Prop := Forall is_byte l.
Definition is_u32 (x : Z) : Prop := 0 <= x < 2 ^ 32.

#[global] Instance is_byte_dec b : Decision (is_byte b).
Proof. unfold is_byte. apply _. Defined.
#[global] Instance bytes_dec l : Decision (bytes l).
Proof. unfold bytes. apply _. Defined.

(** C truth value of an integer expression used as a condition. *)
Definition nz (x : Z) : bool := negb (x =? 0).

Notation "x '.&' y" := (Z.land x y) (at level 40, left associativity) : openvocs_scope.
Notation "x '.|' y" := (Z.lor x y) (at level 50, left associativity) : openvocs_scope.
Notation "x '.^' y" := (Z.lxor x y) (at level 48, left associativity) : openvocs_scope.
Notation "x '.<<' y" := (Z.shiftl x y) (at level 39, left associativity) : openvocs_scope.
Notation "x '.>>' y" := (Z.shiftr x y) (at level 39, left associativity) : openvocs_scope.

(** An assertion of the code: [None] when it fails. *)
Definition OV_ASSERT (b : bool) : option unit := if b then Some tt else None.

(** ** Lists indexed by [Z] *)

Definition Zlen {A} (l : list A) : Z := Z.of_nat (length l).
Definition znth (l : list Z) (i : Z) : Z := nth (Z.to_nat i) l 0.
Notation "l '.[' i ]" := (znth l i) (at level 1, i at level 200, format "l .[ i ]") : openvocs_scope.
Definition zeros (n : Z) : list Z := replicate (Z.to_nat n) 0.
Definition ztake {A} (n : Z) (l : list A) : list A := take (Z.to_nat n) l.
Definition zdrop {A} (n : Z) (l : list A) : list A := drop (Z.to_nat n) l.

(** ** Hint databases of the development *)

Create HintDb ov discriminated.
Create Rewrite HintDb zlen.

Lemma Zlen_nonneg {A} (l : list A) : 0 <= Zlen l.
Proof. unfold Zlen. lia. Qed.
Lemma Zlen_nil {A} : Zlen (@nil A) = 0.
Proof. reflexivity. Qed.
Lemma Zlen_cons {A} (x : A) l : Zlen (x :: l) = 1 + Zlen l.
Proof. unfold Zlen. simpl. lia. Qed.
Lemma Zlen_app {A} (l k : list A) : Zlen (l ++ k) = Zlen l + Zlen k.
Proof. unfold Zlen. rewrite length_app. lia. Qed.
Lemma Zlen_zeros n : Zlen (zeros n) = n `max` 0.
Proof. unfold Zlen, zeros. rewrite length_replicate. lia. Qed.
Lemma Zlen_ztake {A} n (l : list A) : Zlen (ztake n l) = 0 `max` (n `min` Zlen l).
Proof. unfold Zlen, ztake. rewrite length_take. lia. Qed.
Lemma Zlen_zdrop {A} n (l : list A) : Zlen (zdrop n l) = 0 `max` (Zlen l - (n `max` 0)).
Proof. unfold Zlen, zdrop. rewrite length_drop. lia. Qed.
Lemma Zlen_0_nil {A} (l : list A) : Zlen l = 0 -> l = [].
Proof. destruct l; [done|]. rewrite Zlen_cons. pose proof (Zlen_nonneg l). lia. Qed.

#[export] Hint Rewrite @Zlen_nil @Zlen_cons @Zlen_app @Zlen_zeros @Zlen_ztake @Zlen_zdrop : zlen.

(** [zlia]: linear arithmetic modulo the lengths of lists. *)
Ltac zlen_facts :=
  repeat match goal with
  | |- context [Zlen ?l] =>
      lazymatch goal with
      | _ : 0 <= Zlen l |- _ => fail
      | _ => pose proof (Zlen_nonneg l)
      end
  | _ : context [Zlen ?l] |- _ =>
      lazymatch goal with
      | _ : 0 <= Zlen l |- _ => fail
      | _ => pose proof (Zlen_nonneg l)
      end
  end.
Ltac zlia := autorewrite with zlen in *; zlen_facts; lia.
(** [dlia]: also reasons about division and remainder by constants. *)
Ltac dlia := autorewrite with zlen in *; zlen_facts; Z.div_mod_to_equations; lia.

Lemma znth_app_l l k i : 0 <= i < Zlen l -> (l ++ k).[i] = l.[i].
Proof. unfold znth, Zlen. intros H. apply app_nth1. lia. Qed.
Lemma znth_app_r l k i : Zlen l <= i -> (l ++ k).[i] = k.[i - Zlen l].
Proof.
  unfold znth, Zlen. intros H. rewrite app_nth2 by lia. f_equal. lia.
Qed.
Lemma znth_cons_0 x l : (x :: l).[0] = x.
Proof. reflexivity. Qed.
Lemma znth_cons_S x l i : 0 < i -> (x :: l).[i] = l.[i - 1].
Proof.
  intros H. unfold znth. replace (Z.to_nat i) with (S (Z.to_nat (i - 1))) by lia. done.
Qed.
Lemma znth_out l i : Zlen l <= i -> l.[i] = 0.
Proof. unfold znth, Zlen. intros H. apply nth_overflow. lia. Qed.
Lemma znth_zdrop l n i : 0 <= n -> 0 <= i -> (zdrop n l).[i] = l.[n + i].
Proof.
  intros. unfold znth, zdrop. rewrite nth_skipn. f_equal. lia.
Qed.
Lemma znth_ztake l n i : i < n -> 0 <= i -> (ztake n l).[i] = l.[i].
Proof.
  intros. unfold znth, ztake.
  destruct (decide (i < Zlen l)) as [Hl|Hl].
  - rewrite nth_firstn. destruct (Nat.ltb_spec (Z.to_nat i) (Z.to_nat n)); [done|lia].
  - rewrite !nth_overflow; [done| |]; rewrite ?length_take; unfold Zlen in *; lia.
Qed.
Lemma znth_zeros n i : (zeros n).[i] = 0.
Proof.
  unfold znth, zeros. generalize (Z.to_nat i) as k. induction (Z.to_nat n); destruct k; simpl; auto.
Qed.

Lemma zlist_eq (l k : list Z) :
  Zlen l = Zlen k -> (forall i, 0 <= i < Zlen l -> l.[i] = k.[i]) -> l = k.
Proof.
  unfold Zlen, znth. intros Hlen H. apply nth_ext with 0 0; [lia|].
  intros n Hn. specialize (H (Z.of_nat n)). rewrite Nat2Z.id in H. apply H. lia.
Qed.

Lemma ztake_zdrop {A} n (l : list A) : ztake n l ++ zdrop n l = l.
Proof. apply take_drop. Qed.
Lemma ztake_app {A} (l k : list A) : ztake (Zlen l) (l ++ k) = l.
Proof. unfold ztake, Zlen. rewrite Nat2Z.id. apply take_app_length. Qed.
Lemma zdrop_app {A} (l k : list A) : zdrop (Zlen l) (l ++ k) = k.
Proof. unfold zdrop, Zlen. rewrite Nat2Z.id. apply drop_app_length. Qed.
Lemma zdrop_app_n {A} n (l k : list A) : n = Zlen l -> zdrop n (l ++ k) = k.
Proof. intros ->. apply zdrop_app. Qed.
Lemma zdrop_0 {A} (l : list A) : zdrop 0 l = l.
Proof. reflexivity. Qed.
Lemma zdrop_zdrop {A} n k (l : list A) :
  0 <= n -> 0 <= k -> zdrop n (zdrop k l) = zdrop (k + n) l.
Proof. intros. unfold zdrop. rewrite drop_drop. f_equal. lia. Qed.

Lemma zdrop_cons (l : list Z) i :
  0 <= i < Zlen l -> zdrop i l = l.[i] :: zdrop (i + 1) l.
Proof.
  intros H. unfold zdrop, znth, Zlen in *. replace (Z.to_nat (i + 1)) with (S (Z.to_nat i)) by lia.
  rewrite (drop_S l (nth (Z.to_nat i) l 0)); [done|].
  destruct (nth_lookup_or_length l (Z.to_nat i) 0) as [E|E]; [done|lia].
Qed.

(** ** Bytes *)

Lemma bytes_nil : bytes [].
Proof. constructor. Qed.
Lemma bytes_cons b l : bytes (b :: l) <-> is_byte b /\ bytes l.
Proof. apply Forall_cons. Qed.
Lemma bytes_app l k : bytes (l ++ k) <-> bytes l /\ bytes k.
Proof. apply Forall_app. Qed.
Lemma bytes_zeros n : bytes (zeros n).
Proof. apply Forall_replicate. unfold is_byte. lia. Qed.
Lemma bytes_znth l i : bytes l -> is_byte l.[i].
Proof.
  intros H. unfold znth. destruct (nth_lookup_or_length l (Z.to_nat i) 0) as [E|E].
  - eapply Forall_lookup_1 in E; eauto.
  - rewrite nth_overflow by lia. unfold is_byte. lia.
Qed.
Lemma bytes_ztake n l : bytes l -> bytes (ztake n l).
Proof. apply Forall_take. Qed.
Lemma bytes_zdrop n l : bytes l -> bytes (zdrop n l).
Proof. apply Forall_drop. Qed.
Lemma is_byte_u8 x : is_byte (u8 x).
Proof. unfold is_byte, u8. apply Z.mod_pos_bound. lia. Qed.
Lemma u8_id x : is_byte x -> u8 x = x.
Proof. intros. apply Z.mod_small. done. Qed.
Lemma u16_id x : 0 <= x < 65536 -> u16 x = x.
Proof. intros. apply Z.mod_small. done. Qed.
Lemma u32_id x : 0 <= x < 2 ^ 32 -> u32 x = x.
Proof. intros. apply Z.mod_small. done. Qed.
Lemma u64_id x : 0 <= x < 2 ^ 64 -> u64 x = x.
Proof. intros. apply Z.mod_small. done. Qed.

#[export] Hint Resolve bytes_nil bytes_zeros bytes_znth bytes_ztake bytes_zdrop is_byte_u8 : ov.

(** Exhaustive checking of a decidable statement on one byte or two. *)
Definition all_bytes : list Z := seqZ 0 256.
Lemma byte_forall (P : Z -> bool) :
  forallb P all_bytes = true -> forall b, is_byte b -> P b = true.
Proof.
  intros H b Hb. rewrite forallb_forall in H. apply H.
  apply list_elem_of_In, elem_of_seqZ. unfold is_byte in Hb. lia.
Qed.
Lemma byte_range_eq (f g : Z -> Z) lo hi :
  forallb (fun b => implb ((lo <=? b) && (b <=? hi)) (f b =? g b)) all_bytes = true ->
  0 <= lo -> hi < 256 -> forall b, lo <= b <= hi -> f b = g b.
Proof.
  intros H Hlo Hhi b Hb. apply byte_forall with (b := b) in H; [|unfold is_byte; lia].
  replace ((lo <=? b) && (b <=? hi)) with true in H by lia. simpl in H. lia.
Qed.
Lemma byte_forall2 (P : Z -> Z -> bool) :
  forallb (fun a => forallb (P a) all_bytes) all_bytes = true ->
  forall a b, is_byte a -> is_byte b -> P a b = true.
Proof.
  intros H a b Ha Hb. apply (byte_forall (P a)); [|done].
  exact (byte_forall (fun a => forallb (P a) all_bytes) H a Ha).
Qed.

Lemma lxor_byte a b : is_byte a -> is_byte b -> is_byte (a .^ b).
Proof.
  intros Ha Hb. assert ((0 <=? a .^ b) && (a .^ b <? 256) = true) as H; [|unfold is_byte; lia].
  revert a b Ha Hb. apply byte_forall2. vm_compute. reflexivity.
Qed.

(** ** Strings *)

(** The octets of a string literal, without its terminating zero. *)
Definition string_bytes (s : string) : list Z :=
  (fun a => Z.of_N (Ascii.N_of_ascii a)) <$> String.list_ascii_of_string s.
Lemma bytes_string s : bytes (string_bytes s).
Proof.
  unfold string_bytes. apply Forall_fmap, Forall_true. intros a. simpl. unfold is_byte.
  pose proof (Ascii.N_ascii_bounded a). lia.
Qed.
#[export] Hint Resolve bytes_string : ov.

(** ** Case analysis on the conditions of a translated function *)

Ltac bool_to_prop :=
  repeat match goal with
  | H : (_ && _)%bool = true |- _ => apply andb_true_iff in H as [? ?]
  | H : (_ || _)%bool = false |- _ => apply orb_false_iff in H as [? ?]
  | H : negb _ = true |- _ => apply negb_true_iff in H
  | H : negb _ = false |- _ => apply negb_false_iff in H
  | H : (_ =? _) = true |- _ => apply Z.eqb_eq in H
  | H : (_ =? _) = false |- _ => apply Z.eqb_neq in H
  | H : (_ <? _) = true |- _ => apply Z.ltb_lt in H
  | H : (_ <? _) = false |- _ => apply Z.ltb_ge in H
  | H : (_ <=? _) = true |- _ => apply Z.leb_le in H
  | H : (_ <=? _) = false |- _ => apply Z.leb_gt in H
  end.

Ltac case_if :=
  match goal with
  | |- context [if ?b then _ else _] => destruct b eqn:?
  | H : context [if ?b then _ else _] |- _ => destruct b eqn:?
  end; bool_to_prop.

(** Decide the next guard of a function from the arithmetic context. *)
Ltac decide_guard :=
  match goal with
  | |- context [if ?b then _ else _] =>
      lazymatch type of b with bool => idtac end;
      first [ replace b with false by (symmetry; zlia) | replace b with true by (symmetry; zlia) ];
      cbn match
  end.
Ltac guards := repeat decide_guard.

(** The first elements of a list, by index. *)
Lemma split_1 l : 1 <= Zlen l -> l = [l.[0]] ++ zdrop 1 l.
Proof. intros. simpl. rewrite <- (zdrop_0 l) at 1. by rewrite zdrop_cons by lia. Qed.
Lemma split_2 l : 2 <= Zlen l -> l = [l.[0]; l.[1]] ++ zdrop 2 l.
Proof. intros. rewrite (split_1 l) at 1 by lia. by rewrite (zdrop_cons l 1) by lia. Qed.
Lemma split_3 l : 3 <= Zlen l -> l = [l.[0]; l.[1]; l.[2]] ++ zdrop 3 l.
Proof. intros. rewrite (split_2 l) at 1 by lia. by rewrite (zdrop_cons l 2) by lia. Qed.
Lemma split_4 l : 4 <= Zlen l -> l = [l.[0]; l.[1]; l.[2]; l.[3]] ++ zdrop 4 l.
Proof. intros. rewrite (split_3 l) at 1 by lia. by rewrite (zdrop_cons l 3) by lia. Qed.

(** A loop that consumes the list needs at most one turn per element, and one
    to stop. *)
Lemma fuel_ok {A} (l : list A) : (length l < S (Z.to_nat (Zlen l)))%nat.
Proof. unfold Zlen. lia. Qed.

(** A test on [n] consecutive integers. *)
Fixpoint for_range (lo : Z) (n : nat) (f : Z -> bool) : bool :=
  match n with O => true | S n => f lo && for_range (lo + 1) n f end.
Lemma for_range_spec lo n f x : for_range lo n f = true -> lo <= x < lo + Z.of_nat n -> f x = true.
Proof.
  revert lo. induction n as [|n IH]; intros lo H Hx; [lia|]. cbn [for_range] in H.
  apply andb_true_iff in H as [H1 H2]. destruct (decide (x = lo)) as [->|]; [done|]. apply (IH (lo + 1)); [done|lia].
Qed.

(** An address above every one in use. *)
Definition fresh_key {A} (h : gmap Z A) : Z := map_fold (fun k _ acc => Z.max acc (k + 1)) 1 h.
Lemma fresh_key_spec {A} (h : gmap Z A) : 1 <= fresh_key h /\ forall k, is_Some (h !! k) -> k < fresh_key h.
Proof.
  unfold fresh_key. apply (map_fold_weak_ind (fun acc m => 1 <= acc /\ forall k, is_Some (m !! k) -> k < acc)).
  - split; [lia|]. intros k [x Hx]. by rewrite lookup_empty in Hx.
  - intros i x m' acc _ [H1 H2]. split; [lia|]. intros k [y Hy].
    destruct (decide (k = i)) as [->|]; [lia|]. rewrite lookup_insert_ne in Hy by done.
    specialize (H2 k (mk_is_Some _ _ Hy)). lia.
Qed.
Lemma fresh_key_None {A} (h : gmap Z A) : h !! fresh_key h = None.
Proof.
  apply eq_None_not_Some. intros H. pose proof (fresh_key_spec h) as [_ Hf]. specialize (Hf _ H). lia.
Qed.
