(* ===== verification/CMem.v ===== *)
(** * The memory the C code runs on

    One flat, byte addressed memory: a finite map from addresses to bytes. An
    address that the map does not hold is not allocated, and an access to it is
    undefined behaviour: every operation returns [None] then. Address 0 is
    [NULL] and never readable. Multi-byte accesses are little endian, as on the
    platforms the code is built for (x86-64, arm64), so [ntohs] and friends
    swap bytes.

    A translated function is a [Definition] that takes the memory and the C
    parameters (pointers are addresses, [size_t] and friends are [Z]); it
    returns [option] of its result, with the new memory when it writes. An out
    parameter ([uint8_t **next]) is a component of the result. *)
From S2P Require Import Prelude.

Abbreviation mem := (gmap Z Z).
Abbreviation ptr := Z (only parsing).
Definition NULL : Z := 0.
(** The address of a local variable that is passed as an out parameter; the
    callee only compares it with [NULL]. *)
Definition LOCAL : Z := 1.

(** Decide a guard that compares pointers with [NULL], leaving [NULL] folded
    elsewhere. *)
Ltac null_guard :=
  match goal with
  | |- context [if ?b then _ else _] =>
      lazymatch type of b with bool => idtac end;
      first [ replace b with false by (unfold NULL; symmetry; zlia)
            | replace b with true by (unfold NULL; symmetry; zlia) ]; cbn match
  end.

(** ** Accesses *)

Definition load8 (m : mem) (p : ptr) : option Z := if p =? NULL then None else m !! p.
Definition store8 (m : mem) (p : ptr) (v : Z) : option mem :=
  _ ← load8 m p; Some (<[p := u8 v]> m).

Fixpoint loadn (m : mem) (p : ptr) (n : nat) : option (list Z) :=
  match n with
  | O => Some []
  | S n => b ← load8 m p; bs ← loadn m (p + 1) n; Some (b :: bs)
  end.
Fixpoint storen (m : mem) (p : ptr) (bs : list Z) : option mem :=
  match bs with
  | [] => Some m
  | b :: bs => m ← store8 m p b; storen m (p + 1) bs
  end.

Definition load16 (m : mem) (p : ptr) : option Z :=
  b0 ← load8 m p; b1 ← load8 m (p + 1); Some (b0 + b1 * 2 ^ 8).
Definition load32 (m : mem) (p : ptr) : option Z :=
  lo ← load16 m p; hi ← load16 m (p + 2); Some (lo + hi * 2 ^ 16).
Definition store16 (m : mem) (p : ptr) (v : Z) : option mem :=
  storen m p [v; v .>> 8].
Definition store32 (m : mem) (p : ptr) (v : Z) : option mem :=
  storen m p [v; v .>> 8; v .>> 16; v .>> 24].

(** ** The C library's memory functions *)

Definition memcpy (m : mem) (dst src n : Z) : option mem :=
  bs ← loadn m src (Z.to_nat n); storen m dst bs.
Definition memset (m : mem) (p v n : Z) : option mem :=
  storen m p (replicate (Z.to_nat n) (u8 v)).
Fixpoint memcmp_n (m : mem) (p q : ptr) (n : nat) : option Z :=
  match n with
  | O => Some 0
  | S n =>
      a ← load8 m p; b ← load8 m q;
      if a =? b then memcmp_n m (p + 1) (q + 1) n else Some (a - b)
  end.
Definition memcmp (m : mem) (p q n : Z) : option Z := memcmp_n m p q (Z.to_nat n).

(** ** Network byte order (the platform is little endian) *)

Definition ntohs (x : Z) : Z := ((x .& 0xff) .<< 8) .| ((x .>> 8) .& 0xff).
Definition htons (x : Z) : Z := ntohs x.
Definition ntohl (x : Z) : Z :=
  ((x .& 0xff) .<< 24) .| (((x .>> 8) .& 0xff) .<< 16) .|
  (((x .>> 16) .& 0xff) .<< 8) .| ((x .>> 24) .& 0xff).
Definition htonl (x : Z) : Z := ntohl x.

(** Big endian representations. *)
Definition be16 (x : Z) : list Z := [u8 (x .>> 8); u8 x].
Definition be32 (x : Z) : list Z := [u8 (x .>> 24); u8 (x .>> 16); u8 (x .>> 8); u8 x].
Definition be_val (l : list Z) : Z := fold_left (fun acc b => acc * 256 + b) l 0.

(** ** Regions, and memory updates as a total function *)

Definition mapped (m : mem) (p n : Z) : Prop :=
  0 < p /\ forall i, 0 <= i < n -> is_Some (m !! (p + i)).
Definition region (m : mem) (p : ptr) (l : list Z) : Prop :=
  0 < p /\ forall i, 0 <= i < Zlen l -> m !! (p + i) = Some l.[i].
Fixpoint write (m : mem) (p : ptr) (bs : list Z) : mem :=
  match bs with
  | [] => m
  | b :: bs => write (<[p := b]> m) (p + 1) bs
  end.

(** A fresh address: above every allocated one. [calloc] never fails: running
    out of memory is not modelled. *)
Definition fresh (m : mem) : Z := map_fold (fun k _ acc => Z.max acc (k + 1)) 1 m.
Definition calloc (m : mem) (n : Z) : ptr * mem := (fresh m, write m (fresh m) (zeros n)).

(** ** Lemmas *)

Lemma lookup_write m p bs q :
  write m p bs !! q =
    if decide (p <= q < p + Zlen bs) then Some bs.[q - p] else m !! q.
Proof.
  revert m p. induction bs as [|b bs IH]; intros m p; simpl.
  - rewrite decide_False; [done|]. zlia.
  - rewrite IH. destruct (decide (q = p)) as [->|Hne].
    + rewrite decide_False by lia. rewrite lookup_insert_eq.
      rewrite decide_True by zlia. replace (p - p) with 0 by lia. done.
    + rewrite lookup_insert_ne by done. destruct (decide (p <= q < _)).
      * rewrite decide_True by zlia. rewrite (znth_cons_S b bs) by zlia. do 2 f_equal. lia.
      * rewrite decide_False; [done|]. zlia.
Qed.

Lemma lookup_write_out m p bs q :
  q < p \/ p + Zlen bs <= q -> write m p bs !! q = m !! q.
Proof. intros. rewrite lookup_write, decide_False; [done|lia]. Qed.

Lemma write_nil m p : write m p [] = m.
Proof. done. Qed.

Lemma write_write m p b1 b2 :
  write (write m p b1) (p + Zlen b1) b2 = write m p (b1 ++ b2).
Proof.
  apply map_eq. intros q. rewrite !lookup_write, Zlen_app.
  pose proof (Zlen_nonneg b1). pose proof (Zlen_nonneg b2).
  destruct (decide (p + Zlen b1 <= q < _)).
  - rewrite decide_True by lia. rewrite znth_app_r by lia. do 2 f_equal. lia.
  - destruct (decide (p <= q < p + Zlen b1)).
    + rewrite decide_True by lia. rewrite znth_app_l by lia. done.
    + rewrite decide_False; [done|]. lia.
Qed.

Lemma write_app m p q b1 b2 :
  q = p + Zlen b1 -> write (write m p b1) q b2 = write m p (b1 ++ b2).
Proof. intros ->. apply write_write. Qed.

Lemma write_prepend m p q b1 b2 :
  q = p + Zlen b1 -> write (write m q b2) p b1 = write m p (b1 ++ b2).
Proof.
  intros ->. rewrite <- write_write. apply map_eq. intros x. rewrite !lookup_write.
  pose proof (Zlen_nonneg b1). pose proof (Zlen_nonneg b2). repeat case_decide; try done; lia.
Qed.

Lemma write_overwrite m p b1 b2 :
  Zlen b1 <= Zlen b2 -> write (write m p b1) p b2 = write m p b2.
Proof.
  intros. apply map_eq. intros q. rewrite !lookup_write.
  destruct (decide (p <= q < p + Zlen b2)); [done|]. rewrite decide_False; [done|]. lia.
Qed.

(** A write inside a written range replaces that part of it. *)
Lemma write_mid m p l1 old new l2 q :
  Zlen new = Zlen old -> q = p + Zlen l1 ->
  write (write m p (l1 ++ old ++ l2)) q new = write m p (l1 ++ new ++ l2).
Proof.
  intros Hl ->. apply map_eq. intros x. rewrite !lookup_write, !Zlen_app.
  pose proof (Zlen_nonneg l1). pose proof (Zlen_nonneg l2). pose proof (Zlen_nonneg old).
  destruct (decide (p + Zlen l1 <= x < p + Zlen l1 + Zlen new)).
  - rewrite decide_True by lia. rewrite znth_app_r, znth_app_l by lia. do 2 f_equal. lia.
  - destruct (decide (p <= x < _)); [|rewrite decide_False by lia; done].
    rewrite decide_True by lia. destruct (decide (x < p + Zlen l1)).
    + by rewrite !znth_app_l by lia.
    + rewrite !znth_app_r by lia. do 2 f_equal. lia.
Qed.

Lemma write_comm m p b1 q b2 :
  p + Zlen b1 <= q \/ q + Zlen b2 <= p ->
  write (write m p b1) q b2 = write (write m q b2) p b1.
Proof.
  intros H. apply map_eq. intros x. rewrite !lookup_write.
  repeat case_decide; try done; lia.
Qed.

Lemma mapped_write m p n q bs : mapped m p n -> mapped (write m q bs) p n.
Proof.
  intros [Hp H]. split; [done|]. intros i Hi. rewrite lookup_write.
  destruct (decide _); eauto.
Qed.
Lemma mapped_sub m p n q k : mapped m p n -> p <= q -> q + k <= p + n -> mapped m q k.
Proof.
  intros [Hp H] ??. split; [lia|]. intros i Hi. replace (q + i) with (p + (q - p + i)) by lia.
  apply H. lia.
Qed.
Lemma region_mapped m p l : region m p l -> mapped m p (Zlen l).
Proof. intros [Hp H]. split; [done|]. intros i Hi. rewrite H; eauto. Qed.
Lemma region_mapped_le m p l n : region m p l -> n <= Zlen l -> mapped m p n.
Proof. intros H ?. eapply mapped_sub; [by apply region_mapped|lia|lia]. Qed.
Lemma region_write m p l : 0 < p -> region (write m p l) p l.
Proof.
  intros Hp. split; [done|]. intros i Hi. rewrite lookup_write, decide_True by lia.
  do 2 f_equal. lia.
Qed.
Lemma region_write_out m p l q bs :
  region m p l -> q + Zlen bs <= p \/ p + Zlen l <= q -> region (write m q bs) p l.
Proof.
  intros [Hp H] Ho. split; [done|]. intros i Hi. rewrite lookup_write_out by lia. by apply H.
Qed.
Lemma region_app m p l k :
  region m p (l ++ k) <-> region m p l /\ (0 < p -> region m (p + Zlen l) k).
Proof.
  pose proof (Zlen_nonneg l). pose proof (Zlen_nonneg k). split.
  - intros [Hp H1]. split; [split; [done|]|intros _; split; [lia|]]; intros i Hi.
    + rewrite H1 by zlia. by rewrite znth_app_l.
    + replace (p + Zlen l + i) with (p + (Zlen l + i)) by lia. rewrite H1 by zlia.
      rewrite znth_app_r by lia. do 2 f_equal. lia.
  - intros [[Hp H1] H2]. destruct (H2 Hp) as [_ H3]. split; [done|]. intros i Hi.
    destruct (decide (i < Zlen l)).
    + rewrite H1 by lia. by rewrite znth_app_l by lia.
    + rewrite znth_app_r by lia. replace (p + i) with (p + Zlen l + (i - Zlen l)) by lia.
      apply H3. zlia.
Qed.
Lemma region_app_l m p l k : region m p (l ++ k) -> region m p l.
Proof. intros H. by apply region_app in H as [? _]. Qed.
Lemma region_app_r m p q l k : region m p (l ++ k) -> q = p + Zlen l -> region m q k.
Proof. intros H ->. pose proof H as [Hp _]. apply region_app in H as [_ H]. auto. Qed.
Lemma region_zdrop m p l n :
  region m p l -> 0 <= n <= Zlen l -> region m (p + n) (zdrop n l).
Proof.
  intros [Hp H] Hn. split; [lia|]. intros i Hi. rewrite znth_zdrop by zlia.
  rewrite <- Z.add_assoc. apply H. zlia.
Qed.
Lemma region_ztake m p l n : region m p l -> region m p (ztake n l).
Proof.
  intros [Hp H]. split; [done|]. intros i Hi. rewrite H by zlia.
  rewrite znth_ztake by zlia. done.
Qed.

Lemma region_write_mid m p l1 old new l2 q :
  region m p (l1 ++ old ++ l2) -> Zlen new = Zlen old -> q = p + Zlen l1 ->
  region (write m q new) p (l1 ++ new ++ l2).
Proof.
  intros Hm Hl ->. pose proof Hm as [Hp _]. pose proof (Zlen_nonneg l1).
  apply region_app in Hm as [H1 H2]. specialize (H2 Hp). apply region_app in H2 as [_ H2].
  specialize (H2 ltac:(lia)). apply region_app. split; [apply region_write_out; [done|lia]|].
  intros _. apply region_app. split; [apply region_write; lia|]. intros _.
  rewrite Hl. apply region_write_out; [done|lia].
Qed.

(** Loads from a region and stores to mapped memory. *)

Lemma load8_region m p l i :
  region m p l -> 0 <= i < Zlen l -> load8 m (p + i) = Some l.[i].
Proof.
  intros [Hp H] Hi. unfold load8, NULL. decide_guard. by apply H.
Qed.
Lemma load8_region_0 m p l : region m p l -> 0 < Zlen l -> load8 m p = Some l.[0].
Proof. intros. rewrite <- (Z.add_0_r p) at 1. apply load8_region; [done|lia]. Qed.
Lemma load8_region_at m p l q :
  region m p l -> 0 <= q - p < Zlen l -> load8 m q = Some l.[q - p].
Proof. intros H Hi. rewrite <- (load8_region m p l) by done. f_equal. lia. Qed.

(** Loads of a concrete list of bytes. *)
Lemma load8_at m p l i x :
  region m p l -> l !! Z.to_nat i = Some x -> 0 <= i -> load8 m (p + i) = Some x.
Proof.
  intros Hm Hx Hi. pose proof (lookup_lt_Some _ _ _ Hx).
  rewrite (load8_region m p l) by (unfold Zlen; done || lia). f_equal.
  unfold znth. by apply nth_lookup_Some with (d := 0) in Hx.
Qed.
Lemma load8_at_0 m p x l : region m p (x :: l) -> load8 m p = Some x.
Proof. intros. rewrite (load8_region_0 m p (x :: l)) by (done || zlia). done. Qed.

Lemma loadn_region m p l : region m p l -> loadn m p (length l) = Some l.
Proof.
  revert p. induction l as [|b l IH]; intros p H; [done|]. simpl.
  rewrite (load8_region_0 m p (b :: l)) by (done || zlia). simpl.
  rewrite IH; [done|]. change l with (zdrop 1 (b :: l)). apply region_zdrop; [done|zlia].
Qed.
Lemma loadn_region_n m p l n :
  region m p l -> n = Zlen l -> loadn m p (Z.to_nat n) = Some l.
Proof. intros H ->. unfold Zlen. rewrite Nat2Z.id. by apply loadn_region. Qed.

Lemma store8_mapped m p n q v :
  mapped m p n -> 0 <= q - p < n -> store8 m q v = Some (write m q [u8 v]).
Proof.
  intros [Hp H] Hq. unfold store8, load8, NULL. decide_guard.
  destruct (H (q - p)) as [x Hx]; [done|]. replace (p + (q - p)) with q in Hx by lia.
  by rewrite Hx.
Qed.

Lemma storen_mapped m p n q bs :
  mapped m p n -> p <= q -> q + Zlen bs <= p + n ->
  storen m q bs = Some (write m q (u8 <$> bs)).
Proof.
  revert m q. induction bs as [|b bs IH]; intros m q Hm H1 H2; [done|]. simpl.
  rewrite (store8_mapped m p n) by (done || zlia). simpl.
  rewrite IH; [done| |lia|zlia]. by apply (mapped_write m p n q [u8 b]).
Qed.

Lemma u8_bytes bs : bytes bs -> u8 <$> bs = bs.
Proof.
  induction 1 as [|b bs Hb _ IH]; [done|]. csimpl. by rewrite IH, u8_id.
Qed.
Lemma storen_bytes m p n q bs :
  mapped m p n -> p <= q -> q + Zlen bs <= p + n -> bytes bs ->
  storen m q bs = Some (write m q bs).
Proof. intros. rewrite (storen_mapped m p n) by done. by rewrite u8_bytes. Qed.

Lemma memcpy_region m dst src l n p k :
  region m src l -> n = Zlen l -> bytes l ->
  mapped m p k -> p <= dst -> dst + n <= p + k ->
  memcpy m dst src n = Some (write m dst l).
Proof.
  intros. unfold memcpy. rewrite (loadn_region_n _ _ l) by done. simpl.
  apply (storen_bytes m p k); (done || lia).
Qed.
Lemma memset_0 m p k q n :
  mapped m p k -> p <= q -> q + n <= p + k -> 0 <= n -> memset m q 0 n = Some (write m q (zeros n)).
Proof.
  intros. unfold memset. apply (storen_bytes m p k); [done|done| |apply bytes_zeros].
  change (q + Zlen (zeros n) <= p + k). zlia.
Qed.

(** ** Byte order *)

Lemma lor_shift_add a b n : 0 <= n -> 0 <= b < 2 ^ n -> (a .<< n) .| b = a * 2 ^ n + b.
Proof.
  intros Hn Hb. rewrite Z.shiftl_mul_pow2 by done.
  assert (Hz : (a * 2 ^ n) .& b = 0).
  { apply Z.bits_inj'. intros i Hi. rewrite Z.land_spec, Z.bits_0.
    destruct (decide (i < n)).
    - by rewrite Z.mul_pow2_bits_low.
    - destruct (decide (b = 0)) as [->|]; [by rewrite Z.bits_0, andb_false_r|].
      rewrite (Z.bits_above_log2 b); [by rewrite andb_false_r|lia|].
      apply Z.log2_lt_pow2; [lia|]. eapply Z.lt_le_trans; [apply Hb|].
      apply Z.pow_le_mono_r; lia. }
  rewrite <- Z.lxor_lor by done. symmetry. by apply Z.add_nocarry_lxor.
Qed.

Lemma land_255 x : x .& 0xff = u8 x.
Proof. change 0xff with (Z.ones 8). apply Z.land_ones. lia. Qed.

Lemma ntohs_load a b : is_byte a -> is_byte b -> ntohs (a + b * 2 ^ 8) = a * 256 + b.
Proof.
  intros Ha Hb. apply Z.eqb_eq. revert a b Ha Hb. apply byte_forall2. vm_compute. reflexivity.
Qed.

Lemma be16_val a b : is_byte a -> is_byte b -> be_val [a; b] = a * 256 + b.
Proof. intros. unfold be_val. simpl. lia. Qed.

Lemma be16_div x : 0 <= x < 65536 -> be16 x = [x / 256; x mod 256].
Proof.
  intros. unfold be16, u8. rewrite Z.shiftr_div_pow2 by lia. f_equal.
  apply Z.mod_small. split; [apply Z.div_pos; lia|]. apply Z.div_lt_upper_bound; lia.
Qed.

Lemma be_val_be16 x : 0 <= x < 65536 -> be_val (be16 x) = x.
Proof.
  intros. rewrite be16_div by done. unfold be_val. simpl.
  pose proof (Z.div_mod x 256). lia.
Qed.
Lemma bytes_be16 x : bytes (be16 x).
Proof. unfold be16. rewrite !bytes_cons. auto with ov. Qed.
Lemma bytes_be32 x : bytes (be32 x).
Proof. unfold be32. rewrite !bytes_cons. auto 6 with ov. Qed.
#[export] Hint Resolve bytes_be16 bytes_be32 : ov.

(** [lor_to_add] rewrites disjoint disjunctions of shifted bytes to sums. *)
Lemma shl_byte_bound b n : is_byte b -> 0 <= n -> 0 <= b .<< n < 2 ^ (n + 8).
Proof.
  intros [? ?] ?. rewrite Z.shiftl_mul_pow2, Z.pow_add_r by lia.
  assert (0 < 2 ^ n) by (apply Z.pow_pos_nonneg; lia). change (2 ^ 8) with 256. nia.
Qed.
Lemma lor_bytes2 a b : is_byte a -> is_byte b -> (a .<< 8) .| b = a * 256 + b.
Proof. intros Ha Hb. by apply (lor_shift_add a b 8). Qed.
Lemma lor_bytes4 a b c d :
  is_byte a -> is_byte b -> is_byte c -> is_byte d ->
  (a .<< 24) .| (b .<< 16) .| (c .<< 8) .| d = be_val [a; b; c; d].
Proof.
  unfold is_byte. intros Ha Hb Hc Hd. rewrite <- !Z.lor_assoc.
  rewrite (lor_shift_add c d 8) by lia.
  rewrite (lor_shift_add b (c * 2 ^ 8 + d) 16) by lia.
  rewrite (lor_shift_add a (b * 2 ^ 16 + (c * 2 ^ 8 + d)) 24) by lia.
  unfold be_val. simpl. lia.
Qed.

Lemma ntohl_bytes x : ntohl x = be_val [u8 x; u8 (x .>> 8); u8 (x .>> 16); u8 (x .>> 24)].
Proof. unfold ntohl. rewrite !land_255. apply lor_bytes4; apply is_byte_u8. Qed.
Lemma ntohs_bytes x : ntohs x = be_val [u8 x; u8 (x .>> 8)].
Proof. unfold ntohs. rewrite !land_255. rewrite lor_bytes2 by apply is_byte_u8. done. Qed.

Ltac norm_pow2 :=
  change (2 ^ 8) with 256 in *; change (2 ^ 16) with 65536 in *;
  change (2 ^ 24) with 16777216 in *; change (2 ^ 32) with 4294967296 in *.
Ltac byte_arith :=
  unfold u8, is_byte, be_val in *; cbn [fold_left] in *;
  rewrite ?Z.shiftr_div_pow2 by lia; norm_pow2; Z.div_mod_to_equations; lia.

(** Compare two lists of the same length element by element. *)
Ltac list_cong := repeat match goal with |- _ :: _ = _ :: _ => apply (f_equal2 cons) | |- [] = [] => reflexivity end.

Lemma ntohl_load a b c d :
  is_byte a -> is_byte b -> is_byte c -> is_byte d ->
  ntohl (a + b * 2 ^ 8 + (c + d * 2 ^ 8) * 2 ^ 16) = be_val [a; b; c; d].
Proof.
  intros Ha Hb Hc Hd. rewrite ntohl_bytes. f_equal. unfold is_byte in *.
  list_cong; byte_arith.
Qed.

(** The four bytes the store of a swapped value leaves in memory. *)
Lemma store16_htons_bytes x : 0 <= x < 65536 -> u8 <$> [htons x; htons x .>> 8] = be16 x.
Proof.
  intros Hx. unfold htons. rewrite ntohs_bytes. unfold be16. csimpl.
  list_cong; byte_arith.
Qed.
Lemma store32_htonl_bytes x :
  0 <= x < 2 ^ 32 -> u8 <$> [htonl x; htonl x .>> 8; htonl x .>> 16; htonl x .>> 24] = be32 x.
Proof.
  intros Hx. unfold htonl. rewrite ntohl_bytes. unfold be32. csimpl.
  list_cong; byte_arith.
Qed.

Lemma store16_mapped m p n q v :
  mapped m p n -> p <= q -> q + 2 <= p + n -> store16 m q v = Some (write m q [u8 v; u8 (v .>> 8)]).
Proof. intros. unfold store16. by rewrite (storen_mapped m p n) by (done || zlia). Qed.
Lemma store16_htons m p n q x :
  mapped m p n -> p <= q -> q + 2 <= p + n -> 0 <= x < 65536 ->
  store16 m q (htons x) = Some (write m q (be16 x)).
Proof.
  intros. unfold store16. rewrite (storen_mapped m p n) by (done || zlia).
  by rewrite store16_htons_bytes.
Qed.
Lemma store32_htonl m p n q x :
  mapped m p n -> p <= q -> q + 4 <= p + n -> 0 <= x < 2 ^ 32 ->
  store32 m q (htonl x) = Some (write m q (be32 x)).
Proof.
  intros. unfold store32. rewrite (storen_mapped m p n) by (done || zlia).
  by rewrite store32_htonl_bytes.
Qed.

Lemma load16_region m p l q :
  region m p l -> p <= q -> q - p + 2 <= Zlen l ->
  load16 m q = Some (l.[q - p] + l.[q - p + 1] * 2 ^ 8).
Proof.
  intros. unfold load16. rewrite (load8_region_at m p l q) by (done || lia). simpl.
  rewrite (load8_region_at m p l (q + 1)) by (done || lia). simpl. do 4 f_equal. lia.
Qed.
Lemma load32_region m p l q :
  region m p l -> p <= q -> q - p + 4 <= Zlen l ->
  load32 m q = Some (l.[q - p] + l.[q - p + 1] * 2 ^ 8 +
                     (l.[q - p + 2] + l.[q - p + 3] * 2 ^ 8) * 2 ^ 16).
Proof.
  intros. unfold load32. rewrite (load16_region m p l q) by (done || lia). simpl.
  rewrite (load16_region m p l (q + 2)) by (done || lia). cbn -[Z.pow].
  replace (q + 2 - p) with (q - p + 2) by lia. by rewrite <- (Z.add_assoc (q - p) 2 1).
Qed.

Lemma be_val_be32 x : 0 <= x < 2 ^ 32 -> be_val (be32 x) = x.
Proof. intros. unfold be32. byte_arith. Qed.
Lemma be16_be_val a b : is_byte a -> is_byte b -> be16 (be_val [a; b]) = [a; b].
Proof. intros. unfold be16. list_cong; byte_arith. Qed.
Lemma be_val_range2 a b : is_byte a -> is_byte b -> 0 <= be_val [a; b] < 65536.
Proof. intros. byte_arith. Qed.
Lemma be_val_range4 a b c d :
  is_byte a -> is_byte b -> is_byte c -> is_byte d -> 0 <= be_val [a; b; c; d] < 2 ^ 32.
Proof. intros. byte_arith. Qed.

(** ** Allocation *)

Lemma fresh_spec m : 1 <= fresh m /\ forall k, is_Some (m !! k) -> k < fresh m.
Proof.
  unfold fresh. apply (map_fold_weak_ind (fun acc m => 1 <= acc /\ forall k, is_Some (m !! k) -> k < acc)).
  - split; [lia|]. intros k [x Hx]. by rewrite lookup_empty in Hx.
  - intros i x m' acc _ [H1 H2]. split; [lia|]. intros k [y Hy].
    destruct (decide (k = i)) as [->|]; [lia|]. rewrite lookup_insert_ne in Hy by done.
    specialize (H2 k (mk_is_Some _ _ Hy)). lia.
Qed.
Lemma fresh_region_out m p l : region m p l -> 0 < Zlen l -> p + Zlen l <= fresh m.
Proof.
  intros [Hp H] Hl. assert (p + (Zlen l - 1) < fresh m); [|lia].
  apply fresh_spec. rewrite H by lia. eauto.
Qed.
Lemma calloc_region m n p m' :
  calloc m n = (p, m') -> 0 <= n -> region m' p (zeros n).
Proof.
  intros [= <- <-] ?. apply region_write. pose proof (fresh_spec m) as [? _]. lia.
Qed.

(** ** Local arrays

    A local array is allocated above every allocated address and released when
    the function that declares it returns. *)
Definition dealloc (m : mem) (p n : Z) : mem := filter (fun '(a, _) => ~ p <= a < p + n) m.
Definition with_local {A} (m : mem) (bs : list Z) (body : ptr -> mem -> option (A * mem))
    : option (A * mem) :=
  let a := fresh m in
  '(r, m') ← body a (write m a bs);
  Some (r, dealloc m' a (Zlen bs)).

Lemma lookup_dealloc m p n q :
  dealloc m p n !! q = if decide (p <= q < p + n) then None else m !! q.
Proof.
  unfold dealloc. destruct (decide (p <= q < p + n)).
  - apply map_lookup_filter_None. right. intros x _ Hn. by apply Hn.
  - destruct (m !! q) as [x|] eqn:E.
    + by apply map_lookup_filter_Some.
    + apply map_lookup_filter_None. by left.
Qed.

(** A local array does not survive, and what the body writes to memory that was
    allocated before does. *)
Lemma with_local_write {A} m bs (body : ptr -> mem -> option (A * mem)) r q l :
  mapped m q (Zlen l) ->
  (forall a, fresh m <= a -> region (write m a bs) a bs ->
     (forall k, mapped m q k -> q + k <= a \/ k <= 0) ->
     body a (write m a bs) = Some (r, write (write m a bs) q l)) ->
  with_local m bs body = Some (r, write m q l).
Proof.
  intros Hq Hbody. unfold with_local. pose proof (fresh_spec m) as [Hf Hfresh].
  rewrite Hbody; [|lia|apply region_write; lia|].
  - cbn [mbind option_bind]. do 2 f_equal. apply map_eq. intros x.
    rewrite lookup_dealloc, !lookup_write. destruct (decide (fresh m <= x < _)).
    + assert (m !! x = None) as Hx.
      { apply eq_None_not_Some. intros H. specialize (Hfresh _ H). lia. }
      rewrite decide_False; [done|]. intros [? ?]. destruct Hq as [_ Hq].
      destruct (Hq (x - q)) as [y Hy]; [lia|]. replace (q + (x - q)) with x in Hy by lia. congruence.
    + done.
  - intros k [Hp Hk]. destruct (decide (k <= 0)); [by right|left].
    destruct (Hk (k - 1)) as [y Hy]; [lia|]. specialize (Hfresh _ (mk_is_Some _ _ Hy)). lia.
Qed.

(** A local array the body only reads. *)
Lemma with_local_same {A} m bs (body : ptr -> mem -> option (A * mem)) r :
  (forall a, fresh m <= a -> region (write m a bs) a bs ->
     body a (write m a bs) = Some (r, write m a bs)) ->
  with_local m bs body = Some (r, m).
Proof.
  intros Hbody. refine (with_local_write m bs body r 1 [] _ _).
  - split; [lia|]. intros i Hi. change (Zlen (@nil Z)) with 0 in Hi. lia.
  - intros a Ha Hr _. by apply Hbody.
Qed.

(** ** Lengths of the representations *)

Lemma Zlen_be16 x : Zlen (be16 x) = 2.
Proof. done. Qed.
Lemma Zlen_be32 x : Zlen (be32 x) = 4.
Proof. done. Qed.
#[export] Hint Rewrite Zlen_be16 Zlen_be32 : zlen.

(** ** In-place updates of a region *)

Definition zset (l : list Z) (i v : Z) : list Z := <[Z.to_nat i := v]> l.
(** [m'] is [m] but for the [n] bytes at [p]. *)
Definition same_outside (m m' : mem) (p n : Z) : Prop :=
  forall q, q < p \/ p + n <= q -> m' !! q = m !! q.

Lemma Zlen_zset l i v : Zlen (zset l i v) = Zlen l.
Proof. unfold Zlen, zset. by rewrite length_insert. Qed.
#[export] Hint Rewrite Zlen_zset : zlen.
Lemma znth_zset l i v j :
  0 <= i < Zlen l -> 0 <= j -> (zset l i v).[j] = if decide (i = j) then v else l.[j].
Proof.
  unfold Zlen, znth, zset. intros Hi Hj.
  rewrite !nth_lookup. case_decide as E.
  - subst. by rewrite list_lookup_insert_eq by lia.
  - by rewrite list_lookup_insert_ne by lia.
Qed.
Lemma same_outside_refl m p n : same_outside m m p n.
Proof. by intros q _. Qed.
Lemma same_outside_trans m1 m2 m3 p n :
  same_outside m1 m2 p n -> same_outside m2 m3 p n -> same_outside m1 m3 p n.
Proof. intros H1 H2 q Hq. by rewrite H2, H1. Qed.
Lemma same_outside_write m p n q bs :
  p <= q -> q + Zlen bs <= p + n -> same_outside m (write m q bs) p n.
Proof. intros ?? x Hx. apply lookup_write_out. lia. Qed.

Lemma region_same_outside m m' p l q n :
  region m p l -> same_outside m m' q n -> p + Zlen l <= q \/ q + n <= p -> region m' p l.
Proof. intros [Hp H] Ho Hd. split; [done|]. intros i Hi. rewrite Ho by lia. by apply H. Qed.
Lemma same_outside_le m m' p n k : same_outside m m' p n -> n <= k -> same_outside m m' p k.
Proof. intros H Hk q Hq. apply H. lia. Qed.

Lemma store8_region m p l i v :
  region m p l -> 0 <= i < Zlen l ->
  exists m', store8 m (p + i) v = Some m' /\ region m' p (zset l i (u8 v)) /\
             same_outside m m' p (Zlen l).
Proof.
  intros Hm Hi. exists (write m (p + i) [u8 v]).
  split; [apply (store8_mapped m p (Zlen l)); [by apply region_mapped|lia]|].
  split; [|apply same_outside_write; zlia].
  destruct Hm as [Hp Hm]. split; [done|]. intros j Hj. rewrite Zlen_zset in Hj.
  rewrite lookup_write, znth_zset by lia. change (Zlen [u8 v]) with 1.
  destruct (decide (i = j)) as [<-|].
  - rewrite decide_True by lia. by replace (p + i - (p + i)) with 0 by lia.
  - rewrite decide_False by lia. by apply Hm.
Qed.
Lemma store8_region_0 m p b l v :
  region m p (b :: l) ->
  exists m', store8 m p v = Some m' /\ region m' p (u8 v :: l) /\
             same_outside m m' p (Zlen (b :: l)).
Proof.
  intros Hm. destruct (store8_region m p (b :: l) 0 v Hm) as (m' & E & Hr & Ho); [zlia|].
  rewrite Z.add_0_r in E. eauto.
Qed.
Lemma store8_region_1 m p b c l v :
  region m p (b :: c :: l) ->
  exists m', store8 m (p + 1) v = Some m' /\ region m' p (b :: u8 v :: l) /\
             same_outside m m' p (Zlen (b :: c :: l)).
Proof.
  intros Hm. destruct (store8_region m p (b :: c :: l) 1 v Hm) as (m' & E & Hr & Ho); [zlia|]. eauto.
Qed.
