(* ===== verification/Endian.v ===== *)
(** * Big endian integers (src/lib/ov_base/src/encodings/ov_endian.c)

    The writers and readers of 16, 32 and 64 bit integers in network order. *)
From S2P Require Import Prelude CMem.

(** ** The code *)

(** A sequence of single octet stores [buffer[i] = v]. *)
Fixpoint store_octets (m : mem) (buffer : ptr) (l : list (Z * Z)) : option mem :=
  match l with
  | [] => Some m
  | (i, v) :: l => m ← store8 m (buffer + i) v; store_octets m buffer l
  end.

Definition ov_endian_write_uint16_be (m : mem) (buffer : ptr) (buffer_size : Z) (next : ptr)
    (number : Z) : option (bool * option ptr * mem) :=
  if (buffer =? NULL) || (buffer_size <? 2) then Some (false, None, m) else
  m ← store_octets m buffer [(1, number); (0, number .>> 8)];
  Some (true, (if negb (next =? NULL) then Some (buffer + 2) else None), m).

Definition ov_endian_write_uint32_be (m : mem) (buffer : ptr) (buffer_size : Z) (next : ptr)
    (number : Z) : option (bool * option ptr * mem) :=
  if (buffer =? NULL) || (buffer_size <? 4) then Some (false, None, m) else
  m ← store_octets m buffer [(3, number); (2, number .>> 8); (1, number .>> 16); (0, number .>> 24)];
  Some (true, (if negb (next =? NULL) then Some (buffer + 4) else None), m).

Definition ov_endian_write_uint64_be (m : mem) (buffer : ptr) (buffer_size : Z) (next : ptr)
    (number : Z) : option (bool * option ptr * mem) :=
  if (buffer =? NULL) || (buffer_size <? 8) then Some (false, None, m) else
  m ← store_octets m buffer
        [(7, number); (6, number .>> 8); (5, number .>> 16); (4, number .>> 24);
         (3, number .>> 32); (2, number .>> 40); (1, number .>> 48); (0, number .>> 56)];
  Some (true, (if negb (next =? NULL) then Some (buffer + 8) else None), m).

(** Result: truth value and [*number] when set. *)
Definition ov_endian_read_uint16_be (m : mem) (buffer : ptr) (buffer_size : Z) (number : ptr)
    : option (bool * option Z) :=
  if (buffer =? NULL) || (number =? NULL) || (buffer_size <? 2)
  then Some (false, if negb (number =? NULL) then Some 0 else None) else
  b1 ← load8 m (buffer + 1); b0 ← load8 m buffer;
  Some (true, Some ((b1 .<< 0) .| (b0 .<< 8))).

Definition ov_endian_read_uint32_be (m : mem) (buffer : ptr) (buffer_size : Z) (number : ptr)
    : option (bool * option Z) :=
  if (buffer =? NULL) || (number =? NULL) || (buffer_size <? 4)
  then Some (false, if negb (number =? NULL) then Some 0 else None) else
  b3 ← load8 m (buffer + 3); b2 ← load8 m (buffer + 2);
  b1 ← load8 m (buffer + 1); b0 ← load8 m buffer;
  Some (true, Some ((b3 .<< 0) .| (b2 .<< 8) .| (b1 .<< 16) .| (b0 .<< 24))).

Definition ov_endian_read_uint64_be (m : mem) (buffer : ptr) (buffer_size : Z) (number : ptr)
    : option (bool * option Z) :=
  if (buffer =? NULL) || (number =? NULL) || (buffer_size <? 8)
  then Some (false, if negb (number =? NULL) then Some 0 else None) else
  b7 ← load8 m (buffer + 7); b6 ← load8 m (buffer + 6);
  b5 ← load8 m (buffer + 5); b4 ← load8 m (buffer + 4);
  b3 ← load8 m (buffer + 3); b2 ← load8 m (buffer + 2);
  b1 ← load8 m (buffer + 1); b0 ← load8 m buffer;
  Some (true, Some ((b7 .<< 0) .| (b6 .<< 8) .| (b5 .<< 16) .| (b4 .<< 24) .|
                    (b3 .<< 32) .| (b2 .<< 40) .| (b1 .<< 48) .| (b0 .<< 56))).

(** ** Lemmas *)

Definition be64 (x : Z) : list Z :=
  [u8 (x .>> 56); u8 (x .>> 48); u8 (x .>> 40); u8 (x .>> 32);
   u8 (x .>> 24); u8 (x .>> 16); u8 (x .>> 8); u8 x].
Lemma Zlen_be64 x : Zlen (be64 x) = 8.
Proof. reflexivity. Qed.
#[export] Hint Rewrite Zlen_be64 : zlen.
Lemma bytes_be64 x : bytes (be64 x).
Proof. unfold be64. rewrite !bytes_cons. auto 12 with ov. Qed.
#[export] Hint Resolve bytes_be64 : ov.

(** Stores from the last octet down to the first write the whole list. *)
Lemma store_octets_down m buffer n l rest :
  mapped m buffer n -> Zlen l + Zlen rest <= n ->
  store_octets (write m (buffer + Zlen l) rest) buffer
    (rev (imap (fun i v => (Z.of_nat i, v)) l)) = Some (write m buffer ((u8 <$> l) ++ rest)).
Proof.
  revert rest. induction l as [|v l IH] using rev_ind; intros rest Hm Hn.
  - simpl. rewrite Zlen_nil, Z.add_0_r. done.
  - rewrite imap_app, rev_app_distr. cbn [imap rev app fst snd store_octets].
    rewrite Nat.add_0_r. rewrite Zlen_app, Zlen_cons, Zlen_nil in *. fold (Zlen l).
    pose proof (Zlen_nonneg l). pose proof (Zlen_nonneg rest).
    rewrite (store8_mapped _ buffer n) by (try apply mapped_write; done || lia). cbn [mbind option_bind].
    rewrite (write_prepend m (buffer + Zlen l) _ [u8 v] rest) by zlia.
    rewrite IH by (done || zlia). f_equal. by rewrite fmap_app, <- app_assoc.
Qed.
Lemma write_octets m buffer n l :
  mapped m buffer n -> Zlen l <= n ->
  store_octets m buffer (rev (imap (fun i v => (Z.of_nat i, v)) l)) = Some (write m buffer (u8 <$> l)).
Proof.
  intros Hm Hn. pose proof (store_octets_down m buffer n l [] Hm ltac:(zlia)) as E.
  by rewrite app_nil_r in E.
Qed.

Section Write.
Context (m : mem) (buffer size next number : Z).

Lemma write_uint16_be_spec :
  mapped m buffer 2 -> 2 <= size ->
  ov_endian_write_uint16_be m buffer size next number =
  Some (true, (if negb (next =? NULL) then Some (buffer + 2) else None), write m buffer (be16 number)).
Proof.
  intros Hm Hs. pose proof Hm as [Hp _]. unfold ov_endian_write_uint16_be, NULL. decide_guard.
  pose proof (write_octets m buffer 2 [number .>> 8; number] Hm ltac:(done)) as E.
  change (rev _) with [(1, number); (0, number .>> 8)] in E. by rewrite E.
Qed.
Lemma write_uint32_be_spec :
  mapped m buffer 4 -> 4 <= size ->
  ov_endian_write_uint32_be m buffer size next number =
  Some (true, (if negb (next =? NULL) then Some (buffer + 4) else None), write m buffer (be32 number)).
Proof.
  intros Hm Hs. pose proof Hm as [Hp _]. unfold ov_endian_write_uint32_be, NULL. decide_guard.
  pose proof (write_octets m buffer 4 [number .>> 24; number .>> 16; number .>> 8; number] Hm ltac:(done)) as E.
  change (rev _) with [(3, number); (2, number .>> 8); (1, number .>> 16); (0, number .>> 24)] in E.
  by rewrite E.
Qed.
Lemma write_uint64_be_spec :
  mapped m buffer 8 -> 8 <= size ->
  ov_endian_write_uint64_be m buffer size next number =
  Some (true, (if negb (next =? NULL) then Some (buffer + 8) else None), write m buffer (be64 number)).
Proof.
  intros Hm Hs. pose proof Hm as [Hp _]. unfold ov_endian_write_uint64_be, NULL. decide_guard.
  pose proof (write_octets m buffer 8 [number .>> 56; number .>> 48; number .>> 40; number .>> 32;
    number .>> 24; number .>> 16; number .>> 8; number] Hm ltac:(done)) as E.
  change (rev _) with [(7, number); (6, number .>> 8); (5, number .>> 16); (4, number .>> 24);
    (3, number .>> 32); (2, number .>> 40); (1, number .>> 48); (0, number .>> 56)] in E.
  by rewrite E.
Qed.
End Write.

Lemma lor_high x b n : 0 <= n -> 0 <= x < 2 ^ n -> x .| (b .<< n) = b * 2 ^ n + x.
Proof. intros. rewrite Z.lor_comm. by apply lor_shift_add. Qed.

Section Read.
Context (m : mem) (buffer size number : Z) (l : list Z).
Context (Hm : region m buffer l) (Hb : bytes l) (Hn : number <> NULL).

Lemma read_uint16_be_spec :
  2 <= Zlen l -> 2 <= size ->
  ov_endian_read_uint16_be m buffer size number = Some (true, Some (be_val [l.[0]; l.[1]])).
Proof using All.
  intros Hl Hs. pose proof Hm as [Hp _]. unfold ov_endian_read_uint16_be, NULL in *. decide_guard.
  rewrite !(load8_region m buffer l), (load8_region_0 m buffer l) by (done || lia). cbn [mbind option_bind].
  pose proof (bytes_znth l 0 Hb). pose proof (bytes_znth l 1 Hb). unfold is_byte in *.
  rewrite Z.shiftl_0_r, lor_high by lia. do 3 f_equal; byte_arith.
Qed.
Lemma read_uint32_be_spec :
  4 <= Zlen l -> 4 <= size ->
  ov_endian_read_uint32_be m buffer size number =
  Some (true, Some (be_val [l.[0]; l.[1]; l.[2]; l.[3]])).
Proof using All.
  intros Hl Hs. pose proof Hm as [Hp _]. unfold ov_endian_read_uint32_be, NULL in *. decide_guard.
  rewrite !(load8_region m buffer l), (load8_region_0 m buffer l) by (done || lia). cbn [mbind option_bind].
  pose proof (fun i => bytes_znth l i Hb) as B. pose proof (B 0). pose proof (B 1). pose proof (B 2).
  pose proof (B 3). unfold is_byte in *. clear B.
  rewrite Z.shiftl_0_r, (lor_high _ l.[2] 8), (lor_high _ l.[1] 16), (lor_high _ l.[0] 24) by lia. do 3 f_equal; byte_arith.
Qed.
Lemma read_uint64_be_spec :
  8 <= Zlen l -> 8 <= size ->
  ov_endian_read_uint64_be m buffer size number =
  Some (true, Some (be_val [l.[0]; l.[1]; l.[2]; l.[3]; l.[4]; l.[5]; l.[6]; l.[7]])).
Proof using All.
  intros Hl Hs. pose proof Hm as [Hp _]. unfold ov_endian_read_uint64_be, NULL in *. decide_guard.
  rewrite !(load8_region m buffer l), (load8_region_0 m buffer l) by (done || lia). cbn [mbind option_bind].
  pose proof (fun i => bytes_znth l i Hb) as B. pose proof (B 0). pose proof (B 1). pose proof (B 2).
  pose proof (B 3). pose proof (B 4). pose proof (B 5). pose proof (B 6). pose proof (B 7).
  unfold is_byte in *. clear B.
  rewrite Z.shiftl_0_r, (lor_high _ l.[6] 8), (lor_high _ l.[5] 16), (lor_high _ l.[4] 24),
    (lor_high _ l.[3] 32), (lor_high _ l.[2] 40), (lor_high _ l.[1] 48), (lor_high _ l.[0] 56) by lia. unfold be_val. cbn [fold_left]. do 3 f_equal; lia.
Qed.
End Read.

Lemma be_val_be64 x : 0 <= x < 2 ^ 64 -> be_val (be64 x) = x.
Proof.
  intros Hx. unfold be64, be_val, u8. cbn [fold_left]. rewrite !Z.shiftr_div_pow2 by lia.
  change (2 ^ 8) with 256. Z.div_mod_to_equations. lia.
Qed.

(** ** Properties *)

(** The big endian writers and readers are inverse on every integer of
    their width: the writer stores exactly the octets of the number, most
    significant first, moves [*next] behind them and touches nothing else, and
    the reader gives the number back. *)
Theorem endian_roundtrip m buffer size next out number :
  out <> NULL ->
  (mapped m buffer 2 -> 2 <= size -> 0 <= number < 2 ^ 16 -> next <> NULL ->
   exists m', ov_endian_write_uint16_be m buffer size next number = Some (true, Some (buffer + 2), m') /\
     m' = write m buffer (be16 number) /\
     ov_endian_read_uint16_be m' buffer size out = Some (true, Some number)) /\
  (mapped m buffer 4 -> 4 <= size -> 0 <= number < 2 ^ 32 -> next <> NULL ->
   exists m', ov_endian_write_uint32_be m buffer size next number = Some (true, Some (buffer + 4), m') /\
     m' = write m buffer (be32 number) /\
     ov_endian_read_uint32_be m' buffer size out = Some (true, Some number)) /\
  (mapped m buffer 8 -> 8 <= size -> 0 <= number < 2 ^ 64 -> next <> NULL ->
   exists m', ov_endian_write_uint64_be m buffer size next number = Some (true, Some (buffer + 8), m') /\
     m' = write m buffer (be64 number) /\
     ov_endian_read_uint64_be m' buffer size out = Some (true, Some number)).
Proof.
  intros Ho. split; [|split]; intros Hm Hs Hn Hx; pose proof Hm as [Hp _];
    rewrite ?write_uint16_be_spec, ?write_uint32_be_spec, ?write_uint64_be_spec by done;
    rewrite (proj2 (Z.eqb_neq next NULL)) by done; cbn [negb];
    (eexists; split; [reflexivity|]; split; [reflexivity|]).
  - rewrite (read_uint16_be_spec _ _ _ _ (be16 number)) by (auto using region_write with ov; done).
    do 2 f_equal. by apply f_equal, be_val_be16.
  - rewrite (read_uint32_be_spec _ _ _ _ (be32 number)) by (auto using region_write with ov; done).
    do 2 f_equal. by apply f_equal, be_val_be32.
  - rewrite (read_uint64_be_spec _ _ _ _ (be64 number)) by (auto using region_write with ov; done).
    do 2 f_equal. by apply f_equal, be_val_be64.
Qed.
Lemma endian_roundtrip_witness :
  exists m', ov_endian_write_uint64_be (write ∅ 16 (zeros 8)) 16 8 1 0x0102030405060708 = Some (true, Some 24, m') /\
     ov_endian_read_uint64_be m' 16 8 1 = Some (true, Some 0x0102030405060708).
Proof.
  destruct (proj2 (proj2 (endian_roundtrip (write ∅ 16 (zeros 8)) 16 8 1 1 0x0102030405060708
    ltac:(discriminate)))) as (m' & H1 & _ & H2).
  - apply (region_mapped _ 16 (zeros 8)), region_write. lia.
  - lia.
  - lia.
  - discriminate.
  - exists m'. split; [exact H1|exact H2].
Defined.
