(* ===== verification/Utf8.v ===== *)
(** * UTF-8 (src/lib/ov_base/src/encodings/ov_utf8.c)

    Validation, encoding and decoding of UTF-8, with the octet grammar of
    RFC 3629 section 4 as the specification. Random buffer generation, which
    draws from the C library's [random], is not modelled. *)
From S2P Require Import Prelude CMem.

(** ** The code *)

(** The loop of [ov_utf8_last_valid]: [p] is the read position, [c] the start
    of the last complete character, [rest] the C variable [open]. *)
Fixpoint last_valid_loop (fuel : nat) (m : mem) (p c : ptr) (rest : Z) (character_start : bool)
    : option ptr :=
  let stop := Some (if character_start then c else p) in
  match fuel with
  | O => None
  | S fuel =>
    if negb (0 <? rest) then stop else
    p0 ← load8 m p;
    if p0 <=? 0x7f then
      last_valid_loop fuel m (p + 1) p (rest - 1) character_start
    else if p0 <? 0xC2 then stop
    else if p0 <=? 0xDF then
      if rest <? 2 then stop else
      p1 ← load8 m (p + 1);
      if negb ((p1 .>> 6) =? 0x02) then stop else
      last_valid_loop fuel m (p + 2) p (rest - 2) character_start
    else if p0 <? 0xF0 then
      if rest <? 3 then stop else
      p1 ← load8 m (p + 1);
      if (p0 =? 0xE0) && (p1 <? 0xA0) then stop else
      if (p0 =? 0xED) && (0x9F <? p1) then stop else
      if negb ((p1 .>> 6) =? 0x02) then stop else
      p2 ← load8 m (p + 2);
      if negb ((p2 .>> 6) =? 0x02) then stop else
      last_valid_loop fuel m (p + 3) p (rest - 3) character_start
    else if p0 <=? 0xF4 then
      if rest <? 4 then stop else
      p1 ← load8 m (p + 1);
      if (p0 =? 0xf0) && (p1 <? 0x90) then stop else
      if (p0 =? 0xf4) && (0x8f <? p1) then stop else
      if negb ((p1 .>> 6) =? 0x02) then stop else
      p2 ← load8 m (p + 2);
      if negb ((p2 .>> 6) =? 0x02) then stop else
      p3 ← load8 m (p + 3);
      if negb ((p3 .>> 6) =? 0x02) then stop else
      last_valid_loop fuel m (p + 4) p (rest - 4) character_start
    else stop
  end.

Definition ov_utf8_last_valid (m : mem) (start : ptr) (length : Z) (character_start : bool)
    : option ptr :=
  if start =? NULL then Some NULL else
  last_valid_loop (S (Z.to_nat length)) m start NULL length character_start.

Definition ov_utf8_validate_sequence (m : mem) (start : ptr) (length : Z) : option bool :=
  if (start =? NULL) || (length <? 1) then Some false else
  result ← ov_utf8_last_valid m start length false;
  if result =? NULL then Some false else
  if negb (result - start =? length) then Some false else
  Some true.

(** [array] is the value of [*start] on entry; the result is the returned
    truth value, [*start] and [*used] on exit, and the memory. *)
Definition ov_utf8_encode_code_point (m : mem) (number : Z) (start array : ptr) (rest : Z)
    (used : ptr) : option (bool * ptr * option Z * mem) :=
  if (start =? NULL) || (used =? NULL) then Some (false, array, None, m) else
  let target n := if array =? NULL then calloc m n else (array, m) in
  if number <=? 127 then
    if negb (array =? NULL) && (rest <? 1) then Some (false, array, Some 0, m) else
    let '(array, m) := target 1 in
    m ← store8 m array (number .& 0x7F);
    Some (true, array, Some 1, m)
  else if number <=? 0x07FF then
    if negb (array =? NULL) && (rest <? 2) then Some (false, array, Some 0, m) else
    let '(array, m) := target 2 in
    m ← store8 m (array + 1) (0x80 .| (0x3F .& number));
    m ← store8 m array (0xC0 .| (0x1F .& (number .>> 6)));
    Some (true, array, Some 2, m)
  else if (0xD800 <=? number) && (number <=? 0xDFFF) then Some (false, array, Some 0, m)
  else if number <=? 0xFFFF then
    if negb (array =? NULL) && (rest <? 3) then Some (false, array, Some 0, m) else
    let '(array, m) := target 3 in
    m ← store8 m (array + 2) (0x80 .| (0x3F .& number));
    m ← store8 m (array + 1) (0x80 .| (0x3F .& (number .>> 6)));
    m ← store8 m array (0xE0 .| (0x0F .& (number .>> 12)));
    Some (true, array, Some 3, m)
  else if number <=? 0x10FFFF then
    if negb (array =? NULL) && (rest <? 4) then Some (false, array, Some 0, m) else
    let '(array, m) := target 4 in
    m ← store8 m (array + 3) (0x80 .| (0x3F .& number));
    m ← store8 m (array + 2) (0x80 .| (0x3F .& (number .>> 6)));
    m ← store8 m (array + 1) (0x80 .| (0x3F .& (number .>> 12)));
    m ← store8 m array (0xF0 .| (0x07 .& (number .>> 18)));
    Some (true, array, Some 4, m)
  else Some (false, array, Some 0, m).

(** The result is the code point and [*bytes] on exit ([None]: not written). *)
Definition ov_utf8_decode_code_point (m : mem) (p : ptr) (rest : Z) (bytes : ptr)
    : option (Z * option Z) :=
  if (p =? NULL) || (rest <? 1) || (bytes =? NULL) then Some (0, None) else
  let invalid := Some (0, Some 0) in
  p0 ← load8 m p;
  if p0 <=? 0x7f then Some (p0 .& 0x7F, Some 1)
  else if p0 <? 0xC2 then invalid
  else if p0 <=? 0xDF then
    if rest <? 2 then invalid else
    p1 ← load8 m (p + 1);
    if negb ((p1 .>> 6) =? 0x02) then invalid else
    Some (((p0 .<< 6) .& 0x07C0) .| (p1 .& 0x3F), Some 2)
  else if p0 <? 0xF0 then
    if rest <? 3 then invalid else
    p1 ← load8 m (p + 1);
    if (p0 =? 0xE0) && (p1 <? 0xA0) then invalid else
    if (p0 =? 0xED) && (0x9F <? p1) then invalid else
    if negb ((p1 .>> 6) =? 0x02) then invalid else
    p2 ← load8 m (p + 2);
    if negb ((p2 .>> 6) =? 0x02) then invalid else
    Some (((p0 .<< 12) .& 0xF000) .| ((p1 .<< 6) .& 0x0FC0) .| (p2 .& 0x3F), Some 3)
  else if p0 <=? 0xF4 then
    if rest <? 4 then invalid else
    p1 ← load8 m (p + 1);
    if (p0 =? 0xf0) && (p1 <? 0x90) then invalid else
    if (p0 =? 0xf4) && (0x8f <? p1) then invalid else
    if negb ((p1 .>> 6) =? 0x02) then invalid else
    p2 ← load8 m (p + 2);
    if negb ((p2 .>> 6) =? 0x02) then invalid else
    p3 ← load8 m (p + 3);
    if negb ((p3 .>> 6) =? 0x02) then invalid else
    Some (((p0 .<< 18) .& 0x1C0000) .| ((p1 .<< 12) .& 0x3F000) .|
          ((p2 .<< 6) .& 0x0FC0) .| (p3 .& 0x3F), Some 4)
  else invalid.

(** ** Specification: the grammar of RFC 3629 *)

Definition utf8_tail (t : Z) : Prop := 0x80 <= t <= 0xBF.

Inductive utf8_char : list Z -> Prop :=
  | utf8_1 b : 0 <= b <= 0x7F -> utf8_char [b]
  | utf8_2 b t : 0xC2 <= b <= 0xDF -> utf8_tail t -> utf8_char [b; t]
  | utf8_3_E0 t u : 0xA0 <= t <= 0xBF -> utf8_tail u -> utf8_char [0xE0; t; u]
  | utf8_3_low b t u : 0xE1 <= b <= 0xEC -> utf8_tail t -> utf8_tail u -> utf8_char [b; t; u]
  | utf8_3_ED t u : 0x80 <= t <= 0x9F -> utf8_tail u -> utf8_char [0xED; t; u]
  | utf8_3_high b t u : 0xEE <= b <= 0xEF -> utf8_tail t -> utf8_tail u -> utf8_char [b; t; u]
  | utf8_4_F0 t u v : 0x90 <= t <= 0xBF -> utf8_tail u -> utf8_tail v -> utf8_char [0xF0; t; u; v]
  | utf8_4_mid b t u v :
      0xF1 <= b <= 0xF3 -> utf8_tail t -> utf8_tail u -> utf8_tail v -> utf8_char [b; t; u; v]
  | utf8_4_F4 t u v : 0x80 <= t <= 0x8F -> utf8_tail u -> utf8_tail v -> utf8_char [0xF4; t; u; v].

Inductive utf8_octets : list Z -> Prop :=
  | utf8_octets_nil : utf8_octets []
  | utf8_octets_cons ch l : utf8_char ch -> utf8_octets l -> utf8_octets (ch ++ l).

(** The Unicode scalar values, and the code point of a character. *)
Definition scalar_value (n : Z) : Prop := 0 <= n <= 0x10FFFF /\ ~ (0xD800 <= n <= 0xDFFF).
Definition utf8_value (ch : list Z) : Z :=
  match ch with
  | [b] => b
  | [b; t] => (b - 0xC0) * 64 + (t - 0x80)
  | [b; t; u] => (b - 0xE0) * 4096 + (t - 0x80) * 64 + (u - 0x80)
  | [b; t; u; v] => (b - 0xF0) * 262144 + (t - 0x80) * 4096 + (u - 0x80) * 64 + (v - 0x80)
  | _ => 0
  end.

(** No character of the grammar is a prefix of [l]. *)
Definition no_char (l : list Z) : Prop := forall ch l', l = ch ++ l' -> ~ utf8_char ch.

(** ** Lemmas *)

Lemma tail_shift t : is_byte t -> (t .>> 6 =? 2) = (0x80 <=? t) && (t <=? 0xBF).
Proof.
  intros Ht. apply eqb_prop. revert t Ht. apply byte_forall. vm_compute. reflexivity.
Qed.

Ltac inv_char H :=
  inversion H; subst; clear H; simplify_list_eq; unfold utf8_tail in *.

Lemma utf8_char_bytes ch : utf8_char ch -> bytes ch.
Proof.
  destruct 1; unfold utf8_tail, is_byte in *; repeat constructor; lia.
Qed.
Lemma utf8_octets_bytes l : utf8_octets l -> bytes l.
Proof. induction 1; [constructor|]. apply bytes_app. auto using utf8_char_bytes. Qed.

Lemma utf8_char_length ch : utf8_char ch -> 1 <= Zlen ch <= 4.
Proof. destruct 1; unfold Zlen; simpl; lia. Qed.

(** The grammar is prefix free, so the characters of a sequence are unique. *)
Lemma utf8_char_prefix_free ch1 l1 ch2 l2 :
  utf8_char ch1 -> utf8_char ch2 -> ch1 ++ l1 = ch2 ++ l2 -> ch1 = ch2 /\ l1 = l2.
Proof.
  unfold utf8_tail in *.
  destruct 1; destruct 1; simpl; intros; simplify_eq; unfold utf8_tail in *;
    first [done | exfalso; lia].
Qed.

(** One turn of the loop: either it consumes one character of the grammar, or
    it stops because no character of the grammar starts there. *)
Ltac step_load m p l i := rewrite (load8_region m p l i) by (done || lia); cbn [mbind option_bind].
Ltac stop_leaf :=
  right; split; [|reflexivity]; intros ch l' E HC; destruct HC; subst;
  unfold znth, utf8_tail in *; simpl in *; zlia.
Ltac char_leaf split_lemma :=
  left; eexists _, _; split; [apply split_lemma; lia|]; split;
  [|f_equal; zlia].
Ltac step_if := match goal with |- context [if ?b then _ else _] => destruct b eqn:? end; bool_to_prop.

Lemma utf8_lead3 b :
  0xE0 <= b < 0xF0 -> b = 0xE0 \/ 0xE1 <= b <= 0xEC \/ b = 0xED \/ 0xEE <= b <= 0xEF.
Proof. lia. Qed.
Lemma utf8_lead4 b : 0xF0 <= b <= 0xF4 -> b = 0xF0 \/ 0xF1 <= b <= 0xF3 \/ b = 0xF4.
Proof. lia. Qed.

Lemma last_valid_step fuel m p c l cs :
  region m p l -> bytes l ->
  (exists ch l', l = ch ++ l' /\ utf8_char ch /\
     last_valid_loop (S fuel) m p c (Zlen l) cs =
     last_valid_loop fuel m (p + Zlen ch) p (Zlen l') cs) \/
  (no_char l /\ last_valid_loop (S fuel) m p c (Zlen l) cs = Some (if cs then c else p)).
Proof.
  intros Hm Hb.
  pose proof (bytes_znth l 0 Hb) as B0. pose proof (bytes_znth l 1 Hb) as B1.
  pose proof (bytes_znth l 2 Hb) as B2. pose proof (bytes_znth l 3 Hb) as B3.
  pose proof (tail_shift _ B1) as T1. pose proof (tail_shift _ B2) as T2.
  pose proof (tail_shift _ B3) as T3. unfold is_byte in *.
  cbn [last_valid_loop]. generalize (if cs then c else p) as stop. intros stop.
  step_if; [stop_leaf|].
  rewrite (load8_region_0 m p l) by (done || lia). cbn [mbind option_bind].
  step_if. { char_leaf split_1. apply utf8_1. lia. }
  step_if; [stop_leaf|]. step_if.
  { step_if; [stop_leaf|]. step_load m p l 1. rewrite T1. step_if; [stop_leaf|].
    char_leaf split_2. constructor; unfold utf8_tail; lia. }
  step_if.
  { step_if; [stop_leaf|]. step_load m p l 1. step_if; [stop_leaf|]. step_if; [stop_leaf|].
    rewrite T1. step_if; [stop_leaf|]. step_load m p l 2. rewrite T2. step_if; [stop_leaf|].
    char_leaf split_3. destruct (utf8_lead3 l.[0]) as [E|[?|[E|?]]]; [lia|..];
      rewrite ?E in *; constructor; unfold utf8_tail; lia. }
  step_if; [|stop_leaf].
  step_if; [stop_leaf|]. step_load m p l 1. step_if; [stop_leaf|]. step_if; [stop_leaf|].
  rewrite T1. step_if; [stop_leaf|]. step_load m p l 2. rewrite T2. step_if; [stop_leaf|].
  step_load m p l 3. rewrite T3. step_if; [stop_leaf|].
  char_leaf split_4. destruct (utf8_lead4 l.[0]) as [E|[?|E]]; [lia|..];
    rewrite ?E in *; constructor; unfold utf8_tail; lia.
Qed.

(** A sequence splits into its longest well-formed prefix and the rest in one
    way only. *)
Lemma utf8_octets_app l k : utf8_octets l -> utf8_octets k -> utf8_octets (l ++ k).
Proof. induction 1; intros; [done|]. rewrite <- app_assoc. constructor; auto. Qed.

Lemma utf8_octets_rest l1 l2 : utf8_octets l1 -> utf8_octets (l1 ++ l2) -> utf8_octets l2.
Proof.
  intros H1. induction H1 as [|ch l Hc Hl IH]; [done|]. rewrite <- app_assoc. intros H.
  inversion H as [E|ch' l' Hc' Hl' E].
  - apply utf8_char_length in Hc. destruct ch; [zlia|done].
  - apply utf8_char_prefix_free in E as [_ ->]; auto.
Qed.

Lemma no_char_octets l : no_char l -> utf8_octets l -> l = [].
Proof. intros Hn H. destruct H as [|ch l' Hc Hl]; [done|]. by destruct (Hn ch l' eq_refl). Qed.

(** The well-formed prefix [l1] the loop computes, and its last character. *)
Definition valid_prefix (l l1 l2 : list Z) : Prop :=
  l = l1 ++ l2 /\ utf8_octets l1 /\ no_char l2.

Lemma last_valid_loop_spec fuel m p c l cs :
  region m p l -> bytes l -> (length l < fuel)%nat ->
  exists l1 l2 r, valid_prefix l l1 l2 /\ last_valid_loop fuel m p c (Zlen l) cs = Some r /\
    if cs then l1 = [] /\ r = c \/
               exists l0 ch, l1 = l0 ++ ch /\ utf8_octets l0 /\ utf8_char ch /\ r = p + Zlen l0
    else r = p + Zlen l1.
Proof.
  revert p c l. induction fuel as [|fuel IH]; intros p c l Hm Hb Hf; [lia|].
  destruct (last_valid_step fuel m p c l cs Hm Hb) as [(ch & l' & -> & Hc & ->)|[Hn ->]].
  - pose proof (utf8_char_length ch Hc) as Hlen. apply bytes_app in Hb as [_ Hb].
    destruct (IH (p + Zlen ch) p l') as (l1 & l2 & r & (-> & H1 & H2) & -> & Hr).
    { by eapply region_app_r. } { done. } { rewrite length_app in Hf. unfold Zlen in Hlen. lia. }
    exists (ch ++ l1), l2, r. split; [|split; [done|]].
    { split; [by rewrite app_assoc|]. split; [by constructor|done]. }
    destruct cs; [right|rewrite Zlen_app; lia].
    destruct Hr as [[-> ->]|(l0 & ch0 & -> & H0 & Hc0 & ->)].
    + exists [], ch. rewrite app_nil_r. repeat split; [constructor|done|rewrite Zlen_nil; lia].
    + exists (ch ++ l0), ch0. rewrite app_assoc.
      repeat split; [by constructor|done|rewrite Zlen_app; lia].
  - exists [], l. eexists. split; [by repeat split; [constructor|]|]. split; [done|].
    destruct cs; [by left|]. rewrite Zlen_nil. lia.
Qed.

(** Validation accepts exactly the non-empty sequences of the grammar, for
    every buffer, without reading outside of it. *)
Lemma validate_sequence_spec m start l :
  region m start l -> bytes l ->
  exists b, ov_utf8_validate_sequence m start (Zlen l) = Some b /\
            (b = true <-> l <> [] /\ utf8_octets l).
Proof.
  intros Hm Hb. unfold ov_utf8_validate_sequence, ov_utf8_last_valid, NULL.
  pose proof Hm as [Hp _].
  destruct l as [|x l'] eqn:El; [|rewrite <- El in *].
  { rewrite orb_comm. simpl. exists false. split; [done|]. split; [done|by intros [? _]]. }
  assert (Hl : 0 < Zlen l) by (subst; zlia). decide_guard. decide_guard.
  destruct (last_valid_loop_spec (S (Z.to_nat (Zlen l))) m start 0 l false Hm Hb (fuel_ok l))
    as (l1 & l2 & r & (E & H1 & H2) & -> & ->). cbn [mbind option_bind].
  pose proof (Zlen_nonneg l1). decide_guard. rewrite E, Zlen_app. pose proof (Zlen_nonneg l2).
  destruct (decide (l2 = [])) as [->|Hne].
  - rewrite Zlen_nil. decide_guard. exists true. rewrite app_nil_r in *. split; [done|].
    split; [|done]. intros _. subst l. split; [congruence|done].
  - assert (0 < Zlen l2) by (destruct l2; [done|zlia]). decide_guard.
    exists false. split; [done|]. split; [done|]. intros [_ Ho].
    by apply utf8_octets_rest, (no_char_octets l2 H2) in Ho.
Qed.

(** ** Encoding and decoding *)

(** The reference encoder: RFC 3629 section 3, by division. *)
Definition utf8_encoding (n : Z) : list Z :=
  if n <=? 127 then [n]
  else if n <=? 0x7FF then [0xC0 + n / 64; 0x80 + n mod 64]
  else if n <=? 0xFFFF then [0xE0 + n / 4096; 0x80 + n / 64 mod 64; 0x80 + n mod 64]
  else [0xF0 + n / 262144; 0x80 + n / 4096 mod 64; 0x80 + n / 64 mod 64; 0x80 + n mod 64].

Lemma validate_true m start l :
  region m start l -> bytes l -> l <> [] -> utf8_octets l ->
  ov_utf8_validate_sequence m start (Zlen l) = Some true.
Proof.
  intros Hm Hb Hl Hu. destruct (validate_sequence_spec m start l Hm Hb) as (b & -> & Hiff).
  by rewrite (proj2 Hiff).
Qed.
Lemma ascii_utf8 l : Forall (fun b => 0 <= b <= 0x7F) l -> utf8_octets l.
Proof.
  induction 1 as [|b l Hb _ IH]; [constructor|]. apply (utf8_octets_cons [b]); [by constructor|done].
Qed.

Lemma utf8_encoding_char n :
  scalar_value n -> utf8_char (utf8_encoding n) /\ utf8_value (utf8_encoding n) = n.
Proof.
  intros [Hn Hs]. unfold utf8_encoding. repeat case_if; (split; [|simpl; dlia]).
  - apply utf8_1. lia.
  - apply utf8_2; unfold utf8_tail; dlia.
  - assert (n / 4096 = 0 \/ n / 4096 = 13 \/ 1 <= n / 4096 <= 12 \/ 14 <= n / 4096 <= 15)
      as [E|[E|[E|E]]] by dlia; rewrite ?E; [apply utf8_3_E0|apply utf8_3_ED|apply utf8_3_low|
        apply utf8_3_high]; unfold utf8_tail; dlia.
  - assert (n / 262144 = 0 \/ 1 <= n / 262144 <= 3 \/ n / 262144 = 4) as [E|[E|E]] by dlia;
      rewrite ?E; [apply utf8_4_F0|apply utf8_4_mid|apply utf8_4_F4]; unfold utf8_tail; dlia.
Qed.

Lemma utf8_value_encoding ch :
  utf8_char ch -> scalar_value (utf8_value ch) /\ utf8_encoding (utf8_value ch) = ch.
Proof.
  unfold scalar_value, utf8_encoding. destruct 1; unfold utf8_tail in *; simpl utf8_value;
    (split; [lia|]); repeat decide_guard; list_cong; dlia.
Qed.

Lemma lor_cont x : 0x80 .| (0x3F .& x) = 0x80 + x mod 64.
Proof.
  rewrite Z.land_comm. change 0x3F with (Z.ones 6). rewrite Z.land_ones by lia.
  apply (lor_shift_add 2 (x mod 2 ^ 6) 6); [lia|]. apply Z.mod_pos_bound. lia.
Qed.
Lemma lor_lead2 x : 0 <= x < 32 -> 0xC0 .| (0x1F .& x) = 0xC0 + x.
Proof.
  intros. rewrite Z.land_comm. change 0x1F with (Z.ones 5).
  rewrite Z.land_ones, Z.mod_small by lia. by apply (lor_shift_add 6 x 5).
Qed.
Lemma lor_lead3 x : 0 <= x < 16 -> 0xE0 .| (0x0F .& x) = 0xE0 + x.
Proof.
  intros. rewrite Z.land_comm. change 0x0F with (Z.ones 4).
  rewrite Z.land_ones, Z.mod_small by lia. by apply (lor_shift_add 14 x 4).
Qed.
Lemma lor_lead4 x : 0 <= x < 8 -> 0xF0 .| (0x07 .& x) = 0xF0 + x.
Proof.
  intros. rewrite Z.land_comm. change 0x07 with (Z.ones 3).
  rewrite Z.land_ones, Z.mod_small by lia. by apply (lor_shift_add 30 x 3).
Qed.

(** Where [ov_utf8_encode_code_point] writes: the caller's buffer, or a fresh
    allocation when [*start] is [NULL]. *)
Definition utf8_target (m : mem) (array : ptr) : ptr := if array =? NULL then fresh m else array.
(** The caller's buffer has room for [n] octets, or asks for an allocation. *)
Definition utf8_room (m : mem) (array : ptr) (rest n : Z) : Prop :=
  array = NULL \/ mapped m array n /\ n <= rest.

Definition alloc_or (m : mem) (array : ptr) (n : Z) : ptr * mem :=
  if array =? NULL then calloc m n else (array, m).
Lemma alloc_or_spec m array rest n a m1 :
  utf8_room m array rest n -> 0 <= n -> alloc_or m array n = (a, m1) ->
  a = utf8_target m array /\ mapped m1 a n /\
  forall bs, Zlen bs = n -> write m1 a bs = write m (utf8_target m array) bs.
Proof.
  unfold alloc_or, utf8_target, utf8_room, NULL. intros Hr Hn.
  destruct (Z.eqb_spec array 0); intros [= <- <-].
  - split; [done|]. pose proof (fresh_spec m) as [Hf _]. split.
    + eapply mapped_sub; [apply region_mapped, region_write; lia|lia|zlia].
    + intros bs Hbs. apply write_overwrite. zlia.
  - destruct Hr as [?|[Hm Hle]]; done.
Qed.

(** The stores of one encoding, last octet first. *)
Ltac store_octet a n :=
  rewrite (store8_mapped _ a n) by first [done | by repeat apply mapped_write | lia];
  cbn [mbind option_bind].
Ltac store_octets a n :=
  repeat store_octet a n; rewrite !u8_id by (unfold is_byte; dlia);
  rewrite ?(write_prepend _ (a + 2) _ [_] [_]), ?(write_prepend _ (a + 1) _ [_] _),
    ?(write_prepend _ a _ [_] _) by zlia; cbn [app].

Lemma encode_code_point_spec m number start array rest used :
  start <> NULL -> used <> NULL -> scalar_value number ->
  utf8_room m array rest (Zlen (utf8_encoding number)) ->
  ov_utf8_encode_code_point m number start array rest used =
    Some (true, utf8_target m array, Some (Zlen (utf8_encoding number)),
          write m (utf8_target m array) (utf8_encoding number)).
Proof.
  intros Hs Hu [Hn Hsur] Hr.
  assert (Hroom : negb (array =? NULL) && (rest <? Zlen (utf8_encoding number)) = false).
  { unfold utf8_room, NULL in *. destruct Hr as [->|[_ ?]]; [done|]. lia. }
  destruct (alloc_or m array (Zlen (utf8_encoding number))) as [a m1] eqn:Ha.
  pose proof (alloc_or_spec _ _ _ _ _ _ Hr (Zlen_nonneg _) Ha) as (<- & Hm1 & Hw).
  specialize (Hw (utf8_encoding number) eq_refl). unfold alloc_or in Ha.
  unfold ov_utf8_encode_code_point. replace (_ || _) with false by (unfold NULL in *; lia).
  rewrite !lor_cont, !Z.shiftr_div_pow2 by lia. change (2 ^ 6) with 64.
  change (2 ^ 12) with 4096. change (2 ^ 18) with 262144. unfold utf8_encoding in *.
  destruct (Z.leb_spec number 127);
    [|destruct (Z.leb_spec number 0x7FF);
      [|replace ((0xD800 <=? number) && (number <=? 0xDFFF)) with false by lia;
        destruct (Z.leb_spec number 0xFFFF);
        [|replace (number <=? 0x10FFFF) with true by lia]]];
    unfold Zlen in *; simpl length in *; change (Z.of_nat 1) with 1 in *;
    change (Z.of_nat 2) with 2 in *; change (Z.of_nat 3) with 3 in *; change (Z.of_nat 4) with 4 in *;
    rewrite Hroom; cbv zeta; rewrite Ha.
  - change 0x7F with (Z.ones 7). rewrite Z.land_ones, Z.mod_small by lia.
    store_octets a 1. by rewrite Hw.
  - rewrite lor_lead2 by dlia. store_octets a 2. by rewrite Hw.
  - rewrite lor_lead3 by dlia. store_octets a 3. by rewrite Hw.
  - rewrite lor_lead4 by dlia. store_octets a 4. by rewrite Hw.
Qed.

(** Without room, or for a number that is no scalar value, nothing is written. *)
Lemma encode_code_point_fail m number start array rest used :
  0 <= number -> start <> NULL -> used <> NULL ->
  ~ scalar_value number \/ (array <> NULL /\ rest < Zlen (utf8_encoding number)) ->
  ov_utf8_encode_code_point m number start array rest used = Some (false, array, Some 0, m).
Proof.
  unfold scalar_value, utf8_encoding, ov_utf8_encode_code_point, NULL. intros Hn Hs Hu H.
  replace (_ || _) with false by lia.
  destruct (Z.leb_spec number 127);
    [|destruct (Z.leb_spec number 0x7FF);
      [|destruct (decide (0xD800 <= number <= 0xDFFF));
         [by replace ((0xD800 <=? number) && _) with true by lia|
          replace ((0xD800 <=? number) && _) with false by lia;
          destruct (Z.leb_spec number 0xFFFF);
          [|destruct (Z.leb_spec number 0x10FFFF); [|done]]]]];
    (replace (negb (array =? 0) && _) with true by zlia); done.
Qed.

(** The masked shifts of [ov_utf8_decode_code_point], octet by octet. *)
Lemma lead2_bits b : 0xC2 <= b <= 0xDF -> (b .<< 6) .& 0x07C0 = (b - 0xC0) .<< 6.
Proof.
  apply (byte_range_eq (fun b => (b .<< 6) .& 0x07C0) (fun b => (b - 0xC0) .<< 6)); [|lia..].
  vm_compute. reflexivity.
Qed.
Lemma lead3_bits b : 0xE0 <= b <= 0xEF -> (b .<< 12) .& 0xF000 = (b - 0xE0) .<< 12.
Proof.
  apply (byte_range_eq (fun b => (b .<< 12) .& 0xF000) (fun b => (b - 0xE0) .<< 12)); [|lia..].
  vm_compute. reflexivity.
Qed.
Lemma lead4_bits b : 0xF0 <= b <= 0xF4 -> (b .<< 18) .& 0x1C0000 = (b - 0xF0) .<< 18.
Proof.
  apply (byte_range_eq (fun b => (b .<< 18) .& 0x1C0000) (fun b => (b - 0xF0) .<< 18)); [|lia..].
  vm_compute. reflexivity.
Qed.
Lemma tail_bits b : utf8_tail b -> b .& 0x3F = b - 0x80.
Proof.
  apply (byte_range_eq (fun b => b .& 0x3F) (fun b => b - 0x80)); [|lia..].
  vm_compute. reflexivity.
Qed.
Lemma tail_bits6 b : utf8_tail b -> (b .<< 6) .& 0x0FC0 = (b - 0x80) .<< 6.
Proof.
  apply (byte_range_eq (fun b => (b .<< 6) .& 0x0FC0) (fun b => (b - 0x80) .<< 6)); [|lia..].
  vm_compute. reflexivity.
Qed.
Lemma tail_bits12 b : utf8_tail b -> (b .<< 12) .& 0x3F000 = (b - 0x80) .<< 12.
Proof.
  apply (byte_range_eq (fun b => (b .<< 12) .& 0x3F000) (fun b => (b - 0x80) .<< 12)); [|lia..].
  vm_compute. reflexivity.
Qed.
Lemma lor_6 a b : 0 <= b < 64 -> (a .<< 6) .| b = a * 64 + b.
Proof. intros. by apply (lor_shift_add a b 6). Qed.
Lemma lor_12 a b : 0 <= b < 4096 -> (a .<< 12) .| b = a * 4096 + b.
Proof. intros. by apply (lor_shift_add a b 12). Qed.
Lemma lor_18 a b : 0 <= b < 262144 -> (a .<< 18) .| b = a * 262144 + b.
Proof. intros. by apply (lor_shift_add a b 18). Qed.

(** Decoding reads the character of the grammar at the front of the buffer. *)
Ltac decode_case Hch :=
  pose proof Hch as [Hp _];
  unfold ov_utf8_decode_code_point, NULL, utf8_tail in *; decide_guard;
  rewrite (load8_at_0 _ _ _ _ Hch); cbn [mbind option_bind];
  repeat first
    [ rewrite (load8_at _ _ _ 1 _ Hch eq_refl) by lia; cbn [mbind option_bind]
    | rewrite (load8_at _ _ _ 2 _ Hch eq_refl) by lia; cbn [mbind option_bind]
    | rewrite (load8_at _ _ _ 3 _ Hch eq_refl) by lia; cbn [mbind option_bind]
    | rewrite tail_shift by (unfold is_byte; lia)
    | decide_guard ];
  do 2 f_equal; simpl utf8_value.

Lemma decode_bits3 b t u :
  0xE0 <= b <= 0xEF -> utf8_tail t -> utf8_tail u ->
  ((b .<< 12) .& 0xF000) .| ((t .<< 6) .& 0x0FC0) .| (u .& 0x3F) = utf8_value [b; t; u].
Proof.
  intros. rewrite lead3_bits, (tail_bits u), tail_bits6 by done. unfold utf8_tail in *.
  rewrite <- Z.lor_assoc, lor_6, lor_12 by lia. simpl. lia.
Qed.
Lemma decode_bits4 b t u v :
  0xF0 <= b <= 0xF4 -> utf8_tail t -> utf8_tail u -> utf8_tail v ->
  ((b .<< 18) .& 0x1C0000) .| ((t .<< 12) .& 0x3F000) .| ((u .<< 6) .& 0x0FC0) .| (v .& 0x3F) =
    utf8_value [b; t; u; v].
Proof.
  intros. rewrite lead4_bits, (tail_bits v), tail_bits6, tail_bits12 by done. unfold utf8_tail in *.
  rewrite <- !Z.lor_assoc, lor_6, lor_12, lor_18 by lia. simpl. lia.
Qed.

Lemma decode_char_spec m p ch rest bytes_ :
  region m p ch -> utf8_char ch -> Zlen ch <= rest -> bytes_ <> NULL ->
  ov_utf8_decode_code_point m p rest bytes_ = Some (utf8_value ch, Some (Zlen ch)).
Proof.
  intros Hch Hc Hlen Hby.
  destruct Hc; rewrite ?Zlen_cons, Zlen_nil in Hlen; decode_case Hch;
    try (rewrite ?decode_bits3, ?decode_bits4 by (unfold utf8_tail; lia); done).
  - change 0x7F with (Z.ones 7). rewrite Z.land_ones by lia. apply Z.mod_small. lia.
  - rewrite lead2_bits, tail_bits, lor_6 by (unfold utf8_tail; lia). done.
Qed.

(** Where no character of the grammar starts, decoding reports 0 octets. *)
Lemma decode_no_char m p l bytes_ :
  region m p l -> bytes l -> no_char l -> 0 < Zlen l -> bytes_ <> NULL ->
  ov_utf8_decode_code_point m p (Zlen l) bytes_ = Some (0, Some 0).
Proof.
  intros Hm Hb Hn Hl Hby. pose proof Hm as [Hp _].
  pose proof (bytes_znth l 0 Hb) as B0. pose proof (bytes_znth l 1 Hb) as B1.
  pose proof (bytes_znth l 2 Hb) as B2. pose proof (bytes_znth l 3 Hb) as B3.
  pose proof (tail_shift _ B1) as T1. pose proof (tail_shift _ B2) as T2.
  pose proof (tail_shift _ B3) as T3. unfold is_byte, ov_utf8_decode_code_point, NULL in *.
  decide_guard. rewrite (load8_region_0 m p l) by done. cbn [mbind option_bind].
  step_if. { destruct (Hn _ _ (split_1 l ltac:(lia))). apply utf8_1. lia. }
  step_if; [done|]. step_if.
  { step_if; [done|]. step_load m p l 1. rewrite T1. step_if; [done|].
    destruct (Hn _ _ (split_2 l ltac:(lia))). constructor; unfold utf8_tail; lia. }
  step_if.
  { step_if; [done|]. step_load m p l 1. step_if; [done|]. step_if; [done|].
    rewrite T1. step_if; [done|]. step_load m p l 2. rewrite T2. step_if; [done|].
    destruct (Hn _ _ (split_3 l ltac:(lia))).
    destruct (utf8_lead3 l.[0]) as [E|[?|[E|?]]]; [lia|..];
      rewrite ?E in *; constructor; unfold utf8_tail; lia. }
  step_if; [|done].
  step_if; [done|]. step_load m p l 1. step_if; [done|]. step_if; [done|].
  rewrite T1. step_if; [done|]. step_load m p l 2. rewrite T2. step_if; [done|].
  step_load m p l 3. rewrite T3. step_if; [done|].
  destruct (Hn _ _ (split_4 l ltac:(lia))).
  destruct (utf8_lead4 l.[0]) as [E|[?|E]]; [lia|..];
    rewrite ?E in *; constructor; unfold utf8_tail; lia.
Qed.

(** ** Properties *)

Lemma last_valid_spec m start l cs :
  region m start l -> bytes l ->
  exists l1 l2 r, valid_prefix l l1 l2 /\ ov_utf8_last_valid m start (Zlen l) cs = Some r /\
    if cs then l1 = [] /\ r = NULL \/
               exists l0 ch, l1 = l0 ++ ch /\ utf8_octets l0 /\ utf8_char ch /\ r = start + Zlen l0
    else r = start + Zlen l1.
Proof.
  intros Hm Hb. unfold ov_utf8_last_valid. pose proof Hm as [Hp _].
  replace (start =? NULL) with false by (unfold NULL; lia).
  by apply last_valid_loop_spec; [| |apply fuel_ok].
Qed.

(** C30: [ov_utf8_last_valid] always returns, without reading outside the buffer,
    and finds the longest prefix that is a sequence of RFC 3629 characters: it
    returns the end of that prefix, or the start of the prefix' last character
    ([NULL] when there is none); [ov_utf8_validate_sequence] accepts exactly the
    non-empty buffers that are such sequences. *)
Theorem utf8_validation_is_rfc3629 m start l :
  region m start l -> bytes l ->
  (forall cs, exists l1 l2 r,
     valid_prefix l l1 l2 /\ ov_utf8_last_valid m start (Zlen l) cs = Some r /\
     if cs then l1 = [] /\ r = NULL \/
                exists l0 ch, l1 = l0 ++ ch /\ utf8_octets l0 /\ utf8_char ch /\
                              r = start + Zlen l0
     else r = start + Zlen l1) /\
  exists b, ov_utf8_validate_sequence m start (Zlen l) = Some b /\
            (b = true <-> l <> [] /\ utf8_octets l).
Proof.
  intros Hm Hb. split; [|by apply validate_sequence_spec].
  intros cs. by apply last_valid_spec.
Qed.

(** A memory that holds [l] at address [p]. *)
Lemma utf8_validation_is_rfc3629_witness :
  exists b, ov_utf8_validate_sequence (write ∅ 16 [0x41; 0xE2; 0x82; 0xAC]) 16 4 = Some b /\
            (b = true <-> [0x41; 0xE2; 0x82; 0xAC] <> [] /\ utf8_octets [0x41; 0xE2; 0x82; 0xAC]).
Proof.
  apply (fun Hm Hb => proj2 (utf8_validation_is_rfc3629
    (write ∅ 16 [0x41; 0xE2; 0x82; 0xAC]) 16 [0x41; 0xE2; 0x82; 0xAC] Hm Hb)).
  - apply region_write. lia.
  - repeat constructor; unfold is_byte; lia.
Defined.

(** Every Unicode scalar value that [ov_utf8_encode_code_point] encodes,
    into the caller's buffer or one it allocates, is accepted by
    [ov_utf8_validate_sequence] and decoded to itself by
    [ov_utf8_decode_code_point], which consumes exactly the octets written. *)
Theorem utf8_encode_decode_roundtrip m number start array rest used bytes_ :
  start <> NULL -> used <> NULL -> bytes_ <> NULL -> scalar_value number ->
  utf8_room m array rest (Zlen (utf8_encoding number)) ->
  exists a k m',
    ov_utf8_encode_code_point m number start array rest used = Some (true, a, Some k, m') /\
    ov_utf8_validate_sequence m' a k = Some true /\
    ov_utf8_decode_code_point m' a k bytes_ = Some (number, Some k).
Proof.
  intros Hs Hu Hby Hn Hr. destruct (utf8_encoding_char number Hn) as [Hc Hv].
  pose proof (utf8_char_bytes _ Hc) as Hb. pose proof (utf8_char_length _ Hc) as Hlen.
  assert (Ha : 0 < utf8_target m array).
  { unfold utf8_target, utf8_room, NULL in *. destruct (Z.eqb_spec array 0).
    - pose proof (fresh_spec m) as [? _]. lia.
    - by destruct Hr as [?|[[? _] _]]. }
  eexists _, _, _. split; [by apply encode_code_point_spec|].
  pose proof (region_write m _ (utf8_encoding number) Ha) as Hreg. split.
  - destruct (validate_sequence_spec _ _ _ Hreg Hb) as (b & -> & Hiff). f_equal. apply Hiff.
    split; [destruct (utf8_encoding number); [zlia|done]|].
    rewrite <- (app_nil_r (utf8_encoding number)). by constructor; [|constructor].
  - rewrite (decode_char_spec _ _ _ _ _ Hreg Hc) by (done || lia). by rewrite Hv.
Qed.

Lemma utf8_encode_decode_roundtrip_witness :
  exists a k m',
    ov_utf8_encode_code_point (write ∅ 16 (zeros 8)) 0x20AC 1 16 8 1 = Some (true, a, Some k, m') /\
    ov_utf8_validate_sequence m' a k = Some true /\
    ov_utf8_decode_code_point m' a k 1 = Some (0x20AC, Some k).
Proof.
  apply utf8_encode_decode_roundtrip; [done..| |].
  - unfold scalar_value. lia.
  - right. change (Zlen (utf8_encoding 0x20AC)) with 3. split; [|lia].
    apply (mapped_sub _ 16 8); [|lia..]. apply (region_mapped _ 16 (zeros 8)), region_write. lia.
Defined.

(** Decoding is total and canonical: on any non-empty buffer
    [ov_utf8_decode_code_point] returns; it reports 0 octets exactly when no
    RFC 3629 character starts the buffer, and otherwise the octets it consumes
    are the one encoding of the scalar value it returns (so overlong forms and
    surrogates are never accepted), which [ov_utf8_encode_code_point] writes
    back unchanged. *)
Lemma utf8_decode_canonical m p l bytes_ :
  region m p l -> bytes l -> l <> [] -> bytes_ <> NULL ->
  exists number k,
    ov_utf8_decode_code_point m p (Zlen l) bytes_ = Some (number, Some k) /\
    (k = 0 <-> no_char l) /\
    (0 < k -> scalar_value number /\ ztake k l = utf8_encoding number /\
       forall m1 start array rest used, start <> NULL -> used <> NULL -> utf8_room m1 array rest k ->
         ov_utf8_encode_code_point m1 number start array rest used =
           Some (true, utf8_target m1 array, Some k, write m1 (utf8_target m1 array) (ztake k l))).
Proof.
  intros Hm Hb Hne Hby. assert (Hl : 0 < Zlen l) by (destruct l; [done|zlia]).
  destruct (last_valid_step O m p NULL l false Hm Hb) as [(ch & l' & -> & Hc & _)|[Hn _]].
  - pose proof (utf8_char_length _ Hc) as Hlen. destruct (utf8_value_encoding _ Hc) as [Hs He].
    exists (utf8_value ch), (Zlen ch).
    apply region_app_l in Hm. rewrite (decode_char_spec m p ch) by (done || zlia).
    split; [done|]. split; [split; [lia|intros Hn; by destruct (Hn ch l')]|].
    intros _. rewrite ztake_app. split; [done|]. split; [done|].
    intros m1 start array rest used Hst Hu Hr.
    pose proof (encode_code_point_spec m1 (utf8_value ch) start array rest used) as E.
    rewrite He in E. by apply E.
  - exists 0, 0. split; [by apply decode_no_char|]. split; [done|lia].
Qed.

Lemma utf8_decode_canonical_witness :
  exists number k,
    ov_utf8_decode_code_point (write ∅ 16 [0xC3; 0xA9; 0x21]) 16 3 1 = Some (number, Some k) /\
    (k = 0 <-> no_char [0xC3; 0xA9; 0x21]) /\
    (0 < k -> scalar_value number /\ ztake k [0xC3; 0xA9; 0x21] = utf8_encoding number /\
       forall m1 start array rest used, start <> NULL -> used <> NULL -> utf8_room m1 array rest k ->
         ov_utf8_encode_code_point m1 number start array rest used =
           Some (true, utf8_target m1 array, Some k,
                 write m1 (utf8_target m1 array) (ztake k [0xC3; 0xA9; 0x21]))).
Proof.
  apply (utf8_decode_canonical _ 16 [0xC3; 0xA9; 0x21]); [|..|done|done].
  - apply region_write. lia.
  - repeat constructor; unfold is_byte; lia.
Defined.
