(* ===== verification/Crc32.v ===== *)
(** * CRC-32 (src/lib/ov_base/src/ov_crc32.c)

    The generation of the lookup tables and the table driven checksums. The
    [static] tables of the callers are computed when they are used: their
    contents do not depend on when they are initialised. The newline
    [crc32_straight_in] prints to [stderr] is not modelled. *)
From S2P Require Import Prelude CMem.

(** ** The code *)

Fixpoint reflect_loop (k : nat) (n reflected : Z) : Z :=
  match k with
  | O => reflected
  | S k => reflect_loop k ((n .>> 1) .& 0x7fffffff) (u32 (reflected .<< 1) .| (n .& 1))
  end.
Definition reflect_bits (n : Z) : Z := reflect_loop 32 n 0.

Fixpoint entry_loop (k : nat) (r poly : Z) : Z :=
  match k with
  | O => r
  | S k => entry_loop k (if 0x80000000 =? r .& 0x80000000 then u32 (r .<< 1) .^ poly
                         else u32 (r .<< 1)) poly
  end.
Definition calc_lookup_entry (i poly : Z) : Z := entry_loop 8 (u32 (i .<< 24) .& 0xffffff00) poly.

Fixpoint entry_reflected_loop (k : nat) (r poly : Z) : Z :=
  match k with
  | O => r
  | S k => entry_reflected_loop k (if 1 =? r .& 1 then ((r .>> 1) .& 0x7fffffff) .^ poly
                                   else (r .>> 1) .& 0x7fffffff) poly
  end.
Definition calc_lookup_entry_reflected (i poly : Z) : Z := entry_reflected_loop 8 i poly.

(** The table is the caller's array of 256 entries, [None] for [NULL]. *)
Definition ov_crc32_generate_table_for (polynomial : Z) (reverted_in : bool)
    (lookup : option (list Z)) : bool * option (list Z) :=
  match lookup with
  | None => (false, None)
  | Some _ =>
      if reverted_in then
        let polynomial := reflect_bits polynomial in
        (true, Some ((fun i => calc_lookup_entry_reflected i polynomial) <$> seqZ 0 0x100))
      else (true, Some ((fun i => calc_lookup_entry i polynomial) <$> seqZ 0 0x100))
  end.

Fixpoint crc32_straight_in (m : mem) (crc : Z) (data : ptr) (n : nat) (lookup : list Z) : option Z :=
  match n with
  | O => Some crc
  | S n => b ← load8 m data;
           crc32_straight_in m (u32 (crc .<< 8) .^ lookup.[b .^ ((crc .>> 24) .& 0x000000ff)])
             (data + 1) n lookup
  end.
Fixpoint crc32_reflected_in (m : mem) (crc : Z) (data : ptr) (n : nat) (lookup : list Z) : option Z :=
  match n with
  | O => Some crc
  | S n => b ← load8 m data;
           crc32_reflected_in m ((crc .>> 8) .^ lookup.[b .^ (crc .& 0xff)]) (data + 1) n lookup
  end.

Definition ov_crc32_sum (m : mem) (crc : Z) (data : ptr) (len_octets : Z) (rfin rfout : bool)
    (lookup : list Z) : option Z :=
  if rfin then
    crc ← crc32_reflected_in m crc data (Z.to_nat len_octets) lookup;
    if rfout then Some crc else Some (reflect_bits crc)
  else
    crc ← crc32_straight_in m crc data (Z.to_nat len_octets) lookup;
    if rfout then Some (reflect_bits crc) else Some crc.

(** The [static] table of a caller, initialised with zeros and filled once. *)
Definition static_table (reverted_in : bool) : list Z :=
  default [] (ov_crc32_generate_table_for 0x04c11db7 reverted_in (Some (zeros 0x100))).2.
Definition ov_crc32_ogg (m : mem) (init : Z) (data : ptr) (len_octets : Z) : option Z :=
  ov_crc32_sum m init data len_octets false false (static_table false).
Definition ov_crc32_posix (m : mem) (data : ptr) (len_octets : Z) : option Z :=
  crc ← ov_crc32_ogg m 0 data len_octets; Some (0xffffffff .^ crc).
Definition ov_crc32_zlib (m : mem) (init : Z) (data : ptr) (len_octets : Z) : option Z :=
  crc ← ov_crc32_sum m (0xffffffff .^ init) data len_octets true true (static_table true);
  Some (0xffffffff .^ crc).

(** ** Specification: one bit at a time *)

(** The shift register of the reflected and of the straight algorithm. *)
Definition bit_reflected (poly x : Z) : Z := if Z.testbit x 0 then (x .>> 1) .^ poly else x .>> 1.
Definition bit_straight (poly x : Z) : Z :=
  if Z.testbit x 31 then u32 (x .<< 1) .^ poly else u32 (x .<< 1).
Definition octet_reflected (poly crc b : Z) : Z := Nat.iter 8 (bit_reflected poly) (crc .^ b).
Definition octet_straight (poly crc b : Z) : Z := Nat.iter 8 (bit_straight poly) (crc .^ (b .<< 24)).
Definition crc_reflected (poly crc : Z) (l : list Z) : Z := fold_left (octet_reflected poly) l crc.
Definition crc_straight (poly crc : Z) (l : list Z) : Z := fold_left (octet_straight poly) l crc.

(** ** Lemmas *)


Lemma iter_comm {A} (f : A -> A) k x : Nat.iter k f (f x) = f (Nat.iter k f x).
Proof. induction k; simpl; by f_equal. Qed.

Lemma u32_bits x : is_u32 x -> forall i, 32 <= i -> Z.testbit x i = false.
Proof.
  intros Hx i Hi. destruct (decide (x = 0)) as [->|]; [apply Z.bits_0|].
  apply Z.bits_above_log2; unfold is_u32 in *; [lia|].
  apply Z.lt_le_trans with 32; [apply Z.log2_lt_pow2; lia|done].
Qed.
Lemma u32_of_bits x : 0 <= x -> (forall i, 32 <= i -> Z.testbit x i = false) -> is_u32 x.
Proof.
  intros Hx H. split; [done|]. assert (x = x mod 2 ^ 32) as ->; [|by apply Z.mod_pos_bound].
  apply Z.bits_inj'. intros i Hi. destruct (decide (i < 32)).
  - by rewrite Z.mod_pow2_bits_low.
  - rewrite Z.mod_pow2_bits_high by lia. apply H. lia.
Qed.
Lemma u32_lxor_range x y : is_u32 x -> is_u32 y -> is_u32 (x .^ y).
Proof.
  intros Hx Hy. apply u32_of_bits; [apply Z.lxor_nonneg; unfold is_u32 in *; lia|].
  intros i Hi. by rewrite Z.lxor_spec, !u32_bits.
Qed.
Lemma u32_range x : is_u32 (u32 x).
Proof. apply Z.mod_pos_bound. lia. Qed.
Lemma u32_shiftr_range x n : is_u32 x -> 0 <= n -> is_u32 (x .>> n).
Proof.
  intros Hx Hn. apply u32_of_bits; [apply Z.shiftr_nonneg; unfold is_u32 in *; lia|].
  intros i Hi. rewrite Z.shiftr_spec by lia. apply u32_bits; [done|lia].
Qed.
Lemma mask31 x : is_u32 x -> (x .>> 1) .& 0x7fffffff = x .>> 1.
Proof.
  intros Hx. change 0x7fffffff with (Z.ones 31). rewrite Z.land_ones by lia. apply Z.mod_small.
  rewrite Z.shiftr_div_pow2 by lia. unfold is_u32 in Hx. change (2 ^ 1) with 2. dlia.
Qed.
Lemma land_1_testbit x : (1 =? x .& 1) = Z.testbit x 0.
Proof.
  change 1 with (Z.ones 1) at 2. rewrite Z.land_ones by lia. change (2 ^ 1) with 2.
  rewrite Z.bit0_odd, Zmod_odd. by destruct (Z.odd x).
Qed.

(** The reflected register is linear, and shifts a zero octet out. *)
Lemma bit_reflected_lxor poly x y :
  bit_reflected poly (x .^ y) = bit_reflected poly x .^ bit_reflected poly y.
Proof.
  unfold bit_reflected. rewrite Z.lxor_spec, Z.shiftr_lxor.
  destruct (Z.testbit x 0), (Z.testbit y 0); cbn [xorb].
  - rewrite <- (Z.lxor_assoc _ (y .>> 1) poly), (Z.lxor_assoc (x .>> 1) poly), (Z.lxor_comm poly),
      <- (Z.lxor_assoc (x .>> 1)), Z.lxor_assoc, Z.lxor_nilpotent. by rewrite Z.lxor_0_r.
  - by rewrite !Z.lxor_assoc, (Z.lxor_comm poly).
  - by rewrite Z.lxor_assoc.
  - done.
Qed.
Lemma iter_reflected_lxor poly k x y :
  Nat.iter k (bit_reflected poly) (x .^ y) =
    Nat.iter k (bit_reflected poly) x .^ Nat.iter k (bit_reflected poly) y.
Proof. induction k as [|k IH]; [done|]. simpl. by rewrite IH, bit_reflected_lxor. Qed.
Lemma iter_reflected_shift poly k h :
  Nat.iter k (bit_reflected poly) (h .<< Z.of_nat k) = h.
Proof.
  induction k as [|k IH]; [apply Z.shiftl_0_r|].
  change (Nat.iter (S k) (bit_reflected poly) ?x) with (bit_reflected poly (Nat.iter k (bit_reflected poly) x)).
  rewrite <- iter_comm. unfold bit_reflected at 2.
  rewrite Z.shiftl_spec_low by lia. rewrite Z.shiftr_shiftl_l by lia.
  by replace (Z.of_nat (S k) - 1) with (Z.of_nat k) by lia.
Qed.
Lemma split_low x k : 0 <= k -> x = ((x .>> k) .<< k) .^ (x .& Z.ones k).
Proof.
  intros Hk. apply Z.bits_inj'. intros i Hi. rewrite Z.lxor_spec, Z.land_spec.
  destruct (decide (i < k)).
  - rewrite Z.shiftl_spec_low, Z.ones_spec_low by lia. by rewrite andb_true_r, xorb_false_l.
  - rewrite Z.shiftl_spec, Z.ones_spec_high, Z.shiftr_spec by lia.
    rewrite andb_false_r, xorb_false_r. f_equal. lia.
Qed.
Lemma octet_reflected_table poly x :
  Nat.iter 8 (bit_reflected poly) x = (x .>> 8) .^ Nat.iter 8 (bit_reflected poly) (x .& 0xff).
Proof.
  rewrite (split_low x 8) at 1 by lia. rewrite iter_reflected_lxor.
  by rewrite (iter_reflected_shift poly 8).
Qed.

Lemma entry_reflected_iter poly k x :
  is_u32 x -> is_u32 poly -> entry_reflected_loop k x poly = Nat.iter k (bit_reflected poly) x.
Proof.
  intros Hx Hp. revert x Hx. induction k as [|k IH]; intros x Hx; [done|].
  cbn [entry_reflected_loop]. rewrite land_1_testbit, mask31 by done.
  change (Nat.iter (S k) (bit_reflected poly) x) with (bit_reflected poly (Nat.iter k (bit_reflected poly) x)).
  rewrite <- iter_comm. unfold bit_reflected at 2. apply IH.
  destruct (Z.testbit x 0); [apply u32_lxor_range; [|done]|]; apply u32_shiftr_range; (done || lia).
Qed.

Lemma iter_reflected_range poly k x :
  is_u32 poly -> is_u32 x -> is_u32 (Nat.iter k (bit_reflected poly) x).
Proof.
  intros Hp Hx. induction k as [|k IH]; [done|]. simpl. unfold bit_reflected at 1.
  case_match; [apply u32_lxor_range; [|done]|]; apply u32_shiftr_range; (done || lia).
Qed.
Lemma byte_u32 b : is_byte b -> is_u32 b.
Proof. unfold is_byte, is_u32. lia. Qed.
Lemma byte_shiftr b : is_byte b -> b .>> 8 = 0.
Proof. intros Hb. rewrite Z.shiftr_div_pow2 by lia. unfold is_byte in Hb. apply Z.div_small. done. Qed.
Lemma land_ff_byte x : is_byte (x .& 0xff).
Proof. change 0xff with (Z.ones 8). rewrite Z.land_ones by lia. apply Z.mod_pos_bound. lia. Qed.
Lemma byte_land_ff b : is_byte b -> b .& 0xff = b.
Proof. intros. change 0xff with (Z.ones 8). rewrite Z.land_ones by lia. by apply Z.mod_small. Qed.

(** The lookup tables hold one entry per octet. *)
Lemma table_entry (f : Z -> Z) b : is_byte b -> (f <$> seqZ 0 0x100).[b] = f b.
Proof.
  intros Hb. unfold znth. apply nth_lookup_Some. unfold is_byte in Hb.
  rewrite list_lookup_fmap, (lookup_seqZ_lt 0 256) by lia. simpl. f_equal. f_equal. lia.
Qed.

Definition table_of (rev : bool) (poly : Z) : list Z :=
  if rev then (fun i => calc_lookup_entry_reflected i poly) <$> seqZ 0 0x100
  else (fun i => calc_lookup_entry i poly) <$> seqZ 0 0x100.

Lemma crc32_reflected_spec poly m crc data l :
  is_u32 poly -> is_u32 crc -> region m data l -> bytes l ->
  crc32_reflected_in m crc data (length l) (table_of true poly) = Some (crc_reflected poly crc l) /\
  is_u32 (crc_reflected poly crc l).
Proof.
  intros Hp. revert crc data. induction l as [|b l IH]; intros crc data Hc Hm Hb; [done|].
  apply bytes_cons in Hb as [Hb Hl]. cbn [length crc32_reflected_in].
  rewrite (load8_at_0 _ _ _ _ Hm). cbn [mbind option_bind].
  assert (E : (crc .>> 8) .^ (table_of true poly).[b .^ (crc .& 0xff)] = octet_reflected poly crc b).
  { assert (Hi : is_byte (b .^ (crc .& 0xff)))
      by (apply lxor_byte; [done|apply land_ff_byte]).
    cbn [table_of]. rewrite table_entry by done. unfold calc_lookup_entry_reflected, octet_reflected.
    rewrite entry_reflected_iter by first [by apply byte_u32|done].
    rewrite (octet_reflected_table poly (crc .^ b)). f_equal.
    - by rewrite Z.shiftr_lxor, (byte_shiftr b Hb), Z.lxor_0_r.
    - f_equal. rewrite Z.lxor_comm. apply Z.bits_inj'. intros i Hi'.
      rewrite Z.land_spec, !Z.lxor_spec, Z.land_spec. rewrite <- (byte_land_ff b Hb) at 1.
      rewrite Z.land_spec. by destruct (Z.testbit crc i), (Z.testbit b i), (Z.testbit 0xff i). }
  rewrite E. apply IH; [|by apply (region_app_r m data (data + 1) [b])|done].
  unfold octet_reflected. apply iter_reflected_range; [done|]. apply u32_lxor_range; [done|by apply byte_u32].
Qed.

(** *** The straight register *)

Lemma land_top_testbit x : is_u32 x -> (0x80000000 =? x .& 0x80000000) = Z.testbit x 31.
Proof.
  intros Hx. change 0x80000000 with (2 ^ 31).
  assert (E : x .& 2 ^ 31 = if Z.testbit x 31 then 2 ^ 31 else 0).
  { apply Z.bits_inj'. intros i Hi. rewrite Z.land_spec, Z.pow2_bits_eqb by lia.
    destruct (Z.eqb_spec 31 i) as [<-|]; [|rewrite andb_false_r].
    - destruct (Z.testbit x 31); by rewrite ?Z.pow2_bits_true, ?Z.bits_0 by lia.
    - destruct (Z.testbit x 31); by rewrite ?Z.pow2_bits_false, ?Z.bits_0 by lia. }
  rewrite E. by destruct (Z.testbit x 31).
Qed.
Lemma u32_lxor x y : u32 (x .^ y) = u32 x .^ u32 y.
Proof.
  unfold u32. apply Z.bits_inj'. intros i Hi. rewrite Z.lxor_spec. destruct (decide (i < 32)).
  - by rewrite !Z.mod_pow2_bits_low, Z.lxor_spec.
  - by rewrite !Z.mod_pow2_bits_high by lia.
Qed.
Lemma bit_straight_lxor poly x y :
  bit_straight poly (x .^ y) = bit_straight poly x .^ bit_straight poly y.
Proof.
  unfold bit_straight. rewrite Z.lxor_spec, Z.shiftl_lxor, u32_lxor.
  destruct (Z.testbit x 31), (Z.testbit y 31); cbn [xorb].
  - rewrite <- (Z.lxor_assoc _ (u32 (y .<< 1)) poly), (Z.lxor_assoc (u32 (x .<< 1)) poly), (Z.lxor_comm poly),
      <- (Z.lxor_assoc (u32 (x .<< 1))), Z.lxor_assoc, Z.lxor_nilpotent. by rewrite Z.lxor_0_r.
  - by rewrite !Z.lxor_assoc, (Z.lxor_comm poly).
  - by rewrite Z.lxor_assoc.
  - done.
Qed.
Lemma iter_straight_lxor poly k x y :
  Nat.iter k (bit_straight poly) (x .^ y) =
    Nat.iter k (bit_straight poly) x .^ Nat.iter k (bit_straight poly) y.
Proof. induction k as [|k IH]; [done|]. simpl. by rewrite IH, bit_straight_lxor. Qed.
Lemma iter_straight_shift poly k x :
  (k <= 8)%nat -> 0 <= x < 2 ^ 24 -> Nat.iter k (bit_straight poly) x = x .<< Z.of_nat k.
Proof.
  intros Hk Hx. induction k as [|k IH]; [by rewrite Z.shiftl_0_r|].
  change (Nat.iter (S k) (bit_straight poly) x) with (bit_straight poly (Nat.iter k (bit_straight poly) x)).
  rewrite IH by lia. unfold bit_straight.
  assert (Hb : x .<< Z.of_nat k < 2 ^ 31).
  { rewrite Z.shiftl_mul_pow2 by lia. assert (2 ^ Z.of_nat k <= 2 ^ 7) by (apply Z.pow_le_mono_r; lia).
    change (2 ^ 7) with 128 in *. change (2 ^ 31) with (16777216 * 128). change (2 ^ 24) with 16777216 in Hx.
    assert (0 < 2 ^ Z.of_nat k) by (apply Z.pow_pos_nonneg; lia). nia. }
  assert (H0 : 0 <= x .<< Z.of_nat k) by (apply Z.shiftl_nonneg; lia).
  assert (Z.testbit (x .<< Z.of_nat k) 31 = false) as ->.
  { rewrite <- (Z.mod_small _ _ (conj H0 Hb)). by apply Z.mod_pow2_bits_high. }
  rewrite Z.shiftl_shiftl by lia. replace (Z.of_nat k + 1) with (Z.of_nat (S k)) by lia.
  apply u32_id. replace (Z.of_nat (S k)) with (Z.of_nat k + 1) by lia. rewrite <- Z.shiftl_shiftl by lia.
  rewrite (Z.shiftl_mul_pow2 _ 1) by lia. change (2 ^ 1) with 2. change (2 ^ 31) with 2147483648 in Hb. lia.
Qed.
Lemma iter_straight_range poly k x :
  is_u32 poly -> is_u32 x -> is_u32 (Nat.iter k (bit_straight poly) x).
Proof.
  intros Hp Hx. induction k as [|k IH]; [done|]. simpl. unfold bit_straight at 1.
  case_match; [apply u32_lxor_range; [|done]|]; apply u32_range.
Qed.
Lemma entry_straight_iter poly k x :
  is_u32 x -> is_u32 poly -> entry_loop k x poly = Nat.iter k (bit_straight poly) x.
Proof.
  intros Hx Hp. revert x Hx. induction k as [|k IH]; intros x Hx; [done|].
  cbn [entry_loop]. rewrite land_top_testbit by done.
  change (Nat.iter (S k) (bit_straight poly) x) with (bit_straight poly (Nat.iter k (bit_straight poly) x)).
  rewrite <- iter_comm. unfold bit_straight at 2. apply IH.
  destruct (Z.testbit x 31); [apply u32_lxor_range; [|done]|]; apply u32_range.
Qed.
Lemma entry_seed b : is_byte b -> u32 (b .<< 24) .& 0xffffff00 = b .<< 24 /\ is_u32 (b .<< 24).
Proof.
  intros Hb. assert (H : (u32 (b .<< 24) .& 0xffffff00 =? b .<< 24) && (0 <=? b .<< 24) && (b .<< 24 <? 2 ^ 32) = true)
    by (revert b Hb; apply byte_forall; vm_compute; reflexivity).
  bool_to_prop. unfold is_u32. lia.
Qed.
Lemma octet_straight_table poly x :
  is_u32 x ->
  Nat.iter 8 (bit_straight poly) x = u32 (x .<< 8) .^ Nat.iter 8 (bit_straight poly) ((x .>> 24) .<< 24).
Proof.
  intros Hx. rewrite (split_low x 24) at 1 by lia. rewrite iter_straight_lxor, Z.lxor_comm. f_equal.
  rewrite Z.land_ones by lia. rewrite (iter_straight_shift poly 8) by (try apply Z.mod_pos_bound; lia).
  rewrite !Z.shiftl_mul_pow2 by lia. unfold u32. change (2 ^ Z.of_nat 8) with 256. change (2 ^ 8) with 256.
  change (2 ^ 24) with 16777216. change (2 ^ 32) with (16777216 * 256). symmetry.
  rewrite Z.mul_mod_distr_r by lia. done.
Qed.

Lemma crc32_straight_spec poly m crc data l :
  is_u32 poly -> is_u32 crc -> region m data l -> bytes l ->
  crc32_straight_in m crc data (length l) (table_of false poly) = Some (crc_straight poly crc l) /\
  is_u32 (crc_straight poly crc l).
Proof.
  intros Hp. revert crc data. induction l as [|b l IH]; intros crc data Hc Hm Hb; [done|].
  apply bytes_cons in Hb as [Hb Hl]. cbn [length crc32_straight_in].
  rewrite (load8_at_0 _ _ _ _ Hm). cbn [mbind option_bind].
  assert (Htop : is_byte (crc .>> 24)).
  { rewrite Z.shiftr_div_pow2 by lia. change (2 ^ 24) with 16777216. unfold is_u32, is_byte in *. dlia. }
  destruct (entry_seed b Hb) as [_ Hb24].
  assert (E : u32 (crc .<< 8) .^ (table_of false poly).[b .^ ((crc .>> 24) .& 0xff)] = octet_straight poly crc b).
  { rewrite (byte_land_ff _ Htop).
    assert (Hi : is_byte (b .^ (crc .>> 24))) by by apply lxor_byte.
    cbn [table_of]. rewrite table_entry by done. unfold calc_lookup_entry, octet_straight.
    destruct (entry_seed _ Hi) as [-> Hseed]. rewrite entry_straight_iter by done.
    rewrite (octet_straight_table poly (crc .^ (b .<< 24))) by by apply u32_lxor_range. f_equal.
    - rewrite Z.shiftl_lxor, u32_lxor, Z.shiftl_shiftl by lia.
      assert (u32 (b .<< (24 + 8)) = 0) as ->; [|by rewrite Z.lxor_0_r].
      unfold u32. rewrite Z.shiftl_mul_pow2 by lia. by apply Z.mod_mul.
    - f_equal. f_equal. rewrite Z.shiftr_lxor, Z.shiftr_shiftl_r by lia. rewrite Z.shiftr_0_r. apply Z.lxor_comm. }
  rewrite E. apply IH; [|by apply (region_app_r m data (data + 1) [b])|done].
  unfold octet_straight. apply iter_straight_range; [done|]. by apply u32_lxor_range.
Qed.

(** *** The checksums of the library *)

Definition POLY : Z := 0x04c11db7.
Definition POLY_REFLECTED : Z := 0xedb88320.
Lemma reflect_poly : reflect_bits POLY = POLY_REFLECTED.
Proof. vm_compute. reflexivity. Qed.
Lemma static_table_spec rev :
  static_table rev = table_of rev (if rev then POLY_REFLECTED else POLY).
Proof.
  unfold static_table, ov_crc32_generate_table_for, table_of. destruct rev; [|done].
  cbn [snd default]. fold POLY. by rewrite reflect_poly.
Qed.
#[global] Opaque static_table.
Lemma poly_u32 : is_u32 POLY /\ is_u32 POLY_REFLECTED.
Proof. unfold is_u32, POLY, POLY_REFLECTED. lia. Qed.

Definition complement (x : Z) : Z := 0xffffffff .^ x.
Lemma complement_range x : is_u32 x -> is_u32 (complement x).
Proof. intros. apply u32_lxor_range; [unfold is_u32; lia|done]. Qed.
Lemma complement_involutive x : complement (complement x) = x.
Proof. unfold complement. by rewrite <- Z.lxor_assoc, Z.lxor_nilpotent, Z.lxor_0_l. Qed.

Definition zlib_spec (init : Z) (l : list Z) : Z :=
  complement (crc_reflected POLY_REFLECTED (complement init) l).

Lemma crc32_zlib_spec m init data l n :
  region m data l -> bytes l -> is_u32 init -> n = Zlen l ->
  ov_crc32_zlib m init data n = Some (zlib_spec init l) /\ is_u32 (zlib_spec init l).
Proof.
  intros Hm Hb Hi ->. unfold ov_crc32_zlib, ov_crc32_sum. rewrite static_table_spec.
  replace (Z.to_nat (Zlen l)) with (length l) by (unfold Zlen; lia).
  destruct (crc32_reflected_spec POLY_REFLECTED m (complement init) data l) as [E R];
    [apply poly_u32|by apply complement_range|done|done|].
  fold (complement init). rewrite E. cbn [mbind option_bind]. split; [done|]. by apply complement_range.
Qed.
Lemma crc32_ogg_spec m init data l n :
  region m data l -> bytes l -> is_u32 init -> n = Zlen l ->
  ov_crc32_ogg m init data n = Some (crc_straight POLY init l).
Proof.
  intros Hm Hb Hi ->. unfold ov_crc32_ogg, ov_crc32_sum. rewrite static_table_spec.
  replace (Z.to_nat (Zlen l)) with (length l) by (unfold Zlen; lia).
  destruct (crc32_straight_spec POLY m init data l) as [E R]; [apply poly_u32|done..|].
  by rewrite E.
Qed.
Lemma zlib_spec_app init l1 l2 : zlib_spec init (l1 ++ l2) = zlib_spec (zlib_spec init l1) l2.
Proof. unfold zlib_spec, crc_reflected. by rewrite fold_left_app, complement_involutive. Qed.

(** *** Corruption of an octet is detected *)

Lemma bit_reflected_inj x y :
  is_u32 x -> is_u32 y ->
  bit_reflected POLY_REFLECTED x = bit_reflected POLY_REFLECTED y -> x = y.
Proof.
  intros Hx Hy E.
  assert (H31 : forall z, is_u32 z -> Z.testbit (bit_reflected POLY_REFLECTED z) 31 = Z.testbit z 0).
  { intros z Hz. unfold bit_reflected. destruct (Z.testbit z 0); rewrite ?Z.lxor_spec, Z.shiftr_spec by lia;
      rewrite (u32_bits z Hz) by lia; reflexivity. }
  assert (E0 : Z.testbit x 0 = Z.testbit y 0) by by rewrite <- !H31, E.
  unfold bit_reflected in E. rewrite E0 in E.
  assert (Es : x .>> 1 = y .>> 1).
  { destruct (Z.testbit y 0); [|done]. apply (f_equal (fun z => z .^ POLY_REFLECTED)) in E.
    by rewrite !Z.lxor_assoc, !Z.lxor_nilpotent, !Z.lxor_0_r in E. }
  apply Z.bits_inj'. intros i Hi. destruct (decide (i = 0)) as [->|]; [done|].
  replace i with ((i - 1) + 1) by lia. by rewrite <- !Z.shiftr_spec, Es by lia.
Qed.
Lemma iter_reflected_inj k x y :
  is_u32 x -> is_u32 y ->
  Nat.iter k (bit_reflected POLY_REFLECTED) x = Nat.iter k (bit_reflected POLY_REFLECTED) y -> x = y.
Proof.
  intros Hx Hy. induction k as [|k IH]; [done|]. simpl. intros E. apply IH.
  apply bit_reflected_inj; [apply iter_reflected_range; [apply poly_u32|done]..|done].
Qed.
Lemma lxor_inj_l a x y : a .^ x = a .^ y -> x = y.
Proof.
  intros E. apply (f_equal (Z.lxor a)) in E. by rewrite <- !Z.lxor_assoc, Z.lxor_nilpotent, !Z.lxor_0_l in E.
Qed.
Lemma crc_reflected_range c l : is_u32 c -> bytes l -> is_u32 (crc_reflected POLY_REFLECTED c l).
Proof.
  intros Hc Hb. revert c Hc. induction Hb as [|b l Hb _ IH]; intros c Hc; [done|]. apply IH.
  unfold octet_reflected. apply iter_reflected_range; [apply poly_u32|].
  apply u32_lxor_range; [done|by apply byte_u32].
Qed.
Lemma crc_reflected_inj l x y :
  bytes l -> is_u32 x -> is_u32 y ->
  crc_reflected POLY_REFLECTED x l = crc_reflected POLY_REFLECTED y l -> x = y.
Proof.
  intros Hb. revert x y. induction Hb as [|b l Hb _ IH]; intros x y Hx Hy E; [done|].
  assert (Ho : forall z, is_u32 z -> is_u32 (octet_reflected POLY_REFLECTED z b)).
  { intros z Hz. apply (crc_reflected_range z [b]); [done|]. by constructor. }
  specialize (IH _ _ (Ho x Hx) (Ho y Hy) E). apply byte_u32 in Hb.
  apply iter_reflected_inj in IH; [|by apply u32_lxor_range..].
  rewrite (Z.lxor_comm x), (Z.lxor_comm y) in IH. by apply lxor_inj_l in IH.
Qed.

Lemma zlib_spec_detects init l1 b b' l2 :
  bytes (l1 ++ b :: l2) -> is_byte b' -> b <> b' -> is_u32 init ->
  zlib_spec init (l1 ++ b :: l2) <> zlib_spec init (l1 ++ b' :: l2).
Proof.
  intros Hb Hb' Hne Hi. apply bytes_app in Hb as [Hb1 Hb2]. apply bytes_cons in Hb2 as [Hbb Hb2].
  intros E. unfold zlib_spec, complement at 1 3 in E. apply lxor_inj_l in E.
  unfold crc_reflected in E. rewrite !fold_left_app in E. cbn [fold_left] in E.
  set (s := fold_left (octet_reflected POLY_REFLECTED) l1 (complement init)) in E.
  assert (Hs : is_u32 s) by (apply crc_reflected_range; [by apply complement_range|done]).
  assert (Ho : forall x, is_byte x -> is_u32 (octet_reflected POLY_REFLECTED s x)).
  { intros x Hx. apply (crc_reflected_range s [x]); [done|]. by constructor. }
  apply (crc_reflected_inj l2 _ _ Hb2 (Ho b Hbb) (Ho b' Hb')) in E.
  apply iter_reflected_inj in E; [|apply u32_lxor_range; [done|by apply byte_u32]..].
  by apply lxor_inj_l in E.
Qed.

(** ** Properties *)

(** C31: The table driven checksums compute the CRC of their definition: for all
    data, [ov_crc32_zlib] is the complement of the reflected shift register run
    bit by bit from the complement of its argument, and [ov_crc32_ogg] and
    [ov_crc32_posix] the straight register; and a checksum can be continued:
    the value for a prefix is the argument for the rest. *)
Theorem crc32_is_bitwise m data l init :
  region m data l -> bytes l -> is_u32 init ->
  ov_crc32_zlib m init data (Zlen l) =
    Some (complement (crc_reflected POLY_REFLECTED (complement init) l)) /\
  ov_crc32_ogg m init data (Zlen l) = Some (crc_straight POLY init l) /\
  ov_crc32_posix m data (Zlen l) = Some (complement (crc_straight POLY 0 l)) /\
  (forall l1 l2, l = l1 ++ l2 ->
     (c ← ov_crc32_zlib m init data (Zlen l1); ov_crc32_zlib m c (data + Zlen l1) (Zlen l2)) =
     ov_crc32_zlib m init data (Zlen l)).
Proof.
  intros Hm Hb Hi. destruct (crc32_zlib_spec m init data l _ Hm Hb Hi eq_refl) as [E _].
  split; [done|]. split; [by apply crc32_ogg_spec|]. split.
  { unfold ov_crc32_posix. assert (H0 : is_u32 0) by (unfold is_u32; lia).
    by rewrite (crc32_ogg_spec m 0 data l _ Hm Hb H0 eq_refl). }
  intros l1 l2 ->. rewrite E. apply bytes_app in Hb as [Hb1 Hb2].
  destruct (crc32_zlib_spec m init data l1 _ (region_app_l _ _ _ _ Hm) Hb1 Hi eq_refl) as [-> R].
  cbn [mbind option_bind].
  destruct (crc32_zlib_spec m (zlib_spec init l1) (data + Zlen l1) l2 _
    (region_app_r _ _ _ _ _ Hm eq_refl) Hb2 R eq_refl) as [-> _].
  by rewrite zlib_spec_app.
Qed.
Lemma crc32_is_bitwise_witness :
  ov_crc32_zlib (write ∅ 16 (string_bytes "123456789")) 0 16 9 = Some 0xCBF43926.
Proof.
  refine (eq_trans (proj1 (crc32_is_bitwise (write ∅ 16 (string_bytes "123456789")) 16
    (string_bytes "123456789") 0 (region_write ∅ 16 _ ltac:(lia)) (bytes_string _)
    ltac:(split; [lia|reflexivity]))) _).
  vm_compute. reflexivity.
Defined.

(** Any change confined to one octet of the data changes [ov_crc32_zlib]. *)
Theorem crc32_detects_octet m1 m2 p1 p2 l1 b b' l2 init :
  region m1 p1 (l1 ++ b :: l2) -> region m2 p2 (l1 ++ b' :: l2) ->
  bytes (l1 ++ b :: l2) -> is_byte b' -> b <> b' -> is_u32 init ->
  exists c c', ov_crc32_zlib m1 init p1 (Zlen (l1 ++ b :: l2)) = Some c /\
    ov_crc32_zlib m2 init p2 (Zlen (l1 ++ b' :: l2)) = Some c' /\ c <> c'.
Proof.
  intros Hm1 Hm2 Hb Hb' Hne Hi. pose proof Hb as Hb0. apply bytes_app in Hb0 as [Hb1 Hb2].
  apply bytes_cons in Hb2 as [_ Hb2].
  assert (Hb2' : bytes (l1 ++ b' :: l2)) by (apply bytes_app; split; [done|by apply bytes_cons]).
  destruct (crc32_zlib_spec m1 init p1 _ _ Hm1 Hb Hi eq_refl) as [-> _].
  destruct (crc32_zlib_spec m2 init p2 _ _ Hm2 Hb2' Hi eq_refl) as [-> _].
  eexists _, _. split; [done|]. split; [done|]. by apply zlib_spec_detects.
Qed.
Lemma crc32_detects_octet_witness :
  exists c c', ov_crc32_zlib (write ∅ 16 [1; 2; 3]) 0 16 3 = Some c /\
    ov_crc32_zlib (write ∅ 16 [1; 7; 3]) 0 16 3 = Some c' /\ c <> c'.
Proof.
  apply (crc32_detects_octet _ _ 16 16 [1] 2 7 [3] 0); [apply region_write; lia|apply region_write; lia|..].
  - repeat constructor; unfold is_byte; lia.
  - unfold is_byte. lia.
  - discriminate.
  - split; [lia|reflexivity].
Defined.
