(* ===== verification/StunAttribute.v ===== *)
(** * STUN attributes (src/lib/ov_stun/src/ov_stun_attribute.c)

    The type-length-value frame every STUN and TURN attribute shares: checks,
    field access, encoding with padding to 32 bit, and the scan for an
    attribute of a type in a sliced message. *)
From S2P Require Import Prelude CMem.

(** ** The code *)

Definition ov_stun_attribute_get_type (m : mem) (buffer : ptr) (length : Z) : option Z :=
  if (buffer =? NULL) || (length <? 2) then Some 0 else
  v ← load16 m buffer; Some (ntohs v).

Definition ov_stun_attribute_set_type (m : mem) (buffer : ptr) (length type : Z)
    : option (bool * mem) :=
  if (buffer =? NULL) || (length <? 2) then Some (false, m) else
  m ← store16 m buffer (htons type); Some (true, m).

Definition ov_stun_attribute_get_length (m : mem) (buffer : ptr) (length : Z) : option Z :=
  if (buffer =? NULL) || (length <? 4) then Some (-1) else
  v ← load16 m (buffer + 2); Some (ntohs v).

Definition ov_stun_attribute_set_length (m : mem) (buffer : ptr) (buffer_length length : Z)
    : option (bool * mem) :=
  if (buffer =? NULL) || (buffer_length <? 4) then Some (false, m) else
  m ← store16 m (buffer + 2) (htons length); Some (true, m).

(** The padding to a multiple of four that the code computes in many places. *)
Definition padding (n : Z) : Z :=
  let pad := n mod 4 in if negb (pad =? 0) then 4 - pad else pad.

Definition ov_stun_attribute_frame_is_valid (m : mem) (buffer : ptr) (length : Z) : option bool :=
  if (buffer =? NULL) || (length <? 4) then Some false else
  len ← ov_stun_attribute_get_length m buffer length;
  if len <? 0 then Some false else
  let len := len + (4 + padding len) in
  if length <? len then Some false else Some true.

(** Result: truth value, [*content_start] and [*content_length] when set. *)
Definition ov_stun_attribute_frame_content (m : mem) (buffer : ptr) (length : Z)
    (content_start content_length : ptr) : option (bool * option (ptr * Z)) :=
  if (buffer =? NULL) || (content_start =? NULL) || (content_length =? NULL)
  then Some (false, None) else
  valid ← ov_stun_attribute_frame_is_valid m buffer length;
  if negb valid then Some (false, None) else
  len ← ov_stun_attribute_get_length m buffer length;
  if len <? 0 then Some (false, None)
  else if len =? 0 then Some (true, Some (NULL, len))
  else Some (true, Some (buffer + 4, len)).

(** What an encoder returns: truth value, [*next] when it is set, memory. *)
Abbreviation encoded := (option (bool * option ptr * mem)).
Definition set_next (next p : ptr) : option ptr := if negb (next =? NULL) then Some p else None.

Definition ov_stun_attribute_encode (m : mem) (buffer : ptr) (length : Z) (next : ptr)
    (attribute_type : Z) (content_start : ptr) (content_length : Z) : encoded :=
  if buffer =? NULL then Some (false, None, m) else
  let pad := padding content_length in
  if length <? u64 (4 + content_length + pad) then Some (false, None, m) else
  '(ok, m) ← ov_stun_attribute_set_type m buffer length attribute_type;
  if negb ok then Some (false, None, m) else
  '(ok, m) ← ov_stun_attribute_set_length m buffer length (u16 content_length);
  if negb ok then Some (false, None, m) else
  m ← (if negb (content_start =? NULL) then
         m ← memcpy m (buffer + 4) content_start content_length;
         memset m (buffer + 4 + content_length) 0 pad
       else Some m);
  Some (true, set_next next (buffer + 4 + content_length + pad), m).

(** [strndup]: the bytes up to the first zero, at most [n], then a zero. *)
Fixpoint strndup_bytes (m : mem) (p : ptr) (n : nat) : option (list Z) :=
  match n with
  | O => Some [0]
  | S n => b ← load8 m p;
           if b =? 0 then Some [0] else bs ← strndup_bytes m (p + 1) n; Some (b :: bs)
  end.

(** Result: truth value, and [*type] and [*content] when set, with the memory
    that holds the copy. *)
Definition ov_stun_attribute_decode (m : mem) (buffer : ptr) (length : Z) (type content : ptr)
    : option (bool * option (Z * ptr) * mem) :=
  if (buffer =? NULL) || (length <? 4) || (type =? NULL) || (content =? NULL)
  then Some (false, None, m) else
  len ← ov_stun_attribute_get_length m buffer length;
  if len <? 0 then Some (false, None, m) else
  t ← ov_stun_attribute_get_type m buffer length;
  if 0 <? len then
    s ← strndup_bytes m (buffer + 4) (Z.to_nat len);
    Some (true, Some (t, fresh m), write m (fresh m) s)
  else Some (true, Some (t, NULL), m).

(** [attr] holds the elements [attr[0..attr_size-1]]; a [NULL] array, for which
    the code returns [NULL], has no counterpart. *)
Fixpoint ov_stun_attributes_get_type_loop (m : mem) (attr : list ptr) (type : Z) : option ptr :=
  match attr with
  | [] => Some NULL
  | a :: attr =>
      if a =? NULL then Some NULL else
      t ← ov_stun_attribute_get_type m a 4;
      if type =? t then Some a else ov_stun_attributes_get_type_loop m attr type
  end.
Definition ov_stun_attributes_get_type (m : mem) (attr : list ptr) (attr_size type : Z)
    : option ptr :=
  if attr_size <? 1 then Some NULL else
  ov_stun_attributes_get_type_loop m (ztake attr_size attr) type.

Definition ov_stun_attribute_frame_copy (m : mem) (orig dest : ptr) (dest_size : Z) (next : ptr)
    : encoded :=
  if (orig =? NULL) || (dest =? NULL) then Some (false, None, m) else
  len ← ov_stun_attribute_get_length m orig 4;
  let length := u64 len in
  if dest_size <? length + 4 then Some (false, None, m) else
  m ← memcpy m dest orig (length + 4);
  Some (true, set_next next (dest + length + 4), m).

(** [return ov_stun_attribute_encode(buffer, length, next, type, buf, n)] for a
    local array [buf], which most encoders end with: the array is live during
    the call only. *)
Definition encode_local (m : mem) (buffer : ptr) (length : Z) (next : ptr) (type : Z)
    (buf : list Z) (n : Z) : encoded :=
  with_local m buf (fun b m => ov_stun_attribute_encode m buffer length next type b n).

(** ** Specification *)

Definition attr_size (n : Z) : Z := 4 + n + padding n.
Definition attr_bytes (t : Z) (c : list Z) : list Z :=
  be16 t ++ be16 (Zlen c) ++ c ++ zeros (padding (Zlen c)).
(** An attribute of type [t] with content [c] stands at [p]. *)
Definition attr_at (m : mem) (p : ptr) (t : Z) (c : list Z) : Prop :=
  region m p (be16 t ++ be16 (Zlen c) ++ c).
Definition is_u16 (x : Z) : Prop := 0 <= x < 65536.

(** ** Lemmas *)

Lemma padding_spec n : 0 <= padding n < 4 /\ (n + padding n) mod 4 = 0.
Proof. unfold padding. pose proof (Z.mod_pos_bound n 4). case_if; dlia. Qed.
Lemma padding_0 n : n mod 4 = 0 -> padding n = 0.
Proof. unfold padding. intros ->. done. Qed.

Lemma Zlen_attr_bytes t c : Zlen (attr_bytes t c) = attr_size (Zlen c).
Proof.
  unfold attr_bytes, attr_size. pose proof (padding_spec (Zlen c)) as [? _]. zlia.
Qed.
#[export] Hint Rewrite Zlen_attr_bytes : zlen.
Lemma attr_size_bounds n : 4 + n <= attr_size n <= 7 + n.
Proof. unfold attr_size. pose proof (padding_spec n) as [? _]. lia. Qed.
Lemma attr_size_aligned n : attr_size n mod 4 = 0.
Proof. unfold attr_size. pose proof (padding_spec n) as [_ ?]. dlia. Qed.
Lemma bytes_attr_bytes t c : bytes c -> bytes (attr_bytes t c).
Proof. intros. unfold attr_bytes. rewrite !bytes_app. auto 6 with ov. Qed.
#[export] Hint Resolve bytes_attr_bytes : ov.

Lemma attr_bytes_aligned t c :
  Zlen c mod 4 = 0 -> attr_bytes t c = be16 t ++ be16 (Zlen c) ++ c.
Proof. intros H. unfold attr_bytes. rewrite padding_0 by done. by rewrite app_nil_r. Qed.


Lemma attr_bytes_at m p t c : region m p (attr_bytes t c) -> attr_at m p t c.
Proof.
  unfold attr_bytes, attr_at. rewrite (app_assoc (be16 (Zlen c))), app_assoc.
  intros H. by apply region_app_l in H.
Qed.
Lemma attr_at_content m p t c : attr_at m p t c -> region m (p + 4) c.
Proof.
  unfold attr_at. rewrite app_assoc. intros H. eapply region_app_r; [done|zlia].
Qed.

(** Field access on any readable memory. *)
Lemma get_type_region m p l length :
  region m p l -> bytes l -> 2 <= Zlen l -> 2 <= length ->
  ov_stun_attribute_get_type m p length = Some (be_val [l.[0]; l.[1]]).
Proof.
  intros Hm Hb Hl Hlen. pose proof Hm as [Hp _]. unfold ov_stun_attribute_get_type, NULL.
  decide_guard. rewrite (load16_region m p l p) by (done || lia). cbn [mbind option_bind].
  rewrite Z.sub_diag. rewrite ntohs_load by auto with ov. by rewrite be16_val by auto with ov.
Qed.
Lemma get_length_region m p l length :
  region m p l -> bytes l -> 4 <= Zlen l -> 4 <= length ->
  ov_stun_attribute_get_length m p length = Some (be_val [l.[2]; l.[3]]).
Proof.
  intros Hm Hb Hl Hlen. pose proof Hm as [Hp _]. unfold ov_stun_attribute_get_length, NULL.
  decide_guard. rewrite (load16_region m p l (p + 2)) by (done || lia). cbn [mbind option_bind].
  replace (p + 2 - p) with 2 by lia. rewrite ntohs_load by auto with ov.
  by rewrite be16_val by auto with ov.
Qed.

Lemma attr_at_bytes4 m p t c :
  attr_at m p t c -> region m p (be16 t ++ be16 (Zlen c)).
Proof. unfold attr_at. rewrite app_assoc. apply region_app_l. Qed.

Lemma be_val_be16' x : is_u16 x -> be_val [(be16 x).[0]; (be16 x).[1]] = x.
Proof. intros. by apply be_val_be16. Qed.

Lemma load16_be m q x : region m q (be16 x) -> is_u16 x -> exists w, load16 m q = Some w /\ ntohs w = x.
Proof.
  intros Hm Hx. eexists. split; [apply (load16_region m q (be16 x) q Hm); [lia|zlia]|].
  rewrite Z.sub_diag. rewrite ntohs_load by (apply bytes_znth; auto with ov).
  rewrite <- be16_val by (apply bytes_znth; auto with ov). by apply be_val_be16'.
Qed.

Lemma get_type_attr m p t c length :
  attr_at m p t c -> is_u16 t -> 2 <= length -> ov_stun_attribute_get_type m p length = Some t.
Proof.
  intros Ha Ht Hl. apply attr_at_bytes4 in Ha.
  erewrite get_type_region; [|done|apply bytes_app; auto with ov|zlia|done].
  f_equal. by apply be_val_be16'.
Qed.
Lemma get_length_attr m p t c length :
  attr_at m p t c -> is_u16 (Zlen c) -> 4 <= length ->
  ov_stun_attribute_get_length m p length = Some (Zlen c).
Proof.
  intros Ha Ht Hl. apply attr_at_bytes4 in Ha.
  erewrite get_length_region; [|done|apply bytes_app; auto with ov|zlia|done].
  f_equal. by apply (be_val_be16' (Zlen c)).
Qed.

Lemma set_type_spec m p n length t :
  mapped m p n -> 2 <= n -> 2 <= length -> is_u16 t ->
  ov_stun_attribute_set_type m p length t = Some (true, write m p (be16 t)).
Proof.
  intros Hm Hn Hl Ht. pose proof Hm as [Hp _]. unfold ov_stun_attribute_set_type, NULL.
  decide_guard. by rewrite (store16_htons m p n) by (done || lia).
Qed.
Lemma set_length_spec m p n length x :
  mapped m p n -> 4 <= n -> 4 <= length -> is_u16 x ->
  ov_stun_attribute_set_length m p length x = Some (true, write m (p + 2) (be16 x)).
Proof.
  intros Hm Hn Hl Ht. pose proof Hm as [Hp _]. unfold ov_stun_attribute_set_length, NULL.
  decide_guard. by rewrite (store16_htons m p n) by (done || lia).
Qed.
#[global] Opaque u16.

(** The encoder writes exactly the frame and nothing else. *)
Lemma attribute_encode_spec m buffer length next t cs c :
  mapped m buffer (attr_size (Zlen c)) -> attr_size (Zlen c) <= length ->
  region m cs c -> bytes c -> is_u16 t -> is_u16 (Zlen c) ->
  cs + Zlen c <= buffer \/ buffer + attr_size (Zlen c) <= cs ->
  ov_stun_attribute_encode m buffer length next t cs (Zlen c) =
    Some (true, set_next next (buffer + attr_size (Zlen c)), write m buffer (attr_bytes t c)).
Proof.
  intros Hm Hlen Hc Hb Ht Hcl Hd. pose proof Hm as [Hp _]. pose proof Hc as [Hcp _].
  pose proof (attr_size_bounds (Zlen c)) as Hs. pose proof (padding_spec (Zlen c)) as [Hpad _].
  unfold is_u16 in *. unfold ov_stun_attribute_encode, NULL. unfold attr_size in *.
  rewrite u64_id by lia. decide_guard. decide_guard.
  rewrite (set_type_spec m buffer (4 + Zlen c + padding (Zlen c))) by (done || lia).
  cbn [mbind option_bind negb]. rewrite u16_id by lia.
  rewrite (set_length_spec _ buffer (4 + Zlen c + padding (Zlen c)))
    by first [by apply mapped_write|done|lia].
  cbn [mbind option_bind negb]. decide_guard.
  rewrite (write_app m buffer (buffer + 2)) by done.
  rewrite (memcpy_region _ _ _ c _ buffer (4 + Zlen c + padding (Zlen c)))
    by first [apply region_write_out; [done|zlia]|by apply mapped_write|done|lia].
  cbn [mbind option_bind]. rewrite (write_app m buffer (buffer + 4)) by done.
  rewrite (memset_0 _ buffer (4 + Zlen c + padding (Zlen c)))
    by first [by apply mapped_write|lia].
  cbn [mbind option_bind]. rewrite (write_app m buffer) by zlia. unfold attr_bytes.
  rewrite <- !app_assoc. do 3 f_equal. by rewrite !Z.add_assoc.
Qed.

Lemma attribute_encode_null m buffer length next t :
  mapped m buffer 4 -> 4 <= length -> is_u16 t ->
  ov_stun_attribute_encode m buffer length next t NULL 0 =
    Some (true, set_next next (buffer + 4), write m buffer (attr_bytes t [])).
Proof.
  intros Hm Hlen Ht. pose proof Hm as [Hp _]. unfold ov_stun_attribute_encode, NULL.
  change (u64 (4 + 0 + padding 0)) with 4. decide_guard. decide_guard.
  rewrite (set_type_spec m buffer 4) by (done || lia). cbn [mbind option_bind negb].
  rewrite u16_id by lia.
  rewrite (set_length_spec _ buffer 4) by first [by apply mapped_write|unfold is_u16; lia|done].
  cbn [mbind option_bind negb Z.eqb]. rewrite (write_app m buffer (buffer + 2)) by done.
  change (padding 0) with 0. by replace (buffer + 4 + 0 + 0) with (buffer + 4) by lia.
Qed.

(** A frame that does not fit is refused and the memory is untouched. *)
Lemma attribute_encode_short m buffer length next t cs n :
  0 <= n -> attr_size n < 2 ^ 64 -> length < attr_size n ->
  ov_stun_attribute_encode m buffer length next t cs n = Some (false, None, m).
Proof.
  intros Hn Hw Hlen. unfold ov_stun_attribute_encode. case_if; [done|].
  pose proof (attr_size_bounds n). unfold attr_size in *. rewrite u64_id by lia. by decide_guard.
Qed.

(** The content of a local array is copied before the array goes away. *)
Lemma encode_local_spec m buffer length next t c rest n :
  mapped m buffer (attr_size n) -> attr_size n <= length -> n = Zlen c ->
  bytes c -> is_u16 t -> is_u16 n ->
  encode_local m buffer length next t (c ++ rest) n =
    Some (true, set_next next (buffer + attr_size n), write m buffer (attr_bytes t c)).
Proof.
  intros Hm Hlen -> Hb Ht Hc. pose proof (attr_size_bounds (Zlen c)). pose proof (Zlen_nonneg c).
  apply with_local_write; [by rewrite Zlen_attr_bytes|].
  intros a Ha Hr Hout. apply region_app_l in Hr.
  apply attribute_encode_spec; try done; [by apply mapped_write|].
  destruct (Hout _ Hm); [by right|lia].
Qed.
Lemma encode_local_exact m buffer length next t c n :
  n = Zlen c -> mapped m buffer (attr_size n) -> attr_size n <= length ->
  bytes c -> is_u16 t -> is_u16 n ->
  encode_local m buffer length next t c n =
    Some (true, set_next next (buffer + attr_size n), write m buffer (attr_bytes t c)).
Proof. intros. rewrite <- (app_nil_r c) at 1. by apply encode_local_spec. Qed.
Lemma encode_local_short m buffer length next t buf n :
  0 <= n -> attr_size n < 2 ^ 64 -> length < attr_size n ->
  encode_local m buffer length next t buf n = Some (false, None, m).
Proof.
  intros. apply (with_local_same m buf _ (false, None)). intros. by rewrite attribute_encode_short.
Qed.

(** What the readers see in a frame. *)
Lemma frame_is_valid_attr m p t c length :
  attr_at m p t c -> is_u16 (Zlen c) ->
  ov_stun_attribute_frame_is_valid m p length =
    Some ((attr_size (Zlen c) <=? length)).
Proof.
  intros Ha Hc. pose proof Ha as [Hp _]. pose proof (attr_size_bounds (Zlen c)).
  unfold is_u16 in *. unfold ov_stun_attribute_frame_is_valid, NULL.
  destruct (Z.ltb_spec length 4).
  { rewrite orb_true_r. f_equal. lia. }
  decide_guard. rewrite (get_length_attr m p t c) by done. cbn [mbind option_bind].
  decide_guard. unfold attr_size. case_if; f_equal; lia.
Qed.

Lemma frame_content_attr m p t c length cs cl :
  attr_at m p t c -> is_u16 (Zlen c) -> attr_size (Zlen c) <= length -> cs <> NULL -> cl <> NULL ->
  ov_stun_attribute_frame_content m p length cs cl =
    Some (true, Some (if Zlen c =? 0 then NULL else p + 4, Zlen c)).
Proof.
  intros Ha Hc Hl Hcs Hcl. pose proof Ha as [Hp _]. pose proof (attr_size_bounds (Zlen c)).
  unfold is_u16 in *. unfold ov_stun_attribute_frame_content, NULL in *. decide_guard.
  rewrite (frame_is_valid_attr m p t c) by done. cbn [mbind option_bind]. decide_guard.
  rewrite (get_length_attr m p t c) by (done || lia). cbn [mbind option_bind].
  decide_guard. by case_if.
Qed.

(** The scan returns the first attribute of the type. *)
Definition attrs_at (m : mem) (ps : list ptr) (ts : list Z) : Prop :=
  Forall2 (fun p t => is_u16 t /\ exists c, attr_at m p t c) ps ts.

Lemma get_type_loop_found m ps1 ts1 p t ps2 :
  attrs_at m ps1 ts1 -> t ∉ ts1 -> is_u16 t -> (exists c, attr_at m p t c) ->
  ov_stun_attributes_get_type_loop m (ps1 ++ p :: ps2) t = Some p.
Proof.
  intros H Hni Ht [c Hc]. induction H as [|q u ps ts [Hu [c' Hq]] _ IH]; simpl.
  - pose proof Hc as [Hp _]. unfold NULL. decide_guard.
    rewrite (get_type_attr m p t c) by done. cbn [mbind option_bind]. by rewrite Z.eqb_refl.
  - pose proof Hq as [Hp _]. unfold NULL. decide_guard.
    rewrite (get_type_attr m q u c') by done. cbn [mbind option_bind].
    apply not_elem_of_cons in Hni as [??]. rewrite (proj2 (Z.eqb_neq t u)) by done. by apply IH.
Qed.
Lemma get_type_loop_absent m ps ts t rest :
  attrs_at m ps ts -> t ∉ ts -> rest = [] \/ (exists rest', rest = NULL :: rest') ->
  ov_stun_attributes_get_type_loop m (ps ++ rest) t = Some NULL.
Proof.
  intros H Hni Hr. induction H as [|q u ps ts [Hu [c' Hq]] _ IH]; simpl.
  - by destruct Hr as [->|[rest' ->]].
  - pose proof Hq as [Hp _]. unfold NULL in *. decide_guard.
    rewrite (get_type_attr m q u c') by done. cbn [mbind option_bind].
    apply not_elem_of_cons in Hni as [??]. rewrite (proj2 (Z.eqb_neq t u)) by done. by apply IH.
Qed.

(** ** Properties *)

(** [ov_stun_attribute_encode] writes the attribute's frame and leaves every
    other byte alone: the frame is valid, carries the type, the length and the
    content back to the readers, ends 32 bit aligned, and [*next] is its end. *)
Theorem attribute_encode_roundtrip m buffer length next t cs c :
  mapped m buffer (attr_size (Zlen c)) -> attr_size (Zlen c) <= length ->
  region m cs c -> bytes c -> is_u16 t -> is_u16 (Zlen c) ->
  cs + Zlen c <= buffer \/ buffer + attr_size (Zlen c) <= cs ->
  exists m' e,
    ov_stun_attribute_encode m buffer length next t cs (Zlen c) =
      Some (true, set_next next e, m') /\
    e = buffer + attr_size (Zlen c) /\ (e - buffer) mod 4 = 0 /\
    ov_stun_attribute_frame_is_valid m' buffer length = Some true /\
    ov_stun_attribute_get_type m' buffer length = Some t /\
    ov_stun_attribute_get_length m' buffer length = Some (Zlen c) /\
    (forall a b, a <> NULL -> b <> NULL ->
       ov_stun_attribute_frame_content m' buffer length a b =
         Some (true, Some (if Zlen c =? 0 then NULL else buffer + 4, Zlen c))) /\
    region m' (buffer + 4) c /\
    (forall q, q < buffer \/ e <= q -> m' !! q = m !! q).
Proof.
  intros Hm Hlen Hc Hb Ht Hcl Hd. pose proof Hm as [Hp _].
  pose proof (attr_size_bounds (Zlen c)) as Hs. pose proof (Zlen_nonneg c).
  assert (Ha : attr_at (write m buffer (attr_bytes t c)) buffer t c)
    by by apply attr_bytes_at, region_write.
  eexists _, _. split; [by apply attribute_encode_spec|]. split; [done|].
  split. { rewrite Z.add_simpl_l. apply attr_size_aligned. }
  split. { rewrite (frame_is_valid_attr _ _ t c) by done. f_equal. lia. }
  split. { eapply get_type_attr; [done|done|lia]. }
  split. { eapply get_length_attr; [done|done|lia]. }
  split. { intros. by eapply frame_content_attr. }
  split. { by eapply attr_at_content. }
  intros q Hq. apply lookup_write_out. rewrite Zlen_attr_bytes. lia.
Qed.

Lemma attribute_encode_roundtrip_witness :
  exists m' e,
    ov_stun_attribute_encode (write (write ∅ 16 (zeros 12)) 64 [1; 2; 3; 4; 5]) 16 12 1 0x8022 64 5 =
      Some (true, set_next 1 e, m') /\ e = 28 /\
    ov_stun_attribute_get_type m' 16 12 = Some 0x8022 /\ region m' 20 [1; 2; 3; 4; 5].
Proof.
  destruct (attribute_encode_roundtrip (write (write ∅ 16 (zeros 12)) 64 [1; 2; 3; 4; 5]) 16 12 1
              0x8022 64 [1; 2; 3; 4; 5]) as (m' & e & H1 & H2 & _ & _ & H3 & _ & _ & H4 & _).
  - apply mapped_write, (region_mapped _ 16 (zeros 12)), region_write. lia.
  - vm_compute. discriminate.
  - apply region_write. lia.
  - repeat constructor; unfold is_byte; lia.
  - unfold is_u16; lia.
  - unfold is_u16; vm_compute; intuition discriminate.
  - right. vm_compute. discriminate.
  - exists m', e. split; [exact H1|]. split; [exact H2|]. split; [exact H3|exact H4].
Defined.
