(* ===== verification/StunFrame.v ===== *)
(** * STUN messages (src/lib/ov_stun/src/ov_stun_frame.c)

    The 20 byte header (type, length, magic cookie, transaction id) and the
    slicing of a message into its attributes. The generation of a random
    transaction id is not modelled. *)
From S2P Require Import Prelude CMem StunAttribute.

(** ** The code *)

(** Result: truth value and [*pos]. *)
Definition ov_stun_frame_add_padding (head pos_ pos : ptr) : bool * ptr :=
  if (head =? NULL) || (pos_ =? NULL) || (pos =? NULL) then (false, pos) else
  let pad := (pos - head) mod 4 in
  let pad := if negb (pad =? 0) then 4 - pad else pad in
  (true, pos + pad).

Definition ov_stun_frame_get_length (m : mem) (buffer : ptr) (length : Z) : option Z :=
  if (buffer =? NULL) || (length <? 4) then Some (-1) else
  v ← load16 m (buffer + 2); Some (ntohs v).

Definition ov_stun_frame_set_length (m : mem) (head : ptr) (header_length length : Z)
    : option (bool * mem) :=
  if (head =? NULL) || (header_length <? 20) then Some (false, m) else
  m ← store16 m (head + 2) (htons length); Some (true, m).

Definition ov_stun_frame_is_valid (m : mem) (buffer : ptr) (length : Z) : option bool :=
  if (buffer =? NULL) || (length <? 20) then Some false else
  if negb (length mod 4 =? 0) then Some false else
  b0 ← load8 m buffer;
  if nz (b0 .& 0x80) || nz (b0 .& 0x40) then Some false else
  b3 ← load8 m (buffer + 3);
  if nz (b3 .& 0x01) || nz (b3 .& 0x02) then Some false else
  b4 ← load8 m (buffer + 4);
  if negb (b4 =? 0x21) then Some false else
  b5 ← load8 m (buffer + 5);
  if negb (b5 =? 0x12) then Some false else
  b6 ← load8 m (buffer + 6);
  if negb (b6 =? 0xA4) then Some false else
  b7 ← load8 m (buffer + 7);
  if negb (b7 =? 0x42) then Some false else
  len ← ov_stun_frame_get_length m buffer length;
  let len := u64 (20 + len) in
  if negb (length =? len) then Some false else Some true.

(** [memset(array, 0, n)] on an array of 8 byte pointers: [n] counts bytes. *)
Definition memset_ptrs (array : list ptr) (n : Z) : list ptr :=
  imap (fun i p => let k := n - 8 * Z.of_nat i in
          if 8 <=? k then 0 else if 0 <? k then (p .>> (8 * k)) .<< (8 * k) else p) array.

(** The loop of [ov_stun_frame_slice]; [rest] is the C variable [open]. *)
Fixpoint slice_loop (fuel : nat) (m : mem) (array : list ptr) (array_size item : Z)
    (p rest : Z) : option (bool * list ptr) :=
  match fuel with
  | O => None
  | S fuel =>
    if negb (0 <? rest) then Some (true, array) else
    let array := <[Z.to_nat item := p]> array in
    let item := item + 1 in
    if item =? array_size then Some (false, array) else
    if rest <? 4 then Some (false, array) else
    v ← load16 m (p + 2);
    let len := ntohs v in
    let pad := len mod 4 in
    let pad := if negb (pad =? 0) then 4 - pad else pad in
    let len := len + pad in
    if rest <? 4 + len then Some (false, array) else
    slice_loop fuel m array array_size item (p + (4 + len)) (rest - (4 + len))
  end.

(** [array] is the caller's array on entry ([None] for [NULL]), and in the
    result its contents on exit. *)
Definition ov_stun_frame_slice (m : mem) (buffer : ptr) (length : Z) (array : option (list ptr))
    (array_size : Z) : option (bool * option (list ptr)) :=
  let error array := Some (false, (fun a => memset_ptrs a array_size) <$> array) in
  if (buffer =? NULL) || (length <? 20) then error array else
  match array with
  | None => error None
  | Some a =>
    if array_size <? 1 then error array else
    rest ← ov_stun_frame_get_length m buffer length;
    let p := buffer + 20 in
    if negb (rest =? length - 20) then error array else
    let a := memset_ptrs a array_size in
    '(ok, a) ← slice_loop (S (Z.to_nat rest)) m a array_size 0 p rest;
    if (ok : bool) then Some (true, Some a) else error (Some a)
  end.

Definition ov_stun_frame_set_transaction_id (m : mem) (head : ptr) (length : Z) (id : ptr)
    : option (bool * mem) :=
  if (head =? NULL) || (id =? NULL) || (length <? 20) then Some (false, m) else
  m ← memcpy m (head + 8) id 12; Some (true, m).

Definition ov_stun_frame_get_transaction_id (head : ptr) (length : Z) : ptr :=
  if (head =? NULL) || (length <? 20) then NULL else head + 8.

Definition ov_stun_frame_has_magic_cookie (m : mem) (head : ptr) (length : Z) : option bool :=
  if (head =? NULL) || (length <? 20) then Some false else
  b4 ← load8 m (head + 4);
  if negb (b4 =? 0x21) then Some false else
  b5 ← load8 m (head + 5);
  if negb (b5 =? 0x12) then Some false else
  b6 ← load8 m (head + 6);
  if negb (b6 =? 0xA4) then Some false else
  b7 ← load8 m (head + 7);
  if negb (b7 =? 0x42) then Some false else Some true.

Definition ov_stun_frame_set_magic_cookie (m : mem) (head : ptr) (length : Z)
    : option (bool * mem) :=
  if (head =? NULL) || (length <? 20) then Some (false, m) else
  m ← store8 m (head + 4) 0x21;
  m ← store8 m (head + 5) 0x12;
  m ← store8 m (head + 6) 0xA4;
  m ← store8 m (head + 7) 0x42;
  Some (true, m).

Definition ov_stun_frame_get_method (m : mem) (head : ptr) (length : Z) : option Z :=
  if (head =? NULL) || (length <? 2) then Some 0 else
  h1 ← load8 m (head + 1);
  let type := u16 (h1 .& 0x0F) in
  let type := u16 (type + ((h1 .>> 5) .<< 4)) in
  h0 ← load8 m head;
  let type := u16 (type + ((h0 .>> 1) .<< 7)) in
  Some type.

Definition ov_stun_frame_set_method (m : mem) (head : ptr) (length type : Z)
    : option (bool * mem) :=
  if (head =? NULL) || (length <? 20) || (0xfff <? type) then Some (false, m) else
  h1 ← load8 m (head + 1);
  m ← store8 m (head + 1) (h1 .& 0x10);
  h0 ← load8 m head;
  m ← store8 m head (h0 .& 0x01);
  if type <=? 0x0f then
    h1 ← load8 m (head + 1);
    m ← store8 m (head + 1) (h1 .| type);
    Some (true, m)
  else
  h1 ← load8 m (head + 1);
  m ← store8 m (head + 1) (h1 .| (type .& 0x0F));
  h1 ← load8 m (head + 1);
  m ← store8 m (head + 1) (h1 .| ((type .<< 1) .& 0xE0));
  h0 ← load8 m head;
  m ← store8 m head (h0 .| (((type .<< 2) .>> 8) .& 0x3E));
  Some (true, m).

Definition ov_stun_frame_class_is_request (m : mem) (head : ptr) (length : Z) : option bool :=
  if (head =? NULL) || (length <? 2) then Some false else
  h0 ← load8 m head;
  if nz (h0 .& 0x01) then Some false else
  h1 ← load8 m (head + 1);
  if nz (h1 .& 0x10) then Some false else Some true.

Definition ov_stun_frame_class_is_indication (m : mem) (head : ptr) (length : Z) : option bool :=
  if (head =? NULL) || (length <? 2) then Some false else
  h0 ← load8 m head;
  if nz (h0 .& 0x01) then Some false else
  h1 ← load8 m (head + 1);
  if negb (nz (h1 .& 0x10)) then Some false else Some true.

Definition ov_stun_frame_class_is_success_response (m : mem) (head : ptr) (length : Z)
    : option bool :=
  if (head =? NULL) || (length <? 2) then Some false else
  h0 ← load8 m head;
  if negb (nz (h0 .& 0x01)) then Some false else
  h1 ← load8 m (head + 1);
  if nz (h1 .& 0x10) then Some false else Some true.

Definition ov_stun_frame_class_is_error_response (m : mem) (head : ptr) (length : Z)
    : option bool :=
  if (head =? NULL) || (length <? 2) then Some false else
  h0 ← load8 m head;
  if negb (nz (h0 .& 0x01)) then Some false else
  h1 ← load8 m (head + 1);
  if negb (nz (h1 .& 0x10)) then Some false else Some true.

Definition ov_stun_frame_set_success_response (m : mem) (head : ptr) (length : Z)
    : option (bool * mem) :=
  if (head =? NULL) || (length <? 20) then Some (false, m) else
  h0 ← load8 m head;
  m ← store8 m head (h0 .| 0x01);
  h1 ← load8 m (head + 1);
  m ← store8 m (head + 1) (h1 .& 0xEF);
  Some (true, m).

Definition ov_stun_frame_set_error_response (m : mem) (head : ptr) (length : Z)
    : option (bool * mem) :=
  if (head =? NULL) || (length <? 20) then Some (false, m) else
  h0 ← load8 m head;
  m ← store8 m head (h0 .| 0x01);
  h1 ← load8 m (head + 1);
  m ← store8 m (head + 1) (h1 .| 0x10);
  Some (true, m).

Definition ov_stun_frame_set_request (m : mem) (head : ptr) (length : Z) : option (bool * mem) :=
  if (head =? NULL) || (length <? 20) then Some (false, m) else
  h0 ← load8 m head;
  m ← store8 m head (h0 .& 0x3E);
  h1 ← load8 m (head + 1);
  m ← store8 m (head + 1) (h1 .& 0xEF);
  Some (true, m).

Definition ov_stun_frame_set_indication (m : mem) (head : ptr) (length : Z)
    : option (bool * mem) :=
  if (head =? NULL) || (length <? 20) then Some (false, m) else
  h0 ← load8 m head;
  m ← store8 m head (h0 .& 0x3E);
  h1 ← load8 m (head + 1);
  m ← store8 m (head + 1) (h1 .| 0x10);
  Some (true, m).

(** ** Specification: a message body is a sequence of attributes *)

(** One attribute frame; the padding octets may hold anything. *)
Record tlv := Tlv { tlv_type : Z; tlv_content : list Z; tlv_pad : list Z }.
Definition tlv_bytes (a : tlv) : list Z :=
  be16 (tlv_type a) ++ be16 (Zlen (tlv_content a)) ++ tlv_content a ++ tlv_pad a.
Definition tlv_wf (a : tlv) : Prop :=
  is_u16 (tlv_type a) /\ is_u16 (Zlen (tlv_content a)) /\
  Zlen (tlv_pad a) = padding (Zlen (tlv_content a)).
Definition tlvs_bytes (l : list tlv) : list Z := concat (tlv_bytes <$> l).
(** The addresses of the attributes of a body at [p]. *)
Fixpoint tlv_ptrs (p : ptr) (l : list tlv) : list ptr :=
  match l with
  | [] => []
  | a :: l => p :: tlv_ptrs (p + Zlen (tlv_bytes a)) l
  end.

(** ** Slicing *)

Lemma Zlen_tlv_bytes a : tlv_wf a -> Zlen (tlv_bytes a) = attr_size (Zlen (tlv_content a)).
Proof. intros (_ & _ & Hp). unfold tlv_bytes, attr_size. zlia. Qed.
Lemma tlv_bytes_min a : 4 <= Zlen (tlv_bytes a).
Proof. unfold tlv_bytes. zlia. Qed.
Lemma tlvs_bytes_cons a l : tlvs_bytes (a :: l) = tlv_bytes a ++ tlvs_bytes l.
Proof. done. Qed.
Lemma length_tlv_ptrs p l : length (tlv_ptrs p l) = length l.
Proof. revert p. induction l; intros p; simpl; auto. Qed.

Lemma tlv_at m p a : region m p (tlv_bytes a) -> attr_at m p (tlv_type a) (tlv_content a).
Proof.
  unfold tlv_bytes, attr_at. rewrite (app_assoc (be16 (Zlen _))), app_assoc. apply region_app_l.
Qed.

(** The attribute at the front of a body that is long enough for it. *)
Lemma tlv_split body :
  bytes body -> 4 <= Zlen body -> attr_size (be_val [body.[2]; body.[3]]) <= Zlen body ->
  exists a, tlv_wf a /\ Zlen (tlv_content a) = be_val [body.[2]; body.[3]] /\
    body = tlv_bytes a ++ zdrop (attr_size (be_val [body.[2]; body.[3]])) body.
Proof.
  intros Hb H4 Hs. pose proof (bytes_znth body 0 Hb) as B0. pose proof (bytes_znth body 1 Hb) as B1.
  pose proof (bytes_znth body 2 Hb) as B2. pose proof (bytes_znth body 3 Hb) as B3.
  pose proof (be_val_range2 _ _ B2 B3) as Hr. remember (be_val [body.[2]; body.[3]]) as n eqn:En.
  pose proof (padding_spec n) as [Hp _]. unfold attr_size in *.
  exists (Tlv (be_val [body.[0]; body.[1]]) (ztake n (zdrop 4 body))
           (ztake (padding n) (zdrop (4 + n) body))).
  assert (Hn : Zlen (ztake n (zdrop 4 body)) = n) by zlia.
  unfold tlv_wf, tlv_bytes, is_u16. cbn [tlv_type tlv_content tlv_pad]. rewrite Hn.
  split; [split; [by apply be_val_range2|split; [done|zlia]]|]. split; [done|].
  rewrite be16_be_val by done. rewrite En, be16_be_val by done. rewrite <- En.
  rewrite <- !app_assoc.
  rewrite <- (zdrop_zdrop (padding n) (4 + n)), ztake_zdrop by lia.
  rewrite <- (zdrop_zdrop n 4), ztake_zdrop by lia. by apply split_4.
Qed.

(** Acceptance: the loop stores the address of every attribute. *)
Lemma slice_loop_accepts fuel m array array_size item p l :
  (length (tlvs_bytes l) < fuel)%nat -> Forall tlv_wf l -> 0 <= item ->
  region m p (tlvs_bytes l) -> item + Zlen l < array_size -> array_size <= Zlen array ->
  slice_loop fuel m array array_size item p (Zlen (tlvs_bytes l)) =
    Some (true, list_inserts (Z.to_nat item) (tlv_ptrs p l) array).
Proof.
  revert array item p l. induction fuel as [|fuel IH]; intros array item p l Hf Hwf Hi Hm Hs Ha; [lia|].
  destruct l as [|a l]; [done|]. apply Forall_cons in Hwf as [Hwa Hwl].
  rewrite tlvs_bytes_cons, length_app in Hf. rewrite tlvs_bytes_cons in Hm.
  pose proof (tlv_bytes_min a) as Hmin. pose proof (Zlen_tlv_bytes a Hwa) as Hla.
  pose proof (Zlen_nonneg (tlvs_bytes l)) as Hnn. pose proof (tlv_at m p a (region_app_l _ _ _ _ Hm)) as Hat.
  destruct Hwa as (Ht & Hc & Hpad). pose proof Hm as [Hp _]. rewrite Zlen_cons in Hs.
  pose proof (Zlen_nonneg l).
  cbn [slice_loop]. rewrite tlvs_bytes_cons, Zlen_app. decide_guard. decide_guard. decide_guard.
  pose proof (get_length_attr m p _ _ 4 Hat Hc ltac:(lia)) as Hlen.
  unfold ov_stun_attribute_get_length in Hlen.
  replace ((p =? NULL) || (4 <? 4)) with false in Hlen by (unfold NULL; lia).
  destruct (load16 m (p + 2)) as [v|]; [|done]. cbn [mbind option_bind] in Hlen |- *.
  injection Hlen as ->. fold (padding (Zlen (tlv_content a))). unfold attr_size in Hla. decide_guard.
  replace (Zlen (tlv_bytes a) + Zlen (tlvs_bytes l) - _) with (Zlen (tlvs_bytes l)) by lia.
  replace (4 + (Zlen (tlv_content a) + padding (Zlen (tlv_content a)))) with (Zlen (tlv_bytes a)) by lia.
  rewrite IH; [|unfold Zlen in Hmin; lia|done|lia|by eapply region_app_r|lia|].
  - simpl. rewrite list_insert_inserts_lt by lia. do 4 f_equal. lia.
  - unfold Zlen in *. rewrite length_insert. lia.
Qed.

(** Rejection: whatever the loop accepts is a sequence of attributes. *)
Lemma slice_loop_sound fuel m array array_size item p body :
  (length body < fuel)%nat -> 0 <= item -> region m p body -> bytes body ->
  exists b array', slice_loop fuel m array array_size item p (Zlen body) = Some (b, array') /\
    length array' = length array /\
    (b = true -> item < array_size ->
     exists l, Forall tlv_wf l /\ body = tlvs_bytes l /\ item + Zlen l < array_size).
Proof.
  revert array item p body.
  induction fuel as [|fuel IH]; intros array item p body Hf Hi Hm Hb; [lia|]. cbn [slice_loop].
  destruct (Z.ltb_spec 0 (Zlen body)) as [Hl|Hl]; cbn [negb].
  2:{ eexists _, _. split; [done|]. split; [done|]. intros _ Hlt. exists [].
      rewrite (Zlen_0_nil body) by zlia. repeat split; [constructor|]. rewrite Zlen_nil. lia. }
  case_if. { eexists _, _. split; [done|]. rewrite length_insert. done. }
  case_if. { eexists _, _. split; [done|]. rewrite length_insert. done. }
  rewrite (load16_region m p body (p + 2)) by (done || lia). cbn [mbind option_bind].
  replace (p + 2 - p) with 2 by lia. rewrite ntohs_load by auto with ov.
  rewrite <- be16_val by auto with ov. fold (padding (be_val [body.[2]; body.[2 + 1]])).
  change (2 + 1) with 3. case_if. { eexists _, _. split; [done|]. rewrite length_insert. done. }
  destruct (tlv_split body Hb) as (a & Hwa & Hla & Hbody); [lia|unfold attr_size; lia|].
  pose proof (Zlen_tlv_bytes a Hwa) as Hta. rewrite Hla in Hta. unfold attr_size in *.
  pose proof (tlv_bytes_min a).
  set (n := 4 + (be_val [body.[2]; body.[3]] + padding (be_val [body.[2]; body.[3]]))) in *.
  replace (4 + _ + _) with n in Hbody, Hta by (unfold n; lia).
  rewrite Hbody in Hm, Hb. apply bytes_app in Hb as [_ Hb].
  replace (Zlen body - n) with (Zlen (zdrop n body)) by zlia.
  destruct (IH (<[Z.to_nat item:=p]> array) (item + 1) (p + n) (zdrop n body))
    as (b & array' & -> & Hlen & Hsound);
    [unfold Zlen, zdrop in *; rewrite length_drop; lia|lia|eapply region_app_r; [done|lia]|done|].
  exists b, array'. split; [done|]. rewrite Hlen, length_insert. split; [done|].
  intros -> Hlt. destruct Hsound as (l & Hwl & Hbl & Hs); [done|lia|].
  exists (a :: l). split; [by constructor|]. rewrite tlvs_bytes_cons, <- Hbl.
  split; [done|]. zlia.
Qed.

Lemma length_memset_ptrs array n : length (memset_ptrs array n) = length array.
Proof. apply length_imap. Qed.
Lemma memset_ptrs_null k n : memset_ptrs (replicate k NULL) n = replicate k NULL.
Proof.
  apply list_eq. intros i. unfold memset_ptrs. rewrite list_lookup_imap.
  destruct (replicate k NULL !! i) as [x|] eqn:E; [|done]. simpl. f_equal.
  apply lookup_replicate in E as [-> _]. unfold NULL.
  case_match; [done|]. case_match; [|done]. by rewrite Z.shiftr_0_l, Z.shiftl_0_l.
Qed.

(** What [ov_stun_frame_slice] accepts. *)
Definition sliceable (msg : list Z) (array_size : Z) (l : list tlv) : Prop :=
  Forall tlv_wf l /\ zdrop 20 msg = tlvs_bytes l /\
  be_val [msg.[2]; msg.[3]] = Zlen msg - 20 /\ Zlen l < array_size.

Lemma frame_get_length_region m p l length :
  region m p l -> bytes l -> 4 <= Zlen l -> 4 <= length ->
  ov_stun_frame_get_length m p length = Some (be_val [l.[2]; l.[3]]).
Proof. apply get_length_region. Qed.

Lemma list_inserts_0 (ps array : list Z) :
  (length ps <= length array)%nat -> list_inserts 0 ps array = ps ++ drop (length ps) array.
Proof.
  intros H. rewrite <- (take_drop (length ps) array) at 1. apply list_inserts_0_r.
  rewrite length_take. lia.
Qed.

Lemma frame_slice_spec m buffer msg array :
  region m buffer msg -> bytes msg -> 20 <= Zlen msg -> 1 <= Zlen array ->
  exists b array',
    ov_stun_frame_slice m buffer (Zlen msg) (Some array) (Zlen array) = Some (b, Some array') /\
    length array' = length array /\
    (b = true <-> exists l, sliceable msg (Zlen array) l) /\
    (forall l, sliceable msg (Zlen array) l ->
       array' = tlv_ptrs (buffer + 20) l ++ drop (length l) (memset_ptrs array (Zlen array))).
Proof.
  intros Hm Hb H20 Ha. pose proof Hm as [Hp _]. unfold ov_stun_frame_slice.
  replace ((buffer =? NULL) || _) with false by (unfold NULL; lia). decide_guard.
  rewrite (frame_get_length_region m buffer msg) by (done || lia). cbn [mbind option_bind].
  set (rest := be_val [msg.[2]; msg.[3]]).
  destruct (Z.eqb_spec rest (Zlen msg - 20)) as [Hr|Hr]; cbn [negb].
  2:{ eexists _, _. split; [done|]. rewrite length_memset_ptrs. split; [done|].
      split; [split; [done|]|]; unfold sliceable, rest in *; naive_solver. }
  assert (Hbody : region m (buffer + 20) (zdrop 20 msg)) by (apply region_zdrop; [done|lia]).
  assert (Hrest : rest = Zlen (zdrop 20 msg)) by zlia. rewrite Hrest.
  assert (Hf : (length (zdrop 20 msg) < S (Z.to_nat (Zlen (zdrop 20 msg))))%nat) by apply fuel_ok.
  destruct (slice_loop_sound _ m (memset_ptrs array (Zlen array)) (Zlen array) 0 (buffer + 20)
    (zdrop 20 msg) Hf ltac:(lia) Hbody (bytes_zdrop _ _ Hb)) as (b & array' & E & Hlen & Hs).
  rewrite length_memset_ptrs in Hlen.
  assert (Hacc : forall l, sliceable msg (Zlen array) l -> b = true /\
    array' = tlv_ptrs (buffer + 20) l ++ drop (length l) (memset_ptrs array (Zlen array))).
  { intros l (Hwf & Hbl & _ & Hl). rewrite Hbl in E, Hbody, Hf.
    rewrite slice_loop_accepts in E; try done; try lia.
    2:{ unfold Zlen in *. rewrite length_memset_ptrs. lia. }
    injection E as <- <-. split; [done|].
    rewrite list_inserts_0 by (rewrite length_memset_ptrs, length_tlv_ptrs; unfold Zlen in *; lia).
    by rewrite length_tlv_ptrs. }
  rewrite E. cbn [mbind option_bind]. destruct b.
  - exists true, array'. split; [done|]. split; [done|]. split; [|naive_solver].
    split; [|done]. intros _. destruct (Hs eq_refl) as (l & ? & ? & ?); [lia|].
    exists l. unfold sliceable. fold rest. naive_solver lia.
  - exists false, (memset_ptrs array' (Zlen array)). split; [done|].
    rewrite length_memset_ptrs. split; [done|].
    split; [split; [done|]|]; intros; naive_solver.
Qed.

(** The attributes of a sliced message, read back through the pointers. *)
Lemma tlvs_attrs_at m p l :
  Forall tlv_wf l -> region m p (tlvs_bytes l) -> attrs_at m (tlv_ptrs p l) (tlv_type <$> l).
Proof.
  intros Hwf. revert p. induction Hwf as [|a l Hwa _ IH]; intros p Hm; [constructor|].
  rewrite tlvs_bytes_cons in Hm. simpl. constructor.
  - split; [apply Hwa|]. exists (tlv_content a). by apply tlv_at, (region_app_l _ _ _ (tlvs_bytes l)).
  - apply IH. by eapply region_app_r.
Qed.

(** ** The message type field *)

(** Method and class of a header whose first two octets are [h0] and [h1]. *)
Definition method_of (h0 h1 : Z) : Z :=
  u16 (u16 (u16 (h1 .& 0x0F) + ((h1 .>> 5) .<< 4)) + ((h0 .>> 1) .<< 7)).
Definition class_of (h0 h1 : Z) : bool * bool := (nz (h0 .& 0x01), nz (h1 .& 0x10)).
(** The four class predicates of a header, in the order request, indication,
    success response, error response. *)
Definition stun_class (m : mem) (head : ptr) (length : Z) : option (bool * bool * bool * bool) :=
  a ← ov_stun_frame_class_is_request m head length;
  b ← ov_stun_frame_class_is_indication m head length;
  c ← ov_stun_frame_class_is_success_response m head length;
  d ← ov_stun_frame_class_is_error_response m head length;
  Some (a, b, c, d).
Definition class_flags (c : bool * bool) : bool * bool * bool * bool :=
  match c with
  | (false, false) => (true, false, false, false)
  | (false, true) => (false, true, false, false)
  | (true, false) => (false, false, true, false)
  | (true, true) => (false, false, false, true)
  end.

Ltac head_guard Hm :=
  pose proof Hm as [Hp _]; unfold NULL; decide_guard.
Ltac load_head Hm :=
  repeat first [ rewrite (load8_at_0 _ _ _ _ Hm); cbn [mbind option_bind]
               | rewrite (load8_at _ _ _ 1 _ Hm eq_refl) by lia; cbn [mbind option_bind] ].

Lemma get_method_spec m head length h0 h1 l :
  region m head (h0 :: h1 :: l) -> 2 <= length ->
  ov_stun_frame_get_method m head length = Some (method_of h0 h1).
Proof.
  intros Hm Hl. unfold ov_stun_frame_get_method. head_guard Hm. load_head Hm. done.
Qed.
Lemma stun_class_spec m head length h0 h1 l :
  region m head (h0 :: h1 :: l) -> 2 <= length ->
  stun_class m head length = Some (class_flags (class_of h0 h1)).
Proof.
  intros Hm Hl. unfold stun_class, class_flags, class_of, ov_stun_frame_class_is_request,
    ov_stun_frame_class_is_indication, ov_stun_frame_class_is_success_response,
    ov_stun_frame_class_is_error_response.
  replace ((head =? NULL) || (length <? 2)) with false by (destruct Hm; unfold NULL; lia).
  load_head Hm. by destruct (nz (h0 .& 1)), (nz (h1 .& 16)).
Qed.

(** Every setter changes the first two octets only. *)
Definition sets_head (m : mem) (head : ptr) (h0 h1 : Z) (l : list Z) (h0' h1' : Z)
    (r : option (bool * mem)) : Prop :=
  exists m', r = Some (true, m') /\ region m' head (h0' :: h1' :: l) /\ same_outside m m' head 2.

Lemma same_outside_shrink m m' p a b l a' b' :
  same_outside m m' p (Zlen (a :: b :: l)) ->
  region m p (a :: b :: l) -> region m' p (a' :: b' :: l) -> same_outside m m' p 2.
Proof.
  intros Ho [Hp H1] [_ H2] q Hq.
  destruct (decide (p + 2 <= q < p + Zlen (a :: b :: l))) as [Hin|]; [|apply Ho; lia].
  specialize (H1 (q - p)). specialize (H2 (q - p)). replace (p + (q - p)) with q in * by lia.
  rewrite H1, H2 by (rewrite ?Zlen_cons in *; lia). f_equal.
  by rewrite !znth_cons_S by lia.
Qed.

Ltac set_head_step :=
  match goal with
  | Hm : region ?m ?head (_ :: _ :: _) |- context [store8 ?m ?head ?v] =>
      let m' := fresh "m" in let E := fresh "E" in let Hr := fresh "Hr" in let Ho := fresh "Ho" in
      destruct (store8_region_0 m head _ _ v Hm) as (m' & E & Hr & Ho); rewrite E
  | Hm : region ?m ?head (_ :: _ :: _) |- context [store8 ?m (?head + 1) ?v] =>
      let m' := fresh "m" in let E := fresh "E" in let Hr := fresh "Hr" in let Ho := fresh "Ho" in
      destruct (store8_region_1 m head _ _ _ v Hm) as (m' & E & Hr & Ho); rewrite E
  | Hm : region ?m ?head (_ :: _ :: _) |- context [load8 ?m ?head] =>
      rewrite (load8_at_0 _ _ _ _ Hm)
  | Hm : region ?m ?head (_ :: _ :: _) |- context [load8 ?m (?head + 1)] =>
      rewrite (load8_at _ _ _ 1 _ Hm eq_refl) by lia
  end; cbn [mbind option_bind].
Ltac set_head_done :=
  eexists; split; [reflexivity|]; split; [eassumption|];
  eapply same_outside_shrink; [|eassumption|eassumption];
  repeat first [ eassumption | eapply same_outside_trans; [|eassumption] ].

Section HeadSetters.
Context (m : mem) (head length h0 h1 : Z) (l : list Z).
Context (Hm : region m head (h0 :: h1 :: l)) (Hl : 20 <= length).

Lemma set_success_spec :
  sets_head m head h0 h1 l (u8 (h0 .| 0x01)) (u8 (h1 .& 0xEF))
  (ov_stun_frame_set_success_response m head length).
Proof using All.
  unfold ov_stun_frame_set_success_response, sets_head. head_guard Hm.
  repeat set_head_step. set_head_done.
Qed.
Lemma set_error_spec :
  sets_head m head h0 h1 l (u8 (h0 .| 0x01)) (u8 (h1 .| 0x10))
  (ov_stun_frame_set_error_response m head length).
Proof using All.
  unfold ov_stun_frame_set_error_response, sets_head. head_guard Hm.
  repeat set_head_step. set_head_done.
Qed.
Lemma set_request_spec :
  sets_head m head h0 h1 l (u8 (h0 .& 0x3E)) (u8 (h1 .& 0xEF))
  (ov_stun_frame_set_request m head length).
Proof using All.
  unfold ov_stun_frame_set_request, sets_head. head_guard Hm.
  repeat set_head_step. set_head_done.
Qed.
Lemma set_indication_spec :
  sets_head m head h0 h1 l (u8 (h0 .& 0x3E)) (u8 (h1 .| 0x10))
  (ov_stun_frame_set_indication m head length).
Proof using All.
  unfold ov_stun_frame_set_indication, sets_head. head_guard Hm.
  repeat set_head_step. set_head_done.
Qed.
End HeadSetters.


(** The two octets [ov_stun_frame_set_method] leaves: they depend on the class
    bits and the method only. *)
Definition set_method_octets (c0 c1 type : Z) : Z * Z :=
  if type <=? 0x0f then (u8 c0, u8 (u8 c1 .| type))
  else (u8 (u8 c0 .| (((type .<< 2) .>> 8) .& 0x3E)),
        u8 (u8 (u8 c1 .| (type .& 0x0F)) .| ((type .<< 1) .& 0xE0))).

Lemma set_method_spec m head length h0 h1 l type :
  region m head (h0 :: h1 :: l) -> 20 <= length -> type <= 0xfff ->
  sets_head m head h0 h1 l
    (set_method_octets (h0 .& 0x01) (h1 .& 0x10) type).1
    (set_method_octets (h0 .& 0x01) (h1 .& 0x10) type).2
    (ov_stun_frame_set_method m head length type).
Proof.
  intros Hm Hl Ht. unfold ov_stun_frame_set_method, sets_head, set_method_octets.
  head_guard Hm. repeat set_head_step. case_if; repeat set_head_step; set_head_done.
Qed.

Definition octets_ok (c0 c1 type : Z) : bool :=
  let '(h0, h1) := set_method_octets c0 c1 type in
  (method_of h0 h1 =? type) && (h0 .& 0x01 =? c0) && (h1 .& 0x10 =? c1) && (h0 <? 64) &&
  (0 <=? h0) && (0 <=? h1) && (h1 <? 256).
Lemma octets_ok_all :
  forallb (fun t => octets_ok 0 0 t && octets_ok 0 0x10 t && octets_ok 1 0 t && octets_ok 1 0x10 t)
    (seqZ 0 4096) = true.
Proof. vm_compute. reflexivity. Qed.

Lemma land_01 b : is_byte b -> b .& 0x01 = 0 \/ b .& 0x01 = 1.
Proof.
  intros H. assert ((b .& 1 =? 0) || (b .& 1 =? 1) = true); [|lia].
  revert b H. apply byte_forall. vm_compute. reflexivity.
Qed.
Lemma land_10 b : is_byte b -> b .& 0x10 = 0 \/ b .& 0x10 = 0x10.
Proof.
  intros H. assert ((b .& 0x10 =? 0) || (b .& 0x10 =? 0x10) = true); [|lia].
  revert b H. apply byte_forall. vm_compute. reflexivity.
Qed.

Lemma octets_ok_spec h0 h1 type :
  is_byte h0 -> is_byte h1 -> 0 <= type <= 0xfff ->
  octets_ok (h0 .& 0x01) (h1 .& 0x10) type = true.
Proof.
  intros H0 H1 Ht. pose proof octets_ok_all as H. rewrite forallb_forall in H.
  specialize (H type). cbv beta in H.
  rewrite <- list_elem_of_In, elem_of_seqZ in H.
  specialize (H ltac:(lia)).
  apply andb_true_iff in H as [H H4]. apply andb_true_iff in H as [H H3].
  apply andb_true_iff in H as [H5 H6].
  by destruct (land_01 h0 H0) as [-> | ->], (land_10 h1 H1) as [-> | ->].
Qed.

(** What a class setter does to the type field of a header whose two top bits
    are zero: it keeps the method bits of each octet and sets the class bits. *)
Definition class_setter_ok (f g : Z -> Z) (c : bool * bool) : bool :=
  forallb (fun h0 => implb (h0 <? 64)
    ((u8 (f h0) .>> 1 =? h0 .>> 1) && eqb (nz (u8 (f h0) .& 0x01)) c.1)) all_bytes &&
  forallb (fun h1 => (u8 (g h1) .& 0x0F =? h1 .& 0x0F) && (u8 (g h1) .>> 5 =? h1 .>> 5) &&
    eqb (nz (u8 (g h1) .& 0x10)) c.2) all_bytes.
Lemma class_setter_spec f g c h0 h1 :
  class_setter_ok f g c = true -> is_byte h0 -> is_byte h1 -> h0 < 64 ->
  method_of (u8 (f h0)) (u8 (g h1)) = method_of h0 h1 /\ class_of (u8 (f h0)) (u8 (g h1)) = c.
Proof.
  intros H H0 H1 Hlt. apply andb_true_iff in H as [E0 E1].
  pose proof (byte_forall _ E0 h0 H0) as K0. pose proof (byte_forall _ E1 h1 H1) as K1.
  clear E0 E1. cbv beta in K0, K1. rewrite (proj2 (Z.ltb_lt h0 64) Hlt) in K0. cbn [implb] in K0.
  apply andb_true_iff in K0 as [K0 K0']. apply andb_true_iff in K1 as [K1 K1''].
  apply andb_true_iff in K1 as [K1 K1']. apply Z.eqb_eq in K0, K1, K1'.
  apply eqb_prop in K0', K1''. unfold method_of, class_of. rewrite K0, K1, K1', K0', K1''.
  by destruct c.
Qed.
Lemma class_setters_ok :
  class_setter_ok (fun x => x .| 0x01) (fun x => x .& 0xEF) (true, false) = true /\
  class_setter_ok (fun x => x .| 0x01) (fun x => x .| 0x10) (true, true) = true /\
  class_setter_ok (fun x => x .& 0x3E) (fun x => x .& 0xEF) (false, false) = true /\
  class_setter_ok (fun x => x .& 0x3E) (fun x => x .| 0x10) (false, true) = true.
Proof. vm_compute. done. Qed.


(** ** The header *)

Definition magic_cookie : list Z := [0x21; 0x12; 0xA4; 0x42].
Lemma Zlen_magic_cookie : Zlen magic_cookie = 4.
Proof. reflexivity. Qed.
#[export] Hint Rewrite Zlen_magic_cookie : zlen.
(** The fixed 20 octets at the start of a message. *)
Definition header_bytes (h0 h1 n : Z) (id : list Z) : list Z :=
  [h0; h1] ++ be16 n ++ magic_cookie ++ id.
(** What a well formed message is: a multiple of 32 bit, two zero bits, the
    magic cookie, and a length field that counts the octets after the header. *)
Definition frame_valid (msg : list Z) : bool :=
  (20 <=? Zlen msg) && (Zlen msg mod 4 =? 0) && (msg.[0] <? 64) &&
  (msg.[4] =? 0x21) && (msg.[5] =? 0x12) && (msg.[6] =? 0xA4) && (msg.[7] =? 0x42) &&
  (be_val [msg.[2]; msg.[3]] =? Zlen msg - 20).

Lemma top_bits b : is_byte b -> nz (b .& 0x80) || nz (b .& 0x40) = negb (b <? 64).
Proof.
  intros H. apply eqb_prop. revert b H. apply byte_forall. vm_compute. reflexivity.
Qed.
Lemma low_bits b : is_byte b -> nz (b .& 0x01) || nz (b .& 0x02) = negb (b mod 4 =? 0).
Proof.
  intros H. apply eqb_prop. revert b H. apply byte_forall. vm_compute. reflexivity.
Qed.

Lemma frame_is_valid_spec m p msg :
  region m p msg -> bytes msg -> Zlen msg < 2 ^ 32 ->
  ov_stun_frame_is_valid m p (Zlen msg) = Some (frame_valid msg).
Proof.
  intros Hm Hb Hl. pose proof Hm as [Hp _]. pose proof (Zlen_nonneg msg).
  unfold ov_stun_frame_is_valid, frame_valid, NULL.
  replace (p =? 0) with false by lia. cbn [orb].
  destruct (Z.ltb_spec (Zlen msg) 20).
  { by replace (20 <=? Zlen msg) with false by lia. }
  replace (20 <=? Zlen msg) with true by lia. cbn [andb].
  destruct (Z.eqb_spec (Zlen msg mod 4) 0); cbn [negb andb]; [|done].
  rewrite (load8_region_0 m p msg) by (done || lia). cbn [mbind option_bind].
  rewrite top_bits by auto with ov. destruct (Z.ltb_spec msg.[0] 64); cbn [negb andb]; [|done].
  rewrite !(load8_region m p msg) by (done || lia). cbn [mbind option_bind].
  rewrite low_bits by auto with ov.
  rewrite (frame_get_length_region m p msg) by (done || lia). cbn [mbind option_bind].
  pose proof (be_val_range2 msg.[2] msg.[3]) as Hr.
  pose proof (bytes_znth msg 2 Hb) as B2. pose proof (bytes_znth msg 3 Hb) as B3. specialize (Hr B2 B3).
  rewrite u64_id by lia.
  destruct (Z.eqb_spec (msg.[3] mod 4) 0) as [E3|E3]; cbn [negb].
  - repeat (match goal with |- context [if negb ?b then _ else _] => destruct b eqn:? end;
            cbn [negb andb]; try done); f_equal; lia.
  - symmetry. apply f_equal. apply andb_false_iff. right. unfold be_val in *. cbn [fold_left] in *. dlia.
Qed.

Lemma has_magic_cookie_spec m p msg length :
  region m p msg -> 8 <= Zlen msg -> 20 <= length ->
  ov_stun_frame_has_magic_cookie m p length =
    Some ((msg.[4] =? 0x21) && (msg.[5] =? 0x12) && (msg.[6] =? 0xA4) && (msg.[7] =? 0x42)).
Proof.
  intros Hm Hl H20. pose proof Hm as [Hp _]. unfold ov_stun_frame_has_magic_cookie, NULL. decide_guard.
  rewrite !(load8_region m p msg) by (done || lia). cbn [mbind option_bind].
  repeat (match goal with |- context [if negb ?b then _ else _] => destruct b eqn:? end;
          cbn [negb andb]; try done).
Qed.

Lemma set_magic_cookie_spec m head length :
  mapped m head 20 -> 20 <= length ->
  ov_stun_frame_set_magic_cookie m head length = Some (true, write m (head + 4) magic_cookie).
Proof.
  intros Hm Hl. pose proof Hm as [Hp _]. unfold ov_stun_frame_set_magic_cookie, NULL. decide_guard.
  repeat (rewrite (store8_mapped _ head 20) by first [by repeat apply mapped_write|lia];
          cbn [mbind option_bind]; rewrite ?(write_app m (head + 4)) by zlia).
  done.
Qed.
Lemma set_transaction_id_spec m head length id idb :
  mapped m head 20 -> 20 <= length -> region m id idb -> bytes idb -> Zlen idb = 12 ->
  ov_stun_frame_set_transaction_id m head length id = Some (true, write m (head + 8) idb).
Proof.
  intros Hm Hl Hid Hb H12. pose proof Hm as [Hp _]. pose proof Hid as [Hpi _].
  unfold ov_stun_frame_set_transaction_id, NULL. decide_guard.
  by rewrite (memcpy_region m _ _ idb 12 head 20) by (done || lia).
Qed.
Lemma frame_set_length_spec m head length n :
  mapped m head 20 -> 20 <= length -> is_u16 n ->
  ov_stun_frame_set_length m head length n = Some (true, write m (head + 2) (be16 n)).
Proof.
  intros Hm Hl Hn. pose proof Hm as [Hp _]. unfold ov_stun_frame_set_length, NULL. decide_guard.
  by rewrite (store16_htons m head 20) by (done || lia).
Qed.

Lemma Zlen_header h0 h1 n id : Zlen (header_bytes h0 h1 n id) = 8 + Zlen id.
Proof. unfold header_bytes, magic_cookie. zlia. Qed.
Lemma bytes_header h0 h1 n id :
  is_byte h0 -> is_byte h1 -> bytes id -> bytes (header_bytes h0 h1 n id).
Proof.
  intros. unfold header_bytes, magic_cookie. rewrite !bytes_app, !bytes_cons. unfold is_byte in *.
  repeat split; (auto with ov || lia).
Qed.

Lemma frame_valid_header h0 h1 n id body :
  is_byte h0 -> h0 < 64 -> Zlen id = 12 -> n = Zlen body -> is_u16 n -> n mod 4 = 0 ->
  frame_valid (header_bytes h0 h1 n id ++ body) = true.
Proof.
  intros H0 Hlt Hid Hn Hu Hmod. unfold frame_valid. rewrite Zlen_app, Zlen_header.
  rewrite !znth_app_l by (rewrite Zlen_header; lia).
  change (be_val [_; _]) with (be_val (be16 n)). rewrite be_val_be16 by done.
  change (header_bytes h0 h1 n id).[0] with h0. cbn -[Z.add Z.modulo Zlen].
  repeat (apply andb_true_iff; split); try done; dlia.
Qed.

(** ** Properties *)

(** Method and class share the message type field without disturbing each
    other: setting any 12 bit method makes [ov_stun_frame_get_method] return it
    and leaves the class; setting any of the four classes in a header with zero
    top bits makes exactly that class predicate hold and leaves the method.
    Only the first two octets of the message change. *)
Theorem stun_method_class_independent m head length h0 h1 l :
  region m head (h0 :: h1 :: l) -> is_byte h0 -> is_byte h1 -> h0 < 64 -> 20 <= length ->
  (forall type, 0 <= type <= 0xfff -> exists m',
     ov_stun_frame_set_method m head length type = Some (true, m') /\
     ov_stun_frame_get_method m' head length = Some type /\
     stun_class m' head length = stun_class m head length /\ same_outside m m' head 2) /\
  Forall (fun '(set, class) => exists m',
     set m head length = Some (true, m') /\
     ov_stun_frame_get_method m' head length = ov_stun_frame_get_method m head length /\
     stun_class m' head length = Some class /\ same_outside m m' head 2)
    [(ov_stun_frame_set_request, (true, false, false, false));
     (ov_stun_frame_set_indication, (false, true, false, false));
     (ov_stun_frame_set_success_response, (false, false, true, false));
     (ov_stun_frame_set_error_response, (false, false, false, true))].
Proof.
  intros Hm H0 H1 Hlt Hl. split.
  - intros type Ht.
    destruct (set_method_spec m head length h0 h1 l type Hm Hl ltac:(lia)) as (m' & E & Hr & Ho).
    exists m'. split; [done|].
    pose proof (octets_ok_spec h0 h1 type H0 H1 Ht) as Hok. unfold octets_ok in Hok.
    destruct (set_method_octets _ _ _) as [a b]. cbn [fst snd] in Hr. bool_to_prop.
    rewrite (get_method_spec m' head length a b l) by (done || lia).
    rewrite (stun_class_spec m' head length a b l), (stun_class_spec m head length h0 h1 l)
      by (done || lia).
    unfold class_of. repeat split; [by f_equal|congruence|done].
  - destruct class_setters_ok as (K1 & K2 & K3 & K4).
    assert (Hset : forall f g c set, class_setter_ok f g c = true ->
      sets_head m head h0 h1 l (u8 (f h0)) (u8 (g h1)) (set m head length) -> exists m',
      set m head length = Some (true, m') /\
      ov_stun_frame_get_method m' head length = ov_stun_frame_get_method m head length /\
      stun_class m' head length = Some (class_flags c) /\ same_outside m m' head 2).
    { intros f g c set K (m' & E & Hr & Ho). exists m'. split; [exact E|].
      destruct (class_setter_spec f g c h0 h1 K H0 H1 Hlt) as [Em Ec]. clear K K1 K2 K3 K4.
      rewrite (get_method_spec m' _ _ _ _ _ Hr), (get_method_spec m _ _ _ _ _ Hm),
        (stun_class_spec m' _ _ _ _ _ Hr) by lia. rewrite Em, Ec.
      split; [reflexivity|]. split; [reflexivity|exact Ho]. }
    repeat constructor.
    + apply (Hset _ _ _ _ K3). exact (set_request_spec m head length h0 h1 l Hm Hl).
    + apply (Hset _ _ _ _ K4). exact (set_indication_spec m head length h0 h1 l Hm Hl).
    + apply (Hset _ _ _ _ K1). exact (set_success_spec m head length h0 h1 l Hm Hl).
    + apply (Hset _ _ _ _ K2). exact (set_error_spec m head length h0 h1 l Hm Hl).
Qed.

Lemma stun_method_class_independent_witness :
  exists m', ov_stun_frame_set_method (write ∅ 16 (0x01 :: 0x11 :: zeros 18)) 16 20 0x123 = Some (true, m') /\
     ov_stun_frame_get_method m' 16 20 = Some 0x123 /\
     stun_class m' 16 20 = stun_class (write ∅ 16 (0x01 :: 0x11 :: zeros 18)) 16 20 /\
     same_outside (write ∅ 16 (0x01 :: 0x11 :: zeros 18)) m' 16 2.
Proof.
  apply (fun a b c d e => proj1 (stun_method_class_independent
    (write ∅ 16 (0x01 :: 0x11 :: zeros 18)) 16 20 0x01 0x11 (zeros 18) a b c d e)).
  - apply region_write. lia.
  - unfold is_byte. lia.
  - unfold is_byte. lia.
  - lia.
  - lia.
  - lia.
Defined.


(** The header setters build a well formed message: on a buffer that holds
    a header with zero top bits and a body of whole words, setting the length,
    the cookie and a transaction id makes [ov_stun_frame_is_valid] accept the
    message; the readers return the same length, cookie and id, and the body
    and everything else in memory is unchanged. *)
Theorem stun_header_build_valid m head h0 h1 old body id idb :
  region m head (h0 :: h1 :: old ++ body) -> Zlen old = 18 -> bytes (h0 :: h1 :: old ++ body) ->
  h0 < 64 -> Zlen body mod 4 = 0 -> Zlen body < 65536 ->
  region m id idb -> Zlen idb = 12 -> bytes idb -> id + 12 <= head \/ head + 20 <= id ->
  exists m1 m2 m3, let n := 20 + Zlen body in
    ov_stun_frame_set_length m head n (Zlen body) = Some (true, m1) /\
    ov_stun_frame_set_magic_cookie m1 head n = Some (true, m2) /\
    ov_stun_frame_set_transaction_id m2 head n id = Some (true, m3) /\
    ov_stun_frame_is_valid m3 head n = Some true /\
    ov_stun_frame_has_magic_cookie m3 head n = Some true /\
    ov_stun_frame_get_length m3 head n = Some (Zlen body) /\
    region m3 (ov_stun_frame_get_transaction_id head n) idb /\
    region m3 head (header_bytes h0 h1 (Zlen body) idb ++ body) /\
    same_outside m m3 head 20.
Proof.
  intros Hm Ho Hb Hlt Hmod Hbl Hid Hi12 Hib Hd. pose proof Hm as [Hp _].
  assert (Hmp : mapped m head 20) by (eapply region_mapped_le; [done|zlia]).
  pose proof (Zlen_nonneg body). assert (Hu : is_u16 (Zlen body)) by (unfold is_u16; lia).
  eexists _, _, _. cbv zeta.
  split; [by apply frame_set_length_spec; [done|lia|]|].
  split; [apply set_magic_cookie_spec; [by apply mapped_write|lia]|].
  split; [apply (set_transaction_id_spec _ _ _ _ idb);
    [by repeat apply mapped_write|lia|repeat apply region_write_out; (done || zlia)|done|done]|].
  rewrite (write_app m (head + 2)), (write_app m (head + 2)) by zlia.
  set (m' := write m _ _).
  assert (Hr : region m' head (header_bytes h0 h1 (Zlen body) idb ++ body)).
  { unfold header_bytes. rewrite <- app_assoc. unfold m'. apply region_app. split.
    - apply region_write_out; [|right; zlia].
      by apply (region_app_l _ _ [h0; h1] (old ++ body)).
    - intros _. change (Zlen [h0; h1]) with 2. apply region_app.
      rewrite (app_assoc (be16 (Zlen body)) magic_cookie idb). split; [apply region_write; lia|].
      intros _. apply region_write_out; [|left; zlia].
      change (h0 :: h1 :: old ++ body) with (([h0; h1] ++ old) ++ body) in Hm.
      eapply region_app_r; [exact Hm|]. zlia. }
  rewrite !bytes_cons, bytes_app in Hb. destruct Hb as (B0 & B1 & _ & Bb).
  assert (Hbm : bytes (header_bytes h0 h1 (Zlen body) idb ++ body))
    by (apply bytes_app; split; [by apply bytes_header|done]).
  assert (Hlen : Zlen (header_bytes h0 h1 (Zlen body) idb ++ body) = 20 + Zlen body)
    by (rewrite Zlen_app, Zlen_header; lia).
  split. { rewrite <- Hlen, (frame_is_valid_spec m' head _ Hr Hbm) by lia. f_equal.
           by apply frame_valid_header. }
  split. { rewrite (has_magic_cookie_spec m' head _ _ Hr) by lia. by rewrite !znth_app_l by (rewrite Zlen_header; lia). }
  split. { rewrite (frame_get_length_region m' head _ _ Hr) by (done || lia). f_equal.
           rewrite !znth_app_l by (rewrite Zlen_header; lia).
           by apply (be_val_be16 (Zlen body)). }
  split. { unfold ov_stun_frame_get_transaction_id, NULL. decide_guard.
           unfold header_bytes in Hr. rewrite !(app_assoc _ _ idb), <- app_assoc in Hr.
           eapply region_app_r in Hr; [by eapply region_app_l|]. unfold magic_cookie. zlia. }
  split; [exact Hr|]. apply same_outside_write; unfold magic_cookie; zlia.
Qed.

Lemma stun_header_build_valid_witness :
  exists m1 m2 m3,
    ov_stun_frame_set_length (write (write ∅ 16 (0 :: 1 :: zeros 18 ++ [9; 9; 9; 9])) 64 (zeros 12)) 16 24 4
      = Some (true, m1) /\
    ov_stun_frame_set_magic_cookie m1 16 24 = Some (true, m2) /\
    ov_stun_frame_set_transaction_id m2 16 24 64 = Some (true, m3) /\
    ov_stun_frame_is_valid m3 16 24 = Some true.
Proof.
  destruct (stun_header_build_valid (write (write ∅ 16 (0 :: 1 :: zeros 18 ++ [9; 9; 9; 9])) 64 (zeros 12))
    16 0 1 (zeros 18) [9; 9; 9; 9] 64 (zeros 12)) as (m1 & m2 & m3 & H).
  - apply region_write_out; [apply region_write; lia|]. right. vm_compute. discriminate.
  - reflexivity.
  - apply (bool_decide_unpack _). vm_compute. exact I.
  - lia.
  - reflexivity.
  - vm_compute. reflexivity.
  - apply region_write. lia.
  - reflexivity.
  - apply bytes_zeros.
  - right. lia.
  - exists m1, m2, m3. destruct H as (H1 & H2 & H3 & H4 & _).
    split; [exact H1|]. split; [exact H2|]. split; [exact H3|exact H4].
Defined.

(** C10: [ov_stun_frame_slice] terminates without reading outside the message,
    accepts exactly the messages whose body is a sequence of whole attributes
    that leaves room in the array for the end marker, and then stores the
    address of every attribute, in order. *)
Theorem stun_slice_exact m buffer msg array :
  region m buffer msg -> bytes msg -> 20 <= Zlen msg -> 1 <= Zlen array ->
  exists b array',
    ov_stun_frame_slice m buffer (Zlen msg) (Some array) (Zlen array) = Some (b, Some array') /\
    length array' = length array /\
    (b = true <-> exists l, sliceable msg (Zlen array) l) /\
    (forall l, sliceable msg (Zlen array) l ->
       array' = tlv_ptrs (buffer + 20) l ++ drop (length l) (memset_ptrs array (Zlen array))).
Proof. apply frame_slice_spec. Qed.

(** A message with one attribute of three octets. *)
Definition msg1 : list Z :=
  [0; 1; 0; 8] ++ magic_cookie ++ zeros 12 ++ [0; 6; 0; 3; 97; 98; 99; 0].
Lemma stun_slice_exact_witness :
  exists b array',
    ov_stun_frame_slice (write ∅ 16 msg1) 16 28 (Some [0; 0; 0]) 3 = Some (b, Some array') /\
    length array' = 3%nat /\ (b = true <-> exists l, sliceable msg1 3 l).
Proof.
  destruct (stun_slice_exact (write ∅ 16 msg1) 16 msg1 [0; 0; 0]) as (b & a & H1 & H2 & H3 & _).
  - apply region_write. lia.
  - apply (bool_decide_unpack _). vm_compute. exact I.
  - vm_compute. discriminate.
  - vm_compute. discriminate.
  - exists b, a. split; [exact H1|]. split; [exact H2|exact H3].
Defined.
(** What the slicer does on it. *)
Example slice_msg1 :
  ov_stun_frame_slice (write ∅ 16 msg1) 16 28 (Some [0; 0; 0]) 3 = Some (true, Some [36; 0; 0]) /\
  ov_stun_frame_slice (write ∅ 16 msg1) 16 28 (Some [0]) 1 = Some (false, Some [0]).
Proof. vm_compute. done. Qed.

(** The reset of the array counts bytes, so the pointers after the first
    eighth of the array survive a slicing that does not overwrite them. *)
Lemma slice_keeps_stale_pointer :
  ov_stun_frame_slice (write ∅ 16 msg1) 16 28 (Some [8; 8; 8]) 3 = Some (true, Some [36; 8; 8]).
Proof. vm_compute. reflexivity. Qed.

(** The first attribute of a type in a body at [p]. *)
Fixpoint find_tlv (p : ptr) (l : list tlv) (t : Z) : option (ptr * tlv) :=
  match l with
  | [] => None
  | a :: l => if tlv_type a =? t then Some (p, a) else find_tlv (p + Zlen (tlv_bytes a)) l t
  end.

Lemma find_tlv_loop m p l t rest :
  Forall tlv_wf l -> region m p (tlvs_bytes l) -> is_u16 t ->
  rest = [] \/ (exists rest', rest = NULL :: rest') ->
  ov_stun_attributes_get_type_loop m (tlv_ptrs p l ++ rest) t =
    Some (match find_tlv p l t with Some (q, _) => q | None => NULL end) /\
  (forall q a, find_tlv p l t = Some (q, a) -> attr_at m q t (tlv_content a)).
Proof.
  intros Hwf Hm Ht Hr. revert p Hm. induction Hwf as [|a l Hwa _ IH]; intros p Hm; simpl.
  - split; [|done]. by destruct Hr as [->|[rest' ->]].
  - rewrite tlvs_bytes_cons in Hm. pose proof (tlv_at m p a (region_app_l _ _ _ _ Hm)) as Ha.
    destruct Hm as [Hp Hm']. assert (Hm : region m p (tlv_bytes a ++ tlvs_bytes l)) by done.
    unfold NULL at 1. decide_guard. rewrite (get_type_attr m p _ _ 4 Ha) by (apply Hwa || lia).
    cbn [mbind option_bind]. rewrite (Z.eqb_sym t).
    destruct (Z.eqb_spec (tlv_type a) t) as [<-|].
    + split; [done|]. by intros ? ? [= <- <-].
    + apply IH. by eapply region_app_r.
Qed.

(** Lookup after slicing: in a message that slices into the attributes [l],
    with an array whose entries are [NULL] at the start,
    [ov_stun_attributes_get_type] returns the address of the first attribute of
    the type, where that attribute stands with its content, and [NULL] when the
    message has none. *)
Theorem stun_slice_then_lookup m buffer msg size l t :
  region m buffer msg -> bytes msg -> 20 <= Zlen msg -> sliceable msg (Z.of_nat size) l ->
  is_u16 t ->
  exists array',
    ov_stun_frame_slice m buffer (Zlen msg) (Some (replicate size NULL)) (Z.of_nat size) =
      Some (true, Some array') /\
    ov_stun_attributes_get_type m array' (Z.of_nat size) t =
      Some (match find_tlv (buffer + 20) l t with Some (q, _) => q | None => NULL end) /\
    (forall q a, find_tlv (buffer + 20) l t = Some (q, a) -> attr_at m q t (tlv_content a)).
Proof.
  intros Hm Hb H20 Hs Ht. pose proof Hs as (Hwf & Hbl & _ & Hl). pose proof (Zlen_nonneg l).
  assert (Hz : Zlen (replicate size NULL) = Z.of_nat size) by (unfold Zlen; by rewrite length_replicate).
  destruct (frame_slice_spec m buffer msg (replicate size NULL)) as (b & array' & E & Hlen & Hiff & Ha);
    [done|done|done|lia|].
  rewrite Hz in *. specialize (Ha l Hs). rewrite memset_ptrs_null in Ha.
  exists array'. split; [rewrite E; by rewrite (proj2 Hiff (ex_intro _ l Hs))|].
  unfold ov_stun_attributes_get_type. decide_guard.
  assert (ztake (Z.of_nat size) array' = array') as ->.
  { unfold ztake. rewrite Nat2Z.id. apply take_ge. rewrite Hlen, length_replicate. lia. }
  rewrite Ha, drop_replicate. apply find_tlv_loop; [done| |done|].
  - rewrite <- Hbl. apply region_zdrop; [done|lia].
  - right. unfold Zlen in Hl. destruct (size - length l)%nat eqn:Es; [lia|]. by eexists.
Qed.
Lemma stun_slice_then_lookup_witness :
  exists array',
    ov_stun_frame_slice (write ∅ 16 msg1) 16 28 (Some (replicate 3 NULL)) 3 = Some (true, Some array') /\
    ov_stun_attributes_get_type (write ∅ 16 msg1) array' 3 6 = Some 36.
Proof.
  destruct (stun_slice_then_lookup (write ∅ 16 msg1) 16 msg1 3 [Tlv 6 [97; 98; 99] [0]] 6)
    as (a & H1 & H2 & _).
  - apply region_write. lia.
  - apply (bool_decide_unpack _). vm_compute. exact I.
  - vm_compute. discriminate.
  - split; [|vm_compute; auto]. repeat constructor; vm_compute; auto; discriminate.
  - vm_compute. split; [discriminate|reflexivity].
  - exists a. split; [exact H1|exact H2].
Defined.
