(* ===== verification/StunErrorCode.v ===== *)
(** * The ERROR-CODE attribute and error responses
    (src/lib/ov_stun/src/ov_stun_error_code.c)

    The attribute, the setters for the error codes the servers send, and the
    generation of an error response to a request. *)
From S2P Require Import Prelude CMem Utf8 StunAttribute StunFrame.

(** ** The code *)

Definition STUN_ERROR_CODE : Z := 0x0009.

Definition ov_stun_attribute_frame_is_error_code (m : mem) (buffer : ptr) (length : Z)
    : option bool :=
  if (buffer =? NULL) || (length <? 8) then Some false else
  type ← ov_stun_attribute_get_type m buffer length;
  size ← ov_stun_attribute_get_length m buffer length;
  if negb (type =? STUN_ERROR_CODE) then Some false else
  if (763 <? size) || (size <? 1) then Some false else
  if length <? size + 8 then Some false else Some true.

Definition ov_stun_error_code_encoding_length (phrase : ptr) (length : Z) : Z :=
  if (phrase =? NULL) || (length <? 1) || (763 <? length) then 0 else
  length + 8 + padding length.

Definition ov_stun_error_code_decode_code (m : mem) (buffer : ptr) (length : Z) : option Z :=
  if (buffer =? NULL) || (length <? 8) then Some 0 else
  b6 ← load8 m (buffer + 6);
  b7 ← load8 m (buffer + 7);
  Some (u16 (u16 ((b6 .& 0x0f) * 100) + b7)).

(** Result: truth value, [*phrase] and [*size] when set. *)
Definition ov_stun_error_code_decode_phrase (m : mem) (buffer : ptr) (length : Z)
    (phrase size : ptr) : option (bool * option (ptr * Z)) :=
  if (buffer =? NULL) || (length <? 9) || (phrase =? NULL) || (size =? NULL)
  then Some (false, None) else
  type ← ov_stun_attribute_get_type m buffer 4;
  if negb (type =? STUN_ERROR_CODE) then Some (false, None) else
  len ← ov_stun_attribute_get_length m buffer 4;
  Some (true, Some (buffer + 8, u64 (len - 4))).

Definition ov_stun_error_code_encode (m : mem) (buffer : ptr) (length : Z) (next : ptr)
    (code : Z) (phrase : ptr) (phrase_length : Z) : encoded :=
  if (buffer =? NULL) || (length <? 8) || (phrase =? NULL) || (phrase_length <? 1)
  then Some (false, None, m) else
  if (code <? 300) || (700 <=? code) then Some (false, None, m) else
  if 763 <? phrase_length then Some (false, None, m) else
  if length <? phrase_length + 8 then Some (false, None, m) else
  valid ← ov_utf8_validate_sequence m phrase phrase_length;
  if negb valid then Some (false, None, m) else
  bs ← loadn m phrase (Z.to_nat phrase_length);
  encode_local m buffer length next STUN_ERROR_CODE
    ([0; 0; u8 (0x0f .& (code / 100)); u8 (code mod 100)] ++ bs) (phrase_length + 4).

(** A setter passes a string literal, an array of its own, to the encoder. *)
Abbreviation attribute_setter := (mem -> ptr -> Z -> ptr -> encoded).
Definition encode_phrase (code : Z) (phrase : string) : attribute_setter :=
  fun m buffer length next =>
    with_local m (string_bytes phrase ++ [0]) (fun p m =>
      ov_stun_error_code_encode m buffer length next code p (Zlen (string_bytes phrase))).

Definition ov_stun_error_code_set_try_alternate : attribute_setter :=
  encode_phrase 300 "try alternate".
Definition ov_stun_error_code_set_bad_request : attribute_setter :=
  encode_phrase 400 "bad request".
Definition ov_stun_error_code_set_unauthorized : attribute_setter :=
  encode_phrase 401 "unauthorized".
Definition ov_stun_error_code_set_unknown_attribute : attribute_setter :=
  encode_phrase 420 "unknown attribute".
Definition ov_stun_error_code_set_stale_nonce : attribute_setter :=
  encode_phrase 438 "stale nonce".
Definition ov_stun_error_code_set_server_error : attribute_setter :=
  encode_phrase 500 "server error".
Definition ov_stun_error_code_set_allocation_mismatch : attribute_setter :=
  encode_phrase 437 "allocation mismatch".
Definition ov_stun_error_code_set_family_mismatch : attribute_setter :=
  encode_phrase 443 "family mismatch".
Definition ov_stun_error_code_set_unsupported_transport : attribute_setter :=
  encode_phrase 442 "unsupported transport".
Definition ov_stun_error_code_set_address_family_not_supported : attribute_setter :=
  encode_phrase 440 "unsupported address family".
Definition ov_stun_error_code_set_forbidden : attribute_setter :=
  encode_phrase 403 "forbidden".

(** [function] is a function pointer; [None] stands for [NULL]. The result is
    the length of the response, 0 on error. *)
Definition ov_stun_error_code_generate_response (m : mem) (frame : ptr) (frame_size : Z)
    (response : ptr) (response_size : Z) (function : option attribute_setter) : option (Z * mem) :=
  match function with
  | None => Some (0, m)
  | Some function =>
    if (frame =? NULL) || (response =? NULL) || (frame_size <? 20) || (response_size <? 20)
    then Some (0, m) else
    m ← memset m response 0 response_size;
    '(ok, m) ← ov_stun_frame_set_error_response m response response_size;
    if negb ok then Some (0, m) else
    '(ok, m) ← ov_stun_frame_set_magic_cookie m response response_size;
    if negb ok then Some (0, m) else
    method ← ov_stun_frame_get_method m frame frame_size;
    '(ok, m) ← ov_stun_frame_set_method m response response_size method;
    if negb ok then Some (0, m) else
    '(ok, m) ← ov_stun_frame_set_transaction_id m response response_size
                 (ov_stun_frame_get_transaction_id frame frame_size);
    if negb ok then Some (0, m) else
    '(ok, next, m) ← function m (response + 20) (response_size - 20) LOCAL;
    if negb ok then Some (0, m) else
    let next := default NULL next in
    '(ok, m) ← ov_stun_attribute_set_length m response response_size (u16 ((next - response) - 20));
    if negb ok then Some (0, m) else
    Some (u64 (next - response), m)
  end.

(** ** Specification *)

Definition error_content (code : Z) (ph : list Z) : list Z := [0; 0; code / 100; code mod 100] ++ ph.
(** What the encoder accepts. *)
Definition error_ok (code : Z) (ph : list Z) (length : Z) : Prop :=
  300 <= code < 700 /\ 1 <= Zlen ph <= 763 /\ utf8_octets ph /\ attr_size (4 + Zlen ph) <= length.

(** ** Lemmas *)

Lemma Zlen_error_content code ph : Zlen (error_content code ph) = 4 + Zlen ph.
Proof. unfold error_content. zlia. Qed.
#[export] Hint Rewrite Zlen_error_content : zlen.
Lemma error_class_byte code : 300 <= code < 700 -> u8 (0x0f .& (code / 100)) = code / 100.
Proof.
  intros H. rewrite Z.land_comm. change 0x0f with (Z.ones 4). rewrite Z.land_ones by lia.
  unfold u8. change (2 ^ 4) with 16. norm_pow2. dlia.
Qed.
Lemma error_number_byte code : 300 <= code < 700 -> u8 (code mod 100) = code mod 100.
Proof. intros H. apply u8_id. unfold is_byte. dlia. Qed.
Lemma bytes_error_content code ph : 300 <= code < 700 -> bytes ph -> bytes (error_content code ph).
Proof.
  intros H Hb. unfold error_content. rewrite bytes_app, !bytes_cons. unfold is_byte.
  repeat split; (done || dlia || apply bytes_nil).
Qed.

Lemma error_code_encode_spec m buffer length next code phrase ph :
  region m phrase ph -> bytes ph -> error_ok code ph length ->
  mapped m buffer (attr_size (4 + Zlen ph)) ->
  ov_stun_error_code_encode m buffer length next code phrase (Zlen ph) =
    Some (true, set_next next (buffer + attr_size (4 + Zlen ph)),
          write m buffer (attr_bytes STUN_ERROR_CODE (error_content code ph))).
Proof.
  intros Hph Hb (Hc & Hn & Hu & Hl) Hm. pose proof Hm as [Hp _]. pose proof Hph as [Hpp _].
  pose proof (attr_size_bounds (4 + Zlen ph)). unfold ov_stun_error_code_encode, NULL. guards.
  rewrite validate_true by (done || (intros ->; zlia)). cbn [mbind option_bind negb].
  rewrite (loadn_region_n m phrase ph) by done. cbn [mbind option_bind].
  rewrite error_class_byte, error_number_byte by done. fold (error_content code ph).
  replace (Zlen ph + 4) with (4 + Zlen ph) by lia.
  apply encode_local_exact; unfold is_u16, STUN_ERROR_CODE; try (done || zlia).
  by apply bytes_error_content.
Qed.

(** Everything else is refused without a write. *)
Lemma error_code_encode_refuses m buffer length next code phrase ph :
  region m phrase ph -> bytes ph -> ~ error_ok code ph length ->
  ov_stun_error_code_encode m buffer length next code phrase (Zlen ph) = Some (false, None, m).
Proof.
  intros Hph Hb Hno. unfold ov_stun_error_code_encode. do 4 (case_if; [done|]).
  destruct (validate_sequence_spec m phrase ph Hph Hb) as (b & -> & Hu). cbn [mbind option_bind].
  destruct b; [|done]. cbn [negb]. destruct (proj1 Hu eq_refl) as [_ Hu']. clear Hu.
  rewrite (loadn_region_n m phrase ph) by done. cbn [mbind option_bind].
  replace (Zlen ph + 4) with (4 + Zlen ph) by lia. pose proof (attr_size_bounds (4 + Zlen ph)).
  apply encode_local_short; [lia|lia|]. unfold error_ok in Hno.
  destruct (Z.ltb_spec length (attr_size (4 + Zlen ph))); [done|]. exfalso. apply Hno.
  repeat split; (done || lia).
Qed.

(** The readers of an error code attribute. *)
Section Readers.
Context (m : mem) (p code : Z) (ph : list Z).
Context (Ha : attr_at m p STUN_ERROR_CODE (error_content code ph)).
Context (Hc : 300 <= code < 700) (Hb : bytes ph) (Hn : 1 <= Zlen ph <= 763).

Let Hu : is_u16 (Zlen (error_content code ph)).
Proof. unfold is_u16. rewrite Zlen_error_content. lia. Qed.

Lemma error_decode_code_attr length :
  8 <= length -> ov_stun_error_code_decode_code m p length = Some code.
Proof using All.
  intros Hl. pose proof Ha as [Hp _]. unfold ov_stun_error_code_decode_code, NULL. decide_guard.
  pose proof (attr_at_content _ _ _ _ Ha) as Hcr.
  rewrite (load8_region_at m (p + 4) _ (p + 6) Hcr) by zlia. cbn [mbind option_bind].
  rewrite (load8_region_at m (p + 4) _ (p + 7) Hcr) by zlia. cbn [mbind option_bind].
  replace (p + 6 - (p + 4)) with 2 by lia. replace (p + 7 - (p + 4)) with 3 by lia.
  change (error_content code ph).[2] with (code / 100).
  change (error_content code ph).[3] with (code mod 100).
  change 0x0f with (Z.ones 4). rewrite Z.land_ones by lia. change (2 ^ 4) with 16.
  rewrite (u16_id (_ * _)) by dlia. rewrite u16_id by dlia. f_equal. dlia.
Qed.

Lemma error_decode_phrase_attr length a b :
  9 <= length -> a <> NULL -> b <> NULL ->
  ov_stun_error_code_decode_phrase m p length a b = Some (true, Some (p + 8, Zlen ph)).
Proof using All.
  intros Hl Ha0 Hb0. pose proof Ha as [Hp _]. unfold ov_stun_error_code_decode_phrase, NULL in *.
  decide_guard. rewrite (get_type_attr m p _ _ 4 Ha) by (unfold is_u16, STUN_ERROR_CODE; lia).
  cbn [mbind option_bind Z.eqb negb]. rewrite Z.eqb_refl. cbn [negb].
  rewrite (get_length_attr m p _ _ 4 Ha Hu) by lia. cbn [mbind option_bind].
  rewrite Zlen_error_content, u64_id by lia. do 4 f_equal. lia.
Qed.

Lemma error_phrase_at : region m (p + 8) ph.
Proof using All.
  pose proof (attr_at_content _ _ _ _ Ha) as Hcr. unfold error_content in Hcr.
  eapply region_app_r; [exact Hcr|]. zlia.
Qed.

Lemma is_error_code_attr length :
  8 <= length -> ov_stun_attribute_frame_is_error_code m p length =
  Some ((Zlen ph <=? 759) && (Zlen ph + 12 <=? length)).
Proof using All.
  intros Hl. pose proof Ha as [Hp _]. unfold ov_stun_attribute_frame_is_error_code, NULL.
  decide_guard. rewrite (get_type_attr m p _ _ length Ha) by (unfold is_u16, STUN_ERROR_CODE; lia).
  rewrite (get_length_attr m p _ _ length Ha Hu) by lia. cbn [mbind option_bind].
  rewrite Z.eqb_refl, Zlen_error_content. cbn [negb]. repeat case_if; f_equal; lia.
Qed.
End Readers.

(** ** The setters *)

(** What a setter promises to [ov_stun_error_code_generate_response]: where the
    attribute fits, it writes exactly that attribute. *)
Class AttributeSetter (f : attribute_setter) (t : Z) (c : list Z) := {
  setter_type : is_u16 t;
  setter_length : Zlen c <= 65528;
  setter_writes m buffer length next :
    mapped m buffer (attr_size (Zlen c)) -> attr_size (Zlen c) <= length ->
    f m buffer length next =
      Some (true, set_next next (buffer + attr_size (Zlen c)), write m buffer (attr_bytes t c))
}.

Definition phrase_ok (code : Z) (phrase : string) : bool :=
  (300 <=? code) && (code <? 700) && (1 <=? Zlen (string_bytes phrase)) &&
  (Zlen (string_bytes phrase) <=? 763) && forallb (fun b => b <=? 0x7F) (string_bytes phrase).

Lemma encode_phrase_setter code phrase :
  phrase_ok code phrase = true ->
  AttributeSetter (encode_phrase code phrase) STUN_ERROR_CODE
    (error_content code (string_bytes phrase)).
Proof.
  unfold phrase_ok. intros Hok. apply andb_true_iff in Hok as [Hok Hascii]. bool_to_prop.
  assert (Hu : utf8_octets (string_bytes phrase)).
  { apply ascii_utf8, Forall_forall. intros b Hb. rewrite forallb_forall in Hascii.
    specialize (Hascii b). rewrite <- list_elem_of_In in Hascii. specialize (Hascii Hb).
    pose proof (proj1 (Forall_forall _ _) (bytes_string phrase) b Hb) as Hby.
    unfold is_byte in Hby. lia. }
  split; [unfold is_u16, STUN_ERROR_CODE; lia|zlia|].
  intros m buffer length next Hm Hl. unfold encode_phrase. rewrite Zlen_error_content in *.
  apply with_local_write; [by rewrite Zlen_attr_bytes, Zlen_error_content|].
  intros a Ha Hr _. apply region_app_l in Hr.
  apply error_code_encode_spec; [done|auto with ov|split; [lia|split; [lia|done]]|].
  by apply mapped_write.
Qed.

#[export] Instance set_try_alternate_spec :
  AttributeSetter ov_stun_error_code_set_try_alternate STUN_ERROR_CODE
    (error_content 300 (string_bytes "try alternate")).
Proof. by apply encode_phrase_setter. Qed.
#[export] Instance set_bad_request_spec :
  AttributeSetter ov_stun_error_code_set_bad_request STUN_ERROR_CODE
    (error_content 400 (string_bytes "bad request")).
Proof. by apply encode_phrase_setter. Qed.
#[export] Instance set_unauthorized_spec :
  AttributeSetter ov_stun_error_code_set_unauthorized STUN_ERROR_CODE
    (error_content 401 (string_bytes "unauthorized")).
Proof. by apply encode_phrase_setter. Qed.
#[export] Instance set_unknown_attribute_spec :
  AttributeSetter ov_stun_error_code_set_unknown_attribute STUN_ERROR_CODE
    (error_content 420 (string_bytes "unknown attribute")).
Proof. by apply encode_phrase_setter. Qed.
#[export] Instance set_stale_nonce_spec :
  AttributeSetter ov_stun_error_code_set_stale_nonce STUN_ERROR_CODE
    (error_content 438 (string_bytes "stale nonce")).
Proof. by apply encode_phrase_setter. Qed.
#[export] Instance set_server_error_spec :
  AttributeSetter ov_stun_error_code_set_server_error STUN_ERROR_CODE
    (error_content 500 (string_bytes "server error")).
Proof. by apply encode_phrase_setter. Qed.
#[export] Instance set_allocation_mismatch_spec :
  AttributeSetter ov_stun_error_code_set_allocation_mismatch STUN_ERROR_CODE
    (error_content 437 (string_bytes "allocation mismatch")).
Proof. by apply encode_phrase_setter. Qed.
#[export] Instance set_family_mismatch_spec :
  AttributeSetter ov_stun_error_code_set_family_mismatch STUN_ERROR_CODE
    (error_content 443 (string_bytes "family mismatch")).
Proof. by apply encode_phrase_setter. Qed.
#[export] Instance set_unsupported_transport_spec :
  AttributeSetter ov_stun_error_code_set_unsupported_transport STUN_ERROR_CODE
    (error_content 442 (string_bytes "unsupported transport")).
Proof. by apply encode_phrase_setter. Qed.
#[export] Instance set_address_family_not_supported_spec :
  AttributeSetter ov_stun_error_code_set_address_family_not_supported STUN_ERROR_CODE
    (error_content 440 (string_bytes "unsupported address family")).
Proof. by apply encode_phrase_setter. Qed.
#[export] Instance set_forbidden_spec :
  AttributeSetter ov_stun_error_code_set_forbidden STUN_ERROR_CODE
    (error_content 403 (string_bytes "forbidden")).
Proof. by apply encode_phrase_setter. Qed.
#[global] Opaque encode_phrase.

(** ** The response *)

(** The first two octets of an error response with the method of [h0], [h1]. *)
Definition error_head (h0 h1 : Z) : Z * Z := set_method_octets 1 0x10 (method_of h0 h1).
Definition error_response (h0 h1 : Z) (id : list Z) (t : Z) (c : list Z) : list Z :=
  header_bytes (error_head h0 h1).1 (error_head h0 h1).2 (attr_size (Zlen c)) id ++ attr_bytes t c.

Lemma method_of_range h0 h1 : is_byte h0 -> is_byte h1 -> h0 < 64 -> 0 <= method_of h0 h1 <= 0xfff.
Proof.
  intros H0 H1 Hlt. unfold method_of.
  assert (A : (h1 .& 0x0F <=? 15) && (h1 .>> 5 <=? 7) && (0 <=? h1 .& 0x0F) && (0 <=? h1 .>> 5) = true)
    by (revert h1 H1; apply byte_forall; vm_compute; reflexivity).
  assert (B : implb (h0 <? 64) ((h0 .>> 1 <=? 31) && (0 <=? h0 .>> 1)) = true)
    by (clear Hlt; revert h0 H0; apply byte_forall; vm_compute; reflexivity).
  replace (h0 <? 64) with true in B by lia. cbn [implb] in B. bool_to_prop.
  rewrite !Z.shiftl_mul_pow2 by lia. change (2 ^ 4) with 16. change (2 ^ 7) with 128.
  rewrite (u16_id (h1 .& 0x0F)) by lia. rewrite (u16_id (h1 .& 0x0F + _)) by lia.
  rewrite u16_id by lia. lia.
Qed.

(** The octets written for any method read back, and are octets. *)
Lemma error_head_ok h0 h1 :
  is_byte h0 -> is_byte h1 -> h0 < 64 ->
  let '(a, b) := error_head h0 h1 in
  is_byte a /\ is_byte b /\ a < 64 /\ method_of a b = method_of h0 h1 /\ class_of a b = (true, true).
Proof.
  intros H0 H1 Hlt. pose proof (method_of_range h0 h1 H0 H1 Hlt) as Hr.
  assert (Hok : octets_ok 1 0x10 (method_of h0 h1) = true).
  { apply (octets_ok_spec 1 0x10); [unfold is_byte; lia..|done]. }
  unfold error_head. unfold octets_ok in Hok. destruct (set_method_octets _ _ _) as [a b].
  bool_to_prop. unfold is_byte, class_of.
  replace (a .& 0x01) with 1 by lia. replace (b .& 0x10) with 0x10 by lia. repeat split; (done || lia).
Qed.

Lemma region_split20 m p n a b :
  region m p (a :: b :: zeros (n - 2)) -> 20 <= n ->
  region m p ([a; b] ++ zeros 2 ++ zeros 4 ++ zeros 12 ++ zeros (n - 20)).
Proof.
  intros H Hn. replace (zeros (n - 2)) with (zeros 2 ++ zeros 4 ++ zeros 12 ++ zeros (n - 20)) in H; [done|].
  unfold zeros. rewrite <- !replicate_add. f_equal. lia.
Qed.

Section Response.
Context (m : mem) (frame response rs : Z) (fl : list Z) (f : attribute_setter) (t : Z) (c : list Z).
Context {Hf : AttributeSetter f t c}.
Context (Hfr : region m frame fl) (Hb : bytes fl) (H20 : 20 <= Zlen fl) (H64 : fl.[0] < 64).
Context (Hrm : mapped m response rs) (Hrs : 20 + attr_size (Zlen c) <= rs).
Context (Hd : frame + Zlen fl <= response \/ response + rs <= frame).
Let ab := error_head fl.[0] fl.[1].
Let id := ztake 12 (zdrop 8 fl).

(** A header with the bits of the error class, then the cookie and the method. *)
Lemma response_type_cookie :
  exists m1 m2 m3, let m0 := write m response (zeros rs) in
  ov_stun_frame_set_error_response m0 response rs = Some (true, m1) /\
  ov_stun_frame_set_magic_cookie m1 response rs = Some (true, m2) /\
  ov_stun_frame_get_method m2 frame (Zlen fl) = Some (method_of fl.[0] fl.[1]) /\
  ov_stun_frame_set_method m2 response rs (method_of fl.[0] fl.[1]) = Some (true, m3) /\
  region m3 response ([ab.1; ab.2] ++ zeros 2 ++ magic_cookie ++ zeros 12 ++ zeros (rs - 20)) /\
  region m3 frame fl /\ same_outside m m3 response rs.
Proof using All.
  pose proof (attr_size_bounds (Zlen c)). pose proof (Zlen_nonneg c). pose proof Hrm as [Hp _].
  assert (R0 : region (write m response (zeros rs)) response (0 :: 0 :: zeros (rs - 2))).
  { replace (0 :: 0 :: zeros (rs - 2)) with (zeros rs); [by apply region_write|].
    unfold zeros. replace (Z.to_nat rs) with (2 + Z.to_nat (rs - 2))%nat by lia. done. }
  destruct (set_error_spec _ response rs 0 0 _ R0 ltac:(lia)) as (m1 & E1 & R1 & O1).
  assert (M1 : mapped m1 response 20) by (eapply region_mapped_le; [exact R1|zlia]).
  apply region_split20 in R1; [|lia].
  change (u8 (0 .| 0x01)) with 1 in R1. change (u8 (0 .| 0x10)) with 16 in R1.
  rewrite app_assoc in R1.
  apply (region_write_mid _ _ _ _ magic_cookie _ (response + 4)) in R1; [|done|done].
  rewrite <- app_assoc in R1. simpl ([1; 16] ++ _) in R1.
  assert (O2 : same_outside m (write m1 (response + 4) magic_cookie) response rs).
  { eapply same_outside_trans; [|by apply same_outside_write; zlia].
    eapply same_outside_trans; [by apply (same_outside_write m response rs response (zeros rs)); zlia|].
    eapply same_outside_le; [exact O1|lia]. }
  assert (F2 : region (write m1 (response + 4) magic_cookie) frame fl)
    by (eapply region_same_outside; [exact Hfr|exact O2|lia]).
  assert (Hsplit : fl = fl.[0] :: fl.[1] :: zdrop 2 fl) by (apply split_2; lia).
  pose proof (method_of_range fl.[0] fl.[1]) as Hr.
  specialize (Hr ltac:(auto with ov) ltac:(auto with ov) H64).
  destruct (set_method_spec _ response rs 1 16 _ (method_of fl.[0] fl.[1]) R1 ltac:(lia) ltac:(lia))
    as (m3 & E3 & R3 & O3).
  exists m1, (write m1 (response + 4) magic_cookie), m3. cbv zeta.
  split; [exact E1|]. split; [by apply set_magic_cookie_spec; [|lia]|].
  split; [eapply get_method_spec; [rewrite <- Hsplit; exact F2|lia]|]. split; [exact E3|].
  split; [exact R3|]. split.
  - eapply region_same_outside; [exact F2|exact O3|lia].
  - eapply same_outside_trans; [exact O2|]. eapply same_outside_le; [exact O3|lia].
Qed.

Lemma generate_response_spec :
  exists m',
  ov_stun_error_code_generate_response m frame (Zlen fl) response rs (Some f) =
  Some (20 + attr_size (Zlen c), m') /\
  region m' response (error_response fl.[0] fl.[1] id t c ++ zeros (rs - 20 - attr_size (Zlen c))) /\
  same_outside m m' response rs.
Proof using All.
  destruct response_type_cookie as (m1 & m2 & m3 & E1 & E2 & E3 & E4 & R3 & F3 & O3).
  pose proof (attr_size_bounds (Zlen c)). pose proof (Zlen_nonneg c). pose proof Hrm as [Hp _].
  pose proof Hfr as [Hfp _]. pose proof (setter_length (f := f) (t := t) (c := c)) as Hcl.
  assert (Hid : Zlen id = 12) by (unfold id; zlia).
  assert (Fid : region m3 (frame + 8) id)
    by (apply region_ztake, region_zdrop; [exact F3|lia]).
  assert (M3 : mapped m3 response 20) by (eapply region_mapped_le; [exact R3|zlia]).
  set (m4 := write m3 (response + 8) id).
  assert (R4 : region m4 response ([ab.1; ab.2] ++ zeros 2 ++ magic_cookie ++ id ++ zeros (rs - 20))).
  { pose proof (region_write_mid m3 response ([ab.1; ab.2] ++ zeros 2 ++ magic_cookie)
      (zeros 12) id (zeros (rs - 20)) (response + 8)) as W. rewrite <- !app_assoc in W.
    apply W; [exact R3|zlia|zlia]. }
  replace (zeros (rs - 20)) with (zeros (attr_size (Zlen c)) ++ zeros (rs - 20 - attr_size (Zlen c))) in R4
    by (unfold zeros; rewrite <- replicate_add; f_equal; lia).
  assert (M4 : mapped m4 response rs) by (eapply region_mapped_le; [exact R4|zlia]).
  set (m5 := write m4 (response + 20) (attr_bytes t c)).
  assert (R5 : region m5 response ([ab.1; ab.2] ++ zeros 2 ++ magic_cookie ++ id ++ attr_bytes t c ++
    zeros (rs - 20 - attr_size (Zlen c)))).
  { pose proof (region_write_mid m4 response ([ab.1; ab.2] ++ zeros 2 ++ magic_cookie ++ id)
      (zeros (attr_size (Zlen c))) (attr_bytes t c) (zeros (rs - 20 - attr_size (Zlen c)))
      (response + 20)) as W. rewrite <- !app_assoc in W. apply W; [exact R4|zlia|zlia]. }
  exists (write m5 (response + 2) (be16 (attr_size (Zlen c)))).
  split; [|split].
  - unfold ov_stun_error_code_generate_response, NULL. decide_guard.
    rewrite (memset_0 m response rs) by (done || lia). cbn [mbind option_bind].
    rewrite E1. cbn [mbind option_bind negb]. rewrite E2. cbn [mbind option_bind negb].
    rewrite E3. cbn [mbind option_bind]. rewrite E4. cbn [mbind option_bind negb].
    unfold ov_stun_frame_get_transaction_id, NULL. decide_guard.
    rewrite (set_transaction_id_spec m3 response rs (frame + 8) id)
      by first [done|lia|unfold id; auto with ov]. fold m4. cbn [mbind option_bind negb].
    rewrite (setter_writes (f := f) (t := t) (c := c))
      by first [by eapply (mapped_sub m4 response rs); [|lia|lia]|lia].
    fold m5. cbn -[Z.add Z.sub attr_size]. rewrite u16_id by lia.
    rewrite (set_length_spec m5 response rs)
      by first [by apply mapped_write|unfold is_u16; lia|lia]. cbn [mbind option_bind negb].
    replace (response + 20 + attr_size (Zlen c) - response) with (20 + attr_size (Zlen c)) by lia.
    rewrite u64_id by lia. by replace (20 + attr_size (Zlen c) - 20) with (attr_size (Zlen c)) by lia.
  - unfold error_response, header_bytes. rewrite <- !app_assoc.
    eapply (region_write_mid m5 response [ab.1; ab.2] (zeros 2)); [exact R5|done|done].
  - eapply same_outside_trans; [exact O3|].
    eapply same_outside_trans; [apply (same_outside_write m3 response rs (response + 8) id); lia|].
    eapply same_outside_trans; [apply (same_outside_write m4 response rs (response + 20) (attr_bytes t c)); zlia|].
    apply same_outside_write; zlia.
Qed.
End Response.

(** The message is a header and one attribute. *)
Lemma one_attribute_message h0 h1 id t c :
  is_u16 t -> Zlen c <= 65528 -> Zlen id = 12 ->
  sliceable (header_bytes h0 h1 (attr_size (Zlen c)) id ++ attr_bytes t c) 2
    [Tlv t c (zeros (padding (Zlen c)))].
Proof.
  intros Ht Hc Hid. pose proof (attr_size_bounds (Zlen c)). pose proof (Zlen_nonneg c).
  pose proof (padding_spec (Zlen c)) as [? _]. split; [|split; [|split]].
  - repeat constructor; unfold is_u16 in *; cbn [tlv_type tlv_content tlv_pad]; zlia.
  - change (tlvs_bytes _) with (attr_bytes t c ++ []). rewrite app_nil_r.
    apply zdrop_app_n. rewrite Zlen_header. lia.
  - rewrite !znth_app_l by (rewrite Zlen_header; lia). rewrite Zlen_app, Zlen_header, Zlen_attr_bytes.
    etransitivity; [apply (be_val_be16 (attr_size (Zlen c))); lia|lia].
  - done.
Qed.

(** ** Properties *)

(** [ov_stun_error_code_encode] accepts exactly a code of the classes 3 to
    6 with a valid UTF-8 phrase of 1 to 763 octets that fits, and touches no
    memory otherwise. What it writes decodes to the same code and phrase; the
    frame check recognises it when the phrase has at most 759 octets and the
    buffer holds four octets more than the content. *)
Theorem error_code_encode_decode m buffer length next code phrase ph :
  region m phrase ph -> bytes ph -> mapped m buffer (attr_size (4 + Zlen ph)) ->
  (~ error_ok code ph length ->
   ov_stun_error_code_encode m buffer length next code phrase (Zlen ph) = Some (false, None, m)) /\
  (error_ok code ph length ->
   exists m', ov_stun_error_code_encode m buffer length next code phrase (Zlen ph) =
       Some (true, set_next next (buffer + ov_stun_error_code_encoding_length phrase (Zlen ph)), m') /\
     same_outside m m' buffer (attr_size (4 + Zlen ph)) /\
     ov_stun_attribute_get_type m' buffer length = Some STUN_ERROR_CODE /\
     ov_stun_error_code_decode_code m' buffer length = Some code /\
     (forall a b, a <> NULL -> b <> NULL ->
        ov_stun_error_code_decode_phrase m' buffer length a b = Some (true, Some (buffer + 8, Zlen ph))) /\
     region m' (buffer + 8) ph /\
     ov_stun_attribute_frame_is_error_code m' buffer length =
       Some ((Zlen ph <=? 759) && (Zlen ph + 12 <=? length))).
Proof.
  intros Hph Hb Hm. split; [by apply error_code_encode_refuses|].
  intros Hok. pose proof Hok as (Hc & Hn & Hu & Hl). pose proof (attr_size_bounds (4 + Zlen ph)).
  pose proof Hm as [Hp _]. pose proof Hph as [Hpp _].
  eexists. split.
  { rewrite error_code_encode_spec by done. unfold ov_stun_error_code_encoding_length, NULL.
    decide_guard. unfold attr_size. replace (padding (4 + Zlen ph)) with (padding (Zlen ph)).
    - do 4 f_equal. lia.
    - unfold padding. by replace ((4 + Zlen ph) mod 4) with (Zlen ph mod 4) by dlia. }
  assert (Ha : attr_at (write m buffer (attr_bytes STUN_ERROR_CODE (error_content code ph))) buffer
                 STUN_ERROR_CODE (error_content code ph)) by by apply attr_bytes_at, region_write.
  split; [apply same_outside_write; [lia|by rewrite Zlen_attr_bytes, Zlen_error_content; lia]|].
  split; [eapply get_type_attr; [exact Ha|unfold is_u16, STUN_ERROR_CODE; lia|lia]|].
  split; [eapply error_decode_code_attr; [exact Ha|done..|lia]|].
  split; [intros; eapply error_decode_phrase_attr; [exact Ha|done..|lia|done|done]|].
  split; [by eapply error_phrase_at|].
  eapply is_error_code_attr; [exact Ha|done..|lia].
Qed.

Lemma error_code_encode_decode_witness :
  exists m', ov_stun_error_code_encode (write (write ∅ 16 (zeros 16)) 64 [98; 97; 100]) 16 16 1 400 64 3 =
       Some (true, set_next 1 28, m') /\
     ov_stun_error_code_decode_code m' 16 16 = Some 400 /\ region m' 24 [98; 97; 100].
Proof.
  destruct (error_code_encode_decode (write (write ∅ 16 (zeros 16)) 64 [98; 97; 100]) 16 16 1 400 64
    [98; 97; 100]) as [_ H].
  - apply region_write. lia.
  - repeat constructor; unfold is_byte; lia.
  - apply mapped_write, (mapped_sub _ 16 16); [|lia|vm_compute; discriminate].
    apply (region_mapped _ 16 (zeros 16)), region_write. lia.
  - destruct H as (m' & H1 & _ & _ & H2 & _ & H3 & _).
    + split; [lia|]. split; [vm_compute; split; discriminate|].
      split; [apply ascii_utf8; repeat constructor; lia|vm_compute; discriminate].
    + exists m'. split; [exact H1|]. split; [exact H2|exact H3].
Defined.

(** [ov_stun_error_code_generate_response] answers any request with a
    complete error response: for every setter of an error code, the message is
    well formed, is of the error class, repeats the method and the transaction
    id of the request, slices into exactly one attribute, which carries the
    code and the phrase of the setter, and nothing outside the response buffer
    changes. *)
Lemma error_response_wellformed m frame fl response rs f code phrase :
  AttributeSetter f STUN_ERROR_CODE (error_content code (string_bytes phrase)) ->
  phrase_ok code phrase = true ->
  region m frame fl -> bytes fl -> 20 <= Zlen fl -> fl.[0] < 64 ->
  mapped m response rs -> 20 + attr_size (4 + Zlen (string_bytes phrase)) <= rs ->
  frame + Zlen fl <= response \/ response + rs <= frame ->
  exists n m' msg,
    ov_stun_error_code_generate_response m frame (Zlen fl) response rs (Some f) = Some (n, m') /\
    n = Zlen msg /\ region m' response msg /\ same_outside m m' response rs /\
    ov_stun_frame_is_valid m' response n = Some true /\
    stun_class m' response n = Some (false, false, false, true) /\
    ov_stun_frame_get_method m' response n = ov_stun_frame_get_method m frame (Zlen fl) /\
    region m' (ov_stun_frame_get_transaction_id response n) (ztake 12 (zdrop 8 fl)) /\
    (exists a, tlv_type a = STUN_ERROR_CODE /\ sliceable msg 2 [a]) /\
    ov_stun_error_code_decode_code m' (response + 20) (n - 20) = Some code /\
    region m' (response + 28) (string_bytes phrase).
Proof.
  intros Hf Hok Hfr Hb H20 H64 Hrm Hrs Hd.
  set (c := error_content code (string_bytes phrase)) in *.
  assert (Hc4 : Zlen c = 4 + Zlen (string_bytes phrase)) by (unfold c; zlia).
  assert (Hcode : 300 <= code < 700 /\ 1 <= Zlen (string_bytes phrase) <= 763)
    by (unfold phrase_ok in Hok; bool_to_prop; lia).
  rewrite <- Hc4 in Hrs. pose proof (attr_size_bounds (Zlen c)) as Hs.
  destruct (generate_response_spec m frame response rs fl f STUN_ERROR_CODE c Hfr Hb H20 H64 Hrm Hrs Hd)
    as (m' & E & R & O).
  pose proof (error_head_ok fl.[0] fl.[1]) as Hh.
  specialize (Hh ltac:(auto with ov) ltac:(auto with ov) H64).
  unfold error_response in R. destruct (error_head fl.[0] fl.[1]) as [a b] eqn:Eab.
  cbn [fst snd] in R. destruct Hh as (Ha & Hb' & Ha64 & Hmeth & Hclass).
  set (id := ztake 12 (zdrop 8 fl)) in *. assert (Hid : Zlen id = 12) by (unfold id; zlia).
  assert (Hbid : bytes id) by (unfold id; auto with ov).
  assert (Hbc : bytes c) by (apply bytes_error_content; [lia|auto with ov]).
  apply region_app_l in R. set (msg := header_bytes a b (attr_size (Zlen c)) id ++ attr_bytes STUN_ERROR_CODE c) in *.
  assert (Hmsg : Zlen msg = 20 + attr_size (Zlen c))
    by (unfold msg; rewrite Zlen_app, Zlen_header, Zlen_attr_bytes; lia).
  assert (Hbm : bytes msg) by (apply bytes_app; split; [by apply bytes_header|auto with ov]).
  assert (Hat : attr_at m' (response + 20) STUN_ERROR_CODE c).
  { apply attr_bytes_at. eapply region_app_r; [exact R|]. rewrite Zlen_header. lia. }
  exists (20 + attr_size (Zlen c)), m', msg.
  split; [exact E|]. split; [by symmetry|]. split; [exact R|]. split; [exact O|].
  assert (Htl : region m' response (a :: b :: zdrop 2 msg)) by exact R.
  split. { rewrite <- Hmsg, (frame_is_valid_spec m' response msg R Hbm) by lia. f_equal.
    apply frame_valid_header; try done; [by rewrite Zlen_attr_bytes|unfold is_u16; lia|].
    apply attr_size_aligned. }
  split. { rewrite (stun_class_spec m' _ _ _ _ _ Htl) by lia. by rewrite Hclass. }
  split. { rewrite (get_method_spec m' _ _ _ _ _ Htl), Hmeth by lia. symmetry.
    apply (get_method_spec m frame _ _ _ (zdrop 2 fl)); [|lia].
    by rewrite (split_2 fl) in Hfr by lia. }
  split. { unfold ov_stun_frame_get_transaction_id, NULL. pose proof Hrm as [Hp _]. decide_guard.
    apply region_app_l in R. unfold header_bytes in R. rewrite !(app_assoc _ _ id) in R.
    eapply region_app_r; [exact R|done]. }
  split. { eexists. split; [|by apply one_attribute_message; [unfold is_u16, STUN_ERROR_CODE; lia|lia|]].
    done. }
  split; [eapply error_decode_code_attr; [exact Hat|lia|auto with ov|lia|lia]|].
  replace (response + 28) with (response + 20 + 8) by lia.
  eapply error_phrase_at; [exact Hat|lia|auto with ov|lia].
Qed.

Lemma error_response_wellformed_witness :
  exists n m' msg,
    ov_stun_error_code_generate_response
      (write (write ∅ 16 (zeros 40)) 64 (header_bytes 0 3 0 (zeros 12))) 64 20 16 40
      (Some ov_stun_error_code_set_forbidden) = Some (n, m') /\
    n = Zlen msg /\ region m' 16 msg /\
    ov_stun_frame_is_valid m' 16 n = Some true /\
    ov_stun_error_code_decode_code m' 36 (n - 20) = Some 403.
Proof.
  destruct (error_response_wellformed
    (write (write ∅ 16 (zeros 40)) 64 (header_bytes 0 3 0 (zeros 12))) 64
    (header_bytes 0 3 0 (zeros 12)) 16 40 ov_stun_error_code_set_forbidden 403 "forbidden")
    as (n & m' & msg & H1 & H2 & H3 & _ & H4 & _ & _ & _ & _ & H5 & _).
  - exact set_forbidden_spec.
  - reflexivity.
  - apply region_write. lia.
  - apply (bool_decide_unpack _). vm_compute. exact I.
  - vm_compute. discriminate.
  - reflexivity.
  - apply mapped_write, (region_mapped _ 16 (zeros 40)), region_write. lia.
  - vm_compute. discriminate.
  - right. lia.
  - exists n, m', msg. split; [exact H1|]. split; [exact H2|]. split; [exact H3|].
    split; [exact H4|exact H5].
Defined.
