(* ===== verification/StunAddress.v ===== *)
(** * Transport address attributes

    XOR-MAPPED-ADDRESS, XOR-PEER-ADDRESS and XOR-RELAYED-ADDRESS
    (src/lib/ov_stun/src/ov_stun_xor_mapped_address.c,
    ov_turn_attr_xor_peer_address.c, ov_turn_attr_xor_relayed_address.c) and
    MAPPED-ADDRESS and ALTERNATE-SERVER (ov_stun_mapped_address.c,
    ov_stun_alternate_server.c). The files of a group are copies of each other
    but for the attribute type, a parameter here.

    A [struct sockaddr_storage] is 128 octets of memory with the layout of the
    platforms the code is built for: the family at offset 0 in host order, the
    port at 2 and the address at 4 ([sin_addr]) or 8 ([sin6_addr]), both in
    network order. *)
From S2P Require Import Prelude CMem StunAttribute StunFrame.

(** ** The code *)

Definition AF_INET : Z := 2.
Definition AF_INET6 : Z := 10.
Definition sizeof_sockaddr_storage : Z := 128.
Definition sin_port (sa : ptr) : ptr := sa + 2.
Definition sin_addr (sa : ptr) : ptr := sa + 4.
Definition sin6_addr (sa : ptr) : ptr := sa + 8.

Definition STUN_XOR_MAPPED_ADDRESS : Z := 0x0020.
Definition TURN_XOR_PEER_ADDRESS : Z := 0x0012.
Definition TURN_XOR_RELAYED_ADDRESS : Z := 0x0016.
Definition STUN_MAPPED_ADDRESS : Z := 0x0001.
Definition STUN_ALTERNATE_SERVER : Z := 0x8023.

(** [for (i = 0; i < n; i++) dst[i] = dst[i] ^ src[i]] *)
Fixpoint xor_loop (m : mem) (dst src : ptr) (n : nat) : option mem :=
  match n with
  | O => Some m
  | S n =>
      a ← load8 m dst;
      b ← load8 m src;
      m ← store8 m dst (a .^ b);
      xor_loop m (dst + 1) (src + 1) n
  end.

Section Codecs.
Context (TYPE : Z).

Definition frame_is_address (m : mem) (buffer : ptr) (length : Z) : option bool :=
  if (buffer =? NULL) || (length <? 12) then Some false else
  type ← ov_stun_attribute_get_type m buffer length;
  size ← ov_stun_attribute_get_length m buffer length;
  if negb (type =? TYPE) then Some false else
  family ← load8 m (buffer + 5);
  if family =? 0x01 then (if negb (size =? 8) then Some false else Some true)
  else if family =? 0x02 then (if negb (size =? 20) then Some false else Some true)
  else Some false.

Definition address_encoding_length (m : mem) (sa : ptr) : option Z :=
  if sa =? NULL then Some 0 else
  family ← load16 m sa;
  if family =? AF_INET then Some 12 else
  if family =? AF_INET6 then Some 24 else Some 0.

Definition xor_address_encode (m : mem) (buffer : ptr) (length : Z) (head next sa : ptr) : encoded :=
  if (buffer =? NULL) || (sa =? NULL) || (head =? NULL) || (length <? 12)
  then Some (false, None, m) else
  '(ok, m) ← ov_stun_attribute_set_type m buffer length TYPE;
  if negb ok then Some (false, None, m) else
  let content := buffer + 4 in
  family ← load16 m sa;
  if family =? AF_INET then
  '(ok, m) ← ov_stun_attribute_set_length m buffer length 8;
  if negb ok then Some (false, None, m) else
  m ← store8 m content 0;
  m ← store8 m (content + 1) 1;
  port ← load16 m (sin_port sa);
  let port := ntohs port in
  let port := port .^ 0x2112 in
  let port := htons port in
  m ← store16 m (content + 2) port;
  ip ← load32 m (sin_addr sa);
  let ip := ntohl ip in
  let ip := ip .^ 0x2112A442 in
  let ip := htonl ip in
  m ← store32 m (content + 4) ip;
  Some (true, set_next next (buffer + 4 + 8), m)
  else if family =? AF_INET6 then
  if length <? 24 then Some (false, None, m) else
  '(ok, m) ← ov_stun_attribute_set_length m buffer length 20;
  if negb ok then Some (false, None, m) else
  m ← store8 m content 0;
  m ← store8 m (content + 1) 2;
  port ← load16 m (sin_port sa);
  let port := ntohs port in
  let port := port .^ 0x2112 in
  let port := htons port in
  m ← store16 m (content + 2) port;
  m ← memcpy m (content + 4) (sin6_addr sa) 16;
  m ← xor_loop m (content + 4) (head + 4) 16;
  Some (true, set_next next (buffer + 4 + 20), m)
  else Some (false, None, m).

(** The rest of [xor_address_decode], once [*address] is allocated. *)
Definition xor_decode_into (m : mem) (content head : ptr) (created : bool) (sa : ptr)
    : option (bool * ptr * mem) :=
  m ← memset m sa 0 sizeof_sockaddr_storage;
  family ← load8 m (content + 1);
  if family =? 0x01 then
  m ← store16 m sa AF_INET;
  port ← load16 m (content + 2);
  m ← store16 m (sin_port sa) (htons (ntohs port .^ 0x2112));
  ip ← load32 m (content + 4);
  m ← store32 m (sin_addr sa) (htonl (ntohl ip .^ 0x2112A442));
  Some (true, sa, m)
  else if family =? 0x02 then
  m ← store16 m sa AF_INET6;
  port ← load16 m (content + 2);
  m ← store16 m (sin_port sa) (htons (ntohs port .^ 0x2112));
  m ← memcpy m (sin6_addr sa) (content + 4) 16;
  m ← xor_loop m (sin6_addr sa) (head + 4) 16;
  Some (true, sa, m)
  else if created then Some (false, NULL, dealloc m sa sizeof_sockaddr_storage)
  else Some (false, sa, m).

(** [address] is the parameter of type [struct sockaddr_storage **] and [sa]
the value of [*address] on entry; the result is the truth value, the
value of [*address] on exit and the memory. *)
Definition xor_address_decode (m : mem) (buffer : ptr) (length : Z) (head address sa : ptr)
    : option (bool * ptr * mem) :=
  if (buffer =? NULL) || (head =? NULL) || (length <? 12) || (address =? NULL)
  then Some (false, sa, m) else
  valid ← frame_is_address m buffer length;
  if negb valid then Some (false, sa, m) else
  let created := sa =? NULL in
  let '(sa, m) := if sa =? NULL then calloc m sizeof_sockaddr_storage else (sa, m) in
  xor_decode_into m (buffer + 4) head created sa.

Definition address_encode (m : mem) (buffer : ptr) (length : Z) (next sa : ptr) : encoded :=
  if (buffer =? NULL) || (sa =? NULL) || (length <? 12) then Some (false, None, m) else
  '(ok, m) ← ov_stun_attribute_set_type m buffer length TYPE;
  if negb ok then Some (false, None, m) else
  let content := buffer + 4 in
  family ← load16 m sa;
  if family =? AF_INET then
  '(ok, m) ← ov_stun_attribute_set_length m buffer length 8;
  if negb ok then Some (false, None, m) else
  m ← store8 m content 0;
  m ← store8 m (content + 1) 1;
  m ← memcpy m (content + 2) (sin_port sa) 2;
  m ← memcpy m (content + 4) (sin_addr sa) 4;
  Some (true, set_next next (content + 8), m)
  else if family =? AF_INET6 then
  if length <? 24 then Some (false, None, m) else
  '(ok, m) ← ov_stun_attribute_set_length m buffer length 20;
  if negb ok then Some (false, None, m) else
  m ← store8 m content 0;
  m ← store8 m (content + 1) 1;
  m ← memcpy m (content + 2) (sin_port sa) 2;
  m ← memcpy m (content + 4) (sin6_addr sa) 16;
  Some (true, set_next next (content + 20), m)
  else Some (false, None, m).

(** The rest of [address_decode], once [*address] is allocated. *)
Definition decode_into (m : mem) (content : ptr) (created : bool) (sa : ptr)
    : option (bool * ptr * mem) :=
  family ← load8 m (content + 1);
  if family =? 0x01 then
  m ← store16 m sa AF_INET;
  m ← memcpy m (sin_port sa) (content + 2) 2;
  m ← memcpy m (sin_addr sa) (content + 4) 4;
  Some (true, sa, m)
  else if family =? 0x02 then
  m ← store16 m sa AF_INET6;
  m ← memcpy m (sin_port sa) (content + 2) 2;
  m ← memcpy m (sin6_addr sa) (content + 4) 16;
  Some (true, sa, m)
  else if created then Some (false, NULL, dealloc m sa sizeof_sockaddr_storage)
  else Some (false, sa, m).

Definition address_decode (m : mem) (buffer : ptr) (length : Z) (address sa : ptr)
    : option (bool * ptr * mem) :=
  if (buffer =? NULL) || (length <? 12) || (address =? NULL) then Some (false, sa, m) else
  valid ← frame_is_address m buffer length;
  if negb valid then Some (false, sa, m) else
  let created := sa =? NULL in
  let '(sa, m) := if sa =? NULL then calloc m sizeof_sockaddr_storage else (sa, m) in
  decode_into m (buffer + 4) created sa.
End Codecs.

(** *** ov_stun_xor_mapped_address.c *)
Definition ov_stun_attribute_frame_is_xor_mapped_address := frame_is_address STUN_XOR_MAPPED_ADDRESS.
Definition ov_stun_xor_mapped_address_encoding_length := address_encoding_length.
Definition ov_stun_xor_mapped_address_encode := xor_address_encode STUN_XOR_MAPPED_ADDRESS.
Definition ov_stun_xor_mapped_address_decode := xor_address_decode STUN_XOR_MAPPED_ADDRESS.

(** *** ov_turn_attr_xor_peer_address.c *)
Definition ov_turn_attr_frame_is_xor_peer_address := frame_is_address TURN_XOR_PEER_ADDRESS.
Definition ov_turn_attr_xor_peer_address_encoding_length := address_encoding_length.
Definition ov_turn_attr_xor_peer_address_encode := xor_address_encode TURN_XOR_PEER_ADDRESS.
Definition ov_turn_attr_xor_peer_address_decode := xor_address_decode TURN_XOR_PEER_ADDRESS.

(** *** ov_turn_attr_xor_relayed_address.c *)
Definition ov_turn_attr_frame_is_xor_relayed_address := frame_is_address TURN_XOR_RELAYED_ADDRESS.
Definition ov_turn_attr_xor_relayed_address_encoding_length := address_encoding_length.
Definition ov_turn_attr_xor_relayed_address_encode := xor_address_encode TURN_XOR_RELAYED_ADDRESS.
Definition ov_turn_attr_xor_relayed_address_decode := xor_address_decode TURN_XOR_RELAYED_ADDRESS.

(** *** ov_stun_mapped_address.c *)
Definition ov_stun_attribute_frame_is_mapped_address := frame_is_address STUN_MAPPED_ADDRESS.
Definition ov_stun_mapped_address_encoding_length := address_encoding_length.
Definition ov_stun_mapped_address_encode := address_encode STUN_MAPPED_ADDRESS.
Definition ov_stun_mapped_address_decode := address_decode STUN_MAPPED_ADDRESS.

(** *** ov_stun_alternate_server.c *)
Definition ov_stun_attribute_frame_is_alternate_server := frame_is_address STUN_ALTERNATE_SERVER.
Definition ov_stun_alternate_server_encoding_length := address_encoding_length.
Definition ov_stun_alternate_server_encode := address_encode STUN_ALTERNATE_SERVER.
Definition ov_stun_alternate_server_decode := address_decode STUN_ALTERNATE_SERVER.

(** ** Exclusive or of octet strings *)

Definition xor_bytes (l k : list Z) : list Z := zip_with Z.lxor l k.

Lemma Zlen_xor_bytes l k : Zlen (xor_bytes l k) = Zlen l `min` Zlen k.
Proof. unfold Zlen, xor_bytes. rewrite length_zip_with. lia. Qed.
#[export] Hint Rewrite Zlen_xor_bytes : zlen.
Lemma bytes_xor l k : bytes l -> bytes k -> bytes (xor_bytes l k).
Proof.
  intros Hl. revert k. induction Hl as [|a l Ha _ IH]; intros k Hk; [apply bytes_nil|].
  destruct Hk as [|b k Hb Hk]; [apply bytes_nil|]. apply bytes_cons. split; [by apply lxor_byte|].
  by apply IH.
Qed.
Lemma xor_bytes_involutive l k : Zlen l <= Zlen k -> xor_bytes (xor_bytes l k) k = l.
Proof.
  revert k. induction l as [|a l IH]; intros k Hk; [done|].
  destruct k as [|b k]; [zlia|]. unfold xor_bytes in *. cbn [zip_with]. f_equal.
  - by rewrite Z.lxor_assoc, Z.lxor_nilpotent, Z.lxor_0_r.
  - apply IH. zlia.
Qed.

Lemma u8_lxor_shift x y n : u8 ((x .^ y) .>> n) = u8 (x .>> n) .^ u8 (y .>> n).
Proof.
  rewrite <- !land_255, Z.shiftr_lxor. apply Z.bits_inj'. intros i Hi.
  rewrite !Z.lxor_spec, !Z.land_spec, Z.lxor_spec. by destruct (Z.testbit 0xff i), (Z.testbit _ i), (Z.testbit _ i).
Qed.
Lemma u8_lxor x y : u8 (x .^ y) = u8 x .^ u8 y.
Proof. pose proof (u8_lxor_shift x y 0) as H. by rewrite !Z.shiftr_0_r in H. Qed.
Lemma be16_lxor x y : be16 (x .^ y) = xor_bytes (be16 x) (be16 y).
Proof. unfold be16, xor_bytes. cbn [zip_with]. by rewrite u8_lxor_shift, u8_lxor. Qed.
Lemma be32_lxor x y : be32 (x .^ y) = xor_bytes (be32 x) (be32 y).
Proof. unfold be32, xor_bytes. cbn [zip_with]. by rewrite !u8_lxor_shift, u8_lxor. Qed.
Lemma be32_be_val a b c d :
  is_byte a -> is_byte b -> is_byte c -> is_byte d -> be32 (be_val [a; b; c; d]) = [a; b; c; d].
Proof. intros. unfold be32. list_cong; byte_arith. Qed.

Lemma lxor_bound x y n : 0 <= n -> 0 <= x < 2 ^ n -> 0 <= y < 2 ^ n -> 0 <= x .^ y < 2 ^ n.
Proof.
  intros Hn Hx Hy. split; [apply Z.lxor_nonneg; lia|].
  destruct (decide (x .^ y = 0)) as [->|Hz]; [by apply Z.pow_pos_nonneg|].
  assert (0 <= x .^ y) by (apply Z.lxor_nonneg; lia).
  apply Z.log2_lt_pow2; [lia|]. eapply Z.le_lt_trans; [apply Z.log2_lxor; lia|].
  assert (forall z, 0 <= z < 2 ^ n -> z = 0 \/ Z.log2 z < n) as Hl.
  { intros z Hz'. destruct (decide (z = 0)); [by left|right]. apply Z.log2_lt_pow2; lia. }
  assert (n <> 0) by (intros ->; change (2 ^ 0) with 1 in *; replace x with 0 in Hz by lia;
                      replace y with 0 in Hz by lia; done).
  destruct (Hl x Hx) as [->|]; destruct (Hl y Hy) as [->|]; simpl; lia.
Qed.

(** The loop of the encoder and the decoder. *)
Lemma xor_loop_spec m dst src l k p n :
  region m dst l -> region m src k -> bytes l -> bytes k -> Zlen l = Zlen k ->
  mapped m p n -> p <= dst -> dst + Zlen l <= p + n ->
  dst + Zlen l <= src \/ src + Zlen k <= dst ->
  xor_loop m dst src (length l) = Some (write m dst (xor_bytes l k)).
Proof.
  revert m dst src k. induction l as [|a l IH]; intros m dst src k Hd Hs Hbl Hbk Hlen Hm H1 H2 Hdis.
  { done. }
  destruct k as [|b k]; [zlia|]. apply bytes_cons in Hbl as [Ba Bl]. apply bytes_cons in Hbk as [Bb Bk].
  cbn [length xor_loop]. rewrite (load8_at_0 _ _ _ _ Hd), (load8_at_0 _ _ _ _ Hs).
  cbn [mbind option_bind]. rewrite !Zlen_cons in *.
  rewrite (store8_mapped m p n) by (done || zlia). cbn [mbind option_bind].
  rewrite u8_id by by apply lxor_byte. rewrite IH with (k := k).
  - unfold xor_bytes. cbn [zip_with]. by rewrite (write_app m dst).
  - apply region_write_out; [by apply (region_zdrop m dst (a :: l) 1); [|zlia]|zlia].
  - apply region_write_out; [by apply (region_zdrop m src (b :: k) 1); [|zlia]|zlia].
  - done.
  - done.
  - lia.
  - by apply mapped_write.
  - lia.
  - lia.
  - lia.
Qed.

(** ** Specification *)

(** A transport address: the port and the octets of the address. *)
Inductive address := V4 (port : Z) (ip : list Z) | V6 (port : Z) (ip : list Z).
Definition address_wf (a : address) : Prop :=
  match a with
  | V4 port ip => is_u16 port /\ bytes ip /\ Zlen ip = 4
  | V6 port ip => is_u16 port /\ bytes ip /\ Zlen ip = 16
  end.
(** The fields of the C structure; [flow] is [sin6_flowinfo]. *)
Definition sockaddr_bytes (flow : list Z) (a : address) : list Z :=
  match a with
  | V4 port ip => [2; 0] ++ be16 port ++ ip
  | V6 port ip => [10; 0] ++ be16 port ++ flow ++ ip
  end.
Definition sockaddr_at (m : mem) (sa : ptr) (a : address) : Prop :=
  exists flow, Zlen flow = 4 /\ region m sa (sockaddr_bytes flow a).
(** RFC 5389, 15.2: the port is combined with the upper half of the magic
    cookie, the address with the cookie and the transaction id, which stand at
    octet 4 of the message. *)
Definition xor_content (key : list Z) (a : address) : list Z :=
  match a with
  | V4 port ip => [0; 1] ++ be16 (port .^ 0x2112) ++ xor_bytes ip magic_cookie
  | V6 port ip => [0; 2] ++ be16 (port .^ 0x2112) ++ xor_bytes ip key
  end.
Definition content_size (a : address) : Z := match a with V4 _ _ => 8 | V6 _ _ => 20 end.
(** RFC 5389, 15.1. *)
Definition plain_content (a : address) : list Z :=
  match a with
  | V4 port ip => [0; 1] ++ be16 port ++ ip
  | V6 port ip => [0; 2] ++ be16 port ++ ip
  end.

(** ** Lemmas *)

Lemma load32_be m q ip :
  region m q ip -> bytes ip -> Zlen ip = 4 -> exists w, load32 m q = Some w /\ be32 (ntohl w) = ip /\ 0 <= ntohl w < 2 ^ 32.
Proof.
  intros Hm Hb H4. eexists. split; [apply (load32_region m q ip q Hm); lia|].
  rewrite Z.sub_diag. rewrite ntohl_load by auto with ov. split.
  - rewrite be32_be_val by auto with ov. rewrite (split_4 ip) at 5 by lia.
    rewrite (Zlen_0_nil (zdrop 4 ip)) by zlia. done.
  - apply be_val_range4; auto with ov.
Qed.

Lemma cookie_xor ip : Zlen ip = 4 -> forall w, be32 w = ip -> be32 (w .^ 0x2112A442) = xor_bytes ip magic_cookie.
Proof. intros _ w <-. by rewrite be32_lxor. Qed.

Lemma Zlen_xor_content key a :
  address_wf a -> Zlen key = 16 -> Zlen (xor_content key a) = content_size a.
Proof. destruct a; intros (_ & _ & H) Hk; unfold xor_content, content_size; zlia. Qed.
Lemma Zlen_xor_content_v4 key port ip : Zlen ip = 4 -> Zlen (xor_content key (V4 port ip)) = 8.
Proof. intros. unfold xor_content. zlia. Qed.
Lemma Zlen_plain_content a : address_wf a -> Zlen (plain_content a) = content_size a.
Proof. destruct a; intros (_ & _ & H); unfold plain_content, content_size; zlia. Qed.
Lemma attr_size_address a : attr_size (content_size a) = 4 + content_size a.
Proof. by destruct a. Qed.
Lemma port_xor_range port : is_u16 port -> is_u16 (port .^ 0x2112).
Proof. intros H. by apply (lxor_bound port 0x2112 16). Qed.

(** The fields of a socket address. *)
Lemma sockaddr_fields m sa a :
  sockaddr_at m sa a -> address_wf a ->
  load16 m sa = Some (match a with V4 _ _ => AF_INET | V6 _ _ => AF_INET6 end) /\
  match a with
  | V4 port ip => region m (sin_port sa) (be16 port) /\ region m (sin_addr sa) ip
  | V6 port ip => region m (sin_port sa) (be16 port) /\ region m (sin6_addr sa) ip
  end.
Proof.
  intros (flow & Hf & Hm) Hwf. destruct a as [port ip|port ip]; unfold sockaddr_bytes in Hm;
    (split; [rewrite (load16_region m sa _ sa Hm) by zlia; rewrite Z.sub_diag; done|]).
  - split; [eapply region_app_l, region_app_r; [exact Hm|done]|].
    rewrite app_assoc in Hm. eapply region_app_r; [exact Hm|done].
  - split; [eapply region_app_l, region_app_r; [exact Hm|done]|].
    rewrite !app_assoc in Hm. eapply region_app_r; [exact Hm|]. unfold sin6_addr. zlia.
Qed.
Definition sockaddr_size (a : address) : Z := match a with V4 _ _ => 8 | V6 _ _ => 24 end.
Lemma sockaddr_write m sa a q bs :
  sockaddr_at m sa a -> address_wf a -> q + Zlen bs <= sa \/ sa + sockaddr_size a <= q ->
  sockaddr_at (write m q bs) sa a.
Proof.
  intros (flow & Hf & Hm) Hwf Hd. exists flow. split; [done|]. apply region_write_out; [done|].
  destruct a; destruct Hwf as (_ & _ & ?); unfold sockaddr_bytes, sockaddr_size in *; zlia.
Qed.

Lemma store8_head m buffer n i v :
  mapped m buffer n -> 0 <= i < n -> is_byte v -> store8 m (buffer + i) v = Some (write m (buffer + i) [v]).
Proof. intros. rewrite (store8_mapped m buffer n) by (done || lia). by rewrite u8_id. Qed.

(** Steps of the encoders: a store to the buffer, merged with what is already
    written there. *)
Ltac buffer_ok := first [ done | by repeat apply mapped_write | by repeat apply mapped_write; lia | zlia ].
Ltac merge buffer := rewrite ?(write_app _ buffer) by zlia; rewrite <- ?app_assoc.

Ltac family_steps m buffer n FA T :=
  rewrite (set_type_spec m buffer n) by buffer_ok; cbn [mbind option_bind negb];
  rewrite (proj1 (FA (be16 T) ltac:(zlia))); cbn [mbind option_bind];
  change (AF_INET =? AF_INET) with true; change (AF_INET6 =? AF_INET) with false;
  change (AF_INET6 =? AF_INET6) with true; cbn match; try decide_guard;
  rewrite (set_length_spec _ buffer n) by (unfold is_u16; buffer_ok); merge buffer;
  cbn [mbind option_bind negb];
  rewrite (store8_head _ buffer n 4) by (unfold is_byte; buffer_ok);
  cbn [mbind option_bind]; merge buffer; rewrite <- (Z.add_assoc buffer 4 1);
  rewrite (store8_head _ buffer n 5) by (unfold is_byte; buffer_ok);
  cbn [mbind option_bind]; merge buffer;
  rewrite <- ?(Z.add_assoc buffer 4 2), <- ?(Z.add_assoc buffer 4 4).

(** The socket address is not touched by writes to the buffer. *)
Lemma fields_after m buffer sa a n bs :
  sockaddr_at m sa a -> address_wf a -> buffer + n <= sa \/ sa + sockaddr_size a <= buffer ->
  Zlen bs <= n ->
  load16 (write m buffer bs) sa = Some (match a with V4 _ _ => AF_INET | V6 _ _ => AF_INET6 end) /\
  match a with
  | V4 port ip => region (write m buffer bs) (sin_port sa) (be16 port) /\
                  region (write m buffer bs) (sin_addr sa) ip
  | V6 port ip => region (write m buffer bs) (sin_port sa) (be16 port) /\
                  region (write m buffer bs) (sin6_addr sa) ip
  end.
Proof. intros. apply sockaddr_fields; [apply sockaddr_write; (done || lia)|done]. Qed.

Section Encode.
Context (TYPE : Z) (m : mem) (buffer length next sa port : Z) (ip : list Z).
Context (HT : is_u16 TYPE).

Section EncodeV4.
Context (Hwf : address_wf (V4 port ip)) (Hsa : sockaddr_at m sa (V4 port ip)).
Context (Hm : mapped m buffer 12) (Hl : 12 <= length).
Context (Hd : buffer + 12 <= sa \/ sa + 8 <= buffer).

Lemma xor_encode_v4 head key :
  0 < head ->
  xor_address_encode TYPE m buffer length head next sa =
  Some (true, set_next next (buffer + 12),
  write m buffer (attr_bytes TYPE (xor_content key (V4 port ip)))).
Proof using All.
  intros Hh. pose proof Hm as [Hp _]. pose proof Hsa as (_ & _ & [Hsp _]).
  pose proof (fun bs => fields_after m buffer sa (V4 port ip) 12 bs Hsa Hwf Hd) as FA.
  pose proof Hwf as (Hport & Hbip & Hip). pose proof (port_xor_range port Hport) as Hpx.
  unfold is_u16 in Hpx. unfold xor_address_encode, NULL. decide_guard.
  family_steps m buffer 12 FA TYPE.
  destruct (FA (be16 TYPE ++ be16 8 ++ [0] ++ [1]) ltac:(zlia)) as [_ [F1 _]].
  destruct (load16_be _ _ _ F1 Hport) as (w & -> & Ew). cbn [mbind option_bind]. rewrite Ew.
  rewrite (store16_htons _ buffer 12) by buffer_ok. cbn [mbind option_bind]. merge buffer.
  destruct (FA (be16 TYPE ++ be16 8 ++ [0] ++ [1] ++ be16 (port .^ 0x2112)) ltac:(zlia)) as [_ [_ F2]].
  destruct (load32_be _ _ _ F2 Hbip Hip) as (v & -> & Ev & Rv). cbn [mbind option_bind].
  rewrite (store32_htonl _ buffer 12) by first [by apply (lxor_bound _ _ 32)|buffer_ok].
  cbn [mbind option_bind]. merge buffer. rewrite (cookie_xor ip Hip _ Ev).
  unfold attr_bytes. rewrite (Zlen_xor_content_v4 key port ip Hip).
  unfold xor_content. rewrite <- !app_assoc, app_nil_r. by rewrite <- (Z.add_assoc buffer 4 8).
Qed.

Lemma plain_encode_v4 :
  address_encode TYPE m buffer length next sa =
  Some (true, set_next next (buffer + 12),
  write m buffer (attr_bytes TYPE (plain_content (V4 port ip)))).
Proof using All.
  pose proof Hm as [Hp _]. pose proof Hsa as (_ & _ & [Hsp _]).
  pose proof (fun bs => fields_after m buffer sa (V4 port ip) 12 bs Hsa Hwf Hd) as FA.
  pose proof Hwf as (Hport & Hbip & Hip). unfold address_encode, NULL. decide_guard.
  family_steps m buffer 12 FA TYPE.
  destruct (FA (be16 TYPE ++ be16 8 ++ [0] ++ [1]) ltac:(zlia)) as [_ [F1 _]].
  rewrite (memcpy_region _ _ _ (be16 port) 2 buffer 12) by (auto with ov; buffer_ok).
  cbn [mbind option_bind]. merge buffer.
  destruct (FA (be16 TYPE ++ be16 8 ++ [0] ++ [1] ++ be16 port) ltac:(zlia)) as [_ [_ F2]].
  rewrite (memcpy_region _ _ _ ip 4 buffer 12) by buffer_ok. cbn [mbind option_bind]. merge buffer.
  unfold attr_bytes. rewrite Zlen_plain_content by done. unfold plain_content.
  rewrite <- !app_assoc, app_nil_r. by rewrite <- (Z.add_assoc buffer 4 8).
Qed.
End EncodeV4.

Section EncodeV6.
Context (Hwf : address_wf (V6 port ip)) (Hsa : sockaddr_at m sa (V6 port ip)).
Context (Hm : mapped m buffer 24) (Hl : 24 <= length).
Context (Hd : buffer + 24 <= sa \/ sa + 24 <= buffer).

Lemma xor_encode_v6 head key :
  region m (head + 4) key -> Zlen key = 16 -> bytes key -> 0 < head ->
  buffer + 24 <= head + 4 \/ head + 20 <= buffer ->
  xor_address_encode TYPE m buffer length head next sa =
  Some (true, set_next next (buffer + 24),
  write m buffer (attr_bytes TYPE (xor_content key (V6 port ip)))).
Proof using All.
  intros Hk Hk16 Hbk Hh Hdk. pose proof Hm as [Hp _]. pose proof Hsa as (_ & _ & [Hsp _]).
  pose proof (fun bs => fields_after m buffer sa (V6 port ip) 24 bs Hsa Hwf Hd) as FA.
  pose proof Hwf as (Hport & Hbip & Hip). pose proof (port_xor_range port Hport) as Hpx.
  unfold is_u16 in Hpx. unfold xor_address_encode, NULL. decide_guard.
  family_steps m buffer 24 FA TYPE.
  destruct (FA (be16 TYPE ++ be16 20 ++ [0] ++ [2]) ltac:(zlia)) as [_ [F1 _]].
  destruct (load16_be _ _ _ F1 Hport) as (w & -> & Ew). cbn [mbind option_bind]. rewrite Ew.
  rewrite (store16_htons _ buffer 24) by buffer_ok. cbn [mbind option_bind]. merge buffer.
  destruct (FA (be16 TYPE ++ be16 20 ++ [0] ++ [2] ++ be16 (port .^ 0x2112)) ltac:(zlia)) as [_ [_ F2]].
  rewrite (memcpy_region _ _ _ ip 16 buffer 24) by buffer_ok. cbn [mbind option_bind].
  replace 16%nat with (Datatypes.length ip) by (unfold Zlen in Hip; lia).
  rewrite (xor_loop_spec _ (buffer + (4 + 4)) (head + 4) ip key buffer 24)
    by first [ apply region_write; lia | by repeat (apply region_write_out; [|zlia]) | buffer_ok ].
  cbn [mbind option_bind]. rewrite write_overwrite by zlia. merge buffer.
  unfold attr_bytes. rewrite Zlen_xor_content by done.
  unfold xor_content. rewrite <- !app_assoc, app_nil_r. by rewrite <- (Z.add_assoc buffer 4 20).
Qed.

(** The family octet of the plain encoders is 1 for both families. *)
Lemma plain_encode_v6 :
  address_encode TYPE m buffer length next sa =
  Some (true, set_next next (buffer + 24),
  write m buffer (attr_bytes TYPE ([0; 1] ++ be16 port ++ ip))).
Proof using All.
  pose proof Hm as [Hp _]. pose proof Hsa as (_ & _ & [Hsp _]).
  pose proof (fun bs => fields_after m buffer sa (V6 port ip) 24 bs Hsa Hwf Hd) as FA.
  pose proof Hwf as (Hport & Hbip & Hip). unfold address_encode, NULL. decide_guard.
  family_steps m buffer 24 FA TYPE.
  destruct (FA (be16 TYPE ++ be16 20 ++ [0] ++ [1]) ltac:(zlia)) as [_ [F1 _]].
  rewrite (memcpy_region _ _ _ (be16 port) 2 buffer 24) by (auto with ov; buffer_ok).
  cbn [mbind option_bind]. merge buffer.
  destruct (FA (be16 TYPE ++ be16 20 ++ [0] ++ [1] ++ be16 port) ltac:(zlia)) as [_ [_ F2]].
  rewrite (memcpy_region _ _ _ ip 16 buffer 24) by buffer_ok. cbn [mbind option_bind]. merge buffer.
  unfold attr_bytes. replace (Zlen ([0; 1] ++ be16 port ++ ip)) with 20 by zlia.
  rewrite <- !app_assoc, app_nil_r. by rewrite <- (Z.add_assoc buffer 4 20).
Qed.
End EncodeV6.
End Encode.

(** ** Decoding *)

Lemma frame_is_address_attr TYPE m p t c length :
  attr_at m p t c -> is_u16 t -> is_u16 (Zlen c) -> 12 <= length -> 2 <= Zlen c ->
  frame_is_address TYPE m p length =
    Some ((t =? TYPE) && (((c.[1] =? 1) && (Zlen c =? 8)) || ((c.[1] =? 2) && (Zlen c =? 20)))).
Proof.
  intros Ha Ht Hc Hl H2. pose proof Ha as [Hp _]. unfold frame_is_address, NULL. decide_guard.
  rewrite (get_type_attr m p t c), (get_length_attr m p t c) by (done || lia). cbn [mbind option_bind].
  destruct (Z.eqb_spec t TYPE); cbn [negb andb]; [|done].
  rewrite (load8_region_at m (p + 4) c) by first [by eapply attr_at_content|lia].
  cbn [mbind option_bind]. replace (p + 5 - (p + 4)) with 1 by lia.
  destruct (Z.eqb_spec c.[1] 1) as [->|]; cbn [andb orb].
  - change (1 =? 2) with false. rewrite andb_false_l, orb_false_r. by destruct (Zlen c =? 8).
  - destruct (Z.eqb_spec c.[1] 2); cbn [andb]; [|done]. by destruct (Zlen c =? 20).
Qed.

(** The 128 octets of a decoded socket address. *)
Definition decoded (a : address) : list Z :=
  sockaddr_bytes (zeros 4) a ++ zeros (sizeof_sockaddr_storage - sockaddr_size a).

Lemma Zlen_decoded a : address_wf a -> Zlen (decoded a) = 128.
Proof.
  destruct a; intros (_ & _ & ?); unfold decoded, sockaddr_bytes, sockaddr_size,
    sizeof_sockaddr_storage; zlia.
Qed.
Lemma decoded_at m sa a : region m sa (decoded a) -> sockaddr_at m sa a.
Proof. intros H. exists (zeros 4). split; [done|]. by apply region_app_l in H. Qed.

Ltac splice l1 :=
  match goal with
  | |- context [write (write ?m ?p (l1 ++ ?old ++ ?l2)) ?q ?new] =>
      rewrite (write_mid m p l1 old new l2 q) by (unfold sin_port, sin_addr, sin6_addr; zlia)
  end.

Section DecodeInto.
Context (m : mem) (p head sa port : Z) (ip key : list Z) (created : bool).
Context (Hsa : mapped m sa 128) (Hport : is_u16 port) (Hbip : bytes ip).

Lemma xor_decode_into_v4 :
  Zlen ip = 4 -> region m p (xor_content key (V4 port ip)) -> p + 8 <= sa \/ sa + 128 <= p ->
  xor_decode_into m p head created sa = Some (true, sa, write m sa (decoded (V4 port ip))).
Proof using All.
  intros Hip Hc Hd. unfold xor_decode_into, sizeof_sockaddr_storage.
  rewrite (memset_0 m sa 128) by (done || lia). cbn [mbind option_bind].
  pose proof (Zlen_xor_content_v4 key port ip Hip) as Hx.
  assert (Hc' : forall bs, Zlen bs = 128 -> region (write m sa bs) p (xor_content key (V4 port ip)))
    by (intros; apply region_write_out; [done|lia]).
  rewrite (load8_region_at _ p _ (p + 1) (Hc' (zeros 128) eq_refl)) by lia. cbn [mbind option_bind].
  replace (p + 1 - p) with 1 by lia. cbn [xor_content app].
  change ((0 :: 1 :: _).[1] =? 1) with true. cbn match.
  change (zeros 128) with ([] ++ zeros 2 ++ zeros 126).
  rewrite (store16_mapped _ sa 128) by buffer_ok. cbn [mbind option_bind].
  change [u8 AF_INET; u8 (AF_INET .>> 8)] with [2; 0]. splice (@nil Z).
  change (zeros 126) with (zeros 2 ++ zeros 124). rewrite app_nil_l.
  pose proof (port_xor_range port Hport) as Hpx.
  assert (Hw : forall bs, Zlen bs = 128 -> exists w, load16 (write m sa bs) (p + 2) = Some w /\
    ntohs w = port .^ 0x2112).
  { intros bs Hbs. apply load16_be; [|done]. specialize (Hc' bs Hbs). cbn [xor_content] in Hc'.
    eapply region_app_l, region_app_r; [exact Hc'|done]. }
  destruct (Hw ([2; 0] ++ zeros 2 ++ zeros 124) eq_refl) as (w & -> & Ew). cbn [mbind option_bind].
  rewrite Ew, Z.lxor_assoc, Z.lxor_nilpotent, Z.lxor_0_r.
  rewrite (store16_htons _ sa 128) by (unfold sin_port; buffer_ok). cbn [mbind option_bind].
  splice [2; 0]. change (zeros 124) with (zeros 4 ++ zeros 120).
  assert (Hv : exists v, load32 (write m sa ([2; 0] ++ be16 port ++ zeros 4 ++ zeros 120)) (p + 4) = Some v /\
    be32 (ntohl v) = xor_bytes ip magic_cookie /\ 0 <= ntohl v < 2 ^ 32).
  { apply load32_be; [| |zlia].
    - specialize (Hc' ([2; 0] ++ be16 port ++ zeros 4 ++ zeros 120) eq_refl).
      by apply (region_app_r _ p (p + 4) ([0; 1] ++ be16 (port .^ 0x2112)) _ Hc').
    - apply bytes_xor; [done|]. repeat constructor; unfold is_byte; lia. }
  destruct Hv as (v & -> & Ev & Rv). cbn [mbind option_bind].
  rewrite (store32_htonl _ sa 128) by first [by apply (lxor_bound _ _ 32)|unfold sin_addr; buffer_ok].
  cbn [mbind option_bind]. rewrite (app_assoc [2; 0]). splice ([2; 0] ++ be16 port).
  rewrite be32_lxor, Ev. change (be32 0x2112A442) with magic_cookie.
  rewrite xor_bytes_involutive by zlia. unfold decoded, sockaddr_bytes. by rewrite <- !app_assoc.
Qed.

Lemma xor_decode_into_v6 :
  Zlen ip = 16 -> Zlen key = 16 -> bytes key ->
  region m p (xor_content key (V6 port ip)) -> p + 20 <= sa \/ sa + 128 <= p ->
  region m (head + 4) key -> head + 20 <= sa \/ sa + 128 <= head + 4 ->
  xor_decode_into m p head created sa = Some (true, sa, write m sa (decoded (V6 port ip))).
Proof using All.
  intros Hip Hk Hbk Hc Hd Hh Hdh. unfold xor_decode_into, sizeof_sockaddr_storage.
  rewrite (memset_0 m sa 128) by (done || lia). cbn [mbind option_bind].
  assert (Hx : Zlen (xor_content key (V6 port ip)) = 20) by (unfold xor_content; zlia).
  assert (Hc' : forall bs, Zlen bs = 128 -> region (write m sa bs) p (xor_content key (V6 port ip)))
    by (intros; apply region_write_out; [done|lia]).
  assert (Hh' : forall bs, Zlen bs = 128 -> region (write m sa bs) (head + 4) key)
    by (intros; apply region_write_out; [done|lia]).
  rewrite (load8_region_at _ p _ (p + 1) (Hc' (zeros 128) eq_refl)) by lia. cbn [mbind option_bind].
  replace (p + 1 - p) with 1 by lia. cbn [xor_content app].
  change ((0 :: 2 :: _).[1] =? 1) with false. change ((0 :: 2 :: _).[1] =? 2) with true. cbn match.
  change (zeros 128) with ([] ++ zeros 2 ++ zeros 126).
  rewrite (store16_mapped _ sa 128) by buffer_ok. cbn [mbind option_bind].
  change [u8 AF_INET6; u8 (AF_INET6 .>> 8)] with [10; 0]. splice (@nil Z).
  change (zeros 126) with (zeros 2 ++ zeros 124). rewrite app_nil_l.
  pose proof (port_xor_range port Hport) as Hpx.
  assert (Hw : forall bs, Zlen bs = 128 -> exists w, load16 (write m sa bs) (p + 2) = Some w /\
    ntohs w = port .^ 0x2112).
  { intros bs Hbs. apply load16_be; [|done]. specialize (Hc' bs Hbs). cbn [xor_content] in Hc'.
    eapply region_app_l, region_app_r; [exact Hc'|done]. }
  destruct (Hw ([10; 0] ++ zeros 2 ++ zeros 124) eq_refl) as (w & -> & Ew). cbn [mbind option_bind].
  rewrite Ew, Z.lxor_assoc, Z.lxor_nilpotent, Z.lxor_0_r.
  rewrite (store16_htons _ sa 128) by (unfold sin_port; buffer_ok). cbn [mbind option_bind].
  splice [10; 0]. change (zeros 124) with (zeros 4 ++ zeros 16 ++ zeros 104).
  rewrite (memcpy_region _ _ _ (xor_bytes ip key) 16 sa 128).
  2:{ specialize (Hc' ([10; 0] ++ be16 port ++ zeros 4 ++ zeros 16 ++ zeros 104) eq_refl).
    cbn [xor_content] in Hc'. by apply (region_app_r _ p (p + 4) ([0; 2] ++ be16 (port .^ 0x2112)) _ Hc'). }
  2-6: unfold sin6_addr; first [by apply bytes_xor | buffer_ok].
  cbn [mbind option_bind]. change (zeros 4 ++ zeros 16 ++ zeros 104)
    with (zeros 4 ++ (zeros 16 ++ zeros 104)).
  rewrite !(app_assoc _ _ (zeros 16 ++ _)). splice ([10; 0] ++ be16 port ++ zeros 4).
  replace 16%nat with (length (xor_bytes ip key)) by (pose proof (Zlen_xor_bytes ip key); unfold Zlen in *; lia).
  rewrite (xor_loop_spec _ (sin6_addr sa) (head + 4) (xor_bytes ip key) key sa 128).
  - cbn [mbind option_bind]. rewrite xor_bytes_involutive by lia.
    splice ([10; 0] ++ be16 port ++ zeros 4). unfold decoded, sockaddr_bytes. by rewrite <- !app_assoc.
  - eapply region_app_l, region_app_r; [apply region_write; destruct Hsa; lia|unfold sin6_addr; done].
  - apply Hh'. zlia.
  - by apply bytes_xor.
  - done.
  - zlia.
  - buffer_ok.
  - unfold sin6_addr. lia.
  - unfold sin6_addr. zlia.
  - unfold sin6_addr. zlia.
Qed.
End DecodeInto.

Section PlainDecode.
Context (m : mem) (p sa port : Z) (ip : list Z) (created : bool).
Context (Hsa : mapped m sa 128) (Hport : is_u16 port) (Hbip : bytes ip).

Lemma decode_into_v4 :
  Zlen ip = 4 -> region m p (plain_content (V4 port ip)) -> p + 8 <= sa \/ sa + 128 <= p ->
  decode_into m p created sa = Some (true, sa, write m sa (sockaddr_bytes [] (V4 port ip))).
Proof using All.
  intros Hip Hc Hd. unfold decode_into. rewrite (load8_region_at _ p _ (p + 1) Hc) by (cbn [plain_content]; zlia).
  cbn [mbind option_bind]. replace (p + 1 - p) with 1 by lia. cbn [plain_content] in Hc |- *.
  change (([0; 1] ++ _).[1] =? 1) with true. cbn match.
  rewrite (store16_mapped _ sa 128) by buffer_ok. cbn [mbind option_bind].
  change [u8 AF_INET; u8 (AF_INET .>> 8)] with [2; 0].
  assert (Hc' : forall bs, Zlen bs <= 128 -> region (write m sa bs) p ([0; 1] ++ be16 port ++ ip))
    by (intros; apply region_write_out; [done|zlia]).
  rewrite (memcpy_region _ _ _ (be16 port) 2 sa 128)
    by first [ by eapply region_app_l, region_app_r; [apply Hc'; done|done]
    | by auto with ov | unfold sin_port; buffer_ok ].
  cbn [mbind option_bind]. rewrite (write_app m sa) by done.
  rewrite (memcpy_region _ _ _ ip 4 sa 128)
    by first [ by apply (region_app_r _ p (p + 4) ([0; 1] ++ be16 port) _ (Hc' ([2; 0] ++ be16 port) ltac:(zlia)))
    | unfold sin_addr; buffer_ok ].
  cbn [mbind option_bind]. rewrite (write_app m sa) by done. by rewrite <- app_assoc.
Qed.

Lemma decode_into_v6 :
  Zlen ip = 16 -> region m p (plain_content (V6 port ip)) -> p + 20 <= sa \/ sa + 128 <= p ->
  decode_into m p created sa =
  Some (true, sa, write (write m sa ([10; 0] ++ be16 port)) (sin6_addr sa) ip).
Proof using All.
  intros Hip Hc Hd. unfold decode_into. rewrite (load8_region_at _ p _ (p + 1) Hc) by (cbn [plain_content]; zlia).
  cbn [mbind option_bind]. replace (p + 1 - p) with 1 by lia. cbn [plain_content] in Hc |- *.
  change (([0; 2] ++ _).[1] =? 1) with false. change (([0; 2] ++ _).[1] =? 2) with true. cbn match.
  rewrite (store16_mapped _ sa 128) by buffer_ok. cbn [mbind option_bind].
  change [u8 AF_INET6; u8 (AF_INET6 .>> 8)] with [10; 0].
  assert (Hc' : forall bs, Zlen bs <= 128 -> region (write m sa bs) p ([0; 2] ++ be16 port ++ ip))
    by (intros; apply region_write_out; [done|zlia]).
  rewrite (memcpy_region _ _ _ (be16 port) 2 sa 128)
    by first [ by eapply region_app_l, region_app_r; [apply Hc'; done|done]
    | by auto with ov | unfold sin_port; buffer_ok ].
  cbn [mbind option_bind]. rewrite (write_app m sa) by done.
  rewrite (memcpy_region _ _ _ ip 16 sa 128)
    by first [ by apply (region_app_r _ p (p + 4) ([0; 2] ++ be16 port) _ (Hc' ([10; 0] ++ be16 port) ltac:(zlia)))
    | unfold sin6_addr; buffer_ok ].
  done.
Qed.
End PlainDecode.

Lemma mapped_region m p n : mapped m p n -> 0 <= n -> exists l, Zlen l = n /\ region m p l.
Proof.
  intros [Hp H] Hn. exists ((fun i => default 0 (m !! (p + i))) <$> seqZ 0 n).
  assert (Hl : Zlen ((fun i => default 0 (m !! (p + i))) <$> seqZ 0 n) = n)
    by (unfold Zlen; rewrite length_fmap, length_seqZ; lia).
  split; [done|]. split; [done|]. intros i Hi. rewrite Hl in Hi.
  destruct (H i Hi) as [x Hx]. rewrite Hx. f_equal. unfold znth. symmetry. apply nth_lookup_Some.
  rewrite list_lookup_fmap, (lookup_seqZ_lt 0 n) by lia. simpl.
  rewrite Z2Nat.id by lia. by rewrite Z.add_0_l, Hx.
Qed.

Lemma sockaddr_at_v6_parts m sa port ip :
  mapped m sa 128 -> Zlen ip = 16 ->
  sockaddr_at (write (write m sa ([10; 0] ++ be16 port)) (sin6_addr sa) ip) sa (V6 port ip).
Proof.
  intros Hm Hip. pose proof Hm as [Hp _].
  destruct (mapped_region m (sa + 4) 4) as (flow & Hf & Hr); [eapply mapped_sub; [done|lia|lia]|lia|].
  exists flow. split; [done|]. unfold sockaddr_bytes, sin6_addr. rewrite (app_assoc [10; 0]).
  apply region_app. split; [apply region_write_out; [by apply region_write|right; zlia]|].
  intros _. apply region_app. change (Zlen ([10; 0] ++ be16 port)) with 4. split.
  - repeat (apply region_write_out; [|zlia]). done.
  - intros _. rewrite Hf. replace (sa + 4 + 4) with (sa + 8) by lia. apply region_write. lia.
Qed.

(** *** Decoding into [*address], allocated or not *)

Definition xor_decodes TYPE (m : mem) (buffer length head : Z) (a : address) : Prop :=
  forall addr out, addr <> NULL ->
    out = NULL \/ mapped m out 128 /\ (buffer + (4 + content_size a) <= out \/ out + 128 <= buffer) /\
                  (head + 20 <= out \/ out + 128 <= head) ->
    exists out' m', xor_address_decode TYPE m buffer length head addr out = Some (true, out', m') /\
      out' = (if out =? NULL then fresh m else out) /\
      m' = write m out' (decoded a).
Definition plain_decodes TYPE (m : mem) (buffer length : Z) (a : address) : Prop :=
  forall addr out, addr <> NULL ->
    out = NULL \/ mapped m out 128 /\ (buffer + (4 + content_size a) <= out \/ out + 128 <= buffer) ->
    exists out' m', address_decode TYPE m buffer length addr out = Some (true, out', m') /\
      out' = (if out =? NULL then fresh m else out) /\ sockaddr_at m' out' a.

Lemma fresh_mapped m : mapped (write m (fresh m) (zeros 128)) (fresh m) 128.
Proof.
  pose proof (fresh_spec m) as [? _]. eapply region_mapped_le; [apply region_write; lia|done].
Qed.
Lemma fresh_above m p l : region m p l -> l <> [] -> p + Zlen l <= fresh m.
Proof.
  intros H Hl. apply fresh_region_out; [done|]. destruct l; [done|]. zlia.
Qed.

Lemma xor_decode_spec TYPE m buffer length head key a :
  is_u16 TYPE -> address_wf a -> attr_at m buffer TYPE (xor_content key a) ->
  4 + content_size a <= length -> region m (head + 4) key -> Zlen key = 16 -> bytes key -> 0 < head ->
  xor_decodes TYPE m buffer length head a.
Proof.
  intros HT Hwf Ha Hl Hk Hk16 Hbk Hh addr out Haddr Hout. pose proof Ha as [Hp _].
  pose proof (Zlen_xor_content key a Hwf Hk16) as Hx. unfold xor_address_decode, NULL in *.
  assert (12 <= length) by (destruct a; unfold content_size in *; lia). decide_guard.
  rewrite (frame_is_address_attr TYPE m buffer TYPE (xor_content key a))
    by (destruct a; unfold is_u16, content_size in *; (done || lia)).
  cbn [mbind option_bind]. rewrite Z.eqb_refl, Hx.
  replace (negb _) with false by by destruct a.
  pose proof (attr_at_content _ _ _ _ Ha) as Hc.
  assert (Hinto : forall m0 sa cr, mapped m0 sa 128 -> region m0 (buffer + 4) (xor_content key a) ->
            region m0 (head + 4) key -> buffer + (4 + content_size a) <= sa \/ sa + 128 <= buffer ->
            head + 20 <= sa \/ sa + 128 <= head ->
            xor_decode_into m0 (buffer + 4) head cr sa = Some (true, sa, write m0 sa (decoded a))).
  { intros m0 sa cr Hm0 Hc0 Hk0 Hd1 Hd2. destruct a as [port ip|port ip]; destruct Hwf as (Hport & Hb & Hip);
      unfold content_size in *.
    - apply (xor_decode_into_v4 _ _ _ _ _ _ key); (done || lia).
    - apply (xor_decode_into_v6 _ _ _ _ _ _ key); (done || lia). }
  destruct Hout as [-> | (Hm & Hd1 & Hd2)].
  - cbn [Z.eqb]. unfold calloc, sizeof_sockaddr_storage.
    pose proof (fresh_above m (buffer + 4) _ Hc) as F1. pose proof (fresh_above m (head + 4) _ Hk) as F2.
    specialize (F1 ltac:(by destruct a)). specialize (F2 ltac:(intros ->; done)).
    rewrite Hx in F1. rewrite (Hinto (write m (fresh m) (zeros 128)) (fresh m) true).
    + eexists _, _. split; [done|]. split; [done|]. apply write_overwrite. rewrite Zlen_decoded by done. done.
    + apply fresh_mapped.
    + apply region_write_out; [done|lia].
    + apply region_write_out; [done|lia].
    + lia.
    + lia.
  - pose proof Hm as [Hop _]. replace (out =? 0) with false by lia.
    rewrite Hinto by done. eauto.
Qed.

Lemma plain_decode_spec TYPE m buffer length a :
  is_u16 TYPE -> address_wf a -> attr_at m buffer TYPE (plain_content a) ->
  4 + content_size a <= length -> plain_decodes TYPE m buffer length a.
Proof.
  intros HT Hwf Ha Hl addr out Haddr Hout. pose proof Ha as [Hp _].
  pose proof (Zlen_plain_content a Hwf) as Hx. unfold address_decode, NULL in *.
  assert (12 <= length) by (destruct a; unfold content_size in *; lia). decide_guard.
  rewrite (frame_is_address_attr TYPE m buffer TYPE (plain_content a))
    by (destruct a; unfold is_u16, content_size in *; (done || lia)).
  cbn [mbind option_bind]. rewrite Z.eqb_refl, Hx.
  replace (negb _) with false by by destruct a.
  pose proof (attr_at_content _ _ _ _ Ha) as Hc.
  assert (Hinto : forall m0 sa cr, mapped m0 sa 128 -> region m0 (buffer + 4) (plain_content a) ->
            buffer + (4 + content_size a) <= sa \/ sa + 128 <= buffer ->
            exists m', decode_into m0 (buffer + 4) cr sa = Some (true, sa, m') /\ sockaddr_at m' sa a).
  { intros m0 sa cr Hm0 Hc0 Hd. pose proof Hm0 as [Hsp _].
    destruct a as [port ip|port ip]; destruct Hwf as (Hport & Hb & Hip); unfold content_size in *.
    - eexists. split; [apply decode_into_v4; (done || lia)|]. exists (zeros 4). split; [done|].
      by apply region_write.
    - eexists. split; [apply decode_into_v6; (done || lia)|]. by apply sockaddr_at_v6_parts. }
  destruct Hout as [-> | (Hm & Hd)].
  - cbn [Z.eqb]. unfold calloc, sizeof_sockaddr_storage.
    pose proof (fresh_above m (buffer + 4) _ Hc) as F1. specialize (F1 ltac:(by destruct a)).
    rewrite Hx in F1. destruct (Hinto (write m (fresh m) (zeros 128)) (fresh m) true) as (m' & E & Hat).
    + apply fresh_mapped.
    + apply region_write_out; [done|lia].
    + lia.
    + eauto.
  - pose proof Hm as [Hop _]. replace (out =? 0) with false by lia.
    destruct (Hinto m out false) as (m' & E & Hat); [done|done|done|]. eauto.
Qed.

(** ** The five attributes *)

(** The operations of an attribute, its type first: frame check, length,
    encoder, decoder. *)
Record xor_codec := XorCodec {
  xc_type : Z;
  xc_is : mem -> ptr -> Z -> option bool;
  xc_length : mem -> ptr -> option Z;
  xc_encode : mem -> ptr -> Z -> ptr -> ptr -> ptr -> encoded;
  xc_decode : mem -> ptr -> Z -> ptr -> ptr -> ptr -> option (bool * ptr * mem)
}.
Definition xor_codecs : list xor_codec :=
  [ XorCodec STUN_XOR_MAPPED_ADDRESS ov_stun_attribute_frame_is_xor_mapped_address
      ov_stun_xor_mapped_address_encoding_length ov_stun_xor_mapped_address_encode
      ov_stun_xor_mapped_address_decode;
    XorCodec TURN_XOR_PEER_ADDRESS ov_turn_attr_frame_is_xor_peer_address
      ov_turn_attr_xor_peer_address_encoding_length ov_turn_attr_xor_peer_address_encode
      ov_turn_attr_xor_peer_address_decode;
    XorCodec TURN_XOR_RELAYED_ADDRESS ov_turn_attr_frame_is_xor_relayed_address
      ov_turn_attr_xor_relayed_address_encoding_length ov_turn_attr_xor_relayed_address_encode
      ov_turn_attr_xor_relayed_address_decode ].
Record plain_codec := PlainCodec {
  pc_type : Z;
  pc_is : mem -> ptr -> Z -> option bool;
  pc_length : mem -> ptr -> option Z;
  pc_encode : mem -> ptr -> Z -> ptr -> ptr -> encoded;
  pc_decode : mem -> ptr -> Z -> ptr -> ptr -> option (bool * ptr * mem)
}.
Definition plain_codecs : list plain_codec :=
  [ PlainCodec STUN_MAPPED_ADDRESS ov_stun_attribute_frame_is_mapped_address
      ov_stun_mapped_address_encoding_length ov_stun_mapped_address_encode
      ov_stun_mapped_address_decode;
    PlainCodec STUN_ALTERNATE_SERVER ov_stun_attribute_frame_is_alternate_server
      ov_stun_alternate_server_encoding_length ov_stun_alternate_server_encode
      ov_stun_alternate_server_decode ].

Lemma encoding_length_spec m sa a :
  sockaddr_at m sa a -> address_wf a -> address_encoding_length m sa = Some (4 + content_size a).
Proof.
  intros Hs Hwf. pose proof Hs as (_ & _ & [Hp _]). unfold address_encoding_length, NULL. decide_guard.
  rewrite (proj1 (sockaddr_fields m sa a Hs Hwf)). by destruct a.
Qed.

(** ** Properties *)

(** The three XOR-ed address attributes carry any IPv4 or IPv6 transport
    address faithfully. The encoder writes exactly the attribute RFC 5389
    prescribes (the port and address combined with magic cookie and transaction
    id), of the length announced by [encoding_length]; the frame check accepts
    it; and the decoder restores the address, into the caller's structure or
    into a fresh one when [*address] is [NULL]. *)
Lemma xor_address_roundtrip m buffer length head next sa key a :
  address_wf a -> sockaddr_at m sa a ->
  mapped m buffer (4 + content_size a) -> 4 + content_size a <= length ->
  buffer + (4 + content_size a) <= sa \/ sa + sockaddr_size a <= buffer ->
  region m (head + 4) key -> Zlen key = 16 -> bytes key -> 0 < head ->
  buffer + (4 + content_size a) <= head + 4 \/ head + 20 <= buffer ->
  Forall (fun c =>
    let n := 4 + content_size a in
    let m' := write m buffer (be16 (xc_type c) ++ be16 (content_size a) ++ xor_content key a) in
    xc_length c m sa = Some n /\
    xc_encode c m buffer length head next sa = Some (true, set_next next (buffer + n), m') /\
    xc_is c m' buffer length = Some true /\
    (exists m'', xc_decode c m' buffer length head LOCAL NULL = Some (true, fresh m', m'') /\
                 sockaddr_at m'' (fresh m') a) /\
    (forall out, mapped m' out 128 -> buffer + n <= out \/ out + 128 <= buffer ->
       head + 20 <= out \/ out + 128 <= head ->
       exists m'', xc_decode c m' buffer length head LOCAL out = Some (true, out, m'') /\
                   sockaddr_at m'' out a))
    xor_codecs.
Proof.
  intros Hwf Hsa Hm Hl Hd Hk Hk16 Hbk Hh Hdk. pose proof Hm as [Hp _].
  assert (Hgen : forall T, is_u16 T ->
    let n := 4 + content_size a in
    let m' := write m buffer (be16 T ++ be16 (content_size a) ++ xor_content key a) in
    address_encoding_length m sa = Some n /\
    xor_address_encode T m buffer length head next sa = Some (true, set_next next (buffer + n), m') /\
    frame_is_address T m' buffer length = Some true /\
    (exists m'', xor_address_decode T m' buffer length head LOCAL NULL = Some (true, fresh m', m'') /\
                 sockaddr_at m'' (fresh m') a) /\
    (forall out, mapped m' out 128 -> buffer + n <= out \/ out + 128 <= buffer ->
       head + 20 <= out \/ out + 128 <= head ->
       exists m'', xor_address_decode T m' buffer length head LOCAL out = Some (true, out, m'') /\
                   sockaddr_at m'' out a)).
  2:{ unfold xor_codecs. do 3 (apply Forall_cons_2; [refine (Hgen _ _); unfold is_u16; vm_compute;
        split; (discriminate || reflexivity)|]). apply Forall_nil_2. }
  intros T HT n m'.
  pose proof (Zlen_xor_content key a Hwf Hk16) as Hx.
  assert (Em : m' = write m buffer (attr_bytes T (xor_content key a))).
  { unfold m', attr_bytes. rewrite Hx. replace (padding (content_size a)) with 0 by by destruct a.
    by rewrite app_nil_r. }
  assert (Ha : attr_at m' buffer T (xor_content key a)) by (rewrite Em; by apply attr_bytes_at, region_write).
  assert (Hk' : region m' (head + 4) key).
  { rewrite Em. apply region_write_out; [done|]. rewrite Zlen_attr_bytes, Hx, attr_size_address. lia. }
  pose proof (xor_decode_spec T m' buffer length head key a HT Hwf Ha Hl Hk' Hk16 Hbk Hh) as Hdec.
  split; [by apply encoding_length_spec|].
  split. { rewrite Em. destruct a; unfold n, content_size, sockaddr_size in *;
    [apply xor_encode_v4 | apply xor_encode_v6]; (done || lia). }
  split. { rewrite (frame_is_address_attr T m' buffer T (xor_content key a))
    by (destruct a; unfold is_u16, content_size in *; (done || lia)).
    rewrite Z.eqb_refl, Hx. by destruct a. }
  split.
  - destruct (Hdec LOCAL NULL) as (out' & m'' & E & -> & ->); [done|by left|].
    eexists. split; [exact E|]. apply decoded_at, region_write.
    pose proof (fresh_spec m') as [? _]. change (0 < fresh m'). lia.
  - intros out Ho Hd1 Hd2. destruct (Hdec LOCAL out) as (out' & m'' & E & Eo & ->); [done|by right|].
    pose proof Ho as [Hop _]. rewrite (proj2 (Z.eqb_neq out NULL)) in Eo by (unfold NULL; lia). subst out'.
    eexists. split; [exact E|]. by apply decoded_at, region_write.
Qed.

Lemma xor_address_roundtrip_witness :
  exists m', ov_stun_xor_mapped_address_encode
    (write (write (write ∅ 16 (zeros 12)) 64 ([2; 0] ++ be16 5060 ++ [192; 0; 2; 1])) 128
       (header_bytes 1 1 12 (zeros 12))) 16 12 128 1 64 = Some (true, set_next 1 28, m') /\
    ov_stun_attribute_frame_is_xor_mapped_address m' 16 12 = Some true.
Proof.
  pose proof (xor_address_roundtrip
    (write (write (write ∅ 16 (zeros 12)) 64 ([2; 0] ++ be16 5060 ++ [192; 0; 2; 1])) 128
       (header_bytes 1 1 12 (zeros 12))) 16 12 128 1 64 (magic_cookie ++ zeros 12)
    (V4 5060 [192; 0; 2; 1])) as H.
  apply Forall_cons in H as [H _].
  - eexists. split; [exact (proj1 (proj2 H))|exact (proj1 (proj2 (proj2 H)))].
  - split; [unfold is_u16; lia|]. split; [repeat constructor; unfold is_byte; lia|reflexivity].
  - exists (zeros 4). split; [reflexivity|]. apply region_write_out; [apply region_write; lia|].
    right. vm_compute. discriminate.
  - do 2 apply mapped_write. apply (region_mapped _ 16 (zeros 12)), region_write. lia.
  - vm_compute. discriminate.
  - left. vm_compute. discriminate.
  - apply (region_app_r _ 128 _ [1; 1; 0; 12]); [apply region_write; lia|reflexivity].
  - reflexivity.
  - apply (bool_decide_unpack _). vm_compute. exact I.
  - lia.
  - left. vm_compute. discriminate.
Defined.

(** MAPPED-ADDRESS and ALTERNATE-SERVER: every attribute in the format of
    RFC 5389, 15.1, IPv4 or IPv6, is accepted by the frame check and decodes to
    its address; an IPv4 address is encoded in that format. An IPv6 address is
    encoded with the family octet of IPv4: the encoder reports success, and
    the decoder of the same module refuses what it wrote. *)
Theorem plain_address_codec m buffer length next sa a :
  address_wf a -> mapped m buffer (4 + content_size a) -> 4 + content_size a <= length ->
  Forall (fun c =>
    let n := 4 + content_size a in
    (attr_at m buffer (pc_type c) (plain_content a) ->
     pc_is c m buffer length = Some true /\
     exists m', pc_decode c m buffer length LOCAL NULL = Some (true, fresh m, m') /\
                sockaddr_at m' (fresh m) a) /\
    (sockaddr_at m sa a -> buffer + n <= sa \/ sa + sockaddr_size a <= buffer ->
     pc_length c m sa = Some n /\
     exists m', pc_encode c m buffer length next sa = Some (true, set_next next (buffer + n), m') /\
       same_outside m m' buffer n /\
       match a with
       | V4 _ _ => attr_at m' buffer (pc_type c) (plain_content a)
       | V6 _ _ => pc_is c m' buffer length = Some false /\
                   forall out, pc_decode c m' buffer length LOCAL out = Some (false, out, m')
       end))
    plain_codecs.
Proof.
  intros Hwf Hm Hl. pose proof Hm as [Hp _].
  assert (Hgen : forall T, is_u16 T ->
    let n := 4 + content_size a in
    (attr_at m buffer T (plain_content a) ->
     frame_is_address T m buffer length = Some true /\
     exists m', address_decode T m buffer length LOCAL NULL = Some (true, fresh m, m') /\
                sockaddr_at m' (fresh m) a) /\
    (sockaddr_at m sa a -> buffer + n <= sa \/ sa + sockaddr_size a <= buffer ->
     address_encoding_length m sa = Some n /\
     exists m', address_encode T m buffer length next sa = Some (true, set_next next (buffer + n), m') /\
       same_outside m m' buffer n /\
       match a with
       | V4 _ _ => attr_at m' buffer T (plain_content a)
       | V6 _ _ => frame_is_address T m' buffer length = Some false /\
                   forall out, address_decode T m' buffer length LOCAL out = Some (false, out, m')
       end)).
  2:{ unfold plain_codecs. do 2 (apply Forall_cons_2; [refine (Hgen _ _); unfold is_u16; vm_compute;
        split; (discriminate || reflexivity)|]). apply Forall_nil_2. }
  intros T HT n. pose proof (Zlen_plain_content a Hwf) as Hx. split.
  - intros Ha. split.
    { rewrite (frame_is_address_attr T m buffer T (plain_content a))
        by (destruct a; unfold is_u16, content_size in *; (done || lia)).
      rewrite Z.eqb_refl, Hx. by destruct a. }
    destruct (plain_decode_spec T m buffer length a HT Hwf Ha Hl LOCAL NULL) as (o & m' & E & -> & Hat);
      [done|by left|]. eauto.
  - intros Hsa Hd. split; [by apply encoding_length_spec|].
    destruct a as [port ip|port ip]; unfold n, content_size, sockaddr_size in *.
    + eexists. split; [by apply plain_encode_v4|]. split.
      { apply same_outside_write; [lia|]. by rewrite Zlen_attr_bytes, Hx. }
      by apply attr_bytes_at, region_write.
    + destruct Hwf as (Hport & Hb & Hip). set (c := [0; 1] ++ be16 port ++ ip).
      assert (Hc : Zlen c = 20) by (unfold c; zlia).
      eexists. split; [exact (plain_encode_v6 T m buffer length next sa port ip HT (conj Hport (conj Hb Hip)) Hsa Hm Hl Hd)|]. split.
      { apply same_outside_write; [lia|]. fold c. by rewrite Zlen_attr_bytes, Hc. }
      fold c. assert (Ha : attr_at (write m buffer (attr_bytes T c)) buffer T c)
        by by apply attr_bytes_at, region_write.
      assert (Hf : frame_is_address T (write m buffer (attr_bytes T c)) buffer length = Some false).
      { rewrite (frame_is_address_attr T _ buffer T c) by (rewrite ?Hc; unfold is_u16 in *; (done || lia)).
        rewrite Hc. unfold c. change ([0; 1] ++ _).[1] with 1. by rewrite andb_false_r. }
      split; [done|]. intros out. unfold address_decode, LOCAL, NULL. decide_guard. by rewrite Hf.
Qed.

Lemma plain_address_codec_witness :
  exists m', ov_stun_mapped_address_encode
    (write (write ∅ 16 (zeros 24)) 64 ([10; 0] ++ be16 5060 ++ zeros 20)) 16 24 1 64 =
      Some (true, set_next 1 40, m') /\
    ov_stun_attribute_frame_is_mapped_address m' 16 24 = Some false.
Proof.
  pose proof (plain_address_codec (write (write ∅ 16 (zeros 24)) 64 ([10; 0] ++ be16 5060 ++ zeros 20))
    16 24 1 64 (V6 5060 (zeros 16))) as H.
  apply Forall_cons in H as [[_ H] _].
  - destruct H as [_ H].
    + exists (zeros 4). split; [reflexivity|]. apply region_write. lia.
    + left. vm_compute. discriminate.
    + destruct H as (m' & E & _ & F & _). exists m'. split; [exact E|exact F].
  - split; [unfold is_u16; lia|]. split; [apply bytes_zeros|reflexivity].
  - apply mapped_write, (region_mapped _ 16 (zeros 24)), region_write. lia.
  - vm_compute. discriminate.
Defined.

(** The frame check does not compare the length of an IPv6 attribute with the
    octets there are: on a buffer of 12 octets the decoders read past it. *)
Lemma address_decode_reads_past_buffer :
  let m := write (write ∅ 16 (be16 STUN_MAPPED_ADDRESS ++ be16 20 ++ [0; 2] ++ zeros 6)) 100 (zeros 128) in
  ov_stun_attribute_frame_is_mapped_address m 16 12 = Some true /\
  ov_stun_mapped_address_decode m 16 12 LOCAL 100 = None.
Proof. vm_compute. done. Qed.
