(* ===== verification/StunText.v ===== *)
(** * Text attributes and UNKNOWN-ATTRIBUTES

    The RFC 3261 grammar checks (src/lib/ov_stun/src/ov_stun_grammar.c), the
    attributes that carry text, USERNAME (ov_stun_username.c), SOFTWARE
    (ov_stun_software.c), REALM (ov_stun_realm.c) and NONCE (ov_stun_nonce.c),
    whose files are copies of each other but for the type, the bound on the
    length and the check of the content, and UNKNOWN-ATTRIBUTES
    (ov_stun_unknown_attributes.c). The generation of random nonces is not
    modelled. *)
From S2P Require Import Prelude CMem Utf8 StunAttribute StunFrame.

(** ** The grammar checks *)

(** [isspace] of the C locale; a [char] above 127 is negative and no space. *)
Definition isspace (c : Z) : bool := (c =? 32) || ((9 <=? c) && (c <=? 13)).

(** The [while] of the function below: the address where it stops. *)
Fixpoint whitespace_loop (fuel : nat) (m : mem) (start length p : Z) : option ptr :=
  match fuel with
  | O => None
  | S fuel =>
    if negb (p - start <? length) then Some p else
    c ← load8 m p;
    if negb (isspace c) then Some p else
    whitespace_loop fuel m start length (p + 1)
  end.

(** Result: truth value and [*next] when set. *)
Definition ov_stun_grammar_offset_linear_whitespace (m : mem) (start : ptr) (length : Z) (next : ptr)
    : option (bool * option ptr) :=
  if (start =? NULL) || (next =? NULL) || (length <? 1) then Some (false, None) else
  c ← load8 m start;
  if negb (isspace c) then Some (true, Some start) else
  p ← whitespace_loop (S (Z.to_nat length)) m start length start;
  c ← load8 m p;
  if isspace c then Some (false, None) else Some (true, Some p).

(** The [for] loop over the [n] octets at [p]. *)
Fixpoint qdtext_loop (fuel : nat) (m : mem) (p n i : Z) : option bool :=
  match fuel with
  | O => None
  | S fuel =>
    if negb (i <? n) then Some true else
    c ← load8 m (p + i);
    if c <=? 0x7F then
      if 0x7E <? c then Some false else
      if c =? 0x5C then Some false else
      if c =? 0x22 then Some false else
      if c <? 0x21 then Some false else
      qdtext_loop fuel m p n (i + 1)
    else
      let i := if nz (c .& 0xF0) then i + 3
               else if nz (c .& 0xE0) then i + 2
               else if nz (c .& 0xC0) then i + 1 else i in
      qdtext_loop fuel m p n (i + 1)
  end.

Definition ov_stun_grammar_is_qdtext (m : mem) (start : ptr) (length : Z) : option bool :=
  if (start =? NULL) || (length <? 1) then Some false else
  '(ok, next) ← ov_stun_grammar_offset_linear_whitespace m start length LOCAL;
  if negb ok then Some false else
  let p := default start next in
  valid ← ov_utf8_validate_sequence m p (length - (p - start));
  if negb valid then Some false else
  qdtext_loop (S (Z.to_nat length)) m p (length - (p - start)) 0.

Definition ov_stun_grammar_is_quoted_pair (m : mem) (start : ptr) (length : Z) : option bool :=
  if (start =? NULL) || negb (length =? 2) then Some false else
  c0 ← load8 m start;
  if negb (c0 =? 0x5C) then Some false else
  c1 ← load8 m (start + 1);
  if 0x7F <? c1 then Some false else
  if c1 =? 0x0A then Some false else
  if c1 =? 0x0D then Some false else Some true.

(** [memchr]: the address of the first octet [c] of [n], or [NULL]. *)
Fixpoint memchr (m : mem) (p : ptr) (c : Z) (n : nat) : option ptr :=
  match n with
  | O => Some NULL
  | S n => b ← load8 m p; if b =? c then Some p else memchr m (p + 1) c n
  end.

(** The [while] of the function below; [rest] is the C variable [open]. *)
Fixpoint quoted_string_loop (fuel : nat) (m : mem) (start length p rest : Z) : option bool :=
  match fuel with
  | O => None
  | S fuel =>
    if negb (0 <? rest) then Some true else
    slash ← memchr m p 0x5C (Z.to_nat rest);
    if slash =? NULL then ov_stun_grammar_is_qdtext m p rest else
    if rest <? 2 then Some false else
    if rest - (slash - p) <? 2 then Some false else
    pair ← ov_stun_grammar_is_quoted_pair m slash 2;
    if negb pair then Some false else
    text ← (if negb (p =? slash) then ov_stun_grammar_is_qdtext m p (slash - p) else Some true);
    if negb text then Some false else
    let p := slash + 2 in
    quoted_string_loop fuel m start length p (length - (p - start))
  end.
Definition ov_stun_grammar_is_quoted_string_content (m : mem) (start : ptr) (length : Z)
    : option bool :=
  if (start =? NULL) || (length <? 1) then Some false else
  quoted_string_loop (S (Z.to_nat length)) m start length start length.

Definition ov_stun_grammar_is_quoted_string (m : mem) (start : ptr) (length : Z) : option bool :=
  if (start =? NULL) || (length <? 3) then Some false else
  c0 ← load8 m start;
  if negb (isspace c0) then Some false else
  c1 ← load8 m (start + 1);
  if negb (c1 =? 0x22) then Some false else
  cl ← load8 m (start + (length - 1));
  if negb (cl =? 0x22) then Some false else
  if length =? 3 then Some true else
  ov_stun_grammar_is_quoted_string_content m (start + 2) (length - 3).

(** ** The text attributes *)

Section TextAttribute.
Context (TYPE MAX : Z) (check : mem -> ptr -> Z -> option bool).

Definition frame_is_text (m : mem) (buffer : ptr) (length : Z) : option bool :=
  if (buffer =? NULL) || (length <? 8) then Some false else
  type ← ov_stun_attribute_get_type m buffer length;
  size ← ov_stun_attribute_get_length m buffer length;
  if negb (type =? TYPE) then Some false else
  if (size <? 1) || (MAX <? size) then Some false else
  if length <? size + 4 then Some false else Some true.

Definition text_validate (m : mem) (buffer : ptr) (length : Z) : option bool :=
  if (buffer =? NULL) || (length <? 1) || (MAX <? length) then Some false else
  check m buffer length.

Definition text_encoding_length (text : ptr) (length : Z) : Z :=
  if (text =? NULL) || (length =? 0) || (MAX <? length) then 0 else
  length + 4 + padding length.

Definition text_encode (m : mem) (buffer : ptr) (length : Z) (next text : ptr) (size : Z) : encoded :=
  if (buffer =? NULL) || (text =? NULL) || (MAX <? size) || (size =? 0)
  then Some (false, None, m) else
  let len := text_encoding_length text size in
  if length <? len then Some (false, None, m) else
  valid ← text_validate m text size;
  if negb valid then Some (false, None, m) else
  ov_stun_attribute_encode m buffer length next TYPE text size.

(** Result: truth value, [*text] and [*size] when set. *)
Definition text_decode (m : mem) (buffer : ptr) (length : Z) (text size : ptr)
  : option (bool * option ptr * option Z) :=
  let error := Some (false, (if negb (text =? NULL) then Some NULL else None),
                 (if negb (size =? NULL) then Some 0 else None)) in
  if (buffer =? NULL) || (length <? 5) || (text =? NULL) || (size =? NULL) then error else
  valid ← frame_is_text m buffer length;
  if negb valid then error else
  n ← ov_stun_attribute_get_length m buffer length;
  let t := buffer + 4 in
  if n =? 0 then error else
  valid ← text_validate m t n;
  if negb valid then error else Some (true, Some t, Some n).
End TextAttribute.

Definition STUN_USERNAME : Z := 0x0006.
Definition STUN_SOFTWARE : Z := 0x8022.
Definition STUN_REALM : Z := 0x0014.
Definition STUN_NONCE : Z := 0x0015.
Definition STUN_UNKNOWN_ATTRIBUTES : Z := 0x000A.

(** *** ov_stun_username.c *)
Definition ov_stun_attribute_frame_is_username := frame_is_text STUN_USERNAME 513.
Definition ov_stun_username_validate := text_validate 513 ov_utf8_validate_sequence.
Definition ov_stun_username_encoding_length := text_encoding_length 513.
Definition ov_stun_username_encode := text_encode STUN_USERNAME 513 ov_utf8_validate_sequence.
Definition ov_stun_username_decode := text_decode STUN_USERNAME 513 ov_utf8_validate_sequence.

(** *** ov_stun_software.c *)
Definition ov_stun_attribute_frame_is_software := frame_is_text STUN_SOFTWARE 763.
Definition ov_stun_software_validate := text_validate 763 ov_utf8_validate_sequence.
Definition ov_stun_software_encoding_length := text_encoding_length 763.
Definition ov_stun_software_encode := text_encode STUN_SOFTWARE 763 ov_utf8_validate_sequence.
Definition ov_stun_software_decode := text_decode STUN_SOFTWARE 763 ov_utf8_validate_sequence.

(** *** ov_stun_realm.c *)
Definition ov_stun_attribute_frame_is_realm := frame_is_text STUN_REALM 763.
Definition ov_stun_realm_validate := text_validate 763 ov_stun_grammar_is_quoted_string_content.
Definition ov_stun_realm_encoding_length := text_encoding_length 763.
Definition ov_stun_realm_encode :=
  text_encode STUN_REALM 763 ov_stun_grammar_is_quoted_string_content.
Definition ov_stun_realm_decode :=
  text_decode STUN_REALM 763 ov_stun_grammar_is_quoted_string_content.

(** *** ov_stun_nonce.c *)
Definition ov_stun_attribute_frame_is_nonce := frame_is_text STUN_NONCE 763.
Definition ov_stun_nonce_validate := text_validate 763 ov_stun_grammar_is_quoted_string_content.
Definition ov_stun_nonce_encoding_length := text_encoding_length 763.
Definition ov_stun_nonce_encode :=
  text_encode STUN_NONCE 763 ov_stun_grammar_is_quoted_string_content.
Definition ov_stun_nonce_decode :=
  text_decode STUN_NONCE 763 ov_stun_grammar_is_quoted_string_content.

(** ** UNKNOWN-ATTRIBUTES (ov_stun_unknown_attributes.c) *)

Definition ov_stun_attribute_frame_is_unknown_attributes (m : mem) (buffer : ptr) (length : Z)
    : option bool :=
  if (buffer =? NULL) || (length <? 8) then Some false else
  type ← ov_stun_attribute_get_type m buffer length;
  size ← ov_stun_attribute_get_length m buffer length;
  if negb (type =? STUN_UNKNOWN_ATTRIBUTES) then Some false else
  if length <? size + 4 then Some false else Some true.

(** [for (i = 0; i < size; i += 2) ov_list_push(list, buffer + 4 + i)] *)
Fixpoint push_pointers (fuel : nat) (p i size : Z) (out : list ptr) : option (list ptr) :=
  match fuel with
  | O => None
  | S fuel => if negb (i <? size) then Some out
              else push_pointers fuel p (i + 2) size (out ++ [p + i])
  end.
(** The [ov_list] of pointers, [None] for [NULL]. *)
Definition ov_stun_unknown_attributes_decode (m : mem) (buffer : ptr) (length : Z)
    : option (option (list ptr)) :=
  valid ← ov_stun_attribute_frame_is_unknown_attributes m buffer length;
  if negb valid then Some None else
  size ← ov_stun_attribute_get_length m buffer length;
  l ← push_pointers (S (Z.to_nat size)) (buffer + 4) 0 size [];
  Some (Some l).

Definition ov_stun_unknown_attributes_decode_pointer (m : mem) (pointer : ptr) : option Z :=
  if pointer =? NULL then Some 0 else v ← load16 m pointer; Some (ntohs v).

(** The loop that fills the local array [content]. *)
Fixpoint unknown_content (m : mem) (array : ptr) (n : nat) : option (list Z) :=
  match n with
  | O => Some []
  | S n =>
      v ← load16 m array;
      rest ← unknown_content m (array + 2) n;
      Some (u8 (htons v) :: u8 (htons v .>> 8) :: rest)
  end.
Definition ov_stun_unknown_attributes_encode (m : mem) (buffer : ptr) (length : Z) (next array : ptr)
    (array_last : Z) : encoded :=
  if (buffer =? NULL) || (array =? NULL) || (array_last <? 1) then Some (false, None, m) else
  let required := u64 (array_last * 2 + 4) in
  let pad := padding required in
  let required := required + pad in
  if length <? required then Some (false, None, m) else
  content ← unknown_content m array (Z.to_nat array_last);
  '(ok, nx, m) ← encode_local m buffer length next STUN_UNKNOWN_ATTRIBUTES content (required - 4 - pad);
  Some (ok, (match nx with Some p => Some p | None => set_next next (buffer + required) end), m).

(** ** The grammar on text without white space and outside of UTF-8 *)

(** The octets of ASCII [qdtext], and the content of a quoted string. *)
Definition qdchar (c : Z) : bool :=
  (c =? 0x21) || ((0x23 <=? c) && (c <=? 0x5B)) || ((0x5D <=? c) && (c <=? 0x7E)).
Definition pair_char (c : Z) : bool := negb (0x7F <? c) && negb (c =? 0x0A) && negb (c =? 0x0D).
Fixpoint quoted_content (l : list Z) : bool :=
  match l with
  | [] => true
  | c :: r =>
      if c =? 0x5C then match r with [] => false | x :: r => pair_char x && quoted_content r end
      else qdchar c && quoted_content r
  end.
Definition plain_ascii (l : list Z) : Prop := Forall (fun c => 0 <= c <= 0x7F /\ isspace c = false) l.

Lemma plain_ascii_bytes l : plain_ascii l -> bytes l.
Proof. intros H. eapply Forall_impl; [exact H|]. intros c [? _]. unfold is_byte. lia. Qed.
Lemma plain_ascii_utf8 l : plain_ascii l -> utf8_octets l.
Proof. intros H. apply ascii_utf8. eapply Forall_impl; [exact H|]. by intros c [? _]. Qed.

(** Without a leading space nothing is skipped. *)
Lemma no_whitespace m p c l length next :
  region m p (c :: l) -> isspace c = false -> 1 <= length -> next <> NULL ->
  ov_stun_grammar_offset_linear_whitespace m p length next = Some (true, Some p).
Proof.
  intros Hm Hc Hl Hn. pose proof Hm as [Hp _]. unfold ov_stun_grammar_offset_linear_whitespace, NULL in *.
  decide_guard. rewrite (load8_at_0 _ _ _ _ Hm). cbn [mbind option_bind]. by rewrite Hc.
Qed.

Lemma qdtext_loop_ascii m p l i fuel :
  region m p l -> plain_ascii l -> 0 <= i -> (Z.to_nat (Zlen l - i) < fuel)%nat ->
  qdtext_loop fuel m p (Zlen l) i = Some (forallb qdchar (zdrop i l)).
Proof.
  intros Hm Ha. revert i. induction fuel as [|fuel IH]; intros i Hi Hf; [lia|]. cbn [qdtext_loop].
  destruct (Z.ltb_spec i (Zlen l)) as [Hlt|Hge]; cbn [negb].
  - rewrite (load8_region m p l) by (done || lia). cbn [mbind option_bind].
    rewrite (zdrop_cons l i) by lia. cbn [forallb].
    assert (Hc : 0 <= l.[i] <= 0x7F /\ isspace l.[i] = false).
    { apply (proj1 (Forall_forall _ _) Ha). unfold znth. apply list_elem_of_In, nth_In.
      unfold Zlen in Hlt. lia. }
    rewrite (proj2 (Z.leb_le l.[i] 0x7F)) by lia. unfold qdchar.
    repeat (case_if; [symmetry; apply f_equal, andb_false_iff; left; lia|]).
    rewrite IH by lia. f_equal. symmetry. rewrite andb_comm. destruct (forallb _ _); simpl; lia.
  - rewrite (Zlen_0_nil (zdrop i l)); [done|]. zlia.
Qed.

Lemma is_qdtext_ascii m p l :
  region m p l -> plain_ascii l -> l <> [] ->
  ov_stun_grammar_is_qdtext m p (Zlen l) = Some (forallb qdchar l).
Proof.
  intros Hm Ha Hl. destruct l as [|c l]; [done|]. pose proof Hm as [Hp _].
  unfold ov_stun_grammar_is_qdtext, NULL. assert (1 <= Zlen (c :: l)) by zlia. decide_guard.
  pose proof (Forall_inv Ha) as [_ Hc].
  rewrite (no_whitespace m p c l) by (done || lia). cbn [mbind option_bind negb default].
  rewrite Z.sub_diag, Z.sub_0_r.
  rewrite validate_true by (done || by apply plain_ascii_bytes || by apply plain_ascii_utf8).
  cbn [mbind option_bind negb]. rewrite qdtext_loop_ascii by (done || lia). by rewrite zdrop_0.
Qed.

Lemma memchr_none m p l c : region m p l -> c ∉ l -> memchr m p c (length l) = Some NULL.
Proof.
  revert p. induction l as [|b l IH]; intros p Hm Hni; [done|]. cbn [length memchr].
  rewrite (load8_at_0 _ _ _ _ Hm). cbn [mbind option_bind].
  apply not_elem_of_cons in Hni as [Hne Hni]. rewrite (proj2 (Z.eqb_neq b c)) by done.
  apply IH; [|done]. by apply (region_app_r m p (p + 1) [b]).
Qed.
Lemma memchr_some m p l1 c l2 :
  region m p (l1 ++ c :: l2) -> c ∉ l1 ->
  memchr m p c (length (l1 ++ c :: l2)) = Some (p + Zlen l1).
Proof.
  revert p. induction l1 as [|b l IH]; intros p Hm Hni; cbn [app length memchr];
    rewrite (load8_at_0 _ _ _ _ Hm); cbn [mbind option_bind].
  - rewrite Z.eqb_refl. f_equal. zlia.
  - apply not_elem_of_cons in Hni as [Hne Hni]. rewrite (proj2 (Z.eqb_neq b c)) by done.
    rewrite IH; [f_equal; zlia| |done]. by apply (region_app_r m p (p + 1) [b]).
Qed.

Lemma quoted_content_no_slash l : 0x5C ∉ l -> quoted_content l = forallb qdchar l.
Proof.
  induction l as [|c l IH]; [done|]. intros Hni. apply not_elem_of_cons in Hni as [Hne Hni].
  cbn [quoted_content forallb]. rewrite (proj2 (Z.eqb_neq c 0x5C)) by done. by rewrite IH.
Qed.
Lemma quoted_content_slash l1 l2 :
  0x5C ∉ l1 -> quoted_content (l1 ++ 0x5C :: l2) =
    forallb qdchar l1 && match l2 with [] => false | x :: r => pair_char x && quoted_content r end.
Proof.
  induction l1 as [|c l IH]; [done|]. intros Hni. apply not_elem_of_cons in Hni as [Hne Hni].
  cbn [quoted_content forallb app]. rewrite (proj2 (Z.eqb_neq c 0x5C)) by done. rewrite IH by done.
  by rewrite andb_assoc.
Qed.
Lemma split_first (c : Z) l : c ∉ l \/ exists l1 l2, l = l1 ++ c :: l2 /\ c ∉ l1.
Proof.
  destruct (decide (c ∈ l)) as [H|H]; [right|by left].
  apply list_elem_of_split_l in H as (l1 & l2 & -> & ?). eauto.
Qed.

Lemma is_quoted_pair_spec m p x l :
  region m p (0x5C :: x :: l) -> ov_stun_grammar_is_quoted_pair m p 2 = Some (pair_char x).
Proof.
  intros Hm. pose proof Hm as [Hp _]. unfold ov_stun_grammar_is_quoted_pair, NULL, pair_char. decide_guard.
  rewrite (load8_at_0 _ _ _ _ Hm). cbn [mbind option_bind Z.eqb negb].
  rewrite (load8_at _ _ _ 1 _ Hm eq_refl) by lia. cbn -[Z.ltb Z.eqb].
  repeat case_if; bool_to_prop; f_equal; lia.
Qed.

Lemma quoted_string_loop_ascii fuel m start length p l :
  region m p l -> plain_ascii l -> start + length = p + Zlen l -> (Datatypes.length l < fuel)%nat ->
  quoted_string_loop fuel m start length p (Zlen l) = Some (quoted_content l).
Proof.
  revert p l. induction fuel as [|fuel IH]; intros p l Hm Ha Hlen Hf; [lia|]. cbn [quoted_string_loop].
  pose proof Hm as [Hp _].
  destruct (Z.ltb_spec 0 (Zlen l)) as [Hl|Hl]; cbn [negb].
  2:{ by rewrite (Zlen_0_nil l) by zlia. }
  assert (Hn : Z.to_nat (Zlen l) = Datatypes.length l) by (unfold Zlen; lia). rewrite Hn.
  destruct (split_first 0x5C l) as [Hni|(l1 & l2 & -> & Hni)].
  { rewrite (memchr_none m p l) by done. cbn [mbind option_bind]. rewrite Z.eqb_refl.
    rewrite is_qdtext_ascii by (done || by intros ->). by rewrite quoted_content_no_slash. }
  rewrite (memchr_some m p l1 0x5C l2) by done. cbn [mbind option_bind].
  pose proof (Zlen_nonneg l1). rewrite (proj2 (Z.eqb_neq (p + Zlen l1) NULL)) by (unfold NULL; lia).
  rewrite Zlen_app, Zlen_cons in *. rewrite quoted_content_slash by done.
  apply Forall_app in Ha as [Ha1 Ha2]. apply Forall_cons in Ha2 as [_ Ha2].
  destruct l2 as [|x r].
  { rewrite andb_false_r. case_if; [done|]. decide_guard. done. }
  rewrite Zlen_cons in *. pose proof (Zlen_nonneg r). decide_guard. decide_guard.
  rewrite (is_quoted_pair_spec m _ x r) by by eapply region_app_r. cbn [mbind option_bind].
  destruct (pair_char x); cbn [negb andb]; [|by rewrite andb_false_r].
  assert (E : (if negb (p =? p + Zlen l1) then ov_stun_grammar_is_qdtext m p (p + Zlen l1 - p)
               else Some true) = Some (forallb qdchar l1)).
  { destruct l1 as [|c l1]; [rewrite Zlen_nil, Z.add_0_r, Z.eqb_refl; done|].
    rewrite Zlen_cons in *. pose proof (Zlen_nonneg l1).
    rewrite (proj2 (Z.eqb_neq p _)) by lia. cbn [negb].
    replace (p + (1 + Zlen l1) - p) with (Zlen (c :: l1)) by zlia.
    apply is_qdtext_ascii; [by apply region_app_l in Hm|done|done]. }
  rewrite E. cbn [mbind option_bind]. destruct (forallb qdchar l1); cbn [negb andb]; [|done].
  replace (length - (p + Zlen l1 + 2 - start)) with (Zlen r) by lia. apply IH.
  - replace (l1 ++ 0x5C :: x :: r) with ((l1 ++ [0x5C; x]) ++ r) in Hm by by rewrite <- app_assoc.
    eapply region_app_r; [exact Hm|zlia].
  - by apply Forall_cons in Ha2 as [_ ?].
  - lia.
  - rewrite length_app in Hf. simpl in Hf. lia.
Qed.

(** On text of printable or control ASCII without white space,
    [ov_stun_grammar_is_quoted_string_content] terminates and decides exactly the
    content of a quoted string of RFC 3261: a sequence of [qdtext] characters and of
    quoted pairs other than an escaped line break. *)
Lemma quoted_string_content_is_grammar m p l :
  region m p l -> plain_ascii l -> l <> [] ->
  ov_stun_grammar_is_quoted_string_content m p (Zlen l) = Some (quoted_content l).
Proof.
  intros Hm Ha Hl. pose proof Hm as [Hp _]. unfold ov_stun_grammar_is_quoted_string_content, NULL.
  assert (1 <= Zlen l) by (destruct l; [done|zlia]). decide_guard.
  apply quoted_string_loop_ascii; [done|done|lia|]. unfold Zlen. lia.
Qed.

(** ** Text attributes *)

(** What an attribute relies on: a check that accepts the texts [ok] wherever
    they stand in memory. *)
Class TextCheck (check : mem -> ptr -> Z -> option bool) (ok : list Z -> Prop) :=
  text_check m p l : region m p l -> bytes l -> ok l -> check m p (Zlen l) = Some true.

Definition utf8_text (l : list Z) : Prop := l <> [] /\ utf8_octets l.
Definition quoted_text (l : list Z) : Prop := l <> [] /\ plain_ascii l /\ quoted_content l = true.

#[export] Instance utf8_check : TextCheck ov_utf8_validate_sequence utf8_text.
Proof. intros m p l Hm Hb [Hl Hu]. by apply validate_true. Qed.
#[export] Instance quoted_check : TextCheck ov_stun_grammar_is_quoted_string_content quoted_text.
Proof. intros m p l Hm Hb (Hl & Ha & Hq). by rewrite quoted_string_content_is_grammar, Hq. Qed.

Section TextLemmas.
Context (TYPE MAX : Z) (check : mem -> ptr -> Z -> option bool) (ok : list Z -> Prop).
Context {Hcheck : TextCheck check ok} (HT : is_u16 TYPE) (HM : 1 <= MAX < 65536).

Lemma text_validate_spec m p l :
  region m p l -> bytes l -> ok l -> 1 <= Zlen l <= MAX -> text_validate MAX check m p (Zlen l) = Some true.
Proof using Hcheck.
  intros Hm Hb Ho Hl. pose proof Hm as [Hp _]. unfold text_validate, NULL. decide_guard. by apply text_check.
Qed.
Lemma text_encode_spec m buffer length next text l :
  mapped m buffer (attr_size (Zlen l)) -> attr_size (Zlen l) <= length ->
  region m text l -> bytes l -> ok l -> 1 <= Zlen l <= MAX ->
  text + Zlen l <= buffer \/ buffer + attr_size (Zlen l) <= text ->
  text_encode TYPE MAX check m buffer length next text (Zlen l) =
  Some (true, set_next next (buffer + attr_size (Zlen l)), write m buffer (attr_bytes TYPE l)).
Proof using Hcheck HT HM.
  intros Hm Hlen Ht Hb Ho Hl Hd. pose proof Hm as [Hp _]. pose proof Ht as [Htp _].
  unfold text_encode, text_encoding_length, NULL. decide_guard. guards.
  unfold attr_size in *. decide_guard. rewrite text_validate_spec by done. cbn [mbind option_bind negb].
  by apply attribute_encode_spec; [..|unfold is_u16; lia|].
Qed.
Lemma frame_is_text_attr m p l length :
  attr_at m p TYPE l -> 1 <= Zlen l <= MAX -> 8 <= length -> Zlen l + 4 <= length ->
  frame_is_text TYPE MAX m p length = Some true.
Proof using HT HM.
  intros Ha Hl Hlen Hlen'. pose proof Ha as [Hp _]. unfold frame_is_text, NULL. decide_guard.
  rewrite (get_type_attr m p TYPE l), (get_length_attr m p TYPE l) by (unfold is_u16; done || lia).
  cbn [mbind option_bind]. rewrite Z.eqb_refl. cbn [negb]. by guards.
Qed.
Lemma text_decode_spec m p l length a b :
  attr_at m p TYPE l -> bytes l -> ok l -> 1 <= Zlen l <= MAX -> 8 <= length -> Zlen l + 4 <= length ->
  a <> NULL -> b <> NULL ->
  text_decode TYPE MAX check m p length a b = Some (true, Some (p + 4), Some (Zlen l)).
Proof using Hcheck HT HM.
  intros Ha Hb Ho Hl Hlen Hlen' Hna Hnb. pose proof Ha as [Hp _]. unfold text_decode, NULL in *. decide_guard.
  rewrite (frame_is_text_attr m p l) by done. cbn [mbind option_bind negb].
  rewrite (get_length_attr m p TYPE l) by (unfold is_u16; done || lia). cbn [mbind option_bind].
  decide_guard. rewrite text_validate_spec by first [by eapply attr_at_content|done]. done.
Qed.
End TextLemmas.

(** *** The four attributes *)

Record text_codec := TextCodec {
  tc_type : Z; tc_max : Z; tc_ok : list Z -> Prop;
  tc_is : mem -> ptr -> Z -> option bool;
  tc_length : ptr -> Z -> Z;
  tc_encode : mem -> ptr -> Z -> ptr -> ptr -> Z -> encoded;
  tc_decode : mem -> ptr -> Z -> ptr -> ptr -> option (bool * option ptr * option Z)
}.
Definition text_codecs : list text_codec :=
  [ TextCodec STUN_USERNAME 513 utf8_text ov_stun_attribute_frame_is_username
      ov_stun_username_encoding_length ov_stun_username_encode ov_stun_username_decode;
    TextCodec STUN_SOFTWARE 763 utf8_text ov_stun_attribute_frame_is_software
      ov_stun_software_encoding_length ov_stun_software_encode ov_stun_software_decode;
    TextCodec STUN_REALM 763 quoted_text ov_stun_attribute_frame_is_realm
      ov_stun_realm_encoding_length ov_stun_realm_encode ov_stun_realm_decode;
    TextCodec STUN_NONCE 763 quoted_text ov_stun_attribute_frame_is_nonce
      ov_stun_nonce_encoding_length ov_stun_nonce_encode ov_stun_nonce_decode ].

(** ** UNKNOWN-ATTRIBUTES *)

(** An array of 16 bit integers of the host. *)
Definition le16 (x : Z) : list Z := [u8 x; u8 (x .>> 8)].
Definition u16_array (l : list Z) : list Z := concat (le16 <$> l).
Definition wire_array (l : list Z) : list Z := concat (be16 <$> l).

Lemma Zlen_wire_array l : Zlen (wire_array l) = 2 * Zlen l.
Proof. induction l as [|x l IH]; [done|]. change (wire_array (x :: l)) with (be16 x ++ wire_array l). zlia. Qed.
Lemma Zlen_u16_array l : Zlen (u16_array l) = 2 * Zlen l.
Proof. induction l as [|x l IH]; [done|]. change (u16_array (x :: l)) with (le16 x ++ u16_array l). unfold le16. zlia. Qed.
#[export] Hint Rewrite Zlen_wire_array Zlen_u16_array : zlen.
Lemma bytes_wire_array l : bytes (wire_array l).
Proof.
  induction l as [|x l IH]; [apply bytes_nil|]. change (wire_array (x :: l)) with (be16 x ++ wire_array l).
  rewrite bytes_app. auto with ov.
Qed.

Lemma load16_le m p x l : region m p (le16 x ++ l) -> is_u16 x -> load16 m p = Some x.
Proof.
  intros Hm Hx. apply region_app_l in Hm.
  rewrite (load16_region m p (le16 x) p Hm) by (unfold le16; zlia). rewrite Z.sub_diag.
  change (le16 x).[0] with (u8 x). change (le16 x).[0 + 1] with (u8 (x .>> 8)).
  f_equal. unfold is_u16 in Hx. byte_arith.
Qed.
Lemma unknown_content_spec m array l :
  region m array (u16_array l) -> Forall is_u16 l ->
  unknown_content m array (length l) = Some (wire_array l).
Proof.
  revert array. induction l as [|x l IH]; intros array Hm Hl; [done|].
  apply Forall_cons in Hl as [Hx Hl]. change (u16_array (x :: l)) with (le16 x ++ u16_array l) in Hm.
  cbn [length unknown_content]. rewrite (load16_le m array x _ Hm) by done. cbn [mbind option_bind].
  rewrite IH; [|by eapply region_app_r|done]. cbn [mbind option_bind].
  pose proof (store16_htons_bytes x Hx) as E. csimpl in E. injection E as -> ->. done.
Qed.
Lemma seqZ_succ_0 n : 0 <= n -> seqZ 0 (Z.succ n) = 0 :: (Z.succ <$> seqZ 0 n).
Proof.
  intros Hn. rewrite seqZ_cons by lia. rewrite Z.pred_succ. f_equal.
  change (Z.succ 0) with (1 + 0). rewrite <- fmap_add_seqZ. apply list_fmap_ext. intros. lia.
Qed.
Lemma push_pointers_spec fuel p i n out :
  0 <= i <= n -> (Z.to_nat (n - i) < fuel)%nat -> (n - i) mod 2 = 0 ->
  push_pointers fuel p i n out =
    Some (out ++ ((fun k => p + i + 2 * k) <$> seqZ 0 ((n - i) / 2))).
Proof.
  revert i out. induction fuel as [|fuel IH]; intros i out Hi Hf Hmod; [lia|]. cbn [push_pointers].
  destruct (Z.ltb_spec i n); cbn [negb].
  - rewrite IH by dlia. rewrite <- app_assoc. do 2 f_equal.
    replace ((n - i) / 2) with (Z.succ ((n - (i + 2)) / 2)) by dlia.
    rewrite seqZ_succ_0 by dlia. csimpl. f_equal; [lia|].
    rewrite <- list_fmap_compose. apply list_fmap_ext. intros k x _. simpl. lia.
  - replace (n - i) with 0 by lia. change (0 / 2) with 0. by rewrite app_nil_r.
Qed.

Lemma decode_pointers_spec m q l :
  region m q (wire_array l) -> Forall is_u16 l -> 0 < q ->
  mapM (ov_stun_unknown_attributes_decode_pointer m) ((fun k => q + 2 * k) <$> seqZ 0 (Zlen l)) = Some l.
Proof.
  intros Ha Hl. revert q Ha. induction Hl as [|x l Hx Hl IH]; intros q Ha Hq; [done|].
  change (wire_array (x :: l)) with (be16 x ++ wire_array l) in Ha.
  rewrite Zlen_cons. replace (1 + Zlen l) with (Z.succ (Zlen l)) by lia.
  rewrite seqZ_succ_0 by apply Zlen_nonneg. rewrite fmap_cons. cbn [mapM]. rewrite Z.mul_0_r, Z.add_0_r.
  assert (ov_stun_unknown_attributes_decode_pointer m q = Some x) as ->.
  { unfold ov_stun_unknown_attributes_decode_pointer, NULL. decide_guard.
    destruct (load16_be m q x) as (w & -> & Ew); [by apply region_app_l in Ha|done|].
    cbn [mbind option_bind]. by rewrite Ew. }
  cbn [mbind option_bind]. rewrite <- list_fmap_compose.
  rewrite (list_fmap_ext _ (fun k => q + 2 + 2 * k)).
  - rewrite IH; [done|by eapply region_app_r|lia].
  - intros. simpl. lia.
Qed.

(** ** Properties *)

Example quoted_pair_content :
  ov_stun_grammar_is_quoted_string_content (write ∅ 16 [0x61; 0x5C; 0x22; 0x62]) 16 4 = Some true.
Proof. vm_compute. reflexivity. Qed.

(** After any octet above 127 the check skips three more, so what follows a
    two octet character is not looked at: a quotation mark passes. *)
Lemma qdtext_skips_after_utf8 :
  ov_stun_grammar_is_qdtext (write ∅ 16 [0xC3; 0xA9; 0x22]) 16 3 = Some true.
Proof. vm_compute. reflexivity. Qed.
(** On white space alone the octet after the text is read. *)
Lemma whitespace_reads_past_text :
  ov_stun_grammar_is_qdtext (write ∅ 16 [32; 32]) 16 2 = None.
Proof. vm_compute. reflexivity. Qed.

(** USERNAME, SOFTWARE, REALM and NONCE: a text of an admissible length and
    form is encoded as the attribute, of the length [encoding_length] announces,
    and the frame check and the decoder of the module give back exactly the
    text; a text that is empty, too long or does not fit is refused and nothing
    is written. *)
Theorem text_attribute_roundtrip m buffer length next text l a b :
  region m text l -> bytes l -> a <> NULL -> b <> NULL ->
  Forall (fun c =>
    (tc_ok c l -> 1 <= Zlen l <= tc_max c -> attr_size (Zlen l) <= length ->
     mapped m buffer (attr_size (Zlen l)) ->
     text + Zlen l <= buffer \/ buffer + attr_size (Zlen l) <= text ->
     exists m', tc_encode c m buffer length next text (Zlen l) =
         Some (true, set_next next (buffer + tc_length c text (Zlen l)), m') /\
       same_outside m m' buffer (attr_size (Zlen l)) /\
       tc_is c m' buffer length = Some true /\
       tc_decode c m' buffer length a b = Some (true, Some (buffer + 4), Some (Zlen l)) /\
       region m' (buffer + 4) l) /\
    (Zlen l = 0 \/ tc_max c < Zlen l \/ length < attr_size (Zlen l) ->
     tc_encode c m buffer length next text (Zlen l) = Some (false, None, m)))
    text_codecs.
Proof.
  intros Ht Hb Ha Hb'. pose proof Ht as [Htp _].
  assert (Hgen : forall TYPE MAX check ok, TextCheck check ok -> is_u16 TYPE -> 1 <= MAX < 65536 ->
    (ok l -> 1 <= Zlen l <= MAX -> attr_size (Zlen l) <= length ->
     mapped m buffer (attr_size (Zlen l)) ->
     text + Zlen l <= buffer \/ buffer + attr_size (Zlen l) <= text ->
     exists m', text_encode TYPE MAX check m buffer length next text (Zlen l) =
         Some (true, set_next next (buffer + text_encoding_length MAX text (Zlen l)), m') /\
       same_outside m m' buffer (attr_size (Zlen l)) /\
       frame_is_text TYPE MAX m' buffer length = Some true /\
       text_decode TYPE MAX check m' buffer length a b = Some (true, Some (buffer + 4), Some (Zlen l)) /\
       region m' (buffer + 4) l) /\
    (Zlen l = 0 \/ MAX < Zlen l \/ length < attr_size (Zlen l) ->
     text_encode TYPE MAX check m buffer length next text (Zlen l) = Some (false, None, m))).
  2:{ unfold text_codecs.
      apply Forall_cons_2; [exact (Hgen STUN_USERNAME 513 _ _ utf8_check ltac:(done) ltac:(lia))|].
      apply Forall_cons_2; [exact (Hgen STUN_SOFTWARE 763 _ _ utf8_check ltac:(done) ltac:(lia))|].
      apply Forall_cons_2; [exact (Hgen STUN_REALM 763 _ _ quoted_check ltac:(done) ltac:(lia))|].
      apply Forall_cons_2; [exact (Hgen STUN_NONCE 763 _ _ quoted_check ltac:(done) ltac:(lia))|].
      apply Forall_nil_2. }
  intros TYPE MAX check ok Hcheck HT HM. split.
  - intros Hok Hl Hlen Hm Hd. pose proof Hm as [Hp _]. pose proof (padding_spec (Zlen l)) as [Hpad Hal].
    exists (write m buffer (attr_bytes TYPE l)).
    assert (Hat : attr_at (write m buffer (attr_bytes TYPE l)) buffer TYPE l)
      by by apply attr_bytes_at, region_write.
    assert (H8 : 8 <= attr_size (Zlen l)) by (unfold attr_size; dlia).
    pose proof (attr_size_bounds (Zlen l)).
    split; [|split; [|split; [|split]]].
    + unfold text_encoding_length, NULL. decide_guard.
      replace (Zlen l + 4 + padding (Zlen l)) with (attr_size (Zlen l)) by (unfold attr_size; lia).
      by eapply text_encode_spec.
    + apply same_outside_write; [lia|]. by rewrite Zlen_attr_bytes.
    + eapply frame_is_text_attr; (done || lia).
    + eapply text_decode_spec; (done || lia).
    + by eapply attr_at_content.
  - intros Hno. unfold text_encode, text_encoding_length. case_if; [done|].
    unfold NULL in *. repeat (case_if; [done|]). exfalso.
    unfold attr_size in *. repeat case_if; lia.
Qed.

Lemma text_attribute_roundtrip_witness :
  exists m', ov_stun_username_encode (write (write ∅ 16 (zeros 12)) 64 [97; 98; 99; 100; 101])
       16 12 1 64 5 = Some (true, set_next 1 28, m') /\
     ov_stun_username_decode m' 16 12 1 1 = Some (true, Some 20, Some 5).
Proof.
  pose proof (text_attribute_roundtrip (write (write ∅ 16 (zeros 12)) 64 [97; 98; 99; 100; 101])
       16 12 1 64 [97; 98; 99; 100; 101] 1 1) as H.
  apply Forall_cons in H as [[H _] _].
  - destruct H as (m' & H1 & _ & _ & H2 & _).
    + split; [discriminate|]. apply ascii_utf8. repeat constructor; lia.
    + vm_compute. split; discriminate.
    + vm_compute. discriminate.
    + apply mapped_write, (region_mapped _ 16 (zeros 12)), region_write. lia.
    + right. vm_compute. discriminate.
    + exists m'. split; [exact H1|exact H2].
  - apply region_write. lia.
  - repeat constructor; unfold is_byte; lia.
  - discriminate.
  - discriminate.
Defined.

(** UNKNOWN-ATTRIBUTES carries a list of attribute types: the encoder turns
    an array of the host into the attribute, of network order and padded, and
    the decoder returns one pointer per type, in order, at which
    [decode_pointer] reads the type. *)
Theorem unknown_attributes_roundtrip m buffer length next array l :
  region m array (u16_array l) -> Forall is_u16 l -> 1 <= Zlen l <= 32767 ->
  mapped m buffer (attr_size (2 * Zlen l)) -> attr_size (2 * Zlen l) <= length ->
  exists m' ps,
    ov_stun_unknown_attributes_encode m buffer length next array (Zlen l) =
      Some (true, set_next next (buffer + attr_size (2 * Zlen l)), m') /\
    same_outside m m' buffer (attr_size (2 * Zlen l)) /\
    ov_stun_unknown_attributes_decode m' buffer length = Some (Some ps) /\
    ps = ((fun k => buffer + 4 + 2 * k) <$> seqZ 0 (Zlen l)) /\
    mapM (ov_stun_unknown_attributes_decode_pointer m') ps = Some l.
Proof.
  intros Har Hl Hn Hm Hlen. pose proof Hm as [Hp _]. pose proof Har as [Hap _].
  set (c := wire_array l). assert (Hc : Zlen c = 2 * Zlen l) by (unfold c; zlia).
  pose proof (attr_size_bounds (2 * Zlen l)) as Hs. pose proof (padding_spec (2 * Zlen l)) as [Hpad Hal].
  assert (H8 : 8 <= attr_size (2 * Zlen l)) by (unfold attr_size; dlia).
  assert (Hu : is_u16 (Zlen c)) by (unfold is_u16; lia).
  assert (HT : is_u16 STUN_UNKNOWN_ATTRIBUTES) by (unfold is_u16, STUN_UNKNOWN_ATTRIBUTES; lia).
  assert (Ha : attr_at (write m buffer (attr_bytes STUN_UNKNOWN_ATTRIBUTES c)) buffer STUN_UNKNOWN_ATTRIBUTES c)
    by by apply attr_bytes_at, region_write.
  eexists _, _. split; [|split; [|split; [|split; [reflexivity|]]]].
  - unfold ov_stun_unknown_attributes_encode, NULL. rewrite u64_id by lia. decide_guard.
    assert (Ep : padding (Zlen l * 2 + 4) = padding (2 * Zlen l)).
    { unfold padding. by replace ((Zlen l * 2 + 4) mod 4) with ((2 * Zlen l) mod 4) by dlia. }
    rewrite Ep. unfold attr_size in *. decide_guard.
    replace (Z.to_nat (Zlen l)) with (Datatypes.length l) by (unfold Zlen; lia).
    rewrite unknown_content_spec by done. cbn [mbind option_bind]. fold c.
    replace (_ - 4 - _) with (Zlen c) by lia.
    rewrite (encode_local_exact m buffer length next STUN_UNKNOWN_ATTRIBUTES c)
      by (unfold attr_size, is_u16 in *; rewrite ?Hc; (done || apply bytes_wire_array || lia)).
    cbn [mbind option_bind]. unfold attr_size. rewrite Hc. unfold set_next. by destruct (negb (next =? NULL)).
  - apply same_outside_write; [lia|]. by rewrite Zlen_attr_bytes, Hc.
  - unfold ov_stun_unknown_attributes_decode, ov_stun_attribute_frame_is_unknown_attributes, NULL.
    decide_guard. rewrite (get_type_attr _ buffer _ c length Ha), (get_length_attr _ buffer _ c length Ha)
      by (done || lia). cbn [mbind option_bind]. rewrite Z.eqb_refl. cbn [negb]. decide_guard. cbn [negb mbind option_bind].
    rewrite push_pointers_spec by dlia. cbn [mbind option_bind]. rewrite Hc, app_nil_l.
    replace ((2 * Zlen l - 0) / 2) with (Zlen l) by dlia. do 2 f_equal.
    apply list_fmap_ext. intros. by rewrite Z.add_0_r.
  - apply attr_at_content in Ha. apply decode_pointers_spec; [done|done|lia].
Qed.

Lemma unknown_attributes_roundtrip_witness :
  exists m' ps,
    ov_stun_unknown_attributes_encode (write (write ∅ 16 (zeros 8)) 64 (u16_array [0x8022])) 16 8 1 64 1 =
      Some (true, set_next 1 24, m') /\
    ov_stun_unknown_attributes_decode m' 16 8 = Some (Some ps) /\
    mapM (ov_stun_unknown_attributes_decode_pointer m') ps = Some [0x8022].
Proof.
  destruct (unknown_attributes_roundtrip (write (write ∅ 16 (zeros 8)) 64 (u16_array [0x8022])) 16 8 1 64
    [0x8022]) as (m' & ps & H1 & _ & H2 & _ & H3).
  - apply region_write. lia.
  - repeat constructor; unfold is_u16; lia.
  - vm_compute. split; discriminate.
  - apply mapped_write, (region_mapped _ 16 (zeros 8)), region_write. lia.
  - vm_compute. discriminate.
  - exists m', ps. split; [exact H1|]. split; [exact H2|exact H3].
Defined.
