(* ===== verification/TurnAttributes.v ===== *)
(** * TURN and ICE attributes

    The attributes of RFC 5766/8656 (src/lib/ov_stun/src/ov_turn_attr_*.c), of
    RFC 5245 (ov_stun_attributes_rfc5245.c) and USERHASH and
    PASSWORD-ALGORITHM(S) of RFC 8489 (ov_stun_attr_*.c), one group per file.
    An interface, [AttrCodec], states what an attribute's encoder, frame check
    and decoder promise together.

    The decoders of LIFETIME and ICMP shift an octet, an [int] by then, left by 24:
    from 0x80 on C leaves that undefined. It is modelled as what compilers make of
    it, the wrapped value that the following conversion to 32 bits keeps. *)
From S2P Require Import Prelude CMem Utf8 Endian StunAttribute StunFrame StunErrorCode.

(** ** The code *)

(** The frame checks of attributes of a fixed size: some files compare the
    length of the buffer with the size once more, some do not. *)
Definition frame_is_sized (TYPE MIN SIZE : Z) (recheck : bool) (m : mem) (buffer : ptr) (length : Z)
    : option bool :=
  if (buffer =? NULL) || (length <? MIN) then Some false else
  type ← ov_stun_attribute_get_type m buffer length;
  size ← ov_stun_attribute_get_length m buffer length;
  if negb (type =? TYPE) then Some false else
  if negb (size =? SIZE) then Some false else
  if recheck && (length <? size + 4) then Some false else Some true.
(** The frame checks that compare the type only. *)
Definition frame_is_type (TYPE : Z) (m : mem) (buffer : ptr) (length : Z) : option bool :=
  if (buffer =? NULL) || (length <? 8) then Some false else
  type ← ov_stun_attribute_get_type m buffer length;
  if negb (type =? TYPE) then Some false else Some true.

(** A decoder's result: truth value and what it stores through its out
    parameters. *)
Abbreviation decoded_value V := (option (bool * option V)).

(** *** ov_turn_attr_lifetime.c *)
Definition TURN_LIFETIME : Z := 0x000D.
Definition ov_turn_attr_is_lifetime := frame_is_sized TURN_LIFETIME 8 4 true.
Definition ov_turn_attr_lifetime_encoding_length : Z := 8.
Definition ov_turn_attr_lifetime_encode (m : mem) (buffer : ptr) (length : Z) (next : ptr) (number : Z)
    : encoded :=
  if buffer =? NULL then Some (false, None, m) else
  let len := ov_turn_attr_lifetime_encoding_length in
  if length <? len then Some (false, None, m) else
  let buf := [u8 (number .>> 24); u8 (number .>> 16); u8 (number .>> 8); u8 number] in
  encode_local m buffer length next TURN_LIFETIME buf 4.
Definition ov_turn_attr_lifetime_decode (m : mem) (buffer : ptr) (length : Z) (number : ptr)
    : decoded_value Z :=
  if (buffer =? NULL) || (length <? 8) || (number =? NULL) then Some (false, None) else
  valid ← ov_turn_attr_is_lifetime m buffer length;
  if negb valid then Some (false, None) else
  b7 ← load8 m (buffer + 7);
  let num := b7 in
  b6 ← load8 m (buffer + 6);
  let num := u32 (num + (b6 .<< 8)) in
  b5 ← load8 m (buffer + 5);
  let num := u32 (num + (b5 .<< 16)) in
  b4 ← load8 m (buffer + 4);
  let num := u32 (num + (b4 .<< 24)) in
  Some (true, Some num).

(** *** ov_turn_attr_channel_number.c *)
Definition TURN_CHANNEL_NUMBER : Z := 0x000C.
Definition ov_turn_attr_is_channel_number := frame_is_sized TURN_CHANNEL_NUMBER 8 4 true.
Definition ov_turn_attr_channel_number_encoding_length : Z := 8.
Definition ov_turn_attr_channel_number_encode (m : mem) (buffer : ptr) (length : Z) (next : ptr)
    (number : Z) : encoded :=
  if buffer =? NULL then Some (false, None, m) else
  let len := ov_turn_attr_channel_number_encoding_length in
  if length <? len then Some (false, None, m) else
  let buf := [u8 (number .>> 8); u8 number; 0; 0] in
  encode_local m buffer length next TURN_CHANNEL_NUMBER buf 4.
Definition ov_turn_attr_channel_number_decode (m : mem) (buffer : ptr) (length : Z) (number : ptr)
    : decoded_value Z :=
  if (buffer =? NULL) || (length <? 8) || (number =? NULL) then Some (false, None) else
  valid ← ov_turn_attr_is_channel_number m buffer length;
  if negb valid then Some (false, None) else
  b5 ← load8 m (buffer + 5);
  let num := b5 in
  b4 ← load8 m (buffer + 4);
  let num := u16 (num + (b4 .<< 8)) in
  Some (true, Some num).

(** *** ov_turn_attr_even_port.c *)
Definition TURN_EVEN_PORT : Z := 0x0018.
Definition ov_turn_attr_is_even_port := frame_is_sized TURN_EVEN_PORT 8 4 true.
Definition ov_turn_attr_even_port_encoding_length : Z := 8.
Definition ov_turn_attr_even_port_encode (m : mem) (buffer : ptr) (length : Z) (next : ptr) (set : bool)
    : encoded :=
  if buffer =? NULL then Some (false, None, m) else
  let len := ov_turn_attr_even_port_encoding_length in
  if length <? len then Some (false, None, m) else
  let buf := [if set then 0x80 else 0; 0; 0; 0] in
  encode_local m buffer length next TURN_EVEN_PORT buf 4.
Definition ov_turn_attr_even_port_decode (m : mem) (buffer : ptr) (length : Z) (set : ptr)
    : decoded_value bool :=
  if (buffer =? NULL) || (length <? 8) || (set =? NULL) then Some (false, None) else
  valid ← ov_turn_attr_is_even_port m buffer length;
  if negb valid then Some (false, None) else
  b4 ← load8 m (buffer + 4);
  Some (true, Some (nz (b4 .& 0x80))).

(** *** ov_turn_attr_requested_transport.c *)
Definition TURN_REQUESTED_TRANSPORT : Z := 0x0019.
Definition ov_turn_attr_is_requested_transport := frame_is_sized TURN_REQUESTED_TRANSPORT 8 4 true.
Definition ov_turn_attr_requested_transport_encoding_length : Z := 8.
Definition ov_turn_attr_requested_transport_encode (m : mem) (buffer : ptr) (length : Z) (next : ptr)
    (protocol : Z) : encoded :=
  if buffer =? NULL then Some (false, None, m) else
  let len := ov_turn_attr_requested_transport_encoding_length in
  if length <? len then Some (false, None, m) else
  let buf := [protocol; 0; 0; 0] in
  encode_local m buffer length next TURN_REQUESTED_TRANSPORT buf 4.
Definition ov_turn_attr_requested_transport_decode (m : mem) (buffer : ptr) (length : Z)
    (protocol : ptr) : decoded_value Z :=
  if (buffer =? NULL) || (length <? 8) || (protocol =? NULL) then Some (false, None) else
  valid ← ov_turn_attr_is_requested_transport m buffer length;
  if negb valid then Some (false, None) else
  b4 ← load8 m (buffer + 4);
  Some (true, Some b4).

(** *** ov_turn_attr_requested_addr_family.c and
    ov_turn_attr_additional_address_family.c, copies of each other *)
Section Family.
Context (TYPE : Z).
Definition is_addr_family := frame_is_sized TYPE 8 4 true.
Definition addr_family_encode (m : mem) (buffer : ptr) (length : Z) (next : ptr) (number : Z)
    : encoded :=
  if buffer =? NULL then Some (false, None, m) else
  if length <? 8 then Some (false, None, m) else
  if negb ((number =? 0x01) || (number =? 0x02)) then Some (false, None, m) else
  let buf := [u8 number; 0; 0; 0] in
  encode_local m buffer length next TYPE buf 4.
Definition addr_family_decode (m : mem) (buffer : ptr) (length : Z) (number : ptr)
    : decoded_value Z :=
  if (buffer =? NULL) || (length <? 8) || (number =? NULL) then Some (false, None) else
  valid ← is_addr_family m buffer length;
  if negb valid then Some (false, None) else
  b4 ← load8 m (buffer + 4);
  Some (true, Some b4).
End Family.
Definition TURN_REQUESTED_ADDRESS_FAMILY : Z := 0x0017.
Definition ov_turn_attr_is_requested_addr_family := is_addr_family TURN_REQUESTED_ADDRESS_FAMILY.
Definition ov_turn_attr_requested_addr_family_encoding_length : Z := 8.
Definition ov_turn_attr_requested_addr_family_encode := addr_family_encode TURN_REQUESTED_ADDRESS_FAMILY.
Definition ov_turn_attr_requested_addr_family_decode := addr_family_decode TURN_REQUESTED_ADDRESS_FAMILY.
Definition TURN_ADDITIONAL_ADDRESS_FAMILY : Z := 0x8000.
Definition ov_turn_attr_is_additional_addr_family := is_addr_family TURN_ADDITIONAL_ADDRESS_FAMILY.
Definition ov_turn_attr_additional_addr_family_encoding_length : Z := 8.
Definition ov_turn_attr_additional_addr_family_encode := addr_family_encode TURN_ADDITIONAL_ADDRESS_FAMILY.
Definition ov_turn_attr_additional_addr_family_decode := addr_family_decode TURN_ADDITIONAL_ADDRESS_FAMILY.

(** *** ov_turn_attr_dont_fragment.c *)
Definition TURN_DONT_FRAGMENT : Z := 0x001A.
Definition ov_turn_attr_is_dont_fragment := frame_is_sized TURN_DONT_FRAGMENT 4 0 false.
Definition ov_turn_attr_dont_fragment_encoding_length : Z := 4.
Definition ov_turn_attr_dont_fragment_encode (m : mem) (buffer : ptr) (length : Z) (next : ptr)
    : encoded :=
  if buffer =? NULL then Some (false, None, m) else
  let len := ov_turn_attr_dont_fragment_encoding_length in
  if length <? len then Some (false, None, m) else
  ov_stun_attribute_encode m buffer length next TURN_DONT_FRAGMENT NULL 0.

(** *** ov_turn_attr_icmp.c *)
Definition TURN_ICMP : Z := 0x8004.
Definition ov_turn_attr_is_icmp := frame_is_sized TURN_ICMP 12 8 true.
Definition ov_turn_attr_icmp_encoding_length : Z := 12.
Definition ov_turn_attr_icmp_encode (m : mem) (buffer : ptr) (length : Z) (next : ptr)
    (type code error : Z) : encoded :=
  if buffer =? NULL then Some (false, None, m) else
  let len := ov_turn_attr_icmp_encoding_length in
  if length <? len then Some (false, None, m) else
  let buf := [0; 0; type; code; u8 (error .>> 24); u8 (error .>> 16); u8 (error .>> 8); u8 error;
              0; 0; 0; 0] in
  encode_local m buffer length next TURN_ICMP buf 8.
Definition ov_turn_attr_icmp_decode (m : mem) (buffer : ptr) (length : Z) (type code error : ptr)
    : decoded_value (Z * Z * Z) :=
  if (buffer =? NULL) || (length <? 12) || (type =? NULL) || (code =? NULL) || (error =? NULL)
  then Some (false, None) else
  valid ← ov_turn_attr_is_icmp m buffer length;
  if negb valid then Some (false, None) else
  t ← load8 m (buffer + 6);
  c ← load8 m (buffer + 7);
  b11 ← load8 m (buffer + 11);
  let err := b11 in
  b10 ← load8 m (buffer + 10);
  let err := u32 (err + (b10 .<< 8)) in
  b9 ← load8 m (buffer + 9);
  let err := u32 (err + (b9 .<< 16)) in
  b8 ← load8 m (buffer + 8);
  let err := u32 (err + (b8 .<< 24)) in
  Some (true, Some (t, c, err)).

(** *** ov_turn_attr_address_error_code.c *)
Definition TURN_ADDRESS_ERROR_CODE : Z := 0x8001.
Definition OV_TURN_PHRASE_MAX : Z := 500.
Definition ov_turn_attr_is_address_error_code (m : mem) (buffer : ptr) (length : Z) : option bool :=
  if (buffer =? NULL) || (length <? 12) then Some false else
  type ← ov_stun_attribute_get_type m buffer length;
  if negb (type =? TURN_ADDRESS_ERROR_CODE) then Some false else
  b4 ← load8 m (buffer + 4);
  if negb ((b4 =? 0x01) || (b4 =? 0x02)) then Some false else
  b7 ← load8 m (buffer + 7);
  if 0 =? b7 then Some false else Some true.
Definition ov_turn_attr_address_error_code_encoding_length (phrase : Z) : Z := 8 + phrase.
Definition ov_turn_attr_address_error_code_encode (m : mem) (buffer : ptr) (length : Z) (next : ptr)
    (family code : Z) (phrase : ptr) (phrase_len : Z) : encoded :=
  if (buffer =? NULL) || (phrase =? NULL) || (OV_TURN_PHRASE_MAX <? phrase_len)
  then Some (false, None, m) else
  let len := ov_turn_attr_address_error_code_encoding_length phrase_len in
  if length <? len then Some (false, None, m) else
  if negb ((family =? 0x01) || (family =? 0x02)) then Some (false, None, m) else
  if (code <? 99) || (999 <? code) then Some (false, None, m) else
  bs ← loadn m phrase (Z.to_nat phrase_len);
  let buf := [family; 0; u8 (code / 100); u8 (code mod 100)] ++ bs ++
             zeros (100 + OV_TURN_PHRASE_MAX - 4 - phrase_len) in
  encode_local m buffer length next TURN_ADDRESS_ERROR_CODE buf (4 + phrase_len).
(** The value: family, code, phrase and its length. *)
Definition ov_turn_attr_address_error_code_decode (m : mem) (buffer : ptr) (length : Z)
    (family number phrase phrase_len : ptr) : decoded_value (Z * Z * ptr * Z) :=
  if (buffer =? NULL) || (length <? 8) || (number =? NULL) || (phrase =? NULL) ||
     (phrase_len =? NULL) || (family =? NULL) then Some (false, None) else
  valid ← ov_turn_attr_is_address_error_code m buffer length;
  if negb valid then Some (false, None) else
  len ← ov_stun_attribute_get_length m buffer length;
  if len <=? 0 then Some (false, None) else
  f ← load8 m (buffer + 4);
  b6 ← load8 m (buffer + 6);
  let num := b6 in
  let num := u16 (num * 100) in
  b7 ← load8 m (buffer + 7);
  let num := u16 (num + b7) in
  Some (true, Some (f, num, buffer + 8, u64 (len - 4))).

(** *** Octet strings: ov_turn_attr_data.c, ov_stun_attr_userhash.c (copies of
    each other) and ov_turn_attr_reservation_token.c *)
Section Octets.
Context (TYPE : Z).
Definition is_octets := frame_is_type TYPE.
Definition octets_encoding_length (data : Z) : Z := data + 4 + padding data.
Definition octets_encode (m : mem) (buffer : ptr) (length : Z) (next data : ptr) (size : Z)
    : encoded :=
  if (buffer =? NULL) || (data =? NULL) || (size <? 1) then Some (false, None, m) else
  let len := octets_encoding_length size in
  if length <? len then Some (false, None, m) else
  ov_stun_attribute_encode m buffer length next TYPE data size.
Definition octets_decode (m : mem) (buffer : ptr) (length : Z) (data size : ptr)
    : decoded_value (ptr * Z) :=
  if (buffer =? NULL) || (length <? 8) || (data =? NULL) || (size =? NULL)
  then Some (false, None) else
  valid ← is_octets m buffer length;
  if negb valid then Some (false, None) else
  len ← ov_stun_attribute_get_length m buffer length;
  if len <=? 0 then Some (false, None) else Some (true, Some (buffer + 4, len)).
End Octets.
Definition TURN_ATTR_DATA : Z := 0x0013.
Definition ov_turn_attr_is_data := is_octets TURN_ATTR_DATA.
Definition ov_turn_attr_data_encoding_length := octets_encoding_length.
Definition ov_turn_attr_data_encode := octets_encode TURN_ATTR_DATA.
Definition ov_turn_attr_data_decode := octets_decode TURN_ATTR_DATA.
Definition STUN_ATTR_USERHASH : Z := 0x001E.
Definition ov_stun_attr_is_userhash := is_octets STUN_ATTR_USERHASH.
Definition ov_stun_attr_userhash_encoding_length := octets_encoding_length.
Definition ov_stun_attr_userhash_encode := octets_encode STUN_ATTR_USERHASH.
Definition ov_stun_attr_userhash_decode := octets_decode STUN_ATTR_USERHASH.

Definition TURN_RESERVATION_TOKEN : Z := 0x0022.
Definition ov_turn_attr_is_reservaton_token := frame_is_sized TURN_RESERVATION_TOKEN 12 8 false.
Definition ov_turn_attr_reservaton_token_encoding_length : Z := 12.
Definition ov_turn_attr_reservaton_token_encode (m : mem) (buffer : ptr) (length : Z)
    (next reservaton_token : ptr) (size : Z) : encoded :=
  if (buffer =? NULL) || (reservaton_token =? NULL) || negb (size =? 8) then Some (false, None, m) else
  let len := ov_turn_attr_reservaton_token_encoding_length in
  if length <? len then Some (false, None, m) else
  ov_stun_attribute_encode m buffer length next TURN_RESERVATION_TOKEN reservaton_token size.
Definition ov_turn_attr_reservaton_token_decode (m : mem) (buffer : ptr) (length : Z)
    (reservaton_token size : ptr) : decoded_value (ptr * Z) :=
  if (buffer =? NULL) || (length <? 8) || (reservaton_token =? NULL) || (size =? NULL)
  then Some (false, None) else
  valid ← ov_turn_attr_is_reservaton_token m buffer length;
  if negb valid then Some (false, None) else
  len ← ov_stun_attribute_get_length m buffer length;
  if len <=? 0 then Some (false, None) else Some (true, Some (buffer + 4, len)).

(** *** ov_stun_attr_alternate_domain.c *)
Definition STUN_ATTR_ALTERNATE_DOMAIN : Z := 0x8003.
Definition ov_stun_attribute_frame_is_alternate_domain := frame_is_type STUN_ATTR_ALTERNATE_DOMAIN.

(** *** ov_stun_attr_password_algorithm.c *)
Definition STUN_ATTR_PASSWORD_ALGORITHM : Z := 0x001D.
Definition ov_stun_attr_is_password_algorithm := frame_is_type STUN_ATTR_PASSWORD_ALGORITHM.
Definition ov_stun_attr_password_algorithm_encoding_length (password : Z) : Z :=
  password + 8 + padding password.
Definition ov_stun_attr_password_algorithm_encode (m : mem) (buffer : ptr) (length : Z) (next : ptr)
    (algorithm parameter_length : Z) (parameter : ptr) : encoded :=
  let size := parameter_length + 4 in
  if (buffer =? NULL) || (size <? 1) || (parameter =? NULL) then Some (false, None, m) else
  let len := ov_stun_attr_password_algorithm_encoding_length parameter_length in
  if length <? len then Some (false, None, m) else
  bs ← loadn m parameter (Z.to_nat (size - 4));
  let buf := [u8 (algorithm .>> 8); u8 algorithm; u8 (parameter_length .>> 8); u8 parameter_length] ++ bs in
  encode_local m buffer length next STUN_ATTR_PASSWORD_ALGORITHM buf size.
(** The value: algorithm, size and address of the parameters. *)
Definition ov_stun_attr_password_algorithm_decode (m : mem) (buffer : ptr) (length : Z)
    (algorithm size params : ptr) : decoded_value (Z * Z * ptr) :=
  if (buffer =? NULL) || (length <? 8) || (algorithm =? NULL) || (size =? NULL) || (params =? NULL)
  then Some (false, None) else
  valid ← ov_stun_attr_is_password_algorithm m buffer length;
  if negb valid then Some (false, None) else
  len ← ov_stun_attribute_get_length m buffer length;
  if len <=? 0 then Some (false, None) else
  b4 ← load8 m (buffer + 4);
  let num := u16 (b4 .<< 8) in
  b5 ← load8 m (buffer + 5);
  let alg := u16 (num + b5) in
  b6 ← load8 m (buffer + 6);
  let num := u16 (b6 .<< 8) in
  b7 ← load8 m (buffer + 7);
  let num := u16 (num + b7) in
  Some (true, Some (alg, num, buffer + 8)).

(** *** ov_stun_attr_password_algorithms.c *)
Definition STUN_ATTR_PASSWORD_ALGORITHMS : Z := 0x8002.
Definition ov_stun_attr_is_password_algorithms := frame_is_type STUN_ATTR_PASSWORD_ALGORITHMS.
Definition ov_stun_attr_encode_password_algorithms_rfc8489_length : Z := 4 + 8.
Definition ov_stun_attr_encode_password_algorithms_rfc8489 (m : mem) (buffer : ptr) (length : Z)
    (next : ptr) : encoded :=
  let buf := [0x00; 0x02; 0x00; 0x00; 0x00; 0x01; 0x00; 0x00] in
  encode_local m buffer length next STUN_ATTR_PASSWORD_ALGORITHMS buf 8.

(** *** ov_stun_attributes_rfc5245.c *)
Definition ICE_PRIORITY : Z := 0x0024.
Definition ICE_USE_CANDIDATE : Z := 0x0025.
Definition ICE_CONTROLLED : Z := 0x8029.
Definition ICE_CONTROLLING : Z := 0x802A.
Definition ICE_ROLE_CONFLICT : Z := 487.
Definition ov_stun_attribute_frame_is_priority := frame_is_sized ICE_PRIORITY 8 4 false.
Definition ov_stun_attribute_frame_is_use_candidate := frame_is_sized ICE_USE_CANDIDATE 4 0 false.
Definition ov_stun_attribute_frame_is_ice_controlled := frame_is_sized ICE_CONTROLLED 12 8 false.
Definition ov_stun_attribute_frame_is_ice_controlling := frame_is_sized ICE_CONTROLLING 12 8 false.
Definition ov_stun_ice_priority_encoding_length : Z := 8.
Definition ov_stun_ice_use_candidate_encoding_length : Z := 4.
Definition ov_stun_ice_controlled_encoding_length : Z := 12.
Definition ov_stun_ice_controlling_encoding_length : Z := 12.

Definition ov_stun_ice_priority_encode (m : mem) (buffer : ptr) (length : Z) (next : ptr)
    (priority : Z) : encoded :=
  if (buffer =? NULL) || (length <? 8) then Some (false, None, m) else
  '(ok, m) ← ov_stun_attribute_set_type m buffer length ICE_PRIORITY;
  if negb ok then Some (false, None, m) else
  '(ok, m) ← ov_stun_attribute_set_length m buffer length 4;
  if negb ok then Some (false, None, m) else
  ov_endian_write_uint32_be m (buffer + 4) (length - 4) next priority.
Definition ov_stun_ice_priority_decode (m : mem) (buffer : ptr) (length : Z) (priority : ptr)
    : decoded_value Z :=
  let error := Some (false, if negb (priority =? NULL) then Some 0 else None) in
  if (buffer =? NULL) || (length <? 8) || (priority =? NULL) then error else
  valid ← ov_stun_attribute_frame_is_priority m buffer length;
  if negb valid then error else
  '(_, value) ← ov_endian_read_uint32_be m (buffer + 4) (length - 4) priority;
  Some (true, value).

Definition ov_stun_ice_use_candidate_encode (m : mem) (buffer : ptr) (length : Z) (next : ptr)
    : encoded :=
  if (buffer =? NULL) || (length <? 4) then Some (false, None, m) else
  '(ok, m) ← ov_stun_attribute_set_type m buffer length ICE_USE_CANDIDATE;
  if negb ok then Some (false, None, m) else
  '(ok, m) ← ov_stun_attribute_set_length m buffer length 0;
  if negb ok then Some (false, None, m) else
  Some (true, set_next next (buffer + 4), m).

(** ICE-CONTROLLED and ICE-CONTROLLING, copies of each other. *)
Section Controlled.
Context (TYPE : Z).
Definition ice_role_encode (m : mem) (buffer : ptr) (length : Z) (next : ptr) (number : Z) : encoded :=
  if (buffer =? NULL) || (length <? 12) then Some (false, None, m) else
  '(ok, m) ← ov_stun_attribute_set_type m buffer length TYPE;
  if negb ok then Some (false, None, m) else
  '(ok, m) ← ov_stun_attribute_set_length m buffer length 8;
  if negb ok then Some (false, None, m) else
  ov_endian_write_uint64_be m (buffer + 4) (length - 4) next number.
Definition ice_role_decode (m : mem) (buffer : ptr) (length : Z) (number : ptr) : decoded_value Z :=
  let error := Some (false, if negb (number =? NULL) then Some 0 else None) in
  if (buffer =? NULL) || (length <? 12) || (number =? NULL) then error else
  valid ← frame_is_sized TYPE 12 8 false m buffer length;
  if negb valid then error else
  '(ok, value) ← ov_endian_read_uint64_be m (buffer + 4) (length - 4) number;
  if (ok : bool) then Some (true, value) else error.
End Controlled.
Definition ov_stun_ice_controlled_encode := ice_role_encode ICE_CONTROLLED.
Definition ov_stun_ice_controlled_decode := ice_role_decode ICE_CONTROLLED.
Definition ov_stun_ice_controlling_encode := ice_role_encode ICE_CONTROLLING.
Definition ov_stun_ice_controlling_decode := ice_role_decode ICE_CONTROLLING.

Definition ov_stun_error_code_set_ice_role_conflict : attribute_setter :=
  encode_phrase ICE_ROLE_CONFLICT "role conflict".

(** ** The interface of an attribute that carries a value *)

(** [enc], [chk] and [dec] implement the attribute [TYPE] with the content
    [content v] for the values [v] that are [valid]. *)
Class AttrCodec {V : Type} (TYPE : Z) (valid : V -> Prop) (content : V -> list Z)
    (chk : mem -> ptr -> Z -> option bool)
    (enc : mem -> ptr -> Z -> ptr -> V -> encoded)
    (dec : mem -> ptr -> Z -> decoded_value V) := {
  ac_encode m buffer length next v :
    valid v -> mapped m buffer (attr_size (Zlen (content v))) -> attr_size (Zlen (content v)) <= length ->
    enc m buffer length next v =
      Some (true, set_next next (buffer + attr_size (Zlen (content v))),
            write m buffer (attr_bytes TYPE (content v)));
  ac_refuse m buffer length next v :
    valid v -> length < attr_size (Zlen (content v)) ->
    enc m buffer length next v = Some (false, None, m);
  ac_is m p length v :
    valid v -> attr_at m p TYPE (content v) -> attr_size (Zlen (content v)) <= length ->
    chk m p length = Some true;
  ac_decode m p length v :
    valid v -> attr_at m p TYPE (content v) -> attr_size (Zlen (content v)) <= length ->
    dec m p length = Some (true, Some v)
}.

(** ** Lemmas *)

Lemma frame_is_sized_attr TYPE MIN SIZE re m p length c :
  attr_at m p TYPE c -> is_u16 TYPE -> Zlen c = SIZE -> 0 <= SIZE < 65536 -> MIN <= length ->
  4 + SIZE <= length -> frame_is_sized TYPE MIN SIZE re m p length = Some true.
Proof.
  intros Ha HT Hc HS Hmin Hl. pose proof Ha as [Hp _]. unfold frame_is_sized, NULL. decide_guard.
  rewrite (get_type_attr m p TYPE c), (get_length_attr m p TYPE c)
    by (unfold is_u16 in *; done || lia). cbn [mbind option_bind].
  rewrite Z.eqb_refl, Hc, Z.eqb_refl. cbn [negb]. destruct re; [|done]. cbn [andb]. by decide_guard.
Qed.

Lemma be32_sum a b c d :
  is_byte a -> is_byte b -> is_byte c -> is_byte d ->
  u32 (u32 (u32 (d + (c .<< 8)) + (b .<< 16)) + (a .<< 24)) = be_val [a; b; c; d].
Proof.
  unfold is_byte, be_val. intros Ha Hb Hc Hd. cbn [fold_left]. rewrite !Z.shiftl_mul_pow2 by lia.
  rewrite (u32_id (d + _)) by lia. rewrite (u32_id (_ + b * _)) by lia. rewrite u32_id by lia. lia.
Qed.
Lemma be16_sum a b : is_byte a -> is_byte b -> u16 (b + (a .<< 8)) = be_val [a; b].
Proof.
  unfold is_byte, be_val. intros Ha Hb. cbn [fold_left]. rewrite !Z.shiftl_mul_pow2 by lia.
  rewrite u16_id by lia. lia.
Qed.
Lemma be16_sum' a b : is_byte a -> is_byte b -> u16 (u16 (a .<< 8) + b) = be_val [a; b].
Proof.
  intros Ha Hb. rewrite (u16_id (_ .<< _)); [by rewrite Z.add_comm, be16_sum|].
  unfold is_byte in *. rewrite Z.shiftl_mul_pow2 by lia. lia.
Qed.

(** Loads of the content octets of an attribute, by their offset. *)
Lemma load_content m p t c q x :
  attr_at m p t c -> 0 <= q - (p + 4) < Zlen c -> c.[q - (p + 4)] = x -> load8 m q = Some x.
Proof.
  intros Ha Hq <-. by rewrite (load8_region_at m (p + 4) c q) by first [by eapply attr_at_content|done].
Qed.
Ltac load_contents Ha :=
  repeat match type of Ha with
  | attr_at ?m ?p ?t ?c =>
      match goal with
      | |- context [load8 m (p + ?i)] =>
          let k := eval vm_compute in (i - 4) in
          let x := eval cbv -[u8 Z.shiftr] in (znth c k) in
          rewrite (load_content m p t c (p + i) x Ha)
            by first [ zlia | replace (p + i - (p + 4)) with k by lia; reflexivity ];
          cbn [mbind option_bind]
      end
  end.

(** The decoders' first steps on an attribute that is there. *)
Ltac decode_start Ha :=
  let Hp := fresh "Hp" in pose proof Ha as [Hp _]; unfold LOCAL, NULL; decide_guard;
  rewrite (frame_is_sized_attr _ _ _ _ _ _ _ _ Ha) by (unfold is_u16; done || zlia);
  cbn [mbind option_bind negb].
(** [sized n]: the size of the attribute at hand, by computation. *)
Ltac sized n := repeat match goal with
  | H : context [attr_size (Zlen ?c)] |- _ => change (attr_size (Zlen c)) with n in H
  | |- context [attr_size (Zlen ?c)] => change (attr_size (Zlen c)) with n
  end.
Ltac lengths := cbv delta [ov_turn_attr_lifetime_encoding_length ov_turn_attr_channel_number_encoding_length
  ov_turn_attr_even_port_encoding_length ov_turn_attr_requested_transport_encoding_length
  ov_turn_attr_dont_fragment_encoding_length ov_turn_attr_icmp_encoding_length]; cbv beta zeta.
(** The four laws, for encoders that copy a local array. *)
Ltac encode_law n e f :=
  let Hm := fresh "Hm" in let Hl := fresh "Hl" in let Hp := fresh "Hp" in
  let v := fresh "v" in intros ? ? ? ? v ? Hm Hl; sized n; pose proof Hm as [Hp _]; unfold e, NULL; lengths; repeat decide_guard;
  apply (encode_local_exact _ _ _ _ _ (f v)); unfold is_u16; try done.
Ltac refuse_law n e := intros; sized n; unfold e; lengths; case_if; [done|]; first [lia | by repeat decide_guard].
Ltac is_law n :=
  let Ha := fresh "Ha" in intros ? ? ? ? ? Ha ?; sized n;
  apply (frame_is_sized_attr _ _ _ _ _ _ _ _ Ha); unfold is_u16; (done || lia).
Ltac decode_law n d c Ha := intros m p length v Hv Ha Hl; sized n; unfold d, c; decode_start Ha; load_contents Ha.

Definition word (x : Z) : Prop := 0 <= x < 2 ^ 32.
Definition dword (x : Z) : Prop := 0 <= x < 2 ^ 64.

#[export] Instance lifetime_codec :
  AttrCodec TURN_LIFETIME word be32 ov_turn_attr_is_lifetime ov_turn_attr_lifetime_encode
    (fun m p l => ov_turn_attr_lifetime_decode m p l LOCAL).
Proof.
  split.
  - encode_law 8 ov_turn_attr_lifetime_encode be32. auto with ov.
  - refuse_law 8 ov_turn_attr_lifetime_encode.
  - is_law 8.
  - decode_law 8 ov_turn_attr_lifetime_decode ov_turn_attr_is_lifetime Ha.
    rewrite be32_sum by apply is_byte_u8. do 2 f_equal. by apply f_equal, be_val_be32.
Qed.

#[export] Instance channel_number_codec :
  AttrCodec TURN_CHANNEL_NUMBER is_u16 (fun v => be16 v ++ [0; 0]) ov_turn_attr_is_channel_number
    ov_turn_attr_channel_number_encode (fun m p l => ov_turn_attr_channel_number_decode m p l LOCAL).
Proof.
  split.
  - encode_law 8 ov_turn_attr_channel_number_encode (fun v => be16 v ++ [0; 0]).
    apply bytes_app. split; [auto with ov|]. repeat constructor; unfold is_byte; lia.
  - refuse_law 8 ov_turn_attr_channel_number_encode.
  - is_law 8.
  - decode_law 8 ov_turn_attr_channel_number_decode ov_turn_attr_is_channel_number Ha.
    rewrite be16_sum by apply is_byte_u8. do 2 f_equal. by apply f_equal, be_val_be16.
Qed.

#[export] Instance even_port_codec :
  AttrCodec TURN_EVEN_PORT (fun _ => True) (fun v : bool => [if v then 0x80 else 0; 0; 0; 0])
    ov_turn_attr_is_even_port ov_turn_attr_even_port_encode
    (fun m p l => ov_turn_attr_even_port_decode m p l LOCAL).
Proof.
  split.
  - encode_law 8 ov_turn_attr_even_port_encode (fun v : bool => [if v then 0x80 else 0; 0; 0; 0]).
    destruct v; repeat constructor; unfold is_byte; lia.
  - refuse_law 8 ov_turn_attr_even_port_encode.
  - is_law 8.
  - decode_law 8 ov_turn_attr_even_port_decode ov_turn_attr_is_even_port Ha. by destruct v.
Qed.

#[export] Instance requested_transport_codec :
  AttrCodec TURN_REQUESTED_TRANSPORT is_byte (fun v => [v; 0; 0; 0])
    ov_turn_attr_is_requested_transport ov_turn_attr_requested_transport_encode
    (fun m p l => ov_turn_attr_requested_transport_decode m p l LOCAL).
Proof.
  split.
  - encode_law 8 ov_turn_attr_requested_transport_encode (fun v => [v; 0; 0; 0]).
    repeat constructor; unfold is_byte in *; lia.
  - refuse_law 8 ov_turn_attr_requested_transport_encode.
  - is_law 8.
  - decode_law 8 ov_turn_attr_requested_transport_decode ov_turn_attr_is_requested_transport Ha. done.
Qed.

Definition family_number (v : Z) : Prop := v = 1 \/ v = 2.
Lemma addr_family_codec TYPE :
  is_u16 TYPE -> AttrCodec TYPE family_number (fun v => [v; 0; 0; 0]) (is_addr_family TYPE)
    (addr_family_encode TYPE) (fun m p l => addr_family_decode TYPE m p l LOCAL).
Proof.
  intros HT. split.
  - intros m buffer length next v [-> | ->] Hm Hl; sized 8; pose proof Hm as [Hp _];
      unfold addr_family_encode, NULL; guards;
      [apply (encode_local_exact _ _ _ _ _ [1; 0; 0; 0]) | apply (encode_local_exact _ _ _ _ _ [2; 0; 0; 0])];
      (done || (repeat constructor; unfold is_byte; lia)).
  - refuse_law 8 addr_family_encode.
  - intros m p length v Hv Ha Hl. sized 8. by apply (frame_is_sized_attr _ _ _ _ _ _ _ _ Ha).
  - decode_law 8 addr_family_decode is_addr_family Ha. done.
Qed.
#[export] Instance requested_addr_family_codec :
  AttrCodec TURN_REQUESTED_ADDRESS_FAMILY family_number (fun v => [v; 0; 0; 0])
    ov_turn_attr_is_requested_addr_family ov_turn_attr_requested_addr_family_encode
    (fun m p l => ov_turn_attr_requested_addr_family_decode m p l LOCAL).
Proof. apply addr_family_codec. done. Qed.
#[export] Instance additional_addr_family_codec :
  AttrCodec TURN_ADDITIONAL_ADDRESS_FAMILY family_number (fun v => [v; 0; 0; 0])
    ov_turn_attr_is_additional_addr_family ov_turn_attr_additional_addr_family_encode
    (fun m p l => ov_turn_attr_additional_addr_family_decode m p l LOCAL).
Proof. apply addr_family_codec. done. Qed.

(** An ICMP error: type, code and error data. *)
Definition icmp_valid (v : Z * Z * Z) : Prop := let '(t, c, e) := v in is_byte t /\ is_byte c /\ word e.
Definition icmp_content (v : Z * Z * Z) : list Z := let '(t, c, e) := v in [0; 0; t; c] ++ be32 e.
#[export] Instance icmp_codec :
  AttrCodec TURN_ICMP icmp_valid icmp_content ov_turn_attr_is_icmp
    (fun m b l n '(t, c, e) => ov_turn_attr_icmp_encode m b l n t c e)
    (fun m p l => ov_turn_attr_icmp_decode m p l LOCAL LOCAL LOCAL).
Proof.
  split.
  - intros m buffer length next [[t c] e] (Ht & Hc & He) Hm Hl. sized 12. pose proof Hm as [Hp _].
    unfold ov_turn_attr_icmp_encode, NULL. lengths. guards.
    apply (encode_local_spec _ _ _ _ _ (icmp_content (t, c, e)) [0; 0; 0; 0]); try done.
    apply bytes_app. split; [|auto with ov]. repeat constructor; unfold is_byte in *; lia.
  - intros m buffer length next [[t c] e] Hv Hl. revert Hl. refuse_law 12 ov_turn_attr_icmp_encode.
  - intros m p length [[t c] e] Hv Ha Hl. sized 12. by apply (frame_is_sized_attr _ _ _ _ _ _ _ _ Ha).
  - intros m p length [[t c] e] (Ht & Hc & He) Ha Hl. sized 12. cbn [icmp_content] in Ha.
    unfold ov_turn_attr_icmp_decode, ov_turn_attr_is_icmp. decode_start Ha. load_contents Ha.
    rewrite be32_sum by apply is_byte_u8. change (be_val _) with (be_val (be32 e)). by rewrite be_val_be32.
Qed.

(** *** In place: the ICE attributes *)

#[export] Instance priority_codec :
  AttrCodec ICE_PRIORITY word be32 ov_stun_attribute_frame_is_priority ov_stun_ice_priority_encode
    (fun m p l => ov_stun_ice_priority_decode m p l LOCAL).
Proof.
  split.
  - intros m buffer length next v Hv Hm Hl. sized 8. pose proof Hm as [Hp _].
    unfold ov_stun_ice_priority_encode, NULL. decide_guard.
    rewrite (set_type_spec m buffer 8) by (unfold is_u16, ICE_PRIORITY; done || lia).
    cbn [mbind option_bind negb].
    rewrite (set_length_spec _ buffer 8) by (try apply mapped_write; unfold is_u16; done || lia).
    cbn [mbind option_bind negb]. rewrite (write_app m buffer) by done.
    rewrite write_uint32_be_spec
      by (try (eapply mapped_sub; [by apply mapped_write| |]); lia).
    rewrite (write_app m buffer) by done. rewrite attr_bytes_aligned by done. rewrite <- app_assoc.
    unfold set_next, NULL. by rewrite <- Z.add_assoc.
  - refuse_law 8 ov_stun_ice_priority_encode.
  - is_law 8.
  - intros m p length v Hv Ha Hl. sized 8.
    unfold ov_stun_ice_priority_decode, ov_stun_attribute_frame_is_priority. decode_start Ha.
    rewrite (read_uint32_be_spec m (p + 4) _ _ (be32 v))
      by first [by eapply attr_at_content|by auto with ov|done|zlia]. cbn [mbind option_bind].
    do 2 f_equal. by apply f_equal, be_val_be32.
Qed.

Lemma ice_role_codec TYPE :
  is_u16 TYPE -> AttrCodec TYPE dword be64 (frame_is_sized TYPE 12 8 false) (ice_role_encode TYPE)
    (fun m p l => ice_role_decode TYPE m p l LOCAL).
Proof.
  intros HT. split.
  - intros m buffer length next v Hv Hm Hl. sized 12. pose proof Hm as [Hp _].
    unfold ice_role_encode, NULL. decide_guard.
    rewrite (set_type_spec m buffer 12) by (done || lia). cbn [mbind option_bind negb].
    rewrite (set_length_spec _ buffer 12) by (try apply mapped_write; unfold is_u16; done || lia).
    cbn [mbind option_bind negb]. rewrite (write_app m buffer) by done.
    rewrite write_uint64_be_spec
      by (try (eapply mapped_sub; [by apply mapped_write| |]); lia).
    rewrite (write_app m buffer) by done. rewrite attr_bytes_aligned by done. rewrite <- app_assoc.
    unfold set_next, NULL. by rewrite <- Z.add_assoc.
  - refuse_law 12 ice_role_encode.
  - intros m p length v Hv Ha Hl. sized 12. by apply (frame_is_sized_attr _ _ _ _ _ _ _ _ Ha).
  - intros m p length v Hv Ha Hl. sized 12. unfold ice_role_decode. decode_start Ha.
    rewrite (read_uint64_be_spec m (p + 4) _ _ (be64 v))
      by first [by eapply attr_at_content|by auto with ov|done|zlia]. cbn [mbind option_bind].
    do 2 f_equal. by apply f_equal, be_val_be64.
Qed.
#[export] Instance controlled_codec :
  AttrCodec ICE_CONTROLLED dword be64 ov_stun_attribute_frame_is_ice_controlled
    ov_stun_ice_controlled_encode (fun m p l => ov_stun_ice_controlled_decode m p l LOCAL).
Proof. apply ice_role_codec. done. Qed.
#[export] Instance controlling_codec :
  AttrCodec ICE_CONTROLLING dword be64 ov_stun_attribute_frame_is_ice_controlling
    ov_stun_ice_controlling_encode (fun m p l => ov_stun_ice_controlling_decode m p l LOCAL).
Proof. apply ice_role_codec. done. Qed.

(** Attributes without content: the frame check is the decoder. *)
Definition check_only (chk : mem -> ptr -> Z -> option bool) (m : mem) (p : ptr) (l : Z)
    : decoded_value unit := b ← chk m p l; Some (b, Some tt).
#[export] Instance dont_fragment_codec :
  AttrCodec TURN_DONT_FRAGMENT (fun _ => True) (fun _ : unit => []) ov_turn_attr_is_dont_fragment
    (fun m b l n _ => ov_turn_attr_dont_fragment_encode m b l n) (check_only ov_turn_attr_is_dont_fragment).
Proof.
  split.
  - intros m buffer length next v _ Hm Hl. sized 4. pose proof Hm as [Hp _].
    unfold ov_turn_attr_dont_fragment_encode, NULL. lengths. guards. by apply attribute_encode_null.
  - refuse_law 4 ov_turn_attr_dont_fragment_encode.
  - is_law 4.
  - intros m p length [] _ Ha Hl. sized 4. unfold check_only, ov_turn_attr_is_dont_fragment.
    by rewrite (frame_is_sized_attr _ _ _ _ _ _ _ _ Ha).
Qed.
#[export] Instance use_candidate_codec :
  AttrCodec ICE_USE_CANDIDATE (fun _ => True) (fun _ : unit => []) ov_stun_attribute_frame_is_use_candidate
    (fun m b l n _ => ov_stun_ice_use_candidate_encode m b l n)
    (check_only ov_stun_attribute_frame_is_use_candidate).
Proof.
  split.
  - intros m buffer length next v _ Hm Hl. sized 4. pose proof Hm as [Hp _].
    unfold ov_stun_ice_use_candidate_encode, NULL. guards.
    rewrite (set_type_spec m buffer 4) by (unfold is_u16, ICE_USE_CANDIDATE; done || lia).
    cbn [mbind option_bind negb].
    rewrite (set_length_spec _ buffer 4) by (try apply mapped_write; unfold is_u16; done || lia).
    cbn [mbind option_bind negb]. by rewrite (write_app m buffer) by done.
  - refuse_law 4 ov_stun_ice_use_candidate_encode.
  - is_law 4.
  - intros m p length [] _ Ha Hl. sized 4. unfold check_only, ov_stun_attribute_frame_is_use_candidate.
    by rewrite (frame_is_sized_attr _ _ _ _ _ _ _ _ Ha).
Qed.

(** *** Octet strings *)

Lemma octets_encode_spec TYPE m buffer length next data l :
  is_u16 TYPE -> region m data l -> bytes l -> 1 <= Zlen l < 65536 ->
  mapped m buffer (attr_size (Zlen l)) -> attr_size (Zlen l) <= length ->
  data + Zlen l <= buffer \/ buffer + attr_size (Zlen l) <= data ->
  octets_encode TYPE m buffer length next data (Zlen l) =
    Some (true, set_next next (buffer + attr_size (Zlen l)), write m buffer (attr_bytes TYPE l)).
Proof.
  intros HT Hd Hb Hl Hm Hlen Hdis. pose proof Hm as [Hp _]. pose proof Hd as [Hdp _].
  unfold octets_encode, octets_encoding_length, NULL. decide_guard. unfold attr_size in *. decide_guard.
  apply attribute_encode_spec; unfold is_u16, attr_size in *; (done || lia).
Qed.
Lemma octets_decode_spec TYPE m p l length a b :
  is_u16 TYPE -> attr_at m p TYPE l -> 1 <= Zlen l < 65536 -> 8 <= length -> a <> NULL -> b <> NULL ->
  octets_decode TYPE m p length a b = Some (true, Some (p + 4, Zlen l)).
Proof.
  intros HT Ha Hl Hlen Hna Hnb. pose proof Ha as [Hp _].
  unfold octets_decode, is_octets, frame_is_type, NULL in *. decide_guard. decide_guard.
  rewrite (get_type_attr m p TYPE l), (get_length_attr m p TYPE l) by (unfold is_u16 in *; done || lia).
  cbn [mbind option_bind]. rewrite Z.eqb_refl. cbn [negb mbind option_bind]. by decide_guard.
Qed.

(** *** Password algorithms *)

Definition algorithm_content (alg : Z) (l : list Z) : list Z := be16 alg ++ be16 (Zlen l) ++ l.
Lemma Zlen_algorithm_content alg l : Zlen (algorithm_content alg l) = 4 + Zlen l.
Proof. unfold algorithm_content. zlia. Qed.
#[export] Hint Rewrite Zlen_algorithm_content : zlen.

Lemma password_algorithm_encode_spec m buffer length next alg parameter l :
  region m parameter l -> bytes l -> is_u16 alg -> Zlen l <= 65531 ->
  mapped m buffer (attr_size (4 + Zlen l)) -> attr_size (4 + Zlen l) <= length ->
  ov_stun_attr_password_algorithm_encode m buffer length next alg (Zlen l) parameter =
    Some (true, set_next next (buffer + attr_size (4 + Zlen l)),
          write m buffer (attr_bytes STUN_ATTR_PASSWORD_ALGORITHM (algorithm_content alg l))).
Proof.
  intros Hl Hb Halg Hn Hm Hlen. pose proof Hm as [Hp _]. pose proof Hl as [Hlp _]. pose proof (Zlen_nonneg l).
  unfold ov_stun_attr_password_algorithm_encode, ov_stun_attr_password_algorithm_encoding_length, NULL.
  decide_guard. unfold attr_size in Hlen.
  assert (Ep : padding (4 + Zlen l) = padding (Zlen l)).
  { unfold padding. by replace ((4 + Zlen l) mod 4) with (Zlen l mod 4) by dlia. }
  rewrite Ep in Hlen. decide_guard. replace (Zlen l + 4 - 4) with (Zlen l) by lia.
  rewrite (loadn_region_n m parameter l) by done. cbn [mbind option_bind].
  replace (Zlen l + 4) with (4 + Zlen l) by lia.
  apply (encode_local_exact _ _ _ _ _ (algorithm_content alg l));
    unfold is_u16, attr_size, STUN_ATTR_PASSWORD_ALGORITHM; rewrite ?Ep; try (done || zlia).
  - unfold attr_size in Hm. by rewrite Ep in Hm.
  - unfold algorithm_content. rewrite !bytes_app. auto with ov.
Qed.

Lemma password_algorithm_decode_attr m p alg l length :
  attr_at m p STUN_ATTR_PASSWORD_ALGORITHM (algorithm_content alg l) ->
  is_u16 alg -> Zlen l <= 65531 -> 8 <= length ->
  ov_stun_attr_password_algorithm_decode m p length LOCAL LOCAL LOCAL =
    Some (true, Some (alg, Zlen l, p + 8)).
Proof.
  intros Ha Halg Hn Hl. pose proof Ha as [Hp _]. pose proof (Zlen_nonneg l).
  unfold ov_stun_attr_password_algorithm_decode, ov_stun_attr_is_password_algorithm, frame_is_type, LOCAL, NULL.
  decide_guard. decide_guard.
  rewrite (get_type_attr m p _ _ length Ha) by (unfold is_u16, STUN_ATTR_PASSWORD_ALGORITHM; lia).
  cbn [mbind option_bind]. rewrite Z.eqb_refl. cbn [negb mbind option_bind].
  rewrite (get_length_attr m p _ _ length Ha) by (unfold is_u16; zlia). cbn [mbind option_bind].
  rewrite Zlen_algorithm_content. decide_guard.
  assert (L : forall i x, 4 <= i < 8 -> (be16 alg ++ be16 (Zlen l)).[i - 4] = x -> load8 m (p + i) = Some x).
  { intros i x Hi <-. apply (load_content m p _ _ _ _ Ha); [zlia|].
    replace (p + i - (p + 4)) with (i - 4) by lia. unfold algorithm_content.
    rewrite app_assoc. by rewrite znth_app_l by zlia. }
  rewrite (L 4 _ ltac:(lia) eq_refl). cbn [mbind option_bind].
  rewrite (L 5 _ ltac:(lia) eq_refl). cbn [mbind option_bind].
  rewrite (L 6 _ ltac:(lia) eq_refl). cbn [mbind option_bind].
  rewrite (L 7 _ ltac:(lia) eq_refl). cbn [mbind option_bind].
  rewrite !be16_sum' by (apply bytes_znth, bytes_app; auto with ov).
  change (be_val _) with (be_val (be16 alg)) at 1. change (be_val [_; _]) with (be_val (be16 (Zlen l))).
  by rewrite !be_val_be16 by (unfold is_u16 in *; lia).
Qed.

(** *** Error codes per address family *)

Definition address_error_content (family code : Z) (l : list Z) : list Z :=
  [family; 0; code / 100; code mod 100] ++ l.
Lemma Zlen_address_error_content f c l : Zlen (address_error_content f c l) = 4 + Zlen l.
Proof. unfold address_error_content. zlia. Qed.
#[export] Hint Rewrite Zlen_address_error_content : zlen.

Lemma address_error_encode_spec m buffer length next family code phrase l :
  region m phrase l -> bytes l -> Zlen l <= OV_TURN_PHRASE_MAX -> family_number family ->
  99 <= code <= 999 -> mapped m buffer (attr_size (4 + Zlen l)) -> attr_size (4 + Zlen l) <= length ->
  ov_turn_attr_address_error_code_encode m buffer length next family code phrase (Zlen l) =
    Some (true, set_next next (buffer + attr_size (4 + Zlen l)),
          write m buffer (attr_bytes TURN_ADDRESS_ERROR_CODE (address_error_content family code l))).
Proof.
  intros Hl Hb Hn Hf Hc Hm Hlen. pose proof Hm as [Hp _]. pose proof Hl as [Hlp _]. pose proof (Zlen_nonneg l).
  pose proof (attr_size_bounds (4 + Zlen l)). unfold OV_TURN_PHRASE_MAX in *.
  unfold ov_turn_attr_address_error_code_encode, ov_turn_attr_address_error_code_encoding_length, OV_TURN_PHRASE_MAX, NULL.
  decide_guard. decide_guard. unfold family_number in Hf. decide_guard. decide_guard.
  rewrite (loadn_region_n m phrase l) by done. cbn [mbind option_bind].
  rewrite !u8_id by (unfold is_byte; dlia). rewrite app_assoc. fold (address_error_content family code l).
  apply encode_local_spec; unfold is_u16, TURN_ADDRESS_ERROR_CODE; try (done || zlia).
  unfold address_error_content. apply bytes_app. split; [|done].
  repeat constructor; unfold is_byte; dlia.
Qed.

Lemma is_address_error_attr m p family code l length :
  attr_at m p TURN_ADDRESS_ERROR_CODE (address_error_content family code l) ->
  family_number family -> 12 <= length ->
  ov_turn_attr_is_address_error_code m p length = Some (negb (0 =? code mod 100)).
Proof.
  intros Ha Hf Hl. pose proof Ha as [Hp _]. pose proof (Zlen_nonneg l).
  unfold ov_turn_attr_is_address_error_code, NULL. decide_guard.
  rewrite (get_type_attr m p _ _ length Ha) by (unfold is_u16, TURN_ADDRESS_ERROR_CODE; lia).
  cbn [mbind option_bind]. rewrite Z.eqb_refl. cbn [negb].
  rewrite (load_content m p _ _ (p + 4) family Ha)
    by first [zlia | by replace (p + 4 - (p + 4)) with 0 by lia]. cbn [mbind option_bind].
  unfold family_number in Hf. decide_guard.
  rewrite (load_content m p _ _ (p + 7) (code mod 100) Ha)
    by first [zlia | by replace (p + 7 - (p + 4)) with 3 by lia]. cbn [mbind option_bind].
  by destruct (0 =? code mod 100).
Qed.

Lemma address_error_decode_attr m p family code l length :
  attr_at m p TURN_ADDRESS_ERROR_CODE (address_error_content family code l) ->
  family_number family -> 12 <= length -> 99 <= code <= 999 -> Zlen l <= OV_TURN_PHRASE_MAX ->
  ov_turn_attr_address_error_code_decode m p length LOCAL LOCAL LOCAL LOCAL =
    Some (if 0 =? code mod 100 then (false, None)
          else (true, Some (family, code, p + 8, Zlen l))).
Proof.
  intros Ha Hf Hl Hc Hn. pose proof Ha as [Hp _]. pose proof (Zlen_nonneg l). unfold OV_TURN_PHRASE_MAX in *.
  unfold ov_turn_attr_address_error_code_decode, LOCAL, NULL. decide_guard.
  rewrite (is_address_error_attr m p family code l) by done. cbn [mbind option_bind].
  destruct (0 =? code mod 100); cbn [negb]; [done|].
  rewrite (get_length_attr m p _ _ length Ha) by (unfold is_u16; zlia). cbn [mbind option_bind].
  rewrite Zlen_address_error_content. decide_guard.
  rewrite (load_content m p _ _ (p + 4) family Ha)
    by first [zlia | by replace (p + 4 - (p + 4)) with 0 by lia]. cbn [mbind option_bind].
  rewrite (load_content m p _ _ (p + 6) (code / 100) Ha)
    by first [zlia | by replace (p + 6 - (p + 4)) with 2 by lia]. cbn [mbind option_bind].
  rewrite (load_content m p _ _ (p + 7) (code mod 100) Ha)
    by first [zlia | by replace (p + 7 - (p + 4)) with 3 by lia]. cbn [mbind option_bind].
  rewrite (u16_id (_ * _)) by dlia. rewrite u16_id by dlia. rewrite u64_id by lia.
  replace (code / 100 * 100 + code mod 100) with code by dlia. by replace (4 + Zlen l - 4) with (Zlen l) by lia.
Qed.

(** *** All attributes that carry a value *)

Record codec := Codec {
  c_value : Type; c_type : Z; c_length : Z;
  c_valid : c_value -> Prop; c_content : c_value -> list Z;
  c_check : mem -> ptr -> Z -> option bool;
  c_encode : mem -> ptr -> Z -> ptr -> c_value -> encoded;
  c_decode : mem -> ptr -> Z -> decoded_value c_value;
  c_laws : AttrCodec c_type c_valid c_content c_check c_encode c_decode
}.
Definition codecs : list codec :=
  [ Codec _ _ ov_turn_attr_lifetime_encoding_length _ _ _ _ _ lifetime_codec;
    Codec _ _ ov_turn_attr_channel_number_encoding_length _ _ _ _ _ channel_number_codec;
    Codec _ _ ov_turn_attr_even_port_encoding_length _ _ _ _ _ even_port_codec;
    Codec _ _ ov_turn_attr_requested_transport_encoding_length _ _ _ _ _ requested_transport_codec;
    Codec _ _ ov_turn_attr_requested_addr_family_encoding_length _ _ _ _ _ requested_addr_family_codec;
    Codec _ _ ov_turn_attr_additional_addr_family_encoding_length _ _ _ _ _ additional_addr_family_codec;
    Codec _ _ ov_turn_attr_dont_fragment_encoding_length _ _ _ _ _ dont_fragment_codec;
    Codec _ _ ov_turn_attr_icmp_encoding_length _ _ _ _ _ icmp_codec;
    Codec _ _ ov_stun_ice_priority_encoding_length _ _ _ _ _ priority_codec;
    Codec _ _ ov_stun_ice_use_candidate_encoding_length _ _ _ _ _ use_candidate_codec;
    Codec _ _ ov_stun_ice_controlled_encoding_length _ _ _ _ _ controlled_codec;
    Codec _ _ ov_stun_ice_controlling_encoding_length _ _ _ _ _ controlling_codec ].

(** The length a module announces is the size of what it writes. *)
Definition length_ok (c : codec) : Prop :=
  is_u16 (c_type c) /\ forall v, attr_size (Zlen (c_content c v)) = c_length c /\ Zlen (c_content c v) < 65536.
Lemma codecs_length_ok : Forall length_ok codecs.
Proof.
  unfold codecs. repeat (apply Forall_cons_2 || apply Forall_nil_2); (split; [done|]);
    try (intros v; split; reflexivity); intros [[? ?] ?]; split; reflexivity.
Qed.

#[export] Instance set_ice_role_conflict_spec :
  AttributeSetter ov_stun_error_code_set_ice_role_conflict STUN_ERROR_CODE
    (error_content 487 (string_bytes "role conflict")).
Proof. by apply encode_phrase_setter. Qed.

(** ** Properties *)

(** C32: The attributes of TURN and ICE that carry a value (LIFETIME,
    CHANNEL-NUMBER, EVEN-PORT, REQUESTED-TRANSPORT, REQUESTED- and
    ADDITIONAL-ADDRESS-FAMILY, DONT-FRAGMENT, ICMP, PRIORITY, USE-CANDIDATE,
    ICE-CONTROLLED, ICE-CONTROLLING): for every admissible value the encoder
    refuses a buffer shorter than [encoding_length] without writing, and
    otherwise writes exactly that many octets, which have the attribute's type,
    pass its frame check and decode to the same value. *)
Theorem attribute_codecs_roundtrip :
  Forall (fun c => forall m buffer length next v,
    c_valid c v -> mapped m buffer (c_length c) ->
    (length < c_length c -> c_encode c m buffer length next v = Some (false, None, m)) /\
    (c_length c <= length ->
     exists m', c_encode c m buffer length next v =
         Some (true, set_next next (buffer + c_length c), m') /\
       same_outside m m' buffer (c_length c) /\
       ov_stun_attribute_get_type m' buffer length = Some (c_type c) /\
       c_check c m' buffer length = Some true /\
       c_decode c m' buffer length = Some (true, Some v))) codecs.
Proof.
  eapply Forall_impl; [exact codecs_length_ok|]. intros c (HT & Hs) m buffer length next v Hv Hm.
  pose proof (c_laws c) as Laws. destruct (Hs v) as [Hsv Hcl]. rewrite <- Hsv in Hm |- *. pose proof Hm as [Hp _].
  pose proof (attr_size_bounds (Zlen (c_content c v))). pose proof (Zlen_nonneg (c_content c v)).
  split; [by apply (ac_refuse (AttrCodec := Laws))|]. intros Hl.
  assert (Ha : attr_at (write m buffer (attr_bytes (c_type c) (c_content c v))) buffer (c_type c) (c_content c v))
    by by apply attr_bytes_at, region_write.
  eexists. split; [by apply (ac_encode (AttrCodec := Laws))|].
  split; [apply same_outside_write; [lia|]; by rewrite Zlen_attr_bytes|].
  split; [eapply get_type_attr; [exact Ha|done|lia]|].
  split; [by apply (ac_is (AttrCodec := Laws) _ _ _ v)|by apply (ac_decode (AttrCodec := Laws))].
Qed.
Lemma attribute_codecs_roundtrip_witness :
  exists m', ov_turn_attr_lifetime_encode (write ∅ 16 (zeros 8)) 16 8 1 600 = Some (true, set_next 1 24, m') /\
    ov_turn_attr_lifetime_decode m' 16 8 1 = Some (true, Some 600).
Proof.
  pose proof attribute_codecs_roundtrip as H. apply Forall_cons in H as [H _].
  destruct (proj2 (H (write ∅ 16 (zeros 8)) 16 8 1 600 ltac:(split; [lia|reflexivity])
    (region_mapped _ 16 (zeros 8) (region_write ∅ 16 (zeros 8) ltac:(lia)))) ltac:(discriminate))
    as (m' & H1 & _ & _ & _ & H2).
  exists m'. split; [exact H1|exact H2].
Defined.

(** The attributes that carry octets: DATA and USERHASH any non-empty string,
    RESERVATION-TOKEN exactly eight octets, PASSWORD-ALGORITHM an algorithm
    number and its parameters. Where the attribute fits, the encoder writes it
    and the decoder returns the address of the same octets and their number. *)
Theorem octet_attributes_roundtrip m buffer length next data l alg :
  region m data l -> bytes l -> 1 <= Zlen l <= 65531 -> is_u16 alg ->
  mapped m buffer (attr_size (4 + Zlen l)) -> attr_size (4 + Zlen l) <= length ->
  data + Zlen l <= buffer \/ buffer + attr_size (4 + Zlen l) <= data ->
  Forall (fun '(enc, dec, len) => exists m',
    enc m buffer length next data (Zlen l) = Some (true, set_next next (buffer + len (Zlen l)), m') /\
    same_outside m m' buffer (attr_size (Zlen l)) /\
    dec m' buffer length LOCAL LOCAL = Some (true, Some (buffer + 4, Zlen l)) /\ region m' (buffer + 4) l)
    ([(ov_turn_attr_data_encode, ov_turn_attr_data_decode, ov_turn_attr_data_encoding_length);
      (ov_stun_attr_userhash_encode, ov_stun_attr_userhash_decode, ov_stun_attr_userhash_encoding_length)] ++
     if Zlen l =? 8 then [(ov_turn_attr_reservaton_token_encode, ov_turn_attr_reservaton_token_decode,
                           fun _ => ov_turn_attr_reservaton_token_encoding_length)] else []) /\
  exists m', ov_stun_attr_password_algorithm_encode m buffer length next alg (Zlen l) data =
      Some (true, set_next next (buffer + ov_stun_attr_password_algorithm_encoding_length (Zlen l)), m') /\
    same_outside m m' buffer (attr_size (4 + Zlen l)) /\
    ov_stun_attr_password_algorithm_decode m' buffer length LOCAL LOCAL LOCAL =
      Some (true, Some (alg, Zlen l, buffer + 8)) /\ region m' (buffer + 8) l.
Proof.
  intros Hd Hb Hl Halg Hm4 Hlen4 Hdis. pose proof Hm4 as [Hp _]. pose proof Hd as [Hdp _].
  assert (Ep : attr_size (4 + Zlen l) = 4 + attr_size (Zlen l)).
  { unfold attr_size, padding. replace ((4 + Zlen l) mod 4) with (Zlen l mod 4) by dlia. lia. }
  pose proof (attr_size_bounds (Zlen l)). pose proof (padding_spec (Zlen l)) as [Hpad Hal].
  assert (Hm : mapped m buffer (attr_size (Zlen l))) by (eapply mapped_sub; [done|lia|lia]).
  assert (H8 : 8 <= attr_size (Zlen l)) by (unfold attr_size; dlia).
  assert (Hat : forall T c, attr_at (write m buffer (attr_bytes T c)) buffer T c)
    by (intros; by apply attr_bytes_at, region_write).
  assert (Hoct : forall T, is_u16 T -> exists m',
    octets_encode T m buffer length next data (Zlen l) =
      Some (true, set_next next (buffer + octets_encoding_length (Zlen l)), m') /\
    same_outside m m' buffer (attr_size (Zlen l)) /\
    octets_decode T m' buffer length LOCAL LOCAL = Some (true, Some (buffer + 4, Zlen l)) /\
    region m' (buffer + 4) l).
  { intros T HT. unfold octets_encoding_length.
    replace (Zlen l + 4 + padding (Zlen l)) with (attr_size (Zlen l)) by (unfold attr_size; lia).
    eexists. split; [apply octets_encode_spec; (done || lia)|].
    split; [apply same_outside_write; [lia|]; by rewrite Zlen_attr_bytes|].
    split; [apply octets_decode_spec; (done || lia)|by eapply attr_at_content]. }
  split; [apply Forall_app; split|].
  - apply Forall_cons_2; [by apply Hoct|]. apply Forall_cons_2; [by apply Hoct|apply Forall_nil_2].
  - destruct (Z.eqb_spec (Zlen l) 8) as [E8|_]; [|apply Forall_nil_2].
    apply Forall_cons_2; [|apply Forall_nil_2].
    assert (Es : attr_size (Zlen l) = 12) by by rewrite E8.
    eexists. split; [|split; [|split]].
    + unfold ov_turn_attr_reservaton_token_encode, ov_turn_attr_reservaton_token_encoding_length, NULL.
      decide_guard. decide_guard. replace (buffer + 12) with (buffer + attr_size (Zlen l)) by lia.
      apply attribute_encode_spec; unfold is_u16; (done || lia).
    + apply same_outside_write; [lia|]. by rewrite Zlen_attr_bytes.
    + unfold ov_turn_attr_reservaton_token_decode, ov_turn_attr_is_reservaton_token, LOCAL, NULL. decide_guard.
      rewrite (frame_is_sized_attr _ _ _ _ _ _ _ _ (Hat _ _)) by (unfold is_u16; done || lia).
      cbn [mbind option_bind negb].
      rewrite (get_length_attr _ _ _ _ _ (Hat _ _)) by (unfold is_u16; done || lia).
      cbn [mbind option_bind]. by decide_guard.
    + by eapply attr_at_content.
  - unfold ov_stun_attr_password_algorithm_encoding_length.
    replace (Zlen l + 8 + padding (Zlen l)) with (attr_size (4 + Zlen l)) by (rewrite Ep; unfold attr_size; lia).
    eexists. split; [apply password_algorithm_encode_spec; (done || lia)|].
    split; [apply same_outside_write; [lia|]; by rewrite Zlen_attr_bytes, Zlen_algorithm_content|].
    pose proof (Hat STUN_ATTR_PASSWORD_ALGORITHM (algorithm_content alg l)) as Ha. split.
    + apply password_algorithm_decode_attr; (done || lia).
    + apply attr_at_content in Ha. unfold algorithm_content in Ha. rewrite app_assoc in Ha.
      eapply region_app_r; [exact Ha|]. zlia.
Qed.
Lemma octet_attributes_roundtrip_witness :
  exists m', ov_turn_attr_data_encode (write (write ∅ 16 (zeros 16)) 64 [1; 2; 3; 4; 5]) 16 16 1 64 5 =
      Some (true, set_next 1 28, m') /\
    ov_turn_attr_data_decode m' 16 16 LOCAL LOCAL = Some (true, Some (20, 5)).
Proof.
  destruct (octet_attributes_roundtrip (write (write ∅ 16 (zeros 16)) 64 [1; 2; 3; 4; 5]) 16 16 1 64
    [1; 2; 3; 4; 5] 2) as [H _].
  - apply region_write. lia.
  - repeat constructor; unfold is_byte; lia.
  - vm_compute. split; discriminate.
  - unfold is_u16. lia.
  - apply mapped_write, (region_mapped _ 16 (zeros 16)), region_write. lia.
  - vm_compute. discriminate.
  - right. vm_compute. discriminate.
  - apply Forall_cons in H as [(m' & H1 & _ & H2 & _) _]. exists m'. split; [exact H1|exact H2].
Defined.

(** ADDRESS-ERROR-CODE: for both address families and every phrase of at
    most 500 octets the encoder writes the attribute. The frame check looks at
    the number octet where it means the class, so the decoder returns family,
    code and phrase exactly when the code is no multiple of one hundred, and
    refuses the attribute when it is. *)
Theorem address_error_code_roundtrip m buffer length next family code phrase l :
  region m phrase l -> bytes l -> Zlen l <= OV_TURN_PHRASE_MAX -> family_number family ->
  99 <= code <= 999 -> mapped m buffer (attr_size (4 + Zlen l)) ->
  attr_size (4 + Zlen l) <= length -> 12 <= length ->
  exists m',
    ov_turn_attr_address_error_code_encode m buffer length next family code phrase (Zlen l) =
      Some (true, set_next next (buffer + attr_size (4 + Zlen l)), m') /\
    same_outside m m' buffer (attr_size (4 + Zlen l)) /\
    ov_turn_attr_is_address_error_code m' buffer length = Some (negb (0 =? code mod 100)) /\
    ov_turn_attr_address_error_code_decode m' buffer length LOCAL LOCAL LOCAL LOCAL =
      Some (if 0 =? code mod 100 then (false, None)
            else (true, Some (family, code, buffer + 8, Zlen l))) /\
    region m' (buffer + 8) l.
Proof.
  intros Hl Hb Hn Hf Hc Hm Hlen H12. pose proof Hm as [Hp _]. pose proof (Zlen_nonneg l).
  eexists. split; [by apply address_error_encode_spec|].
  assert (Ha : attr_at (write m buffer (attr_bytes TURN_ADDRESS_ERROR_CODE (address_error_content family code l)))
    buffer TURN_ADDRESS_ERROR_CODE (address_error_content family code l)) by by apply attr_bytes_at, region_write.
  split; [apply same_outside_write; [lia|]; by rewrite Zlen_attr_bytes, Zlen_address_error_content|].
  split; [by eapply is_address_error_attr|]. split; [by apply address_error_decode_attr|].
  apply attr_at_content in Ha. unfold address_error_content in Ha. eapply region_app_r; [exact Ha|]. zlia.
Qed.
Lemma address_error_code_roundtrip_witness :
  exists m', ov_turn_attr_address_error_code_encode (write (write ∅ 16 (zeros 12)) 64 [97; 98; 99]) 16 12 1
      1 400 64 3 = Some (true, set_next 1 28, m') /\
    ov_turn_attr_address_error_code_decode m' 16 12 LOCAL LOCAL LOCAL LOCAL = Some (false, None).
Proof.
  destruct (address_error_code_roundtrip (write (write ∅ 16 (zeros 12)) 64 [97; 98; 99]) 16 12 1 1 400 64
    [97; 98; 99]) as (m' & H1 & _ & _ & H2 & _).
  - apply region_write. lia.
  - repeat constructor; unfold is_byte; lia.
  - vm_compute. discriminate.
  - left. reflexivity.
  - lia.
  - apply mapped_write, (region_mapped _ 16 (zeros 12)), region_write. lia.
  - vm_compute. discriminate.
  - lia.
  - exists m'. split; [exact H1|exact H2].
Defined.

(** The decoders of DATA and USERHASH do not compare the length field with the
    octets there are. *)
Lemma data_decode_ignores_length :
  ov_turn_attr_data_decode (write ∅ 16 (be16 TURN_ATTR_DATA ++ be16 1000 ++ zeros 4)) 16 8 LOCAL LOCAL =
    Some (true, Some (20, 1000)).
Proof. vm_compute. reflexivity. Qed.
