(* ===== verification/StunIntegrity.v ===== *)
(** * FINGERPRINT and MESSAGE-INTEGRITY

    The protection of a STUN message: the CRC of
    src/lib/ov_stun/src/ov_stun_fingerprint.c and the keyed hashes of
    ov_stun_message_integrity.c (SHA-1) and
    ov_stun_attr_message_integrity_sha256.c. The keyed hash is OpenSSL's
    [HMAC], a parameter here; the wrapper of
    src/lib/ov_encryption/src/ov_hmac.c is modelled. *)
From S2P Require Import Prelude CMem Crc32 StunAttribute StunFrame.

(** ** The code: FINGERPRINT *)

Definition STUN_FINGERPRINT : Z := 0x8028.
Definition FINGERPRINT_XOR : Z := 0x5354554e.

Definition ov_stun_attribute_frame_is_fingerprint (m : mem) (buffer : ptr) (length : Z)
    : option bool :=
  if (buffer =? NULL) || (length <? 8) then Some false else
  type ← ov_stun_attribute_get_type m buffer length;
  size ← ov_stun_attribute_get_length m buffer length;
  if negb (type =? STUN_FINGERPRINT) then Some false else
  if negb (size =? 4) then Some false else Some true.

Definition ov_stun_fingerprint_encoding_length : Z := 8.

Definition ov_stun_add_fingerprint (m : mem) (head : ptr) (length : Z) (start next : ptr) : encoded :=
  if (head =? NULL) || (start =? NULL) || (length =? 0) then Some (false, None, m) else
  if length <? u64 (u64 (start - head) + 8) then Some (false, None, m) else
  let len := u64 ((start - head) + 8) in
  if len <? 28 then Some (false, None, m) else
  if length <? len then Some (false, None, m) else
  if negb (Z.rem (start - head) 4 =? 0) then Some (false, None, m) else
  '(ok, m) ← ov_stun_attribute_set_type m start 4 STUN_FINGERPRINT;
  if negb ok then Some (false, None, m) else
  '(ok, m) ← ov_stun_attribute_set_length m start 4 4;
  if negb ok then Some (false, None, m) else
  '(ok, m) ← ov_stun_frame_set_length m head length (u16 (len - 20));
  if negb ok then Some (false, None, m) else
  crc ← ov_crc32_zlib m 0 head (start - head);
  m ← store32 m (start + 4) (htonl (crc .^ FINGERPRINT_XOR));
  Some (true, set_next next (start + 8), m).

(** The loop over the attributes: [finger] and the array on exit. *)
Fixpoint fingerprint_loop (m : mem) (head : ptr) (length : Z) (attr : list ptr) (finger : ptr)
    : option (ptr * list ptr) :=
  match attr with
  | [] => Some (finger, [])
  | a :: attr =>
      let a := if negb (finger =? NULL) then NULL else a in
      fp ← ov_stun_attribute_frame_is_fingerprint m a (u64 (length - (a - head)));
      let finger := if (fp : bool) then a else finger in
      '(finger, attr) ← fingerprint_loop m head length attr finger;
      Some (finger, a :: attr)
  end.

(** [attr] are the elements of the array (a [NULL] array, which the code refuses,
    has no counterpart). Result: truth value, the array on exit and the memory. *)
Definition ov_stun_check_fingerprint (m : mem) (head : ptr) (length : Z) (attr : list ptr)
    (attr_size : Z) (must_be_set : bool) : option (bool * list ptr * mem) :=
  if (head =? NULL) || (length <? 20) || (attr_size <? 1) then Some (false, attr, m) else
  if Zlen attr <? attr_size then None else
  '(finger, seen) ← fingerprint_loop m head length (ztake attr_size attr) NULL;
  let attr := seen ++ zdrop attr_size attr in
  if finger =? NULL then Some (negb must_be_set, attr, m) else
  let len := (finger - head) - 12 in
  '(ok, m) ← ov_stun_frame_set_length m head length (u16 len);
  if negb ok then Some (false, attr, m) else
  crc ← ov_crc32_zlib m 0 head (finger - head);
  let crc := crc .^ FINGERPRINT_XOR in
  v ← load32 m (finger + 4);
  if negb (crc =? htonl v) then Some (false, attr, m) else Some (true, attr, m).

(** ** The code: MESSAGE-INTEGRITY *)

Inductive ov_hash_function :=
  | OV_HASH_UNSPEC | OV_HASH_SHA1 | OV_HASH_SHA256 | OV_HASH_SHA512 | OV_HASH_MD5.
(** OpenSSL's handles of the digests. *)
Inductive EVP_MD := EVP_sha1 | EVP_sha256 | EVP_sha512 | EVP_md5.
(** [None] stands for [NULL]. *)
Definition ov_hash_function_to_EVP (type : ov_hash_function) : option EVP_MD :=
  match type with
  | OV_HASH_SHA1 => Some EVP_sha1
  | OV_HASH_SHA256 => Some EVP_sha256
  | OV_HASH_SHA512 => Some EVP_sha512
  | OV_HASH_MD5 => Some EVP_md5
  | OV_HASH_UNSPEC => None
  end.

Section Integrity.
(** OpenSSL's [HMAC]: digest, key, data; [None] when it fails. *)
Context (HMAC : EVP_MD -> list Z -> list Z -> option (list Z)).

(** Result: truth value, [*result_len] and the memory. *)
Definition ov_hmac (m : mem) (type : ov_hash_function) (buffer : ptr) (size : Z) (key : ptr)
    (key_len : Z) (result result_len : ptr) : option (bool * Z * mem) :=
  if (buffer =? NULL) || (key =? NULL) || (result =? NULL) || (result_len =? NULL)
  then Some (false, 0, m) else
  match ov_hash_function_to_EVP type with
  | None => Some (false, 0, m)
  | Some hash_func =>
      k ← loadn m key (Z.to_nat key_len);
      data ← loadn m buffer (Z.to_nat size);
      match HMAC hash_func k data with
      | None => Some (false, 0, m)
      | Some mac => m ← storen m result mac; Some (true, Zlen mac, m)
      end
  end.

(** The two attributes differ in type, size of the digest [SIZE] and hash;
their files are copies of each other else. *)
Section Kind.
Context (TYPE SIZE : Z) (HASH : ov_hash_function).

Definition frame_is_integrity (m : mem) (buffer : ptr) (length : Z) : option bool :=
  if (buffer =? NULL) || (length <? 24) then Some false else
  type ← ov_stun_attribute_get_type m buffer length;
  size ← ov_stun_attribute_get_length m buffer length;
  if negb (type =? TYPE) then Some false else
  if negb (size =? SIZE) then Some false else Some true.

Definition integrity_encoding_length : Z := SIZE + 4.

Definition add_integrity (m : mem) (head : ptr) (length : Z) (start next key : ptr) (keylen : Z)
    : encoded :=
  if (head =? NULL) || (start =? NULL) || (key =? NULL) || (length <? SIZE + 24) || (keylen <? 1)
  then Some (false, None, m) else
  let content := start + 4 in
  let len := u64 ((start - head) + (SIZE + 4)) in
  if length <? len then Some (false, None, m) else
  if negb (Z.rem (start - head) 4 =? 0) then Some (false, None, m) else
  '(ok, m) ← ov_stun_attribute_set_type m start 24 TYPE;
  if negb ok then Some (false, None, m) else
  '(ok, m) ← ov_stun_attribute_set_length m start 24 SIZE;
  if negb ok then Some (false, None, m) else
  '(ok, m) ← ov_stun_frame_set_length m head length (u16 (len - 20));
  if negb ok then Some (false, None, m) else
  '(ok, hmac_len, m) ← ov_hmac m HASH head (len - (SIZE + 4)) key keylen content LOCAL;
  if negb ok then Some (false, None, m) else
  if negb (hmac_len =? SIZE) then Some (false, None, m) else
  Some (true, set_next next (start + (SIZE + 4)), m).

(** The loop over the attributes: [integrity] and the array on exit. The
element after the integrity is skipped when it is a fingerprint. *)
Fixpoint integrity_loop (m : mem) (head : ptr) (length : Z) (attr : list ptr) (integrity : ptr)
    : option (ptr * list ptr) :=
  match attr with
  | [] => Some (integrity, [])
  | a :: attr =>
      let a := if negb (integrity =? NULL) then NULL else a in
      mi ← frame_is_integrity m a (u64 (length - (a - head)));
      if (mi : bool) then
      let integrity := a in
      match attr with
      | [] => Some (integrity, [a])
      | f :: attr' =>
          fp ← ov_stun_attribute_frame_is_fingerprint m f (u64 (length - (f - head)));
          if (fp : bool) then
          '(integrity, attr') ← integrity_loop m head length attr' integrity;
          Some (integrity, a :: f :: attr')
          else
          '(integrity, attr) ← integrity_loop m head length attr integrity;
          Some (integrity, a :: attr)
      end
      else
      '(integrity, attr) ← integrity_loop m head length attr integrity;
      Some (integrity, a :: attr)
  end.

(** The local array [hmac_buffer], of [n] octets, lives as long as the hash
and the comparison: the result is the truth value of the hash and that
of the comparison. *)
Definition hmac_matches (m : mem) (head integrity key : ptr) (keylen n : Z)
    : option (bool * bool * mem) :=
  with_local m (zeros n) (fun hmac_buffer m =>
  '(ok, _, m) ← ov_hmac m HASH head (integrity - head) key keylen hmac_buffer LOCAL;
  if negb ok then Some (false, false, m) else
  c ← memcmp m hmac_buffer (integrity + 4) SIZE;
  Some (true, 0 =? c, m)).

Definition check_integrity (BUF : Z) (m : mem) (head : ptr) (length : Z) (attr : list ptr)
    (attr_size : Z) (key : ptr) (keylen : Z) (must_be_set : bool)
    : option (bool * list ptr * mem) :=
  if (head =? NULL) || (length <? SIZE + 24) || (attr_size <? 1) then Some (false, attr, m) else
  if Zlen attr <? attr_size then None else
  '(integrity, seen) ← integrity_loop m head length (ztake attr_size attr) NULL;
  let attr := seen ++ zdrop attr_size attr in
  if integrity =? NULL then Some (negb must_be_set, attr, m) else
  if (key =? NULL) || (keylen <? 1) then Some (false, attr, m) else
  original_length ← ov_stun_frame_get_length m head length;
  let validate_length := (integrity - head) + (SIZE - 16) in
  '(ok, m) ← ov_stun_frame_set_length m head length (u16 validate_length);
  if negb ok then Some (false, attr, m) else
  '(ok, equal, m) ← hmac_matches m head integrity key keylen BUF;
  if negb ok then Some (false, attr, m) else
  if negb equal then Some (false, attr, m) else
  '(ok, m) ← ov_stun_frame_set_length m head length (u16 original_length);
  if negb ok then Some (false, attr, m) else Some (true, attr, m).
End Kind.

(** *** ov_stun_message_integrity.c *)
Definition STUN_MESSAGE_INTEGRITY : Z := 0x0008.
Definition ov_stun_attribute_frame_is_message_integrity := frame_is_integrity STUN_MESSAGE_INTEGRITY 20.
Definition ov_stun_message_integrity_encoding_length := integrity_encoding_length 20.
Definition ov_stun_add_message_integrity := add_integrity STUN_MESSAGE_INTEGRITY 20 OV_HASH_SHA1.
Definition ov_stun_check_message_integrity :=
  check_integrity STUN_MESSAGE_INTEGRITY 20 OV_HASH_SHA1 20.

(** *** ov_stun_attr_message_integrity_sha256.c *)
Definition STUN_ATTR_MESSAGE_INTEGRITY_SHA256 : Z := 0x001C.
Definition ov_stun_attribute_frame_is_message_integrity_sha256 :=
  frame_is_integrity STUN_ATTR_MESSAGE_INTEGRITY_SHA256 32.
Definition ov_stun_message_integrity_sha256_encoding_length := integrity_encoding_length 32.
Definition ov_stun_add_message_integrity_sha256 :=
  add_integrity STUN_ATTR_MESSAGE_INTEGRITY_SHA256 32 OV_HASH_SHA256.
Definition ov_stun_check_message_integrity_sha256 :=
  check_integrity STUN_ATTR_MESSAGE_INTEGRITY_SHA256 32 OV_HASH_SHA256 36.
End Integrity.

(** ** Lemmas: scanning the attributes *)

Lemma attr_length_readable m p t c length :
  attr_at m p t c -> 4 <= length -> exists n, ov_stun_attribute_get_length m p length = Some n.
Proof.
  intros Ha Hl. apply attr_at_bytes4 in Ha. eexists.
  eapply get_length_region; [exact Ha|apply bytes_app; auto with ov|zlia|done].
Qed.
(** A frame check that refuses a buffer that is too short, then compares the
    type. *)
Lemma is_fingerprint_other m p t c length :
  attr_at m p t c -> is_u16 t -> t <> STUN_FINGERPRINT ->
  ov_stun_attribute_frame_is_fingerprint m p length = Some false.
Proof.
  intros Ha Ht Hne. unfold ov_stun_attribute_frame_is_fingerprint. case_if; [done|].
  rewrite (get_type_attr m p t c) by (done || lia). cbn [mbind option_bind].
  destruct (attr_length_readable m p t c length Ha ltac:(lia)) as [n ->]. cbn [mbind option_bind].
  by rewrite (proj2 (Z.eqb_neq t _)).
Qed.
Lemma is_integrity_other TYPE SIZE m p t c length :
  attr_at m p t c -> is_u16 t -> t <> TYPE -> frame_is_integrity TYPE SIZE m p length = Some false.
Proof.
  intros Ha Ht Hne. unfold frame_is_integrity. case_if; [done|].
  rewrite (get_type_attr m p t c) by (done || lia). cbn [mbind option_bind].
  destruct (attr_length_readable m p t c length Ha ltac:(lia)) as [n ->]. cbn [mbind option_bind].
  by rewrite (proj2 (Z.eqb_neq t _)).
Qed.
Lemma is_fingerprint_attr m p c length :
  attr_at m p STUN_FINGERPRINT c -> Zlen c = 4 -> 8 <= length ->
  ov_stun_attribute_frame_is_fingerprint m p length = Some true.
Proof.
  intros Ha Hc Hl. pose proof Ha as [Hp _]. unfold ov_stun_attribute_frame_is_fingerprint, NULL. decide_guard.
  rewrite (get_type_attr m p _ c), (get_length_attr m p _ c) by (unfold is_u16, STUN_FINGERPRINT in *; done || lia).
  cbn [mbind option_bind]. by rewrite Z.eqb_refl, Hc.
Qed.
Lemma is_integrity_attr TYPE SIZE m p c length :
  attr_at m p TYPE c -> is_u16 TYPE -> Zlen c = SIZE -> is_u16 SIZE -> 24 <= length ->
  frame_is_integrity TYPE SIZE m p length = Some true.
Proof.
  intros Ha HT Hc HS Hl. pose proof Ha as [Hp _]. unfold frame_is_integrity, NULL. decide_guard.
  rewrite (get_type_attr m p _ c), (get_length_attr m p _ c) by (rewrite ?Hc; done || lia).
  cbn [mbind option_bind]. by rewrite Z.eqb_refl, Hc, Z.eqb_refl.
Qed.
Lemma is_fingerprint_null m length : ov_stun_attribute_frame_is_fingerprint m NULL length = Some false.
Proof. done. Qed.
Lemma is_integrity_null TYPE SIZE m length : frame_is_integrity TYPE SIZE m NULL length = Some false.
Proof. done. Qed.

(** After the attribute is found the rest of the array is cleared. *)
Lemma fingerprint_loop_after m head length ps finger :
  finger <> NULL ->
  fingerprint_loop m head length ps finger = Some (finger, replicate (Datatypes.length ps) NULL).
Proof.
  intros Hf. induction ps as [|a ps IH]; [done|]. cbn [fingerprint_loop Datatypes.length replicate].
  rewrite (proj2 (Z.eqb_neq finger NULL)) by done. cbn [negb]. rewrite is_fingerprint_null.
  cbn [mbind option_bind]. by rewrite IH.
Qed.
Lemma fingerprint_loop_spec m head length ps1 ts1 p c ps2 :
  attrs_at m ps1 ts1 -> STUN_FINGERPRINT ∉ ts1 -> attr_at m p STUN_FINGERPRINT c -> Zlen c = 4 ->
  8 <= u64 (length - (p - head)) ->
  fingerprint_loop m head length (ps1 ++ p :: ps2) NULL =
    Some (p, ps1 ++ p :: replicate (Datatypes.length ps2) NULL).
Proof.
  intros H1 Hni Hp Hc Hl. pose proof Hp as [Hpp _].
  induction H1 as [|q t ps ts (Ht & d & Hq) _ IH].
  - cbn [app fingerprint_loop]. rewrite Z.eqb_refl. cbn [negb].
    rewrite (is_fingerprint_attr m p c) by done. cbn [mbind option_bind].
    rewrite fingerprint_loop_after by (unfold NULL; lia). done.
  - apply not_elem_of_cons in Hni as [Hne Hni]. cbn [app fingerprint_loop]. rewrite Z.eqb_refl. cbn [negb].
    rewrite (is_fingerprint_other m q t d) by done. cbn [mbind option_bind]. by rewrite IH.
Qed.
Lemma fingerprint_loop_none m head length ps ts :
  attrs_at m ps ts -> STUN_FINGERPRINT ∉ ts -> fingerprint_loop m head length ps NULL = Some (NULL, ps).
Proof.
  intros H1 Hni. induction H1 as [|q t ps ts (Ht & d & Hq) _ IH]; [done|].
  apply not_elem_of_cons in Hni as [Hne Hni]. cbn [fingerprint_loop]. rewrite Z.eqb_refl. cbn [negb].
  rewrite (is_fingerprint_other m q t d) by done. cbn [mbind option_bind]. by rewrite IH.
Qed.

(** *** The length field *)

(** The message [l] with [n] in its length field. *)
Definition with_length (n : Z) (l : list Z) : list Z := ztake 2 l ++ be16 n ++ zdrop 4 l.
Lemma Zlen_with_length n l : 4 <= Zlen l -> Zlen (with_length n l) = Zlen l.
Proof. intros. unfold with_length. zlia. Qed.
Lemma bytes_with_length n l : bytes l -> bytes (with_length n l).
Proof. intros. unfold with_length. rewrite !bytes_app. auto with ov. Qed.
#[export] Hint Resolve bytes_with_length : ov.
Lemma region_with_length m head l n :
  region m head l -> 4 <= Zlen l -> region (write m (head + 2) (be16 n)) head (with_length n l).
Proof.
  intros Hm Hl. unfold with_length. eapply (region_write_mid m head (ztake 2 l) (ztake 2 (zdrop 2 l))).
  - rewrite <- (zdrop_zdrop 2 2) by lia. by rewrite !ztake_zdrop.
  - zlia.
  - zlia.
Qed.
Lemma with_length_app n l k : 4 <= Zlen l -> with_length n (l ++ k) = with_length n l ++ k.
Proof.
  intros Hl. unfold with_length. rewrite <- !app_assoc. f_equal; [|do 2 f_equal].
  - unfold ztake. rewrite take_app_le; [done|]. unfold Zlen in Hl. lia.
  - unfold zdrop. rewrite drop_app_le; [done|]. unfold Zlen in Hl. lia.
Qed.

Lemma load32_htonl m p v : region m p (be32 v) -> is_u32 v -> exists w, load32 m p = Some w /\ htonl w = v.
Proof.
  intros Hm Hv. eexists. split; [apply (load32_region m p (be32 v) p Hm); zlia|].
  rewrite Z.sub_diag. unfold htonl. rewrite ntohl_load by (apply bytes_znth; auto with ov).
  by apply (be_val_be32 v).
Qed.

(** ** FINGERPRINT *)

Definition fingerprint_of (l : list Z) : Z := zlib_spec 0 l .^ FINGERPRINT_XOR.
Lemma fingerprint_range m head l : region m head l -> bytes l -> is_u32 (fingerprint_of l).
Proof.
  intros Hm Hb. apply u32_lxor_range; [|unfold is_u32, FINGERPRINT_XOR; lia].
  by apply (crc32_zlib_spec m 0 head l (Zlen l)); [..|unfold is_u32; lia|].
Qed.

Section Fingerprint.
Context (m : mem) (head length : Z) (msg : list Z).
Context (Hm : region m head msg) (Hb : bytes msg) (Hk : 20 <= Zlen msg) (Hn : Zlen msg - 12 < 65536).
Context (Hl : Zlen msg + 8 <= length < 2 ^ 64).

Lemma add_fingerprint_spec next :
  Zlen msg mod 4 = 0 -> mapped m (head + Zlen msg) 8 ->
  exists m', ov_stun_add_fingerprint m head length (head + Zlen msg) next =
  Some (true, set_next next (head + Zlen msg + 8), m') /\
  same_outside m m' head (Zlen msg + 8) /\
  region m' head (with_length (Zlen msg - 12) msg ++
  attr_bytes STUN_FINGERPRINT (be32 (fingerprint_of (with_length (Zlen msg - 12) msg)))).
Proof using All.
  intros Hmod Hs. pose proof Hm as [Hp _]. set (k := Zlen msg) in *.
  assert (Ek : Zlen msg = k) by done.
  set (v := fingerprint_of (with_length (k - 12) msg)).
  set (m1 := write m (head + k) (be16 STUN_FINGERPRINT ++ be16 4)).
  assert (R1 : region m1 head msg) by (apply region_write_out; [done|right; lia]).
  set (m2 := write m1 (head + 2) (be16 (k - 12))).
  assert (R2 : region m2 head (with_length (k - 12) msg)) by (apply region_with_length; (done || lia)).
  assert (Hv : is_u32 v) by (apply (fingerprint_range m2 head); [done|auto with ov]).
  assert (A2 : region m2 (head + k) (be16 STUN_FINGERPRINT ++ be16 4))
    by (apply region_write_out; [apply region_write; lia|zlia]).
  exists (write m2 (head + k + 4) (be32 v)). split; [|split].
  - unfold ov_stun_add_fingerprint, NULL. replace (head + k - head) with k by lia.
    rewrite !(u64_id k), !(u64_id (k + 8)) by lia. decide_guard. guards.
    rewrite Z.rem_mod_nonneg, Hmod by lia. cbn [Z.eqb negb].
    rewrite (set_type_spec m (head + k) 8) by (unfold is_u16, STUN_FINGERPRINT; done || lia).
    cbn [mbind option_bind negb].
    rewrite (set_length_spec _ (head + k) 8) by (try apply mapped_write; unfold is_u16; done || lia).
    cbn [mbind option_bind negb]. rewrite (write_app m (head + k)) by done. fold m1.
    rewrite (u16_id (k + 8 - 20)) by lia. replace (k + 8 - 20) with (k - 12) by lia.
    rewrite (frame_set_length_spec m1) by first [by eapply region_mapped_le|unfold is_u16; lia].
    fold m2. cbn [mbind option_bind negb].
    destruct (crc32_zlib_spec m2 0 head _ k R2) as [-> _];
      [auto with ov|unfold is_u32; lia|by rewrite Zlen_with_length by lia|]. cbn [mbind option_bind].
    fold (fingerprint_of (with_length (k - 12) msg)). fold v.
    rewrite (store32_htonl m2 (head + k) 8) by first [by repeat apply mapped_write|done|lia].
    done.
  - eapply same_outside_trans; [apply (same_outside_write m head (k + 8) (head + k) (be16 STUN_FINGERPRINT ++ be16 4)); zlia|].
    eapply same_outside_trans; [apply (same_outside_write m1 head (k + 8) (head + 2) (be16 (k - 12))); zlia|].
    apply same_outside_write; zlia.
  - apply region_app. rewrite Zlen_with_length by lia. fold k.
    split; [apply region_write_out; [done|]; rewrite Zlen_with_length by lia; fold k; zlia|].
    intros _. rewrite attr_bytes_aligned by done. change (Zlen (be32 v)) with 4. rewrite app_assoc.
    apply region_app. split; [apply region_write_out; [done|]; zlia|]. intros _.
    change (Zlen (be16 STUN_FINGERPRINT ++ be16 4)) with 4. apply region_write. lia.
Qed.
End Fingerprint.

Lemma with_length_id n l :
  4 <= Zlen l -> l.[2] = u8 (n .>> 8) -> l.[3] = u8 n -> with_length n l = l.
Proof.
  intros Hl H2 H3. unfold with_length, be16. rewrite <- H2, <- H3.
  rewrite <- (ztake_zdrop 2 l) at 5. f_equal.
  rewrite (zdrop_cons l 2) by lia. change (2 + 1) with 3. by rewrite (zdrop_cons l 3) by lia.
Qed.
Lemma with_length_field n l :
  4 <= Zlen l -> (with_length n l).[2] = u8 (n .>> 8) /\ (with_length n l).[3] = u8 n.
Proof.
  intros Hl. unfold with_length. rewrite !(znth_app_r (ztake 2 l)) by zlia. autorewrite with zlen.
  replace (2 - 0 `max` (2 `min` Zlen l)) with 0 by lia. replace (3 - 0 `max` (2 `min` Zlen l)) with 1 by lia.
  done.
Qed.
Lemma with_length_idem n l : 4 <= Zlen l -> with_length n (with_length n l) = with_length n l.
Proof.
  intros Hl. destruct (with_length_field n l Hl). by apply with_length_id; [rewrite Zlen_with_length|..].
Qed.
(** Changing an octet outside of the length field. *)
Lemma znth_replaced l1 x y l2 i : 0 <= i -> i <> Zlen l1 -> (l1 ++ x :: l2).[i] = (l1 ++ y :: l2).[i].
Proof.
  intros Hi Hne. destruct (decide (i < Zlen l1)).
  - by rewrite !znth_app_l by lia.
  - rewrite !znth_app_r by lia. by rewrite !znth_cons_S by lia.
Qed.
Lemma with_length_replaced n l1 x y l2 :
  4 <= Zlen (l1 ++ x :: l2) -> Zlen l1 <> 2 -> Zlen l1 <> 3 ->
  with_length n (l1 ++ x :: l2) = l1 ++ x :: l2 -> with_length n (l1 ++ y :: l2) = l1 ++ y :: l2.
Proof.
  intros Hl H2 H3 E. assert (Hl' : 4 <= Zlen (l1 ++ y :: l2)) by zlia.
  destruct (with_length_field n _ Hl) as [F2 F3]. rewrite E in F2, F3.
  apply with_length_id; [done|..]; by rewrite (znth_replaced l1 y x l2) by lia.
Qed.

Lemma u64_span length p head k : p = head + k -> 0 <= k -> k <= length < 2 ^ 64 -> u64 (length - (p - head)) = length - k.
Proof. intros -> Hk Hl. replace (head + k - head) with k by lia. apply u64_id. lia. Qed.

Lemma check_fingerprint_spec m head length pre rest p v ps1 ts1 ps2 must :
  region m head (pre ++ rest) -> bytes pre -> 20 <= Zlen pre -> Zlen pre - 12 < 65536 ->
  p = head + Zlen pre -> Zlen pre + 8 <= length < 2 ^ 64 ->
  attr_at m p STUN_FINGERPRINT (be32 v) -> is_u32 v -> attrs_at m ps1 ts1 -> STUN_FINGERPRINT ∉ ts1 ->
  ov_stun_check_fingerprint m head length (ps1 ++ p :: ps2) (Zlen (ps1 ++ p :: ps2)) must =
    Some (fingerprint_of (with_length (Zlen pre - 12) pre) =? v,
          ps1 ++ p :: replicate (Datatypes.length ps2) NULL,
          write m (head + 2) (be16 (Zlen pre - 12))).
Proof.
  intros Hm Hb Hk Hn Ep Hl Ha Hv Hps Hni. pose proof Hm as [Hp _].
  unfold ov_stun_check_fingerprint. assert (1 <= Zlen (ps1 ++ p :: ps2)) by zlia. null_guard.
  rewrite Z.ltb_irrefl.
  replace (ztake (Zlen (ps1 ++ p :: ps2)) (ps1 ++ p :: ps2)) with (ps1 ++ p :: ps2)
    by (symmetry; apply take_ge; unfold Zlen; lia).
  replace (zdrop (Zlen (ps1 ++ p :: ps2)) (ps1 ++ p :: ps2)) with (@nil Z)
    by (symmetry; apply drop_ge; unfold Zlen; lia).
  rewrite (fingerprint_loop_spec m head length ps1 ts1 p (be32 v) ps2)
    by (rewrite ?(u64_span length p head (Zlen pre)) by lia; done || lia).
  cbn [mbind option_bind]. rewrite (proj2 (Z.eqb_neq p NULL)) by (unfold NULL; lia).
  replace (p - head - 12) with (Zlen pre - 12) by lia. rewrite (u16_id (Zlen pre - 12)) by lia.
  rewrite (frame_set_length_spec m)
    by first [by apply (region_mapped_le _ _ _ _ Hm); zlia|unfold is_u16; lia].
  cbn [mbind option_bind negb]. set (m1 := write m (head + 2) (be16 (Zlen pre - 12))).
  assert (R1 : region m1 head (with_length (Zlen pre - 12) pre))
    by (apply region_with_length; [by eapply region_app_l|lia]).
  destruct (crc32_zlib_spec m1 0 head _ (p - head) R1) as [-> _];
    [auto with ov|unfold is_u32; lia|rewrite Zlen_with_length by lia; lia|]. cbn [mbind option_bind].
  fold (fingerprint_of (with_length (Zlen pre - 12) pre)).
  destruct (load32_htonl m1 (p + 4) v) as (w & -> & Ew); [|done|].
  { apply region_write_out; [by eapply attr_at_content|]. left. zlia. }
  cbn [mbind option_bind]. rewrite Ew, app_nil_r. by destruct (_ =? v).
Qed.

(** The fingerprint of a message without one. *)
Lemma check_fingerprint_absent m head length ps ts must :
  0 < head -> 20 <= length -> attrs_at m ps ts -> STUN_FINGERPRINT ∉ ts -> ps <> [] ->
  ov_stun_check_fingerprint m head length ps (Zlen ps) must = Some (negb must, ps, m).
Proof.
  intros Hp Hl Hps Hni Hne. unfold ov_stun_check_fingerprint.
  assert (1 <= Zlen ps) by (destruct ps; [done|zlia]). null_guard. rewrite Z.ltb_irrefl.
  replace (ztake (Zlen ps) ps) with ps by (symmetry; apply take_ge; unfold Zlen; lia).
  replace (zdrop (Zlen ps) ps) with (@nil Z) by (symmetry; apply drop_ge; unfold Zlen; lia).
  rewrite (fingerprint_loop_none m head length ps ts) by done. cbn [mbind option_bind].
  by rewrite Z.eqb_refl, app_nil_r.
Qed.

(** *** Adding an attribute to a message *)

Lemma tlv_ptrs_app p l1 l2 : tlv_ptrs p (l1 ++ l2) = tlv_ptrs p l1 ++ tlv_ptrs (p + Zlen (tlvs_bytes l1)) l2.
Proof.
  revert p. induction l1 as [|a l1 IH]; intros p; [by rewrite Z.add_0_r|]. simpl.
  rewrite IH. rewrite tlvs_bytes_cons. do 3 f_equal. zlia.
Qed.
Lemma tlvs_bytes_app l1 l2 : tlvs_bytes (l1 ++ l2) = tlvs_bytes l1 ++ tlvs_bytes l2.
Proof. unfold tlvs_bytes. by rewrite fmap_app, concat_app. Qed.

(** The message [msg] with the attributes [l], extended by an attribute. *)
Lemma extended_sliceable msg l t c n size :
  zdrop 20 msg = tlvs_bytes l -> Forall tlv_wf l -> 20 <= Zlen msg -> is_u16 t -> is_u16 (Zlen c) ->
  n = Zlen msg - 20 + attr_size (Zlen c) -> n < 65536 -> Zlen l + 1 < size ->
  sliceable (with_length n msg ++ attr_bytes t c) size (l ++ [Tlv t c (zeros (padding (Zlen c)))]).
Proof.
  intros Hb Hwf H20 Ht Hc -> Hn Hs. pose proof (padding_spec (Zlen c)) as [Hpad _].
  pose proof (attr_size_bounds (Zlen c)). pose proof (Zlen_nonneg c).
  set (n := Zlen msg - 20 + attr_size (Zlen c)) in *.
  split; [|split; [|split]].
  - apply Forall_app. split; [done|]. repeat constructor; cbn [tlv_type tlv_content tlv_pad]; unfold is_u16 in *; zlia.
  - rewrite tlvs_bytes_app. change (tlvs_bytes [_]) with (attr_bytes t c ++ []). rewrite app_nil_r, <- Hb.
    rewrite <- (ztake_zdrop 20 msg) at 1. rewrite with_length_app by zlia. rewrite <- app_assoc.
    apply zdrop_app_n. rewrite Zlen_with_length by zlia. zlia.
  - rewrite !znth_app_l by (rewrite Zlen_with_length by lia; lia).
    destruct (with_length_field n msg) as [-> ->]; [lia|]. rewrite Zlen_app, Zlen_with_length, Zlen_attr_bytes by lia.
    etransitivity; [apply (be_val_be16 n); unfold n; lia|unfold n; lia].
  - zlia.
Qed.

(** ** Message integrity *)

(** Writing what is there already. *)
Lemma write_same m p q l bs :
  region m p l -> p <= q -> bs = ztake (Zlen bs) (zdrop (q - p) l) -> write m q bs = m.
Proof.
  intros Hm Hq E. apply map_eq. intros x. rewrite lookup_write. case_decide as Hx; [|done].
  assert (Hl : Zlen bs <= Zlen l - (q - p)).
  { rewrite E in Hx |- *. zlia. }
  destruct Hm as [_ Hm]. replace x with (p + (x - p)) at 2 by lia. rewrite Hm by lia.
  rewrite E, znth_ztake, znth_zdrop by lia. do 2 f_equal. lia.
Qed.
Lemma slice2 l i : 0 <= i -> i + 2 <= Zlen l -> ztake 2 (zdrop i l) = [l.[i]; l.[i + 1]].
Proof.
  intros Hi Hl. rewrite (zdrop_cons l i), (zdrop_cons l (i + 1)) by lia. done.
Qed.


(** A local array that is overwritten and does not survive. *)
Lemma with_local_scratch {A} m bs bs' (body : ptr -> mem -> option (A * mem)) r :
  Zlen bs' = Zlen bs ->
  (forall a, fresh m <= a -> region (write m a bs) a bs -> body a (write m a bs) = Some (r, write m a bs')) ->
  with_local m bs body = Some (r, m).
Proof.
  intros Hl Hbody. unfold with_local. pose proof (fresh_spec m) as [Hf Hfresh].
  rewrite Hbody by (lia || (apply region_write; lia)). cbn [mbind option_bind]. do 2 f_equal. apply map_eq.
  intros x. rewrite lookup_dealloc, lookup_write, Hl. case_decide as Hx; [|done].
  symmetry. apply eq_None_not_Some. intros H. specialize (Hfresh _ H). lia.
Qed.

Lemma memcmp_n_spec m p q l k :
  region m p l -> region m q k -> length l = length k ->
  exists c, memcmp_n m p q (length l) = Some c /\ (c = 0 <-> l = k).
Proof.
  revert p q k. induction l as [|a l IH]; intros p q k Hp Hq Hl; destruct k as [|b k]; try done.
  { by exists 0. }
  cbn [length memcmp_n]. rewrite (load8_at_0 _ _ _ _ Hp), (load8_at_0 _ _ _ _ Hq). cbn [mbind option_bind].
  destruct (Z.eqb_spec a b) as [->|Hne].
  - destruct (IH (p + 1) (q + 1) k) as (c & -> & Hc);
      [by apply (region_app_r m p _ [b])|by apply (region_app_r m q _ [b])|by injection Hl|].
    exists c. split; [done|]. rewrite Hc. split; [by intros ->|by intros [= ->]].
  - exists (a - b). split; [done|]. split; [lia|]. intros [= ? ?]. done.
Qed.

Lemma integrity_loop_after TYPE SIZE m head length ps integrity :
  integrity <> NULL ->
  integrity_loop TYPE SIZE m head length ps integrity =
    Some (integrity, replicate (Datatypes.length ps) NULL).
Proof.
  intros Hf. induction ps as [|a ps IH]; [done|]. cbn [integrity_loop Datatypes.length replicate].
  rewrite (proj2 (Z.eqb_neq integrity NULL)) by done. cbn [negb]. rewrite is_integrity_null.
  cbn [mbind option_bind]. by rewrite IH.
Qed.
(** The attributes after the integrity are cleared, but for a fingerprint that
    follows at once. *)
Definition after_integrity (fp : bool) (ps : list ptr) : list ptr :=
  if fp then ztake 1 ps ++ replicate (Datatypes.length ps - 1) NULL
  else replicate (Datatypes.length ps) NULL.
Lemma integrity_loop_spec TYPE SIZE m head length ps1 ts1 p c ps2 fp :
  is_u16 TYPE -> is_u16 SIZE -> attrs_at m ps1 ts1 -> TYPE ∉ ts1 -> attr_at m p TYPE c -> Zlen c = SIZE ->
  24 <= u64 (length - (p - head)) ->
  match ps2 with
  | [] => fp = false
  | f :: _ => ov_stun_attribute_frame_is_fingerprint m f (u64 (length - (f - head))) = Some fp
  end ->
  integrity_loop TYPE SIZE m head length (ps1 ++ p :: ps2) NULL =
    Some (p, ps1 ++ p :: after_integrity fp ps2).
Proof.
  intros HT HS H1 Hni Hp Hc Hl Hf. pose proof Hp as [Hpp _]. assert (p <> NULL) by (unfold NULL; lia).
  induction H1 as [|q t ps ts (Ht & d & Hq) _ IH].
  - cbn [app integrity_loop]. rewrite Z.eqb_refl. cbn [negb].
    rewrite (is_integrity_attr TYPE SIZE m p c) by done. cbn [mbind option_bind].
    destruct ps2 as [|f ps2]; [by subst|]. rewrite Hf. cbn [mbind option_bind].
    destruct fp; rewrite integrity_loop_after by done; [|done]. cbn [mbind option_bind Datatypes.length].
    unfold after_integrity. cbn [Datatypes.length]. by rewrite Nat.sub_succ, Nat.sub_0_r.
  - apply not_elem_of_cons in Hni as [Hne Hni]. cbn [app integrity_loop]. rewrite Z.eqb_refl. cbn [negb].
    rewrite (is_integrity_other TYPE SIZE m q t d) by done. cbn [mbind option_bind]. by rewrite IH.
Qed.

Section IntegrityLemmas.
Context (HMAC : EVP_MD -> list Z -> list Z -> option (list Z)).
Context (TYPE SIZE BUF : Z) (HASH : ov_hash_function) (EVP : EVP_MD).
Context (HE : ov_hash_function_to_EVP HASH = Some EVP).
Context (HT : is_u16 TYPE) (HS : 20 <= SIZE <= 32) (HS4 : SIZE mod 4 = 0) (HB : SIZE <= BUF).
(** The hash has the digest size of the attribute. *)
Context (Hmac : forall k d, exists r, HMAC EVP k d = Some r /\ Zlen r = SIZE /\ bytes r).

Lemma hmac_spec m buffer data key k result p n :
  region m buffer data -> region m key k -> mapped m p n -> p <= result -> result + SIZE <= p + n ->
  exists r, HMAC EVP k data = Some r /\ Zlen r = SIZE /\ bytes r /\
  ov_hmac HMAC m HASH buffer (Zlen data) key (Zlen k) result LOCAL =
  Some (true, SIZE, write m result r).
Proof using All.
  intros Hd Hk Hm H1 H2. destruct (Hmac k data) as (r & E & Hr & Hb). exists r.
  split; [done|]. split; [done|]. split; [done|].
  pose proof Hd as [Hdp _]. pose proof Hk as [Hkp _]. pose proof Hm as [Hp _].
  unfold ov_hmac. replace ((_ || _ || _ || _) : bool) with false by (unfold NULL, LOCAL; lia). rewrite HE.
  rewrite (loadn_region_n m key k), (loadn_region_n m buffer data) by done. cbn [mbind option_bind].
  rewrite E. rewrite (storen_bytes m p n) by (rewrite ?Hr; done || lia). cbn [mbind option_bind].
  by rewrite Hr.
Qed.

Lemma hmac_matches_spec m head pre p d key k :
  region m head pre -> p = head + Zlen pre -> region m (p + 4) d -> Zlen d = SIZE ->
  region m key k -> k <> [] -> pre <> [] ->
  hmac_matches HMAC SIZE HASH m head p key (Zlen k) BUF =
  Some (true, bool_decide (HMAC EVP k pre = Some d), m).
Proof using All.
  intros Hpre Ep Hd Hdl Hk Hkn Hpn. unfold hmac_matches.
  pose proof (fresh_region_out m _ _ Hpre) as F1. pose proof (fresh_region_out m _ _ Hd) as F2.
  pose proof (fresh_region_out m _ _ Hk) as F3.
  assert (0 < Zlen pre) by (destruct pre; [done|zlia]). assert (0 < Zlen k) by (destruct k; [done|zlia]).
  destruct (Hmac k pre) as (r & Er & Hr & Hrb).
  apply (with_local_scratch m (zeros BUF) (r ++ zeros (BUF - SIZE))); [zlia|].
  intros a Ha Hz. set (m1 := write m a (zeros BUF)).
  assert (P1 : region m1 head pre) by (apply region_write_out; [done|lia]).
  assert (K1 : region m1 key k) by (apply region_write_out; [done|lia]).
  assert (M1 : mapped m1 a BUF) by (eapply region_mapped_le; [exact Hz|zlia]).
  replace (p - head) with (Zlen pre) by lia.
  destruct (hmac_spec m1 head pre key k a a BUF P1 K1 M1) as (r' & Er' & _ & _ & ->); [lia|lia|].
  rewrite Er in Er'. injection Er' as <-. cbn [mbind option_bind negb].
  assert (E2 : write m1 a r = write m a (r ++ zeros (BUF - SIZE))).
  { unfold m1. replace (zeros BUF) with ([] ++ zeros SIZE ++ zeros (BUF - SIZE))
      by (simpl; unfold zeros; rewrite <- replicate_add; f_equal; lia).
    by rewrite (write_mid m a [] (zeros SIZE) r (zeros (BUF - SIZE)) a) by zlia. }
  rewrite E2. unfold memcmp. replace (Z.to_nat SIZE) with (Datatypes.length r) by (unfold Zlen in Hr; lia).
  pose proof Hd as [Hdp _]. pose proof (fresh_spec m) as [Hf0 _].
  destruct (memcmp_n_spec (write m a (r ++ zeros (BUF - SIZE))) a (p + 4) r d) as (c & -> & Hc).
  - eapply region_app_l, region_write. lia.
  - apply region_write_out; [done|]. zlia.
  - unfold Zlen in *. lia.
  - cbn [mbind option_bind]. rewrite Er. do 3 f_equal.
    destruct (Z.eqb_spec 0 c) as [<-|Hne]; symmetry.
    + apply bool_decide_eq_true. f_equal. by apply Hc.
    + apply bool_decide_eq_false. intros [= ->]. apply Hne. symmetry. by apply Hc.
Qed.
End IntegrityLemmas.

Section IntegrityOps.
Context (HMAC : EVP_MD -> list Z -> list Z -> option (list Z)).
Context (TYPE SIZE BUF : Z) (HASH : ov_hash_function) (EVP : EVP_MD).
Context (HE : ov_hash_function_to_EVP HASH = Some EVP).
Context (HT : is_u16 TYPE) (HS : 20 <= SIZE <= 32) (HS4 : SIZE mod 4 = 0) (HB : SIZE <= BUF).
Context (Hmac : forall k d, exists r, HMAC EVP k d = Some r /\ Zlen r = SIZE /\ bytes r).
Context (m : mem) (head length key : Z) (k pre : list Z).
Context (Hb : bytes pre) (Hk20 : 20 <= Zlen pre).
Context (Hn : Zlen pre + SIZE - 16 < 65536) (Hl : Zlen pre + (SIZE + 4) <= length < 2 ^ 64).
Context (Hk : region m key k) (Hkn : k <> []) (Hkd : key + Zlen k <= head \/ head + length <= key).

(** The digest of a message: over its octets so far, with the length field
counting the attribute itself. *)
Definition mac_input : list Z := with_length (Zlen pre + (SIZE - 16)) pre.

Lemma add_integrity_spec next :
  region m head pre -> mapped m (head + Zlen pre) (SIZE + 4) -> Zlen pre mod 4 = 0 ->
  exists m' r, add_integrity HMAC TYPE SIZE HASH m head length (head + Zlen pre) next key (Zlen k) =
  Some (true, set_next next (head + Zlen pre + (SIZE + 4)), m') /\
  HMAC EVP k mac_input = Some r /\ Zlen r = SIZE /\ bytes r /\
  same_outside m m' head (Zlen pre + (SIZE + 4)) /\
  region m' head (mac_input ++ attr_bytes TYPE r) /\ region m' key k.
Proof using All.
  intros Hm Hs Hmod. pose proof Hm as [Hp _]. pose proof Hk as [Hkp _].
  assert (Hk1 : 1 <= Zlen k) by (destruct k; [done|zlia]).
  set (x := Zlen pre) in *. assert (Ex : Zlen pre = x) by done.
  set (m1 := write m (head + x) (be16 TYPE ++ be16 SIZE)).
  assert (R1 : region m1 head pre) by (apply region_write_out; [done|right; lia]).
  set (m2 := write m1 (head + 2) (be16 (x + (SIZE - 16)))).
  assert (R2 : region m2 head mac_input) by (apply region_with_length; (done || lia)).
  assert (Hmi : Zlen mac_input = x) by (unfold mac_input; rewrite Zlen_with_length; lia).
  assert (K1 : region m1 key k) by (apply region_write_out; [done|zlia]).
  assert (K2 : region m2 key k) by (apply region_write_out; [done|zlia]).
  assert (M2 : mapped m2 (head + x) (SIZE + 4)) by by repeat apply mapped_write.
  assert (A2 : region m2 (head + x) (be16 TYPE ++ be16 SIZE))
    by (apply region_write_out; [apply region_write; lia|zlia]).
  destruct (hmac_spec HMAC TYPE SIZE BUF HASH EVP HE HT HS HS4 HB Hmac m2 head mac_input key k (head + x + 4)
    (head + x) (SIZE + 4) R2 K2 M2) as (r & Er & Hr & Hrb & Eh); [lia|lia|].
  exists (write m2 (head + x + 4) r), r.
  split; [|split; [done|split; [done|split; [done|split; [|split]]]]].
  - unfold add_integrity. replace (head + x - head) with x by lia.
    rewrite (u64_id (x + (SIZE + 4))) by lia. null_guard. decide_guard.
    rewrite Z.rem_mod_nonneg, Hmod by lia. cbn [Z.eqb negb].
    rewrite (set_type_spec m (head + x) (SIZE + 4)) by (done || lia). cbn [mbind option_bind negb].
    rewrite (set_length_spec _ (head + x) (SIZE + 4))
      by (try apply mapped_write; unfold is_u16; done || lia).
    cbn [mbind option_bind negb]. rewrite (write_app m (head + x)) by done. fold m1.
    rewrite (u16_id (x + (SIZE + 4) - 20)) by lia.
    replace (x + (SIZE + 4) - 20) with (x + (SIZE - 16)) by lia.
    rewrite (frame_set_length_spec m1) by first [by eapply region_mapped_le|unfold is_u16; lia].
    fold m2. cbn [mbind option_bind negb]. replace (x + (SIZE + 4) - (SIZE + 4)) with (Zlen mac_input) by lia.
    rewrite Eh. cbn [mbind option_bind negb]. by rewrite Z.eqb_refl.
  - eapply same_outside_trans;
      [apply (same_outside_write m head (x + (SIZE + 4)) (head + x) (be16 TYPE ++ be16 SIZE)); zlia|].
    eapply same_outside_trans;
      [apply (same_outside_write m1 head (x + (SIZE + 4)) (head + 2) (be16 (x + (SIZE - 16)))); zlia|].
    apply same_outside_write; lia.
  - apply region_app. rewrite Hmi. split; [apply region_write_out; [done|]; lia|].
    intros _. rewrite attr_bytes_aligned by (by rewrite Hr). rewrite Hr, app_assoc.
    apply region_app. split; [apply region_write_out; [done|]; zlia|]. intros _.
    change (Zlen (be16 TYPE ++ be16 SIZE)) with 4. apply region_write. lia.
  - apply region_write_out; [done|]. lia.
Qed.

Lemma check_integrity_spec rest p d ps1 ts1 ps2 fp must old :
  region m head (pre ++ rest) -> p = head + Zlen pre -> attr_at m p TYPE d -> Zlen d = SIZE ->
  attrs_at m ps1 ts1 -> TYPE ∉ ts1 ->
  match ps2 with
  | [] => fp = false
  | f :: _ => ov_stun_attribute_frame_is_fingerprint m f (u64 (length - (f - head))) = Some fp
  end ->
  region m head old -> Zlen old = 20 -> bytes old ->
  let valid := bool_decide (HMAC EVP k mac_input = Some d) in
  check_integrity HMAC TYPE SIZE HASH BUF m head length (ps1 ++ p :: ps2) (Zlen (ps1 ++ p :: ps2))
  key (Zlen k) must =
  Some (valid, ps1 ++ p :: after_integrity fp ps2,
      if valid then m else write m (head + 2) (be16 (Zlen pre + (SIZE - 16)))).
Proof using All.
  intros Hm Ep Ha Hd Hps Hni Hps2 Hold H20 Hbo valid. pose proof Hm as [Hp _]. pose proof Hk as [Hkp _].
  assert (Hk1 : 1 <= Zlen k) by (destruct k; [done|zlia]).
  assert (HSu : is_u16 SIZE) by (unfold is_u16; lia).
  assert (1 <= Zlen (ps1 ++ p :: ps2)) by zlia.
  unfold check_integrity. null_guard. rewrite Z.ltb_irrefl.
  replace (ztake (Zlen (ps1 ++ p :: ps2)) (ps1 ++ p :: ps2)) with (ps1 ++ p :: ps2)
    by (symmetry; apply take_ge; unfold Zlen; lia).
  replace (zdrop (Zlen (ps1 ++ p :: ps2)) (ps1 ++ p :: ps2)) with (@nil Z)
    by (symmetry; apply drop_ge; unfold Zlen; lia).
  rewrite (integrity_loop_spec TYPE SIZE m head length ps1 ts1 p d ps2 fp)
    by (rewrite ?(u64_span length p head (Zlen pre)) by lia; done || lia).
  cbn [mbind option_bind]. fold (after_integrity fp ps2).
  rewrite (proj2 (Z.eqb_neq p NULL)) by (unfold NULL; lia). rewrite app_nil_r.
  null_guard. rewrite (frame_get_length_region m head old) by (done || lia). cbn [mbind option_bind].
  pose proof (bytes_znth old 2 Hbo) as B2. pose proof (bytes_znth old 3 Hbo) as B3.
  pose proof (be_val_range2 _ _ B2 B3) as Hr. rewrite (u16_id (be_val _)) by done.
  replace (p - head + (SIZE - 16)) with (Zlen pre + (SIZE - 16)) by lia. rewrite u16_id by lia.
  assert (M : mapped m head 20) by (eapply region_mapped_le; [exact Hold|lia]).
  rewrite (frame_set_length_spec m) by first [done|unfold is_u16; lia]. cbn [mbind option_bind negb].
  set (m1 := write m (head + 2) (be16 (Zlen pre + (SIZE - 16)))).
  assert (Hpre : region m head pre) by by eapply region_app_l.
  assert (R1 : region m1 head mac_input) by (apply region_with_length; (done || lia)).
  assert (Hmi : Zlen mac_input = Zlen pre) by (unfold mac_input; rewrite Zlen_with_length; lia).
  rewrite (hmac_matches_spec HMAC TYPE SIZE BUF HASH EVP HE HT HS HS4 HB Hmac m1 head mac_input p d key k R1).
  - cbn [mbind option_bind negb]. unfold valid. destruct (bool_decide _); cbn [negb]; [|done].
    rewrite (frame_set_length_spec m1) by first [by apply mapped_write|done|lia].
    cbn [mbind option_bind negb]. do 3 f_equal. unfold m1. rewrite write_overwrite by done.
    apply (write_same m head _ old); [done|lia|]. rewrite be16_be_val by done.
    replace (head + 2 - head) with 2 by lia. symmetry. apply (slice2 old 2); lia.
  - lia.
  - apply region_write_out; [by eapply attr_at_content|]. left. zlia.
  - done.
  - apply region_write_out; [done|]. zlia.
  - done.
  - intros E. rewrite E in Hmi. change (Zlen (@nil Z)) with 0 in Hmi. lia.
Qed.
End IntegrityOps.

(** ** A protected message: attributes, integrity, fingerprint *)

Lemma with_length_twice n n' l : 4 <= Zlen l -> with_length n (with_length n' l) = with_length n l.
Proof.
  intros Hl. unfold with_length. f_equal; [|f_equal].
  - replace 2 with (Zlen (ztake 2 l)) at 1 by zlia. by rewrite ztake_app.
  - rewrite app_assoc. apply zdrop_app_n. zlia.
Qed.
Lemma tlvs_bytes_mod l : Forall tlv_wf l -> Zlen (tlvs_bytes l) mod 4 = 0.
Proof.
  induction 1 as [|a l Ha _ IH]; [done|]. rewrite tlvs_bytes_cons, Zlen_app, Zlen_tlv_bytes by done.
  pose proof (padding_spec (Zlen (tlv_content a))) as [_ Hm]. unfold attr_size. dlia.
Qed.
Lemma body_mod msg l : 20 <= Zlen msg -> zdrop 20 msg = tlvs_bytes l -> Forall tlv_wf l -> Zlen msg mod 4 = 0.
Proof.
  intros H20 Hb Hwf. pose proof (tlvs_bytes_mod l Hwf) as H. rewrite <- Hb in H.
  replace (Zlen (zdrop 20 msg)) with (Zlen msg - 20) in H by zlia. dlia.
Qed.

Lemma mapped_same_outside m m' p n q k :
  mapped m p k -> same_outside m m' q n -> p + k <= q \/ q + n <= p -> mapped m' p k.
Proof. intros [Hp Hm] Ho Hd. split; [done|]. intros i Hi. rewrite (Ho (p + i)) by lia. by apply Hm. Qed.

Section Protected.
Context (HMAC : EVP_MD -> list Z -> list Z -> option (list Z)).
Context (TYPE SIZE BUF : Z) (HASH : ov_hash_function) (EVP : EVP_MD).
Context (HE : ov_hash_function_to_EVP HASH = Some EVP).
Context (HT : is_u16 TYPE) (HF : TYPE <> STUN_FINGERPRINT).
Context (HS : 20 <= SIZE <= 32) (HS4 : SIZE mod 4 = 0) (HB : SIZE <= BUF).
Context (Hmac : forall k d, exists r, HMAC EVP k d = Some r /\ Zlen r = SIZE /\ bytes r).
Context (head key : Z) (k : list Z) (l : list tlv) (size : nat).
Context (Hkn : k <> []) (Hwf : Forall tlv_wf l) (Hsz : Zlen l + 2 < Z.of_nat size).
Context (HlT : TYPE ∉ tlv_type <$> l) (HlF : STUN_FINGERPRINT ∉ tlv_type <$> l).

(** The message: [P] are the header and the attributes [l]. *)
Definition protected_bytes (P d : list Z) (v : Z) : list Z :=
  P ++ attr_bytes TYPE d ++ attr_bytes STUN_FINGERPRINT (be32 v).
Definition protected_tlvs (d : list Z) (v : Z) : list tlv :=
  l ++ [Tlv TYPE d []; Tlv STUN_FINGERPRINT (be32 v) []].

Lemma Zlen_attr_integrity d : Zlen d = SIZE -> Zlen (attr_bytes TYPE d) = SIZE + 4.
Proof using HS4. intros Hd. rewrite attr_bytes_aligned by (by rewrite Hd). clear -Hd. zlia. Qed.

Section Message.
Context (P d : list Z) (v : Z).
Context (HP : bytes P) (H20 : 20 <= Zlen P) (Hbody : zdrop 20 P = tlvs_bytes l).
Context (Hn : Zlen P + SIZE - 8 < 65536) (Hd : Zlen d = SIZE) (Hdb : bytes d) (Hv : is_u32 v).

Lemma Zlen_protected : Zlen (protected_bytes P d v) = Zlen P + (SIZE + 12).
Proof using All.
  unfold protected_bytes. rewrite !Zlen_app, Zlen_attr_integrity by done.
  change (Zlen (attr_bytes STUN_FINGERPRINT (be32 v))) with 8. lia.
Qed.
Lemma protected_field : with_length (Zlen P + SIZE - 8) P = P ->
  be_val [(protected_bytes P d v).[2]; (protected_bytes P d v).[3]] = Zlen P + SIZE - 8.
Proof using All.
  intros E. unfold protected_bytes. rewrite !znth_app_l by lia.
  destruct (with_length_field (Zlen P + SIZE - 8) P) as [F2 F3]; [lia|]. rewrite E in F2, F3.
  rewrite F2, F3. apply (be_val_be16 (Zlen P + SIZE - 8)). lia.
Qed.
Lemma protected_sliceable : with_length (Zlen P + SIZE - 8) P = P ->
  sliceable (protected_bytes P d v) (Z.of_nat size) (protected_tlvs d v).
Proof using All.
  intros E. split; [|split; [|split]].
  - apply Forall_app. split; [done|]. repeat constructor; cbn [tlv_type tlv_content tlv_pad];
      rewrite ?Hd; unfold is_u16, STUN_FINGERPRINT in *; try zlia; rewrite padding_0; done || zlia.
  - unfold protected_tlvs, protected_bytes. rewrite tlvs_bytes_app, <- Hbody.
    rewrite <- (ztake_zdrop 20 P) at 1. rewrite <- app_assoc.
    etransitivity; [apply zdrop_app_n; zlia|]. f_equal.
    rewrite !attr_bytes_aligned by (by rewrite ?Hd). unfold tlvs_bytes, tlv_bytes. simpl.
    by rewrite !app_nil_r.
  - rewrite (protected_field E), Zlen_protected. lia.
  - unfold protected_tlvs. zlia.
Qed.
Lemma protected_ptrs :
  tlv_ptrs (head + 20) (protected_tlvs d v) =
  tlv_ptrs (head + 20) l ++ [head + Zlen P; head + Zlen P + (SIZE + 4)].
Proof using All.
  unfold protected_tlvs. rewrite tlv_ptrs_app, <- Hbody. f_equal. simpl. f_equal; [zlia|].
  f_equal. unfold tlv_bytes. cbn [tlv_type tlv_content tlv_pad]. zlia.
Qed.

Context (m : mem) (Hm : region m head (protected_bytes P d v)).
Lemma protected_attrs :
  attrs_at m (tlv_ptrs (head + 20) l) (tlv_type <$> l) /\ attr_at m (head + Zlen P) TYPE d /\
  attr_at m (head + Zlen P + (SIZE + 4)) STUN_FINGERPRINT (be32 v).
Proof using All.
  unfold protected_bytes in Hm. split; [|split].
  - apply tlvs_attrs_at; [done|]. rewrite <- Hbody. apply region_zdrop; [|lia]. by eapply region_app_l.
  - pose proof (region_app_r _ _ _ _ _ Hm eq_refl) as Hm2. apply region_app_l in Hm2.
    rewrite attr_bytes_aligned in Hm2 by (by rewrite Hd). exact Hm2.
  - pose proof (region_app_r _ _ _ _ _ (region_app_r _ _ _ _ _ Hm eq_refl) eq_refl) as Hm2.
    rewrite Zlen_attr_integrity in Hm2 by done. exact Hm2.
Qed.

Context (HPn : with_length (Zlen P + SIZE - 8) P = P) (HPu : Zlen P + SIZE + 12 < 2 ^ 64).
Lemma protected_array :
  exists j array,
  ov_stun_frame_slice m head (Zlen P + SIZE + 12) (Some (replicate size NULL)) (Z.of_nat size) =
  Some (true, Some array) /\ Zlen array = Z.of_nat size /\
  array = tlv_ptrs (head + 20) l ++
  (head + Zlen P) :: (head + Zlen P + (SIZE + 4)) :: replicate j NULL.
Proof using All.
  pose proof protected_sliceable as Hsl. specialize (Hsl HPn).
  assert (Hz : Zlen (replicate size NULL) = Z.of_nat size) by (unfold Zlen; by rewrite length_replicate).
  assert (Hpb : bytes (protected_bytes P d v))
    by (unfold protected_bytes; rewrite !bytes_app; split; [done|]; split; auto with ov).
  pose proof Zlen_protected as HZ. pose proof (Zlen_nonneg l).
  destruct (frame_slice_spec m head (protected_bytes P d v) (replicate size NULL))
    as (b & array & E & Hlen & Hiff & Ha); [done|done|lia|lia|].
  rewrite Hz in *. replace (Zlen P + SIZE + 12) with (Zlen (protected_bytes P d v)) by lia.
  eexists _, array. split; [rewrite E; by rewrite (proj2 Hiff (ex_intro _ _ Hsl))|].
  split; [unfold Zlen; by rewrite Hlen, length_replicate|].
  rewrite (Ha _ Hsl), memset_ptrs_null, drop_replicate, protected_ptrs, <- app_assoc. done.
Qed.
Lemma protected_fingerprint must array j :
  v = fingerprint_of (P ++ attr_bytes TYPE d) ->
  array = tlv_ptrs (head + 20) l ++
  (head + Zlen P) :: (head + Zlen P + (SIZE + 4)) :: replicate j NULL ->
  ov_stun_check_fingerprint m head (Zlen P + SIZE + 12) array (Zlen array) must = Some (true, array, m).
Proof using All.
  intros Ev ->. destruct protected_attrs as (A1 & A2 & A3).
  pose proof (Zlen_attr_integrity d Hd) as Hai. pose proof Zlen_protected as HZ.
  assert (A12 : attrs_at m (tlv_ptrs (head + 20) l ++ [head + Zlen P]) ((tlv_type <$> l) ++ [TYPE])).
  { apply Forall2_app; [done|]. repeat constructor; [apply HT..|]. by exists d. }
  rewrite (cons_middle (head + Zlen P)), app_assoc.
  assert (Hpre : bytes (P ++ attr_bytes TYPE d)) by (apply bytes_app; auto with ov).
  rewrite (check_fingerprint_spec m head (Zlen P + SIZE + 12) (P ++ attr_bytes TYPE d)
    (attr_bytes STUN_FINGERPRINT (be32 v)) _ v _ ((tlv_type <$> l) ++ [TYPE]));
    rewrite ?Zlen_app, ?Hai; try done; try lia.
  - rewrite length_replicate, with_length_app by lia.
    replace (Zlen P + (SIZE + 4) - 12) with (Zlen P + SIZE - 8) by lia.
    rewrite HPn, <- Ev, Z.eqb_refl. do 2 f_equal.
    apply (write_same m head _ (protected_bytes P d v)); [done|lia|].
    replace (head + 2 - head) with 2 by lia. symmetry. etransitivity; [apply (slice2 _ 2); lia|].
    rewrite <- protected_field by done. rewrite be16_be_val; [done|..];
      apply bytes_znth; unfold protected_bytes; rewrite !bytes_app; auto with ov.
  - unfold protected_bytes in Hm. by rewrite app_assoc in Hm.
  - rewrite elem_of_app, list_elem_of_singleton. intros [?|?]; [done|congruence].
Qed.
Lemma protected_integrity must array j :
  region m key k -> key + Zlen k <= head \/ head + (Zlen P + SIZE + 12) <= key ->
  HMAC EVP k (mac_input SIZE P) = Some d ->
  array = tlv_ptrs (head + 20) l ++
  (head + Zlen P) :: (head + Zlen P + (SIZE + 4)) :: replicate j NULL ->
  check_integrity HMAC TYPE SIZE HASH BUF m head (Zlen P + SIZE + 12) array (Zlen array) key (Zlen k) must =
  Some (true, array, m).
Proof using All.
  intros Hk Hdis Ed ->. destruct protected_attrs as (A1 & A2 & A3).
  assert (R20 : region m head (ztake 20 P)).
  { eapply region_app_l, region_app_l. rewrite ztake_zdrop. exact Hm. }
  pose proof (check_integrity_spec HMAC TYPE SIZE BUF HASH EVP HE HT HS HS4 HB Hmac m head
    (Zlen P + SIZE + 12) key k P HP H20) as H.
  rewrite (H ltac:(lia) ltac:(lia) Hk Hkn Hdis (attr_bytes TYPE d ++ attr_bytes STUN_FINGERPRINT (be32 v))
    _ d _ (tlv_type <$> l) _ true must (ztake 20 P)); try done; try zlia; [| |by auto with ov].
  - rewrite bool_decide_eq_true_2 by done. do 5 f_equal. unfold after_integrity.
    cbn [Datatypes.length]. by rewrite length_replicate, Nat.sub_succ, Nat.sub_0_r.
  - apply (is_fingerprint_attr _ _ (be32 v)); [done|done|]. rewrite (u64_span _ _ head (Zlen P + (SIZE + 4))); lia.
Qed.
End Message.

(** Adding the integrity and then the fingerprint to the message [msg]. *)
Lemma protect_spec m msg length next :
  region m head msg -> bytes msg -> 20 <= Zlen msg -> zdrop 20 msg = tlvs_bytes l ->
  Zlen msg + SIZE - 8 < 65536 -> Zlen msg + (SIZE + 12) <= length < 2 ^ 64 ->
  mapped m (head + Zlen msg) (SIZE + 12) -> region m key k ->
  key + Zlen k <= head \/ head + length <= key ->
  exists m1 m2 d v,
  add_integrity HMAC TYPE SIZE HASH m head length (head + Zlen msg) next key (Zlen k) =
  Some (true, set_next next (head + Zlen msg + (SIZE + 4)), m1) /\
  ov_stun_add_fingerprint m1 head length (head + Zlen msg + (SIZE + 4)) next =
  Some (true, set_next next (head + Zlen msg + (SIZE + 4) + 8), m2) /\
  HMAC EVP k (mac_input SIZE msg) = Some d /\ Zlen d = SIZE /\ bytes d /\ is_u32 v /\
  let P := with_length (Zlen msg + SIZE - 8) msg in
  v = fingerprint_of (P ++ attr_bytes TYPE d) /\ region m2 head (protected_bytes P d v) /\
  region m2 key k /\ same_outside m m2 head (Zlen msg + (SIZE + 12)).
Proof using All.
  intros Hm Hb H20 Hbody Hn Hl Hs Hk Hdis. set (x := Zlen msg) in *. assert (Ex : Zlen msg = x) by done.
  pose proof (body_mod msg l H20 Hbody Hwf) as Hmod.
  assert (Hs' : mapped m (head + x) (SIZE + 4)) by (eapply mapped_sub; [exact Hs|lia|lia]).
  pose proof Hm as [Hp _].
  destruct (add_integrity_spec HMAC TYPE SIZE BUF HASH EVP HE HT HS HS4 HB Hmac m head length key k msg Hb H20
    ltac:(lia) ltac:(lia) Hk Hkn Hdis next Hm Hs' Hmod) as (m1 & d & E1 & Ed & Hdl & Hdb & O1 & R1 & K1).
  assert (Hmi : Zlen (mac_input SIZE msg) = x) by (unfold mac_input; rewrite Zlen_with_length; lia).
  set (msg1 := mac_input SIZE msg ++ attr_bytes TYPE d) in *.
  assert (Hmsg1 : Zlen msg1 = x + (SIZE + 4))
    by (unfold msg1; by rewrite Zlen_app, Hmi, Zlen_attr_integrity by done).
  assert (Hm1 : mapped m1 (head + Zlen msg1) 8).
  { apply (mapped_same_outside m m1 _ (x + (SIZE + 4)) head);
      [eapply mapped_sub; [exact Hs|lia|lia]|done|lia]. }
  assert (Hb1 : bytes msg1) by (unfold msg1, mac_input; rewrite bytes_app; auto with ov).
  destruct (add_fingerprint_spec m1 head length msg1 R1 Hb1 ltac:(lia) ltac:(lia) ltac:(lia) next)
    as (m2 & E2 & O2 & R2); [rewrite Hmsg1; dlia|done|].
  rewrite Hmsg1 in *. rewrite (Z.add_assoc head) in E2. exists m1, m2, d. eexists.
  split; [exact E1|]. split; [exact E2|]. split; [done|]. split; [done|]. split; [done|].
  assert (EP : with_length (x + (SIZE + 4) - 12) msg1 =
    with_length (x + SIZE - 8) msg ++ attr_bytes TYPE d).
  { unfold msg1. rewrite with_length_app by lia. unfold mac_input. rewrite with_length_twice by lia.
    do 2 f_equal. lia. }
  rewrite EP in R2. cbv zeta. rewrite <- app_assoc in R2.
  split; [|split; [reflexivity|split; [exact R2|split]]].
  - apply (fingerprint_range m2 head); [|by rewrite bytes_app; auto with ov].
    rewrite app_assoc in R2. by eapply region_app_l.
  - apply (region_same_outside m1 m2 key k head (x + (SIZE + 4) + 8)); [done|done|lia].
  - eapply same_outside_trans; eapply same_outside_le; [exact O1| |exact O2|]; lia.
Qed.
End Protected.

(** ** Specification: what the attributes promise *)

Definition digest_size (h : EVP_MD) : Z :=
  match h with EVP_sha1 => 20 | EVP_sha256 => 32 | EVP_sha512 => 64 | EVP_md5 => 16 end.
(** [HMAC] succeeds, with a digest of the size of the hash function. *)
Definition digests (HMAC : EVP_MD -> list Z -> list Z -> option (list Z)) : Prop :=
  forall h k data, exists r, HMAC h k data = Some r /\ Zlen r = digest_size h /\ bytes r.

Section Contract.
Context (HMAC : EVP_MD -> list Z -> list Z -> option (list Z)).
Context (TYPE : Z) (EVP : EVP_MD).
Context (add : mem -> ptr -> Z -> ptr -> ptr -> ptr -> Z -> encoded).
Context (check : mem -> ptr -> Z -> list ptr -> Z -> ptr -> Z -> bool -> option (bool * list ptr * mem)).

(** A message to which the integrity and then the fingerprint are added slices
into its attributes and these two, the checks accept it with the same key
and leave array and memory as they were. *)
Definition protection_contract : Prop :=
  let SIZE := digest_size EVP in
  forall m head length key k next l size msg must,
  k <> [] -> Forall tlv_wf l -> Zlen l + 2 < Z.of_nat size ->
  TYPE ∉ tlv_type <$> l -> STUN_FINGERPRINT ∉ tlv_type <$> l ->
  region m head msg -> bytes msg -> 20 <= Zlen msg -> zdrop 20 msg = tlvs_bytes l ->
  Zlen msg + SIZE - 8 < 65536 -> Zlen msg + (SIZE + 12) <= length < 2 ^ 64 ->
  mapped m (head + Zlen msg) (SIZE + 12) -> region m key k ->
  key + Zlen k <= head \/ head + length <= key ->
  exists m1 m2 array d v, let n := Zlen msg + SIZE + 12 in
  add m head length (head + Zlen msg) next key (Zlen k) =
  Some (true, set_next next (head + Zlen msg + (SIZE + 4)), m1) /\
  ov_stun_add_fingerprint m1 head length (head + Zlen msg + (SIZE + 4)) next =
  Some (true, set_next next (head + Zlen msg + (SIZE + 4) + 8), m2) /\
  ov_stun_frame_slice m2 head n (Some (replicate size NULL)) (Z.of_nat size) =
  Some (true, Some array) /\
  ov_stun_check_fingerprint m2 head n array (Zlen array) must = Some (true, array, m2) /\
  check m2 head n array (Zlen array) key (Zlen k) must = Some (true, array, m2) /\
  HMAC EVP k (with_length (Zlen msg + (SIZE - 16)) msg) = Some d /\
  v = fingerprint_of (with_length (Zlen msg + SIZE - 8) msg ++ attr_bytes TYPE d) /\
  region m2 head (protected_bytes TYPE (with_length (Zlen msg + SIZE - 8) msg) d v) /\
  same_outside m m2 head n.

(** The check of a message whose first integrity attribute stands after the
octets [pre]: it accepts exactly when the digest of these, with the length
field set to count up to the attribute, is the content. The memory is
unchanged when it accepts; the length field keeps the changed value when
it does not. *)
Definition check_contract : Prop :=
  let SIZE := digest_size EVP in
  forall m head length key k pre rest p d ps1 ts1 ps2 fp must,
  region m head (pre ++ rest) -> bytes pre -> 20 <= Zlen pre -> Zlen pre + SIZE - 16 < 65536 ->
  Zlen pre + (SIZE + 4) <= length < 2 ^ 64 -> region m key k -> k <> [] ->
  key + Zlen k <= head \/ head + length <= key ->
  p = head + Zlen pre -> attr_at m p TYPE d -> Zlen d = SIZE -> attrs_at m ps1 ts1 -> TYPE ∉ ts1 ->
  match ps2 with
  | [] => fp = false
  | f :: _ => ov_stun_attribute_frame_is_fingerprint m f (u64 (length - (f - head))) = Some fp
  end ->
  let valid := bool_decide (HMAC EVP k (with_length (Zlen pre + (SIZE - 16)) pre) = Some d) in
  check m head length (ps1 ++ p :: ps2) (Zlen (ps1 ++ p :: ps2)) key (Zlen k) must =
  Some (valid, ps1 ++ p :: after_integrity fp ps2,
      if valid then m else write m (head + 2) (be16 (Zlen pre + (SIZE - 16)))).
End Contract.

Section Contracts.
Context (HMAC : EVP_MD -> list Z -> list Z -> option (list Z)).
Context (TYPE BUF : Z) (HASH : ov_hash_function) (EVP : EVP_MD).
Context (HE : ov_hash_function_to_EVP HASH = Some EVP).
Context (HS : 20 <= digest_size EVP <= 32) (HS4 : digest_size EVP mod 4 = 0).
Context (HT : is_u16 TYPE) (HF : TYPE <> STUN_FINGERPRINT) (HB : digest_size EVP <= BUF).
Context (Hd : digests HMAC).

Lemma protection_contract_holds :
  protection_contract HMAC TYPE EVP (add_integrity HMAC TYPE (digest_size EVP) HASH)
  (check_integrity HMAC TYPE (digest_size EVP) HASH BUF).
Proof using All.
  unfold protection_contract.
  intros m head length key k next l size msg must Hkn Hwf Hsz HlT HlF Hm Hb H20 Hbody Hn Hl Hs Hk Hdis.
  set (SIZE := digest_size EVP) in *. set (P := with_length (Zlen msg + SIZE - 8) msg).
  destruct (protect_spec HMAC TYPE SIZE BUF HASH EVP HE HT HF HS HS4 HB (Hd EVP) head key k l size Hkn Hwf
    Hsz HlT HlF m msg length next Hm Hb H20 Hbody Hn Hl Hs Hk Hdis)
    as (m1 & m2 & d & v & E1 & E2 & Ed & Hdl & Hdb & Hv & Ev & R2 & K2 & O2). fold P in Ev, R2.
  assert (HPl : Zlen P = Zlen msg) by (apply Zlen_with_length; lia).
  assert (HPb : bytes P) by (unfold P; auto with ov).
  assert (HP : zdrop 20 P = tlvs_bytes l).
  { rewrite <- Hbody. unfold P. rewrite <- (ztake_zdrop 20 msg) at 2. rewrite with_length_app by zlia.
    apply zdrop_app_n. rewrite Zlen_with_length by zlia. zlia. }
  assert (HPn : with_length (Zlen P + SIZE - 8) P = P).
  { rewrite HPl. unfold P. apply with_length_twice. lia. }
  assert (Hmac : mac_input SIZE P = mac_input SIZE msg).
  { unfold mac_input. rewrite HPl. unfold P. apply with_length_twice. lia. }
  destruct (protected_array HMAC TYPE SIZE BUF HASH EVP HE HT HF HS HS4 HB (Hd EVP) head key k l size Hkn Hwf
    Hsz HlT HlF P d v HPb ltac:(lia) HP ltac:(lia) Hdl Hdb Hv m2 R2 HPn ltac:(lia))
    as (j & array & Ea & Hza & Harr).
  exists m1, m2, array, d, v. cbv zeta. rewrite <- HPl in *.
  split; [exact E1|]. split; [exact E2|]. split; [exact Ea|].
  split. { eapply (protected_fingerprint HMAC TYPE SIZE BUF HASH EVP HE HT HF HS HS4 HB (Hd EVP)); try eassumption. all: lia. }
  split. { eapply (protected_integrity HMAC TYPE SIZE BUF HASH EVP HE HT HF HS HS4 HB (Hd EVP)); try eassumption; try lia.
  by rewrite Hmac. }
  split; [unfold mac_input in Ed; by rewrite HPl|]. split; [exact Ev|]. split; [exact R2|].
  by replace (Zlen P + SIZE + 12) with (Zlen P + (SIZE + 12)) by lia.
Qed.
Lemma check_contract_holds :
  check_contract HMAC TYPE EVP (check_integrity HMAC TYPE (digest_size EVP) HASH BUF).
Proof using All.
  unfold check_contract.
  intros m head length key k pre rest p d ps1 ts1 ps2 fp must Hm Hb H20 Hn Hl Hk Hkn Hdis -> Ha Hdl Hps Hni Hf.
  apply (check_integrity_spec HMAC TYPE (digest_size EVP) BUF HASH EVP HE HT HS HS4 HB (Hd EVP) m head length key k
    pre Hb H20 Hn Hl Hk Hkn Hdis rest _ d ps1 ts1 ps2 fp must (ztake 20 pre)); try done; [|zlia|auto with ov].
  eapply region_app_l, region_app_l. rewrite ztake_zdrop. exact Hm.
Qed.
End Contracts.

(** ** Properties *)

(** C1: Protecting a message works end to end, for both integrity attributes:
    on any message made of whole attributes, [ov_stun_add_message_integrity]
    (or the SHA-256 variant) followed by [ov_stun_add_fingerprint] yields a
    message that [ov_stun_frame_slice] cuts into its attributes, the integrity
    and the fingerprint; [ov_stun_check_fingerprint] and the integrity check
    with the same key accept it and leave the array and the message as they
    were; the digest covers the message with the length field up to the
    integrity, and nothing outside of the message is written. *)
Theorem message_protection HMAC :
  digests HMAC ->
  protection_contract HMAC STUN_MESSAGE_INTEGRITY EVP_sha1
    (ov_stun_add_message_integrity HMAC) (ov_stun_check_message_integrity HMAC) /\
  protection_contract HMAC STUN_ATTR_MESSAGE_INTEGRITY_SHA256 EVP_sha256
    (ov_stun_add_message_integrity_sha256 HMAC) (ov_stun_check_message_integrity_sha256 HMAC).
Proof.
  intros Hd. split; apply protection_contract_holds; unfold is_u16, STUN_MESSAGE_INTEGRITY,
    STUN_ATTR_MESSAGE_INTEGRITY_SHA256, STUN_FINGERPRINT; simpl; done || lia.
Qed.

(** A keyed sum, to instantiate the hash. *)
Definition sum_mac (h : EVP_MD) (k data : list Z) : option (list Z) :=
  Some (be32 (foldr Z.add 0 (k ++ data)) ++ zeros (digest_size h - 4)).
Lemma sum_mac_digests : digests sum_mac.
Proof.
  intros h k data. eexists. split; [reflexivity|]. split; [by destruct h|].
  apply bytes_app. auto with ov.
Qed.
(** The message [msg1] in a buffer of 80 octets, and a key. *)
Definition protect_mem : mem := write (write (write ∅ 16 (zeros 80)) 16 msg1) 128 [107; 101; 121].
Lemma message_protection_witness :
  exists m1 m2 array,
    ov_stun_add_message_integrity sum_mac protect_mem 16 80 44 LOCAL 128 3 = Some (true, Some 68, m1) /\
    ov_stun_add_fingerprint m1 16 80 68 LOCAL = Some (true, Some 76, m2) /\
    ov_stun_frame_slice m2 16 60 (Some (replicate 5 NULL)) 5 = Some (true, Some array) /\
    ov_stun_check_fingerprint m2 16 60 array (Zlen array) true = Some (true, array, m2) /\
    ov_stun_check_message_integrity sum_mac m2 16 60 array (Zlen array) 128 3 true = Some (true, array, m2).
Proof.
  destruct (proj1 (message_protection sum_mac sum_mac_digests) protect_mem 16 80 128 [107; 101; 121] LOCAL
    [Tlv 6 [97; 98; 99] [0]] 5%nat msg1 true) as (m1 & m2 & array & d & v & H).
  - discriminate.
  - repeat constructor; vm_compute; auto; discriminate.
  - reflexivity.
  - apply (bool_decide_unpack _). vm_compute. exact I.
  - apply (bool_decide_unpack _). vm_compute. exact I.
  - apply region_write_out; [apply region_write; lia|]. right. vm_compute. discriminate.
  - apply (bool_decide_unpack _). vm_compute. exact I.
  - vm_compute. discriminate.
  - reflexivity.
  - reflexivity.
  - split; [vm_compute; discriminate|reflexivity].
  - apply (mapped_sub _ 16 80); [|vm_compute; discriminate|vm_compute; discriminate].
    apply mapped_write, mapped_write. apply (region_mapped _ _ (zeros 80)), region_write. lia.
  - apply region_write. lia.
  - right. vm_compute. discriminate.
  - exists m1, m2, array. destruct H as (H1 & H2 & H3 & H4 & H5 & _).
    split; [exact H1|]. split; [exact H2|]. split; [exact H3|]. split; [exact H4|exact H5].
Defined.

(** C8: The integrity checks accept exactly the right digest, for both
    attributes: the verdict on a message whose integrity attribute stands after
    the octets [pre] is whether the attribute holds [HMAC key pre], with the
    length field counted up to the attribute. The array is cleared after the
    integrity but for a fingerprint that follows it. The message is restored
    when the digest matches; otherwise the length field stays changed. *)
Theorem integrity_check_exact HMAC :
  digests HMAC ->
  check_contract HMAC STUN_MESSAGE_INTEGRITY EVP_sha1 (ov_stun_check_message_integrity HMAC) /\
  check_contract HMAC STUN_ATTR_MESSAGE_INTEGRITY_SHA256 EVP_sha256
    (ov_stun_check_message_integrity_sha256 HMAC).
Proof.
  intros Hd. split; apply check_contract_holds; unfold is_u16, STUN_MESSAGE_INTEGRITY,
    STUN_ATTR_MESSAGE_INTEGRITY_SHA256, STUN_FINGERPRINT; simpl; done || lia.
Qed.
(** A digest of zeros is refused, and the length field 0 reads 24 after it. *)
Definition bare_header : list Z := [0; 1; 0; 0] ++ magic_cookie ++ zeros 12.
Definition forged_mem : mem :=
  write (write ∅ 16 (bare_header ++ attr_bytes STUN_MESSAGE_INTEGRITY (zeros 20))) 128 [107; 101; 121].
Lemma integrity_check_exact_witness :
  ov_stun_check_message_integrity sum_mac forged_mem 16 44 [36] 1 128 3 true =
    Some (false, [36], write forged_mem 18 (be16 24)).
Proof.
  apply (proj1 (integrity_check_exact sum_mac sum_mac_digests) forged_mem 16 44 128 [107; 101; 121]
    bare_header (attr_bytes STUN_MESSAGE_INTEGRITY (zeros 20)) 36 (zeros 20) [] [] [] false true).
  - apply region_write_out; [apply region_write; lia|]. right. vm_compute. discriminate.
  - apply (bool_decide_unpack _). vm_compute. exact I.
  - vm_compute. discriminate.
  - reflexivity.
  - split; [vm_compute; discriminate|reflexivity].
  - apply region_write. lia.
  - discriminate.
  - right. vm_compute. discriminate.
  - reflexivity.
  - eapply (region_app_r _ 16 _ bare_header); [|reflexivity].
    apply region_write_out; [apply region_write; lia|]. right. vm_compute. discriminate.
  - reflexivity.
  - constructor.
  - apply not_elem_of_nil.
  - reflexivity.
Defined.

(** C21: [ov_stun_check_fingerprint] accepts exactly the messages whose
    fingerprint is the CRC, xored with 0x5354554e, of everything before it (with
    the length field counted up to the fingerprint). So it detects errors: when
    one octet before the fingerprint of an accepted message differs, outside of
    the length field, the check refuses the message. *)
Theorem fingerprint_check_exact m head length pre rest p v ps1 ts1 ps2 must :
  region m head (pre ++ rest) -> bytes pre -> 20 <= Zlen pre -> Zlen pre - 12 < 65536 ->
  p = head + Zlen pre -> Zlen pre + 8 <= length < 2 ^ 64 ->
  attr_at m p STUN_FINGERPRINT (be32 v) -> is_u32 v -> attrs_at m ps1 ts1 -> STUN_FINGERPRINT ∉ ts1 ->
  let valid := fingerprint_of (with_length (Zlen pre - 12) pre) =? v in
  ov_stun_check_fingerprint m head length (ps1 ++ p :: ps2) (Zlen (ps1 ++ p :: ps2)) must =
    Some (valid, ps1 ++ p :: replicate (Datatypes.length ps2) NULL, write m (head + 2) (be16 (Zlen pre - 12))) /\
  (forall l1 x y l2, pre = l1 ++ y :: l2 -> is_byte x -> x <> y -> Zlen l1 <> 2 -> Zlen l1 <> 3 ->
     with_length (Zlen pre - 12) pre = pre -> fingerprint_of (l1 ++ x :: l2) = v -> valid = false).
Proof.
  intros Hm Hb H20 Hn Ep Hl Ha Hv Hps Hni valid. split; [by eapply check_fingerprint_spec|].
  intros l1 x y l2 -> Hx Hne H2 H3 E <-. unfold valid. rewrite E. apply Z.eqb_neq.
  unfold fingerprint_of. intros Hc. rewrite !(Z.lxor_comm _ FINGERPRINT_XOR) in Hc. apply lxor_inj_l in Hc.
  revert Hc. apply zlib_spec_detects; [done|done|done|unfold is_u32; lia].
Qed.
(** A bare header with its fingerprint, the last octet of the id flipped. *)
Definition flipped_header : list Z := [0; 1; 0; 8] ++ magic_cookie ++ zeros 11 ++ [1].
Lemma fingerprint_check_exact_witness :
  let v := fingerprint_of (([0; 1; 0; 8] ++ magic_cookie ++ zeros 11) ++ 0 :: []) in
  let m := write ∅ 16 (flipped_header ++ attr_bytes STUN_FINGERPRINT (be32 v)) in
  ov_stun_check_fingerprint m 16 28 [36; 0] 2 true = Some (false, [36; 0], write m 18 (be16 8)).
Proof.
  intros v m.
  destruct (fingerprint_check_exact m 16 28 flipped_header (attr_bytes STUN_FINGERPRINT (be32 v)) 36 v [] [] [0] true)
    as [E H].
  - apply region_write. lia.
  - apply (bool_decide_unpack _). vm_compute. exact I.
  - vm_compute. discriminate.
  - reflexivity.
  - reflexivity.
  - split; [vm_compute; discriminate|reflexivity].
  - eapply (region_app_r _ 16 _ flipped_header); [apply region_write; lia|reflexivity].
  - vm_compute. split; [discriminate|reflexivity].
  - constructor.
  - apply not_elem_of_nil.
  - rewrite (H ([0; 1; 0; 8] ++ magic_cookie ++ zeros 11) 0 1 []) in E; [exact E|..].
    + reflexivity.
    + unfold is_byte. lia.
    + discriminate.
    + vm_compute. discriminate.
    + vm_compute. discriminate.
    + reflexivity.
    + reflexivity.
Defined.
