(* ===== verification/Hashtable.v ===== *)
(** * The hash table (src/lib/ov_base/src/hashtable/ov_hashtable.c)

    A fixed number of buckets, each a linked list behind a sentinel entry. Keys
    are values ([key_copy] and [key_free] manage their memory, which is not
    modelled); a value is a [void *], [None] for [NULL]. A table is [None] for
    [NULL]. Operations are [None] where the code is undefined. The hash functions
    for strings are those of src/lib/ov_base/src/function_sets/ov_hash_functions.c. *)
From S2P Require Import Prelude.

(** ** The code: hash functions *)

(** A C string is a [string] without the octet 0. *)
Definition ov_hash_simple_c_string (c_string : option string) : Z :=
  match c_string with
  | None => 0
  | Some s => fold_left (fun hash c => u8 (hash + 13 * c)) (string_bytes s) 0
  end.

Definition PEARSON_PERMUTATION_TABLE : list Z :=
  [98; 6; 85; 150; 36; 23; 112; 164; 135; 207; 169; 5; 26; 64; 165; 219;
   61; 20; 68; 89; 130; 63; 52; 102; 24; 229; 132; 245; 80; 216; 195; 115;
   90; 168; 156; 203; 177; 120; 2; 190; 188; 7; 100; 185; 174; 243; 162; 10;
   237; 18; 253; 225; 8; 208; 172; 244; 255; 126; 101; 79; 145; 235; 228; 121;
   123; 251; 67; 250; 161; 0; 107; 97; 241; 111; 181; 82; 249; 33; 69; 55;
   59; 153; 29; 9; 213; 167; 84; 93; 30; 46; 94; 75; 151; 114; 73; 222;
   197; 96; 210; 45; 16; 227; 248; 202; 51; 152; 252; 125; 81; 206; 215; 186;
   39; 158; 178; 187; 131; 136; 1; 49; 50; 17; 141; 91; 47; 129; 60; 99;
   154; 35; 86; 171; 105; 34; 38; 200; 147; 58; 77; 118; 173; 246; 76; 254;
   133; 232; 196; 144; 198; 124; 53; 4; 108; 74; 223; 234; 134; 230; 157; 139;
   189; 205; 199; 128; 176; 19; 211; 236; 127; 192; 231; 70; 233; 88; 146; 44;
   183; 201; 22; 83; 13; 214; 116; 109; 159; 32; 95; 226; 140; 220; 57; 12;
   221; 31; 209; 182; 143; 92; 149; 184; 148; 62; 113; 65; 37; 27; 106; 166;
   3; 14; 204; 72; 21; 41; 56; 66; 28; 193; 40; 217; 25; 54; 179; 117;
   238; 87; 240; 155; 180; 170; 242; 212; 191; 163; 78; 218; 137; 194; 175; 110;
   43; 119; 224; 71; 122; 142; 42; 160; 104; 48; 247; 103; 15; 11; 138; 239].
Definition ov_hash_pearson_c_string (c_string : option string) : Z :=
  match c_string with
  | None => 0
  | Some s => fold_left (fun h c => PEARSON_PERMUTATION_TABLE.[h .^ c]) (string_bytes s) 0
  end.

(** ** The code: the table *)

Section Table.
Context {K V : Type}.
Abbreviation table_entry := (K * option V)%type.

Record hashtable := {
  number_of_buckets : Z;
  entries : list (list table_entry)
}.
(** The functions a table is created with; the key is never [NULL] in them. *)
Context (hash : K -> Z) (key_cmp : K -> K -> Z).

Definition ov_hashtable_create (num_buckets : Z) : option hashtable :=
  if 0 =? num_buckets then None else
  Some {| number_of_buckets := u32 num_buckets; entries := replicate (Z.to_nat num_buckets) [] |}.

(** The walk along a bucket: the entries before the first with the key, and the
rest, which is empty when there is none. The C function returns a pointer to
the last entry of the first part, whose [next] is the second. *)
Fixpoint find_entry (key : K) (entry : list table_entry) : list table_entry * list table_entry :=
  match entry with
  | [] => ([], [])
  | (k, v) :: next =>
      if 0 =? key_cmp k key then ([], entry)
      else let '(before, found) := find_entry key next in ((k, v) :: before, found)
  end.
(** [Some None] stands for the result [NULL]; [None] for the division by zero. *)
Definition get_entry_for (table : option hashtable) (key : option K)
    : option (option (nat * list table_entry * list table_entry)) :=
  match table, key with
  | Some t, Some k =>
      if number_of_buckets t =? 0 then None else
      let h := Z.to_nat (u64 (hash k) mod number_of_buckets t) in
      bucket ← entries t !! h;
      Some (Some (h, (find_entry k bucket).1, (find_entry k bucket).2))
  | _, _ => Some None
  end.

Definition ov_hashtable_contains (table : option hashtable) (key : option K) : option bool :=
  entry ← get_entry_for table key;
  match entry with
  | None => Some false
  | Some (_, _, []) => Some false
  | Some (_, _, _ :: _) => Some true
  end.

Definition ov_hashtable_get (table : option hashtable) (key : option K) : option (option V) :=
  entry ← get_entry_for table key;
  match entry with
  | None => Some None
  | Some (_, _, []) => Some None
  | Some (_, _, (_, value) :: _) => Some value
  end.

Definition set_bucket (t : hashtable) (h : nat) (bucket : list table_entry) : hashtable :=
  {| number_of_buckets := number_of_buckets t; entries := <[h := bucket]> (entries t) |}.

(** Result: the old value and the table. *)
Definition ov_hashtable_set (table : option hashtable) (key : option K) (value : option V)
    : option (option V * option hashtable) :=
  entry ← get_entry_for table key;
  match table, key, entry with
  | Some t, Some k, Some (h, before, []) => Some (None, Some (set_bucket t h (before ++ [(k, value)])))
  | Some t, Some k, Some (h, before, (k', old_value) :: next) =>
      Some (old_value, Some (set_bucket t h (before ++ (k', value) :: next)))
  | _, _, _ => Some (None, table)
  end.

Definition ov_hashtable_remove (table : option hashtable) (key : option K)
    : option (option V * option hashtable) :=
  entry ← get_entry_for table key;
  match table, entry with
  | Some t, Some (h, before, (_, original_value) :: next) =>
      Some (original_value, Some (set_bucket t h (before ++ next)))
  | _, _ => Some (None, table)
  end.

(** [process_func] returns whether to go on, and the new state of what [arg]
points to. Result: the count, whether to go on, and the state. *)
Fixpoint process_entries {A} (process_func : K -> option V -> A -> bool * A)
    (entry : list table_entry) (count : Z) (arg : A) : Z * bool * A :=
  match entry with
  | [] => (count, true, arg)
  | (key, value) :: next =>
      let '(go_on, arg) := process_func key value arg in
      if go_on then process_entries process_func next (count + 1) arg else (count + 1, false, arg)
  end.
Fixpoint process_buckets {A} (process_func : K -> option V -> A -> bool * A)
    (buckets : list (list table_entry)) (count : Z) (arg : A) : Z * A :=
  match buckets with
  | [] => (count, arg)
  | bucket :: buckets =>
      let '(count, go_on, arg) := process_entries process_func bucket count arg in
      if go_on then process_buckets process_func buckets count arg else (count, arg)
  end.
Definition ov_hashtable_for_each {A} (table : option hashtable)
    (process_func : option (K -> option V -> A -> bool * A)) (arg : A) : Z * A :=
  match table, process_func with
  | Some t, Some process_func =>
      if 0 =? number_of_buckets t then (0, arg) else
      process_buckets process_func (ztake (number_of_buckets t) (entries t)) 0 arg
  | _, _ => (0, arg)
  end.

Definition hashtable_clear (table : option hashtable) : bool * option hashtable :=
  match table with
  | None => (false, None)
  | Some t =>
  (true, Some {| number_of_buckets := number_of_buckets t;
                 entries := imap (fun i b => if Z.of_nat i <? number_of_buckets t then [] else b)
                              (entries t) |})
  end.
(** Every table has its array of entries, so freeing it succeeds. *)
Definition ov_hashtable_free (table : option hashtable) : option hashtable :=
  if (hashtable_clear table).1 then None else table.
End Table.
Arguments hashtable : clear implicits.

(** The strings' table: [num_buckets] is a [uint8_t]. [strcmp] is the order of
    the octets. *)
Definition strcmp (s1 s2 : string) : Z :=
  match String.compare s1 s2 with Lt => -1 | Eq => 0 | Gt => 1 end.
Definition string_compare (s1 s2 : option string) : Z :=
  match s1, s2 with
  | None, None => 0
  | None, Some _ => -1
  | Some _, None => 1
  | Some s1, Some s2 => strcmp s1 s2
  end.
Definition string_key_cmp (k1 k2 : string) : Z := string_compare (Some k1) (Some k2).
Definition string_hash (s : string) : Z := ov_hash_simple_c_string (Some s).
Definition ov_hashtable_create_c_string {V} (num_buckets : Z) : option (hashtable string V) :=
  ov_hashtable_create (u8 num_buckets).

(** ** Specification: a finite map *)

Lemma string_key_cmp_spec k1 k2 : string_key_cmp k1 k2 = 0 <-> k1 = k2.
Proof.
  unfold string_key_cmp, string_compare, strcmp. split.
  - destruct (String.compare k1 k2) eqn:E; try done. intros _. by apply String.compare_eq_iff.
  - intros ->. pose proof (String.compare_antisym k2 k2). by destruct (String.compare k2 k2).
Qed.

Section Refinement.
Context {K V : Type} `{Countable K} (hash : K -> Z) (key_cmp : K -> K -> Z).
Context (Hcmp : forall k1 k2, key_cmp k1 k2 = 0 <-> k1 = k2).
Implicit Types (t : hashtable K V) (k : K) (M : gmap K (option V)).

Definition bucket_of t k : nat := Z.to_nat (u64 (hash k) mod number_of_buckets t).
(** A table in which every key is in the bucket of its hash, once. *)
Record table_wf t : Prop := {
  wf_buckets : 0 < number_of_buckets t < 2 ^ 32;
  wf_entries : Zlen (entries t) = number_of_buckets t;
  wf_home i b k v : entries t !! i = Some b -> (k, v) ∈ b -> i = bucket_of t k;
  wf_nodup i b : entries t !! i = Some b -> NoDup b.*1
}.
(** The bindings of a well formed table are those of the map. *)
Record represents t M : Prop := {
  rep_wf : table_wf t;
  rep_lookup k v b : entries t !! bucket_of t k = Some b -> (k, v) ∈ b <-> M !! k = Some v
}.

Lemma bucket_of_lt t k : table_wf t -> (bucket_of t k < length (entries t))%nat.
Proof.
  intros W. pose proof (wf_buckets t W). pose proof (wf_entries t W). unfold bucket_of, Zlen in *.
  pose proof (Z.mod_pos_bound (u64 (hash k)) (number_of_buckets t)). lia.
Qed.
Lemma bucket_lookup t k : table_wf t -> exists b, entries t !! bucket_of t k = Some b.
Proof. intros W. apply lookup_lt_is_Some_2. by apply bucket_of_lt. Qed.

(** The walk splits the bucket at the first entry with the key. *)
Lemma find_entry_app k (b : list (K * option V)) : (find_entry key_cmp k b).1 ++ (find_entry key_cmp k b).2 = b.
Proof using Type.
  induction b as [|[k' v] b IH]; [done|]. simpl. case_match; [done|].
  destruct (find_entry key_cmp k b) as [x y]. simpl in *. by rewrite IH.
Qed.
Lemma find_entry_before k b : k ∉ ((find_entry key_cmp k b).1 : list (K * option V)).*1.
Proof using Hcmp.
  induction b as [|[k' v] b IH]; [apply not_elem_of_nil|]. cbn [find_entry].
  destruct (Z.eqb_spec 0 (key_cmp k' k)) as [E|E]; [apply not_elem_of_nil|].
  destruct (find_entry key_cmp k b) as [x y]. simpl in *. apply not_elem_of_cons. split; [|done].
  intros ->. apply E. symmetry. by apply Hcmp.
Qed.
Lemma find_entry_found k b k' v (next : list (K * option V)) :
  (find_entry key_cmp k b).2 = (k', v) :: next -> k' = k.
Proof using Hcmp.
  induction b as [|[k'' v''] b IH]; [done|]. cbn [find_entry].
  destruct (Z.eqb_spec 0 (key_cmp k'' k)) as [E|E].
  - intros [= <- <- <-]. by apply Hcmp.
  - by destruct (find_entry key_cmp k b).
Qed.

Lemma get_entry_for_spec t k b :
  table_wf t -> entries t !! bucket_of t k = Some b ->
  get_entry_for hash key_cmp (Some t) (Some k) =
  Some (Some (bucket_of t k, (find_entry key_cmp k b).1, (find_entry key_cmp k b).2)).
Proof using Type.
  intros W Hb. unfold get_entry_for. pose proof (wf_buckets t W).
  destruct (Z.eqb_spec (number_of_buckets t) 0); [lia|]. fold (bucket_of t k). by rewrite Hb.
Qed.

(** What the walk finds is what the map holds. *)
Lemma find_entry_map t M k b :
  represents t M -> entries t !! bucket_of t k = Some b ->
  (find_entry key_cmp k b).2 = [] /\ M !! k = None \/
  exists v next, (find_entry key_cmp k b).2 = (k, v) :: next /\ M !! k = Some v.
Proof using Hcmp.
  intros [W R] Hb. pose proof (find_entry_app k b) as E. pose proof (find_entry_before k b) as Hni.
  destruct (find_entry key_cmp k b).2 as [|[k' v] next] eqn:F.
  - left. split; [done|]. apply eq_None_not_Some. intros [v Hv]. apply (R k v b Hb) in Hv.
    rewrite <- E, app_nil_r in Hv. apply Hni. apply list_elem_of_fmap. by exists (k, v).
  - apply find_entry_found in F as Hk. subst k'. right. exists v, next. split; [done|].
    apply (R k v b Hb). rewrite <- E. apply elem_of_app. right. by left.
Qed.
End Refinement.

Section Ops.
Context {K V : Type} `{Countable K} (hash : K -> Z) (key_cmp : K -> K -> Z).
Context (Hcmp : forall k1 k2, key_cmp k1 k2 = 0 <-> k1 = k2).
Implicit Types (t : hashtable K V) (k : K) (M : gmap K (option V)) (b : list (K * option V)).

(** The bucket with the entry of [k] replaced or taken out. *)
Lemma bucket_without before found b k :
  b = before ++ found -> k ∉ before.*1 -> (found = [] \/ exists v next, found = (k, v) :: next) ->
  NoDup b.*1 ->
  NoDup (before ++ tail found).*1 /\ k ∉ (before ++ tail found).*1 /\
  forall k' (v' : option V), (k', v') ∈ before ++ tail found <-> k' <> k /\ (k', v') ∈ b.
Proof using Hcmp.
  intros -> Hni Hf Hnd. rewrite !fmap_app in *.
  apply NoDup_app in Hnd as (Hnb & Hdis & Hnf).
  assert (Hmem : forall k' (v' : option V), (k', v') ∈ before -> k' <> k).
  { intros k' v' Hin ->. apply Hni. apply list_elem_of_fmap. by exists (k, v'). }
  destruct Hf as [-> | (v & next & ->)]; cbn [tail fmap list_fmap] in *.
  - rewrite !app_nil_r. split; [done|]. split; [done|]. intros k' v'. split; [|by intros [_ ?]].
    intros Hin. split; [by eapply Hmem|done].
  - apply NoDup_cons in Hnf as [Hnk Hnn]. split; [|split].
    + apply NoDup_app. split; [done|]. split; [|done]. intros x Hx Hx'. apply (Hdis x Hx). by right.
    + rewrite elem_of_app. by intros [?|?].
    + intros k' v'. rewrite !elem_of_app, elem_of_cons. split.
      * intros [Hin|Hin]; [split; [by eapply Hmem|by left]|]. split; [|by right; right].
        intros ->. apply Hnk. apply list_elem_of_fmap. by exists (k, v').
      * intros [Hne [Hin|[[= -> _]|Hin]]]; [by left|done|by right].
Qed.

Lemma bucket_with before found b k v :
  b = before ++ found -> k ∉ before.*1 -> (found = [] \/ exists v next, found = (k, v) :: next) ->
  NoDup b.*1 ->
  NoDup (before ++ (k, v) :: tail found).*1 /\
  forall k' (v' : option V), (k', v') ∈ before ++ (k, v) :: tail found <->
  k' = k /\ v' = v \/ k' <> k /\ (k', v') ∈ b.
Proof using Hcmp.
  intros E Hni Hf Hnd. destruct (bucket_without before found b k E Hni Hf Hnd) as (N & Hk & Hm).
  assert (P : before ++ (k, v) :: tail found ≡ₚ (k, v) :: before ++ tail found) by (symmetry; apply Permutation_middle).
  split.
  - rewrite P. cbn [fmap list_fmap]. by apply NoDup_cons.
  - intros k' v'. rewrite P, elem_of_cons, Hm. clear -H. split; [|naive_solver].
    intros [[= -> ->]|[? ?]]; auto.
Qed.

Lemma represents_set_bucket t M M' k b b' :
  represents hash t M -> entries t !! bucket_of hash t k = Some b -> NoDup b'.*1 ->
  (forall k' v', (k', v') ∈ b' <-> M' !! k' = Some v' /\ bucket_of hash t k' = bucket_of hash t k) ->
  (forall k', bucket_of hash t k' <> bucket_of hash t k -> M' !! k' = M !! k') ->
  represents hash (set_bucket t (bucket_of hash t k) b') M'.
Proof using Hcmp.
  intros [W R] Hb Hnd Hin Hout. set (h := bucket_of hash t k) in *.
  assert (Hh : (h < length (entries t))%nat) by by apply bucket_of_lt.
  assert (Hbk : forall k', bucket_of hash (set_bucket t h b') k' = bucket_of hash t k') by done.
  split; [split|].
  - apply (wf_buckets hash t W).
  - simpl. unfold Zlen. rewrite length_insert. apply (wf_entries hash t W).
  - intros i c k' v'. simpl. rewrite Hbk. destruct (decide (i = h)) as [->|Hne].
    + rewrite list_lookup_insert_eq by done. intros [= <-] Hc. by apply Hin in Hc as [_ ->].
    + rewrite list_lookup_insert_ne by done. apply (wf_home hash t W).
  - intros i c. simpl. destruct (decide (i = h)) as [->|Hne].
    + rewrite list_lookup_insert_eq by done. by intros [= <-].
    + rewrite list_lookup_insert_ne by done. apply (wf_nodup hash t W).
  - intros k' v' c. rewrite Hbk. simpl. destruct (decide (bucket_of hash t k' = h)) as [E|Hne].
    + rewrite E, list_lookup_insert_eq by done. intros [= <-]. rewrite Hin, E. naive_solver.
    + rewrite list_lookup_insert_ne by done. rewrite (Hout k') by done. apply R.
Qed.

(** *** The operations *)

Lemma hashtable_get_spec t M k :
  represents hash t M -> ov_hashtable_get hash key_cmp (Some t) (Some k) = Some (mjoin (M !! k)).
Proof using Hcmp.
  intros R. destruct (bucket_lookup hash t k (rep_wf _ _ _ R)) as [b Hb]. unfold ov_hashtable_get.
  rewrite (get_entry_for_spec hash key_cmp t k b) by (apply R || done). cbn [mbind option_bind].
  destruct (find_entry_map hash key_cmp Hcmp t M k b R Hb) as [[-> ->]|(v & next & -> & ->)]; done.
Qed.
Lemma hashtable_contains_spec t M k :
  represents hash t M ->
  ov_hashtable_contains hash key_cmp (Some t) (Some k) = Some (bool_decide (is_Some (M !! k))).
Proof using Hcmp.
  intros R. destruct (bucket_lookup hash t k (rep_wf _ _ _ R)) as [b Hb]. unfold ov_hashtable_contains.
  rewrite (get_entry_for_spec hash key_cmp t k b) by (apply R || done). cbn [mbind option_bind].
  destruct (find_entry_map hash key_cmp Hcmp t M k b R Hb) as [[-> ->]|(v & next & -> & ->)]; done.
Qed.

Lemma bucket_members t M k b k' v' :
  represents hash t M -> entries t !! bucket_of hash t k = Some b ->
  (k', v') ∈ b <-> M !! k' = Some v' /\ bucket_of hash t k' = bucket_of hash t k.
Proof using Hcmp.
  intros R Hb. split.
  - intros Hin. pose proof (wf_home hash t (rep_wf _ _ _ R) _ _ _ _ Hb Hin) as E.
    split; [|done]. rewrite E in Hb. by apply (rep_lookup _ _ _ R k' v' b Hb).
  - intros [Hm E]. rewrite <- E in Hb. by apply (rep_lookup _ _ _ R k' v' b Hb).
Qed.

Lemma hashtable_set_spec t M k v :
  represents hash t M -> exists t',
  ov_hashtable_set hash key_cmp (Some t) (Some k) v = Some (mjoin (M !! k), Some t') /\
  represents hash t' (<[k := v]> M).
Proof using Hcmp.
  intros R. destruct (bucket_lookup hash t k (rep_wf _ _ _ R)) as [b Hb]. unfold ov_hashtable_set.
  rewrite (get_entry_for_spec hash key_cmp t k b) by (apply R || done). cbn [mbind option_bind].
  pose proof (find_entry_map hash key_cmp Hcmp t M k b R Hb) as F.
  pose proof (find_entry_app key_cmp k b) as E. pose proof (find_entry_before key_cmp Hcmp k b) as Hni.
  set (before := (find_entry key_cmp k b).1) in *. set (found := (find_entry key_cmp k b).2) in *.
  assert (Hf : found = [] \/ exists v next, found = (k, v) :: next) by naive_solver.
  destruct (bucket_with before found b k v (eq_sym E) Hni Hf (wf_nodup hash t (rep_wf _ _ _ R) _ _ Hb)) as [N Hm].
  exists (set_bucket t (bucket_of hash t k) (before ++ (k, v) :: tail found)). split.
  - destruct F as [[-> ->]|(v' & next & -> & ->)]; done.
  - apply (represents_set_bucket t M _ k b); [done..| |].
    + intros k' v'. rewrite Hm, (bucket_members t M k b k' v' R Hb), lookup_insert_Some. naive_solver.
    + intros k' Hne. rewrite lookup_insert_ne by naive_solver. done.
Qed.

Lemma hashtable_remove_spec t M k :
  represents hash t M -> exists t',
  ov_hashtable_remove hash key_cmp (Some t) (Some k) = Some (mjoin (M !! k), Some t') /\
  represents hash t' (delete k M).
Proof using Hcmp.
  intros R. destruct (bucket_lookup hash t k (rep_wf _ _ _ R)) as [b Hb]. unfold ov_hashtable_remove.
  rewrite (get_entry_for_spec hash key_cmp t k b) by (apply R || done). cbn [mbind option_bind].
  pose proof (find_entry_map hash key_cmp Hcmp t M k b R Hb) as F.
  pose proof (find_entry_app key_cmp k b) as E. pose proof (find_entry_before key_cmp Hcmp k b) as Hni.
  set (before := (find_entry key_cmp k b).1) in *. set (found := (find_entry key_cmp k b).2) in *.
  assert (Hf : found = [] \/ exists v next, found = (k, v) :: next) by naive_solver.
  destruct (bucket_without before found b k (eq_sym E) Hni Hf (wf_nodup hash t (rep_wf _ _ _ R) _ _ Hb))
    as (N & _ & Hm).
  destruct F as [[F ->]|(v' & next & F & ->)]; rewrite F in *.
  - exists t. split; [done|]. rewrite delete_id; [done|]. apply eq_None_not_Some. intros [v Hv].
    assert (Hin : (k, v) ∈ b) by by apply (bucket_members t M k b k v R Hb).
    rewrite <- E, app_nil_r in Hin. apply Hni. apply list_elem_of_fmap. by exists (k, v).
  - exists (set_bucket t (bucket_of hash t k) (before ++ next)). split; [done|].
    apply (represents_set_bucket t M _ k b); [done..| |].
    + intros k' v''. rewrite Hm, (bucket_members t M k b k' v'' R Hb), lookup_delete_Some. naive_solver.
    + intros k' Hne. rewrite lookup_delete_ne by naive_solver. done.
Qed.
End Ops.

(** *** Visiting the entries *)

Lemma process_entries_app {K V A} (f : K -> option V -> A -> bool * A) l1 l2 count arg :
  process_entries f (l1 ++ l2) count arg =
    let '(c, go_on, a) := process_entries f l1 count arg in
    if go_on then process_entries f l2 c a else (c, false, a).
Proof.
  revert count arg. induction l1 as [|[k v] l1 IH]; intros count arg; [done|]. simpl.
  destruct (f k v arg) as [[] a]; [apply IH|done].
Qed.
Lemma process_buckets_concat {K V A} (f : K -> option V -> A -> bool * A) bs count arg :
  process_buckets f bs count arg = let '(c, _, a) := process_entries f (concat bs) count arg in (c, a).
Proof.
  revert count arg. induction bs as [|b bs IH]; intros count arg; [done|]. simpl.
  rewrite process_entries_app. destruct (process_entries f b count arg) as [[c []] a]; [apply IH|done].
Qed.
(** A function that never stops sees every entry. *)
Lemma process_entries_all {K V A} (g : K -> option V -> A -> A) l count arg :
  process_entries (fun k v a => (true, g k v a)) l count arg =
    (count + Zlen l, true, fold_left (fun a kv => g kv.1 kv.2 a) l arg).
Proof.
  revert count arg. induction l as [|[k v] l IH]; intros count arg; simpl; [by rewrite Z.add_0_r|].
  rewrite IH, Zlen_cons. do 2 f_equal. lia.
Qed.

Section ForEach.
Context {K V : Type} `{Countable K} (hash : K -> Z).
Implicit Types (t : hashtable K V) (M : gmap K (option V)).

Lemma elem_of_bindings t M k v : represents hash t M -> (k, v) ∈ concat (entries t) <-> M !! k = Some v.
Proof using Type.
  intros R. rewrite list_elem_of_In, in_concat. split.
  - intros (b & Hb & Hin). apply list_elem_of_In in Hb, Hin. apply list_elem_of_lookup in Hb as [i Hb].
    rewrite (wf_home hash t (rep_wf _ _ _ R) _ _ _ _ Hb Hin) in Hb.
    by apply (rep_lookup _ _ _ R k v b Hb).
  - intros Hm. destruct (bucket_lookup hash t k (rep_wf _ _ _ R)) as [b Hb]. exists b.
    rewrite <- !list_elem_of_In. split; [by eapply list_elem_of_lookup_2|].
    by apply (rep_lookup _ _ _ R k v b Hb).
Qed.
Lemma NoDup_concat_disjoint {A B} (f : A -> B) (ls : list (list A)) :
  (forall i l, ls !! i = Some l -> NoDup (f <$> l)) ->
  (forall i j l l' x y, ls !! i = Some l -> ls !! j = Some l' -> x ∈ l -> y ∈ l' -> f x = f y -> i = j) ->
  NoDup (f <$> concat ls).
Proof using Type.
  induction ls as [|l ls IH]; intros Hn Hd; [constructor|]. simpl. rewrite fmap_app.
  apply NoDup_app. split; [by apply (Hn 0%nat)|]. split.
  - intros z Hz Hz'. apply list_elem_of_fmap in Hz as (x & -> & Hx). apply list_elem_of_fmap in Hz' as (y & E & Hy).
    rewrite list_elem_of_In, in_concat in Hy. destruct Hy as (l' & Hl' & Hy). apply list_elem_of_In in Hl', Hy.
    apply list_elem_of_lookup in Hl' as [j Hl'].
    specialize (Hd 0%nat (S j) l l' x y eq_refl Hl' Hx Hy E). done.
  - apply IH; [intros i; apply (Hn (S i))|]. intros i j l1 l2 x y H1 H2 Hx Hy E.
    specialize (Hd (S i) (S j) l1 l2 x y H1 H2 Hx Hy E). congruence.
Qed.
Lemma bindings_nodup t M : represents hash t M -> NoDup (concat (entries t)).*1.
Proof using Type.
  intros R. pose proof (rep_wf _ _ _ R) as W. apply NoDup_concat_disjoint.
  - intros i l. apply (wf_nodup hash t W).
  - intros i j l l' [k v] [k' v'] Hi Hj Hx Hy E. simpl in E. subst k'.
    rewrite (wf_home hash t W _ _ _ _ Hi Hx). by rewrite (wf_home hash t W _ _ _ _ Hj Hy).
Qed.
Lemma bindings_map t M : represents hash t M -> concat (entries t) ≡ₚ map_to_list M.
Proof using Type.
  intros R. apply NoDup_Permutation.
  - eapply NoDup_fmap_1. by eapply bindings_nodup.
  - apply NoDup_map_to_list.
  - intros [k v]. rewrite (elem_of_bindings t M k v R). by rewrite elem_of_map_to_list.
Qed.

Lemma hashtable_for_each_spec {A} t M (f : K -> option V -> A -> bool * A) arg :
  represents hash t M ->
  ov_hashtable_for_each (Some t) (Some f) arg =
  (let '(c, _, a) := process_entries f (concat (entries t)) 0 arg in (c, a)).
Proof using Type.
  intros R. unfold ov_hashtable_for_each. pose proof (wf_buckets hash t (rep_wf _ _ _ R)).
  destruct (Z.eqb_spec 0 (number_of_buckets t)); [lia|].
  replace (ztake (number_of_buckets t) (entries t)) with (entries t); [apply process_buckets_concat|].
  rewrite <- (wf_entries hash t (rep_wf _ _ _ R)). unfold ztake, Zlen. rewrite take_ge; [done|lia].
Qed.

Lemma hashtable_create_spec n :
  0 < n < 2 ^ 32 -> exists t, ov_hashtable_create n = Some t /\ represents hash t (∅ : gmap K (option V)).
Proof using Type.
  intros Hn. unfold ov_hashtable_create. destruct (Z.eqb_spec 0 n); [lia|]. eexists. split; [done|].
  rewrite u32_id by lia. split; [split|].
  - done.
  - simpl. unfold Zlen. rewrite length_replicate. lia.
  - intros i b k v. simpl. rewrite lookup_replicate. intros [-> _] Hin. by apply elem_of_nil in Hin.
  - intros i b. simpl. rewrite lookup_replicate. intros [-> _]. constructor.
  - intros k v b. simpl. rewrite lookup_replicate, lookup_empty. intros [-> _]. by rewrite elem_of_nil.
Qed.
Lemma hashtable_clear_spec t M :
  represents hash t M -> exists t', hashtable_clear (Some t) = (true, Some t') /\
  represents hash t' (∅ : gmap K (option V)).
Proof using Type.
  intros R. pose proof (rep_wf _ _ _ R) as W. eexists. split; [done|].
  set (t' := {| number_of_buckets := _; entries := _ |}).
  assert (He : forall i b, entries t' !! i = Some b -> b = []).
  { intros i b. simpl. rewrite list_lookup_imap. destruct (entries t !! i) as [c|] eqn:E; [|done]. simpl.
    apply lookup_lt_Some in E. pose proof (wf_entries hash t W). unfold Zlen in *.
    destruct (Z.ltb_spec (Z.of_nat i) (number_of_buckets t)); [congruence|lia]. }
  split; [split|].
  - apply (wf_buckets hash t W).
  - simpl. unfold Zlen. rewrite length_imap. apply (wf_entries hash t W).
  - intros i b k v Hb Hin. rewrite (He i b Hb) in Hin. by apply elem_of_nil in Hin.
  - intros i b Hb. rewrite (He i b Hb). constructor.
  - intros k v b Hb. rewrite (He _ b Hb), lookup_empty. by rewrite elem_of_nil.
Qed.
End ForEach.

(** ** Hash functions *)

(** The table of the Pearson hash is a permutation of the octets, so one step
    of the hash never merges two states: different octets after the same prefix
    give different hashes, as the algorithm requires. *)
Lemma pearson_table_permutation :
  PEARSON_PERMUTATION_TABLE ≡ₚ seqZ 0 256 /\
  forall h c1 c2, is_byte h -> is_byte c1 -> is_byte c2 ->
    PEARSON_PERMUTATION_TABLE.[h .^ c1] = PEARSON_PERMUTATION_TABLE.[h .^ c2] -> c1 = c2.
Proof.
  assert (P : PEARSON_PERMUTATION_TABLE ≡ₚ seqZ 0 256).
  { apply (bool_decide_unpack _). vm_compute. exact I. }
  split; [done|]. intros h c1 c2 Hh H1 H2 E.
  assert (L : length PEARSON_PERMUTATION_TABLE = 256%nat) by reflexivity.
  pose proof (lxor_byte h c1 Hh H1) as B1. pose proof (lxor_byte h c2 Hh H2) as B2. unfold is_byte in *.
  assert (Hx : h .^ c1 = h .^ c2).
  { unfold znth in E. apply (NoDup_nth PEARSON_PERMUTATION_TABLE 0) in E; [lia| |lia|lia].
    apply NoDup_ListNoDup. rewrite P. apply NoDup_seqZ. }
  rewrite <- (Z.lxor_0_l c1), <- (Z.lxor_0_l c2), <- (Z.lxor_nilpotent h), !Z.lxor_assoc. by rewrite Hx.
Qed.

(** ** Properties *)

(** C17: The hash table implements a finite map, whatever the hash function:
    lookup, membership, insertion and removal are those of the map and return
    the value that was there; a traversal sees every binding exactly once; and
    a table of any number of buckets below 2^32, when created or cleared, is the
    empty map. *)
Theorem hashtable_refines_map {K V} `{Countable K} (hash : K -> Z) (key_cmp : K -> K -> Z) :
  (forall k1 k2, key_cmp k1 k2 = 0 <-> k1 = k2) ->
  (forall n, 0 < n < 2 ^ 32 -> exists t : hashtable K V,
     ov_hashtable_create n = Some t /\ represents hash t ∅) /\
  (forall (t : hashtable K V) M, represents hash t M ->
     (forall k, ov_hashtable_get hash key_cmp (Some t) (Some k) = Some (mjoin (M !! k)) /\
        ov_hashtable_contains hash key_cmp (Some t) (Some k) = Some (bool_decide (is_Some (M !! k)))) /\
     (forall k v, exists t', ov_hashtable_set hash key_cmp (Some t) (Some k) v = Some (mjoin (M !! k), Some t') /\
        represents hash t' (<[k := v]> M)) /\
     (forall k, exists t', ov_hashtable_remove hash key_cmp (Some t) (Some k) = Some (mjoin (M !! k), Some t') /\
        represents hash t' (delete k M)) /\
     (exists l, l ≡ₚ map_to_list M /\ forall A (g : K -> option V -> A -> A) arg,
        ov_hashtable_for_each (Some t) (Some (fun k v a => (true, g k v a))) arg =
          (Z.of_nat (size M), fold_left (fun a kv => g kv.1 kv.2 a) l arg)) /\
     (exists t', hashtable_clear (Some t) = (true, Some t') /\ represents hash t' ∅)).
Proof.
  intros Hcmp. split; [apply hashtable_create_spec|]. intros t M R.
  split; [intros k; split; [by apply hashtable_get_spec|by apply hashtable_contains_spec]|].
  split; [intros k v; by apply hashtable_set_spec|]. split; [intros k; by apply hashtable_remove_spec|].
  split; [|by eapply hashtable_clear_spec]. exists (concat (entries t)).
  split; [by eapply bindings_map|]. intros A g arg. rewrite (hashtable_for_each_spec hash t M _ arg R).
  rewrite process_entries_all. f_equal. rewrite <- length_map_to_list, <- (bindings_map hash t M R).
  unfold Zlen. lia.
Qed.
Lemma hashtable_refines_map_witness :
  exists t t' : hashtable string Z, ov_hashtable_create_c_string 2 = Some t /\
    ov_hashtable_set string_hash string_key_cmp (Some t) (Some "loop"%string) (Some 7) = Some (None, Some t') /\
    ov_hashtable_get string_hash string_key_cmp (Some t') (Some "loop"%string) = Some (Some 7).
Proof.
  destruct (hashtable_refines_map (V := Z) string_hash string_key_cmp string_key_cmp_spec) as [Hc Ho].
  destruct (Hc 2 ltac:(lia)) as (t & Et & Rt).
  destruct (proj1 (proj2 (Ho t ∅ Rt)) "loop"%string (Some 7)) as (t' & Es & Rt').
  exists t, t'. split; [exact Et|]. split; [exact Es|].
  exact (proj1 (proj1 (Ho t' _ Rt') "loop"%string)).
Defined.
