(* ===== verification/VmProg.v ===== *)
(** * Programs of the virtual machine (src/lib/ov_vm/src/ov_vm_prog.c)

    The state of one program: its instructions, program counter and status. A
    [ov_vm_prog *] is an [option], [None] for [NULL]. [data] is a handle of the
    client, [None] for [NULL]. The tracing of the time steps take
    ([OV_TRACE_ACTIVE]) is not modelled. *)
From S2P Require Import Prelude.

(** ** The code *)

Record ov_vm_instr := { opcode : Z; args : Z * Z * Z }.

(** [ov_vm_reserved_opcodes] *)
Definition OP_END : Z := 0.
Definition OP_NOP : Z := 0xfd.
Definition OP_INVALID : Z := 0xfe.

Inductive ov_vm_prog_status :=
  | OV_VM_PROG_OK | OV_VM_PROG_ABORTING | OV_VM_PROG_FAILED_TO_ABORT | OV_VM_PROG_INVALID.
#[global] Instance ov_vm_prog_status_eq_dec : EqDecision ov_vm_prog_status.
Proof. solve_decision. Defined.

Inductive ov_vm_retval :=
  | OC_ERROR | OC_NEXT | OC_FINISHED | OC_WAIT_AND_NEXT | OC_WAIT_AND_REPEAT.
#[global] Instance ov_vm_retval_eq_dec : EqDecision ov_vm_retval.
Proof. solve_decision. Defined.

Definition OV_ERROR_NOERROR : Z := 0.
Record ov_result := { error_code : Z; message : option string }.

Definition OV_VM_PROG_ID_MAX_LEN : nat := 255.

Record ov_vm_prog := {
  prog_id : string;
  instructions : option (list ov_vm_instr);
  data : option Z;
  program_counter : Z;
  state : ov_vm_prog_status;
  error : ov_result;
  last_instr_retval : ov_vm_retval;
  prog_started_epoch_secs : Z
}.

Definition ov_vm_prog_status_to_string (status : ov_vm_prog_status) : string :=
  match status with
  | OV_VM_PROG_OK => "OK"
  | OV_VM_PROG_ABORTING => "ABORTING"
  | OV_VM_PROG_FAILED_TO_ABORT => "FAILED_TO_ABORT"
  | OV_VM_PROG_INVALID => "INVALID"
  end%string.

Definition ov_vm_prog_state (prog : option ov_vm_prog) : ov_vm_prog_status :=
  match prog with None => OV_VM_PROG_INVALID | Some p => state p end.
Definition ov_vm_prog_instructions (prog : option ov_vm_prog) : option (list ov_vm_instr) :=
  match prog with None => None | Some p => instructions p end.
(** An access outside of the array is undefined: [None]. *)
Definition ov_vm_prog_current_instr (prog : option ov_vm_prog) : option ov_vm_instr :=
  match prog with
  | None => Some {| opcode := OP_INVALID; args := (0, 0, 0) |}
  | Some p =>
      instrs ← instructions p;
      if program_counter p <? 0 then None else instrs !! Z.to_nat (program_counter p)
  end.
Definition ov_vm_prog_id (prog : option ov_vm_prog) : string :=
  match prog with None => "INVALID_PROGRAM"%string | Some p => prog_id p end.
Definition ov_vm_prog_data (prog : option ov_vm_prog) : option Z :=
  match prog with None => None | Some p => data p end.
Definition OV_ERROR_INVALID_RESULT : Z := 30030.
Definition ov_vm_prog_result (prog : option ov_vm_prog) : ov_result :=
  let res := match prog with
             | Some p => error p
             | None => {| error_code := OV_ERROR_INVALID_RESULT;
                          message := Some "Could not get result of program - program is invalid"%string |}
             end in
  match message res with
  | None => {| error_code := error_code res; message := Some "No Message"%string |}
  | Some _ => res
  end.
Definition ov_vm_prog_program_counter (prog : option ov_vm_prog) : Z :=
  match prog with None => -1 | Some p => program_counter p end.
Definition ov_vm_prog_get_last_instr_retval (prog : option ov_vm_prog) : ov_vm_retval :=
  match prog with None => OC_ERROR | Some p => last_instr_retval p end.

(** The setters, on a program that is not [NULL] (else they change nothing and
    return [false]). *)
Definition ov_vm_prog_state_set (p : ov_vm_prog) (new_state : ov_vm_prog_status) : ov_vm_prog :=
  {| prog_id := prog_id p; instructions := instructions p; data := data p;
     program_counter := program_counter p; state := new_state; error := error p;
     last_instr_retval := last_instr_retval p; prog_started_epoch_secs := prog_started_epoch_secs p |}.
Definition ov_vm_prog_instructions_set (p : ov_vm_prog) (instr : option (list ov_vm_instr)) : ov_vm_prog :=
  {| prog_id := prog_id p; instructions := instr; data := data p;
     program_counter := program_counter p; state := state p; error := error p;
     last_instr_retval := last_instr_retval p; prog_started_epoch_secs := prog_started_epoch_secs p |}.
(** [strncpy], and the last octet set to 0. *)
Definition ov_vm_prog_id_set (p : ov_vm_prog) (id : string) : ov_vm_prog :=
  {| prog_id := String.substring 0 (OV_VM_PROG_ID_MAX_LEN - 1) id; instructions := instructions p;
     data := data p; program_counter := program_counter p; state := state p; error := error p;
     last_instr_retval := last_instr_retval p; prog_started_epoch_secs := prog_started_epoch_secs p |}.
Definition ov_vm_prog_data_set (p : ov_vm_prog) (d : option Z) : ov_vm_prog :=
  {| prog_id := prog_id p; instructions := instructions p; data := d;
     program_counter := program_counter p; state := state p; error := error p;
     last_instr_retval := last_instr_retval p; prog_started_epoch_secs := prog_started_epoch_secs p |}.
(** src/lib/ov_base/src/result/ov_result.c *)
Definition ov_result_set (result : ov_result) (err_code : Z) (msg : option string) : bool * ov_result :=
  match msg with
  | Some _ => if OV_ERROR_NOERROR =? err_code then (false, result)
              else (true, {| error_code := err_code; message := msg |})
  | None => if negb (OV_ERROR_NOERROR =? err_code) then (false, result)
            else (true, {| error_code := err_code; message := None |})
  end.
Definition ov_vm_prog_result_set (p : ov_vm_prog) (err_code : Z) (msg : option string) : ov_vm_prog :=
  {| prog_id := prog_id p; instructions := instructions p; data := data p;
     program_counter := program_counter p; state := state p; error := (ov_result_set (error p) err_code msg).2;
     last_instr_retval := last_instr_retval p; prog_started_epoch_secs := prog_started_epoch_secs p |}.
Definition with_program_counter (p : ov_vm_prog) (pc : Z) : ov_vm_prog :=
  {| prog_id := prog_id p; instructions := instructions p; data := data p;
     program_counter := pc; state := state p; error := error p;
     last_instr_retval := last_instr_retval p; prog_started_epoch_secs := prog_started_epoch_secs p |}.
Definition ov_vm_prog_program_counter_reset (p : ov_vm_prog) : ov_vm_prog := with_program_counter p 0.
Definition ov_vm_prog_propagate_program_counter (p : ov_vm_prog) : ov_vm_prog :=
  match state p with
  | OV_VM_PROG_OK => with_program_counter p (program_counter p + 1)
  | OV_VM_PROG_ABORTING => with_program_counter p (program_counter p - 1)
  | OV_VM_PROG_FAILED_TO_ABORT | OV_VM_PROG_INVALID => p
  end.
Definition ov_vm_prog_set_last_instr_retval (p : ov_vm_prog) (retval : ov_vm_retval) : ov_vm_prog :=
  {| prog_id := prog_id p; instructions := instructions p; data := data p;
     program_counter := program_counter p; state := state p; error := error p;
     last_instr_retval := retval; prog_started_epoch_secs := prog_started_epoch_secs p |}.
Definition ov_vm_prog_reset_prog_started (p : ov_vm_prog) : ov_vm_prog :=
  {| prog_id := prog_id p; instructions := instructions p; data := data p;
     program_counter := program_counter p; state := state p; error := error p;
     last_instr_retval := last_instr_retval p; prog_started_epoch_secs := 0 |}.
