(* ===== verification/VmProgDb.v ===== *)
(** * The programs of the virtual machine (src/lib/ov_vm/src/ov_vm_prog_db.c)

    A pool of a fixed number of program states, a stack of the unused ones, and
    two hash tables: from the id to the program and from an alias to the id. A
    [ProgState *] is its index in the pool, [None] for [NULL]. The database
    itself is never [NULL] here. [released] records what was handed to the
    client's [release_data]; [release_set] tells whether that callback is set.
    The current time is a parameter, [now]. The dump to a stream is not
    modelled. *)
From S2P Require Import Prelude Hashtable VmProg.

(** ** The code *)

Definition DEFAULT_NUMBER_SLOTS : Z := 64.
Definition UINT64_MAX : Z := 2 ^ 64 - 1.
Definition OV_STRING_DEFAULT_SIZE : nat := 255.

Definition is_id_valid (id : option string) : bool :=
  match id with
  | None => false
  | Some s => negb (String.length s =? 0)%nat && negb (OV_VM_PROG_ID_MAX_LEN <=? String.length s)%nat
  end.

Record ProgState := { public : ov_vm_prog; start_time_epoch_usecs : Z }.

Record ov_vm_prog_db := {
  store : option (hashtable string nat);
  aliases : option (hashtable string string);
  pool_states : list ProgState;
  pool_capacity : Z;
  available_states : list (option nat);
  topmost_usable_slot_index : Z;
  available_capacity : Z;
  release_set : bool;
  released : list Z
}.

Abbreviation table_get := (ov_hashtable_get string_hash string_key_cmp).
Abbreviation table_set := (ov_hashtable_set string_hash string_key_cmp).
Abbreviation table_remove := (ov_hashtable_remove string_hash string_key_cmp).

Definition set_store (db : ov_vm_prog_db) (t : option (hashtable string nat)) : ov_vm_prog_db :=
  {| store := t; aliases := aliases db; pool_states := pool_states db; pool_capacity := pool_capacity db;
     available_states := available_states db; topmost_usable_slot_index := topmost_usable_slot_index db;
     available_capacity := available_capacity db; release_set := release_set db; released := released db |}.
Definition set_aliases (db : ov_vm_prog_db) (t : option (hashtable string string)) : ov_vm_prog_db :=
  {| store := store db; aliases := t; pool_states := pool_states db; pool_capacity := pool_capacity db;
     available_states := available_states db; topmost_usable_slot_index := topmost_usable_slot_index db;
     available_capacity := available_capacity db; release_set := release_set db; released := released db |}.
(** Writing through a [ProgState *]. *)
Definition update_state (db : ov_vm_prog_db) (i : nat) (f : ProgState -> ProgState) : ov_vm_prog_db :=
  {| store := store db; aliases := aliases db; pool_states := alter f i (pool_states db);
     pool_capacity := pool_capacity db;
     available_states := available_states db; topmost_usable_slot_index := topmost_usable_slot_index db;
     available_capacity := available_capacity db; release_set := release_set db; released := released db |}.
Definition set_available (db : ov_vm_prog_db) (states : list (option nat)) (top : Z) : ov_vm_prog_db :=
  {| store := store db; aliases := aliases db; pool_states := pool_states db; pool_capacity := pool_capacity db;
     available_states := states; topmost_usable_slot_index := top;
     available_capacity := available_capacity db; release_set := release_set db; released := released db |}.
(** The call of the client's callback. *)
Definition release_data (db : ov_vm_prog_db) (d : option Z) : ov_vm_prog_db :=
  match d with
  | Some d =>
      if release_set db then
        {| store := store db; aliases := aliases db; pool_states := pool_states db;
           pool_capacity := pool_capacity db; available_states := available_states db;
           topmost_usable_slot_index := topmost_usable_slot_index db;
           available_capacity := available_capacity db; release_set := release_set db;
           released := released db ++ [d] |}
      else db
  | None => db
  end.

(** What [clear_state] leaves of a state. *)
Definition cleared (s : ProgState) : ProgState :=
  let p := ov_vm_prog_data_set (public s) None in
  let p := ov_vm_prog_result_set p OV_ERROR_NOERROR None in
  let p := ov_vm_prog_program_counter_reset p in
  let p := ov_vm_prog_state_set p OV_VM_PROG_INVALID in
  {| public := p; start_time_epoch_usecs := UINT64_MAX |}.
Definition clear_state (db : ov_vm_prog_db) (i : nat) : ov_vm_prog_db :=
  update_state (release_data db (s ← pool_states db !! i; data (public s))) i cleared.

Definition get_unaliased_id (aliases : option (hashtable string string)) (alias : option string)
    : option (option string) :=
  id ← table_get aliases alias;
  match alias, id with
  | None, _ => Some None
  | Some _, None => Some alias
  | Some _, Some _ => Some id
  end.
Definition prog_for_id (db : ov_vm_prog_db) (id : option string) : option (option nat) :=
  id ← get_unaliased_id (aliases db) id;
  table_get (store db) id.
Definition ov_vm_prog_db_get (db : ov_vm_prog_db) (id : option string) : option (option nat) :=
  if negb (is_id_valid id) then Some None else prog_for_id db id.

(** The memory [calloc] returns. *)
Definition zero_state : ProgState :=
  {| public := {| prog_id := ""%string; instructions := None; data := None; program_counter := 0;
                  state := OV_VM_PROG_OK; error := {| error_code := 0; message := None |};
                  last_instr_retval := OC_NEXT; prog_started_epoch_secs := 0 |};
     start_time_epoch_usecs := 0 |}.
(** [None] when an assertion fails. *)
Definition ov_vm_prog_db_create (slots : Z) (release : bool) : option ov_vm_prog_db :=
  let slots := if 0 =? slots then DEFAULT_NUMBER_SLOTS else slots in
  st ← ov_hashtable_create_c_string slots;
  al ← ov_hashtable_create_c_string slots;
  Some {| store := Some st; aliases := Some al;
          pool_states := cleared <$> replicate (Z.to_nat slots) zero_state;
          pool_capacity := slots;
          available_states := None :: (Some <$> seq 0 (Z.to_nat slots));
          topmost_usable_slot_index := slots; available_capacity := slots;
          release_set := release; released := [] |}.

(** The free: every state is cleared, so the data of every program is released. *)
Definition ov_vm_prog_db_free (db : ov_vm_prog_db) : list Z :=
  released (fold_left clear_state (seq 0 (Z.to_nat (pool_capacity db))) db).

(** *** Insert *)

Definition already_registered (db : ov_vm_prog_db) (id : option string) : option bool :=
  p ← ov_vm_prog_db_get db id;
  match p with None => Some false | Some _ => Some true end.
Definition fresh_prog_state_unsafe (db : ov_vm_prog_db) : option (option nat * ov_vm_prog_db) :=
  let index := topmost_usable_slot_index db in
  if 0 =? index then Some (None, db) else
  prog ← available_states db !! Z.to_nat index;
  Some (prog, set_available db (<[Z.to_nat index := None]> (available_states db)) (index - 1)).
Definition init_prog_state_unsafe (p : ov_vm_prog) (id : string) (instr : list ov_vm_instr) (d : option Z)
    : ov_vm_prog :=
  let p := ov_vm_prog_id_set p id in
  let p := ov_vm_prog_state_set p OV_VM_PROG_OK in
  let p := ov_vm_prog_instructions_set p (Some instr) in
  let p := ov_vm_prog_program_counter_reset p in
  let p := ov_vm_prog_data_set p d in
  let p := ov_vm_prog_result_set p OV_ERROR_NOERROR None in
  ov_vm_prog_set_last_instr_retval p OC_NEXT.
Definition register_prog_unsafe (db : ov_vm_prog_db) (prog : nat) : option (option nat * ov_vm_prog_db) :=
  let db := update_state db prog (fun s =>
    {| public := ov_vm_prog_reset_prog_started (public s);
       start_time_epoch_usecs := start_time_epoch_usecs s |}) in
  s ← pool_states db !! prog;
  '(old, t) ← table_set (store db) (Some (prog_id (public s))) (Some prog);
  match old with
  | Some _ => Some (None, set_store db t)
  | None => Some (Some prog, set_store db t)
  end.
Definition insert_prog (db : ov_vm_prog_db) (prog : option nat) (id : string) (instr : list ov_vm_instr)
    (d : option Z) (now : Z) : option (option nat * ov_vm_prog_db) :=
  match prog with
  | None => Some (None, db)
  | Some i =>
      register_prog_unsafe
        (update_state db i (fun s =>
           {| public := init_prog_state_unsafe (public s) id instr d; start_time_epoch_usecs := now |})) i
  end.
Definition ov_vm_prog_db_insert (db : ov_vm_prog_db) (id : option string)
    (instr : option (list ov_vm_instr)) (d : option Z) (now : Z) : option (option nat * ov_vm_prog_db) :=
  if negb (is_id_valid id) then Some (None, db) else
  match id, instr with
  | Some id', Some instr =>
      registered ← already_registered db id;
      if (registered : bool) then Some (None, db) else
      '(prog, db) ← fresh_prog_state_unsafe db;
      insert_prog db prog id' instr d now
  | _, _ => Some (None, db)
  end.

(** *** Aliases *)

Definition ov_string_dup (to_dup : option string) : option string :=
  match to_dup with
  | None => None
  | Some s => if (OV_STRING_DEFAULT_SIZE <? String.length s + 1)%nat then None else Some s
  end.
Definition ov_vm_prog_db_alias (db : ov_vm_prog_db) (id alias : option string)
    : option (bool * ov_vm_prog_db) :=
  unaliased_id ← get_unaliased_id (aliases db) id;
  prog_of_id ← ov_vm_prog_db_get db unaliased_id;
  prog_of_alias ← ov_vm_prog_db_get db alias;
  match alias with
  | None => Some (false, db)
  | Some _ =>
      match prog_of_id, prog_of_alias with
      | None, _ => Some (false, db)
      | Some i, Some j => if (i =? j)%nat then Some (true, db) else Some (false, db)
      | Some _, None =>
          '(_, t) ← table_set (aliases db) alias (ov_string_dup unaliased_id);
          Some (true, set_aliases db t)
      end
  end.

(** *** Remove *)

Definition release_prog (db : ov_vm_prog_db) (prog : option nat) : option (bool * ov_vm_prog_db) :=
  match prog with
  | None => Some (true, db)
  | Some i =>
      let ti := topmost_usable_slot_index db + 1 in
      if available_capacity db <? ti then None else
      let db := clear_state db i in
      Some (true, set_available db (<[Z.to_nat ti := Some i]> (available_states db)) ti)
  end.

(** [aliases] is the array of five, and the loop runs to a sixth index: [None]
    when it gets there, a read outside of the array. *)
Fixpoint insert_alias_if_space_left (aliases : list (option string)) (alias : string)
    : option (list (option string)) :=
  match aliases with
  | [] => None
  | None :: l => Some (Some alias :: l)
  | Some a :: l => l ← insert_alias_if_space_left l alias; Some (Some a :: l)
  end.
(** It always answers [true] when it is defined; [ga] is [None] from then on when
    it is not. *)
Definition gather_aliases_for (id : option string) (key : string) (value : option string)
    (ga : option (list (option string))) : bool * option (list (option string)) :=
  match value, id with
  | Some v, Some id => if 0 =? strcmp v id then (true, ga ← ga; insert_alias_if_space_left ga key) else (true, ga)
  | _, _ => (true, ga)
  end.
(** One turn of the [for] loop. [id] is logged each time; when it points into the
    value of an alias, [holder], the removal of that alias frees it, and the
    next log reads freed memory: [None]. [freed] tells whether it was. *)
Fixpoint remove_gathered (t : option (hashtable string string)) (holder : option string) (freed : bool)
    (ga : list (option string)) : option (bool * option (hashtable string string)) :=
  match ga with
  | [] => Some (freed, t)
  | None :: ga => remove_gathered t holder freed ga
  | Some a :: ga =>
      if freed then None else
      '(_, t) ← table_remove t (Some a);
      remove_gathered t holder (bool_decide (holder = Some a)) ga
  end.
Definition gather (t : option (hashtable string string)) (id : option string) : option (list (option string)) :=
  (ov_hashtable_for_each t (Some (gather_aliases_for id)) (Some (replicate 5 None))).2.
(** The loop [while (0 != aliases[0])]; [None] also when the fuel runs out. *)
Fixpoint remove_aliases_loop (fuel : nat) (t : option (hashtable string string)) (id holder : option string)
    (freed : bool) (ga : list (option string)) : option (option (hashtable string string)) :=
  match ga with
  | Some _ :: _ =>
      match fuel with
      | O => None
      | S fuel =>
          '(freed, t) ← remove_gathered t holder freed ga;
          ga ← gather t id;
          remove_aliases_loop fuel t id holder freed ga
      end
  | _ => Some t
  end.
Definition alias_count (t : option (hashtable string string)) : nat :=
  match t with None => O | Some t => length (concat (entries t)) end.
Definition remove_aliases_for (t : option (hashtable string string)) (id holder : option string)
    : option (option (hashtable string string)) :=
  ga ← gather t id;
  remove_aliases_loop (alias_count t) t id holder false ga.
Definition remove_internal (db : ov_vm_prog_db) (id holder : option string) : option (bool * ov_vm_prog_db) :=
  '(prog, t) ← table_remove (store db) id;
  '(ok, db) ← release_prog (set_store db t) prog;
  if (ok : bool) then
    t ← remove_aliases_for (aliases db) id holder;
    Some (true, set_aliases db t)
  else Some (false, db).
(** The alias whose value [get_unaliased_id] returns, if it is not its argument. *)
Definition holder_of (aliases : option (hashtable string string)) (alias : option string) : option (option string) :=
  id ← table_get aliases alias;
  Some (match id with Some _ => alias | None => None end).
Definition ov_vm_prog_db_remove (db : ov_vm_prog_db) (id : option string) : option (bool * ov_vm_prog_db) :=
  unaliased_id ← get_unaliased_id (aliases db) id;
  holder ← holder_of (aliases db) id;
  remove_internal db unaliased_id holder.

(** *** Time *)

Definition ov_vm_prog_db_update_time (db : ov_vm_prog_db) (id : option string) (now : Z)
    : option (bool * ov_vm_prog_db) :=
  st ← prog_for_id db id;
  match st with
  | None => Some (false, db)
  | Some i =>
      if negb (is_id_valid id) then Some (false, db) else
      Some (true, update_state db i (fun s => {| public := public s; start_time_epoch_usecs := now |}))
  end.
Fixpoint next_due_unsafe (progs : list ProgState) (time_limit_epoch_usecs : Z) : option string :=
  match progs with
  | [] => None
  | s :: progs =>
      if start_time_epoch_usecs s <? time_limit_epoch_usecs then Some (prog_id (public s))
      else next_due_unsafe progs time_limit_epoch_usecs
  end.
Definition ov_vm_prog_db_next_due (db : ov_vm_prog_db) (time_limit_epoch_usecs : Z) : option string :=
  next_due_unsafe (ztake (pool_capacity db) (pool_states db)) time_limit_epoch_usecs.

(** *** Iteration *)

(** [value] is a place in the pool, by the invariant below. *)
Definition process_wrapper {A} (db : ov_vm_prog_db) (process : string -> ov_vm_prog -> Z -> A -> bool * A)
    (key : string) (value : option nat) (arg : A) : bool * A :=
  match (i ← value; pool_states db !! i) with
  | Some state => process key (public state) (start_time_epoch_usecs state) arg
  | None => (false, arg)
  end.
Definition ov_vm_prog_db_for_each {A} (db : ov_vm_prog_db)
    (process : option (string -> ov_vm_prog -> Z -> A -> bool * A)) (arg : A) : bool * A :=
  match store db, process with
  | Some t, Some process => (true, (ov_hashtable_for_each (Some t) (Some (process_wrapper db process)) arg).2)
  | _, _ => (false, arg)
  end.

(** ** Lemmas: removing the aliases of an id *)

Lemma mjoin_fmap_Some {V} (M : gmap string V) k : mjoin ((Some <$> M) !! k) = M !! k.
Proof. rewrite lookup_fmap. by destruct (M !! k). Qed.
Lemma strcmp_eq s1 s2 : (0 =? strcmp s1 s2) = bool_decide (s1 = s2).
Proof.
  pose proof (string_key_cmp_spec s1 s2) as H. unfold string_key_cmp, string_compare in H.
  destruct (Z.eqb_spec 0 (strcmp s1 s2)); symmetry; [apply bool_decide_eq_true|apply bool_decide_eq_false];
    rewrite <- H; lia.
Qed.

(** The keys [gather_aliases_for] looks for, in the order of the traversal. *)
Definition keys_for (id : string) (l : list (string * option string)) : list string :=
  (filter (fun kv => kv.2 = Some id) l).*1.

Lemma insert_alias_spec (pre : list string) n a :
  insert_alias_if_space_left ((Some <$> pre) ++ replicate n None) a =
    match n with
    | O => None
    | S n => Some ((Some <$> pre ++ [a]) ++ replicate n None)
    end.
Proof.
  induction pre as [|x pre IH]; [by destruct n|].
  rewrite fmap_cons. cbn [app insert_alias_if_space_left]. rewrite IH. by destruct n.
Qed.
Lemma gather_undefined id l count : (process_entries (gather_aliases_for (Some id)) l count None).2 = None.
Proof.
  revert count. induction l as [|[k v] l IH]; intros count; [done|]. cbn [process_entries].
  unfold gather_aliases_for at 1. destruct v as [v|]; [|apply IH]. destruct (0 =? strcmp v id); apply IH.
Qed.
Lemma gather_spec id l (pre : list string) n count :
  (process_entries (gather_aliases_for (Some id)) l count (Some ((Some <$> pre) ++ replicate n None))).2 =
    if bool_decide (length (keys_for id l) <= n)%nat
    then Some ((Some <$> pre ++ keys_for id l) ++ replicate (n - length (keys_for id l)) None) else None.
Proof.
  revert pre n count. induction l as [|[k v] l IH]; intros pre n count.
  - unfold keys_for. cbn [filter list_filter fmap list_fmap process_entries snd length].
    rewrite bool_decide_eq_true_2 by lia. by rewrite app_nil_r, Nat.sub_0_r.
  - cbn [process_entries]. unfold gather_aliases_for at 1. destruct v as [v|].
    + rewrite strcmp_eq. unfold keys_for. rewrite filter_cons. destruct (decide (v = id)) as [->|Hv].
      * rewrite bool_decide_eq_true_2, decide_True by done. cbn [mbind option_bind]. rewrite insert_alias_spec.
        cbn [fmap list_fmap length]. destruct n as [|n].
        -- rewrite gather_undefined, bool_decide_eq_false_2; [done|]. lia.
        -- rewrite IH. fold (keys_for id l).
           rewrite (bool_decide_ext (length (keys_for id l) <= n)%nat (S (length (keys_for id l)) <= S n)%nat) by lia.
           case_bool_decide; [|done]. cbn [Nat.sub]. by rewrite <- app_assoc.
      * rewrite bool_decide_eq_false_2 by done. rewrite decide_False by (intros [= ?]; done). apply IH.
    + unfold keys_for. rewrite filter_cons, decide_False by done. apply IH.
Qed.

Definition aliases_of (id : string) (A : gmap string string) : gmap string string := filter (fun kv => kv.2 = id) A.
Definition aliases_without (id : string) (A : gmap string string) : gmap string string :=
  filter (fun kv => kv.2 <> id) A.

Section Aliases.
Context (t : hashtable string string) (A : gmap string string) (id : string).
Context (R : represents string_hash t (Some <$> A)).

Lemma gather_keys : gather (Some t) (Some id) =
  let ks := keys_for id (concat (entries t)) in
  if bool_decide (length ks <= 5)%nat then Some ((Some <$> ks) ++ replicate (5 - length ks) None) else None.
Proof using R.
  unfold gather. rewrite (hashtable_for_each_spec string_hash t _ _ _ R).
  pose proof (gather_spec id (concat (entries t)) [] 5 0) as H. cbn [app fmap list_fmap] in H.
  destruct (process_entries _ _ _ _) as [[c g] a]. cbn [snd] in *. rewrite H. done.
Qed.
Lemma elem_of_keys_for k : k ∈ keys_for id (concat (entries t)) <-> A !! k = Some id.
Proof using R.
  unfold keys_for. rewrite list_elem_of_fmap. split.
  - intros ([k' v] & -> & Hin). apply list_elem_of_filter in Hin as [Hv Hin]. simpl in *. subst v.
    apply (elem_of_bindings string_hash t _ _ _ R) in Hin. rewrite lookup_fmap in Hin.
    destruct (A !! k') eqn:E; simplify_eq/=; done.
  - intros Hk. exists (k, Some id). split; [done|]. apply list_elem_of_filter. split; [done|].
    apply (elem_of_bindings string_hash t _ _ _ R). by rewrite lookup_fmap, Hk.
Qed.
Lemma length_keys_for : length (keys_for id (concat (entries t))) = size (aliases_of id A).
Proof using R.
  rewrite <- length_map_to_list, <- (length_fmap fst (map_to_list _)). apply Permutation_length, NoDup_Permutation.
  - unfold keys_for. eapply sublist_NoDup; [by eapply (bindings_nodup string_hash)|]. apply fmap_sublist, sublist_filter.
  - apply NoDup_fst_map_to_list.
  - intros k. rewrite elem_of_keys_for. rewrite list_elem_of_fmap. split.
    + intros Hk. exists (k, id). split; [done|]. by apply elem_of_map_to_list, map_lookup_filter_Some.
    + intros ([k' v] & -> & Hin). apply elem_of_map_to_list, map_lookup_filter_Some in Hin as [H1 H2].
      simpl in *. by subst v.
Qed.
End Aliases.

(** Without a [holder], or with a single alias, nothing is read after its free. *)
Lemma remove_gathered_spec t A holder (ks : list string) n :
  represents string_hash t (Some <$> A) -> holder = None \/ (length ks <= 1)%nat -> exists freed t',
    remove_gathered (Some t) holder false ((Some <$> ks) ++ replicate n None) = Some (freed, Some t') /\
    represents string_hash t' (Some <$> foldr delete A (reverse ks)).
Proof.
  intros R Hh. assert (Hrest : forall freed t, remove_gathered (Some t) holder freed (replicate n None) = Some (freed, Some t))
    by (clear; induction n; [done|]; intros; simpl; auto).
  revert t A R Hh. induction ks as [|k ks IH]; intros t A R Hh; [by exists false, t|].
  rewrite fmap_cons. cbn [app remove_gathered].
  destruct (hashtable_remove_spec string_hash string_key_cmp string_key_cmp_spec t _ k R) as (t' & -> & R').
  cbn [mbind option_bind]. rewrite <- fmap_delete in R'. rewrite reverse_cons, foldr_app. destruct Hh as [->|Hl].
  - rewrite bool_decide_eq_false_2 by done. by apply IH; [|left].
  - destruct ks as [|k' ks]; [|cbn in Hl; lia]. cbn [fmap list_fmap app]. rewrite Hrest. by eexists _, t'.
Qed.

Lemma foldr_delete_lookup (A : gmap string string) ks k :
  foldr delete A ks !! k = if bool_decide (k ∈ ks) then None else A !! k.
Proof.
  induction ks as [|x ks IH].
  { rewrite bool_decide_eq_false_2; [done|apply not_elem_of_nil]. }
  cbn [foldr].
  destruct (decide (k = x)) as [->|Hne].
  - rewrite lookup_delete_eq. rewrite bool_decide_eq_true_2; [done|by left].
  - rewrite lookup_delete_ne, IH by done. case_bool_decide as Hk.
    + rewrite bool_decide_eq_true_2; [done|by right].
    + rewrite bool_decide_eq_false_2; [done|]. by apply not_elem_of_cons.
Qed.

(** A program of at most five aliases loses them all, in one turn. *)
Lemma remove_aliases_for_spec t A id holder :
  represents string_hash t (Some <$> A) -> (size (aliases_of id A) <= 5)%nat ->
  holder = None \/ (size (aliases_of id A) <= 1)%nat -> exists t',
    remove_aliases_for (Some t) (Some id) holder = Some (Some t') /\
    represents string_hash t' (Some <$> aliases_without id A).
Proof.
  intros R H5 Hh. unfold remove_aliases_for. rewrite (gather_keys t A id R).
  pose proof (elem_of_keys_for t A id R) as Hk. pose proof (length_keys_for t A id R) as Hl.
  rewrite <- Hl in H5, Hh. set (ks := keys_for id (concat (entries t))) in *. cbv zeta.
  rewrite bool_decide_eq_true_2 by done. cbn [mbind option_bind].
  destruct (remove_gathered_spec t A holder ks (5 - length ks) R Hh) as (freed & t1 & E1 & R1).
  assert (HA : foldr delete A (reverse ks) = aliases_without id A).
  { apply map_eq. intros x. rewrite foldr_delete_lookup.
    rewrite (bool_decide_ext (x ∈ reverse ks) (A !! x = Some id)) by (rewrite elem_of_reverse; apply Hk).
    apply option_eq. intros v. unfold aliases_without. rewrite map_lookup_filter_Some. simpl.
    case_bool_decide as Hx; [rewrite Hx|]; naive_solver. }
  rewrite HA in R1. assert (Hgone : keys_for id (concat (entries t1)) = []).
  { apply elem_of_nil_inv. intros x. rewrite (elem_of_keys_for t1 _ id R1).
    unfold aliases_without. rewrite map_lookup_filter_Some. simpl. naive_solver. }
  destruct ks as [|k ks].
  - destruct (alias_count (Some t)); (exists t; split; [done|]); by rewrite <- HA.
  - assert (Hc : exists n, alias_count (Some t) = S n).
    { assert (alias_count (Some t) = size A) as ->.
      { simpl. by rewrite (bindings_map string_hash t _ R), length_map_to_list, map_size_fmap. }
      destruct (size A) eqn:E; [|by eexists]. apply map_size_empty_inv in E.
      assert (A !! k = Some id) as Hn by (apply Hk; by left). by rewrite E in Hn. }
    destruct Hc as [n ->]. rewrite fmap_cons. cbn [app remove_aliases_loop]. rewrite fmap_cons in E1.
    cbn [app] in E1. rewrite E1. cbn [mbind option_bind]. rewrite (gather_keys t1 _ id R1), Hgone.
    cbn [mbind option_bind]. exists t1. split; [|done]. by destruct n.
Qed.
(** With a sixth alias the loop leaves its array. *)
Lemma remove_aliases_undefined t A id holder :
  represents string_hash t (Some <$> A) -> (5 < size (aliases_of id A))%nat ->
  remove_aliases_for (Some t) (Some id) holder = None.
Proof.
  intros R H5. unfold remove_aliases_for. rewrite (gather_keys t A id R). cbv zeta.
  rewrite (length_keys_for t A id R), bool_decide_eq_false_2 by lia. done.
Qed.

(** ** The invariant

    [idx] maps the id of every registered program to its place in the pool, [A]
    every alias to the id it stands for. *)

Definition unused (s : ProgState) : Prop :=
  start_time_epoch_usecs s = UINT64_MAX /\ state (public s) = OV_VM_PROG_INVALID /\ data (public s) = None.
Definition resolve (A : gmap string string) (id : string) : string := default id (A !! id).
(** When a removal by [id] is defined: the program has at most five aliases, and
    no other one when [id] is an alias. *)
Definition removable (A : gmap string string) (id : string) : bool :=
  let n := size (aliases_of (resolve A id) A) in
  (n <=? 5)%nat && (bool_decide (A !! id = None) || (n <=? 1)%nat).

Record db_inv (db : ov_vm_prog_db) (idx : gmap string nat) (A : gmap string string) : Prop := {
  inv_store : exists t, store db = Some t /\ represents string_hash t (Some <$> idx);
  inv_aliases : exists t, aliases db = Some t /\ represents string_hash t (Some <$> A);
  inv_capacity : pool_capacity db = Zlen (pool_states db) /\ available_capacity db = Zlen (pool_states db) /\
    Zlen (available_states db) = Zlen (pool_states db) + 1;
  inv_count : 0 <= topmost_usable_slot_index db /\
    Z.of_nat (size idx) + topmost_usable_slot_index db = Zlen (pool_states db);
  inv_prog id i : idx !! id = Some i -> is_id_valid (Some id) = true /\
    exists s, pool_states db !! i = Some s /\ prog_id (public s) = id;
  inv_free n : (1 <= n <= Z.to_nat (topmost_usable_slot_index db))%nat ->
    exists i s, available_states db !! n = Some (Some i) /\ pool_states db !! i = Some s /\ unused s;
  inv_distinct n n' i : (1 <= n <= Z.to_nat (topmost_usable_slot_index db))%nat ->
    (1 <= n' <= Z.to_nat (topmost_usable_slot_index db))%nat ->
    available_states db !! n = Some (Some i) -> available_states db !! n' = Some (Some i) -> n = n';
  inv_disjoint n i id : (1 <= n <= Z.to_nat (topmost_usable_slot_index db))%nat ->
    available_states db !! n = Some (Some i) -> idx !! id <> Some i;
  inv_pool i s : pool_states db !! i = Some s -> unused s \/ exists id, idx !! id = Some i;
  inv_alias a id : A !! a = Some id -> idx !! a = None /\ is_Some (idx !! id)
}.

(** The registered programs, by id. *)
Definition progs_of (db : ov_vm_prog_db) (idx : gmap string nat) : gmap string ProgState :=
  omap (fun i => pool_states db !! i) idx.

Lemma lookup_progs_of db idx id : progs_of db idx !! id = idx !! id ≫= fun i => pool_states db !! i.
Proof. unfold progs_of. by rewrite lookup_omap. Qed.

Section Db.
Context (db : ov_vm_prog_db) (idx : gmap string nat) (A : gmap string string) (I : db_inv db idx A).

Lemma prog_unique id id' i : idx !! id = Some i -> idx !! id' = Some i -> id = id'.
Proof using I.
  intros H1 H2. destruct (inv_prog _ _ _ I _ _ H1) as (_ & s & Hs & <-).
  destruct (inv_prog _ _ _ I _ _ H2) as (_ & s' & Hs' & <-). congruence.
Qed.
Lemma table_get_alias a : table_get (aliases db) (Some a) = Some (A !! a).
Proof using I.
  destruct (inv_aliases _ _ _ I) as (t & -> & R).
  rewrite (hashtable_get_spec string_hash string_key_cmp string_key_cmp_spec t _ a R).
  by rewrite mjoin_fmap_Some.
Qed.
Lemma table_get_store id : table_get (store db) (Some id) = Some (idx !! id).
Proof using I.
  destruct (inv_store _ _ _ I) as (t & -> & R).
  rewrite (hashtable_get_spec string_hash string_key_cmp string_key_cmp_spec t _ id R).
  by rewrite mjoin_fmap_Some.
Qed.
Lemma unaliased_spec a : get_unaliased_id (aliases db) (Some a) = Some (Some (resolve A a)).
Proof using I.
  unfold get_unaliased_id, resolve. rewrite table_get_alias. cbn [mbind option_bind].
  by destruct (A !! a).
Qed.
Lemma holder_spec a : holder_of (aliases db) (Some a) = Some ((fun _ => a) <$> A !! a).
Proof using I. unfold holder_of. rewrite table_get_alias. cbn [mbind option_bind]. by destruct (A !! a). Qed.
Lemma resolve_registered a : is_Some (idx !! a) -> resolve A a = a.
Proof using I.
  intros [i Hi]. unfold resolve. destruct (A !! a) as [id|] eqn:E; [|done].
  apply (inv_alias _ _ _ I) in E as [E _]. congruence.
Qed.
Lemma resolve_free a : idx !! resolve A a = None -> A !! a = None /\ resolve A a = a.
Proof using I.
  unfold resolve. destruct (A !! a) as [id|] eqn:E; [|done]. simpl.
  apply (inv_alias _ _ _ I) in E as [_ [i Hi]]. congruence.
Qed.
Lemma prog_for_id_spec id : prog_for_id db (Some id) = Some (idx !! resolve A id).
Proof using I. unfold prog_for_id. rewrite unaliased_spec. cbn [mbind option_bind]. apply table_get_store. Qed.

Lemma db_get_spec id :
  ov_vm_prog_db_get db (Some id) = Some (if is_id_valid (Some id) then idx !! resolve A id else None).
Proof using I.
  unfold ov_vm_prog_db_get. destruct (is_id_valid (Some id)); [|done]. apply prog_for_id_spec.
Qed.

(** Changing a registered program, but for its id. *)
Lemma update_state_inv id i f :
  idx !! id = Some i -> (forall s, prog_id (public (f s)) = prog_id (public s)) ->
  db_inv (update_state db i f) idx A.
Proof using I.
  intros Hi Hf. destruct (inv_prog _ _ _ I _ _ Hi) as (_ & s & Hs & Hid).
  assert (Hl : length (alter f i (pool_states db)) = length (pool_states db)) by apply length_alter.
  split; try apply I; unfold update_state, Zlen; cbn -[is_id_valid]; rewrite ?Hl.
  - apply (inv_capacity _ _ _ I).
  - apply (inv_count _ _ _ I).
  - intros id' j Hj. destruct (inv_prog _ _ _ I _ _ Hj) as (Hv & s' & Hs' & Hid'). split; [done|].
    destruct (decide (j = i)) as [->|Hne].
    + exists (f s'). rewrite list_lookup_alter_eq, Hs'. rewrite Hf. done.
    + exists s'. by rewrite list_lookup_alter_ne.
  - intros n Hn. destruct (inv_free _ _ _ I n Hn) as (j & s' & Ha & Hs' & Hu). exists j, s'.
    split; [done|]. split; [|done]. rewrite list_lookup_alter_ne; [done|].
    intros <-. by apply (inv_disjoint _ _ _ I n i id Hn Ha).
  - intros j s' Hj. destruct (decide (j = i)) as [->|Hne]; [right; by exists id|].
    rewrite list_lookup_alter_ne in Hj by done. by apply (inv_pool _ _ _ I).
Qed.
Lemma progs_of_update id i f :
  idx !! id = Some i -> progs_of (update_state db i f) idx = alter f id (progs_of db idx).
Proof using I.
  intros Hi. apply map_eq. intros x. rewrite lookup_progs_of. destruct (decide (x = id)) as [->|Hne].
  - rewrite lookup_alter_eq, lookup_progs_of, Hi. simpl. by rewrite list_lookup_alter_eq.
  - rewrite lookup_alter_ne, lookup_progs_of by done. destruct (idx !! x) as [j|] eqn:E; [|done]. simpl.
    rewrite list_lookup_alter_ne; [done|]. intros <-. apply Hne. by eapply prog_unique.
Qed.
End Db.

(** ** The operations *)

Lemma substring_all n s : (String.length s <= n)%nat -> String.substring 0 n s = s.
Proof.
  revert n. induction s as [|c s IH]; intros [|n] H; simpl in *; try done; [lia|]. by rewrite IH by lia.
Qed.
Lemma unused_cleared s : unused (cleared s).
Proof. done. Qed.

Lemma db_create_spec slots release :
  let n := if 0 =? slots then DEFAULT_NUMBER_SLOTS else slots in
  0 <= slots -> u8 n <> 0 -> exists db, ov_vm_prog_db_create slots release = Some db /\
    db_inv db ∅ ∅ /\ pool_capacity db = n /\ topmost_usable_slot_index db = n /\
    release_set db = release /\ released db = [].
Proof.
  intros n H0 Hn. assert (Hn0 : 0 < n).
  { unfold n, DEFAULT_NUMBER_SLOTS. destruct (Z.eqb_spec 0 slots); lia. }
  assert (Hu : 0 < u8 n < 2 ^ 32) by (unfold u8 in *; pose proof (Z.mod_pos_bound n (2 ^ 8)); lia).
  unfold ov_vm_prog_db_create, ov_hashtable_create_c_string. fold n.
  destruct (hashtable_create_spec (K := string) (V := nat) string_hash (u8 n) Hu) as (ts & -> & Rs).
  destruct (hashtable_create_spec (K := string) (V := string) string_hash (u8 n) Hu) as (ta & -> & Ra).
  eexists. split; [done|]. split; [|done].
  assert (Hpool : Zlen (cleared <$> replicate (Z.to_nat n) zero_state) = n)
    by (unfold Zlen; rewrite length_fmap, length_replicate; lia).
  assert (Hav : forall k, (1 <= k <= Z.to_nat n)%nat ->
    (None :: (Some <$> seq 0 (Z.to_nat n))) !! k = Some (Some (k - 1)%nat)).
  { intros [|k] Hk; [lia|]. simpl. rewrite Nat.sub_0_r, list_lookup_fmap, lookup_seq_lt by lia. done. }
  split; cbn -[is_id_valid Z.of_nat]; rewrite ?Hpool.
  - exists ts. by rewrite fmap_empty.
  - exists ta. by rewrite fmap_empty.
  - split; [done|]. split; [done|]. unfold Zlen. cbn. rewrite length_fmap, length_seq. lia.
  - rewrite map_size_empty. lia.
  - intros id i. by rewrite lookup_empty.
  - intros k Hk. exists (k - 1)%nat, (cleared zero_state). split; [by apply Hav|]. split; [|done].
    rewrite list_lookup_fmap, lookup_replicate_2 by lia. done.
  - intros k k' i Hk Hk'. rewrite !Hav by done. intros [= <-] [= ?]. lia.
  - intros k i id _ _. by rewrite lookup_empty.
  - intros i s. rewrite list_lookup_fmap, fmap_Some. intros (s' & _ & ->). by left.
  - intros a id. by rewrite lookup_empty.
Qed.

(** The code asserts that the tables exist, and they do not when the number of
    slots is a multiple of 256. *)
Lemma db_create_asserts k release : 0 < k -> ov_vm_prog_db_create (256 * k) release = None.
Proof.
  intros Hk. unfold ov_vm_prog_db_create. destruct (Z.eqb_spec 0 (256 * k)); [lia|].
  unfold ov_hashtable_create_c_string, ov_hashtable_create.
  replace (u8 (256 * k)) with 0; [done|]. unfold u8. rewrite Z.mul_comm. by rewrite Z.mod_mul.
Qed.

Section DbOps.
Context (db : ov_vm_prog_db) (idx : gmap string nat) (A : gmap string string) (I : db_inv db idx A).

Lemma db_insert_refused id instr d now :
  is_id_valid (Some id) = false \/ is_Some (idx !! resolve A id) \/ topmost_usable_slot_index db = 0 ->
  ov_vm_prog_db_insert db (Some id) (Some instr) d now = Some (None, db).
Proof using I.
  intros Hr. unfold ov_vm_prog_db_insert. destruct (is_id_valid (Some id)) eqn:Hv; [|done]. cbn [negb].
  unfold already_registered. rewrite (db_get_spec db idx A I), Hv. cbn [mbind option_bind].
  destruct (idx !! resolve A id) as [i|] eqn:E; [done|].
  destruct Hr as [?|[[? ?]|Ht]]; [done|congruence|]. unfold fresh_prog_state_unsafe. by rewrite Ht.
Qed.

(** What a new program looks like. *)
Definition new_prog (s : ProgState) (id : string) (instr : list ov_vm_instr) (d : option Z) (now : Z) : ProgState :=
  {| public := ov_vm_prog_reset_prog_started (init_prog_state_unsafe (public s) id instr d);
  start_time_epoch_usecs := now |}.

Lemma db_insert_spec id instr d now :
  is_id_valid (Some id) = true -> idx !! resolve A id = None -> 0 < topmost_usable_slot_index db ->
  exists i s db', ov_vm_prog_db_insert db (Some id) (Some instr) d now = Some (Some i, db') /\
  pool_states db !! i = Some s /\ (forall x, idx !! x <> Some i) /\
  pool_states db' = <[i := new_prog s id instr d now]> (pool_states db) /\
  db_inv db' (<[id := i]> idx) A /\ idx !! id = None /\
  released db' = released db /\ release_set db' = release_set db.
Proof using I.
  intros Hv Hres Htop. destruct (resolve_free db idx A I id Hres) as [Hna Eres]. rewrite Eres in Hres.
  set (top := topmost_usable_slot_index db) in *.
  destruct (inv_free _ _ _ I (Z.to_nat top)) as (i & s & Hav & Hs & Hu); [fold top; lia|].
  assert (Hfree : forall x, idx !! x <> Some i).
  { intros x. eapply (inv_disjoint _ _ _ I); [|exact Hav]. fold top. lia. }
  unfold ov_vm_prog_db_insert. rewrite Hv. cbn [negb].
  unfold already_registered. rewrite (db_get_spec db idx A I), Hv, Eres, Hres. cbn [mbind option_bind].
  unfold fresh_prog_state_unsafe. fold top. replace (0 =? top) with false by lia. rewrite Hav. cbn [mbind option_bind].
  unfold insert_prog, register_prog_unsafe. cbn [update_state pool_states set_available store].
  set (new := new_prog s id instr d now).
  assert (Hnew : alter (fun s => {| public := ov_vm_prog_reset_prog_started (public s);
    start_time_epoch_usecs := start_time_epoch_usecs s |}) i
    (alter (fun s => {| public := init_prog_state_unsafe (public s) id instr d;
    start_time_epoch_usecs := now |}) i (pool_states db)) = <[i := new]> (pool_states db)).
  { apply list_eq. intros j. destruct (decide (i = j)) as [<-|Hne].
    - rewrite !list_lookup_alter_eq, Hs, list_lookup_insert_eq; [done|]. by eapply lookup_lt_Some.
    - by rewrite !list_lookup_alter_ne, list_lookup_insert_ne. }
  rewrite Hnew. rewrite list_lookup_insert_eq by (by eapply lookup_lt_Some). cbn [mbind option_bind].
  assert (Hlen : (String.length id <= 254)%nat).
  { unfold is_id_valid, OV_VM_PROG_ID_MAX_LEN in Hv. apply andb_true_iff in Hv as [_ Hv].
    apply negb_true_iff, Nat.leb_gt in Hv. lia. }
  assert (Hid : prog_id (public new) = id) by (cbn; by apply substring_all).
  rewrite Hid. destruct (inv_store _ _ _ I) as (t & -> & R).
  destruct (hashtable_set_spec string_hash string_key_cmp string_key_cmp_spec t _ id (Some i) R) as (t' & -> & R').
  cbn [mbind option_bind]. rewrite mjoin_fmap_Some, Hres. rewrite <- (fmap_insert Some) in R'.
  exists i, s. eexists. split; [reflexivity|]. split; [done|]. split; [done|].
  split; [cbn; by rewrite Hnew|]. split; [|done].
  assert (Hpl : Zlen (<[i := new]> (pool_states db)) = Zlen (pool_states db)) by (unfold Zlen; by rewrite length_insert).
  assert (Hil : (i < length (pool_states db))%nat) by by eapply lookup_lt_Some.
  assert (Hmid : forall n, (1 <= n <= Z.to_nat (top - 1))%nat ->
    (1 <= n <= Z.to_nat top)%nat /\ <[Z.to_nat top := None]> (available_states db) !! n = available_states db !! n).
  { intros n Hn. split; [lia|]. apply list_lookup_insert_ne. lia. }
  split; unfold set_store, update_state, set_available; cbn -[is_id_valid Z.of_nat]; rewrite ?Hnew, ?Hpl.
  - by exists t'.
  - apply (inv_aliases _ _ _ I).
  - unfold Zlen at 3. rewrite length_insert. apply (inv_capacity _ _ _ I).
  - rewrite map_size_insert_None by done. pose proof (inv_count _ _ _ I) as Hc. fold top in Hc. lia.
  - intros id' j. rewrite lookup_insert_Some. intros [[<- <-]|[Hne Hj]].
    + split; [done|]. exists new. split; [by apply list_lookup_insert_eq|done].
    + destruct (inv_prog _ _ _ I _ _ Hj) as (Hv' & s' & Hs' & Hid'). split; [done|].
      exists s'. split; [|done]. rewrite list_lookup_insert_ne; [done|]. intros <-. by apply (Hfree id').
  - intros n Hn. destruct (Hmid n Hn) as [Hn' ->].
    destruct (inv_free _ _ _ I n Hn') as (j & s' & Ha & Hs' & Hu'). exists j, s'.
    split; [done|]. split; [|done]. rewrite list_lookup_insert_ne; [done|]. intros <-.
    assert (n = Z.to_nat top) by (eapply (inv_distinct _ _ _ I); [exact Hn'|fold top; lia|exact Ha|exact Hav]). lia.
  - intros n n' j Hn Hn'. destruct (Hmid n Hn) as [H1 ->]. destruct (Hmid n' Hn') as [H2 ->].
    by apply (inv_distinct _ _ _ I).
  - intros n j id' Hn. destruct (Hmid n Hn) as [H1 ->]. intros Ha. rewrite lookup_insert_Some.
    intros [[<- <-]|[_ Hj]]; [|by eapply (inv_disjoint _ _ _ I); [exact H1|exact Ha|exact Hj]].
    assert (n = Z.to_nat top) by (eapply (inv_distinct _ _ _ I); [exact H1|fold top; lia|exact Ha|exact Hav]). lia.
  - intros j s' Hj. destruct (decide (i = j)) as [<-|Hne].
    + right. exists id. apply lookup_insert_eq.
    + rewrite list_lookup_insert_ne in Hj by done. destruct (inv_pool _ _ _ I j s' Hj) as [?|[x Hx]]; [by left|].
      right. exists x. rewrite lookup_insert_ne; [done|]. intros <-. congruence.
  - intros a x Ha. destruct (inv_alias _ _ _ I a x Ha) as [Hn1 Hs1]. split.
    + rewrite lookup_insert_ne; [done|]. congruence.
    + destruct (decide (x = id)) as [->|]; [by rewrite lookup_insert_eq|by rewrite lookup_insert_ne].
Qed.
End DbOps.

(** The tables may be replaced by others with the same bindings. *)
Lemma inv_set_aliases db idx A t A' :
  db_inv db idx A -> represents string_hash t (Some <$> A') ->
  (forall a id, A' !! a = Some id -> idx !! a = None /\ is_Some (idx !! id)) ->
  db_inv (set_aliases db (Some t)) idx A'.
Proof.
  intros I R H. split; unfold set_aliases; cbn -[is_id_valid Z.of_nat]; try apply I; [by exists t|done].
Qed.

Section DbOps2.
Context (db : ov_vm_prog_db) (idx : gmap string nat) (A : gmap string string) (I : db_inv db idx A).

Lemma valid_length id : is_id_valid (Some id) = true -> (String.length id <= 254)%nat.
Proof using Type.
  unfold is_id_valid, OV_VM_PROG_ID_MAX_LEN. intros Hv. apply andb_true_iff in Hv as [_ Hv].
  apply negb_true_iff, Nat.leb_gt in Hv. lia.
Qed.
Lemma invalid_not_registered id : is_id_valid (Some id) = false -> idx !! id = None.
Proof using I.
  intros Hv. destruct (idx !! id) as [i|] eqn:E; [|done].
  apply (inv_prog _ _ _ I) in E as [E _]. congruence.
Qed.
Lemma db_get_resolved id : ov_vm_prog_db_get db (Some (resolve A id)) = Some (idx !! resolve A id).
Proof using I.
  rewrite (db_get_spec db idx A I). f_equal. destruct (idx !! resolve A id) as [i|] eqn:E.
  - rewrite (resolve_registered db idx A I (resolve A id)) by eauto.
    destruct (inv_prog _ _ _ I _ _ E) as [Hv _]. rewrite Hv. exact E.
  - destruct (resolve_free db idx A I id E) as [Hn Er]. rewrite Er in *. rewrite Er, E. by destruct (is_id_valid _).
Qed.

(** The program an id or an alias stands for. *)
Definition registered (id : string) : option nat :=
  if is_id_valid (Some id) then idx !! resolve A id else None.
Lemma db_alias_spec id alias :
  ov_vm_prog_db_alias db (Some id) (Some alias) =
  match idx !! resolve A id, registered alias with
  | None, _ => Some (false, db)
  | Some i, Some j => Some ((i =? j)%nat, db)
  | Some i, None =>
      '(_, t) ← table_set (aliases db) (Some alias) (Some (resolve A id)); Some (true, set_aliases db t)
  end.
Proof using I.
  unfold ov_vm_prog_db_alias. rewrite (unaliased_spec db idx A I). cbn [mbind option_bind].
  rewrite db_get_resolved, (db_get_spec db idx A I). cbn [mbind option_bind]. fold (registered alias).
  destruct (idx !! resolve A id) as [i|] eqn:E; [|done]. destruct (registered alias) as [j|].
  - by destruct (i =? j)%nat.
  - unfold ov_string_dup, OV_STRING_DEFAULT_SIZE. apply (inv_prog _ _ _ I) in E as [Hv _].
    pose proof (valid_length _ Hv). destruct (Nat.ltb_spec 255 (String.length (resolve A id) + 1)); [lia|done].
Qed.
Lemma db_alias_set id alias i :
  idx !! resolve A id = Some i -> registered alias = None -> exists db',
  ov_vm_prog_db_alias db (Some id) (Some alias) = Some (true, db') /\
  db_inv db' idx (<[alias := resolve A id]> A) /\ pool_states db' = pool_states db /\
  released db' = released db /\ release_set db' = release_set db.
Proof using I.
  intros Hi Ha. rewrite db_alias_spec, Hi, Ha. destruct (inv_aliases _ _ _ I) as (t & -> & R).
  destruct (hashtable_set_spec string_hash string_key_cmp string_key_cmp_spec t _ alias (Some (resolve A id)) R)
    as (t' & -> & R'). cbn [mbind option_bind]. rewrite <- (fmap_insert Some) in R'.
  eexists. split; [done|]. split; [|done]. apply (inv_set_aliases db idx A); [done..|].
  intros a x. rewrite lookup_insert_Some. intros [[<- <-]|[_ Hx]]; [|by apply (inv_alias _ _ _ I)].
  split; [|by eexists]. unfold registered in Ha. destruct (is_id_valid (Some alias)) eqn:Hv.
  - destruct (resolve_free db idx A I alias Ha) as [_ E]. by rewrite E in Ha.
  - by apply invalid_not_registered.
Qed.

Lemma pool_after_clear i : pool_states (clear_state db i) = alter cleared i (pool_states db).
Proof using Type.
  unfold clear_state, release_data. destruct (s ← pool_states db !! i; data (public s)); [|done].
  by destruct (release_set db).
Qed.
Lemma clear_state_rest i :
  store (clear_state db i) = store db /\ aliases (clear_state db i) = aliases db /\
  pool_capacity (clear_state db i) = pool_capacity db /\
  available_states (clear_state db i) = available_states db /\
  topmost_usable_slot_index (clear_state db i) = topmost_usable_slot_index db /\
  available_capacity (clear_state db i) = available_capacity db /\
  release_set (clear_state db i) = release_set db.
Proof using Type.
  unfold clear_state, release_data. destruct (s ← pool_states db !! i; data (public s)); [|done].
  by destruct (release_set db) eqn:E; cbn; rewrite ?E.
Qed.
Lemma clear_state_released i s :
  pool_states db !! i = Some s ->
  released (clear_state db i) = released db ++ (if release_set db then option_list (data (public s)) else []).
Proof using Type.
  intros Hs. unfold clear_state, release_data. rewrite Hs. cbn [mbind option_bind].
  destruct (data (public s)), (release_set db) eqn:E; cbn; rewrite ?E; by rewrite ?app_nil_r.
Qed.

Lemma aliases_without_free id : idx !! id = None -> aliases_without id A = A.
Proof using I.
  intros Hn. apply map_filter_id. intros k v Hv E. simpl in E. subst v.
  apply (inv_alias _ _ _ I) in Hv as [_ [j Hj]]. congruence.
Qed.

Lemma aliases_of_free id : idx !! id = None -> aliases_of id A = ∅.
Proof using I.
  intros Hn. apply map_empty. intros k. apply map_lookup_filter_None_2. right. intros v Hv E. simpl in E. subst v.
  apply (inv_alias _ _ _ I) in Hv as [_ [j Hj]]. congruence.
Qed.

Lemma db_remove_absent id :
  idx !! resolve A id = None -> exists db',
  ov_vm_prog_db_remove db (Some id) = Some (true, db') /\ db_inv db' idx A /\
  pool_states db' = pool_states db /\ released db' = released db /\ release_set db' = release_set db.
Proof using I.
  intros Hn. unfold ov_vm_prog_db_remove, remove_internal. rewrite (unaliased_spec db idx A I), (holder_spec db idx A I).
  cbn [mbind option_bind]. destruct (resolve_free db idx A I id Hn) as [-> _].
  destruct (inv_store _ _ _ I) as (t & -> & R). destruct (inv_aliases _ _ _ I) as (ta & Ea & Ra).
  destruct (hashtable_remove_spec string_hash string_key_cmp string_key_cmp_spec t _ (resolve A id) R) as (t' & -> & R').
  cbn [mbind option_bind]. rewrite mjoin_fmap_Some, Hn. cbn [release_prog set_store aliases mbind option_bind].
  rewrite Ea. destruct (remove_aliases_for_spec ta A (resolve A id) None Ra) as (ta' & E' & Ra');
    [rewrite (aliases_of_free _ Hn), map_size_empty; lia|by left|]. cbn [fmap option_fmap option_map]. rewrite E'. cbn [mbind option_bind].
  eexists. split; [done|]. split; [|done]. rewrite (aliases_without_free _ Hn) in Ra'.
  rewrite <- fmap_delete, delete_id in R' by done. apply (inv_set_aliases (set_store db (Some t')) idx A); [|done|apply I].
  split; unfold set_store; cbn -[is_id_valid Z.of_nat]; try apply I. by exists t'.
Qed.
End DbOps2.

(** Taking a program out: its state is cleared and goes back to the stack. *)
Definition returned (db : ov_vm_prog_db) (i : nat) : ov_vm_prog_db :=
  let ti := topmost_usable_slot_index db + 1 in
  set_available (clear_state db i) (<[Z.to_nat ti := Some i]> (available_states (clear_state db i))) ti.
Lemma release_prog_spec db i :
  topmost_usable_slot_index db < available_capacity db -> release_prog db (Some i) = Some (true, returned db i).
Proof.
  intros H. unfold release_prog. destruct (Z.ltb_spec (available_capacity db) (topmost_usable_slot_index db + 1)); [lia|done].
Qed.
Lemma returned_aliases db i : aliases (returned db i) = aliases db.
Proof. apply (clear_state_rest db i). Qed.


Section Remove.
Context (db : ov_vm_prog_db) (idx : gmap string nat) (A : gmap string string) (I : db_inv db idx A).
Context (id : string) (i : nat) (s : ProgState) (Hi : idx !! id = Some i) (Hs : pool_states db !! i = Some s).
Context (t : hashtable string nat) (ta : hashtable string string).
Context (R : represents string_hash t (Some <$> delete id idx)).
Context (Ra : represents string_hash ta (Some <$> aliases_without id A)).

Lemma remove_inv :
  db_inv (set_aliases (returned (set_store db (Some t)) i) (Some ta)) (delete id idx) (aliases_without id A).
Proof using All.
  set (top := topmost_usable_slot_index db). pose proof (inv_count _ _ _ I) as Hc. fold top in Hc.
  assert (Hsz : Z.of_nat (size (delete id idx)) + (top + 1) = Zlen (pool_states db)).
  { rewrite map_size_delete_Some by by eexists. pose proof (map_size_ne_0_lookup_2 idx id).
    assert (size idx <> 0)%nat by (apply map_size_ne_0_lookup; by exists id, i). lia. }
  assert (Hpl : Zlen (alter cleared i (pool_states db)) = Zlen (pool_states db)) by (unfold Zlen; by rewrite length_alter).
  pose proof (inv_capacity _ _ _ I) as (Hcap & Hcap' & Hav).
  assert (Htop : (Z.to_nat (top + 1) < length (available_states db))%nat).
  { unfold Zlen in *. pose proof (Zle_0_nat (size (delete id idx))). lia. }
  assert (Hslot : forall n, (1 <= n <= Z.to_nat (top + 1))%nat ->
    n = Z.to_nat (top + 1) /\ <[Z.to_nat (top + 1) := Some i]> (available_states db) !! n = Some (Some i) \/
    (1 <= n <= Z.to_nat top)%nat /\ <[Z.to_nat (top + 1) := Some i]> (available_states db) !! n = available_states db !! n).
  { intros n Hn. destruct (decide (n = Z.to_nat (top + 1))) as [->|Hne].
    - left. split; [done|]. by apply list_lookup_insert_eq.
    - right. split; [lia|]. apply list_lookup_insert_ne. lia. }
  assert (Hdis : forall n j, (1 <= n <= Z.to_nat top)%nat -> available_states db !! n = Some (Some j) -> j <> i).
  { intros n j Hn Ha ->. by apply (inv_disjoint _ _ _ I n i id Hn Ha). }
  pose proof (pool_after_clear (set_store db (Some t)) i) as Hpool. cbn [set_store pool_states] in Hpool.
  destruct (clear_state_rest (set_store db (Some t)) i) as (E1 & E2 & E3 & E4 & E5 & E6 & E7).
  split; unfold set_aliases, returned, set_available; cbn -[is_id_valid Z.of_nat clear_state]; fold top;
    rewrite ?Hpool, ?E1, ?E3, ?E4, ?E5, ?E6, ?Hpl; cbn -[is_id_valid Z.of_nat]; fold top.
  - by exists t.
  - by exists ta.
  - unfold Zlen at 3. rewrite length_insert. done.
  - lia.
  - intros id' j. rewrite lookup_delete_Some. intros [Hne Hj].
    destruct (inv_prog _ _ _ I _ _ Hj) as (Hv & s' & Hs' & Hid). split; [done|]. exists s'. split; [|done].
    rewrite list_lookup_alter_ne; [done|]. intros ->. apply Hne. by eapply (prog_unique db idx A I).
  - intros n Hn. destruct (Hslot n Hn) as [[-> ->]|[Hn' ->]].
    + exists i, (cleared s). split; [done|]. rewrite list_lookup_alter_eq, Hs. done.
    + destruct (inv_free _ _ _ I n Hn') as (j & s' & Ha & Hs' & Hu). exists j, s'. split; [done|]. split; [|done].
      rewrite list_lookup_alter_ne; [done|]. intros ->. by apply (Hdis n j Hn' Ha).
  - intros n n' j Hn Hn'.
    destruct (Hslot n Hn) as [[-> ->]|[H1 ->]], (Hslot n' Hn') as [[-> ->]|[H2 ->]]; [done|..].
    + intros [= <-] Ha. by destruct (Hdis n' i H2 Ha).
    + intros Ha [= <-]. by destruct (Hdis n i H1 Ha).
    + by apply (inv_distinct _ _ _ I).
  - intros n j id' Hn. destruct (Hslot n Hn) as [[-> ->]|[H1 ->]].
    + intros [= <-]. rewrite lookup_delete_Some. intros [Hne Hj]. apply Hne. by eapply (prog_unique db idx A I).
    + intros Ha. rewrite lookup_delete_Some. intros [_ Hj]. by apply (inv_disjoint _ _ _ I n j id' H1 Ha).
  - intros j s' Hj. destruct (decide (j = i)) as [->|Hne].
    + left. rewrite list_lookup_alter_eq, Hs in Hj. by injection Hj as <-.
    + rewrite list_lookup_alter_ne in Hj by done. destruct (inv_pool _ _ _ I j s' Hj) as [?|[x Hx]]; [by left|].
      right. exists x. rewrite lookup_delete_ne; [done|]. intros <-. congruence.
  - intros a x Ha. apply map_lookup_filter_Some in Ha as [Ha Hne]. simpl in Hne.
    destruct (inv_alias _ _ _ I a x Ha) as [Hn1 Hs1]. split.
    + rewrite lookup_delete_None. by right.
    + by rewrite lookup_delete_ne.
Qed.
End Remove.

Section DbOps3.
Context (db : ov_vm_prog_db) (idx : gmap string nat) (A : gmap string string) (I : db_inv db idx A).

Lemma db_remove_spec id i s :
  idx !! resolve A id = Some i -> pool_states db !! i = Some s -> removable A id = true -> exists db',
  ov_vm_prog_db_remove db (Some id) = Some (true, db') /\
  db_inv db' (delete (resolve A id) idx) (aliases_without (resolve A id) A) /\
  pool_states db' = alter cleared i (pool_states db) /\ release_set db' = release_set db /\
  released db' = released db ++ (if release_set db then option_list (data (public s)) else []).
Proof using I.
  intros Hi Hs Hrm. unfold removable in Hrm. apply andb_true_iff in Hrm as [H5%Nat.leb_le Hh].
  unfold ov_vm_prog_db_remove, remove_internal.
  rewrite (unaliased_spec db idx A I), (holder_spec db idx A I). cbn [mbind option_bind].
  set (k := resolve A id) in *. set (holder := (fun _ => id) <$> A !! id).
  assert (Hh' : holder = None \/ (size (aliases_of k A) <= 1)%nat).
  { apply orb_true_iff in Hh as [Hh%bool_decide_eq_true|Hh%Nat.leb_le]; [left|by right]. unfold holder. by rewrite Hh. }
  destruct (inv_store _ _ _ I) as (t & Et & R). destruct (inv_aliases _ _ _ I) as (ta & Ea & Ra). rewrite Et.
  destruct (hashtable_remove_spec string_hash string_key_cmp string_key_cmp_spec t _ k R) as (t' & -> & R').
  cbn [mbind option_bind]. rewrite mjoin_fmap_Some, Hi. rewrite <- fmap_delete in R'.
  pose proof (inv_capacity _ _ _ I) as (_ & Hcap & _). pose proof (inv_count _ _ _ I) as Hc.
  assert (size idx <> 0)%nat by (apply map_size_ne_0_lookup; by exists k, i).
  rewrite (release_prog_spec (set_store db (Some t')) i) by (cbn; lia). cbn [mbind option_bind].
  rewrite returned_aliases. cbn [set_store aliases]. rewrite Ea.
  destruct (remove_aliases_for_spec ta A k holder Ra H5 Hh') as (ta' & -> & Ra'). cbn [mbind option_bind].
  exists (set_aliases (returned (set_store db (Some t')) i) (Some ta')). split; [|split; [by apply remove_inv with s|]].
  - done.
  - unfold set_aliases, returned, set_available. cbn [pool_states released release_set].
    destruct (clear_state_rest (set_store db (Some t')) i) as (_ & _ & _ & _ & _ & _ & E7). rewrite pool_after_clear, E7. cbn [set_store pool_states]. split; [done|]. split; [done|].
    by rewrite (clear_state_released (set_store db (Some t')) i s).
Qed.

Lemma next_due_unsafe_spec l limit :
  match next_due_unsafe l limit with
  | Some id => exists s, s ∈ l /\ prog_id (public s) = id /\ start_time_epoch_usecs s < limit
  | None => forall s, s ∈ l -> limit <= start_time_epoch_usecs s
  end.
Proof using Type.
  induction l as [|s l IH]; simpl; [by intros s Hs%elem_of_nil|].
  destruct (Z.ltb_spec (start_time_epoch_usecs s) limit) as [Hlt|Hge].
  - exists s. split; [by left|done].
  - destruct (next_due_unsafe l limit) as [id|].
    + destruct IH as (s' & Hin & ?). exists s'. split; [by right|done].
    + intros s' [->|Hin]%elem_of_cons; [done|by apply IH].
Qed.
(** The next due program is registered and older than the limit; there is none
when all are younger. Unused states are never due. *)
Lemma db_next_due_spec limit :
  limit < 2 ^ 64 ->
  match ov_vm_prog_db_next_due db limit with
  | Some id => exists s, progs_of db idx !! id = Some s /\ start_time_epoch_usecs s < limit
  | None => forall id s, progs_of db idx !! id = Some s -> limit <= start_time_epoch_usecs s
  end.
Proof using I.
  intros Hl. unfold ov_vm_prog_db_next_due. pose proof (inv_capacity _ _ _ I) as (-> & _).
  replace (ztake (Zlen (pool_states db)) (pool_states db)) with (pool_states db)
    by (unfold ztake, Zlen; rewrite take_ge; [done|lia]).
  pose proof (next_due_unsafe_spec (pool_states db) limit) as H.
  destruct (next_due_unsafe (pool_states db) limit) as [id|].
  - destruct H as (s & Hin & Hid & Hlt). exists s. split; [|done]. apply list_elem_of_lookup in Hin as [j Hj].
    destruct (inv_pool _ _ _ I j s Hj) as [(Hu & _)|[x Hx]]; [unfold UINT64_MAX in Hu; lia|].
    destruct (inv_prog _ _ _ I _ _ Hx) as (_ & s' & Hs' & Hid').
    rewrite lookup_progs_of. assert (x = id) as -> by congruence. by rewrite Hx.
  - intros id s Hp. apply H. rewrite lookup_progs_of in Hp. destruct (idx !! id) as [j|]; [|done].
    by eapply list_elem_of_lookup_2.
Qed.
Lemma db_update_time_spec id i now :
  is_id_valid (Some id) = true -> idx !! resolve A id = Some i -> exists db',
  ov_vm_prog_db_update_time db (Some id) now = Some (true, db') /\ db_inv db' idx A /\
  progs_of db' idx = alter (fun s => {| public := public s; start_time_epoch_usecs := now |})
                       (resolve A id) (progs_of db idx) /\
  topmost_usable_slot_index db' = topmost_usable_slot_index db /\ release_set db' = release_set db /\
  released db' = released db.
Proof using I.
  intros Hv Hi. unfold ov_vm_prog_db_update_time. rewrite (prog_for_id_spec db idx A I), Hi.
  cbn [mbind option_bind]. rewrite Hv. cbn [negb]. eexists. split; [done|]. split.
  - by eapply (update_state_inv db idx A I).
  - split; [by apply (progs_of_update db idx A I)|done].
Qed.
End DbOps3.

(** ** The abstract database

    A map from ids to programs, a map from aliases to ids, the number of
    programs it still has room for, and the data it has released. *)

Record db_spec := {
  programs : gmap string ProgState;
  alias_of : gmap string string;
  room : Z;
  releases : bool;
  gone : list Z
}.

Definition fresh_program (id : string) (instr : list ov_vm_instr) (d : option Z) (now : Z) : ProgState :=
  {| public := {| prog_id := id; instructions := Some instr; data := d; program_counter := 0;
                  state := OV_VM_PROG_OK; error := {| error_code := OV_ERROR_NOERROR; message := None |};
                  last_instr_retval := OC_NEXT; prog_started_epoch_secs := 0 |};
     start_time_epoch_usecs := now |}.
Definition spec_get (S : db_spec) (id : string) : option ProgState :=
  if is_id_valid (Some id) then programs S !! resolve (alias_of S) id else None.

(** Whether a program can be inserted: the id is valid, free, and there is room. *)
Definition accepts (sp : db_spec) (id : string) : bool :=
  is_id_valid (Some id) && bool_decide (spec_get sp id = None) && (0 <? room sp).

Inductive db_op :=
  | Insert (id : string) (instr : list ov_vm_instr) (d : option Z) (now : Z)
  | Alias (id alias : string)
  | Remove (id : string)
  | UpdateTime (id : string) (now : Z).

Definition spec_op (S : db_spec) (op : db_op) : bool * db_spec :=
  match op with
  | Insert id instr d now =>
      if accepts S id
      then (true, {| programs := <[id := fresh_program id instr d now]> (programs S);
                     alias_of := alias_of S; room := room S - 1; releases := releases S; gone := gone S |})
      else (false, S)
  | Alias id alias =>
      match programs S !! resolve (alias_of S) id, spec_get S alias with
      | None, _ => (false, S)
      | Some _, Some _ => (bool_decide (resolve (alias_of S) alias = resolve (alias_of S) id), S)
      | Some _, None =>
          (true, {| programs := programs S; alias_of := <[alias := resolve (alias_of S) id]> (alias_of S);
                    room := room S; releases := releases S; gone := gone S |})
      end
  | Remove id =>
      match programs S !! resolve (alias_of S) id with
      | None => (true, S)
      | Some s =>
          (true, {| programs := delete (resolve (alias_of S) id) (programs S);
                    alias_of := aliases_without (resolve (alias_of S) id) (alias_of S);
                    room := room S + 1; releases := releases S;
                    gone := gone S ++ if releases S then option_list (data (public s)) else [] |})
      end
  | UpdateTime id now =>
      if is_id_valid (Some id) && negb (bool_decide (spec_get S id = None))
      then (true, {| programs := alter (fun s => {| public := public s; start_time_epoch_usecs := now |})
                                   (resolve (alias_of S) id) (programs S);
                     alias_of := alias_of S; room := room S; releases := releases S; gone := gone S |})
      else (false, S)
  end.
Definition run_op (db : ov_vm_prog_db) (op : db_op) : option (bool * ov_vm_prog_db) :=
  match op with
  | Insert id instr d now =>
      '(p, db) ← ov_vm_prog_db_insert db (Some id) (Some instr) d now;
      Some (match p with Some _ => true | None => false end, db)
  | Alias id alias => ov_vm_prog_db_alias db (Some id) (Some alias)
  | Remove id => ov_vm_prog_db_remove db (Some id)
  | UpdateTime id now => ov_vm_prog_db_update_time db (Some id) now
  end.

Definition db_refines (db : ov_vm_prog_db) (S : db_spec) : Prop :=
  exists idx, db_inv db idx (alias_of S) /\ progs_of db idx = programs S /\
    topmost_usable_slot_index db = room S /\ release_set db = releases S /\ released db = gone S.

Section Refine.
Context (db : ov_vm_prog_db) (idx : gmap string nat) (A : gmap string string) (I : db_inv db idx A).

Lemma progs_of_None id : progs_of db idx !! id = None <-> idx !! id = None.
Proof using I.
  rewrite lookup_progs_of. destruct (idx !! id) as [i|] eqn:E; [|done]. simpl.
  destruct (inv_prog _ _ _ I _ _ E) as (_ & s & Hs & _). by rewrite Hs.
Qed.
Lemma progs_of_Some id s :
  progs_of db idx !! id = Some s <-> exists i, idx !! id = Some i /\ pool_states db !! i = Some s.
Proof using Type. rewrite lookup_progs_of, bind_Some. done. Qed.
Lemma progs_of_insert db' id i s :
  idx !! id = None -> (forall x, idx !! x <> Some i) -> (i < length (pool_states db))%nat ->
  pool_states db' = <[i := s]> (pool_states db) ->
  progs_of db' (<[id := i]> idx) = <[id := s]> (progs_of db idx).
Proof using Type.
  intros Hn Hf Hl E. apply map_eq. intros x. rewrite lookup_progs_of, E.
  destruct (decide (x = id)) as [->|Hx].
  - rewrite !lookup_insert_eq. simpl. by apply list_lookup_insert_eq.
  - rewrite !lookup_insert_ne, lookup_progs_of by done. destruct (idx !! x) as [j|] eqn:Ej; [|done]. simpl.
    apply list_lookup_insert_ne. intros <-. by apply (Hf x).
Qed.
Lemma progs_of_delete db' id i f :
  idx !! id = Some i -> pool_states db' = alter f i (pool_states db) ->
  progs_of db' (delete id idx) = delete id (progs_of db idx).
Proof using I.
  intros Hi E. apply map_eq. intros x. rewrite lookup_progs_of, E. destruct (decide (x = id)) as [->|Hx].
  - by rewrite !lookup_delete_eq.
  - rewrite !lookup_delete_ne, lookup_progs_of by done. destruct (idx !! x) as [j|] eqn:Ej; [|done]. simpl.
    apply list_lookup_alter_ne. intros <-. apply Hx. by eapply (prog_unique db idx A I).
Qed.
Lemma progs_of_pool db' : pool_states db' = pool_states db -> progs_of db' idx = progs_of db idx.
Proof using Type. unfold progs_of. by intros ->. Qed.
End Refine.

Lemma spec_get_idx db idx S id :
  db_inv db idx (alias_of S) -> progs_of db idx = programs S ->
  spec_get S id = registered idx (alias_of S) id ≫= fun i => pool_states db !! i.
Proof.
  intros I E. unfold spec_get, registered. destruct (is_id_valid (Some id)); [|done].
  by rewrite <- E, lookup_progs_of.
Qed.
Lemma registered_pool db idx A id i :
  db_inv db idx A -> registered idx A id = Some i -> exists s, pool_states db !! i = Some s /\ idx !! resolve A id = Some i.
Proof.
  intros I. unfold registered. destruct (is_id_valid (Some id)); [|done]. intros E.
  destruct (inv_prog _ _ _ I _ _ E) as (_ & s & Hs & _). by exists s.
Qed.
Lemma spec_get_None db idx S id :
  db_inv db idx (alias_of S) -> progs_of db idx = programs S ->
  spec_get S id = None <-> registered idx (alias_of S) id = None.
Proof.
  intros I E. rewrite (spec_get_idx db idx) by done. destruct (registered _ _ _) as [i|] eqn:Er; [|done]. simpl.
  destruct (registered_pool _ _ _ _ _ I Er) as (s & -> & _). done.
Qed.

Section Steps.
Context (db : ov_vm_prog_db) (S : db_spec) (idx : gmap string nat).
Context (I : db_inv db idx (alias_of S)) (E : progs_of db idx = programs S).
Context (Et : topmost_usable_slot_index db = room S) (Er : release_set db = releases S) (Eg : released db = gone S).

Lemma programs_idx id : programs S !! id = idx !! id ≫= fun i => pool_states db !! i.
Proof using E. by rewrite <- E, lookup_progs_of. Qed.
Lemma refines_self : db_refines db S.
Proof using All. by exists idx. Qed.

Lemma insert_accepted id instr d now : accepts S id = true -> exists i db' idx',
  ov_vm_prog_db_insert db (Some id) (Some instr) d now = Some (Some i, db') /\ idx' !! id = Some i /\
  db_inv db' idx' (alias_of S) /\ progs_of db' idx' = <[id := fresh_program id instr d now]> (programs S) /\
  topmost_usable_slot_index db' = room S - 1 /\ release_set db' = releases S /\ released db' = gone S.
Proof using All.
  unfold accepts. intros [[Hv Hn]%andb_true_iff Hr%Z.ltb_lt]%andb_true_iff. apply bool_decide_eq_true in Hn.
  apply (spec_get_None db idx) in Hn; [|done..]. unfold registered in Hn. rewrite Hv in Hn.
  destruct (db_insert_spec db idx _ I id instr d now Hv Hn ltac:(by rewrite Et)) as
    (i & s & db' & -> & Hs & Hf & Hp & I' & Hid & Hrel & Hset).
  exists i, db', (<[id := i]> idx). split; [done|]. split; [apply lookup_insert_eq|]. split; [done|]. split; [|split].
  - rewrite <- E. rewrite (progs_of_insert db idx db' id i (new_prog s id instr d now));
      [|done..|by eapply lookup_lt_Some|done].
    f_equal. unfold new_prog, fresh_program, init_prog_state_unsafe. cbn.
    unfold ov_vm_prog_id_set, ov_vm_prog_reset_prog_started. cbn. f_equal. f_equal.
    apply substring_all. by apply valid_length.
  - pose proof (inv_count _ _ _ I) as [_ H1]. pose proof (inv_count _ _ _ I') as [_ H2].
    rewrite map_size_insert_None in H2 by done. rewrite Hp in H2. unfold Zlen in *. rewrite length_insert in H2. lia.
  - by rewrite Hset, Hrel.
Qed.
Lemma insert_not_accepted id instr d now : accepts S id = false ->
  ov_vm_prog_db_insert db (Some id) (Some instr) d now = Some (None, db).
Proof using All.
  assert (Hg := spec_get_None db idx S id I E). unfold registered in Hg.
  unfold accepts. intros C. apply (db_insert_refused db idx _ I).
  apply andb_false_iff in C as [[C|C]%andb_false_iff|C%Z.ltb_ge]; [by left| |].
  - apply bool_decide_eq_false in C. rewrite Hg in C. destruct (is_id_valid (Some id)); [|by left].
    right; left. by apply not_eq_None_Some.
  - right; right. pose proof (inv_count _ _ _ I) as [H0 _]. lia.
Qed.
Lemma refines_insert id instr d now : exists db',
  run_op db (Insert id instr d now) = Some ((spec_op S (Insert id instr d now)).1, db') /\
  db_refines db' (spec_op S (Insert id instr d now)).2.
Proof using All.
  cbn [run_op spec_op]. destruct (accepts S id) eqn:C.
  - destruct (insert_accepted id instr d now C) as (i & db' & idx' & -> & _ & I' & Hp & Ht & Hset & Hrel).
    exists db'. split; [done|]. by exists idx'.
  - exists db. split; [by rewrite insert_not_accepted|apply refines_self].
Qed.

Lemma refines_alias id alias : exists db',
  run_op db (Alias id alias) = Some ((spec_op S (Alias id alias)).1, db') /\
  db_refines db' (spec_op S (Alias id alias)).2.
Proof using All.
  cbn [run_op spec_op]. rewrite programs_idx, (spec_get_idx db idx) by done.
  destruct (idx !! resolve (alias_of S) id) as [i|] eqn:Ei; cbn [mbind option_bind].
  2:{ exists db. rewrite (db_alias_spec db idx _ I), Ei. split; [done|apply refines_self]. }
  destruct (inv_prog _ _ _ I _ _ Ei) as (_ & s & -> & _).
  destruct (registered idx (alias_of S) alias) as [j|] eqn:Ej; cbn [mbind option_bind].
  - destruct (registered_pool _ _ _ _ _ I Ej) as (s' & -> & Hj).
    exists db. rewrite (db_alias_spec db idx _ I), Ei, Ej. split; [|apply refines_self]. do 2 f_equal.
    destruct (Nat.eqb_spec i j) as [<-|Hne]; symmetry.
    + apply bool_decide_eq_true. by eapply (prog_unique db idx _ I).
    + apply bool_decide_eq_false. intros H. rewrite H in Hj. congruence.
  - destruct (db_alias_set db idx _ I id alias i Ei Ej) as (db' & -> & I' & Hp & Hrel & Hset).
    exists db'. split; [done|]. exists idx. cbn [fst snd programs alias_of room releases gone].
    split; [done|]. split; [|split].
    + rewrite <- E. by apply progs_of_pool.
    + pose proof (inv_count _ _ _ I) as [_ H1]. pose proof (inv_count _ _ _ I') as [_ H2]. rewrite Hp in H2. lia.
    + by rewrite Hset, Hrel.
Qed.

Lemma refines_remove id : removable (alias_of S) id = true -> exists db',
  run_op db (Remove id) = Some ((spec_op S (Remove id)).1, db') /\ db_refines db' (spec_op S (Remove id)).2.
Proof using All.
  intros Hrm. cbn [run_op spec_op]. rewrite programs_idx.
  destruct (idx !! resolve (alias_of S) id) as [i|] eqn:Ei; cbn [mbind option_bind].
  - destruct (inv_prog _ _ _ I _ _ Ei) as (_ & s & Hs & _). rewrite Hs.
    destruct (db_remove_spec db idx _ I id i s Ei Hs Hrm) as (db' & -> & I' & Hp & Hset & Hrel).
    exists db'. split; [done|]. exists (delete (resolve (alias_of S) id) idx).
    cbn [fst snd programs alias_of room releases gone]. split; [done|]. split; [|split].
    + rewrite <- E. by apply (progs_of_delete db idx _ I) with i cleared.
    + pose proof (inv_count _ _ _ I) as [_ H1]. pose proof (inv_count _ _ _ I') as [_ H2].
      rewrite map_size_delete_Some in H2 by by eexists. rewrite Hp in H2. unfold Zlen in *. rewrite length_alter in H2.
      assert (size idx <> 0)%nat by (apply map_size_ne_0_lookup; by eexists _, i). lia.
    + rewrite Hset, Hrel, Er, Eg. done.
  - destruct (db_remove_absent db idx _ I id Ei) as (db' & -> & I' & Hp & Hrel & Hset).
    exists db'. split; [done|]. exists idx. cbn [snd]. split; [done|]. split; [|split].
    + rewrite <- E. by apply progs_of_pool.
    + pose proof (inv_count _ _ _ I) as [_ H1]. pose proof (inv_count _ _ _ I') as [_ H2]. rewrite Hp in H2. cbn. lia.
    + by rewrite Hset, Hrel.
Qed.

Lemma refines_update_time id now : exists db',
  run_op db (UpdateTime id now) = Some ((spec_op S (UpdateTime id now)).1, db') /\
  db_refines db' (spec_op S (UpdateTime id now)).2.
Proof using All.
  cbn [run_op spec_op]. assert (Hg := spec_get_None db idx S id I E). unfold registered in Hg.
  destruct (is_id_valid (Some id)) eqn:Hv; cbn [andb].
  - destruct (idx !! resolve (alias_of S) id) as [i|] eqn:Ei.
    + rewrite bool_decide_eq_false_2 by (rewrite Hg; done). cbn [negb].
      destruct (db_update_time_spec db idx _ I id i now Hv Ei) as (db' & -> & I' & Hp & Htop & Hset & Hrel).
      exists db'. split; [done|]. exists idx. cbn [fst snd programs alias_of room releases gone].
      split; [done|]. split; [by rewrite Hp, E|].
      by rewrite Htop, Hset, Hrel.
    + rewrite bool_decide_eq_true_2 by by rewrite Hg. exists db. split; [|apply refines_self].
      unfold ov_vm_prog_db_update_time. rewrite (prog_for_id_spec db idx _ I), Ei. done.
  - exists db. split; [|apply refines_self]. unfold ov_vm_prog_db_update_time.
    rewrite (prog_for_id_spec db idx _ I). cbn [mbind option_bind]. rewrite Hv. by destruct (idx !! _).
Qed.
End Steps.

(** ** The property *)

Fixpoint run_ops (db : ov_vm_prog_db) (ops : list db_op) : option (list bool * ov_vm_prog_db) :=
  match ops with
  | [] => Some ([], db)
  | op :: ops => '(r, db) ← run_op db op; '(rs, db) ← run_ops db ops; Some (r :: rs, db)
  end.
Fixpoint spec_ops (sp : db_spec) (ops : list db_op) : list bool * db_spec :=
  match ops with
  | [] => ([], sp)
  | op :: ops => let '(r, sp) := spec_op sp op in let '(rs, sp) := spec_ops sp ops in (r :: rs, sp)
  end.
Definition spec_create (slots : Z) (release : bool) : db_spec :=
  {| programs := ∅; alias_of := ∅; room := slots; releases := release; gone := [] |}.

(** The sequences that stay defined: see [removable]. *)
Definition op_defined (sp : db_spec) (op : db_op) : bool :=
  match op with Remove id => removable (alias_of sp) id | _ => true end.
Fixpoint ops_defined (sp : db_spec) (ops : list db_op) : bool :=
  match ops with
  | [] => true
  | op :: ops => op_defined sp op && ops_defined (spec_op sp op).2 ops
  end.

Lemma refines_op db S op : db_refines db S -> op_defined S op = true -> exists db',
  run_op db op = Some ((spec_op S op).1, db') /\ db_refines db' (spec_op S op).2.
Proof.
  intros (idx & I & E & Et & Er & Eg) Hd. destruct op.
  - by eapply refines_insert.
  - by eapply refines_alias.
  - by eapply refines_remove.
  - by eapply refines_update_time.
Qed.
Lemma refines_ops db S ops : db_refines db S -> ops_defined S ops = true -> exists db',
  run_ops db ops = Some ((spec_ops S ops).1, db') /\ db_refines db' (spec_ops S ops).2.
Proof.
  revert db S. induction ops as [|op ops IH]; intros db S R Hd; [by exists db|].
  cbn [ops_defined] in Hd. apply andb_true_iff in Hd as [Hop Hd].
  destruct (refines_op db S op R Hop) as (db1 & E1 & R1). destruct (IH db1 _ R1 Hd) as (db2 & E2 & R2).
  exists db2. cbn [run_ops spec_ops]. rewrite E1. cbn [mbind option_bind]. rewrite E2. cbn [mbind option_bind].
  destruct (spec_op S op) as [r S1]. cbn [snd fst] in *. by destruct (spec_ops S1 ops).
Qed.
Lemma refines_get db S id : db_refines db S -> exists p,
  ov_vm_prog_db_get db (Some id) = Some p /\ (p ≫= fun i => pool_states db !! i) = spec_get S id.
Proof.
  intros (idx & I & E & _). rewrite (db_get_spec db idx _ I). eexists. split; [done|].
  by rewrite (spec_get_idx db idx S id I E).
Qed.
Lemma refines_next_due db S limit : db_refines db S -> limit < 2 ^ 64 ->
  match ov_vm_prog_db_next_due db limit with
  | Some id => exists s, programs S !! id = Some s /\ start_time_epoch_usecs s < limit
  | None => forall id s, programs S !! id = Some s -> limit <= start_time_epoch_usecs s
  end.
Proof. intros (idx & I & E & _) Hl. rewrite <- E. by apply (db_next_due_spec db idx _ I). Qed.

(** C11: a database of [slots] programs (64 when 0 is asked for; the count must
    not be a multiple of 256, see [db_create_asserts]) stays inside of its arrays
    and behaves as a map of programs with a map of aliases, over every sequence
    of operations in which a program is removed only while it has at most five
    aliases, and by an alias only when that is its only one ([ops_defined]; the
    code reads a sixth entry of an array of five, or a freed id, otherwise: see
    [six_aliases_undefined] and [freed_id_undefined]). An insert succeeds exactly
    when the id is valid, free - also as an alias - and there is room; an alias
    resolves to the id it was set for; a removal takes the program and all of its
    aliases out and hands its data to [release_data] exactly once; what is looked
    up is what was stored, and [next_due] finds a program older than the limit
    exactly when there is one. *)
Theorem vm_prog_db_refines slots release ops :
  let n := if 0 =? slots then DEFAULT_NUMBER_SLOTS else slots in
  0 <= slots -> u8 n <> 0 -> ops_defined (spec_create n release) ops = true -> exists db0 db,
    let S := (spec_ops (spec_create n release) ops).2 in
    ov_vm_prog_db_create slots release = Some db0 /\
    run_ops db0 ops = Some ((spec_ops (spec_create n release) ops).1, db) /\
    released db = gone S /\
    (forall id, exists p, ov_vm_prog_db_get db (Some id) = Some p /\
       (p ≫= fun i => pool_states db !! i) = spec_get S id) /\
    (forall limit, limit < 2 ^ 64 ->
       match ov_vm_prog_db_next_due db limit with
       | Some id => exists s, programs S !! id = Some s /\ start_time_epoch_usecs s < limit
       | None => forall id s, programs S !! id = Some s -> limit <= start_time_epoch_usecs s
       end).
Proof.
  intros n H0 Hn Hd. destruct (db_create_spec slots release H0 Hn) as (db0 & Hc & I & _ & Ht & Hset & Hrel).
  assert (R : db_refines db0 (spec_create n release)) by (exists ∅; split; [done|split; [apply omap_empty|done]]).
  destruct (refines_ops db0 _ ops R Hd) as (db & Hrun & R'). exists db0, db. split; [done|]. split; [done|].
  split; [by destruct R' as (idx & _ & _ & _ & _ & ?)|]. split; intros.
  - by apply refines_get.
  - by apply refines_next_due.
Qed.
Definition example_ops : list db_op :=
  [Insert "a" [] (Some 7) 10; Alias "a" "b"; Insert "b" [] None 11; Insert "c" [] None 12; UpdateTime "b" 20;
   Remove "b"; Alias "a" "z"; Insert "a" [] (Some 8) 30; Alias "a" "x"; Alias "x" "y"; Remove "a"]%string.
Lemma vm_prog_db_refines_witness :
  u8 2 <> 0 /\ ops_defined (spec_create 2 true) example_ops = true /\
  (spec_ops (spec_create 2 true) example_ops).1 =
    [true; true; false; true; true; true; false; true; true; true; true] /\
  exists db0 db, ov_vm_prog_db_create 2 true = Some db0 /\
    run_ops db0 example_ops =
      Some ([true; true; false; true; true; true; false; true; true; true; true], db) /\ released db = [7; 8].
Proof.
  split; [by vm_compute|]. split; [by vm_compute|]. split; [by vm_compute|].
  destruct (vm_prog_db_refines 2 true example_ops) as (db0 & db & H1 & H2 & H3 & _); [lia|by vm_compute..|].
  exists db0, db. split; [exact H1|]. split; [rewrite H2|rewrite H3]; by vm_compute.
Defined.

(** Operations on a new database, and whether they are defined. *)
Definition run_new (ops : list db_op) : option (list bool) :=
  db ← ov_vm_prog_db_create 2 true; '(r, _) ← run_ops db ops; Some r.
Definition five_aliases : list db_op :=
  Insert "a" [] None 10 :: (Alias "a" <$> ["p"; "q"; "r"; "s"; "t"])%string.
(** A program with five aliases is removed by its id; with six, the loop reads
    and may write behind its array. *)
Lemma six_aliases_undefined :
  run_new (five_aliases ++ [Remove "a"]) = Some (replicate 7 true) /\
  run_new (five_aliases ++ [Alias "a" "u"; Remove "a"]) = None.
Proof. by vm_compute. Qed.
(** Removed by the first of its two aliases, the id is logged after its free. *)
Lemma freed_id_undefined :
  run_new [Insert "a" [] None 10; Alias "a" "p"; Alias "a" "q"; Remove "p"] = None /\
  run_new [Insert "a" [] None 10; Alias "a" "p"; Alias "a" "q"; Remove "q"] = Some (replicate 4 true).
Proof. by vm_compute. Qed.
