(* ===== verification/Vm.v ===== *)
(** * The virtual machine (src/lib/ov_vm/src/ov_vm.c)

    Programs are sequences of instructions; every opcode has a handler and an
    inverse handler which the client registers. A handler is a pointer, [H] the
    type of the client's, and what a client's handler does is the parameter
    [client]: it may change the whole machine. [W] is the state of the client
    outside of the machine. The notifications of the client are recorded in
    [events], as are the calls of handlers with their answers. A program is its
    index in the pool of the database; the machine itself is never [NULL] here.

    The loop of [execute] runs on fuel: [OutOfFuel] is told from [Undefined],
    behaviour the C standard leaves undefined or a failing assertion. The timer
    of the event loop is not modelled, only what its callback does; nor are the
    conversions of the timeout to floating point (the getter and the setter). *)
From S2P Require Import Prelude Hashtable VmProg VmProgDb.

(** ** The code *)

Inductive outcome (A : Type) := Ok (a : A) | Undefined | OutOfFuel.
Arguments Ok {A} a.
Arguments Undefined {A}.
Arguments OutOfFuel {A}.
#[global] Instance outcome_bind : MBind outcome := fun _ _ f m =>
  match m with Ok a => f a | Undefined => Undefined | OutOfFuel => OutOfFuel end.
Definition defined {A} (o : option A) : outcome A := match o with Some a => Ok a | None => Undefined end.

Definition UINT8_MAX : nat := 255.
Definition OV_DEFAULT_VM_TIMER_INTERVAL_USECS : Z := 1 * 1000 * 1000.

Inductive ov_vm_exec_result := OV_EXEC_OK | OV_EXEC_TRIGGER_FAIL | OV_EXEC_ERROR | OV_EXEC_WAIT.

(** The pointers to handlers: those of the file and the client's. *)
Inductive ov_vm_opcode_handler (H : Type) :=
  | end_handler | nop_handler | invalid_handler | inv_handler_dummy | client_handler (h : H).
Arguments end_handler {H}.
Arguments nop_handler {H}.
Arguments invalid_handler {H}.
Arguments inv_handler_dummy {H}.
Arguments client_handler {H} h.

Record OpcodeDef (H : Type) := {
  symbol : option string;
  handler : option (ov_vm_opcode_handler H);
  inv_handler : option (ov_vm_opcode_handler H)
}.
Arguments symbol {H} o.
Arguments handler {H} o.
Arguments inv_handler {H} o.

Inductive notification := program_done | program_aborted | program_failed_to_abort.
Inductive event (H : Type) :=
  | Called (h : ov_vm_opcode_handler H) (instr : ov_vm_instr) (answer : ov_vm_retval)
  | Notified (n : notification) (id : string).
Arguments Called {H} h instr answer.
Arguments Notified {H} n id.

Record ov_vm (H W : Type) := {
  opcode_defs : list (OpcodeDef H);
  db : ov_vm_prog_db;
  program_timeout_usecs : Z;
  notifier : notification -> bool;
  events : list (event H);
  world : W
}.
Arguments opcode_defs {H W} o.
Arguments db {H W} o.
Arguments program_timeout_usecs {H W} o.
Arguments notifier {H W} o.
Arguments events {H W} o.
Arguments world {H W} o.

Section Vm.
Context {H W : Type}.
Abbreviation vm_t := (ov_vm H W).
Abbreviation handler_t := (ov_vm_opcode_handler H).
Context (client : H -> vm_t -> nat -> option (ov_vm_retval * vm_t)).

Definition set_db (vm : vm_t) (d : ov_vm_prog_db) : vm_t :=
  {| opcode_defs := opcode_defs vm; db := d; program_timeout_usecs := program_timeout_usecs vm;
     notifier := notifier vm; events := events vm; world := world vm |}.
Definition record (vm : vm_t) (e : event H) : vm_t :=
  {| opcode_defs := opcode_defs vm; db := db vm; program_timeout_usecs := program_timeout_usecs vm;
     notifier := notifier vm; events := events vm ++ [e]; world := world vm |}.
Definition set_opcodes (vm : vm_t) (t : list (OpcodeDef H)) : vm_t :=
  {| opcode_defs := t; db := db vm; program_timeout_usecs := program_timeout_usecs vm;
     notifier := notifier vm; events := events vm; world := world vm |}.

(** Reading and writing through a [ov_vm_prog *] of the pool. *)
Definition prog_at (vm : vm_t) (prog : nat) : option ov_vm_prog := public <$> pool_states (db vm) !! prog.
Definition write_prog (vm : vm_t) (prog : nat) (f : ov_vm_prog -> ov_vm_prog) : vm_t :=
  set_db vm (update_state (db vm) prog (fun s =>
  {| public := f (public s); start_time_epoch_usecs := start_time_epoch_usecs s |})).

Definition prog_for_id (self : vm_t) (id : option string) : option (option nat) :=
  ov_vm_prog_db_get (db self) id.

(** *** Opcodes *)

Definition no_opcode : OpcodeDef H := {| symbol := None; handler := None; inv_handler := None |}.
(** [None] when an assertion fails. *)
Definition ov_vm_create (max_requests default_program_timeout_msecs : Z) (release_set : bool)
    (notify : notification -> bool) (w : W) : option vm_t :=
  d ← ov_vm_prog_db_create max_requests release_set;
  let timeout_msecs := if 0 =? default_program_timeout_msecs
                       then OV_DEFAULT_VM_TIMER_INTERVAL_USECS / 1000 else default_program_timeout_msecs in
  Some {| opcode_defs :=
            <[Z.to_nat OP_INVALID := {| symbol := Some "INVALID"%string; handler := Some invalid_handler; inv_handler := None |}]>
            (<[Z.to_nat OP_NOP := {| symbol := Some "NOP"%string; handler := Some nop_handler; inv_handler := None |}]>
            (<[Z.to_nat OP_END := {| symbol := Some "END"%string; handler := Some end_handler; inv_handler := None |}]>
            (replicate UINT8_MAX no_opcode)));
          db := d; program_timeout_usecs := u64 (1000 * timeout_msecs); notifier := notify;
          events := []; world := w |}.
Definition ov_vm_free (self : vm_t) : list Z := ov_vm_prog_db_free (db self).

Definition opcodedef (vm : vm_t) (oc : Z) : option (OpcodeDef H) :=
  if Z.of_nat UINT8_MAX <=? oc then None else opcode_defs vm !! Z.to_nat oc.
Definition sanitize_inv_handler (h : option handler_t) : handler_t :=
  match h with None => inv_handler_dummy | Some h => h end.
Definition ov_vm_register (self : vm_t) (opcode : Z) (symbol : option string)
    (handler inv_handler : option handler_t) : bool * vm_t :=
  let inv_handler := sanitize_inv_handler inv_handler in
  match opcodedef self opcode with
  | None => (false, self)
  | Some _ =>
      if (OP_END =? opcode) || (OP_NOP =? opcode) then (false, self) else
      match symbol, handler with
      | Some _, Some _ =>
          (true, set_opcodes self (<[Z.to_nat opcode :=
             {| symbol := symbol; handler := handler; inv_handler := Some inv_handler |}]> (opcode_defs self)))
      | _, _ => (false, self)
      end
  end.

(** A read outside of the table is undefined: the outer [None]. *)
Definition get_opcode_def (self : vm_t) (opcode : Z) : option (option (OpcodeDef H)) :=
  if OP_INVALID =? opcode then Some None else
  def ← opcode_defs self !! Z.to_nat opcode; Some (Some def).
Definition handler_from_opcode_def (def : OpcodeDef H) : option handler_t := handler def.
Definition inverse_handler_from_opcode_def (def : OpcodeDef H) : option handler_t := inv_handler def.
Definition get_handler_from_opcode_def (def : OpcodeDef H) (prog_state : ov_vm_prog_status) : option handler_t :=
  match prog_state with
  | OV_VM_PROG_OK => handler_from_opcode_def def
  | OV_VM_PROG_ABORTING => inverse_handler_from_opcode_def def
  | OV_VM_PROG_FAILED_TO_ABORT => None
  | OV_VM_PROG_INVALID => None
  end.
Definition get_handler_for_current_instr (self : vm_t) (prog : nat) : option (option handler_t) :=
  p ← prog_at self prog;
  instr ← ov_vm_prog_current_instr (Some p);
  def ← get_opcode_def self (opcode instr);
  match def with
  | None => Some None
  | Some def => Some (get_handler_from_opcode_def def (state p))
  end.
Definition call_handler (h : handler_t) (vm : vm_t) (prog : nat) : option (ov_vm_retval * vm_t) :=
  match h with
  | end_handler => Some (OC_FINISHED, vm)
  | nop_handler => Some (OC_NEXT, vm)
  | invalid_handler => Some (OC_ERROR, vm)
  | inv_handler_dummy => Some (OC_NEXT, vm)
  | client_handler h => client h vm prog
  end.
Definition execute_current_instruction (self : vm_t) (prog : nat) : option (ov_vm_retval * vm_t) :=
  h ← get_handler_for_current_instr self prog;
  match h with
  | None => Some (OC_ERROR, self)
  | Some h =>
      p ← prog_at self prog;
      instr ← ov_vm_prog_current_instr (Some p);
      '(r, vm) ← call_handler h self prog;
      Some (r, record vm (Called h instr r))
  end.

(** *** The end of a program *)

Definition notify (n : notification) (self : vm_t) (prog : ov_vm_prog) : vm_t :=
  if notifier self n then record self (Notified n (prog_id prog)) else self.
Definition notify_program_failed_to_abort := notify program_failed_to_abort.
Definition notify_program_aborted := notify program_aborted.
Definition notify_program_done := notify program_done.

Definition release_program (self : vm_t) (prog : nat) : option vm_t :=
  p ← prog_at self prog;
  let notified := match state p with
                  | OV_VM_PROG_FAILED_TO_ABORT => Some (notify_program_failed_to_abort self p)
                  | OV_VM_PROG_ABORTING => Some (notify_program_aborted self p)
                  | OV_VM_PROG_OK => Some (notify_program_done self p)
                  | OV_VM_PROG_INVALID => None
                  end in
  match notified with
  | None => Some self
  | Some vm =>
      p ← prog_at vm prog;
      '(_, d) ← ov_vm_prog_db_remove (db vm) (Some (prog_id p));
      Some (set_db vm d)
  end.

(** [execute] is the argument that stands for the recursive call. *)
Definition abort_program_with (execute : vm_t -> nat -> outcome (ov_vm_exec_result * vm_t))
    (self : vm_t) (prog : nat) (finish_current_step : bool) : outcome vm_t :=
  p ← defined (prog_at self prog);
  match state p with
  | OV_VM_PROG_ABORTING =>
      let vm := write_prog self prog (fun p => ov_vm_prog_state_set p OV_VM_PROG_FAILED_TO_ABORT) in
      defined (release_program vm prog)
  | OV_VM_PROG_OK =>
      let vm := write_prog self prog (fun p => ov_vm_prog_state_set p OV_VM_PROG_ABORTING) in
      let vm := if negb finish_current_step && bool_decide (last_instr_retval p = OC_WAIT_AND_NEXT)
                then write_prog vm prog ov_vm_prog_propagate_program_counter else vm in
      let vm := write_prog vm prog ov_vm_prog_propagate_program_counter in
      '(_, vm) ← execute vm prog;
      Ok vm
  | OV_VM_PROG_FAILED_TO_ABORT => Undefined
  | OV_VM_PROG_INVALID => Ok self
  end.

(** *** The loop *)

Definition is_prog_valid (p : ov_vm_prog) : bool := negb (bool_decide (state p = OV_VM_PROG_INVALID)).
(** [execute] with its recursive call, through [abort_program], as an argument. *)
Definition execute_with (loop : vm_t -> nat -> outcome (ov_vm_exec_result * vm_t))
    (self : vm_t) (prog : nat) : outcome (ov_vm_exec_result * vm_t) :=
  p ← defined (prog_at self prog);
  if negb (is_prog_valid p) then Ok (OV_EXEC_ERROR, self) else loop self prog.
(** The end of the loop's body: [while (-1 < program_counter)]. *)
Definition loop_end (loop : vm_t -> nat -> outcome (ov_vm_exec_result * vm_t))
    (self : vm_t) (prog : nat) : outcome (ov_vm_exec_result * vm_t) :=
  p ← defined (prog_at self prog);
  if -1 <? ov_vm_prog_program_counter (Some p) then loop self prog else
  vm ← defined (release_program self prog);
  Ok (OV_EXEC_ERROR, vm).
Fixpoint execute_loop (fuel : nat) (self : vm_t) (prog : nat) : outcome (ov_vm_exec_result * vm_t) :=
  match fuel with
  | O => OutOfFuel
  | S fuel =>
      '(retval, vm) ← defined (execute_current_instruction self prog);
      let vm := write_prog vm prog (fun p => ov_vm_prog_set_last_instr_retval p retval) in
      let aborting vm := p ← defined (prog_at vm prog); Ok (bool_decide (state p = OV_VM_PROG_ABORTING)) in
      match retval with
      | OC_ERROR =>
          vm ← abort_program_with (execute_with (execute_loop fuel)) vm prog false;
          Ok (OV_EXEC_ERROR, vm)
      | OC_NEXT => loop_end (execute_loop fuel) (write_prog vm prog ov_vm_prog_propagate_program_counter) prog
      | OC_WAIT_AND_NEXT =>
          let vm := write_prog vm prog ov_vm_prog_propagate_program_counter in
          ab ← aborting vm;
          if (ab : bool) then loop_end (execute_loop fuel) vm prog else Ok (OV_EXEC_WAIT, vm)
      | OC_WAIT_AND_REPEAT =>
          ab ← aborting vm;
          if (ab : bool) then loop_end (execute_loop fuel) vm prog else Ok (OV_EXEC_WAIT, vm)
      | OC_FINISHED =>
          vm ← defined (release_program vm prog);
          Ok (OV_EXEC_OK, vm)
      end
  end.
Definition execute (fuel : nat) : vm_t -> nat -> outcome (ov_vm_exec_result * vm_t) :=
  execute_with (execute_loop fuel).
Definition abort_program (fuel : nat) (self : vm_t) (prog : option nat) : outcome vm_t :=
  match prog with
  | None => Ok self
  | Some prog => abort_program_with (execute fuel) self prog false
  end.

(** *** The interface *)

Definition execute_prog (fuel : nat) (self : vm_t) (prog : option nat) : outcome (ov_vm_exec_result * vm_t) :=
  match prog with
  | None => Ok (OV_EXEC_TRIGGER_FAIL, self)
  | Some prog => execute fuel self prog
  end.
Definition ov_vm_trigger (fuel : nat) (self : vm_t) (instructions : option (list ov_vm_instr))
    (id : option string) (data : option Z) (now : Z) : outcome (ov_vm_exec_result * vm_t) :=
  match instructions, id with
  | Some _, Some _ =>
      '(prog, d) ← defined (ov_vm_prog_db_insert (db self) id instructions data now);
      execute_prog fuel (set_db self d) prog
  | _, _ => Ok (OV_EXEC_TRIGGER_FAIL, self)
  end.
Definition ov_vm_continue (fuel : nat) (self : vm_t) (id : option string) : outcome (ov_vm_exec_result * vm_t) :=
  prog ← defined (prog_for_id self id);
  match prog with
  | None => Ok (OV_EXEC_ERROR, self)
  | Some prog => execute fuel self prog
  end.
Definition ov_vm_abort_with (fuel : nat) (self : vm_t) (id : option string) (finish_current_step : bool)
    : outcome (bool * vm_t) :=
  prog ← defined (prog_for_id self id);
  match prog with
  | None => Ok (false, self)
  | Some prog =>
      vm ← abort_program_with (execute fuel) self prog finish_current_step;
      Ok (true, vm)
  end.
Definition ov_vm_alias (self : vm_t) (prog : option ov_vm_prog) (new_id : option string) : option (bool * vm_t) :=
  '(r, d) ← ov_vm_prog_db_alias (db self) (Some (ov_vm_prog_id prog)) new_id;
  Some (r, set_db self d).
Definition ov_vm_data_for (self : vm_t) (id : option string) : option (option Z) :=
  match id with
  | None => Some None
  | Some _ =>
      prog ← ov_vm_prog_db_get (db self) id;
      Some (ov_vm_prog_data (i ← prog; prog_at self i))
  end.

Definition ov_vm_for_each_program {A} (self : vm_t)
    (process : option (string -> ov_vm_prog -> Z -> A -> bool * A)) (arg : A) : bool * A :=
  ov_vm_prog_db_for_each (db self) process arg.

(** *** The prune timer *)

Fixpoint prune_loop (max_no_to_prune fuel : nat) (self : vm_t) (now_usecs : Z) : outcome vm_t :=
  match ov_vm_prog_db_next_due (db self) now_usecs, max_no_to_prune with
  | Some id, S n =>
      prog ← defined (ov_vm_prog_db_get (db self) (Some id));
      vm ← abort_program fuel self prog;
      prune_loop n fuel vm now_usecs
  | _, _ => Ok self
  end.
Definition prune_overdue_requests (fuel : nat) (self : vm_t) (timeout_usecs : Z) (max_no_to_prune : nat) (now : Z)
    : outcome vm_t :=
  prune_loop max_no_to_prune fuel self (u64 (now - timeout_usecs)).
Definition timer_callback (fuel : nat) (self : vm_t) (now : Z) : outcome (bool * vm_t) :=
  vm ← prune_overdue_requests fuel self (program_timeout_usecs self) 5 now;
  Ok (true, vm).
End Vm.
