(* ===== verification/VmRun.v ===== *)
(** * Runs of the virtual machine

    What a program of the machine (Vm) does, as two relations on the calls of
    handlers and their answers: [runs] for the way forward and [unwinds] for the
    way back. The theorems show that the loop of [execute] ends and follows them,
    whatever the answers of the client's handlers are, as long as these leave the
    machine alone ([tame]) and none that reverts an instruction asks for it to be
    repeated ([never_repeats]). When the first instruction fails the code reads
    the instruction before it, which is undefined: the fate [Broken]. *)
From S2P Require Import Prelude Hashtable VmProg VmProgDb Vm.

(** ** The specification *)

Inductive fate := Ended (n : notification) | Waits (pc : Z) (r : ov_vm_retval) | Broken.

Section Spec.
Context {H : Type}.
Context (T : list (OpcodeDef H)) (prog : list ov_vm_instr).

(** The handlers of an instruction; none for [OP_INVALID]. *)
Definition fw_handler (ins : ov_vm_instr) : option (ov_vm_opcode_handler H) :=
  if OP_INVALID =? opcode ins then None else T !! Z.to_nat (opcode ins) ≫= handler.
Definition bw_handler (ins : ov_vm_instr) : option (ov_vm_opcode_handler H) :=
  if OP_INVALID =? opcode ins then None else T !! Z.to_nat (opcode ins) ≫= inv_handler.

(** [unwinds j evs n]: the first [j] instructions are reverted, the last one
    first, and [n] tells how that ended. Waiting is ignored. *)
Inductive unwinds : nat -> list (event H) -> notification -> Prop :=
  | unwind_done : unwinds 0 [] program_aborted
  | unwind_next j ins h r evs n :
      prog !! j = Some ins -> bw_handler ins = Some h -> r = OC_NEXT \/ r = OC_WAIT_AND_NEXT ->
      unwinds j evs n -> unwinds (S j) (Called h ins r :: evs) n
  | unwind_finished j ins h :
      prog !! j = Some ins -> bw_handler ins = Some h ->
      unwinds (S j) [Called h ins OC_FINISHED] program_aborted
  | unwind_error j ins h :
      prog !! j = Some ins -> bw_handler ins = Some h ->
      unwinds (S j) [Called h ins OC_ERROR] program_failed_to_abort
  | unwind_missing j ins :
      prog !! j = Some ins -> bw_handler ins = None -> unwinds (S j) [] program_failed_to_abort.

(** [runs k evs f]: from instruction [k] on. An error reverts the instructions
    before the one that failed; there must be one. *)
Inductive runs : nat -> list (event H) -> fate -> Prop :=
  | run_next k ins h evs f :
      prog !! k = Some ins -> fw_handler ins = Some h -> runs (S k) evs f ->
      runs k (Called h ins OC_NEXT :: evs) f
  | run_finished k ins h :
      prog !! k = Some ins -> fw_handler ins = Some h ->
      runs k [Called h ins OC_FINISHED] (Ended program_done)
  | run_wait_and_next k ins h :
      prog !! k = Some ins -> fw_handler ins = Some h ->
      runs k [Called h ins OC_WAIT_AND_NEXT] (Waits (Z.of_nat k + 1) OC_WAIT_AND_NEXT)
  | run_wait_and_repeat k ins h :
      prog !! k = Some ins -> fw_handler ins = Some h ->
      runs k [Called h ins OC_WAIT_AND_REPEAT] (Waits (Z.of_nat k) OC_WAIT_AND_REPEAT)
  | run_error k ins h evs n :
      k <> O -> prog !! k = Some ins -> fw_handler ins = Some h -> unwinds k evs n ->
      runs k (Called h ins OC_ERROR :: evs) (Ended n)
  | run_missing k ins evs n :
      k <> O -> prog !! k = Some ins -> fw_handler ins = None -> unwinds k evs n -> runs k evs (Ended n)
  | run_first_error ins h :
      prog !! O = Some ins -> fw_handler ins = Some h -> runs O [Called h ins OC_ERROR] Broken
  | run_first_missing ins :
      prog !! O = Some ins -> fw_handler ins = None -> runs O [] Broken.
End Spec.

(** ** One program running *)

(** What a handler may do to its program: it may set its result. *)
Definition same_control (p p' : ov_vm_prog) : Prop :=
  prog_id p' = prog_id p /\ instructions p' = instructions p /\ program_counter p' = program_counter p /\
  state p' = state p /\ data p' = data p.

Section Tame.
Context {H W : Type} (client : H -> ov_vm H W -> nat -> option (ov_vm_retval * ov_vm H W)).

(** No program has more aliases than can be removed with it. *)
Definition few_aliases (A : gmap string string) : Prop := forall id, (size (aliases_of id A) <= 5)%nat.
(** A handler that returns and leaves the machine alone, but for the aliases - of
    which no program gets more than five - and the result of its program. *)
Definition tame : Prop := forall h vm i idx A s,
  db_inv (db vm) idx A -> few_aliases A -> (exists id, idx !! id = Some i) -> pool_states (db vm) !! i = Some s ->
  exists r vm' A' s', client h vm i = Some (r, vm') /\ db_inv (db vm') idx A' /\ few_aliases A' /\
    pool_states (db vm') = <[i := s']> (pool_states (db vm)) /\ same_control (public s) (public s') /\
    opcode_defs vm' = opcode_defs vm /\ notifier vm' = notifier vm /\ events vm' = events vm /\
    released (db vm') = released (db vm) /\ release_set (db vm') = release_set (db vm).
(** The client's handlers that revert an instruction do not ask for it to be
    repeated: the machine would do so forever. *)
Definition never_repeats (T : list (OpcodeDef H)) : Prop := forall def h vm i r vm',
  def ∈ T -> inv_handler def = Some (client_handler h) -> client h vm i = Some (r, vm') ->
  r <> OC_WAIT_AND_REPEAT.
End Tame.

Lemma few_without id A : few_aliases A -> few_aliases (aliases_without id A).
Proof.
  intros Few x. eapply Nat.le_trans; [|apply (Few x)]. apply map_subseteq_size, map_filter_subseteq_mono, map_filter_subseteq.
Qed.

Section Run.
Context {H W : Type} (client : H -> ov_vm H W -> nat -> option (ov_vm_retval * ov_vm H W)).
Context (Htame : tame client).
Context (T : list (OpcodeDef H)) (N : notification -> bool) (code : list ov_vm_instr).
Context (idx : gmap string nat) (id : string) (i : nat) (Hi : idx !! id = Some i).
Context (pool0 : list ProgState) (rs : bool) (rel : list Z) (dat : option Z).

Record running (vm : ov_vm H W) (p : ov_vm_prog) : Prop := {
  run_inv : exists A, db_inv (db vm) idx A /\ few_aliases A;
  run_prog : prog_at vm i = Some p;
  run_instrs : instructions p = Some code;
  run_data : data p = dat;
  run_table : opcode_defs vm = T;
  run_notifier : notifier vm = N;
  run_release : release_set (db vm) = rs /\ released (db vm) = rel;
  run_others j : j <> i -> pool_states (db vm) !! j = pool0 !! j;
  run_pool : length (pool_states (db vm)) = length pool0
}.
(** The program is gone; its data, if any, was released, once. *)
Record ended (vm : ov_vm H W) : Prop := {
  end_inv : exists A, db_inv (db vm) (delete id idx) A /\ few_aliases A;
  end_table : opcode_defs vm = T;
  end_notifier : notifier vm = N;
  end_release : release_set (db vm) = rs /\ released (db vm) = rel ++ (if rs then option_list dat else []);
  end_others j : j <> i -> pool_states (db vm) !! j = pool0 !! j;
  end_pool : length (pool_states (db vm)) = length pool0
}.
Definition noted (n : notification) : list (event H) := if N n then [Notified n id] else [].

Lemma running_id vm p : running vm p -> prog_id p = id.
Proof using Hi.
  intros R. destruct (run_inv _ _ R) as (A & I & _). destruct (inv_prog _ _ _ I _ _ Hi) as (_ & s & Hs & Hid).
  pose proof (run_prog _ _ R) as Hp. unfold prog_at in Hp. rewrite Hs in Hp. by injection Hp as <-.
Qed.
Lemma running_write vm p f :
  running vm p -> (forall q, prog_id (f q) = prog_id q) -> (forall q, instructions (f q) = instructions q) ->
  (forall q, data (f q) = data q) -> running (write_prog vm i f) (f p).
Proof using Hi.
  intros R Hf1 Hf2 Hf3. pose proof (run_prog _ _ R) as Hp. unfold prog_at in Hp.
  destruct (pool_states (db vm) !! i) as [s|] eqn:Es; [|done]. injection Hp as <-.
  split; try apply R.
  - destruct (run_inv _ _ R) as (A & I & Few). exists A. split; [|done].
    apply (update_state_inv _ _ _ I id); [done|]. intros s'. apply Hf1.
  - unfold prog_at, write_prog, set_db, update_state. cbn. by rewrite list_lookup_alter_eq, Es.
  - rewrite Hf2. apply (run_instrs _ _ R).
  - rewrite Hf3. apply (run_data _ _ R).
  - intros j Hj. unfold write_prog, set_db, update_state. cbn.
    rewrite list_lookup_alter_ne by done. by apply (run_others _ _ R).
  - unfold write_prog, set_db, update_state. cbn. rewrite length_alter. apply R.
Qed.
Lemma running_record vm p e : running vm p -> running (record vm e) p.
Proof using Type. intros R. split; apply R. Qed.

Lemma call_spec h vm p : running vm p -> exists r vm' p',
  call_handler client h vm i = Some (r, vm') /\ running vm' p' /\ same_control p p' /\ events vm' = events vm.
Proof using Hi Htame.
  intros R. assert (Hself : forall r : ov_vm_retval, exists r' vm' p', Some (r, vm) = Some (r', vm') /\ running vm' p' /\
    same_control p p' /\ events vm' = events vm) by (by intros r; exists r, vm, p).
  destruct h as [| | | |h]; [apply Hself..|]. pose proof (run_prog _ _ R) as Hp. unfold prog_at in Hp.
  destruct (pool_states (db vm) !! i) as [s|] eqn:Es; [|done]. injection Hp as Hp.
  destruct (run_inv _ _ R) as (A & I & Few).
  destruct (Htame h vm i idx A s I Few (ex_intro _ id Hi) Es) as
    (r & vm' & A' & s' & Hc & I' & Few' & Hpool & Hsame & Ht & Hn & He & Hr & Hs).
  rewrite Hp in Hsame. exists r, vm', (public s'). split; [done|]. split; [|done].
  assert (Hl : (i < length (pool_states (db vm)))%nat) by by eapply lookup_lt_Some.
  split; rewrite ?Ht, ?Hn, ?Hr, ?Hs; try apply R.
  - by exists A'.
  - unfold prog_at. by rewrite Hpool, list_lookup_insert_eq.
  - destruct Hsame as (_ & -> & _). apply (run_instrs _ _ R).
  - destruct Hsame as (_ & _ & _ & _ & ->). apply (run_data _ _ R).
  - intros j Hj. rewrite Hpool, list_lookup_insert_ne by done. by apply (run_others _ _ R).
  - rewrite Hpool, length_insert. apply R.
Qed.

Definition chosen (st : ov_vm_prog_status) (ins : ov_vm_instr) : option (ov_vm_opcode_handler H) :=
  match st with OV_VM_PROG_OK => fw_handler T ins | OV_VM_PROG_ABORTING => bw_handler T ins | _ => None end.
Definition known (ins : ov_vm_instr) : Prop := is_Some (T !! Z.to_nat (opcode ins)).

(** The handler of the current instruction, called and recorded. *)
Lemma current_spec vm p k ins :
  running vm p -> program_counter p = Z.of_nat k -> code !! k = Some ins -> known ins ->
  match chosen (state p) ins with
  | None => execute_current_instruction client vm i = Some (OC_ERROR, vm)
  | Some h => exists r vm' p', execute_current_instruction client vm i = Some (r, vm') /\ running vm' p' /\
      same_control p p' /\ events vm' = events vm ++ [Called h ins r] /\
      exists vm1, call_handler client h vm i = Some (r, vm1)
  end.
Proof using Hi Htame.
  intros R Hpc Hk [def Hdef]. unfold execute_current_instruction, get_handler_for_current_instr.
  rewrite (run_prog _ _ R). cbn [mbind option_bind].
  assert (Hins : ov_vm_prog_current_instr (Some p) = Some ins).
  { unfold ov_vm_prog_current_instr. rewrite (run_instrs _ _ R). cbn [mbind option_bind].
    rewrite Hpc, Nat2Z.id. destruct (Z.ltb_spec (Z.of_nat k) 0); [lia|done]. }
  rewrite Hins. cbn [mbind option_bind]. unfold get_opcode_def. rewrite (run_table _ _ R), Hdef.
  unfold chosen, fw_handler, bw_handler. rewrite Hdef. cbn [mbind option_bind].
  destruct (OP_INVALID =? opcode ins); cbn [mbind option_bind]; [by destruct (state p)|].
  unfold get_handler_from_opcode_def, handler_from_opcode_def, inverse_handler_from_opcode_def.
  assert (Hcall : forall h, exists r vm' p', ('(r, vm1) ← call_handler client h vm i; Some (r, record vm1 (Called h ins r))) =
      Some (r, vm') /\ running vm' p' /\ same_control p p' /\ events vm' = events vm ++ [Called h ins r] /\
      exists vm1, call_handler client h vm i = Some (r, vm1)).
  { intros h. destruct (call_spec h vm p R) as (r & vm' & p' & E & R' & Hs & He).
    exists r, (record vm' (Called h ins r)), p'. rewrite E. split; [done|]. split; [by apply running_record|].
    split; [done|]. split; [|by exists vm']. cbn. by rewrite He. }
  destruct (state p); cbn [mbind option_bind]; [destruct (handler def)|destruct (inv_handler def)|done|done]; try done;
    apply Hcall.
Qed.

Lemma release_spec vm p n :
  running vm p ->
  match state p with
  | OV_VM_PROG_OK => n = program_done
  | OV_VM_PROG_ABORTING => n = program_aborted
  | OV_VM_PROG_FAILED_TO_ABORT => n = program_failed_to_abort
  | OV_VM_PROG_INVALID => False
  end ->
  exists vm', release_program vm i = Some vm' /\ ended vm' /\ events vm' = events vm ++ noted n.
Proof using Hi.
  intros R Hn. unfold release_program. rewrite (run_prog _ _ R). cbn [mbind option_bind].
  assert (Hnote : forall vm1, vm1 = notify n vm p -> exists vm',
    (p0 ← prog_at vm1 i; '(_, d) ← ov_vm_prog_db_remove (db vm1) (Some (prog_id p0)); Some (set_db vm1 d)) = Some vm' /\
    ended vm' /\ events vm' = events vm ++ noted n).
  { intros vm1 ->. assert (R1 : running (notify n vm p) p /\ events (notify n vm p) = events vm ++ noted n).
    { unfold notify, noted. rewrite (run_notifier _ _ R), (running_id vm p R).
      destruct (N n); [split; [by apply running_record|done]|by rewrite app_nil_r]. }
    destruct R1 as [R1 He]. rewrite (run_prog _ _ R1). cbn [mbind option_bind]. rewrite (running_id _ _ R1).
    destruct (run_inv _ _ R1) as (A & I & Few). pose proof (run_prog _ _ R1) as Hp. unfold prog_at in Hp.
    destruct (pool_states (db (notify n vm p)) !! i) as [s|] eqn:Es; [|done].
    assert (Hres : resolve A id = id) by (apply (resolve_registered _ _ _ I); by exists i).
    assert (Hrm : removable A id = true).
    { unfold removable. rewrite Hres. apply andb_true_iff. split; [by apply Nat.leb_le|].
      apply orb_true_iff. left. apply bool_decide_eq_true. destruct (A !! id) as [x|] eqn:Ex; [|done].
      apply (inv_alias _ _ _ I) in Ex as [Ex _]. congruence. }
    destruct (db_remove_spec _ _ _ I id i s ltac:(by rewrite Hres) Es Hrm) as (d & -> & I' & Hpool & Hset & Hrel).
    cbn [mbind option_bind]. eexists. split; [done|]. split; [|done]. rewrite Hres in I'.
    destruct (run_release _ _ R1) as [Hrs Hrl].
    split; cbn [set_db db opcode_defs notifier]; try apply R1.
    - eexists. split; [done|]. by apply few_without.
    - rewrite Hset, Hrel, Hrs, Hrl. split; [done|]. injection Hp as Hp. by rewrite Hp, (run_data _ _ R1).
    - intros j Hj. rewrite Hpool, list_lookup_alter_ne by done. by apply (run_others _ _ R1).
    - rewrite Hpool, length_alter. apply R1. }
  destruct (state p); [subst n; by apply Hnote..|done].
Qed.
(** *** The way back *)

Lemma fail_spec ex vm p fin :
  running vm p -> state p = OV_VM_PROG_ABORTING -> exists vm',
    abort_program_with ex vm i fin = Ok vm' /\ ended vm' /\ events vm' = events vm ++ noted program_failed_to_abort.
Proof using Hi.
  intros R Hst. unfold abort_program_with. rewrite (run_prog _ _ R). cbn [defined mbind outcome_bind]. rewrite Hst.
  assert (R1 := running_write vm p (fun p => ov_vm_prog_state_set p OV_VM_PROG_FAILED_TO_ABORT) R
    ltac:(done) ltac:(done) ltac:(done)).
  destruct (release_spec _ _ program_failed_to_abort R1 eq_refl) as (vm' & -> & E & He). by exists vm'.
Qed.

(** An inverse handler that asks for its instruction to be repeated is repeated
    forever: the loop ignores the wait and does not move on. *)
Lemma repeat_never_ends j ins h :
  code !! j = Some ins -> known ins -> bw_handler T ins = Some h ->
  (forall vm r vm', call_handler client h vm i = Some (r, vm') -> r = OC_WAIT_AND_REPEAT) ->
  forall fuel vm p, running vm p -> state p = OV_VM_PROG_ABORTING -> program_counter p = Z.of_nat j ->
    execute_loop client fuel vm i = OutOfFuel.
Proof using Hi Htame.
  intros Hins Hk Hh Hans. induction fuel as [|fuel IH]; intros vm p R Hst Hpc; [done|].
  pose proof (current_spec vm p j ins R Hpc Hins Hk) as Hcur. rewrite Hst in Hcur.
  cbn [chosen execute_loop] in *. rewrite Hh in Hcur.
  destruct Hcur as (r & vm1 & p1 & -> & R1 & (_ & _ & Hpc1 & Hst1 & _) & He & (vm0 & Hc)).
  rewrite (Hans _ _ _ Hc). cbn [defined mbind outcome_bind].
  set (set_ret := fun q => ov_vm_prog_set_last_instr_retval q OC_WAIT_AND_REPEAT).
  assert (R2 : running (write_prog vm1 i set_ret) (set_ret p1)) by by apply running_write.
  rewrite (run_prog _ _ R2). cbn [defined mbind outcome_bind].
  rewrite bool_decide_eq_true_2 by (cbn; congruence).
  unfold loop_end. rewrite (run_prog _ _ R2). cbn [defined mbind outcome_bind ov_vm_prog_program_counter].
  replace (-1 <? program_counter (set_ret p1)) with true by (cbn; rewrite Hpc1, Hpc; symmetry; apply Z.ltb_lt; lia).
  by apply (IH _ _ R2); cbn; congruence.
Qed.

Context (Hrep : never_repeats client T).
Context (Hknown : forall k ins, code !! k = Some ins -> known ins).

Lemma bw_never_repeats ins h vm r vm' :
  bw_handler T ins = Some h -> call_handler client h vm i = Some (r, vm') -> r <> OC_WAIT_AND_REPEAT.
Proof using Hrep.
  unfold bw_handler. case_match; [done|]. intros (def & Hd & Hh)%bind_Some Hc.
  destruct h as [| | | |h]; [cbn in Hc; congruence..|].
  eapply Hrep; [by eapply list_elem_of_lookup_2|done|done].
Qed.

(** After an inverse handler: on to the instruction before, or the end. *)
Lemma unwind_on loop vm p j :
  running vm p -> state p = OV_VM_PROG_ABORTING -> program_counter p = Z.of_nat j ->
  let vm1 := write_prog vm i ov_vm_prog_propagate_program_counter in
  match j with
  | O => exists vm', loop_end loop vm1 i = Ok (OV_EXEC_ERROR, vm') /\ ended vm' /\
           events vm' = events vm ++ noted program_aborted
  | S j => loop_end loop vm1 i = loop vm1 i /\ exists p1, running vm1 p1 /\
           state p1 = OV_VM_PROG_ABORTING /\ program_counter p1 = Z.of_nat j
  end.
Proof using Hi.
  intros R Hst Hpc vm1.
  assert (R1 : running vm1 (ov_vm_prog_propagate_program_counter p)).
  { apply running_write; [done|..]; intros q; unfold ov_vm_prog_propagate_program_counter; by destruct (state q). }
  unfold ov_vm_prog_propagate_program_counter in R1. rewrite Hst in R1.
  unfold loop_end. rewrite (run_prog _ _ R1). cbn [defined mbind outcome_bind ov_vm_prog_program_counter].
  cbn [with_program_counter program_counter]. rewrite Hpc. destruct j as [|j].
  - destruct (release_spec _ _ program_aborted R1) as (vm' & E1 & E & He); [cbn; by rewrite Hst|].
    exists vm'. cbn [Z.of_nat Z.sub Z.add Z.opp Z.pos_sub Z.ltb Z.compare]. rewrite E1. done.
  - destruct (Z.ltb_spec (-1) (Z.of_nat (S j) - 1)); [|lia]. split; [done|]. eexists. split; [exact R1|].
    cbn. split; [done|lia].
Qed.

Lemma execute_unwinds j fuel vm p :
  running vm p -> state p = OV_VM_PROG_ABORTING -> program_counter p = Z.of_nat j ->
  (j < length code)%nat -> (j < fuel)%nat -> exists res vm' evs n,
    execute_loop client fuel vm i = Ok (res, vm') /\ unwinds T code (S j) evs n /\ ended vm' /\
    events vm' = events vm ++ evs ++ noted n.
Proof using Hi Htame Hrep Hknown.
  revert fuel vm p. induction j as [j IH] using lt_wf_ind. intros [|fuel] vm p R Hst Hpc Hj Hf; [lia|].
  destruct (lookup_lt_is_Some_2 code j Hj) as [ins Hins].
  pose proof (current_spec vm p j ins R Hpc Hins (Hknown _ _ Hins)) as Hcur. rewrite Hst in Hcur.
  cbn [chosen execute_loop] in *. destruct (bw_handler T ins) as [h|] eqn:Hh.
  - destruct Hcur as (r & vm1 & p1 & -> & R1 & (_ & _ & Hpc1 & Hst1 & _) & He & (vm0 & Hc)).
    cbn [defined mbind outcome_bind].
    set (set_ret := fun q => ov_vm_prog_set_last_instr_retval q r).
    assert (R2 : running (write_prog vm1 i set_ret) (set_ret p1)) by by apply running_write.
    assert (Hst2 : state (set_ret p1) = OV_VM_PROG_ABORTING) by (cbn; congruence).
    assert (Hpc2 : program_counter (set_ret p1) = Z.of_nat j) by (cbn; congruence).
    pose proof (bw_never_repeats ins h vm r vm0 Hh Hc) as Hnr.
    assert (Hnext : r = OC_NEXT \/ r = OC_WAIT_AND_NEXT -> exists res vm' evs n,
      loop_end (execute_loop client fuel) (write_prog (write_prog vm1 i set_ret) i ov_vm_prog_propagate_program_counter) i
        = Ok (res, vm') /\ unwinds T code (S j) evs n /\ ended vm' /\ events vm' = events vm ++ evs ++ noted n).
    { intros Hr. pose proof (unwind_on (execute_loop client fuel) _ _ _ R2 Hst2 Hpc2) as Hon. destruct j as [|j].
      - destruct Hon as (vm' & -> & E & He'). exists OV_EXEC_ERROR, vm', [Called h ins r], program_aborted.
        split; [done|]. split; [eapply unwind_next; [done..|constructor]|]. split; [done|].
        rewrite He'. cbn. by rewrite He, <- app_assoc.
      - destruct Hon as (-> & p3 & R3 & Hst3 & Hpc3).
        destruct (IH j ltac:(lia) fuel _ _ R3 Hst3 Hpc3 ltac:(lia) ltac:(lia)) as (res & vm' & evs & n & -> & Hu & E & He').
        exists res, vm', (Called h ins r :: evs), n. split; [done|]. split; [by eapply unwind_next|]. split; [done|].
        rewrite He'. cbn. by rewrite He, <- app_assoc. }
    destruct r; try done.
    + destruct (fail_spec (execute_with (execute_loop client fuel)) _ _ false R2 Hst2) as (vm' & -> & E & He').
      cbn [mbind outcome_bind]. exists OV_EXEC_ERROR, vm', [Called h ins OC_ERROR], program_failed_to_abort.
      split; [done|]. split; [by eapply unwind_error|]. split; [done|]. rewrite He'. cbn. by rewrite He, <- app_assoc.
    + apply Hnext. by left.
    + destruct (release_spec _ _ program_aborted R2) as (vm' & E1 & E & He'); [by rewrite Hst2|].
      fold set_ret. rewrite E1. cbn [defined mbind outcome_bind].
      exists OV_EXEC_OK, vm', [Called h ins OC_FINISHED], program_aborted.
      split; [done|]. split; [by eapply unwind_finished|]. split; [done|]. rewrite He'. cbn. by rewrite He, <- app_assoc.
    + assert (R3 : exists p3, running (write_prog (write_prog vm1 i set_ret) i ov_vm_prog_propagate_program_counter) p3 /\
        state p3 = OV_VM_PROG_ABORTING).
      { eexists. split; [apply running_write; [exact R2|..]; intros q; unfold ov_vm_prog_propagate_program_counter;
          by destruct (state q)|]. unfold ov_vm_prog_propagate_program_counter. by rewrite Hst2. }
      destruct R3 as (p3 & R3 & Hst3). fold set_ret. rewrite (run_prog _ _ R3). cbn [defined mbind outcome_bind].
      rewrite Hst3, bool_decide_eq_true_2 by done. apply Hnext. by right.
  - rewrite Hcur. cbn [defined mbind outcome_bind].
    set (set_ret := fun q => ov_vm_prog_set_last_instr_retval q OC_ERROR).
    assert (R2 : running (write_prog vm i set_ret) (set_ret p)) by by apply running_write.
    destruct (fail_spec (execute_with (execute_loop client fuel)) _ _ false R2 Hst) as (vm' & -> & E & He').
    cbn [mbind outcome_bind]. exists OV_EXEC_ERROR, vm', [], program_failed_to_abort.
    split; [done|]. split; [by eapply unwind_missing|]. done.
Qed.
Lemma running_propagate vm p :
  running vm p -> running (write_prog vm i ov_vm_prog_propagate_program_counter) (ov_vm_prog_propagate_program_counter p).
Proof using Hi.
  intros R. apply running_write; [done|..]; intros q; unfold ov_vm_prog_propagate_program_counter; by destruct (state q).
Qed.
(** What aborting a program that is neither aborting nor over does. *)
Lemma abort_spec fuel vm p fin j :
  running vm p -> state p = OV_VM_PROG_OK ->
  program_counter p = Z.of_nat (S j) + (if negb fin && bool_decide (last_instr_retval p = OC_WAIT_AND_NEXT) then 1 else 0) ->
  (j < length code)%nat -> (j < fuel)%nat -> exists vm' evs n,
    abort_program_with (execute client fuel) vm i fin = Ok vm' /\ unwinds T code (S j) evs n /\ ended vm' /\
    events vm' = events vm ++ evs ++ noted n.
Proof using Hi Htame Hrep Hknown.
  intros R Hst Hpc Hj Hf. unfold abort_program_with, execute, execute_with.
  rewrite (run_prog _ _ R). cbn [defined mbind outcome_bind]. rewrite Hst.
  set (aborting := fun q => ov_vm_prog_state_set q OV_VM_PROG_ABORTING).
  assert (R1 : running (write_prog vm i aborting) (aborting p)) by by apply running_write.
  destruct (negb fin && bool_decide (last_instr_retval p = OC_WAIT_AND_NEXT));
    pose proof (running_propagate _ _ R1) as R2; [apply running_propagate in R2|];
    rewrite (run_prog _ _ R2); cbn [defined mbind outcome_bind].
  all: edestruct (execute_unwinds j fuel _ _ R2) as (res & vm' & evs & n & E1 & Hu & E & He);
    [done|cbn in *; lia|done|done|].
  all: cbn -[execute_loop write_prog ov_vm_prog_propagate_program_counter]; rewrite E1; cbn [mbind outcome_bind];
    by exists vm', evs, n.
Qed.

(** When no instruction was completed, the one before the first is read. *)
Lemma abort_first_spec fuel vm p fin :
  running vm p -> state p = OV_VM_PROG_OK ->
  program_counter p = (if negb fin && bool_decide (last_instr_retval p = OC_WAIT_AND_NEXT) then 1 else 0) ->
  (0 < fuel)%nat -> abort_program_with (execute client fuel) vm i fin = Undefined.
Proof using Hi.
  intros R Hst Hpc Hf. destruct fuel as [|fuel]; [lia|]. unfold abort_program_with, execute, execute_with.
  rewrite (run_prog _ _ R). cbn [defined mbind outcome_bind]. rewrite Hst.
  set (aborting := fun q => ov_vm_prog_state_set q OV_VM_PROG_ABORTING).
  assert (R1 : running (write_prog vm i aborting) (aborting p)) by by apply running_write.
  assert (Hbefore : forall vm p, running vm p -> state p = OV_VM_PROG_ABORTING -> program_counter p < 0 ->
    execute_loop client (S fuel) vm i = Undefined).
  { intros vm2 p2 R2 Hst2 Hpc2. cbn [execute_loop].
    unfold execute_current_instruction, get_handler_for_current_instr. rewrite (run_prog _ _ R2).
    cbn [mbind option_bind]. unfold ov_vm_prog_current_instr. rewrite (run_instrs _ _ R2). cbn [mbind option_bind].
    by destruct (Z.ltb_spec (program_counter p2) 0); [|lia]. }
  destruct (negb fin && bool_decide (last_instr_retval p = OC_WAIT_AND_NEXT));
    pose proof (running_propagate _ _ R1) as R2; [apply running_propagate in R2|];
    rewrite (run_prog _ _ R2); cbn [defined mbind outcome_bind].
  all: cbn -[execute_loop write_prog ov_vm_prog_propagate_program_counter].
  all: rewrite (Hbefore _ _ R2); [done|done|cbn in *; lia].
Qed.

(** *** The way forward *)

Context (e : nat) (ins_end : ov_vm_instr) (Hend : code !! e = Some ins_end).
Context (Hfin : fw_handler T ins_end = Some end_handler).
Definition result_of (f : fate) : ov_vm_exec_result :=
  match f with
  | Ended program_done => OV_EXEC_OK
  | Ended _ | Broken => OV_EXEC_ERROR
  | Waits _ _ => OV_EXEC_WAIT
  end.
(** Where a waiting program stands: after the instruction that waits, or at it. *)
Definition stopped (q : nat) (pc : Z) (r : ov_vm_retval) : Prop :=
  pc = Z.of_nat q + 1 /\ r = OC_WAIT_AND_NEXT \/ pc = Z.of_nat q /\ r = OC_WAIT_AND_REPEAT.
(** The state a run leaves. *)
Definition left (vm vm' : ov_vm H W) (evs : list (event H)) (f : fate) : Prop :=
  match f with
  | Ended n => ended vm' /\ events vm' = events vm ++ evs ++ noted n
  | Waits pc r => events vm' = events vm ++ evs /\ exists p, running vm' p /\ state p = OV_VM_PROG_OK /\
      program_counter p = pc /\ last_instr_retval p = r /\ exists q, (q < e)%nat /\ stopped q pc r
  | Broken => False
  end.

(** What an execution that follows [runs] comes to. *)
Definition comes_to (o : outcome (ov_vm_exec_result * ov_vm H W)) (vm : ov_vm H W) (evs : list (event H)) (f : fate)
    : Prop :=
  match f with
  | Broken => o = Undefined
  | _ => exists vm', o = Ok (result_of f, vm') /\ left vm vm' evs f
  end.

Lemma unwinds_aborts j evs n : unwinds T code j evs n -> n <> program_done.
Proof using Type. by induction 1. Qed.

(** An error at instruction [k]. *)
Lemma error_spec fuel vm p k :
  running vm p -> state p = OV_VM_PROG_OK -> program_counter p = Z.of_nat k -> last_instr_retval p = OC_ERROR ->
  (k <= length code)%nat -> (k <= fuel)%nat -> (0 < fuel)%nat ->
  let o := vm ← abort_program_with (execute client fuel) vm i false; Ok (OV_EXEC_ERROR, vm) in
  match k with
  | O => o = Undefined
  | _ => exists vm' evs n, o = Ok (result_of (Ended n), vm') /\ unwinds T code k evs n /\ ended vm' /\
           events vm' = events vm ++ evs ++ noted n
  end.
Proof using Hi Htame Hrep Hknown.
  intros R Hst Hpc Hr Hl Hf H0 o. unfold o. destruct k as [|k].
  - rewrite (abort_first_spec fuel vm p false R Hst); [done| |done].
    rewrite Hr, bool_decide_eq_false_2 by done. exact Hpc.
  - destruct (abort_spec fuel vm p false k R Hst) as (vm' & evs & n & -> & Hu & E & He); [|lia|lia|].
    { rewrite Hr, bool_decide_eq_false_2 by done. cbn. lia. }
    cbn [mbind outcome_bind]. exists vm', evs, n. split; [|done]. pose proof (unwinds_aborts _ _ _ Hu). by destruct n.
Qed.
(** The same, seen from instruction [k]. *)
Lemma error_comes fuel vm p k evs0 vm0 :
  running vm p -> state p = OV_VM_PROG_OK -> program_counter p = Z.of_nat k -> last_instr_retval p = OC_ERROR ->
  (k <= length code)%nat -> (k <= fuel)%nat -> (0 < fuel)%nat -> events vm = events vm0 ++ evs0 ->
  (forall evs n, k <> O -> unwinds T code k evs n -> runs T code k (evs0 ++ evs) (Ended n)) ->
  (k = O -> runs T code 0 evs0 Broken) -> exists evs f, runs T code k evs f /\
    comes_to (vm ← abort_program_with (execute client fuel) vm i false; Ok (OV_EXEC_ERROR, vm)) vm0 evs f.
Proof using Hi Htame Hrep Hknown.
  intros R Hst Hpc Hr Hl Hf H0 He Hruns Hbroken. pose proof (error_spec fuel vm p k R Hst Hpc Hr Hl Hf H0) as Ho.
  destruct k as [|k].
  - exists evs0, Broken. split; [by apply Hbroken|exact Ho].
  - destruct Ho as (vm' & evs & n & Ho & Hu & E & He'). exists (evs0 ++ evs), (Ended n). split; [by apply Hruns|].
    exists vm'. split; [exact Ho|]. split; [exact E|]. by rewrite He', He, <- !app_assoc.
Qed.

Lemma execute_forward k fuel vm p :
  running vm p -> state p = OV_VM_PROG_OK -> program_counter p = Z.of_nat k -> (k <= e)%nat ->
  (2 * e < fuel + k)%nat -> exists evs f,
    runs T code k evs f /\ comes_to (execute_loop client fuel vm i) vm evs f.
Proof using Hi Htame Hrep Hknown Hend Hfin.
  assert (Hel : (e < length code)%nat) by by eapply lookup_lt_Some.
  remember (e - k)%nat as d eqn:Hd. revert k fuel vm p Hd. induction d as [d IH] using lt_wf_ind.
  intros k [|fuel] vm p Hd R Hst Hpc Hk Hf; [lia|].
  destruct (lookup_lt_is_Some_2 code k ltac:(lia)) as [ins Hins].
  pose proof (current_spec vm p k ins R Hpc Hins (Hknown _ _ Hins)) as Hcur. rewrite Hst in Hcur.
  cbn [chosen execute_loop] in *. fold (execute client fuel). destruct (fw_handler T ins) as [h|] eqn:Hh.
  - destruct Hcur as (r & vm1 & p1 & -> & R1 & (_ & _ & Hpc1 & Hst1 & _) & He & (vm0 & Hc)).
    cbn [defined mbind outcome_bind].
    set (set_ret := fun q => ov_vm_prog_set_last_instr_retval q r).
    assert (R2 : running (write_prog vm1 i set_ret) (set_ret p1)) by by apply running_write.
    assert (Hst2 : state (set_ret p1) = OV_VM_PROG_OK) by (cbn; congruence).
    assert (Hpc2 : program_counter (set_ret p1) = Z.of_nat k) by (cbn; congruence).
    pose proof (running_propagate _ _ R2) as R3.
    assert (Hp3 : ov_vm_prog_propagate_program_counter (set_ret p1) = with_program_counter (set_ret p1) (Z.of_nat k + 1))
      by (unfold ov_vm_prog_propagate_program_counter; by rewrite Hst2, Hpc2).
    rewrite Hp3 in R3.
    assert (Hlast : r <> OC_FINISHED -> (k < e)%nat).
    { intros Hn. assert (k <> e) by (intros ->; simplify_eq; cbn in Hc; congruence). lia. }
    destruct r.
    + assert (k < e)%nat by by apply Hlast.
      apply (error_comes fuel _ _ k [Called h ins OC_ERROR] vm R2 Hst2 Hpc2 eq_refl); [lia..|exact He| |].
      * intros evs n Hk0 Hu. by apply (run_error T code k ins h).
      * intros ->. by apply (run_first_error T code ins h).
    + assert (k < e)%nat by by apply Hlast.
      unfold loop_end. fold set_ret. rewrite (run_prog _ _ R3). cbn [defined mbind outcome_bind ov_vm_prog_program_counter].
      cbn [with_program_counter program_counter]. destruct (Z.ltb_spec (-1) (Z.of_nat k + 1)); [|lia].
      destruct (IH (e - S k)%nat ltac:(lia) (S k) fuel _ _ eq_refl R3 Hst2 ltac:(cbn; lia) ltac:(lia) ltac:(lia))
        as (evs & f & Hr & Hcomes).
      exists (Called h ins OC_NEXT :: evs), f. split; [by eapply run_next|].
      destruct f as [n|pc r|]; [..|by inversion Hr];
        destruct Hcomes as (vm' & Hx & Hl); exists vm'; (split; [exact Hx|]); cbn [left] in *;
        cbn [write_prog set_db events] in Hl; rewrite He in Hl.
      * destruct Hl as [? ->]. split; [done|]. cbn. by rewrite <- app_assoc.
      * destruct Hl as [-> ?]. split; [cbn; by rewrite <- app_assoc|done].
    + destruct (release_spec _ _ program_done R2) as (vm' & E1 & E & He'); [by rewrite Hst2|].
      fold set_ret. rewrite E1. cbn [defined mbind outcome_bind].
      exists [Called h ins OC_FINISHED], (Ended program_done). split; [by eapply run_finished|].
      exists vm'. split; [done|]. split; [done|]. rewrite He'. cbn. by rewrite He, <- app_assoc.
    + assert (k < e)%nat by by apply Hlast.
      fold set_ret. rewrite (run_prog _ _ R3). cbn [defined mbind outcome_bind].
      rewrite bool_decide_eq_false_2 by (cbn in *; congruence).
      exists [Called h ins OC_WAIT_AND_NEXT], (Waits (Z.of_nat k + 1) OC_WAIT_AND_NEXT).
      split; [by eapply run_wait_and_next|]. eexists. split; [done|]. split; [done|]. eexists. split; [done|].
      do 3 (split; [done|]). exists k. split; [done|by left].
    + assert (k < e)%nat by by apply Hlast.
      fold set_ret. rewrite (run_prog _ _ R2). cbn [defined mbind outcome_bind].
      rewrite bool_decide_eq_false_2 by by rewrite Hst2.
      exists [Called h ins OC_WAIT_AND_REPEAT], (Waits (Z.of_nat k) OC_WAIT_AND_REPEAT).
      split; [by eapply run_wait_and_repeat|]. eexists. split; [done|]. split; [done|]. eexists. split; [done|].
      do 3 (split; [done|]). exists k. split; [done|by right].
  - rewrite Hcur. cbn [defined mbind outcome_bind]. assert (k <> e) by (intros ->; simplify_eq).
    set (set_ret := fun q => ov_vm_prog_set_last_instr_retval q OC_ERROR).
    assert (R2 : running (write_prog vm i set_ret) (set_ret p)) by by apply running_write.
    apply (error_comes fuel _ _ k [] vm R2 Hst Hpc eq_refl); [lia..|by rewrite app_nil_r| |].
    + intros evs n Hk0 Hu. by apply (run_missing T code k ins).
    + intros ->. by apply (run_first_missing T code ins).
Qed.
End Run.
