(* ===== verification/VmLife.v ===== *)
(** * The life of programs in the virtual machine

    The interface of the machine (Vm), on the abstract database of VmProgDb:
    [vm_ok] is the invariant between calls - every registered program waits - and
    each call keeps it, whatever the client's handlers answer, as long as they
    are [tame] and never ask for the repetition of a reverted instruction
    ([never_repeats]). A program must be [good]: known opcodes and an [OP_END].
    When no instruction was completed there is nothing to revert and the code
    reads the instruction before the first one: triggering a program whose first
    instruction fails, and aborting one that still waits in its first
    instruction, is undefined (see [abort_at_first_reads_before] below). *)
From S2P Require Import Prelude Hashtable VmProg VmProgDb Vm VmRun.

Record good_code {H} (T : list (OpcodeDef H)) (code : list ov_vm_instr) (e : nat) (ins_end : ov_vm_instr) : Prop := {
  good_known k ins : code !! k = Some ins -> known T ins;
  good_end : code !! e = Some ins_end;
  good_fin : fw_handler T ins_end = Some end_handler
}.

(** The place of the end, the fuel it asks for. *)
Lemma good_length {H} (T : list (OpcodeDef H)) code e ins : good_code T code e ins -> (e < length code)%nat.
Proof. intros G. eapply lookup_lt_Some, (good_end _ _ _ _ G). Qed.

Section Life.
Context {H W : Type} (client : H -> ov_vm H W -> nat -> option (ov_vm_retval * ov_vm H W)).
Context (Htame : tame client) (T : list (OpcodeDef H)) (N : notification -> bool).
Context (Hrep : never_repeats client T).

Definition parked (p : ov_vm_prog) : Prop := exists code e ins_end,
  instructions p = Some code /\ good_code T code e ins_end /\ state p = OV_VM_PROG_OK /\
  exists q, (q < e)%nat /\ stopped q (program_counter p) (last_instr_retval p).

Record vm_ok (vm : ov_vm H W) (sp : db_spec) : Prop := {
  ok_db : db_refines (db vm) sp;
  ok_table : opcode_defs vm = T;
  ok_notifier : notifier vm = N;
  ok_few : few_aliases (alias_of sp);
  ok_parked id s : programs sp !! id = Some s -> parked (public s)
}.

(** The database before and after program [id] ran. *)
Definition after (sp sp' : db_spec) (id : string) (s : ProgState) (f : fate) : Prop :=
  releases sp' = releases sp /\
  match f with
  | Ended _ =>
      programs sp' = delete id (programs sp) /\ room sp' = room sp + 1 /\
      gone sp' = gone sp ++ (if releases sp then option_list (data (public s)) else [])
  | Waits pc r =>
      room sp' = room sp /\ gone sp' = gone sp /\ exists s', programs sp' = <[id := s']> (programs sp) /\
      instructions (public s') = instructions (public s) /\ data (public s') = data (public s) /\
      program_counter (public s') = pc /\ last_instr_retval (public s') = r
  | Broken => False
  end.
Definition note_of (id : string) (f : fate) : list (event H) :=
  match f with Ended n => noted N id n | Waits _ _ | Broken => [] end.
(** What a call of the interface that runs program [id] comes to: it returns
    with the result of its fate, the calls and the notification recorded, and the
    database as [after] says; or the first instruction failed. *)
Definition returns (o : outcome (ov_vm_exec_result * ov_vm H W)) (vm : ov_vm H W) (sp : db_spec) (id : string)
    (s : ProgState) (evs : list (event H)) (f : fate) : Prop :=
  match f with
  | Broken => o = Undefined
  | _ => exists vm' sp', o = Ok (result_of f, vm') /\ events vm' = events vm ++ evs ++ note_of id f /\
           vm_ok vm' sp' /\ after sp sp' id s f
  end.

(** One registered program, and the machine around it. *)
Section One.
Context (vm : ov_vm H W) (sp : db_spec) (idx : gmap string nat).
Context (I : db_inv (db vm) idx (alias_of sp)) (E : progs_of (db vm) idx = programs sp).
Context (Et : topmost_usable_slot_index (db vm) = room sp) (Er : release_set (db vm) = releases sp).
Context (Eg : released (db vm) = gone sp).
Context (Htab : opcode_defs vm = T) (Hnot : notifier vm = N) (Few : few_aliases (alias_of sp)).
Context (id : string) (i : nat) (s : ProgState) (Hi : idx !! id = Some i) (Hs : pool_states (db vm) !! i = Some s).
Context (code : list ov_vm_instr) (e : nat) (ins_end : ov_vm_instr).
Context (Hcode : instructions (public s) = Some code) (G : good_code T code e ins_end).
Context (Hother : forall id' s', id' <> id -> programs sp !! id' = Some s' -> parked (public s')).

Abbreviation running_one := (running T N code idx i (pool_states (db vm)) (releases sp) (gone sp) (data (public s))).
Abbreviation ended_one := (ended T N idx id i (pool_states (db vm)) (releases sp) (gone sp) (data (public s))).

Lemma running_start : running_one vm (public s).
Proof using Htab Hnot Few Hs Hcode I Er Eg.
  split; try done.
  - by exists (alias_of sp).
  - unfold prog_at. by rewrite Hs.
Qed.

Lemma running_after vm' p :
  running_one vm' p -> state p = OV_VM_PROG_OK ->
  (exists q, (q < e)%nat /\ stopped q (program_counter p) (last_instr_retval p)) ->
  exists sp', vm_ok vm' sp' /\ after sp sp' id s (Waits (program_counter p) (last_instr_retval p)).
Proof using All.
  intros R Hst Hq. destruct (run_inv _ _ _ _ _ _ _ _ _ _ _ R) as (A & I' & Few').
  pose proof (run_prog _ _ _ _ _ _ _ _ _ _ _ R) as Hp. unfold prog_at in Hp.
  destruct (pool_states (db vm') !! i) as [s'|] eqn:Es'; [|done]. injection Hp as Hp.
  destruct (run_release _ _ _ _ _ _ _ _ _ _ _ R) as [Hrs Hrl].
  assert (Hprogs : progs_of (db vm') idx = <[id := s']> (programs sp)).
  { rewrite <- E. apply map_eq. intros x. rewrite lookup_progs_of. destruct (decide (x = id)) as [->|Hx].
    - by rewrite lookup_insert_eq, Hi.
    - rewrite lookup_insert_ne, lookup_progs_of by done. destruct (idx !! x) as [j|] eqn:Ej; [|done]. simpl.
      apply (run_others _ _ _ _ _ _ _ _ _ _ _ R). intros ->. apply Hx. by eapply (prog_unique _ _ _ I). }
  assert (Hroom : topmost_usable_slot_index (db vm') = room sp).
  { pose proof (inv_count _ _ _ I) as [_ H1]. pose proof (inv_count _ _ _ I') as [_ H2]. unfold Zlen in *.
    rewrite (run_pool _ _ _ _ _ _ _ _ _ _ _ R) in H2. lia. }
  exists {| programs := <[id := s']> (programs sp); alias_of := A; room := room sp; releases := releases sp; gone := gone sp |}.
  split.
  - split; [by exists idx|apply R..|done|]. intros id' s0. cbn [programs]. rewrite lookup_insert_Some.
    intros [[<- <-]|[Hne Hs0]]; [|by eapply Hother]. exists code, e, ins_end. rewrite Hp.
    split; [apply R|]. done.
  - split; [done|]. do 2 (split; [done|]). exists s'. rewrite Hp. split; [done|].
    split; [by rewrite (run_instrs _ _ _ _ _ _ _ _ _ _ _ R)|]. split; [apply R|done].
Qed.

Lemma ended_after vm' n : ended_one vm' -> exists sp', vm_ok vm' sp' /\ after sp sp' id s (Ended n).
Proof using All.
  intros D. destruct (end_inv _ _ _ _ _ _ _ _ _ _ D) as (A & I' & Few').
  destruct (end_release _ _ _ _ _ _ _ _ _ _ D) as [Hrs Hrl].
  assert (Hprogs : progs_of (db vm') (delete id idx) = delete id (programs sp)).
  { rewrite <- E. apply map_eq. intros x. rewrite lookup_progs_of. destruct (decide (x = id)) as [->|Hx].
    - by rewrite !lookup_delete_eq.
    - rewrite !lookup_delete_ne, lookup_progs_of by done. destruct (idx !! x) as [j|] eqn:Ej; [|done]. simpl.
      apply (end_others _ _ _ _ _ _ _ _ _ _ D). intros ->. apply Hx. by eapply (prog_unique _ _ _ I). }
  assert (Hroom : topmost_usable_slot_index (db vm') = room sp + 1).
  { pose proof (inv_count _ _ _ I) as [_ H1]. pose proof (inv_count _ _ _ I') as [_ H2].
    rewrite map_size_delete_Some in H2 by by eexists. assert (size idx <> 0)%nat by (apply map_size_ne_0_lookup; by exists id, i).
    unfold Zlen in *. rewrite (end_pool _ _ _ _ _ _ _ _ _ _ D) in H2. lia. }
  exists {| programs := delete id (programs sp); alias_of := A; room := room sp + 1; releases := releases sp;
            gone := gone sp ++ (if releases sp then option_list (data (public s)) else []) |}.
  split; [|done]. split; [by exists (delete id idx)|apply D..|done|].
  intros id' s0. cbn [programs]. rewrite lookup_delete_Some. intros [Hne Hs0]. by eapply Hother.
Qed.
(** From instruction [k] on. *)
Lemma run_from fuel k :
  state (public s) = OV_VM_PROG_OK -> program_counter (public s) = Z.of_nat k -> (k <= e)%nat -> (2 * e < fuel)%nat ->
  exists evs f, runs T code k evs f /\ returns (execute client fuel vm i) vm sp id s evs f.
Proof using All.
  intros Hst Hpc Hk Hf. unfold execute, execute_with. pose proof running_start as R.
  rewrite (run_prog _ _ _ _ _ _ _ _ _ _ _ R). cbn [defined mbind outcome_bind].
  assert (is_prog_valid (public s) = true) as -> by (unfold is_prog_valid; by rewrite Hst). cbn [negb].
  destruct (execute_forward client Htame T N code idx id i Hi _ _ _ _ Hrep (good_known _ _ _ _ G) e ins_end
    (good_end _ _ _ _ G) (good_fin _ _ _ _ G) k fuel vm (public s) R Hst Hpc Hk ltac:(lia)) as (evs & f & Hr & Hc).
  exists evs, f. split; [done|]. destruct f as [n|pc r|]; cbn [comes_to left returns] in *; [| |done].
  - destruct Hc as (vm' & Hx & D & He). destruct (ended_after vm' n D) as (sp' & Hok & Ha). by exists vm', sp'.
  - destruct Hc as (vm' & Hx & He & p & R' & Hst' & <- & <- & Hq).
    destruct (running_after vm' p R' Hst' Hq) as (sp' & Hok & Ha). exists vm', sp'. cbn [note_of].
    rewrite app_nil_r. by split.
Qed.

(** The instructions a waiting program has completed. *)
Definition completed (p : ov_vm_prog) (finish_current_step : bool) : nat :=
  Z.to_nat (program_counter p -
    (if negb finish_current_step && bool_decide (last_instr_retval p = OC_WAIT_AND_NEXT) then 1 else 0)).

(** Aborting undoes what was completed; it is undefined when that is nothing. *)
Lemma abort_from fuel fin q :
  state (public s) = OV_VM_PROG_OK -> (q < e)%nat ->
  stopped q (program_counter (public s)) (last_instr_retval (public s)) -> (e < fuel)%nat ->
  match completed (public s) fin with
  | O => abort_program_with (execute client fuel) vm i fin = Undefined
  | j => exists vm' evs n sp', abort_program_with (execute client fuel) vm i fin = Ok vm' /\
      unwinds T code j evs n /\ events vm' = events vm ++ evs ++ noted N id n /\ vm_ok vm' sp' /\
      after sp sp' id s (Ended n)
  end.
Proof using All.
  intros Hst Hq Hstop Hf. pose proof running_start as R. pose proof (good_length _ _ _ _ G) as Hl.
  set (w := if negb fin && bool_decide (last_instr_retval (public s) = OC_WAIT_AND_NEXT) then 1 else 0).
  assert (Hc : exists j, completed (public s) fin = j /\ (j <= e)%nat /\ program_counter (public s) = Z.of_nat j + w).
  { unfold completed. fold w. eexists. split; [done|]. unfold w.
    destruct Hstop as [[-> ->]|[-> ->]], fin; cbn [negb andb];
      rewrite ?bool_decide_eq_true_2, ?bool_decide_eq_false_2 by done; lia. }
  destruct Hc as (j & -> & Hj & Hpc). destruct j as [|j].
  - apply (abort_first_spec client T N code idx id i Hi _ _ _ _ fuel vm (public s) fin R Hst); [exact Hpc|lia].
  - destruct (abort_spec client Htame T N code idx id i Hi _ _ _ _ Hrep (good_known _ _ _ _ G) fuel vm (public s) fin j
      R Hst Hpc ltac:(lia) ltac:(lia)) as (vm' & evs & n & Hx & Hu & D & He).
    destruct (ended_after vm' n D) as (sp' & Hok & Ha). by exists vm', evs, n, sp'.
Qed.
End One.
(** *** The calls of the interface *)

Lemma trigger_accepted fuel vm sp code e ins_end id d now :
  vm_ok vm sp -> good_code T code e ins_end -> (2 * e < fuel)%nat -> accepts sp id = true ->
  exists evs f, runs T code 0 evs f /\
    returns (ov_vm_trigger client fuel vm (Some code) (Some id) d now) vm
      (spec_op sp (Insert id code d now)).2 id (fresh_program id code d now) evs f.
Proof using Htame Hrep.
  intros [(idx0 & I0 & E0 & Et0 & Er0 & Eg0) Htab Hnot Few Hpark] G Hf Ha. unfold ov_vm_trigger.
  destruct (insert_accepted (db vm) sp idx0 I0 E0 Et0 Er0 Eg0 id code d now Ha)
    as (i & db' & idx & -> & Hi & I & E & Et & Er & Eg). cbn [defined mbind outcome_bind execute_prog spec_op].
  rewrite Ha. cbn [snd]. pose proof (lookup_progs_of db' idx id) as Hs. rewrite E, lookup_insert_eq, Hi in Hs.
  set (sp1 := {| programs := _ |}).
  apply (run_from (set_db vm db') sp1 idx I E Et Er Eg Htab Hnot Few id i _ Hi (eq_sym Hs) code e ins_end eq_refl G);
    [|done|done|lia|done].
  intros id' s' Hne. cbn [sp1 programs]. rewrite lookup_insert_ne by done. apply Hpark.
Qed.
Lemma trigger_refused fuel vm sp code id d now :
  vm_ok vm sp -> accepts sp id = false ->
  ov_vm_trigger client fuel vm (Some code) (Some id) d now = Ok (OV_EXEC_TRIGGER_FAIL, vm).
Proof using Type.
  intros [(idx0 & I0 & E0 & Et0 & Er0 & Eg0) Htab Hnot Few Hpark] Ha. unfold ov_vm_trigger.
  rewrite (insert_not_accepted (db vm) sp idx0 I0 E0 Et0 Er0 Eg0 id code d now Ha).
  cbn [defined mbind outcome_bind execute_prog]. by destruct vm.
Qed.

(** The registered program an id or an alias stands for, in the pool. *)
Lemma find_prog vm sp id : vm_ok vm sp ->
  match spec_get sp id with
  | None => prog_for_id vm (Some id) = Some None
  | Some s => exists idx i, prog_for_id vm (Some id) = Some (Some i) /\ db_inv (db vm) idx (alias_of sp) /\
      progs_of (db vm) idx = programs sp /\ topmost_usable_slot_index (db vm) = room sp /\
      release_set (db vm) = releases sp /\ released (db vm) = gone sp /\
      idx !! resolve (alias_of sp) id = Some i /\ pool_states (db vm) !! i = Some s /\
      programs sp !! resolve (alias_of sp) id = Some s
  end.
Proof using Type.
  intros [(idx & I & E & Et & Er & Eg) _ _ _ _]. unfold prog_for_id. rewrite (db_get_spec _ _ _ I).
  unfold spec_get. destruct (is_id_valid (Some id)); [|done]. rewrite <- E, lookup_progs_of.
  destruct (idx !! resolve (alias_of sp) id) as [i|] eqn:Hi; [|done]. cbn [mbind option_bind].
  destruct (inv_prog _ _ _ I _ _ Hi) as (_ & s & Hs & _). rewrite Hs. exists idx, i.
  by repeat (split; [done|]).
Qed.
Lemma get_parked vm sp id s : vm_ok vm sp -> spec_get sp id = Some s -> parked (public s).
Proof using Type.
  intros Hok Hg. unfold spec_get in Hg. destruct (is_id_valid (Some id)); [|done]. by eapply ok_parked.
Qed.

Lemma continue_spec fuel vm sp id s code e ins_end :
  vm_ok vm sp -> spec_get sp id = Some s -> instructions (public s) = Some code ->
  good_code T code e ins_end -> program_counter (public s) <= Z.of_nat e -> (2 * e < fuel)%nat ->
  exists evs f, runs T code (Z.to_nat (program_counter (public s))) evs f /\
    returns (ov_vm_continue client fuel vm (Some id)) vm sp (resolve (alias_of sp) id) s evs f.
Proof using Htame Hrep.
  intros Hok Hg Hc G Hpc Hf. pose proof (find_prog vm sp id Hok) as Hfind. rewrite Hg in Hfind.
  destruct Hfind as (idx & i & Hp & I & E & Et & Er & Eg & Hi & Hs & Hsp).
  unfold ov_vm_continue. rewrite Hp. cbn [defined mbind outcome_bind].
  destruct (get_parked vm sp id s Hok Hg) as (code' & e' & ins' & Hc' & G' & Hst & q & Hq & Hstop).
  apply (run_from vm sp idx I E Et Er Eg (ok_table _ _ Hok) (ok_notifier _ _ Hok) (ok_few _ _ Hok) _ i s Hi Hs code e ins_end Hc G);
    try done; try lia.
  - intros id' s' _. by apply (ok_parked _ _ Hok).
  - destruct Hstop as [[? _]|[? _]]; lia.
Qed.
Lemma continue_absent fuel vm sp id :
  vm_ok vm sp -> spec_get sp id = None -> ov_vm_continue client fuel vm (Some id) = Ok (OV_EXEC_ERROR, vm).
Proof using Type.
  intros Hok Hg. pose proof (find_prog vm sp id Hok) as Hfind. rewrite Hg in Hfind.
  unfold ov_vm_continue. by rewrite Hfind.
Qed.

Lemma abort_prog_spec fuel vm sp id s fin :
  vm_ok vm sp -> spec_get sp id = Some s ->
  (forall code, instructions (public s) = Some code -> (length code <= fuel)%nat) ->
  exists i code, prog_for_id vm (Some id) = Some (Some i) /\ instructions (public s) = Some code /\
    match completed (public s) fin with
    | O => abort_program_with (execute client fuel) vm i fin = Undefined
    | j => exists vm' evs n sp', abort_program_with (execute client fuel) vm i fin = Ok vm' /\
        unwinds T code j evs n /\ events vm' = events vm ++ evs ++ noted N (resolve (alias_of sp) id) n /\
        vm_ok vm' sp' /\ after sp sp' (resolve (alias_of sp) id) s (Ended n)
    end.
Proof using Htame Hrep.
  intros Hok Hg Hf. pose proof (find_prog vm sp id Hok) as Hfind. rewrite Hg in Hfind.
  destruct Hfind as (idx & i & Hp & I & E & Et & Er & Eg & Hi & Hs & Hsp).
  destruct (get_parked vm sp id s Hok Hg) as (code & e & ins & Hc & G & Hst & q & Hq & Hstop).
  pose proof (good_length _ _ _ _ G). specialize (Hf code Hc). exists i, code. do 2 (split; [done|]).
  apply (abort_from vm sp idx I E Et Er Eg (ok_table _ _ Hok) (ok_notifier _ _ Hok) (ok_few _ _ Hok) _ i s Hi Hs
    code e ins Hc G) with (q := q); [intros id' s' _; by apply (ok_parked _ _ Hok)|done..|lia].
Qed.
(** *** Pruning *)

Lemma registered_get vm sp id s : vm_ok vm sp -> programs sp !! id = Some s -> spec_get sp id = Some s /\
  resolve (alias_of sp) id = id.
Proof using Type.
  intros [(idx & I & E & _) _ _ _ _] Hs. rewrite <- E in Hs. apply progs_of_Some in Hs as Hi.
  destruct Hi as (i & Hi & _). assert (Hres : resolve (alias_of sp) id = id)
    by (apply (resolve_registered _ _ _ I); by exists i).
  split; [|done]. unfold spec_get. destruct (inv_prog _ _ _ I _ _ Hi) as (-> & _). by rewrite Hres, <- E.
Qed.

(** The programs [ids] were overdue and are gone; unless [n] were, none is overdue any more. *)
Definition pruned (n : nat) (limit : Z) (sp sp' : db_spec) (ids : list string) : Prop :=
  programs sp' = foldr delete (programs sp) ids /\ NoDup ids /\
  (forall id, id ∈ ids -> exists s, programs sp !! id = Some s /\ start_time_epoch_usecs s < limit) /\
  (length ids <= n)%nat /\
  (length ids = n \/ forall id s, programs sp' !! id = Some s -> limit <= start_time_epoch_usecs s).

Lemma pruned_single n limit sp sp' ids id s :
  (1 < n)%nat -> programs sp = {[id := s]} -> start_time_epoch_usecs s < limit -> pruned n limit sp sp' ids ->
  programs sp' = ∅.
Proof using Type.
  intros Hn Hp Hlt (Hp' & Hnd & Hin & _ & Hleft). rewrite Hp in Hp'.
  assert (Hall : forall x, x ∈ ids -> x = id).
  { intros x Hx. destruct (Hin x Hx) as (s' & Hs' & _). rewrite Hp in Hs'.
    by apply lookup_singleton_Some in Hs' as [-> _]. }
  destruct ids as [|x ids].
  - destruct Hleft as [Hl|Hleft]; [cbn in Hl; lia|]. specialize (Hleft id s). rewrite Hp' in Hleft.
    cbn [foldr] in Hleft. rewrite lookup_singleton_eq in Hleft. specialize (Hleft eq_refl). lia.
  - assert (x = id) as -> by (apply Hall; by left). apply NoDup_cons in Hnd as [Hnin _].
    destruct ids as [|y ids]; [rewrite Hp'; cbn [foldr]; apply delete_singleton_eq|].
    destruct Hnin. rewrite (Hall y); [by left|right; by left].
Qed.
Lemma foldr_delete_comm (M : gmap string ProgState) id ids :
  foldr delete (delete id M) ids = delete id (foldr delete M ids).
Proof. induction ids as [|x ids IH]; [done|]. cbn [foldr]. by rewrite IH, delete_delete. Qed.

Lemma prune_loop_spec n fuel vm sp limit :
  vm_ok vm sp -> limit < 2 ^ 64 ->
  (forall id s code, programs sp !! id = Some s -> instructions (public s) = Some code -> (length code <= fuel)%nat) ->
  (forall id s, programs sp !! id = Some s -> start_time_epoch_usecs s < limit -> completed (public s) false <> O) ->
  exists vm' sp' ids, prune_loop client n fuel vm limit = Ok vm' /\ vm_ok vm' sp' /\ pruned n limit sp sp' ids.
Proof using Htame Hrep.
  revert vm sp. induction n as [|n IH]; intros vm sp Hok Hlim Hf Hdone;
    pose proof (refines_next_due (db vm) sp limit (ok_db _ _ Hok) Hlim) as Hdue; cbn [prune_loop];
    destruct (ov_vm_prog_db_next_due (db vm) limit) as [id|].
  1, 2: exists vm, sp, []; split; [done|]; split; [done|]; split; [done|]; split; [constructor|];
    split; [by intros id'; rewrite elem_of_nil|]; split; [done|by left].
  - destruct Hdue as (s & Hs & Hlt). destruct (registered_get vm sp id s Hok Hs) as [Hg Hres].
    destruct (abort_prog_spec fuel vm sp id s false Hok Hg ltac:(by intros code; apply (Hf id)))
      as (i & code & Hp & Hc & Hx). pose proof (Hdone id s Hs Hlt).
    destruct (completed (public s) false) as [|j]; [done|].
    destruct Hx as (vm1 & evs & m & sp1 & Hx & Hu & He & Hok1 & (_ & Hpr & _)). rewrite Hres in Hpr.
    unfold prog_for_id in Hp. rewrite Hp. cbn [defined mbind outcome_bind abort_program]. rewrite Hx.
    cbn [mbind outcome_bind].
    destruct (IH vm1 sp1 Hok1 Hlim) as (vm' & sp' & ids & -> & Hok' & Hprog & Hnd & Hin & Hlen & Hleft).
    { intros id' s' code'. rewrite Hpr, lookup_delete_Some. intros [_ H']. by apply (Hf id'). }
    { intros id' s'. rewrite Hpr, lookup_delete_Some. intros [_ H']. by apply (Hdone id'). }
    exists vm', sp', (id :: ids). split; [done|]. split; [done|]. unfold pruned. cbn [foldr length].
    split; [by rewrite Hprog, Hpr, foldr_delete_comm|]. split; [|split; [|split; [lia|]]].
    + apply NoDup_cons. split; [|done]. intros Hid. destruct (Hin id Hid) as (s' & Hs' & _).
      by rewrite Hpr, lookup_delete_eq in Hs'.
    + intros id' [->|Hid]%elem_of_cons; [by exists s|]. destruct (Hin id' Hid) as (s' & Hs' & Hlt').
      rewrite Hpr, lookup_delete_Some in Hs'. exists s'. by destruct Hs'.
    + destruct Hleft as [->|Hleft]; [by left|by right].
  - exists vm, sp, []. split; [done|]. split; [done|]. split; [done|]. split; [constructor|].
    split; [by intros id; rewrite elem_of_nil|]. split; [cbn; lia|by right].
Qed.

(** *** The calls of an abort *)

Definition called (evs : list (event H)) : list ov_vm_instr :=
  omap (fun ev => match ev with Called _ ins _ => Some ins | Notified _ _ => None end) evs.
Definition answers (evs : list (event H)) : list ov_vm_retval :=
  omap (fun ev => match ev with Called _ _ r => Some r | Notified _ _ => None end) evs.

Lemma unwinds_calls code j evs n : unwinds T code j evs n ->
  called evs `prefix_of` reverse (take j code) /\
  (n = program_aborted -> OC_FINISHED ∉ answers evs -> called evs = reverse (take j code)).
Proof using Type.
  induction 1 as [|j ins h r evs n Hins Hh Hr _ [IH1 IH2]|j ins h Hins Hh|j ins h Hins Hh|j ins Hins Hh].
  - split; [by exists []|done].
  - rewrite (take_S_r _ _ _ Hins), reverse_app. cbn [called omap list_omap reverse app rev_append]. split.
    + by apply prefix_cons.
    + intros Hn Ha. f_equal. apply IH2; [done|]. intros Hin. apply Ha. by right.
  - rewrite (take_S_r _ _ _ Hins), reverse_app. cbn. split; [by apply prefix_cons, prefix_nil|].
    intros _ []. by left.
  - rewrite (take_S_r _ _ _ Hins), reverse_app. cbn. split; [by apply prefix_cons, prefix_nil|done].
  - split; [apply prefix_nil|done].
Qed.
(** ** The properties *)

(** C3: aborting a waiting program undoes it, given handlers that leave the machine
    alone but for aliases - at most five for a program - and the program's result
    ([tame]), none of which asks for the repetition of what it reverts
    ([never_repeats]), and programs of known opcodes with an [OP_END] ([vm_ok]).
    Aborting a program that is registered, by its id or an alias, and has
    completed an instruction always returns; it calls the inverse handlers of the
    instructions the program has completed, the last one first and each once, up
    to the first that fails, has no inverse handler or answers that it is
    finished - all of them, when none does; then it notifies the client, takes
    the program and its aliases out and releases its data, once. No other program
    is touched, and every registered program still waits. An id that is not
    registered is refused without an effect. A program that has completed nothing
    cannot be aborted: the code then reads the instruction before the first one,
    which is undefined. The instruction a program waits in counts as completed
    only with [finish_current_step] and only if it is not to be repeated. *)
Theorem vm_abort_compensates fuel vm sp id fin :
  vm_ok vm sp ->
  match spec_get sp id with
  | None => ov_vm_abort_with client fuel vm (Some id) fin = Ok (false, vm)
  | Some s => forall code, instructions (public s) = Some code -> (length code <= fuel)%nat ->
      match completed (public s) fin with
      | O => ov_vm_abort_with client fuel vm (Some id) fin = Undefined
      | j => exists vm' evs n sp', ov_vm_abort_with client fuel vm (Some id) fin = Ok (true, vm') /\
          unwinds T code j evs n /\ called evs `prefix_of` reverse (take j code) /\
          (n = program_aborted -> OC_FINISHED ∉ answers evs -> called evs = reverse (take j code)) /\
          events vm' = events vm ++ evs ++ noted N (resolve (alias_of sp) id) n /\
          vm_ok vm' sp' /\ after sp sp' (resolve (alias_of sp) id) s (Ended n)
      end
  end.
Proof using Htame Hrep.
  intros Hok. unfold ov_vm_abort_with. destruct (spec_get sp id) as [s|] eqn:Hg.
  - intros code Hc Hf. destruct (abort_prog_spec fuel vm sp id s fin Hok Hg) as
      (i & code' & -> & Hc' & Hx); [by intros ? ?; simplify_eq|].
    simplify_eq. cbn [defined mbind outcome_bind]. destruct (completed (public s) fin) as [|j]; [by rewrite Hx|].
    destruct Hx as (vm' & evs & n & sp' & Hx & Hu & He & Hok' & Ha). rewrite Hx. cbn [mbind outcome_bind].
    destruct (unwinds_calls _ _ _ _ Hu). by exists vm', evs, n, sp'.
  - pose proof (find_prog vm sp id Hok) as Hfind. rewrite Hg in Hfind. by rewrite Hfind.
Qed.


(** Continuing a program that waits, by its id or an alias, goes on at the
    instruction where it stopped - that one again, if it is to be repeated - and
    then like a triggered one; it returns unless it fails in its first instruction. *)
Lemma vm_continue_resumes fuel vm sp id :
  vm_ok vm sp ->
  match spec_get sp id with
  | None => ov_vm_continue client fuel vm (Some id) = Ok (OV_EXEC_ERROR, vm)
  | Some s => forall code, instructions (public s) = Some code -> (2 * length code <= fuel)%nat ->
      exists evs f, runs T code (Z.to_nat (program_counter (public s))) evs f /\
        returns (ov_vm_continue client fuel vm (Some id)) vm sp (resolve (alias_of sp) id) s evs f
  end.
Proof using Htame Hrep.
  intros Hok. destruct (spec_get sp id) as [s|] eqn:Hg; [|by eapply continue_absent].
  intros code Hc Hf. destruct (get_parked vm sp id s Hok Hg) as (code' & e & ins & Hc' & G & Hst & q & Hq & Hstop).
  simplify_eq. pose proof (good_length _ _ _ _ G).
  eapply continue_spec; [done|done|done|exact G| |lia]. destruct Hstop as [[-> _]|[-> _]]; lia.
Qed.

(** C18: no program waits forever: under the conditions of C3 - [tame] handlers, none
    of which repeats what it reverts, and programs of known opcodes with an
    [OP_END] - the callback of the timer returns whenever every overdue program
    has completed an instruction (the abort of one that waits in its first is
    undefined), and afterwards five overdue programs are gone, or all that were.
    It takes out no program that is not overdue, and every registered program
    still waits. *)
Theorem vm_timer_prunes_overdue fuel vm sp now :
  let limit := u64 (now - program_timeout_usecs vm) in
  vm_ok vm sp ->
  (forall id s code, programs sp !! id = Some s -> instructions (public s) = Some code -> (length code <= fuel)%nat) ->
  (forall id s, programs sp !! id = Some s -> start_time_epoch_usecs s < limit -> completed (public s) false <> O) ->
  exists vm' sp' ids, timer_callback client fuel vm now = Ok (true, vm') /\ vm_ok vm' sp' /\
    pruned 5 limit sp sp' ids.
Proof using Htame Hrep.
  intros limit Hok Hf Hdone. unfold timer_callback, prune_overdue_requests. fold limit.
  assert (limit < 2 ^ 64) by (unfold limit, u64; pose proof (Z.mod_pos_bound (now - program_timeout_usecs vm) (2 ^ 64)); lia).
  destruct (prune_loop_spec 5 fuel vm sp limit Hok) as (vm' & sp' & ids & -> & ? & ?); [done..|].
  by exists vm', sp', ids.
Qed.
End Life.

(** Registering an opcode is refused without an effect exactly for
    [OP_END], [OP_NOP], opcode 255 (the table has 255 entries) and a missing
    symbol or handler; otherwise the instructions with this opcode, and no
    others, have the handlers given, a missing inverse handler replaced by one
    that does nothing. [OP_INVALID] may be registered but is never executed. *)
Lemma vm_register_exact {H W} (vm : ov_vm H W) oc sym h inv :
  0 <= oc < 256 -> length (opcode_defs vm) = UINT8_MAX ->
  let '(ok, vm') := ov_vm_register vm oc sym h inv in
  (ok = true <-> (oc <> OP_END /\ oc <> OP_NOP /\ oc <> 255) /\ is_Some sym /\ is_Some h) /\
  (ok = false -> vm' = vm) /\ length (opcode_defs vm') = UINT8_MAX /\ db vm' = db vm /\
  (ok = true -> forall ins, 0 <= opcode ins < 255 ->
     fw_handler (opcode_defs vm') ins =
       (if bool_decide (opcode ins = oc /\ oc <> OP_INVALID) then h else fw_handler (opcode_defs vm) ins) /\
     bw_handler (opcode_defs vm') ins =
       (if bool_decide (opcode ins = oc /\ oc <> OP_INVALID) then Some (default inv_handler_dummy inv)
        else bw_handler (opcode_defs vm) ins)).
Proof.
  intros Hoc Hlen. unfold ov_vm_register, opcodedef, OP_END, OP_NOP, UINT8_MAX in *.
  destruct (Z.leb_spec (Z.of_nat 255) oc); [by split; [split; [done|lia]|done]|].
  destruct (lookup_lt_is_Some_2 (opcode_defs vm) (Z.to_nat oc) ltac:(lia)) as [d ->].
  destruct (Z.eqb_spec 0 oc) as [|Hn0]; [by split; [split; [done|lia]|done]|].
  destruct (Z.eqb_spec 253 oc) as [|Hn1]; [by split; [split; [done|lia]|done]|]. cbn [orb].
  destruct sym as [sym|]; [|by split; [split; [done|by intros (_ & [? ?] & _)]|done]].
  destruct h as [h|]; [|by split; [split; [done|by intros (_ & _ & [? ?])]|done]].
  split; [split; [intros _; repeat split; (lia || by eexists)|done]|]. split; [done|]. cbn [set_opcodes opcode_defs db].
  split; [by rewrite length_insert|]. split; [done|]. intros _ ins Hins. unfold fw_handler, bw_handler.
  destruct (Z.eqb_spec OP_INVALID (opcode ins)) as [Hi|Hi].
  { rewrite bool_decide_eq_false_2 by (intros [? ?]; congruence). done. }
  destruct (decide (opcode ins = oc)) as [E|Hne].
  - rewrite bool_decide_eq_true_2 by (split; congruence). rewrite E, list_lookup_insert_eq by lia.
    by destruct inv.
  - rewrite bool_decide_eq_false_2 by (by intros [? _]). by rewrite list_lookup_insert_ne by lia.
Qed.

(** ** A client

    Its handlers are the answers they give; each counts its calls. *)
Definition count {H} (vm : ov_vm H nat) : ov_vm H nat :=
  {| opcode_defs := opcode_defs vm; db := db vm; program_timeout_usecs := program_timeout_usecs vm;
     notifier := notifier vm; events := events vm; world := S (world vm) |}.
Definition answer (h : ov_vm_retval) (vm : ov_vm ov_vm_retval nat) (i : nat)
    : option (ov_vm_retval * ov_vm ov_vm_retval nat) := Some (h, count vm).

Lemma answer_tame : tame answer.
Proof.
  intros h vm i idx A s I Few _ Hs. exists h, (count vm), A, s. do 3 (split; [done|]).
  split; [|done]. symmetry. by apply list_insert_id.
Qed.

(** Opcode 1 goes on, 2 waits, 3 fails, 4 is to be repeated; each is reverted by going on. *)
Definition demo_opcodes : list (Z * ov_vm_retval) := [(1, OC_NEXT); (2, OC_WAIT_AND_NEXT); (3, OC_ERROR); (4, OC_WAIT_AND_REPEAT)].
Definition demo_vm : option (ov_vm ov_vm_retval nat) :=
  vm ← ov_vm_create 2 1000 true (fun _ => true) 0%nat;
  Some (fold_left (fun vm '(oc, h) => (ov_vm_register vm oc (Some "DEMO"%string) (Some (client_handler h))
                                         (Some (client_handler OC_NEXT))).2) demo_opcodes vm).
Definition demo_instr (oc : Z) : ov_vm_instr := {| opcode := oc; args := (0, 0, 0) |}.
Definition demo_code : list ov_vm_instr := demo_instr <$> [1; 1; 2; 1; OP_END].

Lemma demo_created : exists vm, demo_vm = Some vm /\ db_refines (db vm) (spec_create 2 true).
Proof.
  destruct (db_create_spec 2 true) as (d & Hc & I & _ & Ht & Hset & Hrel); [lia|done|].
  eexists. split; [unfold demo_vm, ov_vm_create; rewrite Hc; reflexivity|].
  exists ∅. split; [exact I|]. split; [apply omap_empty|]. split; [exact Ht|]. split; [exact Hset|exact Hrel].
Qed.
Definition demo_table : list (OpcodeDef ov_vm_retval) := from_option opcode_defs [] demo_vm.
Lemma demo_never_repeats : never_repeats answer demo_table.
Proof.
  assert (Hall : forallb (fun def : OpcodeDef ov_vm_retval =>
    match inv_handler def with Some (client_handler OC_WAIT_AND_REPEAT) => false | _ => true end) demo_table = true)
    by by vm_compute.
  intros def h vm i r vm' Hin Hh [= <- <-] ->. rewrite forallb_forall in Hall.
  specialize (Hall def). rewrite Hh in Hall. apply list_elem_of_In in Hin. by apply Hall in Hin.
Qed.
Lemma demo_ok : exists vm, demo_vm = Some vm /\ vm_ok demo_table (fun _ => true) vm (spec_create 2 true).
Proof.
  destruct demo_created as (vm & E & R). exists vm. split; [done|]. split; [done|by unfold demo_table; rewrite E| | |].
  - unfold demo_vm in E. destruct (ov_vm_create 2 1000 true (fun _ => true) 0%nat) as [vm0|] eqn:E0; [|done].
    injection E as <-. unfold ov_vm_create in E0. destruct (ov_vm_prog_db_create 2 true); [|done].
    injection E0 as <-. reflexivity.
  - intros id. apply Nat.le_0_l.
  - intros id s. cbn [spec_create programs]. by rewrite lookup_empty.
Qed.
Lemma demo_good : good_code demo_table demo_code 4 (demo_instr OP_END).
Proof.
  split; [|done|by vm_compute].
  intros k ins Hk. do 5 (destruct k as [|k]; [injection Hk as <-; by eexists; vm_compute|]). done.
Qed.

(** The machine in which the program waits in its third instruction. *)
Definition demo_start (o : option (ov_vm ov_vm_retval nat)) : ov_vm_exec_result * option (ov_vm ov_vm_retval nat) :=
  match o with
  | Some vm => match ov_vm_trigger answer 20 vm (Some demo_code) (Some "prog"%string) (Some 42) 1000 with
               | Ok (r, vm) => (r, Some vm)
               | _ => (OV_EXEC_OK, None)
               end
  | None => (OV_EXEC_OK, None)
  end.
Definition demo_waiting : ov_vm_exec_result * option (ov_vm ov_vm_retval nat) := demo_start demo_vm.
Definition demo_find (o : option (ov_vm ov_vm_retval nat)) : option ProgState :=
  vm ← o; p ← ov_vm_prog_db_get (db vm) (Some "prog"%string); i ← p; pool_states (db vm) !! i.
Definition demo_found : option ProgState := demo_find demo_waiting.2.

Lemma demo_start_ok vm r vm' :
  ov_vm_trigger answer 20 vm (Some demo_code) (Some "prog"%string) (Some 42) 1000 = Ok (r, vm') ->
  demo_start (Some vm) = (r, Some vm').
Proof. unfold demo_start. by intros ->. Qed.
Lemma demo_start_undefined vm :
  ov_vm_trigger answer 20 vm (Some demo_code) (Some "prog"%string) (Some 42) 1000 = Undefined ->
  demo_start (Some vm) = (OV_EXEC_OK, None).
Proof. unfold demo_start. by intros ->. Qed.
Lemma demo_find_ok vm (T : list (OpcodeDef ov_vm_retval)) N sp : vm_ok T N vm sp -> demo_find (Some vm) = spec_get sp "prog".
Proof.
  intros Hok. destruct (refines_get _ _ "prog" (ok_db _ _ _ _ Hok)) as (p & Hp & <-).
  unfold demo_find. cbn [mbind option_bind]. by rewrite Hp.
Qed.
Lemma demo_is_waiting : demo_waiting.1 = OV_EXEC_WAIT.
Proof. by vm_compute. Qed.
Lemma demo_found_state : exists s, demo_found = Some s /\ instructions (public s) = Some demo_code /\
  program_counter (public s) = 3 /\ completed (public s) false = 2%nat.
Proof. eexists. split; [vm_compute; reflexivity|done]. Qed.

Lemma demo_waiting_start : demo_waiting = demo_start demo_vm.
Proof. unfold demo_waiting. reflexivity. Qed.
Lemma demo_found_find : demo_found = demo_find demo_waiting.2.
Proof. unfold demo_found. reflexivity. Qed.
Lemma demo_defined vm : demo_vm = Some vm ->
  ov_vm_trigger answer 20 vm (Some demo_code) (Some "prog"%string) (Some 42) 1000 <> Undefined.
Proof.
  intros E Ht%demo_start_undefined. pose proof demo_is_waiting as Hw. by rewrite demo_waiting_start, E, Ht in Hw.
Qed.
Lemma demo_accepted : accepts (spec_create 2 true) "prog" = true.
Proof. by vm_compute. Qed.
Lemma demo_inserted : programs (spec_op (spec_create 2 true) (Insert "prog" demo_code (Some 42) 1000)).2 =
  <["prog"%string := fresh_program "prog" demo_code (Some 42) 1000]> ∅.
Proof. cbn [spec_op]. rewrite demo_accepted. reflexivity. Qed.
Lemma demo_waits : exists vm sp s, demo_waiting = (OV_EXEC_WAIT, Some vm) /\
  vm_ok demo_table (fun _ => true) vm sp /\ spec_get sp "prog" = Some s /\ demo_found = Some s /\
  instructions (public s) = Some demo_code /\ program_counter (public s) = 3 /\ completed (public s) false = 2%nat /\
  programs sp = {["prog"%string := s]}.
Proof.
  destruct demo_ok as (vm & E & Hok). destruct demo_found_state as (s & Hs & Hprops).
  destruct (trigger_accepted answer answer_tame demo_table (fun _ => true) demo_never_repeats 20 vm _ demo_code 4
    (demo_instr OP_END) "prog" (Some 42) 1000 Hok demo_good ltac:(lia) demo_accepted) as (evs & f & _ & Ht).
  pose proof demo_is_waiting as Hw. rewrite demo_waiting_start, E in Hw.
  assert (Hx : exists vm' sp', ov_vm_trigger answer 20 vm (Some demo_code) (Some "prog"%string) (Some 42) 1000 =
    Ok (result_of f, vm') /\ vm_ok demo_table (fun _ => true) vm' sp' /\
    after (spec_op (spec_create 2 true) (Insert "prog" demo_code (Some 42) 1000)).2 sp' "prog"
      (fresh_program "prog" demo_code (Some 42) 1000) f).
  { destruct f; [destruct Ht as (vm' & sp' & ? & _ & ? & ?); by exists vm', sp'..|].
    by rewrite (demo_start_undefined _ Ht) in Hw. }
  destruct Hx as (vm' & sp' & Hx & Hok' & Haft). apply demo_start_ok in Hx. rewrite Hx in Hw. cbn [fst] in Hw.
  assert (Hd : demo_waiting = (OV_EXEC_WAIT, Some vm')) by (rewrite demo_waiting_start, E, Hx, Hw; reflexivity).
  assert (Hget : spec_get sp' "prog" = Some s)
    by (rewrite <- (demo_find_ok _ _ _ _ Hok'), <- Hs, demo_found_find, Hd; reflexivity).
  exists vm', sp', s. destruct Hprops as (H1 & H2 & H3). split; [exact Hd|]. split; [exact Hok'|].
  split; [exact Hget|]. split; [exact Hs|]. split; [exact H1|]. split; [exact H2|]. split; [exact H3|].
  destruct f as [n|pc r|]; [by destruct n|..|by destruct Haft as [_ []]].
  destruct Haft as (_ & _ & _ & s' & Hp & _). rewrite demo_inserted, insert_insert_eq in Hp.
  destruct (registered_get _ _ vm' sp' "prog" s' Hok') as [Hget' _]; [by rewrite Hp, lookup_insert_eq|].
  clear -Hget Hget' Hp. rewrite Hget in Hget'. injection Hget' as ->. rewrite Hp. apply insert_empty.
Qed.
(** Its timeout and its start. *)
Lemma demo_times : (program_timeout_usecs <$> demo_waiting.2) = Some 1000000 /\
  (start_time_epoch_usecs <$> demo_found) = Some 1000.
Proof. by vm_compute. Qed.

(** The two instructions before the one that waits are reverted. *)
Lemma vm_abort_compensates_witness : exists vm s vm' evs n, demo_waiting = (OV_EXEC_WAIT, Some vm) /\
  demo_found = Some s /\ ov_vm_abort_with answer 20 vm (Some "prog"%string) false = Ok (true, vm') /\
  unwinds demo_table demo_code 2 evs n /\ completed (public s) false = 2%nat.
Proof.
  destruct demo_waits as (vm & sp & s & E & Hok & Hg & Hs & Hcode & _ & Hdone & _).
  pose proof (vm_abort_compensates answer answer_tame demo_table (fun _ => true) demo_never_repeats 20 vm sp "prog" false Hok)
    as Ha. rewrite Hg in Ha. specialize (Ha demo_code Hcode ltac:(vm_compute; lia)). rewrite Hdone in Ha.
  destruct Ha as (vm' & evs & n & sp' & Hx & Hu & _). exists vm, s, vm', evs, n. split; [exact E|]. split; [exact Hs|].
  split; [exact Hx|]. split; [exact Hu|exact Hdone].
Defined.
Lemma vm_continue_resumes_witness : exists vm s evs f, demo_waiting = (OV_EXEC_WAIT, Some vm) /\
  demo_found = Some s /\ runs demo_table demo_code 3 evs f /\ program_counter (public s) = 3 /\
  (f <> Broken -> exists vm', ov_vm_continue answer 20 vm (Some "prog"%string) = Ok (result_of f, vm')).
Proof.
  destruct demo_waits as (vm & sp & s & E & Hok & Hg & Hs & Hcode & Hpc & _).
  pose proof (vm_continue_resumes answer answer_tame demo_table (fun _ => true) demo_never_repeats 20 vm sp "prog" Hok)
    as Ha. rewrite Hg in Ha.
  destruct (Ha demo_code Hcode ltac:(vm_compute; lia)) as (evs & f & Hr & Hx).
  rewrite Hpc in Hr. exists vm, s, evs, f. split; [exact E|]. split; [exact Hs|]. split; [exact Hr|].
  split; [exact Hpc|]. intros Hf. destruct f as [n|pc r|]; [| |by destruct Hf]; destruct Hx as (vm' & sp' & Hx & _); by exists vm'.
Defined.
(** The program that waits, started at time 1000 with a timeout of one second, is
    overdue five seconds later: the timer reverts it and takes it out. *)
Lemma vm_timer_prunes_overdue_witness : exists vm s vm' sp sp', demo_waiting = (OV_EXEC_WAIT, Some vm) /\
  programs sp !! "prog"%string = Some s /\ start_time_epoch_usecs s < u64 (5000000 - program_timeout_usecs vm) /\
  timer_callback answer 20 vm 5000000 = Ok (true, vm') /\ vm_ok demo_table (fun _ => true) vm' sp' /\
  programs sp' = ∅.
Proof.
  destruct demo_waits as (vm & sp & s & E & Hok & Hg & Hs & Hcode & _ & Hdone & Hp).
  destruct demo_times as [Hlimit Hstart]. rewrite E in Hlimit. rewrite Hs in Hstart.
  cbn [fmap option_fmap option_map snd] in Hlimit, Hstart. injection Hlimit as Hlimit. injection Hstart as Hstart.
  destruct (vm_timer_prunes_overdue answer answer_tame demo_table (fun _ => true) demo_never_repeats 20 vm sp 5000000 Hok)
    as (vm' & sp' & ids & Ht & Hok' & Hpr).
  - intros id s' code. rewrite Hp, lookup_singleton_Some. intros [_ <-] Hc. rewrite Hcode in Hc.
    injection Hc as <-. vm_compute. lia.
  - intros id s'. rewrite Hp, lookup_singleton_Some. intros [_ <-] _. by rewrite Hdone.
  - exists vm, s, vm', sp, sp'. split; [exact E|]. split; [by rewrite Hp, lookup_singleton_eq|].
    assert (Hlt : start_time_epoch_usecs s < u64 (5000000 - program_timeout_usecs vm))
      by (rewrite Hlimit, Hstart; by vm_compute).
    split; [exact Hlt|]. split; [exact Ht|]. split; [exact Hok'|].
    exact (pruned_single 5 _ sp sp' ids _ s ltac:(lia) Hp Hlt Hpr).
Defined.
Lemma vm_register_exact_witness : exists vm, demo_vm = Some vm /\ 0 <= 255 < 256 /\
  (ov_vm_register vm 255 (Some "X"%string) (Some nop_handler) None).1 = false.
Proof.
  destruct demo_created as (vm & E & _). exists vm. split; [exact E|]. split; [lia|].
  assert (Hl : length (opcode_defs vm) = UINT8_MAX).
  { assert (Hd : from_option (fun vm => length (opcode_defs vm)) 0%nat demo_vm = UINT8_MAX) by by vm_compute.
    by rewrite E in Hd. }
  pose proof (vm_register_exact vm 255 (Some "X"%string) (Some nop_handler) None ltac:(lia) Hl) as Hr.
  destruct (ov_vm_register vm 255 (Some "X"%string) (Some nop_handler) None) as [ok vm']. destruct Hr as [Hr _].
  cbn. destruct ok; [|reflexivity]. destruct (proj1 Hr eq_refl) as [[_ [_ Hx]] _]. by destruct Hx.
Defined.

(** ** What a client meets *)

(** The outcome of triggering a program in the client's machine: the result and
    the notifications, or that it is undefined. *)
Definition demo_trigger (opcodes : list Z) : outcome (ov_vm_exec_result * list notification) :=
  vm ← defined demo_vm;
  '(r, vm) ← ov_vm_trigger answer 20 vm (Some (demo_instr <$> opcodes)) (Some "prog"%string) None 0;
  Ok (r, omap (fun ev => match ev with Notified n _ => Some n | _ => None end) (events vm)).
(** When the first instruction fails, the instruction before it is read. *)
Lemma abort_at_first_reads_before : demo_trigger [3; OP_END] = Undefined.
Proof. by vm_compute. Qed.
(** A program that waits in its first instruction runs on when it is continued,
    but aborting it reads the instruction before the first one. *)
Definition demo_first_waits (call : ov_vm ov_vm_retval nat -> outcome ov_vm_exec_result) : outcome ov_vm_exec_result :=
  vm ← defined demo_vm;
  '(_, vm) ← ov_vm_trigger answer 20 vm (Some (demo_instr <$> [2; OP_END])) (Some "prog"%string) None 0;
  call vm.
Lemma abort_in_first_reads_before :
  demo_trigger [2; OP_END] = Ok (OV_EXEC_WAIT, []) /\
  demo_first_waits (fun vm => '(r, _) ← ov_vm_continue answer 20 vm (Some "prog"%string); Ok r) = Ok OV_EXEC_OK /\
  demo_first_waits (fun vm => '(_, _) ← ov_vm_abort_with answer 20 vm (Some "prog"%string) false; Ok OV_EXEC_OK)
    = Undefined.
Proof. by vm_compute. Qed.
(** Opcode 255 is looked up behind the table of handlers. *)
Lemma opcode_255_reads_past_table : demo_trigger [1; 255; OP_END] = Undefined.
Proof. by vm_compute. Qed.
(** [OP_NOP] has no inverse handler, so a program with one cannot be aborted. *)
Lemma nop_fails_to_abort :
  demo_trigger [1; OP_NOP; 3; OP_END] = Ok (OV_EXEC_ERROR, [program_failed_to_abort]) /\
  demo_trigger [1; 1; 3; OP_END] = Ok (OV_EXEC_ERROR, [program_aborted]).
Proof. by vm_compute. Qed.
