(* ===== verification/G711.v ===== *)
(** * The G.711 codec (src/lib/ov_codec/src/ov_codec_g711.c)

    A-law and mu-law. Samples are 16 bit integers of the host, which is little
    endian; [None] stands for a failing assertion as well as for an access
    outside of the memory. The codec's configuration is looked up in JSON by the
    caller: [law_from_parameters] takes the string found there. *)
From S2P Require Import Prelude CMem.

(** ** The code *)

Definition HIGH_ORDER_BIT : Z := 0x80.
Definition EVEN_BITS : Z := 0x01 .| 0x04 .| 0x10 .| 0x40.
Definition MANTISSA_MASK : Z := 0x0f.
Definition EXPONENT_MASK : Z := 0x70.
Definition INVERT_EVEN_BITS (x : Z) : Z := x .^ EVEN_BITS.
Definition A_LAW_SIGN (x : Z) : Z := if x .& HIGH_ORDER_BIT =? HIGH_ORDER_BIT then 1 else -1.
Definition U_LAW_SIGN (x : Z) : Z := if x .& HIGH_ORDER_BIT =? HIGH_ORDER_BIT then -1 else 1.
(** The conversion to a signed type. *)
Definition s16 (x : Z) : Z := (x + 2 ^ 15) mod 2 ^ 16 - 2 ^ 15.
Definition s32 (x : Z) : Z := (x + 2 ^ 31) mod 2 ^ 32 - 2 ^ 31.

Definition alaw_expand (x : Z) : option Z :=
  let s := A_LAW_SIGN x in
  let intermediate := u8 (INVERT_EVEN_BITS x) in
  let mantissa := intermediate .& MANTISSA_MASK in
  let exponent := (intermediate .& EXPONENT_MASK) .>> 4 in
  let mantissa := if 0 <? exponent then mantissa + 0x10 else mantissa in
  let exponent := if 0 =? exponent then 1 else exponent in
  let result_abs := u16 (mantissa .<< exponent) in
  let result_abs := u16 (result_abs + (1 .<< (exponent - 1))) in
  _ ← OV_ASSERT (result_abs <? 0x8000);
  Some (s16 (s * s16 result_abs)).

(** The loops shift a 16 bit integer right until a bound: 16 rounds are enough. *)
Fixpoint exponent_loop (fuel : nat) (x exp : Z) : option Z :=
  match fuel with
  | O => None
  | S fuel => if 0 <? x then exponent_loop fuel (x .>> 1) (u8 (exp + 1)) else Some exp
  end.
Definition alaw_get_exponent (x : Z) : option Z :=
  _ ← OV_ASSERT (x <? 0x1000);
  exponent_loop 17 ((x .& 0x7fff) .>> 5) 0.

Definition alaw_compress (x : Z) : option Z :=
  if 4032 <? x then Some (u8 (INVERT_EVEN_BITS 0xff)) else
  if x <? -4032 then Some (u8 (INVERT_EVEN_BITS 0x7f)) else
  let s := if x <? 0 then -1 else 1 in
  let x := if x <? 0 then s16 (- x) else x in
  _ ← OV_ASSERT (-1 <? x);
  let abs := u16 x in
  _ ← OV_ASSERT (abs <? 0x1000);
  exp ← alaw_get_exponent abs;
  let shift := if 0 =? exp then 1 else exp in
  _ ← OV_ASSERT (exp <? 1 .<< 4);
  _ ← OV_ASSERT (shift <? 8);
  let abs := (abs .>> shift) .& 0x0f in
  let compressed := u8 abs in
  let compressed := u8 (compressed .| (exp .<< 4)) in
  let compressed := if 0 <? s then compressed .| HIGH_ORDER_BIT else compressed in
  Some (u8 (INVERT_EVEN_BITS compressed)).

Definition ulaw_expand (x : Z) : option Z :=
  let x := u8 (x .^ 0xff) in
  let s := U_LAW_SIGN x in
  let exponent := (x .& EXPONENT_MASK) .>> 4 in
  let mantissa := x .& MANTISSA_MASK in
  let mantissa := u16 (mantissa .<< 1) in
  let mantissa := mantissa .| 0x21 in
  let mantissa := u16 (mantissa .<< exponent) in
  let result := s16 mantissa in
  let result := s16 (result - 0x21) in
  Some (s16 (s * result)).

Fixpoint ulaw_loop (fuel : nat) (u exp : Z) : option (Z * Z) :=
  match fuel with
  | O => None
  | S fuel => if 0x40 <=? u then ulaw_loop fuel (u .>> 1) (u8 (exp + 1)) else Some (u, exp)
  end.
Definition ulaw_compress (x : Z) : option Z :=
  if 8158 <? x then Some 0x80 else
  if x <? -8158 then Some 0x00 else
  let s := if x <? 0 then -1 else 1 in
  let x := if x <? 0 then s16 (- x) else x in
  let u := u16 x in
  _ ← OV_ASSERT (u <? 8159);
  let u := u16 (u + 0x21) in
  _ ← OV_ASSERT (u <? 0x2000);
  '(u, exp) ← ulaw_loop 17 u 0;
  _ ← OV_ASSERT (u <=? 0x40);
  _ ← OV_ASSERT (exp <=? 7);
  let u := (u .>> 1) .& 0x0f in
  let result := u8 (u .| (exp .<< 4)) in
  let result := if s <? 0 then result .| HIGH_ORDER_BIT else result in
  Some (u8 (result .^ 0xff)).

(** *** The codec *)

Inductive Law := ULAW | ALAW | INVALID.

Definition CONFIG_KEY_G711_ALAW : string := "alaw".
Definition CONFIG_KEY_G711_ULAW : string := "ulaw".
(** [None]: there are no parameters, or no law among them. *)
Definition law_from_parameters (law_string : option string) : Law :=
  match law_string with
  | None => ULAW
  | Some law_string =>
      if bool_decide (law_string = CONFIG_KEY_G711_ULAW) then ULAW
      else if bool_decide (law_string = CONFIG_KEY_G711_ALAW) then ALAW
      else INVALID
  end.

(** [None] stands for the null pointer. *)
Record codec_g711 := { compress : option (Z -> option Z); expand : option (Z -> option Z); rtp_payload_type : Z }.
Definition impl_codec_create (law_string : option string) : option codec_g711 :=
  match law_from_parameters law_string with
  | ULAW => Some {| expand := Some ulaw_expand; compress := Some ulaw_compress; rtp_payload_type := 0 |}
  | ALAW => Some {| expand := Some alaw_expand; compress := Some alaw_compress; rtp_payload_type := 8 |}
  | INVALID => None
  end.

Definition INT_MAX : Z := 2 ^ 31 - 1.

(** [output[i] = compress(in[i])] for [n] samples. *)
Fixpoint compress_loop (compress : Z -> option Z) (m : mem) (input output : ptr) (n : nat) : option mem :=
  match n with
  | O => Some m
  | S n =>
      x ← load16 m input;
      c ← compress (s16 x);
      m ← store8 m output c;
      compress_loop compress m (input + 2) (output + 1) n
  end.
Definition impl_encode (self : option codec_g711) (m : mem) (input : ptr) (length : Z) (output : ptr)
    (max_out_length : Z) : option (Z * mem) :=
  match self with
  | None => Some (0, m)
  | Some g711 =>
      if (input =? NULL) || (output =? NULL) then Some (0, m) else
      if (0 =? length) || (2 * INT_MAX <? length) then Some (0, m) else
      let num_samples := length / 2 in
      if negb (num_samples * 2 =? length) then Some (0, m) else
      match compress g711 with
      | None => Some (0, m)
      | Some compress =>
          if max_out_length <? num_samples then Some (0, m) else
          m ← compress_loop compress m input output (Z.to_nat num_samples);
          Some (num_samples, m)
      end
  end.

Fixpoint expand_loop (expand : Z -> option Z) (m : mem) (input output : ptr) (n : nat) : option mem :=
  match n with
  | O => Some m
  | S n =>
      x ← load8 m input;
      y ← expand x;
      m ← store16 m output (u16 y);
      expand_loop expand m (input + 1) (output + 2) n
  end.
Definition impl_decode (self : option codec_g711) (m : mem) (input : ptr) (length : Z) (output : ptr)
    (max_out_length : Z) : option (Z * mem) :=
  match self with
  | None => Some (0, m)
  | Some g711 =>
      if (input =? NULL) || (output =? NULL) then Some (0, m) else
      if 0 =? length then Some (0, m) else
      match expand g711 with
      | None => Some (0, m)
      | Some expand =>
          if (max_out_length =? 0) || (2 * INT_MAX <? max_out_length) then Some (0, m) else
          let samples_to_decode := max_out_length / 2 in
          if negb (samples_to_decode * 2 =? max_out_length) then Some (0, m) else
          let samples_to_decode := if length <? samples_to_decode then length else samples_to_decode in
          if samples_to_decode <? length then Some (0, m) else
          m ← expand_loop expand m input output (Z.to_nat samples_to_decode);
          Some (s32 (samples_to_decode * 2), m)
      end
  end.

(** ** One sample *)

Definition clamp (limit x : Z) : Z := Z.max (- limit) (Z.min limit x).
Definition is_octet (c : Z) : bool := (0 <=? c) && (c <? 256).
(** What a sample may become: 1/32 of its size, and one unit for the small ones. *)
Definition close (limit x y : Z) : Prop := 32 * Z.abs (y - clamp limit x) <= Z.abs (clamp limit x) + 33.

Definition sample_ok (limit : Z) (compress expand : Z -> option Z) (x : Z) : bool :=
  match compress x with
  | Some c => is_octet c && match expand c with
      | Some y => (32 * Z.abs (y - clamp limit x) <=? Z.abs (clamp limit x) + 33) && (- 2 ^ 15 <=? y) && (y <? 2 ^ 15)
      | None => false
      end
  | None => false
  end.
Lemma sample_ok_spec limit compress expand x :
  sample_ok limit compress expand x = true -> exists c y,
    compress x = Some c /\ is_byte c /\ expand c = Some y /\ close limit x y /\ - 2 ^ 15 <= y < 2 ^ 15.
Proof.
  unfold sample_ok, is_octet, is_byte, close. destruct (compress x) as [c|]; [|done].
  destruct (expand c) as [y|] eqn:E; [|by rewrite andb_false_r].
  intros H. exists c, y. rewrite !andb_true_iff, !Z.leb_le, !Z.ltb_lt in H. rewrite E. tauto.
Qed.

(** The samples that are not cut off, exhaustively. *)
Lemma alaw_inner : for_range (-4032) (Z.to_nat 8065) (sample_ok 4032 alaw_compress alaw_expand) = true.
Proof. by vm_compute. Qed.
Lemma ulaw_inner : for_range (-8158) (Z.to_nat 16317) (sample_ok 8158 ulaw_compress ulaw_expand) = true.
Proof. by vm_compute. Qed.
(** The others are coded like the largest ones. *)
Lemma sample_ok_cut limit compress expand x c y :
  0 < limit -> compress x = Some c -> is_octet c = true -> expand c = Some y -> - 2 ^ 15 <= y < 2 ^ 15 ->
  limit < Z.abs x -> 32 * Z.abs (y - (if 0 <? x then limit else - limit)) <= limit + 33 ->
  sample_ok limit compress expand x = true.
Proof.
  intros Hl Hc Ho Hy Hr Hx Hb. unfold sample_ok. rewrite Hc, Ho, Hy.
  rewrite !andb_true_iff, !Z.leb_le, !Z.ltb_lt. unfold clamp.
  destruct (Z.ltb_spec 0 x); split; [lia|split; lia|lia|split; lia] || (split; [split; [done|split; lia]|lia]).
Qed.
Definition back_ok (compress expand : Z -> option Z) (c : Z) : bool :=
  match (y ← expand c; compress y) with Some c' => c' =? c | None => false end.
(** Every octet is the code of the sample it stands for; mu-law has a second
    code, 127, for 0. *)
Lemma octets_back :
  for_range 0 256 (back_ok alaw_compress alaw_expand) = true /\
  for_range 0 256 (fun c => (c =? 127) || back_ok ulaw_compress ulaw_expand c) = true.
Proof. by vm_compute. Qed.

Lemma alaw_sample x : sample_ok 4032 alaw_compress alaw_expand x = true.
Proof.
  destruct (decide (Z.abs x <= 4032)); [apply (for_range_spec _ _ _ _ alaw_inner); lia|].
  destruct (Z.ltb_spec 4032 x).
  - apply (sample_ok_cut _ _ _ _ 170 4032); [done| |done|by vm_compute|lia|lia|].
    + unfold alaw_compress. destruct (Z.ltb_spec 4032 x); [by vm_compute|lia].
    + destruct (Z.ltb_spec 0 x); lia.
  - apply (sample_ok_cut _ _ _ _ 42 (-4032)); [done| |done|by vm_compute|lia|lia|].
    + unfold alaw_compress. destruct (Z.ltb_spec 4032 x), (Z.ltb_spec x (-4032)); try lia. by vm_compute.
    + destruct (Z.ltb_spec 0 x); lia.
Qed.
Lemma ulaw_sample x : sample_ok 8158 ulaw_compress ulaw_expand x = true.
Proof.
  destruct (decide (Z.abs x <= 8158)); [apply (for_range_spec _ _ _ _ ulaw_inner); lia|].
  destruct (Z.ltb_spec 8158 x).
  - apply (sample_ok_cut _ _ _ _ 128 8031); [done| |done|by vm_compute|lia|lia|].
    + unfold ulaw_compress. destruct (Z.ltb_spec 8158 x); [done|lia].
    + destruct (Z.ltb_spec 0 x); lia.
  - apply (sample_ok_cut _ _ _ _ 0 (-8031)); [done| |done|by vm_compute|lia|lia|].
    + unfold ulaw_compress. destruct (Z.ltb_spec 8158 x), (Z.ltb_spec x (-8158)); try lia. done.
    + destruct (Z.ltb_spec 0 x); lia.
Qed.

(** ** Buffers of samples *)

Definition is_s16 (x : Z) : Prop := - 2 ^ 15 <= x < 2 ^ 15.
(** A sample in the memory of the host. *)
Definition sample_octets (x : Z) : list Z := [u8 x; u8 (x .>> 8)].
Definition samples (xs : list Z) : list Z := concat (sample_octets <$> xs).

Lemma u8_u16 x : u8 (u16 x) = u8 x /\ u8 (u16 x .>> 8) = u8 (x .>> 8).
Proof.
  unfold u8, u16. rewrite !Z.shiftr_div_pow2 by lia. change (2 ^ 16) with (2 ^ 8 * 2 ^ 8).
  split; dlia.
Qed.
Lemma s16_le16 x : is_s16 x -> s16 (u8 x + u8 (x .>> 8) * 2 ^ 8) = x.
Proof.
  unfold is_s16, s16, u8. intros Hx. rewrite Z.shiftr_div_pow2 by lia.
  change (2 ^ 16) with 65536. change (2 ^ 15) with 32768 in *. change (2 ^ 8) with 256. dlia.
Qed.
Lemma samples_cons x xs : samples (x :: xs) = sample_octets x ++ samples xs.
Proof. done. Qed.
Lemma Zlen_samples xs : Zlen (samples xs) = 2 * Zlen xs.
Proof. induction xs as [|x xs IH]; [done|]. rewrite samples_cons, Zlen_app, Zlen_cons, IH. unfold sample_octets. zlia. Qed.

(** [p .. p + n] and [q .. q + k] have no address in common. *)
Definition apart (p n q k : Z) : Prop := p + n <= q \/ q + k <= p.

Lemma compress_loop_spec compress xs cs m input output :
  Forall2 (fun x c => compress x = Some c /\ is_byte c) xs cs -> Forall is_s16 xs ->
  region m input (samples xs) -> mapped m output (Zlen xs) -> apart input (2 * Zlen xs) output (Zlen xs) ->
  compress_loop compress m input output (length xs) = Some (write m output cs).
Proof.
  intros H. revert m input output. induction H as [|x c xs cs [Hc Hb] _ IH]; intros m input output Hx Hr Hm Ha; [done|].
  apply Forall_cons in Hx as [Hx Hxs]. rewrite samples_cons in Hr. cbn [length compress_loop].
  rewrite (load16_region m input (sample_octets x ++ samples xs) input Hr) by (unfold sample_octets; zlia). cbn [mbind option_bind].
  rewrite Z.sub_diag. change ((sample_octets x ++ samples xs).[0]) with (u8 x). change ((sample_octets x ++ samples xs).[0 + 1]) with (u8 (x .>> 8)).
  rewrite (s16_le16 x Hx), Hc. cbn [mbind option_bind].
  rewrite (store8_mapped m output (Zlen (x :: xs))) by (done || zlia). cbn [mbind option_bind]. rewrite u8_id by done.
  rewrite Zlen_cons in Ha. apply (IH (write m output [c]) (input + 2) (output + 1)).
  - done.
  - apply region_write_out; [by eapply region_app_r|]. unfold apart in Ha. rewrite Zlen_samples. zlia.
  - apply mapped_write. eapply mapped_sub; [exact Hm|lia|zlia].
  - unfold apart in *. zlia.
Qed.
Lemma expand_loop_spec expand cs ys m input output :
  Forall2 (fun c y => expand c = Some y) cs ys ->
  region m input cs -> mapped m output (2 * Zlen cs) -> apart input (Zlen cs) output (2 * Zlen cs) ->
  expand_loop expand m input output (length cs) = Some (write m output (samples ys)).
Proof.
  intros H. revert m input output. induction H as [|c y cs ys Hc _ IH]; intros m input output Hr Hm Ha; [done|].
  cbn [length expand_loop]. rewrite (load8_at_0 _ _ _ _ Hr). cbn [mbind option_bind]. rewrite Hc. cbn [mbind option_bind].
  unfold store16. rewrite (storen_mapped m output (2 * Zlen (c :: cs))) by (done || zlia). cbn [mbind option_bind].
  cbn [fmap list_fmap]. destruct (u8_u16 y) as [-> ->]. rewrite Zlen_cons in Ha.
  rewrite IH with (m := write m output [u8 y; u8 (y .>> 8)]).
  - rewrite samples_cons. f_equal. unfold sample_octets. cbn [app write]. f_equal. lia.
  - apply region_write_out; [apply (region_app_r m input (input + 1) [c]); [done|zlia]|]. unfold apart in Ha. zlia.
  - apply mapped_write. eapply mapped_sub; [exact Hm|lia|zlia].
  - unfold apart in *. zlia.
Qed.

Definition limit_of (law_string : option string) : Z :=
  match law_from_parameters law_string with ALAW => 4032 | _ => 8158 end.

(** C35: a buffer of samples that is encoded and decoded again comes back with
    every sample first cut off at the law's largest value - 4032 for A-law, 8158 for
    u-law, so the louder ones of 16 bits lose what is above - and then off by at
    most 1/32 of its size and one unit; no assertion fails for any sample, and
    nothing but the output buffers changes. *)
Theorem g711_quantises law_string xs m input output back :
  law_from_parameters law_string <> INVALID ->
  Forall is_s16 xs -> 0 < Zlen xs <= 2 ^ 30 - 1 ->
  region m input (samples xs) -> mapped m output (Zlen xs) -> mapped m back (2 * Zlen xs) ->
  apart input (2 * Zlen xs) output (Zlen xs) -> apart output (Zlen xs) back (2 * Zlen xs) ->
  exists cs ys, bytes cs /\
    impl_encode (impl_codec_create law_string) m input (2 * Zlen xs) output (Zlen xs) =
      Some (Zlen xs, write m output cs) /\
    impl_decode (impl_codec_create law_string) (write m output cs) output (Zlen xs) back (2 * Zlen xs) =
      Some (2 * Zlen xs, write (write m output cs) back (samples ys)) /\
    Forall2 (close (limit_of law_string)) xs ys /\ Zlen cs = Zlen xs.
Proof.
  intros Hlaw Hxs Hlen Hin Hout Hback Ha1 Ha2.
  assert (Hcodec : exists compress expand pt, impl_codec_create law_string =
      Some {| compress := Some compress; expand := Some expand; rtp_payload_type := pt |} /\
    forall x, sample_ok (limit_of law_string) compress expand x = true).
  { unfold impl_codec_create, limit_of. destruct (law_from_parameters law_string); [|..|done].
    - exists ulaw_compress, ulaw_expand, 0. split; [done|apply ulaw_sample].
    - exists alaw_compress, alaw_expand, 8. split; [done|apply alaw_sample]. }
  destruct Hcodec as (compress & expand & pt & -> & Hok).
  assert (Hex : exists cs ys, Forall2 (fun x c => compress x = Some c /\ is_byte c) xs cs /\
    Forall2 (fun c y => expand c = Some y) cs ys /\ Forall2 (close (limit_of law_string)) xs ys /\ bytes cs).
  { clear -Hok. induction xs as [|x xs IH]; [by exists [], []; repeat constructor|].
    destruct IH as (cs & ys & H1 & H2 & H3 & H4). destruct (sample_ok_spec _ _ _ _ (Hok x)) as (c & y & ? & ? & ? & ? & _).
    exists (c :: cs), (y :: ys). split; [by constructor|split; [by constructor|split; by constructor]]. }
  destruct Hex as (cs & ys & H1 & H2 & H3 & H4). pose proof (Forall2_length _ _ _ H1) as Hl.
  assert (Hlc : Zlen cs = Zlen xs) by (unfold Zlen; congruence).
  exists cs, ys. split; [done|].
  pose proof Hin as [Hi0 _]. pose proof Hout as [Ho0 _]. pose proof Hback as [Hb0 _].
  assert (Hnat : Z.to_nat (Zlen xs) = length xs) by (unfold Zlen; lia).
  assert (Hdiv : 2 * Zlen xs / 2 = Zlen xs) by (rewrite Z.mul_comm; by apply Z.div_mul).
  split; [|split; [|done]].
  - unfold impl_encode. cbn [G711.compress]. rewrite Hdiv. unfold INT_MAX, NULL. repeat decide_guard.
    rewrite Hnat, (compress_loop_spec _ _ _ _ _ _ H1) by done. done.
  - unfold impl_decode. cbn [G711.expand]. rewrite Hdiv. unfold INT_MAX, NULL. repeat decide_guard.
    rewrite Hnat, Hl, (expand_loop_spec _ _ _ _ _ _ H2).
    + cbn [mbind option_bind]. do 2 f_equal. unfold s32. rewrite Z.mod_small by lia. lia.
    + by apply region_write.
    + rewrite Hlc. by apply mapped_write.
    + by rewrite Hlc.
Qed.
Lemma g711_quantises_witness :
  let xs := [1000; -7] in let m := write ∅ 16 (samples xs ++ zeros 6) in
  law_from_parameters (Some "alaw"%string) <> INVALID /\ Forall is_s16 xs /\ region m 16 (samples xs) /\
  exists cs ys, impl_encode (impl_codec_create (Some "alaw"%string)) m 16 4 20 2 = Some (2, write m 20 cs) /\
    Forall2 (close 4032) xs ys.
Proof.
  intros xs m. assert (Hxs : Forall is_s16 xs) by (repeat constructor; unfold is_s16; lia).
  assert (R : region m 16 (samples xs ++ zeros 6)) by (apply region_write; lia).
  assert (R1 : region m 16 (samples xs)) by (by eapply region_app_l).
  assert (R2 : region m 20 (zeros 6)) by (by eapply region_app_r).
  assert (Hm : mapped m 20 6) by (apply (region_mapped m 20 (zeros 6) R2)).
  split; [by vm_compute|]. split; [exact Hxs|]. split; [exact R1|].
  destruct (g711_quantises (Some "alaw"%string) xs m 16 20 22) as (cs & ys & _ & He & _ & Hc & _).
  - by vm_compute.
  - exact Hxs.
  - vm_compute. split; [done|by intros ?].
  - exact R1.
  - eapply mapped_sub; [exact Hm|lia|vm_compute; by intros ?].
  - eapply mapped_sub; [exact Hm|lia|vm_compute; by intros ?].
  - left. by vm_compute.
  - left. by vm_compute.
  - exists cs, ys. split; [exact He|exact Hc].
Defined.
