(* ===== verification/RingBuffer.v ===== *)
(** * The ring buffer (src/lib/ov_base/src/ringbuffer/ov_ringbuffer.c)

    An element is a pointer of the client that is not [NULL], a [Z]; a slot of
    the buffer is an [option]. [freed] records what was handed to the client's
    [free_element], [free_set] tells whether there is one. The buffer's own
    memory, the magic bytes and the table of methods are not modelled; the cache
    of released buffers is the argument [cached] of the constructor. [None] as
    the outcome of an operation is a failing assertion. *)
From S2P Require Import Prelude.

(** ** The code *)

Record ov_ringbuffer_statistics := { elements_inserted : Z; elements_dropped : Z }.

Record ringbuffer := {
  capacity : nat;
  read : nat;
  write : nat;
  content : list (option Z);
  free_set : bool;
  freed : list Z;
  statistics : ov_ringbuffer_statistics
}.

Definition with_content (rb : ringbuffer) (c : list (option Z)) : ringbuffer :=
  {| capacity := capacity rb; read := read rb; write := write rb; content := c; free_set := free_set rb;
     freed := freed rb; statistics := statistics rb |}.
Definition with_read (rb : ringbuffer) (r : nat) : ringbuffer :=
  {| capacity := capacity rb; read := r; write := write rb; content := content rb; free_set := free_set rb;
     freed := freed rb; statistics := statistics rb |}.
Definition with_write (rb : ringbuffer) (w : nat) : ringbuffer :=
  {| capacity := capacity rb; read := read rb; write := w; content := content rb; free_set := free_set rb;
     freed := freed rb; statistics := statistics rb |}.

(** [free_element(additional_arg, e)], and one more element dropped. *)
Definition drop_counted (rb : ringbuffer) (e : Z) : ringbuffer :=
  {| capacity := capacity rb; read := read rb; write := write rb; content := content rb; free_set := free_set rb;
     freed := freed rb ++ (if free_set rb then [e] else []);
     statistics := {| elements_inserted := elements_inserted (statistics rb);
                      elements_dropped := u64 (elements_dropped (statistics rb) + 1) |} |}.
Definition drop_element_nocheck (internal : ringbuffer) (index : nat) : option ringbuffer :=
  _ ← OV_ASSERT (index <? capacity internal)%nat;
  _ ← OV_ASSERT (1 <? capacity internal)%nat;
  slot ← content internal !! index;
  let internal := match slot with Some e => drop_counted internal e | None => internal end in
  Some (with_content internal (<[index := None]> (content internal))).

Definition advance_read (internal : ringbuffer) : option ringbuffer :=
  _ ← OV_ASSERT (1 <? capacity internal)%nat;
  slot ← content internal !! read internal;
  _ ← OV_ASSERT (bool_decide (slot = None));
  let r := S (read internal) in
  Some (with_read internal (if (capacity internal <=? r)%nat then O else r)).
Definition advance_write (internal : ringbuffer) : option ringbuffer :=
  _ ← OV_ASSERT (1 <? capacity internal)%nat;
  let w := S (write internal) in
  let internal := with_write internal (if (capacity internal <=? w)%nat then O else w) in
  internal ← drop_element_nocheck internal (write internal);
  internal ← (if (write internal =? read internal)%nat then advance_read internal else Some internal);
  _ ← OV_ASSERT (negb (write internal =? read internal)%nat);
  Some internal.

Definition ringbuffer_pop (self : option ringbuffer) : option (option Z * option ringbuffer) :=
  match self with
  | None => Some (None, None)
  | Some internal =>
      if (read internal =? write internal)%nat then Some (None, self) else
      retval ← content internal !! read internal;
      internal ← advance_read (with_content internal (<[read internal := None]> (content internal)));
      Some (retval, Some internal)
  end.
Definition ringbuffer_insert (self : option ringbuffer) (element : option Z) : option (bool * option ringbuffer) :=
  match self, element with
  | Some internal, Some element =>
      _ ← OV_ASSERT (1 <? capacity internal)%nat;
      let write_index := write internal in
      slot ← content internal !! write_index;
      _ ← OV_ASSERT (bool_decide (slot = None));
      internal ← advance_write (with_content internal (<[write_index := Some element]> (content internal)));
      Some (true, Some {| capacity := capacity internal; read := read internal; write := write internal;
        content := content internal; free_set := free_set internal; freed := freed internal;
        statistics := {| elements_inserted := u64 (elements_inserted (statistics internal) + 1);
                         elements_dropped := elements_dropped (statistics internal) |} |})
  | _, _ => Some (false, self)
  end.
(** The loop over the indices [i .. i + n]. *)
Fixpoint clear_loop (internal : ringbuffer) (i n : nat) : option ringbuffer :=
  match n with
  | O => Some internal
  | S n => internal ← drop_element_nocheck internal i; clear_loop internal (S i) n
  end.
Definition ringbuffer_clear (self : option ringbuffer) : option (bool * option ringbuffer) :=
  match self with
  | None => Some (false, None)
  | Some internal =>
      _ ← OV_ASSERT (1 <? capacity internal)%nat;
      internal ← clear_loop internal 0 (capacity internal);
      Some (true, Some internal)
  end.
Definition ringbuffer_capacity (self : option ringbuffer) : option nat :=
  match self with
  | None => Some O
  | Some internal => _ ← OV_ASSERT (1 <? capacity internal)%nat; Some (capacity internal - 1)%nat
  end.
Definition ringbuffer_get_statistics (self : option ringbuffer) : ov_ringbuffer_statistics :=
  match self with
  | None => {| elements_inserted := 0; elements_dropped := 0 |}
  | Some internal => statistics internal
  end.

Definition new_buffer_create (capacity : nat) : option ringbuffer :=
  match capacity with
  | O => None
  | _ => Some {| capacity := 1 + capacity; read := 0; write := 0; content := replicate (1 + capacity) None;
                 free_set := false; freed := []; statistics := {| elements_inserted := 0; elements_dropped := 0 |} |}
  end.
(** [free_element] tells whether the callback is given. *)
Definition ov_ringbuffer_create (cached : option ringbuffer) (capacity_ : nat) (free_element : bool)
    : option ringbuffer :=
  let buffer := match cached with Some b => Some b | None => new_buffer_create capacity_ end in
  match buffer with
  | None => None
  | Some b =>
      let b := if (capacity b <? capacity_ + 1)%nat
               then {| capacity := 1 + capacity_; read := read b; write := write b;
                       content := replicate (1 + capacity_) None; free_set := false; freed := freed b;
                       statistics := statistics b |}
               else b in
      Some {| capacity := capacity b; read := read b; write := write b; content := content b;
              free_set := if free_element then true else free_set b; freed := freed b; statistics := statistics b |}
  end.
(** What is kept in the cache, and all that was freed. *)
Definition ringbuffer_free (self : option ringbuffer) : option (option ringbuffer) :=
  '(ok, rb) ← ringbuffer_clear self;
  Some (if (ok : bool) then rb else self).
Definition ov_ringbuffer_insert := ringbuffer_insert.
Definition ov_ringbuffer_pop := ringbuffer_pop.

(** ** The places of the buffer, in the order of the queue

    [None] is an element that was cleared: it keeps its place, unlike in the
    bounded queue below ([bounded_queue]). *)

Record queue := { room : nat; elements : list (option Z); frees : bool; gone : list Z; inserted : Z; dropped : Z }.

Definition drop_slot (q : queue) (slot : option Z) : queue :=
  match slot with
  | Some e => {| room := room q; elements := elements q; frees := frees q;
                 gone := gone q ++ (if frees q then [e] else []); inserted := inserted q;
                 dropped := u64 (dropped q + 1) |}
  | None => q
  end.
Definition with_elements (q : queue) (l : list (option Z)) : queue :=
  {| room := room q; elements := l; frees := frees q; gone := gone q; inserted := inserted q; dropped := dropped q |}.
Definition count_insert (q : queue) : queue :=
  {| room := room q; elements := elements q; frees := frees q; gone := gone q; inserted := u64 (inserted q + 1);
     dropped := dropped q |}.
(** A full queue drops its oldest element. *)
Definition queue_insert (q : queue) (e : Z) : queue :=
  let q' := with_elements q (elements q ++ [Some e]) in
  count_insert (if (length (elements q) <? room q)%nat then q'
                else drop_slot (with_elements q (tail (elements q ++ [Some e]))) (mjoin (head (elements q)))).
Definition queue_pop (q : queue) : option Z * queue :=
  match elements q with
  | [] => (None, q)
  | e :: l => (e, with_elements q l)
  end.
(** What the code's clear does: every element is freed, in the order of the slots,
    and its place is kept, so this does not empty the queue (see
    [clear_keeps_places]). *)
Definition queue_clear (q : queue) (order : list Z) : queue :=
  fold_left (fun q e => drop_slot q (Some e)) order (with_elements q ((fun _ => None) <$> elements q)).

(** Slot [k] after slot [r], of [c]. *)
Definition slot (c r k : nat) : nat := if (r + k <? c)%nat then (r + k)%nat else (r + k - c)%nat.

Record holds (rb : ringbuffer) (q : queue) : Prop := {
  holds_capacity : capacity rb = S (room q) /\ (0 < room q)%nat;
  holds_length : length (content rb) = capacity rb;
  holds_read : (read rb < capacity rb)%nat;
  holds_size : (length (elements q) <= room q)%nat;
  holds_write : write rb = slot (capacity rb) (read rb) (length (elements q));
  holds_slots k : (k < capacity rb)%nat ->
    content rb !! slot (capacity rb) (read rb) k = Some (mjoin (elements q !! k));
  holds_freed : freed rb = gone q /\ free_set rb = frees q;
  holds_statistics : elements_inserted (statistics rb) = inserted q /\ elements_dropped (statistics rb) = dropped q
}.

Lemma slot_lt c r k : (r < c)%nat -> (k < c)%nat -> (slot c r k < c)%nat.
Proof. unfold slot. destruct (Nat.ltb_spec (r + k) c); lia. Qed.
Lemma slot_inj c r k k' : (r < c)%nat -> (k < c)%nat -> (k' < c)%nat -> slot c r k = slot c r k' -> k = k'.
Proof. unfold slot. destruct (Nat.ltb_spec (r + k) c), (Nat.ltb_spec (r + k') c); lia. Qed.
Lemma slot_0 c r : (r < c)%nat -> slot c r 0 = r.
Proof. unfold slot. destruct (Nat.ltb_spec (r + 0) c); lia. Qed.
Lemma slot_full c r : (r < c)%nat -> slot c r c = r.
Proof. unfold slot. destruct (Nat.ltb_spec (r + c) c); lia. Qed.
(** The step of the code. *)
Lemma slot_step c r k : (r < c)%nat -> (k < c)%nat ->
  (if (c <=? S (slot c r k))%nat then O else S (slot c r k)) = slot c r (S k).
Proof.
  unfold slot. intros. destruct (Nat.ltb_spec (r + k) c), (Nat.ltb_spec (r + S k) c);
    destruct (Nat.leb_spec c (S (r + k))), (Nat.leb_spec c (S (r + k - c))); lia.
Qed.
Lemma slot_shift c r k : (r < c)%nat -> (k < c)%nat -> slot c (slot c r 1) k = slot c r (S k).
Proof.
  unfold slot. intros.
  repeat match goal with |- context [(?a <? ?b)%nat] => destruct (Nat.ltb_spec a b) end; lia.
Qed.

(** ** The operations *)

Lemma create_holds n fe :
  (0 < n)%nat -> exists rb, ov_ringbuffer_create None n fe = Some rb /\
    holds rb {| room := n; elements := []; frees := fe; gone := []; inserted := 0; dropped := 0 |}.
Proof.
  intros Hn. destruct n as [|n]; [lia|]. unfold ov_ringbuffer_create. cbn [new_buffer_create].
  eexists. split; [reflexivity|]. cbn [RingBuffer.capacity]. destruct (Nat.ltb_spec (1 + S n) (S n + 1)); [lia|].
  split; cbn -[slot replicate]; try lia.
  - by rewrite length_replicate.
  - by rewrite slot_0 by lia.
  - intros k Hk. rewrite lookup_nil. cbn. apply (lookup_replicate_2 (1 + S n)%nat (@None Z)). apply (slot_lt (S (S n))); lia.
  - by destruct fe.
Qed.

(** Dropping the slot [k] of the buffer. *)
Lemma drop_spec rb k s :
  (1 < capacity rb)%nat -> (k < capacity rb)%nat -> content rb !! k = Some s ->
  drop_element_nocheck rb k = Some (with_content (match s with Some e => drop_counted rb e | None => rb end)
                                      (<[k := None]> (content rb))).
Proof.
  intros H1 Hk Hs. unfold drop_element_nocheck. rewrite (proj2 (Nat.ltb_lt _ _) Hk), (proj2 (Nat.ltb_lt _ _) H1).
  cbn [OV_ASSERT mbind option_bind]. rewrite Hs. cbn [mbind option_bind]. by destruct s.
Qed.
Lemma advance_read_spec rb :
  (1 < capacity rb)%nat -> (read rb < capacity rb)%nat -> content rb !! read rb = Some None ->
  advance_read rb = Some (with_read rb (slot (capacity rb) (read rb) 1)).
Proof.
  intros H1 Hr Hs. unfold advance_read. rewrite (proj2 (Nat.ltb_lt _ _) H1). cbn [OV_ASSERT mbind option_bind].
  rewrite Hs. cbn [mbind option_bind]. rewrite bool_decide_eq_true_2 by done. cbn [OV_ASSERT mbind option_bind].
  rewrite <- (slot_step _ _ 0) by lia. by rewrite slot_0.
Qed.

Section Holds.
Context (rb : ringbuffer) (q : queue) (R : holds rb q).

Lemma holds_bounds : (1 < capacity rb)%nat /\ (read rb < capacity rb)%nat /\ (length (elements q) < capacity rb)%nat /\
  capacity rb = S (room q).
Proof using R. pose proof (holds_capacity _ _ R). pose proof (holds_read _ _ R). pose proof (holds_size _ _ R). lia. Qed.

Lemma pop_spec : exists rb',
  ringbuffer_pop (Some rb) = Some ((queue_pop q).1, Some rb') /\ holds rb' (queue_pop q).2.
Proof using R.
  destruct holds_bounds as (Hc & Hr & Hl & Hcap). pose proof (holds_write _ _ R) as Hw.
  pose proof (holds_slots _ _ R 0 ltac:(lia)) as H0. rewrite slot_0 in H0 by done.
  unfold ringbuffer_pop, queue_pop. destruct (elements q) as [|e l] eqn:E.
  - cbn [length] in Hw. rewrite slot_0 in Hw by done. rewrite Hw, Nat.eqb_refl. by exists rb.
  - destruct (Nat.eqb_spec (read rb) (write rb)) as [Heq|Hne].
    { rewrite <- (slot_0 (capacity rb) (read rb)) in Heq at 1 by done. rewrite Hw in Heq.
      apply slot_inj in Heq; cbn [length] in *; lia. }
    rewrite H0. cbn [mbind option_bind].
    assert (Hrl : (read rb < length (content rb))%nat) by (rewrite (holds_length _ _ R); lia).
    rewrite advance_read_spec by (try done; cbn; by apply list_lookup_insert_eq). cbn [mbind option_bind].
    eexists. split; [reflexivity|]. cbn [length] in *.
    split; unfold with_read, with_content, with_elements; cbn [RingBuffer.capacity read write content freed free_set statistics
      room elements frees gone inserted dropped fst snd]; try apply R; try lia.
    + rewrite length_insert. apply R.
    + by apply slot_lt.
    + rewrite Hw, slot_shift by lia. done.
    + intros k Hk. rewrite slot_shift by lia. destruct (decide (S k = capacity rb)) as [Hk'|Hk'].
      * rewrite Hk', slot_full, list_lookup_insert_eq by done. by rewrite lookup_ge_None_2 by (cbn in *; lia).
      * rewrite list_lookup_insert_ne, (holds_slots _ _ R) by
          (try lia; rewrite <- (slot_0 (capacity rb) (read rb)) at 1 by done; intros Heq; apply slot_inj in Heq; lia).
        by rewrite E.
Qed.

Lemma insert_room e : (length (elements q) < room q)%nat -> exists rb',
  ringbuffer_insert (Some rb) (Some e) = Some (true, Some rb') /\ holds rb' (queue_insert q e).
Proof using R.
  intros Hroom. destruct holds_bounds as (Hc & Hr & Hl & Hcap). set (len := length (elements q)) in *.
  set (c := capacity rb) in *. pose proof (holds_write _ _ R) as Hw. fold c len in Hw.
  assert (Hs : forall k, (k < c)%nat -> content rb !! slot c (read rb) k = Some (mjoin (elements q !! k)))
    by apply (holds_slots _ _ R).
  assert (Hin : forall k, (k < c)%nat -> (slot c (read rb) k < length (content rb))%nat)
    by (intros k Hk; rewrite (holds_length _ _ R); by apply slot_lt).
  unfold ringbuffer_insert. fold c. rewrite (proj2 (Nat.ltb_lt _ _) Hc). cbn [OV_ASSERT mbind option_bind].
  rewrite Hw, Hs, lookup_ge_None_2 by (done || lia). cbn [mjoin option_join mbind option_bind].
  rewrite bool_decide_eq_true_2 by done. cbn [OV_ASSERT mbind option_bind].
  unfold advance_write. cbn [with_content RingBuffer.capacity write]. fold c. rewrite (proj2 (Nat.ltb_lt _ _) Hc).
  cbn [OV_ASSERT mbind option_bind]. rewrite Hw, slot_step by done.
  rewrite (drop_spec _ (slot c (read rb) (S len)) None).
  2: done. 2: apply slot_lt; cbn; lia.
  2:{ cbn [with_write with_content content]. rewrite list_lookup_insert_ne by (intros Heq; apply slot_inj in Heq; lia).
      rewrite Hs, lookup_ge_None_2 by (unfold len; lia). done. }
  cbn [mbind option_bind]. set (rb2 := with_content _ _).
  assert (E2 : write rb2 = slot c (read rb) (S len) /\ read rb2 = read rb /\ capacity rb2 = c /\
    content rb2 = <[slot c (read rb) (S len) := None]> (<[slot c (read rb) len := Some e]> (content rb)) /\
    freed rb2 = freed rb /\ free_set rb2 = free_set rb /\ statistics rb2 = statistics rb) by done.
  destruct E2 as (E21 & E22 & E23 & E24 & E25 & E26 & E27). rewrite E21, E22.
  assert (Hne : slot c (read rb) (S len) <> read rb).
  { rewrite <- (slot_0 c (read rb)) at 2 by done. intros Heq. apply slot_inj in Heq; lia. }
  rewrite (proj2 (Nat.eqb_neq _ _) Hne). cbn [mbind option_bind]. rewrite E21, E22.
  rewrite (proj2 (Nat.eqb_neq _ _) Hne). cbn [negb OV_ASSERT mbind option_bind].
  eexists. split; [reflexivity|]. unfold queue_insert. fold len. rewrite (proj2 (Nat.ltb_lt _ _) Hroom).
  split; cbn [RingBuffer.capacity read write content freed free_set statistics
      room elements frees gone inserted dropped with_elements count_insert elements_inserted elements_dropped];
    rewrite ?E21, ?E22, ?E23, ?E24, ?E25, ?E26, ?E27, ?length_app; cbn [length]; fold len; try apply R; try lia.
  - rewrite !length_insert. apply R.
  - f_equal. lia.
  - intros k Hk. destruct (decide (k = S len)) as [->|Hn1].
    { rewrite list_lookup_insert_eq by (rewrite length_insert; apply Hin; lia).
      by rewrite lookup_ge_None_2 by (rewrite length_app; cbn; unfold len; lia). }
    rewrite list_lookup_insert_ne by (intros Heq; apply slot_inj in Heq; lia).
    destruct (decide (k = len)) as [->|Hn2].
    + rewrite list_lookup_insert_eq by (apply Hin; lia). by rewrite lookup_app_r, Nat.sub_diag by done.
    + rewrite list_lookup_insert_ne, Hs by (done || (intros Heq; apply slot_inj in Heq; lia)). do 2 f_equal.
      destruct (decide (k < len)%nat); [by rewrite lookup_app_l|].
      by rewrite !lookup_ge_None_2 by (rewrite ?length_app; cbn; unfold len in *; lia).
  - destruct (holds_statistics _ _ R) as [-> ?]. done.
Qed.

Lemma insert_full e : length (elements q) = room q -> exists rb',
  ringbuffer_insert (Some rb) (Some e) = Some (true, Some rb') /\ holds rb' (queue_insert q e).
Proof using R.
  intros Hroom. destruct holds_bounds as (Hc & Hr & Hl & Hcap). pose proof (holds_capacity _ _ R) as [_ Hpos].
  set (len := length (elements q)) in *.
  set (c := capacity rb) in *. pose proof (holds_write _ _ R) as Hw. fold c len in Hw.
  assert (Hs : forall k, (k < c)%nat -> content rb !! slot c (read rb) k = Some (mjoin (elements q !! k)))
    by apply (holds_slots _ _ R).
  assert (Hin : forall k, (k < c)%nat -> (slot c (read rb) k < length (content rb))%nat)
    by (intros k Hk; rewrite (holds_length _ _ R); by apply slot_lt).
  destruct (elements q) as [|h l] eqn:Eq; [cbn in *; lia|].
  unfold ringbuffer_insert. fold c. rewrite (proj2 (Nat.ltb_lt _ _) Hc). cbn [OV_ASSERT mbind option_bind].
  rewrite Hw, Hs, lookup_ge_None_2 by (done || lia). cbn [mjoin option_join mbind option_bind].
  rewrite bool_decide_eq_true_2 by done. cbn [OV_ASSERT mbind option_bind].
  unfold advance_write. cbn [with_content RingBuffer.capacity write]. fold c. rewrite (proj2 (Nat.ltb_lt _ _) Hc).
  cbn [OV_ASSERT mbind option_bind]. rewrite Hw, slot_step by done.
  replace (slot c (read rb) (S len)) with (read rb) by (replace (S len) with c by lia; by rewrite slot_full).
  assert (Hne : slot c (read rb) len <> read rb).
  { rewrite <- (slot_0 c (read rb)) at 2 by done. intros Heq. apply slot_inj in Heq; lia. }
  rewrite (drop_spec _ (read rb) h).
  2, 3: done.
  2:{ cbn [with_write with_content content]. rewrite list_lookup_insert_ne by done. rewrite <- (slot_0 c (read rb)) at 1 by done.
      by rewrite Hs by lia. }
  cbn [mbind option_bind]. set (rb2 := with_content _ _).
  assert (E2 : write rb2 = read rb /\ read rb2 = read rb /\ capacity rb2 = c /\
    content rb2 = <[read rb := None]> (<[slot c (read rb) len := Some e]> (content rb))) by by destruct h.
  destruct E2 as (E21 & E22 & E23 & E24). rewrite E21, E22, Nat.eqb_refl.
  rewrite advance_read_spec; rewrite ?E22, ?E23, ?E24; try done.
  2:{ apply list_lookup_insert_eq. rewrite length_insert, <- (slot_0 c (read rb)) at 1 by done. apply Hin. lia. }
  cbn [mbind option_bind]. set (rb3 := with_read rb2 _).
  assert (E3 : write rb3 = read rb /\ read rb3 = slot c (read rb) 1 /\ capacity rb3 = c /\
    content rb3 = <[read rb := None]> (<[slot c (read rb) len := Some e]> (content rb)) /\
    freed rb3 = freed rb2 /\ free_set rb3 = free_set rb2 /\ statistics rb3 = statistics rb2) by by destruct h.
  destruct E3 as (E31 & E32 & E33 & E34 & E35 & E36 & E37). rewrite E31, E32.
  assert (Hne1 : read rb <> slot c (read rb) 1).
  { rewrite <- (slot_0 c (read rb)) at 1 by done. intros Heq. apply slot_inj in Heq; lia. }
  rewrite (proj2 (Nat.eqb_neq _ _) Hne1). cbn [negb OV_ASSERT mbind option_bind].
  eexists. split; [reflexivity|]. unfold queue_insert. rewrite Eq. fold len.
  destruct (Nat.ltb_spec len (room q)); [lia|]. cbn [tail app head mjoin option_join].
  assert (Hlen2 : length (l ++ [Some e]) = len) by (rewrite length_app; cbn in *; unfold len; lia).
  assert (Hqueue : forall q', q' = drop_slot (with_elements q (l ++ [Some e])) h ->
    room q' = room q /\ elements q' = l ++ [Some e]) by (by intros q' ->; destruct h).
  destruct (Hqueue _ eq_refl) as [Hq1 Hq2]. set (q' := drop_slot _ h) in *.
  split; cbn [RingBuffer.capacity read write content freed free_set statistics
      room elements frees gone inserted dropped count_insert elements_inserted elements_dropped];
    rewrite ?E31, ?E32, ?E33, ?E34, ?E35, ?E36, ?E37, ?Hq1, ?Hq2, ?Hlen2; try apply R; try lia.
  - rewrite !length_insert. apply R.
  - by apply slot_lt.
  - rewrite slot_shift by lia. replace (S len) with c by lia. by rewrite slot_full.
  - intros k Hk. rewrite slot_shift by lia. destruct (decide (S k = c)) as [Hk'|Hk'].
    { rewrite Hk', slot_full, list_lookup_insert_eq by
        (try done; rewrite length_insert, <- (slot_0 c (read rb)) at 1 by done; apply Hin; lia).
      by rewrite lookup_ge_None_2 by (rewrite Hlen2; lia). }
    rewrite list_lookup_insert_ne by
      (rewrite <- (slot_0 c (read rb)) at 1 by done; intros Heq; apply slot_inj in Heq; lia).
    destruct (decide (S k = len)) as [Hk2|Hk2].
    + rewrite Hk2, list_lookup_insert_eq by (apply Hin; lia).
      rewrite lookup_app_r by (cbn in *; unfold len in *; lia).
      replace (k - length l)%nat with O by (cbn in *; unfold len in *; lia). done.
    + rewrite list_lookup_insert_ne, Hs by (lia || (intros Heq; apply slot_inj in Heq; lia)).
      cbn [lookup list_lookup]. by rewrite lookup_app_l by (cbn in *; unfold len in *; lia).
  - destruct (holds_freed _ _ R) as [Hf1 Hf2]. subst q' rb3 rb2.
    destruct h; cbn; rewrite ?Hf1, ?Hf2; done.
  - destruct (holds_statistics _ _ R) as [Hs1 Hs2]. subst q' rb3 rb2.
    destruct h; cbn; rewrite ?Hs1, ?Hs2; done.
Qed.
End Holds.

Definition drop_all (rb : ringbuffer) (l : list (option Z)) : ringbuffer :=
  fold_left (fun rb s => match s with Some e => drop_counted rb e | None => rb end) l rb.
Lemma drop_all_rest rb l : capacity (drop_all rb l) = capacity rb /\ read (drop_all rb l) = read rb /\
  write (drop_all rb l) = write rb /\ content (drop_all rb l) = content rb.
Proof.
  revert rb. induction l as [|[e|] l IH]; intros rb; [done| |apply IH]. apply (IH (drop_counted rb e)).
Qed.
Lemma drop_all_content rb c l c' : with_content (drop_all (with_content rb c) l) c' = with_content (drop_all rb l) c'.
Proof.
  revert rb. induction l as [|[e|] l IH]; intros rb; [done| |apply IH].
  apply (IH (drop_counted rb e)).
Qed.
Lemma clear_loop_spec n rb i :
  (1 < capacity rb)%nat -> (i + n = capacity rb)%nat -> length (content rb) = capacity rb ->
  clear_loop rb i n = Some (with_content (drop_all rb (drop i (content rb))) (take i (content rb) ++ replicate n None)).
Proof.
  revert rb i. induction n as [|n IH]; intros rb i Hc Hi Hl.
  - rewrite drop_ge, take_ge, app_nil_r by lia. cbn. by destruct rb.
  - destruct (lookup_lt_is_Some_2 (content rb) i ltac:(lia)) as [s Hs].
    cbn [clear_loop]. rewrite (drop_spec rb i s) by (done || lia). cbn [mbind option_bind].
    set (rb1 := match s with Some e => drop_counted rb e | None => rb end).
    assert (E1 : capacity rb1 = capacity rb /\ content rb1 = content rb) by by destruct s.
    destruct E1 as [E11 E12]. rewrite IH; cbn [with_content RingBuffer.capacity content]; rewrite ?E11, ?length_insert;
      [|done || lia..]. f_equal. rewrite (take_S_r _ _ None) by (apply list_lookup_insert_eq; lia).
    rewrite take_insert_ge, drop_insert_lt, (drop_S _ s i Hs), <- app_assoc by lia.
    by rewrite drop_all_content.
Qed.

Lemma drop_all_freed rb q l :
  freed rb = gone q -> free_set rb = frees q -> elements_inserted (statistics rb) = inserted q ->
  elements_dropped (statistics rb) = dropped q ->
  let rb' := drop_all rb l in
  let q' := fold_left (fun q e => drop_slot q (Some e)) (omap id l) q in
  (freed rb' = gone q' /\ free_set rb' = frees q') /\
  (elements_inserted (statistics rb') = inserted q' /\ elements_dropped (statistics rb') = dropped q') /\
  room q' = room q /\ elements q' = elements q.
Proof.
  revert rb q. induction l as [|[e|] l IH]; intros rb q H1 H2 H3 H4; [done|..];
    cbn [drop_all fold_left omap list_omap]; [|by apply IH].
  destruct (IH (drop_counted rb e) (drop_slot q (Some e))) as (? & ? & Hr & He); cbn; rewrite ?H1, ?H2, ?H3, ?H4; try done.
Qed.

(** The elements, in the order of the slots or of the queue. *)
Lemma contents_perm rb q : holds rb q -> omap id (content rb) ≡ₚ omap id (elements q).
Proof.
  intros R. destruct (holds_bounds rb q R) as (Hc & Hr & Hl & Hcap). pose proof (holds_length _ _ R) as Hlen.
  assert (E : drop (read rb) (content rb) ++ take (read rb) (content rb) =
    elements q ++ replicate (capacity rb - length (elements q)) None).
  { apply list_eq. intros k. destruct (decide (k < capacity rb)%nat) as [Hk|Hk].
    - transitivity (content rb !! slot (capacity rb) (read rb) k).
      + unfold slot. destruct (Nat.ltb_spec (read rb + k) (capacity rb)).
        * rewrite lookup_app_l by (rewrite length_drop; lia). apply lookup_drop.
        * rewrite lookup_app_r by (rewrite length_drop; lia). rewrite length_drop, lookup_take_lt by lia.
          f_equal. lia.
      + rewrite (holds_slots _ _ R) by done. destruct (decide (k < length (elements q))%nat) as [Hk'|Hk'].
        * destruct (lookup_lt_is_Some_2 _ _ Hk') as [x Hx]. rewrite lookup_app_l by done. by rewrite Hx.
        * rewrite lookup_ge_None_2 by lia. rewrite lookup_app_r by lia. symmetry. apply lookup_replicate_2. lia.
    - rewrite !lookup_ge_None_2; [done|..]; rewrite length_app, ?length_drop, ?length_take, ?length_replicate; lia. }
  rewrite <- (take_drop (read rb) (content rb)) at 1. rewrite Permutation_app_comm, E, omap_app.
  assert (Hn : forall n, omap id (replicate n (@None Z)) = []) by (intros n; by induction n).
  by rewrite Hn, app_nil_r.
Qed.
Lemma clear_spec rb q : holds rb q -> exists rb' order,
  ringbuffer_clear (Some rb) = Some (true, Some rb') /\ holds rb' (queue_clear q order) /\
  order ≡ₚ omap id (elements q).
Proof.
  intros R. destruct (holds_bounds rb q R) as (Hc & Hr & Hl & Hcap).
  unfold ringbuffer_clear. rewrite (proj2 (Nat.ltb_lt _ _) Hc). cbn [OV_ASSERT mbind option_bind].
  rewrite clear_loop_spec by (done || lia || apply R). cbn [mbind option_bind]. rewrite drop_0, take_0. cbn [app].
  set (rb' := with_content _ _). exists rb', (omap id (content rb)). split; [done|].
  destruct (drop_all_rest rb (content rb)) as (D1 & D2 & D3 & D4).
  assert (E1 : capacity rb' = capacity rb) by exact D1. assert (E2 : read rb' = read rb) by exact D2.
  assert (E3 : write rb' = write rb) by exact D3.
  destruct (drop_all_freed rb (with_elements q ((fun _ => None) <$> elements q)) (content rb)
    (proj1 (holds_freed _ _ R)) (proj2 (holds_freed _ _ R)) (proj1 (holds_statistics _ _ R)) (proj2 (holds_statistics _ _ R)))
    as (F1 & F2 & F3 & F4). fold (queue_clear q (omap id (content rb))) in F1, F2, F3, F4. cbn [room elements with_elements] in F3, F4.
  split.
  - split; rewrite ?E1, ?E2, ?E3, ?F3, ?F4, ?length_fmap; try apply R; try done.
    + subst rb'. cbn [with_content content]. by rewrite length_replicate.
    + intros k Hk. subst rb'. cbn [with_content content]. rewrite lookup_replicate_2 by (by apply slot_lt).
      rewrite list_lookup_fmap. by destruct (elements q !! k).
  - by apply contents_perm.
Qed.

(** ** The property *)

Inductive rb_op := Insert (e : Z) | Pop | Clear.
(** What an operation answers: the element popped, if any. *)
Definition rb_run_op (rb : ringbuffer) (op : rb_op) : option (option Z * ringbuffer) :=
  match op with
  | Insert e => '(_, rb') ← ov_ringbuffer_insert (Some rb) (Some e); rb' ← rb'; Some (None, rb')
  | Pop => '(e, rb') ← ov_ringbuffer_pop (Some rb); rb' ← rb'; Some (e, rb')
  | Clear => '(_, rb') ← ringbuffer_clear (Some rb); rb' ← rb'; Some (None, rb')
  end.
(** The queue's step; only a clear leaves a choice, the order of its releases. *)
Inductive queue_step (q : queue) : rb_op -> option Z -> queue -> Prop :=
  | step_insert e : queue_step q (Insert e) None (queue_insert q e)
  | step_pop : queue_step q Pop (queue_pop q).1 (queue_pop q).2
  | step_clear order : order ≡ₚ omap id (elements q) -> queue_step q Clear None (queue_clear q order).
Inductive queue_steps : queue -> list rb_op -> list (option Z) -> queue -> Prop :=
  | steps_nil q : queue_steps q [] [] q
  | steps_cons q op r q1 ops rs q2 :
      queue_step q op r q1 -> queue_steps q1 ops rs q2 -> queue_steps q (op :: ops) (r :: rs) q2.
Fixpoint rb_run_ops (rb : ringbuffer) (ops : list rb_op) : option (list (option Z) * ringbuffer) :=
  match ops with
  | [] => Some ([], rb)
  | op :: ops => '(r, rb) ← rb_run_op rb op; '(rs, rb) ← rb_run_ops rb ops; Some (r :: rs, rb)
  end.

Lemma rb_run_op_spec rb q op : holds rb q -> exists r rb' q',
  rb_run_op rb op = Some (r, rb') /\ queue_step q op r q' /\ holds rb' q'.
Proof.
  intros R. destruct op as [e| |].
  - assert (H : exists rb', ringbuffer_insert (Some rb) (Some e) = Some (true, Some rb') /\ holds rb' (queue_insert q e)).
    { pose proof (holds_size _ _ R). destruct (decide (length (elements q) = room q)).
      - by apply insert_full. - apply insert_room; [done|lia]. }
    destruct H as (rb' & E & R'). exists None, rb', (queue_insert q e). cbn [rb_run_op]. unfold ov_ringbuffer_insert.
    rewrite E. split; [done|]. split; [constructor|done].
  - destruct (pop_spec rb q R) as (rb' & E & R'). exists (queue_pop q).1, rb', (queue_pop q).2.
    cbn [rb_run_op]. unfold ov_ringbuffer_pop. rewrite E. split; [done|]. split; [constructor|done].
  - destruct (clear_spec rb q R) as (rb' & order & E & R' & Hp). exists None, rb', (queue_clear q order).
    cbn [rb_run_op]. rewrite E. split; [done|]. split; [by constructor|done].
Qed.
Lemma rb_run_ops_spec rb q ops : holds rb q -> exists rs rb' q',
  rb_run_ops rb ops = Some (rs, rb') /\ queue_steps q ops rs q' /\ holds rb' q'.
Proof.
  revert rb q. induction ops as [|op ops IH]; intros rb q R.
  - exists [], rb, q. split; [done|]. split; [constructor|done].
  - destruct (rb_run_op_spec rb q op R) as (r & rb1 & q1 & E1 & S1 & R1).
    destruct (IH rb1 q1 R1) as (rs & rb2 & q2 & E2 & S2 & R2). exists (r :: rs), rb2, q2.
    cbn [rb_run_ops]. rewrite E1. cbn [mbind option_bind]. rewrite E2. split; [done|]. split; [by econstructor|done].
Qed.

(** *** A bounded queue

    The answers, what is left, and what was dropped. *)
Fixpoint bounded_queue (n : nat) (l : list Z) (ops : list rb_op) : list (option Z) * list Z * list Z :=
  match ops with
  | [] => ([], l, [])
  | Insert e :: ops =>
      if (length l <? n)%nat then
        let '(rs, rest, lost) := bounded_queue n (l ++ [e]) ops in (None :: rs, rest, lost)
      else let '(rs, rest, lost) := bounded_queue n (tail (l ++ [e])) ops in (None :: rs, rest, option_list (head l) ++ lost)
  | Pop :: ops => let '(rs, rest, lost) := bounded_queue n (tail l) ops in (head l :: rs, rest, lost)
  | Clear :: ops => let '(rs, rest, lost) := bounded_queue n [] ops in (None :: rs, rest, l ++ lost)
  end.
Lemma queue_steps_bounded q ops rs q' : queue_steps q ops rs q' -> Clear ∉ ops ->
  forall l, elements q = Some <$> l -> (0 < room q)%nat -> u64 (dropped q) = dropped q ->
  let '(answers, rest, lost) := bounded_queue (room q) l ops in
  rs = answers /\ elements q' = Some <$> rest /\ gone q' = gone q ++ (if frees q then lost else []) /\
  dropped q' = u64 (dropped q + Zlen lost).
Proof.
  induction 1 as [q|q op r q1 ops rs q2 H1 _ IH]; intros Hc l El Hn Hd; cbn [bounded_queue].
  { rewrite Z.add_0_r, Hd. by destruct (frees q); rewrite app_nil_r. }
  apply not_elem_of_cons in Hc as [Hop Hc]. destruct H1 as [e| |order _]; [| |done].
  - assert (Hlen : length (elements q) = length l) by (by rewrite El, length_fmap).
    unfold queue_insert in *. rewrite Hlen in *. rewrite El in *. destruct (Nat.ltb_spec (length l) (room q)) as [Hl|Hl].
    + specialize (IH Hc (l ++ [e])). cbn [count_insert with_elements elements room dropped gone frees] in IH.
      rewrite fmap_app in IH. specialize (IH eq_refl Hn Hd).
      destruct (bounded_queue _ _ _) as [[answers rest] lost]. by destruct IH as (-> & ? & ? & ?).
    + destruct l as [|x l]; [cbn in Hl; lia|].
      cbn [fmap list_fmap head app tail mjoin option_join option_list drop_slot with_elements count_insert elements room dropped gone frees] in *.
      specialize (IH Hc (l ++ [e])). rewrite fmap_app in IH.
      specialize (IH eq_refl Hn ltac:(unfold u64; by rewrite Zmod_mod)).
      destruct (bounded_queue _ _ _) as [[answers rest] lost]. destruct IH as (-> & ? & -> & ->).
      split; [done|]. split; [done|]. split; [by destruct (frees q); rewrite <- app_assoc|].
      unfold u64. rewrite Zplus_mod_idemp_l. f_equal. unfold Zlen. simpl length. lia.
  - unfold queue_pop in *. rewrite El in *. destruct l as [|x l]; cbn [fmap list_fmap fst snd tail head] in *.
    + specialize (IH Hc [] El Hn Hd). destruct (bounded_queue _ _ _) as [[answers rest] lost]. by destruct IH as (-> & ? & ? & ?).
    + specialize (IH Hc l eq_refl Hn Hd). cbn [with_elements room] in IH.
      destruct (bounded_queue _ _ _) as [[answers rest] lost]. by destruct IH as (-> & ? & ? & ?).
Qed.
Lemma queue_steps_room q ops rs q' : queue_steps q ops rs q' -> room q' = room q.
Proof.
  assert (Hst : forall q op r q1, queue_step q op r q1 -> room q1 = room q).
  { intros q0 op r q1 [e| |order _].
    - unfold queue_insert. destruct (_ <? _)%nat; [done|]. by destruct (mjoin _).
    - unfold queue_pop. by destruct (elements q0).
    - unfold queue_clear. change (room q0) with (room (with_elements q0 ((fun _ => None) <$> elements q0))).
      generalize (with_elements q0 ((fun _ => None) <$> elements q0)). induction order as [|e order IH]; [done|].
      intros q2. cbn [fold_left]. by rewrite IH. }
  induction 1 as [|q op r q1 ops rs q2 H1 _ IH]; [done|]. by rewrite IH, (Hst _ _ _ _ H1).
Qed.

(** C34: a new ring buffer of a capacity of at least one is, over every sequence of
    inserts and pops, a bounded queue: the elements come out in the order they
    went in, an insert into a full buffer drops the oldest element, and every
    element that is dropped is handed to [free_element], if there is one, exactly
    once, and counted. Over every sequence with clears, too, no assertion fails,
    no access leaves the buffer and the capacity stays; but a clear is not that of
    a queue: it hands every element over once and keeps their places, which
    answer [NULL] afterwards ([queue_steps]; see [clear_keeps_places]). *)
Theorem ringbuffer_refines_queue n fe ops :
  (0 < n)%nat -> exists rb rs rb' q',
    ov_ringbuffer_create None n fe = Some rb /\ rb_run_ops rb ops = Some (rs, rb') /\
    (Clear ∉ ops -> let '(answers, rest, lost) := bounded_queue n [] ops in
       rs = answers /\ elements q' = Some <$> rest /\ freed rb' = (if fe then lost else []) /\ dropped q' = u64 (Zlen lost)) /\
    queue_steps {| room := n; elements := []; frees := fe; gone := []; inserted := 0; dropped := 0 |} ops rs q' /\
    ringbuffer_capacity (Some rb') = Some n /\ freed rb' = gone q' /\
    elements_inserted (ringbuffer_get_statistics (Some rb')) = inserted q' /\
    elements_dropped (ringbuffer_get_statistics (Some rb')) = dropped q'.
Proof.
  intros Hn. destruct (create_holds n fe Hn) as (rb & E & R).
  destruct (rb_run_ops_spec rb _ ops R) as (rs & rb' & q' & Er & Hs & R'). exists rb, rs, rb', q'.
  split; [done|]. split; [done|]. assert (Hgone : freed rb' = gone q') by apply R'. split.
  { intros Hc. pose proof (queue_steps_bounded _ _ _ _ Hs Hc [] eq_refl Hn eq_refl) as Hb. cbn [room frees gone dropped] in Hb.
    destruct (bounded_queue n [] ops) as [[answers rest] lost]. destruct Hb as (-> & ? & Hg & ?). by rewrite Hgone, Hg. }
  split; [done|]. pose proof (queue_steps_room _ _ _ _ Hs) as Hroom. cbn [room] in Hroom.
  destruct (holds_bounds _ _ R') as (Hc & _ & _ & Hcap). split; [|split; [apply R'|apply R']].
  unfold ringbuffer_capacity. rewrite (proj2 (Nat.ltb_lt _ _) Hc), Hcap, Hroom. cbn. f_equal. lia.
Qed.
Lemma ringbuffer_refines_queue_witness :
  (0 < 2)%nat /\ exists rb rb', ov_ringbuffer_create None 2 true = Some rb /\
    rb_run_ops rb [Insert 1; Insert 2; Insert 3; Pop; Pop; Pop] = Some ([None; None; None; Some 2; Some 3; None], rb') /\
    freed rb' = [1].
Proof.
  split; [lia|].
  destruct (ringbuffer_refines_queue 2 true [Insert 1; Insert 2; Insert 3; Pop; Pop; Pop] ltac:(lia))
    as (rb & rs & rb' & q' & E & Er & Hb & _). exists rb, rb'. split; [exact E|]. rewrite Er.
  destruct Hb as (Hrs & _ & Hf & _); [intros Hin; repeat (apply elem_of_cons in Hin as [Hin|Hin]; [discriminate|]); by apply elem_of_nil in Hin|].
  rewrite Hrs, Hf. by vm_compute.
Defined.

(** After a clear the places are still taken: what is inserted next only comes
    out after as many answers of [NULL]. *)
Lemma clear_keeps_places : exists rb rb', ov_ringbuffer_create None 4 true = Some rb /\
  rb_run_ops rb [Insert 1; Insert 2; Clear; Insert 3; Pop; Pop; Pop] =
    Some ([None; None; None; None; None; None; Some 3], rb').
Proof. eexists _, _. split; [reflexivity|]. vm_compute. reflexivity. Qed.
(** A buffer that went back to the cache answers [NULL] although it holds an element. *)
Lemma reused_buffer_is_not_empty : exists rb rb1 cached rb2 rb3, ov_ringbuffer_create None 4 true = Some rb /\
  rb_run_ops rb [Insert 1] = Some ([None], rb1) /\ ringbuffer_free (Some rb1) = Some cached /\
  ov_ringbuffer_create cached 4 true = Some rb2 /\ rb_run_ops rb2 [Insert 2; Pop; Pop] = Some ([None; None; Some 2], rb3).
Proof. eexists _, _, _, _, _. do 4 (split; [vm_compute; reflexivity|]). vm_compute. reflexivity. Qed.
