(* ===== verification/RtpFrame.v ===== *)
(** * RTP frames (src/lib/ov_base/src/rtp/ov_rtp_frame.c)

    A frame is the record of its members; the octets, the payload, the padding,
    the extension and the array of CSRC ids are memory, and members that point
    to them are addresses. [malloc] is [calloc]: what it returns is overwritten
    before it is read. A frame taken from the cache of released frames is the
    argument [cached]; what is freed is not accounted for. The host is little
    endian. [None] stands for an access outside of the memory and for a failing
    assertion. The statistics and the dump of a frame are left out. *)
From S2P Require Import Prelude CMem.

(** ** The code *)

Definition RTP_HEADER_MIN_LENGTH : Z := 12.
Definition RTP_VERSION_2 : Z := 2.

Record ov_rtp_frame_expansion := {
  version : Z;
  padding_bit : bool;
  extension_bit : bool;
  marker_bit : bool;
  payload_type : Z;
  sequence_number : Z;
  timestamp : Z;
  ssrc : Z;
  csrc_count : Z;
  csrc_ids : ptr;
  payload_length : Z;
  payload_data : ptr;
  padding_length : Z;
  padding_data : ptr;
  extension_type : Z;
  extension_length : Z;
  extension_allocated_bytes : Z;
  extension_data : ptr
}.
(** [ov_rtp_frame], with the members of [internal_frame] behind it. *)
Record ov_rtp_frame := {
  expanded : ov_rtp_frame_expansion;
  bytes_allocated_bytes : Z;
  bytes_length : Z;
  bytes_data : ptr;
  num_allocated_entries : Z;
  csrc_array : ptr
}.

Definition zero_expansion : ov_rtp_frame_expansion :=
  {| version := 0; padding_bit := false; extension_bit := false; marker_bit := false; payload_type := 0;
     sequence_number := 0; timestamp := 0; ssrc := 0; csrc_count := 0; csrc_ids := NULL;
     payload_length := 0; payload_data := NULL; padding_length := 0; padding_data := NULL;
     extension_type := 0; extension_length := 0; extension_allocated_bytes := 0; extension_data := NULL |}.
Definition with_version (e : ov_rtp_frame_expansion) (v : Z) : ov_rtp_frame_expansion :=
  {| version := v; padding_bit := padding_bit e; extension_bit := extension_bit e; marker_bit := marker_bit e;
     payload_type := payload_type e; sequence_number := sequence_number e; timestamp := timestamp e;
     ssrc := ssrc e; csrc_count := csrc_count e; csrc_ids := csrc_ids e; payload_length := payload_length e;
     payload_data := payload_data e; padding_length := padding_length e; padding_data := padding_data e;
     extension_type := extension_type e; extension_length := extension_length e;
     extension_allocated_bytes := extension_allocated_bytes e; extension_data := extension_data e |}.
Definition with_extension (e : ov_rtp_frame_expansion) (length allocated : Z) (data : ptr) : ov_rtp_frame_expansion :=
  {| version := version e; padding_bit := padding_bit e; extension_bit := extension_bit e; marker_bit := marker_bit e;
     payload_type := payload_type e; sequence_number := sequence_number e; timestamp := timestamp e;
     ssrc := ssrc e; csrc_count := csrc_count e; csrc_ids := csrc_ids e; payload_length := payload_length e;
     payload_data := payload_data e; padding_length := padding_length e; padding_data := padding_data e;
     extension_type := extension_type e; extension_length := length;
     extension_allocated_bytes := allocated; extension_data := data |}.
Definition with_payload_data (e : ov_rtp_frame_expansion) (p : ptr) : ov_rtp_frame_expansion :=
  {| version := version e; padding_bit := padding_bit e; extension_bit := extension_bit e; marker_bit := marker_bit e;
     payload_type := payload_type e; sequence_number := sequence_number e; timestamp := timestamp e;
     ssrc := ssrc e; csrc_count := csrc_count e; csrc_ids := csrc_ids e; payload_length := payload_length e;
     payload_data := p; padding_length := padding_length e; padding_data := padding_data e;
     extension_type := extension_type e; extension_length := extension_length e;
     extension_allocated_bytes := extension_allocated_bytes e; extension_data := extension_data e |}.
Definition with_padding_data (e : ov_rtp_frame_expansion) (p : ptr) : ov_rtp_frame_expansion :=
  {| version := version e; padding_bit := padding_bit e; extension_bit := extension_bit e; marker_bit := marker_bit e;
     payload_type := payload_type e; sequence_number := sequence_number e; timestamp := timestamp e;
     ssrc := ssrc e; csrc_count := csrc_count e; csrc_ids := csrc_ids e; payload_length := payload_length e;
     payload_data := payload_data e; padding_length := padding_length e; padding_data := p;
     extension_type := extension_type e; extension_length := extension_length e;
     extension_allocated_bytes := extension_allocated_bytes e; extension_data := extension_data e |}.
Definition with_expanded (f : ov_rtp_frame) (e : ov_rtp_frame_expansion) : ov_rtp_frame :=
  {| expanded := e; bytes_allocated_bytes := bytes_allocated_bytes f; bytes_length := bytes_length f;
     bytes_data := bytes_data f; num_allocated_entries := num_allocated_entries f; csrc_array := csrc_array f |}.
Definition with_bytes (f : ov_rtp_frame) (allocated length : Z) (data : ptr) : ov_rtp_frame :=
  {| expanded := expanded f; bytes_allocated_bytes := allocated; bytes_length := length;
     bytes_data := data; num_allocated_entries := num_allocated_entries f; csrc_array := csrc_array f |}.

Definition rtp_frame_create : ov_rtp_frame :=
  {| expanded := with_version zero_expansion RTP_VERSION_2; bytes_allocated_bytes := 0; bytes_length := 0;
     bytes_data := NULL; num_allocated_entries := 0; csrc_array := NULL |}.
Definition rtp_frame_get_new (cached : option ov_rtp_frame) (m : mem) (min_bytes_length : Z) : ov_rtp_frame * mem :=
  let frame := match cached with Some f => f | None => rtp_frame_create end in
  let exp := expanded frame in
  let frame := if 0 <? extension_allocated_bytes exp
               then with_expanded frame (with_extension exp (extension_length exp) 0 NULL) else frame in
  let frame := if negb (bytes_data frame =? NULL) && (bytes_allocated_bytes frame <? min_bytes_length)
               then with_bytes frame (bytes_allocated_bytes frame) (bytes_length frame) NULL else frame in
  if bytes_data frame =? NULL then
    let '(p, m) := calloc m min_bytes_length in
    (with_bytes frame min_bytes_length (bytes_length frame) p, m)
  else (frame, m).

(** *** Encoding *)

Fixpoint csrc_store_loop (m : mem) (src dst : ptr) (n : nat) : option mem :=
  match n with
  | O => Some m
  | S n => x ← load32 m src; m ← store32 m dst (htonl x); csrc_store_loop m (src + 4) (dst + 4) n
  end.
Definition bit (b : bool) (mask : Z) : Z := if b then mask else 0.
(** The copy of a part of the frame; [None] in the result for [goto error]. *)
Definition copy_part (m : mem) (next data length : Z) : option (option mem) :=
  if data =? NULL then Some None else m ← memcpy m next data length; Some (Some m).

(** From the CSRC ids on: the extension, the payload and the padding. *)
Definition encode_extension (m : mem) (rtp_data exp : ov_rtp_frame_expansion) (next extension_len_4octets : Z)
    : option (option (ov_rtp_frame_expansion * Z * mem)) :=
  if extension_bit rtp_data then
    m ← store16 m next (htons (extension_type rtp_data));
    m ← store16 m (next + 2) (htons extension_len_4octets);
    let next := next + 4 in
    if extension_data rtp_data =? NULL then Some (Some (exp, next, m)) else
    if 0 =? extension_length rtp_data then Some None else
    m ← memcpy m next (extension_data rtp_data) (extension_length rtp_data);
    Some (Some (with_extension exp (extension_length rtp_data) (extension_allocated_bytes exp) next,
                next + extension_length rtp_data, m))
  else Some (Some (exp, next, m)).
Definition encode_payload (m : mem) (exp : ov_rtp_frame_expansion) (next payload_length : Z)
    : option (option (ov_rtp_frame_expansion * Z * mem)) :=
  if 0 <? payload_length then
    r ← copy_part m next (payload_data exp) payload_length;
    match r with
    | None => Some None
    | Some m => Some (Some (with_payload_data exp next, next + payload_length, m))
    end
  else Some (Some (exp, next, m)).
Definition encode_padding (m : mem) (rtp_data exp : ov_rtp_frame_expansion) (next padding_length : Z)
    : option (option (ov_rtp_frame_expansion * Z * mem)) :=
  if 0 <? padding_length then
    if negb (padding_bit rtp_data) then Some None else
    r ← copy_part m next (padding_data rtp_data) padding_length;
    match r with
    | None => Some None
    | Some m => Some (Some (with_padding_data exp next, next + padding_length, m))
    end
  else Some (Some (exp, next, m)).
Definition ov_rtp_frame_encode (cached : option ov_rtp_frame) (m : mem) (rtp_data : option ov_rtp_frame_expansion)
    : option (option ov_rtp_frame * mem) :=
  match rtp_data with
  | None => Some (None, m)
  | Some rtp_data =>
      let payload_length := payload_length rtp_data in
      let padding_length := padding_length rtp_data in
      let extension_len := extension_length rtp_data in
      let csrc_count := csrc_count rtp_data in
      if 15 <? csrc_count then Some (None, m) else
      let length := RTP_HEADER_MIN_LENGTH + csrc_count * 4 in
      let length := if extension_bit rtp_data then length + (4 + extension_len) else length in
      let extension_len_4octets := u16 (extension_len / 4) in
      if negb (4 * extension_len_4octets =? extension_len) then Some (None, m) else
      let length := if 0 <? payload_length then length + payload_length else length in
      if 0xff <? padding_length then Some (None, m) else
      let length := length + padding_length in
      let length := u64 (if padding_bit rtp_data then length + 1 else length) in
      let '(frame, m) := rtp_frame_get_new cached m length in
      _ ← OV_ASSERT (negb (bytes_data frame =? NULL));
      _ ← OV_ASSERT (length <=? bytes_allocated_bytes frame);
      _ ← OV_ASSERT (0 =? extension_allocated_bytes (expanded frame));
      let exp := with_extension rtp_data 0 0 NULL in
      let frame := with_bytes frame (bytes_allocated_bytes frame) length (bytes_data frame) in
      let bytes := bytes_data frame in
      m ← memset m bytes 0 length;
      let b := u8 (version rtp_data .<< 6) in
      let b := b .| (csrc_count .& 0x0F) in
      let b := b .| bit (padding_bit rtp_data) 0x20 in
      let b := b .| bit (extension_bit rtp_data) 0x10 in
      m ← store8 m bytes b;
      let b := bit (marker_bit rtp_data) 0x80 in
      let b := b .| (payload_type rtp_data .& 0x7F) in
      m ← store8 m (bytes + 1) b;
      m ← store16 m (bytes + 2) (htons (sequence_number rtp_data));
      m ← store32 m (bytes + 4) (htonl (timestamp rtp_data));
      m ← store32 m (bytes + 8) (htonl (ssrc rtp_data));
      m ← csrc_store_loop m (csrc_ids rtp_data) (bytes + 12) (Z.to_nat csrc_count);
      let next := bytes + 12 + csrc_count * 4 in
      r ← encode_extension m rtp_data exp next extension_len_4octets;
      match r with
      | None => Some (None, m)
      | Some (exp, next, m) =>
      r ← encode_payload m exp next payload_length;
      match r with
      | None => Some (None, m)
      | Some (exp, next, m) =>
      r ← encode_padding m rtp_data exp next padding_length;
      match r with
      | None => Some (None, m)
      | Some (exp, next, m) =>
      m ← (if padding_bit rtp_data then store8 m next (padding_length + 1) else Some m);
      Some (Some (with_expanded frame exp), m)
      end end end
  end.

(** *** Decoding *)

Fixpoint csrc_load_loop (m : mem) (dst src : ptr) (n : nat) : option mem :=
  match n with
  | O => Some m
  | S n => x ← load32 m src; m ← store32 m dst (ntohl x); csrc_load_loop m (dst + 4) (src + 4) n
  end.
Definition with_csrc_array (f : ov_rtp_frame) (n : Z) (p : ptr) : ov_rtp_frame :=
  {| expanded := expanded f; bytes_allocated_bytes := bytes_allocated_bytes f; bytes_length := bytes_length f;
     bytes_data := bytes_data f; num_allocated_entries := n; csrc_array := p |}.
Definition with_csrc_ids (e : ov_rtp_frame_expansion) (p : ptr) : ov_rtp_frame_expansion :=
  {| version := version e; padding_bit := padding_bit e; extension_bit := extension_bit e; marker_bit := marker_bit e;
     payload_type := payload_type e; sequence_number := sequence_number e; timestamp := timestamp e;
     ssrc := ssrc e; csrc_count := csrc_count e; csrc_ids := p; payload_length := payload_length e;
     payload_data := payload_data e; padding_length := padding_length e; padding_data := padding_data e;
     extension_type := extension_type e; extension_length := extension_length e;
     extension_allocated_bytes := extension_allocated_bytes e; extension_data := extension_data e |}.
Definition set_csrc_array_to_little_endian (m : mem) (frame : ov_rtp_frame) (csrcs : ptr) (num : Z)
    : option (ov_rtp_frame * mem) :=
  if 0 =? num then Some (frame, m) else
  if csrcs =? NULL then Some (frame, m) else
  let array := csrc_array frame in
  let entries := num_allocated_entries frame in
  _ ← OV_ASSERT (negb (0 =? entries) && negb (array =? NULL) || (0 =? entries) && (array =? NULL));
  let '(array, entries, m) := if array =? NULL then let '(p, m) := calloc m (num * 4) in (p, num, m)
                              else (array, entries, m) in
  let '(array, entries, m) := if entries <? num then let '(p, m) := calloc m (num * 4) in (p, num, m)
                              else (array, entries, m) in
  let frame := with_csrc_array frame entries array in
  m ← csrc_load_loop m array csrcs (Z.to_nat num);
  Some (with_expanded frame (with_csrc_ids (expanded frame) array), m).

(** The lengths of the payload and the padding, and the padding. *)
Definition decode_padding (m : mem) (exp : ov_rtp_frame_expansion) (bytes length pl_length : Z)
    : option (option (Z * Z * ptr)) :=
  if padding_bit exp then
    byte ← load8 m (bytes + length - 1);
    if 0 =? byte then Some None else
    if pl_length <? byte then Some None else
    Some (Some (pl_length - byte, byte - 1, bytes + (length - byte)))
  else Some (Some (pl_length, padding_length exp, padding_data exp)).
(** From the data of the extension on; [expected_length] is the length of what
    precedes it. *)
Definition decode_body (m : mem) (frame : ov_rtp_frame)
    (current length expected_length ext_type ext_length : Z) : option (option ov_rtp_frame) :=
  let exp := expanded frame in
  let bytes := bytes_data frame in
  let expected_length := expected_length + ext_length in
  if length <? expected_length then Some None else
  let ext_data := if 0 <? ext_length then current else extension_data exp in
  let current := current + ext_length in
  let pl_length := if current <? bytes + length then bytes + length - current else payload_length exp in
  let pl_data := if current <? bytes + length then current else payload_data exp in
  let build pl_length pad_length pad_data :=
    with_expanded frame
      {| version := version exp; padding_bit := padding_bit exp; extension_bit := extension_bit exp;
         marker_bit := marker_bit exp; payload_type := payload_type exp; sequence_number := sequence_number exp;
         timestamp := timestamp exp; ssrc := ssrc exp; csrc_count := csrc_count exp; csrc_ids := csrc_ids exp;
         payload_length := pl_length; payload_data := pl_data; padding_length := pad_length;
         padding_data := pad_data; extension_type := ext_type; extension_length := ext_length;
         extension_allocated_bytes := extension_allocated_bytes exp; extension_data := ext_data |} in
  r ← decode_padding m exp bytes length pl_length;
  match r with
  | None => Some None
  | Some (pl_length, pad_length, pad_data) => Some (Some (build pl_length pad_length pad_data))
  end.
Definition decode_content (m : mem) (frame : ov_rtp_frame) (current length expected_length : Z)
    : option (option ov_rtp_frame) :=
  if extension_bit (expanded frame) then
    t ← load16 m current;
    l ← load16 m (current + 2);
    decode_body m frame (current + 4) length expected_length (ntohs t) (ntohs l * 4)
  else decode_body m frame current length expected_length
         (extension_type (expanded frame)) (extension_length (expanded frame)).
Definition ov_rtp_frame_decode (cached : option ov_rtp_frame) (m : mem) (input : ptr) (length : Z)
    : option (option ov_rtp_frame * mem) :=
  if (input =? NULL) || (0 =? length) then Some (None, m) else
  let '(frame, m) := rtp_frame_get_new cached m length in
  _ ← OV_ASSERT (negb (bytes_data frame =? NULL));
  _ ← OV_ASSERT (length <=? bytes_allocated_bytes frame);
  m ← memcpy m (bytes_data frame) input length;
  let frame := with_bytes frame (bytes_allocated_bytes frame) length (bytes_data frame) in
  let bytes := bytes_data frame in
  let exp := with_extension zero_expansion 0 (extension_allocated_bytes (expanded frame))
               (extension_data (expanded frame)) in
  byte ← load8 m bytes;
  let padding := nz (byte .& 0x20) in
  let extension := nz (byte .& 0x10) in
  let ver := (byte .>> 6) .& 0x03 in
  let expected_length := RTP_HEADER_MIN_LENGTH + bit extension 4 in
  let count := byte .& 0x0f in
  if 0x0e <? count then Some (None, m) else
  let expected_length := expected_length + count * 4 in
  if length <? expected_length then Some (None, m) else
  byte ← load8 m (bytes + 1);
  seq ← load16 m (bytes + 2);
  ts ← load32 m (bytes + 4);
  id ← load32 m (bytes + 8);
  let exp := {| version := ver; padding_bit := padding; extension_bit := extension;
                marker_bit := nz (byte .& 0x80); payload_type := byte .& 0x7f; sequence_number := ntohs seq;
                timestamp := ntohl ts; ssrc := ntohl id; csrc_count := count; csrc_ids := csrc_ids exp;
                payload_length := payload_length exp; payload_data := payload_data exp;
                padding_length := padding_length exp; padding_data := padding_data exp;
                extension_type := extension_type exp; extension_length := extension_length exp;
                extension_allocated_bytes := extension_allocated_bytes exp;
                extension_data := extension_data exp |} in
  '(frame, m) ← set_csrc_array_to_little_endian m (with_expanded frame exp) (bytes + 12) count;
  frame ← decode_content m frame (bytes + 12 + count * 4) length expected_length;
  Some (frame, m).
Definition impl_rtp_frame_copy (cached : option ov_rtp_frame) (m : mem) (self : option ov_rtp_frame)
    : option (option ov_rtp_frame * mem) :=
  match self with
  | None => Some (None, m)
  | Some self =>
      if 0 =? bytes_length self then Some (None, m) else
      ov_rtp_frame_decode cached m (bytes_data self) (bytes_length self)
  end.
