(* ===== verification/RtpFormat.v ===== *)
(** * The format of RTP frames (RFC 3550, section 5.1), and what frames describe

    The octets of a frame, [serialize], the test the decoder applies to octets,
    [accepts], and the lemmas that [accepts] recognises exactly the octets of
    the valid frames: those whose fields fit, of any version. *)
From S2P Require Import Prelude CMem RtpFrame.

Record rtp := {
  r_version : Z; r_marker : bool; r_type : Z; r_seq : Z; r_ts : Z; r_ssrc : Z;
  r_csrcs : list Z;
  r_extension : option (Z * list Z);
  r_payload : list Z;
  r_padding : option (list Z)
}.

(** Frames whose fields fit. The version is left free, as the code leaves it,
    although RFC 3550 fixes 2; padding has its length in its last octet, so at
    most 254 octets stand before it. *)
Record valid (max_csrcs : Z) (r : rtp) : Prop := {
  v_version : 0 <= r_version r < 4;
  v_type : 0 <= r_type r < 128;
  v_seq : 0 <= r_seq r < 65536;
  v_ts : is_u32 (r_ts r);
  v_ssrc : is_u32 (r_ssrc r);
  v_csrcs : Forall is_u32 (r_csrcs r) /\ Zlen (r_csrcs r) <= max_csrcs;
  v_extension t d : r_extension r = Some (t, d) ->
    0 <= t < 65536 /\ bytes d /\ exists k, 0 <= k < 65536 /\ Zlen d = 4 * k;
  v_payload : bytes (r_payload r);
  v_padding d : r_padding r = Some d -> bytes d /\ Zlen d <= 254
}.

(** The words of the CSRC ids, on the wire and in the memory of the host. *)
Definition words (l : list Z) : list Z := concat (be32 <$> l).
Definition le32 (x : Z) : list Z := [u8 x; u8 (x .>> 8); u8 (x .>> 16); u8 (x .>> 24)].
Definition host_words (l : list Z) : list Z := concat (le32 <$> l).

Definition is_some {A} (o : option A) : bool := match o with Some _ => true | None => false end.
Definition first_octet (v : Z) (p e : bool) (c : Z) : Z :=
  u8 (v .<< 6) .| (c .& 0x0F) .| bit p 0x20 .| bit e 0x10.
Definition second_octet (m : bool) (t : Z) : Z := bit m 0x80 .| (t .& 0x7F).
Definition extension_octets (o : option (Z * list Z)) : list Z :=
  match o with Some (t, d) => be16 t ++ be16 (Zlen d / 4) ++ d | None => [] end.
Definition padding_octets (o : option (list Z)) : list Z :=
  match o with Some d => d ++ [Zlen d + 1] | None => [] end.
Definition header (r : rtp) : list Z :=
  [first_octet (r_version r) (is_some (r_padding r)) (is_some (r_extension r)) (Zlen (r_csrcs r));
   second_octet (r_marker r) (r_type r)] ++ be16 (r_seq r) ++ be32 (r_ts r) ++ be32 (r_ssrc r).
Definition serialize (r : rtp) : list Z :=
  header r ++ words (r_csrcs r) ++ extension_octets (r_extension r) ++ r_payload r ++ padding_octets (r_padding r).

(** *** The first two octets *)

Definition first_octet_ok (b : Z) : bool :=
  let v := (b .>> 6) .& 0x03 in let c := b .& 0x0f in
  (0 <=? v) && (v <? 4) && (0 <=? c) && (c <? 16) &&
  (first_octet v (nz (b .& 0x20)) (nz (b .& 0x10)) c =? b).
Lemma first_octet_of b : is_byte b ->
  0 <= (b .>> 6) .& 0x03 < 4 /\ 0 <= b .& 0x0f < 16 /\
  first_octet ((b .>> 6) .& 0x03) (nz (b .& 0x20)) (nz (b .& 0x10)) (b .& 0x0f) = b.
Proof.
  intros Hb. assert (H : for_range 0 256 first_octet_ok = true) by by vm_compute.
  apply (for_range_spec _ _ _ b) in H; [|unfold is_byte in Hb; lia]. unfold first_octet_ok in H.
  rewrite !andb_true_iff, !Z.leb_le, !Z.ltb_lt, Z.eqb_eq in H. lia.
Qed.
Definition first_back (v c : Z) (p e : bool) : bool :=
  let b := first_octet v p e c in
  (0 <=? b) && (b <? 256) && ((b .>> 6) .& 0x03 =? v) && eqb (nz (b .& 0x20)) p && eqb (nz (b .& 0x10)) e &&
  (b .& 0x0f =? c).
Lemma first_octet_fields v p e c : 0 <= v < 4 -> 0 <= c < 16 ->
  let b := first_octet v p e c in
  is_byte b /\ (b .>> 6) .& 0x03 = v /\ nz (b .& 0x20) = p /\ nz (b .& 0x10) = e /\ b .& 0x0f = c.
Proof.
  intros Hv Hc b.
  assert (H : for_range 0 4 (fun v => for_range 0 16 (fun c => first_back v c p e)) = true)
    by (destruct p, e; by vm_compute).
  apply (for_range_spec _ _ _ v) in H; [|lia]. apply (for_range_spec _ _ _ c) in H; [|lia].
  unfold first_back in H. fold b in H.
  rewrite !andb_true_iff, !eqb_true_iff, Z.leb_le, Z.ltb_lt, !Z.eqb_eq in H. unfold is_byte. tauto.
Qed.
Lemma second_octet_of b : is_byte b ->
  0 <= b .& 0x7f < 128 /\ second_octet (nz (b .& 0x80)) (b .& 0x7f) = b.
Proof.
  intros Hb. assert (H : for_range 0 256 (fun b => (0 <=? b .& 0x7f) && (b .& 0x7f <? 128) &&
    (second_octet (nz (b .& 0x80)) (b .& 0x7f) =? b)) = true) by by vm_compute.
  apply (for_range_spec _ _ _ b) in H; [|unfold is_byte in Hb; lia].
  rewrite !andb_true_iff, Z.leb_le, Z.ltb_lt, Z.eqb_eq in H. lia.
Qed.
Lemma second_octet_fields m t : 0 <= t < 128 ->
  let b := second_octet m t in is_byte b /\ nz (b .& 0x80) = m /\ b .& 0x7f = t.
Proof.
  intros Ht b. assert (H : for_range 0 128 (fun t => let b := second_octet m t in
    (0 <=? b) && (b <? 256) && eqb (nz (b .& 0x80)) m && (b .& 0x7f =? t)) = true) by (destruct m; by vm_compute).
  apply (for_range_spec _ _ _ t) in H; [|lia]. fold b in H. cbv zeta in H. fold b in H.
  rewrite !andb_true_iff, eqb_true_iff, Z.leb_le, Z.ltb_lt, Z.eqb_eq in H. unfold is_byte. tauto.
Qed.

(** *** Words *)

Lemma words_cons x l : words (x :: l) = be32 x ++ words l.
Proof. done. Qed.
Lemma Zlen_words l : Zlen (words l) = 4 * Zlen l.
Proof. induction l as [|x l IH]; [done|]. rewrite words_cons, Zlen_app, IH. zlia. Qed.
Lemma Zlen_host_words l : Zlen (host_words l) = 4 * Zlen l.
Proof.
  induction l as [|x l IH]; [done|]. change (host_words (x :: l)) with (le32 x ++ host_words l).
  rewrite Zlen_app, IH. unfold le32. zlia.
Qed.
Lemma bytes_words l : bytes (words l).
Proof. induction l as [|x l IH]; [constructor|]. rewrite words_cons, bytes_app. split; [apply bytes_be32|done]. Qed.
(** Four octets are a word. *)
Lemma be32_of a b c d : is_byte a -> is_byte b -> is_byte c -> is_byte d ->
  exists x, is_u32 x /\ be32 x = [a; b; c; d].
Proof.
  intros. exists (be_val [a; b; c; d]). split; [by apply be_val_range4|].
  unfold be32. list_cong; unfold is_byte in *; byte_arith.
Qed.
Lemma be16_of a b : is_byte a -> is_byte b -> exists x, 0 <= x < 65536 /\ be16 x = [a; b].
Proof. intros. exists (be_val [a; b]). split; [by apply be_val_range2|by apply be16_be_val]. Qed.
Lemma words_of n l : bytes l -> Zlen l = 4 * Z.of_nat n ->
  exists ws, l = words ws /\ Forall is_u32 ws /\ length ws = n.
Proof.
  revert l. induction n as [|n IH]; intros l Hb Hl.
  - exists []. apply Zlen_0_nil in Hl as ->. by repeat constructor.
  - destruct l as [|a [|b [|c [|d l]]]]; [zlia..|].
    rewrite !bytes_cons in Hb. destruct Hb as (? & ? & ? & ? & Hb).
    destruct (IH l Hb) as (ws & -> & Hw & Hn); [zlia|].
    destruct (be32_of a b c d) as (x & Hx & E); [done..|]. exists (x :: ws).
    split; [by rewrite words_cons, E|]. split; [by constructor|]. cbn. lia.
Qed.
