(* ===== verification/RtpCodec.v ===== *)
(** * Encoding and decoding RTP frames: the proofs

    [parse] is the reading of octets that RFC 3550 prescribes, on lists; it is
    the inverse of [serialize] on the valid frames, and the code's decoder
    computes it. The encoder writes [serialize] of the frame its members
    describe. *)
From S2P Require Import Prelude CMem RtpFrame RtpFormat.

(** ** The reference reading of octets *)

Definition split {A} (n : Z) (l : list A) : option (list A * list A) :=
  if n <=? Zlen l then Some (ztake n l, zdrop n l) else None.
Fixpoint unwords (l : list Z) : list Z :=
  match l with
  | a :: b :: c :: d :: l => be_val [a; b; c; d] :: unwords l
  | _ => []
  end.
Definition parse_extension (x : bool) (l : list Z) : option (option (Z * list Z) * list Z) :=
  if x then
    match l with
    | a :: b :: c :: d :: l => '(e, l) ← split (be_val [c; d] * 4) l; Some (Some (be_val [a; b], e), l)
    | _ => None
    end
  else Some (None, l).
Definition parse_padding (x : bool) (l : list Z) : option (list Z * option (list Z)) :=
  if x then
    let n := l.[Zlen l - 1] in
    if (n =? 0) || (Zlen l <? n) then None
    else Some (ztake (Zlen l - n) l, Some (ztake (n - 1) (zdrop (Zlen l - n) l)))
  else Some (l, None).
Definition parse_content (x y : bool) (l : list Z) : option (option (Z * list Z) * list Z * option (list Z)) :=
  '(ext, l) ← parse_extension x l; '(pl, pad) ← parse_padding y l; Some (ext, pl, pad).
Definition parse (l : list Z) : option rtp :=
  match l with
  | b0 :: b1 :: s0 :: s1 :: t0 :: t1 :: t2 :: t3 :: i0 :: i1 :: i2 :: i3 :: l =>
      if 14 <? b0 .& 0x0f then None else
      '(cs, l) ← split ((b0 .& 0x0f) * 4) l;
      '(ext, pl, pad) ← parse_content (nz (b0 .& 0x10)) (nz (b0 .& 0x20)) l;
      Some {| r_version := (b0 .>> 6) .& 0x03; r_marker := nz (b1 .& 0x80); r_type := b1 .& 0x7f;
              r_seq := be_val [s0; s1]; r_ts := be_val [t0; t1; t2; t3]; r_ssrc := be_val [i0; i1; i2; i3];
              r_csrcs := unwords cs; r_extension := ext; r_payload := pl; r_padding := pad |}
  | _ => None
  end.

Lemma split_Some {A} n (l a b : list A) : split n l = Some (a, b) -> 0 <= n -> l = a ++ b /\ Zlen a = n.
Proof.
  unfold split. intros H Hn. destruct (Z.leb_spec n (Zlen l)); [|done]. simplify_eq.
  split; [by rewrite ztake_zdrop|zlia].
Qed.
Lemma split_app {A} n (a b : list A) : n = Zlen a -> split n (a ++ b) = Some (a, b).
Proof.
  intros ->. unfold split. replace (Zlen a <=? Zlen (a ++ b)) with true by (symmetry; zlia).
  by rewrite ztake_app, zdrop_app.
Qed.
Lemma split_None {A} n (l : list A) : split n l = None -> Zlen l < n.
Proof. unfold split. destruct (Z.leb_spec n (Zlen l)); [done|lia]. Qed.

Lemma unwords_words l : Forall is_u32 l -> unwords (words l) = l.
Proof.
  induction 1 as [|x l Hx _ IH]; [done|]. rewrite words_cons. unfold be32. cbn [app unwords].
  rewrite IH. f_equal. by apply be_val_be32.
Qed.
(** Octets that are a number of words. *)
Lemma words_unwords l c : bytes l -> Zlen l = 4 * c ->
  words (unwords l) = l /\ Forall is_u32 (unwords l) /\ Zlen (unwords l) = c.
Proof.
  intros Hb Hl. destruct (words_of (Z.to_nat c) l) as (ws & -> & Hw & Hn); [done|zlia|].
  rewrite unwords_words by done. split; [done|]. split; [done|]. unfold Zlen in *. zlia.
Qed.

Lemma be32_be_val_u32 a b c d : is_byte a -> is_byte b -> is_byte c -> is_byte d ->
  is_u32 (be_val [a; b; c; d]) /\ be32 (be_val [a; b; c; d]) = [a; b; c; d].
Proof.
  intros. destruct (be32_of a b c d) as (x & Hx & E); [done..|].
  rewrite <- E. by rewrite be_val_be32 by done.
Qed.

(** What each part of the reading has to be. *)
Lemma parse_extension_sound x l o k : bytes l -> parse_extension x l = Some (o, k) ->
  l = extension_octets o ++ k /\ is_some o = x /\
  forall t d, o = Some (t, d) -> 0 <= t < 65536 /\ bytes d /\ exists k, 0 <= k < 65536 /\ Zlen d = 4 * k.
Proof.
  intros Hb. unfold parse_extension. destruct x; [|intros [= <- <-]; done].
  destruct l as [|a [|b [|c [|d l]]]]; try done. rewrite !bytes_cons in Hb. destruct Hb as (? & ? & ? & ? & Hb).
  pose proof (be_val_range2 c d ltac:(done) ltac:(done)). pose proof (be_val_range2 a b ltac:(done) ltac:(done)).
  destruct (split _ l) as [[e l']|] eqn:E; [|done]. intros [= <- <-].
  apply split_Some in E as [-> He]; [|lia]. apply bytes_app in Hb as [Hbe _]. split; [|split; [done|]].
  - unfold extension_octets. rewrite He, Z.div_mul, !be16_be_val by done. done.
  - intros t u [= <- <-]. split; [done|]. split; [done|]. exists (be_val [c; d]). lia.
Qed.
Lemma parse_extension_complete o k :
  (forall t d, o = Some (t, d) -> 0 <= t < 65536 /\ bytes d /\ exists k, 0 <= k < 65536 /\ Zlen d = 4 * k) ->
  parse_extension (is_some o) (extension_octets o ++ k) = Some (o, k).
Proof.
  destruct o as [[t d]|]; [|done]. intros H. destruct (H t d eq_refl) as (Ht & Hd & n & Hn & El).
  unfold extension_octets. rewrite El, (Z.mul_comm 4), Z.div_mul by lia.
  unfold be16. cbn [is_some app parse_extension].
  change ([u8 (n .>> 8); u8 n]) with (be16 n). change ([u8 (t .>> 8); u8 t]) with (be16 t).
  rewrite !be_val_be16 by done. rewrite split_app by lia. done.
Qed.
Lemma znth_last l b : (l ++ [b]).[Zlen (l ++ [b]) - 1] = b.
Proof. rewrite znth_app_r by zlia. replace (_ - _) with 0 by zlia. done. Qed.
Lemma parse_padding_sound x l pl pad : bytes l -> parse_padding x l = Some (pl, pad) ->
  l = pl ++ padding_octets pad /\ is_some pad = x /\ forall d, pad = Some d -> bytes d /\ Zlen d <= 254.
Proof.
  intros Hb. unfold parse_padding. destruct x; [|intros [= <- <-]; by rewrite app_nil_r].
  pose proof (bytes_znth l (Zlen l - 1) Hb) as Hn. set (n := l.[Zlen l - 1]) in *. unfold is_byte in Hn.
  destruct ((n =? 0) || (Zlen l <? n)) eqn:E; [done|]. bool_to_prop. intros [= <- <-].
  assert (En : zdrop (n - 1) (zdrop (Zlen l - n) l) = [n]).
  { rewrite zdrop_zdrop, zdrop_cons by lia. replace (Zlen l - n + (n - 1)) with (Zlen l - 1) by lia. fold n.
    f_equal. apply Zlen_0_nil. zlia. }
  split; [|split; [done|]].
  - unfold padding_octets. replace (Zlen (ztake _ _) + 1) with n by zlia.
    rewrite <- En. by rewrite !ztake_zdrop.
  - intros d [= <-]. split; [auto with ov|zlia].
Qed.
Lemma parse_padding_complete pl pad : (forall d, pad = Some d -> bytes d /\ Zlen d <= 254) ->
  parse_padding (is_some pad) (pl ++ padding_octets pad) = Some (pl, pad).
Proof.
  destruct pad as [d|]; [|intros _; cbn; by rewrite app_nil_r]. intros H. destruct (H d eq_refl) as [Hd Hl].
  cbn [is_some padding_octets]. unfold parse_padding. rewrite (app_assoc pl), znth_last.
  replace ((_ =? 0) || _) with false by (symmetry; zlia).
  replace (Zlen ((pl ++ d) ++ [Zlen d + 1]) - (Zlen d + 1)) with (Zlen pl) by zlia.
  rewrite <- app_assoc, ztake_app, zdrop_app. replace (Zlen d + 1 - 1) with (Zlen d) by lia. by rewrite ztake_app.
Qed.

Lemma parse_sound l r : bytes l -> parse l = Some r -> valid 14 r /\ l = serialize r.
Proof.
  intros Hb. unfold parse.
  destruct l as [|b0 [|b1 [|s0 [|s1 [|t0 [|t1 [|t2 [|t3 [|i0 [|i1 [|i2 [|i3 l]]]]]]]]]]]]; try done.
  rewrite !bytes_cons in Hb. destruct Hb as (? & ? & ? & ? & ? & ? & ? & ? & ? & ? & ? & ? & Hb).
  destruct (first_octet_of b0 ltac:(done)) as (Hv & Hc & E0). destruct (second_octet_of b1 ltac:(done)) as (Hty & E1).
  destruct (be32_be_val_u32 t0 t1 t2 t3) as [Ht Et]; [done..|]. destruct (be32_be_val_u32 i0 i1 i2 i3) as [Hi Ei]; [done..|].
  pose proof (be_val_range2 s0 s1 ltac:(done) ltac:(done)) as Hs.
  destruct (Z.ltb_spec 14 (b0 .& 0x0f)); [done|].
  destruct (split _ l) as [[cs l1]|] eqn:Es; cbn [mbind option_bind]; [|done].
  apply split_Some in Es as [-> Hcs]; [|lia]. apply bytes_app in Hb as [Hbc Hb].
  unfold parse_content. destruct (parse_extension _ l1) as [[o l2]|] eqn:Ee; cbn [mbind option_bind]; [|done].
  apply parse_extension_sound in Ee as (-> & Ex & He); [|done]. apply bytes_app in Hb as [_ Hb].
  destruct (parse_padding _ l2) as [[pl pad]|] eqn:Ep; cbn [mbind option_bind]; [|done].
  apply parse_padding_sound in Ep as (-> & Epad & Hp); [|done]. apply bytes_app in Hb as [Hpl _].
  intros [= <-]. destruct (words_unwords cs (b0 .& 0x0f)) as (Ew & Hw & Hwl); [done|lia|].
  split; [split; cbn; try done; split; [done|lia]|].
  unfold serialize, header. cbn [r_version r_marker r_type r_seq r_ts r_ssrc r_csrcs r_extension r_payload r_padding].
  rewrite Epad, Ex, Hwl, E0, E1, be16_be_val, Et, Ei, Ew by done. done.
Qed.
Lemma parse_complete r : valid 14 r -> parse (serialize r) = Some r.
Proof.
  intros [Hv Hty Hs Hts Hi [Hc Hcl] He _ Hp]. unfold serialize, header, be16, be32. cbn [app parse].
  destruct (first_octet_fields (r_version r) (is_some (r_padding r)) (is_some (r_extension r)) (Zlen (r_csrcs r)))
    as (_ & -> & -> & -> & ->); [done|zlia|].
  destruct (second_octet_fields (r_marker r) (r_type r)) as (_ & -> & ->); [done|].
  replace (14 <? _) with false by (symmetry; zlia). rewrite split_app by (rewrite Zlen_words; lia).
  cbn [mbind option_bind]. unfold parse_content. rewrite parse_extension_complete by done. cbn [mbind option_bind].
  rewrite parse_padding_complete by done. cbn [mbind option_bind].
  fold (be16 (r_seq r)) (be32 (r_ts r)) (be32 (r_ssrc r)).
  rewrite be_val_be16, !be_val_be32, unwords_words by done. by destruct r.
Qed.

(** ** What a frame in memory describes *)

Definition stored (m : mem) (p : ptr) (l : list Z) : Prop := l <> [] -> region m p l.
(** The members the header of a frame determines, and the others. *)
Record head (m : mem) (e : ov_rtp_frame_expansion) (r : rtp) : Prop := {
  d_version : version e = r_version r;
  d_marker : marker_bit e = r_marker r;
  d_type : payload_type e = r_type r;
  d_seq : sequence_number e = r_seq r;
  d_ts : timestamp e = r_ts r;
  d_ssrc : ssrc e = r_ssrc r;
  d_csrc_count : csrc_count e = Zlen (r_csrcs r);
  d_csrc_ids : stored m (csrc_ids e) (host_words (r_csrcs r))
}.
Definition extension_described (m : mem) (e : ov_rtp_frame_expansion) (o : option (Z * list Z)) : Prop :=
  match o with
  | Some (t, d) => extension_type e = t /\ extension_length e = Zlen d /\ stored m (extension_data e) d /\
                   (d = [] -> extension_data e = NULL)
  | None => extension_length e = 0
  end.
Definition padding_described (m : mem) (e : ov_rtp_frame_expansion) (o : option (list Z)) : Prop :=
  match o with
  | Some d => padding_length e = Zlen d /\ stored m (padding_data e) d
  | None => padding_length e = 0
  end.
Record body (m : mem) (e : ov_rtp_frame_expansion) (ext : option (Z * list Z)) (pl : list Z)
    (pad : option (list Z)) : Prop := {
  d_extension_bit : extension_bit e = is_some ext;
  d_extension : extension_described m e ext;
  d_payload_length : payload_length e = Zlen pl;
  d_payload : stored m (payload_data e) pl;
  d_padding_bit : padding_bit e = is_some pad;
  d_padding : padding_described m e pad
}.
Definition describes (m : mem) (e : ov_rtp_frame_expansion) (r : rtp) : Prop :=
  head m e r /\ body m e (r_extension r) (r_payload r) (r_padding r).

(** [m'] holds what [m] holds. *)
Definition extends (m m' : mem) : Prop := forall a x, m !! a = Some x -> m' !! a = Some x.
Lemma extends_trans m1 m2 m3 : extends m1 m2 -> extends m2 m3 -> extends m1 m3.
Proof. intros H1 H2 a x H. by apply H2, H1. Qed.
Lemma extends_refl m : extends m m.
Proof. by intros a x. Qed.
Lemma extends_fresh m l : extends m (write m (fresh m) l).
Proof.
  intros a x H. rewrite lookup_write_out; [done|]. left. apply fresh_spec. by eexists.
Qed.
Lemma extends_region m m' p l : extends m m' -> region m p l -> region m' p l.
Proof. intros H [Hp Hr]. split; [done|]. intros i Hi. by apply H, Hr. Qed.
Lemma extends_holds m m' p l : extends m m' -> stored m p l -> stored m' p l.
Proof. intros H Hh Hl. by eapply extends_region, Hh. Qed.
Lemma holds_nonempty m p l : stored m p l -> 0 < Zlen l -> region m p l.
Proof. intros H Hl. apply H. intros ->. by cbv in Hl. Qed.
Lemma holds_nil m p : stored m p [].
Proof. done. Qed.
Lemma region_holds m p l : region m p l -> stored m p l.
Proof. by intros H _. Qed.
Lemma not_NULL m p l : stored m p l -> 0 < Zlen l -> p =? NULL = false.
Proof. intros H Hl. apply holds_nonempty in H as [Hp _]; [|done]. unfold NULL. lia. Qed.

(** *** Words in memory *)

Lemma ntohs_load_at m p a b l : is_byte a -> is_byte b -> region m p (a :: b :: l) ->
  exists v, load16 m p = Some v /\ ntohs v = be_val [a; b].
Proof.
  intros Ha Hb Hm. rewrite (load16_region m p (a :: b :: l)) by (done || lia || zlia).
  rewrite Z.sub_diag. eexists. split; [done|]. cbn [znth Z.to_nat nth Z.add].
  change (ntohs (a + b * 2 ^ 8) = be_val [a; b]). by rewrite ntohs_load, be16_val.
Qed.
Lemma ntohl_load_at m p a b c d l : is_byte a -> is_byte b -> is_byte c -> is_byte d ->
  region m p (a :: b :: c :: d :: l) ->
  exists v, load32 m p = Some v /\ ntohl v = be_val [a; b; c; d].
Proof.
  intros ???? Hm. rewrite (load32_region m p (a :: b :: c :: d :: l)) by (done || lia || zlia).
  rewrite Z.sub_diag. eexists. split; [done|].
  change (ntohl (a + b * 2 ^ 8 + (c + d * 2 ^ 8) * 2 ^ 16) = be_val [a; b; c; d]). by rewrite ntohl_load.
Qed.
Lemma load32_host m p x l : is_u32 x -> region m p (le32 x ++ l) -> load32 m p = Some x.
Proof.
  intros Hx Hm. unfold le32 in Hm. rewrite (load32_region m p _ p Hm) by (lia || zlia).
  rewrite Z.sub_diag. f_equal.
  change (u8 x + u8 (x .>> 8) * 2 ^ 8 + (u8 (x .>> 16) + u8 (x .>> 24) * 2 ^ 8) * 2 ^ 16 = x).
  unfold is_u32 in Hx. byte_arith.
Qed.
Lemma csrc_load_loop_words m src dst ws :
  Forall is_u32 ws -> region m src (words ws) -> mapped m dst (Zlen (words ws)) -> src + Zlen (words ws) <= dst ->
  csrc_load_loop m dst src (length ws) = Some (write m dst (host_words ws)).
Proof.
  intros Hw. revert m src dst. induction Hw as [|x ws Hx Hw IH]; intros m src dst Hs Hd Hle; [done|].
  rewrite words_cons in *. autorewrite with zlen in Hd, Hle. pose proof (Zlen_nonneg (words ws)).
  cbn [length csrc_load_loop]. unfold be32 in Hs.
  destruct (ntohl_load_at m src (u8 (x .>> 24)) (u8 (x .>> 16)) (u8 (x .>> 8)) (u8 x) (words ws))
    as (v & -> & Hv); [auto with ov..|done|].
  change (be_val [u8 (x .>> 24); u8 (x .>> 16); u8 (x .>> 8); u8 x]) with (be_val (be32 x)) in Hv.
  rewrite be_val_be32 in Hv by done. cbn [mbind option_bind]. rewrite Hv.
  unfold store32. rewrite (storen_mapped m dst (4 + Zlen (words ws))) by (done || lia || zlia).
  cbn [mbind option_bind]. rewrite IH.
  - f_equal. by rewrite write_app.
  - apply region_write_out; [|right; lia]. eapply (region_app_r _ _ _ [_; _; _; _]); [done|done].
  - eapply mapped_sub; [apply mapped_write, Hd|lia|lia].
  - lia.
Qed.

(** ** The decoder computes [parse] *)

Lemma set_csrc_array_spec m f p ws k :
  Forall is_u32 ws -> region m p (words ws ++ k) -> csrc_array f = NULL -> num_allocated_entries f = 0 ->
  csrc_ids (expanded f) = NULL ->
  exists n q m', set_csrc_array_to_little_endian m f p (Zlen ws) =
    Some (with_expanded (with_csrc_array f n q) (with_csrc_ids (expanded f) q), m') /\
    extends m m' /\ stored m' q (host_words ws).
Proof.
  intros Hw Hm Ha Hn Hc. unfold set_csrc_array_to_little_endian.
  destruct (Z.eqb_spec 0 (Zlen ws)) as [E|E].
  - exists 0, NULL, m. destruct ws; [|zlia]. split; [|split; [apply extends_refl|done]].
    destruct f as [[] ? ? ? ? ?]; cbn in *; subst; done.
  - apply region_app_l in Hm. pose proof Hm as [Hp _]. null_guard. rewrite Ha, Hn. cbn [OV_ASSERT mbind option_bind].
    change (OV_ASSERT _) with (Some tt). cbn [mbind option_bind]. change (NULL =? NULL) with true. cbv iota.
    unfold calloc. replace (Zlen ws <? Zlen ws) with false by (symmetry; lia).
    pose proof (fresh_spec m) as [Hf _]. pose proof (Zlen_words ws).
    pose proof (fresh_region_out m p _ Hm ltac:(zlia)).
    replace (Z.to_nat (Zlen ws)) with (length ws) by (unfold Zlen; lia).
    rewrite csrc_load_loop_words; [|done|apply region_write_out; [done|lia]| |lia].
    + rewrite write_overwrite by (rewrite Zlen_host_words; zlia). cbn [mbind option_bind].
      eexists _, _, _. split; [done|]. split; [apply extends_fresh|]. apply region_holds, region_write. lia.
    + eapply mapped_sub; [apply region_mapped, region_write; lia|lia|]. zlia.
Qed.

Lemma padding_octet m b pre k : bytes (pre ++ k) -> region m b (pre ++ k) -> 0 < Zlen pre ->
  exists x, load8 m (b + Zlen (pre ++ k) - 1) = Some x /\ is_byte x /\ (k <> [] -> x = k.[Zlen k - 1]).
Proof.
  intros Hb Hm Hp. rewrite (load8_region_at m b (pre ++ k)) by (done || zlia).
  eexists. split; [done|]. split; [auto with ov|]. intros Hk.
  assert (0 < Zlen k) by (destruct k; [done|zlia]). rewrite znth_app_r by zlia. f_equal. zlia.
Qed.
(** The payload and the padding, [k], behind the rest of the frame, [pre]. *)
Lemma decode_padding_spec m e b pre k :
  bytes (pre ++ k) -> region m b (pre ++ k) -> 0 < Zlen pre -> padding_length e = 0 ->
  match parse_padding (padding_bit e) k with
  | Some (pl, pad) => exists n l p,
      decode_padding m e b (Zlen (pre ++ k)) (Zlen k) = Some (Some (n, l, p)) /\ n = Zlen pl /\
      (forall q, stored m q k -> stored m q pl) /\
      match pad with Some d => l = Zlen d /\ stored m p d | None => l = 0 end
  | None => decode_padding m e b (Zlen (pre ++ k)) (Zlen k) = Some None
  end.
Proof.
  intros Hb Hm Hp He. unfold decode_padding, parse_padding.
  destruct (padding_bit e); [|rewrite He; eexists _, _, _; split; [done|]; auto].
  destruct (padding_octet m b pre k) as (n & -> & Hn & Hk); [done..|]. cbn [mbind option_bind].
  unfold is_byte in Hn. rewrite (Z.eqb_sym 0). destruct k as [|y k].
  - cbn [orb]. change ([].[Zlen (@nil Z) - 1]) with 0. cbn [Z.eqb orb]. change (Zlen (@nil Z)) with 0.
    destruct (Z.eqb_spec n 0); [done|]. by replace (0 <? n) with true by (symmetry; lia).
  - rewrite Hk in * by done. set (l := y :: k) in *. set (z := l.[Zlen l - 1]) in *.
    destruct (Z.eqb_spec z 0); [done|]. cbn [orb]. destruct (Z.ltb_spec (Zlen l) z); [done|].
    eexists _, _, _. split; [done|]. split; [zlia|]. split; [|split; [zlia|]].
    + intros q Hq _. apply region_ztake, Hq. done.
    + apply region_holds, region_ztake. apply region_app in Hm as [Hr Hm]. pose proof Hr as [Hb0 _].
      specialize (Hm Hb0). apply (region_zdrop _ _ _ (Zlen l - z)) in Hm; [|lia].
      by replace (b + (Zlen (pre ++ l) - z)) with (b + Zlen pre + (Zlen l - z)) by zlia.
Qed.

(** The rest of a frame whose extension has the data [d], behind [pre]. *)
Lemma decode_body_spec m f pre d k ty n : let e := expanded f in
  bytes (pre ++ d ++ k) -> region m (bytes_data f) (pre ++ d ++ k) -> 0 < Zlen pre ->
  payload_length e = 0 -> padding_length e = 0 -> extension_data e = NULL -> n = Zlen (pre ++ d ++ k) ->
  match parse_padding (padding_bit e) k with
  | Some (pl, pad) => exists e',
      decode_body m f (bytes_data f + Zlen pre) n (Zlen pre) ty (Zlen d) = Some (Some (with_expanded f e')) /\
      (forall r, head m e r -> head m e' r) /\ extension_bit e' = extension_bit e /\
      extension_type e' = ty /\ extension_length e' = Zlen d /\ stored m (extension_data e') d /\
      (d = [] -> extension_data e' = NULL) /\
      payload_length e' = Zlen pl /\ stored m (payload_data e') pl /\
      padding_bit e' = padding_bit e /\ padding_described m e' pad
  | None => decode_body m f (bytes_data f + Zlen pre) n (Zlen pre) ty (Zlen d) = Some None
  end.
Proof.
  intros e Hb Hm Hp Hpl Hpad Hx ->. pose proof Hm as [Hb0 _].
  assert (Hd : region m (bytes_data f + Zlen pre) (d ++ k)) by by eapply region_app_r.
  assert (Hk : region m (bytes_data f + Zlen pre + Zlen d) k) by by eapply region_app_r.
  apply region_app_l in Hd. unfold decode_body. fold e. rewrite Hpl, Hx.
  replace (Zlen (pre ++ d ++ k) <? Zlen pre + Zlen d) with false by (symmetry; zlia).
  assert (El : (if bytes_data f + Zlen pre + Zlen d <? bytes_data f + Zlen (pre ++ d ++ k)
                then bytes_data f + Zlen (pre ++ d ++ k) - (bytes_data f + Zlen pre + Zlen d) else 0) = Zlen k)
    by (destruct (Z.ltb_spec (bytes_data f + Zlen pre + Zlen d) (bytes_data f + Zlen (pre ++ d ++ k))); zlia).
  rewrite El. rewrite app_assoc in Hb, Hm |- *.
  pose proof (decode_padding_spec m e (bytes_data f) (pre ++ d) k Hb Hm ltac:(zlia) Hpad) as H.
  destruct (parse_padding _ k) as [[pl pad]|]; [|by rewrite H].
  destruct H as (a & l & p & -> & -> & Hpl' & Hpad'). cbn [mbind option_bind].
  eexists. split; [done|]. split; [intros r Hr; by destruct Hr; split|].
  cbn [extension_bit extension_type extension_length extension_data payload_length payload_data padding_bit
       padding_length padding_data padding_described].
  do 3 (split; [done|]). split; [|split; [by intros ->|split; [done|split; [|split; [done|by destruct pad]]]]].
  - intros Hne. assert (0 < Zlen d) by (destruct d; [done|zlia]). by guards.
  - apply Hpl'. intros Hne. assert (0 < Zlen k) by (destruct k; [done|zlia]).
    by replace (_ <? _) with true by (symmetry; zlia).
Qed.
Lemma parse_padding_is_some x l pl pad : parse_padding x l = Some (pl, pad) -> is_some pad = x.
Proof. unfold parse_padding. destruct x; [case_match|]; intros; simplify_eq; done. Qed.
Lemma decode_content_spec m f pre l n : let e := expanded f in
  bytes (pre ++ l) -> region m (bytes_data f) (pre ++ l) -> 0 < Zlen pre ->
  extension_length e = 0 -> payload_length e = 0 -> padding_length e = 0 -> extension_data e = NULL ->
  n = Zlen (pre ++ l) -> bit (extension_bit e) 4 <= Zlen l ->
  let r := decode_content m f (bytes_data f + Zlen pre) n (Zlen pre + bit (extension_bit e) 4) in
  match parse_content (extension_bit e) (padding_bit e) l with
  | Some (ext, pl, pad) => exists e', r = Some (Some (with_expanded f e')) /\
      (forall r, head m e r -> head m e' r) /\ body m e' ext pl pad
  | None => r = Some None
  end.
Proof.
  intros e Hb Hm Hp Hel Hpl Hpad Hx -> Hl r. unfold r, decode_content, parse_content, parse_extension. fold e.
  destruct (extension_bit e) eqn:Eb; cbn [bit] in *.
  - destruct l as [|a [|b [|c [|d l]]]]; [zlia..|]. clear Hl.
    pose proof Hb as Hbl. apply bytes_app in Hbl as [_ Hbl]. rewrite !bytes_cons in Hbl.
    destruct Hbl as (Ba & Bb & Bc & Bd & _).
    assert (Ha : region m (bytes_data f + Zlen pre) ([a; b] ++ c :: d :: l)) by by eapply region_app_r.
    assert (Hc : region m (bytes_data f + Zlen pre + 2) (c :: d :: l)) by by eapply region_app_r.
    destruct (ntohs_load_at _ _ a b _ Ba Bb Ha) as (t & -> & Ht). cbn [mbind option_bind].
    destruct (ntohs_load_at _ _ c d _ Bc Bd Hc) as (u & -> & Hu). cbn [mbind option_bind].
    rewrite Ht, Hu.
    pose proof (be_val_range2 c d Bc Bd).
    change (a :: b :: c :: d :: l) with ([a; b; c; d] ++ l) in *. rewrite app_assoc in *.
    replace (Zlen pre + 4) with (Zlen (pre ++ [a; b; c; d])) by zlia.
    replace (bytes_data f + Zlen pre + 4) with (bytes_data f + Zlen (pre ++ [a; b; c; d])) by zlia.
    destruct (split _ l) as [[x k]|] eqn:Es; cbn [mbind option_bind].
    + apply split_Some in Es as [-> <-]; [|lia].
      pose proof (decode_body_spec m f (pre ++ [a; b; c; d]) x k (be_val [a; b]) _ Hb Hm ltac:(zlia) Hpl Hpad Hx eq_refl)
        as D. fold e in D. destruct (parse_padding _ k) as [[pl pad]|] eqn:Ep; cbn [mbind option_bind]; [|done].
      destruct D as (e' & D & Hh & E1 & E2 & E3 & E4 & E5 & E6 & E7 & E8 & E9).
      exists e'. split; [done|]. split; [done|]. apply parse_padding_is_some in Ep. split; cbn; congruence || done.
    + apply split_None in Es. unfold decode_body.
      by replace (_ <? _) with true by (symmetry; zlia).
  - cbn [mbind option_bind]. rewrite Z.add_0_r, Hel.
    pose proof (decode_body_spec m f pre [] l (extension_type e) _ Hb Hm Hp Hpl Hpad Hx eq_refl) as D.
    fold e in D. cbn [app] in D. change (Zlen []) with 0 in D.
    destruct (parse_padding _ l) as [[pl pad]|] eqn:Ep; cbn [mbind option_bind]; [|done].
    destruct D as (e' & D & Hh & E1 & E2 & E3 & E4 & E5 & E6 & E7 & E8 & E9).
    exists e'. split; [done|]. split; [done|]. apply parse_padding_is_some in Ep. split; cbn; congruence || done.
Qed.

(** The copy of the octets the decoder makes. *)
Lemma copied m p l : region m p l -> bytes l -> 0 < Zlen l ->
  memcpy (write m (fresh m) (zeros (Zlen l))) (fresh m) p (Zlen l) = Some (write m (fresh m) l).
Proof.
  intros Hm Hb Hl. pose proof (fresh_spec m) as [Hf _].
  rewrite (memcpy_region _ _ _ l _ (fresh m) (Zlen l)); [|by eapply extends_region; [apply extends_fresh|]|done|done| |lia|lia].
  - by rewrite write_overwrite by zlia.
  - eapply mapped_sub; [apply region_mapped, region_write; lia|lia|zlia].
Qed.
(** The header as the decoder reads it. *)
Definition decoded_header (b0 b1 seq ts id : Z) : ov_rtp_frame_expansion :=
  {| version := (b0 .>> 6) .& 0x03; padding_bit := nz (b0 .& 0x20); extension_bit := nz (b0 .& 0x10);
     marker_bit := nz (b1 .& 0x80); payload_type := b1 .& 0x7f; sequence_number := seq;
     timestamp := ts; ssrc := id; csrc_count := b0 .& 0x0f; csrc_ids := NULL;
     payload_length := 0; payload_data := NULL; padding_length := 0; padding_data := NULL;
     extension_type := 0; extension_length := 0; extension_allocated_bytes := 0; extension_data := NULL |}.
Definition decoded_frame (p : ptr) (n : Z) (e : ov_rtp_frame_expansion) : ov_rtp_frame :=
  {| expanded := e; bytes_allocated_bytes := n; bytes_length := n; bytes_data := p;
     num_allocated_entries := 0; csrc_array := NULL |}.
Lemma get_new_None m n :
  rtp_frame_get_new None m n = (with_bytes rtp_frame_create n 0 (fresh m), write m (fresh m) (zeros n)).
Proof. done. Qed.
Lemma decode_header m input b0 b1 s0 s1 t0 t1 t2 t3 i0 i1 i2 i3 l :
  let bs := b0 :: b1 :: s0 :: s1 :: t0 :: t1 :: t2 :: t3 :: i0 :: i1 :: i2 :: i3 :: l in
  region m input bs -> bytes bs ->
  let p := fresh m in let m1 := write m p bs in let c := b0 .& 0x0f in
  let n := 12 + bit (nz (b0 .& 0x10)) 4 + c * 4 in
  let e := decoded_header b0 b1 (be_val [s0; s1]) (be_val [t0; t1; t2; t3]) (be_val [i0; i1; i2; i3]) in
  ov_rtp_frame_decode None m input (Zlen bs) =
    if 14 <? c then Some (None, m1) else
    if Zlen bs <? n then Some (None, m1) else
    '(f, m) ← set_csrc_array_to_little_endian m1 (decoded_frame p (Zlen bs) e) (p + 12) c;
    f ← decode_content m f (p + 12 + c * 4) (Zlen bs) n;
    Some (f, m).
Proof.
  intros bs Hm Hb p m1 c n e. pose proof (fresh_spec m) as [Hf _]. pose proof Hm as [Hi _].
  assert (Hlen : 12 <= Zlen bs) by (unfold bs; zlia).
  unfold ov_rtp_frame_decode. rewrite get_new_None. null_guard.
  cbn [bytes_data bytes_allocated_bytes with_bytes]. fold p.
  replace (p =? NULL) with false by (symmetry; unfold NULL, p; lia). rewrite Z.leb_refl.
  cbn [negb OV_ASSERT mbind option_bind]. unfold p at 1. rewrite copied by (done || lia).
  cbn [mbind option_bind]. fold p. fold m1.
  assert (Hr : region m1 p bs) by (apply region_write; lia).
  unfold bs in Hb. rewrite !bytes_cons in Hb. destruct Hb as (? & ? & ? & ? & ? & ? & ? & ? & ? & ? & ? & ? & _).
  rewrite (load8_at_0 _ _ _ _ Hr). cbn [mbind option_bind]. change RTP_HEADER_MIN_LENGTH with 12. fold c. fold n.
  destruct (14 <? c); [done|]. destruct (_ <? n); [done|].
  rewrite (load8_at m1 p bs 1 b1) by done. cbn [mbind option_bind].
  destruct (ntohs_load_at m1 (p + 2) s0 s1 _ ltac:(done) ltac:(done)
              (region_app_r m1 p _ [_; _] _ Hr eq_refl)) as (sv & -> & Hs). cbn [mbind option_bind].
  destruct (ntohl_load_at m1 (p + 4) t0 t1 t2 t3 _ ltac:(done) ltac:(done) ltac:(done) ltac:(done)
              (region_app_r m1 p _ [_; _; _; _] _ Hr eq_refl)) as (tv & -> & Ht). cbn [mbind option_bind].
  destruct (ntohl_load_at m1 (p + 8) i0 i1 i2 i3 _ ltac:(done) ltac:(done) ltac:(done) ltac:(done)
              (region_app_r m1 p _ [_; _; _; _; _; _; _; _] _ Hr eq_refl)) as (iv & -> & Hv). cbn [mbind option_bind].
  rewrite Hs, Ht, Hv. done.
Qed.

Lemma parse_content_short x y l : Zlen l < bit x 4 -> parse_content x y l = None.
Proof.
  destruct x; cbn [bit]; intros H; [|zlia].
  destruct l as [|a [|b [|c [|d l]]]]; try done. zlia.
Qed.
Lemma decode_short m input bs : region m input bs -> bytes bs -> 0 < Zlen bs < 12 ->
  exists m', ov_rtp_frame_decode None m input (Zlen bs) = Some (None, m') /\ extends m m'.
Proof.
  intros Hm Hb Hl. pose proof (fresh_spec m) as [Hf _]. pose proof Hm as [Hi _].
  unfold ov_rtp_frame_decode. rewrite get_new_None. null_guard.
  cbn [bytes_data bytes_allocated_bytes with_bytes].
  replace (fresh m =? NULL) with false by (symmetry; unfold NULL; lia). rewrite Z.leb_refl.
  cbn [negb OV_ASSERT mbind option_bind]. rewrite copied by (done || lia). cbn [mbind option_bind].
  rewrite (load8_region_0 _ (fresh m) bs) by first [apply region_write; lia | lia]. cbn [mbind option_bind].
  change RTP_HEADER_MIN_LENGTH with 12. destruct (14 <? _); [by eexists; split; [|apply extends_fresh]|].
  destruct (first_octet_of bs.[0]) as (_ & ? & _); [auto with ov|].
  replace (Zlen bs <? _) with true; [by eexists; split; [|apply extends_fresh]|].
  symmetry. destruct (nz _); cbn [bit]; lia.
Qed.
Lemma parse_short bs : Zlen bs < 12 -> parse bs = None.
Proof. intros H. do 12 (destruct bs as [|? bs]; [done|]). zlia. Qed.

(** The decoder computes [parse]. *)
Definition decodes (m' : mem) (bs : list Z) (o : option ov_rtp_frame) : Prop :=
  match parse bs with
  | Some r => exists f, o = Some f /\ describes m' (expanded f) r /\ region m' (bytes_data f) bs /\
                        bytes_length f = Zlen bs
  | None => o = None
  end.
Lemma decode_computes m input bs : region m input bs -> bytes bs -> 0 < Zlen bs ->
  exists o m', ov_rtp_frame_decode None m input (Zlen bs) = Some (o, m') /\ extends m m' /\ decodes m' bs o.
Proof.
  intros Hm Hb Hl. unfold decodes. destruct (Z.ltb_spec (Zlen bs) 12) as [Hs|Hs].
  { destruct (decode_short m input bs) as (m' & E & He); [done..|]. exists None, m'. by rewrite parse_short. }
  destruct bs as [|b0 [|b1 [|s0 [|s1 [|t0 [|t1 [|t2 [|t3 [|i0 [|i1 [|i2 [|i3 l]]]]]]]]]]]]; [zlia..|].
  rewrite decode_header by done. unfold parse. cbv zeta.
  set (bs := b0 :: _) in *. set (c := b0 .& 0x0f). set (x := nz (b0 .& 0x10)). set (y := nz (b0 .& 0x20)).
  set (p := fresh m). set (m1 := write m p bs). set (e := decoded_header _ _ _ _ _).
  pose proof (fresh_spec m) as [Hf _]. pose proof (bytes_znth bs 0 Hb : is_byte b0) as Hb0.
  destruct (first_octet_of b0 Hb0) as (_ & Hc & _). fold c in Hc.
  assert (Hr : region m1 p bs) by (apply region_write; lia). pose proof (extends_fresh m bs : extends m m1) as Hx.
  destruct (Z.ltb_spec 14 c); [by eexists None, m1|].
  assert (El : Zlen bs = 12 + Zlen l) by (unfold bs; zlia).
  assert (0 <= bit x 4) by (by destruct x).
  destruct (split (c * 4) l) as [[cs k]|] eqn:Es; cbn [mbind option_bind].
  2: { apply split_None in Es. exists None, m1. replace (Zlen bs <? _) with true by (symmetry; lia). done. }
  apply split_Some in Es as [-> Hcs]; [|lia].
  destruct (Z.ltb_spec (Zlen bs) (12 + bit x 4 + c * 4)) as [Hk|Hk].
  { exists None, m1. split; [done|]. split; [done|]. by rewrite parse_content_short by zlia. }
  change bs with ([b0; b1; s0; s1; t0; t1; t2; t3; i0; i1; i2; i3] ++ cs ++ k) in Hb, Hr |- *.
  set (h := [b0; b1; _; _; _; _; _; _; _; _; _; _]) in *. assert (Hh : Zlen h = 12) by done.
  assert (Hbk : bytes cs) by (rewrite !bytes_app in Hb; tauto).
  destruct (words_unwords cs c) as (Ew & Hw & Hwl); [done|lia|].
  assert (Hrc : region m1 (p + 12) (words (unwords cs) ++ k)).
  { rewrite Ew. by apply (region_app_r _ _ _ _ _ Hr). }
  destruct (set_csrc_array_spec m1 (decoded_frame p (Zlen (h ++ cs ++ k)) e) _ _ _ Hw Hrc eq_refl eq_refl eq_refl)
    as (n & q & m2 & Eq & Hx2 & Hq).
  rewrite Hwl in Eq. rewrite Eq. cbn [mbind option_bind]. clear Eq.
  set (f := with_expanded _ _). rewrite app_assoc in Hb, Hr |- *.
  apply (extends_region _ _ _ _ Hx2) in Hr as Hr2.
  pose proof (decode_content_spec m2 f (h ++ cs) k _ Hb Hr2 ltac:(zlia) eq_refl eq_refl eq_refl eq_refl eq_refl) as D.
  cbv zeta in D. change (extension_bit (expanded f)) with x in D. change (padding_bit (expanded f)) with y in D.
  change (bytes_data f) with p in D. specialize (D ltac:(zlia)).
  replace (p + Zlen (h ++ cs)) with (p + 12 + c * 4) in D by zlia.
  replace (Zlen (h ++ cs) + bit x 4) with (12 + bit x 4 + c * 4) in D by zlia.
  destruct (parse_content x y k) as [[[ext pl] pad]|]; cbn [mbind option_bind].
  - destruct D as (e' & -> & Hhead & Hbody). eexists _, m2. split; [done|].
    split; [by eapply extends_trans|]. eexists. split; [done|]. split; [|done].
    split; [|done]. apply Hhead. by split.
  - rewrite D. exists None, m2. split; [done|]. split; [by eapply extends_trans|done].
Qed.
