(* ===== verification/RtpEncode.v ===== *)
(** * Encoding RTP frames, and the properties of the two directions

    The encoder writes the octets of the frame its argument describes, and what
    it writes is decoded to a frame with the same description. *)
From S2P Require Import Prelude CMem RtpFrame RtpFormat RtpCodec.

(** ** A fresh block that is filled from its start *)

Definition block (m : mem) (n : Z) (d : list Z) : mem := write (write m (fresh m) (zeros n)) (fresh m) d.

Lemma block_mapped m n d : 0 <= n -> mapped (block m n d) (fresh m) n.
Proof.
  intros Hn. pose proof (fresh_spec m) as [? _]. apply mapped_write.
  replace n with (Zlen (zeros n)) at 2 by zlia. apply region_mapped, region_write. lia.
Qed.
Lemma block_extends m n d : extends m (block m n d).
Proof.
  intros a x H. pose proof (proj2 (fresh_spec m) a (mk_is_Some _ _ H)). unfold block.
  by rewrite !lookup_write_out by lia.
Qed.
Lemma block_app m n d l q : q = fresh m + Zlen d -> write (block m n d) q l = block m n (d ++ l).
Proof. intros ->. apply write_write. Qed.
Lemma put8 m n d v q : q = fresh m + Zlen d -> Zlen d + 1 <= n ->
  store8 (block m n d) q v = Some (block m n (d ++ [u8 v])).
Proof.
  intros Hq Hn. rewrite (store8_mapped _ (fresh m) n) by (zlia || apply block_mapped; zlia).
  by rewrite block_app.
Qed.
Lemma put16 m n d x q : q = fresh m + Zlen d -> Zlen d + 2 <= n -> 0 <= x < 65536 ->
  store16 (block m n d) q (htons x) = Some (block m n (d ++ be16 x)).
Proof.
  intros Hq Hn Hx. rewrite (store16_htons _ (fresh m) n) by (zlia || apply block_mapped; zlia).
  by rewrite block_app.
Qed.
Lemma put32 m n d x q : q = fresh m + Zlen d -> Zlen d + 4 <= n -> is_u32 x ->
  store32 (block m n d) q (htonl x) = Some (block m n (d ++ be32 x)).
Proof.
  intros Hq Hn Hx. rewrite (store32_htonl _ (fresh m) n) by (done || zlia || apply block_mapped; zlia).
  by rewrite block_app.
Qed.
Lemma put_copy m n d q s l k : stored m s l -> bytes l -> k = Zlen l -> q = fresh m + Zlen d -> Zlen d + k <= n ->
  memcpy (block m n d) q s k = Some (block m n (d ++ l)).
Proof.
  intros Hm Hb -> Hq Hn. destruct (decide (l = [])) as [->|Hl]; [by rewrite app_nil_r|].
  rewrite (memcpy_region _ _ _ l _ (fresh m) n); [by rewrite block_app| |done|done| |zlia|lia].
  - eapply extends_region; [apply block_extends|by apply Hm].
  - apply block_mapped. zlia.
Qed.
Lemma put_words m n d s q ws : Forall is_u32 ws -> stored m s (host_words ws) -> q = fresh m + Zlen d ->
  Zlen d + 4 * Zlen ws <= n ->
  csrc_store_loop (block m n d) s q (length ws) = Some (block m n (d ++ words ws)).
Proof.
  intros Hw. revert d s q. induction Hw as [|x ws Hx Hw IH]; intros d s q Hs Hq Hn; [by rewrite app_nil_r|].
  change (host_words (x :: ws)) with (le32 x ++ host_words ws) in Hs. specialize (Hs ltac:(done)).
  cbn [length csrc_store_loop]. rewrite (load32_host _ s x (host_words ws)); [|done|by eapply extends_region; [apply block_extends|]].
  cbn [mbind option_bind]. rewrite put32 by (done || zlia). cbn [mbind option_bind].
  rewrite IH; [by rewrite words_cons, <- app_assoc| |zlia|zlia].
  apply region_holds. by eapply region_app_r.
Qed.

(** ** The parts behind the CSRC ids *)

Definition ext_result (e : ov_rtp_frame_expansion) (o : option (Z * list Z)) (next : Z) : ov_rtp_frame_expansion :=
  match o with
  | Some (t, d) => if decide (d = []) then e
                   else with_extension e (Zlen d) (extension_allocated_bytes e) (next + 4)
  | None => e
  end.
Definition payload_result (e : ov_rtp_frame_expansion) (l : list Z) (next : Z) : ov_rtp_frame_expansion :=
  if decide (l = []) then e else with_payload_data e next.
Definition padding_result (e : ov_rtp_frame_expansion) (o : option (list Z)) (next : Z) : ov_rtp_frame_expansion :=
  match o with
  | Some d => if decide (d = []) then e else with_padding_data e next
  | None => e
  end.

Lemma nonempty_len {A} (l : list A) : l <> [] -> 0 < Zlen l.
Proof. destruct l; [done|]. intros _. zlia. Qed.
Lemma encode_extension_spec m n d e exp o x next :
  extension_bit e = is_some o -> extension_described m e o ->
  (forall t y, o = Some (t, y) -> 0 <= t < 65536 /\ bytes y /\ exists k, 0 <= k < 65536 /\ Zlen y = 4 * k) ->
  x = u16 (extension_length e / 4) -> next = fresh m + Zlen d -> Zlen d + Zlen (extension_octets o) <= n ->
  encode_extension (block m n d) e exp next x =
    Some (Some (ext_result exp o next, next + Zlen (extension_octets o), block m n (d ++ extension_octets o))).
Proof.
  intros Eb Hd Hv -> Hnext Hn. unfold encode_extension. rewrite Eb.
  destruct o as [[t y]|]; cbn [is_some]; [|by rewrite app_nil_r, Z.add_0_r].
  destruct Hd as (Et & El & Hy & Hnil). destruct (Hv t y eq_refl) as (Ht & Hb & k & Hk & Ek).
  assert (Eq : Zlen y / 4 = k) by (rewrite Ek, Z.mul_comm, Z.div_mul; lia).
  unfold extension_octets in *. rewrite El, Eq in *. rewrite u16_id by done. rewrite Et.
  rewrite put16 by (done || zlia). cbn [mbind option_bind]. rewrite put16 by (done || zlia). cbn [mbind option_bind].
  destruct (decide (y = [])) as [->|Hne].
  - rewrite Hnil by done. rewrite Z.eqb_refl. cbn [ext_result]. rewrite decide_True by done.
    rewrite <- app_assoc, app_nil_r. do 4 f_equal.
  - rewrite (not_NULL m _ y) by (done || by apply nonempty_len).
    pose proof (nonempty_len y Hne). replace (0 =? Zlen y) with false by (symmetry; lia).
    rewrite (put_copy _ _ _ _ _ y) by (done || zlia). cbn [mbind option_bind ext_result].
    rewrite decide_False by done. rewrite <- !app_assoc. do 4 f_equal. zlia.
Qed.
Lemma encode_payload_spec m n d exp l next :
  stored m (payload_data exp) l -> bytes l -> next = fresh m + Zlen d -> Zlen d + Zlen l <= n ->
  encode_payload (block m n d) exp next (Zlen l) =
    Some (Some (payload_result exp l next, next + Zlen l, block m n (d ++ l))).
Proof.
  intros Hh Hb Hnext Hn. unfold encode_payload, payload_result.
  destruct (decide (l = [])) as [->|Hne]; [by rewrite app_nil_r, Z.add_0_r|].
  pose proof (nonempty_len l Hne). guards. unfold copy_part. rewrite (not_NULL m _ l) by done.
  by rewrite (put_copy _ _ _ _ _ l) by (done || zlia).
Qed.
(** The padding without its last octet. *)
Definition padding_data_of (o : option (list Z)) : list Z := match o with Some d => d | None => [] end.
Lemma encode_padding_spec m n d e exp o next :
  padding_bit e = is_some o -> padding_described m e o -> bytes (padding_data_of o) ->
  next = fresh m + Zlen d -> Zlen d + Zlen (padding_data_of o) <= n ->
  encode_padding (block m n d) e exp next (padding_length e) =
    Some (Some (padding_result exp o next, next + Zlen (padding_data_of o), block m n (d ++ padding_data_of o))).
Proof.
  intros Eb Hd Hb Hnext Hn. unfold encode_padding, padding_result.
  destruct o as [l|]; cbn [padding_data_of padding_described is_some] in *.
  2: { rewrite Hd, app_nil_r. cbn [Z.ltb Z.compare]. by rewrite Z.add_0_r. }
  destruct Hd as [-> Hh]. rewrite Eb. cbn [negb].
  destruct (decide (l = [])) as [->|Hne]; [by rewrite app_nil_r, Z.add_0_r|].
  pose proof (nonempty_len l Hne). guards. unfold copy_part. rewrite (not_NULL m _ l) by done.
  by rewrite (put_copy _ _ _ _ _ l) by (done || zlia).
Qed.

(** ** The whole frame *)

Lemma padding_octets_eq o : padding_octets o =
  padding_data_of o ++ (if is_some o then [Zlen (padding_data_of o) + 1] else []).
Proof. by destruct o. Qed.
Lemma Zlen_padding_octets o : Zlen (padding_octets o) = Zlen (padding_data_of o) + (if is_some o then 1 else 0).
Proof. rewrite padding_octets_eq. destruct o; cbn [is_some]; zlia. Qed.
Lemma valid_padding n r : valid n r -> bytes (padding_data_of (r_padding r)) /\ Zlen (padding_data_of (r_padding r)) <= 254.
Proof.
  intros Hv. pose proof (v_padding _ _ Hv) as H. destruct (r_padding r) as [d|]; [by apply H|]. by split; [constructor|].
Qed.
Lemma padding_described_length m e o : padding_described m e o -> padding_length e = Zlen (padding_data_of o).
Proof. destruct o; [by intros []|done]. Qed.
Lemma extension_described_length m e o : extension_described m e o ->
  Zlen (extension_octets o) = match o with Some _ => 4 + extension_length e | None => 0 end.
Proof. destruct o as [[t d]|]; [|done]. intros (_ & -> & _). unfold extension_octets. zlia. Qed.
(** The lengths the encoder computes, and the guards it applies to them. *)
Lemma extension_length_ok m e o : extension_described m e o ->
  (forall t y, o = Some (t, y) -> 0 <= t < 65536 /\ bytes y /\ exists k, 0 <= k < 65536 /\ Zlen y = 4 * k) ->
  4 * u16 (extension_length e / 4) = extension_length e.
Proof.
  destruct o as [[t d]|]; [|intros ->; done]. intros (_ & -> & _) H.
  destruct (H t d eq_refl) as (_ & _ & k & Hk & ->). replace (4 * k / 4) with k by (rewrite Z.mul_comm, Z.div_mul; lia).
  by rewrite u16_id.
Qed.
Lemma Zlen_rtp_header r : Zlen (header r) = 12.
Proof. done. Qed.
#[export] Hint Rewrite Zlen_rtp_header Zlen_words : zlen.
Lemma encode_length m e r : valid 15 r -> describes m e r -> Zlen (serialize r) < 2 ^ 64 ->
  let n := RTP_HEADER_MIN_LENGTH + csrc_count e * 4 in
  let n := if extension_bit e then n + (4 + extension_length e) else n in
  let n := if 0 <? payload_length e then n + payload_length e else n in
  let n := n + padding_length e in
  u64 (if padding_bit e then n + 1 else n) = Zlen (serialize r).
Proof.
  intros Hv [Hh [Eb Hext Hpl _ Ep Hpad]] Hs. unfold serialize in *. rewrite !Zlen_app, Zlen_rtp_header, Zlen_words in *.
  rewrite (extension_described_length m e _ Hext), Zlen_padding_octets in *.
  rewrite (d_csrc_count _ _ _ Hh), Eb, Ep, Hpl, (padding_described_length m e _ Hpad).
  change RTP_HEADER_MIN_LENGTH with 12. pose proof (Zlen_nonneg (r_csrcs r)).
  pose proof (Zlen_nonneg (r_payload r)). pose proof (Zlen_nonneg (padding_data_of (r_padding r))).
  match goal with |- u64 ?a = ?b => assert (a = b) as -> end.
  - destruct (Z.ltb_spec 0 (Zlen (r_payload r))), (is_some (r_padding r)), (r_extension r); cbn [is_some]; lia.
  - apply u64_id. split; [|done].
    destruct (r_extension r) as [[]|]; [destruct Hext as (_ & -> & _)|]; destruct (is_some (r_padding r)); zlia.
Qed.

Definition encoded_expansion (e : ov_rtp_frame_expansion) (r : rtp) (p : ptr) : ov_rtp_frame_expansion :=
  let n1 := p + 12 + csrc_count e * 4 in
  let n2 := n1 + Zlen (extension_octets (r_extension r)) in
  let n3 := n2 + Zlen (r_payload r) in
  padding_result (payload_result (ext_result (with_extension e 0 0 NULL) (r_extension r) n1) (r_payload r) n2)
    (r_padding r) n3.
Lemma ext_result_payload e o next : payload_data (ext_result e o next) = payload_data e.
Proof. destruct o as [[t d]|]; [|done]. cbn. by destruct (decide _). Qed.

Lemma encode_spec m e r : valid 15 r -> describes m e r -> Zlen (serialize r) < 2 ^ 64 ->
  ov_rtp_frame_encode None m (Some e) =
    Some (Some (decoded_frame (fresh m) (Zlen (serialize r)) (encoded_expansion e r (fresh m))),
          write m (fresh m) (serialize r)).
Proof.
  intros Hv Hd Hs. pose proof (encode_length m e r Hv Hd Hs) as Hn. cbv zeta in Hn.
  pose proof Hd as [Hh Hb]. pose proof Hb as [Eb Hext Hpl Hpay Ep Hpad].
  pose proof (valid_padding 15 r Hv) as [Hbp Hlp]. pose proof (padding_described_length _ _ _ Hpad) as Elp.
  destruct Hv as [Hv1 Hv2 Hv3 Hv4 Hv5 [Hv6 Hv7] Hv8 Hv9 _]. pose proof (Zlen_nonneg (r_csrcs r)) as Hc0.
  destruct Hh as [E1 E2 E3 E4 E5 E6 E7 E8].
  unfold ov_rtp_frame_encode. rewrite (extension_length_ok m e _ Hext Hv8), Z.eqb_refl. cbn [negb].
  replace (15 <? csrc_count e) with false by (symmetry; lia). replace (0xff <? padding_length e) with false by (symmetry; lia).
  rewrite Hn. clear Hn. set (n := Zlen (serialize r)). rewrite get_new_None. pose proof (fresh_spec m) as [Hf _].
  cbn [bytes_data bytes_allocated_bytes with_bytes expanded]. set (p := fresh m).
  replace (p =? NULL) with false by (symmetry; unfold NULL, p; lia). rewrite Z.leb_refl.
  change (0 =? extension_allocated_bytes (expanded rtp_frame_create)) with true.
  cbn [negb OV_ASSERT mbind option_bind].
  assert (Hn12 : n = 12 + (4 * Zlen (r_csrcs r) + (Zlen (extension_octets (r_extension r)) + (Zlen (r_payload r) +
                   (Zlen (padding_data_of (r_padding r)) + if is_some (r_padding r) then 1 else 0))))).
  { unfold n, serialize. by rewrite !Zlen_app, Zlen_rtp_header, Zlen_words, Zlen_padding_octets. }
  pose proof (Zlen_nonneg (extension_octets (r_extension r))). pose proof (Zlen_nonneg (r_payload r)).
  pose proof (Zlen_nonneg (padding_data_of (r_padding r))).
  assert (0 <= if is_some (r_padding r) then 1 else 0) by (by (destruct (is_some (r_padding r)); lia)). assert (12 <= n) by lia.
  rewrite (memset_0 _ p n) by (lia || (apply (block_mapped m n []); lia)). rewrite write_overwrite by lia.
  cbn [mbind option_bind].
  change (write m p (zeros n)) with (block m n []).
  destruct (first_octet_fields (r_version r) (is_some (r_padding r)) (is_some (r_extension r)) (Zlen (r_csrcs r)))
    as (Hb0 & _); [done|lia|].
  destruct (second_octet_fields (r_marker r) (r_type r)) as (Hb1 & _); [done|].
  rewrite E1, E2, E3, E4, E5, E6, E7, Eb, Ep.
  fold (second_octet (r_marker r) (r_type r)).
  fold (first_octet (r_version r) (is_some (r_padding r)) (is_some (r_extension r)) (Zlen (r_csrcs r))).
  rewrite put8 by zlia. cbn [mbind option_bind]. rewrite u8_id by done.
  rewrite put8 by zlia. cbn [mbind option_bind]. rewrite (u8_id (second_octet _ _)) by done.
  rewrite put16 by (done || zlia). cbn [mbind option_bind].
  rewrite put32 by (done || zlia). cbn [mbind option_bind].
  rewrite put32 by (done || zlia). cbn [mbind option_bind].
  change ((((([] ++ [_]) ++ [_]) ++ _) ++ _) ++ _) with (header r).
  replace (Z.to_nat (Zlen (r_csrcs r))) with (length (r_csrcs r)) by (unfold Zlen; lia).
  rewrite put_words by (done || zlia). cbn [mbind option_bind].
  rewrite (encode_extension_spec _ _ _ _ _ (r_extension r)) by (done || zlia). cbn [mbind option_bind].
  rewrite Hpl, encode_payload_spec; [|by rewrite ext_result_payload|done|zlia|zlia]. cbn [mbind option_bind].
  rewrite (encode_padding_spec _ _ _ _ _ (r_padding r)) by (done || zlia). cbn [mbind option_bind].
  replace (if is_some (r_padding r) then _ else _) with
    (Some (block m n (serialize r))); [by unfold encoded_expansion; rewrite E7; cbn [mbind option_bind]; unfold block; rewrite write_overwrite by zlia|].
  unfold serialize. rewrite padding_octets_eq, !app_assoc.
  destruct (is_some (r_padding r)) eqn:Es; [|by rewrite app_nil_r].
  rewrite put8 by (done || zlia). by rewrite u8_id, Elp by (unfold is_byte; lia).
Qed.

(** The members of the encoder's frame describe the same frame, in its octets. *)
Lemma ext_result_describes m e r n d : head m e r -> region m n (d ++ extension_octets (r_extension r)) ->
  body m e (r_extension r) (r_payload r) (r_padding r) ->
  let e' := ext_result (with_extension e 0 0 NULL) (r_extension r) (n + Zlen d) in
  describes m e' r.
Proof.
  intros Hh Hr Hb e'. pose proof Hr as [Hn _].
  assert (head m e' r /\ payload_length e' = payload_length e /\ payload_data e' = payload_data e /\
          padding_length e' = padding_length e /\ padding_data e' = padding_data e /\
          padding_bit e' = padding_bit e /\ extension_bit e' = extension_bit e) as (H & P1 & P2 & P3 & P4 & P5 & P6).
  { unfold e'. destruct (r_extension r) as [[t x]|]; cbn [ext_result]; [destruct (decide _)|];
      (split; [destruct Hh; by split|by repeat split]). }
  split; [done|]. destruct Hb as [Eb Hext Hpl Hpay Ep Hpad]. split; try congruence.
  - unfold e'. apply (region_app_r _ _ (n + Zlen d)) in Hr; [|done]. destruct (r_extension r) as [[t x]|]; [|done].
    destruct Hext as (Et & El & Hd & Hnil). unfold extension_octets in Hr. rewrite app_assoc in Hr.
    apply (region_app_r _ _ (n + Zlen d + 4) (be16 t ++ be16 (Zlen x / 4))) in Hr; [|done].
    cbn [ext_result]. destruct (decide (x = [])) as [->|Hne]; [by repeat split|].
    split; [done|]. split; [done|]. split; [by apply region_holds|done].
  - by rewrite P2.
  - unfold padding_described. by rewrite P3, P4.
Qed.
Lemma payload_result_describes m e r n : region m n (r_payload r) ->
  describes m e r -> describes m (payload_result e (r_payload r) n) r.
Proof.
  intros Hr [Hh Hb]. unfold payload_result. destruct (decide _); [done|].
  split; [destruct Hh; by split|destruct Hb; split; try done]. by apply region_holds.
Qed.
Lemma padding_result_describes m e r n : region m n (padding_data_of (r_padding r)) ->
  describes m e r -> describes m (padding_result e (r_padding r) n) r.
Proof.
  intros Hr [Hh Hb]. unfold padding_result. destruct (r_padding r) as [d|] eqn:E; [|split; [done|by rewrite E]].
  destruct (decide _); [split; [done|by rewrite E]|].
  split; [destruct Hh; by split|rewrite E; destruct Hb as [? ? ? ? ? [? ?]]; split; try done].
  split; [done|]. by apply region_holds.
Qed.
Lemma describes_extends m m' e r : extends m m' -> describes m e r -> describes m' e r.
Proof.
  intros Hx [[] [Eb Hext Hpl Hpay Ep Hpad]]. split; split; try done; try by eapply extends_holds.
  - destruct (r_extension r) as [[t d]|]; [|done]. destruct Hext as (? & ? & ? & ?).
    split; [done|]. split; [done|]. split; [by eapply extends_holds|done].
  - destruct (r_padding r); [|done]. destruct Hpad. split; [done|]. by eapply extends_holds.
Qed.
Lemma encoded_describes m e r : let m' := write m (fresh m) (serialize r) in
  describes m e r -> describes m' (encoded_expansion e r (fresh m)) r.
Proof.
  intros m' Hd. pose proof (fresh_spec m) as [Hf _].
  assert (Hr : region m' (fresh m) (serialize r)) by (apply region_write; lia).
  apply (describes_extends m m') in Hd; [|apply extends_fresh]. destruct Hd as [Hh Hb].
  unfold serialize in Hr. unfold encoded_expansion. rewrite (d_csrc_count _ _ _ Hh).
  rewrite !app_assoc in Hr.
  apply padding_result_describes; [|apply payload_result_describes].
  - rewrite padding_octets_eq, app_assoc in Hr. apply region_app_l in Hr. eapply region_app_r; [exact Hr|zlia].
  - apply region_app_l in Hr. eapply region_app_r; [exact Hr|zlia].
  - apply region_app_l, region_app_l in Hr.
    replace (fresh m + 12 + _) with (fresh m + Zlen (header r ++ words (r_csrcs r))) by zlia.
    by apply ext_result_describes.
Qed.

(** ** The properties *)

Lemma encoder_describes m e r : valid 15 r -> describes m e r -> Zlen (serialize r) < 2 ^ 64 ->
  exists f m', ov_rtp_frame_encode None m (Some e) = Some (Some f, m') /\ extends m m' /\
    region m' (bytes_data f) (serialize r) /\ bytes_length f = Zlen (serialize r) /\ describes m' (expanded f) r.
Proof.
  intros Hv Hd Hs. rewrite (encode_spec m e r) by done. eexists _, _. split; [done|].
  split; [apply extends_fresh|]. pose proof (fresh_spec m) as [Hf _].
  split; [apply region_write; cbn [bytes_data decoded_frame]; lia|]. split; [done|].
  by apply encoded_describes.
Qed.
Lemma bytes_serialize r : valid 15 r -> bytes (serialize r).
Proof.
  intros Hv. pose proof (valid_padding 15 r Hv) as [Hp Hl].
  destruct Hv as [Hv1 Hv2 Hv3 Hv4 Hv5 [Hv6 Hv7] Hv8 Hv9 _].
  destruct (first_octet_fields (r_version r) (is_some (r_padding r)) (is_some (r_extension r)) (Zlen (r_csrcs r)))
    as (Hb0 & _); [done|zlia|].
  destruct (second_octet_fields (r_marker r) (r_type r)) as (Hb1 & _); [done|].
  unfold serialize, header. rewrite padding_octets_eq. rewrite !bytes_app, !bytes_cons.
  repeat split; auto with ov; [apply Hb0..|apply Hb1|apply Hb1|apply bytes_words| |].
  - destruct (r_extension r) as [[t d]|]; [|constructor]. destruct (Hv8 t d eq_refl) as (_ & ? & _).
    unfold extension_octets. rewrite !bytes_app. auto with ov.
  - destruct (is_some _); [|constructor]. apply bytes_cons. split; [unfold is_byte; zlia|constructor].
Qed.
Lemma serialize_long r : 0 < Zlen (serialize r).
Proof. unfold serialize. zlia. Qed.
Lemma valid_14 r : valid 14 r -> valid 15 r.
Proof. intros [? ? ? ? ? [? ?]]. split; try done. split; [done|lia]. Qed.

(** C29: Octets that are decoded, with no cached frame to reuse, give a frame
    exactly when they are the octets of a frame in the format of RFC 3550,
    section 5.1, that has at most 14 contributing sources - of any version: the
    RFC fixes 2 and the decoder does not look (see [any_version_decoded]). The
    frame the decoder returns describes it: its members are the fields, and the
    ids, the extension, the payload and the padding are in the memory its members
    point to. The decoder needs no memory but the octets it was given, and the
    caller's memory does not change. *)
Theorem rtp_decode_exact m input bs :
  region m input bs -> bytes bs -> 0 < Zlen bs ->
  exists o m', ov_rtp_frame_decode None m input (Zlen bs) = Some (o, m') /\ extends m m' /\
    match o with
    | Some f => exists r, valid 14 r /\ bs = serialize r /\ describes m' (expanded f) r /\
                          region m' (bytes_data f) bs /\ bytes_length f = Zlen bs
    | None => forall r, valid 14 r -> bs <> serialize r
    end.
Proof.
  intros Hm Hb Hl. destruct (decode_computes m input bs) as (o & m' & E & Hx & D); [done..|].
  exists o, m'. split; [done|]. split; [done|]. unfold decodes in D. destruct (parse bs) as [r|] eqn:Ep.
  - destruct D as (f & -> & Hd & Hr & Hn). apply parse_sound in Ep as [Hv ->]; [|done]. by exists r.
  - subst o. intros r Hv ->. by rewrite parse_complete in Ep.
Qed.

Lemma valid_fewer r : valid 15 r -> Zlen (r_csrcs r) <= 14 -> valid 14 r.
Proof. intros [] H. split; try done. naive_solver. Qed.
Lemma parse_fifteen r : valid 15 r -> Zlen (r_csrcs r) = 15 -> parse (serialize r) = None.
Proof.
  intros Hv Hc. destruct (parse _) as [r'|] eqn:Ep; [|done]. exfalso.
  destruct (first_octet_fields (r_version r) (is_some (r_padding r)) (is_some (r_extension r)) (Zlen (r_csrcs r)))
    as (_ & _ & _ & _ & F); [apply Hv|lia|].
  unfold serialize, header, be16, be32 in Ep. cbn [app parse] in Ep. by rewrite F, Hc in Ep.
Qed.
(** C33: The encoder, given members that describe a frame of the format of RFC 3550,
    section 5.1 (of any version, with at most 15 contributing sources, at most 254
    octets of padding and an extension of whole words), produces its octets
    without touching memory that is in use, and the members of the frame it
    returns describe the frame in those octets. With at most 14 contributing
    sources the decoder reads the octets back to members that describe the same
    frame; with 15, which the RFC allows, it refuses what the encoder wrote. *)
Theorem rtp_frame_roundtrip m e r :
  valid 15 r -> describes m e r -> Zlen (serialize r) < 2 ^ 64 ->
  exists f m1, ov_rtp_frame_encode None m (Some e) = Some (Some f, m1) /\ extends m m1 /\
    region m1 (bytes_data f) (serialize r) /\ bytes_length f = Zlen (serialize r) /\ describes m1 (expanded f) r /\
    exists o m2, ov_rtp_frame_decode None m1 (bytes_data f) (bytes_length f) = Some (o, m2) /\
      match o with
      | Some g => Zlen (r_csrcs r) <= 14 /\ extends m1 m2 /\ region m2 (bytes_data g) (serialize r) /\
                  describes m2 (expanded g) r
      | None => Zlen (r_csrcs r) = 15
      end.
Proof.
  intros Hv Hd Hs. destruct (encoder_describes m e r) as (f & m1 & E & Hx & Hr & Hn & Hd1); [done..|].
  exists f, m1. split; [done|]. split; [done|]. split; [done|]. split; [done|]. split; [done|]. rewrite Hn.
  destruct (decode_computes m1 (bytes_data f) (serialize r)) as (o & m2 & D & Hx2 & Hp);
    [done|by apply bytes_serialize|apply serialize_long|].
  exists o, m2. split; [done|]. unfold decodes in Hp. pose proof (v_csrcs _ _ Hv) as [_ H15].
  destruct (decide (Zlen (r_csrcs r) = 15)) as [E15|Hne].
  - rewrite parse_fifteen in Hp by done. by subst o.
  - assert (H14 : Zlen (r_csrcs r) <= 14) by lia. rewrite parse_complete in Hp by (by apply valid_fewer).
    by destruct Hp as (g & -> & Hdg & Hg & _).
Qed.

(** The encoder takes 15 sources, and what it makes of them is not decoded. *)
Lemma fifteen_csrcs_refused m e r :
  valid 15 r -> Zlen (r_csrcs r) = 15 -> describes m e r -> Zlen (serialize r) < 2 ^ 64 ->
  exists f m1 m2, ov_rtp_frame_encode None m (Some e) = Some (Some f, m1) /\
    ov_rtp_frame_decode None m1 (bytes_data f) (bytes_length f) = Some (None, m2).
Proof.
  intros Hv Hc Hd Hs. destruct (encoder_describes m e r) as (f & m1 & E & Hx & Hr & Hn & _); [done..|].
  destruct (decode_computes m1 (bytes_data f) (serialize r)) as (o & m2 & D & _ & Hp);
    [done|by apply bytes_serialize|apply serialize_long|].
  exists f, m1, m2. split; [done|]. rewrite Hn, D. unfold decodes in Hp. rewrite parse_fifteen in Hp by done. by subst o.
Qed.

(** ** A frame that uses every part *)

Definition demo : rtp :=
  {| r_version := 2; r_marker := true; r_type := 100; r_seq := 40000; r_ts := 4000000000; r_ssrc := 1;
     r_csrcs := [7; 3000000000]; r_extension := Some (48862, [1; 2; 3; 4]);
     r_payload := [11; 12; 13]; r_padding := Some [0; 0] |}.
Definition demo_octets : list Z := host_words (r_csrcs demo) ++ [1; 2; 3; 4] ++ [11; 12; 13] ++ [0; 0].
Definition demo_mem : mem := write ∅ 100 demo_octets.
Definition demo_expansion : ov_rtp_frame_expansion :=
  {| version := 2; padding_bit := true; extension_bit := true; marker_bit := true; payload_type := 100;
     sequence_number := 40000; timestamp := 4000000000; ssrc := 1; csrc_count := 2; csrc_ids := 100;
     payload_length := 3; payload_data := 112; padding_length := 2; padding_data := 115;
     extension_type := 48862; extension_length := 4; extension_allocated_bytes := 0; extension_data := 108 |}.
Definition with_version (r : rtp) (v : Z) : rtp :=
  {| r_version := v; r_marker := r_marker r; r_type := r_type r; r_seq := r_seq r; r_ts := r_ts r; r_ssrc := r_ssrc r;
     r_csrcs := r_csrcs r; r_extension := r_extension r; r_payload := r_payload r; r_padding := r_padding r |}.
Lemma demo_valid : valid 14 demo.
Proof.
  split; cbn; try (unfold is_u32; lia).
  - split; [|done]. repeat constructor; by unfold is_u32.
  - intros t d [= <- <-]. split; [lia|]. split; [by apply (bool_decide_unpack (bytes _)); vm_compute|]. by exists 1.
  - by apply (bool_decide_unpack (bytes _)); vm_compute.
  - intros d [= <-]. split; [by apply (bool_decide_unpack (bytes _)); vm_compute|done].
Qed.
Lemma demo_describes : describes demo_mem demo_expansion demo.
Proof.
  assert (H : region demo_mem 100 demo_octets) by by apply region_write. unfold demo_octets in H.
  assert (H1 : region demo_mem 108 ([1; 2; 3; 4] ++ [11; 12; 13] ++ [0; 0])) by by eapply region_app_r.
  assert (H2 : region demo_mem 112 ([11; 12; 13] ++ [0; 0])) by by eapply region_app_r.
  assert (H3 : region demo_mem 115 [0; 0]) by by eapply region_app_r.
  apply region_app_l in H, H1, H2. split; split; try done; try by apply region_holds.
  split; [done|]. split; [done|]. split; [by apply region_holds|done].
  all: split; [done|by apply region_holds].
Qed.
Lemma demo_short : Zlen (serialize demo) < 2 ^ 64.
Proof. by vm_compute. Qed.

Lemma rtp_frame_roundtrip_witness :
  valid 15 demo /\ describes demo_mem demo_expansion demo /\ Zlen (serialize demo) = 34 /\
  exists f m1 g m2, ov_rtp_frame_encode None demo_mem (Some demo_expansion) = Some (Some f, m1) /\ extends demo_mem m1 /\
    region m1 (bytes_data f) (serialize demo) /\ bytes_length f = Zlen (serialize demo) /\
    describes m1 (expanded f) demo /\
    ov_rtp_frame_decode None m1 (bytes_data f) (bytes_length f) = Some (Some g, m2) /\ describes m2 (expanded g) demo.
Proof.
  split; [exact (valid_14 demo demo_valid)|]. split; [exact demo_describes|]. split; [by vm_compute|].
  destruct (rtp_frame_roundtrip demo_mem demo_expansion demo (valid_14 demo demo_valid) demo_describes demo_short)
    as (f & m1 & E & Hx & Hr & Hn & Hd & o & m2 & D & Ho).
  destruct o as [g|]; [|discriminate Ho]. destruct Ho as (_ & _ & _ & Hg). exists f, m1, g, m2.
  split; [exact E|]. split; [exact Hx|]. split; [exact Hr|]. split; [exact Hn|]. split; [exact Hd|]. split; [exact D|exact Hg].
Defined.
(** A frame of version 0 is decoded as one of version 2 is. *)
Definition decoded_version (v : Z) : option Z :=
  let octets := serialize (with_version demo v) in
  '(f, _) ← ov_rtp_frame_decode None (write ∅ 100 octets) 100 (Zlen octets);
  f ← f; Some (version (expanded f)).
Lemma any_version_decoded : decoded_version <$> [0; 1; 2; 3] = Some <$> [0; 1; 2; 3].
Proof. by vm_compute. Qed.

Definition demo_wire : mem := write ∅ 100 (serialize demo).
Lemma demo_wire_region : region demo_wire 100 (serialize demo).
Proof. by apply region_write. Qed.
Lemma demo_wire_bytes : bytes (serialize demo).
Proof. by apply (bool_decide_unpack (bytes _)); vm_compute. Qed.
Lemma rtp_decode_exact_witness :
  is_Some (parse (serialize demo)) /\
  exists o m', ov_rtp_frame_decode None demo_wire 100 (Zlen (serialize demo)) = Some (o, m') /\ extends demo_wire m' /\
    match o with
    | Some f => exists r, valid 14 r /\ serialize demo = serialize r /\ describes m' (expanded f) r /\
                          region m' (bytes_data f) (serialize demo) /\ bytes_length f = Zlen (serialize demo)
    | None => forall r, valid 14 r -> serialize demo <> serialize r
    end.
Proof.
  split; [by vm_compute; eexists|].
  apply (rtp_decode_exact demo_wire 100 (serialize demo) demo_wire_region demo_wire_bytes). by vm_compute.
Defined.

(** Padding of 255 octets is accepted, and its last octet, 256, is stored as 0:
    the decoder refuses the frame. *)
Definition long_padding : ov_rtp_frame_expansion :=
  with_padding_data
    {| version := 2; padding_bit := true; extension_bit := false; marker_bit := false; payload_type := 0;
       sequence_number := 0; timestamp := 0; ssrc := 0; csrc_count := 0; csrc_ids := NULL;
       payload_length := 0; payload_data := NULL; padding_length := 255; padding_data := NULL;
       extension_type := 0; extension_length := 0; extension_allocated_bytes := 0; extension_data := NULL |} 100.
Definition ends_in_0_and_refused (m : mem) (e : ov_rtp_frame_expansion) : bool :=
  match ov_rtp_frame_encode None m (Some e) with
  | Some (Some f, m) =>
      match load8 m (bytes_data f + bytes_length f - 1),
            ov_rtp_frame_decode None m (bytes_data f) (bytes_length f) with
      | Some x, Some (None, _) => x =? 0
      | _, _ => false
      end
  | _ => false
  end.
Lemma long_padding_refused : ends_in_0_and_refused (write ∅ 100 (zeros 255)) long_padding = true.
Proof. by vm_compute. Qed.
