(* ===== verification/Base64.v ===== *)
(** * Base64 (src/lib/ov_base/src/encodings/ov_base64.c)

    Encoding and decoding with the standard alphabet and the one for URLs. An
    index into an alphabet is masked to six bits, so it is never out of range.
    Out parameters: [dest] is the value of [*dest] on entry, [dest_length] that
    of [*dest_length]; the result holds both on exit. *)
From S2P Require Import Prelude CMem.

(** ** The code *)

Definition base64Alphabet : list Z :=
  [0x41; 0x42; 0x43; 0x44; 0x45; 0x46; 0x47; 0x48; 0x49; 0x4A; 0x4B;
   0x4C; 0x4D; 0x4E; 0x4F; 0x50; 0x51; 0x52; 0x53; 0x54; 0x55; 0x56;
   0x57; 0x58; 0x59; 0x5A; 0x61; 0x62; 0x63; 0x64; 0x65; 0x66; 0x67;
   0x68; 0x69; 0x6A; 0x6B; 0x6C; 0x6D; 0x6E; 0x6F; 0x70; 0x71; 0x72;
   0x73; 0x74; 0x75; 0x76; 0x77; 0x78; 0x79; 0x7A; 0x30; 0x31; 0x32;
   0x33; 0x34; 0x35; 0x36; 0x37; 0x38; 0x39; 0x2B; 0x2F].
Definition base64urlAlphabet : list Z :=
  [0x41; 0x42; 0x43; 0x44; 0x45; 0x46; 0x47; 0x48; 0x49; 0x4A; 0x4B;
   0x4C; 0x4D; 0x4E; 0x4F; 0x50; 0x51; 0x52; 0x53; 0x54; 0x55; 0x56;
   0x57; 0x58; 0x59; 0x5A; 0x61; 0x62; 0x63; 0x64; 0x65; 0x66; 0x67;
   0x68; 0x69; 0x6A; 0x6B; 0x6C; 0x6D; 0x6E; 0x6F; 0x70; 0x71; 0x72;
   0x73; 0x74; 0x75; 0x76; 0x77; 0x78; 0x79; 0x7A; 0x30; 0x31; 0x32;
   0x33; 0x34; 0x35; 0x36; 0x37; 0x38; 0x39; 0x2D; 0x5F].
Definition padding_char : Z := 0x3D.

Fixpoint alphabet_loop (rest : list Z) (i byte : Z) : Z :=
  match rest with
  | [] => -1
  | c :: rest => if c =? byte then i else alphabet_loop rest (i + 1) byte
  end.
Definition ov_base64_alphabetPosition (byte : Z) (alphabet : list Z) : Z :=
  if byte =? 0 then -1 else alphabet_loop alphabet 0 byte.

(** The four stores of a group of three octets. *)
Definition encode_group (m : mem) (source result : ptr) (alphabet : list Z) (i k : Z) : option mem :=
  s0 ← load8 m (source + i);
  m ← store8 m (result + k) alphabet.[0x3F .& (s0 .>> 2)];
  s0 ← load8 m (source + i); s1 ← load8 m (source + (i + 1));
  m ← store8 m (result + (k + 1)) alphabet.[0x3F .& ((s0 .<< 4) .| (s1 .>> 4))];
  s1 ← load8 m (source + (i + 1)); s2 ← load8 m (source + (i + 2));
  m ← store8 m (result + (k + 2)) alphabet.[0x3F .& ((s1 .<< 2) .| (s2 .>> 6))];
  s2 ← load8 m (source + (i + 2));
  store8 m (result + (k + 3)) alphabet.[0x3F .& s2].
Fixpoint encode_loop (fuel : nat) (m : mem) (source source_length result : Z) (alphabet : list Z) (i k : Z)
    : option (Z * Z * mem) :=
  match fuel with
  | O => None
  | S fuel =>
      if i + 3 <? source_length
      then m ← encode_group m source result alphabet i k;
           encode_loop fuel m source source_length result alphabet (i + 3) (k + 4)
      else Some (i, k, m)
  end.
(** The [switch] behind the loop. *)
Definition encode_last (m : mem) (source result : ptr) (alphabet : list Z) (fillbits i k : Z) : option mem :=
  if fillbits =? 0 then encode_group m source result alphabet i k
  else if fillbits =? 1 then
    s0 ← load8 m (source + i);
    m ← store8 m (result + k) alphabet.[0x3F .& (s0 .>> 2)];
    s0 ← load8 m (source + i); s1 ← load8 m (source + (i + 1));
    m ← store8 m (result + (k + 1)) alphabet.[0x3F .& ((s0 .<< 4) .| (s1 .>> 4))];
    s1 ← load8 m (source + (i + 1));
    m ← store8 m (result + (k + 2)) alphabet.[0x3C .& (s1 .<< 2)];
    store8 m (result + (k + 3)) padding_char
  else if fillbits =? 2 then
    s0 ← load8 m (source + i);
    m ← store8 m (result + k) alphabet.[0x3F .& (s0 .>> 2)];
    s0 ← load8 m (source + i);
    m ← store8 m (result + (k + 1)) alphabet.[0x3F .& (s0 .<< 4)];
    m ← store8 m (result + (k + 2)) padding_char;
    store8 m (result + (k + 3)) padding_char
  else Some m.

(** What the caller of a codec finds: the truth value, [*dest], [*dest_length]
    and the memory. [dest] and [dest_length] themselves are not [NULL]. *)
Definition coded : Type := bool * Z * Z * mem.

Definition ov_base64_encode_with_alphabet (m : mem) (source source_length dest dest_length : Z) (alphabet : list Z)
    : option coded :=
  if (source =? NULL) || (source_length <? 1) then Some (false, dest, dest_length, m) else
  let length := u64 (source_length / 3 * 4) in
  let fillbits := source_length mod 3 in
  let '(length, fillbits) := if 0 <? fillbits then (u64 (length + 4), 3 - fillbits) else (length, fillbits) in
  if negb (dest =? NULL) && (dest_length <? length) then Some (false, dest, dest_length, m) else
  let '(result, m) := if dest =? NULL then calloc m (u64 (length + 1)) else (dest, m) in
  '(i, k, m) ← encode_loop (S (Z.to_nat source_length)) m source source_length result alphabet 0 0;
  m ← encode_last m source result alphabet fillbits i k;
  Some (true, result, length, m).
Definition ov_base64_encode (m : mem) (buffer length dest dest_length : Z) : option coded :=
  ov_base64_encode_with_alphabet m buffer length dest dest_length base64Alphabet.
Definition ov_base64_url_encode (m : mem) (buffer length dest dest_length : Z) : option coded :=
  ov_base64_encode_with_alphabet m buffer length dest dest_length base64urlAlphabet.

(** The positions of [n] characters from [p] on, read until one is not in the
    alphabet: [Some None] then. *)
Fixpoint positions (n : nat) (m : mem) (p : ptr) (alphabet : list Z) : option (option (list Z)) :=
  match n with
  | O => Some (Some [])
  | S n =>
      c ← load8 m p;
      let pos := ov_base64_alphabetPosition c alphabet in
      if pos <? 0 then Some None else
      r ← positions n m (p + 1) alphabet; Some (option_map (cons pos) r)
  end.
Definition decode_group (m : mem) (source result : ptr) (alphabet : list Z) (k i : Z) : option (bool * mem) :=
  r ← positions 4 m (source + k) alphabet;
  match r with
  | Some [pos0; pos1; pos2; pos3] =>
      m ← store8 m (result + i) ((pos0 .<< 2) .| (pos1 .>> 4));
      m ← store8 m (result + (i + 1)) ((pos1 .<< 4) .| (pos2 .>> 2));
      m ← store8 m (result + (i + 2)) ((pos2 .<< 6) .| pos3);
      Some (true, m)
  | _ => Some (false, m)
  end.
Fixpoint decode_loop (fuel : nat) (m : mem) (source source_length result : Z) (alphabet : list Z) (k i : Z)
    : option (bool * Z * Z * mem) :=
  match fuel with
  | O => None
  | S fuel =>
      if k + 4 <? source_length
      then '(ok, m) ← decode_group m source result alphabet k i;
           if (ok : bool) then decode_loop fuel m source source_length result alphabet (k + 4) (i + 3)
           else Some (false, k, i, m)
      else Some (true, k, i, m)
  end.
(** The [switch] behind the loop. *)
Definition decode_last (m : mem) (source result : ptr) (alphabet : list Z) (fillbits k i : Z) : option (bool * mem) :=
  if fillbits =? 0 then decode_group m source result alphabet k i
  else if fillbits =? 1 then
    r ← positions 3 m (source + k) alphabet;
    match r with
    | Some [pos0; pos1; pos2] =>
        m ← store8 m (result + i) ((pos0 .<< 2) .| (pos1 .>> 4));
        m ← store8 m (result + (i + 1)) ((pos1 .<< 4) .| (pos2 .>> 2));
        Some (true, m)
    | _ => Some (false, m)
    end
  else if fillbits =? 2 then
    r ← positions 2 m (source + k) alphabet;
    match r with
    | Some [pos0; pos1] => m ← store8 m (result + i) ((pos0 .<< 2) .| (pos1 .>> 4)); Some (true, m)
    | _ => Some (false, m)
    end
  else Some (true, m).

Definition decode_octets (fuel : nat) (m : mem) (source source_length result : Z) (alphabet : list Z) (fillbits k i : Z)
    : option (bool * mem) :=
  '(ok, k, i, m) ← decode_loop fuel m source source_length result alphabet k i;
  if (ok : bool) then decode_last m source result alphabet fillbits k i else Some (false, m).
Definition ov_base64_decode_with_alphabet (m : mem) (source source_length dest dest_length : Z) (alphabet : list Z)
    : option coded :=
  if (source =? NULL) || (source_length <? 1) then Some (false, dest, dest_length, m) else
  if nz (source_length mod 4) then Some (false, dest, dest_length, m) else
  a ← load8 m (source + (source_length - 1));
  b ← load8 m (source + (source_length - 2));
  let fillbits := (if a =? padding_char then 1 else 0) + (if b =? padding_char then 1 else 0) in
  let length := u64 (source_length / 4 * 3 - fillbits) in
  if negb (dest =? NULL) && (dest_length <? length) then Some (false, dest, dest_length, m) else
  let created := dest =? NULL in
  let '(result, m) := if created then calloc m (u64 (length + 1)) else (dest, m) in
  '(ok, m) ← decode_octets (S (Z.to_nat source_length)) m source source_length result alphabet fillbits 0 0;
  if (ok : bool) then Some (true, result, length, m)
  else if created then Some (false, NULL, length, dealloc m result (u64 (length + 1)))
  else Some (false, result, length, m).
Definition ov_base64_decode (m : mem) (buffer length dest dest_length : Z) : option coded :=
  ov_base64_decode_with_alphabet m buffer length dest dest_length base64Alphabet.
Definition ov_base64_url_decode (m : mem) (buffer length dest dest_length : Z) : option coded :=
  ov_base64_decode_with_alphabet m buffer length dest dest_length base64urlAlphabet.

(** ** The specification: RFC 4648, section 4 *)

Section Alphabet.
#[local] Set Default Proof Using "Type".
Variable alphabet : list Z.
Definition digit (v : Z) : Z := alphabet.[v].
Definition value (c : Z) : option Z := let v := ov_base64_alphabetPosition c alphabet in if v <? 0 then None else Some v.

Fixpoint base64_text (l : list Z) : list Z :=
  match l with
  | a :: b :: c :: l =>
      digit (a / 4) :: digit (a mod 4 * 16 + b / 16) :: digit (b mod 16 * 4 + c / 64) :: digit (c mod 64) :: base64_text l
  | [a; b] => [digit (a / 4); digit (a mod 4 * 16 + b / 16); digit (b mod 16 * 4); padding_char]
  | [a] => [digit (a / 4); digit (a mod 4 * 16); padding_char; padding_char]
  | [] => []
  end.
Definition octets3 (x y z w : Z) : list Z := [x * 4 + y / 16; y mod 16 * 16 + z / 4; z mod 4 * 64 + w].
(** Reading a text: unused bits of the last digit are ignored. *)
Fixpoint base64_read (t : list Z) : option (list Z) :=
  match t with
  | [] => Some []
  | [a; b; c; d] =>
      x ← value a; y ← value b;
      if (c =? padding_char) && (d =? padding_char) then Some (take 1 (octets3 x y 0 0)) else
      z ← value c;
      if d =? padding_char then Some (take 2 (octets3 x y z 0)) else
      w ← value d; Some (octets3 x y z w)
  | a :: b :: c :: d :: t =>
      x ← value a; y ← value b; z ← value c; w ← value d;
      r ← base64_read t; Some (octets3 x y z w ++ r)
  | _ => None
  end.
End Alphabet.

(** ** The digits *)

Record good_alphabet (alphabet : list Z) : Prop := {
  ga_digit v : 0 <= v < 64 -> is_byte alphabet.[v] /\ value alphabet alphabet.[v] = Some v;
  ga_value c v : is_byte c -> value alphabet c = Some v -> 0 <= v < 64 /\ alphabet.[v] = c;
  ga_padding : value alphabet padding_char = None
}.
Definition alphabet_check (alphabet : list Z) : bool :=
  for_range 0 64 (fun v => bool_decide (is_byte alphabet.[v]) && bool_decide (value alphabet alphabet.[v] = Some v)) &&
  forallb (fun c => match value alphabet c with
                    | Some v => (0 <=? v) && (v <? 64) && (alphabet.[v] =? c) | None => true end) all_bytes &&
  bool_decide (value alphabet padding_char = None).
Lemma alphabet_check_good alphabet : alphabet_check alphabet = true -> good_alphabet alphabet.
Proof.
  intros H. unfold alphabet_check in H. bool_to_prop. split.
  - intros v Hv. eapply for_range_spec in H; [|split; [apply Hv|cbn; lia]]. bool_to_prop.
    split; by eapply bool_decide_eq_true_1.
  - intros c v Hc Hv. eapply (byte_forall _ H1) in Hc. rewrite Hv in Hc. bool_to_prop. lia.
  - by eapply bool_decide_eq_true_1.
Qed.
Lemma standard_alphabets : good_alphabet base64Alphabet /\ good_alphabet base64urlAlphabet.
Proof. split; apply alphabet_check_good; vm_compute; reflexivity. Qed.

(** The code's digits, and its octets. *)
Lemma digit_bits a b : is_byte a -> is_byte b ->
  (0x3F .& (a .>> 2) = a / 4) /\ (0x3F .& ((a .<< 4) .| (b .>> 4)) = a mod 4 * 16 + b / 16) /\
  (0x3F .& ((a .<< 2) .| (b .>> 6)) = a mod 16 * 4 + b / 64) /\ (0x3F .& b = b mod 64) /\
  (0x3F .& (a .<< 4) = a mod 4 * 16) /\ (0x3C .& (a .<< 2) = a mod 16 * 4).
Proof.
  intros Ha Hb.
  assert (((0x3F .& (a .>> 2) =? a / 4) && (0x3F .& ((a .<< 4) .| (b .>> 4)) =? a mod 4 * 16 + b / 16) &&
    (0x3F .& ((a .<< 2) .| (b .>> 6)) =? a mod 16 * 4 + b / 64) && (0x3F .& b =? b mod 64) &&
    (0x3F .& (a .<< 4) =? a mod 4 * 16) && (0x3C .& (a .<< 2) =? a mod 16 * 4)) = true) as H.
  { revert a b Ha Hb. apply byte_forall2. vm_compute. reflexivity. }
  bool_to_prop. done.
Qed.
Lemma octet_bits x y : 0 <= x < 64 -> 0 <= y < 64 ->
  u8 ((x .<< 2) .| (y .>> 4)) = x * 4 + y / 16 /\ u8 ((x .<< 4) .| (y .>> 2)) = x mod 16 * 16 + y / 4 /\
  u8 ((x .<< 6) .| y) = x mod 4 * 64 + y.
Proof.
  intros Hx Hy. assert (for_range 0 64 (fun x => for_range 0 64 (fun y =>
    (u8 ((x .<< 2) .| (y .>> 4)) =? x * 4 + y / 16) && (u8 ((x .<< 4) .| (y .>> 2)) =? x mod 16 * 16 + y / 4) &&
    (u8 ((x .<< 6) .| y) =? x mod 4 * 64 + y))) = true) as H by (vm_compute; reflexivity).
  eapply (for_range_spec _ _ _ x) in H; [|lia]. eapply (for_range_spec _ _ _ y) in H; [|lia].
  cbn beta in H. bool_to_prop. done.
Qed.

(** ** Encoding *)

(** One more octet of a text that is written to [dest]. *)
Lemma store_text m dest n t k v : mapped m dest n -> k = Zlen t -> Zlen t < n ->
  store8 (write m dest t) (dest + k) v = Some (write m dest (t ++ [u8 v])).
Proof.
  intros Hdest -> Hn. rewrite (store8_mapped _ dest n) by (apply mapped_write || zlia; done).
  by rewrite write_app by lia.
Qed.

(** What is left of the octets, [rest], starts at [i]. *)
Lemma source_at (l : list Z) i rest : zdrop i l = rest -> 0 <= i -> rest <> [] ->
  Zlen l = i + Zlen rest /\ forall j, 0 <= j -> l.[i + j] = rest.[j].
Proof.
  intros <- Hi Hne. split.
  - assert (0 < Zlen (zdrop i l)) by (destruct (zdrop i l); [done|zlia]). zlia.
  - intros j Hj. by rewrite znth_zdrop.
Qed.

Section Encode.
#[local] Set Default Proof Using "Type".
Variables (alphabet : list Z) (m : mem) (source dest n : Z) (l : list Z).
Hypothesis Hsrc : region m source l.
Hypothesis Hbytes : bytes l.
Hypothesis Hdest : mapped m dest n.
Hypothesis Happart : source + Zlen l <= dest \/ dest + n <= source.
#[local] Set Default Proof Using "Type*".

(** The memory while the text [t] is written to [dest]. *)
Lemma load_source t i : Zlen t <= n -> 0 <= i < Zlen l -> load8 (write m dest t) (source + i) = Some l.[i].
Proof. intros Ht Hi. apply load8_region; [|done]. apply region_write_out; [done|lia]. Qed.
Hypothesis Halpha : good_alphabet alphabet.
Lemma u8_digit v : 0 <= v < 64 -> u8 alphabet.[v] = digit alphabet v.
Proof. intros Hv. apply u8_id. by apply (ga_digit _ Halpha). Qed.

Lemma encode_group_spec t i k a b c rest : zdrop i l = a :: b :: c :: rest -> 0 <= i -> k = Zlen t -> Zlen t + 4 <= n ->
  encode_group (write m dest t) source dest alphabet i k =
    Some (write m dest (t ++ [digit alphabet (a / 4); digit alphabet (a mod 4 * 16 + b / 16);
                              digit alphabet (b mod 16 * 4 + c / 64); digit alphabet (c mod 64)])).
Proof.
  intros Hd Hi -> Hn. destruct (source_at l i _ Hd Hi) as [Hl Hat]; [done|].
  pose proof (Hat 0 ltac:(lia)) as Ha. pose proof (Hat 1 ltac:(lia)) as Hb. pose proof (Hat 2 ltac:(lia)) as Hc.
  rewrite Z.add_0_r in Ha. change (l.[i] = a) in Ha. change (l.[i + 1] = b) in Hb. change (l.[i + 2] = c) in Hc.
  assert (is_byte a /\ is_byte b /\ is_byte c) as (Ba & Bb & Bc)
    by (rewrite <- Ha, <- Hb, <- Hc; split_and!; by apply bytes_znth).
  pose proof (digit_bits a b Ba Bb) as (E1 & E2 & _). pose proof (digit_bits b c Bb Bc) as (_ & _ & E3 & E4 & _).
  unfold encode_group.
  repeat (rewrite load_source by zlia; cbn [mbind option_bind]; rewrite ?Ha, ?Hb, ?Hc, ?E1, ?E2, ?E3, ?E4;
    try (rewrite load_source by zlia; cbn [mbind option_bind]; rewrite ?Ha, ?Hb, ?Hc, ?E1, ?E2, ?E3, ?E4);
    rewrite (store_text m dest n) by (done || zlia); cbn [mbind option_bind]).
  rewrite <- !app_assoc. cbn [app]. unfold is_byte in *. rewrite !u8_digit by dlia. done.
Qed.

Definition fill (len : Z) : Z := if 0 <? len mod 3 then 3 - len mod 3 else len mod 3.
Lemma fill_3 len k : fill (3 * k + len) = fill len.
Proof using Type. unfold fill. by rewrite Z.add_comm, Z.mul_comm, Z.mod_add by lia. Qed.

(** Loads of the octets [Ha], [Hb] and stores of the digits [E1] .. in turn. *)
Ltac run_group facts :=
  repeat (repeat (rewrite load_source by zlia; cbn [mbind option_bind]; facts);
          rewrite (store_text m dest n) by (done || zlia); cbn [mbind option_bind]).

Lemma encode_last_spec t i k rest : zdrop i l = rest -> 0 <= i -> k = Zlen t -> 0 < Zlen rest <= 3 -> Zlen t + 4 <= n ->
  encode_last (write m dest t) source dest alphabet (fill (Zlen rest)) i k =
    Some (write m dest (t ++ base64_text alphabet rest)).
Proof.
  intros Hd Hi Hk Hrest Hn.
  assert (rest <> []) as Hne by (intros ->; zlia). destruct (source_at l i _ Hd Hi Hne) as [Hl Hat].
  assert (Hb : forall j, is_byte l.[j]) by (intros; by apply bytes_znth).
  pose proof (Hat 0 ltac:(lia)) as Ha0. pose proof (Hat 1 ltac:(lia)) as Hb1. rewrite Z.add_0_r in Ha0.
  assert (Hpad : u8 padding_char = padding_char) by done.
  destruct rest as [|a [|b [|c [|d rest]]]]; [done| | | |exfalso; zlia].
  - change (l.[i] = a) in Ha0. assert (Ba : is_byte a) by (rewrite <- Ha0; apply Hb).
    pose proof (digit_bits a a Ba Ba) as (E1 & _ & _ & _ & E5 & _).
    change (fill (Zlen [a])) with 2. unfold encode_last. cbn match. subst k.
    change (2 =? 0) with false. change (2 =? 1) with false. change (2 =? 2) with true. cbn match.
    run_group ltac:(rewrite ?Ha0, ?E1, ?E5).
    rewrite <- !app_assoc. cbn [app base64_text]. unfold is_byte in *. by rewrite !u8_digit, Hpad by dlia.
  - change (l.[i] = a) in Ha0. change (l.[i + 1] = b) in Hb1.
    assert (is_byte a /\ is_byte b) as [Ba Bb] by (rewrite <- Ha0, <- Hb1; split; apply Hb).
    pose proof (digit_bits a b Ba Bb) as (E1 & E2 & _). pose proof (digit_bits b b Bb Bb) as (_ & _ & _ & _ & _ & E6).
    change (fill (Zlen [a; b])) with 1. unfold encode_last. subst k.
    change (1 =? 0) with false. change (1 =? 1) with true. cbn match.
    run_group ltac:(rewrite ?Ha0, ?Hb1, ?E1, ?E2, ?E6).
    rewrite <- !app_assoc. cbn [app base64_text]. unfold is_byte in *. by rewrite !u8_digit, Hpad by dlia.
  - change (fill (Zlen [a; b; c])) with 0. unfold encode_last. change (0 =? 0) with true. cbn match.
    by rewrite (encode_group_spec t i k a b c []) by done.
Qed.

Lemma Zlen_base64_text_3 a b c rest : Zlen (base64_text alphabet (a :: b :: c :: rest)) = 4 + Zlen (base64_text alphabet rest).
Proof using Type. cbn [base64_text]. rewrite !Zlen_cons. lia. Qed.
Lemma encode_rest fuel t i k rest fillbits : zdrop i l = rest -> 0 <= i -> k = Zlen t -> rest <> [] ->
  fillbits = fill (Zlen rest) -> Zlen t + Zlen (base64_text alphabet rest) <= n -> (length rest < fuel)%nat ->
  exists i' k' m', encode_loop fuel (write m dest t) source (Zlen l) dest alphabet i k = Some (i', k', m') /\
    encode_last m' source dest alphabet fillbits i' k' = Some (write m dest (t ++ base64_text alphabet rest)).
Proof.
  revert t i k rest. induction fuel as [|fuel IH]; intros t i k rest Hd Hi Hk Hne Hf Hn Hfuel; [lia|].
  destruct (source_at l i _ Hd Hi Hne) as [Hl _]. cbn [encode_loop].
  destruct (decide (Zlen rest <= 3)) as [Hs|Hs].
  - guards. eexists i, k, _. split; [done|]. subst fillbits. apply encode_last_spec; try done; [|].
    + destruct rest; [done|zlia].
    + destruct rest as [|a [|b [|c [|d rest]]]]; [done|..|exfalso; zlia]; cbn [base64_text] in Hn; zlia.
  - destruct rest as [|a [|b [|c [|d rest]]]]; [done|exfalso; zlia|exfalso; zlia|exfalso; zlia|].
    guards. rewrite Zlen_base64_text_3 in Hn. pose proof (Zlen_nonneg (base64_text alphabet (d :: rest))).
    rewrite (encode_group_spec t i k a b c (d :: rest)) by (done || lia). cbn [mbind option_bind].
    destruct (IH (t ++ [digit alphabet (a / 4); digit alphabet (a mod 4 * 16 + b / 16);
                        digit alphabet (b mod 16 * 4 + c / 64); digit alphabet (c mod 64)]) (i + 3) (k + 4) (d :: rest))
      as (i' & k' & m' & -> & E); try done.
    + rewrite <- zdrop_zdrop, Hd by lia. done.
    + lia.
    + zlia.
    + subst fillbits. rewrite !Zlen_cons. rewrite <- (fill_3 (1 + Zlen rest) 1). f_equal. lia.
    + zlia.
    + cbn in Hfuel |- *. lia.
    + exists i', k', m'. split; [done|]. rewrite E, <- app_assoc. done.
Qed.
End Encode.

Lemma Zlen_base64_text alphabet l : Zlen (base64_text alphabet l) = (Zlen l + 2) / 3 * 4.
Proof.
  remember (length l) as k eqn:Hk. revert l Hk. induction k as [k IH] using lt_wf_ind. intros l ->.
  destruct l as [|a [|b [|c l]]]; try reflexivity. rewrite Zlen_base64_text_3, (IH (length l)) by (cbn; lia || done).
  dlia.
Qed.
Lemma encoded_length len : 0 < len < 2 ^ 61 ->
  (if 0 <? len mod 3 then (u64 (u64 (len / 3 * 4) + 4), 3 - len mod 3) else (u64 (len / 3 * 4), len mod 3)) =
  ((len + 2) / 3 * 4, fill len).
Proof.
  intros H. unfold fill. pose proof (Z.mod_pos_bound len 3 ltac:(lia)) as Hm.
  rewrite (u64_id (len / 3 * 4)) by dlia. destruct (0 <? len mod 3) eqn:E; bool_to_prop.
  - rewrite u64_id by dlia. f_equal. dlia.
  - f_equal. dlia.
Qed.

(** A text over cleared octets leaves its terminating zero. *)
Lemma write_over_zeros m p t : write (write m p (zeros (Zlen t + 1))) p t = write m p (t ++ [0]).
Proof.
  pose proof (Zlen_nonneg t). apply map_eq. intros q. rewrite !lookup_write. autorewrite with zlen.
  repeat case_decide; try done; try lia.
  - by rewrite znth_app_l by lia.
  - rewrite znth_app_r, znth_zeros by lia. replace (q - p - Zlen t) with 0 by lia. done.
Qed.

(** The encoder into a new block, into the caller's buffer, and into one that is
    too small. *)
Section Encoder.
#[local] Set Default Proof Using "Type*".
Variables (alphabet : list Z) (m : mem) (source : Z) (l : list Z).
Hypothesis Ha : good_alphabet alphabet.
Hypothesis Hm : region m source l.
Hypothesis Hb : bytes l.
Hypothesis Hl : 0 < Zlen l < 2 ^ 61.

Lemma encode_all M dest : region M source l -> mapped M dest (Zlen (base64_text alphabet l)) ->
  source + Zlen l <= dest \/ dest + Zlen (base64_text alphabet l) <= source ->
  exists i k m', encode_loop (S (Z.to_nat (Zlen l))) M source (Zlen l) dest alphabet 0 0 = Some (i, k, m') /\
    encode_last m' source dest alphabet (fill (Zlen l)) i k = Some (write M dest (base64_text alphabet l)).
Proof.
  intros HM Hmap Hap.
  destruct (encode_rest alphabet M source dest (Zlen (base64_text alphabet l)) l HM Hb Hmap Hap Ha
    (S (Z.to_nat (Zlen l))) [] 0 0 l (fill (Zlen l))) as (i & k & m' & E & E');
    [done|lia|done|intros ->; zlia|done|zlia|apply fuel_ok|].
  rewrite write_nil in E. exists i, k, m'. done.
Qed.
Lemma encode_new dest_length :
  ov_base64_encode_with_alphabet m source (Zlen l) NULL dest_length alphabet =
    Some (true, fresh m, Zlen (base64_text alphabet l), write m (fresh m) (base64_text alphabet l ++ [0])).
Proof.
  unfold ov_base64_encode_with_alphabet. pose proof Hm as [Hs _]. null_guard. cbn [orb].
  rewrite encoded_length by done. rewrite <- (Zlen_base64_text alphabet). unfold NULL. cbn [Z.eqb negb andb].
  pose proof (Zlen_base64_text alphabet l) as Ht. unfold calloc. rewrite u64_id by dlia.
  set (M := write m (fresh m) (zeros (Zlen (base64_text alphabet l) + 1))).
  pose proof (fresh_region_out m source l Hm ltac:(lia)) as Ho. pose proof (fresh_spec m) as [Hf _].
  destruct (encode_all M (fresh m)) as (i & k & m' & E & E').
  { apply region_write_out; [done|lia]. }
  { eapply region_mapped_le; [apply region_write; lia|]. zlia. }
  { lia. }
  rewrite E. cbn [mbind option_bind]. rewrite E'. cbn [mbind option_bind]. do 2 f_equal. apply write_over_zeros.
Qed.
Lemma encode_into dest dest_length : Zlen (base64_text alphabet l) <= dest_length ->
  mapped m dest (Zlen (base64_text alphabet l)) ->
  source + Zlen l <= dest \/ dest + Zlen (base64_text alphabet l) <= source ->
  ov_base64_encode_with_alphabet m source (Zlen l) dest dest_length alphabet =
    Some (true, dest, Zlen (base64_text alphabet l), write m dest (base64_text alphabet l)).
Proof.
  intros Hn Hmap Hap. unfold ov_base64_encode_with_alphabet. pose proof Hm as [Hs _]. pose proof Hmap as [Hd _].
  null_guard. cbn [orb]. rewrite encoded_length by done. rewrite <- (Zlen_base64_text alphabet).
  null_guard. null_guard.
  destruct (encode_all m dest Hm Hmap Hap) as (i & k & m' & E & E').
  rewrite E. cbn [mbind option_bind]. rewrite E'. done.
Qed.
Lemma encode_short dest dest_length : dest <> NULL -> dest_length < Zlen (base64_text alphabet l) ->
  ov_base64_encode_with_alphabet m source (Zlen l) dest dest_length alphabet = Some (false, dest, dest_length, m).
Proof.
  intros Hd Hn. unfold ov_base64_encode_with_alphabet. pose proof Hm as [Hs _].
  unfold NULL in *. null_guard. rewrite encoded_length by done. rewrite <- (Zlen_base64_text alphabet). by null_guard.
Qed.
End Encoder.

(** ** Decoding *)

Lemma positions_spec alphabet m k p rest : region m p rest -> (k <= length rest)%nat ->
  positions k m p alphabet = Some (mapM (value alphabet) (take k rest)).
Proof.
  revert p rest. induction k as [|k IH]; intros p rest Hr Hk; [done|]. destruct rest as [|c rest]; [cbn in Hk; lia|].
  cbn [positions take mapM]. rewrite (load8_at_0 m p c rest) by done. cbn [mbind option_bind]. unfold value.
  destruct (_ <? 0) eqn:E; [done|]. cbn [mbind option_bind].
  rewrite (IH (p + 1) rest); [|by eapply (region_app_r m p _ [c])|cbn in Hk; lia]. cbn [mbind option_bind].
  by destruct (mapM _ _).
Qed.

Lemma Zlen_octets3 x y z w : Zlen (octets3 x y z w) = 3.
Proof. done. Qed.
#[export] Hint Rewrite Zlen_octets3 : zlen.

Section Decode.
#[local] Set Default Proof Using "Type*".
Variables (alphabet : list Z) (m : mem) (source dest n : Z) (l : list Z).
Hypothesis Halpha : good_alphabet alphabet.
Hypothesis Hsrc : region m source l.
Hypothesis Hbytes : bytes l.
Hypothesis Hdest : mapped m dest n.
Hypothesis Happart : source + Zlen l <= dest \/ dest + n <= source.

Lemma positions_at t k rest j : zdrop k l = rest -> 0 <= k -> rest <> [] -> Zlen t <= n -> (j <= length rest)%nat ->
  positions j (write m dest t) (source + k) alphabet = Some (mapM (value alphabet) (take j rest)).
Proof.
  intros <- Hk Hne Ht Hj. assert (k <= Zlen l).
  { destruct (decide (Zlen l <= k)) as [Hd|]; [|lia]. destruct Hne. apply Zlen_0_nil. zlia. }
  rewrite positions_spec with (rest := zdrop k l); [done| |done].
  apply region_zdrop; [|lia]. apply region_write_out; [done|lia].
Qed.
Lemma value_range c x : is_byte c -> value alphabet c = Some x -> 0 <= x < 64.
Proof. intros Hc Hx. by apply (ga_value _ Halpha c x). Qed.

Lemma decode_group_spec t k i a b c d rest : zdrop k l = a :: b :: c :: d :: rest -> 0 <= k -> i = Zlen t -> Zlen t + 3 <= n ->
  decode_group (write m dest t) source dest alphabet k i =
    Some (match mapM (value alphabet) [a; b; c; d] with
          | Some [x; y; z; w] => (true, write m dest (t ++ octets3 x y z w))
          | _ => (false, write m dest t) end).
Proof.
  intros Hd Hk Hi Hn. assert (Hbs : bytes (a :: b :: c :: d :: rest)) by (rewrite <- Hd; by apply bytes_zdrop).
  rewrite !bytes_cons in Hbs. destruct Hbs as (Ba & Bb & Bc & Bd & _).
  unfold decode_group. erewrite positions_at; [|done|done|done|lia|cbn; lia]. rewrite !firstn_cons, firstn_O. cbn [mbind option_bind mapM].
  destruct (value alphabet a) as [x|] eqn:Ex; [|done]. destruct (value alphabet b) as [y|] eqn:Ey; [|done].
  destruct (value alphabet c) as [z|] eqn:Ez; [|done]. destruct (value alphabet d) as [w|] eqn:Ew; [|done].
  cbn [mbind option_bind mret option_ret]. apply value_range in Ex, Ey, Ez, Ew; [|done..].
  destruct (octet_bits x y) as (E1 & _); [done..|]. destruct (octet_bits y z) as (_ & E2 & _); [done..|].
  destruct (octet_bits z w) as (_ & _ & E3); [done..|].
  rewrite (store_text m dest n), E1 by (done || lia). cbn [mbind option_bind].
  rewrite (store_text m dest n), E2 by (done || zlia). cbn [mbind option_bind].
  rewrite (store_text m dest n), E3 by (done || zlia). cbn [mbind option_bind]. by rewrite <- !app_assoc.
Qed.

(** The end of a text: its last group. *)
Definition pads (c d : Z) : Z := (if d =? padding_char then 1 else 0) + (if c =? padding_char then 1 else 0).
Definition is_some_b {A} (o : option A) : bool := match o with Some _ => true | None => false end.
(** The outcome of decoding: the octets read, or some octets at the start of
    the destination and a refusal. *)
Definition decoded (t rest : list Z) (size : Z) (r : option (bool * mem)) : Prop :=
  exists t', r = Some (is_some_b (base64_read alphabet rest), write m dest (t ++ t')) /\ Zlen t' <= size /\
    forall o, base64_read alphabet rest = Some o -> t' = o /\ Zlen o = size.


Lemma decoded_refuse t rest size : base64_read alphabet rest = None -> 0 <= size ->
  decoded t rest size (Some (false, write m dest t)).
Proof. intros Hr Hs. exists []. rewrite Hr, app_nil_r. split; [done|]. by split. Qed.
Lemma decoded_accept t rest size o : base64_read alphabet rest = Some o -> Zlen o = size ->
  decoded t rest size (Some (true, write m dest (t ++ o))).
Proof.
  intros Hr Hs. exists o. rewrite Hr. split; [done|]. split; [lia|]. by intros ? [= <-].
Qed.
Lemma decode_last_spec t k i f a b c d : zdrop k l = [a; b; c; d] -> 0 <= k -> i = Zlen t -> f = pads c d ->
  Zlen t + 3 - f <= n ->
  decoded t [a; b; c; d] (3 - f) (decode_last (write m dest t) source dest alphabet f k i).
Proof.
  intros Hd Hk Hi Hf Hn. assert (Hbs : bytes [a; b; c; d]) by (rewrite <- Hd; by apply bytes_zdrop).
  rewrite !bytes_cons in Hbs. destruct Hbs as (Ba & Bb & Bc & Bd & _).
  assert (Hpos : forall j, (j <= 4)%nat -> Zlen t <= n ->
    positions j (write m dest t) (source + k) alphabet = Some (mapM (value alphabet) (take j [a; b; c; d]))).
  { intros. by apply positions_at. }
  pose proof (ga_padding _ Halpha) as Hpad. unfold pads in Hf.
  assert (R : base64_read alphabet [a; b; c; d] = (x ← value alphabet a; y ← value alphabet b;
      if (c =? padding_char) && (d =? padding_char) then Some (take 1 (octets3 x y 0 0)) else
      z ← value alphabet c;
      if d =? padding_char then Some (take 2 (octets3 x y z 0)) else
      w ← value alphabet d; Some (octets3 x y z w))) by done.
  unfold decode_last.
  destruct (value alphabet a) as [x|] eqn:Ex; [destruct (value alphabet b) as [y|] eqn:Ey|]; cbn [mbind option_bind] in R.
  2,3: destruct (d =? padding_char), (c =? padding_char); assert (0 <= 3 - f) by lia;
    repeat case_if; try lia; unfold decode_group; rewrite ?Hpos by lia;
    rewrite !firstn_cons, firstn_O; cbn [mapM]; rewrite Ex, ?Ey; cbn [mbind option_bind]; by apply decoded_refuse.
  apply value_range in Ex as Rx; [|done]. apply value_range in Ey as Ry; [|done].
  destruct (octet_bits x y) as (E1 & _); [done..|].
  destruct (c =? padding_char) eqn:Ec; destruct (d =? padding_char) eqn:Ed; cbn [andb] in R; subst f; guards.
  - rewrite Hpos by lia. rewrite !firstn_cons, firstn_O. cbn [mapM]. rewrite Ex, Ey. cbn [mbind option_bind mret option_ret].
    rewrite (store_text m dest n), E1 by (done || lia). by apply decoded_accept.
  - bool_to_prop. subst c. rewrite Hpad in R. rewrite Hpos by lia. rewrite !firstn_cons, firstn_O. cbn [mapM].
    rewrite Ex, Ey, Hpad. cbn [mbind option_bind]. by apply decoded_refuse.
  - rewrite Hpos by lia. rewrite !firstn_cons, firstn_O. cbn [mapM]. rewrite Ex, Ey.
    destruct (value alphabet c) as [z|] eqn:Ez; cbn [mbind option_bind mret option_ret] in R |- *; [|by apply decoded_refuse].
    apply value_range in Ez as Rz; [|done]. destruct (octet_bits y z) as (_ & E2 & _); [done..|].
    rewrite (store_text m dest n), E1 by (done || lia). cbn [mbind option_bind].
    rewrite (store_text m dest n), E2 by (done || zlia). cbn [mbind option_bind]. rewrite <- app_assoc.
    by apply decoded_accept.
  - erewrite decode_group_spec; [|done|done|done|lia]. cbn [mapM]. rewrite Ex, Ey.
    destruct (value alphabet c) as [z|]; cbn [mbind option_bind mret option_ret] in R |- *; [|by apply decoded_refuse].
    destruct (value alphabet d) as [w|]; cbn [mbind option_bind mret option_ret] in R |- *; [|by apply decoded_refuse].
    by apply decoded_accept.
Qed.

Lemma base64_read_more a b c d e t : base64_read alphabet (a :: b :: c :: d :: e :: t) =
  match mapM (value alphabet) [a; b; c; d] with
  | Some [x; y; z; w] => r ← base64_read alphabet (e :: t); Some (octets3 x y z w ++ r)
  | _ => None end.
Proof using Type.
  cbn [mapM]. change (base64_read alphabet (a :: b :: c :: d :: e :: t)) with
    (x ← value alphabet a; y ← value alphabet b; z ← value alphabet c; w ← value alphabet d;
     r ← base64_read alphabet (e :: t); Some (octets3 x y z w ++ r)).
  by destruct (value alphabet a), (value alphabet b), (value alphabet c), (value alphabet d).
Qed.
Lemma decode_rest fuel t i k rest f : zdrop k l = rest -> 0 <= k -> i = Zlen t -> rest <> [] -> Zlen rest mod 4 = 0 ->
  f = pads l.[Zlen l - 2] l.[Zlen l - 1] -> Zlen t + (Zlen rest / 4 * 3 - f) <= n -> (length rest < fuel)%nat ->
  decoded t rest (Zlen rest / 4 * 3 - f) (decode_octets fuel (write m dest t) source (Zlen l) dest alphabet f k i).
Proof.
  intros Hd Hk Hi Hne Hmod Hf. assert (0 <= f <= 2) as Hf2 by (rewrite Hf; unfold pads; repeat case_if; lia).
  revert t i k rest Hd Hk Hi Hne Hmod. induction fuel as [|fuel IH]; intros t i k rest Hd Hk Hi Hne Hmod Hn Hfuel; [lia|].
  destruct (source_at l k _ Hd Hk Hne) as [Hl Hat].
  destruct rest as [|a [|b [|c [|d [|e rest]]]]]; [done|exfalso; autorewrite with zlen in Hmod; discriminate..| |].
  - unfold decode_octets. cbn [decode_loop]. change (Zlen [a; b; c; d] / 4 * 3) with 3 in *.
    autorewrite with zlen in Hl. guards. cbn [mbind option_bind].
    apply decode_last_spec; try done; [|lia]. rewrite Hf. replace (Zlen l - 2) with (k + 2) by lia.
    replace (Zlen l - 1) with (k + 3) by lia. by rewrite !Hat by lia.
  - assert (Zlen (a :: b :: c :: d :: e :: rest) / 4 * 3 = 3 + Zlen (e :: rest) / 4 * 3) as E by (clear -Hmod; dlia).
    rewrite E in *. assert (1 <= Zlen (e :: rest) / 4) by (clear -Hmod; dlia).
    unfold decode_octets. cbn [decode_loop]. replace (k + 4 <? Zlen l) with true by (symmetry; zlia).
    erewrite decode_group_spec; [|done|done|done|lia]. cbn [mbind option_bind].
    pose proof (base64_read_more a b c d e rest) as R.
    destruct (mapM _ _) as [[|x [|y [|z [|w [|]]]]]|]; try (apply decoded_refuse; [done|lia]).
    destruct (IH (t ++ octets3 x y z w) (i + 3) (k + 4) (e :: rest)) as (t' & Er & Ht' & Hacc); try done.
    + rewrite <- zdrop_zdrop, Hd by lia. done.
    + lia.
    + rewrite Zlen_app, Zlen_octets3. lia.
    + clear -Hmod. dlia.
    + rewrite Zlen_app, Zlen_octets3. lia.
    + cbn in Hfuel |- *. lia.
    + unfold decode_octets in Er. rewrite Er. exists (octets3 x y z w ++ t'). rewrite R, app_assoc. split.
      * by destruct (base64_read alphabet (e :: rest)).
      * split; [rewrite Zlen_app; change (Zlen (octets3 x y z w)) with 3; lia|]. intros o Ho.
        destruct (base64_read alphabet (e :: rest)) as [r|] eqn:Er'; [|done]. cbn [mbind option_bind] in Ho. injection Ho as <-.
        destruct (Hacc r eq_refl) as [-> Hr]. split; [done|]. rewrite 3!Zlen_cons. lia.
Qed.
End Decode.

(** The decoder, with the destination where the octets go. *)
Section Decoder.
#[local] Set Default Proof Using "Type*".
Variables (alphabet : list Z) (m : mem) (source : Z) (t : list Z).
Hypothesis Ha : good_alphabet alphabet.
Hypothesis Hm : region m source t.
Hypothesis Hb : bytes t.
Hypothesis Hne : 0 < Zlen t < 2 ^ 61.

Definition read_length : Z := Zlen t / 4 * 3 - pads t.[Zlen t - 2] t.[Zlen t - 1].
Lemma read_length_range : Zlen t mod 4 = 0 -> 1 <= read_length < 2 ^ 61.
Proof.
  intros H4. unfold read_length, pads. repeat match goal with |- context [if ?b then _ else _] => destruct b end; clear -H4 Hne; dlia.
Qed.
Lemma decode_all M dest : Zlen t mod 4 = 0 -> region M source t -> mapped M dest read_length ->
  source + Zlen t <= dest \/ dest + read_length <= source ->
  decoded alphabet M dest [] t read_length
    (decode_octets (S (Z.to_nat (Zlen t))) M source (Zlen t) dest alphabet (pads t.[Zlen t - 2] t.[Zlen t - 1]) 0 0).
Proof.
  intros H4 HM Hd Hap. unfold read_length in *.
  pose proof (decode_rest alphabet M source dest (Zlen t / 4 * 3 - pads t.[Zlen t - 2] t.[Zlen t - 1]) t Ha HM Hb Hd Hap
    (S (Z.to_nat (Zlen t))) [] 0 0 t (pads t.[Zlen t - 2] t.[Zlen t - 1])) as E. rewrite write_nil in E.
  apply E; [done|lia|done|intros ->; zlia|done|done|zlia|apply fuel_ok].
Qed.

Lemma decode_guards dest dest_length : Zlen t mod 4 = 0 ->
  ov_base64_decode_with_alphabet m source (Zlen t) dest dest_length alphabet =
    (if negb (dest =? NULL) && (dest_length <? read_length) then Some (false, dest, dest_length, m) else
     let '(result, m) := if dest =? NULL then calloc m (read_length + 1) else (dest, m) in
     '(ok, m) ← decode_octets (S (Z.to_nat (Zlen t))) m source (Zlen t) result alphabet
                   (pads t.[Zlen t - 2] t.[Zlen t - 1]) 0 0;
     if (ok : bool) then Some (true, result, read_length, m)
     else if dest =? NULL then Some (false, NULL, read_length, dealloc m result (read_length + 1))
     else Some (false, result, read_length, m)).
Proof.
  intros H4. pose proof Hm as [Hs _]. unfold ov_base64_decode_with_alphabet. unfold NULL at 1. guards.
  rewrite H4. cbn [nz Z.eqb negb]. assert (4 <= Zlen t) by (clear -H4 Hne; dlia).
  rewrite !(load8_region m source t) by (done || lia). cbn [mbind option_bind].
  pose proof (read_length_range H4). fold (pads t.[Zlen t - 2] t.[Zlen t - 1]). fold read_length.
  by rewrite (u64_id read_length), (u64_id (read_length + 1)) by lia.
Qed.
Lemma decode_ragged dest dest_length : Zlen t mod 4 <> 0 ->
  ov_base64_decode_with_alphabet m source (Zlen t) dest dest_length alphabet = Some (false, dest, dest_length, m).
Proof.
  intros H4. pose proof Hm as [Hs _]. unfold ov_base64_decode_with_alphabet. unfold NULL. guards.
  unfold nz. by rewrite (proj2 (Z.eqb_neq _ 0) H4).
Qed.
Lemma decode_into dest dest_length : Zlen t mod 4 = 0 -> read_length <= dest_length ->
  mapped m dest read_length -> source + Zlen t <= dest \/ dest + read_length <= source ->
  exists o, ov_base64_decode_with_alphabet m source (Zlen t) dest dest_length alphabet =
      Some (is_some_b (base64_read alphabet t), dest, read_length, write m dest o) /\ Zlen o <= read_length /\
    forall o', base64_read alphabet t = Some o' -> o = o' /\ Zlen o' = read_length.
Proof.
  intros H4 Hl Hd Hap. pose proof Hd as [Hd0 _]. rewrite decode_guards by done. unfold NULL. guards.
  destruct (decode_all m dest H4 Hm Hd Hap) as (o & -> & Hlen & Hacc). cbn [mbind option_bind app].
  exists o. split; [|done]. by destruct (base64_read alphabet t).
Qed.
Lemma base64_decode_short dest dest_length : Zlen t mod 4 = 0 -> dest <> NULL -> dest_length < read_length ->
  ov_base64_decode_with_alphabet m source (Zlen t) dest dest_length alphabet = Some (false, dest, dest_length, m).
Proof. intros H4 Hd Hl. rewrite decode_guards by done. unfold NULL in *. by guards. Qed.
Lemma decode_new dest_length : Zlen t mod 4 = 0 ->
  ov_base64_decode_with_alphabet m source (Zlen t) NULL dest_length alphabet =
    Some (match base64_read alphabet t with
          | Some o => (true, fresh m, Zlen o, write m (fresh m) (o ++ [0]))
          | None => (false, NULL, read_length, m) end).
Proof.
  intros H4. rewrite decode_guards by done. unfold NULL, calloc. cbn [Z.eqb negb andb].
  pose proof (read_length_range H4) as Hr. pose proof (fresh_spec m) as [Hf Hfree].
  pose proof (fresh_region_out m source t Hm ltac:(lia)) as Ho.
  set (M := write m (fresh m) (zeros (read_length + 1))).
  destruct (decode_all M (fresh m) H4) as (o & -> & Hlen & Hacc).
  { apply region_write_out; [done|lia]. }
  { eapply region_mapped_le; [apply region_write; lia|]. rewrite Zlen_zeros. lia. }
  { lia. }
  cbn [mbind option_bind app]. destruct (base64_read alphabet t) as [o'|]; cbn [is_some_b].
  - destruct (Hacc o' eq_refl) as [-> E]. unfold M. rewrite <- E. by rewrite write_over_zeros.
  - do 2 f_equal. apply map_eq. intros q. rewrite lookup_dealloc. unfold M. rewrite !lookup_write, Zlen_zeros.
    pose proof (Zlen_nonneg o). repeat case_decide; try lia; try done.
    destruct (m !! q) eqn:Eq; [|done]. specialize (Hfree q ltac:(eauto)). lia.
Qed.
End Decoder.

(** ** What is encoded is read back *)

Section RoundTrip.
#[local] Set Default Proof Using "Type*".
Variable alphabet : list Z.
Hypothesis Ha : good_alphabet alphabet.

Lemma value_digit v : 0 <= v < 64 -> value alphabet (digit alphabet v) = Some v.
Proof. intros Hv. by apply (ga_digit _ Ha). Qed.
Lemma digit_not_padding v : 0 <= v < 64 -> (digit alphabet v =? padding_char) = false.
Proof.
  intros Hv. apply Z.eqb_neq. intros E. pose proof (value_digit v Hv) as H. rewrite E in H.
  by rewrite (ga_padding _ Ha) in H.
Qed.
Lemma bytes_base64_text l : bytes l -> bytes (base64_text alphabet l).
Proof.
  remember (length l) as k eqn:Hk. revert l Hk. induction k as [k IH] using lt_wf_ind. intros l ->.
  assert (Hd : forall v, 0 <= v < 64 -> is_byte (digit alphabet v)) by (intros v Hv; by apply (ga_digit _ Ha)).
  destruct l as [|a [|b [|c l]]]; intros Hb; cbn [base64_text]; rewrite ?bytes_cons in *; [apply bytes_nil|..];
    unfold is_byte in Hb; destruct_and?; split_and!; try (apply Hd; dlia); try (by apply bytes_nil); try done.
  apply (IH (length l)); [cbn; lia|done|done].
Qed.
Lemma read_base64_text l : bytes l -> base64_read alphabet (base64_text alphabet l) = Some l.
Proof.
  remember (length l) as k eqn:Hk. revert l Hk. induction k as [k IH] using lt_wf_ind. intros l ->.
  destruct l as [|a [|b [|c l]]]; intros Hb; rewrite ?bytes_cons in Hb; unfold is_byte in Hb; destruct_and?; [done|..].
  - cbn [base64_text base64_read]. rewrite !value_digit by dlia. cbn [mbind option_bind].
    change (padding_char =? padding_char) with true. cbn [andb take octets3]. do 2 f_equal. dlia.
  - cbn [base64_text base64_read]. rewrite !value_digit by dlia. cbn [mbind option_bind].
    rewrite digit_not_padding by dlia. cbn [andb]. change (padding_char =? padding_char) with true.
    cbn [take octets3]. do 2 f_equal; [dlia|]. f_equal. dlia.
  - assert (Ho : octets3 (a / 4) (a mod 4 * 16 + b / 16) (b mod 16 * 4 + c / 64) (c mod 64) = [a; b; c]).
    { unfold octets3. list_cong; dlia. }
    destruct l as [|d l].
    + cbn [base64_text base64_read]. rewrite !value_digit by dlia. cbn [mbind option_bind].
      rewrite !digit_not_padding by dlia. cbn [andb]. by rewrite Ho.
    + change (base64_text alphabet (a :: b :: c :: d :: l)) with (digit alphabet (a / 4) :: digit alphabet (a mod 4 * 16 + b / 16) ::
        digit alphabet (b mod 16 * 4 + c / 64) :: digit alphabet (c mod 64) :: base64_text alphabet (d :: l)).
      assert (IHl : base64_read alphabet (base64_text alphabet (d :: l)) = Some (d :: l)) by (apply (IH (length (d :: l))); [cbn; lia|done|done]).
      destruct (base64_text alphabet (d :: l)) as [|e t] eqn:Et; [by destruct l as [|? [|]]|].
      rewrite base64_read_more. cbn [mapM]. rewrite !value_digit by dlia. cbn [mbind option_bind mret option_ret].
      rewrite IHl. cbn [mbind option_bind]. rewrite Ho. done.
Qed.
End RoundTrip.

Definition is_alphabet (alphabet : list Z) : Prop := alphabet = base64Alphabet \/ alphabet = base64urlAlphabet.
Lemma is_alphabet_good alphabet : is_alphabet alphabet -> good_alphabet alphabet.
Proof. intros [-> | ->]; apply standard_alphabets. Qed.

(** A non-empty sequence of octets is encoded into a new block as the text
    RFC 4648 prescribes with a terminating zero, the rest of the memory stays;
    and decoding that text, wherever it is, gives the octets back. *)
Lemma base64_roundtrip alphabet m source l dest_length : is_alphabet alphabet ->
  region m source l -> bytes l -> 0 < Zlen l < 2 ^ 60 ->
  let t := base64_text alphabet l in
  ov_base64_encode_with_alphabet m source (Zlen l) NULL dest_length alphabet =
    Some (true, fresh m, Zlen t, write m (fresh m) (t ++ [0])) /\
  forall m' p dest_length', region m' p t ->
    ov_base64_decode_with_alphabet m' p (Zlen t) NULL dest_length' alphabet =
      Some (true, fresh m', Zlen l, write m' (fresh m') (l ++ [0])).
Proof.
  intros Ha%is_alphabet_good Hm Hb Hl t. split; [apply encode_new; [done..|lia]|].
  intros m' p dl' Ht. assert (Zlen t mod 4 = 0 /\ 0 < Zlen t < 2 ^ 61) as [H4 Hlt].
  { unfold t. rewrite Zlen_base64_text. clear -Hl. split; dlia. }
  rewrite decode_new; [|done|done|by apply bytes_base64_text|done|done].
  unfold t. by rewrite read_base64_text.
Qed.

(** C36: for every text the decoder returns, reads nothing but the text and
    writes nothing but the destination; it accepts exactly the texts the
    reference reading of RFC 4648 accepts, as the same octets, and a block it
    allocated itself is freed when it refuses. *)
Theorem base64_decode_exact alphabet m source t : is_alphabet alphabet ->
  region m source t -> bytes t -> 0 < Zlen t < 2 ^ 61 ->
  (forall dest_length, exists length, ov_base64_decode_with_alphabet m source (Zlen t) NULL dest_length alphabet =
     Some (match (if Zlen t mod 4 =? 0 then base64_read alphabet t else None) with
           | Some o => (true, fresh m, Zlen o, write m (fresh m) (o ++ [0]))
           | None => (false, NULL, length, m) end)) /\
  (forall dest dest_length, dest <> NULL -> mapped m dest dest_length ->
     source + Zlen t <= dest \/ dest + dest_length <= source ->
     exists ok length o, ov_base64_decode_with_alphabet m source (Zlen t) dest dest_length alphabet =
         Some (ok, dest, length, write m dest o) /\ Zlen o <= dest_length `max` 0 /\
       (ok = true <-> exists o', (if Zlen t mod 4 =? 0 then base64_read alphabet t else None) = Some o' /\ Zlen o' <= dest_length) /\
       (ok = true -> base64_read alphabet t = Some o /\ length = Zlen o)).
Proof.
  intros Ha%is_alphabet_good Hm Hb Hl. destruct (Z.eqb_spec (Zlen t mod 4) 0) as [H4|H4].
  - split.
    + intros dl. exists (read_length t). by apply decode_new.
    + intros dest dl Hd Hmap Hap. pose proof (read_length_range m source t Hm Hb Hl H4) as Hr.
      assert (Hlen : forall o, base64_read alphabet t = Some o -> Zlen o = read_length t).
      { intros o Ho.
        pose proof (fresh_region_out m source t Hm ltac:(lia)). pose proof (fresh_spec m) as [Hf _].
        destruct (decode_all alphabet m source t Ha Hm Hb Hl (write m (fresh m) (zeros (read_length t))) (fresh m) H4)
          as (o' & _ & _ & Hacc); [apply region_write_out; [done|lia]| |lia|by apply Hacc].
        eapply region_mapped_le; [apply region_write; lia|]. rewrite Zlen_zeros. lia. }
      destruct (decide (read_length t <= dl)) as [Hfit|Hshort].
      * destruct (decode_into alphabet m source t Ha Hm Hb Hl dest dl H4 Hfit) as (o & -> & Ho & Hacc);
          [by eapply mapped_sub; [done|lia|lia]|lia|].
        eexists _, _, o. split; [done|]. split; [lia|]. destruct (base64_read alphabet t) as [o'|] eqn:Er; cbn [is_some_b].
        -- destruct (Hacc o' eq_refl) as [-> Hl']. split; [|done]. split; [|done]. intros _. exists o'. split; [done|lia].
        -- split; [|done]. split; [done|]. by intros (? & ? & _).
      * exists false, dl, []. rewrite (base64_decode_short alphabet m source t) by (done || lia). rewrite write_nil.
        split; [done|]. split; [zlia|]. split; [|done]. split; [done|]. intros (o' & Ho' & Hle). apply Hlen in Ho'. lia.
  - split.
    + intros dl. exists dl. by apply decode_ragged.
    + intros dest dl Hd _ _. exists false, dl, []. rewrite (decode_ragged alphabet m source t) by done. rewrite write_nil.
      split; [done|]. split; [zlia|]. split; [|done]. split; [done|]. by intros (? & ? & _).
Qed.

(** ** Inputs *)

Lemma base64_roundtrip_witness :
  let l := [0xfb; 0xff; 0x41; 0x42] in let m := write ∅ 100 l in
  let t := base64_text base64urlAlphabet l in
  string_bytes "-_9BQg==" = t /\ is_alphabet base64urlAlphabet /\ region m 100 l /\ bytes l /\ 0 < Zlen l < 2 ^ 60 /\
  ov_base64_encode_with_alphabet m 100 (Zlen l) NULL 0 base64urlAlphabet =
    Some (true, fresh m, Zlen t, write m (fresh m) (t ++ [0])) /\
  forall m' p dest_length', region m' p t ->
    ov_base64_decode_with_alphabet m' p (Zlen t) NULL dest_length' base64urlAlphabet =
      Some (true, fresh m', Zlen l, write m' (fresh m') (l ++ [0])).
Proof.
  intros l m t. assert (Hm : region m 100 l) by (apply region_write; lia).
  assert (Hb : bytes l) by (apply (bool_decide_unpack _); vm_compute; exact I).
  split; [vm_compute; reflexivity|]. split; [by right|]. split; [exact Hm|]. split; [exact Hb|]. split; [by vm_compute|].
  exact (base64_roundtrip base64urlAlphabet m 100 l 0 (or_intror eq_refl) Hm Hb ltac:(by vm_compute)).
Defined.

(** A padding inside of the text is refused, and so is a length that is not a
    multiple of four. *)
Lemma base64_decode_exact_witness :
  let t := string_bytes "QQ==QUI=" in let m := write ∅ 100 t in
  base64_read base64Alphabet t = None /\ base64_read base64Alphabet (string_bytes "QUI=") = Some [0x41; 0x42] /\
  is_alphabet base64Alphabet /\ region m 100 t /\ bytes t /\ 0 < Zlen t < 2 ^ 61 /\
  (forall dest_length, exists length, ov_base64_decode_with_alphabet m 100 (Zlen t) NULL dest_length base64Alphabet =
     Some (match (if Zlen t mod 4 =? 0 then base64_read base64Alphabet t else None) with
           | Some o => (true, fresh m, Zlen o, write m (fresh m) (o ++ [0]))
           | None => (false, NULL, length, m) end)).
Proof.
  intros t m. assert (Hm : region m 100 t) by (apply region_write; lia).
  assert (Hb : bytes t) by apply bytes_string.
  split; [vm_compute; reflexivity|]. split; [vm_compute; reflexivity|]. split; [by left|]. split; [exact Hm|]. split; [exact Hb|].
  split; [by vm_compute|].
  exact (proj1 (base64_decode_exact base64Alphabet m 100 t (or_introl eq_refl) Hm Hb ltac:(by vm_compute))).
Defined.
