(* ===== verification/Dict.v ===== *)
(** * Dictionaries with string keys (src/lib/ov_base/src/dict/ov_dict.c)

    The default dictionary: a fixed number of slots, each a chain of pairs
    behind a sentinel that is not a pair itself. Keys are values (the dictionary
    owns their memory, which is not modelled); a value is a pointer, a [Z], 0 for
    [NULL]. What a dictionary hands to the free function of its values is a part
    of the result: whether there is such a function depends on its
    configuration. A dictionary is never [NULL] here. *)
From S2P Require Import Prelude Hashtable.

(** ** The code *)

Definition IMPL_DEFAULT_SLOTS : nat := 100.
Abbreviation dict_pair := (string * Z)%type.
Record ov_dict := { slots : nat; items : list (list dict_pair) }.
Definition with_chain (d : ov_dict) (i : nat) (c : list dict_pair) : ov_dict :=
  {| slots := slots d; items := <[i := c]> (items d) |}.

Definition ov_match_c_string_strict (key string : option string) : bool :=
  match key, string with
  | None, None => true
  | Some a, Some b => bool_decide (a = b)
  | _, _ => false
  end.

(** A dictionary with the functions for strings and a number of slots. *)
Definition ov_dict_string_key_config (slots : nat) : nat := if (slots =? 0)%nat then IMPL_DEFAULT_SLOTS else slots.
Definition ov_dict_create (slots : nat) : option ov_dict :=
  if (slots <? 1)%nat then None else Some {| slots := slots; items := replicate slots [] |}.

Definition dict_calculate_slot (d : ov_dict) (key : option string) : nat :=
  Z.to_nat (ov_hash_pearson_c_string key mod Z.of_nat (slots d)).
(** The chain of a slot; an access outside of the array is undefined. *)
Definition get_start_pair_at_slot (d : ov_dict) (slot : nat) : option (list dict_pair) := items d !! slot.

(** The loops along a chain. *)
Fixpoint chain_get (chain : list dict_pair) (key : option string) : option Z :=
  match chain with
  | [] => None
  | (k, v) :: chain => if ov_match_c_string_strict key (Some k) then Some v else chain_get chain key
  end.
Fixpoint chain_set (chain : list dict_pair) (key : string) (value : Z) : option Z * list dict_pair :=
  match chain with
  | [] => (None, [(key, value)])
  | (k, v) :: chain =>
      if ov_match_c_string_strict (Some key) (Some k) then (Some v, (key, value) :: chain)
      else let '(old, chain) := chain_set chain key value in (old, (k, v) :: chain)
  end.
Fixpoint chain_remove (chain : list dict_pair) (key : string) : option Z * list dict_pair :=
  match chain with
  | [] => (None, [])
  | (k, v) :: chain =>
      if ov_match_c_string_strict (Some key) (Some k) then (Some v, chain)
      else let '(old, chain) := chain_remove chain key in (old, (k, v) :: chain)
  end.

Definition impl_dict_get (d : ov_dict) (key : option string) : option Z :=
  chain ← get_start_pair_at_slot d (dict_calculate_slot d key); Some (default 0 (chain_get chain key)).
Definition ov_dict_is_set (d : ov_dict) (key : string) : option bool :=
  chain ← get_start_pair_at_slot d (dict_calculate_slot d (Some key));
  Some (match chain_get chain (Some key) with Some _ => true | None => false end).
(** The value that was replaced, if the key was set. *)
Definition impl_dict_set (d : ov_dict) (key : string) (value : Z) : option (option Z * ov_dict) :=
  let slot := dict_calculate_slot d (Some key) in
  chain ← get_start_pair_at_slot d slot;
  let '(replaced, chain) := chain_set chain key value in
  Some (replaced, with_chain d slot chain).
Definition impl_dict_remove (d : ov_dict) (key : string) : option (Z * ov_dict) :=
  let slot := dict_calculate_slot d (Some key) in
  chain ← get_start_pair_at_slot d slot;
  let '(value, chain) := chain_remove chain key in
  Some (default 0 value, with_chain d slot chain).
(** The value to be freed, 0 for none. *)
Definition impl_dict_del (d : ov_dict) (key : string) : option (Z * ov_dict) := impl_dict_remove d key.

(** The values to be freed, in order, and the cleared dictionary. *)
Definition impl_dict_clear (d : ov_dict) : list Z * ov_dict :=
  ((concat (items d)).*2, {| slots := slots d; items := replicate (length (items d)) [] |}).

(** [function] does not change the dictionary itself; it may fail to return. *)
Fixpoint each_pair {A} (function : string -> Z -> A -> option (bool * A)) (l : list dict_pair) (data : A) : option (bool * A) :=
  match l with
  | [] => Some (true, data)
  | (k, v) :: l => '(ok, data) ← function k v data; if (ok : bool) then each_pair function l data else Some (false, data)
  end.
Definition impl_dict_for_each {A} (d : ov_dict) (data : A) (function : string -> Z -> A -> option (bool * A))
    : option (bool * A) := each_pair function (concat (items d)) data.

Definition count_keys (key : string) (value : Z) (counter : Z) : option (bool * Z) :=
  if counter <? 0 then Some (false, counter) else Some (true, counter + 1).
Definition ov_dict_count (d : ov_dict) : option Z :=
  '(ok, counter) ← impl_dict_for_each d 0 count_keys; Some (if (ok : bool) then counter else -1).
Definition key_is_empty (key : string) (value : Z) (data : unit) : option (bool * unit) := Some (false, data).
Definition impl_dict_is_empty (d : ov_dict) : option bool :=
  '(ok, _) ← impl_dict_for_each d tt key_is_empty; Some (ok : bool).

(** The keys with the value [val], or all keys for [NULL]. *)
Definition check_value_at_key (val : Z) (key : string) (value : Z) (list : list string) : option (bool * Datatypes.list string) :=
  if value =? 0 then Some (true, list) else Some (true, if value =? val then list ++ [key] else list).
Definition key_collector (key : string) (value : Z) (list : list string) : option (bool * Datatypes.list string) :=
  if value =? 0 then Some (true, list) else Some (true, list ++ [key]).
Definition impl_dict_get_keys (d : ov_dict) (val : Z) : option (list string) :=
  '(ok, keys) ← impl_dict_for_each d [] (if val =? 0 then key_collector else check_value_at_key val);
  if (ok : bool) then Some keys else None.

(** ** What a dictionary represents *)

Record dict_ok (d : ov_dict) : Prop := {
  do_slots : (0 < slots d)%nat;
  do_items : length (items d) = slots d;
  do_home i c k v : items d !! i = Some c -> (k, v) ∈ c -> dict_calculate_slot d (Some k) = i;
  do_nodup i c : items d !! i = Some c -> NoDup c.*1
}.
Definition dict_map (d : ov_dict) : gmap string Z := list_to_map (concat (items d)).

Lemma match_strict a b : ov_match_c_string_strict (Some a) (Some b) = bool_decide (a = b).
Proof. done. Qed.
Lemma chain_get_spec c k : chain_get c (Some k) = (list_to_map c : gmap string Z) !! k.
Proof.
  induction c as [|[k' v] c IH]; [done|]. cbn [chain_get]. rewrite list_to_map_cons, match_strict.
  case_bool_decide as E; [subst; by rewrite lookup_insert_eq|]. by rewrite lookup_insert_ne.
Qed.
Lemma chain_set_spec c k v : (list_to_map (chain_set c k v).2 : gmap string Z) = <[k := v]> (list_to_map c) /\
  (chain_set c k v).1 = (list_to_map c : gmap string Z) !! k /\
  (NoDup c.*1 -> NoDup (chain_set c k v).2.*1) /\
  forall x, x ∈ (chain_set c k v).2 -> x = (k, v) \/ x ∈ c.
Proof.
  induction c as [|[k' v'] c (IH1 & IH2 & IH3 & IH4)]; cbn [chain_set].
  - split; [done|]. split; [done|]. split; [intros _; repeat constructor; by intros ?%elem_of_nil|].
    intros x [->|[]%elem_of_nil]%elem_of_cons. by left.
  - rewrite match_strict. case_bool_decide as E; cbn [fst snd].
    + subst k'. rewrite !list_to_map_cons, insert_insert_eq. split; [done|].
      split; [symmetry; apply lookup_insert_eq|]. split; [done|]. intros x [->|Hx]%elem_of_cons; [by left|right; by right].
    + destruct (chain_set c k v) as [old c'] eqn:Ec. cbn [fst snd] in *. rewrite !list_to_map_cons, IH1, lookup_insert_ne by done.
      split; [by rewrite insert_insert_ne by congruence|]. split; [done|]. split.
      * intros [Hk Hn]%NoDup_cons. apply NoDup_cons. split; [|by apply IH3].
        intros (x & Ex & Hx)%list_elem_of_fmap. cbn in Ex, Hk. destruct (IH4 x Hx) as [->|Hin]; [by cbn in Ex|].
        apply Hk. rewrite Ex. by apply list_elem_of_fmap_2.
      * intros x [->|Hx]%elem_of_cons; [right; by left|]. destruct (IH4 x Hx) as [->|]; [by left|right; by right].
Qed.
Lemma chain_remove_spec c k : NoDup c.*1 ->
  (list_to_map (chain_remove c k).2 : gmap string Z) = delete k (list_to_map c) /\
  (chain_remove c k).1 = (list_to_map c : gmap string Z) !! k /\
  (chain_remove c k).2 `sublist_of` c.
Proof.
  induction c as [|[k' v'] c IH]; cbn [chain_remove]; [intros _; split; [by rewrite list_to_map_nil, delete_empty|done]|].
  rewrite list_to_map_cons, fmap_cons. cbn [fst]. intros [Hk Hn]%NoDup_cons. destruct (IH Hn) as (IH1 & IH2 & IH3). rewrite match_strict.
  case_bool_decide as E; cbn [fst snd].
  - subst k'. rewrite lookup_insert_eq. split; [|by split; [|constructor]]. rewrite delete_insert_eq.
    symmetry. apply delete_id. apply not_elem_of_list_to_map_1. done.
  - destruct (chain_remove c k) as [old c'] eqn:Ec. cbn [fst snd] in *. rewrite list_to_map_cons, IH1, lookup_insert_ne by done. split; [|by split; [|constructor]].
    by rewrite delete_insert_ne by congruence.
Qed.

Lemma dict_slot_lt d k : dict_ok d -> (dict_calculate_slot d k < slots d)%nat.
Proof.
  intros H. pose proof (do_slots d H). unfold dict_calculate_slot.
  pose proof (Z.mod_pos_bound (ov_hash_pearson_c_string k) (Z.of_nat (slots d)) ltac:(lia)). lia.
Qed.
Lemma slot_chain d k : dict_ok d -> exists c, items d !! dict_calculate_slot d k = Some c.
Proof.
  intros H. apply lookup_lt_is_Some. rewrite (do_items d H). by apply dict_slot_lt.
Qed.
Lemma elem_of_concat_lookup (l : list (list dict_pair)) x : x ∈ concat l <-> exists i c, l !! i = Some c /\ x ∈ c.
Proof.
  rewrite list_elem_of_In, in_concat. split.
  - intros (c & Hc & Hx). apply list_elem_of_In, list_elem_of_lookup in Hc as [i Hi]. apply list_elem_of_In in Hx. eauto.
  - intros (i & c & Hi & Hx). exists c. split; apply list_elem_of_In; [by eapply list_elem_of_lookup_2|done].
Qed.
Lemma dict_keys_nodup d : dict_ok d -> NoDup (concat (items d)).*1.
Proof.
  intros H. apply NoDup_concat_disjoint.
  - intros i l Hl. by eapply do_nodup.
  - intros i j l l' [k v] [k' v'] Hi Hj Hx Hy E. cbn in E. subst k'.
    rewrite <- (do_home d H _ _ _ _ Hi Hx). by rewrite <- (do_home d H _ _ _ _ Hj Hy).
Qed.
Lemma dict_map_elem d k v : dict_ok d -> dict_map d !! k = Some v <-> (k, v) ∈ concat (items d).
Proof. intros H. symmetry. apply elem_of_list_to_map. by apply dict_keys_nodup. Qed.
Lemma dict_map_chain d k c : dict_ok d -> items d !! dict_calculate_slot d (Some k) = Some c ->
  dict_map d !! k = (list_to_map c : gmap string Z) !! k.
Proof.
  intros H Hc. apply option_eq. intros v. rewrite dict_map_elem by done.
  rewrite elem_of_concat_lookup, <- elem_of_list_to_map by (by eapply do_nodup). split.
  - intros (i & c' & Hi & Hin). pose proof (do_home d H _ _ _ _ Hi Hin) as E. rewrite E in Hc. congruence.
  - intros Hin. eauto.
Qed.
Lemma dict_pairs_perm d : dict_ok d -> concat (items d) ≡ₚ map_to_list (dict_map d).
Proof. intros H. symmetry. apply map_to_list_to_map. by apply dict_keys_nodup. Qed.

(** A changed chain. *)
Lemma with_chain_ok d i c c' : dict_ok d -> items d !! i = Some c -> NoDup c'.*1 ->
  (forall k v, (k, v) ∈ c' -> dict_calculate_slot d (Some k) = i) -> dict_ok (with_chain d i c').
Proof.
  intros H Hc Hn Hs. split.
  - apply (do_slots d H).
  - cbn. rewrite length_insert. apply (do_items d H).
  - intros j c0 k v. cbn. change (dict_calculate_slot (with_chain d i c') (Some k)) with (dict_calculate_slot d (Some k)).
    destruct (decide (i = j)) as [->|Hne].
    + rewrite list_lookup_insert_eq by (by eapply lookup_lt_Some). intros [= <-]. apply Hs.
    + rewrite list_lookup_insert_ne by done. apply (do_home d H).
  - intros j c0. cbn. destruct (decide (i = j)) as [->|Hne].
    + rewrite list_lookup_insert_eq by (by eapply lookup_lt_Some). by intros [= <-].
    + rewrite list_lookup_insert_ne by done. apply (do_nodup d H).
Qed.
Lemma with_chain_map d i c c' k : dict_ok d -> items d !! i = Some c -> dict_ok (with_chain d i c') ->
  dict_map (with_chain d i c') !! k =
    if decide (dict_calculate_slot d (Some k) = i) then (list_to_map c' : gmap string Z) !! k else dict_map d !! k.
Proof.
  intros H Hc H'. destruct (slot_chain d (Some k) H) as [c0 Hc0].
  assert (items (with_chain d i c') !! dict_calculate_slot (with_chain d i c') (Some k) =
    Some (if decide (dict_calculate_slot d (Some k) = i) then c' else c0)) as E.
  { cbn. change (dict_calculate_slot (with_chain d i c') (Some k)) with (dict_calculate_slot d (Some k)).
    case_decide as Hi; [|by rewrite list_lookup_insert_ne by done].
    rewrite Hi, list_lookup_insert_eq; [done|]. by eapply lookup_lt_Some. }
  rewrite (dict_map_chain _ k _ H' E). case_decide; [done|]. symmetry. by apply dict_map_chain.
Qed.

Lemma dict_create_spec n : (0 < n)%nat -> exists d, ov_dict_create n = Some d /\ dict_ok d /\ dict_map d = ∅.
Proof.
  intros Hn. unfold ov_dict_create. destruct (Nat.ltb_spec n 1); [lia|]. eexists. split; [done|].
  assert (E : concat (replicate n (@nil dict_pair)) = []) by (clear; induction n; [done|]; cbn; done).
  split; [|unfold dict_map; cbn [items]; by rewrite E]. split.
  - done.
  - cbn. apply length_replicate.
  - intros i c k v. cbn. rewrite lookup_replicate. intros [-> _]. by intros ?%elem_of_nil.
  - intros i c. cbn. rewrite lookup_replicate. intros [-> _]. constructor.
Qed.
Lemma dict_get_spec d k : dict_ok d -> impl_dict_get d (Some k) = Some (default 0 (dict_map d !! k)).
Proof.
  intros H. unfold impl_dict_get, get_start_pair_at_slot. destruct (slot_chain d (Some k) H) as [c Hc].
  rewrite Hc. cbn [mbind option_bind]. by rewrite chain_get_spec, (dict_map_chain d k c).
Qed.
Lemma dict_get_null d : dict_ok d -> impl_dict_get d None = Some 0.
Proof.
  intros H. unfold impl_dict_get, get_start_pair_at_slot. destruct (slot_chain d None H) as [c Hc].
  rewrite Hc. cbn [mbind option_bind]. f_equal. clear. induction c as [|[k v] c IH]; done.
Qed.
Lemma dict_is_set_spec d k : dict_ok d -> ov_dict_is_set d k = Some (bool_decide (is_Some (dict_map d !! k))).
Proof.
  intros H. unfold ov_dict_is_set, get_start_pair_at_slot. destruct (slot_chain d (Some k) H) as [c Hc].
  rewrite Hc. cbn [mbind option_bind]. rewrite chain_get_spec, (dict_map_chain d k c) by done.
  by destruct (list_to_map c !! k).
Qed.
Lemma dict_set_spec d k v : dict_ok d -> exists d', impl_dict_set d k v = Some (dict_map d !! k, d') /\
  dict_ok d' /\ dict_map d' = <[k := v]> (dict_map d).
Proof.
  intros H. unfold impl_dict_set, get_start_pair_at_slot. destruct (slot_chain d (Some k) H) as [c Hc].
  rewrite Hc. cbn [mbind option_bind]. destruct (chain_set_spec c k v) as (E1 & E2 & E3 & E4).
  destruct (chain_set c k v) as [old c'] eqn:Ec. cbn [fst snd] in *. eexists. split.
  { by rewrite E2, (dict_map_chain d k c). }
  assert (Hok : dict_ok (with_chain d (dict_calculate_slot d (Some k)) c')).
  { eapply with_chain_ok; [done|done|by eapply E3, do_nodup|]. intros k' v' Hin.
    destruct (E4 _ Hin) as [[= -> ->]|Hin']; [done|]. by eapply do_home. }
  split; [done|]. apply map_eq. intros k'. rewrite (with_chain_map d _ c) by done. rewrite E1.
  destruct (decide (k' = k)) as [->|Hne].
  - by rewrite decide_True, !lookup_insert_eq by done.
  - rewrite !lookup_insert_ne by done. case_decide as Hs; [|done].
    symmetry. apply dict_map_chain; [done|]. by rewrite Hs.
Qed.
Lemma dict_remove_spec d k : dict_ok d -> exists d', impl_dict_remove d k = Some (default 0 (dict_map d !! k), d') /\
  dict_ok d' /\ dict_map d' = delete k (dict_map d).
Proof.
  intros H. unfold impl_dict_remove, get_start_pair_at_slot. destruct (slot_chain d (Some k) H) as [c Hc].
  rewrite Hc. cbn [mbind option_bind]. destruct (chain_remove_spec c k (do_nodup d H _ _ Hc)) as (E1 & E2 & E3).
  destruct (chain_remove c k) as [old c'] eqn:Ec. cbn [fst snd] in *. eexists. split.
  { by rewrite E2, (dict_map_chain d k c). }
  assert (Hok : dict_ok (with_chain d (dict_calculate_slot d (Some k)) c')).
  { eapply with_chain_ok; [done|done| |].
    - eapply sublist_NoDup; [apply (do_nodup d H _ _ Hc)|]. by apply fmap_sublist.
    - intros k' v' Hin. eapply do_home; [done|done|]. by eapply elem_of_sublist. }
  split; [done|]. apply map_eq. intros k'. rewrite (with_chain_map d _ c) by done. rewrite E1.
  destruct (decide (k' = k)) as [->|Hne].
  - by rewrite decide_True, !lookup_delete_eq by done.
  - rewrite !lookup_delete_ne by done. case_decide as Hs; [|done].
    symmetry. apply dict_map_chain; [done|]. by rewrite Hs.
Qed.

(** Traversals. [l] is the order in which the pairs are seen. *)
Lemma each_pair_total {A} (f : string -> Z -> A -> option (bool * A)) (g : string -> Z -> A -> A) l a :
  (forall k v a, (k, v) ∈ l -> f k v a = Some (true, g k v a)) ->
  each_pair f l a = Some (true, fold_left (fun a kv => g kv.1 kv.2 a) l a).
Proof.
  revert a. induction l as [|[k v] l IH]; intros a Hf; [done|]. cbn [each_pair].
  rewrite Hf by (by left). cbn [mbind option_bind fold_left fst snd]. apply IH. intros. apply Hf. by right.
Qed.
(** A property kept by every call, and what each call does. *)
Lemma each_pair_inv {A} (f : string -> Z -> A -> option (bool * A)) (I : list dict_pair -> A -> Prop) l a :
  I [] a ->
  (forall done k v a, (k, v) ∈ l -> I done a -> exists a', f k v a = Some (true, a') /\ I (done ++ [(k, v)]) a') ->
  exists a', each_pair f l a = Some (true, a') /\ I l a'.
Proof.
  intros H0 Hf. enough (forall done rest a, l = done ++ rest -> I done a ->
    exists a', each_pair f rest a = Some (true, a') /\ I l a') as H by (by apply (H [])).
  intros done rest. revert done. induction rest as [|[k v] rest IH]; intros done a1 E Hi.
  - exists a1. split; [by destruct l|]. by rewrite E, app_nil_r.
  - cbn [each_pair]. destruct (Hf done k v a1) as (a2 & -> & Hi2); [rewrite E; apply elem_of_app; right; by left|done|].
    cbn [mbind option_bind]. apply (IH (done ++ [(k, v)])); [by rewrite E, <- app_assoc|done].
Qed.
(** The same for calls that may fail; the traversal is complete when none does. *)
Lemma each_pair_keep {A} (f : string -> Z -> A -> option (bool * A)) (I : list dict_pair -> A -> Prop) l a :
  I [] a ->
  (forall done k v a, (k, v) ∈ l -> I done a -> exists ok a', f k v a = Some (ok, a') /\ I (done ++ [(k, v)]) a') ->
  exists ok done a', each_pair f l a = Some (ok, a') /\ I done a' /\ (ok = true -> done = l).
Proof.
  intros H0 Hf. enough (forall done rest a, l = done ++ rest -> I done a ->
    exists ok done' a', each_pair f rest a = Some (ok, a') /\ I done' a' /\ (ok = true -> done' = l)) as H by (by apply (H [])).
  intros done rest. revert done. induction rest as [|[k v] rest IH]; intros done a1 E Hi.
  - exists true, done, a1. split; [by destruct l|]. split; [done|]. intros _. by rewrite E, app_nil_r.
  - cbn [each_pair]. destruct (Hf done k v a1) as (ok & a2 & -> & Hi2); [rewrite E; apply elem_of_app; right; by left|done|].
    cbn [mbind option_bind]. destruct ok; [|by exists false, (done ++ [(k, v)]), a2].
    apply (IH (done ++ [(k, v)])); [by rewrite E, <- app_assoc|done].
Qed.
Lemma dict_count_spec d : dict_ok d -> ov_dict_count d = Some (Z.of_nat (size (dict_map d))).
Proof.
  intros H. unfold ov_dict_count, impl_dict_for_each.
  assert (E : forall l n, 0 <= n -> each_pair count_keys l n = Some (true, n + Z.of_nat (length l))).
  { induction l as [|[k v] l IH]; intros n Hn; cbn [each_pair length]; [by rewrite Z.add_0_r|].
    replace (count_keys k v n) with (Some (true, n + 1)) by (unfold count_keys; by destruct (Z.ltb_spec n 0); [lia|]). cbn [mbind option_bind]. rewrite IH by lia. do 2 f_equal. lia. }
  rewrite E by lia. cbn [mbind option_bind]. rewrite Z.add_0_l. do 2 f_equal.
  rewrite <- length_map_to_list. by rewrite (dict_pairs_perm d H).
Qed.
Lemma dict_is_empty_spec d : dict_ok d -> impl_dict_is_empty d = Some (bool_decide (dict_map d = ∅)).
Proof.
  intros H. unfold impl_dict_is_empty, impl_dict_for_each. pose proof (dict_pairs_perm d H) as P.
  destruct (concat (items d)) as [|[k v] l] eqn:E; cbn [each_pair mbind option_bind key_is_empty].
  - rewrite bool_decide_eq_true_2; [done|]. apply map_to_list_empty_iff. by apply Permutation_nil.
  - rewrite bool_decide_eq_false_2; [done|]. intros E0. rewrite E0, map_to_list_empty in P.
    by apply Permutation_sym, Permutation_nil in P.
Qed.
Lemma dict_get_keys_spec d c : dict_ok d -> c <> 0 ->
  exists keys, impl_dict_get_keys d c = Some keys /\ forall k, k ∈ keys <-> dict_map d !! k = Some c.
Proof.
  intros H Hc. unfold impl_dict_get_keys, impl_dict_for_each. rewrite (proj2 (Z.eqb_neq c 0) Hc).
  destruct (each_pair_inv (check_value_at_key c) (fun done keys => forall k, k ∈ keys <-> (k, c) ∈ done)
    (concat (items d)) []) as (keys & -> & Hk).
  - intros k. by rewrite !elem_of_nil.
  - intros done k v keys Hin Hk. unfold check_value_at_key. destruct (Z.eqb_spec v 0) as [->|].
    + eexists. split; [done|]. intros k'. rewrite Hk, elem_of_app, list_elem_of_singleton.
      split; [by left|]. intros [|[= _ ->]]; [done|done].
    + destruct (Z.eqb_spec v c) as [->|].
      * eexists. split; [done|]. intros k'. rewrite !elem_of_app, Hk, !list_elem_of_singleton. naive_solver.
      * eexists. split; [done|]. intros k'. rewrite Hk, elem_of_app, list_elem_of_singleton. naive_solver.
  - cbn [mbind option_bind]. exists keys. split; [done|]. intros k. by rewrite Hk, dict_map_elem.
Qed.

Lemma dict_clear_spec d : dict_ok d -> dict_ok (impl_dict_clear d).2 /\ dict_map (impl_dict_clear d).2 = ∅ /\
  (impl_dict_clear d).1 = (concat (items d)).*2.
Proof.
  intros H. unfold impl_dict_clear. cbn [fst snd]. rewrite (do_items d H).
  destruct (dict_create_spec (slots d) (do_slots d H)) as (d' & E & Hok & Hm). unfold ov_dict_create in E.
  destruct (slots d <? 1)%nat; [done|]. injection E as <-. done.
Qed.

(** ** A dictionary is a map *)

Inductive dict_op :=
  | d_set (key : string) (value : Z) | d_remove (key : string) | d_get (key : option string) | d_is_set (key : string)
  | d_get_keys (value : Z) | d_count | d_is_empty | d_clear.
Inductive dict_answer :=
  | a_replaced (old : option Z) | a_value (v : Z) | a_bool (b : bool) | a_keys (keys : list string) | a_count (n : Z) | a_freed (l : list Z).
Definition dict_step (d : ov_dict) (o : dict_op) : option (dict_answer * ov_dict) :=
  match o with
  | d_set k v => '(old, d) ← impl_dict_set d k v; Some (a_replaced old, d)
  | d_remove k => '(v, d) ← impl_dict_remove d k; Some (a_value v, d)
  | d_get k => v ← impl_dict_get d k; Some (a_value v, d)
  | d_is_set k => b ← ov_dict_is_set d k; Some (a_bool b, d)
  | d_get_keys v => keys ← impl_dict_get_keys d v; Some (a_keys keys, d)
  | d_count => n ← ov_dict_count d; Some (a_count n, d)
  | d_is_empty => b ← impl_dict_is_empty d; Some (a_bool b, d)
  | d_clear => let '(l, d) := impl_dict_clear d in Some (a_freed l, d)
  end.
Fixpoint dict_run (d : ov_dict) (l : list dict_op) : option (list dict_answer * ov_dict) :=
  match l with
  | [] => Some ([], d)
  | o :: l => '(a, d) ← dict_step d o; '(r, d) ← dict_run d l; Some (a :: r, d)
  end.
(** What a finite map answers; the order of keys and values is left open. *)
Inductive map_step (m : gmap string Z) : dict_op -> dict_answer -> gmap string Z -> Prop :=
  | m_set k v : map_step m (d_set k v) (a_replaced (m !! k)) (<[k := v]> m)
  | m_remove k : map_step m (d_remove k) (a_value (default 0 (m !! k))) (delete k m)
  | m_get k : map_step m (d_get k) (a_value (default 0 (k ← k; m !! k))) m
  | m_is_set k : map_step m (d_is_set k) (a_bool (bool_decide (is_Some (m !! k)))) m
  | m_get_keys v keys : (forall k, k ∈ keys <-> exists w, m !! k = Some w /\ w <> 0 /\ (v = 0 \/ w = v)) -> map_step m (d_get_keys v) (a_keys keys) m
  | m_count : map_step m d_count (a_count (Z.of_nat (size m))) m
  | m_is_empty : map_step m d_is_empty (a_bool (bool_decide (m = ∅))) m
  | m_clear l : l ≡ₚ (map_to_list m).*2 -> map_step m d_clear (a_freed l) ∅.
Inductive map_run (m : gmap string Z) : list dict_op -> list dict_answer -> gmap string Z -> Prop :=
  | map_done : map_run m [] [] m
  | map_more o a m' l r m'' : map_step m o a m' -> map_run m' l r m'' -> map_run m (o :: l) (a :: r) m''.

Lemma dict_all_keys_spec d : dict_ok d ->
  exists keys, impl_dict_get_keys d 0 = Some keys /\ forall k, k ∈ keys <-> exists w, dict_map d !! k = Some w /\ w <> 0.
Proof.
  intros H. unfold impl_dict_get_keys, impl_dict_for_each. cbn [Z.eqb].
  destruct (each_pair_inv key_collector (fun done keys => forall k, k ∈ keys <-> exists w, (k, w) ∈ done /\ w <> 0)
    (concat (items d)) []) as (keys & -> & Hk).
  - intros k. rewrite elem_of_nil. split; [done|]. intros (w & Hw & _). by apply elem_of_nil in Hw.
  - intros done k v keys Hin Hk. unfold key_collector.
    destruct (Z.eqb_spec v 0) as [->|]; eexists; (split; [done|]); intros k'; setoid_rewrite elem_of_app;
      setoid_rewrite list_elem_of_singleton; rewrite Hk; naive_solver.
  - cbn [mbind option_bind]. exists keys. split; [done|]. intros k. rewrite Hk. by setoid_rewrite dict_map_elem.
Qed.
Lemma dict_step_map d o : dict_ok d -> exists a d', dict_step d o = Some (a, d') /\ dict_ok d' /\ map_step (dict_map d) o a (dict_map d').
Proof.
  intros H. destruct o as [k v|k|k|k|v| | |]; cbn [dict_step].
  - destruct (dict_set_spec d k v H) as (d' & -> & Hok & E). eexists _, d'. split; [done|]. split; [done|]. rewrite E. constructor.
  - destruct (dict_remove_spec d k H) as (d' & -> & Hok & E). eexists _, d'. split; [done|]. split; [done|]. rewrite E. constructor.
  - exists (a_value (default 0 (k ← k; dict_map d !! k))), d. split; [|split; [done|constructor]].
    destruct k as [k|]; [by rewrite dict_get_spec|by rewrite dict_get_null].
  - rewrite dict_is_set_spec by done. eexists _, d. split; [done|]. split; [done|constructor].
  - destruct (decide (v = 0)) as [->|Hv].
    + destruct (dict_all_keys_spec d H) as (keys & -> & Hk). eexists _, d. split; [done|]. split; [done|]. constructor. naive_solver.
    + destruct (dict_get_keys_spec d v H Hv) as (keys & -> & Hk). eexists _, d. split; [done|]. split; [done|]. constructor. naive_solver.
  - rewrite dict_count_spec by done. eexists _, d. split; [done|]. split; [done|constructor].
  - rewrite dict_is_empty_spec by done. eexists _, d. split; [done|]. split; [done|constructor].
  - destruct (dict_clear_spec d H) as (Hok & E & P). destruct (impl_dict_clear d) as [l d'] eqn:Ed. cbn [snd fst] in *. eexists _, d'. split; [done|].
    split; [done|]. rewrite E. constructor. by rewrite P, (dict_pairs_perm d H).
Qed.

(** C28: a dictionary with any number of slots, used by any sequence of setting,
    removing, reading, testing, counting, collecting keys and clearing, never
    leaves its array of slots and answers every time what a finite map answers. *)
Theorem dict_refines_map n l : (0 < n)%nat -> exists d0 r d, ov_dict_create n = Some d0 /\ dict_run d0 l = Some (r, d) /\ map_run ∅ l r (dict_map d).
Proof.
  intros Hn. destruct (dict_create_spec n Hn) as (d0 & E0 & Hok & Em). exists d0. rewrite <- Em. clear Em.
  assert (forall d, dict_ok d -> exists r d', dict_run d l = Some (r, d') /\ map_run (dict_map d) l r (dict_map d')) as H.
  { induction l as [|o l IH]; intros d H; [exists [], d; split; [done|constructor]|]. cbn [dict_run].
    destruct (dict_step_map d o H) as (a & d1 & -> & H1 & Hs). cbn [mbind option_bind].
    destruct (IH d1 H1) as (r & d2 & -> & Hr). eexists _, d2. split; [done|]. by econstructor. }
  destruct (H d0 Hok) as (r & d & E & Hr). by exists r, d.
Qed.
Lemma dict_refines_map_witness : exists d0 r d, ov_dict_create 1 = Some d0 /\
  dict_run d0 [d_set "a" 1; d_set "b" 2; d_set "a" 3; d_get (Some "a"); d_remove "b"; d_count] = Some (r, d) /\
  map_run ∅ [d_set "a" 1; d_set "b" 2; d_set "a" 3; d_get (Some "a"); d_remove "b"; d_count] r (dict_map d).
Proof. apply (dict_refines_map 1 [d_set "a" 1; d_set "b" 2; d_set "a" 3; d_get (Some "a"); d_remove "b"; d_count]). lia. Defined.
