(* ===== verification/OvList.v ===== *)
(** * The contract of a list (src/lib/ov_base/include/ov_list.h)

    What the methods of [ov_list] do to the sequence of the items, for the
    clients of lists and for the implementations. An item is a pointer, a [Z];
    positions count from 1; a position behind the end makes the list longer
    with [NULL] items. *)
From S2P Require Import Prelude.

(** Up to [n] items, filled with [NULL]. *)
Definition pad_to (n : nat) (xs : list Z) : list Z := xs ++ replicate (n - length xs) 0.

Definition list_get (xs : list Z) (pos : nat) : Z :=
  match pos with O => 0 | S i => default 0 (xs !! i) end.
(** The item, or 0, and the list without it. *)
Definition list_remove (xs : list Z) (pos : nat) : Z * list Z :=
  match pos with
  | O => (0, xs)
  | S i => match xs !! i with Some x => (x, delete i xs) | None => (0, xs) end
  end.
Definition list_insert (xs : list Z) (pos : nat) (item : Z) : bool * list Z :=
  match pos with
  | O => (false, xs)
  | S i => let xs := pad_to i xs in (true, take i xs ++ item :: drop i xs)
  end.
(** Whether it succeeds, the item that was replaced, if there was one at the
    position, and the list. *)
Definition list_set (xs : list Z) (pos : nat) (item : Z) : bool * option Z * list Z :=
  match pos with
  | O => (false, None, xs)
  | S i => match xs !! i with
           | Some old => (true, Some old, <[i := item]> xs)
           | None => (true, None, pad_to i xs ++ [item])
           end
  end.
Definition list_push (xs : list Z) (item : Z) : list Z := xs ++ [item].
Definition list_pop (xs : list Z) : Z * list Z := (default 0 (last xs), removelast xs).
(** The position of the first occurrence, 0 for none and for [NULL]. *)
Fixpoint find_pos (xs : list Z) (item : Z) (count : nat) : nat :=
  match xs with
  | [] => O
  | x :: xs => if x =? item then count else find_pos xs item (S count)
  end.
Definition list_get_pos (xs : list Z) (item : Z) : nat := if item =? 0 then O else find_pos xs item 1.
(** A callback on every item, up to the first that fails. *)
Fixpoint list_for_each {S} (xs : list Z) (f : Z -> S -> bool * S) (s : S) : bool * S :=
  match xs with
  | [] => (true, s)
  | x :: xs => let '(ok, s) := f x s in if ok then list_for_each xs f s else (false, s)
  end.

Lemma pad_to_le n xs : (n <= length xs)%nat -> pad_to n xs = xs.
Proof. intros H. unfold pad_to. replace (n - length xs)%nat with O by lia. apply app_nil_r. Qed.
Lemma length_pad_to n xs : length (pad_to n xs) = Nat.max n (length xs).
Proof. unfold pad_to. rewrite length_app, length_replicate. lia. Qed.
