(* ===== verification/Buffer.v ===== *)
(** * Buffers (src/lib/ov_base/src/buffer/ov_buffer.c)

    A buffer is a block of octets of the heap with a length and a capacity. The
    record is the struct; the size of the block, which only the allocator knows, is
    a field of its own: where a buffer grows decides whether there is an octet
    behind the capacity. The cache of released buffers is not enabled. What
    [realloc] leaves behind the old octets is arbitrary ([junk]).

    [BufferSpec.v] says what the operations do: [holds], the buffer's block is
    allocated and starts with the given octets, and [moved], the memory outside of
    the block is left alone. *)
From S2P Require Import Prelude CMem.

(** ** The code *)

Record ov_buffer := { b_start : Z; b_length : Z; b_capacity : Z; b_block : Z }.
Definition with_length (b : ov_buffer) (n : Z) : ov_buffer :=
  {| b_start := b_start b; b_length := n; b_capacity := b_capacity b; b_block := b_block b |}.
Definition SIZE_MAX : Z := 2 ^ 64 - 1.

(** The C library: [free], [realloc] and [strlen]. *)
Definition free (m : mem) (p block : Z) : mem := if p =? NULL then m else dealloc m p block.
Definition realloc (junk : Z) (m : mem) (p block size : Z) : option (Z * mem) :=
  if size =? 0 then None else
  if (p =? NULL) then Some (fresh m, write m (fresh m) (replicate (Z.to_nat size) (u8 junk))) else
  if block =? 0 then None else
  l ← loadn m p (Z.to_nat (Z.min block size));
  let q := fresh m in
  Some (q, free (write m q (l ++ replicate (Z.to_nat (size - block)) (u8 junk))) p block).
Fixpoint string_at (fuel : nat) (m : mem) (p : Z) : option (list Z) :=
  match fuel with
  | O => None
  | S fuel => c ← load8 m p; if c =? 0 then Some [] else l ← string_at fuel m (p + 1); Some (c :: l)
  end.
(** A string ends before the memory does. *)
Definition c_string_at (m : mem) (p : Z) : option (list Z) := string_at (S (size m)) m p.
Definition strlen (m : mem) (p : Z) : option Z := Zlen <$> c_string_at m p.

Definition adapt_size_nocheck (m : mem) (buffer : ov_buffer) (size : Z) : option (bool * ov_buffer * mem) :=
  if size <? 1 then Some (false, buffer, m) else
  if size <=? b_capacity buffer then Some (true, buffer, m) else
  let '(buffer, m) :=
    if b_capacity buffer =? 0 then (buffer, m)
    else ({| b_start := 0; b_length := b_length buffer; b_capacity := 0; b_block := 0 |}, free m (b_start buffer) (b_block buffer)) in
  _ ← OV_ASSERT (b_capacity buffer =? 0);
  if size =? SIZE_MAX then Some (false, buffer, m) else
  let '(p, m) := calloc m (size + 1) in
  Some (true, {| b_start := p; b_length := 0; b_capacity := size; b_block := size + 1 |}, m).
Definition buffer_create (m : mem) (min_size : Z) : option (option ov_buffer * mem) :=
  let buffer := {| b_start := 0; b_length := 0; b_capacity := 0; b_block := 0 |} in
  if min_size =? 0 then Some (Some buffer, m) else
  '(ok, buffer, m) ← adapt_size_nocheck m buffer min_size;
  if negb ok then Some (None, m) else
  _ ← OV_ASSERT (min_size <=? b_capacity buffer); Some (Some buffer, m).
Definition ov_buffer_create (m : mem) (size : Z) : option (ov_buffer * mem) :=
  '(buffer, m) ← buffer_create m size;
  buffer ← buffer;
  _ ← OV_ASSERT (size <=? b_capacity buffer);
  _ ← OV_ASSERT (b_length buffer =? 0);
  Some (buffer, m).
Definition ov_buffer_len (self : option ov_buffer) : Z := match self with None => -1 | Some b => b_length b end.
Definition ov_buffer_data (self : option ov_buffer) : Z := match self with None => 0 | Some b => b_start b end.

Definition ov_buffer_extend (junk : Z) (m : mem) (buffer : ov_buffer) (size : Z) : option (bool * ov_buffer * mem) :=
  if size =? 0 then Some (false, buffer, m) else
  let new_size := u64 (b_capacity buffer + size) in
  '(new_start, m) ← realloc junk m (b_start buffer) (b_block buffer) new_size;
  m ← memset m (new_start + b_length buffer) 0 (u64 (new_size - b_length buffer));
  Some (true, {| b_start := new_start; b_length := b_length buffer; b_capacity := new_size; b_block := new_size |}, m).

Definition ov_buffer_set (m : mem) (buffer : ov_buffer) (data length : Z) : option (bool * ov_buffer * mem) :=
  if (data =? NULL) || (length <? 1) then Some (false, buffer, m) else
  '(ok, buffer, m) ← adapt_size_nocheck m buffer length;
  if negb ok then Some (false, buffer, m) else
  _ ← OV_ASSERT (length <=? b_capacity buffer);
  _ ← OV_ASSERT (negb (b_start buffer =? NULL));
  m ← memcpy m (b_start buffer) data length;
  Some (true, with_length buffer length, m).

Definition ov_buffer_clear (m : mem) (buffer : ov_buffer) : option (bool * ov_buffer * mem) :=
  let buffer := if b_capacity buffer =? 0
                then {| b_start := 0; b_length := 0; b_capacity := 0; b_block := b_block buffer |} else buffer in
  if b_start buffer =? NULL then Some (true, buffer, m) else
  m ← memset m (b_start buffer) 0 (b_capacity buffer);
  Some (true, with_length buffer 0, m).
(** What the pointer is afterwards: [NULL]; the memory without the block. *)
Definition ov_buffer_free_uncached (m : mem) (buffer : ov_buffer) : mem :=
  free m (if b_capacity buffer =? 0 then 0 else b_start buffer) (b_block buffer).
Definition ov_buffer_free (m : mem) (buffer : option ov_buffer) : option mem :=
  match buffer with
  | None => Some m
  | Some buffer =>
      m ← (if b_capacity buffer =? 0 then Some m else memset m (b_start buffer) 0 (b_capacity buffer));
      Some (ov_buffer_free_uncached m buffer)
  end.

(** The destination, if there is one, keeps its block when it is large enough. On
    an error the copy that was made is released. *)
Definition ov_buffer_copy (m : mem) (destination : option ov_buffer) (orig : option ov_buffer) : option (option ov_buffer * mem) :=
  match orig with
  | None => Some (None, m)
  | Some orig =>
      '(copy, m) ← (match destination with Some copy => Some (copy, m) | None => ov_buffer_create m (b_length orig) end);
      if b_length orig =? 0 then Some (Some (with_length copy 0), m) else
      '(ok, copy', m) ← ov_buffer_set m copy (b_start orig) (b_length orig);
      if ok : bool then Some (Some copy', m) else
      match destination with Some _ => Some (None, m) | None => m ← ov_buffer_free m (Some copy'); Some (None, m) end
  end.
Definition ov_buffer_from_string (m : mem) (string : Z) : option (option ov_buffer * mem) :=
  if string =? NULL then Some (None, m) else
  len ← strlen m string;
  '(buffer, m) ← ov_buffer_create m (len + 1);
  '(ok, buffer, m) ← ov_buffer_set m buffer string len;
  if ok : bool then m ← store8 m (b_start buffer + b_length buffer) 0; Some (Some buffer, m)
  else m ← ov_buffer_free m (Some buffer); Some (None, m).
Definition ov_buffer_concat (junk : Z) (m : mem) (b1 b2 : option ov_buffer) : option (option ov_buffer * mem) :=
  match b1, b2 with
  | None, _ => ov_buffer_copy m None b2
  | Some b1, None => Some (Some b1, m)
  | Some b1, Some b2 =>
      let len1 := b_length b1 in let len2 := b_length b2 in
      '(_, b1, m) ← ov_buffer_extend junk m b1 (u64 (len1 + len2));
      _ ← OV_ASSERT (u64 (len1 + len2) <=? b_capacity b1);
      m ← memcpy m (b_start b1 + len1) (b_start b2) len2;
      Some (Some (with_length b1 (u64 (len1 + len2))), m)
  end.
Definition ov_buffer_equals (m : mem) (self : option ov_buffer) (refstr : Z) : option bool :=
  match self with
  | None => Some (refstr =? NULL)
  | Some b =>
      if refstr =? NULL then Some false else
      l ← c_string_at m refstr;
      if negb (Zlen l =? b_length b) then Some false else
      data ← loadn m (b_start b) (Z.to_nat (b_length b)); Some (bool_decide (data = l))
  end.

Definition ov_buffer_push (junk : Z) (m : mem) (buffer : ov_buffer) (data size : Z) : option (bool * ov_buffer * mem) :=
  if (data =? NULL) || (size <? 1) then Some (false, buffer, m) else
  let new_length := u64 (b_length buffer + size) in
  '(buffer, m) ← (if b_capacity buffer =? 0 then
                    let old_data := b_start buffer in
                    let '(p, m) := calloc m (new_length + 1) in
                    m ← memcpy m p old_data (b_length buffer);
                    Some ({| b_start := p; b_length := b_length buffer; b_capacity := new_length; b_block := new_length + 1 |}, m)
                  else Some (buffer, m));
  '(buffer, m) ← (if b_capacity buffer <? new_length then
                    '(p, m) ← realloc junk m (b_start buffer) (b_block buffer) (new_length + 1);
                    Some ({| b_start := p; b_length := b_length buffer; b_capacity := new_length; b_block := new_length + 1 |}, m)
                  else Some (buffer, m));
  m ← memcpy m (b_start buffer + b_length buffer) data size;
  Some (true, with_length buffer (u64 (b_length buffer + size)), m).
(** The octets that stay go through a local array. *)
Definition ov_buffer_shift_length (m : mem) (buffer : ov_buffer) (length : Z) : option (bool * ov_buffer * mem) :=
  if b_start buffer =? NULL then Some (false, buffer, m) else
  if length =? 0 then Some (true, buffer, m) else
  if b_length buffer <? length then Some (false, buffer, m) else
  if length =? b_length buffer then ov_buffer_clear m buffer else
  let size := b_length buffer - length in
  '(r, m) ← with_local m (zeros size) (fun temp m =>
    m ← memcpy m temp (b_start buffer + length) size;
    '(ok, buffer, m) ← ov_buffer_clear m buffer;
    if negb ok then Some ((false, buffer), m) else
    '(ok, buffer, m) ← ov_buffer_set m buffer temp size; Some ((ok, buffer), m));
  Some (r, m).
Definition ov_buffer_shift (m : mem) (buffer : ov_buffer) (next : Z) : option (bool * ov_buffer * mem) :=
  if (b_start buffer =? NULL) || (next =? NULL) then Some (false, buffer, m) else
  let length := next - b_start buffer in
  if length <? 0 then Some (false, buffer, m) else
  if b_length buffer <? length then Some (false, buffer, m) else
  if length =? b_length buffer then ov_buffer_clear m buffer else
  ov_buffer_shift_length m buffer length.
