(* ===== verification/BufferSpec.v ===== *)
(** * What buffers do

    [holds m b l]: the buffer [b] contains the octets [l]. [moved m b m' b']: but for
    the block of the buffer, which may be another, the memory is the same. Every
    operation of [Buffer.v] acts on [l] as its name says, and moves. *)
From S2P Require Import Prelude CMem Buffer.

Definition in_block (b : ov_buffer) (q : Z) : Prop := b_start b <= q < b_start b + b_block b.
#[export] Instance in_block_dec b q : Decision (in_block b q).
Proof. unfold in_block. apply _. Defined.
#[export] Typeclasses Opaque in_block.
Definition holds_with (m : mem) (b : ov_buffer) (l rest : list Z) : Prop :=
  region m (b_start b) (l ++ rest) /\ bytes l /\ Zlen l = b_length b /\ Zlen (l ++ rest) = b_block b /\
  b_length b <= b_capacity b <= b_block b /\ 0 < b_capacity b /\ b_block b < 2 ^ 63.
Definition holds (m : mem) (b : ov_buffer) (l : list Z) : Prop := exists rest, holds_with m b l rest.
Definition no_block (b : ov_buffer) : Prop := b_start b = 0 /\ b_length b = 0 /\ b_capacity b = 0 /\ b_block b = 0.
Definition empty_buffer : ov_buffer := {| b_start := 0; b_length := 0; b_capacity := 0; b_block := 0 |}.
(** A buffer without a block contains nothing. *)
Definition owns (m : mem) (b : ov_buffer) (l : list Z) : Prop := holds m b l \/ no_block b /\ l = [].
Definition outside (m : mem) (b : ov_buffer) (q : Z) : option Z := if decide (b_start b <= q < b_start b + b_block b) then None else m !! q.
Definition moved (m : mem) (b : ov_buffer) (m' : mem) (b' : ov_buffer) : Prop := forall q, outside m' b' q = outside m b q.
(** Octets that are not in the block. *)
Definition beside (m : mem) (b : ov_buffer) (p : Z) (l : list Z) : Prop := region m p l /\ forall q, p <= q < p + Zlen l -> ~ in_block b q.

Lemma moved_refl m b : moved m b m b.
Proof. by intros q. Qed.
Lemma moved_trans m b m1 b1 m2 b2 : moved m b m1 b1 -> moved m1 b1 m2 b2 -> moved m b m2 b2.
Proof. intros H1 H2 q. by rewrite H2, H1. Qed.
Lemma moved_keeps m b m' b' q x : moved m b m' b' -> m !! q = Some x -> ~ in_block b q -> m' !! q = Some x /\ ~ in_block b' q.
Proof. intros H Hq Hb. specialize (H q). unfold outside, in_block in *.
  rewrite (decide_False (P := b_start b <= q < b_start b + b_block b)), Hq in H by done. by case_decide. Qed.
Lemma moved_beside m b m' b' p l : moved m b m' b' -> beside m b p l -> beside m' b' p l.
Proof.
  intros H [[Hp Hl] Hb]. assert (Hi : forall i, 0 <= i < Zlen l -> m' !! (p + i) = Some l.[i] /\ ~ in_block b' (p + i)).
  { intros i Hi. apply (moved_keeps m b); [done|by apply Hl|]. apply Hb. lia. }
  split; [split; [done|]; intros i Hi'; by apply Hi|]. intros q Hq. replace q with (p + (q - p)) by lia. apply Hi. lia.
Qed.
(** Writing in the block. *)
Lemma moved_write m b b' q bs : b_start b' = b_start b -> b_block b' = b_block b -> b_start b <= q -> q + Zlen bs <= b_start b + b_block b ->
  moved m b (write m q bs) b'.
Proof.
  intros E1 E2 H1 H2 x. unfold outside, in_block. rewrite E1, E2. case_decide as Hx; [done|]. rewrite lookup_write_out; [done|]. lia.
Qed.
Lemma moved_same m b m' b' : b_start b' = b_start b -> b_block b' = b_block b -> (forall q, ~ in_block b q -> m' !! q = m !! q) -> moved m b m' b'.
Proof. intros E1 E2 H q. unfold outside. rewrite E1, E2. case_decide as Hq; [done|]. by apply H. Qed.
Lemma fresh_None m q : fresh m <= q -> m !! q = None.
Proof. intros Hq. apply eq_None_not_Some. intros Hs. apply (proj2 (fresh_spec m)) in Hs. lia. Qed.
(** A block that was not allocated. *)
Lemma moved_fresh m b b' bs : b_block b = 0 -> b_start b' = fresh m -> b_block b' = Zlen bs -> moved m b (write m (fresh m) bs) b'.
Proof.
  intros E0 E1 E2 q. unfold outside, in_block. rewrite E0, E1, E2, (decide_False (P := b_start b <= q < b_start b + 0)) by lia.
  case_decide as Hq; [by rewrite fresh_None by lia|]. by rewrite lookup_write_out by lia.
Qed.
Lemma moved_free m b b' : 0 < b_start b -> b_block b' = 0 -> moved m b (free m (b_start b) (b_block b)) b'.
Proof.
  intros Hp E q. unfold outside, in_block, free, NULL. rewrite E, (proj2 (Z.eqb_neq (b_start b) 0)), lookup_dealloc by lia.
  by rewrite (decide_False (P := b_start b' <= q < b_start b' + 0)) by lia.
Qed.
Lemma lookup_free m b q : 0 < b_start b -> free m (b_start b) (b_block b) !! q = if decide (in_block b q) then None else m !! q.
Proof. intros H. unfold free, NULL, in_block. rewrite (proj2 (Z.eqb_neq _ _)) by lia. apply lookup_dealloc. Qed.

Lemma holds_mapped m b l : holds m b l -> mapped m (b_start b) (b_block b).
Proof. intros (rest & H & _ & _ & E & _). rewrite <- E. by apply region_mapped. Qed.
Lemma holds_facts m b l : holds m b l -> bytes l /\ Zlen l = b_length b /\ 0 < b_start b /\ b_length b <= b_capacity b <= b_block b /\
  0 < b_capacity b /\ b_block b < 2 ^ 63.
Proof. intros (rest & [Hp _] & H). repeat split; lia || apply H. Qed.
Lemma holds_region m b l : holds m b l -> region m (b_start b) l.
Proof. intros (rest & H & _). by eapply region_app_l. Qed.
Lemma holds_moved m b l b0 m' b0' : holds m b l -> moved m b0 m' b0' -> (forall q, in_block b q -> ~ in_block b0 q) -> holds m' b l /\
  forall q, in_block b q -> ~ in_block b0' q.
Proof.
  intros (rest & Hr & H2 & H3 & H4 & H) Hm Hd. destruct (moved_beside m b0 m' b0' (b_start b) (l ++ rest) Hm) as [Hr' Hb'].
  - split; [done|]. intros q Hq. apply Hd. unfold in_block. by rewrite <- H4.
  - split; [exists rest; split; [done|split; [done|split; [done|split; done]]]|]. intros q Hq. apply Hb'. unfold in_block in Hq. by rewrite H4.
Qed.

(** A new block. *)
Lemma calloc_holds m size b m' : 0 < size < 2 ^ 63 - 1 -> (b, m') = calloc m (size + 1) ->
  holds_with m' {| b_start := b; b_length := 0; b_capacity := size; b_block := size + 1 |} [] (zeros (size + 1)).
Proof.
  intros Hs E. symmetry in E. pose proof (calloc_region m _ _ _ E ltac:(lia)) as H. unfold holds_with. cbn [app b_start b_length b_capacity b_block].
  split; [done|]. split; [constructor|]. split; [done|]. split; [|lia]. rewrite Zlen_zeros. lia.
Qed.
Lemma buffer_create_spec m size : 0 < size < 2 ^ 63 - 1 -> exists b m', ov_buffer_create m size = Some (b, m') /\
  holds_with m' b [] (zeros (size + 1)) /\ b_capacity b = size /\ moved m empty_buffer m' b.
Proof.
  intros Hs. unfold ov_buffer_create, buffer_create, adapt_size_nocheck, SIZE_MAX. cbn [b_capacity b_start b_length b_block].
  rewrite (proj2 (Z.eqb_neq size 0)), (proj2 (Z.ltb_ge size 1)), (proj2 (Z.leb_gt size 0)) by lia. cbn [Z.eqb OV_ASSERT mbind option_bind].
  rewrite (proj2 (Z.eqb_neq size (2 ^ 64 - 1))) by lia. destruct (calloc m (size + 1)) as [p m'] eqn:E. cbn [mbind option_bind negb b_capacity b_length Z.eqb].
  unfold OV_ASSERT. do 2 (cbn [mbind option_bind negb b_capacity b_length Z.eqb]; rewrite Z.leb_refl).
  cbn [mbind option_bind b_length Z.eqb].
  eexists _, _. split; [done|]. split; [by apply (calloc_holds m size p m')|]. split; [done|].
  injection E as <- <-. apply moved_fresh; [done|done|]. cbn [b_block]. rewrite Zlen_zeros. lia.
Qed.
Lemma create_empty m : ov_buffer_create m 0 = Some (empty_buffer, m).
Proof. done. Qed.

(** [adapt_size_nocheck]: room for [size] octets; the old ones are kept when there
    is room already. *)
Lemma adapt_spec m b l size : owns m b l -> 0 < size < 2 ^ 63 - 1 -> exists b' m', adapt_size_nocheck m b size = Some (true, b', m') /\
  0 < b_start b' /\ size <= b_capacity b' <= b_block b' /\ b_block b' < 2 ^ 63 /\ mapped m' (b_start b') (b_block b') /\ moved m b m' b' /\
  b_capacity b' = Z.max (b_capacity b) size.
Proof.
  intros Ho Hs. unfold adapt_size_nocheck, SIZE_MAX. rewrite (proj2 (Z.ltb_ge size 1)) by lia.
  destruct (Z.leb_spec size (b_capacity b)) as [Hc|Hc].
  - destruct Ho as [Hh|[(_ & _ & E & _) _]]; [|lia]. destruct (holds_facts m b l Hh) as (_ & _ & H1 & H2 & H3 & H4).
    exists b, m. split; [done|]. split; [done|]. split; [lia|]. split; [lia|]. split; [by eapply holds_mapped|]. split; [apply moved_refl|lia].
  - assert (E : exists m1 b1, (if b_capacity b =? 0 then (b, m) else ({| b_start := 0; b_length := b_length b; b_capacity := 0; b_block := 0 |},
      free m (b_start b) (b_block b))) = (b1, m1) /\
      b_capacity b1 = 0 /\ b_block b1 = 0 /\ moved m b m1 b1).
    { destruct (Z.eqb_spec (b_capacity b) 0) as [E|E].
      - destruct Ho as [Hh|[(_ & _ & _ & E') _]]; [apply holds_facts in Hh; lia|]. exists m, b. split; [done|]. split; [done|]. split; [done|].
        apply moved_refl.
      - eexists _, _. split; [done|]. split; [done|]. split; [done|]. apply moved_free; [|done].
        destruct Ho as [Hh|[(_ & _ & E' & _) _]]; [apply holds_facts in Hh|]; lia. }
    destruct E as (m1 & b1 & -> & E1 & E2 & M1). rewrite E1. cbn [Z.eqb OV_ASSERT mbind option_bind]. rewrite (proj2 (Z.eqb_neq size (2 ^ 64 - 1))) by lia.
    destruct (calloc m1 (size + 1)) as [p m'] eqn:E. pose proof (calloc_holds m1 size p m' Hs ltac:(done)) as Hh.
    eexists _, _. split; [done|]. cbn [b_start b_capacity b_block]. destruct (holds_facts _ _ _ (ex_intro _ _ Hh)) as (_ & _ & H1 & _). cbn [b_start] in H1.
    split; [done|]. split; [lia|]. split; [lia|]. split; [apply (holds_mapped _ _ _ (ex_intro _ _ Hh))|]. split; [|lia].
    eapply moved_trans; [exact M1|]. injection E as <- <-. apply moved_fresh; [done|done|]. cbn [b_block]. rewrite Zlen_zeros. lia.
Qed.
Lemma region_buffer m b n l : mapped m (b_start b) (b_block b) -> region m (b_start b) l -> Zlen l = n -> n <= b_capacity b <= b_block b -> 0 < b_capacity b ->
  b_block b < 2 ^ 63 -> bytes l -> holds m (with_length b n) l.
Proof.
  intros Hm [Hp Hr] H2 H3 H4 H5 Hl. pose proof (Zlen_nonneg l).
  set (rest := (fun i => default 0 (m !! (b_start b + i))) <$> seqZ n (b_block b - n)).
  assert (Hrest : Zlen rest = b_block b - n) by (unfold rest, Zlen; rewrite length_fmap, length_seqZ; lia).
  exists rest. unfold holds_with. cbn [b_start b_length b_capacity b_block with_length]. rewrite Zlen_app, Hrest.
  split; [|split; [done|]; lia]. split; [done|]. rewrite Zlen_app, Hrest. intros i Hi. destruct (decide (i < n)) as [Hin|Hin].
  - rewrite znth_app_l by lia. apply Hr. lia.
  - rewrite znth_app_r by lia. destruct (proj2 Hm i ltac:(lia)) as [x Hx]. rewrite Hx. f_equal. unfold rest, znth. rewrite nth_lookup, list_lookup_fmap.
    rewrite lookup_seqZ_lt by lia. cbn [fmap option_fmap option_map default from_option id].
    replace (b_start b + (n + _)) with (b_start b + i) by lia. by rewrite Hx.
Qed.
Lemma mapped_holds m b n l : mapped m (b_start b) (b_block b) -> Zlen l = n -> n <= b_capacity b <= b_block b -> 0 < b_capacity b ->
  b_block b < 2 ^ 63 -> bytes l -> holds (write m (b_start b) l) (with_length b n) l.
Proof. intros Hm H2 H3 H4 H5 Hl. apply region_buffer; try done; [by apply mapped_write|]. apply region_write, Hm. Qed.

(** ** Setting and appending *)

Lemma buffer_set_spec m b l data k : owns m b l -> beside m b data k -> bytes k -> 0 < Zlen k < 2 ^ 63 - 1 ->
  exists b' m', ov_buffer_set m b data (Zlen k) = Some (true, b', m') /\ holds m' b' k /\ moved m b m' b' /\ b_capacity b' = Z.max (b_capacity b) (Zlen k).
Proof.
  intros Ho Hd Hk Hl. destruct (adapt_spec m b l (Zlen k) Ho Hl) as (b1 & m1 & E & H1 & H2 & H3 & H4 & M1 & H5).
  destruct (moved_beside _ _ _ _ _ _ M1 Hd) as [Hr1 _]. pose proof Hr1 as [Hp _]. unfold ov_buffer_set, NULL.
  rewrite (proj2 (Z.eqb_neq data 0)), (proj2 (Z.ltb_ge (Zlen k) 1)) by lia. cbn [orb]. rewrite E. cbn [mbind option_bind negb].
  rewrite (proj2 (Z.leb_le _ _)), (proj2 (Z.eqb_neq _ _)) by lia. cbn [OV_ASSERT mbind option_bind negb].
  rewrite (memcpy_region m1 _ _ k _ (b_start b1) (b_block b1)) by (done || lia). cbn [mbind option_bind].
  eexists _, _. split; [done|]. split; [apply mapped_holds; try done; lia|]. split; [|done].
  eapply moved_trans; [exact M1|]. apply moved_write; done || lia.
Qed.

(** A region that is written again. *)
Lemma write_again m p l : region m p l -> write m p l = m.
Proof.
  intros [Hp H]. apply map_eq. intros q. rewrite lookup_write. case_decide as Hq; [|done]. specialize (H (q - p) ltac:(lia)).
  replace (p + (q - p)) with q in H by lia. done.
Qed.
Lemma write_behind m p l k : region m p l -> write m (p + Zlen l) k = write m p (l ++ k).
Proof. intros H. rewrite <- write_write. by rewrite (write_again m p l H). Qed.
Lemma realloc_spec junk m p block size full : region m p full -> Zlen full = block -> 0 < block -> 0 < size ->
  exists m' tail, realloc junk m p block size = Some (fresh m, m') /\ region m' (fresh m) (ztake size full ++ tail) /\ Zlen (ztake size full ++ tail) = size /\
    (forall b b', b_start b = p -> b_block b = block -> b_start b' = fresh m -> b_block b' = size -> moved m b m' b').
Proof.
  intros Hr Hb Hb0 Hs. pose proof Hr as [Hp _]. unfold realloc, NULL.
  rewrite (proj2 (Z.eqb_neq size 0)), (proj2 (Z.eqb_neq p 0)), (proj2 (Z.eqb_neq block 0)) by lia.
  assert (El : loadn m p (Z.to_nat (Z.min block size)) = Some (ztake size full)).
  { rewrite (loadn_region_n m p (ztake size full)); [done|by apply region_ztake|]. rewrite Zlen_ztake. lia. }
  rewrite El. cbn [mbind option_bind]. set (tail := replicate (Z.to_nat (size - block)) (u8 junk)).
  assert (Ht : Zlen tail = Z.max 0 (size - block)) by (unfold tail, Zlen; rewrite length_replicate; lia).
  assert (Hn : Zlen (ztake size full ++ tail) = size) by (rewrite Zlen_app, Zlen_ztake, Ht; lia).
  pose proof (fresh_spec m) as [Hf0 Hf]. pose proof (fresh_region_out m p full Hr ltac:(lia)) as Hout.
  eexists _, tail. split; [done|]. split; [|split; [done|]].
  - split; [lia|]. intros i Hi. unfold free, NULL. rewrite (proj2 (Z.eqb_neq p 0)) by lia. rewrite lookup_dealloc, decide_False by lia.
    rewrite lookup_write, decide_True by lia. do 2 f_equal. lia.
  - intros b b' E1 E2 E3 E4 q. unfold outside, in_block. rewrite E1, E2, E3, E4. unfold free, NULL. rewrite (proj2 (Z.eqb_neq p 0)) by lia.
    rewrite lookup_dealloc. destruct (decide (p <= q < p + block)).
    + by rewrite decide_False by lia.
    + case_decide; [by rewrite fresh_None by lia|]. by rewrite lookup_write_out by lia.
Qed.
Lemma ztake_prefix {A} n (l k : list A) : Zlen l <= n -> exists r, ztake n (l ++ k) = l ++ r.
Proof. intros H. unfold ztake, Zlen in *. rewrite take_app_ge by lia. by eexists. Qed.
(** A block that grows keeps the contents. *)
Lemma grow_spec junk m b l size : holds m b l -> b_length b <= size < 2 ^ 63 -> 0 < size ->
  exists m', realloc junk m (b_start b) (b_block b) size = Some (fresh m, m') /\
  region m' (fresh m) l /\ mapped m' (fresh m) size /\ forall b', b_start b' = fresh m -> b_block b' = size -> moved m b m' b'.
Proof.
  intros (rest & Hr & _ & Hl & Hb & Hc & Hc0 & _) Hs Hs0.
  destruct (realloc_spec junk m (b_start b) (b_block b) size (l ++ rest) Hr Hb ltac:(lia) Hs0) as (m' & tail & E & Hr' & Hn & Ho).
  destruct (ztake_prefix size l rest ltac:(lia)) as [r Er]. rewrite Er in Hr', Hn. exists m'. split; [done|]. split; [|split].
  - rewrite <- app_assoc in Hr'. by eapply region_app_l.
  - apply region_mapped in Hr'. by rewrite Hn in Hr'.
  - intros b' E1 E2. by apply Ho.
Qed.
Lemma extend_spec junk m b l size : holds m b l -> 0 < size -> b_capacity b + size < 2 ^ 63 ->
  exists b' m', ov_buffer_extend junk m b size = Some (true, b', m') /\
  b_capacity b' = b_capacity b + size /\ holds_with m' b' l (zeros (b_capacity b' - Zlen l)) /\ moved m b m' b'.
Proof.
  intros Hh Hs Hc. destruct (holds_facts m b l Hh) as (Hb & El & Hp & H1 & H2 & H3). pose proof (Zlen_nonneg l). unfold ov_buffer_extend.
  rewrite (proj2 (Z.eqb_neq size 0)), u64_id by lia.
  destruct (grow_spec junk m b l (b_capacity b + size) Hh ltac:(lia) ltac:(lia)) as (m1 & -> & Hr & Hm & Hmov). cbn [mbind option_bind].
  set (n := b_capacity b + size) in *. rewrite u64_id, <- El, (memset_0 m1 (fresh m) n) by (done || lia). cbn [mbind option_bind].
  eexists _, _. split; [done|]. cbn [b_capacity b_start b_block b_length]. split; [done|]. split.
  - unfold holds_with. cbn [b_capacity b_start b_block b_length]. rewrite Zlen_app, Zlen_zeros. split; [|split; [done|split; [done|lia]]].
    apply region_app. split; [apply region_write_out; [done|lia]|]. intros _. apply region_write. pose proof Hm as [Hp1 _]. lia.
  - eapply moved_trans; [by apply (Hmov {| b_start := fresh m; b_length := Zlen l; b_capacity := n; b_block := n |})|].
    apply moved_write; cbn [b_start b_block]; try done; [lia|]. rewrite Zlen_zeros. lia.
Qed.
Lemma append_holds m b l k : region m (b_start b) l -> mapped m (b_start b) (b_block b) -> bytes l -> bytes k -> Zlen l + Zlen k <= b_capacity b <= b_block b ->
  0 < b_capacity b -> b_block b < 2 ^ 63 -> holds (write m (b_start b + Zlen l) k) (with_length b (Zlen l + Zlen k)) (l ++ k).
Proof.
  intros Hr Hm Hl Hk Hc Hc0 Hb. rewrite write_behind by done. apply mapped_holds; try done; [by rewrite Zlen_app|by apply bytes_app].
Qed.

(** Room for [n] octets, as [ov_buffer_push] makes it. *)
Definition push_room (junk : Z) (m : mem) (b : ov_buffer) (n : Z) : option (ov_buffer * mem) :=
  '(b, m) ← (if b_capacity b =? 0 then
               let old_data := b_start b in let '(p, m) := calloc m (n + 1) in
               m ← memcpy m p old_data (b_length b);
               Some ({| b_start := p; b_length := b_length b; b_capacity := n; b_block := n + 1 |}, m)
             else Some (b, m));
  (if b_capacity b <? n then
     '(p, m) ← realloc junk m (b_start b) (b_block b) (n + 1);
     Some ({| b_start := p; b_length := b_length b; b_capacity := n; b_block := n + 1 |}, m)
   else Some (b, m)).
Lemma push_room_spec junk m b l n : owns m b l -> Zlen l <= n < 2 ^ 63 - 1 -> 0 < n -> exists b' m', push_room junk m b n = Some (b', m') /\
  region m' (b_start b') l /\ mapped m' (b_start b') (b_block b') /\ b_length b' = Zlen l /\ n <= b_capacity b' <= b_block b' /\
    b_block b' < 2 ^ 63 /\ moved m b m' b'.
Proof.
  intros [Hh|[(E1 & E2 & E3 & E4) ->]] Hn Hn0; unfold push_room.
  - destruct (holds_facts m b l Hh) as (_ & El & Hp & Hc & Hc0 & Hb). rewrite (proj2 (Z.eqb_neq _ _)) by lia. cbn [mbind option_bind].
    destruct (Z.ltb_spec (b_capacity b) n) as [Hlt|Hge].
    + destruct (grow_spec junk m b l (n + 1) Hh ltac:(lia) ltac:(lia)) as (m' & E & Hr & Hm & Hmov). rewrite E. cbn [mbind option_bind].
      eexists _, m'. split; [done|]. cbn [b_start b_length b_capacity b_block]. split; [done|]. split; [done|]. split; [done|]. split; [lia|].
      split; [lia|]. by apply Hmov.
    + exists b, m. split; [done|]. split; [by apply holds_region|]. split; [by eapply holds_mapped|]. split; [done|]. split; [lia|]. split; [lia|].
      apply moved_refl.
  - rewrite E3. cbn [Z.eqb]. destruct (calloc m (n + 1)) as [p m'] eqn:E. pose proof (calloc_region m _ _ _ E ltac:(lia)) as Hr. rewrite E2.
    change (memcpy m' p (b_start b) 0) with (Some m'). cbn [mbind option_bind b_capacity]. rewrite Z.ltb_irrefl.
    eexists _, m'. split; [done|]. cbn [b_start b_length b_capacity b_block]. split; [split; [apply Hr|intros i Hi; change (Zlen (@nil Z)) with 0 in Hi; lia]|].
    apply region_mapped in Hr. rewrite Zlen_zeros in Hr. replace (Z.max (n + 1) 0) with (n + 1) in Hr by lia.
    split; [done|]. split; [done|]. split; [lia|]. split; [lia|]. injection E as <- <-. apply moved_fresh; [done|done|]. cbn [b_block]. rewrite Zlen_zeros. lia.
Qed.
Lemma buffer_push_spec junk m b l data k : owns m b l -> beside m b data k -> bytes k -> 0 < Zlen k -> Zlen l + Zlen k < 2 ^ 63 - 1 ->
  exists b' m', ov_buffer_push junk m b data (Zlen k) = Some (true, b', m') /\ holds m' b' (l ++ k) /\ moved m b m' b'.
Proof.
  intros Ho Hd Hk Hk0 Hl. pose proof (Zlen_nonneg l). assert (Hlb : b_length b = Zlen l /\ bytes l).
  { destruct Ho as [Hh|[(_ & E & _) ->]]; [apply holds_facts in Hh as (? & ? & _); by split|]. by split; [|constructor]. }
  destruct Hlb as [Elen Hlb]. pose proof Hd as [[Hp _] _].
  destruct (push_room_spec junk m b l (Zlen l + Zlen k) Ho ltac:(lia) ltac:(lia)) as (b1 & m1 & E & Hr & Hm & E1 & Hc & Hb & M1).
  destruct (moved_beside _ _ _ _ _ _ M1 Hd) as [Hd1 _]. pose proof Hm as [Hp1 _].
  unfold ov_buffer_push, NULL. rewrite (proj2 (Z.eqb_neq data 0)), (proj2 (Z.ltb_ge (Zlen k) 1)), Elen, u64_id by lia. cbn [orb].
  unfold push_room in E. rewrite Elen in E. destruct (if b_capacity b =? 0 then _ else _) as [[b0 m0]|]; [|done]. cbn [mbind option_bind] in *.
  rewrite E. cbn [mbind option_bind].
  rewrite E1, u64_id by lia. rewrite (memcpy_region m1 _ _ k _ (b_start b1) (b_block b1)) by (done || lia). cbn [mbind option_bind].
  eexists _, _. split; [done|]. split; [apply append_holds; done || lia|]. eapply moved_trans; [exact M1|]. apply moved_write; done || lia.
Qed.

(** ** Clearing, shifting, releasing *)

Lemma buffer_clear_spec m b l : holds m b l -> exists rest, ov_buffer_clear m b = Some (true, with_length b 0, write m (b_start b) (zeros (b_capacity b))) /\
  holds_with (write m (b_start b) (zeros (b_capacity b))) (with_length b 0) [] (zeros (b_capacity b) ++ rest).
Proof.
  intros Hh. pose proof (holds_facts m b l Hh) as (_ & _ & Hp & Hc & Hc0 & Hb). pose proof (holds_mapped m b l Hh) as Hm.
  unfold ov_buffer_clear, NULL. rewrite (proj2 (Z.eqb_neq (b_capacity b) 0)), (proj2 (Z.eqb_neq (b_start b) 0)) by lia.
  rewrite (memset_0 m (b_start b) (b_block b)) by (done || lia). cbn [mbind option_bind].
  destruct Hh as (rest & Hr & _ & _ & El & _). set (full := l ++ rest) in *. exists (zdrop (b_capacity b) full). split; [done|].
  unfold holds_with. cbn [b_start b_length b_capacity b_block with_length app]. rewrite Zlen_app, Zlen_zeros, Zlen_zdrop.
  split; [|split; [constructor|]; split; [done|]; lia]. rewrite <- (ztake_zdrop (b_capacity b) full) in Hr.
  apply (region_write_mid _ _ [] (ztake (b_capacity b) full)); [done|rewrite Zlen_zeros, Zlen_ztake; lia|]. by rewrite Zlen_nil, Z.add_0_r.
Qed.
Lemma buffer_free_spec m b l : owns m b l -> exists m', ov_buffer_free m (Some b) = Some m' /\ forall q, m' !! q = outside m b q.
Proof.
  intros [Hh|[(E1 & E2 & E3 & E4) _]]; unfold ov_buffer_free, ov_buffer_free_uncached.
  - pose proof (holds_facts m b l Hh) as (_ & _ & Hp & Hc & Hc0 & Hb). pose proof (holds_mapped m b l Hh) as Hm.
    rewrite (proj2 (Z.eqb_neq (b_capacity b) 0)) by lia. rewrite (memset_0 m (b_start b) (b_block b)) by (done || lia). cbn [mbind option_bind].
    eexists. split; [done|]. intros q. rewrite lookup_free by done. unfold outside. case_decide as Hq; unfold in_block in Hq; [by rewrite decide_True|].
    rewrite decide_False by done. apply lookup_write_out. rewrite Zlen_zeros. lia.
  - rewrite E3. cbn [Z.eqb mbind option_bind]. exists m. split; [done|]. intros q. unfold outside. rewrite decide_False by lia. done.
Qed.
Lemma holds_outside m m' b l : holds m b l -> (forall q, in_block b q -> m' !! q = m !! q) -> holds m' b l.
Proof.
  intros (rest & [Hp Hr] & H2 & H3 & H4 & H) E. exists rest. split; [|by repeat split; try apply H]. split; [done|]. intros i Hi.
  rewrite E; [by apply Hr|]. unfold in_block. lia.
Qed.
Lemma shift_length_spec m b l1 l2 : holds m b (l1 ++ l2) -> exists b' m', ov_buffer_shift_length m b (Zlen l1) = Some (true, b', m') /\
  holds m' b' l2 /\ moved m b m' b' /\ b_start b' = b_start b /\ b_capacity b' = b_capacity b.
Proof.
  intros Hh. pose proof (holds_facts m b _ Hh) as (Hby & El & Hp & Hc & Hc0 & Hb). rewrite Zlen_app in El. pose proof (Zlen_nonneg l1).
  pose proof (Zlen_nonneg l2).
  unfold ov_buffer_shift_length, NULL. rewrite (proj2 (Z.eqb_neq (b_start b) 0)) by lia. destruct (Z.eqb_spec (Zlen l1) 0) as [E0|E0].
  { apply Zlen_0_nil in E0 as ->. exists b, m. split; [done|]. split; [done|]. split; [apply moved_refl|done]. }
  rewrite (proj2 (Z.ltb_ge _ _)) by lia. destruct (Z.eqb_spec (Zlen l1) (b_length b)) as [E1|E1].
  { assert (l2 = []) as -> by (apply Zlen_0_nil; lia). destruct (buffer_clear_spec m b _ Hh) as (rest & E & Hc'). rewrite E. eexists _, _. split; [done|].
    split; [by eexists|]. split; [|done]. apply moved_same; [done|done|]. intros q Hq. apply lookup_write_out. unfold in_block in Hq. rewrite Zlen_zeros. lia. }
  apply bytes_app in Hby as [Hb1 Hb2]. pose proof (holds_mapped m b _ Hh) as Hm. pose proof (holds_region m b _ Hh) as Hr.
  assert (Hfr : b_start b + b_block b <= fresh m).
  { destruct Hh as (rest & Hr' & _ & _ & E & _). rewrite <- E. apply (fresh_region_out m _ _ Hr'). lia. }
  unfold with_local. replace (b_length b - Zlen l1) with (Zlen l2) by lia. set (a := fresh m) in *. set (ma := write m a (zeros (Zlen l2))).
  assert (Hma : forall m', (forall q, in_block b q -> m' !! q = m !! q) -> holds m' b (l1 ++ l2)) by (intros m' Em; by apply (holds_outside m)).
  assert (Hha : holds ma b (l1 ++ l2)) by (apply Hma; intros q Hq; apply lookup_write_out; unfold in_block in Hq; lia).
  pose proof (region_app_r ma (b_start b) (b_start b + Zlen l1) l1 l2 (holds_region _ _ _ Hha) eq_refl) as Hr2.
  rewrite (memcpy_region ma a _ l2 (Zlen l2) a (Zlen l2)); [|done|done|done| |lia|lia].
  2: { split; [lia|]. intros i Hi. unfold ma. rewrite lookup_write, decide_True by (rewrite Zlen_zeros; lia). by eexists. }
  cbn [mbind option_bind]. set (m1 := write ma a l2).
  assert (Hh1 : holds m1 b (l1 ++ l2)).
  { apply Hma. intros q Hq. unfold m1, ma, in_block in *. rewrite !lookup_write_out by lia. done. }
  destruct (buffer_clear_spec m1 b _ Hh1) as (rest & -> & Hc1). cbn [mbind option_bind negb]. set (m2 := write m1 (b_start b) (zeros (b_capacity b))) in *.
  assert (Hm2 : mapped m2 (b_start b) (b_block b)) by (by apply mapped_write, (holds_mapped _ _ _ Hh1)).
  assert (Hr3 : region m2 a l2) by (apply region_write_out; [apply region_write; lia|left; rewrite Zlen_zeros; lia]).
  unfold ov_buffer_set, adapt_size_nocheck, NULL. cbn [with_length b_capacity b_start].
  rewrite (proj2 (Z.eqb_neq a 0)), (proj2 (Z.ltb_ge (Zlen l2) 1)), (proj2 (Z.leb_le (Zlen l2) (b_capacity b))) by lia.
  cbn [orb mbind option_bind negb b_capacity b_start].
  unfold OV_ASSERT. cbn [mbind option_bind with_length b_capacity b_start].
  rewrite ?(proj2 (Z.leb_le (Zlen l2) (b_capacity b))), (proj2 (Z.eqb_neq (b_start b) 0)) by lia. cbn [mbind option_bind negb].
  rewrite (memcpy_region m2 (b_start b) a l2 _ (b_start b) (b_block b)) by (done || lia). cbn [mbind option_bind].
  eexists _, _. split; [done|]. split; [|split; [apply moved_same; [done|done|]|done]].
  - apply (holds_outside (write m2 (b_start b) l2)).
    + apply (mapped_holds m2 b (Zlen l2)); done || lia.
    + intros q Hq. rewrite lookup_dealloc, decide_False; [done|]. unfold in_block in Hq. cbn [b_start b_block with_length] in Hq. lia.
  - intros q Hq. unfold in_block in Hq. rewrite lookup_dealloc. case_decide as Hd.
    + symmetry. apply eq_None_not_Some. intros Hs. apply (proj2 (fresh_spec m)) in Hs. fold a in Hs. lia.
    + rewrite Zlen_zeros in Hd. unfold m2, m1, ma. rewrite !lookup_write_out by (rewrite ?Zlen_zeros; lia). done.
Qed.
