(* ===== verification/BufferHeap.v ===== *)
(** * Several buffers at once

    [heap base items m]: the memory [m] is [base] and the blocks of the buffers of
    [items], apart from each other, each with its octets and what is behind them.
    The order of the items does not matter ([heap_perm]); an operation on the first
    one leaves the others alone ([heap_moved]), and releasing it gives the memory
    without it ([heap_free]). So at the end nothing is lost: [heap base [] m] says
    that [m] is [base]. *)
From S2P Require Import Prelude CMem Buffer BufferSpec.

Definition item : Type := ov_buffer * list Z * list Z.
Definition item_holds (m : mem) (x : item) : Prop := holds_with m x.1.1 x.1.2 x.2.
Fixpoint heap (base : mem) (items : list item) (m : mem) : Prop :=
  match items with
  | [] => m = base
  | x :: items => exists m1, heap base items m1 /\ moved m1 empty_buffer m x.1.1 /\ item_holds m x
  end.

Lemma holds_with_holds m b l rest : holds_with m b l rest -> holds m b l.
Proof. intros H. by exists rest. Qed.
Lemma holds_with_outside m m' b l rest : holds_with m b l rest -> (forall q, in_block b q -> m' !! q = m !! q) -> holds_with m' b l rest.
Proof.
  intros ([Hp Hr] & H2 & H3 & H4 & H) E. split; [|by repeat split; try apply H]. split; [done|]. intros i Hi. rewrite E; [by apply Hr|]. unfold in_block. lia.
Qed.
Lemma in_block_mapped m b l rest q : holds_with m b l rest -> in_block b q -> exists x, m !! q = Some x.
Proof. intros (Hr & _ & _ & E & _) Hq. apply region_mapped in Hr as [_ Hr]. unfold in_block in Hq. destruct (Hr (q - b_start b) ltac:(lia)) as [x Hx].
  exists x. by replace (b_start b + (q - b_start b)) with q in Hx by lia. Qed.
(** The first block was not there before. *)
Lemma new_block m1 m b q : moved m1 empty_buffer m b -> in_block b q -> m1 !! q = None.
Proof. intros M Hq. specialize (M q). unfold outside, in_block, empty_buffer in *. cbn in M. rewrite decide_True, decide_False in M by lia. done. Qed.
Lemma old_block m1 m b q : moved m1 empty_buffer m b -> ~ in_block b q -> m !! q = m1 !! q.
Proof. intros M Hq. specialize (M q). unfold outside, in_block, empty_buffer in *. cbn in M. rewrite decide_False, decide_False in M by lia. done. Qed.

Section heap.
Context (base : mem).
Lemma heap_first x items m : heap base (x :: items) m -> item_holds m x.
Proof using Type. by intros (m1 & _ & _ & H). Qed.
Lemma heap_apart x items m y q : heap base (x :: items) m -> y ∈ items -> in_block y.1.1 q -> ~ in_block x.1.1 q.
Proof using Type.
  revert x m y q. induction items as [|z items IH]; intros x m y q (m1 & H1 & M & Hx) Hy Hq Hqx; [by apply elem_of_nil in Hy|].
  assert (Hm1 : exists v, m1 !! q = Some v).
  { clear - H1 Hy Hq. revert m1 H1. induction (z :: items) as [|w l IH]; intros m1 H1; [by apply elem_of_nil in Hy|].
    destruct H1 as (m2 & H2 & M2 & Hw). apply elem_of_cons in Hy as [->|Hy].
    - eapply in_block_mapped; [exact Hw|done].
    - destruct (IH Hy m2 H2) as [v Hv]. destruct (decide (in_block w.1.1 q)); [by eapply in_block_mapped|]. exists v. by rewrite (old_block m2 m1 w.1.1). }
  destruct Hm1 as [v Hv]. by rewrite (new_block m1 m x.1.1 q M Hqx) in Hv.
Qed.
Lemma heap_holds x items m : heap base items m -> x ∈ items -> item_holds m x.
Proof using Type.
  revert m. induction items as [|z items IH]; intros m Hm Hx; [by apply elem_of_nil in Hx|]. apply elem_of_cons in Hx as [->|Hx]; [by eapply heap_first|].
  pose proof Hm as (m1 & H1 & M & _). apply (holds_with_outside m1); [by apply IH|]. intros q Hq. apply (old_block m1 m z.1.1); [done|]. by eapply heap_apart.
Qed.
Lemma heap_add b l rest items m m' : heap base items m -> moved m empty_buffer m' b -> holds_with m' b l rest -> heap base ((b, l, rest) :: items) m'.
Proof using Type. intros H M Hb. by exists m. Qed.
Lemma heap_moved b l rest items m b' l' rest' m' : heap base ((b, l, rest) :: items) m -> moved m b m' b' -> holds_with m' b' l' rest' ->
  heap base ((b', l', rest') :: items) m'.
Proof using Type. intros (m1 & H & M & _) M' Hb. exists m1. split; [done|]. split; [by eapply moved_trans|done]. Qed.
Lemma heap_free b l rest items m m' : heap base ((b, l, rest) :: items) m -> (forall q, m' !! q = outside m b q) -> heap base items m'.
Proof using Type.
  intros (m1 & H & M & _) E. replace m' with m1; [done|]. apply map_eq. intros q. rewrite E. specialize (M q). cbn [fst] in M. rewrite M.
  unfold outside, empty_buffer. cbn. by rewrite decide_False by lia.
Qed.
Lemma heap_swap x y items m : heap base (x :: y :: items) m -> heap base (y :: x :: items) m.
Proof using Type.
  intros Hm. pose proof Hm as (m1 & (m2 & H2 & M2 & Hy) & M1 & Hx). destruct x as [[b l] r], y as [[d k] s]. cbn [fst snd] in *.
  unfold item_holds in *. cbn [fst snd] in *.
  assert (Hyx : forall q, in_block d q -> ~ in_block b q) by (intros q; apply (heap_apart _ _ _ (d, k, s) q Hm); set_solver).
  assert (Hd : 0 < b_start d) by (destruct Hy as ([? _] & _); done).
  set (m3 := free m (b_start d) (b_block d)).
  assert (E3 : forall q, m3 !! q = if decide (in_block d q) then None else m !! q) by (intros q; by apply lookup_free).
  exists m3. split; [exists m2; split; [done|]; split|split].
  - intros q. cbn [fst]. unfold outside at 1. rewrite E3. specialize (M1 q). specialize (M2 q). unfold outside, in_block, empty_buffer in *. cbn in *.
    specialize (Hyx q).
    rewrite (decide_False (P := 0 <= q < 0 + 0)) in * by lia. repeat case_decide; try done; try congruence; tauto.
  - unfold item_holds. cbn [fst snd]. apply (holds_with_outside m); [done|]. intros q Hq. rewrite E3, decide_False; [done|]. intros Hq'. by apply (Hyx q).
  - intros q. cbn [fst]. unfold outside, empty_buffer, in_block. cbn. rewrite (decide_False (P := 0 <= q < 0 + 0)) by lia. rewrite E3.
    unfold in_block. repeat case_decide; done || tauto.
  - apply (heap_holds (d, k, s) _ _ Hm). set_solver.
Qed.
Lemma heap_under x items items' m : (forall m, heap base items m -> heap base items' m) -> heap base (x :: items) m -> heap base (x :: items') m.
Proof using Type. intros H (m1 & H1 & M & Hx). exists m1. auto. Qed.
Lemma heap_perm items items' m : items ≡ₚ items' -> heap base items m -> heap base items' m.
Proof using Type.
  intros Hp. revert m. induction Hp as [|x l l' _ IH|x y l|l l' l'' _ IH1 _ IH2]; intros m; [done|by apply heap_under|apply heap_swap|eauto].
Qed.
(** The octets of another buffer are beside the first one. *)
Lemma heap_beside x items m y l1 k l2 : heap base (x :: items) m -> y ∈ items -> y.1.2 ++ y.2 = l1 ++ k ++ l2 -> beside m x.1.1 (b_start y.1.1 + Zlen l1) k.
Proof using Type.
  intros Hm Hy E. pose proof (heap_holds y _ _ Hm ltac:(set_solver)) as (Hr & _ & _ & El & _). rewrite E in Hr, El. rewrite !Zlen_app in El.
  pose proof (Zlen_nonneg l1). pose proof (Zlen_nonneg l2). split.
  - apply (region_app_r _ _ (b_start y.1.1 + Zlen l1)) in Hr; [|done]. by eapply region_app_l.
  - intros q Hq. apply (heap_apart _ _ _ y q Hm Hy). unfold in_block. lia.
Qed.
(** What was there before is not touched by the blocks. *)
Lemma heap_base items m p l : heap base items m -> region base p l -> region m p l /\ forall x q, x ∈ items -> p <= q < p + Zlen l -> ~ in_block x.1.1 q.
Proof using Type.
  intros Hm [Hp Hr]. revert m Hm. induction items as [|x items IH]; intros m Hm; [cbn in Hm; subst m; split; [done|by intros x q ?%elem_of_nil]|].
  destruct Hm as (m1 & H1 & M & Hx).
  destruct (IH m1 H1) as [[_ Hr1] Hout]. assert (Hx1 : forall q, p <= q < p + Zlen l -> ~ in_block x.1.1 q).
  { intros q Hq Hb. pose proof (new_block _ _ _ _ M Hb) as E. specialize (Hr1 (q - p) ltac:(lia)). replace (p + (q - p)) with q in Hr1 by lia. congruence. }
  split; [|intros y q [->|Hy]%elem_of_cons Hq; [by apply Hx1|by eapply Hout]]. split; [done|]. intros i Hi.
  rewrite (old_block m1 m x.1.1) by (done || apply Hx1; lia). by apply Hr1.
Qed.
End heap.
#[export] Instance heap_proper base : Proper ((≡ₚ) ==> eq ==> iff) (heap base).
Proof. intros l l' Hl m m' ->. split; by apply heap_perm. Qed.
