(* ===== verification/Chunker.v ===== *)
(** * Chunkers (src/lib/ov_base/src/ov_chunker.c)

    A chunker collects octets from buffers of any size and gives them back in
    chunks of the size asked for. It is a buffer with a pointer to what has not been
    read ([unread]). [chunker_refines_stream]: over every sequence of operations it
    is the sequence of the octets that were added and not yet taken, and when it is
    freed at the end the memory is what it was at the beginning. *)
From S2P Require Import Prelude CMem Buffer BufferSpec.

(** ** The code *)

Record ov_chunker := { ch_buffer : ov_buffer; ch_read_ptr : Z }.
Definition ov_chunker_create (m : mem) : option (ov_chunker * mem) :=
  '(buffer, m) ← ov_buffer_create m 1; Some ({| ch_buffer := buffer; ch_read_ptr := b_start buffer |}, m).
Definition ov_chunker_free (m : mem) (self : ov_chunker) : option mem := ov_buffer_free m (Some (ch_buffer self)).

Definition append_to_buffer (m : mem) (target ext : ov_buffer) : option (bool * ov_buffer * mem) :=
  if b_length ext <? u64 (b_capacity target - b_length target) then
    m ← (if 0 <? b_length ext then memcpy m (b_start target + b_length target) (b_start ext) (b_length ext) else Some m);
    Some (true, with_length target (u64 (b_length target + b_length ext)), m)
  else Some (false, target, m).
Definition merge_data (m : mem) (b1 b1len b1capacity b2 b2len : Z) : option (option ov_buffer * mem) :=
  let required_len := u64 (b1len + b2len) in
  if (b1 =? 0) || (b2 =? 0) then Some (None, m) else
  let required_len := if b1capacity <? required_len then u64 (b1len + 3 * b2len) else required_len in
  '(merged, m) ← ov_buffer_create m required_len;
  _ ← OV_ASSERT (negb (b_start merged =? 0));
  let merged := with_length merged (u64 (b1len + b2len)) in
  m ← (if 0 <? b1len then memcpy m (b_start merged) b1 b1len else Some m);
  m ← (if 0 <? b2len then memcpy m (b_start merged + b1len) b2 b2len else Some m);
  Some (Some merged, m).
Definition ov_chunker_available_octets (self : ov_chunker) : Z :=
  u64 (b_length (ch_buffer self) - (ch_read_ptr self - b_start (ch_buffer self))).

Definition ov_chunker_add (m : mem) (self : ov_chunker) (data : ov_buffer) : option (bool * ov_chunker * mem) :=
  if b_length data =? 0 then Some (true, self, m) else
  '(ok, buffer, m) ← append_to_buffer m (ch_buffer self) data;
  if ok : bool then Some (true, {| ch_buffer := buffer; ch_read_ptr := ch_read_ptr self |}, m) else
  '(merged, m) ← merge_data m (ch_read_ptr self) (ov_chunker_available_octets self) (b_capacity (ch_buffer self)) (b_start data) (b_length data);
  match merged with
  | None => Some (false, self, m)
  | Some merged =>
      m ← ov_buffer_free m (Some (ch_buffer self));
      _ ← OV_ASSERT (negb (b_start merged =? 0));
      Some (true, {| ch_buffer := merged; ch_read_ptr := b_start merged |}, m)
  end.
Definition ov_chunker_next_chunk_preview (self : ov_chunker) (num_octets : Z) : Z :=
  if 0 <? num_octets then if num_octets <=? ov_chunker_available_octets self then ch_read_ptr self else 0 else 0.
Definition ov_chunker_next_chunk_raw (m : mem) (self : ov_chunker) (num_octets dest : Z) : option (bool * ov_chunker * mem) :=
  if (0 <? num_octets) && negb (dest =? NULL) then
    if num_octets <=? ov_chunker_available_octets self then
      m ← memcpy m dest (ch_read_ptr self) num_octets;
      Some (true, {| ch_buffer := ch_buffer self; ch_read_ptr := ch_read_ptr self + num_octets |}, m)
    else Some (false, self, m)
  else Some (false, self, m).
Definition ov_chunker_next_chunk (m : mem) (self : ov_chunker) (num_octets : Z) : option (option ov_buffer * ov_chunker * mem) :=
  '(data, m) ← ov_buffer_create m num_octets;
  '(ok, self, m) ← ov_chunker_next_chunk_raw m self num_octets (b_start data);
  if ok : bool then Some (Some (with_length data num_octets), self, m)
  else m ← ov_buffer_free m (Some data); Some (None, self, m).
Definition ov_chunker_remainder (m : mem) (self : ov_chunker) : option (option ov_buffer * ov_chunker * mem) :=
  ov_chunker_next_chunk m self (ov_chunker_available_octets self).

(** ** A chunker and its octets *)

Definition MAX_OCTETS : Z := 2 ^ 60.
Record unread (m : mem) (self : ov_chunker) (l : list Z) : Prop := {
  un_holds : exists old, holds m (ch_buffer self) (old ++ l) /\ ch_read_ptr self = b_start (ch_buffer self) + Zlen old }.
Lemma unread_available m self l : unread m self l -> ov_chunker_available_octets self = Zlen l.
Proof.
  intros [(old & Hh & E)]. unfold ov_chunker_available_octets. rewrite E. pose proof (holds_facts _ _ _ Hh) as (_ & El & _ & H & _ & Hb).
  rewrite Zlen_app in El.
  pose proof (Zlen_nonneg l). pose proof (Zlen_nonneg old). rewrite u64_id; lia.
Qed.
Lemma unread_region m self l : unread m self l -> region m (ch_read_ptr self) l /\ bytes l.
Proof.
  intros [(old & Hh & E)]. pose proof (holds_facts _ _ _ Hh) as (Hb & _). apply bytes_app in Hb as [_ Hb]. split; [|done].
  rewrite E. eapply (region_app_r _ _ _ old); [by apply holds_region|done].
Qed.
Lemma create_chunker m : exists self m', ov_chunker_create m = Some (self, m') /\ unread m' self [] /\ moved m empty_buffer m' (ch_buffer self).
Proof.
  unfold ov_chunker_create. destruct (buffer_create_spec m 1 ltac:(lia)) as (b & m' & -> & Hh & _ & Hm). cbn [mbind option_bind].
  eexists _, m'. split; [done|]. split; [|done]. split. exists []. split; [by eexists|]. cbn [ch_buffer ch_read_ptr]. change (Zlen (@nil Z)) with 0. lia.
Qed.

(** *** Adding *)

Lemma append_spec m b l d k : holds m b l -> beside m b (b_start d) k -> bytes k -> b_length d = Zlen k -> Zlen k < b_capacity b - b_length b ->
  exists b' m', append_to_buffer m b d = Some (true, b', m') /\ holds m' b' (l ++ k) /\ moved m b m' b' /\ b_start b' = b_start b.
Proof.
  intros Hh Hd Hk Ek Hc. destruct (holds_facts _ _ _ Hh) as (Hl & El & Hp & H1 & H2 & H3). pose proof (Zlen_nonneg k). pose proof (Zlen_nonneg l).
  unfold append_to_buffer. rewrite Ek, u64_id, (proj2 (Z.ltb_lt _ _)), (u64_id (_ + _)) by lia.
  assert (E : (if 0 <? Zlen k then memcpy m (b_start b + b_length b) (b_start d) (Zlen k) else Some m) = Some (write m (b_start b + b_length b) k)).
  { destruct (Z.ltb_spec 0 (Zlen k)).
    - apply (memcpy_region m _ _ k _ (b_start b) (b_block b)); [apply Hd|done|done|by eapply holds_mapped|lia|lia].
    - assert (k = []) as -> by (apply Zlen_0_nil; lia). done. }
  rewrite E. cbn [mbind option_bind]. eexists _, _. split; [done|]. split; [|split; [apply moved_write; done || lia|done]].
  rewrite <- El. apply append_holds; try done; [by apply holds_region|by eapply holds_mapped|lia].
Qed.
Lemma merge_spec m p l cap d k : region m p l -> bytes l -> region m d k -> bytes k -> Zlen l + 3 * Zlen k < 2 ^ 62 -> 0 < Zlen k ->
  exists b m', merge_data m p (Zlen l) cap d (Zlen k) = Some (Some b, m') /\ holds m' b (l ++ k) /\ moved m empty_buffer m' b.
Proof.
  intros Hl Hbl Hk Hbk Hs Hk0. pose proof Hl as [Hp _]. pose proof Hk as [Hd _]. pose proof (Zlen_nonneg l). unfold merge_data.
  rewrite (proj2 (Z.eqb_neq p 0)), (proj2 (Z.eqb_neq d 0)), !u64_id by lia. cbn [orb].
  set (r := if cap <? Zlen l + Zlen k then Zlen l + 3 * Zlen k else Zlen l + Zlen k).
  assert (Hr : Zlen l + Zlen k <= r < 2 ^ 62) by (unfold r; case_match; lia). clearbody r.
  destruct (buffer_create_spec m r ltac:(lia)) as (b & m1 & -> & Hh & Ecap & M). cbn [mbind option_bind].
  destruct (holds_facts _ _ _ (ex_intro _ _ Hh)) as (_ & _ & Hp1 & H1 & H2 & H3). pose proof (holds_mapped _ _ _ (ex_intro _ _ Hh)) as Hm1.
  unfold OV_ASSERT. rewrite (proj2 (Z.eqb_neq (b_start b) 0)) by lia. cbn [negb mbind option_bind with_length b_start].
  assert (Hne : forall q n, beside m empty_buffer q n -> beside m1 b q n) by (intros q n; by apply moved_beside).
  destruct (Hne p l) as [Hl1 Hl2]; [split; [done|intros q _; unfold in_block; cbn; lia]|].
  destruct (Hne d k) as [Hk1 Hk2]; [split; [done|intros q _; unfold in_block; cbn; lia]|].
  assert (E1 : (if 0 <? Zlen l then memcpy m1 (b_start b) p (Zlen l) else Some m1) = Some (write m1 (b_start b) l)).
  { destruct (Z.ltb_spec 0 (Zlen l)); [apply (memcpy_region m1 _ _ l _ (b_start b) (b_block b)); done || lia|].
    assert (l = []) as -> by (apply Zlen_0_nil; lia). done. }
  rewrite E1. cbn [mbind option_bind]. rewrite (proj2 (Z.ltb_lt 0 (Zlen k))) by lia.
  assert (M1 : moved m1 b (write m1 (b_start b) l) b) by (apply moved_write; done || lia).
  destruct (moved_beside _ _ _ _ d k M1 ltac:(by split)) as [Hk3 _].
  rewrite (memcpy_region _ _ d k _ (b_start b) (b_block b)) by (done || lia || by apply mapped_write). cbn [mbind option_bind].
  eexists _, _. split; [done|]. rewrite write_write. split.
  - apply mapped_holds; try done; [by rewrite Zlen_app|lia|by apply bytes_app].
  - eapply moved_trans; [exact M|]. apply moved_write; [done|done|done|]. rewrite Zlen_app. lia.
Qed.
Lemma chunker_add_spec m self l d k : unread m self l -> b_length d = Zlen k -> (0 < Zlen k -> beside m (ch_buffer self) (b_start d) k) -> bytes k ->
  Zlen l + Zlen k <= MAX_OCTETS -> exists self' m', ov_chunker_add m self d = Some (true, self', m') /\ unread m' self' (l ++ k) /\
    moved m (ch_buffer self) m' (ch_buffer self').
Proof.
  intros Hu Ed Hd Hk Hmax. unfold MAX_OCTETS in Hmax. pose proof (Zlen_nonneg k). pose proof (Zlen_nonneg l). unfold ov_chunker_add. rewrite Ed.
  destruct (Z.eqb_spec (Zlen k) 0) as [E0|E0].
  { apply Zlen_0_nil in E0 as ->. rewrite app_nil_r. eexists _, _. split; [done|]. split; [done|apply moved_refl]. }
  specialize (Hd ltac:(lia)). pose proof (unread_available _ _ _ Hu) as Ea. destruct (unread_region _ _ _ Hu) as [Hr Hb]. destruct Hu as [(old & Hh & Er)].
  destruct (holds_facts _ _ _ Hh) as (_ & El & Hp & H1 & H2 & H3). pose proof (Zlen_nonneg old). rewrite Zlen_app in El.
  destruct (Z.ltb_spec (Zlen k) (b_capacity (ch_buffer self) - b_length (ch_buffer self))) as [Hc|Hc].
  - destruct (append_spec m (ch_buffer self) (old ++ l) d k Hh Hd Hk Ed Hc) as (b' & m' & -> & Hh' & M & Es). cbn [mbind option_bind].
    eexists _, _. split; [done|]. split; [|done]. split. exists old. cbn [ch_buffer ch_read_ptr]. rewrite app_assoc, Es. by split.
  - unfold append_to_buffer. rewrite Ed, u64_id, (proj2 (Z.ltb_ge _ _)) by lia. cbn [mbind option_bind]. rewrite Ea.
    destruct (merge_spec m (ch_read_ptr self) l (b_capacity (ch_buffer self)) (b_start d) k Hr Hb (proj1 Hd) Hk ltac:(lia) ltac:(lia)) as (b & m1 & ->
      & Hh1 & M1).
    cbn [mbind option_bind]. destruct (holds_facts _ _ _ Hh1) as (_ & _ & Hp1 & _).
    assert (Hh2 : holds m1 (ch_buffer self) (old ++ l) /\ forall q, in_block (ch_buffer self) q -> ~ in_block b q).
    { apply (holds_moved m _ _ empty_buffer); [done|done|]. intros q _. unfold in_block. cbn. lia. }
    destruct Hh2 as [Hh2 Hd2]. destruct (buffer_free_spec m1 (ch_buffer self) (old ++ l) ltac:(by left)) as (m2 & -> & E2). cbn [mbind option_bind].
    unfold OV_ASSERT. rewrite (proj2 (Z.eqb_neq (b_start b) 0)) by lia. cbn [negb mbind option_bind]. eexists _, _. split; [done|]. cbn [ch_buffer]. split.
    + split. exists []. cbn [ch_buffer ch_read_ptr app]. split; [|change (Zlen (@nil Z)) with 0; lia]. apply (holds_outside m1); [done|].
      intros q Hq. rewrite E2. unfold outside. rewrite decide_False; [done|]. intros Hq'. by apply (Hd2 q).
    + intros q. specialize (M1 q). unfold outside in *. rewrite E2. unfold outside. cbn [empty_buffer b_start b_block] in M1.
      rewrite (decide_False (P := 0 <= q < 0 + 0)) in M1 by lia. rewrite <- M1. repeat case_decide; done.
Qed.

(** *** Taking *)

Lemma moved_from_nothing m b m' : moved m empty_buffer m' b -> forall q, outside m' b q = m !! q.
Proof. intros H q. rewrite H. unfold outside. cbn [empty_buffer b_start b_block]. by rewrite decide_False by lia. Qed.
Lemma holds_beside_new m b l m' d : holds m b l -> moved m empty_buffer m' d -> holds m' b l /\ forall q, in_block b q -> ~ in_block d q.
Proof. intros Hh M. apply (holds_moved m b l empty_buffer); [done|done|]. intros q _. unfold in_block. cbn. lia. Qed.
Lemma freed_again m d l m' m'' : moved m empty_buffer m' d -> owns m' d l -> ov_buffer_free m' (Some d) = Some m'' -> m'' = m.
Proof.
  intros M Ho E. destruct (buffer_free_spec m' d l Ho) as (m1 & E' & Hq). rewrite E in E'. injection E' as <-. apply map_eq. intros q.
  by rewrite Hq, (moved_from_nothing m d m').
Qed.
Lemma next_spec m self l n : unread m self l -> 0 < n <= Zlen l -> Zlen l <= MAX_OCTETS ->
  exists d self' m', ov_chunker_next_chunk m self n = Some (Some d, self', m') /\
  holds m' d (ztake n l) /\ moved m empty_buffer m' d /\ unread m self' (zdrop n l) /\ ch_buffer self' = ch_buffer self.
Proof.
  intros Hu Hn Hmax. unfold MAX_OCTETS in Hmax. pose proof (unread_available _ _ _ Hu) as Ea. unfold ov_chunker_next_chunk.
  destruct (buffer_create_spec m n ltac:(lia)) as (d & m1 & -> & Hd & Ecap & M). cbn [mbind option_bind].
  destruct (holds_facts _ _ _ (ex_intro _ _ Hd)) as (_ & _ & Hp & H1 & H2 & H3).
  unfold ov_chunker_next_chunk_raw, NULL. rewrite Ea, (proj2 (Z.ltb_lt 0 n)), (proj2 (Z.eqb_neq (b_start d) 0)), (proj2 (Z.leb_le n (Zlen l))) by lia.
  cbn [andb negb].
  destruct Hu as [(old & Hh & Er)]. destruct (holds_beside_new _ _ _ _ _ Hh M) as [Hh1 _]. pose proof (holds_facts _ _ _ Hh1) as (Hb & _).
  apply bytes_app in Hb as [_ Hb].
  assert (Hl : region m1 (ch_read_ptr self) (ztake n l)).
  { apply region_ztake. rewrite Er. eapply (region_app_r _ _ _ old); [by apply holds_region|done]. }
  assert (Et : Zlen (ztake n l) = n) by (rewrite Zlen_ztake; lia).
  rewrite (memcpy_region m1 _ _ (ztake n l) _ (b_start d) (b_block d));
    [|done|done|by apply bytes_ztake|apply (holds_mapped _ _ _ (ex_intro _ _ Hd))|lia|lia]. cbn [mbind option_bind].
  eexists _, _, _. split; [done|]. split; [|split; [|split; [|done]]].
  - apply mapped_holds; try done; [apply (holds_mapped _ _ _ (ex_intro _ _ Hd))|lia|by apply bytes_ztake].
  - eapply moved_trans; [exact M|]. apply moved_write; done || lia.
  - split. exists (old ++ ztake n l). cbn [ch_buffer ch_read_ptr]. rewrite <- app_assoc, ztake_zdrop. split; [done|]. rewrite Zlen_app. lia.
Qed.
Lemma no_chunk m self l n : unread m self l -> 0 <= n < 2 ^ 62 -> ~ 0 < n <= Zlen l -> ov_chunker_next_chunk m self n = Some (None, self, m).
Proof.
  intros Hu Hn Hnot. pose proof (unread_available _ _ _ Hu) as Ea. unfold ov_chunker_next_chunk. destruct (decide (n = 0)) as [->|Hne]; [done|].
  destruct (buffer_create_spec m n ltac:(lia)) as (d & m1 & -> & Hd & Ecap & M). cbn [mbind option_bind].
  destruct (holds_facts _ _ _ (ex_intro _ _ Hd)) as (_ & _ & Hp & _).
  unfold ov_chunker_next_chunk_raw, NULL. rewrite Ea, (proj2 (Z.ltb_lt 0 n)), (proj2 (Z.eqb_neq (b_start d) 0)), (proj2 (Z.leb_gt n (Zlen l))) by lia.
  cbn [andb negb mbind option_bind].
  assert (Ho : owns m1 d []) by (left; by eexists). destruct (buffer_free_spec m1 d [] Ho) as (m2 & E & _). rewrite E. cbn [mbind option_bind].
  by rewrite (freed_again m d [] m1 m2 M Ho E).
Qed.

(** ** Sequences of operations *)

Inductive op := Add (octets : list Z) | Next (num_octets : Z) | Preview (num_octets : Z) | Remainder | Available.
Inductive out := Done (ok : bool) | Chunk (octets : option (list Z)) | Count (n : Z).
(** A client: it makes a buffer, adds it and frees it; it reads what it gets and
    frees it. *)
Definition client_buffer (m : mem) (octets : list Z) : option (ov_buffer * mem) :=
  '(b, m) ← ov_buffer_create m (Zlen octets); m ← storen m (b_start b) octets; Some (with_length b (Zlen octets), m).
Definition take_chunk (r : option (option ov_buffer * ov_chunker * mem)) : option (out * ov_chunker * mem) :=
  '(d, self, m) ← r;
  match d with
  | None => Some (Chunk None, self, m)
  | Some d => l ← loadn m (b_start d) (Z.to_nat (b_length d)); m ← ov_buffer_free m (Some d); Some (Chunk (Some l), self, m)
  end.
Definition run_op (o : op) (m : mem) (self : ov_chunker) : option (out * ov_chunker * mem) :=
  match o with
  | Add octets => '(d, m) ← client_buffer m octets; '(ok, self, m) ← ov_chunker_add m self d; m ← ov_buffer_free m (Some d); Some (Done ok, self, m)
  | Next n => take_chunk (ov_chunker_next_chunk m self n)
  | Preview n =>
      let p := ov_chunker_next_chunk_preview self n in
      if p =? 0 then Some (Chunk None, self, m) else l ← loadn m p (Z.to_nat n); Some (Chunk (Some l), self, m)
  | Remainder => take_chunk (ov_chunker_remainder m self)
  | Available => Some (Count (ov_chunker_available_octets self), self, m)
  end.
Fixpoint run (ops : list op) (m : mem) (self : ov_chunker) : option (list out * ov_chunker * mem) :=
  match ops with
  | [] => Some ([], self, m)
  | o :: ops => '(r, self, m) ← run_op o m self; '(rs, self, m) ← run ops m self; Some (r :: rs, self, m)
  end.
(** The specification: a sequence of octets. *)
Definition stream_op (o : op) (l : list Z) : out * list Z :=
  match o with
  | Add octets => (Done true, l ++ octets)
  | Next n => if bool_decide (0 < n <= Zlen l) then (Chunk (Some (ztake n l)), zdrop n l) else (Chunk None, l)
  | Preview n => (Chunk (if bool_decide (0 < n <= Zlen l) then Some (ztake n l) else None), l)
  | Remainder => match l with [] => (Chunk None, []) | _ => (Chunk (Some l), []) end
  | Available => (Count (Zlen l), l)
  end.
Fixpoint stream (ops : list op) (l : list Z) : list out :=
  match ops with [] => [] | o :: ops => (stream_op o l).1 :: stream ops (stream_op o l).2 end.
Definition op_ok (o : op) : Prop :=
  match o with Add octets => bytes octets | Next n | Preview n => 0 <= n < 2 ^ 62 | _ => True end.
Definition added (o : op) : Z := match o with Add octets => Zlen octets | _ => 0 end.
Definition total (ops : list op) : Z := foldr (fun o n => added o + n) 0 ops.

Section client.
Context (m0 : mem).
Definition in_order (m : mem) (self : ov_chunker) (l : list Z) : Prop := unread m self l /\ moved m0 empty_buffer m (ch_buffer self).
Lemma client_buffer_spec m k : bytes k -> Zlen k <= MAX_OCTETS -> exists d m', client_buffer m k = Some (d, m') /\ owns m' d k /\
  b_length d = Zlen k /\ moved m empty_buffer m' d.
Proof using Type.
  intros Hk Hmax. unfold MAX_OCTETS in Hmax. pose proof (Zlen_nonneg k). unfold client_buffer. destruct (decide (Zlen k = 0)) as [E|E].
  { rewrite E, create_empty. apply Zlen_0_nil in E as ->. cbn [mbind option_bind storen]. eexists _, m. split; [done|]. split; [by right|].
    split; [done|apply moved_refl]. }
  destruct (buffer_create_spec m (Zlen k) ltac:(lia)) as (d & m1 & -> & Hd & Ecap & M). cbn [mbind option_bind].
  destruct (holds_facts _ _ _ (ex_intro _ _ Hd)) as (_ & _ & Hp & H1 & H2 & H3). pose proof (holds_mapped _ _ _ (ex_intro _ _ Hd)) as Hm.
  rewrite (storen_bytes m1 (b_start d) (b_block d)) by (done || lia). cbn [mbind option_bind]. eexists _, _. split; [done|]. split; [left|split; [done|]].
  - apply mapped_holds; done || lia.
  - eapply moved_trans; [exact M|]. apply moved_write; done || lia.
Qed.
Lemma add_in_order m self l k : in_order m self l -> bytes k -> Zlen l + Zlen k <= MAX_OCTETS ->
  exists self' m', run_op (Add k) m self = Some (Done true, self', m') /\ in_order m' self' (l ++ k).
Proof using Type.
  intros [Hu M] Hk Hmax. pose proof (Zlen_nonneg l). destruct (client_buffer_spec m k Hk ltac:(unfold MAX_OCTETS in *; lia)) as (d & m1 & E1 & Hd & Ed & M1).
  cbn [run_op]. rewrite E1. cbn [mbind option_bind]. destruct Hu as [(old & Hh & Er)]. destruct (holds_beside_new _ _ _ _ _ Hh M1) as [Hh1 Hdis].
  assert (Hd1 : 0 < Zlen k -> beside m1 (ch_buffer self) (b_start d) k).
  { intros Hk0. destruct Hd as [Hd|[_ ->]]; [|done]. destruct (holds_facts _ _ _ Hd) as (_ & El & _ & Hc & _). split; [by apply holds_region|].
    intros q Hq Hb. apply (Hdis q Hb). unfold in_block. lia. }
  destruct (chunker_add_spec m1 self l d k) as (self' & m2 & E2 & [(old' & Hh2 & Er2)] & M2); [split; by exists old|done|done|done|done|].
  rewrite E2. cbn [mbind option_bind].
  assert (Hd2 : owns m2 d k /\ forall q, in_block d q -> ~ in_block (ch_buffer self') q).
  { destruct Hd as [Hd|[Hn ->]].
    - destruct (holds_moved m1 d k (ch_buffer self) m2 (ch_buffer self') Hd M2) as [Hd2 Hdis2]; [intros q Hq Hb; by apply (Hdis q)|]. split; [by left|done].
    - split; [by right|]. destruct Hn as (E & _ & _ & E'). intros q. unfold in_block. rewrite E, E'. lia. }
  destruct Hd2 as [Hd2 Hdis2]. destruct (buffer_free_spec m2 d k Hd2) as (m3 & -> & E3). cbn [mbind option_bind]. eexists _, m3. split; [done|]. split.
  - split. exists old'. split; [|done]. apply (holds_outside m2); [done|]. intros q Hq. rewrite E3. unfold outside. rewrite decide_False; [done|].
    intros Hq'. by apply (Hdis2 q).
  - intros q. specialize (M2 q). specialize (M q). pose proof (moved_from_nothing m d m1 M1 q) as Hq. unfold outside in M2, M, Hq |- *. rewrite E3.
    unfold outside.
    rewrite <- M, <- Hq. repeat case_decide; done || congruence.
Qed.
Lemma take_in_order m self l n : in_order m self l -> 0 <= n < 2 ^ 62 -> Zlen l <= MAX_OCTETS ->
  exists self', take_chunk (ov_chunker_next_chunk m self n) = Some ((stream_op (Next n) l).1, self', m) /\ in_order m self' (stream_op (Next n) l).2.
Proof using Type.
  intros [Hu M] Hn Hmax. cbn [stream_op]. case_bool_decide as Hc.
  - destruct (next_spec m self l n Hu Hc Hmax) as (d & self' & m1 & -> & Hd & M1 & Hu' & Eb). unfold take_chunk. cbn [mbind option_bind].
    destruct (holds_facts _ _ _ Hd) as (_ & El & _). rewrite (loadn_region_n m1 _ (ztake n l)) by (done || by apply holds_region). cbn [mbind option_bind].
    assert (Ho : owns m1 d (ztake n l)) by by left. destruct (buffer_free_spec m1 d _ Ho) as (m2 & E & _). rewrite E. cbn [mbind option_bind].
    rewrite (freed_again m d _ m1 m2 M1 Ho E). exists self'. split; [done|]. split; [done|]. by rewrite Eb.
  - rewrite (no_chunk m self l n Hu Hn Hc). exists self. by split.
Qed.
Lemma run_op_in_order o m self l : in_order m self l -> op_ok o -> Zlen l + added o <= MAX_OCTETS ->
  exists self' m', run_op o m self = Some ((stream_op o l).1, self', m') /\ in_order m' self' (stream_op o l).2.
Proof using Type.
  intros Hi Ho Hmax. destruct o as [k|n|n| |]; cbn [added op_ok] in *.
  - by apply add_in_order.
  - destruct (take_in_order m self l n Hi Ho ltac:(lia)) as (self' & E & Hi'). by exists self', m.
  - exists self, m. split; [|done]. cbn [run_op stream_op fst]. unfold ov_chunker_next_chunk_preview. destruct Hi as [Hu _].
    rewrite (unread_available _ _ _ Hu).
    destruct (unread_region _ _ _ Hu) as [Hr _]. pose proof Hr as [Hp _]. case_bool_decide as Hc.
    + rewrite (proj2 (Z.ltb_lt 0 n)), (proj2 (Z.leb_le n (Zlen l))), (proj2 (Z.eqb_neq _ 0)) by lia.
      rewrite (loadn_region_n m _ (ztake n l)); [done|by apply region_ztake|]. rewrite Zlen_ztake. lia.
    + destruct (Z.ltb_spec 0 n); [|done]. by rewrite (proj2 (Z.leb_gt n (Zlen l))) by lia.
  - pose proof Hi as [Hu _]. cbn [run_op]. unfold ov_chunker_remainder. rewrite (unread_available _ _ _ Hu). pose proof (Zlen_nonneg l).
    destruct (take_in_order m self l (Zlen l) Hi) as (self' & E & Hi'); [unfold MAX_OCTETS in Hmax; lia|lia|]. exists self', m.
    replace (stream_op (Next (Zlen l)) l) with (stream_op Remainder l) in E, Hi'; [done|]. cbn [stream_op]. destruct l as [|x l]; [done|].
    rewrite bool_decide_eq_true_2 by (rewrite Zlen_cons; pose proof (Zlen_nonneg l); lia).
    f_equal; [|symmetry; rewrite <- (app_nil_r (x :: l)) at 2; apply zdrop_app].
    do 2 f_equal. symmetry. rewrite <- (app_nil_r (x :: l)) at 2. apply ztake_app.
  - exists self, m. split; [|done]. pose proof Hi as [Hu _]. cbn [run_op stream_op fst]. by rewrite (unread_available _ _ _ Hu).
Qed.
Lemma stream_length o l : Zlen (stream_op o l).2 <= Zlen l + added o.
Proof using Type.
  pose proof (Zlen_nonneg l). destruct o as [k|n|n| |]; cbn [stream_op added]; try case_bool_decide; cbn [snd]; rewrite ?Zlen_app, ?Zlen_zdrop; try lia.
  destruct l; cbn [snd]; rewrite ?Zlen_nil; lia.
Qed.
Lemma run_in_order ops : forall m self l, in_order m self l -> Forall op_ok ops -> Zlen l + total ops <= MAX_OCTETS ->
  exists self' m' l', run ops m self = Some (stream ops l, self', m') /\ in_order m' self' l'.
Proof using Type.
  induction ops as [|o ops IH]; intros m self l Hi Hf Hmax; [by exists self, m, l|]. apply Forall_cons in Hf as [Ho Hf]. unfold total in Hmax.
  cbn [foldr] in Hmax. fold (total ops) in Hmax.
  assert (Ht : 0 <= total ops). { clear. unfold total. induction ops as [|o ops IH]; cbn [foldr]; [lia|]. destruct o; cbn [added]; try lia.
  pose proof (Zlen_nonneg octets). lia. }
  destruct (run_op_in_order o m self l Hi Ho ltac:(lia)) as (self1 & m1 & E & Hi1). cbn [run stream]. rewrite E. cbn [mbind option_bind].
  pose proof (stream_length o l). destruct (IH m1 self1 (stream_op o l).2 Hi1 Hf ltac:(lia)) as (self' & m' & l' & -> & Hi'). cbn [mbind option_bind].
  by eexists _, _, _.
Qed.
End client.

(** C27: over every sequence of operations a chunker answers as the sequence of the
    octets that were added and not yet taken does: a chunk is taken from its
    front when there are enough octets, and otherwise none is. The chunks do not
    depend on the sizes of the buffers that were added. Nothing outside of the
    allocated memory is accessed, and after the chunker is freed the memory is
    what it was before it was created. *)
Theorem chunker_refines_stream m ops : Forall op_ok ops -> total ops <= MAX_OCTETS ->
  exists self0 m0 self m', ov_chunker_create m = Some (self0, m0) /\ run ops m0 self0 = Some (stream ops [], self, m') /\ ov_chunker_free m' self = Some m.
Proof.
  intros Hf Hmax. destruct (create_chunker m) as (self0 & m0 & E0 & Hu & M). exists self0, m0.
  destruct (run_in_order m ops m0 self0 [] ltac:(by split) Hf ltac:(change (Zlen (@nil Z)) with 0; lia)) as (self & m' & l & E & [(old & Hh & _)] & M').
  exists self, m'. split; [done|]. split; [done|]. unfold ov_chunker_free. assert (Ho : owns m' (ch_buffer self) (old ++ l)) by by left.
  destruct (buffer_free_spec m' _ _ Ho) as (m'' & E' & _). rewrite E'. f_equal. by eapply freed_again.
Qed.
Lemma chunker_refines_stream_witness :
  let ops := [Add [1; 2; 3]; Next 2; Add []; Add [4; 5; 6; 7; 8]; Preview 7; Next 3; Available; Next 4; Remainder; Remainder] in
  stream ops [] = [Done true; Chunk (Some [1; 2]); Done true; Done true; Chunk None; Chunk (Some [3; 4; 5]); Count 3; Chunk None; Chunk (Some [6; 7;
    8]); Chunk None] /\
  exists self0 m0 self m', ov_chunker_create ∅ = Some (self0, m0) /\ run ops m0 self0 = Some (stream ops [], self, m') /\ ov_chunker_free m' self = Some ∅.
Proof. split; [vm_compute; reflexivity|]. apply chunker_refines_stream; [repeat constructor; lia|vm_compute; discriminate]. Defined.
