(* ===== verification/Websocket.v ===== *)
(** * WebSocket frames (src/lib/ov_core/src/ov_websocket_pointer.c)

    A frame of RFC 6455 in a buffer of its own: the record is the struct, with
    pointers into the buffer. An out parameter [uint8_t **next] is a result: [None]
    where it is not set. [random] is what [ov_random_bytes] delivers. The cache of
    frames is not enabled, and the structs themselves are values, so that creating
    and freeing a frame is creating and freeing its buffer. *)
From S2P Require Import Prelude CMem Buffer.

(** ** The code: data *)

Inductive ov_websocket_parser_state :=
  | OV_WEBSOCKET_PARSER_ERROR | OV_WEBSOCKET_PARSER_PROGRESS | OV_WEBSOCKET_PARSER_SUCCESS.
Inductive ov_websocket_fragmentation_state :=
  | OV_WEBSOCKET_FRAGMENTATION_NONE | OV_WEBSOCKET_FRAGMENTATION_START
  | OV_WEBSOCKET_FRAGMENTATION_CONTINUE | OV_WEBSOCKET_FRAGMENTATION_LAST.
#[export] Instance parser_state_eq : EqDecision ov_websocket_parser_state.
Proof. solve_decision. Defined.
#[export] Instance fragmentation_state_eq : EqDecision ov_websocket_fragmentation_state.
Proof. solve_decision. Defined.
Definition OV_WEBSOCKET_OPCODE_CONTINUATION : Z := 0x00.
Definition OV_WEBSOCKET_OPCODE_TEXT : Z := 0x01.
Definition OV_WEBSOCKET_OPCODE_BINARY : Z := 0x02.
Definition OV_WEBSOCKET_OPCODE_CLOSE : Z := 0x08.
Definition OV_WEBSOCKET_OPCODE_PING : Z := 0x09.
Definition OV_WEBSOCKET_OPCODE_PONG : Z := 0x0A.
Definition OV_WEBSOCKET_FRAME_DEFAULT_BUFFER_SIZE : Z := 1024.

Record ov_websocket_frame_config := { default_size : Z; max_bytes_recache : Z }.
Record ov_websocket_frame := {
  f_config : ov_websocket_frame_config; f_opcode : Z; f_state : ov_websocket_fragmentation_state;
  f_mask : Z; f_content_start : Z; f_content_length : Z; f_buffer : option ov_buffer }.
Definition with_buffer (f : ov_websocket_frame) (b : option ov_buffer) : ov_websocket_frame :=
  {| f_config := f_config f; f_opcode := f_opcode f; f_state := f_state f; f_mask := f_mask f;
     f_content_start := f_content_start f; f_content_length := f_content_length f; f_buffer := b |}.
Definition with_content (f : ov_websocket_frame) (mask start length : Z) : ov_websocket_frame :=
  {| f_config := f_config f; f_opcode := f_opcode f; f_state := f_state f; f_mask := mask;
     f_content_start := start; f_content_length := length; f_buffer := f_buffer f |}.
Definition with_kind (f : ov_websocket_frame) (opcode : Z) (state : ov_websocket_fragmentation_state) : ov_websocket_frame :=
  {| f_config := f_config f; f_opcode := opcode; f_state := state; f_mask := f_mask f;
     f_content_start := f_content_start f; f_content_length := f_content_length f; f_buffer := f_buffer f |}.

(** ** The code: creating and freeing *)

Definition config_init (config : ov_websocket_frame_config) : ov_websocket_frame_config :=
  if default_size config =? 0 then {| default_size := OV_WEBSOCKET_FRAME_DEFAULT_BUFFER_SIZE; max_bytes_recache := max_bytes_recache config |}
  else config.
Definition empty_frame (config : ov_websocket_frame_config) (b : option ov_buffer) : ov_websocket_frame :=
  {| f_config := config; f_opcode := 0; f_state := OV_WEBSOCKET_FRAGMENTATION_NONE; f_mask := NULL;
     f_content_start := NULL; f_content_length := 0; f_buffer := b |}.
Definition frame_create (m : mem) (config : ov_websocket_frame_config) : option (ov_websocket_frame * mem) :=
  '(b, m) ← ov_buffer_create m (default_size config); Some (empty_frame config (Some b), m).
Definition ov_websocket_frame_create (m : mem) (config : ov_websocket_frame_config) : option (ov_websocket_frame * mem) :=
  frame_create m (config_init config).
Definition too_large (frame : ov_websocket_frame) (b : ov_buffer) : bool :=
  negb (max_bytes_recache (f_config frame) =? 0) && (max_bytes_recache (f_config frame) <? b_capacity b).
Definition ov_websocket_frame_clear (m : mem) (frame : ov_websocket_frame) : option (ov_websocket_frame * mem) :=
  let frame := {| f_config := f_config frame; f_opcode := 0; f_state := OV_WEBSOCKET_FRAGMENTATION_NONE; f_mask := NULL;
                  f_content_start := NULL; f_content_length := 0; f_buffer := f_buffer frame |} in
  '(buffer, m) ← (match f_buffer frame with
                  | None => Some (None, m)
                  | Some b =>
                      if too_large frame b then Some (None, ov_buffer_free_uncached m b) else
                      '(_, b, m) ← ov_buffer_clear m b; Some (Some b, m)
                  end);
  '(buffer, m) ← (match buffer with
                  | Some b => Some (b, m)
                  | None => ov_buffer_create m (default_size (f_config frame))
                  end);
  Some (with_buffer frame (Some buffer), m).
Definition ov_websocket_frame_free_uncached (m : mem) (frame : ov_websocket_frame) : option mem :=
  '(frame, m) ← ov_websocket_frame_clear m frame;
  Some (match f_buffer frame with Some b => ov_buffer_free_uncached m b | None => m end).
Definition ov_websocket_frame_free (m : mem) (frame : option ov_websocket_frame) : option mem :=
  match frame with
  | None => Some m
  | Some frame =>
      '(frame, m) ← ov_websocket_frame_clear m frame;
      buffer ← f_buffer frame;
      m ← (if too_large frame buffer then Some (ov_buffer_free_uncached m buffer) else ov_buffer_free m (Some buffer));
      ov_websocket_frame_free_uncached m (with_buffer frame None)
  end.

(** ** The code: parsing *)

Definition parsed : Type := ov_websocket_parser_state * ov_websocket_frame * option Z.

(** From the label [finish] on. *)
Definition parse_finish (m : mem) (frame : ov_websocket_frame) (buffer : ov_buffer) : option parsed :=
  flags ← load8 m (b_start buffer + 1);
  let masked := nz (flags .& 0x80) in
  if masked && (f_content_start frame =? NULL) then Some (OV_WEBSOCKET_PARSER_ERROR, frame, None) else
  let frame := if masked then with_content frame (f_content_start frame) (f_content_start frame + 4) (f_content_length frame) else frame in
  if negb (f_content_start frame =? NULL) then
    if b_length buffer <? u64 (f_content_start frame - b_start buffer + f_content_length frame)
    then Some (OV_WEBSOCKET_PARSER_PROGRESS, frame, None)
    else Some (OV_WEBSOCKET_PARSER_SUCCESS, frame, Some (f_content_start frame + f_content_length frame))
  else Some (OV_WEBSOCKET_PARSER_SUCCESS, frame, Some (b_start buffer + 2)).
Definition parse_payload_length (m : mem) (frame : ov_websocket_frame) : option parsed :=
  match f_buffer frame with
  | None => Some (OV_WEBSOCKET_PARSER_ERROR, frame, None)
  | Some buffer =>
      let start := b_start buffer in
      if b_length buffer <? 2 then Some (OV_WEBSOCKET_PARSER_PROGRESS, frame, None) else
      flags ← load8 m (start + 1);
      let length := flags .& 0x7F in
      if length <? 126 then
        parse_finish m (with_content frame (f_mask frame) (if length =? 0 then NULL else start + 2) length) buffer
      else if length =? 126 then
        if b_length buffer <? 4 then Some (OV_WEBSOCKET_PARSER_PROGRESS, frame, None) else
        h ← load8 m (start + 2); l ← load8 m (start + 3);
        let length := (h .<< 8) .| l in
        if length <? 125 then Some (OV_WEBSOCKET_PARSER_ERROR, with_content frame (f_mask frame) (start + 4) (f_content_length frame), None) else
        parse_finish m (with_content frame (f_mask frame) (start + 4) length) buffer
      else
        first ← load8 m (start + 2);
        if nz (first .& 0x80) then Some (OV_WEBSOCKET_PARSER_ERROR, frame, None) else
        if b_length buffer <? 10 then Some (OV_WEBSOCKET_PARSER_PROGRESS, frame, None) else
        byte1 ← load8 m (start + 2); byte2 ← load8 m (start + 3); byte3 ← load8 m (start + 4); byte4 ← load8 m (start + 5);
        byte5 ← load8 m (start + 6); byte6 ← load8 m (start + 7); byte7 ← load8 m (start + 8); byte8 ← load8 m (start + 9);
        let length := (byte1 .<< 56) + (byte2 .<< 48) + (byte3 .<< 40) + (byte4 .<< 32) +
                      (byte5 .<< 24) + (byte6 .<< 16) + (byte7 .<< 8) + byte8 in
        if length <? 0x10000 then Some (OV_WEBSOCKET_PARSER_ERROR, frame, None) else
        parse_finish m (with_content frame (f_mask frame) (start + 10) length) buffer
  end.
Definition fragmentation_state (octet : Z) : ov_websocket_fragmentation_state :=
  let fin := nz (octet .& 0x80) in
  let opcode := nz (octet .& 0x0F) in
  if fin then if opcode then OV_WEBSOCKET_FRAGMENTATION_NONE else OV_WEBSOCKET_FRAGMENTATION_LAST
  else if opcode then OV_WEBSOCKET_FRAGMENTATION_START else OV_WEBSOCKET_FRAGMENTATION_CONTINUE.
Definition known_opcode (opcode : Z) : bool :=
  (opcode =? OV_WEBSOCKET_OPCODE_CONTINUATION) || (opcode =? OV_WEBSOCKET_OPCODE_TEXT) || (opcode =? OV_WEBSOCKET_OPCODE_BINARY) ||
  (opcode =? OV_WEBSOCKET_OPCODE_CLOSE) || (opcode =? OV_WEBSOCKET_OPCODE_PING) || (opcode =? OV_WEBSOCKET_OPCODE_PONG).
Definition ov_websocket_parse_frame (m : mem) (frame : ov_websocket_frame) : option parsed :=
  match f_buffer frame with
  | None => Some (OV_WEBSOCKET_PARSER_ERROR, frame, None)
  | Some buffer =>
      if (b_start buffer =? NULL) || (b_length buffer =? 0) then Some (OV_WEBSOCKET_PARSER_ERROR, frame, Some (b_start buffer)) else
      let frame := with_content frame NULL NULL 0 in
      '(state, frame, next) ← parse_payload_length m frame;
      if negb (bool_decide (state = OV_WEBSOCKET_PARSER_SUCCESS)) then Some (state, frame, next) else
      octet ← load8 m (b_start buffer);
      if negb (known_opcode (0x0F .& octet)) then Some (OV_WEBSOCKET_PARSER_ERROR, frame, Some (b_start buffer)) else
      Some (OV_WEBSOCKET_PARSER_SUCCESS, with_kind frame (0x0F .& octet) (fragmentation_state octet), next)
  end.

(** ** The code: masking *)

Fixpoint mask_loop (m : mem) (buffer : Z) (i : Z) (n : nat) (mask : Z) : option mem :=
  match n with
  | O => Some m
  | S n =>
      b ← load8 m (buffer + i); k ← load8 m (mask + u8 (i mod 4));
      m ← store8 m (buffer + i) (b .^ k);
      mask_loop m buffer (i + 1) n mask
  end.
Definition mask_data (m : mem) (buffer size mask : Z) : option (bool * mem) :=
  if (buffer =? NULL) || (size <? 1) || (mask =? NULL) then Some (false, m) else
  m ← mask_loop m buffer 0 (Z.to_nat size) mask; Some (true, m).
Definition ov_websocket_frame_unmask (m : mem) (frame : ov_websocket_frame) : option (bool * mem) :=
  if f_content_start frame =? NULL then Some (f_mask frame =? NULL, m) else
  if negb (f_mask frame =? NULL) then mask_data m (f_content_start frame) (f_content_length frame) (f_mask frame) else Some (true, m).

(** ** The code: writing *)

Definition generate_masking_key (random : option (list Z)) (m : mem) (buffer size : Z) : option (bool * mem) :=
  if (buffer =? NULL) || (size <? 4) then Some (false, m) else
  match random with None => Some (false, m) | Some key => m ← storen m buffer key; Some (true, m) end.
(** The octets from the second one on that hold the length. *)
Definition length_octets (flag_mask length : Z) : list Z :=
  if length <? 126 then [flag_mask .| length]
  else if length <? 0xffff then [flag_mask .| 126; length .>> 8; length]
  else [flag_mask .| 127; length .>> 56; length .>> 48; length .>> 40; length .>> 32; length .>> 24; length .>> 16; length .>> 8; length].
(** The key, the data and masking, from where they start. *)
Definition set_payload (random : option (list Z)) (m : mem) (next data length : Z) (mask : bool) : option (bool * mem) :=
  '(ok, m) ← (if mask then generate_masking_key random m next 4 else Some (true, m));
  if negb ok then Some (false, m) else
  let mask_start := if mask then next else NULL in
  let next := if mask then next + 4 else next in
  m ← (if negb (data =? NULL) && negb (length =? 0) then memcpy m next data length else Some m);
  if mask then mask_data m next length mask_start else Some (true, m).
Definition ov_websocket_set_data (junk : Z) (random : option (list Z)) (m : mem) (frame : ov_websocket_frame) (data length : Z) (mask : bool)
    : option (bool * ov_websocket_frame * mem) :=
  let length := if data =? NULL then 0 else length in
  let data := if length =? 0 then NULL else data in
  let required := u64 (if length <? 126 then 2 + length else if length <? 0xffff then 4 + length else 10 + length) in
  let required := if mask then u64 (required + 4) else required in
  '(ok, buffer, m) ← (match f_buffer frame with
                      | None => '(b, m) ← ov_buffer_create m required; Some (true, b, m)
                      | Some b => if b_capacity b <? required then ov_buffer_extend junk m b (u64 (required - b_capacity b)) else Some (true, b, m)
                      end);
  let frame := with_buffer frame (Some buffer) in
  if negb ok then Some (false, frame, m) else
  m ← memset m (b_start buffer + 1) 0 (u64 (b_capacity buffer - 1));
  if ((data =? NULL) || (length =? 0)) && mask then Some (false, frame, m) else
  let field := length_octets (if mask then 0x80 else 0) length in
  m ← storen m (b_start buffer + 1) field;
  '(ok, m) ← set_payload random m (b_start buffer + 1 + Zlen field) data length mask;
  if negb ok then Some (false, frame, m) else
  let buffer := with_length buffer (b_capacity buffer) in
  '(state, frame, next) ← ov_websocket_parse_frame m (with_buffer frame (Some buffer));
  match state, next with
  | OV_WEBSOCKET_PARSER_SUCCESS, Some next => Some (true, with_buffer frame (Some (with_length buffer (next - b_start buffer))), m)
  | _, _ => Some (false, frame, m)
  end.

(** ** The code: frames of a stream *)

(** What is behind the frame goes to a new one. *)
Definition ov_websocket_frame_shift_trailing_bytes (m : mem) (source : ov_websocket_frame) (next : Z)
    : option (bool * ov_websocket_frame * option ov_websocket_frame * mem) :=
  if next =? NULL then Some (false, source, None, m) else
  '(new, m) ← ov_websocket_frame_create m (f_config source);
  buffer ← f_buffer source;
  if next =? b_start buffer + b_length buffer then Some (true, source, Some new, m) else
  let len := u64 (b_length buffer - (next - b_start buffer)) in
  new_buffer ← f_buffer new;
  '(ok, new_buffer, m) ← ov_buffer_set m new_buffer next len;
  let new := with_buffer new (Some new_buffer) in
  if negb ok then m ← ov_websocket_frame_free m (Some new); Some (false, source, None, m) else
  m ← memset m next 0 len;
  Some (true, with_buffer source (Some (with_length buffer (next - b_start buffer))), Some new, m).
(** The frame, the state, and what is left of the input. *)
Definition ov_websocket_frame_pop (m : mem) (input : option ov_buffer) (config : ov_websocket_frame_config)
    : option (option ov_websocket_frame * ov_websocket_parser_state * option ov_buffer * mem) :=
  let frame := empty_frame config input in
  '(s, frame, next) ← ov_websocket_parse_frame m frame;
  match s, next with
  | OV_WEBSOCKET_PARSER_PROGRESS, _ => Some (Some (with_buffer frame None), s, input, m)
  | OV_WEBSOCKET_PARSER_SUCCESS, Some next =>
      buffer ← f_buffer frame;
      if next =? b_start buffer + b_length buffer then Some (Some frame, s, None, m) else
      let len := u64 (b_length buffer - (next - b_start buffer)) in
      '(new_buffer, m) ← ov_buffer_create m len;
      '(ok, new_buffer, m) ← ov_buffer_set m new_buffer next len;
      if negb ok then m ← ov_websocket_frame_free m (Some frame); Some (None, OV_WEBSOCKET_PARSER_ERROR, input, m) else
      m ← memset m next 0 len;
      Some (Some (with_buffer frame (Some (with_length buffer (next - b_start buffer)))), s, Some new_buffer, m)
  | _, _ =>
      m ← ov_websocket_frame_free m (Some (with_buffer frame None)); Some (None, OV_WEBSOCKET_PARSER_ERROR, input, m)
  end.
