(* ===== verification/WebsocketSpec.v ===== *)
(** * Frames of RFC 6455 and how they are read and written

    [frame_octets]: the octets of a frame. [websocket_parse_exact]: the parser finds
    exactly the frames. [websocket_set_data_exact]: what is set is a frame with the
    octets as its payload, which unmasking gives back. The examples at the end are
    the places where the code and RFC 6455 differ. *)
From S2P Require Import Prelude CMem Endian Buffer BufferSpec Websocket.

(** ** The format *)

(** The length of [n] octets behind the mask flag. The 16 bit form is taken from
    125 on, one less than RFC 6455 says. *)
Inductive size_field (flag : Z) : list Z -> Z -> Prop :=
  | sf_7 n : 0 <= n < 126 -> size_field flag [flag + n] n
  | sf_16 n : 125 <= n < 2 ^ 16 -> size_field flag (flag + 126 :: be16 n) n
  | sf_64 n : 2 ^ 16 <= n < 2 ^ 63 -> size_field flag (flag + 127 :: be64 n) n.
(** The first octet, the key of the mask, if there is one, the payload as it is sent.
    A masked frame has a payload. *)
Inductive frame_octets : Z -> list Z -> list Z -> list Z -> Prop :=
  | frame_plain b0 field payload : is_byte b0 -> bytes payload -> size_field 0 field (Zlen payload) ->
      frame_octets b0 [] payload (b0 :: field ++ payload)
  | frame_masked b0 field key payload : is_byte b0 -> bytes payload -> bytes key -> Zlen key = 4 -> payload <> [] -> size_field 128 field (Zlen payload) ->
      frame_octets b0 key payload (b0 :: field ++ key ++ payload).

(** ** What the parser decides, on the list of the octets *)

Inductive head := H_error | H_more | H_length (size : Z) (masked : bool) (n : Z).
Definition head_of (l : list Z) : head :=
  if Zlen l <? 2 then H_more else
  let masked := 128 <=? l.[1] in
  let n := l.[1] mod 128 in
  if n <? 126 then if masked && (n =? 0) then H_error else H_length 2 masked n
  else if n =? 126 then
    if Zlen l <? 4 then H_more else
    let n := be_val [l.[2]; l.[3]] in if n <? 125 then H_error else H_length 4 masked n
  else
    if 128 <=? l.[2] then H_error else
    if Zlen l <? 10 then H_more else
    let n := be_val [l.[2]; l.[3]; l.[4]; l.[5]; l.[6]; l.[7]; l.[8]; l.[9]] in if n <? 2 ^ 16 then H_error else H_length 10 masked n.
Definition body_start (size : Z) (masked : bool) : Z := if masked then size + 4 else size.
Definition frame_size (size : Z) (masked : bool) (n : Z) : Z := body_start size masked + n.

Lemma octet_low x : is_byte x -> x .& 0x7F = x mod 128.
Proof. intros _. change 0x7F with (Z.ones 7). by rewrite Z.land_ones by lia. Qed.
Lemma octet_high x : is_byte x -> nz (x .& 0x80) = (128 <=? x).
Proof. intros H. apply (byte_forall (fun x => eqb (nz (x .& 0x80)) (128 <=? x))) in H; [by apply eqb_prop|vm_compute; reflexivity]. Qed.
Lemma octet_nibble x : 0x0F .& x = x mod 16.
Proof. rewrite Z.land_comm. change 0x0F with (Z.ones 4). by rewrite Z.land_ones by lia. Qed.

Lemma be_val_8 a b c d e g h i : (a .<< 56) + (b .<< 48) + (c .<< 40) + (d .<< 32) + (e .<< 24) + (g .<< 16) + (h .<< 8) + i = be_val [a; b; c; d; e; g; h; i].
Proof. unfold be_val. cbn [fold_left]. rewrite !Z.shiftl_mul_pow2 by lia. lia. Qed.
Lemma be_val_8_bound l8 : bytes l8 -> l8.[0] < 128 -> Zlen l8 = 8 -> 0 <= be_val [l8.[0]; l8.[1]; l8.[2]; l8.[3]; l8.[4]; l8.[5]; l8.[6]; l8.[7]] < 2 ^ 63.
Proof.
  intros Hb8 H0 _. pose proof (fun i => bytes_znth l8 i Hb8) as Hi. unfold is_byte in Hi. unfold be_val. cbn [fold_left].
  pose proof (Hi 0). pose proof (Hi 1). pose proof (Hi 2). pose proof (Hi 3). pose proof (Hi 4). pose proof (Hi 5). pose proof (Hi 6). pose proof (Hi 7). lia.
Qed.

(** The frame that is found: what the pointers are. *)
Definition found (f : ov_websocket_frame) (b : ov_buffer) (b0 size : Z) (masked : bool) (n : Z) : ov_websocket_frame :=
  {| f_config := f_config f; f_opcode := b0 mod 16; f_state := fragmentation_state b0;
     f_mask := if masked then b_start b + size else NULL;
     f_content_start := if n =? 0 then NULL else b_start b + body_start size masked; f_content_length := n; f_buffer := Some b |}.
Section parse.
Context (m : mem) (f : ov_websocket_frame) (b : ov_buffer) (l : list Z).
Context (Hf : f_buffer f = Some b) (Hm : region m (b_start b) l) (Hb : bytes l) (Hl : Zlen l = b_length b) (Hs : 1 <= Zlen l < 2 ^ 62)
  (H2 : Zlen l = 2 -> l.[1] mod 128 = 127 -> load8 m (b_start b + 2) = Some 0).
Definition unchanged (f' : ov_websocket_frame) : Prop := f_buffer f' = Some b /\ f_config f' = f_config f.
Lemma octet_at i : 0 <= i < Zlen l -> load8 m (b_start b + i) = Some l.[i].
Proof using Hm. apply load8_region, Hm. Qed.
Lemma finish_spec g size n : f_buffer g = Some b -> 2 <= Zlen l -> 2 <= size <= 10 -> 0 <= n < 2 ^ 63 -> (n = 0 -> size = 2) ->
  let masked := 128 <=? l.[1] in
  let g1 := with_content g NULL (if n =? 0 then NULL else b_start b + size) n in
  let g2 := with_content g (if masked then b_start b + size else NULL) (if n =? 0 then NULL else b_start b + body_start size masked) n in
  parse_finish m g1 b = Some (
    if masked && (n =? 0) then (OV_WEBSOCKET_PARSER_ERROR, g1, None)
    else if Zlen l <? frame_size size masked n then (OV_WEBSOCKET_PARSER_PROGRESS, g2, None)
    else (OV_WEBSOCKET_PARSER_SUCCESS, g2, Some (b_start b + frame_size size masked n))).
Proof using Hm Hb Hl.
  intros Hg H1 H3 Hn Hz. cbv zeta. unfold parse_finish, frame_size, body_start, NULL. pose proof Hm as [Hp _]. rewrite (octet_at 1) by lia.
  cbn [mbind option_bind].
  rewrite octet_high by auto with ov. cbn [f_content_start with_content]. destruct (Z.eqb_spec n 0) as [E|E].
  - rewrite E, (Hz E). cbn [Z.eqb]. destruct (128 <=? l.[1]); cbn [andb]; [done|]. cbn [with_content f_content_start Z.eqb negb].
    rewrite (proj2 (Z.ltb_ge _ _)) by lia. by rewrite Z.add_0_r.
  - rewrite (proj2 (Z.eqb_neq (b_start b + size) 0)) by lia. rewrite andb_false_r.
    destruct (128 <=? l.[1]); cbn [andb with_content f_content_start f_content_length f_mask negb].
    + rewrite (proj2 (Z.eqb_neq _ 0)) by lia. cbn [negb]. replace (b_start b + size + 4 - b_start b + n) with (size + 4 + n) by lia.
      rewrite u64_id, <- Hl by lia.
      replace (b_start b + size + 4) with (b_start b + (size + 4)) by lia.
      replace (b_start b + (size + 4) + n) with (b_start b + (size + 4 + n)) by lia. by case_match.
    + rewrite (proj2 (Z.eqb_neq _ 0)) by lia. cbn [negb]. replace (b_start b + size - b_start b + n) with (size + n) by lia. rewrite u64_id, <- Hl by lia.
      replace (b_start b + size + n) with (b_start b + (size + n)) by lia. by case_match.
Qed.
(** The length, when the header is complete. *)
Lemma payload_length_spec g : f_buffer g = Some b -> f_mask g = NULL -> exists g', f_buffer g' = Some b /\ f_config g' = f_config g /\
  parse_payload_length m g = Some (match head_of l with
    | H_error => (OV_WEBSOCKET_PARSER_ERROR, g', None)
    | H_more => (OV_WEBSOCKET_PARSER_PROGRESS, g', None)
    | H_length size masked n =>
        let g2 := with_content g (if masked then b_start b + size else NULL) (if n =? 0 then NULL else b_start b + body_start size masked) n in
        if Zlen l <? frame_size size masked n then (OV_WEBSOCKET_PARSER_PROGRESS, g2, None) else (OV_WEBSOCKET_PARSER_SUCCESS, g2,
          Some (b_start b + frame_size size masked n))
    end).
Proof using Hm Hb Hl Hs H2.
  intros Hg Hmask. unfold parse_payload_length. rewrite Hg, <- Hl, Hmask. unfold head_of. destruct (Z.ltb_spec (Zlen l) 2); [by exists g|].
  rewrite (octet_at 1) by lia. cbn [mbind option_bind]. rewrite octet_low by auto with ov. cbv zeta. pose proof (bytes_znth l 1 Hb) as Hb1.
  unfold is_byte in Hb1.
  pose proof (Z.mod_pos_bound l.[1] 128 ltac:(lia)) as Hn. destruct (Z.ltb_spec (l.[1] mod 128) 126).
  { rewrite (finish_spec g 2) by (done || lia). cbv zeta. destruct (_ && _); [by eexists; split; [|split; [|reflexivity]]|]. by exists g. }
  destruct (Z.eqb_spec (l.[1] mod 128) 126).
  - destruct (Z.ltb_spec (Zlen l) 4); [by exists g|]. rewrite !octet_at by lia. cbn [mbind option_bind]. rewrite lor_bytes2, <- be16_val by auto with ov.
    destruct (Z.ltb_spec (be_val [l.[2]; l.[3]]) 125); [by eexists; split; [|split; [|reflexivity]]|]. set (n := be_val [l.[2]; l.[3]]) in *.
    assert (Hn2 : n < 2 ^ 16) by (unfold n; rewrite be16_val by auto with ov; pose proof (bytes_znth l 2 Hb); pose proof (bytes_znth l 3 Hb);
      unfold is_byte in *; lia). clearbody n.
    pose proof (finish_spec g 4 n Hg) as Hfin. cbv zeta in Hfin. rewrite (proj2 (Z.eqb_neq n 0)) in Hfin by lia. rewrite Hfin by lia.
    rewrite andb_false_r, (proj2 (Z.eqb_neq n 0)) by lia. by exists g.
  - assert (E2 : load8 m (b_start b + 2) = Some l.[2]).
    { destruct (decide (Zlen l = 2)) as [E|E]; [|apply octet_at; lia]. rewrite H2 by lia. by rewrite znth_out by lia. }
    rewrite E2. cbn [mbind option_bind]. rewrite octet_high by auto with ov. destruct (Z.leb_spec 128 l.[2]); [by exists g|].
    destruct (Z.ltb_spec (Zlen l) 10); [by exists g|]. rewrite !octet_at by lia. cbn [mbind option_bind]. rewrite be_val_8.
    assert (Hn2 : 0 <= be_val [l.[2]; l.[3]; l.[4]; l.[5]; l.[6]; l.[7]; l.[8]; l.[9]] < 2 ^ 63).
    { assert (Hz : Zlen (ztake 8 (zdrop 2 l)) = 8) by (rewrite Zlen_ztake, Zlen_zdrop; lia).
      pose proof (be_val_8_bound (ztake 8 (zdrop 2 l)) ltac:(by apply bytes_ztake, bytes_zdrop)) as H8. rewrite !znth_ztake, !znth_zdrop in H8 by lia.
      by apply H8. }
    set (k := be_val _) in *. clearbody k. change 0x10000 with (2 ^ 16). destruct (Z.ltb_spec k (2 ^ 16)); [by exists g|].
    pose proof (finish_spec g 10 k Hg) as Hfin. cbv zeta in Hfin. rewrite (proj2 (Z.eqb_neq k 0)) in Hfin by lia. rewrite Hfin by lia.
    rewrite andb_false_r, (proj2 (Z.eqb_neq k 0)) by lia. by exists g.
Qed.
Lemma parse_spec : exists f', unchanged f' /\ ov_websocket_parse_frame m f = Some (match head_of l with
    | H_error => (OV_WEBSOCKET_PARSER_ERROR, f', None)
    | H_more => (OV_WEBSOCKET_PARSER_PROGRESS, f', None)
    | H_length size masked n =>
        if Zlen l <? frame_size size masked n then (OV_WEBSOCKET_PARSER_PROGRESS, f', None)
        else if known_opcode (l.[0] mod 16) then (OV_WEBSOCKET_PARSER_SUCCESS, found f b l.[0] size masked n, Some (b_start b + frame_size size masked n))
        else (OV_WEBSOCKET_PARSER_ERROR, f', Some (b_start b))
    end).
Proof using Hf Hm Hb Hl Hs H2.
  unfold ov_websocket_parse_frame. pose proof Hm as [Hp _]. rewrite Hf. unfold NULL at 1.
  rewrite (proj2 (Z.eqb_neq _ 0)), (proj2 (Z.eqb_neq _ 0)) by lia. cbn [orb].
  set (g := with_content f NULL NULL 0). destruct (payload_length_spec g Hf eq_refl) as (g' & Hg1 & Hg2 & ->). cbn [mbind option_bind].
  destruct (head_of l) as [| |size masked n]; cbn [mbind option_bind].
  - exists g'. by split.
  - exists g'. by split.
  - cbv zeta. destruct (_ <? _); cbn [mbind option_bind].
    + eexists. split; [|reflexivity]. by split.
    + rewrite bool_decide_eq_true_2 by done. cbn [negb]. rewrite (load8_region_0 m _ l Hm) by lia. cbn [mbind option_bind].
      rewrite octet_nibble. destruct (known_opcode (l.[0] mod 16)); cbn [negb].
      * exists f. split; [by split|]. unfold found, with_kind. cbn [f_config f_mask f_content_start f_content_length f_buffer with_content g]. by rewrite Hf.
      * eexists. split; [|reflexivity]. by split.
Qed.
End parse.

(** ** The parser and the format *)

Lemma be16_of_val a b : is_byte a -> is_byte b -> be16 (be_val [a; b]) = [a; b].
Proof. intros Ha Hb. rewrite be16_val by done. unfold is_byte in *. rewrite be16_div by lia. f_equal; [|f_equal]; Z.div_mod_to_equations; lia. Qed.
Lemma be64_be_val a b c d e g h i : bytes [a; b; c; d; e; g; h; i] -> be64 (be_val [a; b; c; d; e; g; h; i]) = [a; b; c; d; e; g; h; i].
Proof.
  unfold bytes. rewrite !Forall_cons. unfold is_byte. intros (Ha & Hb & Hc & Hd & He & Hg & Hh & Hi & _). unfold be64, be_val, u8. cbn [fold_left].
  rewrite !Z.shiftr_div_pow2 by lia.
  list_cong; Z.div_mod_to_equations; lia.
Qed.
Lemma field_head flag field n tail b0 : flag = 0 \/ flag = 128 -> size_field flag field n -> (flag = 128 -> n <> 0) -> is_byte b0 -> bytes tail ->
  bytes (b0 :: field ++ tail) /\ 2 <= Zlen (b0 :: field) /\ head_of (b0 :: field ++ tail) = H_length (Zlen (b0 :: field)) (bool_decide (flag = 128)) n.
Proof.
  intros Hflag Hs Hn0 H0 Ht. assert (Hbool : forall x, 0 <= x < 128 -> (128 <=? flag + x) = bool_decide (flag = 128) /\ (flag + x) mod 128 = x).
  { intros x Hx. split; [|destruct Hflag as [->| ->]; [|rewrite Z.add_mod, Z_mod_same_full, Z.add_0_l, Zmod_mod by lia]; apply Z.mod_small; lia].
    destruct Hflag as [->| ->]; [rewrite bool_decide_eq_false_2 by lia; apply Z.leb_gt; lia|rewrite bool_decide_eq_true_2 by lia; apply Z.leb_le; lia]. }
  unfold head_of. pose proof (Zlen_nonneg tail).
  assert (Hfb : forall x, 0 <= x < 128 -> is_byte (flag + x)) by (intros x Hx; unfold is_byte; destruct Hflag; lia).
  destruct Hs as [n Hn|n Hn|n Hn].
  - destruct (Hbool n ltac:(lia)) as [E1 E2].
    split; [apply bytes_cons; split; [done|]; apply bytes_app; split; [|done]; apply bytes_cons; split; [apply Hfb; lia|constructor]|].
    split; [rewrite !Zlen_cons; change (Zlen (@nil Z)) with 0; lia|]. cbn [app]. rewrite !Zlen_cons. change (Zlen (@nil Z)) with 0.
    rewrite (proj2 (Z.ltb_ge _ 2)) by lia.
    change ((b0 :: flag + n :: tail).[1]) with (flag + n). rewrite E1, E2, (proj2 (Z.ltb_lt _ _)) by lia.
    destruct (bool_decide_reflect (flag = 128)) as [Hf|Hf]; cbn [andb]; [|done]. by rewrite (proj2 (Z.eqb_neq n 0)) by auto.
  - destruct (Hbool 126 ltac:(lia)) as [E1 E2].
    split; [apply bytes_cons; split; [done|]; apply bytes_app; split; [|done]; apply bytes_cons; split; [apply Hfb; lia|apply bytes_be16]|].
    split; [rewrite !Zlen_cons, Zlen_be16; lia|]. cbn [app]. rewrite !Zlen_cons, !Zlen_app, Zlen_be16.
    rewrite (proj2 (Z.ltb_ge _ 2)), (proj2 (Z.ltb_ge _ 4)) by lia.
    change ((b0 :: flag + 126 :: be16 n ++ tail).[1]) with (flag + 126). rewrite E1, E2. cbn [Z.ltb Z.eqb Z.compare Pos.compare Pos.compare_cont Pos.eqb].
    change [_; _] with (be16 n). rewrite be_val_be16 by lia. by rewrite (proj2 (Z.ltb_ge n 125)) by lia.
  - destruct (Hbool 127 ltac:(lia)) as [E1 E2].
    split; [apply bytes_cons; split; [done|]; apply bytes_app; split; [|done]; apply bytes_cons; split; [apply Hfb; lia|apply bytes_be64]|].
    split; [rewrite !Zlen_cons, Zlen_be64; lia|]. cbn [app]. rewrite !Zlen_cons, !Zlen_app, Zlen_be64.
    rewrite (proj2 (Z.ltb_ge _ 2)), (proj2 (Z.ltb_ge _ 10)) by lia.
    change ((b0 :: flag + 127 :: be64 n ++ tail).[1]) with (flag + 127). rewrite E1, E2. cbn [Z.ltb Z.eqb Z.compare Pos.compare Pos.compare_cont Pos.eqb].
    change ((b0 :: flag + 127 :: be64 n ++ tail).[2]) with (u8 (n .>> 56)). rewrite (proj2 (Z.leb_gt 128 _)).
    2: { unfold u8. rewrite Z.shiftr_div_pow2 by lia. Z.div_mod_to_equations. lia. }
    change [_; _; _; _; _; _; _; _] with (be64 n). rewrite be_val_be64 by lia. by rewrite (proj2 (Z.ltb_ge n (2 ^ 16))) by lia.
Qed.
(** A frame in front is found. *)
Definition frame_facts (b0 : Z) (key payload w : list Z) (size : Z) : Prop :=
  2 <= size /\ Zlen w = frame_size size (bool_decide (key <> [])) (Zlen payload) /\ zdrop size w = key ++ payload /\ w.[0] = b0 /\ bytes w /\
  (key = [] \/ Zlen key = 4 /\ payload <> []) /\ forall r, bytes r -> head_of (w ++ r) = H_length size (bool_decide (key <> [])) (Zlen payload).
Lemma frame_facts_of b0 key payload w : frame_octets b0 key payload w -> exists size, frame_facts b0 key payload w size.
Proof.
  intros [b1 field pl H0 Hp Hf|b1 field k pl H0 Hp Hk Hk4 Hne Hf]; exists (Zlen (b1 :: field)); unfold frame_facts, frame_size, body_start.
  - destruct (field_head 0 field (Zlen pl) pl b1 ltac:(by left) Hf ltac:(done) H0 Hp) as (Hb & Hs & _).
    split; [done|]. rewrite bool_decide_eq_false_2 by auto. split; [rewrite !Zlen_cons, Zlen_app; lia|]. split; [by apply (zdrop_app (b1 :: field))|].
    split; [done|]. split; [done|].
    split; [by left|]. intros r Hr. destruct (field_head 0 field (Zlen pl) (pl ++ r) b1 ltac:(by left) Hf ltac:(done) H0) as (_ & _ & E); [by apply bytes_app|].
    rewrite <- app_comm_cons, <- app_assoc. by rewrite E.
  - assert (Hk0 : k <> []) by (intros ->; done). assert (Hn0 : Zlen pl <> 0) by (intros E; by apply Zlen_0_nil in E).
    assert (Hkp : bytes (k ++ pl)) by (by apply bytes_app).
    destruct (field_head 128 field (Zlen pl) (k ++ pl) b1 ltac:(by right) Hf ltac:(done) H0 Hkp) as (Hb & Hs & _).
    split; [done|]. rewrite bool_decide_eq_true_2 by done. split; [rewrite !Zlen_cons, !Zlen_app; lia|]. split; [by apply (zdrop_app (b1 :: field))|].
    split; [done|]. split; [done|].
    split; [by right|]. intros r Hr. destruct (field_head 128 field (Zlen pl) ((k ++ pl) ++ r) b1 ltac:(by right) Hf ltac:(done) H0) as (_ & _ & E);
      [by apply bytes_app|].
    rewrite <- app_comm_cons, <- app_assoc. by rewrite E.
Qed.
(** What is found is a frame. *)
Lemma head_frame l size masked n : bytes l -> head_of l = H_length size masked n -> frame_size size masked n <= Zlen l ->
  exists key payload w r, l = w ++ r /\ frame_octets l.[0] key payload w /\ Zlen payload = n.
Proof.
  intros Hb Hh Hn. assert (Hl2 : 2 <= Zlen l) by (unfold head_of in Hh; destruct (Z.ltb_spec (Zlen l) 2); [done|lia]).
  assert (E : exists field rest, l = l.[0] :: field ++ rest /\ size_field (if masked then 128 else 0) field n /\ size = Zlen (l.[0] :: field) /\
    (masked = true -> n <> 0) /\ 0 <= n).
  { unfold head_of in Hh. rewrite (proj2 (Z.ltb_ge _ 2)) in Hh by lia. pose proof (bytes_znth l 1 Hb) as H1. unfold is_byte in H1.
    pose proof (Z.mod_pos_bound l.[1] 128 ltac:(lia)) as Hmod. assert (Eflag : forall x, l.[1] mod 128 = x -> l.[1] = (if 128 <=? l.[1] then 128 else 0) + x).
    { intros x <-. destruct (Z.leb_spec 128 l.[1]); Z.div_mod_to_equations; lia. }
    destruct (Z.ltb_spec (l.[1] mod 128) 126) as [Hlt|Hge]; [|destruct (Z.eqb_spec (l.[1] mod 128) 126) as [E126|E126]].
    - destruct (_ && _) eqn:Em; [done|]. injection Hh as <- <- <-. exists [l.[1]], (zdrop 2 l). split; [exact (split_2 l Hl2)|].
      split; [rewrite (Eflag _ eq_refl) at 2; constructor; lia|].
      split; [done|]. split; [|lia]. intros Hm E0. by rewrite Hm, E0 in Em.
    - destruct (Z.ltb_spec (Zlen l) 4); [done|]. destruct (Z.ltb_spec (be_val [l.[2]; l.[3]]) 125); [done|]. injection Hh as <- <- <-.
      pose proof (bytes_znth l 2 Hb) as B2. pose proof (bytes_znth l 3 Hb) as B3. exists [l.[1]; l.[2]; l.[3]], (zdrop 4 l).
      split; [exact (split_4 l ltac:(lia))|].
      pose proof (be16_val _ _ B2 B3) as Ev. unfold is_byte in B2, B3. split; [|split; [done|split; [lia|lia]]].
      replace [l.[1]; l.[2]; l.[3]] with ((if 128 <=? l.[1] then 128 else 0) + 126 :: be16 (be_val [l.[2]; l.[3]])); [constructor; lia|].
      by rewrite be16_of_val, <- (Eflag _ E126).
    - destruct (Z.leb_spec 128 l.[2]) as [|H2]; [done|]. destruct (Z.ltb_spec (Zlen l) 10); [done|].
      set (b8 := [l.[2]; l.[3]; l.[4]; l.[5]; l.[6]; l.[7]; l.[8]; l.[9]]) in *.
      destruct (Z.ltb_spec (be_val b8) (2 ^ 16)); [done|]. injection Hh as <- <- <-.
      assert (Hb8 : bytes b8) by (unfold b8; rewrite !bytes_cons; auto 12 with ov).
      pose proof (be_val_8_bound b8 Hb8 H2 eq_refl) as Hv. exists (l.[1] :: b8), (zdrop 10 l). split; [|split; [|split; [done|split; [lia|lia]]]].
      + assert (E10 : zdrop 2 l = b8 ++ zdrop 10 l) by (unfold b8; cbn [app]; do 8 (rewrite zdrop_cons by zlia; f_equal)).
        rewrite (split_2 l) at 1 by lia. by rewrite E10.
      + replace (l.[1] :: b8) with ((if 128 <=? l.[1] then 128 else 0) + 127 :: be64 (be_val b8)); [constructor; split; [done|apply Hv]|].
        unfold b8 at 1. by rewrite be64_be_val, <- (Eflag 127) by (done || lia). }
  destruct E as (field & rest & E & Hf & Es & Hm & Hn0). pose proof (bytes_znth l 0 Hb) as B0. assert (Hbr : bytes rest).
  { rewrite E in Hb. apply bytes_cons in Hb as [_ Hb]. by apply bytes_app in Hb as [_ Hb]. }
  assert (Hlen : Zlen l = size + Zlen rest) by (rewrite E, Es, !Zlen_cons, Zlen_app; lia). unfold frame_size, body_start in Hn. destruct masked.
  - set (key := ztake 4 rest). set (payload := ztake n (zdrop 4 rest)). assert (Hp : Zlen payload = n) by (unfold payload; rewrite Zlen_ztake, Zlen_zdrop; lia).
    exists key, payload, (l.[0] :: field ++ key ++ payload), (zdrop n (zdrop 4 rest)). split; [|split; [|done]].
    + rewrite E at 1. rewrite <- app_comm_cons, <- !app_assoc. unfold payload, key. by rewrite !ztake_zdrop.
    + constructor; try done; try (by apply bytes_ztake); [by apply bytes_ztake, bytes_zdrop|unfold key; rewrite Zlen_ztake; lia| |by rewrite Hp].
      intros E0. rewrite E0 in Hp. by apply (Hm eq_refl).
  - set (payload := ztake n rest). assert (Hp : Zlen payload = n) by (unfold payload; rewrite Zlen_ztake; lia).
    exists [], payload, (l.[0] :: field ++ payload), (zdrop n rest). split; [|split; [|done]].
    + rewrite E at 1. rewrite <- app_comm_cons, <- !app_assoc. unfold payload. by rewrite ztake_zdrop.
    + constructor; try done; [by apply bytes_ztake|by rewrite Hp].
Qed.
(** An error does not go away with more octets. *)
Lemma head_error l ext : bytes ext -> head_of l = H_error -> head_of (l ++ ext) = H_error.
Proof.
  intros He. unfold head_of. pose proof (Zlen_nonneg ext). rewrite Zlen_app. destruct (Z.ltb_spec (Zlen l) 2); [done|].
  rewrite (proj2 (Z.ltb_ge (_ + _) 2)), !(znth_app_l l ext 1) by lia.
  destruct (_ <? 126); [done|]. destruct (_ =? 126).
  - destruct (Z.ltb_spec (Zlen l) 4); [done|]. by rewrite (proj2 (Z.ltb_ge (_ + _) 4)), !znth_app_l by lia.
  - destruct (Z.leb_spec 128 l.[2]) as [H2|H2].
    + assert (3 <= Zlen l). { destruct (decide (3 <= Zlen l)); [done|]. rewrite znth_out in H2 by lia. lia. }
      rewrite znth_app_l by lia. by rewrite (proj2 (Z.leb_le 128 l.[2])) by lia.
    + destruct (Z.ltb_spec (Zlen l) 10); [done|]. rewrite (proj2 (Z.ltb_ge (_ + _) 10)), !znth_app_l by lia. by rewrite (proj2 (Z.leb_gt 128 l.[2])) by lia.
Qed.

(** The pointers of a parsed frame. *)
Record describes (m : mem) (f : ov_websocket_frame) (b0 : Z) (key payload : list Z) : Prop := {
  ds_opcode : f_opcode f = b0 mod 16; ds_state : f_state f = fragmentation_state b0;
  ds_length : f_content_length f = Zlen payload;
  ds_content : if bool_decide (payload = []) then f_content_start f = NULL else region m (f_content_start f) payload;
  ds_mask : if bool_decide (key = []) then f_mask f = NULL else region m (f_mask f) key;
  ds_place : key <> [] -> f_content_start f = f_mask f + 4 }.
Lemma found_describes m f b b0 key payload w r : region m (b_start b) (w ++ r) -> frame_octets b0 key payload w ->
  exists size, frame_facts b0 key payload w size /\ describes m (found f b b0 size (bool_decide (key <> [])) (Zlen payload)) b0 key payload.
Proof.
  intros Hm Hf. destruct (frame_facts_of b0 key payload w Hf) as (size & Hff). exists size. split; [done|]. destruct Hff as (Hs & Hl & Hd & _ & _ & Hk & _).
  apply region_app_l in Hm. pose proof (Zlen_nonneg payload). assert (Hkp : region m (b_start b + size) (key ++ payload)).
  { rewrite <- Hd. apply region_zdrop; [done|]. rewrite Hl. unfold frame_size, body_start. case_match; lia. }
  split; try done; cbn [found f_content_start f_mask].
  - destruct (bool_decide_reflect (payload = [])) as [Ep|Ep]; [by rewrite Ep|]. rewrite (proj2 (Z.eqb_neq _ 0)) by (intros E; by apply Zlen_0_nil in E).
    apply (region_app_r m (b_start b + size) _ key payload); [done|]. unfold body_start. destruct Hk as [->|[E4 Hne]].
    + rewrite bool_decide_eq_false_2 by auto. change (Zlen (@nil Z)) with 0. lia.
    + rewrite bool_decide_eq_true_2 by (intros ->; done). lia.
  - destruct (bool_decide_reflect (key = [])) as [Ek|Ek]; [by rewrite bool_decide_eq_false_2 by auto|]. rewrite bool_decide_eq_true_2 by done.
    by eapply region_app_l.
  - intros Ek. destruct Hk as [Hk|[_ Hne]]; [done|].
    rewrite bool_decide_eq_true_2, (proj2 (Z.eqb_neq _ 0)) by first [done|intros E; by apply Zlen_0_nil in E]. unfold body_start. lia.
Qed.
Lemma parse_found m f b b0 key payload w r : f_buffer f = Some b -> region m (b_start b) (w ++ r) -> bytes r -> Zlen (w ++ r) = b_length b ->
  Zlen (w ++ r) < 2 ^ 62 ->
  frame_octets b0 key payload w -> known_opcode (b0 mod 16) = true ->
  exists f', ov_websocket_parse_frame m f = Some (OV_WEBSOCKET_PARSER_SUCCESS, f', Some (b_start b + Zlen w)) /\
    f_buffer f' = Some b /\ f_config f' = f_config f /\ describes m f' b0 key payload.
Proof.
  intros Hf Hm Hr Hl Hs Hfo Hop. destruct (found_describes m f b b0 key payload w r Hm Hfo) as (size & (Hs2 & Hlw & _ & H0 & Hbw & _ & Hh) & Hd).
  assert (Hlw2 : 2 <= Zlen w) by (rewrite Hlw; unfold frame_size, body_start; pose proof (Zlen_nonneg payload); case_match; lia). pose proof (Zlen_nonneg r).
  assert (H2 : Zlen (w ++ r) = 2 -> (w ++ r).[1] mod 128 = 127 -> load8 m (b_start b + 2) = Some 0).
  { intros E2 E127. specialize (Hh r Hr). unfold head_of in Hh. rewrite E2, E127 in Hh.
    cbn [Z.ltb Z.eqb Z.compare Pos.compare Pos.compare_cont Pos.eqb] in Hh. by case_match. }
  destruct (parse_spec m f b (w ++ r) Hf Hm ltac:(by apply bytes_app) Hl ltac:(rewrite Zlen_app in *; lia) H2) as (f' & _ & E). rewrite (Hh r Hr) in E.
  rewrite <- Hlw, (proj2 (Z.ltb_ge _ _)), znth_app_l, H0, Hop in E by (rewrite ?Zlen_app; lia). eexists. split; [exact E|]. by split.
Qed.

(** C16: parsing a buffer always returns, reads nothing but its octets - and the
    octet behind them when there are two and the second announces a 64 bit length,
    which must be mapped and 0 then (the code reads it before it looks at the
    length) - and finds exactly the frames of RFC 6455 in the form the code reads: on success a frame with a known opcode stands in
    front, [next] points behind it, and opcode, fragmentation, mask and content
    describe it; while the octets end too early there is no complete frame in
    front; after an error nothing that follows could complete one. *)
Theorem websocket_parse_exact m f b l : f_buffer f = Some b -> region m (b_start b) l -> bytes l -> Zlen l = b_length b -> 1 <= Zlen l < 2 ^ 62 ->
  (Zlen l = 2 -> l.[1] mod 128 = 127 -> load8 m (b_start b + 2) = Some 0) ->
  exists st f' next, ov_websocket_parse_frame m f = Some (st, f', next) /\ f_buffer f' = Some b /\
    match st with
    | OV_WEBSOCKET_PARSER_SUCCESS => exists b0 key payload w r, l = w ++ r /\ frame_octets b0 key payload w /\ known_opcode (b0 mod 16) = true /\
        next = Some (b_start b + Zlen w) /\ describes m f' b0 key payload
    | OV_WEBSOCKET_PARSER_PROGRESS => forall b0 key payload w r, frame_octets b0 key payload w -> l <> w ++ r
    | OV_WEBSOCKET_PARSER_ERROR => forall ext b0 key payload w r, bytes ext -> frame_octets b0 key payload w -> known_opcode (b0 mod 16) = true ->
      l ++ ext <> w ++ r
    end.
Proof.
  intros Hf Hm Hb Hl Hs H2. destruct (parse_spec m f b l Hf Hm Hb Hl Hs H2) as (f' & [Hu _] & E).
  assert (Hhead : forall ext b0 key payload w r, bytes ext -> frame_octets b0 key payload w -> l ++ ext = w ++ r ->
    exists size n, head_of (l ++ ext) = H_length size (bool_decide (key <> [])) n /\ Zlen w = frame_size size (bool_decide (key <> [])) n /\ l.[0] = b0).
  { intros ext b0 key payload w r He Hfo Ew. destruct (frame_facts_of _ _ _ _ Hfo) as (size & (Hs2 & Hlw & _ & H0 & Hbw & _ & Hh)). exists size, (Zlen payload).
    assert (Hbe : bytes (w ++ r)) by (rewrite <- Ew; by apply bytes_app). apply bytes_app in Hbe as [_ Hr]. rewrite Ew. split; [by apply Hh|]. split; [done|].
    rewrite <- H0, <- (znth_app_l l ext), Ew by lia. apply znth_app_l. rewrite Hlw. unfold frame_size, body_start. pose proof (Zlen_nonneg payload).
    destruct (bool_decide (key <> [])); lia. }
  destruct (head_of l) as [| |size masked n] eqn:Eh.
  - exists OV_WEBSOCKET_PARSER_ERROR, f', None. split; [done|]. split; [done|]. intros ext b0 key payload w r He Hfo _ Ew.
    destruct (Hhead ext b0 key payload w r He Hfo Ew) as (size & n & Eh' & _). by rewrite (head_error l ext He Eh) in Eh'.
  - exists OV_WEBSOCKET_PARSER_PROGRESS, f', None. split; [done|]. split; [done|]. intros b0 key payload w r Hfo Ew.
    destruct (Hhead [] b0 key payload w r ltac:(constructor) Hfo) as (size & n & Eh' & _); [by rewrite app_nil_r|]. rewrite app_nil_r in Eh'. congruence.
  - destruct (Z.ltb_spec (Zlen l) (frame_size size masked n)) as [Hlt|Hge].
    + exists OV_WEBSOCKET_PARSER_PROGRESS, f', None. split; [done|]. split; [done|]. intros b0 key payload w r Hfo Ew.
      destruct (Hhead [] b0 key payload w r ltac:(constructor) Hfo) as (size' & n' & Eh' & Hw & _); [by rewrite app_nil_r|].
      rewrite app_nil_r, Eh in Eh'. injection Eh' as <- Ek <-.
      rewrite Ek, <- Hw, Ew, Zlen_app in Hlt. pose proof (Zlen_nonneg r). lia.
    + destruct (known_opcode (l.[0] mod 16)) eqn:Eo.
      * destruct (head_frame l size masked n Hb Eh Hge) as (key & payload & w & r & -> & Hfo & En).
        apply bytes_app in Hb as [_ Hr].
        destruct (parse_found m f b _ key payload w r Hf Hm Hr Hl ltac:(lia) Hfo Eo) as (f1 & E1 & Hf1 & _ & Hd).
        exists OV_WEBSOCKET_PARSER_SUCCESS, f1, (Some (b_start b + Zlen w)).
        split; [done|]. split; [done|]. by exists ((w ++ r).[0]), key, payload, w, r.
      * eexists OV_WEBSOCKET_PARSER_ERROR, f', _. split; [exact E|]. split; [done|]. intros ext b0 key payload w r He Hfo Hop Ew.
        destruct (Hhead ext b0 key payload w r He Hfo Ew) as (size' & n' & _ & _ & <-). congruence.
Qed.

Lemma websocket_parse_exact_witness : let l := [0x81; 0x83; 1; 2; 3; 4; 96; 96; 96; 0x89] in
  exists st f' next, ov_websocket_parse_frame (write ∅ 16 l) (empty_frame {| default_size := 0; max_bytes_recache := 0 |} (Some {| b_start := 16;
    b_length := 10; b_capacity := 16; b_block := 17 |})) = Some (st, f', next).
Proof.
  intros l. destruct (websocket_parse_exact (write ∅ 16 l) (empty_frame {| default_size := 0; max_bytes_recache := 0 |} (Some {| b_start := 16;
    b_length := 10; b_capacity := 16; b_block := 17 |}))
    {| b_start := 16; b_length := 10; b_capacity := 16; b_block := 17 |} l) as (st & f' & next & E & _).
  { done. } { by apply region_write. } { by repeat constructor. } { done. } { by vm_compute. } { done. }
  by exists st, f', next.
Defined.

(** ** Masking *)

Fixpoint masked_from (key : list Z) (i : Z) (l : list Z) : list Z :=
  match l with [] => [] | x :: l => (x .^ key.[i mod 4]) :: masked_from key (i + 1) l end.
(** The payload as it is sent. *)
Definition sent (key payload : list Z) : list Z := if bool_decide (key = []) then payload else masked_from key 0 payload.
Lemma masked_length key i l : Zlen (masked_from key i l) = Zlen l.
Proof. revert i. induction l as [|x l IH]; intros i; [done|]. cbn [masked_from]. by rewrite !Zlen_cons, IH. Qed.
Lemma masked_bytes key i l : bytes key -> bytes l -> bytes (masked_from key i l).
Proof.
  intros Hk Hl. revert i. induction Hl as [|x l Hx _ IH]; intros i; [constructor|]. cbn [masked_from]. constructor; [|apply IH].
  apply lxor_byte; [done|by apply bytes_znth].
Qed.
Lemma masked_twice key i l : masked_from key i (masked_from key i l) = l.
Proof.
  revert i. induction l as [|x l IH]; intros i; [done|]. cbn [masked_from]. rewrite IH. f_equal. rewrite Z.lxor_assoc, Z.lxor_nilpotent. apply Z.lxor_0_r.
Qed.
Lemma sent_twice key l : sent key (sent key l) = l.
Proof. unfold sent. case_bool_decide; [done|]. apply masked_twice. Qed.
Lemma sent_length key l : Zlen (sent key l) = Zlen l.
Proof. unfold sent. case_bool_decide; [done|]. apply masked_length. Qed.
Lemma sent_bytes key l : bytes key -> bytes l -> bytes (sent key l).
Proof. unfold sent. case_bool_decide; [done|]. apply masked_bytes. Qed.
Lemma mask_loop_spec m buffer i l mask key : region m (buffer + i) l -> region m mask key -> Zlen key = 4 -> bytes key -> bytes l ->
  mask + 4 <= buffer + i \/ buffer + i + Zlen l <= mask -> 0 <= i -> mask_loop m buffer i (length l) mask = Some (write m (buffer + i) (masked_from key i l)).
Proof.
  revert m i. induction l as [|x l IH]; intros m i Hl Hk Hk4 Hbk Hbl Hd Hi; [done|]. cbn [length mask_loop masked_from write].
  apply bytes_cons in Hbl as [Hx Hbl].
  pose proof (Z.mod_pos_bound i 4 ltac:(lia)) as Hmod. rewrite Zlen_cons in Hd. pose proof (Zlen_nonneg l).
  rewrite (load8_at_0 m _ x l Hl). cbn [mbind option_bind]. rewrite (u8_id (i mod 4)) by (unfold is_byte; lia).
  rewrite (load8_region m mask key) by (done || lia). cbn [mbind option_bind].
  assert (Hxk : is_byte (x .^ key.[i mod 4])) by (apply lxor_byte; [done|by apply bytes_znth]).
  rewrite (store8_mapped m (buffer + i) (Zlen (x :: l))) by (first [by apply region_mapped|rewrite Zlen_cons; lia]). rewrite (u8_id (x .^ _)) by done.
  cbn [mbind option_bind write].
  set (y := x .^ key.[i mod 4]) in *. set (m1 := <[buffer + i := y]> m).
  assert (Hm1 : forall p k, region m p k -> p + Zlen k <= buffer + i \/ buffer + i + 1 <= p ->
    region m1 p k) by (intros p k Hr Ho; apply (region_write_out m p k (buffer + i) [y]); [done|change (Zlen [y]) with 1; lia]).
  rewrite (IH m1 (i + 1)); [f_equal; f_equal; lia| |by apply Hm1; [|lia]|done|done|done|lia|lia].
  apply Hm1; [|lia]. apply (region_app_r m (buffer + i) _ [x]); [done|]. change (Zlen [x]) with 1. lia.
Qed.
Lemma mask_data_spec m buffer l mask key : region m buffer l -> region m mask key -> Zlen key = 4 -> bytes key -> bytes l -> 0 < Zlen l ->
  mask + 4 <= buffer \/ buffer + Zlen l <= mask -> mask_data m buffer (Zlen l) mask = Some (true, write m buffer (masked_from key 0 l)).
Proof.
  intros Hl Hk Hk4 Hbk Hbl Hl0 Hd. pose proof Hl as [Hp _]. pose proof Hk as [Hq _]. unfold mask_data, NULL.
  rewrite (proj2 (Z.eqb_neq buffer 0)), (proj2 (Z.eqb_neq mask 0)), (proj2 (Z.ltb_ge _ 1)) by lia. cbn [orb].
  assert (E : Z.to_nat (Zlen l) = length l) by (unfold Zlen; lia). rewrite E.
  rewrite (mask_loop_spec m buffer 0 l mask key) by (done || lia || by rewrite Z.add_0_r). cbn [mbind option_bind]. by rewrite Z.add_0_r.
Qed.

(** ** Setting the data of a frame *)

(** The shortest form of the length, one more than in the parser. *)
Definition field_of (flag n : Z) : list Z := if n <? 126 then [flag + n] else if n <? 0xffff then flag + 126 :: be16 n else flag + 127 :: be64 n.
Lemma length_octets_field mask n : 0 <= n < 2 ^ 63 -> u8 <$> length_octets (if mask : bool then 0x80 else 0) n = field_of (if mask then 128 else 0) n.
Proof.
  intros Hn. unfold length_octets, field_of. assert (Hf : forall x, 0 <= x < 128 -> u8 ((if mask then 0x80 else 0) .| x) = (if mask then 128 else 0) + x).
  { intros x Hx. destruct mask; [|rewrite Z.lor_0_l; apply u8_id; unfold is_byte; lia]. pose proof (lor_shift_add 1 x 7 ltac:(lia) Hx) as E.
    change (1 .<< 7) with 0x80 in E. rewrite E. apply u8_id. unfold is_byte. lia. }
  destruct (Z.ltb_spec n 126); [|destruct (Z.ltb_spec n 0xffff)]; rewrite !fmap_cons, fmap_nil, Hf by lia; [done| |].
  - unfold be16. done.
  - unfold be64. done.
Qed.
Lemma field_of_size flag n : 0 <= n < 2 ^ 63 -> n <> 0xffff -> size_field flag (field_of flag n) n.
Proof. intros Hn Hne. unfold field_of. destruct (Z.ltb_spec n 126); [|destruct (Z.ltb_spec n 0xffff)]; constructor; lia. Qed.
Lemma field_of_length mask n : 0 <= n < 2 ^ 63 -> Zlen (length_octets (if mask : bool then 0x80 else 0) n) = Zlen (field_of (if mask then 128 else 0) n) /\
  1 + Zlen (field_of (if mask then 128 else 0) n) = (if n <? 126 then 2 else if n <? 0xffff then 4 else 10).
Proof.
  intros Hn. rewrite <- length_octets_field by done. unfold Zlen at 2. rewrite length_fmap. split; [done|]. unfold length_octets. repeat case_match; done.
Qed.
Definition key_ok (mask : bool) (key payload : list Z) : Prop := if mask then Zlen key = 4 /\ bytes key /\ payload <> [] else key = [].
Lemma zeros_app a b : 0 <= a -> 0 <= b -> zeros (a + b) = zeros a ++ zeros b.
Proof. intros Ha Hb. unfold zeros. rewrite Z2Nat.inj_add by done. apply replicate_add. Qed.
Definition more_mapped (m m' : mem) : Prop := forall p n, mapped m p n -> mapped m' p n.
Lemma more_mapped_refl m : more_mapped m m.
Proof. by intros p n. Qed.
Lemma more_mapped_write m m1 q bs : more_mapped m m1 -> more_mapped m (write m1 q bs).
Proof. intros H p n Hm. by apply mapped_write, H. Qed.
(** The part of the block behind the length is filled. *)
Lemma set_payload_spec random m b hdr key data k mask r : (mask = true -> random = Some key) ->
  region m (b_start b) (hdr ++ zeros (Zlen key) ++ zeros (Zlen k) ++ zeros r) -> 0 < Zlen hdr -> 0 <= r ->
  Zlen hdr + Zlen key + Zlen k + r <= b_block b -> key_ok mask key k -> bytes k -> (0 < Zlen k -> beside m b data k) ->
  exists m', set_payload random m (b_start b + Zlen hdr) (if Zlen k =? 0 then NULL else data) (Zlen k) mask = Some (true, m') /\
    region m' (b_start b) (hdr ++ key ++ sent key k ++ zeros r) /\ moved m b m' b /\ more_mapped m m'.
Proof.
  intros Hrand Hr Hh Hr0 Hbl Hkey Hk Hd. pose proof Hr as [Hp _]. pose proof (Zlen_nonneg k). pose proof (Zlen_nonneg key). unfold set_payload.
  assert (E1 : exists m1, (if mask then generate_masking_key random m (b_start b + Zlen hdr) 4 else Some (true, m)) = Some (true, m1) /\
    region m1 (b_start b) (hdr ++ key ++ zeros (Zlen k) ++ zeros r) /\ moved m b m1 b /\ more_mapped m m1).
  { destruct mask; cbn [key_ok] in Hkey.
    - destruct Hkey as (Hk4 & Hbk & _). rewrite (Hrand eq_refl). unfold generate_masking_key, NULL. rewrite (proj2 (Z.eqb_neq _ 0)) by lia.
      cbn [orb Z.ltb Z.compare Pos.compare Pos.compare_cont].
      rewrite (storen_bytes m (b_start b) (Zlen (hdr ++ zeros (Zlen key) ++ zeros (Zlen k) ++ zeros r))) by (first [done|by apply
        region_mapped|lia|rewrite !Zlen_app, !Zlen_zeros; lia]).
      cbn [mbind option_bind]. eexists. split; [done|]. split; [|split; [apply moved_write; done || lia|apply more_mapped_write, more_mapped_refl]].
      apply (region_write_mid m (b_start b) hdr (zeros (Zlen key))); [done|rewrite Zlen_zeros; lia|done].
    - subst key. exists m. split; [done|]. split; [done|split; [apply moved_refl|apply more_mapped_refl]]. }
  destruct E1 as (m1 & -> & R1 & M1 & K1). cbn [mbind option_bind negb].
  assert (En : (if mask then b_start b + Zlen hdr + 4 else b_start b + Zlen hdr) = b_start b + Zlen (hdr ++ key)).
  { rewrite Zlen_app. destruct mask; cbn [key_ok] in Hkey; [lia|]. subst key. change (Zlen (@nil Z)) with 0. lia. }
  rewrite En. rewrite (app_assoc hdr key) in R1. set (h2 := hdr ++ key) in *. assert (Hh2 : Zlen h2 = Zlen hdr + Zlen key) by apply Zlen_app.
  destruct (Z.eqb_spec (Zlen k) 0) as [E0|E0].
  { apply Zlen_0_nil in E0 as ->. destruct mask; [by destruct Hkey as (_ & _ & ?)|]. cbn [key_ok] in Hkey. subst key. cbn. exists m1. split; [done|].
    split; [|by split].
    unfold h2 in R1. by rewrite <- app_assoc in R1. }
  specialize (Hd ltac:(lia)). pose proof Hd as [[Hpd _] _]. change (if false then NULL else data) with data. unfold NULL.
  rewrite (proj2 (Z.eqb_neq data 0)) by lia. cbn [negb andb].
  destruct (moved_beside _ _ _ _ _ _ M1 Hd) as [Hd1 _]. pose proof (region_mapped _ _ _ R1) as Hm1. rewrite !Zlen_app, !Zlen_zeros in Hm1.
  rewrite (memcpy_region m1 _ data k (Zlen k) (b_start b) (Zlen h2 + (Zlen k `max` 0 + r `max` 0))) by (done || lia). cbn [mbind option_bind].
  set (m2 := write m1 (b_start b + Zlen h2) k). assert (M2 : moved m b m2 b) by (eapply moved_trans; [exact M1|apply moved_write; done || lia]).
  assert (K2 : more_mapped m m2) by by apply more_mapped_write.
  assert (R2 : region m2 (b_start b) (h2 ++ k ++ zeros r)) by (apply (region_write_mid m1 (b_start b) h2 (zeros (Zlen k))); [done|rewrite Zlen_zeros;
    lia|done]).
  destruct mask; cbn [key_ok] in Hkey.
  - destruct Hkey as (Hk4 & Hbk & Hne). assert (Rk : region m2 (b_start b + Zlen hdr) key).
    { unfold h2 in R2. rewrite <- app_assoc in R2. apply (region_app_r _ _ (b_start b + Zlen hdr)) in R2; [|done]. by apply region_app_l in R2. }
    assert (R2k : region m2 (b_start b + Zlen h2) k) by (apply (region_app_r _ _ (b_start b + Zlen h2)) in R2; [by apply region_app_l in R2|done]).
    rewrite (mask_data_spec m2 _ k _ key) by (done || lia). eexists. split; [done|]. split.
    + unfold sent. rewrite bool_decide_eq_false_2 by (intros ->; done). rewrite (app_assoc hdr key). fold h2.
      apply (region_write_mid m2 (b_start b) h2 k); [done|apply masked_length|done].
    + split; [|by apply more_mapped_write]. eapply moved_trans; [exact M2|]. apply moved_write; try done; [lia|]. rewrite masked_length. lia.
  - subst key. eexists. split; [done|]. split; [|by split]. unfold h2 in R2. rewrite app_nil_r in R2. done.
Qed.

(** The first octet is lost where an empty buffer grows. *)
Definition kept (b : ov_buffer) (l0 : list Z) (n b0 : Z) : Z := if bool_decide (l0 = []) && (b_capacity b <? n) then 0 else b0.
(** The buffer is made large enough. *)
Lemma set_room_spec junk m b l0 b0 required : holds m b l0 -> load8 m (b_start b) = Some b0 -> 0 < required < 2 ^ 62 ->
  exists b1 m1, (if b_capacity b <? required then ov_buffer_extend junk m b (u64 (required - b_capacity b)) else Some (true, b, m)) = Some (true, b1, m1) /\
    required <= b_capacity b1 <= b_block b1 /\ b_block b1 < 2 ^ 63 /\ mapped m1 (b_start b1) (b_block b1) /\
      region m1 (b_start b1) [kept b l0 required b0] /\ moved m b m1 b1 /\
    b_capacity b1 = Z.max (b_capacity b) required.
Proof.
  intros Hh H0 Hr. destruct (holds_facts m b l0 Hh) as (_ & El & Hp & H1 & H2 & H3). unfold kept. destruct (Z.ltb_spec (b_capacity b) required) as [Hlt|Hge].
  - rewrite u64_id by lia. destruct (extend_spec junk m b l0 (required - b_capacity b) Hh ltac:(lia) ltac:(lia)) as (b1 & m1 & E & Ec & Hw & M1).
    assert (Hh1 : holds m1 b1 l0) by (by eexists). destruct (holds_facts _ _ _ Hh1) as (_ & _ & _ & H4 & _ & H6).
    exists b1, m1. split; [done|]. split; [lia|]. split; [done|]. split; [by eapply holds_mapped|]. split; [|split; [done|lia]]. destruct l0 as [|x l0].
    + rewrite bool_decide_eq_true_2 by done. cbn [andb]. destruct Hw as (Hr1 & _). cbn [app] in Hr1. apply (region_app_l _ _ [0] (zeros (b_capacity b1 - 1))).
      change [0] with (zeros 1). rewrite <- zeros_app by lia. change (Zlen (@nil Z)) with 0 in Hr1.
      by replace (1 + (b_capacity b1 - 1)) with (b_capacity b1 - 0) by lia.
    + rewrite bool_decide_eq_false_2 by done. cbn [andb]. rewrite (load8_at_0 m _ x l0) in H0 by (by apply holds_region). injection H0 as ->.
      apply (region_app_l _ _ [b0] l0), (holds_region _ _ _ Hh1).
  - rewrite andb_false_r. exists b, m. split; [done|]. split; [lia|]. split; [done|]. split; [by eapply holds_mapped|].
    split; [|split; [apply moved_refl|lia]]. split; [done|]. intros i Hi. change (Zlen [b0]) with 1 in Hi.
    assert (i = 0) as -> by lia. rewrite Z.add_0_r. unfold load8, NULL in H0. by destruct (b_start b =? 0).
Qed.
Lemma sent_frame b0 mask key k : is_byte b0 -> bytes k -> Zlen k < 2 ^ 62 -> Zlen k <> 0xffff -> key_ok mask key k ->
  frame_octets b0 key (sent key k) (b0 :: field_of (if mask then 128 else 0) (Zlen k) ++ key ++ sent key k).
Proof.
  intros H0 Hk Hn Hne Hkey. pose proof (Zlen_nonneg k). assert (Hf : forall flag, size_field flag (field_of flag (Zlen k)) (Zlen (sent key k))).
  { intros flag. rewrite sent_length. apply field_of_size; [lia|done]. }
  destruct mask; cbn [key_ok] in Hkey.
  - destruct Hkey as (Hk4 & Hb & Hk0). constructor; try done; [by apply sent_bytes|]. intros E. apply (f_equal Zlen) in E. rewrite sent_length in E.
    by apply Zlen_0_nil in E.
  - subst key. by apply frame_plain.
Qed.
Lemma unmask_spec m f b0 key payload : describes m f b0 key payload -> key = [] \/ Zlen key = 4 /\ bytes key /\ payload <> [] -> bytes payload ->
  exists m', ov_websocket_frame_unmask m f = Some (true, m') /\ (payload <> [] -> region m' (f_content_start f) (sent key payload)).
Proof.
  intros [_ _ Hn Hc Hm Hpl] Hk Hb. unfold ov_websocket_frame_unmask. destruct (decide (payload = [])) as [E|E].
  - rewrite bool_decide_eq_true_2 in Hc by done. destruct Hk as [->|(_ & _ & ?)]; [|done]. rewrite bool_decide_eq_true_2 in Hm by done.
    rewrite Hc, Hm. by exists m.
  - rewrite bool_decide_eq_false_2 in Hc by done. pose proof Hc as [Hp _].
    assert (0 < Zlen payload) by (pose proof (Zlen_nonneg payload); assert (Zlen payload <> 0) by (intros E0; by apply Zlen_0_nil in E0); lia).
    unfold NULL. rewrite (proj2 (Z.eqb_neq (f_content_start f) 0)) by lia. destruct Hk as [->|(Hk4 & Hbk & _)].
    + rewrite bool_decide_eq_true_2 in Hm by done. rewrite Hm. by exists m.
    + assert (Hne : key <> []) by (intros ->; done). specialize (Hpl Hne). rewrite bool_decide_eq_false_2 in Hm by done. pose proof Hm as [Hq _].
      rewrite (proj2 (Z.eqb_neq (f_mask f) 0)) by lia. cbn [negb].
      rewrite Hn, (mask_data_spec m _ payload _ key) by (done || lia). eexists. split; [done|]. intros _. unfold sent. rewrite bool_decide_eq_false_2 by done.
      apply (region_write m (f_content_start f)). lia.
Qed.
(** What is left of [ov_websocket_set_data], when there is room. *)
Lemma set_fields_spec random m b b0 key data k (mask : bool) n : (mask = true -> random = Some key) -> region m (b_start b) [b0] ->
  mapped m (b_start b) (b_block b) -> n <= b_capacity b <= b_block b -> 
  n = 1 + Zlen (field_of (if mask then 128 else 0) (Zlen k)) + Zlen key + Zlen k -> Zlen k < 2 ^ 62 -> is_byte b0 -> key_ok mask key k -> bytes k ->
    b_block b < 2 ^ 63 -> (0 < Zlen k -> beside m b data k) ->
  let field := length_octets (if mask then 0x80 else 0) (Zlen k) in
  exists m1 m2 m3, memset m (b_start b + 1) 0 (u64 (b_capacity b - 1)) = Some m1 /\ storen m1 (b_start b + 1) field = Some m2 /\
    set_payload random m2 (b_start b + 1 + Zlen field) (if Zlen k =? 0 then NULL else data) (Zlen k) mask = Some (true, m3) /\
    region m3 (b_start b) ((b0 :: field_of (if mask then 128 else 0) (Zlen k) ++ key ++ sent key k) ++ zeros (b_capacity b - n)) /\ moved m b m3 b /\
      mapped m3 (b_start b) (b_block b).
Proof.
  intros Hrand Hr Hm Hn En Hk62 H0 Hkey Hk Hb Hd field. pose proof (Zlen_nonneg k). pose proof (Zlen_nonneg key).
  pose proof (field_of_length mask (Zlen k) ltac:(lia)) as [El _].
  pose proof (length_octets_field mask (Zlen k) ltac:(lia)) as Ef. fold field in El, Ef. set (fo := field_of _ _) in *. pose proof (Zlen_nonneg fo).
  rewrite u64_id, (memset_0 m (b_start b) (b_block b)) by (done || lia). set (m1 := write m (b_start b + 1) (zeros (b_capacity b - 1))).
  assert (M1 : moved m b m1 b) by (apply moved_write; try done; [lia|]; rewrite Zlen_zeros; lia). pose proof Hm as [Hp _].
  assert (R1 : region m1 (b_start b) ([b0] ++ zeros (Zlen fo) ++ zeros (Zlen key) ++ zeros (Zlen k) ++ zeros (b_capacity b - n))).
  { rewrite <- !zeros_app by lia. replace (Zlen fo + _) with (b_capacity b - 1) by lia. apply region_app.
    split; [apply region_write_out; [done|]; change (Zlen [b0]) with 1; lia|].
    intros _. apply region_write. change (Zlen [b0]) with 1. lia. }
  assert (Hm1 : mapped m1 (b_start b) (b_block b)) by by apply mapped_write.
  set (m2 := write m1 (b_start b + 1) fo).
  assert (E2 : storen m1 (b_start b + 1) field = Some m2) by (by rewrite (storen_mapped m1 (b_start b) (b_block b)), Ef by (done || lia)).
  assert (M2 : moved m b m2 b) by (eapply moved_trans; [exact M1|]; apply moved_write; done || lia).
  assert (R2 : region m2 (b_start b) (([b0] ++ fo) ++ zeros (Zlen key) ++ zeros (Zlen k) ++ zeros (b_capacity b - n))).
  { rewrite <- app_assoc. apply (region_write_mid m1 _ [b0] (zeros (Zlen fo))); [done|rewrite Zlen_zeros; lia|done]. }
  assert (Hh : Zlen ([b0] ++ fo) = 1 + Zlen fo) by apply Zlen_app.
  destruct (set_payload_spec random m2 b ([b0] ++ fo) key data k mask (b_capacity b - n) Hrand R2 ltac:(lia) ltac:(lia) ltac:(lia) Hkey Hk) as (m3 &
    E3 & R3 & M3 & K3).
  { intros Hk0. by apply (moved_beside m b m2 b), Hd. }
  exists m1, m2, m3. split; [done|]. split; [exact E2|]. split; [|split; [|split; [by eapply moved_trans|by apply K3, mapped_write]]].
  - rewrite <- E3. f_equal; lia.
  - replace ((b0 :: fo ++ key ++ sent key k) ++ zeros (b_capacity b - n)) with (([b0] ++ fo) ++ key ++ sent key k ++ zeros (b_capacity b - n));
      [done|]. cbn [app]. by rewrite <- !app_assoc.
Qed.

Lemma bytes_frame b0 key payload w : frame_octets b0 key payload w -> bytes w.
Proof. intros H. destruct (frame_facts_of _ _ _ _ H) as (size & Hf). apply Hf. Qed.
Lemma describes_buffer m f b b0 key payload : describes m f b0 key payload -> describes m (with_buffer f b) b0 key payload.
Proof. intros H. by destruct H; split. Qed.

(** What is behind the first octet. *)
Definition behind (mask : bool) (key k : list Z) : list Z := field_of (if mask then 128 else 0) (Zlen k) ++ key ++ sent key k.
Definition parse_again (m : mem) (f : ov_websocket_frame) (b : ov_buffer) : option (bool * ov_websocket_frame * mem) :=
  let buffer := with_length b (b_capacity b) in
  '(state, frame, next) ← ov_websocket_parse_frame m (with_buffer f (Some buffer));
  match state, next with
  | OV_WEBSOCKET_PARSER_SUCCESS, Some next => Some (true, with_buffer frame (Some (with_length buffer (next - b_start buffer))), m)
  | _, _ => Some (false, frame, m)
  end.
Section set_data.
Context (junk : Z) (random : option (list Z)) (key : list Z) (m : mem) (f : ov_websocket_frame) (b : ov_buffer) (l0 : list Z) (c0 data : Z) (k : list
    Z) (mask : bool).
Context (Hf : f_buffer f = Some b) (Hh : holds m b l0) (H0 : load8 m (b_start b) = Some c0) (Hc0 : is_byte c0) (Hk : bytes k) (Hn : Zlen k < 2 ^ 60)
    (Hcap : b_capacity b < 2 ^ 62)
  (Hd : 0 < Zlen k -> beside m b data k) (Hkey : key_ok mask key k) (Hrand : mask = true -> random = Some key).
Definition new_octet : Z := kept b l0 (1 + Zlen (behind mask key k)) c0.
Lemma new_octet_byte : is_byte new_octet.
Proof using Hc0. unfold new_octet, kept. destruct (_ && _); [|done]. unfold is_byte. lia. Qed.
Lemma key_facts : Zlen key = (if mask then 4 else 0) /\ bytes key.
Proof using Hkey. clear Hrand. destruct mask; cbn [key_ok] in Hkey; [by destruct Hkey as (? & ? & _)|subst key; split; [done|constructor]]. Qed.
Lemma behind_length : Zlen (behind mask key k) = Zlen (field_of (if mask then 128 else 0) (Zlen k)) + Zlen key + Zlen k.
Proof using Type. unfold behind. rewrite !Zlen_app, sent_length. lia. Qed.
Lemma behind_required : 1 + Zlen (behind mask key k) = (if Zlen k <? 126 then 2 + Zlen k else if Zlen k <? 0xffff then 4 + Zlen k else 10 + Zlen k) +
    (if mask then 4 else 0).
Proof using Hkey Hn.
  pose proof (Zlen_nonneg k). destruct key_facts as [Hk4 _]. destruct (field_of_length mask (Zlen k) ltac:(lia)) as [_ Efl].
  rewrite behind_length, Hk4. clear Hkey Hrand. repeat case_match; lia.
Qed.
(** Everything up to parsing the frame again. *)
Lemma set_data_written : exists b1 m1, ov_websocket_set_data junk random m f data (Zlen k) mask = parse_again m1 f b1 /\
  region m1 (b_start b1) ((new_octet :: behind mask key k) ++ zeros (b_capacity b1 - (1 + Zlen (behind mask key k)))) /\ mapped m1 (b_start b1) (b_block b1) /\
  1 + Zlen (behind mask key k) <= b_capacity b1 <= b_block b1 /\ b_block b1 < 2 ^ 63 /\ b_capacity b1 < 2 ^ 62 /\ moved m b m1 b1.
Proof using Hf Hh H0 Hc0 Hk Hn Hcap Hd Hkey Hrand.
  pose proof (Zlen_nonneg k). pose proof behind_required as Ereq. set (n := 1 + Zlen (behind mask key k)) in *.
  assert (Hn62 : 0 < n < 2 ^ 61) by (rewrite Ereq; repeat case_match; lia).
  destruct (set_room_spec junk m b l0 c0 n Hh H0 ltac:(lia)) as (b1 & m1 & Eroom & Hc & Hb1 & Hm1 & R1 & M1 & Ec). fold new_octet in R1.
  destruct (set_fields_spec random m1 b1 new_octet key data k mask n Hrand R1 Hm1 Hc ltac:(unfold n; rewrite behind_length;
    lia) ltac:(lia) new_octet_byte Hkey Hk Hb1) as (m2 & m3 & m4 & E2 & E3 & E4 & R4 & M4 & Hm4).
  { intros Hk0. by apply (moved_beside m b m1 b1), Hd. }
  exists b1, m4. split; [|split; [exact R4|split; [done|split; [done|split; [done|split; [lia|by eapply moved_trans]]]]]].
  assert (En : (if data =? NULL then 0 else Zlen k) = Zlen k).
  { unfold NULL. destruct (Z.eqb_spec data 0) as [->|]; [|done]. destruct (decide (0 < Zlen k)) as [Hk0|]; [|lia]. destruct (Hd Hk0) as [[? _] _]. lia. }
  assert (Ereq64 : (if mask then u64 (u64 (if Zlen k <? 126 then 2 + Zlen k else if Zlen k <? 0xffff then 4 + Zlen k else 10 + Zlen k) + 4)
    else u64 (if Zlen k <? 126 then 2 + Zlen k else if Zlen k <? 0xffff then 4 + Zlen k else 10 + Zlen k)) = n).
  { rewrite Ereq. set (x := if Zlen k <? 126 then _ else _). assert (Hx : 0 <= x < 2 ^ 62) by (unfold x; repeat case_match; lia). clearbody x.
    destruct mask; rewrite (u64_id x), ?u64_id; lia. }
  unfold ov_websocket_set_data. rewrite En, Ereq64, Hf, Eroom. cbn [mbind option_bind negb]. rewrite E2. cbn [mbind option_bind].
  assert (Ene : (((if Zlen k =? 0 then NULL else data) =? NULL) || (Zlen k =? 0)) && mask = false).
  { destruct mask; [|apply andb_false_r]. destruct Hkey as (_ & _ & Hk0). assert (Zlen k <> 0) by (intros E; by apply Zlen_0_nil in E).
    rewrite (proj2 (Z.eqb_neq (Zlen k) 0)) by done. cbn iota.
    unfold NULL. destruct (Hd ltac:(lia)) as [[? _] _]. by rewrite (proj2 (Z.eqb_neq data 0)) by lia. }
  rewrite Ene, E3. cbn [mbind option_bind]. rewrite E4. cbn [mbind option_bind negb]. done.
Qed.
Lemma set_data_spec : known_opcode (new_octet mod 16) = true -> Zlen k <> 0xffff ->
  let w := new_octet :: behind mask key k in frame_octets new_octet key (sent key k) w /\
  exists f' b' m', ov_websocket_set_data junk random m f data (Zlen k) mask = Some (true, f', m') /\
    f_buffer f' = Some b' /\ f_config f' = f_config f /\ holds m' b' w /\ moved m b m' b' /\ describes m' f' new_octet key (sent key k) /\
      b_capacity b' < 2 ^ 62.
Proof using Hf Hh H0 Hc0 Hk Hn Hcap Hd Hkey Hrand.
  intros Hop Hne w. pose proof (Zlen_nonneg k).
  assert (Hfr : frame_octets new_octet key (sent key k) w) by (apply sent_frame; try done; [apply new_octet_byte|lia]). split; [done|].
  assert (Ew : Zlen w = 1 + Zlen (behind mask key k)) by (unfold w; rewrite Zlen_cons; lia).
  destruct set_data_written as (b1 & m1 & E & R & Hm1 & Hc & Hb1 & Hc1 & M). rewrite <- Ew in *. fold w in R.
  assert (Hlw : 0 < Zlen w) by (rewrite Ew; pose proof (Zlen_nonneg (behind mask key k)); lia).
  destruct (parse_found m1 (with_buffer f (Some (with_length b1 (b_capacity b1)))) (with_length b1 (b_capacity b1)) new_octet key (sent key k) w
    (zeros (b_capacity b1 - Zlen w))) as (f' & E5 & Hf' & Hcf & Hds).
  { done. } { exact R. } { apply bytes_zeros. } { rewrite Zlen_app, Zlen_zeros. cbn [with_length b_length]. lia. } { rewrite Zlen_app, Zlen_zeros.
    lia. } { done. } { done. }
  rewrite E. unfold parse_again. rewrite E5. cbn [mbind option_bind]. eexists _, _, m1. split; [done|]. cbn [with_buffer f_buffer f_config].
  split; [done|]. split; [done|].
  split; [|split; [done|split; [by apply describes_buffer|done]]]. cbn [with_length b_start]. replace (b_start b1 + Zlen w - b_start b1) with (Zlen w) by lia.
  apply (region_buffer m1 (with_length b1 (b_capacity b1))); try done; [by apply region_app_l in R|cbn [b_capacity b_block with_length];
    lia|by apply (bytes_frame new_octet key (sent key k))].
Qed.
(** 65535 octets need the long form for the writer and are too few for it for the
    parser. *)
Lemma set_data_refused : Zlen k = 0xffff -> exists f' b' l' m', ov_websocket_set_data junk random m f data (Zlen k) mask = Some (false, f', m') /\
  f_buffer f' = Some b' /\ f_config f' = f_config f /\ holds m' b' l' /\ moved m b m' b'.
Proof using Hf Hh H0 Hc0 Hk Hn Hcap Hd Hkey Hrand.
  intros Ek. destruct set_data_written as (b1 & m1 & E & R & Hm1 & Hc & Hb1 & Hc1 & M). set (l := (new_octet :: behind mask key k) ++ _) in *.
  destruct key_facts as [_ Hkb].
  assert (Hl : Zlen l = b_capacity b1) by (unfold l; rewrite Zlen_app, Zlen_cons, Zlen_zeros; lia). assert (Hbl : bytes l).
  { unfold l, behind. apply bytes_app. split; [|apply bytes_zeros]. apply bytes_cons. split; [apply new_octet_byte|]. rewrite Ek. apply bytes_app.
    split; [|apply bytes_app; split; [done|by apply sent_bytes]].
    unfold field_of. cbn [Z.ltb Z.compare Pos.compare Pos.compare_cont]. apply bytes_cons. split; [unfold is_byte; destruct mask; lia|apply bytes_be64]. }
  assert (Hl10 : 10 <= Zlen l) by (pose proof behind_required as Er; rewrite Ek in Er; cbn [Z.ltb Z.compare Pos.compare Pos.compare_cont] in Er;
    destruct mask; lia).
  assert (Eh : head_of l = H_error).
  { unfold l, behind, field_of, head_of. rewrite Ek. cbn [Z.ltb Z.compare Pos.compare Pos.compare_cont]. rewrite <- !app_comm_cons, <- !app_assoc.
    fold l. set (tail := key ++ _).
    set (x := new_octet :: _). assert (Ex : Zlen x = Zlen l) by (unfold x, l, behind, field_of; rewrite Ek;
      cbn [Z.ltb Z.compare Pos.compare Pos.compare_cont]; by rewrite <- !app_comm_cons, <- !app_assoc).
    rewrite Ex, (proj2 (Z.ltb_ge _ 2)), (proj2 (Z.ltb_ge _ 10)) by lia. unfold x, be64. by destruct mask. }
  destruct (parse_spec m1 (with_buffer f (Some (with_length b1 (b_capacity b1)))) (with_length b1 (b_capacity b1)) l eq_refl R Hbl Hl ltac:(lia)
    ltac:(lia)) as (f' & [Hu1 Hu2] & E5). rewrite Eh in E5.
  rewrite E. unfold parse_again. rewrite E5. cbn [mbind option_bind]. exists f', (with_length b1 (b_capacity b1)), l, m1. split; [done|].
  split; [done|]. split; [done|]. split; [|done].
  apply region_buffer; done || lia.
Qed.
End set_data.

(** C20: setting data of any length but 65535 ([set_data_refused]), not empty when it
    is masked ([masked_empty_refused]), writes a frame of RFC 6455 with the shortest
    form of the length: the first octet, which stays, the field, the key and the
    octets as they are sent. The buffer must hold something before, or have room
    for the frame: growing an empty buffer loses the first octet
    ([first_octet_lost]). Afterwards it is the frame and nothing else; the rest of
    the memory is as it was. The frame is parsed right away, and unmasking gives
    the octets that were set. *)
Theorem websocket_set_data_exact junk key m f b l0 b0 data k mask : f_buffer f = Some b -> holds m b l0 -> load8 m (b_start b) = Some b0 -> is_byte b0 ->
  known_opcode (b0 mod 16) = true -> bytes k -> Zlen k < 2 ^ 60 -> b_capacity b < 2 ^ 62 -> Zlen k <> 0xffff -> (0 < Zlen k -> beside m b data k) ->
    key_ok mask key k ->
  let w := b0 :: field_of (if mask then 128 else 0) (Zlen k) ++ key ++ sent key k in
  l0 <> [] \/ Zlen w <= b_capacity b ->
  frame_octets b0 key (sent key k) w /\
  exists f' b' m', ov_websocket_set_data junk (Some key) m f data (Zlen k) mask = Some (true, f', m') /\
    f_buffer f' = Some b' /\ f_config f' = f_config f /\ holds m' b' w /\ moved m b m' b' /\ describes m' f' b0 key (sent key k) /\
    exists m2, ov_websocket_frame_unmask m' f' = Some (true, m2) /\ (k <> [] -> region m2 (f_content_start f') k).
Proof.
  intros Hf Hh H0 Hb0 Hop Hk Hn Hcap Hne Hd Hkey w Hroom. assert (Eo : new_octet key b l0 b0 k mask = b0).
  { unfold new_octet, kept. destruct (bool_decide_reflect (l0 = [])) as [El|El]; [|done]. destruct Hroom as [Hr|Hr]; [done|]. unfold w in Hr.
    rewrite Zlen_cons in Hr. fold (behind mask key k) in Hr.
    by rewrite (proj2 (Z.ltb_ge _ _)) by lia. }
  destruct (set_data_spec junk (Some key) key m f b l0 b0 data k mask Hf Hh H0 Hb0 Hk Hn Hcap Hd Hkey ltac:(done)) as (Hfr & f' & b' & m' & E & H1 &
    H2 & H3 & H4 & H5 & _); [by rewrite Eo|done|].
  rewrite Eo in *. split; [done|]. exists f', b', m'. do 5 (split; [done|]). split; [done|].
  assert (Hs : k <> [] -> sent key k <> []) by (intros Hk0 E0; apply (f_equal Zlen) in E0; rewrite sent_length in E0; by apply Zlen_0_nil in E0).
  destruct (key_facts key k mask Hkey) as [_ Hkb]. destruct (unmask_spec m' f' b0 key (sent key k) H5) as (m2 & E6 & H6); [|by apply sent_bytes|].
  - destruct mask; cbn [key_ok] in Hkey; [right|by left]. destruct Hkey as (? & ? & Hk0). auto.
  - exists m2. split; [exact E6|]. intros Hk0. rewrite <- (sent_twice key k) at 1. auto.
Qed.
Lemma websocket_set_data_exact_witness : exists f' b' m',
  ov_websocket_set_data 0 (Some [1; 2; 3; 4]) (write (write ∅ 16 [0x81; 0; 0; 0; 0; 0; 0; 0; 0; 0; 0; 0]) 64 [97; 98; 99])
    (empty_frame {| default_size := 0; max_bytes_recache := 0 |} (Some {| b_start := 16; b_length := 0; b_capacity := 11;
      b_block := 12 |})) 64 3 true = Some (true, f', m') /\
    f_buffer f' = Some b' /\ holds m' b' [0x81; 0x83; 1; 2; 3; 4; 96; 96; 96].
Proof.
  set (m := write _ 64 _). set (b := {| b_start := 16; b_length := 0; b_capacity := 11; b_block := 12 |}).
  assert (Hbeside : forall q, 64 <= q < 64 + Zlen [97; 98; 99] -> ~ in_block b q) by (intros q; change (Zlen _) with 3; unfold in_block, b; cbn; lia).
  destruct (websocket_set_data_exact 0 [1; 2; 3; 4] m (empty_frame {| default_size := 0; max_bytes_recache := 0 |} (Some b)) b [] 0x81 64 [97; 98;
    99] true) as (_ & f' & b' & m' & E & Hf & _ & Hh & _).
  { done. } { exists [0x81; 0; 0; 0; 0; 0; 0; 0; 0; 0; 0; 0]. split; [|by split; [constructor|]]. apply region_write_out; [by apply region_write|by right]. }
  { done. } { by unfold is_byte. } { done. } { by repeat constructor. } { done. } { done. } { done. } { intros _. split; [by apply region_write|done]. }
  { split; [done|]. split; [by repeat constructor|done]. } { right. by vm_compute. }
  exists f', b', m'. by split; [|split].
Defined.

(** ** Where the code and RFC 6455 differ *)

(** A masked frame without content, such as every empty ping of a client. *)
Example masked_empty_refused : head_of [0x89; 0x80; 1; 2; 3; 4] = H_error.
Proof. vm_compute. reflexivity. Qed.
(** 125 octets in the long form. *)
Example long_form_of_125 : head_of [0x82; 126; 0; 125] = H_length 4 false 125.
Proof. vm_compute. reflexivity. Qed.
(** The first octet of a frame is set, and then an empty buffer grows: the frame is
    a continuation instead of a text. *)
Example first_octet_lost : match ov_websocket_set_data 0 None (write (write ∅ 16 [0x81; 0; 0; 0; 0]) 64 [97; 98; 99])
    (empty_frame {| default_size := 4; max_bytes_recache := 0 |} (Some {| b_start := 16; b_length := 0; b_capacity := 4; b_block := 5 |})) 64 3 false with
  | Some (ok, f, m) => (ok, f_opcode f, f_buffer f ≫= fun b => loadn m (b_start b) (Z.to_nat (b_length b)))
  | None => (false, 0, None)
  end = (true, OV_WEBSOCKET_OPCODE_CONTINUATION, Some [0; 3; 97; 98; 99]).
Proof. vm_compute. reflexivity. Qed.
