(* ===== verification/WebServerBase.v ===== *)
(** * Connections of the web server (src/lib/ov_core/src/ov_webserver_base.c)

    What a TLS connection sends and how the WebSocket frames it receives reach the
    application: the outgoing buffer and queue ([tls_send_buffer], [io_tls_send]),
    reading and parsing ([io_tls] for an upgraded connection, [process_wss]),
    control frames, fragmented messages and [close_connection].

    OpenSSL, the event loop and the callbacks of the application are outside: an
    [environment] answers them, and may look at everything that happened before
    (the trace, newest first). The queues are the lists of [LinkedList.v], here
    sequences; the octets that wait to be sent are values. A connection is
    generic in what a frame is, so that the specification is stated on the same
    record. The HTTP side, timeouts, the handshake of TLS and the callbacks that only
    report a closed connection are not modelled. *)
From S2P Require Import Prelude CMem Buffer Websocket.

(** ** The code: data *)

Definition IMPL_BUFFER_SIZE_WS_FRAME_DEFRAG : Z := 1000000.
Definition IMPL_WEBSOCKET_PHRASE_LENGTH : Z := 250.
Definition FLAG_CLOSE_AFTER_SEND : Z := 0x0001.
Definition FLAG_SEND_SSL_SHUTDOWN : Z := 0x0010.
Definition FLAG_CLIENT_SHUTDOWN : Z := 0x0100.
Inductive ConnectionType := CONNECTION_TYPE_ERROR | CONNECTION_TYPE_WEBSOCKET | CONNECTION_TYPE_HTTP_1_1.
#[export] Instance connection_type_eq : EqDecision ConnectionType.
Proof. solve_decision. Defined.

(** What OpenSSL answers behind a call that did not write everything. *)
Inductive ssl_error :=
  | SSL_ERROR_NONE | SSL_ERROR_WANT_READ | SSL_ERROR_WANT_WRITE | SSL_ERROR_WANT_CONNECT | SSL_ERROR_WANT_ACCEPT
  | SSL_ERROR_WANT_X509_LOOKUP | SSL_ERROR_WANT_ASYNC | SSL_ERROR_WANT_ASYNC_JOB | SSL_ERROR_WANT_CLIENT_HELLO_CB
  | SSL_ERROR_SYSCALL | SSL_ERROR_SSL | SSL_ERROR_ZERO_RETURN.
(** The result of [SSL_write], the error, and whether [errno] is [EAGAIN]. *)
Record ssl_result := { written : Z; error : ssl_error; again : bool }.
Inductive event :=
  | Written (octets : list Z) (bytes : Z) | Listening (out ok : bool)
  | Delivered (content : list Z) (text ok : bool)
  | Fragment (opcode : Z) (state : ov_websocket_fragmentation_state) (content : list Z) (ok : bool)
  | Closed.
Record environment := {
  ssl_write : list event -> list Z -> ssl_result;
  send_buffer_size : list event -> Z;
  listening_set : list event -> bool;
  callback : list event -> list Z -> bool -> bool;
  fragmented : list event -> Z -> list Z -> bool;
  junk : Z }.

(** [fd], [flags], [tls] and [io.out] of a connection, and the trace. *)
Record link := {
  l_fd : Z; l_flags : Z; l_ssl : bool; l_handshaked : bool;
  l_buffer : option (list Z); l_queue : list (list Z); l_bytes : Z; l_trace : list event }.
Definition with_flags (l : link) (flags : Z) : link :=
  {| l_fd := l_fd l; l_flags := flags; l_ssl := l_ssl l; l_handshaked := l_handshaked l;
     l_buffer := l_buffer l; l_queue := l_queue l; l_bytes := l_bytes l; l_trace := l_trace l |}.
Definition with_out (l : link) (buffer : option (list Z)) (queue : list (list Z)) : link :=
  {| l_fd := l_fd l; l_flags := l_flags l; l_ssl := l_ssl l; l_handshaked := l_handshaked l;
     l_buffer := buffer; l_queue := queue; l_bytes := l_bytes l; l_trace := l_trace l |}.
Definition count_bytes (l : link) (bytes : Z) : link :=
  {| l_fd := l_fd l; l_flags := l_flags l; l_ssl := l_ssl l; l_handshaked := l_handshaked l;
     l_buffer := l_buffer l; l_queue := l_queue l; l_bytes := u64 (l_bytes l + bytes); l_trace := l_trace l |}.
Definition happened (l : link) (e : event) : link :=
  {| l_fd := l_fd l; l_flags := l_flags l; l_ssl := l_ssl l; l_handshaked := l_handshaked l;
     l_buffer := l_buffer l; l_queue := l_queue l; l_bytes := l_bytes l; l_trace := e :: l_trace l |}.
Definition shut (l : link) : link :=
  {| l_fd := -1; l_flags := l_flags l; l_ssl := false; l_handshaked := l_handshaked l;
     l_buffer := None; l_queue := []; l_bytes := l_bytes l; l_trace := Closed :: l_trace l |}.

(** [userdata] and the callbacks are there or not. *)
Record ov_websocket_message_config := { userdata : bool; has_callback : bool; has_fragmented : bool; max_frames : Z }.
Record websocket (F : Type) := {
  w_config : ov_websocket_message_config; w_queue : option (list F); w_last : ov_websocket_fragmentation_state; w_counter : Z;
  w_code : Z; w_phrase : list Z; w_close_sent : bool; w_close_recv : bool }.
Arguments w_config {F}. Arguments w_queue {F}. Arguments w_last {F}. Arguments w_counter {F}.
Arguments w_code {F}. Arguments w_phrase {F}. Arguments w_close_sent {F}. Arguments w_close_recv {F}.
Record Connection (F : Type) := { c_link : link; c_type : ConnectionType; c_data : option F; c_websocket : websocket F }.
Arguments c_link {F}. Arguments c_type {F}. Arguments c_data {F}. Arguments c_websocket {F}.
Definition with_fragments {F} (w : websocket F) (queue : option (list F)) (last : ov_websocket_fragmentation_state) (counter : Z) : websocket F :=
  {| w_config := w_config w; w_queue := queue; w_last := last; w_counter := counter; w_code := w_code w; w_phrase := w_phrase w;
     w_close_sent := w_close_sent w; w_close_recv := w_close_recv w |}.
(** The phrase is written over the old one, without a terminator. *)
Definition with_reason {F} (w : websocket F) (code : Z) (phrase : string) : websocket F :=
  {| w_config := w_config w; w_queue := w_queue w; w_last := w_last w; w_counter := w_counter w; w_code := code;
     w_phrase := string_bytes phrase ++ zdrop (Zlen (string_bytes phrase)) (w_phrase w); w_close_sent := w_close_sent w; w_close_recv := w_close_recv w |}.
Definition with_close {F} (w : websocket F) (sent recv : bool) : websocket F :=
  {| w_config := w_config w; w_queue := w_queue w; w_last := w_last w; w_counter := w_counter w; w_code := w_code w; w_phrase := w_phrase w;
     w_close_sent := sent; w_close_recv := recv |}.
Definition with_link {F} (c : Connection F) (l : link) : Connection F :=
  {| c_link := l; c_type := c_type c; c_data := c_data c; c_websocket := c_websocket c |}.
Definition with_data {F} (c : Connection F) (f : option F) : Connection F :=
  {| c_link := c_link c; c_type := c_type c; c_data := f; c_websocket := c_websocket c |}.
Definition with_websocket {F} (c : Connection F) (w : websocket F) : Connection F :=
  {| c_link := c_link c; c_type := c_type c; c_data := c_data c; c_websocket := w |}.

Section code.
Context (env : environment).

(** ** The code: sending *)

Definition set_listening (l : link) (out : bool) : bool * link :=
  let ok := listening_set env (l_trace l) in (ok, happened l (Listening out ok)).
Definition call_ssl_write (l : link) (octets : list Z) : ssl_result * link :=
  let r := ssl_write env (l_trace l) octets in (r, happened l (Written octets (written r))).
(** The switch over what [SSL_get_error] says: whether to try again. *)
Definition after_error (r : ssl_result) (l : link) : option (bool * link) :=
  match error r with
  | SSL_ERROR_WANT_CONNECT | SSL_ERROR_WANT_ACCEPT | SSL_ERROR_WANT_X509_LOOKUP
  | SSL_ERROR_WANT_ASYNC | SSL_ERROR_WANT_ASYNC_JOB | SSL_ERROR_WANT_CLIENT_HELLO_CB => None
  | SSL_ERROR_SYSCALL => Some (again r, l)
  | SSL_ERROR_SSL => Some (false, with_flags l 0)
  | SSL_ERROR_NONE | SSL_ERROR_WANT_READ | SSL_ERROR_WANT_WRITE | SSL_ERROR_ZERO_RETURN => Some (true, l)
  end.
Definition queue_push (l : link) (octets : list Z) : link := with_out l (l_buffer l) (l_queue l ++ [octets]).
(** A long buffer goes to the queue in pieces. *)
Fixpoint push_pieces (fuel : nat) (max : Z) (octets : list Z) (l : link) : bool * link :=
  match octets, fuel with
  | [], _ => (true, l)
  | _, O => (false, l)
  | _, S fuel =>
      let piece := if max <? Zlen octets then ztake max octets else octets in
      if Zlen piece <? 1 then (false, l) else push_pieces fuel max (zdrop max octets) (queue_push l piece)
  end.
(** Up to the closing of the connection after an error. *)
Definition tls_send (l : link) (octets : list Z) : option (bool * link) :=
  let l := with_flags l FLAG_SEND_SSL_SHUTDOWN in
  if negb (l_handshaked l) then Some (false, l) else
  let '(ok, l) := set_listening l true in
  if negb ok then Some (false, l) else
  let max := u64 (send_buffer_size env (l_trace l)) in
  if max <? Zlen octets then Some (push_pieces (length octets) max octets l) else
  if Zlen octets <? 1 then Some (false, l) else
  match l_buffer l with
  | Some _ => Some (true, queue_push l octets)
  | None =>
      let '(r, l) := call_ssl_write l octets in
      if written r =? 0 then Some (false, l) else
      if written r =? Zlen octets then Some (true, count_bytes l (written r)) else
      '(ok, l) ← after_error r l;
      if negb ok then Some (false, l) else
      if (written r =? -1) || (written r <? 0) && again r then Some (true, with_out l (Some octets) (l_queue l)) else None
  end.
Inductive send_result := SEND_DONE | SEND_FAILED | SEND_CLOSE.
(** [SEND_CLOSE]: everything is sent, and the connection was to be closed then. *)
Definition io_tls_send_link (l : link) : option (send_result * link) :=
  if (l_fd l =? -1) || negb (l_handshaked l) then Some (SEND_FAILED, l) else
  match l_buffer l with
  | Some octets =>
      let '(r, l) := call_ssl_write l octets in
      if written r =? Zlen octets then Some (SEND_DONE, count_bytes (with_out l None (l_queue l)) (written r)) else
      if written r =? 0 then Some (SEND_FAILED, l) else
      '(ok, l) ← after_error r l; Some (if ok : bool then SEND_DONE else SEND_FAILED, l)
  | None =>
      match l_queue l with
      | [] =>
          if nz (l_flags l .& FLAG_CLOSE_AFTER_SEND) then Some (SEND_CLOSE, l) else
          let '(ok, l) := set_listening l false in Some (if ok then SEND_DONE else SEND_FAILED, l)
      | out :: queue => '(ok, l) ← tls_send (with_out l None queue) out; Some (if ok : bool then SEND_DONE else SEND_FAILED, l)
      end
  end.

(** ** The code: closing *)

Definition close_frame {F} (w : websocket F) : list Z :=
  [0x88; u8 (Zlen (w_phrase w) + 2); u8 (w_code w .>> 8); u8 (w_code w)] ++ w_phrase w.
Definition send_close {F} (c : Connection F) : Connection F :=
  let w := c_websocket c in
  if l_ssl (c_link c) && bool_decide (c_type c = CONNECTION_TYPE_WEBSOCKET) && negb (w_close_sent w) then
    let w := if w_code w =? 0 then with_reason w 1000 "normal close" else w in
    let '(r, l) := call_ssl_write (c_link c) (close_frame w) in
    let w := if written r =? Zlen (close_frame w) then with_close w true (w_close_recv w) else w in
    with_websocket (with_link c l) w
  else c.
(** The connection without its frames. *)
Definition closed {F} (c : Connection F) : Connection F :=
  let c := if nz (l_flags (c_link c) .& FLAG_CLIENT_SHUTDOWN) then c else send_close c in
  {| c_link := shut (c_link c); c_type := CONNECTION_TYPE_ERROR; c_data := None;
     c_websocket := {| w_config := {| userdata := false; has_callback := false; has_fragmented := false; max_frames := 0 |}; w_queue := None;
                       w_last := OV_WEBSOCKET_FRAGMENTATION_NONE; w_counter := 0; w_code := 0; w_phrase := []; w_close_sent := false;
                         w_close_recv := false |} |}.
Fixpoint free_frames (m : mem) (l : list ov_websocket_frame) : option mem :=
  match l with [] => Some m | f :: l => m ← ov_websocket_frame_free m (Some f); free_frames m l end.
Definition close_connection (m : mem) (c : Connection ov_websocket_frame) : option (Connection ov_websocket_frame * mem) :=
  if l_fd (c_link c) =? -1 then Some (c, m) else
  m ← free_frames m (default [] (w_queue (c_websocket c)));
  m ← ov_websocket_frame_free m (c_data c);
  Some (closed c, m).
Definition tls_send_buffer (m : mem) (c : Connection ov_websocket_frame) (buffer : ov_buffer) : option (bool * Connection ov_websocket_frame * mem) :=
  octets ← loadn m (b_start buffer) (Z.to_nat (b_length buffer));
  '(ok, l) ← tls_send (c_link c) octets;
  if ok : bool then Some (true, with_link c l, m) else '(c, m) ← close_connection m (with_link c l); Some (false, c, m).
Definition io_tls_send (m : mem) (c : Connection ov_websocket_frame) : option (bool * Connection ov_websocket_frame * mem) :=
  '(r, l) ← io_tls_send_link (c_link c);
  match r with
  | SEND_DONE => Some (true, with_link c l, m)
  | SEND_FAILED => '(c, m) ← close_connection m (with_link c l); Some (false, c, m)
  | SEND_CLOSE => '(c, m) ← close_connection m (with_link c l); Some (true, c, m)
  end.

(** ** The code: receiving *)

Definition connection : Type := Connection ov_websocket_frame.
Definition result : Type := bool * connection * mem.
(** The callbacks of the application. *)
Definition call_callback {F} (c : Connection F) (content : list Z) (text : bool) : bool * Connection F :=
  let ok := callback env (l_trace (c_link c)) content text in (ok, with_link c (happened (c_link c) (Delivered content text ok))).
Definition call_fragmented {F} (c : Connection F) (opcode : Z) (state : ov_websocket_fragmentation_state) (content : list Z) : bool * Connection F :=
  let ok := fragmented env (l_trace (c_link c)) opcode content in (ok, with_link c (happened (c_link c) (Fragment opcode state content ok))).
Definition content_of (m : mem) (frame : ov_websocket_frame) : option (list Z) := loadn m (f_content_start frame) (Z.to_nat (f_content_length frame)).

(** Both frames are released, here and where it is left over an error. *)
Definition control_done (ok : bool) (c : connection) (m : mem) (frame : ov_websocket_frame) (response : option ov_websocket_frame) : option result :=
  m ← ov_websocket_frame_free m (Some frame); m ← ov_websocket_frame_free m response; Some (ok, c, m).
Definition process_wss_control_frame (m : mem) (c : connection) (frame : ov_websocket_frame) : option result :=
  if f_opcode frame =? OV_WEBSOCKET_OPCODE_PONG then control_done true c m frame None
  else if f_opcode frame =? OV_WEBSOCKET_OPCODE_PING then
    '(response, m) ← ov_websocket_frame_create m (f_config frame);
    buffer ← f_buffer response;
    m ← store8 m (b_start buffer) 0x8A;
    '(ok, frame, response, m) ← (
      if negb (f_content_start frame =? NULL) then
        '(ok, m) ← ov_websocket_frame_unmask m frame;
        if negb ok then Some (false, frame, response, m) else
        '(ok, response, m) ← ov_websocket_set_data (junk env) None m response (f_content_start frame) (f_content_length frame) false;
        Some (ok, frame, response, m)
      else b ← f_buffer frame; Some (true, with_buffer frame (Some (with_length b 2)), response, m));
    if negb ok then control_done false c m frame (Some response) else
    buffer ← f_buffer response;
    '(ok, c, m) ← tls_send_buffer m c buffer;
    control_done ok c m frame (Some response)
  else if f_opcode frame =? OV_WEBSOCKET_OPCODE_CLOSE then
    control_done false (with_websocket c (with_close (c_websocket c) (w_close_sent (c_websocket c)) true)) m frame None
  else control_done false c m frame None.

(** The contents of the queue one behind the other; what is left of the queue. *)
Fixpoint push_contents (m : mem) (buffer : ov_buffer) (queue : list ov_websocket_frame) : option (bool * ov_buffer * list ov_websocket_frame * mem) :=
  match queue with
  | [] => Some (true, buffer, [], m)
  | frame :: queue =>
      '(ok, buffer, m) ← ov_buffer_push (junk env) m buffer (f_content_start frame) (f_content_length frame);
      m ← ov_websocket_frame_free m (Some frame);
      if ok : bool then push_contents m buffer queue else Some (false, buffer, queue, m)
  end.
Definition with_queue {F} (c : Connection F) (queue : option (list F)) : Connection F :=
  let w := c_websocket c in with_websocket c (with_fragments w queue (w_last w) (w_counter w)).
Definition with_counter {F} (c : Connection F) (counter : Z) : Connection F :=
  let w := c_websocket c in with_websocket c (with_fragments w (w_queue w) (w_last w) counter).
Definition defragmented_callback (m : mem) (c : connection) (text : bool) : option result :=
  queue ← w_queue (c_websocket c);
  _ ← OV_ASSERT (userdata (w_config (c_websocket c)));
  _ ← OV_ASSERT (has_callback (w_config (c_websocket c)));
  '(buffer, m) ← ov_buffer_create m IMPL_BUFFER_SIZE_WS_FRAME_DEFRAG;
  if bool_decide (queue = []) then m ← ov_buffer_free m (Some buffer); Some (false, c, m) else
  '(ok, buffer, queue, m) ← push_contents m buffer queue;
  let c := with_queue c (Some queue) in
  if negb ok then m ← ov_buffer_free m (Some buffer); Some (false, c, m) else
  content ← loadn m (b_start buffer) (Z.to_nat (b_length buffer));
  let '(ok, c) := call_callback c content text in
  m ← ov_buffer_free m (Some buffer);
  if negb ok then Some (false, c, m) else Some (true, with_counter c 0, m).

(** The label [error]. *)
Definition protocol_error {F} (c : Connection F) : Connection F :=
  let w := c_websocket c in if w_code w =? 0 then with_websocket c (with_reason w 1002 "websocket protocol error") else c.
Definition delivery_error (m : mem) (c : connection) (frame : option ov_websocket_frame) : option result :=
  m ← ov_websocket_frame_free m frame; Some (false, protocol_error c, m).
(** The first fragment of a message was there. *)
Definition started (last : ov_websocket_fragmentation_state) : bool :=
  match last with OV_WEBSOCKET_FRAGMENTATION_START | OV_WEBSOCKET_FRAGMENTATION_CONTINUE => true | _ => false end.
(** From the queue on: the frame waits, or the message is complete. *)
Definition queue_frame (m : mem) (c : connection) (frame : ov_websocket_frame) (text callback_queue : bool) : option result :=
  match w_queue (c_websocket c) with
  | None => delivery_error m c (Some frame)
  | Some queue =>
      let w := c_websocket c in
      let c := with_websocket c (with_fragments w (Some (queue ++ [frame])) (f_state frame) (u64 (w_counter w + 1))) in
      let w := c_websocket c in
      if negb (max_frames (w_config w) =? 0) && (max_frames (w_config w) <=? w_counter w) && negb callback_queue then
        delivery_error m (with_websocket c (with_reason w 1002 "max frames reached")) None
      else if callback_queue then defragmented_callback m c text else Some (true, c, m)
  end.
Definition defragmented_wss_delivery (m : mem) (c : connection) (frame : ov_websocket_frame) (text : bool) : option result :=
  let w := c_websocket c in
  match f_state frame with
  | OV_WEBSOCKET_FRAGMENTATION_NONE =>
      if started (w_last w) then delivery_error m c (Some frame) else
      _ ← OV_ASSERT (has_callback (w_config w));
      content ← content_of m frame;
      let '(ok, c) := call_callback c content text in
      if negb ok then delivery_error m (with_websocket c (with_reason (c_websocket c) 1002 "content not accepted")) (Some frame) else
      m ← ov_websocket_frame_free m (Some frame);
      Some (true, with_websocket c (with_fragments (c_websocket c) (w_queue (c_websocket c)) OV_WEBSOCKET_FRAGMENTATION_NONE 0), m)
  | OV_WEBSOCKET_FRAGMENTATION_START =>
      if started (w_last w) then delivery_error m c (Some frame) else
      match w_queue w with
      | Some (out :: queue) => m ← ov_websocket_frame_free m (Some out); delivery_error m (with_queue c (Some queue)) (Some frame)
      | _ => queue_frame m (with_queue c (Some [])) frame text false
      end
  | OV_WEBSOCKET_FRAGMENTATION_CONTINUE =>
      if started (w_last w) then queue_frame m c frame text false else delivery_error m c (Some frame)
  | OV_WEBSOCKET_FRAGMENTATION_LAST =>
      if started (w_last w) then queue_frame m c frame text true else delivery_error m c (Some frame)
  end.
(** A frame that the callback for fragments gets is the application's. *)
Definition process_wss_frame (m : mem) (c : connection) (frame : ov_websocket_frame) : option result :=
  if 0x08 <=? f_opcode frame then process_wss_control_frame m c frame else
  if negb ((f_opcode frame =? OV_WEBSOCKET_OPCODE_CONTINUATION) || (f_opcode frame =? OV_WEBSOCKET_OPCODE_TEXT) || (f_opcode frame =?
    OV_WEBSOCKET_OPCODE_BINARY))
  then m ← ov_websocket_frame_free m (Some frame); Some (false, c, m) else
  let text := f_opcode frame =? OV_WEBSOCKET_OPCODE_TEXT in
  _ ← OV_ASSERT (userdata (w_config (c_websocket c)));
  '(ok, m) ← ov_websocket_frame_unmask m frame;
  if negb ok then m ← ov_websocket_frame_free m (Some frame); Some (false, c, m) else
  if has_fragmented (w_config (c_websocket c)) then
    content ← content_of m frame;
    let '(ok, c) := call_fragmented c (f_opcode frame) (f_state frame) content in Some (ok, c, m)
  else defragmented_wss_delivery m c frame text.
Fixpoint process_wss_loop (fuel : nat) (m : mem) (c : connection) : option result :=
  match fuel with
  | O => None
  | S fuel =>
      match c_data c with
      | None => Some (true, c, m)
      | Some frame =>
          buffer ← f_buffer frame;
          if b_length buffer =? 0 then Some (true, c, m) else
          '(state, frame, next) ← ov_websocket_parse_frame m frame;
          let c := with_data c (Some frame) in
          match state with
          | OV_WEBSOCKET_PARSER_SUCCESS =>
              let c := with_data c None in
              next ← next;
              '(ok, frame, new, m) ← ov_websocket_frame_shift_trailing_bytes m frame next;
              let c := with_data c new in
              if negb ok then m ← ov_websocket_frame_free m (Some frame); Some (false, c, m) else
              '(ok, c, m) ← process_wss_frame m c frame;
              if ok : bool then process_wss_loop fuel m c else Some (false, c, m)
          | OV_WEBSOCKET_PARSER_PROGRESS => Some (true, c, m)
          | OV_WEBSOCKET_PARSER_ERROR => Some (false, with_websocket c (with_reason (c_websocket c) 1002 "not a websocket frame"), m)
          end
      end
  end.
(** A frame has two octets at least. *)
Definition process_wss (m : mem) (c : connection) : option result :=
  match c_data c with
  | None => Some (false, c, m)
  | Some frame => buffer ← f_buffer frame; process_wss_loop (S (S (Z.to_nat (b_length buffer)))) m c
  end.

(** Input at an upgraded connection: [peeked] octets are there, [octets] are what
    [SSL_read] delivers, not more than there is room for. *)
Definition io_tls_in (config : ov_websocket_frame_config) (m : mem) (c : connection) (peeked : Z) (octets : list Z) : option result :=
  let fail c m := '(c, m) ← close_connection m c; Some (false, c, m) in
  let c := with_link c (with_flags (c_link c) FLAG_SEND_SSL_SHUTDOWN) in
  '(frame, m) ← (match c_data c with Some frame => Some (frame, m) | None => ov_websocket_frame_create m config end);
  buffer ← f_buffer frame;
  if b_start buffer =? NULL then fail (with_data c (Some frame)) m else
  let used := b_length buffer in
  '(ok, buffer, m) ← (if b_capacity buffer - used <? peeked then ov_buffer_extend (junk env) m buffer (u64 (peeked - (b_capacity buffer - used) + 1))
    else Some (true, buffer, m));
  if negb ok then fail (with_data c (Some (with_buffer frame (Some buffer)))) m else
  if b_capacity buffer - used <? Zlen octets then None else
  m ← storen m (b_start buffer + used) octets;
  let c := with_data c (Some (with_buffer frame (Some (with_length buffer (used + Zlen octets))))) in
  if Zlen octets =? 0 then fail c m else
  '(ok, c, m) ← process_wss m c;
  if negb ok then fail c m else
  Some (true, with_link c (with_flags (c_link c) 0), m).

(** ** The code: sending messages *)

(** One frame, in the buffer that is used for all of them. *)
Definition send_frame (m : mem) (c : connection) (frame : ov_websocket_frame) (octet : Z) (data length : Z) : option (bool * connection *
    ov_websocket_frame * mem) :=
  buffer ← f_buffer frame;
  m ← store8 m (b_start buffer) octet;
  '(ok, frame, m) ← ov_websocket_set_data (junk env) None m frame data length false;
  if negb ok then Some (false, c, frame, m) else
  buffer ← f_buffer frame;
  '(ok, c, m) ← tls_send_buffer m c buffer;
  Some (ok, c, frame, m).
Fixpoint send_continuation (fuel : nat) (m : mem) (c : connection) (frame : ov_websocket_frame) (ptr chunk open : Z) : option (bool * connection *
    ov_websocket_frame * mem) :=
  match fuel with
  | O => None
  | S fuel =>
      if chunk <? open then
        '(ok, c, frame, m) ← send_frame m c frame 0x00 ptr chunk;
        if ok : bool then send_continuation fuel m c frame (ptr + chunk) chunk (open - chunk) else Some (false, c, frame, m)
      else send_frame m c frame 0x80 ptr open
  end.
(** [str] is the text of the message. *)
Definition cb_wss_send_json (config : ov_websocket_frame_config) (chunk : Z) (m : mem) (c : connection) (str : Z) : option result :=
  if l_fd (c_link c) =? -1 then Some (false, c, m) else
  if negb (bool_decide (c_type c = CONNECTION_TYPE_WEBSOCKET)) then Some (false, c, m) else
  length ← strlen m str;
  '(frame, m) ← ov_websocket_frame_create m config;
  '(frame, m) ← ov_websocket_frame_clear m frame;
  '(ok, c, frame, m) ← (
    if length <? chunk then send_frame m c frame (0x80 .| OV_WEBSOCKET_OPCODE_TEXT) str length else
    '(ok, c, frame, m) ← send_frame m c frame (0x00 .| OV_WEBSOCKET_OPCODE_TEXT) str chunk;
    if ok : bool then send_continuation (S (Z.to_nat length)) m c frame (str + chunk) chunk (length - chunk) else Some (false, c, frame, m));
  m ← ov_websocket_frame_free m (Some frame);
  Some (ok, c, m).
End code.
