(* ===== verification/WebServerSend.v ===== *)
(** * What a TLS connection sends, and in which order

    [tls_send_ordered]: nothing is lost, sent twice or made up while a connection
    lives; the order is kept when no message is given to a connection whose queue
    waits behind an empty buffer. [overtaken] is what happens otherwise: the
    message is sent before the ones that wait. [tls_send_drains]: everything that
    waits is sent once the socket takes it. *)
From S2P Require Import Prelude Websocket WebServerBase.

(** What OpenSSL promises behind the handshake, when partial writes are not enabled:
    all or nothing. The size of the send buffer is not changed. *)
Record ssl_laws (env : environment) (max : Z) : Prop := {
  ssl_all_or_nothing : forall h l, written (ssl_write env h l) = Zlen l \/ written (ssl_write env h l) = 0 \/ written (ssl_write env h l) = -1;
  ssl_handshaked : forall h l, error (ssl_write env h l) ∈ [SSL_ERROR_NONE; SSL_ERROR_WANT_READ; SSL_ERROR_WANT_WRITE; SSL_ERROR_SYSCALL;
    SSL_ERROR_SSL; SSL_ERROR_ZERO_RETURN];
  ssl_buffer : forall h, send_buffer_size env h = max }.

(** The octets that were taken, the oldest first. *)
Fixpoint transmitted (t : list event) : list (list Z) :=
  match t with
  | [] => []
  | Written o n :: t => if n =? Zlen o then transmitted t ++ [o] else transmitted t
  | _ :: t => transmitted t
  end.
Definition waiting (l : link) : list (list Z) := from_option (fun o => [o]) [] (l_buffer l) ++ l_queue l.
Definition out_stream (l : link) : list (list Z) := transmitted (l_trace l) ++ waiting l.

Inductive send_op := Submit (octets : list Z) | Writable.
Section send.
Context (env : environment).
Definition send_step (o : send_op) (l : link) : option (bool * link) :=
  match o with
  | Submit octets => tls_send env l octets
  | Writable => '(r, l) ← io_tls_send_link env l; Some (match r with SEND_DONE => true | _ => false end, l)
  end.
(** Up to the first failure, which closes the connection. *)
Fixpoint send_all (ops : list send_op) (l : link) : option (bool * link) :=
  match ops with
  | [] => Some (true, l)
  | o :: ops => '(ok, l) ← send_step o l; if ok : bool then send_all ops l else Some (false, l)
  end.
(** Nothing is given to a connection whose queue waits behind an empty buffer. *)
Fixpoint orderly (ops : list send_op) (l : link) : bool :=
  match ops with
  | [] => true
  | o :: ops =>
      match o with Submit _ => match l_buffer l, l_queue l with None, _ :: _ => false | _, _ => true end | Writable => true end &&
      match send_step o l with Some (true, l) => orderly ops l | _ => true end
  end.
End send.
Definition submitted (o : send_op) : list (list Z) := match o with Submit octets => [octets] | Writable => [] end.

(** ** Pieces *)

Definition fits (max : Z) (o : list Z) : Prop := 0 < Zlen o <= max.
Lemma push_pieces_spec fuel max o l : 0 < max -> (length o <= fuel)%nat -> exists p, concat p = o /\ Forall (fits max) p /\
  push_pieces fuel max o l = (true, with_out l (l_buffer l) (l_queue l ++ p)).
Proof.
  intros Hmax. revert o l. induction fuel as [|fuel IH]; intros o l Hf; destruct o as [|x o]; cbn [length] in Hf; try lia.
  1, 2: exists []; split; [done|]; split; [constructor|]; cbn [push_pieces]; rewrite app_nil_r; by destruct l.
  cbn [push_pieces]. set (full := x :: o) in *. assert (Hl : 0 < Zlen full) by (unfold full; rewrite Zlen_cons; pose proof (Zlen_nonneg o); lia).
  set (piece := if max <? Zlen full then ztake max full else full). assert (Hp : fits max piece /\ piece = ztake max full).
  { unfold fits, piece. destruct (Z.ltb_spec max (Zlen full)); [rewrite Zlen_ztake; split; [lia|done]|]. split; [lia|]. symmetry.
    unfold ztake, Zlen in *. apply take_ge. lia. }
  destruct Hp as [Hp Ep]. rewrite (proj2 (Z.ltb_ge _ 1)) by (unfold fits in Hp; lia).
  destruct (IH (zdrop max full) (queue_push l piece)) as (p & Ec & Fp & ->).
  { assert (Zlen (zdrop max full) = Z.max 0 (Zlen full - max)) by (rewrite Zlen_zdrop; lia). unfold Zlen in *. unfold full in *. cbn [length] in *. lia. }
  exists (piece :: p). cbn [concat]. rewrite Ec, Ep, ztake_zdrop. split; [done|]. split; [by constructor; [rewrite <- Ep|]|].
  unfold queue_push. cbn [with_out l_buffer l_queue]. by rewrite <- app_assoc.
Qed.

(** ** The steps *)

Section laws.
Context (env : environment) (max : Z) (Hlaws : ssl_laws env max) (Hmax : 0 < max < 2 ^ 31).
Definition sane (l : link) : Prop := Forall (fits max) (waiting l).
(** How an octet sequence is taken: it waits behind the others, or it is sent or
    waits in front of them. *)
Definition taken (o : list Z) (l l' : link) : Prop :=
  exists p, concat p = o /\ Forall (fits max) p /\
    ((l_buffer l <> None \/ max < Zlen o) /\ transmitted (l_trace l') = transmitted (l_trace l) /\ l_buffer l' = l_buffer l /\ l_queue l' = l_queue l ++ p \/
     l_buffer l = None /\ l_queue l' = l_queue l /\ transmitted (l_trace l') ++ from_option (fun o => [o]) [] (l_buffer l') = transmitted (l_trace l)
       ++ p /\ p = [o]).
Lemma after_error_spec r l : error r ∈ [SSL_ERROR_NONE; SSL_ERROR_WANT_READ; SSL_ERROR_WANT_WRITE; SSL_ERROR_SYSCALL; SSL_ERROR_SSL; SSL_ERROR_ZERO_RETURN] ->
  exists ok l', after_error r l = Some (ok, l') /\ (l' = l \/ l' = with_flags l 0).
Proof using Type.
  rewrite !elem_of_cons, elem_of_nil. unfold after_error. intros H. repeat destruct H as [-> | H]; try done; eexists _, _; (split; [done|]); auto.
Qed.
Lemma tls_send_spec l o : o <> [] -> exists ok l', tls_send env l o = Some (ok, l') /\
  if ok : bool then taken o l l' else transmitted (l_trace l') = transmitted (l_trace l).
Proof using Hlaws Hmax.
  intros Ho. assert (Hlo : 0 < Zlen o) by (pose proof (Zlen_nonneg o); assert (Zlen o <> 0) by (intros E; by apply Zlen_0_nil in E); lia).
  unfold tls_send. destruct (negb _); [by eexists false, _|]. cbn [set_listening with_flags l_trace].
  destruct (listening_set env (l_trace l)); cbn [negb]; [|by eexists false, _].
  rewrite (ssl_buffer _ _ Hlaws), u64_id by lia. destruct (Z.ltb_spec max (Zlen o)) as [Hlt|Hge].
  - destruct (push_pieces_spec (length o) max o (happened (with_flags l FLAG_SEND_SSL_SHUTDOWN) (Listening true true)) ltac:(lia) ltac:(lia)) as (p &
      Ep & Fp & ->).
    eexists true, _. split; [done|]. exists p. split; [done|]. split; [done|]. left. split; [by right|done].
  - rewrite (proj2 (Z.ltb_ge _ 1)) by lia. cbn [happened with_flags l_buffer]. destruct (l_buffer l) as [w|] eqn:Eb.
    + eexists true, _. split; [done|]. exists [o]. split; [apply app_nil_r|]. split; [by repeat constructor|]. left. cbn. rewrite Eb. split; [by left|done].
    + cbn [call_ssl_write happened with_flags l_trace]. set (t := Listening true true :: l_trace l). set (r := ssl_write env t o).
      destruct (Z.eqb_spec (written r) 0) as [E0|E0]; [eexists false, _; split; [done|]; cbn [happened l_trace transmitted];
        by rewrite (proj2 (Z.eqb_neq (written r) _)) by lia|].
      destruct (Z.eqb_spec (written r) (Zlen o)) as [E1|E1].
      { eexists true, _. split; [done|]. exists [o]. split; [apply app_nil_r|]. split; [by repeat constructor|]. right.
        cbn [count_bytes happened with_flags l_queue l_trace l_buffer transmitted].
        rewrite E1, Z.eqb_refl, Eb. split; [done|]. split; [done|]. split; [apply app_nil_r|done]. }
      assert (E2 : written r = -1) by (destruct (ssl_all_or_nothing _ _ Hlaws t o) as [?|[?|?]]; done). set (l1 := happened _ (Written o (written r))).
      assert (Et : transmitted (l_trace l1) = transmitted (l_trace l)) by (cbn [l1 happened l_trace transmitted];
        by rewrite (proj2 (Z.eqb_neq (written r) _)) by lia).
      destruct (after_error_spec r l1 (ssl_handshaked _ _ Hlaws t o)) as (ok & l2 & -> & El). cbn [mbind option_bind]. rewrite E2. cbn [Z.eqb Pos.eqb orb].
      assert (Et2 : transmitted (l_trace l2) = transmitted (l_trace l) /\ l_queue l2 = l_queue l) by (destruct El as [-> | ->]; done).
      destruct Et2 as [Et2 Eq2].
      destruct ok; cbn [negb]; [|by eexists false, _]. eexists true, _. split; [done|]. exists [o]. split; [apply app_nil_r|].
      split; [by repeat constructor|]. right.
      cbn [with_out l_queue l_trace l_buffer]. rewrite Et2, Eq2. done.
Qed.
Lemma taken_sane o l l' : sane l -> taken o l l' -> sane l' /\ exists p, concat p = o /\ out_stream l' ≡ₚ out_stream l ++ p /\
  ((l_buffer l = None -> l_queue l = []) -> out_stream l' = out_stream l ++ p).
Proof using Type.
  intros Hs (p & Ep & Fp & H). unfold sane, out_stream, waiting in *. apply Forall_app in Hs as [Hb Hq].
  destruct H as [(_ & Et & E1 & E2)|(En & Eq & Et & ->)].
  - rewrite Et, E1, E2. split; [by rewrite !Forall_app|]. exists p. split; [done|]. rewrite !app_assoc. by split.
  - split.
    + apply Forall_app. rewrite Eq. split; [|done]. destruct (l_buffer l') as [x|]; cbn [from_option] in *; [|constructor].
      by apply app_inj_tail in Et as [_ ->].
    + exists [o]. split; [apply app_nil_r|]. rewrite Eq, En. cbn [from_option app]. rewrite app_assoc, Et. split.
      * rewrite <- !app_assoc. apply Permutation_app_head, Permutation_app_comm.
      * intros Hnil. rewrite Hnil by done. by rewrite !app_nil_r.
Qed.
Lemma writable_spec l : sane l -> exists r l', io_tls_send_link env l = Some (r, l') /\
  match r with SEND_DONE => sane l' /\ out_stream l' = out_stream l | _ => transmitted (l_trace l') = transmitted (l_trace l) end.
Proof using Hlaws Hmax.
  intros Hs. unfold io_tls_send_link. destruct (_ || _); [by eexists SEND_FAILED, _|]. unfold sane, out_stream, waiting in *.
  destruct (l_buffer l) as [o|] eqn:Eb.
  - cbn [call_ssl_write]. set (r := ssl_write env (l_trace l) o). cbn [from_option app] in Hs. apply Forall_cons in Hs as [Ho Hq]. unfold fits in Ho.
    destruct (Z.eqb_spec (written r) (Zlen o)) as [E1|E1].
    { eexists SEND_DONE, _. split; [done|]. cbn [count_bytes with_out happened l_trace l_buffer l_queue transmitted from_option app].
      rewrite E1, Z.eqb_refl. split; [done|]. by rewrite <- app_assoc. }
    set (l1 := happened l (Written o (written r))).
    assert (Et : transmitted (l_trace l1) = transmitted (l_trace l)) by (cbn [l1 happened l_trace transmitted];
      by rewrite (proj2 (Z.eqb_neq (written r) _)) by lia).
    destruct (written r =? 0); [by eexists SEND_FAILED, _|]. destruct (after_error_spec r l1 (ssl_handshaked _ _ Hlaws _ _)) as (ok & l2 & -> & El).
    cbn [mbind option_bind].
    assert (E2 : transmitted (l_trace l2) = transmitted (l_trace l) /\ l_queue l2 = l_queue l /\
      l_buffer l2 = Some o) by (destruct El as [-> | ->]; done). destruct E2 as (E2 & E3 & E4).
    destruct ok; [|by eexists SEND_FAILED, _]. eexists SEND_DONE, _. split; [done|]. rewrite E2, E3, E4. split; [by constructor|done].
  - cbn [from_option app] in *. destruct (l_queue l) as [|o q] eqn:Eq.
    + destruct (nz _); [by eexists SEND_CLOSE, _|]. cbn [set_listening]. destruct (listening_set env (l_trace l)); [|by eexists SEND_FAILED, _].
      eexists SEND_DONE, _. split; [done|]. cbn [happened l_trace l_buffer l_queue transmitted]. rewrite Eb, Eq. by split.
    + apply Forall_cons in Hs as [Ho Hq].
      destruct (tls_send_spec (with_out l None q) o) as (ok & l' & -> & H); [intros ->; unfold fits in Ho; change (Zlen (@nil Z)) with 0 in Ho; lia|].
      cbn [mbind option_bind]. destruct ok; [|by eexists SEND_FAILED, _]. eexists SEND_DONE, _. split; [done|].
      destruct H as (p & Ep & Fp & [([Hc|Hc] & _)|(_ & Eq' & Et & ->)]); [done|unfold fits in Ho; lia|]. cbn [with_out l_queue l_trace] in *. rewrite Eq'.
      split; [|by rewrite app_assoc, Et, <- app_assoc]. apply Forall_app. split; [|done].
      destruct (l_buffer l') as [x|]; cbn [from_option] in *; [|constructor].
      apply app_inj_tail in Et as [_ ->]. by constructor.
Qed.

Lemma send_all_spec ops l : sane l -> Forall (fun o => o <> Submit []) ops -> exists ok l', send_all env ops l = Some (ok, l') /\
  exists p, concat p = concat (ops ≫= submitted) /\
    if ok : bool then sane l' /\ out_stream l' ≡ₚ out_stream l ++ p /\ (orderly env ops l = true -> out_stream l' = out_stream l ++ p)
    else exists rest, transmitted (l_trace l') ++ rest ≡ₚ out_stream l ++ p /\ (orderly env ops l = true ->
      transmitted (l_trace l') ++ rest = out_stream l ++ p).
Proof using Hlaws Hmax.
  revert l. induction ops as [|o ops IH]; intros l Hs Ho.
  { exists true, l. split; [done|]. exists []. split; [done|]. rewrite app_nil_r. done. }
  apply Forall_cons in Ho as [Ho Hops]. cbn [send_all orderly mbind list_bind].
  assert (Hstep : exists ok l1, send_step env o l = Some (ok, l1) /\ exists p, concat p = concat (submitted o) /\
    if ok : bool then sane l1 /\ out_stream l1 ≡ₚ out_stream l ++ p /\ ((match o with Submit _ => l_buffer l = None ->
      l_queue l = [] | Writable => True end) -> out_stream l1 = out_stream l ++ p)
    else transmitted (l_trace l1) = transmitted (l_trace l)).
  { destruct o as [octets|]; cbn [send_step submitted].
    - destruct (tls_send_spec l octets ltac:(by intros ->)) as (ok & l1 & E & H). exists ok, l1. split; [done|]. destruct ok.
      + destruct (taken_sane octets l l1 Hs H) as (Hs1 & p & Ep & H1 & H2). exists p. split; [by rewrite Ep; cbn; rewrite app_nil_r|done].
      + exists [octets]. done.
    - destruct (writable_spec l Hs) as (r & l1 & -> & H). cbn [mbind option_bind]. eexists _, l1. split; [done|]. exists []. split; [done|].
      destruct r; try done. destruct H as [H1 H2]. rewrite app_nil_r, H2. done. }
  destruct Hstep as (ok & l1 & -> & p & Ep & H). cbn [mbind option_bind]. destruct ok.
  - destruct H as (Hs1 & Hp & Hq). destruct (IH l1 Hs1 Hops) as (ok & l' & E & p' & Ep' & H'). rewrite E. exists ok, l'. split; [done|]. exists (p ++ p').
    split; [by rewrite !concat_app, Ep, Ep'|].
    assert (Hor : match o with Submit _ => l_buffer l = None -> l_queue l = [] | Writable => True end \/ (match o with Submit _ => match l_buffer l,
      l_queue l with None, _ :: _ => false | _, _ => true end | Writable => true end) = false).
    { destruct o; [|by left]. destruct (l_buffer l), (l_queue l); first [by left|by right]. }
    destruct ok.
    + destruct H' as (Hs' & Hp' & Hq'). split; [done|]. split; [by rewrite Hp', Hp, app_assoc|]. intros Hall. apply andb_true_iff in Hall as [H0 H1].
      destruct Hor as [Hor|Hor]; [|congruence]. by rewrite (Hq' H1), (Hq Hor), app_assoc.
    + destruct H' as (rest & Hp' & Hq'). exists rest. split; [by rewrite Hp', Hp, app_assoc|]. intros Hall. apply andb_true_iff in Hall as [H0 H1].
      destruct Hor as [Hor|Hor]; [|congruence]. by rewrite (Hq' H1), (Hq Hor), app_assoc.
  - exists false, l1. split; [done|]. exists (p ++ ops ≫= submitted). split; [by rewrite !concat_app, Ep|]. exists (waiting l ++ p ++ ops ≫= submitted).
    unfold out_stream. rewrite H, <- app_assoc. by split.
Qed.
Definition same_socket (l l' : link) : Prop := l_fd l' = l_fd l /\ l_handshaked l' = l_handshaked l.
Lemma push_same fuel max' o l : same_socket l (push_pieces fuel max' o l).2.
Proof using Type.
  revert o l. induction fuel as [|fuel IH]; intros [|x o] l; try done. cbn [push_pieces]. destruct (_ <? 1); [done|]. apply (IH _ (queue_push l _)).
Qed.
Lemma after_error_same r l ok l' : after_error r l = Some (ok, l') -> same_socket l l'.
Proof using Type. unfold after_error. by destruct (error r); intros [= <- <-]. Qed.
Lemma tls_send_same l o ok l' : tls_send env l o = Some (ok, l') -> same_socket l l'.
Proof using Type.
  unfold tls_send. destruct (negb _); [by intros [= <- <-]|]. cbn [set_listening]. destruct (listening_set _ _); cbn [negb]; [|by intros [= <- <-]].
  destruct (_ <? _); [intros [= E]; apply (f_equal snd) in E; cbn [snd] in E; rewrite <- E;
    match goal with |- same_socket _ (push_pieces ?f ?x ?o ?l).2 => exact (push_same f x o l) end|].
  destruct (_ <? 1); [by intros [= <- <-]|]. cbn [happened with_flags l_buffer]. destruct (l_buffer l); [by intros [= <- <-]|]. cbn [call_ssl_write].
  destruct (_ =? 0); [by intros [= <- <-]|].
  destruct (_ =? Zlen o); [by intros [= <- <-]|]. destruct (after_error _ _) as [[b l1]|] eqn:E; [|done]. apply after_error_same in E.
  cbn [mbind option_bind]. destruct b; cbn [negb]; [|by intros [= <- <-]].
  destruct (_ || _); [|done]. by intros [= <- <-].
Qed.
Lemma writable_same l r l' : io_tls_send_link env l = Some (r, l') -> same_socket l l'.
Proof using Type.
  unfold io_tls_send_link. destruct (_ || _); [by intros [= <- <-]|]. destruct (l_buffer l); [|destruct (l_queue l) as [|out queue]].
  - cbn [call_ssl_write]. destruct (_ =? Zlen _); [by intros [= <- <-]|]. destruct (_ =? 0); [by intros [= <- <-]|].
    destruct (after_error _ _) as [[b l1]|] eqn:E; [|done]. apply after_error_same in E. by intros [= <- <-].
  - destruct (nz _); [by intros [= <- <-]|]. cbn [set_listening]. destruct (listening_set _ _); by intros [= <- <-].
  - destruct (tls_send _ _ _) as [[b l1]|] eqn:E; [|done]. apply tls_send_same in E. by intros [= <- <-].
Qed.
Lemma send_all_same ops l ok l' : send_all env ops l = Some (ok, l') -> same_socket l l'.
Proof using Type.
  revert l. induction ops as [|o ops IH]; intros l; [by intros [= <- <-]|]. cbn [send_all]. destruct (send_step env o l) as [[b l1]|] eqn:E; [|done].
  cbn [mbind option_bind].
  assert (H1 : same_socket l l1).
  { destruct o; cbn [send_step] in E; [by eapply tls_send_same|]. destruct (io_tls_send_link env l) as [[r l2]|] eqn:E2; [|done].
    apply writable_same in E2. by injection E as <- <-. }
  destruct b; [|by intros [= <- <-]]. intros H. apply IH in H. destruct H as [H2 H3], H1 as [H4 H5]. split; congruence.
Qed.
Lemma drain_spec l : sane l -> (forall h o, written (ssl_write env h o) = Zlen o) -> (forall h, listening_set env h = true) ->
  l_handshaked l = true -> l_fd l <> -1 ->
  exists l', send_all env (replicate (length (waiting l)) Writable) l = Some (true, l') /\ waiting l' = [] /\ transmitted (l_trace l') = out_stream l.
Proof using Hlaws Hmax.
  intros Hs Hw Hli. remember (length (waiting l)) as n eqn:En. revert l Hs En. induction n as [|n IH]; intros l Hs En Hh Hfd.
  { exists l. split; [done|]. unfold out_stream. destruct (waiting l); [|done]. by rewrite app_nil_r. }
  cbn [replicate send_all]. destruct (writable_spec l Hs) as (r & l1 & E & H). cbn [send_step]. rewrite E. cbn [mbind option_bind].
  assert (Hr : r = SEND_DONE /\ l_handshaked l1 = true /\ l_fd l1 <> -1 /\ length (waiting l1) = n).
  { revert E. unfold io_tls_send_link. rewrite (proj2 (Z.eqb_neq _ _)), Hh by done. cbn [orb negb]. unfold waiting in *. destruct (l_buffer l) as [o|] eqn:Eb.
    - cbn [call_ssl_write]. rewrite Hw, Z.eqb_refl. intros [= <- <-]. split; [done|]. split; [done|]. split; [done|]. cbn in *. by injection En.
    - destruct (l_queue l) as [|o q] eqn:Eq; [done|]. unfold sane, waiting in Hs. rewrite Eb, Eq in Hs. cbn [from_option app] in Hs.
      apply Forall_cons in Hs as [Ho _]. unfold fits in Ho.
      unfold tls_send. cbn [with_out with_flags l_handshaked set_listening l_trace]. rewrite Hh, Hli. cbn [negb]. rewrite (ssl_buffer _ _ Hlaws), u64_id by lia.
      rewrite (proj2 (Z.ltb_ge max _)), (proj2 (Z.ltb_ge _ 1)) by lia. cbn [happened l_buffer call_ssl_write].
      rewrite Hw, (proj2 (Z.eqb_neq _ 0)), Z.eqb_refl by lia. cbn [mbind option_bind].
      intros [= <- <-]. split; [done|]. split; [done|]. split; [done|]. cbn in *. by injection En. }
  destruct Hr as (-> & Hh1 & Hfd1 & En1). destruct H as [Hs1 E1]. destruct (IH l1 Hs1 ltac:(done) Hh1 Hfd1) as (l' & -> & E2 & E3). exists l'.
  split; [done|]. split; [done|]. by rewrite E3.
Qed.
End laws.

(** A connection behind the handshake that has sent nothing yet. *)
Definition idle_link : link := {| l_fd := 7; l_flags := 0; l_ssl := true; l_handshaked := true; l_buffer := None; l_queue := []; l_bytes := 0; l_trace := [] |}.

(** C7: whatever OpenSSL answers and whenever the socket is writable, the assertions
    of the code hold, and what was sent and what waits are the octets that were
    given to the connection, in pieces, none lost, none twice. They are in order
    when no message is given to a connection whose queue waits behind an empty
    buffer. After a failure, which closes the connection, a part of them was sent,
    in the same order. *)
Theorem tls_send_ordered env max ops : ssl_laws env max -> 0 < max < 2 ^ 31 -> Forall (fun o => o <> Submit []) ops ->
  exists ok l, send_all env ops idle_link = Some (ok, l) /\ exists pieces, concat pieces = concat (ops ≫= submitted) /\
    if ok : bool then out_stream l ≡ₚ pieces /\ (orderly env ops idle_link = true -> out_stream l = pieces)
    else exists rest, transmitted (l_trace l) ++ rest ≡ₚ pieces /\ (orderly env ops idle_link = true -> transmitted (l_trace l) ++ rest = pieces).
Proof.
  intros Hl Hm Ho. destruct (send_all_spec env max Hl Hm ops idle_link) as (ok & l & E & p & Ep & H); [constructor|done|].
  exists ok, l. split; [done|]. exists p. split; [done|]. destruct ok; [|done]. by destruct H as (_ & H).
Qed.
(** C19: once the socket takes everything, each time it is writable one of the octet
    sequences that wait is sent, until none waits: everything that was given to the
    connection has been sent. *)
Theorem tls_send_drains env max ops l : ssl_laws env max -> 0 < max < 2 ^ 31 -> Forall (fun o => o <> Submit []) ops ->
  send_all env ops idle_link = Some (true, l) ->
  forall env', ssl_laws env' max -> (forall h o, written (ssl_write env' h o) = Zlen o) -> (forall h, listening_set env' h = true) ->
  exists l', send_all env' (replicate (length (waiting l)) Writable) l = Some (true, l') /\ waiting l' = [] /\
    exists pieces, concat pieces = concat (ops ≫= submitted) /\ transmitted (l_trace l') ≡ₚ pieces.
Proof.
  intros Hl Hm Ho E env' Hl' Hw Hli. destruct (send_all_spec env max Hl Hm ops idle_link) as (ok & l1 & E1 & p & Ep & H); [constructor|done|].
  rewrite E in E1. injection E1 as <- <-.
  destruct H as (Hs & Hp & _). destruct (send_all_same env ops _ _ _ E) as [Hfd Hh].
  destruct (drain_spec env' max Hl' Hm l Hs Hw Hli Hh) as (l' & E' & E2 & E3); [by rewrite Hfd|].
  exists l'. split; [done|]. split; [done|]. exists p. split; [done|]. by rewrite E3.
Qed.
(** The first write has to be tried again; everything else is taken. *)
Definition slow_start : environment := {|
  ssl_write := fun h o => if bool_decide (length h = 1%nat) then {| written := -1; error := SSL_ERROR_WANT_WRITE;
    again := true |} else {| written := Zlen o; error := SSL_ERROR_NONE; again := false |};
  send_buffer_size := fun _ => 4; listening_set := fun _ => true; callback := fun _ _ _ => true; fragmented := fun _ _ _ => true; junk := 0 |}.
Definition willing : environment := {|
  ssl_write := fun h o => {| written := Zlen o; error := SSL_ERROR_NONE; again := false |};
  send_buffer_size := fun _ => 4; listening_set := fun _ => true; callback := fun _ _ _ => true; fragmented := fun _ _ _ => true; junk := 0 |}.
Lemma slow_start_laws : ssl_laws slow_start 4.
Proof. split; try done; cbn [slow_start ssl_write]; intros h l; case_bool_decide; cbn; auto; set_solver. Qed.
Lemma willing_laws : ssl_laws willing 4.
Proof. split; try done; cbn; intros h l; [by left|set_solver]. Qed.

Lemma tls_send_ordered_witness : let ops := [Submit [1; 2; 3]; Submit [4; 5; 6; 7; 8]; Writable; Writable; Writable; Submit [9]] in
  (option_map (fun r => out_stream r.2) (send_all slow_start ops idle_link) = Some [[1; 2; 3]; [4; 5; 6; 7]; [8]; [9]] /\
    orderly slow_start ops idle_link = true) /\
  exists ok l, send_all slow_start ops idle_link = Some (ok, l) /\ exists pieces, concat pieces = [1; 2; 3; 4; 5; 6; 7; 8; 9].
Proof.
  intros ops. split; [split; vm_compute; reflexivity|].
  destruct (tls_send_ordered slow_start 4 ops slow_start_laws ltac:(lia) ltac:(repeat constructor; discriminate)) as (ok & l & E & p & Ep & _).
  exists ok, l. split; [exact E|]. by exists p.
Defined.
Lemma tls_send_drains_witness : exists l l', send_all slow_start [Submit [1; 2; 3; 4; 5; 6]; Submit [7]] idle_link = Some (true, l) /\
  send_all willing (replicate (length (waiting l)) Writable) l = Some (true, l') /\ waiting l' = [].
Proof.
  set (ops := [Submit [1; 2; 3; 4; 5; 6]; Submit [7]]). destruct (send_all slow_start ops idle_link) as [[b l]|] eqn:E; [|by vm_compute in E].
  assert (b = true) as -> by (vm_compute in E; congruence).
  destruct (tls_send_drains slow_start 4 ops l slow_start_laws ltac:(lia) ltac:(repeat constructor;
    discriminate) E willing willing_laws ltac:(done) ltac:(done)) as (l' & E1 & E2 & _).
  exists l, l'. by split; [|split].
Defined.
(** The first message has to wait for the socket, the second one waits behind it.
    The first one is sent when the socket is writable: the third one, given to the
    connection now, is sent before the second one. *)
Example overtaken : option_map (fun r => out_stream r.2) (send_all slow_start [Submit [1]; Submit [2]; Writable; Submit [3];
    Writable] idle_link) = Some [[1]; [3]; [2]].
Proof. vm_compute. reflexivity. Qed.
