(* ===== verification/WebServerFrames.v ===== *)
(** * Frames of a connection in the heap

    Releasing a frame, what is behind a frame moving to a new one
    ([shift_trailing_spec]), the frame in front of the octets of a buffer
    ([next_frame], [parse_next]) and unmasking it, on a heap of buffers. *)
From S2P Require Import Prelude CMem Endian Buffer BufferSpec BufferHeap Websocket WebsocketSpec.

(** ** Frames in the heap *)

Definition config_ok (config : ov_websocket_frame_config) : Prop := 2 <= default_size config < 2 ^ 60.
Lemma uncached_spec m b l q : holds m b l -> ov_buffer_free_uncached m b !! q = outside m b q.
Proof.
  intros Hh. destruct (holds_facts m b l Hh) as (_ & _ & Hp & _ & Hc & _). unfold ov_buffer_free_uncached. rewrite (proj2 (Z.eqb_neq _ _)) by lia.
  rewrite lookup_free by done.
  unfold outside, in_block. repeat case_decide; done || tauto.
Qed.
Lemma new_from_free m b m1 m' b' : (forall q, m1 !! q = outside m b q) -> moved m1 empty_buffer m' b' -> moved m b m' b'.
Proof. intros E M q. rewrite (M q). unfold outside at 1, empty_buffer. cbn. by rewrite decide_False, E by lia. Qed.
Lemma clear_frame m f b l : holds m b l -> f_buffer f = Some b -> config_ok (f_config f) -> exists f' b' m', ov_websocket_frame_clear m f = Some (f', m') /\
  f_buffer f' = Some b' /\ f_config f' = f_config f /\ holds m' b' [] /\ moved m b m' b' /\
    (b_capacity b' = b_capacity b \/ b_capacity b' = default_size (f_config f)).
Proof.
  intros Hh Hf Hc. unfold config_ok in Hc. unfold ov_websocket_frame_clear. cbn [f_buffer]. rewrite Hf. destruct (too_large _ b).
  - destruct (buffer_create_spec (ov_buffer_free_uncached m b) (default_size (f_config f)) ltac:(lia)) as (b' & m' & E & Hw & Ecap & M).
    cbn [mbind option_bind f_config]. rewrite E. cbn [mbind option_bind].
    eexists _, b', m'. split; [done|]. split; [done|]. split; [done|]. split; [by eapply holds_with_holds|]. split; [|by right].
    eapply new_from_free; [|exact M]. intros q. by eapply uncached_spec.
  - destruct (buffer_clear_spec m b l Hh) as (rest & -> & Hw). cbn [mbind option_bind]. eexists _, _, _. split; [done|]. split; [done|].
    split; [done|]. split; [by eapply holds_with_holds|]. split; [|by left].
    apply moved_same; [done|done|]. intros q Hq. apply lookup_write_out. unfold in_block in Hq.
    destruct (holds_facts m b l Hh) as (_ & _ & _ & H & _). rewrite Zlen_zeros. lia.
Qed.
Lemma frame_free_spec m f b l : holds m b l -> f_buffer f = Some b -> config_ok (f_config f) ->
  exists m', ov_websocket_frame_free m (Some f) = Some m' /\ forall q, m' !! q = outside m b q.
Proof.
  intros Hh Hf Hc. destruct (clear_frame m f b l Hh Hf Hc) as (g & b1 & m1 & E1 & Hg & Hgc & Hh1 & M1 & _). unfold ov_websocket_frame_free.
  rewrite E1. cbn [mbind option_bind]. rewrite Hg. cbn [mbind option_bind].
  assert (E2 : exists m2, (if too_large g b1 then Some (ov_buffer_free_uncached m1 b1) else ov_buffer_free m1 (Some b1)) = Some m2 /\
    forall q, m2 !! q = outside m1 b1 q).
  { destruct (too_large g b1); [|by apply (buffer_free_spec m1 b1 []); left]. eexists. split; [done|]. intros q. by eapply uncached_spec. }
  destruct E2 as (m2 & -> & E2). cbn [mbind option_bind]. unfold ov_websocket_frame_free_uncached, ov_websocket_frame_clear.
  cbn [f_buffer with_buffer mbind option_bind f_config]. rewrite Hgc.
  unfold config_ok in Hc. destruct (buffer_create_spec m2 (default_size (f_config f)) ltac:(lia)) as (b3 & m3 & -> & Hw & _ & M3).
  cbn [mbind option_bind with_buffer f_buffer].
  eexists. split; [done|]. intros q. rewrite (uncached_spec m3 b3 []) by (by eapply holds_with_holds). rewrite (M3 q).
  unfold outside at 1, empty_buffer. cbn. rewrite decide_False by lia. by rewrite E2, (M1 q).
Qed.
Lemma heap_free_frame base b l rest items m f : heap base ((b, l, rest) :: items) m -> f_buffer f = Some b -> config_ok (f_config f) ->
  exists m', ov_websocket_frame_free m (Some f) = Some m' /\ heap base items m'.
Proof.
  intros Hm Hf Hc. pose proof (heap_first base _ _ _ Hm) as Hw.
  destruct (frame_free_spec m f b l (holds_with_holds _ _ _ _ Hw) Hf Hc) as (m' & E & H). exists m'. split; [done|]. by eapply heap_free.
Qed.
(** What a buffer that was just made contains after it is set. *)
Lemma set_fresh_spec m b data k : holds_with m b [] (zeros (b_capacity b + 1)) -> b_block b = b_capacity b + 1 -> beside m b data k -> bytes k ->
  0 < Zlen k < 2 ^ 62 ->
  exists b' m', ov_buffer_set m b data (Zlen k) = Some (true, b', m') /\ holds_with m' b' k (zeros (b_block b' - Zlen k)) /\ Zlen k < b_block b' /\
    b_block b <= b_block b' /\ moved m b m' b'.
Proof.
  intros Hw Hbl Hd Hk Hl. pose proof (holds_with_holds _ _ _ _ Hw) as Hh. destruct (holds_facts m b [] Hh) as (_ & _ & Hp & H1 & H2 & H3).
  assert (Hroom : exists b1 m1, adapt_size_nocheck m b (Zlen k) = Some (true, b1, m1) /\ region m1 (b_start b1) (zeros (b_block b1)) /\
    Zlen k <= b_capacity b1 < b_block b1 /\ b_block b <= b_block b1 /\ 0 < b_capacity b1 /\ b_block b1 < 2 ^ 63 /\ moved m b m1 b1).
  { unfold adapt_size_nocheck. rewrite (proj2 (Z.ltb_ge _ 1)) by lia. destruct (Z.leb_spec (Zlen k) (b_capacity b)).
    - exists b, m. split; [done|]. destruct Hw as (Hr & _). rewrite Hbl. split; [done|]. split; [lia|]. split; [lia|]. split; [lia|].
      split; [lia|apply moved_refl].
    - rewrite (proj2 (Z.eqb_neq (b_capacity b) 0)) by lia. unfold OV_ASSERT, SIZE_MAX. cbn [b_capacity Z.eqb mbind option_bind b_length].
      rewrite (proj2 (Z.eqb_neq _ (2 ^ 64 - 1))) by lia.
      set (m0 := free m (b_start b) (b_block b)). destruct (calloc m0 (Zlen k + 1)) as [p m1] eqn:E.
      pose proof (calloc_region m0 _ _ _ E ltac:(lia)) as Hr. cbn [b_length].
      eexists _, m1. split; [done|]. cbn [b_start b_block b_capacity]. split; [done|]. split; [lia|]. split; [lia|]. split; [lia|]. split; [lia|].
      injection E as <- <-. apply (new_from_free m b m0); [intros q; unfold m0; rewrite lookup_free by done; unfold outside, in_block;
        repeat case_decide; done || tauto|]. apply moved_fresh; [done|done|]. cbn [b_block]. rewrite Zlen_zeros. lia. }
  destruct Hroom as (b1 & m1 & E & Hr & H4 & H4b & H5 & H6 & M). destruct (moved_beside _ _ _ _ _ _ M Hd) as [Hd1 _]. pose proof Hd1 as [Hq _].
  pose proof Hr as [Hp1 _].
  unfold ov_buffer_set, NULL. rewrite (proj2 (Z.eqb_neq data 0)), (proj2 (Z.ltb_ge (Zlen k) 1)) by lia. cbn [orb]. rewrite E. cbn [mbind option_bind negb].
  rewrite (proj2 (Z.leb_le _ _)), (proj2 (Z.eqb_neq _ _)) by lia. unfold OV_ASSERT. cbn [mbind option_bind negb].
  assert (Hm1 : mapped m1 (b_start b1) (b_block b1)) by (apply region_mapped in Hr; rewrite Zlen_zeros in Hr;
    by replace (b_block b1 `max` 0) with (b_block b1) in Hr by lia).
  rewrite (memcpy_region m1 _ _ k _ (b_start b1) (b_block b1)) by (done || lia). cbn [mbind option_bind]. eexists _, _. split; [done|].
  cbn [with_length b_block b_start]. split; [|split; [lia|split; [lia|]]].
  - unfold holds_with. cbn [with_length b_start b_length b_block b_capacity]. rewrite Zlen_app, Zlen_zeros. split; [|split; [done|lia]].
    replace (b_block b1) with (Zlen k + (b_block b1 - Zlen k)) in Hr by lia. rewrite zeros_app in Hr by lia.
    apply (region_write_mid m1 _ [] (zeros (Zlen k))); [done|rewrite Zlen_zeros; lia|]. change (Zlen (@nil Z)) with 0. lia.
  - eapply moved_trans; [exact M|]. apply moved_write; done || lia.
Qed.

(** What is received and not yet a frame: zeros behind it. *)
Definition pending (b : ov_buffer) (l : list Z) : item := (b, l, zeros (b_block b - Zlen l)).
Lemma shift_trailing_spec base items m f b w r z : heap base ((b, w ++ r, z) :: items) m -> f_buffer f = Some b -> config_ok (f_config f) -> Zlen r < 2 ^ 62 ->
  exists b' z' nf nb m', ov_websocket_frame_shift_trailing_bytes m f (b_start b + Zlen w) = Some (true, with_buffer f (Some b'), Some nf, m') /\
    heap base (pending nb r :: (b', w, z') :: items) m' /\ b_start b' = b_start b /\ f_buffer nf = Some nb /\ f_config nf = f_config f /\ 3 <= b_block nb.
Proof.
  intros Hm Hf Hc Hr. unfold config_ok in Hc. pose proof (heap_first _ _ _ _ Hm) as Hw. unfold item_holds in Hw. cbn [fst snd] in Hw.
  destruct (holds_facts _ _ _ (holds_with_holds _ _ _ _ Hw)) as (Hb & El & Hp & H1 & H2 & H3).
  rewrite Zlen_app in El. pose proof (Zlen_nonneg w). pose proof (Zlen_nonneg r). apply bytes_app in Hb as [Hbw Hbr].
  unfold ov_websocket_frame_shift_trailing_bytes, NULL. rewrite (proj2 (Z.eqb_neq _ 0)) by lia.
  unfold ov_websocket_frame_create, frame_create, config_init. rewrite (proj2 (Z.eqb_neq (default_size _) 0)) by lia.
  destruct (buffer_create_spec m (default_size (f_config f)) ltac:(lia)) as (nb & m1 & -> & Hnb & Ecap & M1). cbn [mbind option_bind]. rewrite Hf.
  cbn [mbind option_bind].
  assert (Hbl : b_block nb = b_capacity nb + 1) by (destruct Hnb as (_ & _ & _ & E & _); rewrite Zlen_app, Zlen_zeros in E;
    change (Zlen (@nil Z)) with 0 in E; lia). rewrite <- Ecap in Hnb.
  pose proof (heap_add base nb [] _ _ _ _ Hm M1 Hnb) as Hm1. destruct (Z.eqb_spec (b_start b + Zlen w) (b_start b + b_length b)) as [E|E].
  - assert (r = []) as -> by (apply Zlen_0_nil; lia). rewrite app_nil_r in *. exists b, z, (empty_frame (f_config f) (Some nb)), nb, m1.
    split; [by destruct f; cbn in *; subst|].
    split; [|split; [done|split; [done|split; [done|lia]]]]. unfold pending. change (Zlen (@nil Z)) with 0. by rewrite Z.sub_0_r, Hbl.
  - cbn [empty_frame f_buffer mbind option_bind with_buffer]. rewrite u64_id by lia.
    replace (b_length b - (b_start b + Zlen w - b_start b)) with (Zlen r) by lia.
    destruct (set_fresh_spec m1 nb (b_start b + Zlen w) r Hnb Hbl) as (nb' & m2 & -> & Hnb' & H4 & H5 & M2); [|done|lia|].
    { apply (heap_beside base _ _ _ (b, w ++ r, z) w r z Hm1); [set_solver|]. cbn [fst snd]. by rewrite <- app_assoc. }
    cbn [mbind option_bind negb]. pose proof (heap_moved base nb [] _ _ _ nb' r _ m2 Hm1 M2 Hnb') as Hm2. apply heap_swap in Hm2.
    pose proof (heap_first _ _ _ _ Hm2) as Hw2. unfold item_holds in Hw2. cbn [fst snd] in Hw2.
    rewrite (memset_0 m2 (b_start b) (b_block b)) by (lia || by apply (holds_mapped _ _ _ (holds_with_holds _ _ _ _ Hw2))). cbn [mbind option_bind].
    replace (b_start b + Zlen w - b_start b) with (Zlen w) by lia.
    eexists _, (zeros (Zlen r) ++ z), _, nb', _. split; [done|]. split; [|split; [done|split; [done|split; [done|lia]]]]. apply heap_swap.
    eapply heap_moved; [exact Hm2| |].
    + apply moved_write; [done|done|lia|]. rewrite Zlen_zeros. lia.
    + destruct Hw2 as (Hr2 & _ & _ & E2 & _). unfold holds_with. cbn [with_length b_start b_length b_capacity b_block]. split; [|split; [done|split; [done|]]].
      * rewrite <- app_assoc in Hr2. apply (region_write_mid m2 _ w r); [done|rewrite Zlen_zeros; lia|done].
      * rewrite !Zlen_app, Zlen_zeros in *. lia.
Qed.

(** ** The frame in front of the octets *)

Inductive front := Bad | More | Frame (b0 : Z) (key payload rest : list Z).
Definition next_frame (l : list Z) : front :=
  match head_of l with
  | H_error => Bad
  | H_more => More
  | H_length size masked n =>
      if Zlen l <? frame_size size masked n then More else
      if negb (known_opcode (l.[0] mod 16)) then Bad else
      let body := zdrop (body_start size masked) l in
      Frame l.[0] (if masked then ztake 4 (zdrop size l) else []) (ztake n body) (zdrop n body)
  end.
(** Where the parts of a frame are in its buffer, behind the header. *)
Record place (f : ov_websocket_frame) (b : ov_buffer) (b0 : Z) (hdr key payload : list Z) : Prop := {
  pl_buffer : f_buffer f = Some b; pl_opcode : f_opcode f = b0 mod 16; pl_state : f_state f = fragmentation_state b0; pl_header : 2 <= Zlen hdr;
  pl_key : key = [] \/ Zlen key = 4 /\ payload <> [];
  pl_mask : f_mask f = if bool_decide (key = []) then NULL else b_start b + Zlen hdr;
  pl_start : f_content_start f = if bool_decide (payload = []) then NULL else b_start b + Zlen hdr + Zlen key;
  pl_length : f_content_length f = Zlen payload }.
Lemma next_frame_app b0 key payload w r : frame_octets b0 key payload w -> known_opcode (b0 mod 16) = true -> bytes r ->
  next_frame (w ++ r) = Frame b0 key payload r.
Proof.
  intros Hf Hop Hr. destruct (frame_facts_of _ _ _ _ Hf) as (size & Hs & Hlw & Hd & H0 & Hbw & Hk & Hh). unfold next_frame. rewrite (Hh r Hr).
  assert (Hlw2 : 2 <= Zlen w) by (rewrite Hlw; unfold frame_size, body_start; pose proof (Zlen_nonneg payload); case_match; lia).
  pose proof (Zlen_nonneg r). pose proof (Zlen_nonneg payload).
  rewrite <- Hlw, Zlen_app, (proj2 (Z.ltb_ge _ _)), znth_app_l, H0, Hop by lia. cbn [negb].
  assert (Ed : zdrop size (w ++ r) = key ++ payload ++ r).
  { rewrite app_assoc, <- Hd. unfold zdrop. rewrite drop_app_le; [done|]. unfold Zlen, frame_size, body_start in *. case_match; lia. }
  assert (Eb : zdrop (body_start size (bool_decide (key <> []))) (w ++ r) = payload ++ r).
  { unfold body_start. destruct Hk as [->|[E4 Hne]].
    - rewrite bool_decide_eq_false_2 by auto. exact Ed.
    - rewrite bool_decide_eq_true_2 by (intros ->; done). rewrite <- E4, <- zdrop_zdrop, Ed by (rewrite ?E4; lia). apply zdrop_app. }
  rewrite Eb, ztake_app, zdrop_app. f_equal. destruct (bool_decide_reflect (key <> [])) as [Hne|Hne].
  - destruct Hk as [->|[E4 _]]; [done|]. rewrite Ed, <- E4. apply ztake_app.
  - destruct key; [done|]. exfalso. by apply Hne.
Qed.
Lemma parse_next m f b l n : f_buffer f = Some b -> holds_with m b l (zeros n) -> 1 <= Zlen l < 2 ^ 62 -> 3 <= b_block b ->
  exists f', f_buffer f' = Some b /\ f_config f' = f_config f /\
    match next_frame l with
    | More => ov_websocket_parse_frame m f = Some (OV_WEBSOCKET_PARSER_PROGRESS, f', None)
    | Bad => exists next, ov_websocket_parse_frame m f = Some (OV_WEBSOCKET_PARSER_ERROR, f', next)
    | Frame b0 key payload rest => exists hdr, l = (hdr ++ key ++ payload) ++ rest /\
        ov_websocket_parse_frame m f = Some (OV_WEBSOCKET_PARSER_SUCCESS, f', Some (b_start b + Zlen (hdr ++ key ++ payload))) /\
        place f' b b0 hdr key payload /\ known_opcode (b0 mod 16) = true
    end.
Proof.
  intros Hf Hw Hl H3. pose proof Hw as (Hr & Hb & El & Ebl & _).
  destruct (parse_spec m f b l Hf (region_app_l _ _ _ _ Hr) Hb El ltac:(lia)) as (f' & [Hu1 Hu2] & E).
  { intros E2 _. rewrite Zlen_app, Zlen_zeros in Ebl. rewrite <- E2. rewrite (load8_region m (b_start b) _ (Zlen l) Hr) by (rewrite Zlen_app, Zlen_zeros; lia).
    rewrite znth_app_r, znth_zeros by lia. done. }
  unfold next_frame. rewrite E. destruct (head_of l) as [| |size masked k] eqn:Eh; [by exists f'; eauto|by exists f'|].
  destruct (Z.ltb_spec (Zlen l) (frame_size size masked k)) as [Hlt|Hge]; [by exists f'|].
  destruct (known_opcode (l.[0] mod 16)) eqn:Eo; cbn [negb]; [|by exists f'; eauto].
  destruct (head_frame l size masked k Hb Eh Hge) as (key & payload & w & r & El2 & Hfo & En).
  destruct (frame_facts_of _ _ _ _ Hfo) as (size' & Hs & Hlw & Hd & _ & Hbw & Hk & Hh).
  assert (Hbr : bytes r) by (rewrite El2 in Hb; by apply bytes_app in Hb as [_ Hb]). pose proof (next_frame_app _ _ _ _ r Hfo Eo Hbr) as Enf.
  rewrite <- El2 in Enf.
  unfold next_frame in Enf. rewrite Eh, (proj2 (Z.ltb_ge _ _)), Eo in Enf by lia. cbn [negb] in Enf. injection Enf as Ek Ep Er. rewrite Ek, Ep, Er.
  specialize (Hh r Hbr). rewrite <- El2, Eh in Hh. injection Hh as -> -> Ekn. pose proof (Zlen_nonneg payload) as Hp0.
  assert (Hsw : size' <= Zlen w) by (rewrite Hlw; unfold frame_size, body_start; case_match; lia).
  assert (Hhdr : Zlen (ztake size' w) = size') by (rewrite Zlen_ztake; lia).
  assert (Ew : ztake size' w ++ key ++ payload = w) by (rewrite <- Hd; apply ztake_zdrop).
  eexists. split; [|split; [|exists (ztake size' w); rewrite Ew; split; [exact El2|split; [rewrite Hlw, En; reflexivity|split; [|done]]]]]; [done|done|].
  split; cbn [found f_buffer f_opcode f_state f_mask f_content_start f_content_length]; try done; [lia| |].
  - rewrite Hhdr. destruct (bool_decide_reflect (key = [])) as [Ek0|Ek0]; [by rewrite bool_decide_eq_false_2 by auto|by rewrite bool_decide_eq_true_2].
  - rewrite Hhdr, Ekn. destruct (bool_decide_reflect (payload = [])) as [Ep0|Ep0]; [by rewrite Ep0|].
    rewrite (proj2 (Z.eqb_neq _ 0)) by (intros E0; by apply Zlen_0_nil in E0). unfold body_start.
    destruct Hk as [Ek0|[E4 _]]; [rewrite Ek0, bool_decide_eq_false_2 by auto; change (Zlen (@nil Z)) with 0; lia|].
    rewrite bool_decide_eq_true_2 by (intros E0; by rewrite E0 in E4). lia.
Qed.

(** ** Unmasking, and the content *)

Lemma unmask_place base items m f b b0 hdr key p z : heap base ((b, hdr ++ key ++ p, z) :: items) m -> place f b b0 hdr key p ->
  exists m', ov_websocket_frame_unmask m f = Some (true, m') /\ heap base ((b, hdr ++ key ++ sent key p, z) :: items) m'.
Proof.
  intros Hm [Hb _ _ Hh Hk Hmask Hstart Hlen]. pose proof (heap_first _ _ _ _ Hm) as (Hr & Hbl & El & Ebl & Hcap). cbn [fst snd] in *. pose proof Hr as [Hp0 _].
  unfold ov_websocket_frame_unmask. destruct (bool_decide_reflect (p = [])) as [->|Hp].
  - destruct Hk as [->|[_ ?]]; [|done]. rewrite bool_decide_eq_true_2 in Hmask by done. rewrite Hstart, Hmask. exists m. by split.
  - pose proof (Zlen_nonneg key). pose proof (Zlen_nonneg p). assert (Hp1 : Zlen p <> 0) by (intros E; by apply Zlen_0_nil in E). rewrite Hstart.
    unfold NULL. rewrite (proj2 (Z.eqb_neq _ 0)) by lia.
    destruct Hk as [->|[Hk4 _]]; [rewrite bool_decide_eq_true_2 in Hmask by done; rewrite Hmask; exists m; by split|].
    rewrite bool_decide_eq_false_2 in Hmask by (intros ->; done). rewrite Hmask, (proj2 (Z.eqb_neq _ 0)), Hlen by lia. cbn [negb].
    apply bytes_app in Hbl as [Hbh Hbl]. apply bytes_app in Hbl as [Hbk Hbp]. rewrite <- !app_assoc in Hr. rewrite !Zlen_app in *. pose proof (Zlen_nonneg z).
    assert (Hrk : region m (b_start b + Zlen hdr) key) by (apply (region_app_r _ _ (b_start b + Zlen hdr)) in Hr; [by apply region_app_l in Hr|done]).
    assert (Hrp : region m (b_start b + Zlen hdr + Zlen key) p).
    { rewrite app_assoc in Hr. apply (region_app_r _ _ (b_start b + Zlen hdr + Zlen key)) in Hr; [by apply region_app_l in Hr|rewrite Zlen_app; lia]. }
    rewrite (mask_data_spec m _ p _ key) by (done || lia). eexists. split; [done|].
    assert (Es : sent key p = masked_from key 0 p) by (unfold sent; by rewrite bool_decide_eq_false_2 by (intros ->; done)).
    eapply heap_moved; [exact Hm| |].
    + apply moved_write; [done|done|lia|]. rewrite masked_length. lia.
    + split; [|split; [apply bytes_app; split; [done|]; apply bytes_app; split; [done|by apply sent_bytes]|rewrite !Zlen_app, !sent_length in *; lia]].
      rewrite <- !app_assoc, Es. rewrite app_assoc in Hr |- *. apply (region_write_mid m _ (hdr ++ key) p); [done|apply masked_length|]. rewrite Zlen_app. lia.
Qed.
Lemma content_place base items m f b b0 hdr key p z : heap base ((b, hdr ++ key ++ p, z) :: items) m -> place f b b0 hdr key p ->
  loadn m (f_content_start f) (Z.to_nat (f_content_length f)) = Some p.
Proof.
  intros Hm [Hb _ _ Hh Hk Hmask Hstart Hlen]. pose proof (heap_first _ _ _ _ Hm) as (Hr & _). cbn [fst snd] in *. rewrite Hlen, Hstart.
  destruct (bool_decide_reflect (p = [])) as [->|Hp]; [done|].
  apply loadn_region_n; [|done]. rewrite <- !app_assoc, app_assoc in Hr.
  apply (region_app_r _ _ (b_start b + Zlen hdr + Zlen key)) in Hr; [by apply region_app_l in Hr|rewrite Zlen_app; lia].
Qed.
Lemma place_sent f b b0 hdr key p : place f b b0 hdr key p -> place f b b0 hdr key (sent key p).
Proof.
  assert (E : bool_decide (sent key p = []) = bool_decide (p = [])).
  { apply bool_decide_ext. split; intros E; [|by subst; unfold sent; case_bool_decide]. apply (f_equal Zlen) in E. rewrite sent_length in E.
    by apply Zlen_0_nil in E. }
  intros [H1 H2 H3 H4 H5 H6 H7 H8]. split; try done.
  - destruct H5 as [?|[? ?]]; [by left|right]. split; [done|]. intros E0. rewrite bool_decide_eq_true_2 in E by done. symmetry in E.
    by apply bool_decide_eq_true in E.
  - by rewrite E.
  - by rewrite sent_length.
Qed.
