(* ===== verification/WebServerReceive.v ===== *)
(** * Input of a web socket connection (src/lib/ov_core/src/ov_webserver_base.c)

    The specification is a machine on the octets that were received and the
    contents of the frames: [receive] for a frame, [receive_all] for octets. The code
    of [WebServerBase.v], which works on frames in buffers of the heap, does the
    same: [process_wss_refines]. Each buffer has one owner, and what is not owned is
    released. *)
From S2P Require Import Prelude CMem Endian Buffer BufferSpec BufferHeap Websocket WebsocketSpec WebServerBase WebServerSend WebServerFrames.

(** The same connection with other frames. *)
Definition replace {F G} (c : Connection F) (data : option G) (queue : option (list G)) : Connection G :=
  let w := c_websocket c in
  {| c_link := c_link c; c_type := c_type c; c_data := data;
     c_websocket := {| w_config := w_config w; w_queue := queue; w_last := w_last w; w_counter := w_counter w; w_code := w_code w; w_phrase := w_phrase w;
                       w_close_sent := w_close_sent w; w_close_recv := w_close_recv w |} |}.
(** The frames of the specification: the octets that are not yet a frame, the
    contents that wait. *)
Definition channel : Type := Connection (list Z).

Section receive.
Context (env : environment) (config : ov_websocket_frame_config).

(** ** The specification *)

Definition drop (c : channel) : channel := if l_fd (c_link c) =? -1 then c else closed env c.
Definition transmit (c : channel) (octets : list Z) : option (bool * channel) :=
  '(ok, l) ← tls_send env (c_link c) octets; Some (if ok : bool then (true, with_link c l) else (false, drop (with_link c l))).
(** The answer to a ping: its first octet is lost when it is larger than a buffer
    is at first. *)
Definition pong (payload : list Z) : list Z :=
  let octets := field_of 0 (Zlen payload) ++ payload in (if default_size config <? 1 + Zlen octets then 0 else 0x8A) :: octets.
Definition receive_control (c : channel) (opcode : Z) (payload : list Z) : option (bool * channel) :=
  if opcode =? OV_WEBSOCKET_OPCODE_PONG then Some (true, c)
  else if opcode =? OV_WEBSOCKET_OPCODE_PING then
    if bool_decide (payload = []) then transmit c []
    else if Zlen payload =? 0xffff then Some (false, c) else transmit c (pong payload)
  else if opcode =? OV_WEBSOCKET_OPCODE_CLOSE then Some (false, with_websocket c (with_close (c_websocket c) (w_close_sent (c_websocket c)) true))
  else Some (false, c).
(** What is left behind the first empty content. *)
Fixpoint behind_empty (queue : list (list Z)) : option (list (list Z)) :=
  match queue with [] => None | [] :: queue => Some queue | _ :: queue => behind_empty queue end.
Definition complete (c : channel) (queue : list (list Z)) (text : bool) : bool * channel :=
  match behind_empty queue with
  | Some rest => (false, with_queue c (Some rest))
  | None => let '(ok, c) := call_callback env (with_queue c (Some [])) (concat queue) text in if ok : bool then (true, with_counter c 0) else (false, c)
  end.
Definition enqueue (c : channel) (payload : list Z) (last : ov_websocket_fragmentation_state) (text callback_queue : bool) : bool * channel :=
  match w_queue (c_websocket c) with
  | None => (false, protocol_error c)
  | Some queue =>
      let c := with_websocket c (with_fragments (c_websocket c) (Some (queue ++ [payload])) last (u64 (w_counter (c_websocket c) + 1))) in
      let w := c_websocket c in
      if negb (max_frames (w_config w) =? 0) && (max_frames (w_config w) <=? w_counter w) && negb callback_queue then
        (false, protocol_error (with_websocket c (with_reason w 1002 "max frames reached")))
      else if callback_queue then complete c (queue ++ [payload]) text else (true, c)
  end.
Definition receive_data (c : channel) (state : ov_websocket_fragmentation_state) (payload : list Z) (text : bool) : bool * channel :=
  let w := c_websocket c in
  match state with
  | OV_WEBSOCKET_FRAGMENTATION_NONE =>
      if started (w_last w) then (false, protocol_error c) else
      let '(ok, c) := call_callback env c payload text in
      if ok : bool then (true, with_websocket c (with_fragments (c_websocket c) (w_queue (c_websocket c)) OV_WEBSOCKET_FRAGMENTATION_NONE 0))
      else (false, protocol_error (with_websocket c (with_reason (c_websocket c) 1002 "content not accepted")))
  | OV_WEBSOCKET_FRAGMENTATION_START =>
      if started (w_last w) then (false, protocol_error c) else
      match w_queue w with
      | Some (_ :: queue) => (false, protocol_error (with_queue c (Some queue)))
      | _ => enqueue (with_queue c (Some [])) payload state text false
      end
  | OV_WEBSOCKET_FRAGMENTATION_CONTINUE => if started (w_last w) then enqueue c payload state text false else (false, protocol_error c)
  | OV_WEBSOCKET_FRAGMENTATION_LAST => if started (w_last w) then enqueue c payload state text true else (false, protocol_error c)
  end.
(** A frame with the first octet [b0], unmasked. *)
Definition receive (c : channel) (b0 : Z) (payload : list Z) : option (bool * channel) :=
  if 8 <=? b0 mod 16 then receive_control c (b0 mod 16) payload else Some (receive_data c (fragmentation_state b0) payload (b0 mod 16 =?
    OV_WEBSOCKET_OPCODE_TEXT)).
(** The octets of a connection, up to an error. *)
Fixpoint receive_all (fuel : nat) (c : channel) (l : list Z) : option (bool * channel) :=
  match fuel with
  | O => None
  | S fuel =>
      match l with
      | [] => Some (true, with_data c (Some []))
      | _ =>
          match next_frame l with
          | More => Some (true, with_data c (Some l))
          | Bad => Some (false, with_data (with_websocket c (with_reason (c_websocket c) 1002 "not a websocket frame")) (Some l))
          | Frame b0 key payload rest =>
              '(ok, c) ← receive (with_data c (Some rest)) b0 (sent key payload); if ok : bool then receive_all fuel c rest else Some (false, c)
          end
      end
  end.
Definition ready (c : channel) : Prop :=
  userdata (w_config (c_websocket c)) = true /\ has_callback (w_config (c_websocket c)) = true /\ has_fragmented (w_config (c_websocket c)) = false.

(** ** The frames of a connection and their buffers *)

(** A frame that waits, its buffer and its content. *)
Definition waits (f : ov_websocket_frame) (x : item) (payload : list Z) : Prop :=
  f_config f = config /\ exists b0 hdr key, place f x.1.1 b0 hdr key payload /\ x.1.2 = hdr ++ key ++ payload.
Definition waits_all (fs : option (list ov_websocket_frame)) (xs : list item) (ps : option (list (list Z))) : Prop :=
  match fs, ps with Some fs, Some ps => Forall3 waits fs xs ps | None, None => xs = [] | _, _ => False end.
Definition receives (f : option ov_websocket_frame) (xs : list item) (l : option (list Z)) : Prop :=
  match f, l with
  | Some f, Some l => exists b, f_buffer f = Some b /\ f_config f = config /\ 3 <= b_block b /\ xs = [pending b l]
  | None, None => xs = []
  | _, _ => False
  end.
(** The connection [c] and what it is in the specification, with its buffers. *)
Definition stands_for (c : connection) (items : list item) (s : channel) : Prop :=
  exists data queue xs ys, c = replace s data queue /\ items = xs ++ ys /\ receives data xs (c_data s) /\ waits_all queue ys (w_queue (c_websocket s)).

Context (Hcfg : config_ok config) (base : mem).

Lemma free_all fs xs ps items m : Forall3 waits fs xs ps -> heap base (xs ++ items) m -> exists m', free_frames m fs = Some m' /\ heap base items m'.
Proof using Hcfg.
  intros Hw. revert m. induction Hw as [|f x p fs xs ps [Hc (b0 & hdr & key & Hp & _)] _ IH]; intros m Hm; [by exists m|].
  destruct x as [[b l] z]. cbn [free_frames app] in *.
  destruct (heap_free_frame base b l z (xs ++ items) m f Hm (pl_buffer _ _ _ _ _ _ Hp) ltac:(by rewrite Hc)) as (m1 & -> & Hm1).
  cbn [mbind option_bind]. by apply IH.
Qed.
Lemma closed_replace (s : channel) data queue : closed env (replace s data queue : connection) = replace (closed env (s : channel)) None None.
Proof using Type.
  unfold closed. destruct s as [l t d w]. cbn [replace c_link]. destruct (nz _); [done|]. unfold send_close.
  cbn [replace c_link c_type c_websocket w_close_sent].
  destruct (_ && negb (w_close_sent w)); [|done]. cbn [w_code]. destruct (w_code w =? 0); done.
Qed.
Lemma close_spec pre c items s m : stands_for c items s -> heap base (pre ++ items) m -> exists c' items' m', close_connection env m c = Some (c', m') /\
  stands_for c' items' (drop s) /\ heap base (pre ++ items') m'.
Proof using Hcfg.
  intros Hs Hm. pose proof Hs as (data & queue & xs & ys & -> & -> & Hd & Hq). unfold close_connection, drop. cbn [replace c_link c_websocket w_queue c_data].
  destruct (l_fd (c_link s) =? -1); [by exists (replace s data queue), (xs ++ ys), m|].
  assert (E1 : exists m1, free_frames m (default [] queue) = Some m1 /\ heap base (xs ++ pre) m1).
  { apply (heap_perm base _ (ys ++ xs ++ pre)) in Hm; [|by rewrite (Permutation_app_comm xs ys), Permutation_app_comm, <- app_assoc].
    destruct queue as [fs|], (w_queue (c_websocket s)) as [ps|]; cbn [waits_all default from_option id] in *; try done; [by eapply free_all|].
    subst ys. by exists m. }
  destruct E1 as (m1 & -> & Hm1). cbn [mbind option_bind].
  assert (E2 : exists m2, ov_websocket_frame_free m1 data = Some m2 /\ heap base pre m2).
  { destruct data as [f|], (c_data s) as [l|]; cbn [receives] in *; try done; [|subst xs; by exists m1]. destruct Hd as (b & Hb & Hc & _ & ->).
    eapply heap_free_frame; [exact Hm1|done|by rewrite Hc]. }
  destruct E2 as (m2 & -> & Hm2). cbn [mbind option_bind]. fold (replace s data queue : connection). rewrite closed_replace. eexists _, [], m2.
  rewrite app_nil_r. split; [done|]. split; [|done].
  exists None, None, [], []. split; [done|]. split; [done|]. unfold closed. by split.
Qed.
Section send.
Context (max : Z) (Hlaws : ssl_laws env max) (Hmax : 0 < max < 2 ^ 31).
Lemma tls_send_total l o : exists ok l', tls_send env l o = Some (ok, l').
Proof using Hlaws Hmax.
  destruct (decide (o = [])) as [->|Ho]; [|destruct (tls_send_spec env max Hlaws Hmax l o Ho) as (ok & l' & E & _); eauto].
  unfold tls_send. destruct (negb _); [eauto|]. cbn [set_listening]. destruct (listening_set _ _); cbn [negb]; [|eauto].
  rewrite (ssl_buffer _ _ Hlaws), u64_id by lia.
  change (Zlen (@nil Z)) with 0. rewrite (proj2 (Z.ltb_ge _ 0)) by lia. cbn [Z.ltb Z.compare]. eauto.
Qed.
Lemma transmit_spec pre c items s m b o : stands_for c items s -> heap base (pre ++ items) m -> loadn m (b_start b) (Z.to_nat (b_length b)) = Some o ->
  exists ok c' items' s' m', tls_send_buffer env m c b = Some (ok, c', m') /\ transmit s o = Some (ok, s') /\ stands_for c' items' s' /\
    heap base (pre ++ items') m'.
Proof using Hcfg Hlaws Hmax.
  intros Hs Hm Ho. unfold tls_send_buffer, transmit. rewrite Ho. cbn [mbind option_bind]. pose proof Hs as (data & queue & xs & ys & Ec & Ei & Hd & Hq).
  assert (El : c_link c = c_link s) by (by rewrite Ec). rewrite El. destruct (tls_send_total (c_link s) o) as (ok & l & ->). cbn [mbind option_bind].
  assert (Hs' : stands_for (with_link c l) items (with_link s l)) by (exists data, queue, xs, ys; rewrite Ec; by split).
  destruct ok; [by eexists true, _, items, _, m|]. destruct (close_spec pre _ _ _ m Hs' Hm) as (c' & items' & m' & -> & Hs2 & Hm2).
  cbn [mbind option_bind]. by eexists false, c', items', _, m'.
Qed.

(** *** Control frames *)

Lemma done_spec ok c m f b l z items : heap base ((b, l, z) :: items) m -> f_buffer f = Some b -> f_config f = config ->
  exists m', control_done ok c m f None = Some (ok, c, m') /\ heap base items m'.
Proof using Hcfg.
  intros Hm Hb Hc. unfold control_done. destruct (heap_free_frame base b l z items m f Hm Hb ltac:(by rewrite Hc)) as (m' & -> & Hm'). by exists m'.
Qed.
Lemma done_both_spec ok c m f b l z g d k y items : heap base ((b, l, z) :: (d, k, y) :: items) m -> f_buffer f = Some b -> f_config f = config ->
  f_buffer g = Some d -> f_config g = config ->
  exists m', control_done ok c m f (Some g) = Some (ok, c, m') /\ heap base items m'.
Proof using Hcfg.
  intros Hm Hb Hc Hd Hg. unfold control_done. destruct (heap_free_frame base b l z _ m f Hm Hb ltac:(by rewrite Hc)) as (m1 & -> & Hm1).
  cbn [mbind option_bind].
  destruct (heap_free_frame base d k y items m1 g Hm1 Hd ltac:(by rewrite Hg)) as (m' & -> & Hm'). by exists m'.
Qed.
(** The answer with its first octet, which is behind the length. *)
Definition reply (nb : ov_buffer) : item := (nb, [], 0x8A :: zeros (default_size config)).
Lemma reply_load items m nb : heap base items m -> reply nb ∈ items -> load8 m (b_start nb) = Some 0x8A.
Proof using Type. intros Hm Hx. destruct (heap_holds base _ _ _ Hm Hx) as (Hr & _). cbn [reply fst snd app] in Hr. by apply load8_at_0 in Hr. Qed.
Lemma response_spec m items : heap base items m -> exists nb m1 m2, ov_websocket_frame_create m config = Some (empty_frame config (Some nb), m1) /\
  store8 m1 (b_start nb) 0x8A = Some m2 /\ heap base (reply nb :: items) m2 /\ b_capacity nb = default_size config /\ b_length nb = 0.
Proof using Hcfg.
  intros Hm. unfold config_ok in Hcfg. unfold ov_websocket_frame_create, frame_create, config_init. rewrite (proj2 (Z.eqb_neq _ 0)) by lia.
  destruct (buffer_create_spec m (default_size config) ltac:(lia)) as (nb & m1 & -> & Hnb & Ecap & M1). cbn [mbind option_bind].
  pose proof Hnb as (Hr & _ & El & Ebl & Hc & Hc0 & Hb63). cbn [app] in Hr, Ebl.
  pose proof (heap_add base nb [] _ _ _ _ Hm M1 Hnb) as Hm1. replace (default_size config + 1) with (1 + default_size config) in Hr, Ebl by lia.
  rewrite zeros_app in Hr, Ebl by lia. pose proof Hr as [Hp _].
  exists nb, m1, (write m1 (b_start nb) [0x8A]).
  pose proof (region_write_mid m1 (b_start nb) [] (zeros 1) [0x8A] (zeros (default_size config)) (b_start nb) Hr eq_refl) as Hr2.
  change (Zlen (@nil Z)) with 0 in *. specialize (Hr2 ltac:(lia)). split; [done|]. split; [|split; [|by split]].
  - rewrite (store8_mapped m1 (b_start nb) (b_block nb)); [done|by apply (holds_mapped _ _ _ (holds_with_holds _ _ _ _ Hnb))|lia].
  - eapply heap_moved; [exact Hm1| |].
    + apply moved_write; [done|done|lia|]. change (Zlen [0x8A]) with 1. lia.
    + split; [exact Hr2|]. split; [constructor|]. split; [done|]. split; [|by split]. cbn [app]. rewrite Zlen_cons, Zlen_app, !Zlen_zeros in *. lia.
Qed.
Lemma same_length m b l z n : holds_with m b l z -> 0 <= n <= Zlen l -> holds_with m (with_length b n) (ztake n l) (zdrop n l ++ z) /\
  moved m b m (with_length b n).
Proof using Type.
  intros (Hr & Hb & El & Ebl & Hc) Hn. split; [|by apply moved_same]. unfold holds_with. cbn [with_length b_start b_length b_capacity b_block].
  rewrite app_assoc, ztake_zdrop. split; [done|]. split; [by apply bytes_ztake|]. split; [rewrite Zlen_ztake; lia|]. split; [done|lia].
Qed.
Lemma ping_spec c items s m f b b0 hdr key p z : stands_for c items s -> heap base ((b, hdr ++ key ++ p, z) :: items) m -> place f b b0 hdr key p ->
  f_config f = config ->
  Zlen p < 2 ^ 59 -> b0 mod 16 = OV_WEBSOCKET_OPCODE_PING ->
  exists ok c' items' s' m', process_wss_control_frame env m c f = Some (ok, c', m') /\ receive_control s (b0 mod 16) (sent key p) = Some (ok, s') /\
    stands_for c' items' s' /\ heap base items' m'.
Proof using Hcfg Hlaws Hmax.
  intros Hs Hm Hpl Hc Hp Eop. pose proof Hpl as [Hb Hop _ Hh Hk _ Hstart Hlen]. pose proof (Zlen_nonneg p) as Hp0.
  unfold process_wss_control_frame, receive_control. rewrite Hop, Eop.
  change (OV_WEBSOCKET_OPCODE_PING =? OV_WEBSOCKET_OPCODE_PONG) with false. change (OV_WEBSOCKET_OPCODE_PING =? OV_WEBSOCKET_OPCODE_PING) with true.
  cbn iota. rewrite Hc.
  destruct (response_spec m _ Hm) as (nb & m1 & m2 & E1 & E2 & Hm2 & Ecap & Elen). rewrite E1. cbn [mbind option_bind empty_frame f_buffer].
  rewrite E2. cbn [mbind option_bind]. rewrite Hstart.
  destruct (bool_decide_reflect (p = [])) as [->|Hne].
  - destruct Hk as [->|[_ ?]]; [|done]. change (sent [] []) with (@nil Z). rewrite bool_decide_eq_true_2 by done.
    change (negb (NULL =? NULL)) with false. cbn iota. rewrite Hb. cbn [mbind option_bind negb empty_frame f_buffer].
    apply heap_swap in Hm2. pose proof (heap_first _ _ _ _ Hm2) as Hx.
    destruct (same_length m2 b (hdr ++ [] ++ []) z 2 Hx) as [Hx2 Mx]; [rewrite !Zlen_app; change (Zlen (@nil Z)) with 0; lia|].
    pose proof (heap_moved base _ _ _ _ _ _ _ _ _ Hm2 Mx Hx2) as Hm3.
    destruct (transmit_spec [_; _] c items s m2 nb [] Hs Hm3 ltac:(by rewrite Elen)) as (ok & c' & items' & s' & m' & -> & Et & Hs' & Hm').
    cbn [mbind option_bind]. destruct (done_both_spec ok c' m' (with_buffer f (Some (with_length b 2))) _ _ _ (empty_frame config (Some nb)) _ _ _
      items' Hm') as (m4 & -> & Hm4); [done|done|done|done|].
    by exists ok, c', items', s', m4.
  - assert (Hne2 : sent key p <> []) by (intros E0; apply (f_equal Zlen) in E0; rewrite sent_length in E0; by apply Zlen_0_nil in E0).
    rewrite bool_decide_eq_false_2 by done.
    pose proof (heap_first _ _ _ _ Hm) as ([Hbp _] & Hby & _). cbn [fst snd] in Hbp, Hby. pose proof (Zlen_nonneg key). unfold NULL at 1.
    rewrite (proj2 (Z.eqb_neq _ 0)) by lia. cbn [negb].
    apply heap_swap in Hm2. destruct (unmask_place base _ m2 f b b0 hdr key p z Hm2 Hpl) as (m3 & -> & Hm3). cbn [mbind option_bind negb].
    rewrite Hlen, <- (sent_length key p). set (k := sent key p) in *.
    apply heap_swap in Hm3. pose proof (reply_load _ _ nb Hm3 ltac:(set_solver)) as Hld.
    assert (Hkb : bytes k) by (apply bytes_app in Hby as [_ Hby]; apply bytes_app in Hby as [? ?]; by apply sent_bytes).
    assert (Hbes : 0 < Zlen k -> beside m3 nb (b_start b + Zlen hdr + Zlen key) k).
    { intros _. pose proof (heap_beside base _ _ m3 (b, hdr ++ key ++ k, z) (hdr ++ key) k z Hm3 ltac:(set_solver)) as Hbe. cbn [fst snd] in Hbe.
      rewrite Zlen_app, Z.add_assoc in Hbe. apply Hbe. by rewrite <- !app_assoc. }
    pose proof (heap_first _ _ _ _ Hm3) as Hnb. cbn [fst snd item_holds] in Hnb. assert (Hk59 : Zlen k < 2 ^ 60) by (unfold k; rewrite sent_length; lia).
    assert (Hcap : b_capacity nb < 2 ^ 62) by (unfold config_ok in Hcfg; lia).
    assert (Hoct : known_opcode (new_octet [] nb [] 0x8A k false mod 16) = true) by (unfold new_octet, kept; by destruct (_ && _)).
    destruct (Z.eqb_spec (Zlen k) 0xffff) as [E6|E6].
    + destruct (set_data_refused (junk env) None [] m3 (empty_frame config (Some nb)) nb [] 0x8A (b_start b + Zlen hdr + Zlen key) k false) as (g &
        nb' & l' & m4 & E4 & Hg & Hgc & [y Hh4] & M4);
        [done|by eexists|done|by unfold is_byte|done|done|done|done|done|done|done|].
      rewrite E4. cbn [mbind option_bind negb]. pose proof (heap_moved base nb [] _ _ m3 nb' l' y m4 Hm3 M4 Hh4) as Hm4. apply heap_swap in Hm4.
      destruct (done_both_spec false c m4 f _ _ _ g _ _ _ items Hm4) as (m5 & -> & Hm5); [done|done|done|done|]. by exists false, c, items, s, m5.
    + destruct (set_data_spec (junk env) None [] m3 (empty_frame config (Some nb)) nb [] 0x8A (b_start b + Zlen hdr + Zlen key) k false) as (_ & g &
        nb' & m4 & E4 & Hg & Hgc & [y Hh4] & M4 & _);
        [done|by eexists|done|by unfold is_byte|done|done|done|done|done|done|done|done|].
      rewrite E4. cbn [mbind option_bind negb]. rewrite Hg. cbn [mbind option_bind].
      pose proof (heap_moved base nb [] _ _ m3 nb' _ y m4 Hm3 M4 Hh4) as Hm4. apply heap_swap in Hm4.
      assert (Ep : new_octet [] nb [] 0x8A k false :: behind false [] k = pong k).
      { unfold new_octet, kept, pong, behind. rewrite Ecap. cbn [app]. rewrite bool_decide_eq_true_2 by done. done. }
      destruct (transmit_spec [_; _] c items s m4 nb' (pong k) Hs Hm4) as (ok & c' & items' & s' & m5 & E5 & Et & Hs' & Hm5).
      { pose proof (holds_with_holds _ _ _ _ Hh4) as Hh5. destruct (holds_facts _ _ _ Hh5) as (_ & El5 & _). rewrite Ep in El5, Hh5.
        apply loadn_region_n; [by apply holds_region|done]. }
      rewrite E5. cbn [mbind option_bind]. destruct (done_both_spec ok c' m5 f _ _ _ g _ _ _ items' Hm5) as (m6 & -> & Hm6); [done|done|done|done|].
      by exists ok, c', items', s', m6.
Qed.
Lemma control_spec c items s m f b b0 hdr key p z : stands_for c items s -> heap base ((b, hdr ++ key ++ p, z) :: items) m ->
  place f b b0 hdr key p -> f_config f = config -> Zlen p < 2 ^ 59 ->
  exists ok c' items' s' m', process_wss_control_frame env m c f = Some (ok, c', m') /\ receive_control s (b0 mod 16) (sent key p) = Some (ok, s') /\
    stands_for c' items' s' /\ heap base items' m'.
Proof using Hcfg Hlaws Hmax.
  intros Hs Hm Hpl Hc Hp. destruct (decide (b0 mod 16 = OV_WEBSOCKET_OPCODE_PING)) as [E|E]; [by eapply ping_spec|]. pose proof Hpl as [Hb Hop _ _ _ _ _ _].
  unfold process_wss_control_frame, receive_control. rewrite Hop, (proj2 (Z.eqb_neq _ OV_WEBSOCKET_OPCODE_PING)) by done.
  pose proof (fun ok c => done_spec ok c m f b _ z items Hm Hb Hc) as Hdone. destruct (_ =? OV_WEBSOCKET_OPCODE_PONG).
  { destruct (Hdone true c) as (m' & -> & Hm'). by exists true, c, items, s, m'. }
  destruct (_ =? OV_WEBSOCKET_OPCODE_CLOSE); [|destruct (Hdone false c) as (m' & -> & Hm'); by exists false, c, items, s, m'].
  edestruct (Hdone false) as (m' & -> & Hm'). eexists false, _, items, _, m'. split; [done|]. split; [done|]. split; [|done].
  destruct Hs as (data & queue & xs & ys & -> & -> & Hd & Hq). by exists data, queue, xs, ys.
Qed.
End send.

(** *** Messages *)

Lemma protocol_error_stands c items s : stands_for c items s -> stands_for (protocol_error c) items (protocol_error s).
Proof using Type.
  intros (data & queue & xs & ys & -> & -> & Hd & Hq). exists data, queue, xs, ys. unfold protocol_error. cbn [replace c_websocket w_code].
  destruct (w_code (c_websocket s) =? 0); by split.
Qed.
Lemma delivery_error_spec c items s m f b l z : stands_for c items s -> heap base ((b, l, z) :: items) m -> f_buffer f = Some b -> f_config f = config ->
  exists m', delivery_error m c (Some f) = Some (false, protocol_error c, m') /\ heap base items m' /\ stands_for (protocol_error c) items (protocol_error s).
Proof using Hcfg.
  intros Hs Hm Hb Hc. unfold delivery_error. destruct (heap_free_frame base b l z items m f Hm Hb ltac:(by rewrite Hc)) as (m' & -> & Hm'). exists m'.
  split; [done|]. split; [done|]. by apply protocol_error_stands.
Qed.
Lemma push_contents_spec fs xs ps nb l z items m : Forall3 waits fs xs ps -> heap base ((nb, l, z) :: xs ++ items) m -> Zlen l + Zlen (concat ps) < 2 ^ 62 ->
  exists ok nb' fs' xs' l' z' m', push_contents env m nb fs = Some (ok, nb', fs', m') /\ heap base ((nb', l', z') :: xs' ++ items) m' /\
    match behind_empty ps with None => ok = true /\ l' = l ++ concat ps /\ fs' = [] /\ xs' = [] | Some ps' => ok = false /\ Forall3 waits fs' xs' ps' end.
Proof using Hcfg.
  intros Hw. revert nb l z m. induction Hw as [|f x p fs xs ps [Hc (b0 & hdr & key & Hpl & El)] Hw IH]; intros nb l z m Hm Hsz.
  { exists true, nb, [], [], l, z, m. cbn. by rewrite app_nil_r. }
  pose proof Hpl as [Hb _ _ Hh _ _ Hstart Hlen]. destruct x as [[b k] y]. cbn [fst snd] in *. subst k.
  cbn [push_contents app behind_empty concat] in *. rewrite Zlen_app in Hsz. pose proof (Zlen_nonneg (concat ps)). pose proof (Zlen_nonneg p).
  destruct (decide (p = [])) as [->|Hne].
  - rewrite bool_decide_eq_true_2 in Hstart by done. unfold ov_buffer_push. rewrite Hstart. cbn [mbind option_bind orb Z.eqb NULL]. apply heap_swap in Hm.
    destruct (heap_free_frame base b _ y _ m f Hm Hb ltac:(by rewrite Hc)) as (m' & -> & Hm'). cbn [mbind option_bind].
    exists false, nb, fs, xs, l, z, m'. by split; [|split].
  - rewrite bool_decide_eq_false_2 in Hstart by done. rewrite Hstart, Hlen. pose proof (heap_first _ _ _ _ Hm) as Hnb. unfold item_holds in Hnb.
    cbn [fst snd] in Hnb.
    destruct (buffer_push_spec (junk env) m nb l (b_start b + Zlen hdr + Zlen key) p) as (nb' & m1 & -> & [z1 Hh1] & M1).
    { left. by eexists. }
    { pose proof (heap_beside base _ _ m (b, hdr ++ key ++ p, y) (hdr ++ key) p y Hm ltac:(set_solver)) as Hbe. cbn [fst snd] in Hbe.
      rewrite Zlen_app, Z.add_assoc in Hbe. apply Hbe. by rewrite <- !app_assoc. }
    { destruct (heap_holds base (b, hdr ++ key ++ p, y) _ _ Hm ltac:(set_solver)) as (_ & Hby & _). cbn [fst snd] in Hby.
      apply bytes_app in Hby as [_ Hby]. by apply bytes_app in Hby as [_ ?]. }
    { assert (Zlen p <> 0) by (intros E; by apply Zlen_0_nil in E). lia. } { lia. }
    cbn [mbind option_bind]. pose proof (heap_moved base nb l z _ m nb' _ z1 m1 Hm M1 Hh1) as Hm1. apply heap_swap in Hm1.
    destruct (heap_free_frame base b _ y _ m1 f Hm1 Hb ltac:(by rewrite Hc)) as (m2 & -> & Hm2). cbn [mbind option_bind].
    destruct (IH nb' (l ++ p) z1 m2 Hm2 ltac:(rewrite Zlen_app; lia)) as (ok & nb2 & fs' & xs' & l' & z' & m' & E & Hm' & Hr).
    exists ok, nb2, fs', xs', l', z', m'. split; [done|]. split; [done|].
    destruct p as [|a p]; [done|]. destruct (behind_empty ps); [done|]. by rewrite <- app_assoc in Hr.
Qed.
Definition waiting_size (s : channel) : Z := Zlen (concat (default [] (w_queue (c_websocket s)))).
Lemma complete_spec c items s m text ps : stands_for c items s -> heap base items m -> ready s -> w_queue (c_websocket s) = Some ps -> ps <> [] ->
  Zlen (concat ps) < 2 ^ 62 ->
  exists ok c' items' s' m', defragmented_callback env m c text = Some (ok, c', m') /\ complete s ps text = (ok, s') /\ stands_for c' items' s' /\
    heap base items' m'.
Proof using Hcfg.
  intros (data & queue & xs & ys & -> & -> & Hd & Hq) Hm (Hu & Hcb & _) Ews Hps Hsz. rewrite Ews in Hq. destruct queue as [fs|]; [|done]. cbn [waits_all] in Hq.
  unfold defragmented_callback. cbn [replace c_websocket w_queue w_config mbind option_bind]. rewrite Hu, Hcb. unfold OV_ASSERT. cbn [mbind option_bind].
  destruct (buffer_create_spec m IMPL_BUFFER_SIZE_WS_FRAME_DEFRAG ltac:(unfold IMPL_BUFFER_SIZE_WS_FRAME_DEFRAG; lia)) as (nb & m1 & ->
    & Hnb & _ & M1). cbn [mbind option_bind].
  rewrite bool_decide_eq_false_2 by (intros ->; inversion Hq; by subst). pose proof (heap_add base nb [] _ _ _ _ Hm M1 Hnb) as Hm1.
  apply (heap_perm base _ (((nb, [], zeros (IMPL_BUFFER_SIZE_WS_FRAME_DEFRAG + 1)) :: ys ++ xs))) in Hm1; [|by rewrite (Permutation_app_comm xs ys)].
  destruct (push_contents_spec fs ys ps nb [] _ xs m1 Hq Hm1 ltac:(change (Zlen (@nil Z)) with 0; lia)) as (ok & nb' & fs' & ys' & l' & z' & m2 & ->
    & Hm2 & Hr). cbn [mbind option_bind app] in *.
  pose proof (heap_first _ _ _ _ Hm2) as Hh2. unfold item_holds in Hh2. cbn [fst snd] in Hh2. apply holds_with_holds in Hh2.
  destruct (buffer_free_spec m2 nb' l' (or_introl Hh2)) as (m3 & E3 & Hm3). apply (heap_free base nb' l' z' _ m2 m3 Hm2) in Hm3.
  unfold complete. destruct (behind_empty ps) as [ps'|].
  - destruct Hr as [-> Hr]. cbn [negb]. rewrite E3. cbn [mbind option_bind]. eexists false, _, (xs ++ ys'), _, m3. split; [done|]. split; [done|].
    split; [|by rewrite Permutation_app_comm].
    by exists data, (Some fs'), xs, ys'.
  - destruct Hr as (-> & -> & -> & ->). cbn [negb]. destruct (holds_facts _ _ _ Hh2) as (_ & El & _).
    rewrite (loadn_region_n m2 _ (concat ps)) by (done || by apply holds_region). cbn [mbind option_bind].
    unfold call_callback. cbn [with_queue with_websocket replace c_link c_websocket]. rewrite E3. cbn [mbind option_bind app] in *.
    assert (Hs : forall s' : channel, c_data s' = c_data s -> w_queue (c_websocket s') = Some [] -> stands_for (replace s' data (Some [])) xs s').
    { intros s' E1 E2. exists data, (Some []), xs, []. rewrite app_nil_r, E1, E2. split; [done|]. split; [done|]. split; [done|constructor]. }
    destruct (callback env _ _ _); cbn [negb]; [eexists true, _, xs, _, m3|eexists false, _, xs, _, m3]; (split; [done|]; split; [done|]; split;
      [match goal with |- stands_for _ _ ?t => exact (Hs t eq_refl eq_refl) end|done]).
Qed.
Lemma enqueue_spec c items s m f b b0 hdr key p z text cb : stands_for c items s -> heap base ((b, hdr ++ key ++ p, z) :: items) m ->
  place f b b0 hdr key p -> f_config f = config -> ready s ->
  waiting_size s + Zlen p < 2 ^ 62 ->
  exists ok c' items' s' m', queue_frame env m c f text cb = Some (ok, c', m') /\ enqueue s p (fragmentation_state b0) text cb = (ok, s') /\
    stands_for c' items' s' /\ heap base items' m'.
Proof using Hcfg.
  intros Hs Hm Hpl Hc Hr Hsz. pose proof Hpl as [Hb _ Hst _ _ _ _ _]. unfold queue_frame, enqueue.
  pose proof Hs as (data & queue & xs & ys & Ec & Ei & Hd & Hq).
  assert (Eq : w_queue (c_websocket c) = queue) by (by rewrite Ec). rewrite Eq.
  destruct queue as [fs|], (w_queue (c_websocket s)) as [ps|] eqn:Ews; cbn [waits_all] in Hq; try done.
  2: { destruct (delivery_error_spec c items s m f b _ z Hs Hm Hb Hc) as (m' & -> & Hm' & Hs'). by eexists false, _, items, _, m'. }
  set (x := (b, hdr ++ key ++ p, z)) in *. set (s1 := with_websocket s _). set (c1 := with_websocket c _).
  assert (Hs1 : stands_for c1 (xs ++ ys ++ [x]) s1).
  { exists data, (Some (fs ++ [f])), xs, (ys ++ [x]). split; [by unfold c1, s1; rewrite Ec, Hst|]. split; [done|]. split; [done|].
    cbn [s1 with_websocket c_websocket with_fragments w_queue waits_all].
    apply Forall3_app; [done|]. constructor; [|constructor]. split; [done|]. by exists b0, hdr, key. }
  assert (Hm1 : heap base (xs ++ ys ++ [x]) m) by (rewrite app_assoc, <- Ei; by rewrite <- Permutation_cons_append).
  assert (Hr1 : ready s1) by done. assert (Ews1 : w_queue (c_websocket s1) = Some (ps ++ [p])) by done.
  assert (Ew : w_config (c_websocket c1) = w_config (c_websocket s1) /\ w_counter (c_websocket c1) = w_counter (c_websocket s1)) by (unfold c1, s1;
    by rewrite Ec). destruct Ew as [-> ->].
  destruct (_ && _ && _).
  - assert (Hs2 : stands_for (with_websocket c1 (with_reason (c_websocket c1) 1002 "max frames reached")) (xs ++ ys ++ [x]) (with_websocket s1
      (with_reason (c_websocket s1) 1002 "max frames reached"))).
    { destruct Hs1 as (d & q & xs1 & ys1 & -> & E1 & Hd1 & Hq1). by exists d, q, xs1, ys1. }
    apply protocol_error_stands in Hs2. unfold delivery_error. cbn [ov_websocket_frame_free mbind option_bind]. by eexists false, _, (xs ++ ys ++ [x]), _, m.
  - destruct cb; [|by eexists true, c1, (xs ++ ys ++ [x]), s1, m].
    apply (complete_spec c1 _ s1 m text (ps ++ [p]) Hs1 Hm1 Hr1 Ews1); [by destruct ps|]. unfold waiting_size in Hsz. rewrite Ews in Hsz.
    cbn [default from_option id] in Hsz. rewrite concat_app, Zlen_app. cbn [concat]. rewrite app_nil_r. lia.
Qed.
Lemma delivery_spec c items s m f b b0 hdr key p z text : stands_for c items s -> heap base ((b, hdr ++ key ++ p, z) :: items) m ->
  place f b b0 hdr key p -> f_config f = config -> ready s ->
  waiting_size s + Zlen p < 2 ^ 62 ->
  exists ok c' items' s' m', defragmented_wss_delivery env m c f text = Some (ok, c', m') /\
    receive_data s (fragmentation_state b0) p text = (ok, s') /\ stands_for c' items' s' /\ heap base items' m'.
Proof using Hcfg.
  intros Hs Hm Hpl Hc Hr Hsz. pose proof Hpl as [Hb _ Hst _ _ _ _ _]. unfold defragmented_wss_delivery, receive_data. rewrite Hst.
  assert (Hw : w_last (c_websocket c) = w_last (c_websocket s) /\ w_config (c_websocket c) = w_config (c_websocket s)) by (by destruct Hs as (? & ? &
    ? & ? & -> & _)). destruct Hw as [-> ->].
  pose proof (delivery_error_spec c items s m f b _ z Hs Hm Hb Hc) as (m0 & E0 & Hm0 & Hs0). pose proof Hr as (_ & -> & _).
  destruct (fragmentation_state b0) eqn:Efr; destruct (started (w_last (c_websocket s))); try (rewrite E0; by eexists false, _, items, _, m0).
  - unfold OV_ASSERT, content_of. cbn [mbind option_bind]. rewrite (content_place base items m f b b0 hdr key p z Hm Hpl). cbn [mbind option_bind].
    assert (Hcall : exists ok c1 s1, call_callback env c p text = (ok, c1) /\ call_callback env s p text = (ok, s1) /\ stands_for c1 items s1).
    { destruct Hs as (data & queue & xs & ys & -> & -> & Hd & Hq). unfold call_callback. cbn [replace c_link]. eexists _, _, _. split; [done|].
      split; [done|]. by exists data, queue, xs, ys. }
    destruct Hcall as (ok & c1 & s1 & -> & -> & Hs1). destruct ok; cbn [negb].
    + destruct (heap_free_frame base b _ z items m f Hm Hb ltac:(by rewrite Hc)) as (m1 & -> & Hm1). cbn [mbind option_bind].
      eexists true, _, items, _, m1. split; [done|]. split; [done|]. split; [|done].
      destruct Hs1 as (d & q & xs & ys & -> & -> & Hd & Hq). by exists d, q, xs, ys.
    + assert (Hs2 : stands_for (with_websocket c1 (with_reason (c_websocket c1) 1002 "content not accepted")) items (with_websocket s1 (with_reason
        (c_websocket s1) 1002 "content not accepted"))).
      { destruct Hs1 as (d & q & xs & ys & -> & -> & Hd & Hq). by exists d, q, xs, ys. }
      destruct (delivery_error_spec _ _ _ m f b _ z Hs2 Hm Hb Hc) as (m1 & -> & Hm1 & Hs3). by eexists false, _, items, _, m1.
  - pose proof Hs as (data & queue & xs & ys & Ec & Ei & Hd & Hq). assert (Eq : w_queue (c_websocket c) = queue) by (by rewrite Ec). rewrite Eq.
    assert (Hempty : ys = [] -> exists ok c' items' s' m', queue_frame env m (with_queue c (Some [])) f text false = Some (ok, c', m') /\
      enqueue (with_queue s (Some [])) p OV_WEBSOCKET_FRAGMENTATION_START text false = (ok, s') /\ stands_for c' items' s' /\ heap base items' m').
    { intros ->. rewrite <- Efr. eapply enqueue_spec; [|exact Hm|done|done|done|].
      - exists data, (Some []), xs, []. split; [by rewrite Ec|]. split; [done|]. split; [done|constructor].
      - unfold waiting_size in *. cbn [with_queue with_websocket c_websocket with_fragments w_queue default from_option id concat].
        change (Zlen (@nil Z)) with 0. pose proof (Zlen_nonneg (concat (default [] (w_queue (c_websocket s))))). lia. }
    destruct queue as [fs|], (w_queue (c_websocket s)) as [ps|] eqn:Ews; cbn [waits_all] in Hq; try done; [|by apply Hempty].
    inversion Hq as [|g y q fs' ys' ps' [Hgc (b1 & hdr1 & key1 & Hgp & _)] Hq' E1 E2 E3]; subst; [by apply Hempty|]. destruct y as [[d k] yz].
    rewrite <- (Permutation_middle xs ys' (d, k, yz)) in Hm. apply heap_swap in Hm.
    pose proof (heap_free_frame base d k yz _ m g Hm (pl_buffer _ _ _ _ _ _ Hgp) ltac:(by rewrite Hgc)) as (m1 & -> & Hm1). cbn [mbind option_bind].
    assert (Hs2 : stands_for (with_queue (replace s data (Some (g :: fs'))) (Some fs')) (xs ++ ys') (with_queue s (Some ps'))) by (by exists data,
      (Some fs'), xs, ys').
    destruct (delivery_error_spec _ _ _ m1 f b _ z Hs2 Hm1 Hb Hc) as (m2 & -> & Hm2 & Hs3). by eexists false, _, _, _, m2.
  - rewrite <- Efr. by eapply enqueue_spec.
  - rewrite <- Efr. by eapply enqueue_spec.
Qed.

(** *** All frames *)

(** What a frame that is taken leaves. *)
Definition goes_on (s s' : channel) (p : list Z) : Prop := w_config (c_websocket s') = w_config (c_websocket s) /\ c_data s' = c_data s /\
  waiting_size s' <= waiting_size s + Zlen p.
Lemma complete_goes_on s ps text s' : complete s ps text = (true, s') -> w_config (c_websocket s') = w_config (c_websocket s) /\
  c_data s' = c_data s /\ waiting_size s' = 0.
Proof using Type. unfold complete. destruct (behind_empty ps); [done|]. unfold call_callback. destruct (callback env _ _ _); [|done]. by intros [= <-]. Qed.
Lemma enqueue_goes_on s p last text cb s' : enqueue s p last text cb = (true, s') -> goes_on s s' p.
Proof using Type.
  unfold enqueue, goes_on. destruct (w_queue (c_websocket s)) as [ps|] eqn:E; [|done]. destruct (_ && _ && _); [done|]. destruct cb.
  - intros H. apply complete_goes_on in H as (H1 & H2 & H3). rewrite H1, H2, H3. split; [done|]. split; [done|]. unfold waiting_size.
    pose proof (Zlen_nonneg p). pose proof (Zlen_nonneg (concat (default [] (w_queue (c_websocket s))))). lia.
  - intros [= <-]. split; [done|]. split; [done|]. unfold waiting_size. rewrite E.
    cbn [with_websocket c_websocket with_fragments w_queue default from_option id]. rewrite concat_app, Zlen_app. cbn [concat]. rewrite app_nil_r. lia.
Qed.
Lemma receive_goes_on s b0 p s' : receive s b0 p = Some (true, s') -> goes_on s s' p.
Proof using Type.
  assert (H0 : goes_on s s p) by (split; [done|]; split; [done|]; pose proof (Zlen_nonneg p); lia). unfold receive. destruct (8 <=? b0 mod 16).
  - assert (Ht : forall o, transmit s o = Some (true, s') -> goes_on s s' p).
    { intros o. unfold transmit. destruct (tls_send env (c_link s) o) as [[ok l]|]; [|done]. cbn [mbind option_bind]. destruct ok; by intros [= <-]. }
    unfold receive_control. destruct (_ =? _); [by intros [= <-]|]. destruct (_ =? OV_WEBSOCKET_OPCODE_PING); [|by destruct (_ =? _)].
    destruct (bool_decide _); [apply Ht|]. destruct (_ =? 65535); [done|]. apply Ht.
  - intros [= H]. revert H. unfold receive_data. destruct (fragmentation_state b0); destruct (started _); try done.
    + unfold call_callback. destruct (callback env _ _ _); [|done]. by intros [= <-].
    + intros H. assert (Hg : goes_on (with_queue s (Some [])) s' p -> goes_on s s' p).
      { intros (H1 & H2 & H3). split; [done|]. split; [done|]. unfold waiting_size in *.
        cbn [with_queue with_websocket c_websocket with_fragments w_queue default from_option id concat] in H3.
        change (Zlen (@nil Z)) with 0 in H3. pose proof (Zlen_nonneg (concat (default [] (w_queue (c_websocket s))))). lia. }
      destruct (w_queue (c_websocket s)) as [[|out queue]|]; [|done|]; by apply Hg, enqueue_goes_on in H || eapply Hg, enqueue_goes_on.
    + apply enqueue_goes_on.
    + apply enqueue_goes_on.
Qed.
Section loop.
Context (max : Z) (Hlaws : ssl_laws env max) (Hmax : 0 < max < 2 ^ 31).
Lemma frame_spec c items s m f b b0 hdr key p z : stands_for c items s -> heap base ((b, hdr ++ key ++ p, z) :: items) m -> place f b b0 hdr key p ->
  f_config f = config -> ready s ->
  known_opcode (b0 mod 16) = true -> waiting_size s + Zlen p < 2 ^ 59 ->
  exists ok c' items' s' m', process_wss_frame env m c f = Some (ok, c', m') /\ receive s b0 (sent key p) = Some (ok, s') /\
    stands_for c' items' s' /\ heap base items' m'.
Proof using Hcfg Hlaws Hmax.
  intros Hs Hm Hpl Hc Hr Hop Hsz. pose proof Hpl as [_ Eop _ _ _ _ _ _]. assert (H0 : 0 <= waiting_size s) by apply Zlen_nonneg.
  unfold process_wss_frame, receive. rewrite Eop.
  destruct (Z.leb_spec 8 (b0 mod 16)) as [H8|H8]; [eapply control_spec; try done; lia|].
  assert (Hk : (b0 mod 16 =? OV_WEBSOCKET_OPCODE_CONTINUATION) || (b0 mod 16 =? OV_WEBSOCKET_OPCODE_TEXT) || (b0 mod 16 =? OV_WEBSOCKET_OPCODE_BINARY) = true).
  { unfold known_opcode in Hop. rewrite !orb_true_iff, !Z.eqb_eq in Hop. rewrite !orb_true_iff, !Z.eqb_eq.
    unfold OV_WEBSOCKET_OPCODE_CLOSE, OV_WEBSOCKET_OPCODE_PING, OV_WEBSOCKET_OPCODE_PONG in Hop. intuition lia. }
  rewrite Hk. cbn [negb]. assert (Ew : w_config (c_websocket c) = w_config (c_websocket s)) by (by destruct Hs as (? & ? & ? & ? & -> & _)). rewrite Ew.
  pose proof Hr as (-> & _ & ->). unfold OV_ASSERT. cbn [mbind option_bind].
  destruct (unmask_place base items m f b b0 hdr key p z Hm Hpl) as (m1 & -> & Hm1). cbn [mbind option_bind negb].
  destruct (delivery_spec c items s m1 f b b0 hdr key (sent key p) z (b0 mod 16 =? OV_WEBSOCKET_OPCODE_TEXT) Hs Hm1 (place_sent _ _ _ _ _ _ Hpl) Hc
    Hr) as (ok & c' & items' & s' & m' & E & Er & Hs' & Hm').
  { rewrite sent_length. lia. }
  rewrite E, Er. by exists ok, c', items', s', m'.
Qed.
Lemma loop_spec fuel : forall c items s m l, stands_for c items s -> heap base items m -> ready s -> c_data s = Some l ->
  waiting_size s + Zlen l < 2 ^ 59 -> (length l < fuel)%nat ->
  exists ok c' items' s' m', process_wss_loop env fuel m c = Some (ok, c', m') /\ receive_all fuel s l = Some (ok, s') /\ stands_for c' items' s' /\
    heap base items' m'.
Proof using Hcfg Hlaws Hmax.
  induction fuel as [|fuel IH]; intros c items s m l Hs Hm Hr El Hsz Hf; [lia|]. pose proof Hs as (data & queue & xs & ys & Ec & Ei & Hd & Hq).
  rewrite El in Hd. destruct data as [f|]; [|done].
  destruct Hd as (b & Hb & Hfc & H3 & Ex). cbn [process_wss_loop receive_all]. assert (Ecd : c_data c = Some f) by (by rewrite Ec). rewrite Ecd, Hb.
  cbn [mbind option_bind].
  rewrite Ei, Ex in Hm. pose proof (heap_first _ _ _ _ Hm) as Hw. unfold item_holds, pending in Hw. cbn [fst snd] in Hw.
  pose proof Hw as (_ & _ & Ebl & _). rewrite <- Ebl.
  assert (Hw0 : 0 <= waiting_size s) by apply Zlen_nonneg.
  destruct l as [|a l0]; [change (Zlen (@nil Z)) with 0; cbn [Z.eqb]; exists true, c, items, (with_data s (Some [])), m; rewrite Ei, Ex; split;
    [done|]; split; [done|]; split; [|done]|].
  { exists (Some f), queue, [pending b []], ys. rewrite Ec. split; [done|]. split; [done|]. split; [by exists b|done]. }
  set (l := a :: l0) in *. pose proof (Zlen_nonneg l0) as Hl0. assert (Hl1 : 1 <= Zlen l) by (unfold l; rewrite Zlen_cons; lia).
  rewrite (proj2 (Z.eqb_neq (Zlen l) 0)) by lia.
  destruct (parse_next m f b l _ Hb Hw ltac:(lia) H3) as (f' & Hb' & Hfc' & Hp). rewrite Hfc in Hfc'. destruct (next_frame l) as [| |b0 key p rest].
  - destruct Hp as (nx & ->). cbn [mbind option_bind]. eexists false, _, _, _, m. split; [done|]. split; [done|]. split; [|exact Hm].
    exists (Some f'), queue, [pending b l], ys. split; [by rewrite Ec|]. split; [done|]. split; [by exists b|done].
  - rewrite Hp. cbn [mbind option_bind]. eexists true, _, _, _, m. split; [done|]. split; [done|]. split; [|exact Hm].
    exists (Some f'), queue, [pending b l], ys. split; [by rewrite Ec|]. split; [done|]. split; [by exists b|done].
  - destruct Hp as (hdr & Elw & -> & Hpl & Hop). cbn [mbind option_bind]. set (w := hdr ++ key ++ p) in *. unfold pending in Hm. rewrite Elw in Hm.
    cbn [app] in Hm.
    assert (Hlen : Zlen l = Zlen hdr + Zlen key + Zlen p + Zlen rest) by (rewrite Elw; unfold w; rewrite !Zlen_app; lia).
    pose proof (pl_header _ _ _ _ _ _ Hpl) as Hh. pose proof (Zlen_nonneg key). pose proof (Zlen_nonneg p). pose proof (Zlen_nonneg rest).
    destruct (shift_trailing_spec base ys m f' b w rest _ Hm Hb' ltac:(by rewrite Hfc') ltac:(lia)) as (b' & z' & nf & nb & m1 & ->
      & Hm1 & Eb' & Hnf & Hnfc & Hnb3). cbn [mbind option_bind negb].
    apply heap_swap in Hm1. assert (Hpl' : place (with_buffer f' (Some b')) b' b0 hdr key p) by (destruct Hpl; split;
      cbn [with_buffer f_buffer f_opcode f_state f_mask f_content_start f_content_length]; rewrite ?Eb'; done).
    assert (Hs1 : stands_for (with_data (with_data (with_data c (Some f')) None) (Some nf)) (pending nb rest :: ys) (with_data s (Some rest))).
    { exists (Some nf), queue, [pending nb rest], ys. split; [by rewrite Ec|]. split; [done|]. split; [exists nb; rewrite Hnfc, Hfc'; done|done]. }
    destruct (frame_spec _ _ _ m1 _ b' b0 hdr key p z' Hs1 Hm1 Hpl' Hfc' Hr Hop) as (ok & c' & items' & s' & m' & -> & Er & Hs' & Hm').
    { change (waiting_size (with_data s (Some rest))) with (waiting_size s). lia. }
    rewrite Er. cbn [mbind option_bind]. destruct ok; [|by exists false, c', items', s', m']. apply receive_goes_on in Er as (Er1 & Er2 & Er3).
    rewrite sent_length in Er3. change (waiting_size (with_data s (Some rest))) with (waiting_size s) in Er3.
    apply (IH c' items' s' m' rest); try done; [unfold ready; rewrite Er1; exact Hr|lia|]. unfold Zlen in *. unfold l in Hlen, Hf. cbn [length] in *. lia.
Qed.
End loop.
End receive.

(** Without frames there are no buffers. *)
Lemma no_items config c items s : stands_for config c items s -> c_data s = None -> w_queue (c_websocket s) = None -> items = [].
Proof. intros (data & queue & xs & ys & -> & -> & Hd & Hq) E1 E2. rewrite E1 in Hd. rewrite E2 in Hq. destruct data, queue; try done. cbn in *. by subst. Qed.

(** On the octets in the buffer of a connection, the code of the web server does
    what the specification does on the octets themselves: frame by frame, it
    answers, delivers or stores, until the octets are used up, too few for a frame,
    or an error shows. It always returns, all frames have buffers of their own, and
    when the connection is closed all of them are released: the memory is what it
    was without the connection. *)
Lemma process_wss_refines env config base max c items s m l : config_ok config -> ssl_laws env max -> 0 < max < 2 ^ 31 ->
  stands_for config c items s -> heap base items m -> ready s -> c_data s = Some l -> waiting_size s + Zlen l < 2 ^ 59 ->
  exists ok c' items' s' m', process_wss env m c = Some (ok, c', m') /\ receive_all env config (S (S (length l))) s l = Some (ok, s') /\
    stands_for config c' items' s' /\ heap base items' m' /\
    (l_fd (c_link s') <> -1 -> exists c'', close_connection env m' c' = Some (c'', base) /\ stands_for config c'' [] (closed env s')).
Proof.
  intros Hcfg Hl Hmax Hs Hm Hr El Hsz. pose proof Hs as (data & queue & xs & ys & Ec & Ei & Hd & Hq). rewrite El in Hd.
  destruct data as [f|]; [|done]. destruct Hd as (b & Hb & _ & _ & Ex).
  pose proof Hm as Hm0. rewrite Ei, Ex in Hm0. destruct (heap_first _ _ _ _ Hm0) as (_ & _ & Ebl & _). cbn [pending fst snd] in Ebl.
  destruct (loop_spec env config Hcfg base max Hl Hmax (S (S (length l))) c items s m l Hs Hm Hr El Hsz ltac:(lia)) as (ok & c' & items' & s' & m' & E
    & Er & Hs' & Hm').
  exists ok, c', items', s', m'. split; [|split; [done|split; [done|split; [done|]]]].
  - unfold process_wss. assert (Ecd : c_data c = Some f) by (by rewrite Ec). rewrite Ecd, Hb. cbn [mbind option_bind]. rewrite <- Ebl. unfold Zlen.
    by rewrite Nat2Z.id.
  - intros Hfd. destruct (close_spec env config Hcfg base [] c' items' s' m' Hs' Hm') as (c'' & items'' & m'' & Ecl & Hs'' & Hm'').
    unfold drop in Hs''. rewrite (proj2 (Z.eqb_neq _ _)) in Hs'' by done.
    assert (items'' = []) as -> by (by eapply no_items). cbn [app heap] in Hm''. subst m''. by exists c''.
Qed.

(** ** Octets from the socket *)

(** What was left, and the octets that arrived. *)
Definition receive_octets (env : environment) (config : ov_websocket_frame_config) (s : channel) (octets : list Z) : option (bool * channel) :=
  let l := default [] (c_data s) ++ octets in
  '(ok, s) ← receive_all env config (S (S (length l))) (with_link s (with_flags (c_link s) FLAG_SEND_SSL_SHUTDOWN)) l;
  Some (if ok : bool then (true, with_link s (with_flags (c_link s) 0)) else (false, drop env s)).
Section input.
Context (env : environment) (config : ov_websocket_frame_config) (Hcfg : config_ok config) (base : mem).
(** Room for [n] octets behind those that are there. *)
Lemma input_room b l items m n : heap base (pending b l :: items) m -> 0 < n < 2 ^ 31 -> Zlen l < 2 ^ 60 -> 3 <= b_block b ->
  exists b' m', (if b_capacity b - b_length b <? n then ov_buffer_extend (junk env) m b (u64 (n - (b_capacity b - b_length b) + 1)) else Some (true,
    b, m)) = Some (true, b', m') /\
    heap base (pending b' l :: items) m' /\ b_length b' = Zlen l /\ Zlen l + n <= b_capacity b' /\ 3 <= b_block b'.
Proof using Type.
  intros Hm Hn Hl H3. pose proof (heap_first _ _ _ _ Hm) as Hw. unfold item_holds, pending in Hw. cbn [fst snd] in Hw.
  pose proof (holds_with_holds _ _ _ _ Hw) as Hh. destruct (holds_facts _ _ _ Hh) as (_ & El & _ & Hc & Hc0 & Hb). pose proof (Zlen_nonneg l).
  destruct (Z.ltb_spec (b_capacity b - b_length b) n); [|exists b, m; split; [done|]; split; [done|]; split; [done|]; lia]. rewrite u64_id by lia.
  destruct (extend_spec (junk env) m b l (n - (b_capacity b - b_length b) + 1) Hh ltac:(lia) ltac:(lia)) as (b' & m' & E & Ec & Hw' & M).
  exists b', m'. split; [done|].
  pose proof Hw' as (_ & _ & El' & Ebl & _). rewrite Zlen_app, Zlen_zeros in Ebl. assert (Ebl' : b_block b' = b_capacity b') by lia.
  split; [|split; [done|lia]].
  eapply heap_moved; [exact Hm|exact M|]. by rewrite Ebl'.
Qed.
Lemma input_store b l items m octets : heap base (pending b l :: items) m -> bytes octets -> Zlen l + Zlen octets <= b_capacity b ->
  exists m', storen m (b_start b + Zlen l) octets = Some m' /\ heap base (pending (with_length b (Zlen l + Zlen octets)) (l ++ octets) :: items) m'.
Proof using Type.
  intros Hm Hb Hc. pose proof (heap_first _ _ _ _ Hm) as Hw. unfold item_holds, pending in Hw. cbn [fst snd] in Hw.
  pose proof (holds_mapped _ _ _ (holds_with_holds _ _ _ _ Hw)) as Hmap. pose proof Hw as (Hr & Hbl & El & Ebl & Hcap & Hc0 & Hb63).
  pose proof (Zlen_nonneg l). pose proof (Zlen_nonneg octets). rewrite (storen_bytes m (b_start b) (b_block b)) by (done || lia). eexists.
  split; [done|]. eapply heap_moved; [exact Hm| |].
  - apply moved_write; [done|done|lia|lia].
  - unfold holds_with. cbn [with_length b_start b_length b_capacity b_block]. rewrite !Zlen_app, Zlen_zeros. split; [|split; [by apply bytes_app|lia]].
    replace (b_block b - Zlen l) with (Zlen octets + (b_block b - (Zlen l + Zlen octets))) in Hr by lia. rewrite zeros_app in Hr by lia. rewrite <- app_assoc.
    apply (region_write_mid m _ l (zeros (Zlen octets))); [done|rewrite Zlen_zeros; lia|done].
Qed.
(** The frame the octets go to. *)
Lemma input_frame c items s m : stands_for config c items s -> heap base items m -> exists f b l m' ys queue,
  (match c_data c with Some frame => Some (frame, m) | None => ov_websocket_frame_create m config end) = Some (f, m') /\ f_buffer f = Some b /\
    f_config f = config /\ 3 <= b_block b /\
  l = default [] (c_data s) /\ heap base (pending b l :: ys) m' /\ c_link c = c_link s /\ waits_all config queue ys (w_queue (c_websocket s)) /\
    forall d, with_data c d = replace s d queue.
Proof using Hcfg.
  intros Hs Hm. destruct Hs as (data & queue & xs & ys & -> & -> & Hd & Hq). cbn [replace c_data]. destruct data as [f|], (c_data s) as [l|] eqn:El; try done.
  - destruct Hd as (b & Hb & Hfc & H3 & ->). exists f, b, l, m, ys, queue. repeat (split; [done|]). done.
  - cbn [receives] in Hd. subst xs. unfold config_ok in Hcfg. unfold ov_websocket_frame_create, frame_create, config_init.
    rewrite (proj2 (Z.eqb_neq _ 0)) by lia.
    destruct (buffer_create_spec m (default_size config) ltac:(lia)) as (nb & m1 & -> & Hnb & Ecap & M1). cbn [mbind option_bind].
    pose proof Hnb as (_ & _ & _ & Ebl & _). cbn [app] in Ebl. rewrite Zlen_zeros in Ebl.
    exists (empty_frame config (Some nb)), nb, [], m1, ys, queue. split; [done|]. split; [done|]. split; [done|]. split; [lia|]. split; [done|].
    split; [|done]. unfold pending. change (Zlen (@nil Z)) with 0.
    replace (b_block nb - 0) with (default_size config + 1) by lia. by eapply heap_add.
Qed.
End input.

Lemma io_tls_spec env config base max c items s m peeked octets : config_ok config -> ssl_laws env max -> 0 < max < 2 ^ 31 ->
  stands_for config c items s -> heap base items m -> ready s -> bytes octets -> octets <> [] -> Zlen octets <= peeked < 2 ^ 31 ->
  waiting_size s + Zlen (default [] (c_data s)) + Zlen octets < 2 ^ 59 ->
  exists ok c' items' s' m', io_tls_in env config m c peeked octets = Some (ok, c', m') /\ receive_octets env config s octets = Some (ok, s') /\
    stands_for config c' items' s' /\ heap base items' m'.
Proof.
  intros Hcfg Hl Hmax Hs Hm Hr Hb Hne Hp Hsz. set (s0 := with_link s (with_flags (c_link s) FLAG_SEND_SSL_SHUTDOWN)).
  assert (Hn0 : 0 < Zlen octets) by (pose proof (Zlen_nonneg octets); assert (Zlen octets <> 0) by (intros E; by apply Zlen_0_nil in E); lia).
  assert (Hs0 : stands_for config (with_link c (with_flags (c_link c) FLAG_SEND_SSL_SHUTDOWN)) items s0) by (destruct Hs as (d & q & xs & ys & ->
    & ? & ? & ?); by exists d, q, xs, ys).
  unfold io_tls_in. destruct (input_frame config Hcfg base _ _ _ _ Hs0 Hm) as (f & b & l & m1 & ys & queue & ->
    & Hfb & Hfc & H3 & El & Hm1 & _ & Hq & Hw). cbn [mbind option_bind]. rewrite Hfb. cbn [mbind option_bind].
  assert (El0 : l = default [] (c_data s)) by done. clear El. subst l. set (l := default [] (c_data s)) in *.
  assert (Hw0 : 0 <= waiting_size s) by apply Zlen_nonneg. pose proof (heap_first _ _ _ _ Hm1) as ([Hp0 _] & _).
  cbn [pending fst snd] in Hp0. unfold NULL. rewrite (proj2 (Z.eqb_neq _ 0)) by lia. pose proof (heap_first _ _ _ _ Hm1) as (_ & _ & Ebl & _).
  cbn [pending fst snd] in Ebl.
  destruct (input_room env base b l ys m1 peeked Hm1 ltac:(lia) ltac:(lia) H3) as (b1 & m2 & -> & Hm2 & El1 & Hc1 & H31).
  cbn [mbind option_bind negb]. rewrite (proj2 (Z.ltb_ge _ (Zlen octets))) by lia.
  rewrite <- Ebl. destruct (input_store base b1 l ys m2 octets Hm2 Hb ltac:(lia)) as (m3 & -> & Hm3). cbn [mbind option_bind].
  rewrite (proj2 (Z.eqb_neq _ 0)) by lia. rewrite Hw.
  set (c3 := replace s0 _ queue). assert (Hs3 : stands_for config c3 (pending (with_length b1 (Zlen l + Zlen octets)) (l ++ octets) :: ys) (with_data
    s0 (Some (l ++ octets)))).
  { eexists _, queue, [_], ys. split; [done|]. split; [done|]. split; [|done]. eexists. by split; [|split; [|split]]. }
  assert (Hd3 : forall n, receive_all env config n (with_data s0 (Some (l ++ octets))) (l ++ octets) = receive_all env config n s0 (l ++ octets)) by
    (intros n; by destruct n, (l ++ octets)).
  destruct (loop_spec env config Hcfg base max Hl Hmax (S (S (length (l ++ octets)))) c3 _ _ m3 (l ++ octets) Hs3 Hm3 Hr eq_refl) as (ok & c' & items'
    & s' & m' & E & Er & Hs' & Hm').
  { change (waiting_size (with_data s0 (Some (l ++ octets)))) with (waiting_size s). rewrite Zlen_app. lia. } { lia. }
  assert (Ew : process_wss env m3 c3 = Some (ok, c', m')).
  { rewrite <- E. unfold process_wss. cbn [c3 replace c_data with_buffer f_buffer mbind option_bind b_length with_length]. do 3 f_equal. unfold Zlen.
    rewrite length_app. lia. }
  rewrite Ew. cbn [mbind option_bind]. unfold receive_octets. fold l s0. rewrite <- Hd3, Er. cbn [mbind option_bind]. destruct ok; cbn [negb].
  - eexists true, _, items', _, m'. split; [done|]. split; [done|]. split; [|done]. destruct Hs' as (d & q & xs & zs & -> & ? & ? & ?). by exists d, q, xs, zs.
  - destruct (close_spec env config Hcfg base [] c' items' s' m' Hs' Hm') as (c'' & items'' & m'' & -> & Hs'' & Hm''). cbn [mbind option_bind].
    by exists false, c'', items'', (drop env s'), m''.
Qed.
(** C5: what a connection does with the octets that arrive at the socket is what the
    specification does with them and those that were left before: the buffer grows
    as it is needed, and after an error the connection is closed, and the memory is
    what it was without it. *)
Theorem io_tls_refines env config base max c items s m peeked octets : config_ok config -> ssl_laws env max -> 0 < max < 2 ^ 31 ->
  stands_for config c items s -> heap base items m -> ready s -> bytes octets -> octets <> [] -> Zlen octets <= peeked < 2 ^ 31 ->
  waiting_size s + Zlen (default [] (c_data s)) + Zlen octets < 2 ^ 59 ->
  exists ok c' items' s' m', io_tls_in env config m c peeked octets = Some (ok, c', m') /\ receive_octets env config s octets = Some (ok, s') /\
    stands_for config c' items' s' /\ heap base items' m'.
Proof. apply io_tls_spec. Qed.
