(* ===== verification/WebServerStream.v ===== *)
(** * Octets that arrive in portions, and messages

    [receive_incremental]: it does not matter how the octets of a connection
    arrive. [delivery]: what the frames of messages are for an idle connection.
    [WebServerPortions.v] says so of the code. *)
From S2P Require Import Prelude CMem Buffer BufferSpec BufferHeap.
From S2P Require Import Websocket WebsocketSpec WebServerBase WebServerSend WebServerFrames WebServerReceive.

(** ** More octets *)

Lemma head_size l size masked n : head_of l = H_length size masked n -> 2 <= size /\ 2 <= Zlen l.
Proof. unfold head_of. destruct (Z.ltb_spec (Zlen l) 2); [done|]. repeat case_match; intros [= <- _ _]; lia. Qed.
Lemma next_frame_shorter l b0 key p r : next_frame l = Frame b0 key p r -> (length r + 2 <= length l)%nat.
Proof.
  unfold next_frame. destruct (head_of l) as [| |size masked n] eqn:E; try done. destruct (head_size _ _ _ _ E) as [Hs Hl].
  destruct (_ <? _); [done|]. destruct (negb _); [done|]. intros [= _ _ _ <-].
  unfold zdrop, Zlen in *. rewrite !length_drop. unfold body_start. destruct masked; lia.
Qed.
Lemma head_prefix l ext size masked n : head_of l = H_length size masked n -> head_of (l ++ ext) = H_length size masked n.
Proof.
  unfold head_of. pose proof (Zlen_nonneg ext). rewrite Zlen_app. destruct (Z.ltb_spec (Zlen l) 2); [done|].
  rewrite (proj2 (Z.ltb_ge (_ + _) 2)), !(znth_app_l l ext 1) by lia.
  destruct (_ <? 126); [done|]. destruct (_ =? 126).
  - destruct (Z.ltb_spec (Zlen l) 4); [done|]. by rewrite (proj2 (Z.ltb_ge (_ + _) 4)), !znth_app_l by lia.
  - destruct (Z.leb_spec 128 l.[2]); [done|]. destruct (Z.ltb_spec (Zlen l) 10); [done|]. rewrite (proj2 (Z.ltb_ge (_ + _) 10)), !znth_app_l by lia.
    by rewrite (proj2 (Z.leb_gt 128 l.[2])) by lia.
Qed.
Lemma next_frame_prefix l ext b0 key p r : bytes l -> bytes ext -> next_frame l = Frame b0 key p r ->
  next_frame (l ++ ext) = Frame b0 key p (r ++ ext) /\ bytes r.
Proof.
  intros Hb He E. pose proof E as E0. unfold next_frame in E0. destruct (head_of l) as [| |size masked n] eqn:Eh; try done.
  destruct (Z.ltb_spec (Zlen l) (frame_size size masked n)) as [|Hge]; [done|].
  destruct (known_opcode (l.[0] mod 16)) eqn:Eo; [|done]. destruct (head_frame l size masked n Hb Eh Hge) as (key' & p' & w & r' & El & Hf & _).
  assert (Hr : bytes r') by (rewrite El in Hb; by apply bytes_app in Hb as [_ ?]).
  pose proof (next_frame_app _ _ _ _ r' Hf Eo Hr) as E1. rewrite <- El, E in E1. injection E1 as -> -> -> ->. split; [|done]. rewrite El at 1.
  rewrite <- app_assoc. apply next_frame_app; [done|done|by apply bytes_app].
Qed.
Lemma next_frame_bad l ext : bytes l -> bytes ext -> next_frame l = Bad -> next_frame (l ++ ext) = Bad.
Proof.
  intros Hb He. unfold next_frame. destruct (head_of l) as [| |size masked n] eqn:Eh; try done; [by rewrite head_error|].
  rewrite (head_prefix _ _ _ _ _ Eh), Zlen_app. pose proof (Zlen_nonneg ext). destruct (head_size _ _ _ _ Eh).
  destruct (Z.ltb_spec (Zlen l) (frame_size size masked n)); [done|]. rewrite (proj2 (Z.ltb_ge _ _)), znth_app_l by lia. by destruct (known_opcode _).
Qed.
Section incremental.
Context (env : environment) (config : ov_websocket_frame_config).
Notation receive := (receive env config).
Notation receive_all := (receive_all env config).
(** The octets that are not yet read do not matter for a frame. *)
Lemma receive_other (s : channel) d d2 b0 p ok s' : receive (with_data s d) b0 p = Some (ok, s') ->
  exists s2, receive (with_data s d2) b0 p = Some (ok, s2) /\ c_link s2 = c_link s' /\ (ok = true -> s2 = with_data s' d2).
Proof using Type.
  assert (Ht : forall o, transmit env (with_data s d) o = Some (ok, s') -> exists s2, transmit env (with_data s d2) o = Some (ok, s2) /\
    c_link s2 = c_link s' /\ (ok = true -> s2 = with_data s' d2)).
  { intros o. unfold transmit. cbn [with_data c_link]. destruct (tls_send env (c_link s) o) as [[b l]|]; [|done]. cbn [mbind option_bind].
    destruct b; intros [= <- <-]; eexists; (split; [done|]); [done|].
    unfold drop. cbn [with_link c_link]. destruct (l_fd l =? -1); [done|]. unfold closed. cbn [with_link with_data c_link]. destruct (nz _); [done|].
    unfold send_close. cbn [with_link with_data c_link c_type c_websocket].
    by destruct (_ && _ && _). }
  unfold WebServerReceive.receive. destruct (8 <=? b0 mod 16).
  - unfold receive_control. destruct (_ =? OV_WEBSOCKET_OPCODE_PONG); [intros [= <- <-]; by eexists|]. destruct (_ =? OV_WEBSOCKET_OPCODE_PING).
    + destruct (bool_decide _); [apply Ht|]. destruct (_ =? 65535); [intros [= <- <-]; by eexists|apply Ht].
    + destruct (_ =? OV_WEBSOCKET_OPCODE_CLOSE); intros [= <- <-]; by eexists.
  - assert (Hp : forall t t2 : channel, c_link t2 = c_link t -> c_link (protocol_error t2) = c_link (protocol_error t)) by (intros t t2 E;
      unfold protocol_error; destruct (w_code _ =? 0), (w_code _ =? 0); done).
    assert (He : forall (t : channel) last text cb, c_data t = d -> forall b t', enqueue env t p last text cb = (b, t') ->
      exists t2, enqueue env (with_data t d2) p last text cb = (b, t2) /\ c_link t2 = c_link t' /\ (b = true -> t2 = with_data t' d2)).
    { intros t last text cb Et b t'. unfold enqueue. cbn [with_data c_websocket].
      destruct (w_queue (c_websocket t)); [|intros [= <- <-]; eexists; split; [done|]; by split; [apply Hp|]].
      destruct (_ && _ && _); [intros [= <- <-]; eexists; split; [done|]; by split; [apply Hp|]|]. destruct cb; [|intros [= <- <-]; by eexists].
      unfold complete. destruct (behind_empty _); [intros [= <- <-]; by eexists|]. unfold call_callback.
      cbn [with_queue with_websocket with_data c_link]. destruct (callback env _ _ _); intros [= <- <-]; by eexists. }
    unfold receive_data. intros [= E]. revert E. cbn [with_data c_websocket].
    destruct (fragmentation_state b0); destruct (started _); try (intros [= <- <-]; eexists; split; [done|]; by split; [apply Hp|]).
    + unfold call_callback. cbn [with_data c_link]. destruct (callback env _ _ _); intros [= <- <-]; eexists; (split; [done|]); [done|]. by split; [apply Hp|].
    + destruct (w_queue (c_websocket s)) as [[|out queue]|]; intros E.
      * destruct (He (with_queue (with_data s d) (Some [])) _ _ _ eq_refl _ _ E) as (t2 & E2 & H). exists t2. split; [|done]. by rewrite <- E2.
      * injection E as <- <-. eexists. split; [done|]. by split; [apply Hp|].
      * destruct (He (with_queue (with_data s d) (Some [])) _ _ _ eq_refl _ _ E) as (t2 & E2 & H). exists t2. split; [|done]. by rewrite <- E2.
    + intros E. destruct (He (with_data s d) _ _ _ eq_refl _ _ E) as (t2 & E2 & H). exists t2. split; [|done]. by rewrite <- E2.
    + intros E. destruct (He (with_data s d) _ _ _ eq_refl _ _ E) as (t2 & E2 & H). exists t2. split; [|done]. by rewrite <- E2.
Qed.
Lemma receive_all_data n (s : channel) d l : receive_all n (with_data s d) l = receive_all n s l.
Proof using Type. by destruct n, l. Qed.
Lemma receive_all_fuel n : forall n2 s l, (length l < n)%nat -> (length l < n2)%nat -> receive_all n s l = receive_all n2 s l.
Proof using Type.
  induction n as [|n IH]; intros n2 s l H1 H2; [lia|]. destruct n2 as [|n2]; [lia|]. cbn [WebServerReceive.receive_all].
  destruct l as [|a l0]; [done|]. destruct (next_frame (a :: l0)) as [| |b0 key p r] eqn:E; [done|done|].
  apply next_frame_shorter in E. destruct (receive _ _ _) as [[ok s1]|]; [|done]. cbn [mbind option_bind]. destruct ok; [|done]. apply IH; lia.
Qed.
Lemma receive_more n1 n2 : forall s l1 l2 ok s1, bytes l1 -> bytes l2 -> receive_all n1 s l1 = Some (ok, s1) -> (length (l1 ++ l2) < n2)%nat ->
  if ok : bool then exists r, c_data s1 = Some r /\ bytes r /\ forall n3, (length (r ++ l2) < n3)%nat ->
    receive_all n2 s (l1 ++ l2) = receive_all n3 s1 (r ++ l2)
  else exists s2, receive_all n2 s (l1 ++ l2) = Some (false, s2) /\ c_link s2 = c_link s1.
Proof using Type.
  revert n2. induction n1 as [|n1 IH]; intros n2 s l1 l2 ok s1 Hb1 Hb2 E Hn2; [done|]. cbn [WebServerReceive.receive_all] in E. destruct l1 as [|a l0].
  { injection E as <- <-. exists []. split; [done|]. split; [constructor|]. intros n3 Hn3. cbn [app]. rewrite receive_all_data. by apply receive_all_fuel. }
  set (l1 := a :: l0) in *. destruct n2 as [|n2]; [lia|]. assert (Hne : exists x y, l1 ++ l2 = x :: y) by (by eexists _, _). destruct Hne as (x & y & Exy).
  destruct (next_frame l1) as [| |b0 key p r] eqn:En.
  - injection E as <- <-. cbn [WebServerReceive.receive_all]. rewrite Exy, <- Exy, (next_frame_bad l1 l2 Hb1 Hb2 En). by eexists.
  - injection E as <- <-. exists l1. split; [done|]. split; [done|]. intros n3 Hn3. rewrite receive_all_data. by apply receive_all_fuel.
  - destruct (next_frame_prefix l1 l2 _ _ _ _ Hb1 Hb2 En) as [En2 Hbr]. cbn [WebServerReceive.receive_all]. rewrite Exy, <- Exy, En2.
    destruct (receive (with_data s (Some r)) b0 (sent key p)) as [[okf sf]|] eqn:Er; [|done]. cbn [mbind option_bind] in E.
    destruct (receive_other s _ (Some (r ++ l2)) _ _ _ _ Er) as (s2 & -> & El & Ed). cbn [mbind option_bind].
    destruct okf; [|injection E as <- <-; by exists s2].
    rewrite (Ed eq_refl), receive_all_data. apply next_frame_shorter in En. apply (IH n2 sf r l2 ok s1 Hbr Hb2 E). rewrite length_app in *. lia.
Qed.
End incremental.

(** The portions the octets of a connection arrive in do not matter. What is done
    for octets [l1] and then, with what was left of them, for octets [l2], is what is
    done for both at once; an error in [l1] stays one, and nothing more is done. *)
Lemma receive_incremental env config (s : channel) l1 l2 ok s1 : bytes l1 -> bytes l2 -> receive_all env config (S (S (length l1))) s l1 = Some (ok, s1) ->
  let all := receive_all env config (S (S (length (l1 ++ l2)))) s (l1 ++ l2) in
  if ok : bool then exists r, c_data s1 = Some r /\ all = receive_all env config (S (S (length (r ++ l2)))) s1 (r ++ l2)
  else exists s2, all = Some (false, s2) /\ c_link s2 = c_link s1.
Proof.
  intros Hb1 Hb2 E all. pose proof (receive_more env config _ (S (S (length (l1 ++ l2)))) _ _ _ _ _ Hb1 Hb2 E ltac:(lia)) as H. destruct ok; [|exact H].
  destruct H as (r & Er & _ & H). exists r. split; [done|]. apply H. lia.
Qed.

(** ** Messages *)

(** A message is sent in one frame or in several ones. *)
Record message := { m_text : bool; m_parts : list (list Z) }.
Definition opcode_of (text : bool) : Z := if text then OV_WEBSOCKET_OPCODE_TEXT else OV_WEBSOCKET_OPCODE_BINARY.
Fixpoint tail_frames (parts : list (list Z)) : list (Z * list Z) :=
  match parts with [] => [] | [p] => [(0x80, p)] | p :: parts => (0x00, p) :: tail_frames parts end.
Definition frames_of (m : message) : list (Z * list Z) :=
  match m_parts m with
  | [] => []
  | [p] => [(0x80 + opcode_of (m_text m), p)]
  | p :: parts => (opcode_of (m_text m), p) :: tail_frames parts
  end.
(** Not more frames than are allowed; a fragment has octets. *)
Definition message_ok (max_frames : Z) (m : message) : Prop :=
  match m_parts m with
  | [] => False
  | [_] => True
  | parts => Forall (fun p => p <> []) parts /\ (max_frames = 0 \/ Zlen parts <= max_frames) /\ Zlen parts < 2 ^ 64
  end.
(** What the application gets: a message in fragments is never called a text. *)
Definition delivered (m : message) : event := Delivered (concat (m_parts m)) (m_text m && bool_decide (length (m_parts m) = 1%nat)) true.
Definition no_pong (f : Z * list Z) : Prop := f.1 mod 16 <> OV_WEBSOCKET_OPCODE_PONG.
#[export] Instance no_pong_dec f : Decision (no_pong f).
Proof. unfold no_pong. apply _. Defined.
(** The octets of a frame, under any key. *)
Definition on_wire (f : Z * list Z) (w : list Z) : Prop := exists key, frame_octets f.1 key (sent key f.2) w.
Definition idle (s : channel) : Prop := started (w_last (c_websocket s)) = false /\ w_counter (c_websocket s) = 0 /\ default [] (w_queue (c_websocket s)) = [].

Section messages.
Context (env : environment) (config : ov_websocket_frame_config) (Hcb : forall h c t, callback env h c t = true).
Notation receive := (receive env config).
Notation receive_all := (receive_all env config).
Definition limit (s : channel) : Z := max_frames (w_config (c_websocket s)).
(** In the middle of a message: the parts that wait. *)
Definition collecting (s : channel) (parts : list (list Z)) : Prop :=
  started (w_last (c_websocket s)) = true /\ w_queue (c_websocket s) = Some parts /\ Forall (fun p => p <> []) parts /\ w_counter (c_websocket s) = Zlen parts.
Definition trace_of (s : channel) : list event := l_trace (c_link s).
Lemma pong_step s b0 p : b0 mod 16 = OV_WEBSOCKET_OPCODE_PONG -> receive s b0 p = Some (true, s).
Proof using Type. intros E. unfold WebServerReceive.receive, receive_control. by rewrite E. Qed.
Lemma single_step s text p : idle s -> exists s', receive s (0x80 + opcode_of text) p = Some (true, s') /\ idle s' /\ limit s' = limit s /\
  trace_of s' = Delivered p text true :: trace_of s.
Proof using Hcb.
  intros (H1 & H2 & H3). unfold WebServerReceive.receive.
  assert (E : ((0x80 + opcode_of text) mod 16 = opcode_of text) /\ fragmentation_state (0x80 + opcode_of text) = OV_WEBSOCKET_FRAGMENTATION_NONE /\
    8 <=? opcode_of text = false /\ (opcode_of text =? OV_WEBSOCKET_OPCODE_TEXT) = text) by (by destruct text).
  destruct E as (-> & -> & -> & ->). unfold receive_data. rewrite H1. unfold call_callback. rewrite Hcb. by eexists.
Qed.
Lemma behind_empty_none ps : Forall (fun p => p <> []) ps -> behind_empty ps = None.
Proof using Type. induction 1 as [|p ps Hp _ IH]; [done|]. destruct p; done. Qed.
Lemma start_step s text p n : idle s -> p <> [] -> limit s = 0 \/ n <= limit s -> 1 < n ->
  exists s', receive s (opcode_of text) p = Some (true, s') /\ collecting s' [p] /\ limit s' = limit s /\ trace_of s' = trace_of s.
Proof using Type.
  intros (H1 & H2 & H3) Hp Hl Hn. unfold WebServerReceive.receive.
  assert (E : (opcode_of text mod 16 = opcode_of text) /\ fragmentation_state (opcode_of text) = OV_WEBSOCKET_FRAGMENTATION_START /\
    8 <=? opcode_of text = false) by (by destruct text).
  destruct E as (-> & -> & ->). unfold receive_data. rewrite H1.
  assert (Eq : match w_queue (c_websocket s) with Some (_ :: queue) => (false, protocol_error (with_queue s (Some queue))) | _ => enqueue env
    (with_queue s (Some [])) p OV_WEBSOCKET_FRAGMENTATION_START (opcode_of text =? OV_WEBSOCKET_OPCODE_TEXT) false end
    = enqueue env (with_queue s (Some [])) p OV_WEBSOCKET_FRAGMENTATION_START (opcode_of text =? OV_WEBSOCKET_OPCODE_TEXT) false) by (by destruct
      (w_queue (c_websocket s)) as [[|]|]).
  rewrite Eq. unfold enqueue. cbn [with_queue with_websocket c_websocket with_fragments w_queue w_config w_counter app]. rewrite H2.
  change (u64 (0 + 1)) with 1. unfold limit in Hl.
  assert (Ec : negb (max_frames (w_config (c_websocket s)) =? 0) && (max_frames (w_config (c_websocket s)) <=? 1) && negb false = false).
  { destruct (Z.eqb_spec (max_frames (w_config (c_websocket s))) 0); [done|]. by rewrite (proj2 (Z.leb_gt _ 1)) by lia. }
  rewrite Ec. eexists. split; [done|]. split; [|done]. split; [done|]. split; [done|]. split; [by repeat constructor|done].
Qed.
Lemma continue_step s ps p n : collecting s ps -> p <> [] -> limit s = 0 \/ n <= limit s -> Zlen ps + 1 < n -> n < 2 ^ 64 ->
  exists s', receive s 0x00 p = Some (true, s') /\ collecting s' (ps ++ [p]) /\ limit s' = limit s /\ trace_of s' = trace_of s.
Proof using Type.
  intros (H1 & H2 & H3 & H4) Hp Hl Hn Hn64. pose proof (Zlen_nonneg ps). unfold WebServerReceive.receive.
  change (fragmentation_state 0) with OV_WEBSOCKET_FRAGMENTATION_CONTINUE. change (8 <=? 0 mod 16) with false. cbn iota. unfold receive_data. rewrite H1.
  unfold enqueue. rewrite H2. cbn [with_websocket c_websocket with_fragments w_config w_counter]. rewrite H4, u64_id by lia. unfold limit in Hl.
  assert (Ec : negb (max_frames (w_config (c_websocket s)) =? 0) && (max_frames (w_config (c_websocket s)) <=? Zlen ps + 1) && negb false = false).
  { destruct (Z.eqb_spec (max_frames (w_config (c_websocket s))) 0); [done|]. by rewrite (proj2 (Z.leb_gt _ _)) by lia. }
  rewrite Ec. eexists. split; [done|]. split; [|done]. split; [done|]. split; [done|].
  split; [apply Forall_app; split; [done|by repeat constructor]|]. cbn. by rewrite Zlen_app.
Qed.
Lemma last_step s ps p : collecting s ps -> p <> [] -> exists s', receive s 0x80 p = Some (true, s') /\ idle s' /\ limit s' = limit s /\
  trace_of s' = Delivered (concat (ps ++ [p])) false true :: trace_of s.
Proof using Hcb.
  intros (H1 & H2 & H3 & H4) Hp. unfold WebServerReceive.receive. change (fragmentation_state 0x80) with OV_WEBSOCKET_FRAGMENTATION_LAST.
  change (8 <=? 0x80 mod 16) with false. cbn iota. unfold receive_data. rewrite H1.
  unfold enqueue. rewrite H2. rewrite andb_false_r. unfold complete.
  rewrite behind_empty_none by (apply Forall_app; split; [done|by repeat constructor]). unfold call_callback. rewrite Hcb. by eexists.
Qed.
(** The frames that are still to come, and what will be delivered. *)
Inductive awaits (s : channel) : list (Z * list Z) -> list event -> Prop :=
  | awaits_idle ms : idle s -> Forall (message_ok (limit s)) ms -> awaits s (ms ≫= frames_of) (delivered <$> ms)
  | awaits_parts ps parts ms : collecting s ps -> parts <> [] -> Forall (fun p => p <> []) parts -> limit s = 0 \/ Zlen ps + Zlen parts <= limit s ->
    Zlen ps + Zlen parts < 2 ^ 64 ->
      Forall (message_ok (limit s)) ms -> awaits s (tail_frames parts ++ (ms ≫= frames_of)) (Delivered (concat (ps ++ parts)) false true :: (delivered <$> ms)).
Lemma known_frames m f : f ∈ frames_of m -> known_opcode (f.1 mod 16) = true /\ no_pong f.
Proof using Type.
  assert (Ht : forall parts f, f ∈ tail_frames parts -> known_opcode (f.1 mod 16) = true /\ no_pong f).
  { clear f. induction parts as [|p parts IH]; intros f; [by intros ?%elem_of_nil|]. cbn [tail_frames].
    destruct parts; [intros ->%list_elem_of_singleton; by split|]. intros [->|H]%elem_of_cons; [by split|by apply IH]. }
  unfold frames_of. destruct (m_parts m) as [|p [|q parts]]; [by intros ?%elem_of_nil|intros ->%list_elem_of_singleton; by destruct (m_text m)|].
  intros [->|H]%elem_of_cons; [by destruct (m_text m)|by apply (Ht _ _ H)].
Qed.
(** One frame of a message. *)
Lemma awaits_step s f rem evs : awaits s (f :: rem) evs -> exists s' evs', receive s f.1 f.2 = Some (true, s') /\ awaits s' rem evs' /\
  rev evs ++ trace_of s = rev evs' ++ trace_of s'.
Proof using Hcb.
  intros H. inversion H as [ms Hi Hms Ef Ee|ps parts ms Hc Hne Hp Hl H64 Hms Ef Ee]; subst; clear H.
  - destruct ms as [|m ms]; [done|]. apply Forall_cons in Hms as [Hm Hms]. cbn [mbind list_bind] in Ef. unfold message_ok in Hm.
    unfold frames_of in Ef at 1. destruct (m_parts m) as [|p [|q parts]] eqn:Em; [done| |].
    + injection Ef as <- <-. destruct (single_step s (m_text m) p Hi) as (s' & E & Hi' & Hl' & Ht). exists s', (delivered <$> ms). split; [done|].
      split; [constructor; [done|by rewrite Hl']|].
      rewrite Ht. cbn [fmap list_fmap rev]. rewrite <- app_assoc. do 2 f_equal. cbn [app]. f_equal. unfold delivered. rewrite Em. cbn.
      by rewrite app_nil_r, andb_true_r.
    + injection Ef as <- <-. destruct Hm as (Hp & Hl & H64). apply Forall_cons in Hp as [Hp0 Hp]. rewrite Zlen_cons in Hl, H64.
      assert (1 < 1 + Zlen (q :: parts)) by (rewrite Zlen_cons; pose proof (Zlen_nonneg parts); lia).
      destruct (start_step s (m_text m) p (1 + Zlen (q :: parts)) Hi Hp0 Hl ltac:(lia)) as (s' & E & Hc & Hl' & Ht).
      exists s', (Delivered (concat ([p] ++ q :: parts)) false true :: (delivered <$> ms)). split; [done|].
      split; [apply (awaits_parts s' [p] (q :: parts)); try done; rewrite ?Hl'; change (Zlen [p]) with 1; done|]. rewrite Ht. cbn [fmap list_fmap].
      unfold delivered at 1. rewrite Em. by rewrite andb_false_r.
  - destruct parts as [|p parts]; [done|]. apply Forall_cons in Hp as [Hp0 Hp]. rewrite Zlen_cons in Hl, H64. cbn [tail_frames] in Ef.
    destruct parts as [|q parts].
    + injection Ef as <- <-. destruct (last_step s ps p Hc Hp0) as (s' & E & Hi' & Hl' & Ht). exists s', (delivered <$> ms). split; [done|].
      split; [constructor; [done|by rewrite Hl']|]. rewrite Ht. cbn [rev]. by rewrite <- app_assoc.
    + injection Ef as <- <-. assert (0 < Zlen (q :: parts)) by (rewrite Zlen_cons; pose proof (Zlen_nonneg parts); lia).
      destruct (continue_step s ps p (Zlen ps + (1 + Zlen (q :: parts))) Hc Hp0) as (s' & E & Hc' & Hl' & Ht); [lia|lia|lia|].
      exists s', (Delivered (concat ((ps ++ [p]) ++ q :: parts)) false true :: (delivered <$> ms)). split; [done|].
      split; [apply (awaits_parts s' (ps ++ [p]) (q :: parts)); try done; rewrite ?Hl', ?Zlen_app; change (Zlen [p]) with 1; try done; lia|].
      rewrite Ht, <- app_assoc. done.
Qed.
Lemma awaits_data s d rem evs : awaits s rem evs -> awaits (with_data s d) rem evs.
Proof using Type. intros H. inversion H; subst; by constructor. Qed.
Lemma awaits_known s rem evs f : awaits s rem evs -> f ∈ rem -> known_opcode (f.1 mod 16) = true.
Proof using Type.
  assert (Hb : forall ms, f ∈ (ms ≫= frames_of) -> known_opcode (f.1 mod 16) = true) by (intros ms H; apply list_elem_of_bind in H as (m & H & _);
    by apply known_frames in H as [? _]).
  assert (Ht : forall parts, f ∈ tail_frames parts -> known_opcode (f.1 mod 16) = true).
  { induction parts as [|p parts IH]; [by intros ?%elem_of_nil|]. cbn [tail_frames]. destruct parts; [by intros ->%list_elem_of_singleton|].
    intros [->|H]%elem_of_cons; [done|by apply IH]. }
  intros H Hf. inversion H; subst; [by eapply Hb|]. apply elem_of_app in Hf as [Hf|Hf]; eauto.
Qed.
Lemma awaits_all fs ws : forall s rem evs n, awaits s rem evs -> filter no_pong fs = rem -> Forall2 on_wire fs ws -> (length (concat ws) < n)%nat ->
  exists s', receive_all n s (concat ws) = Some (true, s') /\ rev evs ++ trace_of s = trace_of s' /\ (idle s' \/ rem <> filter no_pong fs) /\
    c_data s' = Some [].
Proof using Hcb.
  revert ws. induction fs as [|f fs IH]; intros ws s rem evs n Ha Er Hw Hn.
  - inversion Hw; subst. destruct n as [|n]; [cbn in Hn; lia|]. exists (with_data s (Some [])). split; [done|].
    inversion Ha as [ms Hi Hms Ef Ee|ps parts ms Hc Hne Hp Hl H64 Hms Ef Ee].
    + destruct ms as [|m ms]; [by split; [|split; [left|]]|]. exfalso. apply Forall_cons in Hms as [Hm _]. unfold message_ok in Hm.
      cbn [mbind list_bind] in Ef. unfold frames_of in Ef at 1. by destruct (m_parts m) as [|p [|q parts]].
    + exfalso. destruct parts as [|p [|q parts]]; done.
  - inversion Hw as [|? w ? ws' [key Hf] Hw' E1 E2]; subst. cbn [concat] in *. destruct n as [|n]; [lia|]. assert (Hbw : bytes (concat ws')).
    { clear - Hw'. induction Hw' as [|g v gs vs [k Hg] _ IH]; [constructor|]. cbn [concat]. apply bytes_app. split; [by eapply bytes_frame|done]. }
    assert (Hstep : forall s1, receive (with_data s (Some (concat ws'))) f.1 f.2 = Some (true, s1) -> known_opcode (f.1 mod 16) = true ->
      receive_all (S n) s (w ++ concat ws') = receive_all n s1 (concat ws') /\ (length (concat ws') < n)%nat).
    { intros s1 E Hop. pose proof (next_frame_app _ _ _ _ _ Hf Hop Hbw) as En. pose proof (next_frame_shorter _ _ _ _ _ En) as Hsh.
      cbn [WebServerReceive.receive_all]. destruct (w ++ concat ws') as [|x y] eqn:Exy; [cbn in Hsh; lia|].
      rewrite <- Exy in *. rewrite En, sent_twice, E. split; [done|]. lia. }
    rewrite filter_cons in Ha |- *. destruct (decide (no_pong f)) as [Hp|Hp].
    + apply (awaits_data s (Some (concat ws'))) in Ha. destruct (awaits_step _ _ _ _ Ha) as (s1 & evs1 & E & Ha1 & Et).
      destruct (Hstep s1 E ltac:(eapply awaits_known; [exact Ha|set_solver])) as [-> Hn1].
      destruct (IH ws' s1 _ evs1 n Ha1 eq_refl Hw' Hn1) as (s' & -> & Et' & [Hi|?] & Hd); [|done]. exists s'. split; [done|].
      split; [by rewrite <- Et', <- Et|]. split; [by left|done].
    + assert (Ep : f.1 mod 16 = OV_WEBSOCKET_OPCODE_PONG) by (unfold no_pong in Hp; lia).
      destruct (Hstep _ (pong_step _ _ _ Ep) ltac:(by rewrite Ep)) as [-> Hn1].
      apply (awaits_data s (Some (concat ws'))) in Ha. destruct (IH ws' _ _ evs n Ha eq_refl Hw' Hn1) as (s' & -> & Et' & [Hi|?] & Hd); [|done].
      exists s'. split; [done|]. split; [done|]. split; [by left|done].
Qed.
Lemma delivery (s : channel) ms fs ws : idle s -> Forall (message_ok (limit s)) ms -> filter no_pong fs = ms ≫= frames_of -> Forall2 on_wire fs ws ->
  exists s', receive_all (S (S (length (concat ws)))) s (concat ws) = Some (true, s') /\
    l_trace (c_link s') = rev (delivered <$> ms) ++ l_trace (c_link s) /\ idle s' /\ c_data s' = Some [].
Proof using Hcb.
  intros Hi Hms Hfs Hws. destruct (awaits_all fs ws s _ _ (S (S (length (concat ws)))) (awaits_idle s ms Hi Hms) Hfs Hws ltac:(lia)) as (s' & E & Et &
    [Hi'|?] & Hd); [|congruence].
  exists s'. by split.
Qed.
End messages.

(** ** Concrete connections *)

(** An upgraded connection, with callbacks, that has received [l]. *)
Definition upgraded (l : list Z) : channel :=
  {| c_link := {| l_fd := 7; l_flags := 0; l_ssl := true; l_handshaked := true; l_buffer := None; l_queue := []; l_bytes := 0; l_trace := [] |};
     c_type := CONNECTION_TYPE_WEBSOCKET; c_data := Some l;
     c_websocket := {| w_config := {| userdata := true; has_callback := true; has_fragmented := false; max_frames := 0 |}; w_queue := None;
                       w_last := OV_WEBSOCKET_FRAGMENTATION_NONE; w_counter := 0; w_code := 0; w_phrase := []; w_close_sent := false;
                         w_close_recv := false |} |}.
Definition some_config : ov_websocket_frame_config := {| default_size := 16; max_bytes_recache := 0 |}.
Definition some_buffer (l : list Z) : ov_buffer := {| b_start := 16; b_length := Zlen l; b_capacity := 16; b_block := 17 |}.
Definition some_memory (l : list Z) : mem := write ∅ 16 (l ++ zeros (17 - Zlen l)).
Lemma some_heap l : bytes l -> Zlen l <= 16 -> heap ∅ [pending (some_buffer l) l] (some_memory l).
Proof.
  intros Hb Hl. pose proof (Zlen_nonneg l). exists ∅. split; [done|]. split.
  - intros q. cbn [pending fst]. unfold outside, some_buffer, empty_buffer, some_memory. cbn. rewrite (decide_False (P := 0 <= q < 0 + 0)) by lia.
    case_decide as Hq; [by rewrite lookup_empty|].
    apply lookup_write_out. rewrite Zlen_app, Zlen_zeros. lia.
  - unfold item_holds, pending, holds_with, some_memory. cbn [fst snd some_buffer b_start b_length b_capacity b_block]. rewrite Zlen_app, Zlen_zeros.
    split; [by apply region_write|]. split; [done|]. lia.
Qed.
Lemma process_wss_refines_witness : let l := [0x81; 0x83; 1; 2; 3; 4; 96; 96; 96; 0x01] in let f := empty_frame some_config (Some (some_buffer l)) in
  exists ok c' s' m', process_wss willing (some_memory l) (replace (upgraded l) (Some f) None) = Some (ok, c', m') /\
    receive_all willing some_config (S (S (length l))) (upgraded l) l = Some (ok, s') /\ l_trace (c_link c') = [Delivered [97; 98; 99] true true].
Proof.
  intros l f. assert (Hb : bytes l) by (by repeat constructor).
  destruct (process_wss_refines willing some_config ∅ 4 (replace (upgraded l) (Some f) None) [pending (some_buffer l) l] (upgraded l) (some_memory l)
    l) as (ok & c' & items' & s' & m' & E & Er & Hs' & _).
  { by vm_compute. } { apply willing_laws. } { lia. } { exists (Some f), None, [pending (some_buffer l) l], []. split; [done|]. split; [done|].
    split; [by exists (some_buffer l)|done]. }
  { by apply some_heap. } { done. } { done. } { by vm_compute. }
  exists ok, c', s', m'. split; [exact E|]. split; [exact Er|]. destruct Hs' as (data & queue & xs & ys & -> & _). cbn [replace c_link]. clear E.
  vm_compute in Er. by injection Er as <- <-.
Defined.
(** The rest of the frame arrives. *)
Lemma io_tls_refines_witness : let l := [0x81; 0x83; 1; 2; 3] in let more := [4; 96; 96; 96; 0x01] in let f := empty_frame some_config (Some (some_buffer l)) in
  exists ok c' s' m', io_tls_in willing some_config (some_memory l) (replace (upgraded l) (Some f) None) 5 more = Some (ok, c', m') /\
    receive_octets willing some_config (upgraded l) more = Some (ok, s') /\ l_trace (c_link c') = [Delivered [97; 98; 99] true true].
Proof.
  intros l more f. assert (Hb : bytes l) by (by repeat constructor).
  destruct (io_tls_refines willing some_config ∅ 4 (replace (upgraded l) (Some f) None) [pending (some_buffer l) l] (upgraded l) (some_memory l) 5
    more) as (ok & c' & items' & s' & m' & E & Er & Hs' & _).
  { by vm_compute. } { apply willing_laws. } { lia. } { exists (Some f), None, [pending (some_buffer l) l], []. split; [done|]. split; [done|].
    split; [by exists (some_buffer l)|done]. }
  { by apply some_heap. } { done. } { by repeat constructor. } { done. } { by vm_compute. } { by vm_compute. }
  exists ok, c', s', m'. split; [exact E|]. split; [exact Er|]. destruct Hs' as (data & queue & xs & ys & -> & _). cbn [replace c_link]. clear E.
  vm_compute in Er. by injection Er as <- <-.
Defined.
Lemma receive_incremental_witness : let l1 := [0x81; 0x83; 1; 2; 3] in let l2 := [4; 96; 96; 96; 0x01] in exists s1 r,
  receive_all willing some_config 7 (upgraded []) l1 = Some (true, s1) /\ c_data s1 = Some r /\
  receive_all willing some_config 12 (upgraded []) (l1 ++ l2) = receive_all willing some_config 12 s1 (r ++ l2).
Proof.
  intros l1 l2. destruct (receive_all willing some_config 7 (upgraded []) l1) as [[ok s1]|] eqn:E; [|by vm_compute in E].
  assert (Eok : ok = true /\ c_data s1 = Some l1) by (vm_compute in E; by injection E as <- <-).
  destruct Eok as [-> Ed]. destruct (receive_incremental willing some_config (upgraded []) l1 l2 true s1) as (r & Er & H);
    [by repeat constructor|by repeat constructor|exact E|].
  exists s1, r. split; [done|]. split; [done|]. rewrite Ed in Er. injection Er as <-. exact H.
Defined.
(** ** What a client may see *)

Definition outcome (l : list Z) : option (bool * list event) := (fun r => (r.1, l_trace (c_link r.2))) <$> receive_all willing some_config (S (S
    (length l))) (upgraded []) l.
(** An empty ping is answered with nothing, which is an error: the connection is
    closed. *)
Example empty_ping_closes : outcome [0x89; 0] = Some (false, [Closed; Written ([0x88; 14; 3; 232] ++ string_bytes "normal close") 16; Listening true true]).
Proof. vm_compute. reflexivity. Qed.
(** A text in two fragments is not delivered as a text. *)
Example fragmented_text : outcome [0x01; 1; 97; 0x80; 1; 98] = Some (true, [Delivered [97; 98] false true]).
Proof. vm_compute. reflexivity. Qed.
(** A fragment without octets is allowed, and is an error here. *)
Example empty_fragment_refused : outcome [0x02; 1; 97; 0x80; 0] = Some (false, []).
Proof. vm_compute. reflexivity. Qed.
