(* ===== verification/WebServerPortions.v ===== *)
(** * Portions of input, and messages (src/lib/ov_core/src/ov_webserver_base.c)

    [input]: the octets that arrive at an upgraded connection, portion by portion.
    [messages_delivered]: the messages a client sends reach the application one by
    one, whatever the portions and the keys are, with fragments that are not empty. *)
From S2P Require Import Prelude CMem Buffer BufferSpec BufferHeap Websocket WebsocketSpec WebServerBase WebServerSend WebServerFrames WebServerReceive WebServerStream.

(** ** What is left behind the frames *)

Lemma next_frame_size l b0 key p r : next_frame l = Frame b0 key p r -> Zlen p + Zlen r <= Zlen l.
Proof.
  unfold next_frame. destruct (head_of l) as [| |size masked n]; try done. destruct (_ <? _); [done|]. destruct (negb _); [done|]. intros [= _ _ <- <-].
  rewrite <- Zlen_app, ztake_zdrop. unfold zdrop, Zlen. rewrite length_drop. lia.
Qed.
Section receive.
Context (env : environment) (config : ov_websocket_frame_config).
Notation receive := (receive env config).
Notation receive_all := (receive_all env config).
(** Without an error, the octets that are left do not hold a frame. *)
Lemma receive_all_rest n : forall s l s', receive_all n s l = Some (true, s') -> exists r, c_data s' = Some r /\ next_frame r = More /\
  w_config (c_websocket s') = w_config (c_websocket s) /\ waiting_size s' + Zlen r <= waiting_size s + Zlen l.
Proof using Type.
  induction n as [|n IH]; intros s l s' E; [done|]. cbn [WebServerReceive.receive_all] in E. destruct l as [|a l0]; [injection E as <-; by exists []|].
  set (l := a :: l0) in *. destruct (next_frame l) as [| |b0 key p r] eqn:En; [done|injection E as <-; by exists l|].
  destruct (receive _ _ _) as [[ok s1]|] eqn:Er; [|done]. cbn [mbind option_bind] in E. destruct ok; [|done].
  apply receive_goes_on in Er as (E1 & _ & E3). destruct (IH _ _ _ E) as (r' & Ed & Em & Ew & Hs). exists r'. split; [done|]. split; [done|].
  split; [by rewrite Ew, E1|]. apply next_frame_size in En. rewrite sent_length in E3.
  change (waiting_size (with_data s (Some r))) with (waiting_size s) in E3. lia.
Qed.

(** ** The flags of a connection do not matter as long as there is no error *)

Definition flagged (s : channel) (flags : Z) : channel := with_link s (with_flags (c_link s) flags).
Definition alike (s s2 : channel) : Prop := exists flags, s2 = flagged s flags.
Lemma alike_refl s : alike s s.
Proof using Type. exists (l_flags (c_link s)). by destruct s as [[] ? ? ?]. Qed.
Lemma alike_trans s s2 s3 : alike s s2 -> alike s2 s3 -> alike s s3.
Proof using Type. intros [f1 ->] [f2 ->]. by exists f2. Qed.
Lemma receive_alike s flags b0 p s' : receive s b0 p = Some (true, s') -> exists s2, receive (flagged s flags) b0 p = Some (true, s2) /\ alike s' s2.
Proof using Type.
  assert (Ht : forall o, transmit env s o = Some (true, s') -> exists s2, transmit env (flagged s flags) o = Some (true, s2) /\ alike s' s2).
  { intros o E. exists s'. split; [|apply alike_refl]. rewrite <- E. unfold transmit. cbn [flagged with_link c_link].
    change (tls_send env (with_flags (c_link s) flags) o) with (tls_send env (c_link s) o). destruct (tls_send env (c_link s) o) as [[ok l]|] eqn:El; [|done].
    cbn [mbind option_bind]. destruct ok; [done|]. unfold transmit in E. rewrite El in E. done. }
  unfold WebServerReceive.receive. destruct (8 <=? b0 mod 16).
  - unfold receive_control. destruct (_ =? OV_WEBSOCKET_OPCODE_PONG); [intros [= <-]; eexists; split; [done|]; by exists flags|].
    destruct (_ =? OV_WEBSOCKET_OPCODE_PING); [|by destruct (_ =? OV_WEBSOCKET_OPCODE_CLOSE)]. destruct (bool_decide _); [apply Ht|].
    destruct (_ =? 65535); [done|apply Ht].
  - intros [= E]. assert (Hc : forall (t : channel) qs text t', complete env t qs text = (true, t') ->
      exists t2, complete env (flagged t flags) qs text = (true, t2) /\ alike t' t2).
    { intros t qs text t'. unfold complete. destruct (behind_empty qs); [done|]. unfold call_callback.
      cbn [flagged with_link with_queue with_websocket c_link with_flags l_trace].
      destruct (callback env _ _ _); [|done]. intros [= <-]. eexists. split; [done|]. by exists flags. }
    assert (He : forall (t : channel) last text cb t', enqueue env t p last text cb = (true, t') ->
      exists t2, enqueue env (flagged t flags) p last text cb = (true, t2) /\ alike t' t2).
    { intros t last text cb t'. unfold enqueue. cbn [flagged with_link c_websocket]. destruct (w_queue (c_websocket t)); [|done].
      destruct (_ && _ && _); [done|].
      destruct cb; [apply Hc|]. intros [= <-]. eexists. split; [done|]. by exists flags. }
    revert E. unfold receive_data. cbn [flagged with_link c_websocket]. destruct (fragmentation_state b0); destruct (started _); try done.
    + unfold call_callback. cbn [with_link c_link with_flags l_trace]. destruct (callback env _ _ _); [|done]. intros [= <-]. eexists. split; [done|].
      by exists flags.
    + destruct (w_queue (c_websocket s)) as [[|]|]; [|done|]; intros E; apply He in E as (t2 & E & Ha); exists t2; (split; [|done]); rewrite <- E; done.
    + intros E. apply He in E as (t2 & E & Ha). exists t2. split; [|done]. rewrite <- E. done.
    + intros E. apply He in E as (t2 & E & Ha). exists t2. split; [|done]. rewrite <- E. done.
Qed.
Lemma receive_all_alike n : forall s s2 l s', receive_all n s l = Some (true, s') -> alike s s2 ->
  exists s2', receive_all n s2 l = Some (true, s2') /\ alike s' s2'.
Proof using Type.
  induction n as [|n IH]; intros s s2 l s' E [flags ->]; [done|]. cbn [WebServerReceive.receive_all] in *.
  destruct l as [|a l0]; [injection E as <-; eexists; split; [done|]; by exists flags|].
  destruct (next_frame (a :: l0)) as [| |b0 key p r]; [done|injection E as <-; eexists; split; [done|]; by exists flags|].
  destruct (receive _ _ _) as [[ok s1]|] eqn:Er; [|done]. cbn [mbind option_bind] in E. destruct ok; [|done].
  destruct (receive_alike _ flags _ _ _ Er) as (s3 & E3 & Ha). change (with_data (flagged s flags) (Some r)) with (flagged (with_data s (Some r)) flags).
  rewrite E3. cbn [mbind option_bind]. by eapply IH.
Qed.
End receive.

(** ** Portions *)

Section input.
Context (env : environment) (config : ov_websocket_frame_config).
(** What [SSL_peek] finds and what [SSL_read] delivers, each time the socket is
    readable, until the connection is closed. *)
Fixpoint input (m : mem) (c : connection) (portions : list (Z * list Z)) : option result :=
  match portions with
  | [] => Some (true, c, m)
  | (peeked, octets) :: portions =>
      '(ok, c, m) ← io_tls_in env config m c peeked octets; if ok : bool then input m c portions else Some (false, c, m)
  end.
Definition portion_ok (p : Z * list Z) : Prop := bytes p.2 /\ p.2 <> [] /\ Zlen p.2 <= p.1 < 2 ^ 31.
Definition arrived (portions : list (Z * list Z)) : list Z := concat portions.*2.
(** [s] is [s2] but for the flags, and what is known of the octets that are left. *)
Definition settles (s s2 : channel) : Prop :=
  c_websocket s = c_websocket s2 /\ l_trace (c_link s) = l_trace (c_link s2) /\ default [] (c_data s) = default [] (c_data s2).
Lemma alike_settles s1 s2 s : alike s1 s2 -> settles s s2 -> settles s s1.
Proof using Type. intros [f ->] H. exact H. Qed.
Context (base : mem) (max : Z) (Hcfg : config_ok config) (Hlaws : ssl_laws env max) (Hmax : 0 < max < 2 ^ 31).
Lemma arrived_bytes portions : Forall portion_ok portions -> bytes (arrived portions).
Proof using Type. induction 1 as [|p ps (Hb & _) _ IH]; [constructor|]. apply bytes_app. by split. Qed.
Lemma input_spec portions : forall c items s m n sf, let rest := default [] (c_data s) in
  stands_for config c items s -> heap base items m -> ready s -> next_frame rest = More -> bytes rest -> Forall portion_ok portions ->
  waiting_size s + Zlen rest + Zlen (arrived portions) < 2 ^ 59 ->
  receive_all env config n s (rest ++ arrived portions) = Some (true, sf) -> (length (rest ++ arrived portions) < n)%nat ->
  exists c' items' s' m', input m c portions = Some (true, c', m') /\ stands_for config c' items' s' /\ heap base items' m' /\ settles s' sf.
Proof using Hcfg Hlaws Hmax.
  induction portions as [|[peeked o] portions IH]; intros c items s m n sf rest Hs Hm Hr Hmore Hb Hp Hsz E Hn.
  - exists c, items, s, m. split; [done|]. split; [done|]. split; [done|]. cbn [arrived fmap list_fmap concat] in E. rewrite app_nil_r in E.
    destruct n as [|n]; [lia|]. cbn [receive_all] in E. unfold settles. fold rest. destruct rest; [by injection E as <-|]. rewrite Hmore in E.
    by injection E as <-.
  - apply Forall_cons in Hp as [(Hbo & Hne & Hpk) Hp]. cbn [fst snd] in *. change (arrived ((peeked, o) :: portions)) with (o ++ arrived portions) in *.
    rewrite Zlen_app in Hsz. pose proof (Zlen_nonneg (arrived portions)) as Ha0. pose proof (arrived_bytes portions Hp) as Hba.
    destruct (io_tls_spec env config base max c items s m peeked o Hcfg Hlaws Hmax Hs Hm Hr Hbo Hne Hpk) as (ok & c1 & items1 & s1 & m1 & E1 & Er &
      Hs1 & Hm1); [fold rest; lia|].
    cbn [input]. rewrite E1. cbn [mbind option_bind]. unfold receive_octets in Er. fold rest (flagged s FLAG_SEND_SSL_SHUTDOWN) in Er.
    destruct (receive_all env config _ _ (rest ++ o)) as [[ok0 s2]|] eqn:Ep; [|done]. cbn [mbind option_bind] in Er.
    destruct (receive_all_alike env config n s (flagged s FLAG_SEND_SSL_SHUTDOWN) _ _ E) as (sf0 & E0 & Hsf0); [by eexists|]. rewrite app_assoc in E0.
    rewrite app_assoc in Hn.
    pose proof (receive_more env config _ n _ (rest ++ o) (arrived portions) _ _ ltac:(by apply bytes_app) Hba Ep Hn) as Hmor. destruct ok0.
    2: { destruct Hmor as (s3 & E3 & _). congruence. }
    destruct Hmor as (r & Ed & Hbr & Hmor). destruct (receive_all_rest env config _ _ _ _ Ep) as (r2 & Ed2 & Hmr & Ew & Hsz2). rewrite Ed in Ed2.
    injection Ed2 as <-.
    injection Er as <- <-. change (with_link s2 _) with (flagged s2 0) in *. rewrite (Hmor (S (length (r ++ arrived portions)))) in E0 by lia.
    destruct (receive_all_alike env config _ s2 (flagged s2 0) _ _ E0) as (sf1 & E2 & Hsf1); [by eexists|].
    assert (Edr : default [] (c_data (flagged s2 0)) = r) by (cbn [flagged with_link c_data]; by rewrite Ed).
    rewrite Zlen_app in Hsz2. change (waiting_size (flagged s FLAG_SEND_SSL_SHUTDOWN)) with (waiting_size s) in Hsz2.
    destruct (IH c1 items1 (flagged s2 0) m1 (S (length (r ++ arrived portions))) sf1 Hs1 Hm1) as (c' & items' & s' & m' & E' & Hs' & Hm' & Hse);
      try rewrite Edr; try done.
    { unfold ready. cbn [flagged with_link c_websocket]. rewrite Ew. exact Hr. } { change (waiting_size (flagged s2 0)) with (waiting_size s2). lia. } { lia. }
    exists c', items', s', m'. split; [done|]. split; [done|]. split; [done|]. by apply (alike_settles sf sf0), (alike_settles sf0 sf1).
Qed.
(** A connection between two messages, with its buffers. *)
Definition at_rest (c : connection) (s : channel) (m : mem) : Prop :=
  exists items, stands_for config c items s /\ heap base items m /\ ready s /\ idle s /\ default [] (c_data s) = [].
Lemma input_delivery c s m ms fs ws portions : (forall h c t, callback env h c t = true) -> at_rest c s m ->
  Forall (message_ok (max_frames (w_config (c_websocket c)))) ms -> filter no_pong fs = ms ≫= frames_of -> Forall2 on_wire fs ws ->
  Forall portion_ok portions -> arrived portions = concat ws -> Zlen (concat ws) < 2 ^ 59 ->
  exists c' s' m', input m c portions = Some (true, c', m') /\ l_trace (c_link c') = rev (delivered <$> ms) ++ l_trace (c_link c) /\ at_rest c' s' m'.
Proof using Hcfg Hlaws Hmax.
  intros Hcb (items & Hs & Hm & Hr & Hi & Hd) Hms Hfs Hws Hp Ea Hsz.
  assert (Hc : forall c items s, stands_for config c items s -> c_link c = c_link s /\ w_config (c_websocket c) = w_config (c_websocket s)).
  { clear. intros c items s (data & queue & xs & ys & -> & _). done. }
  destruct (Hc _ _ _ Hs) as [El Ew]. rewrite Ew in Hms. destruct (delivery env config Hcb s ms fs ws Hi Hms Hfs Hws) as (sf & E & Et & Hif & Hdf).
  destruct (input_spec portions c items s m (S (S (length (concat ws)))) sf Hs Hm Hr) as (c' & items' & s' & m' & E' & Hs' & Hm' & Hse);
    try rewrite Hd, ?Ea; try done.
  { constructor. } { unfold waiting_size. destruct Hi as (_ & _ & ->). cbn [concat]. change (Zlen (@nil Z)) with 0. lia. } { cbn [app]. lia. }
  destruct Hse as (Hse1 & Hse2 & Hse3). destruct (Hc _ _ _ Hs') as [El' _]. destruct (receive_all_rest env config _ _ _ _ E) as (r & _ & _ & Ewf & _).
  exists c', s', m'. split; [done|]. split; [by rewrite El', Hse2, Et, El|]. exists items'. split; [done|]. split; [done|].
  split; [unfold ready; rewrite Hse1, Ewf; exact Hr|]. split; [unfold idle; by rewrite Hse1|]. by rewrite Hse3, Hdf.
Qed.
End input.

(** C2: the messages a client sends are delivered to the application, each once,
    complete and in order, in whatever portions their octets arrive, with any keys
    that a frame may have (a frame without data has none, see
    [masked_empty_refused]), and with pongs between the frames, also within a
    message; afterwards the connection waits for the next message. This is for
    messages in one frame, or in fragments that are not empty and at most as many
    as the connection allows ([message_ok]; see [empty_fragment_refused]), and for
    callbacks that accept what they are given. A message in several fragments is
    delivered as no text even if it is one ([delivered]; see [fragmented_text]). *)
Theorem messages_delivered env config base max c s m ms fs ws portions : config_ok config -> ssl_laws env max -> 0 < max < 2 ^ 31 ->
  (forall h c t, callback env h c t = true) -> at_rest config base c s m ->
  Forall (message_ok (max_frames (w_config (c_websocket c)))) ms -> filter no_pong fs = ms ≫= frames_of -> Forall2 on_wire fs ws ->
  Forall portion_ok portions -> arrived portions = concat ws -> Zlen (concat ws) < 2 ^ 59 ->
  exists c' s' m', input env config m c portions = Some (true, c', m') /\ l_trace (c_link c') = rev (delivered <$> ms) ++ l_trace (c_link c) /\
    at_rest config base c' s' m'.
Proof. intros. by eapply input_delivery. Qed.

(** ** Concrete input *)

(** A connection without buffers, between two messages. *)
Definition new_channel : channel := with_data (upgraded []) None.
Definition new_connection : connection := replace new_channel None None.
Lemma new_at_rest : at_rest some_config ∅ new_connection new_channel ∅.
Proof. exists []. split; [by exists None, None, [], []|]. by split. Qed.
(** A text, a pong between the two fragments of a binary message, and a text, in
    three portions. *)
Lemma messages_delivered_witness : exists c' m',
  input willing some_config ∅ new_connection [(3, [0x81; 1; 97]); (9, [0x02; 2; 1; 2; 0x8A; 0; 0x80]); (9, [0x81; 5; 6; 7; 8; 6; 0x81; 1;
    98])] = Some (true, c', m') /\
  l_trace (c_link c') = [Delivered [98] true true; Delivered [1; 2; 3] false true; Delivered [97] true true].
Proof.
  destruct (messages_delivered willing some_config ∅ 4 new_connection new_channel ∅
    [{| m_text := true; m_parts := [[97]] |}; {| m_text := false; m_parts := [[1; 2]; [3]] |}; {| m_text := true; m_parts := [[98]] |}]
    [(0x81, [97]); (0x02, [1; 2]); (0x8A, []); (0x80, [3]); (0x81, [98])]
    [[0x81; 1; 97]; [0x02; 2; 1; 2]; [0x8A; 0]; [0x80; 0x81; 5; 6; 7; 8; 6]; [0x81; 1; 98]]
    [(3, [0x81; 1; 97]); (9, [0x02; 2; 1; 2; 0x8A; 0; 0x80]); (9, [0x81; 5; 6; 7; 8; 6; 0x81; 1; 98])]) as (c' & s' & m' & E & Et & _).
  { by vm_compute. } { apply willing_laws. } { lia. } { done. } { apply new_at_rest. } { repeat constructor; try discriminate; try (by left). } { reflexivity. }
  { assert (Hp : forall b0 p, is_byte b0 -> bytes p -> 0 <= Zlen p < 126 -> on_wire (b0, p) (b0 :: [Zlen p] ++ p)).
    { intros b0 p H0 Hp Hl. exists []. apply frame_plain; [done|done|]. apply (sf_7 0 (Zlen p)). done. }
    assert (Hd : forall x, bool_decide (is_byte x) = true -> is_byte x) by (intros x; apply bool_decide_eq_true).
    constructor; [apply (Hp 0x81 [97])|constructor; [apply (Hp 0x02 [1; 2])|constructor; [apply (Hp 0x8A [])|constructor;
      [|constructor; [apply (Hp 0x81 [98])|constructor]]]]]; try (by repeat constructor); try (by apply Hd; vm_compute).
    exists [5; 6; 7; 8]. apply (frame_masked 0x80 [0x81] [5; 6; 7; 8] [6]); try done; try (by repeat constructor). apply (sf_7 128 1). lia. }
  { repeat (apply Forall_cons; split; [split; [by repeat constructor|split; [discriminate|by vm_compute]]|]). constructor. } { reflexivity. } { by vm_compute. }
  exists c', m'. split; [exact E|]. rewrite Et. reflexivity.
Defined.
