(* ===== verification/WebServerJson.v ===== *)
(** * JSON messages of the web server (src/lib/ov_core/src/ov_webserver_base.c)

    [cb_wss_send_json] cuts the text of a message into frames and gives them to the
    connection: [send_json_refines]. What one connection sends this way is delivered
    to the application behind another one as it was: [json_message_roundtrip]. *)
From S2P Require Import Prelude CMem Endian Buffer BufferSpec BufferHeap.
From S2P Require Import Websocket WebsocketSpec WebServerBase WebServerSend WebServerFrames WebServerReceive WebServerStream WebServerPortions.

(** ** The specification *)

(** A text without its terminator. *)
Definition is_text (l : list Z) : Prop := bytes l /\ Forall (fun x => x <> 0) l.
Fixpoint parts_of (fuel : nat) (chunk : Z) (l : list Z) : list (list Z) :=
  match fuel with O => [] | S fuel => if chunk <? Zlen l then ztake chunk l :: parts_of fuel chunk (zdrop chunk l) else [l] end.
(** One frame when the text is shorter than a chunk; otherwise at least two. *)
Definition json_parts (chunk : Z) (l : list Z) : list (list Z) :=
  if Zlen l <? chunk then [l] else ztake chunk l :: parts_of (S (length l)) chunk (zdrop chunk l).
Definition json_message (chunk : Z) (l : list Z) : message := {| m_text := true; m_parts := json_parts chunk l |}.
(** A frame as the server sends it, without a mask. *)
Definition plain (f : Z * list Z) : list Z := f.1 :: field_of 0 (Zlen f.2) ++ f.2.
Section spec.
Context (env : environment).
Fixpoint send_frames (s : channel) (fs : list (Z * list Z)) : option (bool * channel) :=
  match fs with
  | [] => Some (true, s)
  | f :: fs => '(ok, s) ← transmit env s (plain f); if ok : bool then send_frames s fs else Some (false, s)
  end.
End spec.

(** ** Strings *)

Lemma text_size m p l : region m p l -> (length l <= size m)%nat.
Proof.
  intros [_ H]. rewrite <- size_dom. trans (length (seqZ p (Zlen l))); [rewrite length_seqZ; unfold Zlen; lia|].
  rewrite <- (size_list_to_set (C := gset Z)) by apply NoDup_seqZ. apply subseteq_size. intros x Hx%elem_of_list_to_set%elem_of_seqZ. apply elem_of_dom.
  exists l.[x - p]. replace x with (p + (x - p)) at 1 by lia. apply H. lia.
Qed.
Lemma string_at_spec fuel m p l : region m p (l ++ [0]) -> Forall (fun x => x <> 0) l -> (length l < fuel)%nat -> string_at fuel m p = Some l.
Proof.
  revert fuel p. induction l as [|x l IH]; intros fuel p H Hz Hf; (destruct fuel as [|fuel]; [cbn in Hf; lia|]); cbn [string_at app] in *;
    rewrite (load8_at_0 _ _ _ _ H); cbn [mbind option_bind]; [done|].
  apply Forall_cons in Hz as [Hx Hz]. rewrite (proj2 (Z.eqb_neq x 0)) by done. rewrite IH; [done| |done|cbn in Hf; lia].
  apply (region_app_r _ p _ [x]); [exact H|done].
Qed.
Lemma strlen_spec m p l : region m p (l ++ [0]) -> Forall (fun x => x <> 0) l -> strlen m p = Some (Zlen l).
Proof. intros H Hz. unfold strlen, c_string_at. pose proof (text_size _ _ _ H) as Hs. rewrite length_app in Hs. cbn in Hs.
  rewrite (string_at_spec _ m p l H Hz) by lia. done. Qed.

(** ** The frames of a message *)

Section send.
Context (env : environment) (config : ov_websocket_frame_config) (Hcfg : config_ok config) (base : mem) (max : Z) (Hlaws : ssl_laws env max) (Hmax : 0
    < max < 2 ^ 31).
(** The octet and what was in the buffer behind it. *)
Lemma first_octet b l z items m x : heap base ((b, l, z) :: items) m -> is_byte x -> exists l2 z2 m2, store8 m (b_start b) x = Some m2 /\
  heap base ((b, l2, z2) :: items) m2 /\ (l2 = [] <-> l = []) /\ load8 m2 (b_start b) = Some x.
Proof using Type.
  intros Hm Hx. pose proof (heap_first _ _ _ _ Hm) as Hw. unfold item_holds in Hw. cbn [fst snd] in Hw.
  pose proof (holds_mapped _ _ _ (holds_with_holds _ _ _ _ Hw)) as Hmap. pose proof Hw as (Hr & Hb & El & Ebl & Hc & Hc0 & Hb63). pose proof Hr as [Hp _].
  rewrite (store8_mapped m (b_start b) (b_block b)), (u8_id x) by (done || lia).
  assert (Hwr : forall a t, l ++ z = a :: t -> region (write m (b_start b) [x]) (b_start b) (x :: t)).
  { intros a t E. rewrite E in Hr. pose proof (region_write_mid m (b_start b) [] [a] [x] t (b_start b) Hr eq_refl) as H.
    change (Zlen (@nil Z)) with 0 in H. apply H. lia. }
  assert (M : moved m b (write m (b_start b) [x]) b) by (apply moved_write; [done|done|lia|]; change (Zlen [x]) with 1; lia). destruct l as [|a l].
  - destruct z as [|a z]; [change (Zlen ([] ++ @nil Z)) with 0 in Ebl; lia|]. pose proof (Hwr a z eq_refl) as Hr2.
    exists [], (x :: z), (write m (b_start b) [x]). split; [done|]. split; [|split; [done|by apply load8_at_0 in Hr2]].
    eapply heap_moved; [exact Hm|exact M|]. split; [exact Hr2|]. split; [constructor|]. split; [done|]. split; [|by split]. cbn [app] in *.
    by rewrite Zlen_cons in *.
  - pose proof (Hwr a (l ++ z) eq_refl) as Hr2. apply bytes_cons in Hb as [_ Hb]. exists (x :: l), z, (write m (b_start b) [x]). split; [done|].
    split; [|split; [done|by apply load8_at_0 in Hr2]].
    eapply heap_moved; [exact Hm|exact M|]. split; [exact Hr2|]. split; [by apply bytes_cons|]. cbn [app] in *. rewrite !Zlen_cons in *.
    split; [done|]. split; [done|by split].
Qed.
Definition ready_to_send (f : ov_websocket_frame) (x : item) (n : Z) : Prop :=
  f_buffer f = Some x.1.1 /\ f_config f = config /\ b_capacity x.1.1 < 2 ^ 62 /\ (x.1.2 <> [] \/ n <= b_capacity x.1.1).
Lemma send_frame_spec x items c s m f octet data p : stands_for config c items s -> heap base (x :: items) m -> ready_to_send f x (Zlen (plain (octet, p))) ->
  is_byte octet -> known_opcode (octet mod 16) = true -> bytes p -> Zlen p < 2 ^ 59 -> Zlen p <> 0xffff -> (0 < Zlen p -> region base data p) ->
  exists ok c' f' x' items' s' m', send_frame env m c f octet data (Zlen p) = Some (ok, c', f', m') /\ transmit env s (plain (octet, p)) = Some (ok, s') /\
    stands_for config c' items' s' /\ heap base (x' :: items') m' /\ forall n, ready_to_send f' x' n.
Proof using Hcfg Hlaws Hmax.
  destruct x as [[b l] z]. intros Hs Hm (Hb & Hc & Hcap & Hroom) Ho Hop Hp Hn Hne Hd. cbn [fst snd] in *. unfold send_frame. rewrite Hb.
  cbn [mbind option_bind].
  destruct (first_octet b l z items m octet Hm Ho) as (l2 & z2 & m2 & -> & Hm2 & El2 & Hld). cbn [mbind option_bind].
  pose proof (heap_first _ _ _ _ Hm2) as Hw. unfold item_holds in Hw. cbn [fst snd] in Hw.
  assert (Ep : behind false [] p = field_of 0 (Zlen p) ++ p) by done. assert (En : new_octet [] b l2 octet p false = octet).
  { unfold new_octet, kept. rewrite Ep. destruct (bool_decide_reflect (l2 = [])) as [E|E]; [|done].
    destruct Hroom as [Hroom|Hroom]; [by apply El2 in E|]. unfold plain in Hroom. cbn [fst snd] in Hroom. rewrite Zlen_cons in Hroom.
    by rewrite (proj2 (Z.ltb_ge _ _)) by lia. }
  destruct (set_data_spec (junk env) None [] m2 f b l2 octet data p false) as (_ & f' & b' & m3 & ->
    & Hb' & Hc' & [z3 Hh3] & M3 & _ & Hcap'); [done|by eapply holds_with_holds|done|done|done|lia|done| |done|done|by rewrite En|done|].
  { intros Hp0. destruct (heap_base base _ _ data p Hm2 (Hd Hp0)) as [Hr Hout]. split; [done|]. intros q Hq. apply (Hout (b, l2, z2) q); [set_solver|done]. }
  cbn [mbind option_bind negb]. rewrite Hb'. cbn [mbind option_bind]. rewrite En, Ep in Hh3.
  pose proof (heap_moved base _ _ _ _ _ _ _ _ _ Hm2 M3 Hh3) as Hm3. pose proof (holds_with_holds _ _ _ _ Hh3) as Hh4.
  destruct (holds_facts _ _ _ Hh4) as (_ & El4 & _).
  destruct (transmit_spec env config Hcfg base max Hlaws Hmax [_] c items s m3 b' (plain (octet, p)) Hs Hm3) as (ok & c' & items' & s' & m4 & ->
    & Et & Hs' & Hm4).
  { apply loadn_region_n; [by apply holds_region|done]. }
  cbn [mbind option_bind]. exists ok, c', f', (b', plain (octet, p), z3), items', s', m4. split; [done|]. split; [done|]. split; [done|].
  split; [done|]. intros n. split; [done|]. split; [by rewrite Hc'|]. split; [done|by left].
Qed.
Lemma send_continuation_spec fuel : forall x items c s m f ptr chunk l, stands_for config c items s -> heap base (x :: items) m ->
  (forall n, ready_to_send f x n) -> 0 < chunk < 0xffff -> bytes l -> Zlen l < 2 ^ 59 ->
  (0 < Zlen l -> region base ptr l) -> (length l < fuel)%nat ->
  exists ok c' f' x' items' s' m', send_continuation env fuel m c f ptr chunk (Zlen l) = Some (ok, c', f', m') /\
    send_frames env s (tail_frames (parts_of fuel chunk l)) = Some (ok, s') /\
    stands_for config c' items' s' /\ heap base (x' :: items') m' /\ forall n, ready_to_send f' x' n.
Proof using Hcfg Hlaws Hmax.
  induction fuel as [|fuel IH]; intros x items c s m f ptr chunk l Hs Hm Hr Hch Hb Hl Hd Hf; [lia|]. cbn [send_continuation parts_of].
  pose proof (Zlen_nonneg l). destruct (Z.ltb_spec chunk (Zlen l)) as [Hlt|Hge].
  - assert (Et : Zlen (ztake chunk l) = chunk) by (rewrite Zlen_ztake; lia). assert (Ed : Zlen (zdrop chunk l) = Zlen l - chunk) by (rewrite Zlen_zdrop; lia).
    assert (Hparts : exists q qs, parts_of fuel chunk (zdrop chunk l) = q :: qs) by (destruct fuel; [unfold Zlen in *; lia|]; cbn [parts_of];
      case_match; by eexists _, _). destruct Hparts as (q & qs & Eq).
    destruct (send_frame_spec x items c s m f 0x00 ptr (ztake chunk l) Hs Hm (Hr _)) as (ok & c1 & f1 & x1 & items1 & s1 & m1 & E1 & Es1 & Hs1 & Hm1 &
      Hr1); [by unfold is_byte|done|by apply bytes_ztake|lia|lia|intros _; apply region_ztake, Hd; lia|].
    rewrite Et in E1. rewrite E1. cbn [mbind option_bind].
    assert (Etail : tail_frames (ztake chunk l :: parts_of fuel chunk (zdrop chunk l)) = (0x00,
      ztake chunk l) :: tail_frames (parts_of fuel chunk (zdrop chunk l))) by (by rewrite Eq).
    rewrite Etail. cbn [send_frames]. rewrite Es1. cbn [mbind option_bind]. destruct ok; [|by exists false, c1, f1, x1, items1, s1, m1]. rewrite <- Ed.
    apply (IH x1 items1 c1 s1 m1 f1 (ptr + chunk) chunk (zdrop chunk l)); try done; [by apply bytes_zdrop|lia|intros _; apply region_zdrop; [apply Hd;
      lia|lia]|]. unfold Zlen in *. lia.
  - cbn [tail_frames send_frames]. destruct (send_frame_spec x items c s m f 0x80 ptr l Hs Hm (Hr _)) as (ok & c1 & f1 & x1 & items1 & s1 & m1 & E1 &
      Es1 & Hs1 & Hm1 & Hr1); [by unfold is_byte|done|done|lia|lia|done|].
    rewrite E1, Es1. cbn [mbind option_bind]. exists ok, c1, f1, x1, items1, s1, m1. split; [done|]. split; [by destruct ok|done].
Qed.
(** The buffer that is used for the frames. *)
Lemma sending_buffer items m : heap base items m -> exists f b m1 f' b' z' m2, ov_websocket_frame_create m config = Some (f, m1) /\
  ov_websocket_frame_clear m1 f = Some (f', m2) /\
  heap base ((b', [], z') :: items) m2 /\ f_buffer f' = Some b' /\ f_config f' = config /\ b_capacity b' = default_size config /\ f_buffer f = Some b.
Proof using Hcfg.
  intros Hm. unfold config_ok in Hcfg. unfold ov_websocket_frame_create, frame_create, config_init. rewrite (proj2 (Z.eqb_neq _ 0)) by lia.
  destruct (buffer_create_spec m (default_size config) ltac:(lia)) as (nb & m1 & -> & Hnb & Ecap & M1). cbn [mbind option_bind].
  pose proof (heap_add base nb [] _ _ _ _ Hm M1 Hnb) as Hm1.
  destruct (clear_frame m1 (empty_frame config (Some nb)) nb [] (holds_with_holds _ _ _ _ Hnb) eq_refl Hcfg) as (f' & b' & m2 & E2 & Hb' & Hc' & [z'
    Hh'] & M2 & Ecap2). cbn [empty_frame f_config] in *.
  exists (empty_frame config (Some nb)), nb, m1, f', b', z', m2. split; [done|]. split; [done|]. split; [by eapply heap_moved|]. split; [done|].
  split; [done|]. split; [|done]. by destruct Ecap2 as [-> | ->].
Qed.
Lemma send_json_spec c items s m str chunk l : stands_for config c items s -> heap base items m -> l_fd (c_link s) <> -1 ->
  c_type s = CONNECTION_TYPE_WEBSOCKET ->
  region base str (l ++ [0]) -> is_text l -> Zlen l < 2 ^ 59 -> 0 < chunk < 0xffff -> chunk + 4 <= default_size config ->
  exists ok c' items' s' m', cb_wss_send_json env config chunk m c str = Some (ok, c', m') /\
    send_frames env s (frames_of (json_message chunk l)) = Some (ok, s') /\
    stands_for config c' items' s' /\ heap base items' m'.
Proof using Hcfg Hlaws Hmax.
  intros Hs Hm Hfd Hty Hstr [Hb Hz] Hl Hch Hroom. pose proof (Zlen_nonneg l). unfold cb_wss_send_json.
  assert (El : c_link c = c_link s /\ c_type c = c_type s) by (by destruct Hs as (? & ? & ? & ? & -> & _)). destruct El as [-> ->].
  rewrite (proj2 (Z.eqb_neq _ _)), Hty, bool_decide_eq_true_2 by done. cbn [negb]. destruct (heap_base base _ _ _ _ Hm Hstr) as [Hstr1 _].
  rewrite (strlen_spec m str l Hstr1 Hz). cbn [mbind option_bind].
  destruct (sending_buffer items m Hm) as (f0 & b0 & m1 & f & b & z & m2 & -> & E2 & Hm2 & Hbf & Hcf & Ecap & _). cbn [mbind option_bind]. rewrite E2.
  cbn [mbind option_bind].
  assert (Hfit : forall o p, Zlen p <= chunk -> ready_to_send f (b, [], z) (Zlen (plain (o, p)))).
  { intros o p Hp. unfold ready_to_send, plain. cbn [fst snd]. split; [done|]. split; [done|]. unfold config_ok in Hcfg. split; [lia|]. right.
    rewrite Zlen_cons, Zlen_app. pose proof (Zlen_nonneg p).
    destruct (field_of_length false (Zlen p) ltac:(lia)) as [_ Ef]. cbn iota in Ef. revert Ef.
    destruct (Zlen p <? 126); [|destruct (Z.ltb_spec (Zlen p) 0xffff)]; lia. }
  assert (Hrl : region base str l) by (by eapply region_app_l).
  assert (Hfin : forall ok c' f' x' items' s' m', stands_for config c' items' s' -> heap base (x' :: items') m' -> (forall n, ready_to_send f' x' n) ->
    exists m'', (m ← ov_websocket_frame_free m' (Some f'); Some (ok : bool, c', m)) = Some (ok, c', m'') /\ heap base items' m'').
  { intros ok c' f' [[b' l'] z'] items' s' m' _ Hm' Hr'. destruct (Hr' 0) as (Hb' & Hc' & _).
    destruct (heap_free_frame base b' l' z' items' m' f' Hm' Hb' ltac:(by rewrite Hc')) as (m'' & -> & Hm''). by exists m''. }
  unfold json_message, json_parts, frames_of. cbn [m_parts m_text]. destruct (Z.ltb_spec (Zlen l) chunk) as [Hlt|Hge].
  - change (0x80 .| OV_WEBSOCKET_OPCODE_TEXT) with 0x81. change (0x80 + opcode_of true) with 0x81.
    destruct (send_frame_spec (b, [], z) items c s m2 f 0x81 str l Hs Hm2 (Hfit 0x81 l ltac:(lia))) as (ok & c' & f' & x' & items' & s' & m' & ->
      & Es & Hs' & Hm' & Hr'); [by unfold is_byte|done|done|lia|lia|done|].
    cbn [mbind option_bind send_frames]. rewrite Es. cbn [mbind option_bind].
    destruct (Hfin ok c' f' x' items' s' m' Hs' Hm' Hr') as (m'' & E & Hm''). exists ok, c', items', s', m''. split; [exact E|]. split; [by destruct ok|done].
  - change (0x00 .| OV_WEBSOCKET_OPCODE_TEXT) with 0x01. change (opcode_of true) with 0x01.
    assert (Et : Zlen (ztake chunk l) = chunk) by (rewrite Zlen_ztake; lia). assert (Ed : Zlen (zdrop chunk l) = Zlen l - chunk) by (rewrite Zlen_zdrop; lia).
    assert (Hparts : exists q qs, parts_of (S (length l)) chunk (zdrop chunk l) = q :: qs) by (cbn [parts_of]; case_match; by eexists _, _).
    destruct Hparts as (q & qs & Eq). rewrite Eq. cbn iota. rewrite <- Eq.
    destruct (send_frame_spec (b, [], z) items c s m2 f 0x01 str (ztake chunk l) Hs Hm2 (Hfit 0x01 (ztake chunk l) ltac:(lia))) as (ok & c1 & f1 & x1
      & items1 & s1 & m3 & E1 & Es1 & Hs1 & Hm3 & Hr1); [by unfold is_byte|done|by apply bytes_ztake|lia|lia|intros _; by apply region_ztake|].
    rewrite Et in E1. rewrite E1. cbn [mbind option_bind send_frames]. rewrite Es1. cbn [mbind option_bind]. destruct ok; cbn [mbind option_bind].
    2: { destruct (Hfin false c1 f1 x1 items1 s1 m3 Hs1 Hm3 Hr1) as (m'' & E & Hm''). by exists false, c1, items1, s1, m''. }
    assert (Efuel : S (Z.to_nat (Zlen l)) = S (length l)) by (unfold Zlen; lia). rewrite Efuel, <- Ed.
    destruct (send_continuation_spec (S (length l)) x1 items1 c1 s1 m3 f1 (str + chunk) chunk (zdrop chunk l) Hs1 Hm3 Hr1 Hch) as (ok & c2 & f2 & x2 &
      items2 & s2 & m4 & -> & -> & Hs2 & Hm4 & Hr2).
    { by apply bytes_zdrop. } { lia. } { intros _. apply region_zdrop; [done|lia]. } { unfold zdrop. rewrite length_drop. lia. }
    cbn [mbind option_bind]. destruct (Hfin ok c2 f2 x2 items2 s2 m4 Hs2 Hm4 Hr2) as (m'' & E & Hm''). by exists ok, c2, items2, s2, m''.
Qed.
End send.


(** ** A text arrives *)

Lemma parts_concat chunk fuel l : (length l < fuel)%nat -> 0 < chunk -> concat (parts_of fuel chunk l) = l.
Proof.
  revert l. induction fuel as [|fuel IH]; intros l Hf Hc; [lia|]. cbn [parts_of]. destruct (Z.ltb_spec chunk (Zlen l)); [|cbn; by rewrite app_nil_r].
  cbn [concat]. rewrite IH; [apply ztake_zdrop|unfold zdrop, Zlen in *; rewrite length_drop; lia|done].
Qed.
Lemma parts_nonempty chunk fuel l : 0 < chunk -> l <> [] -> Forall (fun p => p <> []) (parts_of fuel chunk l).
Proof.
  revert l. induction fuel as [|fuel IH]; intros l Hc Hl; [constructor|]. cbn [parts_of]. destruct (Z.ltb_spec chunk (Zlen l)); [|by repeat constructor].
  constructor; [|apply IH; [done|]]; intros E; apply (f_equal Zlen) in E; rewrite ?Zlen_ztake, ?Zlen_zdrop in E by lia; change (Zlen (@nil Z)) with 0 in E; lia.
Qed.
Lemma parts_count chunk fuel l : 0 < chunk -> Zlen (parts_of fuel chunk l) <= 1 + Zlen l.
Proof.
  revert l. induction fuel as [|fuel IH]; intros l Hc; cbn [parts_of]; [change (Zlen (@nil (list Z))) with 0; pose proof (Zlen_nonneg l); lia|].
  destruct (Z.ltb_spec chunk (Zlen l)); [|change (Zlen [l]) with 1; pose proof (Zlen_nonneg l); lia]. rewrite Zlen_cons.
  specialize (IH (zdrop chunk l) Hc). rewrite Zlen_zdrop in IH by lia. lia.
Qed.
Lemma parts_small chunk fuel l : 0 < chunk -> bytes l -> Forall (fun p => bytes p /\ Zlen p <= chunk) (parts_of fuel chunk l).
Proof.
  revert l. induction fuel as [|fuel IH]; intros l Hc Hb; [constructor|]. cbn [parts_of].
  destruct (Z.ltb_spec chunk (Zlen l)); [|repeat constructor; [done|lia]].
  constructor; [|apply IH; [done|by apply bytes_zdrop]]. split; [by apply bytes_ztake|]. rewrite Zlen_ztake; lia.
Qed.
Lemma tail_of parts f : f ∈ tail_frames parts -> (f.1 = 0x00 \/ f.1 = 0x80) /\ f.2 ∈ parts.
Proof.
  induction parts as [|p parts IH]; [by intros ?%elem_of_nil|]. cbn [tail_frames].
  destruct parts as [|q parts]; [intros ->%list_elem_of_singleton; split; [by right|set_solver]|].
  intros [->|H]%elem_of_cons; [split; [by left|set_solver]|]. destruct (IH H). split; [done|set_solver].
Qed.
Lemma frames_parts m f : f ∈ frames_of m -> is_byte f.1 /\ f.2 ∈ m_parts m.
Proof.
  unfold frames_of. assert (Ho : is_byte (0x80 + opcode_of (m_text m)) /\ is_byte (opcode_of (m_text m))) by (by destruct (m_text m)).
  destruct (m_parts m) as [|p [|q parts]]; [by intros ?%elem_of_nil|intros ->%list_elem_of_singleton; split; [apply Ho|set_solver]|].
  intros [->|H]%elem_of_cons; [split; [apply Ho|set_solver]|]. apply tail_of in H as [H Hp]. split; [|set_solver]. by destruct H as [-> | ->].
Qed.
Lemma plain_on_wire f : is_byte f.1 -> bytes f.2 -> Zlen f.2 < 0xffff -> on_wire f (plain f).
Proof.
  intros H0 Hp Hn. pose proof (Zlen_nonneg f.2). exists []. apply frame_plain; [done|done|]. apply field_of_size; lia.
Qed.
Lemma keep_all fs : Forall no_pong fs -> filter no_pong fs = fs.
Proof. induction 1 as [|f fs Hf _ IH]; [done|]. by rewrite filter_cons_True, IH. Qed.
(** One text: what it is for the receiver. *)
Definition text_ok (chunk max_frames : Z) (l : list Z) : Prop := bytes l /\ Zlen l < 2 ^ 59 /\ Zlen l <> chunk /\ (max_frames = 0 \/ Zlen l + 1 < max_frames).
Lemma json_message_spec chunk n l : 0 < chunk -> text_ok chunk n l -> message_ok n (json_message chunk l) /\
  delivered (json_message chunk l) = Delivered l (Zlen l <? chunk) true /\
  Forall (fun p => bytes p /\ Zlen p <= chunk) (json_parts chunk l).
Proof.
  intros Hc (Hb & Hl & Hne & Hn). unfold message_ok, delivered, json_message, json_parts. cbn [m_parts m_text]. pose proof (Zlen_nonneg l).
  destruct (Z.ltb_spec (Zlen l) chunk) as [Hlt|Hge].
  { split; [done|]. split; [cbn; by rewrite app_nil_r|]. repeat constructor; [done|lia]. }
  assert (Et : Zlen (ztake chunk l) = chunk) by (rewrite Zlen_ztake; lia). assert (Ed : Zlen (zdrop chunk l) = Zlen l - chunk) by (rewrite Zlen_zdrop; lia).
  assert (Hqs : parts_of (S (length l)) chunk (zdrop chunk l) <> []) by (cbn [parts_of]; by case_match).
  pose proof (parts_count chunk (S (length l)) (zdrop chunk l) Hc) as Hcount0.
  pose proof (parts_small chunk (S (length l)) (zdrop chunk l) Hc ltac:(by apply bytes_zdrop)) as Hsmall.
  assert (Hfull : Forall (fun p => p <> []) (parts_of (S (length l)) chunk (zdrop chunk l))).
  { apply parts_nonempty; [done|]. intros E. rewrite E in Ed. change (Zlen (@nil Z)) with 0 in Ed. lia. }
  assert (Hcat : concat (parts_of (S (length l)) chunk (zdrop chunk l)) = zdrop chunk l) by (apply parts_concat; [unfold zdrop; rewrite length_drop; lia|done]).
  set (qs := parts_of (S (length l)) chunk (zdrop chunk l)) in *. clearbody qs.
  assert (Hcount : Zlen (ztake chunk l :: qs) <= 2 + Zlen l - chunk) by (rewrite Zlen_cons; lia).
  assert (Hall : Forall (fun p => p <> []) (ztake chunk l :: qs)).
  { constructor; [|done]. intros E. rewrite E in Et. change (Zlen (@nil Z)) with 0 in Et. lia. }
  assert (Ecat : concat (ztake chunk l :: qs) = l).
  { cbn [concat]. rewrite Hcat. apply ztake_zdrop. }
  split; [destruct qs; [done|]; split; [done|split; lia]|]. split; [rewrite Ecat; destruct qs; done|].
  constructor; [split; [by apply bytes_ztake|lia]|done].
Qed.

(** ** From one connection to another *)

(** The socket takes everything at once, and nothing waits to be sent. *)
Definition takes_all (env : environment) : Prop := (forall h o, written (ssl_write env h o) = Zlen o) /\ forall h, listening_set env h = true.
Definition clear_to_send (l : link) : Prop := l_fd l <> -1 /\ l_handshaked l = true /\ l_buffer l = None.
Definition text_at (m : mem) (p : Z) (l : list Z) : Prop := region m p (l ++ [0]) /\ Forall (fun x => x <> 0) l.
Lemma plain_length f : Zlen f.2 < 0xffff -> 0 < Zlen (plain f) <= Zlen f.2 + 4.
Proof.
  intros Hn. unfold plain. rewrite Zlen_cons, Zlen_app. pose proof (Zlen_nonneg f.2). destruct (field_of_length false (Zlen f.2) ltac:(lia)) as [_ Ef].
  cbn iota in Ef. revert Ef. destruct (Zlen f.2 <? 126); [|destruct (Z.ltb_spec (Zlen f.2) 0xffff)]; lia.
Qed.
Lemma message_frames chunk n ls f : 0 < chunk < 0xffff -> Forall (text_ok chunk n) ls -> f ∈ (ls ≫= fun l => frames_of (json_message chunk l)) ->
  on_wire f (plain f) /\ no_pong f /\ 0 < Zlen (plain f) <= chunk + 4.
Proof.
  intros Hc Hls (l & Hf & Hl)%list_elem_of_bind. rewrite Forall_forall in Hls. destruct (json_message_spec chunk n l ltac:(lia) (Hls l Hl)) as (_ & _ & Hp).
  pose proof (known_frames _ _ Hf) as [_ Hno]. apply frames_parts in Hf as [H0 Hp2]. rewrite Forall_forall in Hp. destruct (Hp _ Hp2) as [Hb Hlen].
  split; [apply plain_on_wire; [done|done|lia]|]. split; [done|]. pose proof (plain_length f ltac:(lia)). lia.
Qed.
Section texts.
Context (env : environment) (config : ov_websocket_frame_config) (chunk : Z).
(** One text after the other, up to the first error. *)
Fixpoint send_texts (m : mem) (c : connection) (strs : list Z) : option result :=
  match strs with
  | [] => Some (true, c, m)
  | str :: strs => '(ok, c, m) ← cb_wss_send_json env config chunk m c str; if ok : bool then send_texts m c strs else Some (false, c, m)
  end.
Context (base : mem) (max : Z) (Hcfg : config_ok config) (Hlaws : ssl_laws env max) (Hmax : 0 < max < 2 ^ 31) (Hall : takes_all env).
Lemma tls_send_clear l o : clear_to_send l -> 0 < Zlen o <= max ->
  exists l', tls_send env l o = Some (true, l') /\ clear_to_send l' /\ transmitted (l_trace l') = transmitted (l_trace l) ++ [o].
Proof using Hlaws Hmax Hall.
  intros (Hfd & Hh & Hb) Ho. destruct Hall as [Hw Hli]. unfold tls_send. cbn [with_flags l_handshaked]. rewrite Hh. cbn [negb]. unfold set_listening.
  rewrite Hli. cbn [negb].
  rewrite (ssl_buffer _ _ Hlaws), u64_id, (proj2 (Z.ltb_ge _ _)), (proj2 (Z.ltb_ge _ 1)) by lia. cbn [happened with_flags l_buffer]. rewrite Hb.
  unfold call_ssl_write.
  rewrite Hw, (proj2 (Z.eqb_neq _ 0)), Z.eqb_refl by lia. eexists. split; [done|]. split; [done|].
  cbn [count_bytes happened l_trace with_flags transmitted]. by rewrite Z.eqb_refl.
Qed.
Lemma send_frames_clear fs : forall s, clear_to_send (c_link s) -> Forall (fun f => 0 < Zlen (plain f) <= max) fs ->
  exists s', send_frames env s fs = Some (true, s') /\ clear_to_send (c_link s') /\ c_type s' = c_type s /\
    transmitted (l_trace (c_link s')) = transmitted (l_trace (c_link s)) ++ (plain <$> fs).
Proof using Hlaws Hmax Hall.
  induction fs as [|f fs IH]; intros s Hs Hf; [exists s; cbn; by rewrite app_nil_r|]. apply Forall_cons in Hf as [Hf Hfs]. cbn [send_frames]. unfold transmit.
  destruct (tls_send_clear (c_link s) (plain f) Hs Hf) as (l' & -> & Hl' & Et). cbn [mbind option_bind].
  destruct (IH (with_link s l') Hl' Hfs) as (s' & E & Hs' & Ety & Et'). exists s'. split; [done|]. split; [done|]. split; [done|]. rewrite Et'.
  cbn [with_link c_link]. rewrite Et, <- app_assoc. done.
Qed.
Context (Hchunk : 0 < chunk < 0xffff) (Hroom : chunk + 4 <= default_size config) (Hfits : chunk + 4 <= max).
Lemma send_texts_spec n strs ls : Forall2 (text_at base) strs ls -> Forall (text_ok chunk n) ls ->
  forall c items s m, stands_for config c items s -> heap base items m -> clear_to_send (c_link c) -> c_type c = CONNECTION_TYPE_WEBSOCKET ->
  exists c' m', send_texts m c strs = Some (true, c', m') /\
    transmitted (l_trace (c_link c')) = transmitted (l_trace (c_link c)) ++ (plain <$> (ls ≫= fun l => frames_of (json_message chunk l))).
Proof using Hcfg Hlaws Hmax Hall Hchunk Hroom Hfits.
  induction 1 as [|str l strs ls Hstr _ IH]; intros Hls c items s m Hs Hm Hc Hty; [exists c, m; cbn; by rewrite app_nil_r|].
  assert (El : forall c items s, stands_for config c items s -> c_link c = c_link s /\
    c_type c = c_type s) by (clear; intros c items s (? & ? & ? & ? & -> & _); done).
  destruct (El _ _ _ Hs) as [E1 E2]. rewrite E1, E2 in *. destruct Hstr as [Hstr Hz]. pose proof Hls as Hls0. apply Forall_cons in Hls as [(Hb & Hl & _) Hls].
  destruct (send_json_spec env config Hcfg base max Hlaws Hmax c items s m str chunk l Hs Hm (proj1 Hc) Hty Hstr (conj Hb Hz) Hl Hchunk Hroom) as (ok
    & c1 & items1 & s1 & m1 & E & Ef & Hs1 & Hm1).
  destruct (send_frames_clear (frames_of (json_message chunk l)) s Hc) as (s2 & Ef2 & Hc1 & Hty1 & Et).
  { apply Forall_forall. intros f Hf. destruct (message_frames chunk n [l] f Hchunk) as (_ & _ & H); [apply Forall_cons in Hls0 as [H _]; constructor;
      [exact H|constructor]|cbn; by rewrite app_nil_r|lia]. }
  rewrite Ef in Ef2. injection Ef2 as -> ->. cbn [send_texts]. rewrite E. cbn [mbind option_bind]. destruct (El _ _ _ Hs1) as [E3 E4].
  destruct (IH Hls c1 items1 s2 m1 Hs1 Hm1) as (c' & m' & E' & Et'); [by rewrite E3|by rewrite E4, Hty1|]. exists c', m'. split; [done|].
  rewrite Et', E3, Et. cbn [mbind list_bind]. by rewrite fmap_app, app_assoc.
Qed.
End texts.


(** ** Concrete texts *)

(** A socket with room for eight octets that takes everything. *)
Definition eager : environment := {|
  ssl_write := fun h o => {| written := Zlen o; error := SSL_ERROR_NONE; again := false |};
  send_buffer_size := fun _ => 8; listening_set := fun _ => true; callback := fun _ _ _ => true; fragmented := fun _ _ _ => true; junk := 0 |}.
Lemma eager_laws : ssl_laws eager 8.
Proof. split; try done; cbn; intros h l; [by left|set_solver]. Qed.


(** A frame that is larger than the send buffer of the socket has to wait, and the
    smaller one behind it is sent first. *)
Example frame_overtaken : (fun r => out_stream (c_link r.2)) <$> send_frames willing (upgraded []) [(0x01, [123; 32; 49]); (0x80, [50;
    125])] = Some [[128; 2; 50; 125]; [1; 3; 123; 32]; [49]].
Proof. vm_compute. reflexivity. Qed.
