(* ===== verification/JsonNumber.v ===== *)
(** * Numbers in texts (strtod and sprintf, as the JSON code uses them)

    The numbers of JSON values are doubles. A double is the [Z] of its 64 bits.
    What the code does with doubles: compare with [floor], convert to [int64_t],
    print with ["%li"] (PRIi64) or ["%.15g"], and read with [strtod] in the C
    locale. The model is exact: a finite double is a fraction of integers, and
    both conversions round to nearest, ties to even, as the C library does.

    [strtod] reads a C string: it looks at octets up to the first that is no part
    of the number, and reading behind the mapped memory is [None]. The payload of
    a NaN is not read. It reports [ERANGE] on overflow, and when the result is
    tiny after rounding and not exact, as glibc does. *)
From S2P Require Import Prelude CMem.

(** ** Doubles *)

Definition double_sign (b : Z) : bool := Z.testbit b 63.
Definition double_exponent (b : Z) : Z := (b .>> 52) .& 0x7FF.
Definition double_fraction (b : Z) : Z := b .& (2 ^ 52 - 1).
Definition is_nan (b : Z) : bool := (double_exponent b =? 0x7FF) && negb (double_fraction b =? 0).
Definition is_inf (b : Z) : bool := (double_exponent b =? 0x7FF) && (double_fraction b =? 0).
(** A finite double is [m * 2 ^ k], with a sign. *)
Definition double_mantissa (b : Z) : Z :=
  if double_exponent b =? 0 then double_fraction b else 2 ^ 52 + double_fraction b.
Definition double_scale (b : Z) : Z := Z.max (double_exponent b) 1 - 1075.
Definition make_double (neg : bool) (field : Z) : Z := (if neg then 2 ^ 63 else 0) + field.
Definition INF_FIELD : Z := 0x7FF * 2 ^ 52.
Definition NAN_FIELD : Z := INF_FIELD + 2 ^ 51.

(** [number == floor(number)] *)
Definition is_integral (b : Z) : bool :=
  if is_nan b then false else if is_inf b then true else
  (0 <=? double_scale b) || (double_mantissa b mod 2 ^ (- double_scale b) =? 0).
Definition signed (neg : bool) (n : Z) : Z := if neg then - n else n.
(** [(int64_t)number]: undefined when the value does not fit. *)
Definition int64_of_double (b : Z) : option Z :=
  if is_nan b || is_inf b then None else
  let n := signed (double_sign b) (Z.shiftl (double_mantissa b) (double_scale b)) in
  if (- 2 ^ 63 <=? n) && (n <? 2 ^ 63) then Some n else None.

(** ** Rounding *)

(** The quotient of [num] and [den], both positive, in units of [2 ^ e], rounded to
    nearest; and whether it is exact. *)
Definition round_at (num den e : Z) : Z * bool :=
  let n := num * 2 ^ Z.max 0 (- e) in
  let d := den * 2 ^ Z.max 0 e in
  let q := n / d in let r := n mod d in
  ((if (d <? 2 * r) || ((2 * r =? d) && Z.odd q) then q + 1 else q), r =? 0).
(** The unit in which the quotient has 53 bits. *)
Definition unit_of (num den : Z) : Z :=
  let e := Z.log2 num - Z.log2 den - 52 in
  if num * 2 ^ Z.max 0 (- (e + 52)) <? den * 2 ^ Z.max 0 (e + 52) then e - 1 else e.
(** The field of the nearest double, without the sign, and whether that is a range
    error. *)
Definition nearest_double (num den : Z) : Z * bool :=
  if num =? 0 then (0, false) else
  let u := unit_of num den in
  let e := Z.max u (-1074) in
  let '(q, exact) := round_at num den e in
  let field := (e + 1074) * 2 ^ 52 + q in
  if INF_FIELD <=? field then (INF_FIELD, true) else
  let '(q', _) := round_at num den u in
  let tiny := (if q' =? 2 ^ 53 then u + 1 else u) <? -1074 in
  (field, tiny && negb exact).

(** ** Printing *)

Fixpoint decimal (fuel : nat) (n : Z) (acc : list Z) : list Z :=
  match fuel with
  | O => acc
  | S fuel => let acc := (48 + n mod 10) :: acc in if n <? 10 then acc else decimal fuel (n / 10) acc
  end.
Definition print_nat (n : Z) : list Z := decimal (S (Z.to_nat (Z.log2 n))) n [].
(** ["%" PRIi64] *)
Definition print_int (n : Z) : list Z := if n <? 0 then 45 :: print_nat (- n) else print_nat n.

Definition strip_zeros (l : list Z) : list Z :=
  reverse ((fix strip l := match l with [] => [] | c :: r => if c =? 48 then strip r else l end) (reverse l)).
Definition with_point (l rest : list Z) : list Z := match strip_zeros rest with [] => l | r => l ++ 46 :: r end.
(** The decimal exponent of [num / den]. *)
Fixpoint scale_down (fuel : nat) (num den : Z) (x : Z) : Z :=
  match fuel with O => x | S fuel => if den * 10 <=? num then scale_down fuel num (den * 10) (x + 1) else x end.
Fixpoint scale_up (fuel : nat) (num den : Z) (x : Z) : Z :=
  match fuel with O => x | S fuel => if num <? den then scale_up fuel (num * 10) den (x - 1) else x end.
(** 15 digits and the exponent of the first. *)
Definition digits15 (num den : Z) : Z * Z :=
  let x := if den <=? num then scale_down 400 num den 0 else scale_up 400 num den 0 in
  let k := 14 - x in
  let n := num * 10 ^ Z.max 0 k in let d := den * 10 ^ Z.max 0 (- k) in
  let q := n / d in let r := n mod d in
  let q := if (d <? 2 * r) || ((2 * r =? d) && Z.odd q) then q + 1 else q in
  if q =? 10 ^ 15 then (10 ^ 14, x + 1) else (q, x).
Definition print_exponent (x : Z) : list Z :=
  (if x <? 0 then 45 else 43) :: (if Z.abs x <? 10 then 48 :: print_nat (Z.abs x) else print_nat (Z.abs x)).
(** ["%.15g"] *)
Definition print_g (b : Z) : list Z :=
  let neg := if double_sign b then [45] else [] in
  if is_nan b then neg ++ [110; 97; 110] else
  if is_inf b then neg ++ [105; 110; 102] else
  if double_mantissa b =? 0 then neg ++ [48] else
  let num := double_mantissa b * 2 ^ Z.max 0 (double_scale b) in
  let den := 2 ^ Z.max 0 (- double_scale b) in
  let '(q, x) := digits15 num den in
  let ds := print_nat q in
  if (x <? -4) || (15 <=? x) then neg ++ with_point (take 1 ds) (drop 1 ds) ++ 101 :: print_exponent x
  else if 0 <=? x then neg ++ with_point (take (Z.to_nat (x + 1)) ds) (drop (Z.to_nat (x + 1)) ds)
  else neg ++ with_point [48] (replicate (Z.to_nat (- x - 1)) 48 ++ ds).

(** ** Reading *)

Definition digit_in (base c : Z) : option Z :=
  let v := if (48 <=? c) && (c <=? 57) then c - 48
           else if (97 <=? c) && (c <=? 102) then c - 87
           else if (65 <=? c) && (c <=? 70) then c - 55 else base in
  if v <? base then Some v else None.
(** The digits at the start of a text: their value after [acc], their number, and
    the rest, which is not empty. *)
Fixpoint read_digits (base : Z) (l : list Z) (acc : Z) (n : nat) : option (Z * nat * list Z) :=
  match l with
  | [] => None
  | c :: r => match digit_in base c with
              | Some d => read_digits base r (acc * base + d) (S n)
              | None => Some (acc, n, l)
              end
  end.
(** An exponent after [e] or [p]; without digits there is none. *)
Definition read_exponent (marks : list Z) (l : list Z) : option (Z * list Z) :=
  match l with
  | [] => None
  | c :: r =>
      if negb (bool_decide (c ∈ marks)) then Some (0, l) else
      match r with
      | [] => None
      | s :: r' =>
          let '(neg, ds) := if s =? 45 then (true, r') else if s =? 43 then (false, r') else (false, r) in
          '(v, n, rest) ← read_digits 10 ds 0 0;
          Some (if (n =? 0)%nat then (0, l) else (signed neg v, rest))
      end
  end.
(** Digits with a point: the value without the point, the digits after it, the rest;
    no rest means no digits. *)
Definition read_mantissa (base : Z) (l : list Z) : option (option (Z * nat * list Z)) :=
  '(v, n, rest) ← read_digits base l 0 0;
  match rest with
  | [] => None
  | c :: frac =>
      if c =? 46 then
        '(v', n', rest') ← read_digits base frac v 0;
        Some (if (n + n' =? 0)%nat then None else Some (v', n', rest'))
      else Some (if (n =? 0)%nat then None else Some (v, O, rest))
  end.
Definition lower (c : Z) : Z := if (65 <=? c) && (c <=? 90) then c + 32 else c.
(** Whether the text starts with a word, in any case; the comparison stops at the
    first difference. *)
Fixpoint starts_with (w l : list Z) : option (option (list Z)) :=
  match w, l with
  | [], _ => Some (Some l)
  | _, [] => None
  | c :: w, d :: l => if lower d =? c then starts_with w l else Some None
  end.
Definition is_word_char (c : Z) : bool :=
  ((48 <=? c) && (c <=? 57)) || ((97 <=? lower c) && (lower c <=? 122)) || (c =? 95).
Fixpoint skip_word (l : list Z) : option (list Z) :=
  match l with [] => None | c :: r => if is_word_char c then skip_word r else Some l end.

Definition scaled (neg : bool) (num den : Z) (rest : list Z) : option (Z * bool * list Z) :=
  let '(field, range) := nearest_double num den in Some (make_double neg field, range, rest).
Definition read_hex (neg : bool) (l : list Z) : option (option (Z * bool * list Z)) :=
  m ← read_mantissa 16 l;
  match m with
  | None => Some None
  | Some (v, n, rest) =>
      '(e, rest) ← read_exponent [112; 80] rest;
      let e := e - 4 * Z.of_nat n in
      r ← scaled neg (v * 2 ^ Z.max 0 e) (2 ^ Z.max 0 (- e)) rest; Some (Some r)
  end.
Definition read_decimal (neg : bool) (l : list Z) : option (option (Z * bool * list Z)) :=
  m ← read_mantissa 10 l;
  match m with
  | None => Some None
  | Some (v, n, rest) =>
      '(e, rest) ← read_exponent [101; 69] rest;
      let e := e - Z.of_nat n in
      r ← scaled neg (v * 10 ^ Z.max 0 e) (10 ^ Z.max 0 (- e)) rest; Some (Some r)
  end.
(** The number after the sign: its bits, whether the range was left, and the
    rest; [None] for no number. *)
Definition read_unsigned (neg : bool) (l : list Z) : option (option (Z * bool * list Z)) :=
  match l with
  | [] => None
  | c :: r =>
      if c =? 48 then
        match r with
        | [] => None
        | x :: h =>
            if lower x =? 120 then
              m ← read_hex neg h; match m with Some m => Some (Some m) | None => read_decimal neg l end
            else read_decimal neg l
        end
      else if lower c =? 105 then
        w ← starts_with [105; 110; 102] l;
        match w with
        | None => Some None
        | Some rest =>
            w ← starts_with [105; 110; 105; 116; 121] rest;
            Some (Some (make_double neg INF_FIELD, false, default rest w))
        end
      else if lower c =? 110 then
        w ← starts_with [110; 97; 110] l;
        match w with
        | None => Some None
        | Some rest =>
            match rest with
            | [] => None
            | c :: word =>
                if negb (c =? 40) then Some (Some (make_double neg NAN_FIELD, false, rest)) else
                word ← skip_word word;
                match word with
                | [] => None
                | c :: word => Some (Some (make_double neg NAN_FIELD, false, if c =? 41 then word else rest))
                end
            end
        end
      else read_decimal neg l
  end.
(** On a text that starts with a sign or another character that is no blank. *)
Definition read_number (l : list Z) : option (option (Z * bool * list Z)) :=
  match l with
  | [] => None
  | c :: r => if c =? 45 then read_unsigned true r else if c =? 43 then read_unsigned false r else read_unsigned false l
  end.

(** The octets from [p] up to the end of the mapped memory. *)
Fixpoint octets_from (n : nat) (m : mem) (p : ptr) : list Z :=
  match n with O => [] | S n => match load8 m p with Some b => b :: octets_from n m (p + 1) | None => [] end end.
Definition text_at (m : mem) (p : ptr) : list Z := octets_from (size m) m p.
(** The number, where it ends, and whether [errno] is set to [ERANGE]. *)
Definition strtod (m : mem) (p : ptr) : option (Z * ptr * bool) :=
  let l := text_at m p in
  n ← read_number l;
  Some (match n with Some (b, range, rest) => (b, p + Zlen l - Zlen rest, range) | None => (0, p, false) end).

(** ** Reading does not depend on what is behind the end of the number *)

Definition longer {A} (t : list Z) (r : A * list Z) : A * list Z := (r.1, r.2 ++ t).
Lemma read_digits_app base l acc n v k rest t : read_digits base l acc n = Some (v, k, rest) ->
  read_digits base (l ++ t) acc n = Some (v, k, rest ++ t).
Proof.
  revert acc n. induction l as [|c l IH]; intros acc n; cbn [read_digits app]; [done|].
  destruct (digit_in base c); [apply IH|]. by intros [= <- <- <-].
Qed.
Lemma read_exponent_app marks l v rest t : read_exponent marks l = Some (v, rest) -> read_exponent marks (l ++ t) = Some (v, rest ++ t).
Proof.
  destruct l as [|c l]; cbn [read_exponent app]; [done|]. destruct (negb _); [by intros [= <- <-]|].
  destruct l as [|s l]; [done|]. cbn [app]. intros H.
  assert (E : forall neg ds, ('(v0, n, rest0) ← read_digits 10 ds 0 0;
      Some (if (n =? 0)%nat then (0, c :: s :: l) else (signed neg v0, rest0))) = Some (v, rest) ->
    ('(v0, n, rest0) ← read_digits 10 (ds ++ t) 0 0;
      Some (if (n =? 0)%nat then (0, c :: s :: l ++ t) else (signed neg v0, rest0))) = Some (v, rest ++ t)).
  { intros neg ds. destruct (read_digits 10 ds 0 0) as [[[v0 n0] r0]|] eqn:Ed; cbn [mbind option_bind]; [|done].
    rewrite (read_digits_app _ _ _ _ _ _ _ t Ed). cbn [mbind option_bind]. by destruct (n0 =? 0)%nat; intros [= <- <-]. }
  destruct (s =? 45); [by apply E|]. destruct (s =? 43); [by apply E|]. exact (E false (s :: l) H).
Qed.
Definition longer_opt {A} (t : list Z) (r : option (A * list Z)) : option (A * list Z) := longer t <$> r.
Lemma read_mantissa_app base l r t : read_mantissa base l = Some r -> read_mantissa base (l ++ t) = Some (longer_opt t r).
Proof.
  unfold read_mantissa. destruct (read_digits base l 0 0) as [[[v n] rest]|] eqn:E; cbn [mbind option_bind]; [|done].
  rewrite (read_digits_app _ _ _ _ _ _ _ t E). cbn [mbind option_bind].
  assert (Hne : rest <> []).
  { clear -E. revert E. generalize 0 at 1. generalize 0%nat. induction l as [|c l IH]; intros n0 acc; cbn [read_digits]; [done|].
    destruct (digit_in base c); [apply IH|]. by intros [= <- <- <-]. }
  destruct rest as [|x frac]; [done|]. cbn [app]. destruct (x =? 46).
  - destruct (read_digits base frac v 0) as [[[v' n'] rest']|] eqn:E'; cbn [mbind option_bind]; [|done].
    rewrite (read_digits_app _ _ _ _ _ _ _ t E'). cbn [mbind option_bind]. intros [= <-]. by destruct (n + n' =? 0)%nat.
  - intros [= <-]. by destruct (n =? 0)%nat.
Qed.
Lemma starts_with_app w l r t : starts_with w l = Some r -> starts_with w (l ++ t) = Some ((.++ t) <$> r).
Proof.
  revert l. induction w as [|c w IH]; intros l; cbn [starts_with]; [by intros [= <-]|].
  destruct l as [|d l]; [done|]. cbn [app]. destruct (lower d =? c); [apply IH|]. by intros [= <-].
Qed.
Lemma skip_word_app l r t : skip_word l = Some r -> skip_word (l ++ t) = Some (r ++ t) /\ r <> [].
Proof.
  induction l as [|c l IH]; cbn [skip_word app]; [done|]. destruct (is_word_char c); [apply IH|]. by intros [= <-].
Qed.
Lemma read_hex_app neg l r t : read_hex neg l = Some r -> read_hex neg (l ++ t) = Some (longer_opt t r).
Proof.
  unfold read_hex, scaled. destruct (read_mantissa 16 l) as [m|] eqn:E; cbn [mbind option_bind]; [|done].
  rewrite (read_mantissa_app _ _ _ t E). cbn [mbind option_bind]. destruct m as [[[v n] rest]|]; [|by intros [= <-]].
  cbn [longer_opt fmap option_fmap option_map longer fst snd].
  destruct (read_exponent _ rest) as [[e rest']|] eqn:Ee; cbn [mbind option_bind]; [|done].
  rewrite (read_exponent_app _ _ _ _ t Ee). cbn [mbind option_bind]. case_match. cbn [mbind option_bind]. by intros [= <-].
Qed.
Lemma read_decimal_app neg l r t : read_decimal neg l = Some r -> read_decimal neg (l ++ t) = Some (longer_opt t r).
Proof.
  unfold read_decimal, scaled. destruct (read_mantissa 10 l) as [m|] eqn:E; cbn [mbind option_bind]; [|done].
  rewrite (read_mantissa_app _ _ _ t E). cbn [mbind option_bind]. destruct m as [[[v n] rest]|]; [|by intros [= <-]].
  cbn [longer_opt fmap option_fmap option_map longer fst snd].
  destruct (read_exponent _ rest) as [[e rest']|] eqn:Ee; cbn [mbind option_bind]; [|done].
  rewrite (read_exponent_app _ _ _ _ t Ee). cbn [mbind option_bind]. case_match. cbn [mbind option_bind]. by intros [= <-].
Qed.
Lemma read_unsigned_app neg l r t : read_unsigned neg l = Some r -> read_unsigned neg (l ++ t) = Some (longer_opt t r).
Proof.
  destruct l as [|c l]; [done|]. pose proof (read_decimal_app neg (c :: l) r t) as Hd. cbn [read_unsigned app] in *.
  destruct (c =? 48).
  - destruct l as [|x l]; [done|]. cbn [app] in *. destruct (lower x =? 120); [|exact Hd].
    destruct (read_hex neg l) as [m|] eqn:E; cbn [mbind option_bind]; [|done]. rewrite (read_hex_app _ _ _ t E). cbn [mbind option_bind].
    destruct m as [m|]; [by intros [= <-]|exact Hd].
  - destruct (lower c =? 105); [|destruct (lower c =? 110); [|exact Hd]].
    + destruct (starts_with _ (c :: l)) as [w|] eqn:E; cbn [mbind option_bind]; [|done].
      pose proof (starts_with_app _ _ _ t E) as E1. cbn [app] in E1. rewrite E1. cbn [mbind option_bind].
      destruct w as [rest|]; [|by intros [= <-]]. cbn [fmap option_fmap option_map].
      destruct (starts_with _ rest) as [w|] eqn:E2; cbn [mbind option_bind]; [|done].
      rewrite (starts_with_app _ _ _ t E2). cbn [mbind option_bind]. intros [= <-]. by destruct w.
    + destruct (starts_with _ (c :: l)) as [w|] eqn:E; cbn [mbind option_bind]; [|done].
      pose proof (starts_with_app _ _ _ t E) as E1. cbn [app] in E1. rewrite E1. cbn [mbind option_bind].
      destruct w as [rest|]; [|by intros [= <-]]. cbn [fmap option_fmap option_map].
      destruct rest as [|x word]; [done|]. cbn [app]. destruct (negb (x =? 40)); [by intros [= <-]|].
      destruct (skip_word word) as [w|] eqn:E2; cbn [mbind option_bind]; [|done].
      destruct (skip_word_app _ _ t E2) as [-> Hne]. cbn [mbind option_bind]. destruct w as [|y w]; [done|]. cbn [app].
      intros [= <-]. by destruct (y =? 41).
Qed.
(** A number that is read is read in every longer text. *)
Lemma read_number_app l r t : read_number l = Some r -> read_number (l ++ t) = Some (longer_opt t r).
Proof.
  destruct l as [|c l]; [done|]. pose proof (fun neg => read_unsigned_app neg l r t) as H1.
  pose proof (read_unsigned_app false (c :: l) r t) as H2. cbn [read_number app] in *.
  destruct (c =? 45); [apply H1|]. by destruct (c =? 43); [apply H1|].
Qed.

(** ** Integers survive *)

(** A character that ends a number. *)
Definition is_stop (c : Z) : bool := bool_decide (c ∈ [44; 93; 125; 32; 9; 10; 13]).
Definition is_digit (c : Z) : Prop := 48 <= c <= 57.
Lemma digit_in_10 c : is_digit c -> digit_in 10 c = Some (c - 48).
Proof.
  unfold is_digit, digit_in. intros H. rewrite (proj2 (Z.leb_le 48 c)), (proj2 (Z.leb_le c 57)) by lia. cbn [andb].
  by rewrite (proj2 (Z.ltb_lt _ _)) by lia.
Qed.
Definition dec_value (ds : list Z) (acc : Z) : Z := fold_left (fun a d => a * 10 + (d - 48)) ds acc.
Lemma read_digits_all ds acc n c r : Forall is_digit ds -> digit_in 10 c = None ->
  read_digits 10 (ds ++ c :: r) acc n = Some (dec_value ds acc, (n + length ds)%nat, c :: r).
Proof.
  intros Hd Hc. revert acc n. induction Hd as [|d ds Hx _ IH]; intros acc n; cbn [app read_digits].
  - by rewrite Hc, Nat.add_0_r.
  - rewrite (digit_in_10 d Hx), IH. cbn. do 3 f_equal. lia.
Qed.
Lemma decimal_spec fuel n acc : 0 <= n -> Z.log2 n < Z.of_nat fuel -> exists ds, decimal fuel n acc = ds ++ acc /\
  Forall is_digit ds /\ dec_value ds 0 = n /\ (length ds > 0)%nat.
Proof.
  revert n acc. induction fuel as [|fuel IH]; intros n acc Hn Hf; [pose proof (Z.log2_nonneg n); lia|].
  cbn [decimal]. pose proof (Z.mod_pos_bound n 10 ltac:(lia)). destruct (Z.ltb_spec n 10).
  - exists [48 + n mod 10]. split; [done|]. rewrite Z.mod_small by lia.
    split; [constructor; [unfold is_digit; lia|constructor]|]. split; cbn; lia.
  - assert (Hlog : Z.log2 (n / 10) < Z.of_nat fuel).
    { assert (Z.log2 (n / 10) < Z.log2 n); [|lia]. pose proof (Z.div_str_pos n 10 ltac:(lia)).
      apply Z.log2_lt_pow2; [done|]. pose proof (Z.log2_spec n ltac:(lia)) as [_ Hs]. rewrite Z.pow_succ_r in Hs by apply Z.log2_nonneg.
      apply Z.div_lt_upper_bound; [lia|]. pose proof (Z.pow_pos_nonneg 2 (Z.log2 n) ltac:(lia) (Z.log2_nonneg n)). lia. }
    destruct (IH (n / 10) ((48 + n mod 10) :: acc) ltac:(apply Z.div_pos; lia) Hlog) as (ds & -> & Hd & Hv & Hl).
    exists (ds ++ [48 + n mod 10]). split; [by rewrite <- app_assoc|]. split; [apply Forall_app; split; [done|]; constructor; [unfold is_digit; lia|constructor]|].
    split; [unfold dec_value in *; rewrite fold_left_app, Hv; cbn; pose proof (Z.div_mod n 10); lia|].
    rewrite length_app. lia.
Qed.
Lemma print_nat_spec n : 0 <= n -> Forall is_digit (print_nat n) /\ dec_value (print_nat n) 0 = n /\ (length (print_nat n) > 0)%nat.
Proof.
  intros Hn. unfold print_nat. pose proof (Z.log2_nonneg n).
  destruct (decimal_spec (S (Z.to_nat (Z.log2 n))) n [] Hn ltac:(lia)) as (ds & -> & Hd & Hv & Hl).
  by rewrite app_nil_r.
Qed.
Lemma stop_char c : is_stop c = true -> digit_in 10 c = None /\ (c =? 46) = false /\ (lower c =? 120) = false /\ bool_decide (c ∈ [101; 69]) = false.
Proof.
  unfold is_stop. intros H%bool_decide_eq_true_1. assert (Hall : Forall (fun x => digit_in 10 x = None /\
    (x =? 46) = false /\ (lower x =? 120) = false /\ bool_decide (x ∈ [101; 69]) = false) [44; 93; 125; 32; 9; 10; 13]).
  { repeat (apply Forall_cons_2; [by vm_compute|]). apply Forall_nil_2. }
  rewrite Forall_forall in Hall. by apply Hall.
Qed.
Lemma read_decimal_int neg ds c r : Forall is_digit ds -> (length ds > 0)%nat -> is_stop c = true ->
  read_decimal neg (ds ++ c :: r) = (let '(f, range) := nearest_double (dec_value ds 0) 1 in Some (Some (make_double neg f, range, c :: r))).
Proof.
  intros Hd Hl Hc. destruct (stop_char c Hc) as (H1 & H2 & _ & H3). unfold read_decimal, read_mantissa.
  rewrite read_digits_all by done. cbn [mbind option_bind]. rewrite H2. destruct (Nat.eqb_spec (0 + length ds) 0); [lia|].
  cbn [mbind option_bind]. unfold read_exponent. rewrite H3. cbn [negb mbind option_bind].
  change (10 ^ Z.max 0 (0 - Z.of_nat 0)) with 1. change (10 ^ Z.max 0 (- (0 - Z.of_nat 0))) with 1. rewrite Z.mul_1_r.
  unfold scaled. by destruct (nearest_double _ 1).
Qed.
Lemma read_unsigned_int neg ds c r : Forall is_digit ds -> (length ds > 0)%nat -> is_stop c = true ->
  read_unsigned neg (ds ++ c :: r) = (let '(f, range) := nearest_double (dec_value ds 0) 1 in Some (Some (make_double neg f, range, c :: r))).
Proof.
  intros Hd Hl Hc. rewrite <- (read_decimal_int neg ds c r Hd Hl Hc). destruct (stop_char c Hc) as (_ & _ & H120 & _).
  destruct ds as [|d ds]; [cbn in Hl; lia|]. apply Forall_cons in Hd as [Hd1 Hd]. unfold is_digit in Hd1. cbn [app read_unsigned].
  assert (Hlow : lower d = d) by (unfold lower; by destruct (Z.leb_spec 65 d); [lia|]).
  destruct (Z.eqb_spec d 48) as [->|].
  - destruct ds as [|x ds]; cbn [app]; [by rewrite H120|].
    apply Forall_cons in Hd as [Hx _]. unfold is_digit in Hx.
    assert (Hlx : lower x <> 120) by (unfold lower; destruct (Z.leb_spec 65 x); cbn; lia). by rewrite (proj2 (Z.eqb_neq _ _) Hlx).
  - rewrite Hlow. rewrite (proj2 (Z.eqb_neq d 105)), (proj2 (Z.eqb_neq d 110)) by lia. done.
Qed.

(** An integer of 53 bits and a scale. *)
Lemma nearest_int n m k : 2 ^ 52 <= m < 2 ^ 53 -> -52 <= k <= 971 -> n * 2 ^ Z.max 0 (- k) = m * 2 ^ Z.max 0 k ->
  nearest_double n 1 = (if INF_FIELD <=? (k + 1074) * 2 ^ 52 + m then (INF_FIELD, true) else ((k + 1074) * 2 ^ 52 + m, false)).
Proof.
  intros Hm Hk E. assert (Hp : forall a, 0 < 2 ^ Z.max 0 a) by (intros; apply Z.pow_pos_nonneg; lia).
  pose proof (Hp k). pose proof (Hp (- k)). assert (0 < n) by nia.
  assert (Hn : 2 ^ (52 + k) <= n < 2 ^ (53 + k)).
  { destruct (Z.le_gt_cases 0 k).
    - rewrite (Z.max_l 0 (- k)), (Z.max_r 0 k) in E by lia. rewrite !Z.pow_add_r by lia. change (2 ^ 0) with 1 in E. nia.
    - rewrite (Z.max_r 0 (- k)), (Z.max_l 0 k) in E by lia. change (2 ^ 0) with 1 in E.
      replace (2 ^ 52) with (2 ^ (52 + k) * 2 ^ (- k)) in Hm by (rewrite <- Z.pow_add_r by lia; f_equal; lia).
      replace (2 ^ 53) with (2 ^ (53 + k) * 2 ^ (- k)) in Hm by (rewrite <- Z.pow_add_r by lia; f_equal; lia).
      rewrite (Z.max_r 0 (- k)) in * by lia. nia. }
  assert (Hlog : Z.log2 n = 52 + k) by (apply Z.log2_unique; [lia|]; by replace (Z.succ (52 + k)) with (53 + k) by lia).
  assert (Hu : unit_of n 1 = k).
  { unfold unit_of. rewrite Hlog. change (Z.log2 1) with 0. replace (52 + k - 0 - 52) with k by lia.
    rewrite (Z.max_l 0 (- (k + 52))), (Z.max_r 0 (k + 52)), (Z.add_comm k 52) by lia. change (2 ^ 0) with 1.
    rewrite (proj2 (Z.ltb_ge _ _)); [done|lia]. }
  assert (Hr : round_at n 1 k = (m, true)).
  { unfold round_at. rewrite E, Z.mul_1_l, Z.div_mul, Z.mod_mul by lia.
    cbn [Z.mul]. rewrite (proj2 (Z.ltb_ge _ 0)), (proj2 (Z.eqb_neq 0 _)) by lia. done. }
  unfold nearest_double. rewrite (proj2 (Z.eqb_neq n 0)), Hu, (Z.max_l k), Hr by lia.
  destruct (INF_FIELD <=? _); [done|]. rewrite (proj2 (Z.eqb_neq m (2 ^ 53))) by lia. by rewrite (proj2 (Z.ltb_ge k (-1074))) by lia.
Qed.
Lemma double_fields b : 0 <= b < 2 ^ 64 -> b = make_double (double_sign b) (double_exponent b * 2 ^ 52 + double_fraction b) /\
  0 <= double_exponent b < 2048 /\ 0 <= double_fraction b < 2 ^ 52.
Proof.
  intros Hb. unfold make_double, double_sign, double_exponent, double_fraction.
  change (2 ^ 52 - 1) with (Z.ones 52). change 0x7FF with (Z.ones 11).
  rewrite Z.testbit_odd, !Z.land_ones, !Z.shiftr_div_pow2 by lia.
  pose proof (Z.mod_pos_bound (b / 2 ^ 52) (2 ^ 11) ltac:(done)). pose proof (Z.mod_pos_bound b (2 ^ 52) ltac:(done)).
  change 2048 with (2 ^ 11). split; [|by split].
  pose proof (Z.div_mod b (2 ^ 52) ltac:(done)) as E1. pose proof (Z.div_mod (b / 2 ^ 52) (2 ^ 11) ltac:(done)) as E2.
  rewrite Z.div_div in E2 by done. change (2 ^ 52 * 2 ^ 11) with (2 ^ 63) in E2.
  assert (Hq : b / 2 ^ 63 = 0 \/ b / 2 ^ 63 = 1) by (Z.div_mod_to_equations; lia).
  destruct Hq as [Hq|Hq]; rewrite Hq in *; cbn [Z.odd]; lia.
Qed.
(** The value of an integral double. *)
Lemma integral_value b : 0 <= b < 2 ^ 64 -> is_nan b = false -> is_inf b = false -> is_integral b = true ->
  let a := Z.shiftl (double_mantissa b) (double_scale b) in 0 <= a /\
  nearest_double a 1 = (double_exponent b * 2 ^ 52 + double_fraction b, false) /\ (a = 0 -> b = 0 \/ b = 2 ^ 63).
Proof.
  intros Hb Hnan Hinf Hi a. assert (Ea : a = Z.shiftl (double_mantissa b) (double_scale b)) by done. clearbody a. destruct (double_fields b Hb) as (Eb & He & Hf). unfold is_integral in Hi. rewrite Hnan, Hinf in Hi.
  assert (He' : double_exponent b <> 0x7FF).
  { intros E. unfold is_nan, is_inf in *. rewrite E in *. cbn [Z.eqb Pos.eqb andb] in *. by rewrite Hinf in Hnan. }
  apply orb_prop in Hi. unfold double_mantissa, double_scale in *.
  set (x := double_exponent b) in *. set (f := double_fraction b) in *. destruct (Z.eqb_spec x 0) as [E0|E0].
  - rewrite E0 in *. cbn [Z.max Z.compare Z.sub Z.opp Z.add] in *.
    assert (Hf0 : f = 0).
    { destruct Hi as [Hi|Hi]; [done|]. apply Z.eqb_eq in Hi. rewrite Z.mod_small in Hi; [done|]. split; [lia|].
      eapply Z.lt_le_trans; [apply Hf|]. apply Z.pow_le_mono_r; lia. }
    rewrite Ea, Hf0, Z.shiftl_0_l. split; [done|]. split; [done|]. intros _. rewrite Eb, Hf0. unfold make_double. case_match; [by right|by left].
  - rewrite Z.max_l in * by lia. set (k := x - 1075) in *. set (m := 2 ^ 52 + f) in *.
    assert (Ek : k = x - 1075) by done. assert (Em : m = 2 ^ 52 + f) by done. assert (Hm : 2 ^ 52 <= m < 2 ^ 53) by lia.
    clearbody k m.
    assert (Hk : -52 <= k <= 971).
    { split; [|lia]. destruct (Z.le_gt_cases (-52) k) as [|Hlt]; [done|]. exfalso.
      destruct Hi as [Hi|Hi]; [apply Z.leb_le in Hi; lia|]. apply Z.eqb_eq in Hi. rewrite Z.mod_small in Hi; [lia|]. split; [lia|].
      apply Z.lt_le_trans with (2 ^ 53); [lia|]. apply Z.pow_le_mono_r; lia. }
    assert (E : a * 2 ^ Z.max 0 (- k) = m * 2 ^ Z.max 0 k).
    { rewrite Ea. destruct (Z.le_gt_cases 0 k).
      - rewrite Z.shiftl_mul_pow2, (Z.max_l 0 (- k)), (Z.max_r 0 k) by lia. change (2 ^ 0) with 1. lia.
      - rewrite Z.shiftl_div_pow2, (Z.max_r 0 (- k)), (Z.max_l 0 k) by lia. change (2 ^ 0) with 1.
        destruct Hi as [Hi|Hi]; [apply Z.leb_le in Hi; lia|]. apply Z.eqb_eq in Hi.
        pose proof (Z.div_mod m (2 ^ (- k)) ltac:(apply Z.pow_nonzero; lia)). lia. }
    split; [rewrite Ea; apply Z.shiftl_nonneg; lia|]. rewrite (nearest_int a m k) by (done || lia).
    replace ((k + 1074) * 2 ^ 52 + m) with (x * 2 ^ 52 + f) by lia.
    rewrite (proj2 (Z.leb_gt _ _)) by (unfold INF_FIELD; lia). split; [done|]. intros Ha. exfalso. rewrite Ha in E.
    pose proof (Z.pow_pos_nonneg 2 (Z.max 0 k) ltac:(lia) ltac:(lia)). lia.
Qed.
(** An integral double within 64 bits that is not the negative zero is read back
    from its decimal digits. *)
Lemma integral_survives b n c r : 0 <= b < 2 ^ 64 -> is_integral b = true -> int64_of_double b = Some n -> b <> 2 ^ 63 ->
  is_stop c = true -> read_number (print_int n ++ c :: r) = Some (Some (b, false, c :: r)).
Proof.
  intros Hb Hi Hn Hz Hc. unfold int64_of_double in Hn. destruct (is_nan b || is_inf b) eqn:Hfin; [done|].
  apply orb_false_iff in Hfin as [Hnan Hinf]. destruct (integral_value b Hb Hnan Hinf Hi) as (Ha & Hd & H0). cbv zeta in *.
  set (a := Z.shiftl (double_mantissa b) (double_scale b)) in *. destruct (_ && _); [|done]. injection Hn as <-.
  destruct (double_fields b Hb) as (Eb & _). destruct (print_nat_spec a Ha) as (Hp & Hv & Hl).
  pose proof (fun neg => read_unsigned_int neg _ c r Hp Hl Hc) as Hu. rewrite Hv, Hd in Hu.
  unfold print_int. destruct (double_sign b); cbn [signed].
  - destruct (decide (a = 0)) as [E|E]; [destruct (H0 E) as [->|]; done|]. rewrite (proj2 (Z.ltb_lt _ 0)) by lia.
    rewrite Z.opp_involutive. cbn [app read_number Z.eqb Pos.eqb]. by rewrite Hu, <- Eb.
  - rewrite (proj2 (Z.ltb_ge a 0)) by lia. destruct (print_nat a) as [|d ds] eqn:Ep; [cbn in Hl; lia|].
    apply Forall_cons in Hp as [Hdig _]. unfold is_digit in Hdig. cbn [app read_number].
    rewrite (proj2 (Z.eqb_neq d 45)), (proj2 (Z.eqb_neq d 43)) by lia. change (d :: ds ++ c :: r) with ((d :: ds) ++ c :: r). by rewrite Hu, <- Eb.
Qed.

(** ** The text at an address *)

Lemma region_size m p l : region m p l -> (length l <= size m)%nat.
Proof.
  intros [_ H]. rewrite <- size_dom. transitivity (size (list_to_set (seqZ p (Zlen l)) : gset Z)).
  - rewrite size_list_to_set by apply NoDup_seqZ. rewrite length_seqZ. unfold Zlen. lia.
  - apply subseteq_size. intros x Hx. apply elem_of_list_to_set, elem_of_seqZ in Hx. apply elem_of_dom.
    replace x with (p + (x - p)) by lia. rewrite H by lia. eauto.
Qed.
Lemma octets_from_region n m p l : region m p l -> (length l <= n)%nat -> exists r, octets_from n m p = l ++ r.
Proof.
  revert p l. induction n as [|n IH]; intros p l Hm Hl.
  - destruct l; [|cbn in Hl; lia]. by exists [].
  - destruct l as [|c l]; [by eexists|]. cbn [octets_from]. rewrite (load8_at_0 m p c l Hm).
    destruct (IH (p + 1) l) as [r ->]; [by eapply (region_app_r m p (p + 1) [c])|cbn in Hl; lia|]. by exists r.
Qed.
Lemma text_at_region m p l : region m p l -> exists r, text_at m p = l ++ r.
Proof. intros Hm. apply octets_from_region; [done|by eapply region_size]. Qed.
(** A number with what follows it. *)
Lemma strtod_spec m p l s b rest : region m p l -> l = s ++ rest -> read_number l = Some (Some (b, false, rest)) ->
  strtod m p = Some (b, p + Zlen s, false).
Proof.
  intros Hm El Hr. unfold strtod. destruct (text_at_region m p l Hm) as [r ->]. rewrite (read_number_app _ _ r Hr). cbn [mbind option_bind].
  cbn [longer_opt fmap option_fmap option_map longer fst snd]. subst l. do 3 f_equal. rewrite !Zlen_app. lia.
Qed.

(** ** The texts of numbers are octets *)

Lemma is_digit_byte l : Forall is_digit l -> bytes l.
Proof. intros H. eapply Forall_impl; [exact H|]. unfold is_digit, is_byte. lia. Qed.
Lemma print_nat_bytes n : 0 <= n -> bytes (print_nat n) /\ print_nat n <> [].
Proof.
  intros Hn. destruct (print_nat_spec n Hn) as (Hd & _ & Hl). split; [by apply is_digit_byte|]. intros E. rewrite E in Hl. cbn in Hl. lia.
Qed.
Lemma print_int_bytes n : bytes (print_int n) /\ print_int n <> [].
Proof.
  unfold print_int. destruct (Z.ltb_spec n 0).
  - split; [|done]. apply bytes_cons. split; [unfold is_byte; lia|]. apply print_nat_bytes. lia.
  - by apply print_nat_bytes.
Qed.
Lemma strip_zeros_bytes l : bytes l -> bytes (strip_zeros l).
Proof.
  intros H. unfold strip_zeros. apply Forall_reverse. apply Forall_reverse in H.
  induction H as [|c r Hc Hr IH]; [constructor|]. destruct (c =? 48); [done|]. by constructor.
Qed.
Lemma with_point_bytes l r : bytes l -> bytes r -> l <> [] -> bytes (with_point l r) /\ with_point l r <> [].
Proof.
  intros Hl Hr Hn. unfold with_point. apply strip_zeros_bytes in Hr. destruct (strip_zeros r); [done|]. split.
  - apply bytes_app. split; [done|]. apply bytes_cons. split; [unfold is_byte; lia|done].
  - by destruct l.
Qed.
Lemma digits15_nonneg num den : 0 <= num -> 0 < den -> 0 <= (digits15 num den).1.
Proof.
  intros Hn Hd. unfold digits15. set (x := if den <=? num then _ else _).
  assert (Hq : 0 <= num * 10 ^ Z.max 0 (14 - x) / (den * 10 ^ Z.max 0 (- (14 - x)))).
  { apply Z.div_pos; [apply Z.mul_nonneg_nonneg; [done|apply Z.pow_nonneg; lia]|]. apply Z.mul_pos_pos; [done|]. apply Z.pow_pos_nonneg; lia. }
  destruct (_ || _); destruct (_ =? 10 ^ 15); cbn [fst]; lia.
Qed.
Lemma print_g_bytes b : 0 <= b < 2 ^ 64 -> bytes (print_g b) /\ print_g b <> [].
Proof.
  intros Hb. unfold print_g. set (neg := if double_sign b then [45] else []).
  assert (Hneg : forall l, bytes l /\ l <> [] -> bytes (neg ++ l) /\ neg ++ l <> []).
  { intros l [Hl Hn]. split; [|by unfold neg; destruct (double_sign b)]. apply bytes_app. split; [|done].
    unfold neg. destruct (double_sign b); repeat constructor; unfold is_byte; lia. }
  assert (H48 : bytes [48]) by (repeat constructor; unfold is_byte; lia).
  destruct (is_nan b); [apply Hneg; split; [|done]; repeat constructor; unfold is_byte; lia|].
  destruct (is_inf b); [apply Hneg; split; [|done]; repeat constructor; unfold is_byte; lia|].
  destruct (_ =? 0); [by apply Hneg|].
  assert (Hm : 0 <= double_mantissa b) by (destruct (double_fields b Hb) as (_ & _ & ?); unfold double_mantissa; destruct (_ =? 0); lia).
  pose proof (digits15_nonneg (double_mantissa b * 2 ^ Z.max 0 (double_scale b)) (2 ^ Z.max 0 (- double_scale b))) as Hq.
  destruct (digits15 _ _) as [q x]. cbn [fst] in Hq.
  destruct (print_nat_bytes q) as [Hd Hn]; [apply Hq; [apply Z.mul_nonneg_nonneg; [done|apply Z.pow_nonneg; lia]|apply Z.pow_pos_nonneg; lia]|].
  assert (Htake : forall n, take (S n) (print_nat q) <> []) by (intros n; by destruct (print_nat q)).
  destruct (_ || _); [|destruct (Z.leb_spec 0 x)]; apply Hneg.
  - destruct (with_point_bytes (take 1 (print_nat q)) (drop 1 (print_nat q))) as [Hp Hpn]; [by apply Forall_take|by apply Forall_drop|apply Htake|].
    split; [|by destruct (with_point _ _)]. apply bytes_app. split; [done|]. unfold print_exponent. destruct (print_nat_bytes (Z.abs x)) as [Ha _]; [lia|].
    apply bytes_cons. split; [unfold is_byte; lia|]. apply bytes_cons. split; [destruct (x <? 0); unfold is_byte; lia|].
    destruct (_ <? 10); [|done]. apply bytes_cons. split; [unfold is_byte; lia|done].
  - apply with_point_bytes; [by apply Forall_take|by apply Forall_drop|]. replace (Z.to_nat (x + 1)) with (S (Z.to_nat x)) by lia. apply Htake.
  - apply with_point_bytes; [done| |done]. apply bytes_app. split; [|done]. apply Forall_replicate. unfold is_byte. lia.
Qed.
