(* ===== verification/JsonGrammar.v ===== *)
(** * The grammar of JSON texts (src/lib/ov_base/src/json/ov_json_grammar.c)

    Texts are octets in memory; an octet that is not mapped cannot be read. A
    function that moves a pointer of its caller returns the new pointer, and a
    function that fails gives [None] for it ([Some None] with the first [option],
    which stands for undefined behaviour). [turns_of] bounds the loops that move a
    pointer: a pointer does not move over more octets than there are. *)
From S2P Require Import Prelude CMem Utf8 JsonNumber.

Definition turns_of (m : mem) : nat := S (size m).

(** ** The code: strings, arrays and objects *)

Definition ov_json_is_whitespace (byte : Z) : bool :=
  (byte =? 0x20) || (byte =? 0x09) || (byte =? 0x0A) || (byte =? 0x0D).
Definition is_escape (c : Z) : bool := bool_decide (c ∈ [0x22; 0x5C; 0x2F; 0x62; 0x66; 0x6E; 0x72; 0x74]).
Fixpoint validate_loop (fuel : nat) (m : mem) (buffer check size : Z) : option bool :=
  match fuel with
  | O => None
  | S fuel =>
      if negb (check <? size) then Some true else
      c ← load8 m (buffer + check);
      if c =? 0x5C then
        if check =? size - 1 then Some false else
        d ← load8 m (buffer + check + 1);
        if is_escape d then if size <? check + 2 then Some false else validate_loop fuel m buffer (check + 2) size
        else if d =? 0x75 then if size <? check + 6 then Some false else validate_loop fuel m buffer (check + 6) size
        else Some false
      else if c <? 0x1F then Some false
      else if c =? 0x22 then Some false
      else validate_loop fuel m buffer (check + 1) size
  end.
Definition ov_json_validate_string (m : mem) (buffer size : Z) (quotes : bool) : option bool :=
  if (buffer =? NULL) || (size <? 1) then Some false else
  valid ← ov_utf8_validate_sequence m buffer size;
  if negb valid then Some false else
  let fuel := S (Z.to_nat size) in
  if negb quotes then validate_loop fuel m buffer 0 size else
  if size <? 2 then Some false else
  first ← load8 m buffer;
  if negb (first =? 0x22) then Some false else
  last ← load8 m (buffer + size - 1);
  if negb (last =? 0x22) then Some false else
  validate_loop fuel m buffer 1 (size - 1).

(** To the first octet that is no blank, with the size that is left. *)
Fixpoint skip_blanks (fuel : nat) (m : mem) (ptr size : Z) : option (option (Z * Z)) :=
  match fuel with
  | O => None
  | S fuel =>
      c ← load8 m ptr;
      if ov_json_is_whitespace c then if size <? 1 then Some None else skip_blanks fuel m (ptr + 1) (size - 1)
      else Some (Some (ptr, size))
  end.
(** To a quotation mark without a backslash before it, or to the last octet. *)
Fixpoint find_quote (fuel : nat) (m : mem) (ptr size : Z) : option Z :=
  match fuel with
  | O => None
  | S fuel =>
      if negb (1 <? size) then Some ptr else
      c ← load8 m ptr;
      if c =? 0x22 then
        d ← load8 m (ptr - 1); if negb (d =? 0x5C) then Some ptr else find_quote fuel m (ptr + 1) (size - 1)
      else find_quote fuel m (ptr + 1) (size - 1)
  end.
(** [*start] and [*end] on success. *)
Definition ov_json_match_string (m : mem) (start size : Z) : option (option (Z * Z)) :=
  if size <? 2 then Some None else
  if start =? NULL then Some None else
  p ← skip_blanks (turns_of m) m start size;
  match p with
  | None => Some None
  | Some (ptr, size) =>
      if size <? 2 then Some None else
      c ← load8 m ptr;
      if negb (c =? 0x22) then Some None else
      let size := size - 1 in let ptr := ptr + 1 in
      let start := ptr in
      ptr ← find_quote (turns_of m) m ptr size;
      c ← load8 m ptr;
      if negb (c =? 0x22) then Some None else
      let end_ := ptr - 1 in
      if end_ - start <? 0 then Some None else
      valid ← ov_json_validate_string m start (end_ - start + 1) false;
      Some (if (valid : bool) then Some (start, end_) else None)
  end.

(** The loop of [ov_json_clear_whitespace]. *)
Fixpoint clear_loop (fuel : nat) (m : mem) (ptr len : Z) : option (Z * Z) :=
  match fuel with
  | O => None
  | S fuel =>
      c ← load8 m ptr;
      if negb (ov_json_is_whitespace c) then Some (ptr, len) else
      let ptr := ptr + 1 in let len := len - 1 in
      if len =? 0 then Some (ptr, len) else clear_loop fuel m ptr len
  end.
(** [*buffer] and [*length]; it does not fail. *)
Definition ov_json_clear_whitespace (m : mem) (buffer length : Z) : option (Z * Z) :=
  if length <? 1 then Some (buffer, length) else clear_loop (turns_of m) m buffer length.

(** To the bracket that closes, with the number of brackets that are open. *)
Fixpoint scan_brackets (fuel : nat) (opening closing : Z) (m : mem) (ptr size child_open : Z) : option (Z * Z) :=
  match fuel with
  | O => None
  | S fuel =>
      if negb (1 <? size) then Some (ptr, child_open) else
      c ← load8 m ptr;
      if c =? opening then scan_brackets fuel opening closing m (ptr + 1) (size - 1) (child_open + 1) else
      if c =? closing then
        if child_open =? 0 then Some (ptr, child_open)
        else scan_brackets fuel opening closing m (ptr + 1) (size - 1) (child_open - 1)
      else scan_brackets fuel opening closing m (ptr + 1) (size - 1) child_open
  end.
Definition match_brackets (opening closing : Z) (m : mem) (start size : Z) : option (option (Z * Z)) :=
  if size <? 2 then Some None else
  if start =? NULL then Some None else
  p ← skip_blanks (turns_of m) m start size;
  match p with
  | None => Some None
  | Some (ptr, size) =>
      c ← load8 m ptr;
      if negb (c =? opening) then Some None else
      let ptr := ptr + 1 in let size := u64 (size - 1) in
      let start := ptr in
      '(ptr, child_open) ← scan_brackets (turns_of m) opening closing m ptr size 0;
      c ← load8 m ptr;
      if negb (c =? closing) then Some None else
      if negb (child_open =? 0) then Some None else
      Some (Some (start, ptr - 1))
  end.
Definition ov_json_match_array (m : mem) (start size : Z) : option (option (Z * Z)) := match_brackets 0x5B 0x5D m start size.
Definition ov_json_match_object (m : mem) (start size : Z) : option (option (Z * Z)) := match_brackets 0x7B 0x7D m start size.

(** ** The code: matching a stream *)

(** [strncmp(ptr, word, n) == 0] for a word without NUL. *)
Fixpoint strncmp_equal (m : mem) (ptr : Z) (word : list Z) (n : nat) : option bool :=
  match n, word with
  | O, _ | _, [] => Some true
  | S n, w :: word => c ← load8 m ptr; if c =? w then strncmp_equal m (ptr + 1) word n else Some false
  end.
Definition NULL_TEXT : list Z := [0x6E; 0x75; 0x6C; 0x6C].
Definition TRUE_TEXT : list Z := [0x74; 0x72; 0x75; 0x65].
Definition FALSE_TEXT : list Z := [0x66; 0x61; 0x6C; 0x73; 0x65].

Record json_counter := { objects : Z; arrays : Z }.
Definition count_objects (c : json_counter) (n : Z) : json_counter := {| objects := objects c + n; arrays := arrays c |}.
Definition count_arrays (c : json_counter) (n : Z) : json_counter := {| objects := objects c; arrays := arrays c + n |}.

(** [*next], nothing on failure. *)
Definition match_string (m : mem) (ptr size : Z) : option (option Z) :=
  if (ptr =? NULL) || (size <? 1) then Some None else
  c ← load8 m ptr;
  if negb (c =? 0x22) then Some None else
  let size := size - 1 in
  if size =? 0 then Some (Some (ptr + 1)) else
  nxt ← find_quote (turns_of m) m (ptr + 1) size;
  c ← load8 m nxt;
  if c =? 0x22 then
    valid ← ov_json_validate_string m ptr (nxt - ptr + 1) true; Some (if (valid : bool) then Some (nxt + 1) else None)
  else Some (Some (nxt + 1)).
Definition match_literal (m : mem) (ptr size : Z) : option (option Z) :=
  if (ptr =? NULL) || (size <? 1) then Some None else
  c ← load8 m ptr;
  let word := if c =? 0x6E then NULL_TEXT else if c =? 0x74 then TRUE_TEXT else if c =? 0x66 then FALSE_TEXT else [] in
  if (length word =? 0)%nat then Some None else
  let size := Z.min size (Zlen word) in
  equal ← strncmp_equal m ptr word (Z.to_nat size);
  Some (if (equal : bool) then Some (ptr + size) else None).
Definition starts_number (c : Z) : bool := (c =? 45) || ((48 <=? c) && (c <=? 57)).
Definition match_number (m : mem) (ptr size : Z) : option (option Z) :=
  if (ptr =? NULL) || (size <? 1) then Some None else
  c ← load8 m ptr;
  if negb (starts_number c) then Some None else
  '(_, next, range) ← strtod m ptr;
  if (range : bool) then Some None else
  Some (Some (if size <? next - ptr then ptr + size else next)).

(** Blanks before a value are skipped without a bound. *)
Fixpoint skip_unbounded (fuel : nat) (m : mem) (next length : Z) : option (Z * Z) :=
  match fuel with
  | O => None
  | S fuel =>
      c ← load8 m next;
      if ov_json_is_whitespace c then skip_unbounded fuel m (next + 1) (length - 1) else Some (next, length)
  end.
(** Blanks are skipped until nothing is left. *)
Fixpoint skip_bounded (fuel : nat) (m : mem) (next length : Z) : option (Z * Z) :=
  match fuel with
  | O => None
  | S fuel =>
      c ← load8 m next;
      if negb (ov_json_is_whitespace c) then Some (next, length) else
      if length - 1 <? 1 then Some (next + 1, length - 1) else skip_bounded fuel m (next + 1) (length - 1)
  end.

Abbreviation matched := (option (option (Z * json_counter))).
Section matching.
Context (m : mem) (match_value : Z -> Z -> json_counter -> matched).

Fixpoint object_loop (fuel : nat) (start size next length : Z) (counter : json_counter) : matched :=
  match fuel with
  | O => None
  | S fuel =>
      if length <? 1 then Some (Some (next, counter)) else
      '(next, length) ← skip_bounded (turns_of m) m next length;
      if length <? 1 then Some (Some (next, counter)) else
      s ← match_string m next length;
      match s with
      | None => Some None
      | Some next =>
          let length := size - (next - start) in
          if length <? 1 then Some (Some (next, counter)) else
          '(next, length) ← skip_bounded (turns_of m) m next length;
          if length <? 1 then Some (Some (next, counter)) else
          c ← load8 m next;
          if negb (c =? 0x3A) then Some None else
          let next := next + 1 in let length := length - 1 in
          if length <? 1 then Some (Some (next, counter)) else
          v ← match_value next length counter;
          match v with
          | None => Some None
          | Some (next, counter) =>
              let length := size - (next - start) in
              if length <? 1 then Some (Some (next, counter)) else
              '(next, length) ← skip_bounded (turns_of m) m next length;
              if length <? 1 then Some (Some (next, counter)) else
              c ← load8 m next;
              if c =? 0x2C then object_loop fuel start size (next + 1) (length - 1) counter else
              if c =? 0x7D then Some (Some (next + 1, count_objects counter (-1))) else
              if c =? 0x7B then if length =? 1 then Some (Some (next, counter)) else object_loop fuel start size next length counter else
              if c =? 0x5B then if (length =? 1) && (0 <? objects counter) then Some (Some (next, counter)) else object_loop fuel start size next length counter
              else Some None
          end
      end
  end.
Definition match_object (start size : Z) (counter : json_counter) : matched :=
  if (start =? NULL) || (size <? 1) then Some None else
  c ← load8 m start;
  if negb (c =? 0x7B) then Some None else
  let counter := count_objects counter 1 in
  if size =? 1 then Some (Some (start, counter)) else
  '(next, length) ← skip_bounded (turns_of m) m (start + 1) (size - 1);
  if length <? 1 then Some (Some (next, counter)) else
  c ← load8 m next;
  if c =? 0x7D then Some (Some (next + 1, count_objects counter (-1))) else
  object_loop (turns_of m) start size next length counter.

Fixpoint array_loop (fuel : nat) (start size next length : Z) (counter : json_counter) : matched :=
  match fuel with
  | O => None
  | S fuel =>
      if length <? 1 then Some (Some (next, counter)) else
      v ← match_value next length counter;
      match v with
      | None => Some None
      | Some (next, counter) =>
          let length := size - (next - start) in
          if length <? 1 then Some (Some (next, counter)) else
          '(next, _) ← skip_unbounded (turns_of m) m next length;
          let length := size - (next - start) in
          if length <? 1 then Some (Some (next, counter)) else
          c ← load8 m next;
          if c =? 0x2C then array_loop fuel start size (next + 1) (length - 1) counter else
          if c =? 0x5D then Some (Some (next + 1, count_arrays counter (-1))) else
          if c =? 0x5B then if length =? 1 then Some (Some (next, counter)) else array_loop fuel start size next length counter else
          if c =? 0x7B then if (length =? 1) && (0 <? arrays counter) then Some (Some (next, counter)) else array_loop fuel start size next length counter
          else Some None
      end
  end.
Definition match_array (start size : Z) (counter : json_counter) : matched :=
  if (start =? NULL) || (size <? 1) then Some None else
  c ← load8 m start;
  if negb (c =? 0x5B) then Some None else
  let counter := count_arrays counter 1 in
  if size =? 1 then Some (Some (start, counter)) else
  '(next, length) ← skip_bounded (turns_of m) m (start + 1) (size - 1);
  if length <? 1 then Some (Some (next, counter)) else
  c ← load8 m next;
  if c =? 0x5D then Some (Some (next + 1, count_arrays counter (-1))) else
  array_loop (turns_of m) start size next length counter.
End matching.
Fixpoint match_value (fuel : nat) (m : mem) (ptr size : Z) (counter : json_counter) : matched :=
  match fuel with
  | O => None
  | S fuel =>
      if (ptr =? NULL) || (size <? 1) then Some None else
      '(next, length) ← skip_unbounded (turns_of m) m ptr size;
      if length <? 1 then Some (Some (next, counter)) else
      c ← load8 m next;
      let leaf r := n ← r; Some (match n with Some next => Some (next, counter) | None => None end) in
      if c =? 0x7B then match_object m (match_value fuel m) next length counter else
      if c =? 0x5B then match_array m (match_value fuel m) next length counter else
      if c =? 0x22 then leaf (match_string m next length) else
      if (c =? 0x6E) || (c =? 0x74) || (c =? 0x66) then leaf (match_literal m next length) else
      if starts_number c then leaf (match_number m next length) else Some None
  end.
(** The loop of [ov_json_match]: [last] is the last octet of the first value. *)
Fixpoint match_all (fuel : nat) (m : mem) (start size next length last : Z) (counter : json_counter)
    : option (option (Z * Z * Z * json_counter)) :=
  match fuel with
  | O => None
  | S fuel =>
      if length <? 1 then Some (Some (next, length, last, counter)) else
      let ptr := next in
      v ← match_value (turns_of m) m ptr length counter;
      match v with
      | None => Some None
      | Some (next, counter) =>
          let length := size - (next - start) in
          let last := if (last =? NULL) && negb (ptr =? next) then next - 1 else last in
          if ptr =? next then Some (Some (next, length, last, counter)) else
          '(next, length) ← ov_json_clear_whitespace m next length;
          match_all fuel m start size next length last counter
      end
  end.
(** Whether it matches, and [*last_of_first]. *)
Definition ov_json_match (m : mem) (start size : Z) (incomplete : bool) : option (bool * Z) :=
  if (start =? NULL) || (size <? 1) then Some (false, NULL) else
  r ← match_all (turns_of m) m start size start size NULL {| objects := 0; arrays := 0 |};
  match r with
  | None => Some (false, NULL)
  | Some (next, length, last, counter) =>
      if incomplete then Some (true, last) else
      if negb (length =? 0) then Some (false, last) else
      if negb (objects counter =? 0) || negb (arrays counter =? 0)
      then Some (false, if negb (last =? NULL) && (last =? next - 1) then NULL else last)
      else Some (true, last)
  end.
