(* ===== verification/JsonValue.v ===== *)
(** * JSON values (src/lib/ov_base/src/json)

    Values are nodes of a heap that point to their parent: objects hold a
    dictionary of pointers to values (ov_json_object.c), arrays a list
    (ov_json_array.c), strings a C string or [NULL] (ov_json_string.c), numbers
    the bits of a double; the literals are in ov_json_literal.c, what all values
    share in ov_json_value.c. An access to a node that does not exist, or no more,
    is [None]. Allocation never fails. A key is never [NULL].

    Freeing and copying walk down the tree; the fuel is one more than the number
    of nodes ([turns]), which is enough because no node is on a path twice. *)
From S2P Require Import Prelude Hashtable OvList Dict.

(** ** The code: nodes *)

Inductive ov_json_t :=
  | OV_JSON_OBJECT (data : ov_dict) | OV_JSON_ARRAY (data : list Z) | OV_JSON_STRING (start : option string)
  | OV_JSON_NUMBER (bits : Z) | OV_JSON_NULL | OV_JSON_TRUE | OV_JSON_FALSE.
Record ov_json_value := { type : ov_json_t; parent : Z }.
Abbreviation json_heap := (gmap Z ov_json_value).

Definition jload (h : json_heap) (p : Z) : option ov_json_value := if p =? 0 then None else h !! p.
Definition set_type (h : json_heap) (p : Z) (t : ov_json_t) : option json_heap :=
  v ← jload h p; Some (<[p := {| type := t; parent := parent v |}]> h).
Definition set_parent (h : json_heap) (p q : Z) : option json_heap :=
  v ← jload h p; Some (<[p := {| type := type v; parent := q |}]> h).
Definition turns (h : json_heap) : nat := S (size h).

(** The type is checked with the magic byte: the node is read. *)
Definition ov_json_value_cast (h : json_heap) (p : Z) : option Z :=
  if p =? 0 then Some 0 else _ ← jload h p; Some p.
(** [AS_JSON_OBJECT], with the dictionary. *)
Definition AS_JSON_OBJECT (h : json_heap) (p : Z) : option (option ov_dict) :=
  if p =? 0 then Some None else
  v ← jload h p; Some (match type v with OV_JSON_OBJECT d => Some d | _ => None end).
Definition AS_JSON_ARRAY (h : json_heap) (p : Z) : option (option (list Z)) :=
  if p =? 0 then Some None else
  v ← jload h p; Some (match type v with OV_JSON_ARRAY l => Some l | _ => None end).

Definition new_value (h : json_heap) (t : ov_json_t) : Z * json_heap :=
  (fresh_key h, <[fresh_key h := {| type := t; parent := 0 |}]> h).
Definition DEFAULT_DICT_KEYS : nat := 100.
Definition json_dict_config : nat := ov_dict_string_key_config DEFAULT_DICT_KEYS.
Definition ov_json_object (h : json_heap) : option (Z * json_heap) :=
  d ← ov_dict_create json_dict_config; Some (new_value h (OV_JSON_OBJECT d)).
Definition ov_json_array (h : json_heap) : Z * json_heap := new_value h (OV_JSON_ARRAY []).
Definition ov_json_string (h : json_heap) (content : option string) : Z * json_heap :=
  new_value h (OV_JSON_STRING content).
Definition ov_json_number (h : json_heap) (bits : Z) : Z * json_heap := new_value h (OV_JSON_NUMBER bits).
Definition ov_json_true (h : json_heap) : Z * json_heap := new_value h OV_JSON_TRUE.
Definition ov_json_false (h : json_heap) : Z * json_heap := new_value h OV_JSON_FALSE.
Definition ov_json_null (h : json_heap) : Z * json_heap := new_value h OV_JSON_NULL.
Definition ov_json_bool (h : json_heap) (bval : bool) : Z * json_heap :=
  if bval then ov_json_true h else ov_json_false h.

Definition ov_json_is_object (h : json_heap) (p : Z) : option bool :=
  o ← AS_JSON_OBJECT h p; Some (match o with Some _ => true | None => false end).
Definition ov_json_is_true (h : json_heap) (p : Z) : option bool :=
  if p =? 0 then Some false else v ← jload h p; Some (match type v with OV_JSON_TRUE => true | _ => false end).
Definition ov_json_is_false (h : json_heap) (p : Z) : option bool :=
  if p =? 0 then Some false else v ← jload h p; Some (match type v with OV_JSON_FALSE => true | _ => false end).
Definition ov_json_string_get (h : json_heap) (p : Z) : option (option string) :=
  if p =? 0 then Some None else
  v ← jload h p; Some (match type v with OV_JSON_STRING s => s | _ => None end).

(** ** The code: parents *)

Definition ov_json_value_set_parent (h : json_heap) (value parent_ : Z) : option (bool * json_heap) :=
  if (value =? 0) || (parent_ =? 0) then Some (false, h) else
  v ← jload h value;
  if negb (parent v =? 0) && negb (parent v =? parent_) then Some (false, h) else
  p ← jload h parent_;
  match type p with
  | OV_JSON_OBJECT _ | OV_JSON_ARRAY _ => h ← set_parent h value parent_; Some (true, h)
  | _ => Some (false, h)
  end.

(** The keys that lead to the child are removed, the last one first. *)
Fixpoint remove_keys (h : json_heap) (self : Z) (keys : list string) : option json_heap :=
  match keys with
  | [] => Some h
  | key :: keys =>
      o ← AS_JSON_OBJECT h self;
      d ← o;
      '(val, d) ← impl_dict_remove d key;
      h ← set_type h self (OV_JSON_OBJECT d);
      h ← (if val =? 0 then Some h else set_parent h val 0);
      remove_keys h self keys
  end.
Definition impl_json_object_remove_child (h : json_heap) (self child : Z) : option (bool * json_heap) :=
  if self =? 0 then Some (false, h) else
  if child =? 0 then Some (true, h) else
  o ← AS_JSON_OBJECT h self;
  match o with
  | None => Some (false, h)
  | Some d =>
      c ← jload h child;
      if negb (parent c =? 0) && negb (parent c =? self) then Some (false, h) else
      keys ← impl_dict_get_keys d child;
      h ← remove_keys h self (reverse keys);
      h ← set_parent h child 0;
      Some (true, h)
  end.
Definition ov_json_object_remove_child (h : json_heap) (object child : Z) : option (bool * json_heap) :=
  o ← AS_JSON_OBJECT h object;
  match o with None => Some (false, h) | Some _ =>
  if child =? 0 then Some (false, h) else impl_json_object_remove_child h object child end.
(** [ov_list_remove_if_included] of ov_list.c. *)
Definition ov_list_remove_if_included (list : list Z) (item : Z) : bool * Datatypes.list Z :=
  if (item =? 0) || (length list =? 0)%nat then (true, list) else
  let pos := list_get_pos list item in
  if (pos =? 0)%nat then (true, list) else
  let '(removed, list) := list_remove list pos in (negb (removed =? 0), list).
Definition impl_json_array_remove_child (h : json_heap) (self child : Z) : option (bool * json_heap) :=
  o ← AS_JSON_ARRAY h self;
  match o with
  | None => Some (false, h)
  | Some l =>
      if child =? 0 then Some (true, h) else
      c ← jload h child;
      if negb (parent c =? 0) && negb (parent c =? self) then Some (false, h) else
      let '(ok, l) := ov_list_remove_if_included l child in
      h ← set_type h self (OV_JSON_ARRAY l);
      if negb ok then Some (false, h) else
      h ← set_parent h child 0; Some (true, h)
  end.
Definition ov_json_value_unset_parent (h : json_heap) (value : Z) : option (bool * json_heap) :=
  if value =? 0 then Some (false, h) else
  v ← jload h value;
  if parent v =? 0 then Some (true, h) else
  p ← jload h (parent v);
  '(ok, h) ← match type p with
             | OV_JSON_OBJECT _ => ov_json_object_remove_child h (parent v) value
             | OV_JSON_ARRAY _ => impl_json_array_remove_child h (parent v) value
             | _ => Some (true, h)
             end;
  if negb ok then Some (false, h) else
  h ← set_parent h value 0; Some (true, h).

(** ** The code: freeing *)

Fixpoint free_all (free : json_heap -> Z -> option (Z * json_heap)) (h : json_heap) (l : list Z) : option json_heap :=
  match l with
  | [] => Some h
  | p :: l => '(_, h) ← free h p; free_all free h l
  end.
(** One slot of [impl_dict_clear]: the chain is unlinked before its values are
    freed. *)
Definition clear_slot (free : json_heap -> Z -> option (Z * json_heap)) (h : json_heap) (self : Z) (i : nat) : option json_heap :=
  o ← AS_JSON_OBJECT h self;
  d ← o;
  chain ← items d !! i;
  h ← set_type h self (OV_JSON_OBJECT (with_chain d i []));
  free_all free h chain.*2.
Fixpoint clear_slots (free : json_heap -> Z -> option (Z * json_heap)) (h : json_heap) (self : Z) (l : list nat) : option json_heap :=
  match l with
  | [] => Some h
  | i :: l => h ← clear_slot free h self i; clear_slots free h self l
  end.
Definition impl_json_object_clear (free : json_heap -> Z -> option (Z * json_heap)) (h : json_heap) (self : Z)
    : option (bool * json_heap) :=
  o ← AS_JSON_OBJECT h self;
  match o with
  | None => Some (false, h)
  | Some d => h ← clear_slots free h self (seq 0 (slots d)); Some (true, h)
  end.
(** The items are popped until there is none, or [NULL]; [n] bounds their
    number. *)
Fixpoint pop_items (free : json_heap -> Z -> option (Z * json_heap)) (n : nat) (h : json_heap) (self : Z) : option json_heap :=
  match n with
  | O => None
  | S n =>
      o ← AS_JSON_ARRAY h self;
      l ← o;
      let '(value, l) := list_pop l in
      h ← set_type h self (OV_JSON_ARRAY l);
      if value =? 0 then Some h else
      h ← set_parent h value 0;
      '(_, h) ← free h value;
      pop_items free n h self
  end.
(** The last step is [ov_list_clear]. *)
Definition impl_json_array_clear (free : json_heap -> Z -> option (Z * json_heap)) (h : json_heap) (self : Z)
    : option (bool * json_heap) :=
  o ← AS_JSON_ARRAY h self;
  match o with
  | None => Some (false, h)
  | Some l =>
      h ← pop_items free (S (length l)) h self;
      o ← AS_JSON_ARRAY h self;
      l ← o;
      h ← free_all free h l;
      h ← set_type h self (OV_JSON_ARRAY []);
      Some (true, h)
  end.
(** What is not freed, [NULL] on success. The parent is unset first, so the free
    functions of the types do not come back here. *)
Fixpoint free_value (fuel : nat) (h : json_heap) (data : Z) : option (Z * json_heap) :=
  match fuel with
  | O => None
  | S fuel =>
      if data =? 0 then Some (0, h) else
      _ ← jload h data;
      '(ok, h) ← ov_json_value_unset_parent h data;
      if negb ok then Some (data, h) else
      v ← jload h data;
      match type v with
      | OV_JSON_OBJECT _ =>
          '(_, h) ← impl_json_object_clear (free_value fuel) h data; Some (0, delete data h)
      | OV_JSON_ARRAY _ =>
          '(ok, h) ← impl_json_array_clear (free_value fuel) h data;
          if negb ok then Some (data, h) else Some (0, delete data h)
      | _ => Some (0, delete data h)
      end
  end.
Definition ov_json_value_free (h : json_heap) (data : Z) : option (Z * json_heap) := free_value (turns h) h data.

(** ** The code: objects *)

Definition ov_json_object_get (h : json_heap) (object : Z) (key : string) : option Z :=
  o ← AS_JSON_OBJECT h object;
  match o with
  | None => Some 0
  | Some d => c ← impl_dict_get d (Some key); ov_json_value_cast h c
  end.
Definition ov_json_object_set (h : json_heap) (object : Z) (key : string) (value : Z) : option (bool * json_heap) :=
  o ← AS_JSON_OBJECT h object;
  match o with None => Some (false, h) | Some _ =>
  if value =? 0 then Some (false, h) else
  _ ← jload h value;
  if value =? object then Some (false, h) else
  '(ok, h) ← ov_json_value_set_parent h value object;
  if negb ok then Some (false, h) else
  o ← AS_JSON_OBJECT h object;
  d ← o;
  '(out, d) ← impl_dict_set d key value;
  h ← set_type h object (OV_JSON_OBJECT d);
  match out with
  | None => Some (true, h)
  | Some out =>
      if out =? 0 then Some (true, h) else
      h ← set_parent h out 0;
      '(_, h) ← ov_json_value_free h out;
      Some (true, h)
  end end.
Definition ov_json_object_del (h : json_heap) (object : Z) (key : string) : option (bool * json_heap) :=
  o ← AS_JSON_OBJECT h object;
  match o with
  | None => Some (false, h)
  | Some d =>
      '(value, d) ← impl_dict_del d key;
      h ← set_type h object (OV_JSON_OBJECT d);
      if value =? 0 then Some (true, h) else
      '(_, h) ← ov_json_value_free h value;
      Some (true, h)
  end.
Definition ov_json_object_remove (h : json_heap) (object : Z) (key : string) : option (Z * json_heap) :=
  o ← AS_JSON_OBJECT h object;
  match o with
  | None => Some (0, h)
  | Some d =>
      '(value, d) ← impl_dict_remove d key;
      h ← set_type h object (OV_JSON_OBJECT d);
      if value =? 0 then Some (0, h) else
      h ← set_parent h value 0; Some (value, h)
  end.
Definition ov_json_object_count (h : json_heap) (object : Z) : option Z :=
  o ← AS_JSON_OBJECT h object; match o with None => Some 0 | Some d => ov_dict_count d end.
Definition ov_json_object_is_empty (h : json_heap) (object : Z) : option bool :=
  o ← AS_JSON_OBJECT h object; match o with None => Some false | Some d => impl_dict_is_empty d end.
(** [function] leaves this object alone: the pairs are those at the start. *)
Definition ov_json_object_for_each {A} (h : json_heap) (object : Z) (data : A)
    (function : string -> Z -> A -> option (bool * A)) : option (bool * A) :=
  o ← AS_JSON_OBJECT h object;
  match o with None => Some (false, data) | Some d => impl_dict_for_each d data function end.

(** ** The code: arrays *)

Definition ov_json_array_push (h : json_heap) (array value : Z) : option (bool * json_heap) :=
  o ← AS_JSON_ARRAY h array;
  match o with None => Some (false, h) | Some l =>
  if (value =? 0) || (value =? array) then Some (false, h) else
  _ ← jload h value;
  '(ok, h) ← ov_json_value_set_parent h value array;
  if negb ok then Some (false, h) else
  h ← set_type h array (OV_JSON_ARRAY (list_push l value));
  Some (true, h) end.
Definition ov_json_array_get (h : json_heap) (array : Z) (position : nat) : option Z :=
  o ← AS_JSON_ARRAY h array;
  Some (match o with None => 0 | Some l => list_get l position end).
Definition ov_json_array_count (h : json_heap) (array : Z) : option nat :=
  o ← AS_JSON_ARRAY h array;
  Some (match o with None => O | Some l => length l end).
