(* ===== verification/JsonTree.v ===== *)
(** * JSON values: heaps of trees

    [json_wf]: the nodes of a heap form trees whose links down and up agree;
    [O] are nodes that were unlinked from above but still point up, which is what
    the code leaves while it frees a container. Freeing removes exactly the
    tree below a node. *)
From S2P Require Import Prelude Hashtable OvList Dict JsonValue.

(** ** Well-formed heaps *)

Definition kid (t : ov_json_t) (c : Z) : Prop :=
  match t with
  | OV_JSON_OBJECT d => exists k, dict_map d !! k = Some c
  | OV_JSON_ARRAY l => c ∈ l
  | _ => False
  end.
Definition kids_once (t : ov_json_t) : Prop :=
  match t with
  | OV_JSON_OBJECT d => dict_ok d /\ forall k k' c, dict_map d !! k = Some c -> dict_map d !! k' = Some c -> k = k'
  | OV_JSON_ARRAY l => NoDup l
  | _ => True
  end.
Definition edge (h : json_heap) (a b : Z) : Prop := exists v, h !! a = Some v /\ kid (type v) b.
Abbreviation below h := (rtc (edge h)).
(** [n] steps up from [p] lead to a node without a parent. *)
Inductive depth (h : json_heap) : nat -> Z -> Prop :=
  | depth_root p v : h !! p = Some v -> parent v = 0 -> depth h 0 p
  | depth_up n p v : h !! p = Some v -> parent v <> 0 -> depth h n (parent v) -> depth h (S n) p.

Record json_wf (O : Z -> Prop) (h : json_heap) : Prop := {
  jw_zero : h !! 0 = None;
  jw_once p v : h !! p = Some v -> kids_once (type v);
  jw_kid p v c : h !! p = Some v -> kid (type v) c -> exists w, h !! c = Some w /\ parent w = p;
  jw_parent c w : h !! c = Some w -> parent w <> 0 -> ~ O c -> edge h (parent w) c;
  jw_depth p v : h !! p = Some v -> exists n, depth h n p
}.
Definition none : Z -> Prop := fun _ => False.
Definition plus (O : Z -> Prop) (l : list Z) : Z -> Prop := fun x => O x \/ x ∈ l.

Lemma jload_Some (h : json_heap) p v : h !! 0 = None -> h !! p = Some v -> jload h p = Some v.
Proof. intros H0 Hp. unfold jload. destruct (Z.eqb_spec p 0) as [->|]; congruence. Qed.
Lemma live_nonzero (h : json_heap) p v : h !! 0 = None -> h !! p = Some v -> p <> 0.
Proof. congruence. Qed.
Lemma depth_det h n m p : depth h n p -> depth h m p -> n = m.
Proof. intros H. revert m. induction H; intros m Hm; inversion Hm; subst; try congruence. f_equal. apply IHdepth. congruence. Qed.
Lemma depth_live h n p : depth h n p -> is_Some (h !! p).
Proof. intros H; inversion H; eauto. Qed.
Lemma wf_mono O O' h : (forall x, O x -> O' x) -> json_wf O h -> json_wf O' h.
Proof. intros Hs [H1 H2 H3 H4 H5]. split; try done. intros c w Hc Hp Ho. apply H4; auto. Qed.
Lemma edge_depth O h a b n : json_wf O h -> edge h a b -> depth h n a -> depth h (S n) b.
Proof.
  intros W (v & Ha & Hk) Hd. destruct (jw_kid O h W _ _ _ Ha Hk) as (w & Hw & Hp). econstructor; [done| |by rewrite Hp].
  rewrite Hp. intros ->. by rewrite (jw_zero O h W) in Ha.
Qed.
Lemma steps_depth O h n a b m : json_wf O h -> nsteps (edge h) n a b -> depth h m a -> depth h (n + m) b.
Proof.
  intros W H. revert m. induction H as [a|n a b c Hab _ IH]; intros m Hd; [done|].
  replace (S n + m)%nat with (n + S m)%nat by lia. apply IH. by eapply edge_depth.
Qed.
(** The nodes on a path up are different. *)
Lemma depth_path h n p : depth h n p -> exists l, length l = S n /\ NoDup l /\
  forall x, x ∈ l -> is_Some (h !! x) /\ exists m, (m <= n)%nat /\ depth h m x.
Proof.
  intros H. induction H as [p v Hp H0|n p v Hp H0 Hd (l & Hl & Hn & Hx)].
  - exists [p]. split; [done|]. split; [apply NoDup_singleton|]. intros x ->%list_elem_of_singleton.
    split; [by eauto|]. exists O. split; [done|]. by econstructor.
  - assert (Hp' : depth h (S n) p) by (by econstructor). exists (p :: l). split; [cbn; lia|]. split.
    + apply NoDup_cons. split; [|done]. intros Hin. destruct (Hx p Hin) as (_ & m & Hm & Hdm).
      pose proof (depth_det _ _ _ _ Hp' Hdm). lia.
    + intros x [->|Hin]%elem_of_cons; [split; [by eauto|]; exists (S n); done|].
      destruct (Hx x Hin) as (Hs & m & Hm & Hdm). split; [done|]. exists m. split; [lia|done].
Qed.
Lemma depth_lt_size h n p : depth h n p -> (n < size h)%nat.
Proof.
  intros H. destruct (depth_path h n p H) as (l & Hl & Hn & Hx).
  assert (length l <= size (dom h))%nat; [|rewrite size_dom in *; lia].
  rewrite <- (size_list_to_set (C := gset Z) l Hn). apply subseteq_size.
  intros x Hin%elem_of_list_to_set. apply elem_of_dom. by apply Hx.
Qed.
Lemma steps_bound O h n a b v : json_wf O h -> h !! a = Some v -> nsteps (edge h) n a b -> (n < size h)%nat.
Proof.
  intros W Ha Hs. destruct (jw_depth O h W _ _ Ha) as [m Hm]. pose proof (steps_depth O h n a b m W Hs Hm) as Hd.
  apply depth_lt_size in Hd. lia.
Qed.
Lemma below_live O h a b : json_wf O h -> is_Some (h !! a) -> below h a b -> is_Some (h !! b).
Proof.
  intros W Ha H. induction H as [|a c b (v & Hv & Hk) _ IH]; [done|].
  apply IH. destruct (jw_kid O h W _ _ _ Hv Hk) as (w & Hw & _). eauto.
Qed.
(** Nothing is above a node without a parent, and nothing is below itself. *)
Lemma below_root O h a b v : json_wf O h -> h !! b = Some v -> parent v = 0 -> below h a b -> a = b.
Proof.
  intros W Hb H0 H. apply rtc_inv_r in H as [E|(c & _ & (w & Hw & Hk))]; [done|].
  destruct (jw_kid O h W _ _ _ Hw Hk) as (v' & Hv' & E). assert (c = 0) as -> by congruence.
  by rewrite (jw_zero O h W) in Hw.
Qed.
Lemma below_antisym O h a b v : json_wf O h -> h !! a = Some v -> edge h a b -> ~ below h b a.
Proof.
  intros W Ha He Hb. destruct (jw_depth O h W _ _ Ha) as [m Hm]. apply rtc_nsteps in Hb as [n Hb].
  pose proof (edge_depth O h _ _ _ W He Hm) as Hd. pose proof (steps_depth O h _ _ _ _ W Hb Hd) as Hd'.
  pose proof (depth_det _ _ _ _ Hm Hd'). lia.
Qed.

(** ** A node changes *)

(** [h'] has some of the nodes of [h], with some of their kids. *)
Definition sub (h' h : json_heap) : Prop :=
  forall q w, h' !! q = Some w -> exists w0, h !! q = Some w0 /\ forall c, kid (type w) c -> kid (type w0) c.
Lemma sub_refl h : sub h h.
Proof. intros q w Hq. eauto. Qed.
Lemma sub_trans h1 h2 h3 : sub h1 h2 -> sub h2 h3 -> sub h1 h3.
Proof. intros H1 H2 q w Hq. destruct (H1 _ _ Hq) as (w0 & H0 & Hk). destruct (H2 _ _ H0) as (w1 & Hw1 & Hk1). eauto. Qed.
Lemma sub_edge h h' a b : sub h' h -> edge h' a b -> edge h a b.
Proof. intros Hs (v & Hv & Hk). destruct (Hs _ _ Hv) as (w & Hw & Hk'). exists w. auto. Qed.
Lemma sub_below h h' a b : sub h' h -> below h' a b -> below h a b.
Proof. intros Hs H. induction H as [|a c b He _ IH]; [done|]. eapply rtc_l; [by eapply sub_edge|done]. Qed.
Lemma sub_steps h h' n a b : sub h' h -> nsteps (edge h') n a b -> nsteps (edge h) n a b.
Proof. intros Hs H. induction H as [|n a c b He _ IH]; [constructor|]. econstructor; [by eapply sub_edge|done]. Qed.

(** The parents are those of [h]. *)
Definition same_parents (h' h : json_heap) : Prop :=
  forall q w', h' !! q = Some w' -> exists w, h !! q = Some w /\ parent w' = parent w.
Lemma depth_same h h' n p : depth h n p ->
  (forall q w, h !! q = Some w -> exists w', h' !! q = Some w' /\ parent w' = parent w) -> depth h' n p.
Proof.
  intros H Hp. induction H as [p v Hv H0|n p v Hv H0 _ IH]; destruct (Hp _ _ Hv) as (w & Hw & E).
  - econstructor; [done|congruence].
  - econstructor; [done|congruence|by rewrite E].
Qed.
Lemma wf_shrink O h p v t (l : list Z) : json_wf O h -> h !! p = Some v -> kids_once t ->
  (forall c, kid t c -> kid (type v) c) -> (forall c, kid (type v) c -> kid t c \/ c ∈ l) ->
  json_wf (plus O l) (<[p := {| type := t; parent := parent v |}]> h) /\
  sub (<[p := {| type := t; parent := parent v |}]> h) h.
Proof.
  intros W Hp Ht Hk Hl. pose proof (live_nonzero h p v (jw_zero O h W) Hp) as Hp0. split; [split|].
  - rewrite lookup_insert_ne by done. apply (jw_zero O h W).
  - intros q w. destruct (decide (q = p)) as [->|].
    + rewrite lookup_insert_eq. by intros [= <-].
    + rewrite lookup_insert_ne by done. apply (jw_once O h W).
  - intros q w c Hq Hc. assert (exists w0, h !! q = Some w0 /\ kid (type w0) c) as (w0 & Hw0 & Hc0).
    { destruct (decide (q = p)) as [->|]; [rewrite lookup_insert_eq in Hq|rewrite lookup_insert_ne in Hq by done; eauto].
      injection Hq as <-. eauto. }
    destruct (jw_kid O h W _ _ _ Hw0 Hc0) as (w1 & Hw1 & E). destruct (decide (c = p)) as [->|].
    + rewrite lookup_insert_eq. eexists. split; [done|]. cbn. congruence.
    + rewrite lookup_insert_ne by done. eauto.
  - intros c w Hc Hw Ho. assert (exists w0, h !! c = Some w0 /\ parent w0 = parent w) as (w0 & Hw0 & E).
    { destruct (decide (c = p)) as [->|]; [rewrite lookup_insert_eq in Hc|rewrite lookup_insert_ne in Hc by done; eauto].
      injection Hc as <-. eauto. }
    destruct (jw_parent O h W _ _ Hw0) as (u & Hu & Hku); [congruence|intros HO; apply Ho; by left|]. rewrite <- E.
    destruct (decide (parent w0 = p)) as [Ep|Ep].
    + rewrite Ep in *. assert (u = v) as -> by congruence. exists {| type := t; parent := parent v |}. cbn.
      rewrite lookup_insert_eq. split; [done|].
      destruct (Hl c Hku) as [|Hin]; [done|]. destruct Ho. by right.
    + exists u. by rewrite lookup_insert_ne.
  - intros q w Hq. assert (exists w0, h !! q = Some w0) as [w0 Hw0].
    { destruct (decide (q = p)) as [->|]; [eauto|]. rewrite lookup_insert_ne in Hq by done. eauto. }
    destruct (jw_depth O h W _ _ Hw0) as [n Hn]. exists n. eapply depth_same; [done|]. intros x u Hx.
    destruct (decide (x = p)) as [->|]; [rewrite lookup_insert_eq; eexists; split; [done|cbn; congruence]|].
    rewrite lookup_insert_ne by done. eauto.
  - intros q w. destruct (decide (q = p)) as [->|].
    + rewrite lookup_insert_eq. intros [= <-]. eauto.
    + rewrite lookup_insert_ne by done. eauto.
Qed.
(** A node that is not linked from above. *)
Definition detached (h : json_heap) (c : Z) : Prop := forall a, ~ edge h a c.
Definition minus (O : Z -> Prop) (c : Z) : Z -> Prop := fun x => O x /\ x <> c.
Lemma detached_root O h c w : json_wf O h -> h !! c = Some w -> parent w = 0 -> detached h c.
Proof.
  intros W Hc H0 a (v & Hv & Hk). destruct (jw_kid O h W _ _ _ Hv Hk) as (w' & Hw' & E).
  assert (a = 0) as -> by congruence. by rewrite (jw_zero O h W) in Hv.
Qed.
Lemma depth_total_root h n p : depth h n p -> exists r v, h !! r = Some v /\ parent v = 0.
Proof. induction 1; eauto. Qed.
Lemma wf_cut O h c w : json_wf O h -> h !! c = Some w -> detached h c ->
  json_wf (minus O c) (<[c := {| type := type w; parent := 0 |}]> h) /\
  (forall a b, edge (<[c := {| type := type w; parent := 0 |}]> h) a b <-> edge h a b).
Proof.
  intros W Hc Hdet. pose proof (live_nonzero h c w (jw_zero O h W) Hc) as Hc0.
  set (h' := <[c := _]> h).
  assert (Hto : forall q u, h !! q = Some u -> exists u', h' !! q = Some u' /\ type u' = type u /\ (q <> c -> u' = u)).
  { intros q u Hq. unfold h'. destruct (decide (q = c)) as [->|].
    - rewrite lookup_insert_eq. eexists. split; [done|]. split; [cbn; congruence|done].
    - rewrite lookup_insert_ne by done. eauto. }
  assert (Hfrom : forall q u', h' !! q = Some u' -> exists u, h !! q = Some u /\ type u' = type u /\ (q <> c -> u' = u) /\ (q = c -> parent u' = 0)).
  { intros q u'. unfold h'. destruct (decide (q = c)) as [->|].
    - rewrite lookup_insert_eq. intros [= <-]. exists w. done.
    - rewrite lookup_insert_ne by done. intros Hq. exists u'. done. }
  assert (He : forall a b, edge h' a b <-> edge h a b).
  { intros a b. split; intros (u & Hu & Hk).
    - destruct (Hfrom _ _ Hu) as (u0 & Hu0 & E & _). exists u0. by rewrite <- E.
    - destruct (Hto _ _ Hu) as (u0 & Hu0 & E & _). exists u0. by rewrite E. }
  split; [|done]. split.
  - unfold h'. rewrite lookup_insert_ne by done. apply (jw_zero O h W).
  - intros q u' Hu'. destruct (Hfrom _ _ Hu') as (u & Hu & -> & _). by eapply jw_once.
  - intros q u' b Hq Hk. assert (edge h q b) as (u & Hu & Hk') by (apply He; by exists u').
    destruct (jw_kid O h W _ _ _ Hu Hk') as (x & Hx & E). destruct (Hto _ _ Hx) as (x' & Hx' & _ & Hne).
    exists x'. split; [done|]. rewrite Hne; [done|]. intros ->. by apply (Hdet q); exists u.
  - intros b u' Hb Hp Ho. destruct (Hfrom _ _ Hb) as (u & Hu & _ & Hne & Heq). apply He.
    destruct (decide (b = c)) as [->|Hbc]; [by rewrite Heq in Hp|]. rewrite (Hne Hbc) in *.
    apply (jw_parent O h W); [done|done|]. intros HO. apply Ho. by split.
  - intros q u' Hq. destruct (Hfrom _ _ Hq) as (u & Hu & _). destruct (jw_depth O h W _ _ Hu) as [n Hn].
    assert (exists m, depth h' m q) as [m Hm]; [|by exists m]. clear -Hn Hto Hfrom Hc.
    assert (Hroot : exists u', h' !! c = Some u' /\ parent u' = 0).
    { destruct (Hto _ _ Hc) as (u' & Hu' & _). exists u'. split; [done|]. by destruct (Hfrom _ _ Hu') as (_ & _ & _ & _ & H0); apply H0. }
    destruct Hroot as (u' & Hu' & H0). induction Hn as [p v Hp Hv|n p v Hp Hv _ [m IH]];
      (destruct (decide (p = c)) as [->|Hne]; [exists 0%nat; by econstructor|]);
      destruct (Hto _ _ Hp) as (v' & Hv' & _ & E); rewrite (E Hne) in Hv'; eexists; [by apply depth_root with v|by eapply depth_up].
Qed.
(** A node without kids that nobody links to, or points up to, goes. *)
Lemma wf_delete O h c w : json_wf O h -> h !! c = Some w -> detached h c -> (forall k, ~ kid (type w) k) ->
  (forall x u, O x -> h !! x = Some u -> parent u <> c) ->
  json_wf (minus O c) (delete c h) /\ sub (delete c h) h.
Proof.
  intros W Hc Hdet Hk HO.
  assert (Hno : forall x u, h !! x = Some u -> parent u <> c).
  { intros x u Hx E. assert (c <> 0) as Hc0 by (by eapply live_nonzero; [apply (jw_zero O h W)|]).
    assert (~ O x) as Hx' by (intros Ho; by apply (HO x u)).
    destruct (jw_parent O h W _ _ Hx) as (v & Hv & Hkv); [congruence|done|].
    rewrite E in Hv. assert (v = w) as -> by congruence. by apply (Hk x). }
  split; [split|].
  - rewrite lookup_delete_None. right. apply (jw_zero O h W).
  - intros p v [_ Hp]%lookup_delete_Some. by eapply jw_once.
  - intros p v b [Hne Hp]%lookup_delete_Some Hb. destruct (jw_kid O h W _ _ _ Hp Hb) as (u & Hu & E).
    exists u. split; [|done]. apply lookup_delete_Some. split; [|done]. intros ->. by apply (Hdet p); exists v.
  - intros b u [Hne Hb]%lookup_delete_Some Hp Ho. destruct (jw_parent O h W _ _ Hb Hp) as (v & Hv & Hkv).
    { intros HOb. apply Ho. by split. }
    exists v. split; [|done]. apply lookup_delete_Some. split; [|done]. intros E. by apply (Hno _ _ Hb).
  - intros p v [Hne Hp]%lookup_delete_Some. destruct (jw_depth O h W _ _ Hp) as [n Hn]. exists n.
    clear Hp. induction Hn as [p v' Hp H0|n p v' Hp H0 _ IH].
    + eapply depth_root; [|done]. by apply lookup_delete_Some.
    + eapply depth_up; [by apply lookup_delete_Some|done|]. apply IH. intros E. by apply (Hno _ _ Hp).
  - intros q u [_ Hq]%lookup_delete_Some. eauto.
Qed.

(** ** Freeing *)

Lemma find_pos_absent l c n : c ∉ l -> find_pos l c n = O.
Proof.
  revert n. induction l as [|x l IH]; intros n Hn; [done|]. cbn [find_pos]. apply not_elem_of_cons in Hn as [Hx Hl].
  destruct (Z.eqb_spec x c); [congruence|]. by apply IH.
Qed.
Lemma AS_OBJECT_eq (h : json_heap) p v : h !! 0 = None -> h !! p = Some v ->
  AS_JSON_OBJECT h p = Some (match type v with OV_JSON_OBJECT d => Some d | _ => None end).
Proof. intros H0 Hp. unfold AS_JSON_OBJECT. rewrite (jload_Some h p v H0 Hp). by destruct (Z.eqb_spec p 0) as [->|]; [congruence|]. Qed.
Lemma AS_ARRAY_eq (h : json_heap) p v : h !! 0 = None -> h !! p = Some v ->
  AS_JSON_ARRAY h p = Some (match type v with OV_JSON_ARRAY l => Some l | _ => None end).
Proof. intros H0 Hp. unfold AS_JSON_ARRAY. rewrite (jload_Some h p v H0 Hp). by destruct (Z.eqb_spec p 0) as [->|]; [congruence|]. Qed.
Lemma set_type_eq (h : json_heap) p v t : h !! 0 = None -> h !! p = Some v ->
  set_type h p t = Some (<[p := {| type := t; parent := parent v |}]> h).
Proof. intros H0 Hp. unfold set_type. by rewrite (jload_Some h p v H0 Hp). Qed.
Lemma set_parent_eq (h : json_heap) p v q : h !! 0 = None -> h !! p = Some v ->
  set_parent h p q = Some (<[p := {| type := type v; parent := q |}]> h).
Proof. intros H0 Hp. unfold set_parent. by rewrite (jload_Some h p v H0 Hp). Qed.
Lemma value_eta v : {| type := type v; parent := parent v |} = v.
Proof. by destruct v. Qed.

Lemma unset_parent_detached O h c w : json_wf O h -> h !! c = Some w -> detached h c ->
  ov_json_value_unset_parent h c = Some (true, <[c := {| type := type w; parent := 0 |}]> h).
Proof.
  intros W Hc Hdet. pose proof (jw_zero O h W) as H0. pose proof (live_nonzero h c w H0 Hc) as Hc0.
  unfold ov_json_value_unset_parent. rewrite (proj2 (Z.eqb_neq c 0) Hc0), (jload_Some h c w H0 Hc). cbn [mbind option_bind].
  destruct (Z.eqb_spec (parent w) 0) as [Hp|Hp].
  { rewrite <- Hp, value_eta. by rewrite insert_id by done. }
  destruct (jw_depth O h W _ _ Hc) as [n Hn]. inversion Hn as [? ? ? Hr|m ? w' Hc' _ Hd]; [congruence|].
  assert (w' = w) as -> by congruence. destruct (depth_live _ _ _ Hd) as [v Hv].
  assert (Hvt : jload h (parent w) = Some v) by by apply jload_Some.
  assert (Hkid : ~ kid (type v) c) by (intros Hk; apply (Hdet (parent w)); by exists v).
  rewrite Hvt. cbn [mbind option_bind].
  assert (Hfin : forall h1, h1 = <[c := {| type := type w; parent := 0 |}]> h ->
    set_parent h1 c 0 = Some (<[c := {| type := type w; parent := 0 |}]> h)).
  { intros h1 ->. erewrite set_parent_eq; [|by rewrite lookup_insert_ne|by rewrite lookup_insert_eq]. by rewrite insert_insert_eq. }
  assert ((parent w =? 0) = false /\ (parent w =? parent w) = true) as [E1 E2]
    by (split; [by apply Z.eqb_neq|by apply Z.eqb_eq]).
  destruct (type v) as [d|l|s|b| | |] eqn:Et; cbn [mbind option_bind negb]; try (by rewrite (set_parent_eq h c w)).
  - unfold ov_json_object_remove_child, impl_json_object_remove_child.
    rewrite (AS_OBJECT_eq h (parent w) v) by done. rewrite Et. cbn [mbind option_bind].
    rewrite (proj2 (Z.eqb_neq c 0) Hc0), E1. cbn [mbind option_bind].
    rewrite (jload_Some h c w H0 Hc). cbn [mbind option_bind]. rewrite E1, E2. cbn [negb andb].
    pose proof (jw_once O h W _ _ Hv) as Ho. rewrite Et in Ho. destruct Ho as [Hd' _].
    destruct (dict_get_keys_spec d c Hd' Hc0) as (keys & -> & Hkeys). cbn [mbind option_bind].
    assert (keys = []) as -> by (destruct keys as [|k keys]; [done|]; destruct Hkid; exists k; apply Hkeys; by left).
    cbn [reverse rev_append remove_keys mbind option_bind]. rewrite (set_parent_eq h c w) by done. cbn [mbind option_bind negb].
    by rewrite Hfin.
  - unfold impl_json_array_remove_child. rewrite (AS_ARRAY_eq h (parent w) v) by done. rewrite Et. cbn [mbind option_bind].
    rewrite (proj2 (Z.eqb_neq c 0) Hc0). rewrite (jload_Some h c w H0 Hc). cbn [mbind option_bind].
    rewrite E1, E2. cbn [negb andb].
    assert (ov_list_remove_if_included l c = (true, l)) as ->.
    { unfold ov_list_remove_if_included, list_get_pos. rewrite (proj2 (Z.eqb_neq c 0) Hc0). cbn [orb].
      destruct (length l =? 0)%nat; [done|]. by rewrite (find_pos_absent l c) by done. }
    rewrite (set_type_eq h (parent w) v) by done. rewrite <- Et, value_eta, (insert_id h) by done. cbn [mbind option_bind negb].
    rewrite (set_parent_eq h c w) by done. cbn [mbind option_bind negb]. by rewrite Hfin.
Qed.

(** What is left when the tree below [c] is freed. *)
Record freed (h : json_heap) (l : list Z) (h' : json_heap) : Prop := {
  fr_gone c : c ∈ l -> h' !! c = None;
  fr_same q u : h' !! q = Some u -> h !! q = Some u;
  fr_rest q : (forall c, c ∈ l -> ~ below h c q) -> h' !! q = h !! q
}.
Lemma freed_sub h l h' : freed h l h' -> sub h' h.
Proof. intros F q w Hq. exists w. split; [by eapply fr_same|done]. Qed.
Definition frees (fuel : nat) : Prop := forall O h c w, json_wf O h -> h !! c = Some w -> detached h c ->
  (forall n q, nsteps (edge h) n c q -> (n < fuel)%nat) ->
  (forall x u, O x -> x <> c -> h !! x = Some u -> ~ below h c (parent u)) ->
  exists h', free_value fuel h c = Some (0, h') /\ json_wf (minus O c) h' /\ freed h [c] h'.

Lemma below_detached h v x : detached h x -> below h v x -> v = x.
Proof. intros Hd H. apply rtc_inv_r in H as [E|(a & _ & He)]; [done|]. by destruct (Hd a). Qed.
Lemma free_all_spec fuel : frees fuel -> forall l O h p vp, json_wf (plus O l) h -> NoDup l ->
  h !! p = Some vp -> parent vp = 0 ->
  (forall v, v ∈ l -> detached h v /\ exists w, h !! v = Some w /\ parent w = p) ->
  (forall v n q, v ∈ l -> nsteps (edge h) n v q -> (n < fuel)%nat) ->
  (forall x u v, O x -> h !! x = Some u -> v ∈ l -> ~ below h v (parent u)) ->
  exists h', free_all (free_value fuel) h l = Some h' /\ json_wf O h' /\ freed h l h' /\ h' !! p = Some vp.
Proof.
  intros IH l. induction l as [|v l IHl]; intros O h p vp W Hn Hp Hp0 Hl Hf HO.
  - exists h. split; [done|]. split; [eapply wf_mono; [|done]; intros x [?|[]%elem_of_nil]; done|]. split; [|done].
    split; try done. by intros c ?%elem_of_nil.
  - apply NoDup_cons in Hn as [Hv Hn]. destruct (Hl v) as (Hdet & w & Hw & Hpw); [by left|].
    assert (Hpv : ~ below h v p).
    { intros Hb. pose proof (below_root _ h v p vp W Hp Hp0 Hb) as ->. assert (p = 0) as -> by congruence.
      by rewrite (jw_zero _ h W) in Hp. }
    destruct (IH (plus O (v :: l)) h v w W Hw Hdet) as (h1 & E1 & W1 & F1).
    { intros n q. apply Hf. by left. }
    { intros x u [Hx|[->|Hx]%elem_of_cons] Hne Hu; [apply (HO x); [done|done|by left]|done|].
      destruct (Hl x) as (_ & u' & Hu' & Ep); [by right|]. assert (u' = u) as -> by congruence. by rewrite Ep. }
    cbn [free_all]. rewrite E1. cbn [mbind option_bind].
    pose proof (freed_sub _ _ _ F1) as Hs.
    destruct (IHl O h1 p vp) as (h2 & E2 & W2 & F2 & Hp2).
    + eapply wf_mono; [|exact W1]. intros x [[Hx|[->|Hx]%elem_of_cons] Hne]; [by left|done|by right].
    + done.
    + rewrite (fr_rest _ _ _ F1); [done|]. by intros c ->%list_elem_of_singleton.
    + done.
    + intros v' Hv'. destruct (Hl v') as (Hd' & w' & Hw' & Ep); [by right|]. split.
      * intros a He. apply (Hd' a). by eapply sub_edge.
      * exists w'. split; [|done]. rewrite (fr_rest _ _ _ F1); [done|]. intros c ->%list_elem_of_singleton Hb.
        apply Hv. by rewrite (below_detached h v v' Hd' Hb).
    + intros v' n q Hv' Hst. eapply (Hf v'); [by right|by eapply sub_steps].
    + intros x u v' Hx Hu Hv' Hb. eapply (HO x u v' Hx); [by eapply fr_same|by right|by eapply sub_below].
    + exists h2. split; [done|]. split; [done|]. split; [|done]. split.
      * intros c [->|Hc]%elem_of_cons; [|by eapply fr_gone].
        destruct (h2 !! v) as [u|] eqn:Hu; [|done]. apply (fr_same _ _ _ F2) in Hu.
        by rewrite (fr_gone _ _ _ F1) in Hu by (by left).
      * intros q u Hu. by eapply fr_same, fr_same.
      * intros q Hq. rewrite (fr_rest _ _ _ F2).
        -- apply (fr_rest _ _ _ F1). intros c ->%list_elem_of_singleton. apply Hq. by left.
        -- intros c Hc Hb. apply (Hq c); [by right|by eapply sub_below].
Qed.

(** Clearing a container changes nothing that is not below it. *)
Record cleared (h : json_heap) (p : Z) (h' : json_heap) : Prop := {
  cl_same q u : q <> p -> h' !! q = Some u -> h !! q = Some u;
  cl_rest q : ~ below h p q -> h' !! q = h !! q
}.
Lemma cleared_trans h p h1 h2 : cleared h p h1 -> cleared h1 p h2 -> sub h1 h -> cleared h p h2.
Proof.
  intros C1 C2 Hs. split.
  - intros q u Hq Hu. eapply cl_same; [done|done|]. by eapply cl_same.
  - intros q Hq. rewrite (cl_rest _ _ _ C2), (cl_rest _ _ _ C1); [done|done|]. intros Hb. apply Hq. by eapply sub_below.
Qed.
(** The kids [l] of [p] are unlinked, then freed. *)
Lemma unlink_free_spec fuel : frees fuel -> forall O h p v t l, json_wf O h -> h !! p = Some v -> parent v = 0 ->
  kids_once t -> NoDup l ->
  (forall c, kid t c -> kid (type v) c) -> (forall c, kid (type v) c -> kid t c \/ c ∈ l) ->
  (forall c, c ∈ l -> kid (type v) c /\ ~ kid t c) ->
  (forall n q, nsteps (edge h) (S n) p q -> (n < fuel)%nat) ->
  (forall x u, O x -> h !! x = Some u -> ~ below h p (parent u)) ->
  exists h', free_all (free_value fuel) (<[p := {| type := t; parent := 0 |}]> h) l = Some h' /\
    json_wf O h' /\ h' !! p = Some {| type := t; parent := 0 |} /\ cleared h p h' /\ sub h' h.
Proof.
  intros IH O h p v t l W Hp Hp0 Ht Hn Hk Hl Hlk Hf HO.
  destruct (wf_shrink O h p v t l W Hp Ht Hk Hl) as [W1 Hs]. rewrite Hp0 in W1, Hs.
  set (h1 := <[p := _]> h) in *. assert (Hp1 : h1 !! p = Some {| type := t; parent := 0 |}) by apply lookup_insert_eq.
  assert (Hup : forall c w, c ∈ l -> h !! c = Some w -> parent w = p).
  { intros c w Hc Hw. destruct (jw_kid O h W _ _ _ Hp (proj1 (Hlk c Hc))) as (w' & Hw' & E). congruence. }
  assert (Hkid : forall c, c ∈ l -> edge h p c) by (intros c Hc; exists v; split; [done|by apply Hlk]).
  destruct (free_all_spec fuel IH l O h1 p {| type := t; parent := 0 |}) as (h' & E & W' & F & Hp'); try done.
  - intros c Hc. destruct (jw_kid O h W _ _ _ Hp (proj1 (Hlk c Hc))) as (w & Hw & Ew). split.
    + intros a (u & Hu & Hku). assert (a = p) as ->.
      { destruct (Hs _ _ Hu) as (u0 & Hu0 & Hk0). destruct (jw_kid O h W _ _ _ Hu0 (Hk0 _ Hku)) as (w' & Hw' & E'). congruence. }
      rewrite Hp1 in Hu. injection Hu as <-. by apply (Hlk c Hc).
    + exists w. split; [|done]. unfold h1. rewrite lookup_insert_ne; [done|]. intros <-.
      assert (p = 0) as -> by congruence. by rewrite (jw_zero O h W) in Hp.
  - intros c n q Hc Hst. apply (Hf n q). econstructor; [by apply Hkid|]. by eapply sub_steps.
  - intros x u c Hx Hu Hc Hb. assert (x = p \/ h !! x = Some u) as [->|Hu'].
    { destruct (decide (x = p)) as [->|]; [by left|right]. unfold h1 in Hu. by rewrite lookup_insert_ne in Hu. }
    + rewrite Hp1 in Hu. injection Hu as <-. cbn in Hb. apply rtc_inv_r in Hb as [E0|(a & _ & (u & Hu & Hku))].
      * destruct (jw_kid O h W _ _ _ Hp (proj1 (Hlk c Hc))) as (w & Hw & _). subst c. by rewrite (jw_zero O h W) in Hw.
      * destruct (jw_kid _ _ W1 _ _ _ Hu Hku) as (w & Hw & _). by rewrite (jw_zero _ _ W1) in Hw.
    + apply (HO x u Hx Hu'). eapply rtc_l; [by apply Hkid|]. by eapply sub_below.
  - exists h'. split; [done|]. split; [done|]. split; [done|].
    split; [|by eapply sub_trans; [eapply freed_sub|]]. split.
    + intros q u Hq Hu. apply (fr_same _ _ _ F) in Hu. unfold h1 in Hu. by rewrite lookup_insert_ne in Hu.
    + intros q Hq. rewrite (fr_rest _ _ _ F).
      * unfold h1. rewrite lookup_insert_ne; [done|]. intros ->. by apply Hq.
      * intros c Hc Hb. apply Hq. eapply rtc_l; [by apply Hkid|]. by eapply sub_below.
Qed.
Lemma clear_slots_spec fuel : frees fuel -> forall l O h p d, json_wf O h ->
  h !! p = Some {| type := OV_JSON_OBJECT d; parent := 0 |} -> (forall i, i ∈ l -> (i < slots d)%nat) ->
  (forall n q, nsteps (edge h) (S n) p q -> (n < fuel)%nat) ->
  (forall x u, O x -> h !! x = Some u -> ~ below h p (parent u)) ->
  exists h' d', clear_slots (free_value fuel) h p l = Some h' /\ json_wf O h' /\
    h' !! p = Some {| type := OV_JSON_OBJECT d'; parent := 0 |} /\
    (forall k, dict_map d' !! k = if decide (dict_calculate_slot d (Some k) ∈ l) then None else dict_map d !! k) /\
    cleared h p h'.
Proof.
  intros IH l. induction l as [|i l IHl]; intros O h p d W Hp Hi Hf HO.
  { exists h, d. split; [done|]. split; [done|]. split; [done|]. split; [|done].
    intros k. by rewrite decide_False by apply not_elem_of_nil. }
  pose proof (jw_zero O h W) as H0. destruct (jw_once O h W _ _ Hp) as [Hok Hinj]. cbn in Hinj.
  assert (exists c, items d !! i = Some c) as [c Hc].
  { apply lookup_lt_is_Some. rewrite (do_items d Hok). apply Hi. by left. }
  pose proof (with_chain_ok d i c [] Hok Hc ltac:(constructor) ltac:(intros ? ? []%elem_of_nil)) as Hok'.
  pose proof (fun k => with_chain_map d i c [] k Hok Hc Hok') as Hm.
  assert (Hin : forall k x, (k, x) ∈ c -> dict_map d !! k = Some x).
  { intros k x Hx. apply dict_map_elem; [done|]. apply elem_of_concat_lookup. eauto. }
  assert (Hslot : forall k x, dict_map d !! k = Some x -> (k, x) ∈ c <-> dict_calculate_slot d (Some k) = i).
  { intros k x Hk. split; [by apply do_home|]. intros E. apply dict_map_elem in Hk; [|done].
    apply elem_of_concat_lookup in Hk as (j & c' & Hj & Hx). pose proof (do_home d Hok _ _ _ _ Hj Hx).
    by replace c with c' by congruence. }
  assert (Hsub : forall k x, dict_map (with_chain d i []) !! k = Some x -> dict_map d !! k = Some x).
  { intros k x. rewrite Hm. by case_decide. }
  destruct (unlink_free_spec fuel IH O h p _ (OV_JSON_OBJECT (with_chain d i [])) c.*2 W Hp) as (h1 & E1 & W1 & Hp1 & C1 & S1); try done.
  - split; [done|]. intros k k' x Hk Hk'. eapply Hinj; by apply Hsub.
  - apply NoDup_fmap_2_strong; [|exact (NoDup_fmap_1 fst _ (do_nodup d Hok _ _ Hc))].
    intros [k x] [k' x'] Hx Hx' E. cbn in E. subst x'. f_equal. by eapply Hinj; apply Hin.
  - intros x (k & Hk). exists k. by apply Hsub.
  - intros x (k & Hk). destruct (decide (dict_calculate_slot d (Some k) = i)) as [Es|Es].
    + right. apply list_elem_of_fmap. exists (k, x). split; [done|]. by apply (Hslot k x).
    + left. exists k. by rewrite Hm, decide_False.
  - intros x ((k & y) & -> & Hx)%list_elem_of_fmap. cbn. split; [by exists k; apply Hin|]. intros (k' & Hk').
    pose proof (Hinj k k' y (Hin _ _ Hx) (Hsub _ _ Hk')) as <-. rewrite Hm, decide_True in Hk'; [done|].
    by apply (Hslot k y (Hin _ _ Hx)).
  - destruct (IHl O h1 p (with_chain d i []) W1 Hp1) as (h2 & d2 & E2 & W2 & Hp2 & M2 & C2).
    + intros j Hj. apply Hi. by right.
    + intros n q Hst. eapply Hf. by eapply sub_steps.
    + intros x u Hx Hu Hb. assert (x <> p) as Hxp.
      { intros ->. rewrite Hp1 in Hu. injection Hu as <-. cbn in Hb.
        destruct (below_live O h1 p 0 W1) as [? Hz]; [by rewrite Hp1|done|]. by rewrite (jw_zero O h1 W1) in Hz. }
      eapply (HO x u Hx); [by eapply cl_same|]. by eapply sub_below.
    + cbn [clear_slots]. unfold clear_slot. rewrite (AS_OBJECT_eq h p _ H0 Hp). cbn [mbind option_bind type].
      rewrite Hc. cbn [mbind option_bind]. rewrite (set_type_eq h p _ _ H0 Hp). cbn [mbind option_bind parent].
      rewrite E1. cbn [mbind option_bind]. exists h2, d2. split; [done|]. split; [done|]. split; [done|].
      split; [|by eapply cleared_trans]. intros k. rewrite M2, Hm.
      change (dict_calculate_slot (with_chain d i []) (Some k)) with (dict_calculate_slot d (Some k)).
      destruct (decide (dict_calculate_slot d (Some k) = i)) as [->|Es].
      * rewrite (decide_True (P := i ∈ i :: l)) by (by left). by destruct (decide (i ∈ l)).
      * destruct (decide (dict_calculate_slot d (Some k) ∈ l)) as [Hl|Hl].
        -- by rewrite decide_True by (by right).
        -- rewrite decide_False; [done|]. by intros [|]%elem_of_cons.
Qed.

Lemma below_dead O h a : json_wf O h -> is_Some (h !! a) -> ~ below h a 0.
Proof. intros W Ha Hb. destruct (below_live O h a 0 W Ha Hb) as [? Hz]. by rewrite (jw_zero O h W) in Hz. Qed.
Lemma below_same_edges h h' a b : (forall x y, edge h x y -> edge h' x y) -> below h a b -> below h' a b.
Proof. intros He Hb. induction Hb as [|x y z Hxy _ IH]; [done|]. eapply rtc_l; [by apply He|done]. Qed.
Lemma steps_same_edges h h' n a b : (forall x y, edge h x y -> edge h' x y) -> nsteps (edge h) n a b -> nsteps (edge h') n a b.
Proof. intros He Hb. induction Hb as [|n x y z Hxy _ IH]; [constructor|]. econstructor; [by apply He|done]. Qed.
Lemma pop_items_spec fuel : frees fuel -> forall l O h p, json_wf O h ->
  h !! p = Some {| type := OV_JSON_ARRAY l; parent := 0 |} ->
  (forall n q, nsteps (edge h) (S n) p q -> (n < fuel)%nat) ->
  (forall x u, O x -> h !! x = Some u -> ~ below h p (parent u)) ->
  exists h', pop_items (free_value fuel) (S (length l)) h p = Some h' /\ json_wf O h' /\
    h' !! p = Some {| type := OV_JSON_ARRAY []; parent := 0 |} /\ cleared h p h'.
Proof.
  intros IH l. induction l as [|v l IHl] using rev_ind; intros O h p W Hp Hf HO;
    pose proof (jw_zero O h W) as H0; pose proof (live_nonzero h p _ H0 Hp) as Hp0.
  { exists h. cbn [length pop_items]. rewrite (AS_ARRAY_eq h p _ H0 Hp). cbn [mbind option_bind type list_pop last default removelast].
    rewrite (set_type_eq h p _ _ H0 Hp). cbn [mbind option_bind parent]. rewrite insert_id by done.
    by rewrite Z.eqb_refl. }
  pose proof (jw_once O h W _ _ Hp) as Hn. cbn in Hn. apply NoDup_app in Hn as (Hn & Hvl & _).
  assert (Hkv : edge h p v) by (eexists; split; [done|]; cbn; apply elem_of_app; right; by left).
  destruct (jw_kid O h W p _ v Hp) as (w & Hw & Hwp); [cbn; apply elem_of_app; right; by left|].
  pose proof (live_nonzero h v w H0 Hw) as Hv0. assert (Hvp : v <> p) by (intros ->; rewrite Hp in Hw; injection Hw as <-; by cbn in Hwp).
  destruct (wf_shrink O h p _ (OV_JSON_ARRAY l) [v] W Hp) as [W1 S1]; [done|cbn; intros c Hc; apply elem_of_app; by left|
    cbn; by intros c [Hc|Hc]%elem_of_app; [left|right]|].
  cbn [parent] in W1, S1. set (h1 := <[p := _]> h) in *. assert (Hw1 : h1 !! v = Some w) by (unfold h1; by rewrite lookup_insert_ne).
  assert (Hdet : detached h1 v).
  { intros a (u & Hu & Hku). destruct (S1 _ _ Hu) as (u0 & Hu0 & Hk0). destruct (jw_kid O h W _ _ _ Hu0 (Hk0 _ Hku)) as (w' & Hw' & E).
    assert (a = p) as -> by congruence. unfold h1 in Hu. rewrite lookup_insert_eq in Hu. injection Hu as <-. cbn in Hku.
    apply (Hvl v Hku). by left. }
  destruct (wf_cut _ h1 v w W1 Hw1 Hdet) as [W2 E2]. set (h2 := <[v := _]> h1) in *.
  assert (S2 : forall a b, edge h2 a b -> edge h a b) by (intros a b He; eapply sub_edge; [done|by apply E2]).
  assert (Hp2 : h2 !! p = Some {| type := OV_JSON_ARRAY l; parent := 0 |}).
  { unfold h2, h1. by rewrite lookup_insert_ne, lookup_insert_eq by done. }
  assert (H2 : forall q, q <> p -> q <> v -> h2 !! q = h !! q) by (intros q Hqp Hqv; unfold h2, h1; by rewrite !lookup_insert_ne by done).
  destruct (IH _ h2 v {| type := type w; parent := 0 |} W2) as (h3 & E3 & W3 & F3).
  - apply lookup_insert_eq.
  - intros a He. by apply (Hdet a), E2.
  - intros n q Hst. apply (Hf n q). econstructor; [done|]. exact (steps_same_edges _ _ _ _ _ S2 Hst).
  - intros x u [[Hx|Hx] Hxv] _ Hu Hb; [|by apply list_elem_of_singleton in Hx]. destruct (decide (x = p)) as [->|Hxp].
    + rewrite Hp2 in Hu. injection Hu as <-. eapply (below_dead _ h2 v W2); [|done]. unfold h2. rewrite lookup_insert_eq. eauto.
    + rewrite H2 in Hu by done. apply (HO x u Hx Hu). eapply rtc_l; [done|]. exact (below_same_edges _ _ _ _ S2 Hb).
  - assert (Hp3 : h3 !! p = Some {| type := OV_JSON_ARRAY l; parent := 0 |}).
    { rewrite (fr_rest _ _ _ F3); [done|]. intros c ->%list_elem_of_singleton Hb.
      by pose proof (below_root _ h2 v p _ W2 Hp2 eq_refl Hb). }
    assert (H3 : forall a b, edge h3 a b -> edge h a b) by (intros a b He; apply S2; eapply sub_edge; [by eapply freed_sub|done]).
    assert (C3 : cleared h p h3).
    { split.
      - intros q u Hq Hu. assert (q <> v) by (intros ->; rewrite (fr_gone _ _ _ F3) in Hu by (by left); done).
        apply (fr_same _ _ _ F3) in Hu. by rewrite H2 in Hu.
      - intros q Hq. assert (q <> p) by (intros ->; by apply Hq). assert (q <> v) by (intros ->; apply Hq; by apply rtc_once).
        rewrite (fr_rest _ _ _ F3), H2; [done|done|done|]. intros c ->%list_elem_of_singleton Hb. apply Hq.
        eapply rtc_l; [done|]. exact (below_same_edges _ _ _ _ S2 Hb). }
    destruct (IHl O h3 p) as (h4 & E4 & W4 & Hp4 & C4); [|done| | |].
    + eapply wf_mono; [|done]. intros x [[[Hx|Hx] Hxv] _]; [done|by apply list_elem_of_singleton in Hx].
    + intros n q Hst. apply (Hf n q). exact (steps_same_edges _ _ _ _ _ H3 Hst).
    + intros x u Hx Hu Hb. destruct (decide (x = p)) as [->|Hxp].
      * rewrite Hp3 in Hu. injection Hu as <-. eapply (below_dead _ h3 p W3); [by rewrite Hp3; eauto|done].
      * apply (cl_same _ _ _ C3) in Hu; [|done]. apply (HO x u Hx Hu). exact (below_same_edges _ _ _ _ H3 Hb).
    + exists h4. split; [|split; [done|split; [done|]]].
      * rewrite length_app, Nat.add_comm. cbn [length Nat.add]. cbn [pop_items].
        rewrite (AS_ARRAY_eq h p _ H0 Hp). cbn [mbind option_bind type]. unfold list_pop.
        rewrite last_snoc, removelast_last. cbn [from_option id]. rewrite (set_type_eq h p _ _ H0 Hp). cbn [mbind option_bind parent].
        rewrite (proj2 (Z.eqb_neq v 0) Hv0). fold h1. rewrite (set_parent_eq h1 v w _ (jw_zero _ h1 W1) Hw1). cbn [mbind option_bind].
        fold h2. rewrite E3. cbn [mbind option_bind]. exact E4.
      * split.
        -- intros q u Hq Hu. by eapply (cl_same _ _ _ C3), (cl_same _ _ _ C4).
        -- intros q Hq. rewrite (cl_rest _ _ _ C4), (cl_rest _ _ _ C3); [done|done|]. intros Hb. apply Hq. exact (below_same_edges _ _ _ _ H3 Hb).
Qed.

(** The node itself goes last. *)
Lemma free_node O h c w h2 v : json_wf O h -> h !! c = Some w -> detached h c ->
  (forall x u, O x -> x <> c -> h !! x = Some u -> ~ below h c (parent u)) ->
  json_wf (minus O c) h2 -> h2 !! c = Some v -> parent v = 0 -> (forall k, ~ kid (type v) k) ->
  cleared (<[c := {| type := type w; parent := 0 |}]> h) c h2 ->
  json_wf (minus O c) (delete c h2) /\ freed h [c] (delete c h2).
Proof.
  intros W Hc Hdet HO W2 Hv Hv0 Hk C. destruct (wf_cut O h c w W Hc Hdet) as [W1 He]. split.
  - eapply wf_mono; [|eapply (wf_delete (minus O c) h2 c v); try done].
    + by intros x [].
    + by eapply detached_root.
    + intros x u [Hx Hne] Hu E. apply (cl_same _ _ _ C) in Hu; [|done]. rewrite lookup_insert_ne in Hu by done.
      by apply (HO x u Hx Hne Hu); rewrite E.
  - split.
    + intros x ->%list_elem_of_singleton. apply lookup_delete_eq.
    + intros q u [Hne Hu]%lookup_delete_Some. apply (cl_same _ _ _ C) in Hu; [|done]. by rewrite lookup_insert_ne in Hu.
    + intros q Hq. assert (Hb : ~ below h c q) by (apply Hq; by left). assert (c <> q) by (intros ->; by apply Hb).
      rewrite lookup_delete_ne, (cl_rest _ _ _ C), lookup_insert_ne; try done.
      intros Hb'. apply Hb. eapply below_same_edges; [|exact Hb']. intros x y. apply He.
Qed.
Lemma frees_all fuel : frees fuel.
Proof.
  induction fuel as [|fuel IH]; intros O h c w W Hc Hdet Hf HO.
  { specialize (Hf 0%nat c ltac:(constructor)). lia. }
  pose proof (live_nonzero h c w (jw_zero O h W) Hc) as Hc0. destruct (wf_cut O h c w W Hc Hdet) as [W1 He].
  cbn [free_value]. rewrite (proj2 (Z.eqb_neq c 0) Hc0), (jload_Some h c w (jw_zero O h W) Hc), (unset_parent_detached O h c w W Hc Hdet).
  set (h1 := <[c := _]> h) in *. cbn [mbind option_bind negb].
  assert (Hc1 : h1 !! c = Some {| type := type w; parent := 0 |}) by apply lookup_insert_eq.
  pose proof (jw_zero _ h1 W1) as H1. rewrite (jload_Some h1 c _ H1 Hc1). cbn [mbind option_bind type].
  assert (Hf1 : forall n q, nsteps (edge h1) (S n) c q -> (n < fuel)%nat).
  { intros n q Hst. apply Nat.succ_lt_mono, (Hf (S n) q). eapply steps_same_edges; [|done]. intros x y. apply He. }
  assert (HO1 : forall x u, minus O c x -> h1 !! x = Some u -> ~ below h1 c (parent u)).
  { intros x u [Hx Hne] Hu Hb. unfold h1 in Hu. rewrite lookup_insert_ne in Hu by done. apply (HO x u Hx Hne Hu).
    eapply below_same_edges; [|exact Hb]. intros a b. apply He. }
  assert (Hfin : forall h2 v, json_wf (minus O c) h2 -> h2 !! c = Some v -> parent v = 0 -> (forall k, ~ kid (type v) k) ->
    cleared h1 c h2 -> json_wf (minus O c) (delete c h2) /\ freed h [c] (delete c h2))
    by (intros h2 v; by apply (free_node O h c w)).
  destruct (type w) as [d|l|s|b| | |] eqn:Et; [| |
    exists (delete c h1); split; [done|]; apply (Hfin h1 _ W1 Hc1); [done|by intros k []|by split]..].
  - unfold impl_json_object_clear. rewrite (AS_OBJECT_eq h1 c _ H1 Hc1). cbn [mbind option_bind type].
    destruct (clear_slots_spec fuel IH (seq 0 (slots d)) _ h1 c d W1 Hc1) as (h2 & d2 & E2 & W2 & Hc2 & M2 & C2); [|done..|].
    { intros i [_ Hi]%elem_of_seq. done. }
    rewrite E2. cbn [mbind option_bind]. exists (delete c h2). split; [done|]. apply (Hfin h2 _ W2 Hc2); [done| |done].
    intros k (key & Hk). rewrite M2 in Hk. destruct (jw_once _ _ W1 _ _ Hc1) as [Hok _].
    rewrite decide_True in Hk; [done|]. apply elem_of_seq. pose proof (dict_slot_lt d (Some key) Hok). lia.
  - unfold impl_json_array_clear. rewrite (AS_ARRAY_eq h1 c _ H1 Hc1). cbn [mbind option_bind type].
    destruct (pop_items_spec fuel IH l _ h1 c W1 Hc1) as (h2 & E2 & W2 & Hc2 & C2); [done..|].
    rewrite E2. cbn [mbind option_bind]. rewrite (AS_ARRAY_eq h2 c _ (jw_zero _ h2 W2) Hc2). cbn [mbind option_bind type free_all].
    rewrite (set_type_eq h2 c _ _ (jw_zero _ h2 W2) Hc2). cbn [mbind option_bind negb parent]. rewrite insert_id by done.
    exists (delete c h2). split; [done|]. apply (Hfin h2 _ W2 Hc2); [done| |done]. by intros k ?%elem_of_nil.
Qed.
