(* ===== verification/JsonOps.v ===== *)
(** * JSON values: what the operations do to a heap of trees

    On a well-formed heap no operation touches a node that was freed; new values
    are roots, [ov_json_object_set] hangs a root below an object and frees the
    value it replaces, [ov_json_object_del] frees a kid, [ov_json_value_free] frees
    a tree, wherever it is. *)
From S2P Require Import Prelude Hashtable OvList Dict JsonValue JsonTree.

Abbreviation wf := (json_wf none).

(** The kids of an object by their keys. *)
Definition get_key (h : json_heap) (p : Z) (k : string) : option Z :=
  match h !! p with
  | Some v => match type v with OV_JSON_OBJECT d => dict_map d !! k | _ => None end
  | None => None
  end.
Definition is_object (h : json_heap) (p : Z) : Prop := exists d q, h !! p = Some {| type := OV_JSON_OBJECT d; parent := q |}.

Lemma object_lookup (h : json_heap) p : is_object h p -> exists v d, h !! p = Some v /\ type v = OV_JSON_OBJECT d.
Proof. intros (d & q & Hp). eauto. Qed.
Lemma get_key_edge h p k c : get_key h p k = Some c -> edge h p c.
Proof.
  unfold get_key, edge. destruct (h !! p) as [v|] eqn:E; [|done]. destruct (type v) as [d| | | | | |] eqn:Et; try done.
  intros Hk. exists v. split; [done|]. rewrite Et. by exists k.
Qed.
Lemma get_key_inj O h p k k' c : json_wf O h -> get_key h p k = Some c -> get_key h p k' = Some c -> k = k'.
Proof.
  intros W. unfold get_key. destruct (h !! p) as [v|] eqn:E; [|done]. pose proof (jw_once O h W _ _ E) as Ho.
  destruct (type v) as [d| | | | | |]; try done. by apply Ho.
Qed.
Lemma edge_parent O h p c : json_wf O h -> edge h p c -> exists w, h !! c = Some w /\ parent w = p.
Proof. intros W (v & Hv & Hk). by eapply jw_kid. Qed.
Lemma edge_inj O h p q c : json_wf O h -> edge h p c -> edge h q c -> p = q.
Proof.
  intros W Hp Hq. destruct (edge_parent O h p c W Hp) as (w & Hw & <-), (edge_parent O h q c W Hq) as (w' & Hw' & <-). congruence.
Qed.
Lemma below_nonzero O h a b : json_wf O h -> is_Some (h !! a) -> below h a b -> b <> 0.
Proof. intros W Ha Hb ->. by eapply below_dead. Qed.

Lemma wf_empty : wf ∅.
Proof. by split. Qed.

(** ** New values *)

Lemma wf_new O h t : json_wf O h -> kids_once t -> (forall c, ~ kid t c) -> ~ O (fresh_key h) ->
  json_wf O (new_value h t).2 /\ (new_value h t).1 <> 0 /\ h !! (new_value h t).1 = None /\
  (new_value h t).2 = <[(new_value h t).1 := {| type := t; parent := 0 |}]> h.
Proof.
  intros W Ht Hk HO. unfold new_value. cbn [fst snd]. pose proof (fresh_key_spec h) as [Hf _]. pose proof (fresh_key_None h) as Hn.
  set (p := fresh_key h) in *. assert (p <> 0) by lia. split; [|done]. split.
  - rewrite lookup_insert_ne by done. apply (jw_zero O h W).
  - intros q v. destruct (decide (q = p)) as [->|]; [rewrite lookup_insert_eq; by intros [= <-]|].
    rewrite lookup_insert_ne by done. apply (jw_once O h W).
  - intros q v c. destruct (decide (q = p)) as [->|]; [rewrite lookup_insert_eq; intros [= <-] Hc; by destruct (Hk c)|].
    rewrite lookup_insert_ne by done. intros Hq Hc. destruct (jw_kid O h W _ _ _ Hq Hc) as (w & Hw & E).
    exists w. rewrite lookup_insert_ne; [done|]. intros <-. congruence.
  - intros c w. destruct (decide (c = p)) as [->|]; [rewrite lookup_insert_eq; by intros [= <-]|].
    rewrite lookup_insert_ne by done. intros Hc Hp Ho. destruct (jw_parent O h W _ _ Hc Hp Ho) as (v & Hv & Hkv).
    exists v. rewrite lookup_insert_ne; [done|]. intros E. congruence.
  - intros q v. destruct (decide (q = p)) as [->|]; [intros _; exists 0%nat; by eapply depth_root; [apply lookup_insert_eq|]|].
    rewrite lookup_insert_ne by done. intros Hq. destruct (jw_depth O h W _ _ Hq) as [m Hd]. exists m. eapply depth_same; [done|].
    intros x u Hx. exists u. rewrite lookup_insert_ne; [done|]. intros <-. congruence.
Qed.

(** ** Free *)

Lemma json_free_detached O h c w : json_wf O h -> h !! c = Some w -> detached h c ->
  (forall x u, O x -> x <> c -> h !! x = Some u -> ~ below h c (parent u)) ->
  exists h', ov_json_value_free h c = Some (0, h') /\ json_wf (minus O c) h' /\ freed h [c] h'.
Proof.
  intros W Hc Hd HO. eapply frees_all; try done. intros n q Hst. unfold turns.
  pose proof (steps_bound O h n c q w W Hc Hst). lia.
Qed.
(** All that is below a freed node is gone. *)
Lemma freed_below O O' h h' c q : json_wf O h -> json_wf O' h' -> (forall x, O' x -> ~ below h c x) -> freed h [c] h' ->
  below h c q -> h' !! q = None.
Proof.
  intros W W' HO F. revert q. apply rtc_ind_r; [apply (fr_gone _ _ _ F); by left|]. intros b d Hcb Hbd IH.
  destruct (h' !! d) as [w|] eqn:Ed; [|done]. pose proof (fr_same _ _ _ F _ _ Ed) as Ed0.
  destruct (edge_parent O h b d W Hbd) as (w' & Hw' & E). assert (w' = w) as -> by congruence.
  destruct (jw_parent _ h' W' d w Ed) as (v & Hv & _).
  - intros E0. destruct Hbd as (v & Hv & _). rewrite <- E, E0 in Hv. by rewrite (jw_zero O h W) in Hv.
  - intros Ho. apply (HO d Ho). by eapply rtc_r.
  - rewrite E in Hv. by rewrite IH in Hv.
Qed.

(** ** A root is linked below a node *)

Definition attach (h : json_heap) (p : Z) (v : ov_json_value) (t : ov_json_t) (c : Z) (w : ov_json_value) : json_heap :=
  <[p := {| type := t; parent := parent v |}]> (<[c := {| type := type w; parent := p |}]> h).
Section attach.
Context (h : json_heap) (p : Z) (v : ov_json_value) (t : ov_json_t) (c : Z) (w : ov_json_value) (l : list Z).
Context (W : wf h) (Hp : h !! p = Some v) (Hc : h !! c = Some w) (Hc0 : parent w = 0) (Hcp : ~ below h c p).
Context (Ht : kids_once t) (Hct : kid t c) (Htk : forall x, kid t x -> x = c \/ kid (type v) x)
  (Hkt : forall x, kid (type v) x -> kid t x \/ x ∈ l).

Lemma attach_ne : c <> p.
Proof using Hcp. intros E. apply Hcp. by rewrite E. Qed.
Lemma attach_p : attach h p v t c w !! p = Some {| type := t; parent := parent v |}.
Proof using Type. apply lookup_insert_eq. Qed.
Lemma attach_c : attach h p v t c w !! c = Some {| type := type w; parent := p |}.
Proof using Hcp. unfold attach. pose proof attach_ne. by rewrite lookup_insert_ne, lookup_insert_eq by done. Qed.
Lemma attach_other q : q <> p -> q <> c -> attach h p v t c w !! q = h !! q.
Proof using Type. intros Hqp Hqc. unfold attach. by rewrite !lookup_insert_ne by done. Qed.
(** Every node is an old one, with its parent, or [c]. *)
Lemma attach_inv q u : attach h p v t c w !! q = Some u ->
  exists u0, h !! q = Some u0 /\ (q = c \/ parent u = parent u0) /\ (q = p /\ type u = t \/ q <> p /\ type u = type u0).
Proof using Hp Hc Hcp.
  destruct (decide (q = p)) as [->|Hqp]; [rewrite attach_p; intros [= <-]; exists v; cbn; auto|].
  destruct (decide (q = c)) as [->|Hqc]; [rewrite attach_c; intros [= <-]; exists w; cbn; auto|].
  rewrite attach_other by done. intros Hq. exists u. auto.
Qed.
Lemma attach_live q u0 : h !! q = Some u0 -> exists u, attach h p v t c w !! q = Some u /\
  (q <> c -> parent u = parent u0) /\ (q <> p -> type u = type u0).
Proof using Hp Hc Hcp.
  intros Hq. destruct (decide (q = p)) as [->|Hqp]; [rewrite attach_p; eexists; split; [done|]; cbn; split; congruence|].
  destruct (decide (q = c)) as [->|Hqc]; [rewrite attach_c; eexists; split; [done|]; cbn; split; congruence|].
  rewrite attach_other by done. eauto.
Qed.
Lemma attach_depth_outside n q : depth h n q -> ~ below h c q -> depth (attach h p v t c w) n q.
Proof using W Hp Hc Hcp.
  intros Hd. induction Hd as [q u Hq H0|n q u Hq H0 _ IH]; intros Hb;
    destruct (attach_live q u Hq) as (u' & Hu' & E & _); (assert (q <> c) as Hqc by (intros ->; by apply Hb)).
  - eapply depth_root; [done|]. by rewrite E.
  - eapply depth_up; [done|by rewrite E|]. rewrite E by done. apply IH. intros Hb'. apply Hb. eapply rtc_r; [done|].
    apply (jw_parent _ h W q u Hq H0). by intros [].
Qed.
Lemma attach_depth n q : depth h n q -> exists m, depth (attach h p v t c w) m q.
Proof using W Hp Hc Hc0 Hcp.
  destruct (jw_depth _ h W p v Hp) as [k Hk]. pose proof (live_nonzero h p v (jw_zero _ h W) Hp) as Hp0.
  assert (Hdc : depth (attach h p v t c w) (S k) c).
  { eapply depth_up; [apply attach_c|done|]. by apply attach_depth_outside. }
  intros Hd. induction Hd as [q u Hq H0|n q u Hq H0 _ [m IH]];
    (destruct (decide (q = c)) as [->|Hqc]; [by eauto|]); destruct (attach_live q u Hq) as (u' & Hu' & E & _).
  - exists 0%nat. eapply depth_root; [done|]. by rewrite E.
  - exists (S m). eapply depth_up; [done|by rewrite E|]. by rewrite E.
Qed.
Lemma wf_attach : json_wf (plus none l) (attach h p v t c w).
Proof using All.
  pose proof (jw_zero _ h W) as H0. split.
  - pose proof (live_nonzero h p v H0 Hp). pose proof (live_nonzero h c w H0 Hc). by rewrite attach_other.
  - intros q u Hq. destruct (attach_inv q u Hq) as (u0 & Hu0 & _ & [[-> ->]|[_ ->]]); [done|]. by eapply jw_once.
  - intros q u x Hq Hx. assert (q = p /\ x = c \/ kid (type v) x /\ q = p \/ q <> p /\ exists u0, h !! q = Some u0 /\ kid (type u0) x) as Hcase.
    { destruct (attach_inv q u Hq) as (u0 & Hu0 & _ & [[-> Et]|[Hne Et]]); [|right; right; split; [done|]; exists u0; by rewrite <- Et].
      rewrite Et in Hx. destruct (Htk x Hx) as [->|]; [by left|by right; left]. }
    destruct Hcase as [[-> ->]|Hcase]; [rewrite attach_c; eauto|].
    assert (exists w0, h !! x = Some w0 /\ parent w0 = q) as (w0 & Hw0 & E).
    { destruct Hcase as [[Hk ->]|(_ & u0 & Hu0 & Hk)]; by eapply jw_kid. }
    destruct (attach_live x w0 Hw0) as (w' & Hw' & Ep & _). exists w'. split; [done|]. rewrite Ep; [done|].
    intros ->. assert (E0 : q = 0) by congruence. pose proof (live_nonzero h p v H0 Hp).
    destruct Hcase as [[_ Eq]|(_ & u0 & Hu0 & _)]; congruence.
  - intros q u Hq Hu Ho. destruct (decide (q = c)) as [->|Hqc].
    { rewrite attach_c in Hq. injection Hq as <-. eexists. cbn. split; [apply attach_p|done]. }
    destruct (attach_inv q u Hq) as (u0 & Hu0 & [->|E] & _); [done|]. rewrite E in *.
    destruct (jw_parent _ h W q u0 Hu0 Hu) as (x & Hx & Hk); [by intros []|]. destruct (decide (parent u0 = p)) as [Ep|Ep].
    + rewrite Ep in *. assert (x = v) as -> by congruence. eexists. split; [apply attach_p|]. cbn.
      destruct (Hkt q Hk) as [|Hl]; [done|]. destruct Ho. by right.
    + destruct (attach_live _ x Hx) as (x' & Hx' & _ & Et). exists x'. split; [done|]. by rewrite Et.
  - intros q u Hq. destruct (attach_inv q u Hq) as (u0 & Hu0 & _). destruct (jw_depth _ h W q u0 Hu0) as [n Hn].
    by eapply attach_depth.
Qed.
End attach.

(** ** Objects *)

Lemma rtc_avoid {A} (R R' : A -> A -> Prop) (p o q : A) : (forall a b, a <> p -> R' a b -> R a b) ->
  ~ rtc R o p -> rtc R' o q -> rtc R o q.
Proof.
  intros HR Hn H. induction H as [|x y z Hxy _ IH]; [done|]. assert (R x y) as Hxy'.
  { apply HR; [|done]. intros ->. by apply Hn. }
  eapply rtc_l; [done|]. apply IH. intros Hy. apply Hn. by eapply rtc_l.
Qed.
Lemma rtc_avoid_iff {A} (R R' : A -> A -> Prop) (p o q : A) : (forall a b, a <> p -> R' a b <-> R a b) ->
  ~ rtc R o p -> rtc R' o q <-> rtc R o q.
Proof.
  intros HR Hn. split; [apply rtc_avoid with p; [|done]; intros a b Ha; by apply HR|].
  apply rtc_avoid with p; [intros a b Ha; by apply HR|]. intros H. apply Hn. revert H. apply rtc_avoid with p; [|done].
  intros a b Ha. by apply HR.
Qed.

Section objects.
Context (h : json_heap) (p : Z) (v : ov_json_value) (d : ov_dict).
Context (W : wf h) (Hp : h !! p = Some v) (Hd : type v = OV_JSON_OBJECT d).

Lemma object_dict_ok : dict_ok d.
Proof using All. pose proof (jw_once _ h W _ _ Hp) as Ho. rewrite Hd in Ho. by destruct Ho. Qed.
Lemma object_inj k k' c : dict_map d !! k = Some c -> dict_map d !! k' = Some c -> k = k'.
Proof using All. pose proof (jw_once _ h W _ _ Hp) as Ho. rewrite Hd in Ho. destruct Ho as [_ Ho]. apply Ho. Qed.
Lemma object_kid k c : dict_map d !! k = Some c -> exists w, h !! c = Some w /\ parent w = p.
Proof using All. intros Hk. eapply (jw_kid _ h W p v); [done|]. rewrite Hd. by exists k. Qed.
Lemma object_edge k c : dict_map d !! k = Some c -> edge h p c.
Proof using Hp Hd. intros Hk. exists v. split; [done|]. rewrite Hd. by exists k. Qed.
Lemma get_key_object k : get_key h p k = dict_map d !! k.
Proof using Hp Hd. unfold get_key. by rewrite Hp, Hd. Qed.
Lemma as_object : AS_JSON_OBJECT h p = Some (Some d).
Proof using All. by rewrite (AS_OBJECT_eq h p v (jw_zero _ h W) Hp), Hd. Qed.

Lemma object_get_spec k : ov_json_object_get h p k = Some (default 0 (dict_map d !! k)).
Proof using All.
  unfold ov_json_object_get. rewrite as_object. cbn [mbind option_bind]. rewrite (dict_get_spec d k object_dict_ok).
  cbn [mbind option_bind]. unfold ov_json_value_cast. destruct (dict_map d !! k) as [c|] eqn:E; [|done]. cbn [from_option]. unfold id.
  destruct (object_kid k c E) as (w & Hw & _). rewrite (jload_Some h c w (jw_zero _ h W) Hw).
  pose proof (live_nonzero h c w (jw_zero _ h W) Hw). by rewrite (proj2 (Z.eqb_neq c 0)).
Qed.

(** What is below the value at a key. *)
Definition under (k : string) (q : Z) : Prop := exists o, dict_map d !! k = Some o /\ below h o q.
Lemma not_under_p k : ~ under k p.
Proof using All. intros (o & Ho & Hb). destruct (object_edge k o Ho) as (x & Hx & Hk). eapply (below_antisym _ h p o); [done..| |done]. by exists x. Qed.
Lemma root_not_under k c w : h !! c = Some w -> parent w = 0 -> ~ under k c.
Proof using All.
  intros Hc H0 (o & Ho & Hb). pose proof (below_root _ h o c w W Hc H0 Hb) as ->.
  destruct (object_kid k c Ho) as (w' & Hw' & E). assert (p = 0) as Ep by congruence. pose proof (jw_zero _ h W). congruence.
Qed.

(** The value [o] of the key [k] is cut off, the node of the object has changed,
    and [c] may hang below it now: [o] is freed. *)
Lemma free_replaced k o h2 d' q0 : dict_map d !! k = Some o -> json_wf (plus none [o]) h2 ->
  h2 !! p = Some {| type := OV_JSON_OBJECT d'; parent := q0 |} -> ~ kid (OV_JSON_OBJECT d') o ->
  (forall x u, x <> p -> h2 !! x = Some u -> exists u0, h !! x = Some u0 /\ type u = type u0) ->
  (forall x u, x <> p -> h !! x = Some u -> exists u0, h2 !! x = Some u0 /\ type u0 = type u) ->
  detached h2 o /\ (forall q, below h2 o q <-> below h o q) /\
  forall h3, sub h3 h2 -> sub h2 h3 -> json_wf none h3 -> detached h3 o -> is_Some (h3 !! o) ->
    exists h', ov_json_value_free h3 o = Some (0, h') /\ wf h' /\
      (forall q, under k q -> h' !! q = None) /\ (forall q, ~ under k q -> h' !! q = h3 !! q).
Proof using All.
  intros Ho W2 Hp2 Hno Hto Hfrom.
  assert (Hedge : forall a b, a <> p -> edge h2 a b <-> edge h a b).
  { intros a b Ha. split; intros (x & Hx & Hk).
    - destruct (Hto a x Ha Hx) as (y & Hy & E). exists y. by rewrite <- E.
    - destruct (Hfrom a x Ha Hx) as (y & Hy & E). exists y. by rewrite E. }
  assert (Hdet : detached h2 o).
  { intros a He. destruct (decide (a = p)) as [->|Ha].
    - destruct He as (x & Hx & Hk). rewrite Hp2 in Hx. injection Hx as <-. done.
    - apply Hedge in He; [|done]. by pose proof (edge_inj _ h a p o W He (object_edge k o Ho)). }
  assert (Hbel : forall q, below h2 o q <-> below h o q).
  { intros q. apply rtc_avoid_iff with p; [done|]. intros Hb. apply (not_under_p k). by exists o. }
  split; [done|]. split; [done|]. intros h3 S32 S23 W3 Hdet3 [w3 Hw3].
  assert (H32 : forall q, below h3 o q <-> below h o q).
  { intros q. rewrite <- Hbel. split; apply sub_below; done. }
  destruct (json_free_detached none h3 o w3 W3 Hw3 Hdet3) as (h' & E & W' & F); [by intros x u []|].
  exists h'. split; [done|]. split; [eapply wf_mono; [|done]; by intros x []|]. split.
  - intros q (o' & Ho' & Hb). assert (o' = o) as -> by congruence.
    eapply (freed_below none _ h3 h' o); [done|done|by intros x []|done|by apply H32].
  - intros q Hq. apply (fr_rest _ _ _ F). intros c ->%list_elem_of_singleton Hb. apply Hq. exists o. split; [done|]. by apply H32.
Qed.
End objects.

Lemma sub_cut h o w q : h !! o = Some w -> sub (<[o := {| type := type w; parent := q |}]> h) h /\
  sub h (<[o := {| type := type w; parent := q |}]> h).
Proof.
  intros Ho. split; intros x u.
  - destruct (decide (x = o)) as [->|Hx]; [rewrite lookup_insert_eq; intros [= <-]; eauto|rewrite lookup_insert_ne by done; eauto].
  - intros Hu. destruct (decide (x = o)) as [->|Hx]; [rewrite lookup_insert_eq|rewrite lookup_insert_ne by done; eauto].
    assert (u = w) as -> by congruence. eauto.
Qed.

Lemma object_set_spec h p v d k c w : wf h -> h !! p = Some v -> type v = OV_JSON_OBJECT d ->
  h !! c = Some w -> parent w = 0 -> ~ below h c p ->
  exists d' h', ov_json_object_set h p k c = Some (true, h') /\ wf h' /\ dict_ok d' /\ dict_map d' = <[k := c]> (dict_map d) /\
    (forall q, under h d k q -> h' !! q = None) /\
    (forall q, ~ under h d k q -> h' !! q = attach h p v (OV_JSON_OBJECT d') c w !! q).
Proof.
  intros W Hp Hd Hc Hc0 Hcp. pose proof (jw_zero _ h W) as H0. pose proof (live_nonzero h p v H0 Hp) as Hp0.
  pose proof (live_nonzero h c w H0 Hc) as Hcn. pose proof (attach_ne h p c Hcp) as Hne.
  pose proof (object_dict_ok h p v d W Hp Hd) as Hok. pose proof (object_inj h p v d W Hp Hd) as Hinj.
  assert (Hckid : forall k', dict_map d !! k' <> Some c).
  { intros k' Hk'. destruct (object_kid h p v d W Hp Hd k' c Hk') as (w' & Hw' & E). congruence. }
  destruct (dict_set_spec d k c Hok) as (d' & Eset & Hok' & Hm').
  set (h2 := attach h p v (OV_JSON_OBJECT d') c w).
  assert (Hp2 : h2 !! p = Some {| type := OV_JSON_OBJECT d'; parent := parent v |}) by apply attach_p.
  assert (W2 : json_wf (plus none (option_list (dict_map d !! k))) h2).
  { apply wf_attach; try done.
    - split; [done|]. intros k1 k2 x. rewrite Hm', !lookup_insert_Some. intros [[<- <-]|[Hk1 H1]] [[<- E2]|[Hk2 H2]]; try congruence. by eapply Hinj.
    - exists k. by rewrite Hm', lookup_insert_eq.
    - intros x (k' & Hk'). rewrite Hm' in Hk'. rewrite Hd. apply lookup_insert_Some in Hk' as [[_ <-]|[_ Hk']]; [by left|]. right. by exists k'.
    - rewrite Hd. intros x (k' & Hk'). destruct (decide (k' = k)) as [->|Hkk].
      + right. rewrite Hk'. by left.
      + left. exists k'. by rewrite Hm', lookup_insert_ne. }
  unfold ov_json_object_set. rewrite (as_object h p v d W Hp Hd). cbn [mbind option_bind].
  rewrite (proj2 (Z.eqb_neq c 0) Hcn), (jload_Some h c w H0 Hc). cbn [mbind option_bind]. rewrite (proj2 (Z.eqb_neq c p) Hne).
  unfold ov_json_value_set_parent. rewrite (proj2 (Z.eqb_neq c 0) Hcn), (proj2 (Z.eqb_neq p 0) Hp0). cbn [orb].
  rewrite (jload_Some h c w H0 Hc). cbn [mbind option_bind]. rewrite Hc0. cbn [Z.eqb negb andb].
  rewrite (jload_Some h p v H0 Hp). cbn [mbind option_bind]. rewrite Hd, (set_parent_eq h c w p H0 Hc). cbn [mbind option_bind negb].
  set (h1 := <[c := _]> h). assert (H01 : h1 !! 0 = None) by (unfold h1; by rewrite lookup_insert_ne).
  assert (Hp1 : h1 !! p = Some v) by (unfold h1; by rewrite lookup_insert_ne).
  rewrite (AS_OBJECT_eq h1 p v H01 Hp1), Hd. cbn [mbind option_bind]. rewrite Eset. cbn [mbind option_bind].
  rewrite (set_type_eq h1 p v _ H01 Hp1). cbn [mbind option_bind]. change (<[p := {| type := OV_JSON_OBJECT d'; parent := parent v |}]> h1) with h2.
  destruct (dict_map d !! k) as [o|] eqn:Eo; cbn [option_list] in W2.
  2:{ exists d', h2. split; [done|]. split; [eapply wf_mono; [|done]; by intros x [[]|?%elem_of_nil]|].
      split; [done|]. split; [done|]. split; [|done]. intros q (o & Ho & _). congruence. }
  destruct (object_kid h p v d W Hp Hd k o Eo) as (wo & Hwo & Epo). pose proof (live_nonzero h o wo H0 Hwo) as Hon.
  assert (Hoc : o <> c) by (intros ->; by destruct (Hckid k)).
  assert (Hop : o <> p) by (intros ->; assert (wo = v) as -> by congruence; apply (not_under_p h p v d W Hp Hd k); by exists p).
  destruct (free_replaced h p v d W Hp Hd k o h2 d' (parent v) Eo W2 Hp2) as (Hdet & Hbel & Hfree).
  { intros (k' & Hk'). rewrite Hm' in Hk'. apply lookup_insert_Some in Hk' as [[_ Ec]|[Hkk Hk']]; [congruence|].
    apply Hkk. by eapply Hinj. }
  { intros x u Hx Hu. destruct (attach_inv h p v _ c w Hp Hc Hcp x u Hu) as (u0 & Hu0 & _ & [[? _]|[_ Et]]); [done|eauto]. }
  { intros x u Hx Hu. destruct (attach_live h p v (OV_JSON_OBJECT d') c w Hp Hc Hcp x u Hu) as (u0 & Hu0 & _ & Et). eauto. }
  rewrite (proj2 (Z.eqb_neq o 0) Hon).
  assert (Ho2 : h2 !! o = Some wo) by (unfold h2; by rewrite attach_other).
  rewrite (set_parent_eq h2 o wo 0 (jw_zero _ h2 W2) Ho2). cbn [mbind option_bind].
  destruct (wf_cut _ h2 o wo W2 Ho2 Hdet) as [W3 He3]. destruct (sub_cut h2 o wo 0 Ho2) as [S32 S23].
  destruct (Hfree _ S32 S23) as (h' & E' & W' & Hgone & Hrest).
  - eapply wf_mono; [|exact W3]. intros x [[[]|Hx] Hne']. by apply list_elem_of_singleton in Hx.
  - intros a He. by apply (Hdet a), He3.
  - rewrite lookup_insert_eq. eauto.
  - rewrite E'. cbn [mbind option_bind]. exists d', h'. split; [done|]. split; [done|]. split; [done|]. split; [done|].
    split; [done|]. intros q Hq. rewrite Hrest by done. rewrite lookup_insert_ne; [done|]. intros ->. apply Hq. by exists q.
Qed.
Lemma object_del_spec h p v d k : wf h -> h !! p = Some v -> type v = OV_JSON_OBJECT d ->
  exists d' h', ov_json_object_del h p k = Some (true, h') /\ wf h' /\ dict_ok d' /\ dict_map d' = delete k (dict_map d) /\
    (forall q, under h d k q -> h' !! q = None) /\
    (forall q, ~ under h d k q -> h' !! q = <[p := {| type := OV_JSON_OBJECT d'; parent := parent v |}]> h !! q).
Proof.
  intros W Hp Hd. pose proof (jw_zero _ h W) as H0. pose proof (object_dict_ok h p v d W Hp Hd) as Hok.
  destruct (dict_remove_spec d k Hok) as (d' & Edel & Hok' & Hm').
  destruct (wf_shrink none h p v (OV_JSON_OBJECT d') (option_list (dict_map d !! k)) W Hp) as [W2 S2].
  { split; [done|]. intros k1 k2 x. rewrite Hm', !lookup_delete_Some. intros [_ H1] [_ H2]. by eapply (object_inj h p v d W Hp Hd). }
  { intros x (k' & Hk'). rewrite Hm' in Hk'. apply lookup_delete_Some in Hk' as [_ Hk']. rewrite Hd. by exists k'. }
  { rewrite Hd. intros x (k' & Hk'). destruct (decide (k' = k)) as [->|Hkk]; [right; rewrite Hk'; by left|].
    left. exists k'. by rewrite Hm', lookup_delete_ne. }
  set (h2 := <[p := _]> h) in *. assert (Hp2 : h2 !! p = Some {| type := OV_JSON_OBJECT d'; parent := parent v |}) by apply lookup_insert_eq.
  unfold ov_json_object_del, impl_dict_del. rewrite (as_object h p v d W Hp Hd). cbn [mbind option_bind]. rewrite Edel. cbn [mbind option_bind].
  rewrite (set_type_eq h p v _ H0 Hp). cbn [mbind option_bind]. fold h2.
  destruct (dict_map d !! k) as [o|] eqn:Eo; cbn [option_list from_option] in W2 |- *.
  2:{ exists d', h2. split; [done|]. split; [eapply wf_mono; [|done]; by intros x [[]|?%elem_of_nil]|].
      split; [done|]. split; [done|]. split; [|done]. intros q (o & Ho & _). congruence. }
  unfold id. destruct (object_kid h p v d W Hp Hd k o Eo) as (wo & Hwo & Epo). pose proof (live_nonzero h o wo H0 Hwo) as Hon.
  assert (Hop : o <> p) by (intros ->; apply (not_under_p h p v d W Hp Hd k); by exists p).
  destruct (free_replaced h p v d W Hp Hd k o h2 d' (parent v) Eo W2 Hp2) as (Hdet & Hbel & Hfree).
  { intros (k' & Hk'). rewrite Hm' in Hk'. apply lookup_delete_Some in Hk' as [Hkk Hk']. apply Hkk. by eapply (object_inj h p v d W Hp Hd). }
  { intros x u Hx Hu. exists u. unfold h2 in Hu. by rewrite lookup_insert_ne in Hu. }
  { intros x u Hx Hu. exists u. unfold h2. by rewrite lookup_insert_ne. }
  rewrite (proj2 (Z.eqb_neq o 0) Hon). assert (Ho2 : h2 !! o = Some wo) by (unfold h2; by rewrite lookup_insert_ne).
  destruct (json_free_detached _ h2 o wo W2 Ho2 Hdet) as (h' & E' & W' & F).
  { intros x u [[]|Hx] Hxo; by apply list_elem_of_singleton in Hx. }
  rewrite E'. cbn [mbind option_bind]. exists d', h'. split; [done|].
  assert (W'' : wf h') by (eapply wf_mono; [|exact W']; intros x [[[]|Hx] Hne']; by apply list_elem_of_singleton in Hx).
  split; [done|]. split; [done|]. split; [done|]. split.
  - intros q (o' & Ho' & Hb). assert (o' = o) as -> by congruence.
    eapply (freed_below _ none h2 h' o); [done|done|by intros x []|done|by apply Hbel].
  - intros q Hq. apply (fr_rest _ _ _ F). intros c ->%list_elem_of_singleton Hb. apply Hq. exists o. split; [done|]. by apply Hbel.
Qed.
