(* ===== verification/JsonPaths.v ===== *)
(** * JSON values: paths of keys

    [walk]: the node that a list of keys leads to. In a heap of trees a node has
    one path from a root; the operations on objects change the paths that lead
    through the key they work on, and no other. *)
From S2P Require Import Prelude Hashtable OvList Dict JsonValue JsonTree JsonOps.

(** ** Walks along a function *)

Fixpoint walk (g : Z -> string -> option Z) (r : Z) (ks : list string) : option Z :=
  match ks with
  | [] => Some r
  | k :: ks => c ← g r k; walk g c ks
  end.
Abbreviation get_path h := (walk (get_key h)).

Lemma walk_app g r a b : walk g r (a ++ b) = (c ← walk g r a; walk g c b).
Proof. revert r. induction a as [|k a IH]; intros r; [done|]. cbn [app walk]. destruct (g r k); [apply IH|done]. Qed.
Lemma walk_snoc g r a k : walk g r (a ++ [k]) = (c ← walk g r a; g c k).
Proof. rewrite walk_app. destruct (walk g r a) as [c|]; [|done]. cbn. by destruct (g c k). Qed.
Lemma walk_cons_Some g r k ks q : walk g r (k :: ks) = Some q <-> exists c, g r k = Some c /\ walk g c ks = Some q.
Proof. cbn [walk]. destruct (g r k) as [c|]; cbn; [|split; [done|]; by intros (? & ? & _)]. split; [eauto|]. by intros (c' & [= <-] & H). Qed.
Lemma walk_app_Some g r a b q : walk g r (a ++ b) = Some q <-> exists c, walk g r a = Some c /\ walk g c b = Some q.
Proof.
  rewrite walk_app. destruct (walk g r a) as [c|]; cbn; [|split; [done|]; by intros (? & ? & _)].
  split; [eauto|]. by intros (c' & [= <-] & H).
Qed.

(** The nodes [U] are cut off at the key [k] of [p]; the key leads to [new] now. *)
Record rekeyed (g g' : Z -> string -> option Z) (p : Z) (k : string) (new : option Z) (U : Z -> Prop) : Prop := {
  rk_gone q k' : U q -> g' q k' = None;
  rk_keep q k' : ~ U q -> (q <> p \/ k' <> k) -> g' q k' = g q k';
  rk_new : g' p k = new;
  rk_p : ~ U p;
  rk_in q k' x : g q k' = Some x -> U x -> ~ U q -> q = p /\ k' = k;
  rk_old x : g p k = Some x -> U x;
  rk_closed q k' x : g q k' = Some x -> U q -> U x
}.
Section rekeyed.
Context {g g' : Z -> string -> option Z} {p : Z} {k : string} {new : option Z} {U : Z -> Prop}.
Context (R : rekeyed g g' p k new U).
Lemma rk_closed_walk r ks q : U r -> walk g r ks = Some q -> U q.
Proof using R.
  revert r. induction ks as [|k' ks IH]; intros r Hr; [by intros [= <-]|]. rewrite walk_cons_Some. intros (c & Hc & Hw).
  by eapply IH; [eapply (rk_closed _ _ _ _ _ _ R)|].
Qed.
(** A walk that ends outside of what is cut off. *)
Lemma rk_walk_old r ks q : walk g r ks = Some q -> ~ U q -> walk g' r ks = Some q.
Proof using R.
  revert r. induction ks as [|k' ks IH]; intros r; [done|]. rewrite !walk_cons_Some. intros (c & Hc & Hw) Hq.
  assert (Hcu : ~ U c) by (intros Hu; apply Hq; by eapply rk_closed_walk).
  exists c. split; [|by apply IH]. rewrite (rk_keep _ _ _ _ _ _ R); [done| |].
  - intros Hu. apply Hcu. by eapply (rk_closed _ _ _ _ _ _ R).
  - destruct (decide (r = p)) as [->|]; [|by left]. right. intros ->. apply Hcu. by apply (rk_old _ _ _ _ _ _ R).
Qed.
Lemma rk_walk_new r ks q : ~ U r -> walk g' r ks = Some q ->
  (walk g r ks = Some q /\ ~ U q) \/ exists a b c, ks = a ++ k :: b /\ new = Some c /\ walk g r a = Some p /\ walk g' c b = Some q.
Proof using R.
  revert r. induction ks as [|k' ks IH]; intros r Hr; [intros [= <-]; by left|]. rewrite walk_cons_Some. intros (c & Hc & Hw).
  destruct (decide (r = p /\ k' = k)) as [[-> ->]|Hne].
  - right. rewrite (rk_new _ _ _ _ _ _ R) in Hc. exists [], ks, c. done.
  - assert (Hd : r <> p \/ k' <> k) by (destruct (decide (r = p)); [right|left]; naive_solver).
    rewrite (rk_keep _ _ _ _ _ _ R) in Hc by done.
    assert (Hcu : ~ U c) by (intros Hu; by apply Hne, (rk_in _ _ _ _ _ _ R r k' c)).
    destruct (IH c Hcu Hw) as [[Hw' Hq]|(a & b & c' & -> & E & Ha & Hb)]; [left; split; [|done]; rewrite walk_cons_Some; eauto|].
    right. exists (k' :: a), b, c'. split; [done|]. split; [done|]. split; [|done]. rewrite walk_cons_Some. eauto.
Qed.
Lemma rk_walk_cut r ks q : new = None -> ~ U r -> walk g' r ks = Some q <-> walk g r ks = Some q /\ ~ U q.
Proof using R.
  intros Hn Hr. split; [|intros []; by apply rk_walk_old]. intros Hw.
  destruct (rk_walk_new r ks q Hr Hw) as [|(a & b & c & _ & E & _)]; [done|]. congruence.
Qed.
(** The tree below [c] is not touched. *)
Lemma rk_walk_below c ks : (forall a x, walk g c a = Some x -> ~ U x /\ x <> p) -> walk g' c ks = walk g c ks.
Proof using R.
  revert c. induction ks as [|k' ks IH]; intros c Hc; [done|]. cbn [walk]. destruct (Hc [] c eq_refl) as [Hu Hp].
  rewrite (rk_keep _ _ _ _ _ _ R) by auto. destruct (g c k') as [x|] eqn:Ex; [|done]. cbn [mbind option_bind].
  apply IH. intros a y Hy. apply (Hc (k' :: a)). rewrite walk_cons_Some. eauto.
Qed.
Lemma rk_walk_set c r ks q : new = Some c -> (forall a x, walk g c a = Some x -> ~ U x /\ x <> p) -> ~ U r ->
  walk g' r ks = Some q <->
    (walk g r ks = Some q /\ ~ U q) \/ exists a b, ks = a ++ k :: b /\ walk g r a = Some p /\ walk g c b = Some q.
Proof using R.
  intros Hn Hc Hr. split.
  - intros Hw. destruct (rk_walk_new r ks q Hr Hw) as [|(a & b & c' & -> & E & Ha & Hb)]; [by left|]. right.
    assert (c' = c) as -> by congruence. exists a, b. split; [done|]. split; [done|]. by rewrite rk_walk_below in Hb.
  - intros [[Hw Hq]|(a & b & -> & Ha & Hb)]; [by apply rk_walk_old|]. rewrite walk_app_Some. exists p.
    split; [apply rk_walk_old; [done|apply (rk_p _ _ _ _ _ _ R)]|]. rewrite walk_cons_Some. exists c.
    rewrite (rk_new _ _ _ _ _ _ R). split; [done|]. by rewrite rk_walk_below.
Qed.
End rekeyed.

(** ** Paths in a heap *)

Definition is_root (h : json_heap) (r : Z) : Prop := exists v, h !! r = Some v /\ parent v = 0.

Lemma path_below h r ks q : get_path h r ks = Some q -> below h r q.
Proof.
  revert r. induction ks as [|k ks IH]; intros r; [by intros [= <-]|]. rewrite walk_cons_Some. intros (c & Hc & Hw).
  eapply rtc_l; [by eapply get_key_edge|by apply IH].
Qed.
Lemma path_live O h r ks q : json_wf O h -> is_Some (h !! r) -> get_path h r ks = Some q -> is_Some (h !! q).
Proof. intros W Hr Hp. eapply below_live; [done|done|by eapply path_below]. Qed.
Lemma get_key_parent O h p k c : json_wf O h -> get_key h p k = Some c -> exists w, h !! c = Some w /\ parent w = p.
Proof. intros W Hk. by eapply edge_parent, get_key_edge. Qed.
Lemma get_key_is_object h p k c : get_key h p k = Some c -> is_object h p.
Proof.
  unfold get_key, is_object. destruct (h !! p) as [[t q]|]; [|done]. cbn. destruct t; try done. eauto.
Qed.
(** What is above a node of a path is on the path. *)
Lemma below_path h r ks x q : wf h -> is_root h r -> get_path h r ks = Some q -> below h x q ->
  exists a b, ks = a ++ b /\ get_path h r a = Some x /\ get_path h x b = Some q.
Proof.
  intros W (v & Hv & H0). revert q. induction ks as [|k ks IH] using rev_ind; intros q Hw Hb.
  - injection Hw as <-. pose proof (below_root _ h x r v W Hv H0 Hb) as ->. by exists [], [].
  - rewrite walk_snoc in Hw. destruct (get_path h r ks) as [c|] eqn:Ec; [|done]. cbn in Hw.
    apply rtc_inv_r in Hb as [->|(c' & Hb & He)].
    + exists (ks ++ [k]), []. split; [by rewrite app_nil_r|]. split; [|done]. rewrite walk_snoc, Ec. done.
    + rewrite (edge_inj _ h c' c q W He (get_key_edge h c k q Hw)) in Hb. destruct (IH c eq_refl Hb) as (a & b & -> & Ha & Hb').
      exists a, (b ++ [k]). split; [by rewrite app_assoc|]. split; [done|]. by rewrite walk_snoc, Hb'.
Qed.
Lemma path_inj h r ks ks' q : wf h -> is_root h r -> get_path h r ks = Some q -> get_path h r ks' = Some q -> ks = ks'.
Proof.
  intros W Hr. destruct Hr as (v & Hv & H0). revert ks' q. induction ks as [|k ks IH] using rev_ind; intros ks' q Hw Hw'.
  - injection Hw as <-. destruct ks' as [|k' ks' _] using rev_ind; [done|]. rewrite walk_snoc in Hw'.
    destruct (get_path h r ks') as [c|]; [|done]. cbn in Hw'. destruct (get_key_parent _ h c k' r W Hw') as (w & Hw & E).
    assert (c = 0) as -> by congruence. unfold get_key in Hw'. by rewrite (jw_zero _ h W) in Hw'.
  - rewrite walk_snoc in Hw. destruct (get_path h r ks) as [c|] eqn:Ec; [|done]. cbn in Hw.
    destruct (get_key_parent _ h c k q W Hw) as (w & Hqw & E).
    destruct ks' as [|k' ks' _] using rev_ind.
    + injection Hw' as <-. assert (c = 0) as -> by congruence. unfold get_key in Hw. by rewrite (jw_zero _ h W) in Hw.
    + rewrite walk_snoc in Hw'. destruct (get_path h r ks') as [c'|] eqn:Ec'; [|done]. cbn in Hw'.
      destruct (get_key_parent _ h c' k' q W Hw') as (w' & Hqw' & E'). assert (c' = c) as -> by congruence.
      rewrite (IH ks' c eq_refl Ec'). by rewrite (get_key_inj _ h c k k' q W Hw Hw').
Qed.
Lemma root_alone h r x : wf h -> is_root h r -> below h x r -> x = r.
Proof. intros W (v & Hv & H0). by apply (below_root _ h x r v W). Qed.

(** ** What an operation on an object changes *)

(** The tree at the key [k] of [p]. *)
Definition at_key (h : json_heap) (p : Z) (k : string) (q : Z) : Prop := exists o, get_key h p k = Some o /\ below h o q.

Record changed (h : json_heap) (p : Z) (k : string) (new : option Z) (h' : json_heap) : Prop := {
  ch_wf : wf h';
  ch_gone q : at_key h p k q -> h' !! q = None;
  ch_keep q : ~ at_key h p k q -> q <> p -> new <> Some q -> h' !! q = h !! q;
  ch_object v : h !! p = Some v -> exists d, type v = OV_JSON_OBJECT d;
  ch_p v : h !! p = Some v -> exists d, h' !! p = Some {| type := OV_JSON_OBJECT d; parent := parent v |};
  ch_new c w : new = Some c -> h !! c = Some w -> h' !! c = Some {| type := type w; parent := p |};
  ch_keys : rekeyed (get_key h) (get_key h') p k new (at_key h p k);
  ch_live : is_Some (h !! p) /\ ~ at_key h p k p /\ forall c, new = Some c -> is_Some (h !! c) /\ ~ at_key h p k c
}.
Lemma get_key_same h h' q k : h' !! q = h !! q -> get_key h' q k = get_key h q k.
Proof. intros E. unfold get_key. by rewrite E. Qed.
Lemma at_key_object h p v d k q : h !! p = Some v -> type v = OV_JSON_OBJECT d -> at_key h p k q <-> under h d k q.
Proof. intros Hp Hd. unfold at_key, under. by rewrite (get_key_object h p v d Hp Hd). Qed.
(** Both operations leave an object with another dictionary. *)
Lemma changed_intro h p v d d' k new h' : wf h -> wf h' -> h !! p = Some v -> type v = OV_JSON_OBJECT d ->
  (forall k', dict_map d' !! k' = if decide (k' = k) then new else dict_map d !! k') ->
  (forall c, new = Some c -> exists w, h !! c = Some w /\ parent w = 0 /\ c <> p /\ h' !! c = Some {| type := type w; parent := p |}) ->
  (forall q, under h d k q -> h' !! q = None) ->
  (forall q, ~ under h d k q -> q <> p -> new <> Some q -> h' !! q = h !! q) ->
  h' !! p = Some {| type := OV_JSON_OBJECT d'; parent := parent v |} ->
  changed h p k new h'.
Proof.
  intros W W' Hp Hd Hm Hnew Hgone Hkeep Hp'. pose proof (at_key_object h p v d k) as Hat.
  pose proof (not_under_p h p v d W Hp Hd k) as Hnp.
  assert (Hnu : forall c, new = Some c -> ~ under h d k c).
  { intros c Hc. destruct (Hnew c Hc) as (w & Hw & H0 & _). by apply (root_not_under h p v d W Hp Hd k c w). }
  split; try done.
  - intros q Hq. apply Hgone. by apply Hat.
  - intros q Hq. apply Hkeep. by rewrite <- Hat.
  - intros v' Hv'. assert (v' = v) as -> by congruence. by exists d.
  - intros v' Hv'. assert (v' = v) as -> by congruence. by exists d'.
  - intros c w Hc Hw. destruct (Hnew c Hc) as (w' & Hw' & _ & _ & E). by assert (w = w') as -> by congruence.
  - split.
    + intros q k' Hq. unfold get_key. rewrite Hgone; [done|]. by apply Hat.
    + intros q k' Hq Hne. rewrite Hat in Hq by done. destruct (decide (q = p)) as [->|Hqp].
      * unfold get_key. rewrite Hp', Hp, Hd. cbn. rewrite Hm. rewrite decide_False; [done|]. by destruct Hne.
      * destruct (decide (new = Some q)) as [Eq|Eq].
        -- destruct (Hnew q Eq) as (w & Hw & _ & _ & Hw'). unfold get_key. by rewrite Hw, Hw'.
        -- apply get_key_same. by apply Hkeep.
    + unfold get_key. rewrite Hp'. cbn. by rewrite Hm, decide_True.
    + by rewrite Hat.
    + intros q k' x Hk (o & Ho & Hb) Hq. pose proof (get_key_edge _ _ _ _ Hk) as He. apply rtc_inv_r in Hb as [->|(a & Hb & He')].
      * pose proof (edge_inj _ h q p x W He (get_key_edge _ _ _ _ Ho)) as ->. split; [done|]. by apply (get_key_inj _ h p k' k x W).
      * destruct Hq. exists o. split; [done|]. by rewrite <- (edge_inj _ h a q x W He' He).
    + intros x Hx. by exists x.
    + intros q k' x Hk (o & Ho & Hb). exists o. split; [done|]. eapply rtc_r; [done|]. by eapply get_key_edge.
  - split; [by rewrite Hp|]. split; [by rewrite Hat|]. intros c Hc. destruct (Hnew c Hc) as (w & Hw & _).
    split; [by rewrite Hw|]. rewrite Hat by done. by apply Hnu.
Qed.

Lemma set_changed h p k c : wf h -> is_object h p -> is_root h c -> ~ below h c p ->
  exists h', ov_json_object_set h p k c = Some (true, h') /\ changed h p k (Some c) h'.
Proof.
  intros W Hp (w & Hc & H0) Hcp. destruct (object_lookup h p Hp) as (v & d & Hv & Hd).
  pose proof (attach_ne h p c Hcp) as Hne.
  destruct (object_set_spec h p v d k c w W Hv Hd Hc H0 Hcp) as (d' & h' & E & W' & _ & Hm & Hgone & Hrest).
  assert (Hnp : ~ under h d k p) by (by eapply not_under_p).
  assert (Hnc : ~ under h d k c) by (by eapply root_not_under).
  exists h'. split; [done|]. eapply (changed_intro h p v d d'); try done.
  - intros k'. rewrite Hm. case_decide as Hk; [subst; by rewrite lookup_insert_eq|]. by rewrite lookup_insert_ne.
  - intros c' [= <-]. exists w. split; [done|]. split; [done|]. split; [done|]. rewrite Hrest by done. by apply attach_c.
  - intros q Hq Hqp Hqc. rewrite Hrest by done. apply attach_other; congruence.
  - rewrite Hrest by done. apply attach_p.
Qed.
Lemma del_changed h p k : wf h -> is_object h p -> exists h', ov_json_object_del h p k = Some (true, h') /\ changed h p k None h'.
Proof.
  intros W Hp. destruct (object_lookup h p Hp) as (v & d & Hv & Hd).
  destruct (object_del_spec h p v d k W Hv Hd) as (d' & h' & E & W' & _ & Hm & Hgone & Hrest).
  assert (Hnp : ~ under h d k p) by (by eapply not_under_p).
  exists h'. split; [done|]. eapply (changed_intro h p v d d'); try done.
  - intros k'. rewrite Hm. case_decide as Hk; [subst; by rewrite lookup_delete_eq|]. by rewrite lookup_delete_ne.
  - intros q Hq Hqp _. rewrite Hrest by done. by rewrite lookup_insert_ne.
  - rewrite Hrest by done. by rewrite lookup_insert_eq.
Qed.
(** Neither does anything to a value that is not an object. *)
Lemma set_not_object h p k c : h !! 0 = None -> (p = 0 \/ is_Some (h !! p)) -> ~ is_object h p ->
  ov_json_object_set h p k c = Some (false, h) /\ ov_json_object_del h p k = Some (false, h) /\ ov_json_object_get h p k = Some 0.
Proof.
  intros H0 Hp Hn. assert (E : AS_JSON_OBJECT h p = Some None).
  { destruct Hp as [->|[v Hv]]; [done|]. rewrite (AS_OBJECT_eq h p v H0 Hv). destruct (type v) eqn:Et; try done.
    destruct Hn. destruct v as [t q]. cbn in Et. subst t. by eexists _, _. }
  unfold ov_json_object_set, ov_json_object_del, ov_json_object_get. by rewrite E.
Qed.
Lemma json_get_spec h p k : wf h -> (p = 0 \/ is_Some (h !! p)) -> ov_json_object_get h p k = Some (default 0 (get_key h p k)).
Proof.
  intros W Hp. pose proof (jw_zero _ h W) as H0. unfold get_key. destruct Hp as [->|[v Hv]]; [by rewrite H0|]. rewrite Hv.
  destruct (type v) as [d| | | | | |] eqn:Et; [by apply (object_get_spec h p v d W Hv Et)|..];
    apply set_not_object; eauto; intros (d & q & Hd); by assert (v = {| type := OV_JSON_OBJECT d; parent := q |}) as -> by congruence.
Qed.
Lemma get_key_nonzero O h p k c : json_wf O h -> get_key h p k = Some c -> c <> 0.
Proof. intros W Hk. destruct (get_key_parent O h p k c W Hk) as (w & Hw & _). by eapply live_nonzero; [apply (jw_zero O h W)|]. Qed.

Lemma below_chain O h a b x : json_wf O h -> below h a x -> below h b x -> below h a b \/ below h b a.
Proof.
  intros W Ha. revert b. revert x Ha. apply (rtc_ind_r (fun x => forall b, below h b x -> below h a b \/ below h b a)).
  - intros b Hb. by right.
  - intros y z Hay Hyz IH b Hb. apply rtc_inv_r in Hb as [->|(y' & Hb & He)]; [left; by eapply rtc_r|].
    apply IH. by rewrite (edge_inj O h y y' z W Hyz He).
Qed.
Lemma root_not_at_key h p k r : wf h -> is_root h r -> ~ at_key h p k r.
Proof.
  intros W Hr (o & Ho & Hb). pose proof (root_alone h r o W Hr Hb) as ->. destruct (get_key_parent _ h p k r W Ho) as (w & Hw & E).
  destruct Hr as (v & Hv & H0). assert (p = 0) as -> by congruence. unfold get_key in Ho. by rewrite (jw_zero _ h W) in Ho.
Qed.
Lemma at_key_free h p k : get_key h p k = None -> forall q, ~ at_key h p k q.
Proof. intros E q (o & Ho & _). congruence. Qed.

Section changed.
Context {h : json_heap} {p : Z} {k : string} {new : option Z} {h' : json_heap}.
Context (C : changed h p k new h') (W : wf h).
Lemma changed_parent q v : h !! q = Some v -> ~ at_key h p k q -> new <> Some q -> exists v', h' !! q = Some v' /\ parent v' = parent v.
Proof using C.
  intros Hq Hn Hc. destruct (decide (q = p)) as [->|Hqp].
  - destruct (ch_p _ _ _ _ _ C v Hq) as [d Hd]. eauto.
  - exists v. by rewrite (ch_keep _ _ _ _ _ C).
Qed.
Lemma changed_type q v : h !! q = Some v -> ~ at_key h p k q -> q <> p -> exists v', h' !! q = Some v' /\ type v' = type v.
Proof using C.
  intros Hq Hn Hqp. destruct (decide (new = Some q)) as [Hc|Hc].
  - rewrite (ch_new _ _ _ _ _ C q v Hc Hq). eauto.
  - exists v. by rewrite (ch_keep _ _ _ _ _ C).
Qed.
Lemma changed_object q : is_object h q -> ~ at_key h p k q -> is_object h' q.
Proof using C.
  intros (d & r & Hq) Hn. destruct (decide (q = p)) as [->|Hqp].
  - destruct (ch_p _ _ _ _ _ C _ Hq) as [d' Hd]. by eexists _, _.
  - destruct (changed_type q _ Hq Hn Hqp) as ([t r'] & Hv & E). cbn in E. subst t. by eexists _, _.
Qed.
Lemma changed_live q : is_Some (h' !! q) <-> is_Some (h !! q) /\ ~ at_key h p k q.
Proof using C.
  destruct (ch_live _ _ _ _ _ C) as (Hlp & Hnp & Hlc). split.
  - intros [v Hv]. assert (Hn : ~ at_key h p k q) by (intros Ha; by rewrite (ch_gone _ _ _ _ _ C) in Hv). split; [|done].
    destruct (decide (q = p)) as [->|Hqp]; [done|]. destruct (decide (new = Some q)) as [Hc|Hc]; [by apply Hlc|].
    rewrite (ch_keep _ _ _ _ _ C) in Hv by done. eauto.
  - intros [[v Hv] Hn]. destruct (decide (new = Some q)) as [Hc|Hc]; [rewrite (ch_new _ _ _ _ _ C q v Hc Hv); eauto|].
    destruct (changed_parent q v Hv Hn Hc) as (v' & Hv' & _). eauto.
Qed.
Lemma changed_root r : is_root h r -> new <> Some r -> is_root h' r.
Proof using C W.
  intros Hr Hc. pose proof (root_not_at_key h p k r W Hr) as Hn. destruct Hr as (v & Hv & H0).
  destruct (changed_parent r v Hv Hn Hc) as (v' & Hv' & E). exists v'. split; [done|congruence].
Qed.
Lemma changed_key q k' : ~ at_key h p k q -> get_key h' q k' = if decide (q = p /\ k' = k) then new else get_key h q k'.
Proof using C.
  intros Hn. case_decide as Hd; [destruct Hd as [-> ->]; apply (rk_new _ _ _ _ _ _ (ch_keys _ _ _ _ _ C))|].
  apply (rk_keep _ _ _ _ _ _ (ch_keys _ _ _ _ _ C)); [done|]. destruct (decide (q = p)); [right|left]; naive_solver.
Qed.
Lemma changed_cut r ks q : new = None -> is_root h r ->
  get_path h' r ks = Some q <-> get_path h r ks = Some q /\ ~ at_key h p k q.
Proof using C W.
  intros Hn Hr. apply (rk_walk_cut (ch_keys _ _ _ _ _ C)); [done|]. by apply root_not_at_key.
Qed.
Lemma changed_set c r ks q : new = Some c -> is_root h c -> ~ below h c p -> is_root h r ->
  get_path h' r ks = Some q <-> (get_path h r ks = Some q /\ ~ at_key h p k q) \/
    exists a b, ks = a ++ k :: b /\ get_path h r a = Some p /\ get_path h c b = Some q.
Proof using C W.
  intros Hn Hc Hcp Hr. apply (rk_walk_set (ch_keys _ _ _ _ _ C)); [done| |by apply root_not_at_key].
  intros a x Ha. apply path_below in Ha. split; [|intros ->; done]. intros (o & Ho & Hb).
  destruct (below_chain _ h c o x W Ha Hb) as [Hco|Hoc].
  - apply rtc_inv_r in Hco as [->|(y & Hy & He)].
    + apply (root_not_at_key h p k o W Hc). by exists o.
    + apply Hcp. by rewrite <- (edge_inj _ h y p o W He (get_key_edge _ _ _ _ Ho)).
  - apply (root_not_at_key h p k c W Hc). by exists o.
Qed.
End changed.

(** ** New values *)

Record created (h : json_heap) (t : ov_json_t) (c : Z) (h' : json_heap) : Prop := {
  cr_wf : wf h'; cr_nonzero : c <> 0; cr_fresh : h !! c = None;
  cr_heap : h' = <[c := {| type := t; parent := 0 |}]> h
}.
Lemma new_created h t : wf h -> kids_once t -> (forall c, ~ kid t c) -> created h t (new_value h t).1 (new_value h t).2.
Proof. intros W Ht Hk. destruct (wf_new none h t W Ht Hk) as (W' & Hc & Hn & E); [by intros []|]. by split. Qed.
Lemma object_created h : wf h -> exists c d h', ov_json_object h = Some (c, h') /\ created h (OV_JSON_OBJECT d) c h' /\
  dict_ok d /\ dict_map d = ∅.
Proof.
  intros W. unfold ov_json_object. destruct (dict_create_spec json_dict_config) as (d & -> & Hok & Hm); [by vm_compute; lia|].
  cbn [mbind option_bind]. exists (new_value h (OV_JSON_OBJECT d)).1, d, (new_value h (OV_JSON_OBJECT d)).2.
  split; [by destruct (new_value h _)|]. split; [|done]. apply new_created; [done| |].
  - split; [done|]. intros k k' c. by rewrite Hm, lookup_empty.
  - intros c (k & Hk). by rewrite Hm, lookup_empty in Hk.
Qed.
Section created.
Context {h : json_heap} {t : ov_json_t} {c : Z} {h' : json_heap} (C : created h t c h') (W : wf h).
Lemma created_c : h' !! c = Some {| type := t; parent := 0 |}.
Proof using C. rewrite (cr_heap _ _ _ _ C). apply lookup_insert_eq. Qed.
Lemma created_root : is_root h' c.
Proof using C. eexists. by split; [apply created_c|]. Qed.
Lemma created_old q v : h !! q = Some v -> h' !! q = Some v.
Proof using C. intros Hq. rewrite (cr_heap _ _ _ _ C), lookup_insert_ne; [done|]. intros E. pose proof (cr_fresh _ _ _ _ C). congruence. Qed.
Lemma created_inv q v : h' !! q = Some v -> q <> c -> h !! q = Some v.
Proof using C. intros Hq Hne. by rewrite (cr_heap _ _ _ _ C), lookup_insert_ne in Hq. Qed.
Lemma created_is_root r : is_root h r -> is_root h' r.
Proof using C. intros (v & Hv & H0). exists v. split; [by apply created_old|done]. Qed.
Lemma created_object q : is_object h q -> is_object h' q.
Proof using C. intros (d & r & Hq). exists d, r. by apply created_old. Qed.
Lemma created_key q k : (forall x, ~ kid t x) -> get_key h' q k = get_key h q k.
Proof using C.
  intros Ht. destruct (decide (q = c)) as [->|Hne].
  - unfold get_key. rewrite created_c, (cr_fresh _ _ _ _ C). cbn. destruct t as [d| | | | | |]; try done.
    destruct (dict_map d !! k) as [x|] eqn:E; [|done]. by destruct (Ht x); exists k.
  - apply get_key_same. by rewrite (cr_heap _ _ _ _ C), lookup_insert_ne.
Qed.
Lemma created_path r ks : (forall x, ~ kid t x) -> get_path h' r ks = get_path h r ks.
Proof using C.
  intros Ht. revert r. induction ks as [|k ks IH]; intros r; [done|]. cbn [walk]. rewrite created_key by done.
  destruct (get_key h r k); [apply IH|done].
Qed.
Lemma created_below q : (forall x, ~ kid t x) -> below h' c q -> q = c.
Proof using C.
  intros Ht H. inversion H as [|? y ? (v & Hv & Hk)]; [done|]. subst. rewrite created_c in Hv. injection Hv as <-. by destruct (Ht y).
Qed.
Lemma created_ne q : is_Some (h !! q) -> q <> c.
Proof using C. intros [v Hv] ->. pose proof (cr_fresh _ _ _ _ C). congruence. Qed.
End created.

(** ** Objects and their trees *)

(** C25: setting a member of an object to a tree of its own (that does not have the
    object) succeeds: the key leads to the tree, every other key of every
    object leads to where it led, what is gone is what was below the member that
    was replaced, and the values are in order. *)
Theorem json_object_set_exact h p k c : wf h -> is_object h p -> is_root h c -> ~ below h c p ->
  exists h', ov_json_object_set h p k c = Some (true, h') /\ wf h' /\ ov_json_object_get h' p k = Some c /\
    (forall q, is_Some (h' !! q) <-> is_Some (h !! q) /\ ~ at_key h p k q) /\
    forall q k', is_Some (h' !! q) -> q <> p \/ k' <> k -> ov_json_object_get h' q k' = ov_json_object_get h q k'.
Proof.
  intros W Hp Hc Hcp. destruct (set_changed h p k c W Hp Hc Hcp) as (h' & E & C). pose proof (ch_wf _ _ _ _ _ C) as W'. exists h'. split; [done|]. split; [done|].
  assert (Hk : forall q k', is_Some (h' !! q) -> ov_json_object_get h' q k' = Some (default 0 (get_key h' q k'))) by (intros q k' Hq; apply json_get_spec; auto).
  destruct (ch_live _ _ _ _ _ C) as (Hlp & Hnp & _). split; [|split; [apply (changed_live C)|]].
  - rewrite Hk by (by apply (changed_live C)). by rewrite (changed_key C), decide_True.
  - intros q k' Hq Hne. rewrite Hk by done. apply (changed_live C) in Hq as [Hq Hn]. rewrite (changed_key C) by done.
    rewrite decide_False by naive_solver. symmetry. apply json_get_spec; auto.
Qed.
(** Two values, one of them an object. *)
Definition two_values : Z * Z * json_heap :=
  let '(p, h) := default (0, ∅) (ov_json_object ∅) in let '(c, h) := ov_json_string h (Some "text"%string) in (p, c, h).
Lemma two_values_spec : exists p c h, two_values = (p, c, h) /\ wf h /\ is_object h p /\ is_root h p /\ is_root h c /\ p <> c.
Proof.
  unfold two_values. destruct (object_created ∅ wf_empty) as (p & d & h & -> & C & _). cbn [default from_option]. unfold id.
  pose proof (new_created h (OV_JSON_STRING (Some "text"%string)) (cr_wf _ _ _ _ C) Logic.I (fun _ F => F)) as C'.
  unfold ov_json_string. destruct (new_value h _) as [c h'] eqn:E. cbn [fst snd] in C'. exists p, c, h'.
  pose proof (created_root C) as Hp. split; [done|]. split; [apply (cr_wf _ _ _ _ C')|]. split; [|split; [by apply (created_is_root C')|split; [apply (created_root C')|]]].
  - apply (created_object C'). eexists _, _. apply (created_c C).
  - intros ->. destruct Hp as (v & Hv & _). by rewrite (cr_fresh _ _ _ _ C') in Hv.
Qed.
Lemma json_object_set_exact_witness : exists p c h h', two_values = (p, c, h) /\ ov_json_object_set h p "key" c = Some (true, h') /\
  ov_json_object_get h' p "key" = Some c.
Proof.
  destruct two_values_spec as (p & c & h & E & W & Ho & Hp & Hc & Hne).
  destruct (json_object_set_exact h p "key" c W Ho Hc) as (h' & Es & _ & Eg & _); [|by exists p, c, h, h'].
  intros Hb. apply Hne. symmetry. by apply (root_alone h p c W Hp).
Defined.

(** Freeing a tree returns; what is gone is exactly the tree, everything else is
    what it was, and the values are in order. *)
Lemma json_free_exact h c : wf h -> is_root h c -> exists h', ov_json_value_free h c = Some (0, h') /\ wf h' /\
  (forall q, below h c q -> h' !! q = None) /\ forall q, ~ below h c q -> h' !! q = h !! q.
Proof.
  intros W (w & Hc & H0). destruct (json_free_detached none h c w W Hc (detached_root none h c w W Hc H0)) as (h' & E & W' & F).
  { by intros x u []. }
  assert (W0 : wf h') by (eapply wf_mono; [|exact W']; by intros x []). exists h'. split; [done|]. split; [done|]. split.
  - intros q Hq. apply (freed_below none none h h' c q W W0); [by intros x []|done|done].
  - intros q Hq. apply (fr_rest _ _ _ F). by intros x ->%list_elem_of_singleton.
Qed.
Lemma json_free_exact_witness : exists p c h h', two_values = (p, c, h) /\ ov_json_value_free h c = Some (0, h') /\ h' !! c = None /\ h' !! p = h !! p.
Proof.
  destruct two_values_spec as (p & c & h & E & W & Ho & Hp & Hc & Hne).
  destruct (json_free_exact h c W Hc) as (h' & Ef & _ & Hg & Hk). exists p, c, h, h'. split; [done|]. split; [done|]. split; [by apply Hg|].
  apply Hk. intros Hb. apply Hne. symmetry. by apply (root_alone h p c W Hp).
Defined.
