(* ===== verification/JsonPointer.v ===== *)
(** * JSON pointers (src/lib/ov_base/src/json/ov_json_pointer.c)

    [ov_json_get] walks down from a value along a pointer such as ["/a/b/0"]. A
    buffer is the list of its characters, without the terminating NUL: reading
    behind the end gives NUL. A token that ends in an array may push a new value:
    the heap is a part of the result. *)
From S2P Require Import Prelude Hashtable OvList Dict JsonValue JsonTree JsonOps.
From Stdlib Require Import Ascii String.

(** ** The code *)

Abbreviation chars := (list ascii).
Definition chars_of (s : string) : chars := list_ascii_of_string s.
Definition NUL : ascii := "000"%char.
(** The characters up to the first NUL. *)
Fixpoint c_str (l : chars) : chars :=
  match l with [] => [] | c :: l => if (c =? NUL)%char then [] else c :: c_str l end.

Definition json_object_get_with_length (h : json_heap) (object : Z) (key : chars) (length : nat) : option Z :=
  if (object =? 0) || (length <? 1)%nat then Some 0 else
  ov_json_object_get h object (string_of_list_ascii (c_str (take length key))).

(** The characters before the next ['/'], NUL or the end, at most [n]. *)
Fixpoint token_length (n : nat) (token : chars) : nat :=
  match n, token with
  | S n, c :: token => if (c =? "/")%char || (c =? NUL)%char then O else S (token_length n token)
  | _, _ => O
  end.
(** The token and its length, which stays what it was for a lone ['/']. *)
Definition json_pointer_parse_token (start : chars) (size length : nat) : option (chars * nat) :=
  if (size <? 1)%nat then None else
  match start with
  | c :: token =>
      if negb (c =? "/")%char then None
      else if (size =? 1)%nat then Some (start, length) else Some (token, token_length (size - 1) token)
  | [] => None
  end.
(** [skip] characters belong to a sequence that was replaced. *)
Fixpoint replace_from (source to_replace replacement : chars) (skip : nat) : option chars :=
  match source with
  | [] => Some []
  | c :: rest =>
      match skip with
      | S skip => replace_from rest to_replace replacement skip
      | O =>
          if negb (bool_decide (head to_replace = Some c)) then r ← replace_from rest to_replace replacement 0; Some (c :: r) else
          if (List.length source <? List.length to_replace)%nat then None else
          if (List.length source <? List.length replacement)%nat then None else
          if bool_decide (take (List.length to_replace) source = to_replace)
          then r ← replace_from rest to_replace replacement (List.length to_replace - 1); Some (replacement ++ r)
          else r ← replace_from rest to_replace replacement 0; Some (c :: r)
      end
  end.
(** [size] bytes, the rest of the result is NUL. *)
Definition json_pointer_replace_special_encoding (size : nat) (source to_replace replacement : chars) : option chars :=
  if (size <? 1)%nat then None else
  r ← replace_from (take size source) to_replace replacement 0;
  Some (r ++ replicate (size - List.length r) NUL).
Definition json_pointer_escape_token (start : chars) (size : nat) : option chars :=
  replace1 ← json_pointer_replace_special_encoding size start (chars_of "~1") (chars_of "\");
  json_pointer_replace_special_encoding size replace1 (chars_of "~0") (chars_of "~").

(** [strtoll] of the C library, in base 10: blanks, a sign, digits, and the rest. *)
Definition is_space (c : ascii) : bool := let n := Z.of_nat (nat_of_ascii c) in (n =? 32) || ((9 <=? n) && (n <=? 13)).
Definition digit_of (c : ascii) : option Z :=
  let n := Z.of_nat (nat_of_ascii c) in if (48 <=? n) && (n <=? 57) then Some (n - 48) else None.
Fixpoint skip_spaces (l : chars) : chars := match l with c :: r => if is_space c then skip_spaces r else l | [] => [] end.
Fixpoint digits (l : chars) (acc : Z) : Z * chars :=
  match l with
  | c :: r => match digit_of c with Some d => digits r (acc * 10 + d) | None => (acc, l) end
  | [] => (acc, [])
  end.
Definition LLONG_MAX : Z := 2 ^ 63 - 1.
Definition LLONG_MIN : Z := - 2 ^ 63.
Definition strtoll (l : chars) : Z * chars :=
  let s := skip_spaces l in
  let '(neg, s) := match s with c :: r => if (c =? "-")%char then (true, r) else if (c =? "+")%char then (false, r) else (false, s) | [] => (false, s) end in
  match s with
  | c :: _ => match digit_of c with
              | Some _ => let '(n, rest) := digits s 0 in
                          (Z.max LLONG_MIN (Z.min LLONG_MAX (if (neg : bool) then - n else n)), rest)
              | None => (0, l)
              end
  | [] => (0, l)
  end.

Definition json_pointer_get_token_in_parent (h : json_heap) (parent : Z) (token : chars) (length : nat)
    : option (Z * json_heap) :=
  if parent =? 0 then Some (0, h) else
  if (length =? 0)%nat then Some (parent, h) else
  v ← jload h parent;
  match type v with
  | OV_JSON_OBJECT _ => r ← json_object_get_with_length h parent token length; Some (r, h)
  | OV_JSON_ARRAY _ =>
      if bool_decide (head token = Some "-"%char) then
        if (List.length (c_str (take length token)) =? 1)%nat then
          let '(result, h) := ov_json_null h in
          '(ok, h) ← ov_json_array_push h parent result;
          if (ok : bool) then Some (result, h) else ov_json_value_free h result
        else Some (0, h)
      else
        let '(number, rest) := strtoll (c_str token) in
        match rest with
        | _ :: _ => Some (0, h)
        | [] => r ← ov_json_array_get h parent (Z.to_nat ((number + 1) mod 2 ^ 64)); Some (r, h)
        end
  | _ => Some (0, h)
  end.
(** One turn of the loop of [ov_json_get_pointer] per token; [fuel] bounds the
    tokens. *)
Fixpoint pointer_loop (fuel : nat) (h : json_heap) (ptr : chars) (size length : nat) (parsed : bool) (result : Z)
    : option (Z * json_heap) :=
  match fuel with
  | O => None
  | S fuel =>
      match json_pointer_parse_token ptr size length with
      | None => Some (if parsed then result else 0, h)
      | Some (parse, length) =>
          if (length =? 0)%nat then Some (if parsed then result else 0, h) else
          let ptr := drop (length + 1) ptr in
          match json_pointer_escape_token parse length with
          | None => Some (0, h)
          | Some token =>
              '(result, h) ← json_pointer_get_token_in_parent h result token length;
              if result =? 0 then Some (0, h) else pointer_loop fuel h ptr size length true result
          end
      end
  end.
Definition ov_json_get_pointer (h : json_heap) (root : Z) (buffer : chars) (size : nat) : option (Z * json_heap) :=
  if root =? 0 then Some (0, h) else
  if (size <? 1)%nat then Some (root, h) else
  pointer_loop (S size) h buffer size 0 false root.
Definition ov_json_get (h : json_heap) (value : Z) (pointer : string) : option (Z * json_heap) :=
  if value =? 0 then Some (0, h) else
  ov_json_get_pointer h value (chars_of pointer) (String.length pointer).

(** ** A pointer with one token *)

Definition plain_char (c : ascii) : bool := negb ((c =? "/")%char || (c =? "~")%char || (c =? NUL)%char).
(** A key that needs no escapes and is no position of an array. *)
Definition plain_key (k : string) : bool :=
  match chars_of k with
  | [] => false
  | c :: _ => negb (is_space c || (c =? "-")%char || (c =? "+")%char || (match digit_of c with Some _ => true | None => false end)) &&
      forallb plain_char (chars_of k)
  end.

Lemma c_str_plain l : forallb plain_char l = true -> c_str l = l.
Proof.
  induction l as [|c l IH]; [done|]. cbn. intros [Hc Hl]%andb_prop. unfold plain_char in Hc.
  destruct (c =? NUL)%char; [by rewrite !orb_true_r in Hc|]. by rewrite IH.
Qed.
Lemma token_length_plain l : forallb plain_char l = true -> token_length (List.length l) l = List.length l.
Proof.
  induction l as [|c l IH]; [done|]. cbn. intros [Hc Hl]%andb_prop. unfold plain_char in Hc.
  destruct (c =? "/")%char; [done|]. destruct (c =? NUL)%char; [by rewrite !orb_true_r in Hc|]. cbn. by rewrite IH.
Qed.
Lemma replace_plain l x rest r : forallb plain_char l = true -> replace_from l ("~"%char :: x :: rest) r 0 = Some l.
Proof.
  induction l as [|c l IH]; [done|]. cbn [forallb]. intros [Hc Hl]%andb_prop. cbn [replace_from head].
  rewrite bool_decide_eq_false_2, IH by (done || (intros [= <-]; done)). done.
Qed.
Lemma escape_plain l : l <> [] -> forallb plain_char l = true -> json_pointer_escape_token l (List.length l) = Some l.
Proof.
  intros Hn Hl. unfold json_pointer_escape_token, json_pointer_replace_special_encoding.
  change (chars_of "~1") with ["~"; "1"]%char. change (chars_of "~0") with ["~"; "0"]%char.
  destruct (Nat.ltb_spec (List.length l) 1) as [Hlt|_]; [destruct l; [done|cbn in Hlt; lia]|].
  rewrite (take_ge l) by lia. rewrite replace_plain by done. cbn [mbind option_bind].
  rewrite Nat.sub_diag, app_nil_r, (take_ge l) by lia. rewrite replace_plain by done. cbn [mbind option_bind].
  by rewrite Nat.sub_diag, app_nil_r.
Qed.
Lemma length_chars k : List.length (chars_of k) = String.length k.
Proof. unfold chars_of. induction k as [|c k IH]; [done|]. cbn. by rewrite IH. Qed.

Lemma json_get_key h p v k : h !! 0 = None -> (p = 0 \/ h !! p = Some v) -> plain_key k = true ->
  ov_json_get h p (String "/" k) =
    (if p =? 0 then Some (0, h) else
     match type v with
     | OV_JSON_OBJECT _ => r ← ov_json_object_get h p k; Some (r, h)
     | _ => Some (0, h)
     end).
Proof.
  intros H0 Hp Hk. unfold ov_json_get. destruct (Z.eqb_spec p 0) as [|Hp0]; [done|]. destruct Hp as [|Hp]; [done|].
  unfold ov_json_get_pointer. rewrite (proj2 (Z.eqb_neq p 0) Hp0). cbn [String.length Nat.ltb Nat.leb].
  unfold plain_key in Hk. destruct (chars_of k) as [|c r] eqn:Ek; [done|]. apply andb_prop in Hk as [Hc Hpl].
  assert (Hlen : List.length (c :: r) = String.length k) by (rewrite <- Ek; apply length_chars).
  assert (Hck : chars_of (String "/" k) = "/"%char :: c :: r) by (by rewrite <- Ek). rewrite Hck.
  cbn [pointer_loop]. unfold json_pointer_parse_token at 1. cbn [Nat.ltb Nat.leb].
  destruct (Nat.eqb_spec (S (String.length k)) 1) as [E1|_]; [cbn in Hlen; lia|].
  replace (negb ("/" =? "/")%char) with false by done.
  replace (S (String.length k) - 1)%nat with (List.length (c :: r)) by lia. rewrite token_length_plain by done.
  assert (Hl0 : (List.length (c :: r) =? 0)%nat = false) by done. rewrite Hl0, escape_plain by done.
  unfold json_pointer_get_token_in_parent. rewrite (proj2 (Z.eqb_neq p 0) Hp0), Hl0, (jload_Some h p v H0 Hp). cbn [mbind option_bind].
  destruct (type v) as [d|l|s|b| | |]; try done.
  - unfold json_object_get_with_length. rewrite (proj2 (Z.eqb_neq p 0) Hp0). cbn [orb].
    destruct (Nat.ltb_spec (List.length (c :: r)) 1) as [Hlt|_]; [cbn in Hlt; lia|].
    rewrite take_ge by done. rewrite c_str_plain by done. rewrite <- Ek. unfold chars_of. rewrite string_of_list_ascii_of_string.
    destruct (ov_json_object_get h p k) as [res|]; cbn [mbind option_bind]; [|done].
    destruct (Z.eqb_spec res 0) as [->|]; [done|]. unfold chars_of in Ek. rewrite Ek.
    rewrite Nat.add_1_r, skipn_cons, drop_ge by done. reflexivity.
  - cbn [head]. apply negb_true_iff, orb_false_iff in Hc as [Hc Hdig]. apply orb_false_iff in Hc as [Hc Hplus]. apply orb_false_iff in Hc as [Hsp Hminus].
    rewrite bool_decide_eq_false_2 by (intros [= ->]; done). rewrite c_str_plain by done.
    unfold strtoll. cbn [skip_spaces]. rewrite Hsp, Hminus, Hplus. by destruct (digit_of c).
Qed.
