(* ===== verification/JsonDecode.v ===== *)
(** * Reading JSON texts (src/lib/ov_base/src/json/ov_json_parser.c, decoding)

    A text in memory becomes a value in the heap of [JsonValue.v]. [value] is
    [*value] of the code: where the value is written, or [NULL] for a new one. A
    result is the length of the text that was read, or -1, the value and the
    heap. The size of the buffer of a string value is not modelled: it decides only
    whether the buffer is used again. *)
From S2P Require Import Prelude CMem Utf8 JsonNumber JsonGrammar Hashtable OvList Dict JsonValue.

(** ** The code: what the decoder uses of the values *)

Definition string_of_octets (l : list Z) : string :=
  String.string_of_list_ascii ((fun b => Ascii.ascii_of_N (Z.to_N b)) <$> l).
(** Up to [n] octets of a C string. *)
Fixpoint strn_octets (m : mem) (p : Z) (n : nat) : option (list Z) :=
  match n with
  | O => Some []
  | S n => c ← load8 m p; if c =? 0 then Some [] else l ← strn_octets m (p + 1) n; Some (c :: l)
  end.

Definition ov_json_object_clear (h : json_heap) (object : Z) : option (bool * json_heap) :=
  impl_json_object_clear ov_json_value_free h object.
Definition ov_json_array_clear (h : json_heap) (array : Z) : option (bool * json_heap) :=
  impl_json_array_clear ov_json_value_free h array.
Definition ov_json_string_clear (h : json_heap) (self : Z) : option (bool * json_heap) :=
  if self =? 0 then Some (false, h) else
  v ← jload h self;
  match type v with
  | OV_JSON_STRING start =>
      h ← set_type h self (OV_JSON_STRING ((fun _ => EmptyString) <$> start)); Some (true, h)
  | _ => Some (false, h)
  end.
Definition ov_json_string_set_length (m : mem) (h : json_heap) (self content length : Z) : option (bool * json_heap) :=
  if self =? 0 then Some (false, h) else
  v ← jload h self;
  match type v with
  | OV_JSON_STRING _ =>
      if (content =? NULL) || (length <? 1) then Some (false, h) else
      valid ← ov_json_validate_string m content length false;
      if negb valid then Some (false, h) else
      l ← strn_octets m content (Z.to_nat length);
      h ← set_type h self (OV_JSON_STRING (Some (string_of_octets l))); Some (true, h)
  | _ => Some (false, h)
  end.
Definition ov_json_number_set (h : json_heap) (self bits : Z) : option (bool * json_heap) :=
  if self =? 0 then Some (false, h) else
  v ← jload h self;
  match type v with
  | OV_JSON_NUMBER _ => h ← set_type h self (OV_JSON_NUMBER bits); Some (true, h)
  | _ => Some (false, h)
  end.
Definition ov_json_is_literal (h : json_heap) (value : Z) : option bool :=
  if value =? 0 then Some false else
  v ← jload h value; Some (match type v with OV_JSON_TRUE | OV_JSON_NULL | OV_JSON_FALSE => true | _ => false end).
Definition ov_json_literal_set (h : json_heap) (self : Z) (t : ov_json_t) : option (bool * json_heap) :=
  literal ← ov_json_is_literal h self;
  if negb literal then Some (false, h) else
  match t with
  | OV_JSON_TRUE | OV_JSON_NULL | OV_JSON_FALSE => h ← set_type h self t; Some (true, h)
  | _ => Some (false, h)
  end.
Definition ov_json_literal_clear (h : json_heap) (self : Z) : option (bool * json_heap) :=
  literal ← ov_json_is_literal h self;
  if negb literal then Some (false, h) else
  h ← set_type h self OV_JSON_NULL; Some (true, h).

(** ** The code: scalars *)

Definition key_at (m : mem) (key length : Z) : option string := l ← strn_octets m key (Z.to_nat length); Some (string_of_octets l).
Definition object_get_with_length (m : mem) (h : json_heap) (object key length : Z) : option Z :=
  if (object =? 0) || (key =? NULL) || (length <? 1) then Some 0 else
  k ← key_at m key length; ov_json_object_get h object k.
Definition json_object_set_with_length (m : mem) (h : json_heap) (obj key length value : Z) : option (bool * json_heap) :=
  if (obj =? 0) || (key =? NULL) || (length <? 1) || (value =? 0) then Some (false, h) else
  k ← key_at m key length; ov_json_object_set h obj k value.

Abbreviation decoded := (option (Z * Z * json_heap)).
(** The label [error]: a value that was made here is freed. *)
Definition decode_error (created : bool) (value : Z) (h : json_heap) : decoded :=
  if created then '(value, h) ← ov_json_value_free h value; Some (-1, value, h) else Some (-1, value, h).

Definition json_string_decode (m : mem) (h : json_heap) (value buffer size : Z) : decoded :=
  if (buffer =? NULL) || (size <? 2) then Some (-1, value, h) else
  c ← load8 m buffer;
  if negb (c =? 0x22) then Some (-1, value, h) else
  r ← ov_json_match_string m buffer size;
  match r with
  | None => Some (-1, value, h)
  | Some (start, end_) =>
      let created := value =? 0 in
      let '(value, h) := if created then ov_json_string h None else (value, h) in
      '(ok, h) ← ov_json_string_clear h value;
      if negb ok then decode_error created value h else
      '(ok, h) ← ov_json_string_set_length m h value start (end_ - start + 1);
      if negb ok then decode_error created value h else
      Some (end_ - start + 3, value, h)
  end.
Definition ends_number (c : Z) : bool := bool_decide (c ∈ [44; 93; 125; 0x20; 0x09; 0x0A; 0x0D]).
Definition json_number_decode (m : mem) (h : json_heap) (value buffer size : Z) : decoded :=
  if (buffer =? NULL) || (size <? 2) then Some (-1, value, h) else
  c ← load8 m buffer;
  if negb (starts_number c) then Some (-1, value, h) else
  '(number, ptr, range) ← strtod m buffer;
  if (range : bool) then Some (-1, value, h) else
  if ptr =? buffer then Some (-1, value, h) else
  if size <? ptr - buffer then Some (-1, value, h) else
  c ← load8 m ptr;
  d ← (if c =? 0x20 then load8 m (ptr - 1) else Some 48);
  if negb ((48 <=? d) && (d <=? 57)) then Some (-1, value, h) else
  if negb (ends_number c) then Some (-1, value, h) else
  let created := value =? 0 in
  let '(value, h) := if created then ov_json_number h 0 else (value, h) in
  '(ok, h) ← ov_json_number_set h value number;
  if negb ok then decode_error created value h else
  Some (ptr - buffer, value, h).
Definition json_literal_decode (m : mem) (h : json_heap) (value buffer size : Z) : decoded :=
  if (buffer =? NULL) || (size <? 4) then Some (-1, value, h) else
  let created := value =? 0 in
  let '(value, h) := if created then ov_json_null h else (value, h) in
  '(ok, h) ← ov_json_literal_clear h value;
  if negb ok then decode_error created value h else
  c ← load8 m buffer;
  let word := if c =? 0x6E then Some (NULL_TEXT, OV_JSON_NULL) else if c =? 0x74 then Some (TRUE_TEXT, OV_JSON_TRUE)
              else if c =? 0x66 then Some (FALSE_TEXT, OV_JSON_FALSE) else None in
  match word with
  | None => decode_error created value h
  | Some (text, t) =>
      if size <? Zlen text then decode_error created value h else
      equal ← strncmp_equal m buffer text (length text);
      if negb equal then decode_error created value h else
      '(ok, h) ← ov_json_literal_set h value t;
      if (ok : bool) then Some (Zlen text, value, h) else decode_error created value h
  end.

(** ** The code: containers *)

Section containers.
Context (m : mem) (ov_json_parser_decode : json_heap -> Z -> Z -> Z -> decoded).

(** One turn per member; the result is [content] behind the members, nothing on
    failure. *)
Fixpoint decode_members (fuel : nat) (h : json_heap) (value content content_size : Z) : option (option Z * json_heap) :=
  match fuel with
  | O => None
  | S fuel =>
      if content_size <=? 1 then Some (Some content, h) else
      r ← ov_json_match_string m content content_size;
      match r with
      | None => Some (None, h)
      | Some (key, ptr) =>
          let key_len := ptr - key + 1 in
          used ← object_get_with_length m h value key key_len;
          if negb (used =? 0) then Some (None, h) else
          let content_size := u64 (content_size - (ptr - content + 1)) in
          let content := key + key_len + 1 in
          '(content, content_size) ← ov_json_clear_whitespace m content content_size;
          c ← load8 m content;
          if negb (c =? 0x3A) then Some (None, h) else
          '(content, content_size) ← ov_json_clear_whitespace m (content + 1) (u64 (content_size - 1));
          '(len, child, h) ← ov_json_parser_decode h 0 content content_size;
          if len <? 0 then Some (None, h) else
          let content_size := u64 (content_size - len) in
          let content := content + len in
          '(ok, h) ← json_object_set_with_length m h value key key_len child;
          if negb ok then '(_, h) ← ov_json_value_free h child; Some (None, h) else
          '(content, content_size) ← ov_json_clear_whitespace m content content_size;
          c ← load8 m content;
          if c =? 0x7D then Some (Some content, h) else
          if negb (c =? 0x2C) then Some (None, h) else
          decode_members fuel h value (content + 1) (u64 (content_size - 1))
      end
  end.
Definition json_object_decode (h : json_heap) (value buffer size : Z) : decoded :=
  if (buffer =? NULL) || (size <? 2) then Some (-1, value, h) else
  r ← ov_json_match_object m buffer size;
  match r with
  | None => Some (-1, value, h)
  | Some (start, end_) =>
      let created := value =? 0 in
      '(value, h) ← (if created then ov_json_object h else Some (value, h));
      '(ok, h) ← ov_json_object_clear h value;
      if negb ok then decode_error created value h else
      '(content, content_size) ← ov_json_clear_whitespace m start (end_ - start + 2);
      '(r, h) ← decode_members (turns_of m) h value content content_size;
      match r with
      | None => decode_error created value h
      | Some content =>
          c ← load8 m content;
          if negb (c =? 0x7D) then decode_error created value h else
          Some (end_ - buffer + 2, value, h)
      end
  end.
Fixpoint decode_items (fuel : nat) (h : json_heap) (value content content_size : Z) : option (bool * json_heap) :=
  match fuel with
  | O => None
  | S fuel =>
      if content_size <=? 1 then Some (true, h) else
      '(len, child, h) ← ov_json_parser_decode h 0 content content_size;
      if len <? 0 then Some (false, h) else
      '(ok, h) ← ov_json_array_push h value child;
      if negb ok then '(_, h) ← ov_json_value_free h child; Some (false, h) else
      '(content, content_size) ← ov_json_clear_whitespace m (content + len) (u64 (content_size - len));
      if content_size =? 1 then Some (true, h) else
      c ← load8 m content;
      if negb (c =? 0x2C) then Some (false, h) else
      '(content, content_size) ← ov_json_clear_whitespace m (content + 1) (u64 (content_size - 1));
      decode_items fuel h value content content_size
  end.
Definition json_array_decode (h : json_heap) (value buffer size : Z) : decoded :=
  if (buffer =? NULL) || (size <? 2) then Some (-1, value, h) else
  r ← ov_json_match_array m buffer size;
  match r with
  | None => Some (-1, value, h)
  | Some (start, end_) =>
      let created := value =? 0 in
      let '(value, h) := if created then ov_json_array h else (value, h) in
      '(ok, h) ← ov_json_array_clear h value;
      if negb ok then decode_error created value h else
      '(content, content_size) ← ov_json_clear_whitespace m start (end_ - start + 2);
      '(ok, h) ← decode_items (turns_of m) h value content content_size;
      if negb ok then decode_error created value h else
      Some (end_ - buffer + 2, value, h)
  end.
End containers.

(** [fuel] bounds the nesting: every level starts behind the one around it. *)
Fixpoint parser_decode (fuel : nat) (m : mem) (h : json_heap) (value buffer length : Z) : decoded :=
  match fuel with
  | O => None
  | S fuel =>
      if (buffer =? NULL) || (length <? 1) then Some (-1, value, h) else
      '(ptr, size) ← ov_json_clear_whitespace m buffer length;
      c ← load8 m ptr;
      '(len, value, h) ←
        (if c =? 0x7B then json_object_decode m (parser_decode fuel m) h value ptr size
         else if c =? 0x5B then json_array_decode m (parser_decode fuel m) h value ptr size
         else if c =? 0x22 then json_string_decode m h value ptr size
         else if (c =? 0x6E) || (c =? 0x66) || (c =? 0x74) then json_literal_decode m h value ptr size
         else if starts_number c then json_number_decode m h value ptr size
         else Some (-1, value, h));
      Some (if len <? 0 then -1 else ptr - buffer + len, value, h)
  end.
Definition ov_json_parser_decode (m : mem) (h : json_heap) (value buffer length : Z) : decoded :=
  parser_decode (turns_of m) m h value buffer length.
Definition ov_json_value_from_string (m : mem) (h : json_heap) (string length : Z) : option (Z * json_heap) :=
  if (string =? NULL) || (length <? 1) then Some (0, h) else
  '(r, out, h) ← ov_json_parser_decode m h 0 string length;
  Some (if r <? 0 then 0 else out, h).
(** ov_json.c: the whole string is one value. *)
Definition ov_json_decode (m : mem) (h : json_heap) (string : Z) : option (Z * json_heap) :=
  if string =? NULL then Some (0, h) else
  l ← strn_octets m string (turns_of m);
  let len := Zlen l in
  '(r, out, h) ← ov_json_parser_decode m h 0 string len;
  if negb (r =? len) then '(_, h) ← ov_json_value_free h out; Some (0, h) else Some (out, h).
