(* ===== verification/JsonEncode.v ===== *)
(** * Writing JSON texts (src/lib/ov_base/src/json/ov_json_parser.c, encoding)

    A value of the heap of [JsonValue.v] is written to a buffer in memory, with a
    configuration of the texts around items. The list of keys of
    [ov_json_parser_collocate_ascending] is a list of strings. Strings and keys are C
    strings: they end at a NUL. [fuel] bounds the depth of a value; [turns] of the
    heap are enough, as for freeing.

    The content of a string value is not in the memory of the buffer: it is
    checked in a memory of its own. *)
From S2P Require Import Prelude CMem Utf8 JsonNumber JsonGrammar Hashtable OvList Dict JsonValue.

(** ** The code: configurations *)

Abbreviation c_string := (option (list Z)).
Record ov_json_value_config := {
  entry_intro : c_string; entry_outro : c_string; entry_depth : bool; entry_indent : c_string;
  item_intro : c_string; item_out : c_string; item_outro : c_string; item_separator : c_string; item_delimiter : c_string }.
Record ov_json_stringify_config := {
  intro : c_string; literal : ov_json_value_config; number : ov_json_value_config; string_ : ov_json_value_config;
  array : ov_json_value_config; object : ov_json_value_config; outro : c_string }.
Definition no_config : ov_json_value_config :=
  {| entry_intro := None; entry_outro := None; entry_depth := false; entry_indent := None; item_intro := None;
     item_out := None; item_outro := None; item_separator := None; item_delimiter := None |}.
Definition item_config (depth : bool) (indent i o c s d : c_string) : ov_json_value_config :=
  {| entry_intro := None; entry_outro := None; entry_depth := depth; entry_indent := indent; item_intro := i;
     item_out := o; item_outro := c; item_separator := s; item_delimiter := d |}.
Definition QUOTE : list Z := [34].
Definition ov_json_config_stringify_minimal : ov_json_stringify_config :=
  {| intro := None; literal := no_config; number := no_config;
     string_ := item_config false None (Some QUOTE) None (Some QUOTE) None None;
     array := item_config false None (Some [91]) None (Some [93]) (Some [44]) None;
     object := item_config false None (Some [123]) None (Some [125]) (Some [44]) (Some [58]); outro := None |}.
Definition ov_json_config_stringify_default : ov_json_stringify_config :=
  {| intro := None; literal := no_config; number := no_config;
     string_ := item_config false None (Some QUOTE) None (Some QUOTE) None None;
     array := item_config true (Some [9]) (Some [91; 10]) (Some [10]) (Some [93]) (Some [44; 10]) None;
     object := item_config true (Some [9]) (Some [123; 10]) (Some [10]) (Some [125]) (Some [44; 10]) (Some [58]); outro := None |}.
Definition is_set {A} (s : option A) : bool := match s with Some _ => true | None => false end.
Definition ov_json_stringify_config_validate (config : ov_json_stringify_config) : bool :=
  is_set (item_intro (string_ config)) && is_set (item_outro (string_ config)) && is_set (item_intro (array config)) &&
  is_set (item_outro (array config)) && is_set (item_separator (array config)) && is_set (item_intro (object config)) &&
  is_set (item_outro (object config)) && is_set (item_separator (object config)) && is_set (item_delimiter (object config)).
Definition strlen (s : c_string) : option Z := Zlen <$> s.

(** The octets of a string up to the first NUL. *)
Fixpoint until_nul (l : list Z) : list Z := match l with [] => [] | c :: l => if c =? 0 then [] else c :: until_nul l end.
Definition c_octets (s : string) : list Z := until_nul (string_bytes s).

(** ** The code: keys in order *)

(** The loop over the octets of two keys, which end with a NUL: whether [k] is
    before [s]. *)
Fixpoint key_before (k s : list Z) : bool :=
  match k, s with
  | a :: k, b :: s => if a <? b then true else if negb (a =? b) then false else key_before k s
  | _, _ => false
  end.
Fixpoint ov_json_parser_collocate_ascending (key : string) (list : list string) : Datatypes.list string :=
  match list with
  | [] => [key]
  | s :: rest => if key_before (c_octets key ++ [0]) (c_octets s ++ [0]) then key :: list
                 else s :: ov_json_parser_collocate_ascending key rest
  end.
Definition collocate := (string -> list string -> list string).
Definition add_key_collocated (collocate_key : collocate) (key : string) (value : Z) (list : list string) : option (bool * Datatypes.list string) :=
  if value =? 0 then Some (false, list) else Some (true, collocate_key key list).
Definition collocate_object_keys (h : json_heap) (value : Z) (function : collocate) : option (option (list string)) :=
  '(ok, list) ← ov_json_object_for_each h value [] (add_key_collocated function);
  Some (if (ok : bool) then Some list else None).

(** ** The code: encoding *)

Record EncodingParameter := {
  ep_config : ov_json_stringify_config; ep_buffer : Z; ep_size : Z; ep_depth : nat; ep_collocate : option collocate; ep_counter : Z }.
Definition advance (p : EncodingParameter) (n : Z) : EncodingParameter :=
  {| ep_config := ep_config p; ep_buffer := ep_buffer p + n; ep_size := u64 (ep_size p - n); ep_depth := ep_depth p;
     ep_collocate := ep_collocate p; ep_counter := ep_counter p |}.
Definition with_depth (p : EncodingParameter) (d : nat) : EncodingParameter :=
  {| ep_config := ep_config p; ep_buffer := ep_buffer p; ep_size := ep_size p; ep_depth := d;
     ep_collocate := ep_collocate p; ep_counter := ep_counter p |}.
Definition with_counter (p : EncodingParameter) (c : Z) : EncodingParameter :=
  {| ep_config := ep_config p; ep_buffer := ep_buffer p; ep_size := ep_size p; ep_depth := ep_depth p;
     ep_collocate := ep_collocate p; ep_counter := c |}.
Definition validate_parameter (p : EncodingParameter) : bool := negb (ep_buffer p =? NULL) && negb (ep_size p <? 1).

Abbreviation state := (mem * EncodingParameter)%type.
Abbreviation written := (option (bool * state)).
(** [f] if what was written before was. *)
Definition also (r : written) (f : state -> written) : written := '(ok, s) ← r; if (ok : bool) then f s else Some (false, s).
Definition put_octets (s : state) (l : list Z) : written :=
  m ← storen s.1 (ep_buffer s.2) l; Some (true, (m, advance s.2 (Zlen l))).
Definition json_parser_write_if_not_null (content : c_string) (s : state) : written :=
  match content with
  | None => Some (true, s)
  | Some l => if ep_size s.2 <? Zlen l then Some (false, s) else put_octets s l
  end.
Fixpoint indent_loop (n : nat) (indent : list Z) (s : state) : written :=
  match n with
  | O => Some (true, s)
  | S n => if ep_size s.2 <=? Zlen indent then Some (false, s) else also (put_octets s indent) (indent_loop n indent)
  end.
Definition write_indent (c : ov_json_value_config) (s : state) : written :=
  match entry_indent c with
  | Some indent =>
      if negb (entry_depth c) then Some (true, s) else
      if ep_size s.2 <? Z.of_nat (ep_depth s.2) * Zlen indent then Some (false, s) else indent_loop (ep_depth s.2) indent s
  | None => Some (true, s)
  end.
Definition object_write_indent (s : state) : written := write_indent (object (ep_config s.2)) s.
Definition array_write_indent (s : state) : written := write_indent (array (ep_config s.2)) s.
Definition write_intro (c : ov_json_value_config) (s : state) : written :=
  if negb (is_set (item_intro c)) then Some (false, s) else
  also (write_indent c s) (json_parser_write_if_not_null (item_intro c)).
Definition write_outro (c : ov_json_value_config) (s : state) : written :=
  if negb (is_set (item_intro c)) then Some (false, s) else
  if negb (is_set (item_outro c)) then Some (false, s) else
  also (also (json_parser_write_if_not_null (item_out c) s) (write_indent c)) (json_parser_write_if_not_null (item_outro c)).
Definition object_write_intro (s : state) : written := write_intro (object (ep_config s.2)) s.
Definition object_write_outro (s : state) : written := write_outro (object (ep_config s.2)) s.
Definition array_write_intro (s : state) : written := write_intro (array (ep_config s.2)) s.
Definition array_write_outro (s : state) : written := write_outro (array (ep_config s.2)) s.

(** The text of a number. *)
Definition json_number_fill_string (h : json_heap) (self : Z) : option (option (list Z)) :=
  if self =? 0 then Some None else
  v ← jload h self;
  match type v with
  | OV_JSON_NUMBER b => if is_integral b then n ← int64_of_double b; Some (Some (print_int n)) else Some (Some (print_g b))
  | _ => Some None
  end.
Definition validate_octets (l : list Z) : option bool := ov_json_validate_string (write ∅ 1 l) 1 (Zlen l) false.
Definition ov_json_string_is_valid (h : json_heap) (value : Z) : option bool :=
  s ← ov_json_string_get h value;
  match s with None => Some false | Some s => validate_octets (c_octets s) end.
Definition ov_json_array_is_empty (h : json_heap) (array : Z) : option bool :=
  o ← AS_JSON_ARRAY h array; Some (match o with None => false | Some l => (length l =? 0)%nat end).
(** Whether a value is an array or an object that is not empty. *)
Definition is_filled (h : json_heap) (value : Z) : option bool :=
  v ← jload h value;
  match type v with
  | OV_JSON_ARRAY _ => e ← ov_json_array_is_empty h value; Some (negb e)
  | OV_JSON_OBJECT _ => e ← ov_json_object_is_empty h value; Some (negb e)
  | _ => Some false
  end.

(** What was written since [start], or -1. *)
Definition encoded (start : Z) (r : written) : option (Z * state) :=
  '(ok, s) ← r; Some (if (ok : bool) then ep_buffer s.2 - start else -1, s).
Definition pack (c : ov_json_value_config) (content : list Z) (s : state) : written :=
  also (also (json_parser_write_if_not_null (item_intro c) s) (json_parser_write_if_not_null (Some content)))
    (json_parser_write_if_not_null (item_outro c)).
Definition json_literal_encode (h : json_heap) (self : Z) (s : state) : option (Z * state) :=
  if (self =? 0) || negb (validate_parameter s.2) || (ep_size s.2 <? 4) then Some (-1, s) else
  v ← jload h self;
  match type v with
  | OV_JSON_NULL => encoded (ep_buffer s.2) (pack (literal (ep_config s.2)) NULL_TEXT s)
  | OV_JSON_TRUE => encoded (ep_buffer s.2) (pack (literal (ep_config s.2)) TRUE_TEXT s)
  | OV_JSON_FALSE => encoded (ep_buffer s.2) (pack (literal (ep_config s.2)) FALSE_TEXT s)
  | _ => Some (-1, s)
  end.
Definition json_string_encode (h : json_heap) (value : Z) (s : state) : option (Z * state) :=
  if (value =? 0) || negb (validate_parameter s.2) then Some (-1, s) else
  valid ← ov_json_string_is_valid h value;
  if negb valid then Some (-1, s) else
  string ← ov_json_string_get h value;
  string ← string;
  if ep_size s.2 <? Zlen (c_octets string) + 2 then Some (-1, s) else
  encoded (ep_buffer s.2) (pack (string_ (ep_config s.2)) (c_octets string) s).
Definition json_number_encode (h : json_heap) (self : Z) (s : state) : option (Z * state) :=
  if (self =? 0) || negb (validate_parameter s.2) then Some (-1, s) else
  string ← json_number_fill_string h self;
  match string with
  | None => Some (-1, s)
  | Some string => if ep_size s.2 <? Zlen string then Some (-1, s) else encoded (ep_buffer s.2) (pack (number (ep_config s.2)) string s)
  end.

Section encoding.
Context (h : json_heap) (json_value_encode : Z -> state -> option (Z * state)).

(** A newline before a container that is not empty. *)
Definition write_newline (value : Z) (s : state) : written :=
  if negb (entry_depth (object (ep_config s.2))) then Some (true, s) else
  filled ← is_filled h value; if (filled : bool) then put_octets s [10] else Some (true, s).
Definition encode_child (value : Z) (s : state) : written :=
  '(n, s) ← json_value_encode value s; Some (negb (n <? 1), s).
Definition object_write_entry (key : string) (value : Z) (s : state) : written :=
  if value =? 0 then Some (false, s) else
  _ ← jload h value;
  also (object_write_indent s) (fun s =>
  let key := c_octets key in
  if ep_size s.2 <? Zlen key + 2 then Some (false, s) else
  also (put_octets s (QUOTE ++ key ++ QUOTE)) (fun s =>
  also (json_parser_write_if_not_null (item_delimiter (object (ep_config s.2))) s) (fun s =>
  if ep_size s.2 <? 2 then Some (false, s) else
  also (write_newline value s) (fun s =>
  also (encode_child value s) (fun s =>
  json_parser_write_if_not_null (item_separator (object (ep_config s.2))) s))))).
Definition object_write_ordered (object_ : Z) (item : string) (s : state) : written :=
  value ← ov_json_object_get h object_ item;
  if value =? 0 then Some (false, s) else object_write_entry item value s.
Fixpoint write_ordered (object_ : Z) (list : list string) (s : state) : written :=
  match list with [] => Some (true, s) | key :: list => also (object_write_ordered object_ key s) (write_ordered object_ list) end.
Definition write_entries (value : Z) (s : state) : written :=
  match ep_collocate s.2 with
  | Some function =>
      list ← collocate_object_keys h value function;
      match list with None => Some (false, s) | Some list => write_ordered value list s end
  | None => ov_json_object_for_each h value s object_write_entry
  end.
Definition json_object_encode (value : Z) (s : state) : option (Z * state) :=
  if (value =? 0) || negb (validate_parameter s.2) then Some (-1, s) else
  let start := ep_buffer s.2 in
  items ← ov_json_object_count h value;
  if items =? 0 then if ep_size s.2 <? 2 then Some (-1, s) else encoded start (put_octets s [123; 125]) else
  encoded start (also (object_write_intro s) (fun s =>
  also (write_entries value (s.1, with_depth s.2 (S (ep_depth s.2)))) (fun s =>
  len ← strlen (item_separator (object (ep_config s.2)));
  object_write_outro (s.1, advance (with_depth s.2 (pred (ep_depth s.2))) (- len))))).

Fixpoint write_items (n i : nat) (items : nat) (value : Z) (s : state) : written :=
  match n with
  | O => Some (true, s)
  | S n =>
      child ← ov_json_array_get h value i;
      if child =? 0 then Some (false, s) else
      filled ← is_filled h child;
      also (if (filled : bool) then Some (true, s) else array_write_indent s) (fun s =>
      also (encode_child child s) (fun s =>
      also (if (i <? items)%nat then json_parser_write_if_not_null (item_separator (array (ep_config s.2))) s else Some (true, s))
        (write_items n (S i) items value)))
  end.
Definition json_array_encode (value : Z) (s : state) : option (Z * state) :=
  if (value =? 0) || negb (validate_parameter s.2) then Some (-1, s) else
  let start := ep_buffer s.2 in
  items ← ov_json_array_count h value;
  if (items =? 0)%nat then encoded start (put_octets s [91; 93]) else
  encoded start (also (array_write_intro s) (fun s =>
  also (write_items items 1 items value (s.1, with_depth s.2 (S (ep_depth s.2)))) (fun s =>
  array_write_outro (s.1, with_depth s.2 (pred (ep_depth s.2)))))).
End encoding.
Fixpoint json_value_encode (fuel : nat) (h : json_heap) (value : Z) (s : state) : option (Z * state) :=
  match fuel with
  | O => None
  | S fuel =>
      if value =? 0 then Some (-1, s) else
      v ← jload h value;
      match type v with
      | OV_JSON_NULL | OV_JSON_TRUE | OV_JSON_FALSE => json_literal_encode h value s
      | OV_JSON_STRING _ => json_string_encode h value s
      | OV_JSON_NUMBER _ => json_number_encode h value s
      | OV_JSON_ARRAY _ => json_array_encode h (json_value_encode fuel h) value s
      | OV_JSON_OBJECT _ => json_object_encode h (json_value_encode fuel h) value s
      end
  end.
(** The length, or -1, and the memory. *)
Definition ov_json_parser_encode (m : mem) (h : json_heap) (value : Z) (conf : option ov_json_stringify_config)
    (collocate_keys : option collocate) (buffer size : Z) : option (Z * mem) :=
  if (value =? 0) || (buffer =? NULL) || (size <? 1) then Some (-1, m) else
  let config := default ov_json_config_stringify_minimal conf in
  let p := {| ep_config := config; ep_buffer := buffer; ep_size := size; ep_depth := 0; ep_collocate := collocate_keys; ep_counter := 0 |} in
  let len := default 0 (strlen (intro config)) in
  '(ok, s) ← (match intro config with
              | None => Some (true, (m, p))
              | Some l => if size <=? Zlen l then Some (false, (m, p)) else put_octets (m, p) l
              end);
  if negb ok then Some (-1, s.1) else
  '(result, s) ← json_value_encode (turns h) h value s;
  if result <? 0 then Some (-1, s.1) else
  let result := result + len in
  match outro config with
  | None => Some (result, s.1)
  | Some l =>
      let used := ep_buffer s.2 - buffer in
      if used <? 0 then Some (-1, s.1) else
      if u64 (size - used) <? Zlen l then Some (-1, s.1) else
      m ← storen s.1 (ep_buffer s.2) l; Some (result + Zlen l, m)
  end.

(** ** The code: the length of the text *)

(** [size_t] as [int64_t]. *)
Definition int64 (x : Z) : Z := u64 (x + 2 ^ 63) - 2 ^ 63.
Definition opt_len (s : c_string) : Z := default 0 (strlen s).
Definition json_object_calculate_indent (p : EncodingParameter) : Z :=
  if negb (entry_depth (object (ep_config p))) then 0 else
  match entry_indent (object (ep_config p)) with None => 0 | Some l => Zlen l * Z.of_nat (ep_depth p) end.
Definition json_parser_calculate_number (h : json_heap) (value : Z) (p : EncodingParameter) : option Z :=
  string ← json_number_fill_string h value;
  Some (match string with
        | None => -1
        | Some l => Zlen l + opt_len (item_intro (number (ep_config p))) + opt_len (item_outro (number (ep_config p)))
        end).
Definition json_parser_calculate_string (h : json_heap) (value : Z) (p : EncodingParameter) : option Z :=
  content ← ov_json_string_get h value;
  Some (match content with
        | None => -1
        | Some s => Zlen (c_octets s) + opt_len (item_intro (string_ (ep_config p))) + opt_len (item_outro (string_ (ep_config p)))
        end).
Definition json_parser_calculate_literal (h : json_heap) (value : Z) (p : EncodingParameter) : option Z :=
  v ← jload h value;
  let around := opt_len (item_intro (literal (ep_config p))) + opt_len (item_outro (literal (ep_config p))) in
  Some (match type v with OV_JSON_NULL | OV_JSON_TRUE => 4 + around | OV_JSON_FALSE => 5 + around | _ => -1 end).

Abbreviation sized := (option (Z * EncodingParameter)).
Section calculating.
Context (h : json_heap) (json_parser_calculate_value : Z -> EncodingParameter -> sized).

Definition add_encoding_size (key : string) (value : Z) (p : EncodingParameter) : option (bool * EncodingParameter) :=
  if value =? 0 then Some (false, p) else
  _ ← jload h value;
  delimiter ← strlen (item_delimiter (object (ep_config p)));
  let length := ep_counter p + json_object_calculate_indent p + Zlen (c_octets key) + 2 + delimiter in
  filled ← (if entry_depth (object (ep_config p)) then is_filled h value else Some false);
  let length := if (filled : bool) then length + 1 else length in
  '(vlen, p) ← json_parser_calculate_value value p;
  let vlen := u64 vlen in
  if vlen <? 1 then Some (false, p) else
  separator ← strlen (item_separator (object (ep_config p)));
  Some (true, with_counter p (u64 (length + vlen + separator))).
Definition json_parser_calculate_object (value : Z) (p : EncodingParameter) : sized :=
  if value =? 0 then Some (-1, p) else
  empty ← ov_json_object_is_empty h value;
  if (empty : bool) then Some (2, p) else
  let indent := json_object_calculate_indent p in
  intro_len ← strlen (item_intro (object (ep_config p)));
  outro_len ← strlen (item_outro (object (ep_config p)));
  let length := indent + intro_len + (indent + outro_len) + opt_len (item_out (object (ep_config p))) in
  let p := with_depth (with_counter p length) (S (ep_depth p)) in
  '(ok, p) ← ov_json_object_for_each h value p add_encoding_size;
  if negb ok then Some (-1, p) else
  separator ← strlen (item_separator (object (ep_config p)));
  Some (int64 (ep_counter p - separator), with_depth p (pred (ep_depth p))).
Fixpoint calculate_items (n i : nat) (items : nat) (value indent separator length : Z) (p : EncodingParameter)
    : option (option Z * EncodingParameter) :=
  match n with
  | O => Some (Some length, p)
  | S n =>
      child ← ov_json_array_get h value i;
      if child =? 0 then Some (None, p) else
      filled ← is_filled h child;
      let length := if (filled : bool) then length else length + Z.of_nat (ep_depth p) * indent in
      '(clen, p) ← json_parser_calculate_value child p;
      let length := u64 (length + clen) in
      calculate_items n (S i) items value indent separator (if (i <? items)%nat then length + separator else length) p
  end.
Definition json_parser_calculate_array (value : Z) (p : EncodingParameter) : sized :=
  if value =? 0 then Some (-1, p) else
  items ← ov_json_array_count h value;
  if (items =? 0)%nat then Some (2, p) else
  separator ← strlen (item_separator (array (ep_config p)));
  let indent := if entry_depth (array (ep_config p)) then opt_len (entry_indent (array (ep_config p))) else 0 in
  intro_len ← strlen (item_intro (array (ep_config p)));
  outro_len ← strlen (item_outro (array (ep_config p)));
  let length := Z.of_nat (ep_depth p) * indent + intro_len + (Z.of_nat (ep_depth p) * indent + outro_len) + opt_len (item_out (array (ep_config p))) in
  '(length, p) ← calculate_items items 1 items value indent separator length (with_depth p (S (ep_depth p)));
  Some (match length with Some length => (int64 length, with_depth p (pred (ep_depth p))) | None => (-1, p) end).
End calculating.
Fixpoint json_parser_calculate_value (fuel : nat) (h : json_heap) (value : Z) (p : EncodingParameter) : sized :=
  match fuel with
  | O => None
  | S fuel =>
      if value =? 0 then Some (-1, p) else
      v ← jload h value;
      match type v with
      | OV_JSON_NULL | OV_JSON_TRUE | OV_JSON_FALSE => n ← json_parser_calculate_literal h value p; Some (n, p)
      | OV_JSON_STRING _ => n ← json_parser_calculate_string h value p; Some (n, p)
      | OV_JSON_NUMBER _ => n ← json_parser_calculate_number h value p; Some (n, p)
      | OV_JSON_ARRAY _ => json_parser_calculate_array h (json_parser_calculate_value fuel h) value p
      | OV_JSON_OBJECT _ => json_parser_calculate_object h (json_parser_calculate_value fuel h) value p
      end
  end.
Definition ov_json_parser_calculate (h : json_heap) (value : Z) (conf : option ov_json_stringify_config) : option Z :=
  if value =? 0 then Some (-1) else
  if negb (match conf with Some c => ov_json_stringify_config_validate c | None => true end) then Some (-1) else
  let config := default ov_json_config_stringify_minimal conf in
  let p := {| ep_config := config; ep_buffer := 0; ep_size := 0; ep_depth := 0; ep_collocate := None; ep_counter := 0 |} in
  '(result, _) ← json_parser_calculate_value (turns h) h value p;
  Some (if result <? 0 then -1 else result + opt_len (intro config) + opt_len (outro config)).

(** The new string, or [NULL]. *)
Definition ov_json_value_to_string_with_config (m : mem) (h : json_heap) (value : Z) (config : ov_json_stringify_config)
    : option (Z * mem) :=
  value ← ov_json_value_cast h value;
  if value =? 0 then Some (NULL, m) else
  size ← ov_json_parser_calculate h value (Some config);
  if size <? 0 then Some (NULL, m) else
  let '(string, m) := calloc m (size + 1) in
  '(n, m) ← ov_json_parser_encode m h value (Some config) (Some ov_json_parser_collocate_ascending) string size;
  if n <? 0 then Some (NULL, dealloc m string (size + 1)) else Some (string, m).
Definition ov_json_encode (m : mem) (h : json_heap) (value : Z) : option (Z * mem) :=
  ov_json_value_to_string_with_config m h value ov_json_config_stringify_default.
Definition ov_json_value_to_string (m : mem) (h : json_heap) (value : Z) : option (Z * mem) := ov_json_encode m h value.
