(* ===== verification/JsonText.v ===== *)
(** * The text of a JSON value

    [jtree]: a value without its heap; [rep]: a node of a heap represents a tree;
    [text]: what the encoder writes for a tree. The members of an object have an
    order in a tree. [R] of [rep] says which orders are allowed: any ([any_order]), or
    the one in which the encoder visits them ([visited]). *)
From stdpp Require Import sorting.
From S2P Require Import Prelude CMem JsonNumber JsonGrammar Hashtable OvList Dict JsonValue JsonTree JsonOps JsonEncode.

(** ** Trees *)

Local Unset Elimination Schemes.
Inductive jtree :=
  | T_object (l : list (string * jtree)) | T_array (l : list jtree) | T_string (s : string) | T_number (b : Z)
  | T_null | T_true | T_false.
Local Set Elimination Schemes.
Section jtree_ind.
Context (P : jtree -> Prop) (Pobject : forall l, Forall (fun kt => P kt.2) l -> P (T_object l))
  (Parray : forall l, Forall P l -> P (T_array l)) (Pstring : forall s, P (T_string s)) (Pnumber : forall b, P (T_number b))
  (Pnull : P T_null) (Ptrue : P T_true) (Pfalse : P T_false).
Fixpoint jtree_ind (t : jtree) : P t :=
  match t with
  | T_object l => Pobject l ((fix go l : Forall (fun kt => P kt.2) l :=
      match l with [] => Forall_nil_2 _ | kt :: l => Forall_cons_2 _ kt l (jtree_ind kt.2) (go l) end) l)
  | T_array l => Parray l ((fix go l : Forall P l :=
      match l with [] => Forall_nil_2 _ | t :: l => Forall_cons_2 _ t l (jtree_ind t) (go l) end) l)
  | T_string s => Pstring s | T_number b => Pnumber b | T_null => Pnull | T_true => Ptrue | T_false => Pfalse
  end.
End jtree_ind.
Fixpoint height (t : jtree) : nat :=
  match t with
  | T_object l => S (foldr (fun kt n => Nat.max (height kt.2) n) O l)
  | T_array l => S (foldr (fun t n => Nat.max (height t) n) O l)
  | _ => 1%nat
  end.
Definition filled (t : jtree) : bool := match t with T_object (_ :: _) | T_array (_ :: _) => true | _ => false end.

Section rep.
Context (R : ov_dict -> list string -> Prop) (h : json_heap).
Inductive rep : Z -> jtree -> Prop :=
  | rep_object p v d l : h !! p = Some v -> type v = OV_JSON_OBJECT d -> NoDup l.*1 -> R d l.*1 ->
      (forall k, is_Some (dict_map d !! k) -> k ∈ l.*1) ->
      Forall (fun kt => exists c, dict_map d !! kt.1 = Some c /\ rep c kt.2) l -> rep p (T_object l)
  | rep_array p v cs ts : h !! p = Some v -> type v = OV_JSON_ARRAY cs -> Forall2 rep cs ts -> rep p (T_array ts)
  | rep_string p v s : h !! p = Some v -> type v = OV_JSON_STRING (Some s) -> rep p (T_string s)
  | rep_number p v b : h !! p = Some v -> type v = OV_JSON_NUMBER b -> rep p (T_number b)
  | rep_null p v : h !! p = Some v -> type v = OV_JSON_NULL -> rep p T_null
  | rep_true p v : h !! p = Some v -> type v = OV_JSON_TRUE -> rep p T_true
  | rep_false p v : h !! p = Some v -> type v = OV_JSON_FALSE -> rep p T_false.
End rep.
Definition any_order (d : ov_dict) (ks : list string) : Prop := True.

(** ** Texts *)

Definition str (s : c_string) : list Z := default [] s.
Definition indent_of (c : ov_json_value_config) (d : nat) : list Z :=
  if entry_depth c then concat (replicate d (str (entry_indent c))) else [].
Fixpoint join (sep : list Z) (l : list (list Z)) : list Z :=
  match l with [] => [] | [x] => x | x :: l => x ++ sep ++ join sep l end.
Definition around (c : ov_json_value_config) (l : list Z) : list Z := str (item_intro c) ++ l ++ str (item_outro c).
Definition container (c : ov_json_value_config) (d : nat) (l : list (list Z)) : list Z :=
  indent_of c d ++ str (item_intro c) ++ join (str (item_separator c)) l ++ str (item_out c) ++ indent_of c d ++ str (item_outro c).
Definition number_text (b : Z) : list Z :=
  if is_integral b then match int64_of_double b with Some n => print_int n | None => [] end else print_g b.
Section text.
Context (cfg : ov_json_stringify_config).
(** The text of a member up to its value. *)
Definition member_intro (d : nat) (k : string) (newline : bool) : list Z :=
  indent_of (object cfg) (S d) ++ (QUOTE ++ c_octets k ++ QUOTE) ++ str (item_delimiter (object cfg)) ++
  (if entry_depth (object cfg) && newline then [10] else []).
Definition item_indent (d : nat) (t : jtree) : list Z := if filled t then [] else indent_of (array cfg) (S d).
Fixpoint text (d : nat) (t : jtree) : list Z :=
  match t with
  | T_object [] => [123; 125]
  | T_object l => container (object cfg) d ((fun kt => member_intro d kt.1 (filled kt.2) ++ text (S d) kt.2) <$> l)
  | T_array [] => [91; 93]
  | T_array l => container (array cfg) d ((fun t => item_indent d t ++ text (S d) t) <$> l)
  | T_string s => around (string_ cfg) (c_octets s)
  | T_number b => around (number cfg) (number_text b)
  | T_null => around (literal cfg) NULL_TEXT
  | T_true => around (literal cfg) TRUE_TEXT
  | T_false => around (literal cfg) FALSE_TEXT
  end.
End text.

(** What the encoder accepts, which is not every value the library can hold:
    strings must be valid raw JSON content with an octet at least, integral
    numbers must fit into int64_t, keys must be C strings. *)
Definition number_ok (b : Z) : bool := (0 <=? b) && (b <? 2 ^ 64) && (if is_integral b then is_set (int64_of_double b) else true).
Fixpoint encodable (t : jtree) : bool :=
  match t with
  | T_object l => forallb (fun kt => bool_decide (0 ∉ string_bytes kt.1) && encodable kt.2) l
  | T_array l => forallb encodable l
  | T_string s => bool_decide (validate_octets (c_octets s) = Some true)
  | T_number b => number_ok b
  | _ => true
  end.

(** ** Members in order *)

Definition visits (coll : option collocate) (d : ov_dict) : list string :=
  match coll with
  | Some f => fold_left (fun l k => f k l) (concat (items d)).*1 []
  | None => (concat (items d)).*1
  end.
Definition visited (coll : option collocate) (d : ov_dict) (ks : list string) : Prop := visits coll d = ks.

Definition octets_lt (a b : list Z) : bool := key_before (a ++ [0]) (b ++ [0]).
Fixpoint insert_member (k : string) (t : jtree) (l : list (string * jtree)) : list (string * jtree) :=
  match l with
  | [] => [(k, t)]
  | kt :: rest => if octets_lt (c_octets k) (c_octets kt.1) then (k, t) :: l else kt :: insert_member k t rest
  end.
(** The tree with the members of its objects in ascending order. *)
Fixpoint sorted (t : jtree) : jtree :=
  match t with
  | T_object l => T_object (foldr (fun kt l => insert_member kt.1 (sorted kt.2) l) [] l)
  | T_array l => T_array (sorted <$> l)
  | t => t
  end.

(** *** The order of keys *)

Definition key_lt (a b : string) : Prop := octets_lt (c_octets a) (c_octets b) = true.
Lemma key_before_asym a b : key_before a b = true -> key_before b a = false.
Proof.
  revert b. induction a as [|x a IH]; intros [|y b]; cbn [key_before]; try done.
  destruct (Z.ltb_spec x y), (Z.ltb_spec y x), (Z.eqb_spec x y), (Z.eqb_spec y x); cbn [negb]; try lia; try done. apply IH.
Qed.
Lemma key_before_trans a b c : key_before a b = true -> key_before b c = true -> key_before a c = true.
Proof.
  revert b c. induction a as [|x a IH]; intros [|y b] [|z c]; cbn [key_before]; try done.
  destruct (Z.ltb_spec x y), (Z.ltb_spec y z), (Z.ltb_spec x z), (Z.eqb_spec x y), (Z.eqb_spec y z), (Z.eqb_spec x z); cbn [negb]; try lia; try done.
  apply IH.
Qed.
Lemma key_before_total a b : 0 ∉ a -> 0 ∉ b -> a <> b -> octets_lt a b = true \/ octets_lt b a = true.
Proof.
  unfold octets_lt. revert b. induction a as [|x a IH]; intros [|y b] Ha Hb Hne; cbn [app key_before]; try done.
  - apply not_elem_of_cons in Hb as [Hy Hb]. destruct (Z.ltb_spec 0 y); [by left|]. destruct (Z.ltb_spec y 0); [by right|lia].
  - apply not_elem_of_cons in Ha as [Hx Ha]. destruct (Z.ltb_spec x 0); [by left|]. destruct (Z.ltb_spec 0 x); [by right|lia].
  - apply not_elem_of_cons in Ha as [Hx Ha], Hb as [Hy Hb]. destruct (Z.ltb_spec x y); [by left|]. destruct (Z.ltb_spec y x); [by right|].
    assert (x = y) as -> by lia. rewrite Z.eqb_refl. cbn [negb]. apply IH; [done|done|congruence].
Qed.
Lemma until_nul_id l : 0 ∉ l -> until_nul l = l.
Proof.
  induction l as [|c l IH]; [done|]. intros [Hc Hl]%not_elem_of_cons. cbn [until_nul]. destruct (Z.eqb_spec c 0); [congruence|]. by rewrite IH.
Qed.
Lemma string_bytes_inj a b : string_bytes a = string_bytes b -> a = b.
Proof.
  unfold string_bytes. intros E. rewrite <- (String.string_of_list_ascii_of_string a), <- (String.string_of_list_ascii_of_string b). f_equal.
  revert E. apply list_fmap_eq_inj. intros x y Exy. apply (f_equal Z.to_N) in Exy. rewrite !N2Z.id in Exy.
  by rewrite <- (Ascii.ascii_N_embedding x), Exy, Ascii.ascii_N_embedding.
Qed.
Definition no_nul (k : string) : Prop := 0 ∉ string_bytes k.
Lemma c_octets_id k : no_nul k -> c_octets k = string_bytes k.
Proof. apply until_nul_id. Qed.
Lemma key_lt_total a b : no_nul a -> no_nul b -> a <> b -> key_lt a b \/ key_lt b a.
Proof.
  intros Ha Hb Hne. unfold key_lt. rewrite !c_octets_id by done. apply key_before_total; [done|done|]. by intros ?%string_bytes_inj.
Qed.
#[export] Instance key_lt_trans : Transitive key_lt.
Proof. intros a b c. apply key_before_trans. Qed.
#[export] Instance key_lt_antisym : AntiSymm (=) key_lt.
Proof. intros a b H1 H2. unfold key_lt, octets_lt in *. apply key_before_asym in H1. congruence. Qed.

Lemma collocate_perm k l : ov_json_parser_collocate_ascending k l ≡ₚ k :: l.
Proof.
  induction l as [|s l IH]; [done|]. cbn [ov_json_parser_collocate_ascending]. case_match; [done|]. rewrite IH. apply Permutation_swap.
Qed.
Lemma collocate_sorted k l : StronglySorted key_lt l -> no_nul k -> Forall no_nul l -> k ∉ l ->
  StronglySorted key_lt (ov_json_parser_collocate_ascending k l).
Proof.
  intros Hs Hk Hl Hin. induction Hs as [|s l Hs IH Hall]; cbn [ov_json_parser_collocate_ascending]; [repeat constructor|].
  apply Forall_cons in Hl as [Hsn Hl]. apply not_elem_of_cons in Hin as [Hks Hin].
  destruct (key_before (c_octets k ++ [0]) (c_octets s ++ [0])) eqn:E.
  - apply SSorted_cons; [by apply SSorted_cons|]. apply Forall_cons. split; [exact E|].
    eapply Forall_impl; [exact Hall|]. intros x Hx. transitivity s; [exact E|done].
  - apply SSorted_cons; [by apply IH|]. rewrite collocate_perm. apply Forall_cons. split; [|done].
    destruct (key_lt_total k s) as [Hlt|]; [done|done|done| |done]. unfold key_lt, octets_lt in Hlt. congruence.
Qed.
Lemma collocate_all l acc : StronglySorted key_lt acc -> Forall no_nul (l ++ acc) -> NoDup (l ++ acc) ->
  StronglySorted key_lt (fold_left (fun l k => ov_json_parser_collocate_ascending k l) l acc) /\
  fold_left (fun l k => ov_json_parser_collocate_ascending k l) l acc ≡ₚ l ++ acc.
Proof.
  revert acc. induction l as [|k l IH]; intros acc Hs Hn Hd; [done|]. cbn [fold_left app] in *.
  apply Forall_cons in Hn as [Hk Hn]. apply NoDup_cons in Hd as [Hin Hd].
  assert (P : l ++ ov_json_parser_collocate_ascending k acc ≡ₚ k :: l ++ acc) by (by rewrite collocate_perm, <- Permutation_middle).
  rewrite <- P. apply IH.
  - apply Forall_app in Hn as [_ Hn]. apply collocate_sorted; [done|done|done|]. intros Hk'. apply Hin. apply elem_of_app. by right.
  - rewrite P. by apply Forall_cons.
  - rewrite P. by apply NoDup_cons.
Qed.
Lemma insert_member_perm k t l : insert_member k t l ≡ₚ (k, t) :: l.
Proof. induction l as [|kt l IH]; [done|]. cbn [insert_member]. case_match; [done|]. rewrite IH. apply Permutation_swap. Qed.
Lemma insert_member_keys k t l : (insert_member k t l).*1 = ov_json_parser_collocate_ascending k l.*1.
Proof.
  induction l as [|kt l IH]; [done|]. cbn [insert_member]. rewrite fmap_cons. cbn [ov_json_parser_collocate_ascending].
  unfold octets_lt. case_match; [done|]. by rewrite fmap_cons, IH.
Qed.
Definition sorted_members (l : list (string * jtree)) : list (string * jtree) := foldr (fun kt l => insert_member kt.1 (sorted kt.2) l) [] l.
Lemma sorted_members_perm l : sorted_members l ≡ₚ (fun kt => (kt.1, sorted kt.2)) <$> l.
Proof. induction l as [|kt l IH]; [done|]. cbn [sorted_members foldr]. rewrite insert_member_perm. by rewrite fmap_cons, <- IH. Qed.
Lemma sorted_members_keys l : Forall no_nul l.*1 -> NoDup l.*1 ->
  StronglySorted key_lt (sorted_members l).*1 /\ (sorted_members l).*1 ≡ₚ l.*1.
Proof.
  intros Hn Hd. assert (P : (sorted_members l).*1 ≡ₚ l.*1).
  { rewrite sorted_members_perm, <- list_fmap_compose. done. }
  split; [|done]. induction l as [|kt l IH]; [constructor|]. rewrite fmap_cons in Hn, Hd. apply Forall_cons in Hn as [Hk Hn]. apply NoDup_cons in Hd as [Hin Hd].
  assert (P' : (sorted_members l).*1 ≡ₚ l.*1) by (rewrite sorted_members_perm, <- list_fmap_compose; done).
  cbn [sorted_members foldr]. rewrite insert_member_keys. apply collocate_sorted; [by apply IH|done|by rewrite P'|by rewrite P'].
Qed.
(** The keys of an object in the order of the encoder. *)
Lemma visits_sorted d l : dict_ok d -> NoDup l.*1 -> Forall no_nul l.*1 -> (forall k, is_Some (dict_map d !! k) <-> k ∈ l.*1) ->
  visits (Some ov_json_parser_collocate_ascending) d = (sorted_members l).*1.
Proof.
  intros Hok Hd Hn Hk. destruct (sorted_members_keys l Hn Hd) as [Hs HP]. unfold visits.
  assert (P : (concat (items d)).*1 ≡ₚ l.*1).
  { apply NoDup_Permutation; [by apply dict_keys_nodup|done|]. intros k. rewrite <- Hk. split.
    - intros ([k' c] & -> & Hin)%list_elem_of_fmap. exists c. by apply dict_map_elem.
    - intros [c Hc]. apply list_elem_of_fmap. exists (k, c). split; [done|]. by apply dict_map_elem. }
  destruct (collocate_all (concat (items d)).*1 []) as [Hs' HP'].
  - constructor.
  - rewrite app_nil_r. by rewrite P.
  - rewrite app_nil_r. by apply dict_keys_nodup.
  - rewrite app_nil_r in HP'. apply (StronglySorted_unique key_lt); [done|done|]. by rewrite HP', HP.
Qed.
Lemma rep_weaken (R R' : ov_dict -> list string -> Prop) h p t : (forall d ks, R d ks -> R' d ks) -> rep R h p t -> rep R' h p t.
Proof.
  intros HR. revert p. induction t as [l IH|l IH|s|b| | |] using jtree_ind; intros p H; inversion H; subst; try by econstructor.
  - econstructor; eauto. rewrite Forall_forall in IH |- *. intros kt Hin.
    match goal with F : Forall _ l |- _ => rewrite Forall_forall in F; destruct (F kt Hin) as (c & Hc & Hr) end. exists c. split; [done|]. by apply IH.
  - econstructor; eauto. match goal with F : Forall2 _ _ l |- _ => revert F end. clear -IH. revert cs.
    induction IH as [|t l Ht _ IHl]; intros cs F; inversion F; subst; constructor; auto.
Qed.
Lemma sorted_members_elem k t l : (k, t) ∈ sorted_members l <-> exists t0, (k, t0) ∈ l /\ t = sorted t0.
Proof.
  rewrite sorted_members_perm. rewrite list_elem_of_fmap. split.
  - intros ([k0 t0] & [= -> ->] & Hin). by exists t0.
  - intros (t0 & Hin & ->). by exists (k, t0).
Qed.
Lemma encodable_object l : encodable (T_object l) = true <-> Forall no_nul l.*1 /\ Forall (fun kt => encodable kt.2 = true) l.
Proof.
  cbn [encodable]. induction l as [|kt l IH]; cbn [forallb]; [by split|].
  rewrite andb_true_iff, andb_true_iff, IH, bool_decide_eq_true, fmap_cons, !Forall_cons. unfold no_nul. tauto.
Qed.
Lemma encodable_array l : encodable (T_array l) = true <-> Forall (fun t => encodable t = true) l.
Proof. cbn [encodable]. induction l as [|t l IH]; cbn [forallb]; [by split|]. by rewrite andb_true_iff, IH, Forall_cons. Qed.
(** The nodes that represent a tree represent the tree in the order of the encoder. *)
Lemma rep_sorted O h p t : json_wf O h -> encodable t = true -> rep any_order h p t ->
  rep (visited (Some ov_json_parser_collocate_ascending)) h p (sorted t).
Proof.
  intros W. revert p. induction t as [l IH|l IH|s|b| | |] using jtree_ind; intros p He H; inversion H; subst; try by econstructor.
  - apply encodable_object in He as [Hn He]. match goal with E : type _ = OV_JSON_OBJECT ?d0 |- _ => rename d0 into d; rename E into Et end.
    match goal with E : h !! p = Some ?v0 |- _ => pose proof (jw_once O h W p v0 E) as Ho end. rewrite Et in Ho. destruct Ho as [Hok _].
    match goal with F : Forall _ l |- _ => rename F into HF end. rewrite Forall_forall in HF.
    assert (Hkeys : forall k, is_Some (dict_map d !! k) <-> k ∈ l.*1).
    { intros k. split; [by eauto|]. intros (kt & -> & Hin)%list_elem_of_fmap. destruct (HF kt Hin) as (c & Hc & _). by exists c. }
    change (sorted (T_object l)) with (T_object (sorted_members l)). destruct (sorted_members_keys l Hn) as [_ HP]; [done|].
    eapply (rep_object _ _ _ _ d); [done|done|by rewrite HP|by apply visits_sorted| |].
    + intros k Hk. rewrite HP. by apply Hkeys.
    + apply Forall_forall. intros [k t] (t0 & Hin & ->)%sorted_members_elem. destruct (HF _ Hin) as (c & Hc & Hr). exists c.
      split; [done|]. cbn. rewrite Forall_forall in IH, He. by apply (IH (k, t0)), Hr; [|apply (He (k, t0))].
  - apply encodable_array in He. econstructor; [done|done|]. match goal with F : Forall2 _ _ l |- _ => rename F into HF end. clear -IH He HF.
    revert cs HF. induction IH as [|t l Ht _ IHl]; intros cs F; inversion F; subst; [constructor|]. apply Forall_cons in He as [He1 He].
    constructor; [by apply Ht|by apply IHl].
Qed.
Lemma rep_unsorted h p t : rep any_order h p (sorted t) -> rep any_order h p t.
Proof.
  revert p. induction t as [l IH|l IH|s|b| | |] using jtree_ind; intros p H; try done.
  - change (sorted (T_object l)) with (T_object (sorted_members l)) in H. inversion H; subst.
    assert (HP : (sorted_members l).*1 ≡ₚ l.*1) by (rewrite sorted_members_perm, <- list_fmap_compose; done).
    match goal with F : Forall _ (sorted_members l) |- _ => rename F into HF end. rewrite Forall_forall in HF, IH.
    eapply rep_object; [done|done|by rewrite <- HP|done| |].
    + intros k Hk. rewrite <- HP. auto.
    + apply Forall_forall. intros [k t] Hin. destruct (HF (k, sorted t)) as (c & Hc & Hr); [apply sorted_members_elem; by exists t|].
      exists c. split; [done|]. by apply (IH (k, t)).
  - inversion H; subst. econstructor; [done|done|]. match goal with F : Forall2 _ _ _ |- _ => rename F into HF end. clear -IH HF.
    revert cs HF. induction IH as [|t l Ht _ IHl]; intros cs F; inversion F; subst; [constructor|]. constructor; [by apply Ht|by apply IHl].
Qed.
Lemma encodable_sorted t : encodable t = true -> encodable (sorted t) = true.
Proof.
  induction t as [l IH|l IH|s|b| | |] using jtree_ind; intros He; try done.
  - apply encodable_object in He as [Hn He]. change (sorted (T_object l)) with (T_object (sorted_members l)). apply encodable_object.
    assert (HP : (sorted_members l).*1 ≡ₚ l.*1) by (rewrite sorted_members_perm, <- list_fmap_compose; done).
    split; [by rewrite HP|]. apply Forall_forall. intros [k t] (t0 & Hin & ->)%sorted_members_elem.
    rewrite Forall_forall in IH, He. by apply (IH (k, t0)), (He (k, t0)).
  - apply encodable_array in He. apply encodable_array. rewrite Forall_fmap. rewrite Forall_forall in *. intros t Hin. by apply IH, He.
Qed.
