(* ===== verification/JsonEncodeSpec.v ===== *)
(** * The encoder writes the text

    A step of the encoder that succeeds writes octets at the place it has reached
    and moves on ([puts]); [writes f l need] says that [f] does so with [l], in a
    buffer with room for [l] and [need] more octets. [encode_value]: a value that
    represents a tree is encoded to the text of the tree. [calculate_value]: the
    calculated length is the length of that text. *)
From S2P Require Import Prelude CMem JsonNumber JsonGrammar Hashtable OvList Dict JsonValue JsonTree JsonOps JsonPaths JsonEncode JsonText.

(** What the text of a configuration must be. The last separator of an object is
    written and then overwritten. *)
Record encode_config (cfg : ov_json_stringify_config) : Prop := {
  ec_bytes : Forall (fun c => bytes (str (item_intro c)) /\ bytes (str (item_out c)) /\ bytes (str (item_outro c)) /\
    bytes (str (item_separator c)) /\ bytes (str (item_delimiter c)) /\ bytes (str (entry_indent c)))
    [literal cfg; number cfg; string_ cfg; array cfg; object cfg];
  ec_ends : bytes (str (intro cfg)) /\ bytes (str (outro cfg));
  ec_set : ov_json_stringify_config_validate cfg = true;
  ec_quotes : 2 <= Zlen (str (item_intro (string_ cfg))) + Zlen (str (item_outro (string_ cfg)));
  ec_array : 1 <= Zlen (str (item_outro (array cfg)));
  ec_object : 1 <= Zlen (str (item_outro (object cfg)));
  ec_separator : 1 <= Zlen (str (item_separator (object cfg))) <=
    Zlen (str (item_out (object cfg))) + Zlen (str (item_outro (object cfg)))
}.

(** ** Writing *)

Definition puts (s : state) (l : list Z) : state := (write s.1 (ep_buffer s.2) l, advance s.2 (Zlen l)).
Lemma puts_nil s : 0 <= ep_size s.2 < 2 ^ 64 -> puts s [] = s.
Proof.
  intros H. destruct s as [m p]. unfold puts. cbn. destruct p. unfold advance. cbn in *. rewrite Zlen_nil, Z.add_0_r, Z.sub_0_r, u64_id by done. done.
Qed.
Lemma puts_app s a b : puts (puts s a) b = puts s (a ++ b).
Proof.
  destruct s as [m p]. unfold puts. cbn [fst snd ep_buffer advance]. rewrite write_write. f_equal. unfold advance. cbn. rewrite Zlen_app. f_equal; [lia|].
  unfold u64. rewrite Zminus_mod_idemp_l. f_equal. lia.
Qed.
Lemma puts_overwrite s a b n : Zlen a <= Zlen b -> n = - Zlen a ->
  puts ((puts s a).1, advance (puts s a).2 n) b = puts s b.
Proof.
  intros Hl ->. destruct s as [m p]. unfold puts. cbn [fst snd ep_buffer advance].
  replace (ep_buffer p + Zlen a + - Zlen a) with (ep_buffer p) by lia. rewrite write_overwrite by done. f_equal. unfold advance. cbn.
  f_equal; [lia|]. unfold u64. rewrite Zminus_mod_idemp_l, <- Z.sub_add_distr, Zminus_mod_idemp_l. f_equal. lia.
Qed.

(** To the depth of the items and back. *)
Definition deeper (s : state) : state := (s.1, with_depth s.2 (S (ep_depth s.2))).
Definition back (s : state) : state := (s.1, with_depth s.2 (pred (ep_depth s.2))).
Definition rewound (n : Z) (s : state) : state := (s.1, advance s.2 (- n)).
Lemma back_deeper s l : back (puts (deeper s) l) = puts s l.
Proof. by destruct s as [m []]. Qed.

Section writes.
Context (cfg : ov_json_stringify_config) (coll : option collocate).

Record st_ok (d : nat) (s : state) : Prop := {
  so_cfg : ep_config s.2 = cfg; so_coll : ep_collocate s.2 = coll; so_depth : ep_depth s.2 = d;
  so_map : mapped s.1 (ep_buffer s.2) (ep_size s.2); so_size : 0 <= ep_size s.2 < 2 ^ 64 }.
Lemma puts_size d s l : st_ok d s -> Zlen l <= ep_size s.2 -> ep_size (puts s l).2 = ep_size s.2 - Zlen l.
Proof using Type. intros H Hl. pose proof (so_size d s H). unfold puts. cbn. apply u64_id. zlia. Qed.
Lemma puts_ok d s l : st_ok d s -> Zlen l <= ep_size s.2 -> st_ok d (puts s l).
Proof using Type.
  intros H Hl. pose proof (puts_size d s l H Hl) as E. destruct H as [H1 H2 H3 H4 H5]. split; try done.
  - rewrite E. apply mapped_write. eapply mapped_sub; [done| |]; cbn; zlia.
  - rewrite E. zlia.
Qed.
Definition writes (d : nat) (f : state -> written) (l : list Z) (need : Z) : Prop :=
  forall s, st_ok d s -> Zlen l + need <= ep_size s.2 -> f s = Some (true, puts s l).

Lemma writes_none d : writes d (fun s => Some (true, s)) [] 0.
Proof using Type. intros s H _. by rewrite puts_nil by apply (so_size d s H). Qed.
Lemma writes_also d f g a b n n1 n2 : writes d f a n1 -> writes d g b n2 -> n1 <= Zlen b + n -> n2 <= n ->
  0 <= n -> writes d (fun s => also (f s) g) (a ++ b) n.
Proof using Type.
  intros Hf Hg H1 H2 Hn s Hs Hl. rewrite Zlen_app in Hl. unfold also. rewrite Hf by (done || lia). cbn [mbind option_bind].
  pose proof (Zlen_nonneg b). rewrite Hg; [by rewrite puts_app|apply puts_ok; [done|lia]|]. rewrite (puts_size d) by (done || lia). lia.
Qed.
Lemma writes_ext d f g l n : (forall s, ep_config s.2 = cfg -> ep_collocate s.2 = coll -> f s = g s) -> writes d g l n -> writes d f l n.
Proof using Type. intros E H s Hs Hl. rewrite E; [by apply H|apply (so_cfg d s Hs)|apply (so_coll d s Hs)]. Qed.
Lemma writes_guard d (b : state -> bool) f l n : writes d f l n ->
  (forall s, st_ok d s -> Zlen l + n <= ep_size s.2 -> b s = false) -> writes d (fun s => if b s then Some (false, s) else f s) l n.
Proof using Type. intros H Hb s Hs Hl. rewrite Hb by done. by apply H. Qed.
Lemma writes_more d f l n n' : writes d f l n -> n <= n' -> writes d f l n'.
Proof using Type. intros H Hn s Hs Hl. apply H; [done|lia]. Qed.

Lemma deeper_ok d s : st_ok d s -> st_ok (S d) (deeper s).
Proof using Type. intros []. split; try done. cbn. by f_equal. Qed.
(** Items at the next depth, and what follows; for objects the last separator is
    overwritten. *)
Lemma writes_down d f g k a b : writes (S d) f a 0 -> writes d g b 0 -> (forall s, ep_config s.2 = cfg -> k s = g (back s)) ->
  writes d (fun s => also (f (deeper s)) k) (a ++ b) 0.
Proof using Type.
  intros Hf Hg Hk s Hs Hl. rewrite Zlen_app in Hl. pose proof (Zlen_nonneg b). unfold also.
  rewrite Hf; [|by apply deeper_ok|cbn; lia]. cbn [mbind option_bind]. rewrite Hk by apply (so_cfg d s Hs). rewrite back_deeper.
  rewrite Hg; [by rewrite puts_app|apply puts_ok; [done|lia]|]. rewrite (puts_size d) by (done || lia). lia.
Qed.
Lemma writes_rewind d f g k a sep b : writes (S d) f (a ++ sep) 0 -> writes d g b 0 -> Zlen sep <= Zlen b ->
  (forall s, ep_config s.2 = cfg -> k s = g (rewound (Zlen sep) (back s))) ->
  writes d (fun s => also (f (deeper s)) k) (a ++ b) 0.
Proof using Type.
  intros Hf Hg Hsep Hk s Hs Hl. rewrite Zlen_app in Hl. pose proof (Zlen_nonneg b). pose proof (Zlen_nonneg a). pose proof (Zlen_nonneg sep).
  unfold also. rewrite Hf; [|by apply deeper_ok|rewrite Zlen_app; cbn; lia]. cbn [mbind option_bind].
  rewrite Hk by apply (so_cfg d s Hs). rewrite back_deeper, <- puts_app.
  assert (Hs1 : st_ok d (puts s a)) by (apply puts_ok; [done|lia]).
  pose proof (puts_size d s a Hs ltac:(lia)) as E1. pose proof (puts_size d (puts s a) sep Hs1 ltac:(lia)) as E2.
  assert (Hs2 : st_ok d (puts (puts s a) sep)) by (apply puts_ok; [done|lia]).
  assert (E3 : ep_size (rewound (Zlen sep) (puts (puts s a) sep)).2 = ep_size (puts s a).2).
  { pose proof (so_size d _ Hs1). cbn -[puts]. rewrite E2. replace (ep_size (puts s a).2 - Zlen sep - - Zlen sep) with (ep_size (puts s a).2) by lia.
    by apply u64_id. }
  rewrite Hg.
  - unfold rewound. by rewrite (puts_overwrite (puts s a) sep b) by (done || lia); rewrite puts_app.
  - destruct Hs2 as [P1 P2 P3 P4 P5]. split; [done|done|done| |rewrite E3; by apply (so_size d _ Hs1)].
    rewrite E3. unfold rewound. cbn [fst snd ep_buffer advance puts]. apply mapped_write.
    pose proof (so_map d _ Hs1) as M. cbn [puts fst snd ep_buffer advance] in M.
    replace (ep_buffer s.2 + Zlen a + Zlen sep + - Zlen sep) with (ep_buffer s.2 + Zlen a) by lia. exact M.
  - rewrite E3, E1. lia.
Qed.

Lemma writes_octets d l : bytes l -> writes d (fun s => put_octets s l) l 0.
Proof using Type.
  intros Hb s Hs Hl. unfold put_octets. pose proof (so_map d s Hs).
  rewrite (storen_bytes _ (ep_buffer s.2) (ep_size s.2)) by (done || lia). done.
Qed.
Lemma writes_c_string d c : bytes (str c) -> writes d (json_parser_write_if_not_null c) (str c) 0.
Proof using Type.
  intros Hb. destruct c as [l|]; [|apply writes_none]. unfold str in *. cbn [default from_option id] in *. intros s Hs Hl.
  unfold json_parser_write_if_not_null. rewrite (proj2 (Z.ltb_ge _ _)) by lia. by apply (writes_octets d).
Qed.
Lemma writes_indent_loop d n l : bytes l -> writes d (indent_loop n l) (concat (replicate n l)) 1.
Proof using Type.
  intros Hb. induction n as [|n IH]; cbn [indent_loop replicate concat]; [eapply writes_more; [apply writes_none|lia]|].
  apply (writes_guard d (fun s => ep_size s.2 <=? Zlen l)).
  - eapply writes_also; [by apply writes_octets|exact IH| |done|done]. pose proof (Zlen_nonneg (concat (replicate n l))). lia.
  - intros s Hs Hl. rewrite Zlen_app in Hl. pose proof (Zlen_nonneg (concat (replicate n l))). apply Z.leb_gt. lia.
Qed.
Lemma Zlen_replicate_concat n (l : list Z) : Zlen (concat (replicate n l)) = Z.of_nat n * Zlen l.
Proof using Type. induction n as [|n IH]; [done|]. cbn [replicate concat]. rewrite Zlen_app, IH. lia. Qed.
Lemma writes_indent d c : bytes (str (entry_indent c)) -> writes d (write_indent c) (indent_of c d) 1.
Proof using Type.
  intros Hb s Hs Hl. unfold write_indent, indent_of in *. destruct (entry_indent c) as [l|]; unfold str in *; cbn [default from_option id] in *.
  - destruct (entry_depth c); cbn [negb]; [|by rewrite puts_nil by apply (so_size d s Hs)].
    rewrite (so_depth d s Hs). rewrite Zlen_replicate_concat in Hl. rewrite (proj2 (Z.ltb_ge _ _)) by lia.
    apply (writes_indent_loop d); [done|done|]. by rewrite Zlen_replicate_concat.
  - replace (if entry_depth c then concat (replicate d (@nil Z)) else []) with (@nil Z); [by rewrite puts_nil by apply (so_size d s Hs)|].
    destruct (entry_depth c); [|done]. clear. induction d; done.
Qed.
End writes.

Lemma c_octets_bytes k : bytes (c_octets k).
Proof.
  unfold c_octets. pose proof (bytes_string k) as Hk. induction Hk as [|c r Hc _ IH]; cbn [until_nul]; [constructor|].
  destruct (c =? 0); by constructor.
Qed.
Lemma cons_quote k (r : list Z) : QUOTE ++ c_octets k ++ QUOTE ++ r = (QUOTE ++ c_octets k ++ QUOTE) ++ r.
Proof. by rewrite <- !app_assoc. Qed.
Section values.
Context (cfg : ov_json_stringify_config) (coll : option collocate) (Hcfg : encode_config cfg).
Abbreviation st_ok := (st_ok cfg coll).
Abbreviation writes := (writes cfg coll).

Lemma config_bytes c : c ∈ [literal cfg; number cfg; string_ cfg; array cfg; object cfg] ->
  bytes (str (item_intro c)) /\ bytes (str (item_out c)) /\ bytes (str (item_outro c)) /\
  bytes (str (item_separator c)) /\ bytes (str (item_delimiter c)) /\ bytes (str (entry_indent c)).
Proof using Hcfg. intros Hc. pose proof (ec_bytes cfg Hcfg) as H. rewrite Forall_forall in H. by apply H. Qed.
Lemma config_elem c : c = literal cfg \/ c = number cfg \/ c = string_ cfg \/ c = array cfg \/ c = object cfg ->
  c ∈ [literal cfg; number cfg; string_ cfg; array cfg; object cfg].
Proof using Type. intros H. rewrite !elem_of_cons. tauto. Qed.
Lemma writes_pack d c l : c ∈ [literal cfg; number cfg; string_ cfg; array cfg; object cfg] -> bytes l ->
  writes d (pack c l) (around c l) 0.
Proof using Hcfg.
  intros Hc Hl. destruct (config_bytes c Hc) as (H1 & _ & H2 & _). unfold pack, around. rewrite app_assoc.
  assert (H0 : forall x : list Z, 0 <= Zlen x + 0) by (intros; zlia).
  eapply writes_also; [|by apply writes_c_string|apply H0|done|done].
  eapply writes_also; [by apply writes_c_string| |apply H0|done|done].
  by apply (writes_c_string cfg coll d (Some l)).
Qed.
Lemma writes_intro d c : c ∈ [literal cfg; number cfg; string_ cfg; array cfg; object cfg] -> is_set (item_intro c) = true ->
  writes d (write_intro c) (indent_of c d ++ str (item_intro c)) 1.
Proof using Hcfg.
  intros Hc Hset. destruct (config_bytes c Hc) as (H1 & _ & _ & _ & _ & H2). unfold write_intro. rewrite Hset. cbn [negb].
  eapply writes_also; [by apply writes_indent|by apply writes_c_string|zlia|lia|lia].
Qed.
Lemma writes_outro d c : c ∈ [literal cfg; number cfg; string_ cfg; array cfg; object cfg] -> is_set (item_intro c) = true ->
  is_set (item_outro c) = true -> 1 <= Zlen (str (item_outro c)) ->
  writes d (write_outro c) (str (item_out c) ++ indent_of c d ++ str (item_outro c)) 0.
Proof using Hcfg.
  intros Hc Hset Hset' Hlen. destruct (config_bytes c Hc) as (H1 & H2 & H3 & _ & _ & H4). unfold write_outro. rewrite Hset, Hset'. cbn [negb].
  rewrite app_assoc. eapply (writes_also _ _ _ _ _ _ _ 0 1); [|by apply writes_c_string|lia|done|done].
  eapply writes_also; [by apply writes_c_string|by apply writes_indent| |done|done]. zlia.
Qed.
Lemma encoded_writes d f l s : writes d f l 0 -> st_ok d s -> Zlen l <= ep_size s.2 ->
  encoded (ep_buffer s.2) (f s) = Some (Zlen l, puts s l).
Proof using Type.
  intros Hf Hs Hl. unfold encoded. rewrite (Hf s Hs) by lia. cbn [mbind option_bind]. do 2 f_equal. unfold puts. cbn. lia.
Qed.
Lemma parameter_valid d s (l : list Z) : st_ok d s -> 1 <= Zlen l -> Zlen l <= ep_size s.2 -> validate_parameter s.2 = true.
Proof using Type.
  intros Hs H1 H2. destruct (so_map _ _ d s Hs) as [Hb _]. unfold validate_parameter, NULL.
  rewrite (proj2 (Z.eqb_neq _ _)), (proj2 (Z.ltb_ge _ _)) by lia. done.
Qed.

(** An encoder of the values at the nodes of a heap. *)
Context (h : json_heap) (enc : Z -> state -> option (Z * state)) (H0 : h !! 0 = None).
Definition encodes (d : nat) (p : Z) (l : list Z) : Prop :=
  forall s, st_ok d s -> Zlen l <= ep_size s.2 -> enc p s = Some (Zlen l, puts s l).
Lemma writes_child d p l : encodes d p l -> 1 <= Zlen l -> writes d (encode_child enc p) l 0.
Proof using Type.
  intros He Hl s Hs Hlen. unfold encode_child. rewrite He by (done || lia). cbn [mbind option_bind].
  by rewrite (proj2 (Z.ltb_ge _ _)).
Qed.
Definition fill_of (p : Z) (b : bool) : Prop := is_Some (h !! p) /\ is_filled h p = Some b.
Lemma writes_newline d p b : fill_of p b ->
  writes d (write_newline h p) (if entry_depth (object cfg) && b then [10] else []) 0.
Proof using Type.
  intros [_ Hb] s Hs Hl. unfold write_newline. rewrite (so_cfg _ _ d s Hs). destruct (entry_depth (object cfg)); cbn [negb andb] in *.
  - rewrite Hb. cbn [mbind option_bind]. destruct b; [|by apply writes_none with cfg coll d].
    apply (writes_octets cfg coll d); [repeat constructor; unfold is_byte; lia|done|done].
  - by apply writes_none with cfg coll d.
Qed.
(** One member with the separator behind it. *)
Lemma writes_entry d k p b l : fill_of p b -> encodes (S d) p l -> 1 <= Zlen l ->
  writes (S d) (object_write_entry h enc k p) (member_intro cfg d k b ++ l ++ str (item_separator (object cfg))) 0.
Proof using Hcfg H0.
  intros Hb He Hl. pose proof Hb as Hfill. destruct Hb as [[v Hv] Hb].
  assert (Hc : object cfg ∈ [literal cfg; number cfg; string_ cfg; array cfg; object cfg]) by (apply config_elem; tauto).
  destruct (config_bytes _ Hc) as (B1 & B2 & B3 & B4 & B5 & B6). pose proof (live_nonzero h p v H0 Hv) as Hp.
  intros s Hs Hlen. unfold object_write_entry. rewrite (proj2 (Z.eqb_neq p 0) Hp), (jload_Some h p v H0 Hv). cbn [mbind option_bind].
  revert s Hs Hlen. change (writes (S d) (fun s => also (object_write_indent s) (fun s =>
    if ep_size s.2 <? Zlen (c_octets k) + 2 then Some (false, s) else
    also (put_octets s (QUOTE ++ c_octets k ++ QUOTE)) (fun s =>
    also (json_parser_write_if_not_null (item_delimiter (object (ep_config s.2))) s) (fun s =>
    if ep_size s.2 <? 2 then Some (false, s) else
    also (write_newline h p s) (fun s =>
    also (encode_child enc p s) (fun s =>
    json_parser_write_if_not_null (item_separator (object (ep_config s.2))) s))))))
    (member_intro cfg d k b ++ l ++ str (item_separator (object cfg))) 0).
  unfold member_intro. rewrite <- !app_assoc. assert (Hn : forall x : list Z, 0 <= Zlen x + 0) by (intros; zlia).
  destruct (ec_separator cfg Hcfg) as [Hsep _].
  eapply writes_also; [| |apply Z.le_trans with 1; [apply Z.le_refl|]; zlia|done|done].
  { eapply writes_ext; [|by apply (writes_indent cfg coll (S d) (object cfg))]. intros s Ec _. unfold object_write_indent. by rewrite Ec. }
  apply writes_guard.
  2:{ intros s Hs Hlen. apply Z.ltb_ge. unfold QUOTE in Hlen. autorewrite with zlen in Hlen. zlia. }
  rewrite (cons_quote k).
  eapply writes_also; [apply writes_octets| |apply Hn|done|done].
  { assert (bytes QUOTE) by (repeat constructor; unfold is_byte; lia). rewrite !bytes_app. split; [done|]. split; [|done].
    apply c_octets_bytes. }
  eapply writes_also; [|..|apply Hn|done|done].
  { eapply writes_ext; [|apply (writes_c_string cfg coll (S d)), B5]. intros s Ec _. by rewrite Ec. }
  apply writes_guard.
  2:{ intros s Hs Hlen. apply Z.ltb_ge. zlia. }
  eapply writes_also; [by apply writes_newline| |apply Hn|done|done].
  eapply writes_also; [by apply writes_child| |apply Hn|done|done].
  apply (writes_ext cfg coll (S d) _ (json_parser_write_if_not_null (item_separator (object cfg)))); [|by apply (writes_c_string cfg coll (S d))].
  intros s Ec _. by rewrite Ec.
Qed.

Abbreviation sep c := (str (item_separator c)).
Definition member (d : nat) (kt : string * jtree) : list Z := member_intro cfg d kt.1 (filled kt.2) ++ text cfg (S d) kt.2.
Definition member_sep (d : nat) (kt : string * jtree) : list Z := member d kt ++ sep (object cfg).
Definition child_ok (d : nat) (c : Z) (t : jtree) : Prop :=
  fill_of c (filled t) /\ encodes (S d) c (text cfg (S d) t) /\ 1 <= Zlen (text cfg (S d) t).

Lemma writes_each d (l : list (string * jtree)) (prs : list dict_pair) : Forall2 (fun kc kt => kc.1 = kt.1 /\ child_ok d kc.2 kt.2) prs l ->
  writes (S d) (each_pair (object_write_entry h enc) prs) (concat (member_sep d <$> l)) 0.
Proof using Hcfg H0.
  induction 1 as [|[k c] [k' t] prs l [E (Hf & He & Hl)] _ IH]; [apply writes_none|]. cbn in E. subst k'.
  rewrite fmap_cons. cbn [each_pair concat].
  apply (writes_also cfg coll (S d) (object_write_entry h enc k c) _ _ _ 0 0 0); [|exact IH|zlia|done|done].
  unfold member_sep, member. cbn [fst snd]. rewrite <- app_assoc. by apply writes_entry.
Qed.
Context (p : Z) (v : ov_json_value) (dict : ov_dict) (Hp : h !! p = Some v) (Ht : type v = OV_JSON_OBJECT dict) (Hd : dict_ok dict).
Lemma object_get_key k : (forall c, dict_map dict !! k = Some c -> is_Some (h !! c)) ->
  ov_json_object_get h p k = Some (default 0 (dict_map dict !! k)).
Proof using H0 Hp Ht Hd.
  intros Hk. unfold ov_json_object_get. rewrite (AS_OBJECT_eq h p v H0 Hp), Ht. cbn [mbind option_bind].
  rewrite dict_get_spec by done. cbn [mbind option_bind]. unfold ov_json_value_cast.
  destruct (dict_map dict !! k) as [c|] eqn:E; cbn [default from_option id]; [|done].
  destruct (Hk c eq_refl) as [w Hw]. rewrite (proj2 (Z.eqb_neq c 0)) by (by eapply live_nonzero).
  by rewrite (jload_Some h c w H0 Hw).
Qed.
Lemma writes_ordered d (l : list (string * jtree)) :
  Forall (fun kt => exists c, dict_map dict !! kt.1 = Some c /\ child_ok d c kt.2) l ->
  writes (S d) (write_ordered h enc p l.*1) (concat (member_sep d <$> l)) 0.
Proof using All.
  induction 1 as [|[k t] l (c & Hc & Hf & He & Hl) _ IH]; [apply writes_none|]. cbn [fst snd] in *.
  rewrite !fmap_cons. cbn [write_ordered concat fst].
  apply (writes_also cfg coll (S d) (object_write_ordered h enc p k) _ _ _ 0 0 0); [|exact IH|zlia|done|done].
  destruct Hf as [[w Hw] Hf]. intros s Hs Hlen. unfold object_write_ordered. rewrite object_get_key by naive_solver. rewrite Hc.
  cbn [default from_option id mbind option_bind].
  rewrite (proj2 (Z.eqb_neq c 0)) by (by eapply live_nonzero). revert s Hs Hlen.
  change (writes (S d) (object_write_entry h enc k c) (member_sep d (k, t)) 0). unfold member_sep, member. cbn [fst snd]. rewrite <- app_assoc.
  apply writes_entry; [|done|done]. by split; [exists w|].
Qed.
Lemma fold_left_fst {A} (f : string -> A -> A) (prs : list dict_pair) a :
  fold_left (fun a kv => f kv.1 a) prs a = fold_left (fun a k => f k a) prs.*1 a.
Proof using Type. revert a. induction prs as [|kv prs IH]; intros a; [done|]. by cbn [fold_left fmap list_fmap]; rewrite IH. Qed.
Lemma collocate_keys_spec f : (forall k c, dict_map dict !! k = Some c -> c <> 0) ->
  collocate_object_keys h p f = Some (Some (visits (Some f) dict)).
Proof using H0 Hp Ht Hd.
  intros Hc. unfold collocate_object_keys, ov_json_object_for_each. rewrite (AS_OBJECT_eq h p v H0 Hp), Ht. cbn [mbind option_bind].
  unfold impl_dict_for_each. rewrite (each_pair_total _ (fun k _ l => f k l)).
  - cbn [mbind option_bind]. do 2 f_equal. by rewrite (fold_left_fst f).
  - intros k c a Hin. unfold add_key_collocated. rewrite (proj2 (Z.eqb_neq c 0)); [done|]. apply (Hc k). by apply dict_map_elem.
Qed.
Lemma writes_entries d l : visits coll dict = l.*1 -> (forall k c, dict_map dict !! k = Some c -> c <> 0) ->
  Forall (fun kt => exists c, dict_map dict !! kt.1 = Some c /\ child_ok d c kt.2) l ->
  writes (S d) (write_entries h enc p) (concat (member_sep d <$> l)) 0.
Proof using All.
  intros Hv Hc HF. assert (Hcases : coll = None \/ exists f, coll = Some f) by (destruct coll; eauto).
  destruct Hcases as [Ecoll|[f Ecoll]].
  - apply (writes_ext cfg coll (S d) _ (each_pair (object_write_entry h enc) (concat (items dict)))).
    + intros s _ Es. unfold write_entries. rewrite Es, Ecoll. unfold ov_json_object_for_each. by rewrite (AS_OBJECT_eq h p v H0 Hp), Ht.
    + apply writes_each. rewrite Ecoll in Hv. cbn [visits] in Hv.
      assert (Hin : forall kv, kv ∈ concat (items dict) -> dict_map dict !! kv.1 = Some kv.2) by (intros [k c] Hin; by apply dict_map_elem).
      revert Hv Hin. generalize (concat (items dict)). clear -HF. induction HF as [|[k t] l (c & Hc & Hok) _ IH]; intros [|[k' c'] prs] E Hin; try done.
      rewrite !fmap_cons in E. cbn [fst] in *. injection E as -> E. constructor; [|apply IH; [done|intros kv Hkv; apply Hin; by right]].
      cbn [fst snd] in *. split; [done|]. specialize (Hin (k, c') (list_elem_of_here _ _)). cbn in Hin. rewrite Hc in Hin. by injection Hin as <-.
  - apply (writes_ext cfg coll (S d) _ (write_ordered h enc p l.*1)); [|by apply writes_ordered]. intros s _ Es.
    unfold write_entries. rewrite Es, Ecoll, collocate_keys_spec by done. cbn [mbind option_bind]. by rewrite <- Hv, Ecoll.
Qed.
End values.

Lemma concat_join (sep : list Z) (l : list (list Z)) : l <> [] -> concat ((.++ sep) <$> l) = join sep l ++ sep.
Proof.
  induction l as [|x l IH]; [done|]. intros _. rewrite fmap_cons. cbn [concat]. destruct l as [|y l]; [by rewrite app_nil_r|].
  rewrite IH by done. cbn [join]. by rewrite <- !app_assoc.
Qed.
Lemma is_set_eq {A} (o : option A) : is_set o = true -> exists x, o = Some x.
Proof. destruct o; [by eexists|done]. Qed.
Lemma config_is_set cfg : encode_config cfg ->
  is_set (item_intro (string_ cfg)) = true /\ is_set (item_outro (string_ cfg)) = true /\
  is_set (item_intro (array cfg)) = true /\ is_set (item_outro (array cfg)) = true /\ is_set (item_separator (array cfg)) = true /\
  is_set (item_intro (object cfg)) = true /\ is_set (item_outro (object cfg)) = true /\ is_set (item_separator (object cfg)) = true /\
  is_set (item_delimiter (object cfg)) = true.
Proof. intros Hc. pose proof (ec_set cfg Hc) as H. unfold ov_json_stringify_config_validate in H. rewrite !andb_true_iff in H. tauto. Qed.

Lemma in_object cfg : object cfg ∈ [literal cfg; number cfg; string_ cfg; array cfg; object cfg].
Proof. apply config_elem; tauto. Qed.
Lemma in_array cfg : array cfg ∈ [literal cfg; number cfg; string_ cfg; array cfg; object cfg].
Proof. apply config_elem; tauto. Qed.

Lemma number_fill b : number_ok b = true ->
  (if is_integral b then n ← int64_of_double b; Some (Some (print_int n)) else Some (Some (print_g b))) = Some (Some (number_text b)).
Proof.
  unfold number_text, number_ok. rewrite !andb_true_iff. intros [_ Hb]. destruct (is_integral b); [|done].
  apply is_set_eq in Hb as [n ->]. done.
Qed.
Section containers.
Context (cfg : ov_json_stringify_config) (coll : option collocate) (Hcfg : encode_config cfg).
Context (h : json_heap) (enc : Z -> state -> option (Z * state)) (H0 : h !! 0 = None) (p : Z) (v : ov_json_value) (Hp : h !! p = Some v).
Abbreviation child_ok := (child_ok cfg coll h enc).

Lemma encoded_text d f l s : writes cfg coll d f l 0 -> st_ok cfg coll d s -> Zlen l <= ep_size s.2 ->
  encoded (ep_buffer s.2) (f s) = Some (Zlen l, puts s l).
Proof using Type. by apply (encoded_writes cfg coll d). Qed.

Lemma object_text d l : l <> [] -> text cfg d (T_object l) = (indent_of (object cfg) d ++ str (item_intro (object cfg))) ++
  join (str (item_separator (object cfg))) (member cfg d <$> l) ++ str (item_out (object cfg)) ++ indent_of (object cfg) d ++ str (item_outro (object cfg)).
Proof using Type. intros Hl. destruct l as [|kt l]; [done|]. cbn [text]. unfold container. by rewrite <- app_assoc. Qed.
Lemma array_text d l : l <> [] -> text cfg d (T_array l) = (indent_of (array cfg) d ++ str (item_intro (array cfg))) ++
  join (str (item_separator (array cfg))) ((fun t => item_indent cfg d t ++ text cfg (S d) t) <$> l) ++
  str (item_out (array cfg)) ++ indent_of (array cfg) d ++ str (item_outro (array cfg)).
Proof using Type. intros Hl. destruct l as [|t l]; [done|]. cbn [text]. unfold container. by rewrite <- app_assoc. Qed.

Definition object_body (s : state) : written :=
  also (object_write_intro s) (fun s => also (write_entries h enc p (deeper s)) (fun s =>
  len ← strlen (item_separator (object (ep_config s.2)));
  object_write_outro (s.1, advance (with_depth s.2 (pred (ep_depth s.2))) (- len)))).
Lemma object_body_writes d dict l : type v = OV_JSON_OBJECT dict -> dict_ok dict -> l <> [] -> visits coll dict = l.*1 ->
  (forall k, is_Some (dict_map dict !! k) -> k ∈ l.*1) -> Forall (fun kt => exists c, dict_map dict !! kt.1 = Some c /\ child_ok d c kt.2) l ->
  writes cfg coll d object_body (text cfg d (T_object l)) 0.
Proof using Hcfg H0 Hp.
  intros Ht Hd Hl Hv Hk HF. destruct (config_is_set cfg Hcfg) as (_ & _ & _ & _ & _ & S1 & S2 & S3 & _).
  destruct (ec_separator cfg Hcfg) as [_ Hsep]. rewrite object_text by done. pose proof (ec_object cfg Hcfg).
  assert (Hz : forall k c, dict_map dict !! k = Some c -> c <> 0).
  { intros k c Hc. assert (Hkl : k ∈ l.*1) by (apply Hk; by exists c). apply list_elem_of_fmap in Hkl as (kt & -> & Hkt).
    rewrite Forall_forall in HF. destruct (HF kt Hkt) as (c' & Hc' & [[w Hw] _] & _). replace c with c' by congruence. by eapply live_nonzero. }
  eapply (writes_also cfg coll d _ _ _ _ 0 1 0); [| |autorewrite with zlen; zlia|done|done].
  { eapply writes_ext; [|by apply (writes_intro cfg coll Hcfg d _ (in_object cfg))]. intros s' E _. unfold object_write_intro. by rewrite E. }
  eapply (writes_rewind cfg coll d _ (write_outro (object cfg)) _ _ (str (item_separator (object cfg)))).
  - rewrite <- concat_join by (by destruct l). rewrite <- list_fmap_compose. by apply (writes_entries cfg coll Hcfg h enc H0 p v dict Hp Ht Hd).
  - by apply (writes_outro cfg coll Hcfg d _ (in_object cfg)).
  - autorewrite with zlen. zlia.
  - intros s' E. apply is_set_eq in S3 as [x Ex]. rewrite E, Ex. cbn [strlen fmap option_fmap option_map mbind option_bind str default from_option id].
    unfold object_write_outro, rewound, back. cbn [snd ep_config advance with_depth]. by rewrite E.
Qed.
Lemma braces_writes d l : bytes l -> writes cfg coll d (fun s => put_octets s l) l 0.
Proof using Type. apply writes_octets. Qed.
Lemma object_encodes d dict l : type v = OV_JSON_OBJECT dict -> dict_ok dict -> visits coll dict = l.*1 ->
  (forall k, is_Some (dict_map dict !! k) -> k ∈ l.*1) -> Forall (fun kt => exists c, dict_map dict !! kt.1 = Some c /\ child_ok d c kt.2) l ->
  encodes cfg coll (json_object_encode h enc) d p (text cfg d (T_object l)).
Proof using Hcfg H0 Hp.
  intros Ht Hd Hv Hk HF s Hs Hlen. assert (Ho : 1 <= Zlen (text cfg d (T_object l))).
  { destruct (decide (l = [])) as [->|Hl]; [done|]. rewrite object_text by done. pose proof (ec_object cfg Hcfg). autorewrite with zlen. zlia. }
  unfold json_object_encode. rewrite (proj2 (Z.eqb_neq p 0)) by (by eapply live_nonzero).
  rewrite (parameter_valid cfg coll d s _ Hs Ho Hlen). cbn [orb negb].
  unfold ov_json_object_count. rewrite (AS_OBJECT_eq h p v H0 Hp), Ht. cbn [mbind option_bind]. rewrite (dict_count_spec dict Hd). cbn [mbind option_bind].
  destruct l as [|kt l].
  - assert (E : dict_map dict = ∅) by (apply map_empty; intros k; apply eq_None_not_Some; intros Hs'; by apply Hk, elem_of_nil in Hs').
    rewrite E, map_size_empty. cbn [Z.of_nat Z.eqb text] in *. rewrite (proj2 (Z.ltb_ge _ _)) by (rewrite !Zlen_cons, Zlen_nil in Hlen; lia).
    apply (encoded_text d (fun s => put_octets s [123; 125])); [|done|done]. apply writes_octets. repeat constructor; unfold is_byte; lia.
  - rewrite (proj2 (Z.eqb_neq _ 0)); [by apply (encoded_text d object_body); [by apply (object_body_writes d dict)|..]|].
    apply Forall_cons in HF as [(c & Hc & _) _]. intros E. assert (E0 : size (dict_map dict) = O) by lia.
    apply map_size_empty_inv in E0. by rewrite E0 in Hc.
Qed.

(** *** Arrays *)

Lemma writes_items d items : forall cs ts pre, Forall2 (child_ok d) cs ts -> type v = OV_JSON_ARRAY (pre ++ cs) ->
  items = length (pre ++ cs) ->
  writes cfg coll (S d) (write_items h enc (length cs) (S (length pre)) items p)
    (join (str (item_separator (array cfg))) ((fun t => item_indent cfg d t ++ text cfg (S d) t) <$> ts)) 0.
Proof using Hcfg H0 Hp.
  induction cs as [|c cs IH]; intros ts pre HF Ht Hi; inversion HF as [|? t ? ts' Hc HF']; subst; [apply writes_none|].
  destruct Hc as ([[w Hw] Hfill] & He & Hl). cbn [length write_items]. destruct (config_bytes cfg Hcfg _ (in_array cfg)) as (_ & _ & _ & B4 & _ & B6).
  assert (Eg : ov_json_array_get h p (S (length pre)) = Some c).
  { unfold ov_json_array_get. rewrite (AS_ARRAY_eq h p v H0 Hp), Ht. cbn [mbind option_bind list_get]. by rewrite list_lookup_middle. }
  rewrite Eg. cbn [mbind option_bind]. rewrite (proj2 (Z.eqb_neq c 0)) by (by eapply live_nonzero). rewrite Hfill. cbn [mbind option_bind].
  assert (Hn : forall x : list Z, 0 <= Zlen x + 0) by (intros; zlia).
  rewrite fmap_cons. specialize (IH ts' (pre ++ [c]) HF'). rewrite <- app_assoc in IH. specialize (IH Ht eq_refl).
  replace (length (pre ++ [c])) with (S (length pre)) in IH by (rewrite length_app; cbn; lia).
  replace (join _ _) with (item_indent cfg d t ++ text cfg (S d) t ++ (if (length cs =? 0)%nat then [] else str (item_separator (array cfg))) ++
    join (str (item_separator (array cfg))) ((fun t => item_indent cfg d t ++ text cfg (S d) t) <$> ts')).
  2:{ inversion HF'; subst; cbn [fmap list_fmap join length Nat.eqb app]; [by rewrite app_nil_r|]. by rewrite <- !app_assoc. }
  eapply (writes_also cfg coll (S d) _ _ _ _ 0 1 0); [| |autorewrite with zlen; zlia|done|done].
  { unfold item_indent. destruct (filled t); [eapply writes_more; [apply writes_none|done]|].
    eapply writes_ext; [|by apply writes_indent]. intros s' E _. unfold array_write_indent. by rewrite E. }
  eapply (writes_also cfg coll (S d) _ _ _ _ 0 0 0); [by apply writes_child| |apply Hn|done|done].
  eapply (writes_also cfg coll (S d) _ _ _ _ 0 0 0); [|exact IH|apply Hn|done|done].
  replace (S (length pre) <? length (pre ++ c :: cs))%nat with (negb (length cs =? 0)%nat).
  2:{ rewrite length_app. cbn [length]. destruct (Nat.eqb_spec (length cs) 0), (Nat.ltb_spec (S (length pre)) (length pre + S (length cs))); cbn; lia. }
  destruct (length cs =? 0)%nat; cbn [negb]; [apply writes_none|].
  eapply writes_ext; [|by apply writes_c_string]. intros s' E _. by rewrite E.
Qed.
Definition array_body (items : nat) (s : state) : written :=
  also (array_write_intro s) (fun s => also (write_items h enc items 1 items p (deeper s)) (fun s => array_write_outro (back s))).
Lemma array_body_writes d cs ts : type v = OV_JSON_ARRAY cs -> ts <> [] -> Forall2 (child_ok d) cs ts ->
  writes cfg coll d (array_body (length cs)) (text cfg d (T_array ts)) 0.
Proof using Hcfg H0 Hp.
  intros Ht Hts HF. destruct (config_is_set cfg Hcfg) as (_ & _ & S1 & S2 & _). pose proof (ec_array cfg Hcfg). rewrite array_text by done.
  eapply (writes_also cfg coll d _ _ _ _ 0 1 0); [| |autorewrite with zlen; zlia|done|done].
  { eapply writes_ext; [|by apply (writes_intro cfg coll Hcfg d _ (in_array cfg))]. intros s' E _. unfold array_write_intro. by rewrite E. }
  apply (writes_down cfg coll d (write_items h enc (length cs) 1 (length cs) p) (write_outro (array cfg))).
  - by apply (writes_items d (length cs) cs ts []).
  - by apply (writes_outro cfg coll Hcfg d _ (in_array cfg)).
  - intros s' E. unfold array_write_outro. destruct s' as [m []]. cbn in E |- *. by rewrite E.
Qed.
Lemma array_encodes d cs ts : type v = OV_JSON_ARRAY cs -> Forall2 (child_ok d) cs ts ->
  encodes cfg coll (json_array_encode h enc) d p (text cfg d (T_array ts)).
Proof using Hcfg H0 Hp.
  intros Ht HF s Hs Hlen. assert (Ho : 1 <= Zlen (text cfg d (T_array ts))).
  { destruct (decide (ts = [])) as [->|Hl]; [done|]. rewrite array_text by done. pose proof (ec_array cfg Hcfg). autorewrite with zlen. zlia. }
  unfold json_array_encode. rewrite (proj2 (Z.eqb_neq p 0)) by (by eapply live_nonzero).
  rewrite (parameter_valid cfg coll d s _ Hs Ho Hlen). cbn [orb negb].
  unfold ov_json_array_count. rewrite (AS_ARRAY_eq h p v H0 Hp), Ht. cbn [mbind option_bind]. destruct HF as [|c t cs ts Hc HF].
  - cbn [length Nat.eqb text] in *. apply (encoded_text d (fun s => put_octets s [91; 93])); [|done|done].
    apply writes_octets. repeat constructor; unfold is_byte; lia.
  - cbn [length Nat.eqb]. apply (encoded_text d (array_body (length (c :: cs)))); [|done|done]. by apply array_body_writes; [..|constructor].
Qed.

(** *** Scalars *)

Lemma packed c d l s : c ∈ [literal cfg; number cfg; string_ cfg; array cfg; object cfg] -> bytes l ->
  st_ok cfg coll d s -> Zlen (around c l) <= ep_size s.2 ->
  encoded (ep_buffer s.2) (pack c l s) = Some (Zlen (around c l), puts s (around c l)).
Proof using Hcfg. intros Hc Hl. apply encoded_text. by apply writes_pack. Qed.
Lemma around_longer c l : Zlen l <= Zlen (around c l).
Proof using Type. unfold around. autorewrite with zlen. zlia. Qed.
Lemma literal_encodes d l : bytes l -> 4 <= Zlen l ->
  (type v = OV_JSON_NULL /\ l = NULL_TEXT \/ type v = OV_JSON_TRUE /\ l = TRUE_TEXT \/ type v = OV_JSON_FALSE /\ l = FALSE_TEXT) ->
  encodes cfg coll (json_literal_encode h) d p (around (literal cfg) l).
Proof using Hcfg H0 Hp.
  intros Hb H4 Ht s Hs Hlen. pose proof (around_longer (literal cfg) l). unfold json_literal_encode.
  rewrite (proj2 (Z.eqb_neq p 0)) by (by eapply live_nonzero). rewrite (parameter_valid cfg coll d s (around (literal cfg) l)) by (done || lia).
  rewrite (proj2 (Z.ltb_ge _ _)) by lia. cbn [orb negb]. rewrite (jload_Some h p v H0 Hp). cbn [mbind option_bind]. rewrite (so_cfg cfg coll d s Hs).
  assert (Hin : literal cfg ∈ [literal cfg; number cfg; string_ cfg; array cfg; object cfg]) by (by left).
  destruct Ht as [[-> ->]|[[-> ->]|[-> ->]]]; by apply (packed (literal cfg) d).
Qed.
Lemma string_encodes d str : type v = OV_JSON_STRING (Some str) -> validate_octets (c_octets str) = Some true ->
  encodes cfg coll (json_string_encode h) d p (around (string_ cfg) (c_octets str)).
Proof using Hcfg H0 Hp.
  intros Ht Hv s Hs Hlen. pose proof (ec_quotes cfg Hcfg) as Hq. pose proof (Zlen_nonneg (c_octets str)).
  assert (Hl : Zlen (around (string_ cfg) (c_octets str)) = Zlen (c_octets str) + (Zlen (JsonText.str (item_intro (string_ cfg))) + Zlen (JsonText.str
    (item_outro (string_ cfg))))).
  { unfold around. autorewrite with zlen. lia. }
  unfold json_string_encode. rewrite (proj2 (Z.eqb_neq p 0)) by (by eapply live_nonzero).
  rewrite (parameter_valid cfg coll d s (around (string_ cfg) (c_octets str))) by (done || lia). cbn [orb negb].
  assert (Eg : ov_json_string_get h p = Some (Some str)).
  { unfold ov_json_string_get. rewrite (proj2 (Z.eqb_neq p 0)) by (by eapply live_nonzero). rewrite (jload_Some h p v H0 Hp). cbn [mbind option_bind].
    by rewrite Ht. }
  unfold ov_json_string_is_valid. rewrite Eg. cbn [mbind option_bind]. rewrite Hv. cbn [mbind option_bind negb].
  rewrite (proj2 (Z.ltb_ge _ _)) by lia. rewrite (so_cfg cfg coll d s Hs).
  apply (packed _ d); [do 2 right; by left|apply c_octets_bytes|done|done].
Qed.
Lemma number_text_bytes b : number_ok b = true -> bytes (number_text b) /\ 1 <= Zlen (number_text b).
Proof using Type.
  unfold number_ok, number_text. rewrite !andb_true_iff, Z.leb_le, Z.ltb_lt. intros [Hb Hi].
  assert (Hne : forall l : list Z, l <> [] -> 1 <= Zlen l) by (intros [|x l]; [done|zlia]).
  destruct (is_integral b); [destruct (int64_of_double b) as [n|]; [|done]; destruct (print_int_bytes n)|destruct (print_g_bytes b); [lia|]]; auto.
Qed.
Lemma number_encodes d b : type v = OV_JSON_NUMBER b -> number_ok b = true ->
  encodes cfg coll (json_number_encode h) d p (around (number cfg) (number_text b)).
Proof using Hcfg H0 Hp.
  intros Ht Hb s Hs Hlen. destruct (number_text_bytes b Hb) as [Hy Hl]. pose proof (around_longer (number cfg) (number_text b)).
  unfold json_number_encode, json_number_fill_string. rewrite (proj2 (Z.eqb_neq p 0)) by (by eapply live_nonzero).
  rewrite (parameter_valid cfg coll d s (around (number cfg) (number_text b))) by (done || lia). cbn [orb negb].
  rewrite (jload_Some h p v H0 Hp). cbn [mbind option_bind]. rewrite Ht.
  rewrite number_fill by done. cbn [mbind option_bind]. rewrite (proj2 (Z.ltb_ge _ _)) by lia. rewrite (so_cfg cfg coll d s Hs).
  apply (packed _ d); [right; by left|done|done|done].
Qed.
End containers.

(** ** The encoder *)

Lemma rep_fill R h O p t : json_wf O h -> rep R h p t -> fill_of h p (filled t).
Proof.
  intros W H. split; [inversion H; by eexists|]. unfold is_filled. pose proof (jw_zero O h W) as H0.
  assert (Hv : exists v, h !! p = Some v) by (inversion H; by eexists). destruct Hv as [v Hv].
  rewrite (jload_Some h p v H0 Hv). cbn [mbind option_bind].
  inversion H as [? v' d l Hv' E Hd HR Hk HF|? v' cs ts Hv' E HF|? v' s Hv' E|? v' b Hv' E|? v' Hv' E|? v' Hv' E|? v' Hv' E]; subst;
    rewrite Hv in Hv'; injection Hv' as <-; rewrite E; try done.
  - pose proof (jw_once O h W p v Hv) as Ho. rewrite E in Ho. destruct Ho as [Hok _].
    unfold ov_json_object_is_empty. rewrite (AS_OBJECT_eq h p v H0 Hv), E. cbn [mbind option_bind]. rewrite (dict_is_empty_spec d Hok). cbn [mbind option_bind].
    destruct l as [|kt l]; cbn [filled].
    + rewrite bool_decide_eq_true_2; [done|]. apply map_empty. intros k. apply eq_None_not_Some. intros Hs. by apply Hk, elem_of_nil in Hs.
    + rewrite bool_decide_eq_false_2; [done|]. intros E0. apply Forall_cons in HF as [(c & Hc & _) _]. by rewrite E0 in Hc.
  - unfold ov_json_array_is_empty. rewrite (AS_ARRAY_eq h p v H0 Hv), E. cbn [mbind option_bind]. by destruct HF.
Qed.
Lemma text_nonempty cfg d t : encode_config cfg -> encodable t = true -> 1 <= Zlen (text cfg d t).
Proof.
  intros Hcfg He. destruct t as [l|l|s|b| | |]; cbn [text].
  - destruct l as [|kt l]; [done|]. pose proof (ec_object cfg Hcfg). unfold container. autorewrite with zlen. zlia.
  - destruct l as [|t l]; [done|]. pose proof (ec_array cfg Hcfg). unfold container. autorewrite with zlen. zlia.
  - pose proof (ec_quotes cfg Hcfg). unfold around. autorewrite with zlen. zlia.
  - destruct (number_text_bytes b He) as [_ H]. pose proof (around_longer (number cfg) (number_text b)). lia.
  - pose proof (around_longer (literal cfg) NULL_TEXT) as Hl. change (Zlen NULL_TEXT) with 4 in Hl. lia.
  - pose proof (around_longer (literal cfg) TRUE_TEXT) as Hl. change (Zlen TRUE_TEXT) with 4 in Hl. lia.
  - pose proof (around_longer (literal cfg) FALSE_TEXT) as Hl. change (Zlen FALSE_TEXT) with 5 in Hl. lia.
Qed.
Lemma height_foldr {A} (f : A -> nat) l x n : x ∈ l -> (foldr (fun x n => Nat.max (f x) n) O l <= n)%nat -> (f x <= n)%nat.
Proof. induction 1 as [x l|x y l _ IH]; cbn [foldr]; intros; [lia|]. apply IH. lia. Qed.
Lemma encode_value cfg coll O h fuel : encode_config cfg -> json_wf O h -> forall t p d, (height t <= fuel)%nat -> rep (visited coll) h p t ->
  encodable t = true ->
  encodes cfg coll (json_value_encode fuel h) d p (text cfg d t).
Proof.
  intros Hcfg W. pose proof (jw_zero O h W) as H0. induction fuel as [|fuel IH]; intros t p d Hf H He; [destruct t; cbn [height] in Hf; lia|].
  assert (Hchild : forall c t', (height t' <= fuel)%nat -> rep (visited coll) h c t' -> encodable t' = true ->
    child_ok cfg coll h (json_value_encode fuel h) d c t').
  { intros c t' Hh Hr He'. split; [by eapply rep_fill|]. split; [by apply IH|by apply text_nonempty]. }
  inversion H as [? v dict l Hv E Hd HR Hk HF|? v cs ts Hv E HF|? v s Hv E|? v b Hv E|? v Hv E|? v Hv E|? v Hv E]; subst;
    intros st Hs Hl; cbn [json_value_encode]; rewrite (proj2 (Z.eqb_neq p 0)) by (by eapply live_nonzero);
    rewrite (jload_Some h p v H0 Hv); cbn [mbind option_bind]; rewrite E; revert st Hs Hl.
  - pose proof (jw_once O h W p v Hv) as Ho. rewrite E in Ho. destruct Ho as [Hok _]. apply encodable_object in He as [_ He].
    apply (object_encodes cfg coll Hcfg h _ H0 p v Hv d dict l); [done..|]. rewrite Forall_forall in *. intros kt Hin.
    destruct (HF kt Hin) as (c & Hc & Hr). exists c. split; [done|]. apply Hchild; [|done|by apply He].
    apply (height_foldr (fun kt => height kt.2) l); [done|]. cbn [height] in Hf. lia.
  - apply encodable_array in He. apply (array_encodes cfg coll Hcfg h _ H0 p v Hv d cs ts); [done|].
    cbn [height] in Hf. apply le_S_n in Hf. clear -HF He Hf Hchild. revert He Hf.
    induction HF as [|c t cs ts Hr _ IHF]; intros He Hf; constructor; apply Forall_cons in He as [He He']; cbn [foldr] in Hf.
    + apply Hchild; [lia|done|done].
    + apply IHF; [done|lia].
  - apply bool_decide_eq_true in He. by apply (string_encodes cfg coll Hcfg h H0 p v Hv d s).
  - by apply (number_encodes cfg coll Hcfg h H0 p v Hv d b).
  - apply (literal_encodes cfg coll Hcfg h H0 p v Hv d NULL_TEXT); [repeat constructor; unfold is_byte; lia|done|tauto].
  - apply (literal_encodes cfg coll Hcfg h H0 p v Hv d TRUE_TEXT); [repeat constructor; unfold is_byte; lia|done|tauto].
  - apply (literal_encodes cfg coll Hcfg h H0 p v Hv d FALSE_TEXT); [repeat constructor; unfold is_byte; lia|done|tauto].
Qed.

(** ** The length *)

Lemma int64_u64 x y : u64 x = u64 y -> 0 <= y < 2 ^ 63 -> int64 x = y.
Proof.
  intros E Hy. unfold int64, u64 in *. rewrite <- Zplus_mod_idemp_l, E, Zplus_mod_idemp_l, Z.mod_small by lia. lia.
Qed.
Lemma u64_add x y z : u64 x = u64 y -> u64 (x + z) = u64 (y + z).
Proof. unfold u64. intros E. by rewrite <- Zplus_mod_idemp_l, E, Zplus_mod_idemp_l. Qed.
Lemma u64_u64 x : u64 (u64 x) = u64 x.
Proof. unfold u64. by rewrite Zmod_mod. Qed.
Lemma with_counter_twice p a b : with_counter (with_counter p a) b = with_counter p b.
Proof. done. Qed.
Lemma with_counter_same p : with_counter p (ep_counter p) = p.
Proof. by destruct p. Qed.
Lemma opt_len_str c : opt_len c = Zlen (str c).
Proof. by destruct c. Qed.
Lemma strlen_set c : is_set c = true -> strlen c = Some (Zlen (str c)).
Proof. by destruct c. Qed.
Lemma Zlen_indent c d : Zlen (indent_of c d) = if entry_depth c then Z.of_nat d * Zlen (str (entry_indent c)) else 0.
Proof. unfold indent_of. destruct (entry_depth c); [apply Zlen_replicate_concat|done]. Qed.

Lemma nodup_key (l : list (string * jtree)) k t t' : NoDup l.*1 -> (k, t) ∈ l -> (k, t') ∈ l -> t = t'.
Proof.
  induction l as [|[k0 t0] l IH]; intros Hn Hkt Hkt'; [by apply elem_of_nil in Hkt|]. rewrite fmap_cons in Hn. apply NoDup_cons in Hn as [Hn0 Hn].
  assert (Ha : forall x, (k, x) ∈ l -> k <> k0) by (intros x Hx ->; apply Hn0, list_elem_of_fmap; by exists (k0, x)).
  apply elem_of_cons in Hkt as [[= -> ->]|Hkt]; apply elem_of_cons in Hkt' as [Ht|Hkt'].
  - by injection Ht as ->.
  - by destruct (Ha t' Hkt').
  - injection Ht as -> ->. by destruct (Ha t Hkt).
  - by apply IH.
Qed.
(** The members in the order of the dictionary. *)
Lemma rep_pairs R h dict l : dict_ok dict -> NoDup l.*1 -> (forall k, is_Some (dict_map dict !! k) -> k ∈ l.*1) ->
  Forall (fun kt => exists c, dict_map dict !! kt.1 = Some c /\ rep R h c kt.2) l ->
  exists l', l' ≡ₚ l /\ Forall2 (fun kc kt => kc.1 = kt.1 /\ rep R h kc.2 kt.2) (concat (items dict)) l'.
Proof.
  intros Hok Hn Hk HF. rewrite Forall_forall in HF.
  assert (H : exists l', Forall2 (fun kc kt => kt ∈ l /\ kc.1 = kt.1 /\ rep R h kc.2 kt.2) (concat (items dict)) l').
  { assert (Hin : forall kc, kc ∈ concat (items dict) -> dict_map dict !! kc.1 = Some kc.2) by (intros [k c] Hin; by apply dict_map_elem).
    induction (concat (items dict)) as [|[k c] prs IH]; [by exists []|]. destruct IH as [l' Hl']; [intros kc Hkc; apply Hin; by right|].
    specialize (Hin (k, c) (list_elem_of_here _ _)). cbn in Hin.
    assert (Hkl : k ∈ l.*1) by (apply Hk; by exists c). apply list_elem_of_fmap in Hkl as ([k' t] & -> & Hkt).
    destruct (HF _ Hkt) as (c' & Hc' & Hr). cbn [fst] in Hin, Hc'. rewrite Hc' in Hin. injection Hin as <-. exists ((k', t) :: l'). by constructor. }
  destruct H as [l' Hl']. exists l'. split; [|by eapply Forall2_impl; [exact Hl'|intros kc kt (_ & H)]].
  assert (E : l'.*1 = (concat (items dict)).*1) by (clear -Hl'; induction Hl' as [|kc kt prs l' (_ & E & _) _ IH]; [done|by rewrite !fmap_cons, IH, E]).
  assert (Hn' : NoDup l'.*1) by (rewrite E; by apply dict_keys_nodup).
  apply NoDup_Permutation; [by eapply NoDup_fmap_1|by eapply NoDup_fmap_1|]. intros [k t].
  assert (Hs : forall kt, kt ∈ l' -> kt ∈ l).
  { intros kt Hkt. clear -Hl' Hkt. induction Hl' as [|kc kt' prs l' (Hin & _) _ IH]; [by apply elem_of_nil in Hkt|]. apply elem_of_cons in Hkt as [->|]; auto. }
  split; [apply Hs|]. intros Hkt. destruct (HF _ Hkt) as (c & Hc & _). cbn [fst] in Hc.
  assert (Hkl : k ∈ l'.*1) by (rewrite E; apply list_elem_of_fmap; exists (k, c); split; [done|by apply dict_map_elem]).
  apply list_elem_of_fmap in Hkl as ([k' t'] & E' & Hkt'). cbn [fst] in E'. subst k'.
  by rewrite (nodup_key l k t t') by auto.
Qed.

Section calculating.
Context (cfg : ov_json_stringify_config) (Hcfg : encode_config cfg) (O : Z -> Prop) (h : json_heap) (W : json_wf O h).
Context (calc : Z -> EncodingParameter -> sized).

(** The length [n] is calculated at depth [d]; only the counter changes. *)
Definition calculates (d : nat) (p n : Z) : Prop :=
  forall q, ep_config q = cfg -> ep_depth q = d -> exists c, calc p q = Some (n, with_counter q c).
Definition sized_ok (d : nat) (c : Z) (t : jtree) : Prop :=
  fill_of h c (filled t) /\ calculates (S d) c (Zlen (text cfg (S d) t)) /\ 1 <= Zlen (text cfg (S d) t) < 2 ^ 64.

Lemma calculated_member d k c t q : sized_ok d c t -> ep_config q = cfg -> ep_depth q = S d ->
  add_encoding_size h calc k c q = Some (true, with_counter q (u64 (ep_counter q + Zlen (member_sep cfg d (k, t))))).
Proof using Hcfg W.
  intros ([[w Hw] Hf] & Hc & Hl) Eq Ed. destruct (config_is_set cfg Hcfg) as (_ & _ & _ & _ & _ & _ & _ & S3 & S4).
  unfold add_encoding_size. pose proof (jw_zero O h W) as H0.
  rewrite (proj2 (Z.eqb_neq c 0)) by (by eapply live_nonzero). rewrite (jload_Some h c w H0 Hw). cbn [mbind option_bind].
  rewrite Eq, (strlen_set _ S4). cbn [mbind option_bind].
  replace (if entry_depth (object cfg) then is_filled h c else Some false) with (Some (entry_depth (object cfg) && filled t)) by (by destruct
    (entry_depth (object cfg))).
  cbn [mbind option_bind]. destruct (Hc q Eq Ed) as (c1 & ->). cbn [mbind option_bind]. rewrite u64_id by lia.
  rewrite (proj2 (Z.ltb_ge _ _)) by lia. cbn [ep_config with_counter]. rewrite Eq, (strlen_set _ S3). cbn [mbind option_bind].
  rewrite with_counter_twice. do 4 f_equal. unfold member_sep, member, member_intro, json_object_calculate_indent. cbn [fst snd].
  rewrite Eq, Ed. unfold QUOTE. autorewrite with zlen. rewrite Zlen_indent. change (Zlen [34]) with 1.
  destruct (entry_depth (object cfg)), (filled t); cbn [negb andb]; try change (Zlen [10]) with 1;
    destruct (entry_indent (object cfg)) as [x|]; unfold str; cbn [default from_option id]; change (Zlen (@nil Z)) with 0; lia.
Qed.
Lemma calculated_members d prs l : Forall2 (fun kc kt => kc.1 = kt.1 /\ sized_ok d kc.2 kt.2) prs l ->
  forall q, ep_config q = cfg -> ep_depth q = S d -> exists c, each_pair (add_encoding_size h calc) prs q = Some (true, with_counter q c) /\
    u64 c = u64 (ep_counter q + Zlen (concat (member_sep cfg d <$> l))).
Proof using Hcfg W.
  induction 1 as [|[k c] [k' t] prs l [E Hok] _ IH]; intros q Eq Ed.
  { exists (ep_counter q). split; [by cbn [each_pair]; rewrite with_counter_same|]. cbn [fmap list_fmap concat]. by rewrite Zlen_nil, Z.add_0_r. }
  cbn [fst snd] in *. subst k'. cbn [each_pair]. rewrite (calculated_member d k c t q Hok Eq Ed). cbn [mbind option_bind].
  match goal with |- context [with_counter q (u64 ?n)] => set (m := n) end.
  destruct (IH (with_counter q (u64 m)) Eq Ed) as (c2 & E2 & Ec). exists c2. split; [exact E2|]. rewrite Ec. cbn [ep_counter with_counter].
  rewrite (u64_add (u64 m) m) by apply u64_u64. f_equal. rewrite fmap_cons. cbn [concat]. rewrite Zlen_app. unfold m. lia.
Qed.
Context (p : Z) (v : ov_json_value) (Hp : h !! p = Some v).
Lemma calculated_object d dict l : type v = OV_JSON_OBJECT dict ->
  (exists l', l' ≡ₚ l /\ Forall2 (fun kc kt => kc.1 = kt.1 /\ sized_ok d kc.2 kt.2) (concat (items dict)) l') ->
  Zlen (text cfg d (T_object l)) < 2 ^ 63 -> forall q, ep_config q = cfg -> ep_depth q = d ->
  exists c, json_parser_calculate_object h calc p q = Some (Zlen (text cfg d (T_object l)), with_counter q c).
Proof using Hcfg W Hp.
  intros Ht (l' & P & HF) Hl q Eq Ed. pose proof (jw_zero O h W) as H0. pose proof (jw_once O h W p v Hp) as Ho. rewrite Ht in Ho. destruct Ho as [Hok _].
  destruct (config_is_set cfg Hcfg) as (_ & _ & _ & _ & _ & S1 & S2 & S3 & S4). unfold json_parser_calculate_object.
  rewrite (proj2 (Z.eqb_neq p 0)) by (by eapply live_nonzero). unfold ov_json_object_is_empty, ov_json_object_for_each.
  rewrite (AS_OBJECT_eq h p v H0 Hp), Ht. cbn [mbind option_bind]. rewrite (dict_is_empty_spec dict Hok). cbn [mbind option_bind].
  destruct (decide (l = [])) as [->|Hne].
  { apply Permutation_nil_r in P as ->. inversion HF as [E|]. unfold dict_map. rewrite <- E. cbn. exists (ep_counter q). by rewrite with_counter_same. }
  rewrite bool_decide_eq_false_2.
  2:{ intros E. apply Hne. pose proof (dict_pairs_perm dict Hok) as P'. rewrite E, map_to_list_empty in P'. apply Permutation_nil_r in P'.
      rewrite P' in HF. inversion HF; subst. by apply Permutation_nil. }
  assert (Hne' : l' <> []) by (intros ->; by apply Hne, Permutation_nil).
  rewrite Eq, (strlen_set _ S1), (strlen_set _ S2), opt_len_str. cbn [mbind option_bind]. unfold impl_dict_for_each.
  match goal with |- context [with_counter q ?n] => set (m := n) end.
  destruct (calculated_members d _ _ HF (with_depth (with_counter q m) (S (ep_depth q)))) as (c & -> & Ec); [done|cbn; by f_equal|].
  cbn [mbind option_bind negb ep_config with_counter with_depth]. rewrite Eq, (strlen_set _ S3). cbn [mbind option_bind ep_counter ep_depth pred].
  exists c. f_equal. f_equal.
  assert (E : Zlen (concat (member_sep cfg d <$> l')) = Zlen (join (str (item_separator (object cfg))) (member cfg d <$> l)) + Zlen (str
    (item_separator (object cfg)))).
  { transitivity (Zlen (concat (member_sep cfg d <$> l))).
    - unfold Zlen. f_equal. apply Permutation_length. rewrite P. reflexivity.
    - rewrite <- Zlen_app, <- concat_join by (by destruct l). by rewrite <- list_fmap_compose. }
  apply int64_u64; [|pose proof (Zlen_nonneg (text cfg d (T_object l))); lia]. rewrite <- !Z.add_opp_r.
  rewrite (u64_add _ _ _ Ec). f_equal. cbn [ep_counter with_counter with_depth]. rewrite E, object_text by done. unfold m.
  unfold json_object_calculate_indent. rewrite Eq, Ed. autorewrite with zlen. rewrite Zlen_indent.
  destruct (entry_depth (object cfg)); cbn [negb]; [|lia].
  destruct (entry_indent (object cfg)) as [x|]; unfold str; cbn [default from_option id]; change (Zlen (@nil Z)) with 0; lia.
Qed.
Abbreviation item_text d := (fun t => item_indent cfg d t ++ text cfg (S d) t).
Abbreviation indent_len := (if entry_depth (array cfg) then Zlen (str (entry_indent (array cfg))) else 0).
Lemma Zlen_item_indent d t : Zlen (item_indent cfg d t) = if filled t then 0 else Z.of_nat (S d) * indent_len.
Proof using Type. unfold item_indent. destruct (filled t); [done|]. rewrite Zlen_indent. by destruct (entry_depth (array cfg)); [|rewrite Z.mul_0_r]. Qed.
Lemma calculated_items d items : forall cs ts pre, Forall2 (sized_ok d) cs ts -> type v = OV_JSON_ARRAY (pre ++ cs) -> items = length (pre ++ cs) ->
  forall n q, ep_config q = cfg -> ep_depth q = S d ->
  exists n' c, calculate_items h calc (length cs) (S (length pre)) items p indent_len (Zlen (str (item_separator (array cfg)))) n q = Some (Some n',
    with_counter q c) /\
    u64 n' = u64 (n + Zlen (join (str (item_separator (array cfg))) (item_text d <$> ts))).
Proof using W Hp.
  induction cs as [|c cs IH]; intros ts pre HF Ht Hi n q Eq Ed; inversion HF as [|? t ? ts' Hc HF']; subst ts.
  { exists n, (ep_counter q). cbn. by rewrite with_counter_same, Z.add_0_r. }
  subst. destruct Hc as ([[w Hw] Hfill] & Hc & Hl). pose proof (jw_zero O h W) as H0. cbn [length calculate_items].
  assert (Eg : ov_json_array_get h p (S (length pre)) = Some c).
  { unfold ov_json_array_get. rewrite (AS_ARRAY_eq h p v H0 Hp), Ht. cbn [mbind option_bind list_get]. by rewrite list_lookup_middle. }
  rewrite Eg. cbn [mbind option_bind]. rewrite (proj2 (Z.eqb_neq c 0)) by (by eapply live_nonzero). rewrite Hfill. cbn [mbind option_bind].
  destruct (Hc q Eq Ed) as (c1 & ->). cbn [mbind option_bind].
  replace (S (length pre) <? length (pre ++ c :: cs))%nat with (negb (length cs =? 0)%nat).
  2:{ rewrite length_app. cbn [length]. destruct (Nat.eqb_spec (length cs) 0), (Nat.ltb_spec (S (length pre)) (length pre + S (length cs))); cbn; lia. }
  match goal with |- context [calculate_items _ _ _ _ _ _ _ _ ?n _] => set (m := n) end.
  destruct (IH ts' (pre ++ [c]) HF') with (n := m) (q := with_counter q c1) as (n' & c2 & E2 & En);
    [by rewrite <- app_assoc|by rewrite <- app_assoc|done|done|].
  replace (length (pre ++ [c])) with (S (length pre)) in E2 by (rewrite length_app; cbn; lia). exists n', c2. split; [exact E2|]. rewrite En.
  assert (Em : u64 m = u64 (n + Zlen (item_text d t) + (if (length cs =? 0)%nat then 0 else Zlen (str (item_separator (array cfg)))))).
  { unfold m. rewrite Zlen_app, Zlen_item_indent. destruct (length cs =? 0)%nat; cbn [negb].
    - rewrite u64_u64, Ed. f_equal. destruct (filled t); lia.
    - rewrite (u64_add _ _ _ (u64_u64 _)), Ed. f_equal. destruct (filled t); lia. }
  rewrite (u64_add _ _ _ Em). f_equal. rewrite fmap_cons.
  inversion HF'; subst; cbn [fmap list_fmap join length Nat.eqb]; autorewrite with zlen; change (Zlen (@nil Z)) with 0; lia.
Qed.
Lemma calculated_array d cs ts : type v = OV_JSON_ARRAY cs -> Forall2 (sized_ok d) cs ts ->
  Zlen (text cfg d (T_array ts)) < 2 ^ 63 -> forall q, ep_config q = cfg -> ep_depth q = d ->
  exists c, json_parser_calculate_array h calc p q = Some (Zlen (text cfg d (T_array ts)), with_counter q c).
Proof using Hcfg W Hp.
  intros Ht HF Hl q Eq Ed. pose proof (jw_zero O h W) as H0.
  destruct (config_is_set cfg Hcfg) as (_ & _ & S1 & S2 & S3 & _). unfold json_parser_calculate_array.
  rewrite (proj2 (Z.eqb_neq p 0)) by (by eapply live_nonzero). unfold ov_json_array_count.
  rewrite (AS_ARRAY_eq h p v H0 Hp), Ht. cbn [mbind option_bind].
  destruct (decide (ts = [])) as [->|Hne]; [inversion HF; subst; exists (ep_counter q); by rewrite with_counter_same|].
  assert (Hlen : (length cs =? 0)%nat = false) by (destruct HF; [done|by apply Nat.eqb_neq]). rewrite Hlen.
  rewrite Eq, (strlen_set _ S1), (strlen_set _ S2), (strlen_set _ S3), !opt_len_str. cbn [mbind option_bind].
  match goal with |- context [calculate_items _ _ _ _ _ _ _ _ ?n _] => set (m := n) end.
  destruct (calculated_items d (length cs) cs ts [] HF Ht eq_refl m (with_depth q (S (ep_depth q)))) as (n' & c & E & En); [done|cbn; by f_equal|].
  cbn [length] in E. rewrite E. cbn [mbind option_bind]. exists c. f_equal. f_equal.
  apply int64_u64; [|pose proof (Zlen_nonneg (text cfg d (T_array ts))); lia]. rewrite En. f_equal. rewrite array_text by done. unfold m. rewrite Ed.
  autorewrite with zlen. rewrite Zlen_indent. destruct (entry_depth (array cfg)); lia.
Qed.
End calculating.

(** The text of a part is shorter than the text. *)
Lemma Zlen_concat_in (x : list Z) l : x ∈ l -> Zlen x <= Zlen (concat l).
Proof. induction 1 as [x l|x y l _ IH]; cbn [concat]; rewrite Zlen_app; [|pose proof (Zlen_nonneg y); lia]. pose proof (Zlen_nonneg (concat l)). lia. Qed.
Lemma Zlen_join_in sep (x : list Z) l : x ∈ l -> Zlen x <= Zlen (join sep l).
Proof.
  induction 1 as [x l|x y l Hin IH]; (destruct l as [|z l]; cbn [join]; [try lia; by apply elem_of_nil in Hin|]); rewrite !Zlen_app.
  - pose proof (Zlen_nonneg sep). pose proof (Zlen_nonneg (join sep (z :: l))). cbn [join] in *. lia.
  - pose proof (Zlen_nonneg sep). pose proof (Zlen_nonneg y). cbn [join] in *. lia.
Qed.
Lemma member_shorter cfg d kt l : kt ∈ l -> Zlen (text cfg (S d) kt.2) <= Zlen (text cfg d (T_object l)).
Proof.
  intros Hin. rewrite object_text by (by intros ->; apply elem_of_nil in Hin). autorewrite with zlen.
  assert (Hm : Zlen (member cfg d kt) <= Zlen (join (str (item_separator (object cfg))) (member cfg d <$> l))) by (apply Zlen_join_in;
    by apply list_elem_of_fmap_2).
  unfold member in Hm at 1. rewrite Zlen_app in Hm. zlia.
Qed.
Lemma item_shorter cfg d t l : t ∈ l -> Zlen (text cfg (S d) t) <= Zlen (text cfg d (T_array l)).
Proof.
  intros Hin. rewrite array_text by (by intros ->; apply elem_of_nil in Hin). autorewrite with zlen.
  assert (Hm : Zlen (item_indent cfg d t ++ text cfg (S d) t) <= Zlen (join (str (item_separator (array cfg))) ((fun t => item_indent cfg d t ++ text
    cfg (S d) t) <$> l))).
  { apply Zlen_join_in. apply list_elem_of_fmap. by exists t. }
  rewrite Zlen_app in Hm. zlia.
Qed.
Lemma calculated_literal cfg (h : json_heap) (H0 : h !! 0 = None) p v : h !! p = Some v -> forall l q,
  type v = OV_JSON_NULL /\ l = NULL_TEXT \/ type v = OV_JSON_TRUE /\ l = TRUE_TEXT \/ type v = OV_JSON_FALSE /\ l = FALSE_TEXT ->
  ep_config q = cfg ->
  exists c, (n ← json_parser_calculate_literal h p q; Some (n, q)) = Some (Zlen (around (literal cfg) l), with_counter q c).
Proof.
  intros Hv l q Ht Eq. unfold json_parser_calculate_literal. rewrite (jload_Some h p v H0 Hv). cbn [mbind option_bind].
  exists (ep_counter q). rewrite with_counter_same, Eq, !opt_len_str. unfold around. autorewrite with zlen.
  destruct Ht as [[-> ->]|[[-> ->]|[-> ->]]]; do 2 f_equal;
    [change (Zlen NULL_TEXT) with 4|change (Zlen TRUE_TEXT) with 4|change (Zlen FALSE_TEXT) with 5]; lia.
Qed.
Lemma calculate_value cfg R O h fuel : encode_config cfg -> json_wf O h -> forall t p d, (height t <= fuel)%nat -> rep R h p t -> encodable t = true ->
  Zlen (text cfg d t) < 2 ^ 63 -> calculates cfg (json_parser_calculate_value fuel h) d p (Zlen (text cfg d t)).
Proof.
  intros Hcfg W. pose proof (jw_zero O h W) as H0. induction fuel as [|fuel IH]; intros t p d Hf H He Hl; [destruct t; cbn [height] in Hf; lia|].
  assert (Hchild : forall c t', (height t' <= fuel)%nat -> rep R h c t' -> encodable t' = true -> Zlen (text cfg (S d) t') < 2 ^ 63 ->
    sized_ok cfg h (json_parser_calculate_value fuel h) d c t').
  { intros c t' Hh Hr He' Hl'. split; [by eapply rep_fill|]. split; [by apply IH|]. pose proof (text_nonempty cfg (S d) t' Hcfg He'). lia. }
  inversion H as [? v dict l Hv E Hd HR Hk HF|? v cs ts Hv E HF|? v s Hv E|? v b Hv E|? v Hv E|? v Hv E|? v Hv E]; subst;
    intros q Eq Ed; cbn [json_parser_calculate_value]; rewrite (proj2 (Z.eqb_neq p 0)) by (by eapply live_nonzero);
    rewrite (jload_Some h p v H0 Hv); cbn [mbind option_bind]; rewrite E.
  - pose proof (jw_once O h W p v Hv) as Ho. rewrite E in Ho. destruct Ho as [Hok _]. apply encodable_object in He as [_ He].
    apply (calculated_object cfg Hcfg O h W _ p v Hv d dict l); [done| |done..].
    destruct (rep_pairs R h dict l Hok Hd Hk HF) as (l' & P & HF'). exists l'. split; [done|].
    assert (Hin : forall kt, kt ∈ l' -> kt ∈ l) by (intros kt; by rewrite P). clear P HF. cbn [height] in Hf. apply le_S_n in Hf.
    induction HF' as [|kc kt prs l' [Ek Hr] _ IHF]; constructor; [|apply IHF; intros kt' Hkt'; apply Hin; by right].
    assert (Hkt : kt ∈ l) by (apply Hin; by left). split; [done|]. apply Hchild; [by apply (height_foldr (fun kt => height kt.2) l)|done| |].
    + rewrite Forall_forall in He. by apply He.
    + pose proof (member_shorter cfg d kt l Hkt). lia.
  - apply encodable_array in He. apply (calculated_array cfg Hcfg O h W _ p v Hv d cs ts); [done| |done..].
    assert (Hin : forall t, t ∈ ts -> (height t <= fuel)%nat /\ encodable t = true /\ Zlen (text cfg (S d) t) < 2 ^ 63).
    { intros t Ht. cbn [height] in Hf. apply le_S_n in Hf. rewrite Forall_forall in He. pose proof (item_shorter cfg d t ts Ht).
      split; [by apply (height_foldr height ts)|]. split; [by apply He|lia]. }
    clear -HF Hin Hchild. induction HF as [|c t cs ts Hr _ IHF]; constructor.
    + destruct (Hin t) as (? & ? & ?); [by left|]. by apply Hchild.
    + apply IHF. intros t' Ht'. apply Hin. by right.
  - unfold json_parser_calculate_string, ov_json_string_get. rewrite (proj2 (Z.eqb_neq p 0)) by (by eapply live_nonzero).
    rewrite (jload_Some h p v H0 Hv). cbn [mbind option_bind]. rewrite E, Eq, !opt_len_str. exists (ep_counter q). rewrite with_counter_same.
    cbn [text]. unfold around. autorewrite with zlen. do 2 f_equal. lia.
  - unfold json_parser_calculate_number, json_number_fill_string. rewrite (proj2 (Z.eqb_neq p 0)) by (by eapply live_nonzero).
    rewrite (jload_Some h p v H0 Hv). cbn [mbind option_bind]. rewrite E, number_fill by done. cbn [mbind option_bind].
    rewrite Eq, !opt_len_str. exists (ep_counter q). rewrite with_counter_same. cbn [text]. unfold around. autorewrite with zlen. do 2 f_equal. lia.
  - by apply (calculated_literal cfg h H0 p v Hv NULL_TEXT q); [left|..].
  - by apply (calculated_literal cfg h H0 p v Hv TRUE_TEXT q); [right; left|..].
  - by apply (calculated_literal cfg h H0 p v Hv FALSE_TEXT q); [right; right|..].
Qed.

(** ** The string *)

Lemma rep_path R h t : forall p n, rep R h p t -> (n < height t)%nat -> exists q, nsteps (edge h) n p q.
Proof.
  induction t as [l IH|l IH|s|b| | |] using jtree_ind; intros p [|n] H Hn; try (by exists p; constructor); cbn [height] in Hn; try lia; apply le_S_n in Hn.
  - inversion H as [? v dict ? Hv E _ _ _ HF| | | | | |]; subst. assert (Hx : exists kt, kt ∈ l /\ (n < height kt.2)%nat).
    { clear -Hn. induction l as [|kt l IHl]; cbn [foldr] in Hn; [lia|]. destruct (decide (n < height kt.2)%nat); [exists kt; split; [by left|done]|].
      destruct IHl as (x & Hx & Hh); [lia|]. exists x. split; [by right|done]. }
    destruct Hx as (kt & Hkt & Hh). rewrite Forall_forall in IH, HF. destruct (HF kt Hkt) as (c & Hc & Hr). destruct (IH kt Hkt c n Hr Hh) as [q Hq].
    exists q. econstructor; [|exact Hq]. exists v. split; [done|]. rewrite E. by exists kt.1.
  - inversion H as [|? v cs ? Hv E HF| | | | |]; subst. assert (Hx : exists t, t ∈ l /\ (n < height t)%nat).
    { clear -Hn. induction l as [|kt l IHl]; cbn [foldr] in Hn; [lia|]. destruct (decide (n < height kt)%nat); [exists kt; split; [by left|done]|].
      destruct IHl as (x & Hx & Hh); [lia|]. exists x. split; [by right|done]. }
    destruct Hx as (t & Ht & Hh). rewrite Forall_forall in IH. assert (Hc : exists c, c ∈ cs /\ rep R h c t).
    { clear -HF Ht. induction HF as [|c t' cs ts Hr _ IHF]; [by apply elem_of_nil in Ht|].
      apply elem_of_cons in Ht as [->|Ht]; [exists c; split; [by left|done]|].
      destruct (IHF Ht) as (c' & Hc' & Hr'). exists c'. split; [by right|done]. }
    destruct Hc as (c & Hc & Hr). destruct (IH t Ht c n Hr Hh) as [q Hq]. exists q. econstructor; [|exact Hq]. exists v. split; [done|]. by rewrite E.
Qed.
Lemma height_turns R O h p t : json_wf O h -> rep R h p t -> (height t <= turns h)%nat.
Proof.
  intros W H. unfold turns. destruct (height t) as [|n] eqn:E; [lia|]. destruct (rep_path R h t p n H) as [q Hq]; [lia|].
  assert (Hv : exists v, h !! p = Some v) by (inversion H; by eexists). destruct Hv as [v Hv]. pose proof (steps_bound O h n p q v W Hv Hq). lia.
Qed.

(** The whole string of a value. *)
Definition full_text (cfg : ov_json_stringify_config) (t : jtree) : list Z := str (intro cfg) ++ text cfg 0 t ++ str (outro cfg).
Lemma encode_full cfg coll O h m p t buffer size : encode_config cfg -> json_wf O h ->
  rep (visited coll) h p t -> encodable t = true -> mapped m buffer size -> Zlen (full_text cfg t) <= size < 2 ^ 64 ->
  ov_json_parser_encode m h p (Some cfg) coll buffer size = Some (Zlen (full_text cfg t), write m buffer (full_text cfg t)).
Proof.
  intros Hcfg W H He Hm Hl. destruct (ec_ends cfg Hcfg) as [Hi Ho]. pose proof (text_nonempty cfg 0 t Hcfg He) as Hne. unfold full_text in *.
  rewrite !Zlen_app in Hl |- *.
  pose proof (Zlen_nonneg (str (intro cfg))). pose proof (Zlen_nonneg (str (outro cfg))).
  assert (Hp : p <> 0). { assert (Hv : exists v, h !! p = Some v) by (inversion H; by eexists). destruct Hv as [v Hv].
  eapply live_nonzero; [apply (jw_zero O h W)|done]. }
  unfold ov_json_parser_encode, NULL. rewrite (proj2 (Z.eqb_neq p 0) Hp), (proj2 (Z.eqb_neq buffer 0)) by (destruct Hm; lia).
  rewrite (proj2 (Z.ltb_ge size 1)) by lia. cbn [orb default from_option id]. cbv zeta.
  set (s0 := (m, {| ep_config := cfg; ep_buffer := buffer; ep_size := size; ep_depth := 0; ep_collocate := coll; ep_counter := 0 |}) : state).
  assert (Hs0 : st_ok cfg coll 0 s0) by (split; try done; cbn; lia).
  assert (E : match intro cfg with None => Some (true, s0) | Some l => if size <=? Zlen l then Some (false, s0) else put_octets s0 l end = Some (true,
    puts s0 (str (intro cfg)))).
  { destruct (intro cfg) as [l|]; cbn [str default from_option id] in *; [|by rewrite puts_nil by (apply (so_size _ _ _ _ Hs0))].
    rewrite (proj2 (Z.leb_gt _ _)) by lia. apply (writes_octets cfg coll 0); [done|done|]. cbn. lia. }
  rewrite E. cbn [mbind option_bind negb]. fold (opt_len (intro cfg)). rewrite opt_len_str.
  assert (Hs1 : st_ok cfg coll 0 (puts s0 (str (intro cfg)))) by (apply puts_ok; [done|cbn; lia]).
  pose proof (puts_size cfg coll 0 s0 (str (intro cfg)) Hs0 ltac:(cbn; lia)) as E1. cbn [s0 snd ep_size] in E1.
  rewrite (encode_value cfg coll O h (turns h) Hcfg W t p 0) by (first [done|by eapply height_turns|lia]).
  cbn [mbind option_bind]. rewrite (proj2 (Z.ltb_ge _ _)) by lia. rewrite puts_app.
  destruct (outro cfg) as [l|]; cbn [str default from_option id] in *.
  - cbn [puts s0 fst snd ep_buffer advance]. rewrite (proj2 (Z.ltb_ge _ _)) by (rewrite Zlen_app; lia).
    rewrite Zlen_app. match goal with |- context [u64 ?x] => rewrite (u64_id x) by lia end. rewrite (proj2 (Z.ltb_ge _ _)) by lia.
    rewrite (storen_bytes _ buffer size) by (done || lia || by apply mapped_write).
    cbn [mbind option_bind]. replace (buffer + (_ + _)) with (buffer + Zlen (str (intro cfg) ++ text cfg 0 t)) by (rewrite Zlen_app; lia).
    rewrite write_write, <- app_assoc. do 2 f_equal. lia.
  - rewrite app_nil_r. change (Zlen (@nil Z)) with 0. do 2 f_equal. lia.
Qed.

(** The length calculated before. *)
Lemma calculated_length cfg O h p t : encode_config cfg -> json_wf O h -> rep any_order h p t ->
  encodable t = true -> Zlen (full_text cfg (sorted t)) < 2 ^ 63 ->
  ov_json_parser_calculate h p (Some cfg) = Some (Zlen (full_text cfg (sorted t))).
Proof.
  intros Hcfg W H He Hl. pose proof (rep_sorted O h p t W He H) as Hs. pose proof (encodable_sorted t He) as He'.
  pose proof (text_nonempty cfg 0 (sorted t) Hcfg He') as Hne. pose proof (jw_zero O h W) as H0.
  assert (Hv : exists v, h !! p = Some v) by (inversion H; by eexists). destruct Hv as [v Hv]. pose proof (live_nonzero h p v H0 Hv) as Hp.
  unfold ov_json_parser_calculate. rewrite (proj2 (Z.eqb_neq p 0) Hp), (ec_set cfg Hcfg). cbn [negb default from_option id]. unfold full_text in *.
  rewrite !Zlen_app in Hl |- *. pose proof (Zlen_nonneg (str (intro cfg))). pose proof (Zlen_nonneg (str (outro cfg))).
  destruct (calculate_value cfg _ O h (turns h) Hcfg W (sorted t) p 0 (height_turns _ O h p _ W Hs) Hs He') with
    (q := {| ep_config := cfg; ep_buffer := 0; ep_size := 0; ep_depth := 0; ep_collocate := None; ep_counter := 0 |}) as (c & ->); [lia|done|done|].
  cbn [mbind option_bind]. rewrite (proj2 (Z.ltb_ge _ _)) by lia. rewrite !opt_len_str. f_equal. lia.
Qed.
(** The string: as long as calculated, and a NUL behind it. *)
Lemma value_to_string cfg O h m p t : encode_config cfg -> json_wf O h -> rep any_order h p t ->
  encodable t = true -> Zlen (full_text cfg (sorted t)) < 2 ^ 63 ->
  exists string m', ov_json_value_to_string_with_config m h p cfg = Some (string, m') /\ string <> NULL /\ region m' string (full_text cfg (sorted t) ++ [0]) /\
    forall q, is_Some (m !! q) -> m' !! q = m !! q.
Proof.
  intros Hcfg W H He Hl. pose proof (calculated_length cfg O h p t Hcfg W H He Hl) as Ec.
  pose proof (rep_sorted O h p t W He H) as Hs. pose proof (encodable_sorted t He) as He'.
  pose proof (text_nonempty cfg 0 (sorted t) Hcfg He') as Hne. pose proof (jw_zero O h W) as H0.
  assert (Hv : exists v, h !! p = Some v) by (inversion H; by eexists). destruct Hv as [v Hv]. pose proof (live_nonzero h p v H0 Hv) as Hp.
  set (l := full_text cfg (sorted t)). fold l in Ec. unfold ov_json_value_to_string_with_config, ov_json_value_cast.
  rewrite (proj2 (Z.eqb_neq p 0) Hp), (jload_Some h p v H0 Hv).
  cbn [mbind option_bind]. rewrite (proj2 (Z.eqb_neq p 0) Hp), Ec. cbn [mbind option_bind]. pose proof (Zlen_nonneg l).
  rewrite (proj2 (Z.ltb_ge _ _)) by lia. destruct (calloc m (Zlen l + 1)) as [string m1] eqn:Ea.
  pose proof (calloc_region m (Zlen l + 1) string m1 Ea ltac:(lia)) as Hr. injection Ea as <- Em.
  assert (Ez : zeros (Zlen l + 1) = zeros (Zlen l) ++ [0]) by (unfold zeros; rewrite Z2Nat.inj_add by lia; by rewrite replicate_add).
  rewrite Ez in Hr.
  rewrite (encode_full cfg (Some ov_json_parser_collocate_ascending) O h m1 p (sorted t) (fresh m) (Zlen l)); try done;
    [|by apply (region_mapped_le _ _ _ _ Hr); autorewrite with zlen; lia|unfold l; lia].
  cbn [mbind option_bind]. rewrite (proj2 (Z.ltb_ge _ _)) by (unfold l in *; lia). eexists _, _. split; [done|]. split; [destruct Hr; unfold NULL; lia|].
  split.
  - pose proof (region_write_mid m1 (fresh m) [] (zeros (Zlen l)) l [0] (fresh m) Hr) as Hw. apply Hw; [autorewrite with zlen; lia|zlia].
  - intros q Hq. pose proof (fresh_spec m) as [_ Hf]. specialize (Hf q Hq). rewrite lookup_write_out by lia. rewrite <- Em.
    apply lookup_write_out. lia.
Qed.
(** C39: an encodable JSON value - its strings valid raw JSON content and not empty
    (see [empty_string_refused]), its integral numbers within the range of int64_t,
    its keys C strings - is written as the text of its tree, with the members of
    every object in the order of their keys and a NUL behind it: the length
    calculated before is exactly that of the text, encoding into a buffer of that
    length succeeds, and no other memory changes. *)
Theorem json_encode_exact cfg O h m p t : encode_config cfg -> json_wf O h -> rep any_order h p t ->
  encodable t = true -> Zlen (full_text cfg (sorted t)) < 2 ^ 63 ->
  let l := full_text cfg (sorted t) in
  ov_json_parser_calculate h p (Some cfg) = Some (Zlen l) /\
  exists string m', ov_json_value_to_string_with_config m h p cfg = Some (string, m') /\ string <> NULL /\ region m' string (l ++ [0]) /\
    forall q, is_Some (m !! q) -> m' !! q = m !! q.
Proof. intros Hcfg W H He Hl l. split; [by apply (calculated_length cfg O)|by apply (value_to_string cfg O)]. Qed.
Lemma encode_config_default : encode_config ov_json_config_stringify_default.
Proof. split; [repeat constructor; unfold is_byte; lia|repeat constructor|done..]. Qed.
Lemma encode_config_minimal : encode_config ov_json_config_stringify_minimal.
Proof. split; [repeat constructor; unfold is_byte; lia|repeat constructor|done..]. Qed.

(** An object with one string. *)
Definition demo_value : Z * json_heap :=
  let '(p, c, h) := two_values in match ov_json_object_set h p "key" c with Some (_, h) => (p, h) | None => (0, ∅) end.
Definition demo_tree : jtree := T_object [("key"%string, T_string "text")].
Lemma demo_wf : wf demo_value.2.
Proof.
  destruct two_values_spec as (p & c & h & E & W & Ho & Hp & Hc & Hne). unfold demo_value. rewrite E.
  destruct (json_object_set_exact h p "key" c W Ho Hc) as (h' & -> & W' & _); [|done].
  intros Hb. apply Hne. symmetry. by apply (root_alone h p c W Hp).
Qed.
Lemma demo_rep : rep any_order demo_value.2 demo_value.1 demo_tree.
Proof.
  assert (Hc : exists d q, demo_value.2 !! demo_value.1 = Some {| type := OV_JSON_OBJECT d; parent := 0 |} /\ concat (items d) = [("key"%string, q)] /\
    demo_value.2 !! q = Some {| type := OV_JSON_STRING (Some "text"%string); parent := demo_value.1 |}).
  { eexists _, _. repeat split; vm_compute; reflexivity. }
  destruct Hc as (d & q & Hp & Ei & Hq). assert (Ed : dict_map d = {["key"%string := q]}) by (unfold dict_map; by rewrite Ei).
  eapply rep_object; [exact Hp|done|apply NoDup_singleton|done| |].
  - intros k [x Hx]. rewrite Ed in Hx. apply lookup_singleton_Some in Hx as [<- _]. by left.
  - constructor; [|done]. exists q. split; [by rewrite Ed, lookup_singleton_eq|]. by eapply rep_string.
Qed.
Lemma json_encode_exact_witness : Forall (fun cfg => exists string m', ov_json_value_to_string_with_config ∅ demo_value.2 demo_value.1 cfg = Some
    (string, m') /\
    region m' string (full_text cfg demo_tree ++ [0])) [ov_json_config_stringify_minimal; ov_json_config_stringify_default] /\
  full_text ov_json_config_stringify_minimal demo_tree = string_bytes "{" ++ QUOTE ++ string_bytes "key" ++ QUOTE ++ [58] ++ QUOTE ++ string_bytes
    "text" ++ QUOTE ++ string_bytes "}".
Proof.
  split; [|vm_compute; reflexivity]. repeat constructor.
  - destruct (json_encode_exact ov_json_config_stringify_minimal none demo_value.2 ∅ demo_value.1 demo_tree encode_config_minimal demo_wf demo_rep)
      as (_ & s & m' & E & _ & R & _); [vm_compute; reflexivity|vm_compute; reflexivity|]. exists s, m'. by split.
  - destruct (json_encode_exact ov_json_config_stringify_default none demo_value.2 ∅ demo_value.1 demo_tree encode_config_default demo_wf demo_rep)
      as (_ & s & m' & E & _ & R & _); [vm_compute; reflexivity|vm_compute; reflexivity|]. exists s, m'. by split.
Defined.

(** An empty array is written without a look at the size of the buffer. *)
Definition one_array : Z * json_heap := ov_json_array ∅.
Example empty_array_overruns : ov_json_parser_encode (write ∅ 1 [0]) one_array.2 one_array.1 None None 1 1 = None.
Proof. vm_compute. reflexivity. Qed.
(** A value with an empty string is not written. *)
Example empty_string_refused :
  (let '(p, h) := ov_json_string ∅ (Some EmptyString) in fst <$> ov_json_encode ∅ h p) = Some NULL.
Proof. vm_compute. reflexivity. Qed.
