(* ===== verification/JsonScan.v ===== *)
(** * What the matching functions find in a text

    The functions of [JsonGrammar.v] that the decoder uses, on texts in memory: each
    finds what it looks for in a text that goes on behind it, whatever size it is
    told beyond that. *)
From S2P Require Import Prelude CMem Utf8 JsonNumber JsonGrammar JsonDecode JsonEncode JsonText.

Definition blank (c : Z) : Prop := ov_json_is_whitespace c = true.
Definition blanks (w : list Z) : Prop := Forall blank w.

(** The octet [c] behind [l]. *)
Lemma region_behind m p l c rest : region m p (l ++ c :: rest) -> load8 m (p + Zlen l) = Some c.
Proof. intros H. apply (load8_at_0 m _ c rest). by eapply region_app_r. Qed.
Lemma region_tail m p c rest : region m p (c :: rest) -> region m (p + 1) rest.
Proof. intros H. by apply (region_app_r m p (p + 1) [c]). Qed.
Lemma turns_enough m p l : region m p l -> (length l < turns_of m)%nat.
Proof. intros H. pose proof (region_size m p l H). unfold turns_of. lia. Qed.

(** ** Blanks *)

Lemma skip_blanks_spec fuel m w c rest p size : region m p (w ++ c :: rest) -> blanks w -> ov_json_is_whitespace c = false ->
  (length w < fuel)%nat -> Zlen w <= size -> skip_blanks fuel m p size = Some (Some (p + Zlen w, size - Zlen w)).
Proof.
  intros Hm Hw Hc. revert p size fuel Hm. induction Hw as [|b w Hb _ IH]; intros p size [|fuel] Hm Hf Hs; cbn [length] in Hf; try lia; cbn [skip_blanks app] in *.
  - rewrite (load8_at_0 m p c rest Hm). cbn [mbind option_bind]. rewrite Hc. do 3 f_equal; zlia.
  - rewrite (load8_at_0 m p b _ Hm). cbn [mbind option_bind]. unfold blank in Hb. rewrite Hb. rewrite Zlen_cons in *. pose proof (Zlen_nonneg w).
    rewrite (proj2 (Z.ltb_ge _ _)) by lia. rewrite IH; [do 3 f_equal; lia|by apply (region_tail m p b)|lia|lia].
Qed.
Lemma clear_blanks_spec fuel m w c rest p len : region m p (w ++ c :: rest) -> blanks w -> ov_json_is_whitespace c = false ->
  (length w < fuel)%nat -> Zlen w < len -> clear_loop fuel m p len = Some (p + Zlen w, len - Zlen w).
Proof.
  intros Hm Hw Hc. revert p len fuel Hm. induction Hw as [|b w Hb _ IH]; intros p len [|fuel] Hm Hf Hs; cbn [length] in Hf; try lia; cbn [clear_loop app] in *.
  - rewrite (load8_at_0 m p c rest Hm). cbn [mbind option_bind]. rewrite Hc. cbn [negb]. do 2 f_equal; zlia.
  - rewrite (load8_at_0 m p b _ Hm). cbn [mbind option_bind]. unfold blank in Hb. rewrite Hb. rewrite Zlen_cons in *. pose proof (Zlen_nonneg w). cbn [negb].
    rewrite (proj2 (Z.eqb_neq _ _)) by lia. rewrite IH; [do 2 f_equal; lia|by apply (region_tail m p b)|lia|lia].
Qed.
Lemma clear_whitespace_spec m w c rest p len : region m p (w ++ c :: rest) -> blanks w -> ov_json_is_whitespace c = false ->
  Zlen w < len -> ov_json_clear_whitespace m p len = Some (p + Zlen w, len - Zlen w).
Proof.
  intros Hm Hw Hc Hl. unfold ov_json_clear_whitespace. pose proof (Zlen_nonneg w). rewrite (proj2 (Z.ltb_ge _ _)) by lia.
  apply (clear_blanks_spec _ m w c rest); try done. pose proof (turns_enough m p _ Hm). rewrite length_app in *. lia.
Qed.

(** ** Strings *)

(** Quotation marks only behind a backslash, the last octet is no backslash. *)
Fixpoint quotes_escaped (prev : Z) (l : list Z) : bool :=
  match l with
  | [] => negb (prev =? 92)
  | c :: l => (if c =? 34 then prev =? 92 else true) && quotes_escaped c l
  end.
Lemma find_quote_spec fuel m s prev rest p size : region m p (s ++ 34 :: rest) -> load8 m (p - 1) = Some prev -> quotes_escaped prev s = true ->
  (length s < fuel)%nat -> Zlen s < size -> find_quote fuel m p size = Some (p + Zlen s).
Proof.
  revert prev p size fuel. induction s as [|c s IH]; intros prev p size [|fuel] Hm Hp Hq Hf Hs; cbn [length] in Hf; try lia;
    cbn [find_quote app quotes_escaped] in *; destruct (Z.ltb_spec 1 size); cbn [negb]; try (rewrite Zlen_cons in Hs; pose proof (Zlen_nonneg s); lia).
  - rewrite (load8_at_0 m p 34 rest Hm), Hp. cbn [mbind option_bind]. rewrite Z.eqb_refl, Hq. by rewrite Zlen_nil, Z.add_0_r.
  - by rewrite Zlen_nil, Z.add_0_r.
  - pose proof (load8_at_0 m p c _ Hm) as Hc. rewrite Hc. cbn [mbind option_bind]. rewrite Zlen_cons in *. apply andb_prop in Hq as [Hc34 Hq].
    assert (IH' : find_quote fuel m (p + 1) (size - 1) = Some (p + (Zlen s + 1))).
    { rewrite (IH c); [f_equal; lia|by apply (region_tail m p c)|by replace (p + 1 - 1) with p by lia|done|lia|lia]. }
    destruct (c =? 34); [|rewrite IH'; f_equal; lia]. rewrite Hp. cbn [mbind option_bind]. rewrite Hc34. cbn [negb]. rewrite IH'. f_equal; lia.
Qed.
Lemma validate_loop_region fuel m m' p p' l check : region m p l -> region m' p' l -> 0 <= check ->
  validate_loop fuel m p check (Zlen l) = validate_loop fuel m' p' check (Zlen l).
Proof.
  intros Hm Hm'. revert check. induction fuel as [|fuel IH]; intros check Hc; [done|]. cbn [validate_loop].
  destruct (Z.ltb_spec check (Zlen l)) as [Hlt|]; cbn [negb]; [|done].
  rewrite (load8_region m p l), (load8_region m' p' l) by (done || lia). cbn [mbind option_bind].
  destruct (_ =? 92).
  - destruct (Z.eqb_spec check (Zlen l - 1)); [done|]. rewrite <- !Z.add_assoc.
    rewrite (load8_region m p l (check + 1)), (load8_region m' p' l (check + 1)) by (done || lia). cbn [mbind option_bind].
    destruct (is_escape _); [destruct (_ <? _); [done|apply IH; lia]|]. destruct (_ =? 117); [destruct (_ <? _); [done|apply IH; lia]|done].
  - destruct (_ <? 31); [done|]. destruct (_ =? 34); [done|]. apply IH. lia.
Qed.
Lemma validate_region m p l : region m p l -> bytes l -> ov_json_validate_string m p (Zlen l) false = validate_octets l.
Proof.
  intros Hm Hb. assert (Hm' : region (write ∅ 1 l) 1 l) by (apply region_write; lia). unfold validate_octets, ov_json_validate_string, NULL.
  pose proof Hm as [Hp _]. rewrite (proj2 (Z.eqb_neq p 0)) by lia. cbn [Z.eqb orb]. destruct (Zlen l <? 1); [done|].
  destruct (validate_sequence_spec m p l Hm Hb) as (b & -> & Hi). destruct (validate_sequence_spec _ 1 l Hm' Hb) as (b' & -> & Hi').
  cbn [mbind option_bind]. replace b' with b by (destruct b, b'; naive_solver). destruct b; cbn [negb]; [|done].
  apply validate_loop_region; [done|done|lia].
Qed.
(** A string that is found whole and kept whole: valid, without NUL, quotation
    marks escaped. *)
Definition string_ok (s : string) : bool :=
  bool_decide (validate_octets (string_bytes s) = Some true) && bool_decide (0 ∉ string_bytes s) && quotes_escaped 34 (string_bytes s).
Lemma string_ok_spec s : string_ok s = true -> validate_octets (string_bytes s) = Some true /\ no_nul s /\ quotes_escaped 34 (string_bytes s) = true.
Proof. unfold string_ok. rewrite !andb_true_iff, !bool_decide_eq_true. tauto. Qed.
Lemma string_ok_nonempty s : string_ok s = true -> 1 <= Zlen (string_bytes s).
Proof.
  intros (Hv & _ & _)%string_ok_spec. unfold validate_octets, ov_json_validate_string in Hv. cbn [NULL Z.eqb orb] in Hv.
  destruct (Z.ltb_spec (Zlen (string_bytes s)) 1); [done|lia].
Qed.
Lemma match_string_spec m w s rest p size : region m p (w ++ QUOTE ++ string_bytes s ++ QUOTE ++ rest) -> blanks w -> string_ok s = true ->
  Zlen w + Zlen (string_bytes s) + 2 <= size ->
  ov_json_match_string m p size = Some (Some (p + Zlen w + 1, p + Zlen w + Zlen (string_bytes s))).
Proof.
  intros Hm Hw Hs Hl. destruct (string_ok_spec s Hs) as (Hv & _ & Hq). pose proof (string_ok_nonempty s Hs) as Hne. pose proof (Zlen_nonneg w).
  pose proof (turns_enough m p _ Hm) as Ht. rewrite !length_app in Ht. cbn [length QUOTE] in Ht.
  unfold ov_json_match_string, NULL. rewrite (proj2 (Z.ltb_ge size 2)) by lia. pose proof Hm as [Hp _]. rewrite (proj2 (Z.eqb_neq p 0)) by lia.
  rewrite (skip_blanks_spec _ m w 34 (string_bytes s ++ QUOTE ++ rest) p size Hm Hw) by (done || lia). cbn [mbind option_bind].
  rewrite (proj2 (Z.ltb_ge _ 2)) by lia. rewrite (region_behind m p w 34 _ Hm). cbn [mbind option_bind Z.eqb Pos.eqb negb].
  assert (Hm1 : region m (p + Zlen w + 1) (string_bytes s ++ 34 :: rest)).
  { apply (region_tail m (p + Zlen w) 34). by apply (region_app_r m p _ w). }
  rewrite (find_quote_spec _ m (string_bytes s) 34 rest); [|exact Hm1| |exact Hq|lia|lia].
  2:{ replace (p + Zlen w + 1 - 1) with (p + Zlen w) by lia. by apply (region_behind m p w 34 (string_bytes s ++ 34 :: rest)). }
  cbn [mbind option_bind]. rewrite (region_behind m _ _ 34 rest Hm1). cbn [mbind option_bind Z.eqb Pos.eqb negb].
  rewrite (proj2 (Z.ltb_ge _ 0)) by lia.
  replace (p + Zlen w + 1 + Zlen (string_bytes s) - 1 - (p + Zlen w + 1) + 1) with (Zlen (string_bytes s)) by lia.
  rewrite (validate_region m _ (string_bytes s)) by (try apply bytes_string; by eapply region_app_l). rewrite Hv. cbn [mbind option_bind].
  do 4 f_equal. lia.
Qed.

(** ** Brackets *)

(** The number of open brackets behind [l], nothing when one closes that is not
    open. *)
Fixpoint open_after (opening closing : Z) (l : list Z) (n : Z) : option Z :=
  match l with
  | [] => Some n
  | c :: l => if c =? opening then open_after opening closing l (n + 1) else
              if c =? closing then if n =? 0 then None else open_after opening closing l (n - 1)
              else open_after opening closing l n
  end.
Definition balanced (opening closing : Z) (l : list Z) : Prop := open_after opening closing l 0 = Some 0.
Section brackets.
Context (o c : Z) (Hne : o <> c).
Lemma open_app l k n : open_after o c (l ++ k) n = n ← open_after o c l n; open_after o c k n.
Proof using Type. revert n. induction l as [|x l IH]; intros n; [done|]. cbn [app open_after]. repeat case_match; done. Qed.
Lemma open_shift l n n' k : 0 <= n -> 0 <= k -> open_after o c l n = Some n' -> 0 <= n' /\ open_after o c l (n + k) = Some (n' + k).
Proof using Type.
  revert n. induction l as [|x l IH]; intros n Hn Hk; cbn [open_after]; [by intros [= ->]|].
  destruct (x =? o).
  - intros H. apply IH in H; [|lia|lia]. by replace (n + k + 1) with (n + 1 + k) by lia.
  - destruct (x =? c); [|by apply IH]. destruct (Z.eqb_spec n 0); [done|]. rewrite (proj2 (Z.eqb_neq (n + k) 0)) by lia.
    intros H. apply IH in H; [|lia|lia]. by replace (n + k - 1) with (n - 1 + k) by lia.
Qed.
Lemma balanced_nil : balanced o c [].
Proof using Type. done. Qed.
Lemma balanced_app l k : balanced o c l -> balanced o c k -> balanced o c (l ++ k).
Proof using Type. unfold balanced. intros Hl Hk. by rewrite open_app, Hl. Qed.
Lemma balanced_wrap l : balanced o c l -> balanced o c (o :: l ++ [c]).
Proof using Hne.
  unfold balanced. intros Hl. cbn [open_after]. rewrite Z.eqb_refl, open_app. destruct (open_shift l 0 0 1) as [_ E]; [lia|lia|done|].
  rewrite E. cbn [mbind option_bind open_after]. rewrite (proj2 (Z.eqb_neq c o)) by congruence. by rewrite Z.eqb_refl.
Qed.
Lemma balanced_none l : Forall (fun x => x <> o /\ x <> c) l -> balanced o c l.
Proof using Type.
  unfold balanced. induction 1 as [|x l [Ho Hc] _ IH]; [done|]. cbn [open_after]. by rewrite (proj2 (Z.eqb_neq x o)), (proj2 (Z.eqb_neq x c)).
Qed.
Lemma balanced_concat ls : Forall (balanced o c) ls -> balanced o c (concat ls).
Proof using Type. induction 1 as [|l ls Hl _ IH]; [done|]. cbn [concat]. by apply balanced_app. Qed.

Lemma p_nil p : p + Zlen (@nil Z) = p.
Proof using Type. apply Z.add_0_r. Qed.
Lemma scan_brackets_spec fuel m l n rest p size : region m p (l ++ c :: rest) -> open_after o c l n = Some 0 -> (length l < fuel)%nat -> Zlen l < size ->
  scan_brackets fuel o c m p size n = Some (p + Zlen l, 0).
Proof using Hne.
  revert n p size fuel. induction l as [|x l IH]; intros n p size [|fuel] Hm Ho Hf Hs; cbn [length] in Hf; try lia;
    cbn [scan_brackets app open_after] in *; destruct (Z.ltb_spec 1 size); cbn [negb]; try (rewrite Zlen_cons in Hs; pose proof (Zlen_nonneg l); lia).
  - injection Ho as ->. rewrite (load8_at_0 m p c rest Hm). cbn [mbind option_bind]. rewrite (proj2 (Z.eqb_neq c o)) by congruence. rewrite Z.eqb_refl. by rewrite p_nil.
  - injection Ho as ->. by rewrite p_nil.
  - rewrite (load8_at_0 m p x _ Hm). cbn [mbind option_bind]. rewrite Zlen_cons in *. replace (p + (1 + Zlen l)) with (p + 1 + Zlen l) by lia.
    assert (IH' : forall n', open_after o c l n' = Some 0 -> scan_brackets fuel o c m (p + 1) (size - 1) n' = Some (p + 1 + Zlen l, 0)).
    { intros n' Hn'. apply IH; [by apply (region_tail m p x)|done|lia|lia]. }
    destruct (x =? o); [by apply IH'|]. destruct (x =? c); [|by apply IH']. destruct (n =? 0); [done|]. by apply IH'.
Qed.
Lemma match_brackets_spec m l rest p size : ov_json_is_whitespace o = false -> region m p (o :: l ++ c :: rest) -> balanced o c l -> Zlen l + 2 <= size < 2 ^ 64 ->
  match_brackets o c m p size = Some (Some (p + 1, p + Zlen l)).
Proof using Hne.
  intros Hw Hm Hb Hs. pose proof (Zlen_nonneg l). unfold match_brackets, NULL. rewrite (proj2 (Z.ltb_ge size 2)) by lia. pose proof Hm as [Hp _].
  rewrite (proj2 (Z.eqb_neq p 0)) by lia. rewrite (skip_blanks_spec _ m [] o (l ++ c :: rest) p size Hm (Forall_nil_2 _)) by (done || (unfold turns_of; cbn; lia) || zlia).
  cbn [mbind option_bind]. rewrite p_nil. change (Zlen (@nil Z)) with 0. rewrite Z.sub_0_r. rewrite (load8_at_0 m p o _ Hm). cbn [mbind option_bind]. rewrite Z.eqb_refl. cbn [negb].
  pose proof (region_tail m p o _ Hm) as Hm1. pose proof (turns_enough m p _ Hm) as Ht. cbn [length] in Ht. rewrite length_app in Ht.
  rewrite (scan_brackets_spec _ m l 0 rest) by (done || lia || (rewrite u64_id; lia)). cbn [mbind option_bind].
  rewrite (region_behind m _ l c rest Hm1). cbn [mbind option_bind]. rewrite Z.eqb_refl. cbn [negb Z.eqb]. do 4 f_equal. lia.
Qed.
End brackets.
