(* ===== verification/JsonDecodeSpec.v ===== *)
(** * The decoder reads the texts of trees

    [shape]: the texts of a tree, with blanks wherever JSON allows them. It asks of
    strings, keys and numbers what the decoder needs to find them whole and keep
    them whole. [parser_decode_shape]: the decoder makes a new value that
    represents the tree and reads exactly the text. *)
From S2P Require Import Prelude CMem Utf8 JsonNumber JsonGrammar Hashtable OvList Dict.
From S2P Require Import JsonValue JsonTree JsonOps JsonPaths JsonDecode JsonEncode JsonText JsonEncodeSpec JsonScan.

(** ** Texts of trees *)

#[export] Instance is_digit_dec c : Decision (is_digit c).
Proof. unfold is_digit. apply _. Defined.
#[export] Instance balanced_dec o c l : Decision (balanced o c l).
Proof. unfold balanced. apply _. Defined.

(** Brackets in a string count as brackets when the end of an object or an array
    is looked for. *)
Definition text_ok (s : string) : bool :=
  string_ok s && bool_decide (balanced 123 125 (string_bytes s)) && bool_decide (balanced 91 93 (string_bytes s)).
Definition stops : list Z := [44; 93; 125; 32; 9; 10; 13].
(** A number that is read back from its text: the digits [%.15g] leaves are enough. *)
Definition number_reads (b : Z) : bool :=
  let l := number_text b in
  starts_number (List.hd 0 l) && bool_decide (is_digit (List.last l 0)) &&
  forallb (fun c => bool_decide (read_number (l ++ [c]) = Some (Some (b, false, [c])))) stops &&
  bool_decide (balanced 123 125 l) && bool_decide (balanced 91 93 l) && bool_decide (0 ∉ l).
(** The texts of a tree that the decoder reads: narrower than the grammar of JSON,
    by [text_ok] and [number_reads].

    Nested in the lists of [Forall2]; proofs go by induction on the tree. *)
Section shape.
Local Unset Elimination Schemes.
Inductive shape : list Z -> jtree -> Prop :=
  | sh_no_members w e : blanks w -> blanks e -> shape (w ++ 123 :: e ++ [125]) (T_object [])
  | sh_object w ms l : blanks w -> l <> [] -> NoDup l.*1 ->
      Forall2 (fun m kt => exists w1 w2 lt w3, m = w1 ++ QUOTE ++ string_bytes kt.1 ++ QUOTE ++ w2 ++ 58 :: lt ++ w3 /\
        blanks w1 /\ blanks w2 /\ blanks w3 /\ text_ok kt.1 = true /\ shape lt kt.2) ms l ->
      shape (w ++ 123 :: join [44] ms ++ [125]) (T_object l)
  | sh_no_items w e : blanks w -> blanks e -> shape (w ++ 91 :: e ++ [93]) (T_array [])
  | sh_array w ms l : blanks w -> l <> [] -> Forall2 (fun m t => exists lt w3, m = lt ++ w3 /\ blanks w3 /\ shape lt t) ms l ->
      shape (w ++ 91 :: join [44] ms ++ [93]) (T_array l)
  | sh_string w s : blanks w -> text_ok s = true -> shape (w ++ QUOTE ++ string_bytes s ++ QUOTE) (T_string s)
  | sh_number w b : blanks w -> number_reads b = true -> shape (w ++ number_text b) (T_number b)
  | sh_null w : blanks w -> shape (w ++ NULL_TEXT) T_null
  | sh_true w : blanks w -> shape (w ++ TRUE_TEXT) T_true
  | sh_false w : blanks w -> shape (w ++ FALSE_TEXT) T_false.
End shape.
Definition member_shape (m : list Z) (kt : string * jtree) : Prop :=
  exists w1 w2 lt w3, m = w1 ++ QUOTE ++ string_bytes kt.1 ++ QUOTE ++ w2 ++ 58 :: lt ++ w3 /\
    blanks w1 /\ blanks w2 /\ blanks w3 /\ text_ok kt.1 = true /\ shape lt kt.2.
Definition item_shape (m : list Z) (t : jtree) : Prop := exists lt w3, m = lt ++ w3 /\ blanks w3 /\ shape lt t.

Lemma text_ok_spec s : text_ok s = true -> string_ok s = true /\ balanced 123 125 (string_bytes s) /\ balanced 91 93 (string_bytes s).
Proof. unfold text_ok. rewrite !andb_true_iff, !bool_decide_eq_true. tauto. Qed.
Lemma number_reads_spec b : number_reads b = true -> exists c l, number_text b = c :: l /\ starts_number c = true /\ is_digit (List.last (number_text b) 0) /\
  (forall x r, x ∈ stops -> read_number (number_text b ++ x :: r) = Some (Some (b, false, x :: r))) /\
  balanced 123 125 (number_text b) /\ balanced 91 93 (number_text b) /\ 0 ∉ number_text b.
Proof.
  unfold number_reads. set (t := number_text b). clearbody t. cbv zeta. rewrite !andb_true_iff, !bool_decide_eq_true, forallb_forall.
  intros (((((H1 & H2) & H3) & H4) & H5) & H6). destruct t as [|c l]; [done|]. exists c, l. split; [done|]. split; [done|]. split; [done|]. split; [|done].
  intros x r Hx. apply list_elem_of_In, H3, bool_decide_eq_true in Hx as H3'. clear H3. rename H3' into H3.
  apply (read_number_app _ _ r) in H3. rewrite <- app_assoc in H3. change ([x] ++ r) with (x :: r) in H3. by rewrite H3.
Qed.
(** The text starts with blanks and a character that is none; without the blanks it
    is a text of the tree still. *)
Lemma shape_head l t : shape l t -> exists w c r, l = w ++ c :: r /\ blanks w /\ ov_json_is_whitespace c = false /\ shape (c :: r) t.
Proof.
  intros H. inversion H as [w e Hw He|w ms l' Hw Hl Hn HF|w e Hw He|w ms l' Hw Hl HF|w s Hw Hs|w b Hw Hb|w Hw|w Hw|w Hw]; subst; exists w.
  - eexists _, _. split; [done|]. split; [done|]. split; [done|]. by apply (sh_no_members [] e); [constructor|].
  - eexists _, _. split; [done|]. split; [done|]. split; [done|]. by apply (sh_object [] ms l'); [constructor|..].
  - eexists _, _. split; [done|]. split; [done|]. split; [done|]. by apply (sh_no_items [] e); [constructor|].
  - eexists _, _. split; [done|]. split; [done|]. split; [done|]. by apply (sh_array [] ms l'); [constructor|..].
  - eexists 34, _. split; [done|]. split; [done|]. split; [done|]. by apply (sh_string [] s); [constructor|].
  - destruct (number_reads_spec b Hb) as (c & r & E & Hc & _). exists c, r. split; [by rewrite E|]. split; [done|]. split.
    + unfold starts_number in Hc. unfold ov_json_is_whitespace. destruct (Z.eqb_spec c 45) as [->|]; [done|].
      cbn [orb] in Hc. apply andb_prop in Hc as [H1%Z.leb_le H2%Z.leb_le]. rewrite !(proj2 (Z.eqb_neq c _)) by lia. done.
    + rewrite <- E. by apply (sh_number [] b); [constructor|].
  - eexists _, _. split; [done|]. split; [done|]. split; [done|]. by apply (sh_null []); constructor.
  - eexists _, _. split; [done|]. split; [done|]. split; [done|]. by apply (sh_true []); constructor.
  - eexists _, _. split; [done|]. split; [done|]. split; [done|]. by apply (sh_false []); constructor.
Qed.

(** *** Texts are balanced *)

Section balanced.
Context (o c : Z) (Hoc : o = 123 /\ c = 125 \/ o = 91 /\ c = 93).
Lemma balanced_plain l : Forall (fun x => x ∉ [123; 125; 91; 93]) l -> balanced o c l.
Proof using Hoc.
  intros H. apply balanced_none. eapply Forall_impl; [exact H|]. intros x Hx. rewrite !not_elem_of_cons in Hx. destruct Hoc as [[-> ->]|[-> ->]]; tauto.
Qed.
Lemma balanced_blanks w : blanks w -> balanced o c w.
Proof using Hoc.
  intros H. apply balanced_plain. eapply Forall_impl; [exact H|]. unfold blank, ov_json_is_whitespace. intros x Hx.
  rewrite !orb_true_iff, !Z.eqb_eq in Hx. intros Hin. rewrite !elem_of_cons in Hin. destruct Hin as [|[|[|[|Hin]]]]; [lia..|by apply elem_of_nil in Hin].
Qed.
Lemma balanced_text s : text_ok s = true -> balanced o c (string_bytes s).
Proof using Hoc. intros (_ & H1 & H2)%text_ok_spec. by destruct Hoc as [[-> ->]|[-> ->]]. Qed.
Lemma balanced_one x : x ∉ [123; 125; 91; 93] -> balanced o c [x].
Proof using Hoc. intros H. apply balanced_plain. by constructor. Qed.
Lemma balanced_join l : Forall (balanced o c) l -> balanced o c (join [44] l).
Proof using Hoc.
  assert (H44 : balanced o c [44]) by (apply balanced_one; by vm_compute; intros; set_solver).
  induction 1 as [|x l Hx Hl IH]; [done|]. cbn [join]. destruct l as [|y l]; [done|]. by repeat apply balanced_app.
Qed.
Lemma balanced_braces a b l : (a = 123 /\ b = 125 \/ a = 91 /\ b = 93) -> balanced o c l -> balanced o c (a :: l ++ [b]).
Proof using Hoc.
  intros Hab Hl. destruct (decide (o = a)) as [->|Hne].
  - assert (c = b) as -> by (destruct Hoc as [[]|[]], Hab as [[]|[]]; lia). apply balanced_wrap; [|done]. destruct Hab as [[]|[]]; lia.
  - apply (balanced_app o c [a]); [|apply balanced_app; [done|]]; apply balanced_none; repeat constructor; destruct Hoc as [[]|[]], Hab as [[]|[]]; lia.
Qed.
End balanced.
Lemma member_balanced o c m kt : (o = 123 /\ c = 125 \/ o = 91 /\ c = 93) -> member_shape m kt -> (forall l, shape l kt.2 -> balanced o c l) -> balanced o c m.
Proof.
  intros Hoc (w1 & w2 & lt & w3 & -> & H1 & H2 & H3 & Hk & Hs) Hb.
  assert (Hquote : balanced o c QUOTE) by (apply balanced_one; [done|by vm_compute; set_solver]).
  assert (Hcolon : balanced o c [58]) by (apply balanced_one; [done|by vm_compute; set_solver]).
  repeat apply balanced_app; try done; try (by apply balanced_blanks); [by apply balanced_text|]. apply (balanced_app o c [58]); [done|].
  apply balanced_app; [by apply Hb|by apply balanced_blanks].
Qed.
Lemma shape_balanced o c t : (o = 123 /\ c = 125 \/ o = 91 /\ c = 93) -> forall l, shape l t -> balanced o c l.
Proof.
  intros Hoc. assert (Hword : forall l, l ∈ [NULL_TEXT; TRUE_TEXT; FALSE_TEXT] -> balanced o c l).
  { intros l Hl. apply balanced_plain; [done|]. assert (Hall : Forall (Forall (fun x => x ∉ [123; 125; 91; 93])) [NULL_TEXT; TRUE_TEXT; FALSE_TEXT]).
    { repeat (constructor; [repeat (constructor; [by vm_compute; set_solver|]); constructor|]). constructor. }
    rewrite Forall_forall in Hall. by apply Hall. }
  induction t as [l IH|l IH|s|b| | |] using jtree_ind; intros x H.
  - inversion H as [w e Hw He|w ms ? Hw Hl Hn HF| | | | | | |]; subst; (apply balanced_app; [by apply balanced_blanks|]); (apply balanced_braces;
      [done|by left|]).
    + by apply balanced_blanks.
    + apply balanced_join; [done|]. clear -Hoc HF IH. induction HF as [|m kt ms l Hm _ IHF]; [constructor|].
      apply Forall_cons in IH as [Ht IH]. constructor; [|by apply IHF]. by apply (member_balanced o c m kt).
  - inversion H as [| |w e Hw He|w ms ? Hw Hl HF| | | | |]; subst; (apply balanced_app; [by apply balanced_blanks|]); (apply balanced_braces; [done|by right|]).
    + by apply balanced_blanks.
    + apply balanced_join; [done|]. clear -Hoc HF IH. induction HF as [|m t ms l (lt & w3 & -> & H3 & Hs) _ IHF]; [constructor|].
      apply Forall_cons in IH as [Ht IH]. constructor; [|by apply IHF]. apply balanced_app; [by apply Ht|by apply balanced_blanks].
  - assert (Hquote : balanced o c QUOTE) by (apply balanced_one; [done|by vm_compute; set_solver]).
    inversion H; subst. repeat apply balanced_app; try done; [by apply balanced_blanks|by apply balanced_text].
  - inversion H as [| | | | |w ? Hw Hb| | |]; subst. destruct (number_reads_spec b Hb) as (_ & _ & _ & _ & _ & _ & B1 & B2 & _).
    apply balanced_app; [by apply balanced_blanks|]. by destruct Hoc as [[-> ->]|[-> ->]].
  - inversion H; subst. apply balanced_app; [by apply balanced_blanks|]. apply Hword. by left.
  - inversion H; subst. apply balanced_app; [by apply balanced_blanks|]. apply Hword. right; by left.
  - inversion H; subst. apply balanced_app; [by apply balanced_blanks|]. apply Hword. do 2 right; by left.
Qed.
Lemma foldr_max_le {A} (f : A -> nat) l n : (forall x, x ∈ l -> (f x <= n)%nat) -> (foldr (fun x n => Nat.max (f x) n) O l <= n)%nat.
Proof. intros H. induction l as [|x l IH]; cbn [foldr]; [lia|]. pose proof (H x (list_elem_of_here _ _)). apply Nat.max_lub; [done|]. apply IH.
  intros y Hy. apply H. by right. Qed.
Lemma length_join_in sep (x : list Z) l : x ∈ l -> (length x <= length (join sep l))%nat.
Proof. intros H%(Zlen_join_in sep). unfold Zlen in H. lia. Qed.
Lemma Forall2_elem_r {A B} (P : A -> B -> Prop) l k y : Forall2 P l k -> y ∈ k -> exists x, x ∈ l /\ P x y.
Proof.
  induction 1 as [|x z l k Hp _ IH]; intros Hin; [by apply elem_of_nil in Hin|]. apply elem_of_cons in Hin as [->|Hin]; [exists x; split; [by left|done]|].
  destruct (IH Hin) as (x' & Hx' & Hp'). exists x'. split; [by right|done].
Qed.
Lemma shape_height t : forall l, shape l t -> (height t <= length l)%nat.
Proof.
  induction t as [l IH|l IH|s|b| | |] using jtree_ind; intros x H; cbn [height].
  - inversion H as [w e Hw He|w ms ? Hw Hl Hn HF| | | | | | |]; subst; rewrite length_app; cbn [length]; rewrite length_app; cbn [length foldr]; [lia|].
    assert (Hm : (foldr (fun kt n => Nat.max (height kt.2) n) O l <= length (join [44%Z] ms))%nat); [|lia].
    apply foldr_max_le. intros kt Hkt. destruct (Forall2_elem_r _ _ _ kt HF Hkt) as (m & Hm & w1 & w2 & lt & w3 & -> & _ & _ & _ & _ & Hs).
    apply (length_join_in [44]) in Hm. rewrite Forall_forall in IH. specialize (IH kt Hkt lt Hs).
    rewrite !length_app in Hm. cbn [length] in Hm. rewrite !length_app in Hm. lia.
  - inversion H as [| |w e Hw He|w ms ? Hw Hl HF| | | | |]; subst; rewrite length_app; cbn [length]; rewrite length_app; cbn [length foldr]; [lia|].
    assert (Hm : (foldr (fun t n => Nat.max (height t) n) O l <= length (join [44%Z] ms))%nat); [|lia].
    apply foldr_max_le. intros t Ht. destruct (Forall2_elem_r _ _ _ t HF Ht) as (m & Hm & lt & w3 & -> & _ & Hs).
    apply (length_join_in [44]) in Hm. rewrite Forall_forall in IH. specialize (IH t Ht lt Hs). rewrite length_app in Hm. lia.
  - inversion H; subst. rewrite !length_app. cbn. lia.
  - inversion H as [| | | | |w ? Hw Hb| | |]; subst. destruct (number_reads_spec b Hb) as (c & r & -> & _). rewrite length_app. cbn. lia.
  - inversion H; subst. rewrite length_app. cbn. lia.
  - inversion H; subst. rewrite length_app. cbn. lia.
  - inversion H; subst. rewrite length_app. cbn. lia.
Qed.
(** No text has a NUL in it. *)
Lemma blanks_no_nul w : blanks w -> 0 ∉ w.
Proof. intros H Hin. unfold blanks in H. rewrite Forall_forall in H. apply H in Hin. done. Qed.
Lemma text_no_nul s : text_ok s = true -> 0 ∉ string_bytes s.
Proof. intros (Hs & _)%text_ok_spec. by apply string_ok_spec in Hs as (_ & Hn & _). Qed.
Lemma join_no_nul ms : (forall m, m ∈ ms -> 0 ∉ m) -> 0 ∉ join [44] ms.
Proof.
  induction ms as [|m ms IH]; intros H; cbn [join]; [apply not_elem_of_nil|]. destruct ms as [|m' ms]; [apply H; by left|].
  rewrite !not_elem_of_app. split; [apply H; by left|]. split; [by apply not_elem_of_cons; split; [|apply not_elem_of_nil]|].
  apply IH. intros x Hx. apply H. by right.
Qed.
Lemma Forall2_elem_l {A B} (P : A -> B -> Prop) l k x : Forall2 P l k -> x ∈ l -> exists y, y ∈ k /\ P x y.
Proof. intros H%Forall2_flip Hin. exact (Forall2_elem_r _ _ _ _ H Hin). Qed.
Ltac no_nul := repeat first [apply not_elem_of_nil | apply not_elem_of_app; split | apply not_elem_of_cons;
    split | by apply blanks_no_nul | by apply text_no_nul | done].
Lemma shape_no_nul t : forall l, shape l t -> 0 ∉ l.
Proof.
  induction t as [l IH|l IH|s|b| | |] using jtree_ind; intros x H.
  - inversion H as [w e Hw He|w ms ? Hw Hl Hn HF| | | | | | |]; subst; no_nul.
    apply join_no_nul. intros m Hm. destruct (Forall2_elem_l _ _ _ m HF Hm) as (kt & Hkt & w1 & w2 & lt & w3 & -> & H1 & H2 & H3 & Hk & Hs).
    rewrite Forall_forall in IH. specialize (IH kt Hkt lt Hs). unfold QUOTE. no_nul.
  - inversion H as [| |w e Hw He|w ms ? Hw Hl HF| | | | |]; subst; no_nul.
    apply join_no_nul. intros m Hm. destruct (Forall2_elem_l _ _ _ m HF Hm) as (t & Ht & lt & w3 & -> & H3 & Hs).
    rewrite Forall_forall in IH. specialize (IH t Ht lt Hs). no_nul.
  - inversion H; subst. unfold QUOTE. no_nul.
  - inversion H as [| | | | |w ? Hw Hb| | |]; subst. destruct (number_reads_spec b Hb) as (_ & _ & _ & _ & _ & _ & _ & _ & Hn). no_nul.
  - inversion H; subst. unfold NULL_TEXT. no_nul.
  - inversion H; subst. unfold TRUE_TEXT. no_nul.
  - inversion H; subst. unfold FALSE_TEXT. no_nul.
Qed.

(** ** What the decoder makes *)

Lemma rep_frame R h h' p t : rep R h p t -> (forall q v, below h p q -> h !! q = Some v -> exists v', h' !! q = Some v' /\ type v' = type v) -> rep R h' p t.
Proof.
  revert p. induction t as [l IH|l IH|s|b| | |] using jtree_ind; intros p H Hk;
    inversion H as [? v dict ? Hv E Hd HR Hin HF|? v cs ? Hv E HF|? v ? Hv E|? v ? Hv E|? v Hv E|? v Hv E|? v Hv E]; subst;
    (destruct (Hk p v (rtc_refl _ _) Hv) as (v' & Hv' & E'); rewrite E in E'); try (by econstructor).
  - eapply rep_object; [done|done|done|done|done|]. rewrite Forall_forall in *. intros kt Hkt. destruct (HF kt Hkt) as (c & Hc & Hr).
    exists c. split; [done|]. apply (IH kt Hkt c Hr). intros q w Hq. apply Hk. eapply rtc_l; [|exact Hq]. exists v. split; [done|]. rewrite E. by exists kt.1.
  - eapply rep_array; [done|done|]. assert (Hc : forall c, c ∈ cs -> edge h p c) by (intros c Hc; exists v; split; [done|]; by rewrite E).
    clear -HF IH Hk Hc. induction HF as [|c t cs ts Hr _ IHF]; [constructor|]. apply Forall_cons in IH as [Ht IH]. constructor.
    + apply Ht; [done|]. intros q w Hq. apply Hk. eapply rtc_l; [|exact Hq]. apply Hc. by left.
    + apply IHF; [done|]. intros x Hx. apply Hc. by right.
Qed.
(** A new tree in the heap; what was there before is as it was. *)
Record decoded_to (h : json_heap) (t : jtree) (q : Z) (h' : json_heap) : Prop := {
  dt_wf : wf h'; dt_root : is_root h' q; dt_new : h !! q = None; dt_keep : forall x v, h !! x = Some v -> h' !! x = Some v;
  dt_rep : rep any_order h' q t }.
Lemma new_scalar h t (v : jtree) : wf h -> (forall c, ~ kid t c) -> kids_once t ->
  (forall h' q w, h' !! q = Some w -> type w = t -> rep any_order h' q v) ->
  decoded_to h v (fresh_key h) (<[fresh_key h := {| type := t; parent := 0 |}]> h).
Proof.
  intros W Hk Ho Hr. pose proof (new_created h t W Ho Hk) as C. cbn [new_value fst snd] in C. split.
  - apply (cr_wf _ _ _ _ C).
  - apply (created_root C).
  - apply (cr_fresh _ _ _ _ C).
  - intros x w. apply (created_old C).
  - eapply Hr; [apply (created_c C)|done].
Qed.

(** *** Scalars *)

Lemma jload_new (h : json_heap) t (p : json_heap) : jload (<[fresh_key h := t]> p) (fresh_key h) = Some t.
Proof. unfold jload. pose proof (fresh_key_spec h) as [Hf _]. rewrite (proj2 (Z.eqb_neq _ 0)) by lia. apply lookup_insert_eq. Qed.
Lemma set_type_new (h : json_heap) t q t' (p : json_heap) : set_type (<[fresh_key h := {| type := t; parent := q |}]> p) (fresh_key h) t' =
  Some (<[fresh_key h := {| type := t'; parent := q |}]> p).
Proof. unfold set_type. rewrite jload_new. cbn [mbind option_bind]. by rewrite insert_insert_eq. Qed.
Lemma fresh_nonzero (h : json_heap) : fresh_key h <> 0.
Proof. pose proof (fresh_key_spec h) as [Hf _]. lia. Qed.
Lemma strn_octets_spec m p l rest : region m p (l ++ rest) -> 0 ∉ l -> strn_octets m p (length l) = Some l.
Proof.
  revert p. induction l as [|c l IH]; intros p Hm Hn; [done|]. cbn [length strn_octets app] in *. apply not_elem_of_cons in Hn as [Hc Hn].
  rewrite (load8_at_0 m p c _ Hm). cbn [mbind option_bind]. rewrite (proj2 (Z.eqb_neq c 0)) by congruence.
  by rewrite IH by (done || by apply (region_tail m p c)).
Qed.
Lemma strn_octets_Zlen m p l rest : region m p (l ++ rest) -> 0 ∉ l -> strn_octets m p (Z.to_nat (Zlen l)) = Some l.
Proof. unfold Zlen. rewrite Nat2Z.id. apply strn_octets_spec. Qed.
Lemma string_of_octets_bytes s : string_of_octets (string_bytes s) = s.
Proof.
  unfold string_of_octets, string_bytes. rewrite <- list_fmap_compose. rewrite <- (String.string_of_list_ascii_of_string s) at 2. f_equal.
  rewrite <- (list_fmap_id (String.list_ascii_of_string s)) at 2. apply list_fmap_ext. intros i c _. cbn. by rewrite N2Z.id, Ascii.ascii_N_embedding.
Qed.
Lemma key_at_spec m p s rest : region m p (string_bytes s ++ rest) -> no_nul s -> key_at m p (Zlen (string_bytes s)) = Some s.
Proof.
  intros Hm Hn. unfold key_at. rewrite (strn_octets_Zlen m p _ rest Hm Hn). cbn [mbind option_bind]. by rewrite string_of_octets_bytes.
Qed.
Lemma string_decode_spec m h p s rest size : region m p (QUOTE ++ string_bytes s ++ QUOTE ++ rest) -> string_ok s = true -> Zlen (string_bytes s) + 2 <= size ->
  json_string_decode m h 0 p size = Some (Zlen (string_bytes s) + 2, fresh_key h, <[fresh_key h := {| type := OV_JSON_STRING (Some s); parent := 0 |}]> h).
Proof.
  intros Hm Hs Hl. pose proof (string_ok_nonempty s Hs) as Hne. destruct (string_ok_spec s Hs) as (Hv & Hn & _). pose proof Hm as [Hp _].
  unfold json_string_decode, NULL. rewrite (proj2 (Z.eqb_neq p 0)), (proj2 (Z.ltb_ge size 2)) by lia. cbn [orb].
  rewrite (load8_at_0 m p 34 _ Hm). cbn [mbind option_bind Z.eqb Pos.eqb negb].
  rewrite (match_string_spec m [] s rest p size) by (done || constructor || (change (Zlen (@nil Z)) with 0; lia)). cbn [mbind option_bind]. rewrite p_nil.
  unfold ov_json_string, new_value, ov_json_string_clear. rewrite (proj2 (Z.eqb_neq _ 0) (fresh_nonzero h)), jload_new.
  cbn [mbind option_bind type fmap option_fmap option_map].
  rewrite set_type_new. cbn [mbind option_bind negb]. unfold ov_json_string_set_length, NULL. rewrite (proj2 (Z.eqb_neq _ 0) (fresh_nonzero h)), jload_new.
  cbn [mbind option_bind type]. replace (p + Zlen (string_bytes s) - (p + 1) + 1) with (Zlen (string_bytes s)) by lia.
  rewrite (proj2 (Z.eqb_neq (p + 1) 0)), (proj2 (Z.ltb_ge _ 1)) by lia. cbn [orb].
  assert (Hm1 : region m (p + 1) (string_bytes s ++ QUOTE ++ rest)) by (by apply (region_tail m p 34)).
  rewrite (validate_region m (p + 1) (string_bytes s)) by (try apply bytes_string; by eapply region_app_l). rewrite Hv. cbn [mbind option_bind negb].
  rewrite (strn_octets_Zlen m _ _ _ Hm1 Hn). cbn [mbind option_bind]. rewrite set_type_new, string_of_octets_bytes. cbn [mbind option_bind negb].
  do 3 f_equal. lia.
Qed.
Lemma last_behind m p l : region m p l -> l <> [] -> load8 m (p + Zlen l - 1) = Some (List.last l 0).
Proof.
  intros Hm Hl. destruct (exists_last Hl) as (k & x & ->). rewrite List.last_last.
  replace (p + Zlen (k ++ [x]) - 1) with (p + Zlen k) by (autorewrite with zlen; change (Zlen [x]) with 1; lia).
  by apply (region_behind m p k x []).
Qed.
Lemma number_decode_spec m h p b x rest size : region m p (number_text b ++ x :: rest) -> number_reads b = true -> x ∈ stops ->
  Zlen (number_text b) + 1 <= size ->
  json_number_decode m h 0 p size = Some (Zlen (number_text b), fresh_key h, <[fresh_key h := {| type := OV_JSON_NUMBER b; parent := 0 |}]> h).
Proof.
  intros Hm Hb Hx Hl. destruct (number_reads_spec b Hb) as (c & l & E & Hc & Hd & Hr & _). pose proof Hm as [Hp _].
  assert (Hne : number_text b <> []) by (by rewrite E). assert (H1 : 1 <= Zlen (number_text b)) by (rewrite E; zlia).
  unfold json_number_decode, NULL. rewrite (proj2 (Z.eqb_neq p 0)), (proj2 (Z.ltb_ge size 2)) by lia. cbn [orb].
  assert (Hc0 : load8 m p = Some c) by (rewrite E in Hm; by apply (load8_at_0 m p c _ Hm)). rewrite Hc0. cbn [mbind option_bind]. rewrite Hc. cbn [negb].
  rewrite (strtod_spec m p _ (number_text b) b (x :: rest) Hm eq_refl (Hr x rest Hx)). cbn [mbind option_bind].
  rewrite (proj2 (Z.eqb_neq _ p)), (proj2 (Z.ltb_ge size _)) by lia. rewrite (region_behind m p _ x rest Hm). cbn [mbind option_bind].
  rewrite (last_behind m p (number_text b)) by (done || by eapply region_app_l).
  set (d := List.last (number_text b) 0) in *. assert (Ed : (x0 ← (if x =? 32 then Some d else Some 48); Some ((48 <=? x0) && (x0 <=? 57))) = Some true).
  { unfold is_digit in Hd. destruct (x =? 32); cbn [mbind option_bind]; [|done]. rewrite (proj2 (Z.leb_le 48 d)), (proj2 (Z.leb_le d 57)) by lia. done. }
  destruct (if x =? 32 then Some d else Some 48) as [y|]; [|done]. cbn [mbind option_bind] in Ed |- *. injection Ed as ->. cbn [negb].
  assert (Hends : ends_number x = true) by (unfold ends_number; by apply bool_decide_eq_true). rewrite Hends. cbn [negb Z.eqb].
  unfold ov_json_number, new_value, ov_json_number_set. rewrite (proj2 (Z.eqb_neq _ 0) (fresh_nonzero h)), jload_new. cbn [mbind option_bind type].
  rewrite set_type_new. cbn [mbind option_bind negb]. do 3 f_equal. lia.
Qed.
Lemma strncmp_spec m p word rest n : region m p (word ++ rest) -> strncmp_equal m p word n = Some true.
Proof.
  revert p n. induction word as [|c word IH]; intros p [|n] Hm; try done. cbn [strncmp_equal app] in *. rewrite (load8_at_0 m p c _ Hm).
  cbn [mbind option_bind].
  rewrite Z.eqb_refl. by apply IH, (region_tail m p c).
Qed.
Lemma literal_decode_spec m h p word t rest size : region m p (word ++ rest) -> (word, t) ∈ [(NULL_TEXT, OV_JSON_NULL); (TRUE_TEXT, OV_JSON_TRUE);
    (FALSE_TEXT, OV_JSON_FALSE)] ->
  Zlen word <= size ->
  json_literal_decode m h 0 p size = Some (Zlen word, fresh_key h, <[fresh_key h := {| type := t; parent := 0 |}]> h).
Proof.
  intros Hm Hin Hl. pose proof Hm as [Hp _].
  assert (H4 : 4 <= Zlen word) by (rewrite !elem_of_cons in Hin; destruct Hin as [[= -> _]|[[= -> _]|[[= -> _]|Hin]]]; [done..|by apply elem_of_nil in Hin]).
  unfold json_literal_decode, NULL. rewrite (proj2 (Z.eqb_neq p 0)), (proj2 (Z.ltb_ge size 4)) by lia. cbn [orb Z.eqb].
  unfold ov_json_null, new_value, ov_json_literal_clear, ov_json_literal_set, ov_json_is_literal.
  rewrite !(proj2 (Z.eqb_neq (fresh_key h) 0) (fresh_nonzero h)), jload_new. cbn [mbind option_bind type negb]. rewrite set_type_new.
  cbn [mbind option_bind negb].
  rewrite !elem_of_cons in Hin. destruct Hin as [[= -> ->]|[[= -> ->]|[[= -> ->]|Hin]]]; [| | |by apply elem_of_nil in Hin];
    rewrite (load8_at_0 m p _ _ Hm); cbn [mbind option_bind Z.eqb Pos.eqb]; rewrite (proj2 (Z.ltb_ge size _)) by lia;
    rewrite (strncmp_spec m p _ rest) by done; cbn [mbind option_bind negb];
    rewrite ?jload_new; cbn [mbind option_bind type negb]; rewrite set_type_new; done.
Qed.

(** *** Objects *)

Lemma with_empty_chain d i : items d !! i = Some [] -> with_chain d i [] = d.
Proof. intros H. destruct d as [s l]. unfold with_chain. cbn in *. by rewrite list_insert_id. Qed.
Lemma clear_empty_slots free (h : json_heap) p v d l : h !! 0 = None -> h !! p = Some v -> type v = OV_JSON_OBJECT d ->
  (forall i, i ∈ l -> items d !! i = Some []) -> clear_slots free h p l = Some h.
Proof.
  intros H0 Hp Ht Hl. induction l as [|i l IH]; [done|]. cbn [clear_slots]. unfold clear_slot.
  rewrite (AS_OBJECT_eq h p v H0 Hp), Ht. cbn [mbind option_bind]. rewrite (Hl i) by (by left). cbn [mbind option_bind].
  rewrite with_empty_chain by (apply Hl; by left). rewrite (set_type_eq h p v _ H0 Hp). cbn [mbind option_bind free_all fmap list_fmap].
  rewrite <- Ht, value_eta, insert_id by done. apply IH. intros j Hj. apply Hl. by right.
Qed.
Lemma clear_empty_object (h : json_heap) p v d : h !! 0 = None -> h !! p = Some v -> type v = OV_JSON_OBJECT d -> dict_ok d -> dict_map d = ∅ ->
  ov_json_object_clear h p = Some (true, h).
Proof.
  intros H0 Hp Ht Hok Hm. unfold ov_json_object_clear, impl_json_object_clear. rewrite (AS_OBJECT_eq h p v H0 Hp), Ht. cbn [mbind option_bind].
  rewrite (clear_empty_slots _ h p v d); [done..|]. intros i Hi. apply elem_of_seq in Hi.
  destruct (lookup_lt_is_Some_2 (items d) i) as [c Hc]; [rewrite (do_items d Hok); lia|]. rewrite Hc. f_equal.
  destruct c as [|[k x] c]; [done|]. exfalso.
  assert (Hin : (k, x) ∈ concat (items d)) by (apply elem_of_concat_lookup; exists i, ((k, x) :: c); split; [done|by left]).
  apply dict_map_elem in Hin; [|done]. by rewrite Hm in Hin.
Qed.
(** A decoded tree becomes the value of a new key. *)
Lemma set_decoded h h1 q t p l k : wf h -> is_root h p -> rep any_order h p (T_object l) -> decoded_to h t q h1 -> k ∉ l.*1 ->
  ov_json_object_get h1 p k = Some 0 /\
  exists h2, ov_json_object_set h1 p k q = Some (true, h2) /\ wf h2 /\ is_root h2 p /\ rep any_order h2 p (T_object (l ++ [(k, t)])) /\
    forall x v, x <> p -> h !! x = Some v -> h2 !! x = Some v.
Proof.
  intros W (v & Hp & Hp0) H [W1 (w & Hq & Hq0) Hnew Hkeep Hr] Hk. inversion H as [? v' d ? Hv E Hd HR Hin HF| | | | | |]; subst.
  assert (v' = v) as -> by congruence.
  assert (Hp1 : h1 !! p = Some v) by auto. assert (Hqp : q <> p) by congruence.
  assert (Hbel : ~ below h1 q p) by (intros Hb; apply Hqp; by apply (below_root none h1 q p v W1 Hp1 Hp0 Hb)).
  assert (Hdk : dict_map d !! k = None) by (apply eq_None_not_Some; intros Hs; by apply Hk, Hin).
  split; [rewrite (object_get_spec h1 p v d W1 Hp1 E), Hdk; done|].
  destruct (object_set_spec h1 p v d k q w W1 Hp1 E Hq Hq0 Hbel) as (d' & h2 & Es & W2 & Hok & Hm & _ & Hh).
  assert (Hh2 : forall x, h2 !! x = attach h1 p v (OV_JSON_OBJECT d') q w !! x) by (intros x; apply Hh; intros (o & Ho & _); congruence). clear Hh.
  exists h2. split; [done|]. split; [done|].
  assert (Hp2 : h2 !! p = Some {| type := OV_JSON_OBJECT d'; parent := parent v |}) by (rewrite Hh2; apply attach_p).
  split; [exists {| type := OV_JSON_OBJECT d'; parent := parent v |}; by split|]. split.
  - assert (Hframe : forall c u, rep any_order h1 c u -> ~ below h1 c p -> rep any_order h2 c u).
    { intros c u Hc Hn. apply (rep_frame _ h1); [done|]. intros x y Hx Hy.
      destruct (attach_live h1 p v (OV_JSON_OBJECT d') q w Hp1 Hq Hbel x y Hy) as (y' & Hy' & _ & Ety).
      exists y'. rewrite Hh2. split; [done|]. apply Ety. intros ->. by apply Hn. }
    rewrite Forall_forall in HF. eapply rep_object; [exact Hp2|done| |done| |].
    + rewrite fmap_app. apply NoDup_app. split; [done|]. split; [|apply NoDup_singleton]. by intros x Hx ->%list_elem_of_singleton.
    + intros x Hx. rewrite fmap_app. apply elem_of_app. rewrite Hm in Hx. destruct (decide (k = x)) as [->|Hne]; [right; by left|].
      rewrite lookup_insert_ne in Hx by done. left. by apply Hin.
    + apply Forall_app. split; [|constructor; [|done]].
      * apply Forall_forall. intros kt Hkt. destruct (HF kt Hkt) as (c & Hc & Hrc). exists c.
        assert (Hkne : k <> kt.1) by (intros ->; apply Hk, list_elem_of_fmap; by exists kt). rewrite Hm, lookup_insert_ne by done. split; [done|].
        assert (He : edge h1 p c) by (exists v; split; [done|]; rewrite E; by exists kt.1). apply Hframe.
        { apply (rep_frame _ h); [done|]. intros x y _ Hy. exists y. split; [by apply Hkeep|done]. }
        intros Hb. pose proof (below_root none h1 c p v W1 Hp1 Hp0 Hb) as ->. by apply (below_antisym none h1 p p v).
      * exists q. cbn [fst snd]. rewrite Hm, lookup_insert_eq. split; [done|]. by apply Hframe.
  - intros x y Hx Hy. rewrite Hh2, attach_other; [by apply Hkeep|done|]. intros ->. congruence.
Qed.

(** What must follow a text, and how much more the decoder wants to see. *)
Definition follows (t : jtree) (rest : list Z) : Prop := match t with T_number _ => exists c r, rest = c :: r /\ c ∈ stops | _ => True end.
Definition slack (t : jtree) : Z := match t with T_number _ => 1 | _ => 0 end.
Definition decodes (fuel : nat) (t : jtree) : Prop := forall l, shape l t -> forall m h p size rest, region m p (l ++ rest) -> follows t rest ->
  Zlen l + slack t <= size < 2 ^ 64 -> wf h -> exists q h', parser_decode fuel m h 0 p size = Some (Zlen l, q, h') /\ decoded_to h t q h'.
Lemma blank_stop c : blank c -> c ∈ stops.
Proof. unfold blank, ov_json_is_whitespace, stops. rewrite !orb_true_iff, !Z.eqb_eq, !elem_of_cons. tauto. Qed.
Lemma follows_blanks t w c r : blanks w -> c ∈ stops -> follows t (w ++ c :: r).
Proof. intros Hw Hc. destruct t; try done. destruct Hw as [|y w Hy _]; [by exists c, r|]. exists y, (w ++ c :: r). split; [done|by apply blank_stop]. Qed.
Lemma slack_one t : 0 <= slack t <= 1.
Proof. destruct t; cbn; lia. Qed.

Lemma decode_member fuel m kt x rest text p content cs h done turns : member_shape text kt -> decodes fuel kt.2 -> x = 44 \/ x = 125 ->
  region m content (text ++ x :: rest) -> Zlen text + 1 <= cs < 2 ^ 64 -> wf h -> is_root h p -> rep any_order h p (T_object done) -> kt.1 ∉ done.*1 ->
  exists h' cs', decode_members m (parser_decode fuel m) (S turns) h p content cs =
      (if x =? 125 then Some (Some (content + Zlen text), h') else decode_members m (parser_decode fuel m) turns h' p (content + Zlen text + 1) (cs' - 1)) /\
    cs - Zlen text <= cs' <= cs /\ wf h' /\ is_root h' p /\ rep any_order h' p (T_object (done ++ [kt])) /\ forall y v, y <> p -> h !! y = Some v ->
      h' !! y = Some v.
Proof.
  destruct kt as [k t]. intros (w1 & w2 & lt & w3 & -> & H1 & H2 & H3 & Hk & Hs) Hdec Hx Hm Hcs W Hroot Hrep Hkd. cbn [fst snd] in *.
  destruct (text_ok_spec k Hk) as (Hok & _). pose proof (string_ok_nonempty k Hok) as Hk1. destruct (string_ok_spec k Hok) as (_ & Hnul & _).
  destruct (shape_head lt t Hs) as (w0 & c & lt' & -> & H0 & Hc & Hs').
  set (n := Zlen (string_bytes k)) in *. unfold QUOTE in *.
  repeat rewrite ?Zlen_app, ?Zlen_cons in Hcs |- *. change (Zlen (@nil Z)) with 0 in *. fold n in Hcs |- *.
  pose proof (Zlen_nonneg w1). pose proof (Zlen_nonneg w2). pose proof (Zlen_nonneg w0). pose proof (Zlen_nonneg lt'). pose proof (Zlen_nonneg w3).
  repeat (rewrite <- app_assoc in Hm || rewrite <- app_comm_cons in Hm). cbn [app] in Hm.
  cbn [decode_members]. rewrite (proj2 (Z.leb_gt cs 1)) by lia.
  rewrite (match_string_spec m w1 k (w2 ++ 58 :: w0 ++ c :: lt' ++ w3 ++ x :: rest) content cs) by (done || fold n; lia). cbn [mbind option_bind]. fold n.
  set (k0 := content + Zlen w1 + 1). replace (content + Zlen w1 + n - k0 + 1) with n by (unfold k0; lia).
  assert (Mk : region m k0 (string_bytes k ++ 34 :: w2 ++ 58 :: w0 ++ c :: lt' ++ w3 ++ x :: rest)).
  { apply (region_tail m (content + Zlen w1) 34). by apply (region_app_r m content _ w1). }
  assert (M2 : region m (k0 + n + 1) (w2 ++ 58 :: w0 ++ c :: lt' ++ w3 ++ x :: rest)).
  { apply (region_tail m (k0 + n) 34). by apply (region_app_r m k0 _ (string_bytes k)). }
  assert (M3 : region m (k0 + n + 1 + Zlen w2 + 1) (w0 ++ c :: lt' ++ w3 ++ x :: rest)).
  { apply (region_tail m (k0 + n + 1 + Zlen w2) 58). by apply (region_app_r m (k0 + n + 1) _ w2). }
  set (v0 := k0 + n + 1 + Zlen w2 + 1 + Zlen w0) in *.
  assert (M4 : region m v0 ((c :: lt') ++ w3 ++ x :: rest)) by (by apply (region_app_r m (k0 + n + 1 + Zlen w2 + 1) _ w0)).
  assert (M5 : region m (v0 + (1 + Zlen lt')) (w3 ++ x :: rest)).
  { apply (region_app_r m v0 _ (c :: lt')); [done|]. rewrite Zlen_cons. lia. }
  pose proof Mk as [Hk0 _]. unfold object_get_with_length, NULL. destruct Hroot as (v & Hp & Hp0). pose proof (live_nonzero h p v (jw_zero _ h W) Hp) as Hpn.
  rewrite (proj2 (Z.eqb_neq p 0) Hpn), (proj2 (Z.eqb_neq k0 0)), (proj2 (Z.ltb_ge n 1)) by lia. cbn [orb].
  pose proof (key_at_spec m k0 k _ Mk Hnul) as Ekey. fold n in Ekey. rewrite Ekey. cbn [mbind option_bind].
  inversion Hrep as [? v' d0 ? Hv0 Ed0 _ _ Hin0 _| | | | | |]; subst. assert (v' = v) as -> by congruence.
  assert (Hget0 : ov_json_object_get h p k = Some 0).
  { rewrite (object_get_spec h p v d0 W Hp Ed0). replace (dict_map d0 !! k) with (@None Z); [done|]. symmetry. apply eq_None_not_Some. intros Hx0.
    by apply Hkd, Hin0. }
  rewrite Hget0. cbn [mbind option_bind negb Z.eqb].
  replace (content + Zlen w1 + n - content + 1) with (Zlen w1 + n + 1) by lia. rewrite (u64_id (cs - (Zlen w1 + n + 1))) by lia.
  rewrite (clear_whitespace_spec m w2 58 _ _ _ M2) by (done || lia). cbn [mbind option_bind].
  rewrite (region_behind m _ w2 58 _ M2). cbn [mbind option_bind Z.eqb Pos.eqb negb]. rewrite u64_id by lia.
  rewrite (clear_whitespace_spec m w0 c _ _ _ M3) by (done || lia). cbn [mbind option_bind]. fold v0.
  set (cs1 := cs - (Zlen w1 + n + 1) - Zlen w2 - 1 - Zlen w0). pose proof (slack_one t).
  destruct (Hdec (c :: lt') Hs' m h v0 cs1 (w3 ++ x :: rest) M4) as (q & h1 & -> & D); [|rewrite Zlen_cons; unfold cs1; lia|done|].
  { apply follows_blanks; [done|]. destruct Hx as [-> | ->]; unfold stops; rewrite !elem_of_cons; tauto. }
  cbn [mbind option_bind]. rewrite Zlen_cons, (proj2 (Z.ltb_ge _ 0)) by lia. rewrite (u64_id (cs1 - _)) by (unfold cs1; lia).
  destruct (set_decoded h h1 q t p done k W ltac:(by exists v) Hrep D Hkd) as (_ & h2 & Es & W2 & R2 & Hr2 & Hkeep).
  assert (Hq : q <> 0). { destruct (dt_root _ _ _ _ D) as (w & Hw & _). eapply live_nonzero; [apply (jw_zero none h1), (dt_wf _ _ _ _ D)|done]. }
  unfold json_object_set_with_length, NULL.
  rewrite (proj2 (Z.eqb_neq p 0) Hpn), (proj2 (Z.eqb_neq k0 0)), (proj2 (Z.ltb_ge n 1)), (proj2 (Z.eqb_neq q 0)) by lia. cbn [orb].
  rewrite Ekey. cbn [mbind option_bind]. rewrite Es. cbn [mbind option_bind negb].
  assert (Hxw : ov_json_is_whitespace x = false) by (by destruct Hx as [-> | ->]).
  rewrite (clear_whitespace_spec m w3 x _ _ _ M5) by (done || unfold cs1; lia). cbn [mbind option_bind].
  rewrite (region_behind m _ w3 x _ M5). cbn [mbind option_bind].
  exists h2, (cs1 - (1 + Zlen lt') - Zlen w3). split; [|split; [unfold cs1; lia|done]].
  assert (Eend : v0 + (1 + Zlen lt') + Zlen w3 = content + (Zlen w1 + (1 + (n + (1 + (Zlen w2 + (1 + (Zlen w0 + (1 + Zlen lt') + Zlen w3)))))))) by
    (unfold v0, k0; lia).
  destruct Hx as [-> | ->]; cbn [Z.eqb Pos.eqb negb]; [|do 3 f_equal; lia]. rewrite u64_id by (unfold cs1; lia). f_equal. lia.
Qed.
Lemma decode_members_spec fuel m text ms kt l : Forall2 member_shape (text :: ms) (kt :: l) -> (forall kt', kt' ∈ kt :: l -> decodes fuel kt'.2) ->
  forall turns h p content cs rest done, region m content (join [44] (text :: ms) ++ 125 :: rest) -> Zlen (join [44] (text :: ms)) + 1 <= cs < 2 ^ 64 ->
  (length l < turns)%nat -> wf h -> is_root h p -> rep any_order h p (T_object done) -> NoDup (done ++ kt :: l).*1 ->
  exists h', decode_members m (parser_decode fuel m) turns h p content cs = Some (Some (content + Zlen (join [44] (text :: ms))), h') /\
    wf h' /\ is_root h' p /\ rep any_order h' p (T_object (done ++ kt :: l)) /\ forall y v, y <> p -> h !! y = Some v -> h' !! y = Some v.
Proof.
  revert text kt ms. induction l as [|kt2 l IH]; intros text kt ms HF Hdec [|turns] h p content cs rest done Hm Hcs Ht W Hroot Hrep Hn; try (cbn in Ht; lia);
    inversion HF as [|? ? ? ? Hs HF']; subst;
    (assert (Hkd : kt.1 ∉ done.*1) by (rewrite fmap_app in Hn; apply NoDup_app in Hn as (_ & Hn & _); intros Hk; apply (Hn _ Hk); by left)).
  - inversion HF'; subst. cbn [join] in *.
    destruct (decode_member fuel m kt 125 rest text p content cs h done turns Hs (Hdec kt (list_elem_of_here _ _)) (or_intror eq_refl) Hm Hcs W Hroot Hrep Hkd)
      as (h' & cs' & -> & _ & R). by exists h'.
  - destruct ms as [|text2 ms]; [by inversion HF'|]. change (join [44] (text :: text2 :: ms)) with (text ++ [44] ++ join [44] (text2 :: ms)) in *.
    rewrite !Zlen_app in Hcs |- *. change (Zlen [44]) with 1 in *. pose proof (Zlen_nonneg (join [44] (text2 :: ms))).
    rewrite <- !app_assoc in Hm.
    destruct (decode_member fuel m kt 44 (join [44] (text2 :: ms) ++ 125 :: rest) text p content cs h done turns Hs (Hdec kt (list_elem_of_here _ _))
      (or_introl eq_refl) Hm ltac:(lia) W Hroot Hrep Hkd)
      as (h1 & cs1 & -> & Hcs1 & W1 & Hroot1 & Hrep1 & Hkeep1). cbn [Z.eqb Pos.eqb].
    assert (Hm1 : region m (content + Zlen text + 1) (join [44] (text2 :: ms) ++ 125 :: rest)).
    { apply (region_tail m (content + Zlen text) 44). by apply (region_app_r m content _ text). }
    destruct (IH text2 kt2 ms HF' (fun x Hx => Hdec x (list_elem_of_further _ _ _ Hx)) turns h1 p _ (cs1 - 1) rest (done ++ [kt]) Hm1) as (h' & E & W'
      & Hroot' & Hrep' & Hkeep');
      [lia|cbn in Ht; lia|done|done|done|by rewrite <- app_assoc|].
    exists h'. rewrite <- app_assoc in Hrep'. split; [rewrite E; do 3 f_equal; lia|]. split; [done|]. split; [done|]. split; [done|].
    intros y v Hy Hv. apply Hkeep'; [done|]. by apply Hkeep1.
Qed.
Lemma join_cons_app sep (w x : list Z) ms : join sep ((w ++ x) :: ms) = w ++ join sep (x :: ms).
Proof. destruct ms; [done|]. cbn [join]. by rewrite <- app_assoc. Qed.
Lemma length_join_sep (x : list Z) ms : (length ms <= length (join [44%Z] (x :: ms)))%nat.
Proof. revert x. induction ms as [|y ms IH]; intros x; [cbn; lia|]. cbn [join]. rewrite !length_app. specialize (IH y). cbn [length join] in *. lia. Qed.
(** The value a container is decoded to: new, and changed while its parts are
    decoded. *)
Lemma container_decoded h t q v h1 h2 : wf h -> h !! q = None -> h1 = <[q := v]> h -> wf h2 -> is_root h2 q -> rep any_order h2 q t ->
  (forall y x, y <> q -> h1 !! y = Some x -> h2 !! y = Some x) -> decoded_to h t q h2.
Proof.
  intros W Hn -> W2 Hr Hrep Hk. split; [done|done|done| |done]. intros x y Hx. apply Hk; [congruence|]. by rewrite lookup_insert_ne by congruence.
Qed.
Lemma object_decode_spec fuel m h p J l rest size : region m p (123 :: J ++ 125 :: rest) -> balanced 123 125 J -> Zlen J + 2 <= size < 2 ^ 64 -> wf h ->
  (l = [] /\ blanks J \/ exists ms, l <> [] /\ J = join [44] ms /\ Forall2 member_shape ms l /\ NoDup l.*1 /\ forall kt, kt ∈ l -> decodes fuel kt.2) ->
  exists q h', json_object_decode m (parser_decode fuel m) h 0 p size = Some (Zlen J + 2, q, h') /\ decoded_to h (T_object l) q h'.
Proof.
  intros Hm Hb Hs W Hl. pose proof Hm as [Hp _]. pose proof (Zlen_nonneg J). unfold json_object_decode, NULL, ov_json_match_object.
  rewrite (proj2 (Z.eqb_neq p 0)), (proj2 (Z.ltb_ge size 2)) by lia. cbn [orb].
  rewrite (match_brackets_spec 123 125 ltac:(done) m J rest p size) by done. cbn [mbind option_bind Z.eqb].
  destruct (object_created h W) as (q & d & h1 & -> & C & Hok & Hd). cbn [mbind option_bind]. pose proof (created_c C) as Hq.
  rewrite (clear_empty_object h1 q _ d (jw_zero _ h1 (cr_wf _ _ _ _ C)) Hq eq_refl Hok Hd). cbn [mbind option_bind negb].
  replace (p + Zlen J - (p + 1) + 2) with (Zlen J + 1) by lia.
  assert (Hm1 : region m (p + 1) (J ++ 125 :: rest)) by (by apply (region_tail m p 123)).
  pose proof (created_root C) as Hroot.
  assert (Hrep : rep any_order h1 q (T_object [])).
  { eapply rep_object; [exact Hq|done|constructor|done| |constructor]. intros k [x Hx]. by rewrite Hd in Hx. }
  assert (Hfin : forall h2, wf h2 -> is_root h2 q -> rep any_order h2 q (T_object l) -> (forall y x, y <> q -> h1 !! y = Some x -> h2 !! y = Some x) ->
    exists q' h', (c ← load8 m (p + 1 + Zlen J); (if negb (c =? 125) then decode_error true q h2 else Some (p + Zlen J - p + 2, q,
      h2))) = Some (Zlen J + 2, q', h') /\ decoded_to h (T_object l) q' h').
  { intros h2 W2 R2 Hr2 Hk2. rewrite (region_behind m _ J 125 rest Hm1). cbn [mbind option_bind Z.eqb Pos.eqb negb]. exists q, h2. split; [do 3 f_equal; lia|].
    eapply container_decoded; [done|apply (cr_fresh _ _ _ _ C)|apply (cr_heap _ _ _ _ C)|done..]. }
  destruct Hl as [[-> HJ]|(ms & Hne & EJ & HF & Hn & Hdec)].
  - rewrite (clear_whitespace_spec m J 125 rest) by (done || lia). cbn [mbind option_bind]. replace (Zlen J + 1 - Zlen J) with 1 by lia.
    cbn [turns_of decode_members]. unfold turns_of. cbn [decode_members Z.leb Z.compare Pos.compare Pos.compare_cont mbind option_bind].
    by apply Hfin; [apply (cr_wf _ _ _ _ C)|..].
  - destruct HF as [|text kt ms l Hmem HF]; [done|]. pose proof Hmem as (w1 & w2 & lt & w3 & Et & B1 & B2 & B3 & Hk & Hsh).
    rewrite Et, join_cons_app in EJ. set (text' := QUOTE ++ _) in *.
    assert (Hmem' : member_shape text' kt) by (exists [], w2, lt, w3; split; [done|]; split; [constructor|done]).
    assert (Ehead : exists r, join [44] (text' :: ms) = 34 :: r) by (destruct ms; by eexists). destruct Ehead as [r Er].
    rewrite EJ, Er, <- app_assoc in Hm1. pose proof (Zlen_nonneg w1).
    assert (El : Zlen J = Zlen w1 + Zlen (join [44] (text' :: ms))) by (by rewrite EJ, Zlen_app).
    assert (El' : Zlen w1 < Zlen J + 1) by (pose proof (Zlen_nonneg (join [44] (text' :: ms))); lia).
    rewrite (clear_whitespace_spec m w1 34 (r ++ 125 :: rest) (p + 1) (Zlen J + 1) Hm1 B1 eq_refl El'). cbn [mbind option_bind].
    destruct (decode_members_spec fuel m text' ms kt l) with (turns := turns_of m) (h := h1) (p := q) (content := p + 1 + Zlen w1) (cs := Zlen J + 1 -
      Zlen w1) (rest := rest) (done := @nil (string * jtree))
      as (h2 & -> & W2 & R2 & Hr2 & Hk2); [by constructor|done|rewrite Er; by apply (region_app_r m (p + 1) _ w1)|lia| |apply (cr_wf _ _ _ _
        C)|done|done|done|].
    { apply Forall2_length in HF. pose proof (turns_enough m _ _ Hm1) as Ht. rewrite !length_app in Ht. pose proof (length_join_sep text' ms) as Hj.
      rewrite Er in Hj. lia. }
    cbn [mbind option_bind]. replace (p + 1 + Zlen w1 + Zlen (join [44] (text' :: ms))) with (p + 1 + Zlen J) by lia.
    apply (Hfin h2 W2 R2 Hr2 Hk2).
Qed.

(** *** Arrays *)

Lemma push_decoded h h1 q t p l : wf h -> is_root h p -> rep any_order h p (T_array l) -> decoded_to h t q h1 ->
  exists h2, ov_json_array_push h1 p q = Some (true, h2) /\ wf h2 /\ is_root h2 p /\ rep any_order h2 p (T_array (l ++ [t])) /\
    forall x v, x <> p -> h !! x = Some v -> h2 !! x = Some v.
Proof.
  intros W (v & Hp & Hp0) H [W1 (w & Hq & Hq0) Hnew Hkeep Hr]. inversion H as [|? v' cs ? Hv E HF| | | | |]; subst. assert (v' = v) as -> by congruence.
  assert (Hp1 : h1 !! p = Some v) by auto. assert (Hqp : q <> p) by congruence. pose proof (jw_zero _ h1 W1) as H0.
  assert (Hbel : ~ below h1 q p) by (intros Hb; apply Hqp; by apply (below_root none h1 q p v W1 Hp1 Hp0 Hb)).
  assert (Hqcs : q ∉ cs).
  { intros Hin. destruct (jw_kid none h W p v q Hp) as (u & Hu & _); [by rewrite E|congruence]. }
  pose proof (jw_once none h1 W1 p v Hp1) as Ho. rewrite E in Ho. cbn [kids_once] in Ho.
  set (h2 := attach h1 p v (OV_JSON_ARRAY (cs ++ [q])) q w).
  assert (W2 : json_wf (plus none []) h2).
  { apply wf_attach; try done.
    - cbn [kids_once]. apply NoDup_app. split; [done|]. split; [|apply NoDup_singleton]. by intros x Hx ->%list_elem_of_singleton.
    - cbn [kid]. apply elem_of_app. right. by left.
    - intros x Hx. cbn [kid] in Hx. rewrite E. apply elem_of_app in Hx as [Hx|Hx]; [by right|]. apply list_elem_of_singleton in Hx. by left.
    - intros x Hx. rewrite E in Hx. left. cbn [kid] in *. apply elem_of_app. by left. }
  exists h2. split.
  { unfold ov_json_array_push. rewrite (AS_ARRAY_eq h1 p v H0 Hp1), E. cbn [mbind option_bind]. pose proof (live_nonzero h1 q w H0 Hq) as Hq1.
    rewrite (proj2 (Z.eqb_neq q 0) Hq1), (proj2 (Z.eqb_neq q p) Hqp). cbn [orb]. rewrite (jload_Some h1 q w H0 Hq). cbn [mbind option_bind].
    unfold ov_json_value_set_parent. rewrite (proj2 (Z.eqb_neq q 0) Hq1), (proj2 (Z.eqb_neq p 0)) by (by eapply live_nonzero). cbn [orb].
    rewrite (jload_Some h1 q w H0 Hq). cbn [mbind option_bind]. rewrite Hq0. cbn [Z.eqb negb andb].
    rewrite (jload_Some h1 p v H0 Hp1). cbn [mbind option_bind]. rewrite E, (set_parent_eq h1 q w p H0 Hq). cbn [mbind option_bind negb].
    rewrite (set_type_eq _ p v); [done| |by rewrite lookup_insert_ne]. by rewrite lookup_insert_ne. }
  split; [eapply wf_mono; [|exact W2]; by intros x [[]|?%elem_of_nil]|].
  assert (Hp2 : h2 !! p = Some {| type := OV_JSON_ARRAY (cs ++ [q]); parent := parent v |}) by apply attach_p.
  split; [exists {| type := OV_JSON_ARRAY (cs ++ [q]); parent := parent v |}; by split|]. split.
  - assert (Hframe : forall c u, rep any_order h1 c u -> ~ below h1 c p -> rep any_order h2 c u).
    { intros c u Hc Hn. apply (rep_frame _ h1); [done|]. intros x y Hx Hy.
      destruct (attach_live h1 p v (OV_JSON_ARRAY (cs ++ [q])) q w Hp1 Hq Hbel x y Hy) as (y' & Hy' & _ & Ety).
      exists y'. split; [done|]. apply Ety. intros ->. by apply Hn. }
    eapply rep_array; [exact Hp2|done|]. apply Forall2_app; [|constructor; [by apply Hframe|constructor]].
    assert (Hc : forall c, c ∈ cs -> ~ below h1 c p).
    { intros c Hc Hb. assert (He : edge h1 p c) by (exists v; split; [done|]; by rewrite E).
      pose proof (below_root none h1 c p v W1 Hp1 Hp0 Hb) as ->. by apply (below_antisym none h1 p p v). }
    clearbody h2. clear -HF Hc Hkeep Hframe. induction HF as [|c u cs l Hr _ IH]; [constructor|]. constructor; [|apply IH; intros x Hx; apply Hc; by right].
    apply Hframe; [|apply Hc; by left]. apply (rep_frame _ h); [done|]. intros x y _ Hy. exists y. split; [by apply Hkeep|done].
  - intros x y Hx Hy. unfold h2. rewrite attach_other; [by apply Hkeep|done|]. intros ->. congruence.
Qed.
Lemma item_head m t : item_shape m t -> exists w c r, m = w ++ c :: r /\ blanks w /\ ov_json_is_whitespace c = false /\ item_shape (c :: r) t.
Proof.
  intros (lt & w3 & -> & B3 & Hs). destruct (shape_head lt t Hs) as (w & c & r & -> & Bw & Hc & Hs'). exists w, c, (r ++ w3).
  split; [by rewrite <- app_assoc|]. split; [done|]. split; [done|]. by exists (c :: r), w3.
Qed.
Lemma decode_item fuel m t x rest text p content h done turns : item_shape text t -> decodes fuel t -> x = 44 \/ x = 93 -> forall cs,
  region m content (text ++ x :: rest) -> Zlen text + (if x =? 44 then 2 else 1) <= cs < 2 ^ 64 -> (x = 93 -> cs = Zlen text + 1) -> wf h ->
    is_root h p -> rep any_order h p (T_array done) ->
  exists h', decode_items m (parser_decode fuel m) (S turns) h p content cs =
      (if x =? 93 then Some (true, h') else
       '(content, cs) ← ov_json_clear_whitespace m (content + Zlen text + 1) (cs - Zlen text - 1);
         decode_items m (parser_decode fuel m) turns h' p content cs) /\
    wf h' /\ is_root h' p /\ rep any_order h' p (T_array (done ++ [t])) /\ forall y v, y <> p -> h !! y = Some v -> h' !! y = Some v.
Proof.
  intros (lt & w3 & -> & B3 & Hs) Hdec Hx cs Hm Hcs Hcs93 W Hroot Hrep. destruct (shape_head lt t Hs) as (w0 & c & lt' & Elt & _).
  assert (Hlt : 1 <= Zlen lt) by (rewrite Elt, Zlen_app, Zlen_cons; pose proof (Zlen_nonneg w0); pose proof (Zlen_nonneg lt'); lia). clear Elt.
  rewrite Zlen_app in *. pose proof (Zlen_nonneg w3). rewrite <- app_assoc in Hm. pose proof (slack_one t).
  assert (Hx1 : Zlen lt + Zlen w3 + 1 <= cs) by (destruct (x =? 44); lia).
  cbn [decode_items]. rewrite (proj2 (Z.leb_gt cs 1)) by lia.
  destruct (Hdec lt Hs m h content cs (w3 ++ x :: rest) Hm) as (q & h1 & -> & D); [|lia|done|].
  { apply follows_blanks; [done|]. destruct Hx as [-> | ->]; unfold stops; rewrite !elem_of_cons; tauto. }
  cbn [mbind option_bind]. rewrite (proj2 (Z.ltb_ge _ 0)) by lia.
  destruct (push_decoded h h1 q t p done W Hroot Hrep D) as (h2 & -> & W2 & R2 & Hr2 & Hkeep). cbn [mbind option_bind negb].
  assert (Hm5 : region m (content + Zlen lt) (w3 ++ x :: rest)) by (by apply (region_app_r m content _ lt)).
  assert (Hxw : ov_json_is_whitespace x = false) by (by destruct Hx as [-> | ->]). rewrite u64_id by lia.
  rewrite (clear_whitespace_spec m w3 x _ _ _ Hm5) by (done || lia). cbn [mbind option_bind]. exists h2. split; [|done].
  destruct Hx as [-> | ->]; cbn [Z.eqb Pos.eqb] in *.
  - rewrite (proj2 (Z.eqb_neq _ 1)) by lia. rewrite (region_behind m _ w3 44 _ Hm5). cbn [mbind option_bind Z.eqb Pos.eqb negb]. rewrite u64_id by lia.
    f_equal. f_equal; lia.
  - rewrite Hcs93 by done. replace (Zlen lt + Zlen w3 + 1 - Zlen lt - Zlen w3) with 1 by lia. done.
Qed.
Lemma join_head sep (c : Z) r ms : exists r', join sep ((c :: r) :: ms) = c :: r'.
Proof. destruct ms; by eexists. Qed.
Lemma decode_items_spec fuel m l : forall text ms t, Forall2 item_shape (text :: ms) (t :: l) -> (forall t', t' ∈ t :: l -> decodes fuel t') ->
  forall turns h p content rest done, region m content (join [44] (text :: ms) ++ 93 :: rest) -> Zlen (join [44] (text :: ms)) + 1 < 2 ^ 64 ->
  (length l < turns)%nat -> wf h -> is_root h p -> rep any_order h p (T_array done) ->
  exists h', decode_items m (parser_decode fuel m) turns h p content (Zlen (join [44] (text :: ms)) + 1) = Some (true, h') /\
    wf h' /\ is_root h' p /\ rep any_order h' p (T_array (done ++ t :: l)) /\ forall y v, y <> p -> h !! y = Some v -> h' !! y = Some v.
Proof.
  induction l as [|t2 l IH]; intros text ms t HF Hdec [|turns] h p content rest done Hm Hcs Ht W Hroot Hrep; try (cbn in Ht; lia);
    inversion HF as [|? ? ? ? Hs HF']; subst.
  - inversion HF'; subst. cbn [join] in *. pose proof (Zlen_nonneg text).
    destruct (decode_item fuel m t 93 rest text p content h done turns Hs (Hdec t (list_elem_of_here _ _)) (or_intror eq_refl) (Zlen text + 1) Hm
      ltac:(cbn [Z.eqb Pos.eqb]; lia) (fun _ => eq_refl) W Hroot Hrep)
      as (h' & -> & R). by exists h'.
  - destruct ms as [|text2 ms]; [by inversion HF'|]. change (join [44] (text :: text2 :: ms)) with (text ++ [44] ++ join [44] (text2 :: ms)) in *.
    inversion HF' as [|? ? ? ? Hs2 HF2]; subst. destruct (item_head text2 t2 Hs2) as (w & c & r & -> & Bw & Hc & Hs2').
    rewrite join_cons_app in *. set (J := join [44] ((c :: r) :: ms)) in *. rewrite !Zlen_app in Hcs |- *. change (Zlen [44]) with 1 in *.
    pose proof (Zlen_nonneg J). pose proof (Zlen_nonneg w). pose proof (Zlen_nonneg text). rewrite <- !app_assoc in Hm.
    destruct (join_head [44] c r ms) as [r' EJ]. fold J in EJ. assert (1 <= Zlen J) by (rewrite EJ; zlia).
    destruct (decode_item fuel m t 44 (w ++ J ++ 93 :: rest) text p content h done turns Hs (Hdec t (list_elem_of_here _ _)) (or_introl eq_refl) (Zlen
      text + (1 + (Zlen w + Zlen J)) + 1) Hm)
      as (h1 & -> & W1 & Hroot1 & Hrep1 & Hkeep1); [cbn [Z.eqb Pos.eqb]; lia|done|done|done|done|]. cbn [Z.eqb Pos.eqb].
    assert (Hm1 : region m (content + Zlen text + 1) (w ++ J ++ 93 :: rest)).
    { apply (region_tail m (content + Zlen text) 44). by apply (region_app_r m content _ text). }
    replace (Zlen text + (1 + (Zlen w + Zlen J)) + 1 - Zlen text - 1) with (Zlen w + (Zlen J + 1)) by lia.
    rewrite (clear_whitespace_spec m w c (r' ++ 93 :: rest)); [|by rewrite EJ in Hm1|done|done|lia]. cbn [mbind option_bind].
    replace (Zlen w + (Zlen J + 1) - Zlen w) with (Zlen J + 1) by lia.
    destruct (IH (c :: r) ms t2) with (turns := turns) (h := h1) (p := p) (content := content + Zlen text + 1 + Zlen w) (rest := rest) (done := done ++ [t])
      as (h' & E & W' & Hroot' & Hrep' & Hkeep'); [by constructor|intros t' Ht'; apply Hdec;
        by right|by apply (region_app_r m (content + Zlen text + 1) _ w)|fold J; lia|cbn [length] in Ht; lia|done|done|done|].
    exists h'. rewrite <- app_assoc in Hrep'. split; [exact E|]. split; [done|]. split; [done|]. split; [done|].
    intros y v Hy Hv. apply Hkeep'; [done|]. by apply Hkeep1.
Qed.
Lemma clear_empty_array (h : json_heap) p v : h !! 0 = None -> h !! p = Some v -> type v = OV_JSON_ARRAY [] -> ov_json_array_clear h p = Some (true, h).
Proof.
  intros H0 Hp Ht. unfold ov_json_array_clear, impl_json_array_clear. rewrite (AS_ARRAY_eq h p v H0 Hp), Ht. cbn [mbind option_bind length pop_items].
  rewrite (AS_ARRAY_eq h p v H0 Hp), Ht. cbn [mbind option_bind list_pop last default from_option id removelast]. rewrite (set_type_eq h p v _ H0 Hp).
  cbn [mbind option_bind Z.eqb].
  rewrite <- Ht, value_eta, (insert_id h p v) by done. rewrite (AS_ARRAY_eq h p v H0 Hp). rewrite Ht. cbn [mbind option_bind free_all].
  rewrite (set_type_eq h p v _ H0 Hp). cbn [mbind option_bind]. by rewrite <- Ht, value_eta, insert_id.
Qed.
Lemma array_decode_spec fuel m h p J l rest size : region m p (91 :: J ++ 93 :: rest) -> balanced 91 93 J -> Zlen J + 2 <= size < 2 ^ 64 -> wf h ->
  (l = [] /\ blanks J \/ exists ms, l <> [] /\ J = join [44] ms /\ Forall2 item_shape ms l /\ forall t, t ∈ l -> decodes fuel t) ->
  exists q h', json_array_decode m (parser_decode fuel m) h 0 p size = Some (Zlen J + 2, q, h') /\ decoded_to h (T_array l) q h'.
Proof.
  intros Hm Hb Hs W Hl. pose proof Hm as [Hp _]. pose proof (Zlen_nonneg J). unfold json_array_decode, NULL, ov_json_match_array.
  rewrite (proj2 (Z.eqb_neq p 0)), (proj2 (Z.ltb_ge size 2)) by lia. cbn [orb].
  rewrite (match_brackets_spec 91 93 ltac:(done) m J rest p size) by done. cbn [mbind option_bind Z.eqb].
  pose proof (new_created h (OV_JSON_ARRAY []) W (NoDup_nil_2) (fun c Hc => proj1 (elem_of_nil c) Hc)) as C. unfold ov_json_array.
  destruct (new_value h (OV_JSON_ARRAY [])) as [q h1] eqn:En. cbn [fst snd] in C. pose proof (created_c C) as Hq.
  rewrite (clear_empty_array h1 q _ (jw_zero _ h1 (cr_wf _ _ _ _ C)) Hq eq_refl). cbn [mbind option_bind negb].
  replace (p + Zlen J - (p + 1) + 2) with (Zlen J + 1) by lia.
  assert (Hm1 : region m (p + 1) (J ++ 93 :: rest)) by (by apply (region_tail m p 91)). pose proof (created_root C) as Hroot.
  assert (Hrep : rep any_order h1 q (T_array [])) by (eapply rep_array; [exact Hq|done|constructor]).
  assert (Hfin : forall h2, wf h2 -> is_root h2 q -> rep any_order h2 q (T_array l) -> (forall y x, y <> q -> h1 !! y = Some x -> h2 !! y = Some x) ->
    exists q' h', Some (p + Zlen J - p + 2, q, h2) = Some (Zlen J + 2, q', h') /\ decoded_to h (T_array l) q' h').
  { intros h2 W2 R2 Hr2 Hk2. exists q, h2. split; [do 3 f_equal; lia|].
    eapply container_decoded; [done|apply (cr_fresh _ _ _ _ C)|apply (cr_heap _ _ _ _ C)|done..]. }
  destruct Hl as [[-> HJ]|(ms & Hne & EJ & HF & Hdec)].
  - rewrite (clear_whitespace_spec m J 93 rest) by (done || lia). cbn [mbind option_bind]. replace (Zlen J + 1 - Zlen J) with 1 by lia.
    unfold turns_of. cbn [decode_items Z.leb Z.compare Pos.compare Pos.compare_cont mbind option_bind negb]. by apply Hfin; [apply (cr_wf _ _ _ _ C)|..].
  - destruct HF as [|text t ms l Hit HF]; [done|]. destruct (item_head text t Hit) as (w & c & r & -> & Bw & Hc & Hit').
    rewrite join_cons_app in EJ. set (J' := join [44] ((c :: r) :: ms)) in *. destruct (join_head [44] c r ms) as [r' EJ']. fold J' in EJ'.
    rewrite EJ, <- app_assoc in Hm1. pose proof (Zlen_nonneg w). assert (El : Zlen J = Zlen w + Zlen J') by (by rewrite EJ, Zlen_app).
    pose proof (Zlen_nonneg J').
    rewrite (clear_whitespace_spec m w c (r' ++ 93 :: rest)); [|by rewrite EJ' in Hm1|done|done|lia]. cbn [mbind option_bind].
    replace (Zlen J + 1 - Zlen w) with (Zlen J' + 1) by lia.
    destruct (decode_items_spec fuel m l (c :: r) ms t) with (turns := turns_of m) (h := h1) (p := q) (content := p + 1 + Zlen w) (rest := rest) (done
      := @nil jtree)
      as (h2 & E & W2 & R2 & Hr2 & Hk2); [by constructor|done|by apply (region_app_r m (p + 1) _ w)|fold J'; lia| |apply (cr_wf _ _ _ _ C)|done|done|].
    { apply Forall2_length in HF. pose proof (turns_enough m _ _ Hm1) as Ht. rewrite !length_app in Ht.
      pose proof (length_join_sep (c :: r) ms) as Hj. fold J' in Hj. lia. }
    fold J' in E. rewrite E. cbn [mbind option_bind negb]. apply (Hfin h2 W2 R2 Hr2 Hk2).
Qed.

(** *** Values *)

(** [parser_decode] on a text without blanks before it. *)
Lemma decodes_trimmed fuel t : (forall c r, ov_json_is_whitespace c = false -> shape (c :: r) t ->
  forall m h p size rest, region m p ((c :: r) ++ rest) -> follows t rest ->
    Zlen (c :: r) + slack t <= size < 2 ^ 64 -> wf h -> exists q h', parser_decode (S fuel) m h 0 p size = Some (Zlen (c :: r), q, h') /\
      decoded_to h t q h') ->
  decodes (S fuel) t.
Proof.
  intros H l Hs m h p size rest Hm Hf Hl W. destruct (shape_head l t Hs) as (w & c & r & -> & Bw & Hc & Hs').
  rewrite <- app_assoc in Hm. rewrite Zlen_app in *. pose proof (Zlen_nonneg w). pose proof (slack_one t). pose proof Hm as [Hp _].
  assert (Hr : 1 <= Zlen (c :: r)) by (rewrite Zlen_cons; pose proof (Zlen_nonneg r); lia).
  assert (Hm' : region m (p + Zlen w) ((c :: r) ++ rest)) by (by apply (region_app_r m p _ w)).
  destruct (H c r Hc Hs' m h (p + Zlen w) (size - Zlen w) rest Hm' Hf ltac:(lia) W) as (q & h' & E & D). exists q, h'. split; [|done].
  cbn [parser_decode] in *. unfold NULL in *. rewrite (proj2 (Z.eqb_neq p 0)), (proj2 (Z.ltb_ge size 1)) by lia. cbn [orb].
  rewrite (clear_whitespace_spec m w c (r ++ rest) p size Hm Bw Hc) by lia. cbn [mbind option_bind].
  rewrite (proj2 (Z.eqb_neq (p + Zlen w) 0)), (proj2 (Z.ltb_ge (size - Zlen w) 1)) in E by lia. cbn [orb] in E.
  rewrite (clear_whitespace_spec m [] c (r ++ rest) (p + Zlen w) (size - Zlen w) Hm' (Forall_nil_2 _) Hc) in E by (change (Zlen (@nil Z)) with 0; lia).
  cbn [mbind option_bind] in E. rewrite p_nil in E. change (Zlen (@nil Z)) with 0 in E. rewrite Z.sub_0_r in E.
  destruct (load8 m (p + Zlen w)) as [x|]; [|done]. cbn [mbind option_bind] in *.
  destruct (if x =? 123 then _ else _) as [[[len q'] h'']|]; [|done]. cbn [mbind option_bind] in *. injection E as E -> ->.
  destruct (len <? 0); do 3 f_equal; lia.
Qed.
(** The first octet decides. *)
Lemma parser_first fuel m h p c rest size : region m p (c :: rest) -> ov_json_is_whitespace c = false -> 1 <= size ->
  parser_decode (S fuel) m h 0 p size = ('(len, value, h) ←
        (if c =? 0x7B then json_object_decode m (parser_decode fuel m) h 0 p size
         else if c =? 0x5B then json_array_decode m (parser_decode fuel m) h 0 p size
         else if c =? 0x22 then json_string_decode m h 0 p size
         else if (c =? 0x6E) || (c =? 0x66) || (c =? 0x74) then json_literal_decode m h 0 p size
         else if starts_number c then json_number_decode m h 0 p size
         else Some (-1, 0, h));
      Some (if len <? 0 then -1 else len, value, h)).
Proof.
  intros Hm Hc Hs. pose proof Hm as [Hp _]. cbn [parser_decode]. unfold NULL. rewrite (proj2 (Z.eqb_neq p 0)), (proj2 (Z.ltb_ge size 1)) by lia. cbn [orb].
  rewrite (clear_whitespace_spec m [] c rest p size Hm (Forall_nil_2 _) Hc) by (change (Zlen (@nil Z)) with 0; lia).
  cbn [mbind option_bind]. rewrite p_nil. change (Zlen (@nil Z)) with 0. rewrite Z.sub_0_r, (load8_at_0 m p c rest Hm). cbn [mbind option_bind].
  by rewrite Z.sub_diag.
Qed.
Lemma parser_some (r : decoded) n q h : r = Some (n, q, h) -> 0 <= n ->
  ('(len, value, h) ← r; Some (if len <? 0 then -1 else len, value, h)) = Some (n, q, h).
Proof. intros -> Hn. cbn [mbind option_bind]. by rewrite (proj2 (Z.ltb_ge n 0)). Qed.
Lemma scalar_decoded h t j : wf h -> (forall c, ~ kid t c) -> kids_once t ->
  (forall h' q w, h' !! q = Some w -> type w = t -> rep any_order h' q j) ->
  forall n n' r, r = Some (n', fresh_key h, <[fresh_key h := {| type := t; parent := 0 |}]> h) -> n' = n -> 0 <= n ->
  exists q h', ('(len, value, h) ← (r : decoded); Some (if len <? 0 then -1 else len, value, h)) = Some (n, q, h') /\ decoded_to h j q h'.
Proof.
  intros W Hk Ho Hr n n' r Er -> Hn. exists (fresh_key h), (<[fresh_key h := {| type := t; parent := 0 |}]> h).
  split; [by apply parser_some|]. by apply new_scalar.
Qed.
Lemma no_blanks w x c r : blanks w -> w ++ x = c :: r -> ov_json_is_whitespace c = false -> w = [] /\ x = c :: r.
Proof. intros Hw E Hc. destruct Hw as [|b w Hb _]; [done|]. injection E as -> _. unfold blank in Hb. congruence. Qed.
Lemma object_shape c r l : ov_json_is_whitespace c = false -> shape (c :: r) (T_object l) -> exists J, c = 123 /\ r = J ++ [125] /\
  (l = [] /\ blanks J \/ exists ms, l <> [] /\ J = join [44] ms /\ Forall2 member_shape ms l /\ NoDup l.*1) /\ balanced 123 125 J.
Proof.
  intros Hc H. inversion H as [w e Hw He El|w ms ? Hw Hl Hn HF El| | | | | | |]; subst.
  - apply (no_blanks w _ c r Hw) in El as [-> [= <- <-]]; [|done]. exists e. split; [done|]. split; [done|]. split; [by left|].
    apply balanced_blanks; [by left|done].
  - apply (no_blanks w _ c r Hw) in El as [-> [= <- <-]]; [|done]. exists (join [44] ms). split; [done|]. split; [done|]. split; [right; by exists ms|].
    apply balanced_join; [by left|]. clear -HF. induction HF as [|m kt ms l Hm _ IH]; [constructor|]. constructor; [|done].
    apply (member_balanced 123 125 m kt); [by left|done|]. intros lt Hlt. eapply shape_balanced; [by left|done].
Qed.
Lemma array_shape c r l : ov_json_is_whitespace c = false -> shape (c :: r) (T_array l) -> exists J, c = 91 /\ r = J ++ [93] /\
  (l = [] /\ blanks J \/ exists ms, l <> [] /\ J = join [44] ms /\ Forall2 item_shape ms l) /\ balanced 91 93 J.
Proof.
  intros Hc H. inversion H as [| |w e Hw He El|w ms ? Hw Hl HF El| | | | |]; subst.
  - apply (no_blanks w _ c r Hw) in El as [-> [= <- <-]]; [|done]. exists e. split; [done|]. split; [done|]. split; [by left|].
    apply balanced_blanks; [by right|done].
  - apply (no_blanks w _ c r Hw) in El as [-> [= <- <-]]; [|done]. exists (join [44] ms). split; [done|]. split; [done|]. split; [right; by exists ms|].
    apply balanced_join; [by right|]. clear -HF. induction HF as [|m t ms l Hm _ IH]; [constructor|]. constructor; [|done].
    destruct Hm as (lt & w3 & -> & B3 & Hs). apply balanced_app; [eapply shape_balanced; [by right|done]|apply balanced_blanks; [by right|done]].
Qed.
Lemma parser_decode_shape fuel : forall t, (height t <= fuel)%nat -> decodes fuel t.
Proof.
  induction fuel as [|fuel IH]; intros t Hh; [destruct t; cbn [height] in Hh; lia|]. apply decodes_trimmed.
  intros c r Hc Hs m h p size rest Hm Hf Hl W. pose proof (slack_one t).
  assert (Hr : 1 <= Zlen (c :: r)) by (rewrite Zlen_cons; pose proof (Zlen_nonneg r); lia).
  rewrite (parser_first fuel m h p c (r ++ rest) size) by (done || lia). destruct t as [l|l|s|b| | |]; cbn [slack] in Hl.
  - destruct (object_shape c r l Hc Hs) as (J & -> & -> & HJ & Hb). rewrite Zlen_cons, Zlen_app in *. change (Zlen [125]) with 1 in *.
    cbn [app] in Hm. rewrite <- app_assoc in Hm. destruct (object_decode_spec fuel m h p J l rest size Hm Hb ltac:(lia) W) as (q & h' & E & D).
    + destruct HJ as [|(ms & H1 & H2 & H3 & H4)]; [by left|]. right. exists ms. split; [done|]. split; [done|]. split; [done|]. split; [done|]. intros kt Hkt.
      apply IH. cbn [height] in Hh. apply (height_foldr (fun kt => height kt.2) l kt fuel Hkt). lia.
    + exists q, h'. split; [|done]. apply parser_some; [|lia]. cbn [Z.eqb Pos.eqb]. rewrite E. do 3 f_equal. lia.
  - destruct (array_shape c r l Hc Hs) as (J & -> & -> & HJ & Hb). rewrite Zlen_cons, Zlen_app in *. change (Zlen [93]) with 1 in *.
    cbn [app] in Hm. rewrite <- app_assoc in Hm. destruct (array_decode_spec fuel m h p J l rest size Hm Hb ltac:(lia) W) as (q & h' & E & D).
    + destruct HJ as [|(ms & H1 & H2 & H3)]; [by left|]. right. exists ms. split; [done|]. split; [done|]. split; [done|]. intros t Ht.
      apply IH. cbn [height] in Hh. apply (height_foldr height l t fuel Ht). lia.
    + exists q, h'. split; [|done]. apply parser_some; [|lia]. cbn [Z.eqb Pos.eqb]. rewrite E. do 3 f_equal. lia.
  - inversion Hs as [| | | |w ? Hw Ho El| | | |]; subst. apply (no_blanks w _ c r Hw) in El as [-> El]; [|done]. destruct (text_ok_spec s Ho) as (Hok & _).
    assert (Ec : c = 34) by (by injection El). change (QUOTE ++ string_bytes s ++ QUOTE = c :: r) in El. rewrite <- El in *. rewrite Ec.
    cbn [Z.eqb Pos.eqb]. rewrite !Zlen_app in *. change (Zlen QUOTE) with 1 in *.
    rewrite <- !app_assoc in Hm. eapply (scalar_decoded h (OV_JSON_STRING (Some s))); [done|by intros x []|done|by intros;
      eapply rep_string|apply (string_decode_spec m h p s rest size); [done|done|lia]|..];
      rewrite Zlen_cons, Zlen_app; change (Zlen QUOTE) with 1; change (Zlen (@nil Z)) with 0; lia.
  - inversion Hs as [| | | | |w ? Hw Hb El| | |]; subst. apply (no_blanks w _ c r Hw) in El as [-> El]; [|done].
    destruct (number_reads_spec b Hb) as (c' & l & En & Hst & _). rewrite El in En. injection En as <- <-. destruct Hf as (x & rest' & -> & Hx).
    rewrite <- El in *.
    assert (Hne : (c =? 123) = false /\ (c =? 91) = false /\ (c =? 34) = false /\ (c =? 110) || (c =? 102) || (c =? 116) = false).
    { unfold starts_number in Hst. destruct (Z.eqb_spec c 45) as [->|]; [done|]. cbn [orb] in Hst. apply andb_prop in Hst as [H1%Z.leb_le H2%Z.leb_le].
      rewrite !(proj2 (Z.eqb_neq c _)) by lia. done. }
    destruct Hne as (-> & -> & -> & ->). rewrite Hst.
    eapply (scalar_decoded h (OV_JSON_NUMBER b)); [done|by intros y []|done|by intros;
      eapply rep_number|apply (number_decode_spec m h p b x rest' size); [done..|lia]|done|apply Zlen_nonneg].
  - inversion Hs as [| | | | | |w Hw El| |]; subst. apply (no_blanks w _ c r Hw) in El as [-> El]; [|done].
    assert (Ec : c = 110) by (by injection El). rewrite <- El in *. rewrite Ec. cbn [Z.eqb Pos.eqb orb].
    eapply (scalar_decoded h OV_JSON_NULL); [done|by intros y []|done|by intros; eapply rep_null|apply (literal_decode_spec m h p NULL_TEXT
      OV_JSON_NULL rest size); [done|by left|lia]|done|apply Zlen_nonneg].
  - inversion Hs as [| | | | | | |w Hw El|]; subst. apply (no_blanks w _ c r Hw) in El as [-> El]; [|done].
    assert (Ec : c = 116) by (by injection El). rewrite <- El in *. rewrite Ec. cbn [Z.eqb Pos.eqb orb].
    eapply (scalar_decoded h OV_JSON_TRUE); [done|by intros y []|done|by intros; eapply rep_true|apply (literal_decode_spec m h p TRUE_TEXT
      OV_JSON_TRUE rest size); [done|right; by left|lia]|done|apply Zlen_nonneg].
  - inversion Hs as [| | | | | | | |w Hw El]; subst. apply (no_blanks w _ c r Hw) in El as [-> El]; [|done].
    assert (Ec : c = 102) by (by injection El). rewrite <- El in *. rewrite Ec. cbn [Z.eqb Pos.eqb orb].
    eapply (scalar_decoded h OV_JSON_FALSE); [done|by intros y []|done|by intros;
      eapply rep_false|apply (literal_decode_spec m h p FALSE_TEXT OV_JSON_FALSE rest size); [done|do 2 right; by left|lia]|done|apply Zlen_nonneg].
Qed.
