(* ===== verification/JsonRoundtrip.v ===== *)
(** * What the encoder writes, the decoder reads

    [json_config]: configurations that put nothing but blanks around the characters
    of JSON; the minimal and the default one are such. [text_shape]: the text of a
    [readable] tree under them is a text of the tree for the decoder.
    [json_text_roundtrip]: a value is written and read back to the same tree. *)
From S2P Require Import Prelude CMem Utf8 JsonNumber JsonGrammar Hashtable OvList Dict JsonValue.
From S2P Require Import JsonTree JsonOps JsonPaths JsonDecode JsonEncode JsonText JsonEncodeSpec JsonScan JsonDecodeSpec.

Definition bracket_config (o e : Z) (c : ov_json_value_config) : Prop :=
  (exists i, item_intro c = Some (o :: i) /\ blanks i) /\ (exists s, item_separator c = Some (44 :: s) /\ blanks s) /\
  blanks (str (item_out c)) /\ item_outro c = Some [e] /\ blanks (str (entry_indent c)).
Record json_config (cfg : ov_json_stringify_config) : Prop := {
  jc_encode : encode_config cfg;
  jc_ends : blanks (str (intro cfg)) /\ str (outro cfg) = [];
  jc_object : bracket_config 123 125 (object cfg);
  jc_array : bracket_config 91 93 (array cfg);
  jc_colon : exists a b, str (item_delimiter (object cfg)) = a ++ 58 :: b /\ blanks a /\ blanks b;
  jc_string : forall l, around (string_ cfg) l = QUOTE ++ l ++ QUOTE;
  jc_number : forall l, around (number cfg) l = l;
  jc_literal : forall l, around (literal cfg) l = l
}.
(** Strings, keys and numbers that the decoder keeps whole. *)
Fixpoint readable (t : jtree) : bool :=
  match t with
  | T_object l => bool_decide (NoDup l.*1) && forallb (fun kt => text_ok kt.1 && readable kt.2) l
  | T_array l => forallb readable l
  | T_string s => text_ok s
  | T_number b => number_reads b
  | _ => true
  end.

(** ** Texts with blanks around them *)

Lemma blanks_app a b : blanks a -> blanks b -> blanks (a ++ b).
Proof. apply Forall_app_2. Qed.
Lemma shape_blanks w l t : blanks w -> shape l t -> shape (w ++ l) t.
Proof. intros Hw H. inversion H; subst; rewrite app_assoc; constructor; try done; by apply blanks_app. Qed.
Lemma member_before w m kt : blanks w -> member_shape m kt -> member_shape (w ++ m) kt.
Proof.
  intros Hw (w1 & w2 & lt & w3 & -> & H1 & H). exists (w ++ w1), w2, lt, w3. split; [by rewrite <- app_assoc|]. split; [by apply blanks_app|done].
Qed.
Lemma member_behind w m kt : blanks w -> member_shape m kt -> member_shape (m ++ w) kt.
Proof.
  intros Hw (w1 & w2 & lt & w3 & -> & H1 & H2 & H3 & H). exists w1, w2, lt, (w3 ++ w). split; [by rewrite <- ?app_assoc, <- ?app_comm_cons, <- ?app_assoc|].
  split; [done|]. split; [done|]. split; [by apply blanks_app|done].
Qed.
Lemma item_before w m t : blanks w -> item_shape m t -> item_shape (w ++ m) t.
Proof. intros Hw (lt & w3 & -> & H3 & H). exists (w ++ lt), w3. split; [by rewrite app_assoc|]. split; [done|by apply shape_blanks]. Qed.
Lemma item_behind w m t : blanks w -> item_shape m t -> item_shape (m ++ w) t.
Proof. intros Hw (lt & w3 & -> & H3 & H). exists lt, (w3 ++ w). split; [by rewrite app_assoc|]. split; [by apply blanks_app|done]. Qed.

(** Blanks [a] before the first part, [s] before every other, [z] behind the last. *)
Fixpoint pad (a s z : list Z) (ms : list (list Z)) : list (list Z) :=
  match ms with [] => [] | [m] => [a ++ m ++ z] | m :: ms => (a ++ m) :: pad s s z ms end.
Lemma pad_join a s z ms : ms <> [] -> a ++ join (44 :: s) ms ++ z = join [44] (pad a s z ms).
Proof.
  revert a. induction ms as [|m ms IH]; intros a Hne; [done|]. destruct ms as [|m' ms]; [done|].
  change (pad a s z (m :: m' :: ms)) with ((a ++ m) :: pad s s z (m' :: ms)). specialize (IH s ltac:(done)).
  change (join (44 :: s) (m :: m' :: ms)) with (m ++ (44 :: s) ++ join (44 :: s) (m' :: ms)).
  assert (Ej : forall x y l, join [44] (x :: y :: l) = x ++ 44 :: join [44] (y :: l)) by done.
  assert (exists y l, pad s s z (m' :: ms) = y :: l) as (y & l & E) by (destruct ms; by eexists _, _).
  rewrite E in *. rewrite Ej, <- IH. rewrite <- !app_assoc. cbn [app]. by rewrite <- ?app_assoc.
Qed.
Lemma pad_shape {A} (P : list Z -> A -> Prop) a s z ms l :
  (forall w m t, blanks w -> P m t -> P (w ++ m) t) -> (forall w m t, blanks w -> P m t -> P (m ++ w) t) ->
  blanks a -> blanks s -> blanks z -> Forall2 P ms l -> Forall2 P (pad a s z ms) l.
Proof.
  intros Hb Ha Ba Bs Bz H. revert a Ba. induction H as [|m t ms l Hm HF IH]; intros a Ba; [constructor|]. destruct HF as [|m' t' ms l Hm' HF].
  - constructor; [by apply Hb, Ha|constructor].
  - constructor; [by apply Hb|by apply IH].
Qed.

(** ** Texts of readable trees *)

Section shape.
Context (cfg : ov_json_stringify_config) (Hcfg : json_config cfg).
Lemma indent_blanks o e c d : bracket_config o e c -> blanks (indent_of c d).
Proof using Type.
  intros (_ & _ & _ & _ & Hi). unfold indent_of. destruct (entry_depth c); [|constructor]. induction d as [|d IH]; [constructor|]. by apply blanks_app.
Qed.
Lemma container_join {A} (P : list Z -> A -> Prop) o e c d ms l : bracket_config o e c ->
  (forall w m t, blanks w -> P m t -> P (w ++ m) t) -> (forall w m t, blanks w -> P m t -> P (m ++ w) t) -> ms <> [] -> Forall2 P ms l ->
  exists w ms', container c d ms = w ++ o :: join [44] ms' ++ [e] /\ blanks w /\ Forall2 P ms' l.
Proof using Type.
  intros Hc Hb Ha Hne H. pose proof (indent_blanks o e c d Hc) as Bi. destruct Hc as ((i & Ei & Bin) & (s & Es & Bs) & Bo & Eo & _).
  exists (indent_of c d), (pad i s (str (item_out c) ++ indent_of c d) ms). split; [|split; [done|]].
  - unfold container. rewrite Ei, Es, Eo. cbn [str default from_option id]. rewrite <- (pad_join i s _ ms Hne). by rewrite <- ?app_comm_cons, <- ?app_assoc.
  - apply pad_shape; try done. by apply blanks_app.
Qed.
Lemma member_text_shape d k t l : text_ok k = true -> shape l t -> member_shape (member_intro cfg d k (filled t) ++ l) (k, t).
Proof using Hcfg.
  intros Hk H. destruct (jc_colon cfg Hcfg) as (a & b & Ec & Ba & Bb). pose proof (text_no_nul k Hk) as Hn.
  set (nl := if entry_depth (object cfg) && filled t then [10] else []).
  exists (indent_of (object cfg) (S d)), a, ((b ++ nl) ++ l), []. repeat split; try done.
  - unfold member_intro. rewrite Ec, c_octets_id by done. cbn [fst]. fold nl. by rewrite app_nil_r, <- ?app_assoc, <- ?app_comm_cons, <- ?app_assoc.
  - apply (indent_blanks 123 125), jc_object, Hcfg.
  - constructor.
  - apply shape_blanks; [|done]. apply blanks_app; [done|]. unfold nl. case_match; by repeat constructor.
Qed.
Lemma text_shape t : forall d, readable t = true -> shape (text cfg d t) t.
Proof using Hcfg.
  induction t as [l IH|l IH|s|b| | |] using jtree_ind; intros d H.
  - destruct l as [|kt l]; [by apply (sh_no_members [] []); constructor|]. cbn [readable] in H. apply andb_prop in H as [Hd%bool_decide_eq_true_1 Hr].
    rewrite forallb_forall in Hr. set (l0 := kt :: l) in *. assert (Hne : l0 <> []) by done. change (text cfg d (T_object l0)) with
      (container (object cfg) d ((fun kt => member_intro cfg d kt.1 (filled kt.2) ++ text cfg (S d) kt.2) <$> l0)). clearbody l0.
    destruct (container_join member_shape 123 125 (object cfg) d ((fun kt => member_intro cfg d kt.1 (filled kt.2) ++ text cfg (S d) kt.2) <$> l0) l0)
      as (w & ms & -> & Bw & HF); [apply jc_object, Hcfg|by apply member_before|by apply member_behind|by destruct l0| |by apply sh_object].
    apply Forall2_fmap_l, Forall_Forall2_diag. rewrite Forall_forall in IH |- *. intros [k t] Hkt.
    pose proof (Hr (k, t) ltac:(by apply list_elem_of_In)) as Hrt. apply andb_prop in Hrt as [Hk Hrt]. by apply member_text_shape; [|apply (IH (k, t))].
  - destruct l as [|t l]; [by apply (sh_no_items [] []); constructor|]. cbn [readable] in H. rewrite forallb_forall in H.
    set (l0 := t :: l) in *. assert (Hne : l0 <> []) by done. change (text cfg d (T_array l0)) with
      (container (array cfg) d ((fun t => item_indent cfg d t ++ text cfg (S d) t) <$> l0)). clearbody l0.
    destruct (container_join item_shape 91 93 (array cfg) d ((fun t => item_indent cfg d t ++ text cfg (S d) t) <$> l0) l0)
      as (w & ms & -> & Bw & HF); [apply jc_array, Hcfg|by apply item_before|by apply item_behind|by destruct l0| |by apply sh_array].
    apply Forall2_fmap_l, Forall_Forall2_diag. rewrite Forall_forall in IH |- *. intros x Hx. apply item_before.
    + unfold item_indent. destruct (filled x); [constructor|]. apply (indent_blanks 91 93), jc_array, Hcfg.
    + exists (text cfg (S d) x), []. split; [by rewrite app_nil_r|]. split; [constructor|]. apply IH; [done|]. by apply H, list_elem_of_In.
  - cbn [text readable] in *. rewrite (jc_string cfg Hcfg), c_octets_id by (by apply text_no_nul). by apply (sh_string [] s); [constructor|].
  - cbn [text readable] in *. rewrite (jc_number cfg Hcfg). by apply (sh_number [] b); [constructor|].
  - cbn [text]. rewrite (jc_literal cfg Hcfg). apply (sh_null []). constructor.
  - cbn [text]. rewrite (jc_literal cfg Hcfg). apply (sh_true []). constructor.
  - cbn [text]. rewrite (jc_literal cfg Hcfg). apply (sh_false []). constructor.
Qed.
Lemma full_text_shape t : readable t = true -> shape (full_text cfg t) t.
Proof using Hcfg.
  intros H. destruct (jc_ends cfg Hcfg) as [Hi Ho]. unfold full_text. rewrite Ho, app_nil_r. by apply shape_blanks, text_shape.
Qed.
End shape.

(** The members of an object in another order are as readable. *)
Lemma readable_sorted t : readable t = true -> readable (sorted t) = true.
Proof.
  induction t as [l IH|l IH|s|b| | |] using jtree_ind; intros H; try done.
  - change (sorted (T_object l)) with (T_object (sorted_members l)). cbn [readable] in *. apply andb_prop in H as [Hd%bool_decide_eq_true_1 Hr].
    rewrite forallb_forall in Hr. rewrite Forall_forall in IH. apply andb_true_intro. split.
    + apply bool_decide_eq_true_2. by rewrite sorted_members_perm, <- list_fmap_compose.
    + apply forallb_forall. intros [k t] (t0 & Hin & ->)%list_elem_of_In%sorted_members_elem.
      pose proof (Hr (k, t0) ltac:(by apply list_elem_of_In)) as [Hk Ht]%andb_prop. cbn [fst snd] in *. rewrite Hk. by apply (IH (k, t0)).
  - cbn [readable sorted] in *. rewrite forallb_forall in *. rewrite Forall_forall in IH.
    intros x (y & -> & Hy)%list_elem_of_In%list_elem_of_fmap. apply IH; [done|]. by apply H, list_elem_of_In.
Qed.
(** Every integer that a double holds is a number that is read back, the negative
    zero excepted. *)
Lemma number_reads_integral b n : 0 <= b < 2 ^ 64 -> is_integral b = true -> int64_of_double b = Some n -> b <> 2 ^ 63 -> number_reads b = true.
Proof.
  intros Hb Hi Hn Hz. assert (E : number_text b = print_int n) by (unfold number_text; by rewrite Hi, Hn).
  assert (Hd : exists s ds d, print_int n = s ++ ds ++ [d] /\ (s = [] \/ s = [45]) /\ Forall is_digit (ds ++ [d])).
  { assert (Hp : forall k, 0 <= k -> exists ds d, print_nat k = ds ++ [d] /\ Forall is_digit (ds ++ [d])).
    { intros k Hk. destruct (print_nat_spec k Hk) as (Hp & _ & Hl). destruct (print_nat k) as [|x l _] using rev_ind; [cbn in Hl; lia|]. by exists l, x. }
    unfold print_int. destruct (Z.ltb_spec n 0).
    - destruct (Hp (- n) ltac:(lia)) as (ds & d & -> & Hp'). exists [45], ds, d. split; [done|]. split; [by right|done].
    - destruct (Hp n ltac:(lia)) as (ds & d & -> & Hp'). exists [], ds, d. split; [done|]. split; [by left|done]. }
  destruct Hd as (s & ds & d & Ed & Hs & Hds). unfold number_reads. cbv zeta. rewrite E.
  assert (Hall : Forall (fun x => x = 45 \/ is_digit x) (print_int n)).
  { rewrite Ed. apply Forall_app_2; [destruct Hs as [->| ->]; repeat constructor|]. eapply Forall_impl; [exact Hds|]. by right. }
  assert (Hno : forall x, x ∈ print_int n -> 45 <= x <= 57).
  { intros x Hx. rewrite Forall_forall in Hall. destruct (Hall x Hx) as [->|Hx']; [lia|]. unfold is_digit in Hx'. lia. }
  assert (Hbal : forall o c, 57 < o -> 57 < c -> balanced o c (print_int n)).
  { intros o c Ho Hc. apply balanced_none, Forall_forall. intros x Hx%Hno. lia. }
  rewrite !andb_true_iff, !bool_decide_eq_true, forallb_forall. split; [split; [split; [split; [split|]|]|]|]; try (by apply Hbal).
  - rewrite Ed. destruct Hs as [->| ->]; [|done]. destruct ds as [|x ds]; cbn [app List.hd] in *; apply Forall_cons in Hds as [Hx _]; unfold is_digit in Hx; unfold starts_number;
      rewrite (proj2 (Z.leb_le _ _)), (proj2 (Z.leb_le _ _)) by lia; apply orb_true_r.
  - rewrite Ed, app_assoc, List.last_last. apply Forall_app in Hds as [_ Hds]. by apply Forall_inv in Hds.
  - intros c Hc. apply bool_decide_eq_true_2. apply integral_survives; try done. unfold is_stop. apply list_elem_of_In in Hc. by apply bool_decide_eq_true_2.
  - intros H0%Hno. lia.
Qed.

(** ** Decoding a text in memory *)

Lemma strn_octets_nul m p l rest n : region m p (l ++ 0 :: rest) -> 0 ∉ l -> (length l < n)%nat -> strn_octets m p n = Some l.
Proof.
  revert p n. induction l as [|c l IH]; intros p [|n] Hm Hn Hl; cbn [length] in Hl; try lia; cbn [strn_octets app] in *.
  - by rewrite (load8_at_0 m p 0 rest Hm).
  - apply not_elem_of_cons in Hn as [Hc Hn]. rewrite (load8_at_0 m p c _ Hm). cbn [mbind option_bind]. rewrite (proj2 (Z.eqb_neq c 0)) by congruence.
    rewrite (IH (p + 1) n); [done|by apply (region_tail m p c)|done|lia].
Qed.
Definition is_number (t : jtree) : bool := match t with T_number _ => true | _ => false end.
Lemma follows_any t rest : is_number t = false -> follows t rest /\ slack t = 0.
Proof. by destruct t. Qed.
Lemma decode_text m h string l t : wf h -> region m string (l ++ [0]) -> shape l t -> is_number t = false -> Zlen l < 2 ^ 64 ->
  exists q h', ov_json_decode m h string = Some (q, h') /\ decoded_to h t q h'.
Proof.
  intros W Hm Hs Ht Hl. pose proof Hm as [Hp _]. pose proof (turns_enough m string _ Hm) as Hf. rewrite length_app in Hf.
  destruct (follows_any t [0] Ht) as [Hfo Hsl]. pose proof (shape_height t l Hs).
  destruct (parser_decode_shape (turns_of m) t ltac:(lia) l Hs m h string (Zlen l) [0] Hm Hfo ltac:(lia) W) as (q & h' & E & D).
  exists q, h'. split; [|done]. unfold ov_json_decode, NULL. rewrite (proj2 (Z.eqb_neq string 0)) by lia.
  rewrite (strn_octets_nul m string l []); [|done|by eapply shape_no_nul|cbn in Hf; lia]. cbn [mbind option_bind].
  unfold ov_json_parser_decode. rewrite E. cbn [mbind option_bind]. by rewrite Z.eqb_refl.
Qed.

(** ** Round trip *)

(** The texts of a tree: tokens as the encoder writes them - the raw octets of
    strings and keys, numbers in the form [%.15g] or as integers - with blanks
    wherever JSON allows them. No condition on strings and numbers: [readable]. *)
Section spaced.
Local Unset Elimination Schemes.
Inductive spaced : list Z -> jtree -> Prop :=
  | sp_no_members w e : blanks w -> blanks e -> spaced (w ++ 123 :: e ++ [125]) (T_object [])
  | sp_object w ms l : blanks w -> l <> [] ->
      Forall2 (fun m kt => exists w1 w2 lt w3, m = w1 ++ QUOTE ++ string_bytes kt.1 ++ QUOTE ++ w2 ++ 58 :: lt ++ w3 /\
        blanks w1 /\ blanks w2 /\ blanks w3 /\ spaced lt kt.2) ms l ->
      spaced (w ++ 123 :: join [44] ms ++ [125]) (T_object l)
  | sp_no_items w e : blanks w -> blanks e -> spaced (w ++ 91 :: e ++ [93]) (T_array [])
  | sp_array w ms l : blanks w -> l <> [] -> Forall2 (fun m t => exists lt w3, m = lt ++ w3 /\ blanks w3 /\ spaced lt t) ms l ->
      spaced (w ++ 91 :: join [44] ms ++ [93]) (T_array l)
  | sp_string w s : blanks w -> spaced (w ++ QUOTE ++ string_bytes s ++ QUOTE) (T_string s)
  | sp_number w b : blanks w -> spaced (w ++ number_text b) (T_number b)
  | sp_null w : blanks w -> spaced (w ++ NULL_TEXT) T_null
  | sp_true w : blanks w -> spaced (w ++ TRUE_TEXT) T_true
  | sp_false w : blanks w -> spaced (w ++ FALSE_TEXT) T_false.
End spaced.
Lemma Forall2_members {A B} (P Q : A -> B -> Prop) l k :
  Forall2 P l k -> (forall x y, y ∈ k -> P x y -> Q x y) -> Forall2 Q l k.
Proof.
  induction 1 as [|x y l k Hxy _ IH]; intros H; constructor; [apply H; [by left|done]|].
  apply IH. intros x' y' Hy. apply H. by right.
Qed.
Lemma spaced_shape t : forall l, spaced l t -> readable t = true -> shape l t.
Proof.
  induction t as [l IH|l IH|s|b| | |] using jtree_ind; intros x H Hr; cbn [readable] in Hr.
  - inversion H as [|w ms ? Hw Hne HF| | | | | | |]; subst; [by constructor|].
    apply andb_prop in Hr as [Hd%bool_decide_eq_true_1 Hr]. rewrite forallb_forall in Hr.
    apply sh_object; [done..|]. rewrite Forall_forall in IH. eapply Forall2_members; [exact HF|].
    intros m kt Hin (w1 & w2 & lt & w3 & -> & B1 & B2 & B3 & Hs). exists w1, w2, lt, w3. do 4 (split; [done|]).
    pose proof (Hr kt ltac:(by apply list_elem_of_In)) as Hk. apply andb_prop in Hk as [Hk Hrt]. split; [done|]. by apply (IH kt Hin).
  - inversion H as [| | |w ms ? Hw Hne HF| | | | |]; subst; [by constructor|]. rewrite forallb_forall in Hr.
    apply sh_array; [done..|]. rewrite Forall_forall in IH. eapply Forall2_members; [exact HF|].
    intros m t Hin (lt & w3 & -> & B3 & Hs). exists lt, w3. do 2 (split; [done|]).
    apply (IH t Hin); [done|]. by apply Hr, list_elem_of_In.
  - inversion H; subst. by constructor.
  - inversion H; subst. by constructor.
  - inversion H; subst. by constructor.
  - inversion H; subst. by constructor.
  - inversion H; subst. by constructor.
Qed.
Lemma shape_spaced t : forall l, shape l t -> spaced l t.
Proof.
  induction t as [l IH|l IH|s|b| | |] using jtree_ind; intros x H.
  - inversion H as [|w ms ? Hw Hne Hd HF| | | | | | |]; subst; [by constructor|].
    apply sp_object; [done..|]. rewrite Forall_forall in IH. eapply Forall2_members; [exact HF|].
    intros m kt Hin (w1 & w2 & lt & w3 & -> & B1 & B2 & B3 & _ & Hs). exists w1, w2, lt, w3. do 4 (split; [done|]). by apply (IH kt Hin).
  - inversion H as [| | |w ms ? Hw Hne HF| | | | |]; subst; [by constructor|].
    apply sp_array; [done..|]. rewrite Forall_forall in IH. eapply Forall2_members; [exact HF|].
    intros m t Hin (lt & w3 & -> & B3 & Hs). exists lt, w3. do 2 (split; [done|]). by apply (IH t Hin).
  - inversion H; subst. by constructor.
  - inversion H; subst. by constructor.
  - inversion H; subst. by constructor.
  - inversion H; subst. by constructor.
  - inversion H; subst. by constructor.
Qed.

(** C40: the text of a tree, with blanks wherever JSON allows them, is decoded to a
    new value that represents the tree, whatever stands behind the text, and the
    other values of the heap stay as they were - for trees the decoder can read
    ([readable]): the keys of an object are distinct; strings and keys are valid
    raw JSON content, not empty, with brackets that close each other and without
    an escaped backslash at their end; numbers are those [%.15g] does not round.
    A number needs a character of JSON behind it that ends it ([follows]). *)
Theorem json_decode_exact m h string length l rest t : wf h -> region m string (l ++ rest) -> spaced l t -> readable t = true ->
  follows t rest -> Zlen l + slack t <= length < 2 ^ 64 ->
  exists q h', ov_json_value_from_string m h string length = Some (q, h') /\ q <> NULL /\ decoded_to h t q h'.
Proof.
  intros W Hm Hs0 Hr0 Hf Hl. pose proof (spaced_shape t l Hs0 Hr0) as Hs. pose proof Hm as [Hp _]. pose proof (turns_enough m string _ Hm) as Hn. rewrite length_app in Hn.
  pose proof (shape_height t l Hs). pose proof (slack_one t). pose proof (Zlen_nonneg l).
  destruct (parser_decode_shape (turns_of m) t ltac:(lia) l Hs m h string length rest Hm Hf Hl W) as (q & h' & E & D).
  destruct (dt_root _ _ _ _ D) as (v & Hq & _). pose proof (live_nonzero h' q v (jw_zero _ _ (dt_wf _ _ _ _ D)) Hq) as Hne.
  exists q, h'. split; [|by split]. unfold ov_json_value_from_string, NULL.
  destruct (shape_head l t Hs) as (w & c & r & El & _). rewrite El, Zlen_app, Zlen_cons in Hl. pose proof (Zlen_nonneg w). pose proof (Zlen_nonneg r).
  rewrite (proj2 (Z.eqb_neq string 0)), (proj2 (Z.ltb_ge length 1)) by lia. cbn [orb]. unfold ov_json_parser_decode. rewrite E. cbn [mbind option_bind].
  by rewrite (proj2 (Z.ltb_ge (Zlen l) 0)).
Qed.
(** {"on":true,"gain":[1,-2.5,null],"user":{"name":"Joe"}} *)
Definition demo_settings : jtree :=
  T_object [("on", T_true); ("gain", T_array [T_number 0x3FF0000000000000; T_number 0xC004000000000000; T_null]);
            ("user", T_object [("name", T_string "Joe")])]%string.
Definition demo_json : list Z := full_text ov_json_config_stringify_default demo_settings.
Definition demo_memory (rest : list Z) : mem := write ∅ 64 (demo_json ++ rest).
Ltac json_cfg := split; [|split; repeat constructor|repeat split; try (eexists; split; [reflexivity|]); repeat constructor..|
  exists [], []; repeat split; repeat constructor|done|intros l; apply app_nil_r|intros l; apply app_nil_r].
Lemma json_config_default : json_config ov_json_config_stringify_default.
Proof. json_cfg. apply encode_config_default. Qed.
Lemma json_config_minimal : json_config ov_json_config_stringify_minimal.
Proof. json_cfg. apply encode_config_minimal. Qed.
Lemma demo_readable : readable demo_settings = true.
Proof. vm_compute. reflexivity. Qed.
Lemma demo_region rest : region (demo_memory rest) 64 (demo_json ++ rest).
Proof. exact (region_write ∅ 64 (demo_json ++ rest) ltac:(lia)). Qed.
Lemma json_decode_exact_witness : exists q h', ov_json_value_from_string (demo_memory [93; 93]) demo_value.2 64 (Zlen demo_json + 1) = Some (q, h') /\
  q <> NULL /\ decoded_to demo_value.2 demo_settings q h'.
Proof.
  apply (json_decode_exact _ _ _ _ demo_json [93; 93]); [exact demo_wf|apply demo_region|
    apply shape_spaced, full_text_shape; [exact json_config_default|exact demo_readable]|exact demo_readable|done|].
  vm_compute. by split.
Defined.

(** C26: a JSON value that is written with a configuration that adds nothing but
    blanks is read back as a new value that represents the same tree. This holds of
    every value, a number alone excepted ([lone_number_refused]), that is
    [encodable] and [readable]: the strings and keys are valid raw JSON content,
    not empty, with brackets that close each other and without an escaped
    backslash at their end; the numbers are those [%.15g] does not round. *)
Theorem json_text_roundtrip cfg O h m p t h2 : json_config cfg -> json_wf O h -> rep any_order h p t -> encodable t = true ->
  readable t = true -> is_number t = false -> Zlen (full_text cfg (sorted t)) < 2 ^ 63 -> wf h2 ->
  exists string m' q h', ov_json_value_to_string_with_config m h p cfg = Some (string, m') /\
    ov_json_decode m' h2 string = Some (q, h') /\ q <> NULL /\ h2 !! q = None /\ is_root h' q /\ rep any_order h' q t /\
    forall x v, h2 !! x = Some v -> h' !! x = Some v.
Proof.
  intros Hcfg W H He Hr Ht Hl W2. destruct (value_to_string cfg O h m p t (jc_encode cfg Hcfg) W H He Hl) as (string & m' & E & _ & Hm & _).
  exists string, m'. destruct (decode_text m' h2 string (full_text cfg (sorted t)) (sorted t)) as (q & h' & E' & D); try done.
  - by apply full_text_shape, readable_sorted.
  - by destruct t.
  - lia.
  - destruct (dt_root _ _ _ _ D) as (v & Hq & Hv). exists q, h'. split; [done|]. split; [done|]. split; [|split; [apply (dt_new _ _ _ _ D)|split; [by exists v|split; [|apply (dt_keep _ _ _ _ D)]]]].
    + eapply live_nonzero; [apply (jw_zero _ _ (dt_wf _ _ _ _ D))|done].
    + apply rep_unsorted, (dt_rep _ _ _ _ D).
Qed.
Lemma json_text_roundtrip_witness : exists h p string m' q h', ov_json_decode (demo_memory [0]) ∅ 64 = Some (p, h) /\
  ov_json_value_to_string_with_config ∅ h p ov_json_config_stringify_minimal = Some (string, m') /\
  ov_json_decode m' h string = Some (q, h') /\ q <> p /\ rep any_order h' p demo_settings /\ rep any_order h' q demo_settings.
Proof.
  destruct (decode_text (demo_memory [0]) ∅ 64 demo_json demo_settings) as (p & h & E & D);
    [exact wf_empty|apply demo_region|apply full_text_shape; [exact json_config_default|exact demo_readable]|done|by vm_compute|].
  destruct (json_text_roundtrip ov_json_config_stringify_minimal none h ∅ p demo_settings h) as (string & m' & q & h' & E1 & E2 & _ & Hq & _ & Hr & Hk);
    [exact json_config_minimal|apply (dt_wf _ _ _ _ D)|apply (dt_rep _ _ _ _ D)|by vm_compute|exact demo_readable|done|by vm_compute|apply (dt_wf _ _ _ _ D)|].
  exists h, p, string, m', q, h'. split; [done|]. split; [done|]. split; [done|].
  pose proof (dt_root _ _ _ _ D) as (v & Hp & _). split; [intros ->; congruence|]. split; [|done].
  apply (rep_frame _ h); [apply (dt_rep _ _ _ _ D)|]. intros x w _ Hw. exists w. split; [by apply Hk|done].
Defined.

(** ** What is not read back *)

(** Texts with apostrophes for quotation marks; whether a text is refused. *)
Definition json_text (s : string) : list Z := (fun c => if c =? 39 then 34 else c) <$> string_bytes s.
Definition decoded_text (l : list Z) : option (Z * json_heap) := ov_json_decode (write ∅ 16 (l ++ [0])) ∅ 16.
Definition refused (s : string) : Prop := fst <$> decoded_text (json_text s) = Some NULL.
(** A bracket in a string counts as one. *)
Example brace_in_string_refused : refused "{'a':'}'}".
Proof. vm_compute. reflexivity. Qed.
Example empty_string_not_read : refused "{'a':''}".
Proof. vm_compute. reflexivity. Qed.
Example last_backslash_refused : refused "['a\\']".
Proof. vm_compute. reflexivity. Qed.
Example lone_number_refused : refused "5".
Proof. vm_compute. reflexivity. Qed.
(** Every key makes the rest of the text seem one octet longer: a string that is not
    closed is looked for behind the end of the text. *)
Example keys_overrun : decoded_text (json_text "{'a':1,'b':1,'c':'}") = None.
Proof. vm_compute. reflexivity. Qed.
(** Texts that are not JSON: the tree that is read. *)
Definition first_items (s : string) : option (list ov_json_t) :=
  '(p, h) ← decoded_text (json_text s); v ← h !! p;
  match type v with OV_JSON_ARRAY l => mapM (fun c => type <$> h !! c) l | _ => None end.
Example open_list_read : first_items "[1,]" = Some [OV_JSON_NUMBER 0x3FF0000000000000].
Proof. vm_compute. reflexivity. Qed.
Example hexadecimal_read : first_items "[0x10,-inf]" = Some [OV_JSON_NUMBER 0x4030000000000000; OV_JSON_NUMBER 0xFFF0000000000000].
Proof. vm_compute. reflexivity. Qed.
(** One third has no text of 15 digits. *)
Example third_not_read : number_reads 0x3FD5555555555555 = false.
Proof. vm_compute. reflexivity. Qed.
