(* ===== verification/Permission.v ===== *)
(** * Permissions and participation states

    src/lib/ov_vocs_db/src/ov_vocs_permission.c, and ov_participation_state.c of
    ov_base. A string is [None] for [NULL]. *)
From S2P Require Import Prelude Hashtable OvList Dict JsonValue.

(** ** The code *)

Definition OV_KEY_RECV : string := "recv".
Definition OV_KEY_SEND : string := "send".
Definition OV_KEY_NONE : string := "none".
Definition OV_KEY_PTT : string := "ptt".

Inductive ov_vocs_permission := OV_VOCS_NONE | OV_VOCS_RECV | OV_VOCS_SEND.
#[export] Instance ov_vocs_permission_eq_dec : EqDecision ov_vocs_permission.
Proof. solve_decision. Defined.

Definition ov_vocs_permission_to_string (self : ov_vocs_permission) : string :=
  match self with OV_VOCS_RECV => OV_KEY_RECV | OV_VOCS_SEND => OV_KEY_SEND | OV_VOCS_NONE => OV_KEY_NONE end.
Definition ov_vocs_permission_from_string (str : option string) : ov_vocs_permission :=
  match str with
  | None => OV_VOCS_NONE
  | Some str =>
      if negb (String.length str =? 4)%nat then OV_VOCS_NONE
      else if bool_decide (str = OV_KEY_RECV) then OV_VOCS_RECV
      else if bool_decide (str = OV_KEY_SEND) then OV_VOCS_SEND
      else OV_VOCS_NONE
  end.
Definition ov_vocs_permission_from_json (h : json_heap) (val : Z) : option ov_vocs_permission :=
  s ← ov_json_string_get h val; Some (ov_vocs_permission_from_string s).
Definition ov_vocs_permission_granted (reference check : ov_vocs_permission) : bool :=
  match check with
  | OV_VOCS_NONE => true
  | OV_VOCS_RECV => negb (bool_decide (OV_VOCS_NONE = reference))
  | OV_VOCS_SEND => bool_decide (OV_VOCS_SEND = reference)
  end.

Inductive ov_participation_state :=
  | OV_PARTICIPATION_STATE_NONE | OV_PARTICIPATION_STATE_RECV | OV_PARTICIPATION_STATE_RECV_OFF
  | OV_PARTICIPATION_STATE_SEND | OV_PARTICIPATION_STATE_SEND_OFF
  | OV_PARTICIPATION_STATE_PTT | OV_PARTICIPATION_STATE_PTT_OFF.
#[export] Instance ov_participation_state_eq_dec : EqDecision ov_participation_state.
Proof. solve_decision. Defined.

Definition ov_participation_state_to_string (state : ov_participation_state) : string :=
  match state with
  | OV_PARTICIPATION_STATE_RECV => OV_KEY_RECV
  | OV_PARTICIPATION_STATE_RECV_OFF => OV_KEY_RECV +:+ "_OFF"
  | OV_PARTICIPATION_STATE_SEND => OV_KEY_SEND
  | OV_PARTICIPATION_STATE_SEND_OFF => OV_KEY_SEND +:+ "_OFF"
  | OV_PARTICIPATION_STATE_PTT_OFF => OV_KEY_PTT +:+ "_OFF"
  | OV_PARTICIPATION_STATE_PTT => OV_KEY_PTT
  | OV_PARTICIPATION_STATE_NONE => OV_KEY_NONE
  end.
Definition ov_participation_state_from_string (state : option string) : ov_participation_state :=
  let ov_string_equal s := bool_decide (state = Some s) in
  if ov_string_equal OV_KEY_SEND then OV_PARTICIPATION_STATE_SEND
  else if ov_string_equal (OV_KEY_SEND +:+ "_OFF") then OV_PARTICIPATION_STATE_SEND_OFF
  else if ov_string_equal OV_KEY_RECV then OV_PARTICIPATION_STATE_RECV_OFF
  else if ov_string_equal (OV_KEY_RECV +:+ "_OFF") then OV_PARTICIPATION_STATE_RECV_OFF
  else if ov_string_equal (OV_KEY_PTT +:+ "_OFF") then OV_PARTICIPATION_STATE_PTT_OFF
  else if ov_string_equal OV_KEY_PTT then OV_PARTICIPATION_STATE_PTT
  else OV_PARTICIPATION_STATE_NONE.

(** ** Properties *)

(** Permissions are ordered: none, receive, send. *)
Definition permission_rank (p : ov_vocs_permission) : Z :=
  match p with OV_VOCS_NONE => 0 | OV_VOCS_RECV => 1 | OV_VOCS_SEND => 2 end.
Lemma permission_string_roundtrip p : ov_vocs_permission_from_string (Some (ov_vocs_permission_to_string p)) = p.
Proof. by destruct p. Qed.
Lemma permission_granted_iff reference check :
  ov_vocs_permission_granted reference check = (permission_rank check <=? permission_rank reference).
Proof. by destruct reference, check. Qed.
Lemma permission_from_string_exact s p : p <> OV_VOCS_NONE ->
  ov_vocs_permission_from_string (Some s) = p <-> s = ov_vocs_permission_to_string p.
Proof.
  intros Hp. split; [|intros ->; apply permission_string_roundtrip]. unfold ov_vocs_permission_from_string.
  destruct (negb _); [congruence|]. repeat case_bool_decide; intros <-; done.
Qed.
(** Every state but the plain receiving one is read back from its name; that
    one is read as switched off. *)
Lemma participation_state_roundtrip s :
  ov_participation_state_from_string (Some (ov_participation_state_to_string s)) =
    match s with OV_PARTICIPATION_STATE_RECV => OV_PARTICIPATION_STATE_RECV_OFF | s => s end.
Proof. by destruct s. Qed.
