(* ===== verification/VocsDb.v ===== *)
(** * The domain database (src/lib/ov_vocs_db/src/ov_vocs_db.c)

    Domains hold projects, users, roles and loops, projects hold users, roles and
    loops; all of them are JSON objects of one tree ([data_domains]), and five
    dictionaries lead from the id of an entity to its node. A second tree
    ([data_state]) keeps the state of the loops of a user.

    An operation takes the heap of the JSON values and the database and returns
    both. The outcome of [ov_thread_lock_try_lock] is the argument [lock];
    unlocking a lock that is held succeeds. [None] is an access to a value that is
    gone, or an [OV_ASSERT] that fails. Ids are not [NULL]. *)
From S2P Require Import Prelude Hashtable OvList Dict JsonValue JsonPointer Permission.

Definition OV_KEY_ID : string := "id".
Definition OV_KEY_ADMIN : string := "admin".
Definition OV_KEY_STATE : string := "state".
Definition OV_KEY_USER : string := "user".
Definition OV_KEY_USERS : string := "users".
Definition OV_KEY_ROLE : string := "role".
Definition OV_KEY_ROLES : string := "roles".
Definition OV_KEY_LOOP : string := "loop".
Definition OV_KEY_LOOPS : string := "loops".
Definition OV_KEY_PROJECT : string := "project".
Definition OV_KEY_PROJECTS : string := "projects".
Definition OV_KEY_DOMAIN : string := "domain".

(** ** The code: data *)

Inductive ov_vocs_db_scope := OV_VOCS_DB_SCOPE_DOMAIN | OV_VOCS_DB_SCOPE_PROJECT.
Inductive ov_vocs_db_entity :=
  | OV_VOCS_DB_ENTITY_ERROR | OV_VOCS_DB_DOMAIN | OV_VOCS_DB_PROJECT | OV_VOCS_DB_LOOP | OV_VOCS_DB_ROLE | OV_VOCS_DB_USER.
#[export] Instance ov_vocs_db_entity_eq_dec : EqDecision ov_vocs_db_entity.
Proof. solve_decision. Defined.
Record ov_vocs_db := {
  domains : ov_dict; projects : ov_dict; users : ov_dict; roles : ov_dict; loops : ov_dict;
  data_domains : Z; data_state : Z
}.
Abbreviation db_state := (json_heap * ov_vocs_db)%type.

Definition with_domains (db : ov_vocs_db) (d : ov_dict) : ov_vocs_db :=
  {| domains := d; projects := projects db; users := users db; roles := roles db; loops := loops db;
     data_domains := data_domains db; data_state := data_state db |}.
Definition with_projects (db : ov_vocs_db) (d : ov_dict) : ov_vocs_db :=
  {| domains := domains db; projects := d; users := users db; roles := roles db; loops := loops db;
     data_domains := data_domains db; data_state := data_state db |}.
Definition with_users (db : ov_vocs_db) (d : ov_dict) : ov_vocs_db :=
  {| domains := domains db; projects := projects db; users := d; roles := roles db; loops := loops db;
     data_domains := data_domains db; data_state := data_state db |}.
Definition with_roles (db : ov_vocs_db) (d : ov_dict) : ov_vocs_db :=
  {| domains := domains db; projects := projects db; users := users db; roles := d; loops := loops db;
     data_domains := data_domains db; data_state := data_state db |}.
Definition with_loops (db : ov_vocs_db) (d : ov_dict) : ov_vocs_db :=
  {| domains := domains db; projects := projects db; users := users db; roles := roles db; loops := d;
     data_domains := data_domains db; data_state := data_state db |}.
Definition with_data_domains (db : ov_vocs_db) (p : Z) : ov_vocs_db :=
  {| domains := domains db; projects := projects db; users := users db; roles := roles db; loops := loops db;
     data_domains := p; data_state := data_state db |}.
Definition with_data_state (db : ov_vocs_db) (p : Z) : ov_vocs_db :=
  {| domains := domains db; projects := projects db; users := users db; roles := roles db; loops := loops db;
     data_domains := data_domains db; data_state := p |}.

Definition ov_vocs_db_entity_from_string (string : option string) : ov_vocs_db_entity :=
  match string with
  | None => OV_VOCS_DB_ENTITY_ERROR
  | Some string =>
      if bool_decide (string = OV_KEY_USER) then OV_VOCS_DB_USER
      else if bool_decide (string = OV_KEY_ROLE) then OV_VOCS_DB_ROLE
      else if bool_decide (string = OV_KEY_LOOP) then OV_VOCS_DB_LOOP
      else if bool_decide (string = OV_KEY_PROJECT) then OV_VOCS_DB_PROJECT
      else if bool_decide (string = OV_KEY_DOMAIN) then OV_VOCS_DB_DOMAIN
      else OV_VOCS_DB_ENTITY_ERROR
  end.
(** The dictionaries have 255 slots; there are no trees yet. *)
Definition ov_vocs_db_create : option ov_vocs_db :=
  let dict_config := ov_dict_string_key_config 255 in
  d ← ov_dict_create dict_config; p ← ov_dict_create dict_config; u ← ov_dict_create dict_config;
  r ← ov_dict_create dict_config; l ← ov_dict_create dict_config;
  Some {| domains := d; projects := p; users := u; roles := r; loops := l; data_domains := 0; data_state := 0 |}.
Definition index_clear (self : ov_vocs_db) : ov_vocs_db :=
  let clear d := (impl_dict_clear d).2 in
  {| domains := clear (domains self); projects := clear (projects self); users := clear (users self);
     roles := clear (roles self); loops := clear (loops self);
     data_domains := data_domains self; data_state := data_state self |}.
Definition vocs_db_clear (h : json_heap) (self : ov_vocs_db) : option db_state :=
  let self := index_clear self in
  '(p, h) ← ov_json_value_free h (data_domains self); let self := with_data_domains self p in
  '(p, h) ← ov_json_value_free h (data_state self); Some (h, with_data_state self p).

(** ** The code: the index *)

Definition get_index_dict (self : ov_vocs_db) (entity : ov_vocs_db_entity) : option ov_dict :=
  match entity with
  | OV_VOCS_DB_DOMAIN => Some (domains self) | OV_VOCS_DB_PROJECT => Some (projects self)
  | OV_VOCS_DB_LOOP => Some (loops self) | OV_VOCS_DB_ROLE => Some (roles self)
  | OV_VOCS_DB_USER => Some (users self) | OV_VOCS_DB_ENTITY_ERROR => None
  end.
(** [ov_dict_get], [ov_dict_is_set] and [ov_dict_set] of a dictionary that may be
    [NULL]; the last one as a change of the database. *)
Definition index_get (index : option ov_dict) (id : string) : option Z :=
  match index with None => Some 0 | Some d => impl_dict_get d (Some id) end.
Definition index_is_set (index : option ov_dict) (id : string) : option bool :=
  match index with None => Some false | Some d => ov_dict_is_set d id end.
Definition set_index_dict (self : ov_vocs_db) (entity : ov_vocs_db_entity) (d : ov_dict) : ov_vocs_db :=
  match entity with
  | OV_VOCS_DB_DOMAIN => with_domains self d | OV_VOCS_DB_PROJECT => with_projects self d
  | OV_VOCS_DB_LOOP => with_loops self d | OV_VOCS_DB_ROLE => with_roles self d
  | OV_VOCS_DB_USER => with_users self d | OV_VOCS_DB_ENTITY_ERROR => self
  end.

Definition unindex_users (key : string) (val : Z) (self : ov_vocs_db) : option (bool * ov_vocs_db) :=
  '(_, d) ← impl_dict_del (users self) key; Some (true, with_users self d).
Definition unindex_roles (key : string) (val : Z) (self : ov_vocs_db) : option (bool * ov_vocs_db) :=
  '(_, d) ← impl_dict_del (roles self) key; Some (true, with_roles self d).
Definition unindex_loops (key : string) (val : Z) (self : ov_vocs_db) : option (bool * ov_vocs_db) :=
  '(_, d) ← impl_dict_del (loops self) key; Some (true, with_loops self d).
(** "If there is an [old], for each of its pairs". *)
Definition each_of {A} (h : json_heap) (old : Z) (a : A) (f : string -> Z -> A -> option (bool * A)) : option (bool * A) :=
  if old =? 0 then Some (true, a) else ov_json_object_for_each h old a f.
Definition unindex_project (st : db_state) (id : string) : option (bool * db_state) :=
  let '(h, self) := st in
  v ← impl_dict_get (projects self) (Some id);
  if v =? 0 then Some (true, (h, self)) else
  '(old, h) ← ov_json_get h v "/users"; '(ok, self) ← each_of h old self unindex_users;
  if negb ok then Some (false, (h, self)) else
  '(old, h) ← ov_json_get h v "/roles"; '(ok, self) ← each_of h old self unindex_roles;
  if negb ok then Some (false, (h, self)) else
  '(old, h) ← ov_json_get h v "/loops"; '(ok, self) ← each_of h old self unindex_loops;
  if negb ok then Some (false, (h, self)) else
  '(_, d) ← impl_dict_del (projects self) id; Some (true, (h, with_projects self d)).
Definition unindex_projects (key : string) (val : Z) (st : db_state) : option (bool * db_state) := unindex_project st key.
Definition unindex_domain (st : db_state) (id : string) : option (bool * db_state) :=
  let '(h, self) := st in
  domain ← ov_json_object_get h (data_domains self) id;
  if domain =? 0 then Some (true, (h, self)) else
  '(data, h) ← ov_json_get h domain "/projects"; '(ok, (h, self)) ← each_of h data (h, self) unindex_projects;
  if negb ok then Some (false, (h, self)) else
  '(data, h) ← ov_json_get h domain "/users"; '(ok, self) ← each_of h data self unindex_users;
  if negb ok then Some (false, (h, self)) else
  '(data, h) ← ov_json_get h domain "/roles"; '(ok, self) ← each_of h data self unindex_roles;
  if negb ok then Some (false, (h, self)) else
  '(data, h) ← ov_json_get h domain "/loops"; '(ok, self) ← each_of h data self unindex_loops;
  if negb ok then Some (false, (h, self)) else
  '(_, d) ← impl_dict_del (domains self) id; Some (true, (h, with_domains self d)).

Definition reindex (key : string) (val : Z) (dict : ov_dict) : option ov_dict := '(_, d) ← impl_dict_set dict key val; Some d.
Definition reindex_users (key : string) (val : Z) (db : ov_vocs_db) : option (bool * ov_vocs_db) :=
  d ← reindex key val (users db); Some (true, with_users db d).
Definition reindex_roles (key : string) (val : Z) (db : ov_vocs_db) : option (bool * ov_vocs_db) :=
  d ← reindex key val (roles db); Some (true, with_roles db d).
Definition reindex_loops (key : string) (val : Z) (db : ov_vocs_db) : option (bool * ov_vocs_db) :=
  d ← reindex key val (loops db); Some (true, with_loops db d).
Definition reindex_projects (key : string) (val : Z) (st : db_state) : option (bool * db_state) :=
  let '(h, db) := st in
  '(data, h) ← ov_json_get h val "/loops"; '(ok, db) ← each_of h data db reindex_loops;
  if negb ok then Some (false, (h, db)) else
  '(data, h) ← ov_json_get h val "/roles"; '(ok, db) ← each_of h data db reindex_roles;
  if negb ok then Some (false, (h, db)) else
  '(data, h) ← ov_json_get h val "/users"; '(ok, db) ← each_of h data db reindex_users;
  if negb ok then Some (false, (h, db)) else
  d ← reindex key val (projects db); Some (true, (h, with_projects db d)).
Definition reindex_domains (key : string) (val : Z) (st : db_state) : option (bool * db_state) :=
  let '(h, db) := st in
  '(data, h) ← ov_json_get h val "/loops"; '(ok, db) ← each_of h data db reindex_loops;
  if negb ok then Some (false, (h, db)) else
  '(data, h) ← ov_json_get h val "/roles"; '(ok, db) ← each_of h data db reindex_roles;
  if negb ok then Some (false, (h, db)) else
  '(data, h) ← ov_json_get h val "/users"; '(ok, db) ← each_of h data db reindex_users;
  if negb ok then Some (false, (h, db)) else
  '(data, h) ← ov_json_get h val "/projects"; '(ok, (h, db)) ← each_of h data (h, db) reindex_projects;
  if negb ok then Some (false, (h, db)) else
  d ← reindex key val (domains db); Some (true, (h, with_domains db d)).
Definition reindex_auth (st : db_state) : option (bool * db_state) :=
  ov_json_object_for_each st.1 (data_domains st.2) st reindex_domains.
Definition inject_auth (lock : bool) (st : db_state) (data : Z) : option (bool * db_state) :=
  if negb lock then Some (false, st) else
  let '(h, self) := st in
  '(p, h) ← ov_json_value_free h (data_domains self);
  let self := with_data_domains (with_data_domains self p) data in
  reindex_auth (h, index_clear self).

(** ** The code: entities *)

Definition db_delete (st : db_state) (id : string) (entity : ov_vocs_db_entity) : option (bool * db_state) :=
  src ← index_get (get_index_dict st.2 entity) id;
  if src =? 0 then Some (true, st) else
  '(result, (h, self)) ← match entity with
    | OV_VOCS_DB_DOMAIN => unindex_domain st id
    | OV_VOCS_DB_PROJECT => unindex_project st id
    | OV_VOCS_DB_LOOP => '(ok, self) ← unindex_loops id 0 st.2; Some (ok, (st.1, self))
    | OV_VOCS_DB_ROLE => '(ok, self) ← unindex_roles id 0 st.2; Some (ok, (st.1, self))
    | OV_VOCS_DB_USER => '(ok, self) ← unindex_users id 0 st.2; Some (ok, (st.1, self))
    | OV_VOCS_DB_ENTITY_ERROR => Some (false, st)
    end;
  v ← jload h src;
  if parent v =? 0 then None else
  '(ok, h) ← ov_json_object_del h (parent v) id;
  Some (result && ok, (h, self)).

Definition delete_in_parent (id item : string) (key : string) (val : Z) (h : json_heap) : option (bool * json_heap) :=
  v ← ov_json_value_cast h val;
  if v =? 0 then Some (false, h) else
  entry ← ov_json_object_get h v item;
  if entry =? 0 then Some (true, h) else ov_json_object_del h entry id.
(** [ov_dict_for_each] over a dictionary of the index. *)
Definition delete_in (index : ov_dict) (id item : string) (result : bool) (h : json_heap) : option (bool * json_heap) :=
  '(ok, h) ← impl_dict_for_each index h (delete_in_parent id item); Some (result && ok, h).
Definition ov_vocs_db_delete_entity (lock : bool) (st : db_state) (entity : ov_vocs_db_entity) (id : string)
    : option (bool * db_state) :=
  if negb lock then Some (false, st) else
  '(result, (h, self)) ← db_delete st id entity;
  match entity with
  | OV_VOCS_DB_DOMAIN => '(ok, st) ← unindex_domain (h, self) id; Some (result && ok, st)
  | OV_VOCS_DB_PROJECT =>
      '(result, h) ← delete_in (domains self) id OV_KEY_PROJECTS result h; Some (result, (h, self))
  | OV_VOCS_DB_LOOP =>
      '(result, h) ← delete_in (domains self) id OV_KEY_LOOPS result h;
      '(result, h) ← delete_in (projects self) id OV_KEY_LOOPS result h; Some (result, (h, self))
  | OV_VOCS_DB_ROLE =>
      '(result, h) ← delete_in (domains self) id OV_KEY_ROLES result h;
      '(result, h) ← delete_in (projects self) id OV_KEY_ROLES result h; Some (result, (h, self))
  | OV_VOCS_DB_USER =>
      '(result, h) ← delete_in (roles self) id OV_KEY_USERS result h; Some (result, (h, self))
  | OV_VOCS_DB_ENTITY_ERROR => Some (false, (h, self))
  end.

Definition get_create_parent (h : json_heap) (data : Z) (key : string) : option (Z * json_heap) :=
  if data =? 0 then None else
  parent ← ov_json_object_get h data key;
  if negb (parent =? 0) then Some (parent, h) else
  '(parent, h) ← ov_json_object h;
  '(ok, h) ← ov_json_object_set h data key parent;
  if (ok : bool) then Some (parent, h) else
  '(_, h) ← ov_json_value_free h parent; Some (0, h).
Definition get_parent (st : db_state) (entity : ov_vocs_db_entity) (scope : ov_vocs_db_scope) (scope_id : string)
    : option (Z * db_state) :=
  let '(h, self) := st in
  match entity, scope with
  | OV_VOCS_DB_DOMAIN, OV_VOCS_DB_SCOPE_PROJECT => Some (0, st)
  | OV_VOCS_DB_DOMAIN, OV_VOCS_DB_SCOPE_DOMAIN =>
      if negb (data_domains self =? 0) then Some (data_domains self, st) else
      '(p, h) ← ov_json_object h; Some (p, (h, with_data_domains self p))
  | _, _ =>
      data ← match scope with
             | OV_VOCS_DB_SCOPE_PROJECT => impl_dict_get (projects self) (Some scope_id)
             | OV_VOCS_DB_SCOPE_DOMAIN => ov_json_object_get h (data_domains self) scope_id
             end;
      if data =? 0 then Some (0, st) else
      let create key := '(p, h) ← get_create_parent h data key; Some (p, (h, self)) in
      match entity, scope with
      | OV_VOCS_DB_PROJECT, OV_VOCS_DB_SCOPE_PROJECT => Some (0, st)
      | OV_VOCS_DB_PROJECT, OV_VOCS_DB_SCOPE_DOMAIN => create OV_KEY_PROJECTS
      | OV_VOCS_DB_USER, _ => create OV_KEY_USERS
      | OV_VOCS_DB_LOOP, _ => create OV_KEY_LOOPS
      | OV_VOCS_DB_ROLE, _ => create OV_KEY_ROLES
      | _, _ => Some (0, st)
      end
  end.
Definition is_admin_role (entity : ov_vocs_db_entity) (id : string) : bool :=
  match entity with OV_VOCS_DB_ROLE => bool_decide (id = OV_KEY_ADMIN) | _ => false end.
Definition ov_vocs_db_create_entity (lock : bool) (st : db_state) (entity : ov_vocs_db_entity) (id : string)
    (scope : ov_vocs_db_scope) (scope_id : string) : option (bool * db_state) :=
  if negb lock then Some (false, st) else
  used ← (if is_admin_role entity id then Some false else index_is_set (get_index_dict st.2 entity) id);
  if used : bool then Some (false, st) else
  '(parent, (h, self)) ← get_parent st entity scope scope_id;
  if parent =? 0 then Some (false, (h, self)) else
  '(out, h) ← ov_json_object h;
  let '(val, h) := ov_json_string h (Some id) in
  '(ok, h) ← ov_json_object_set h out OV_KEY_ID val;
  if negb ok then
    '(_, h) ← ov_json_value_free h out; '(_, h) ← ov_json_value_free h val; Some (false, (h, self))
  else
  '(ok, h) ← ov_json_object_set h parent id out;
  if negb ok then '(_, h) ← ov_json_value_free h out; Some (false, (h, self)) else
  if is_admin_role entity id then Some (true, (h, self)) else
  d ← get_index_dict self entity;
  d ← reindex id out d;
  Some (true, (h, set_index_dict self entity d)).

(** ** The code: authorization *)

Definition ov_vocs_db_authorize (lock : bool) (st : db_state) (user role : string) : option (bool * db_state) :=
  if negb lock then Some (false, st) else
  let '(h, self) := st in
  user_data ← impl_dict_get (users self) (Some user);
  if user_data =? 0 then Some (false, st) else
  role_data ← impl_dict_get (roles self) (Some role);
  if role_data =? 0 then Some (false, st) else
  '(users, h) ← ov_json_get h role_data "/users";
  u ← ov_json_object_get h users user;
  Some (negb (u =? 0), (h, self)).
Definition ov_vocs_db_get_permission (lock : bool) (st : db_state) (role loop : string)
    : option (ov_vocs_permission * db_state) :=
  if negb lock then Some (OV_VOCS_NONE, st) else
  let '(h, self) := st in
  loop_data ← impl_dict_get (loops self) (Some loop);
  if loop_data =? 0 then Some (OV_VOCS_NONE, st) else
  '(roles, h) ← ov_json_get h loop_data "/roles";
  data ← ov_json_object_get h roles role;
  if data =? 0 then Some (OV_VOCS_NONE, (h, self)) else
  t ← ov_json_is_true h data;
  if t : bool then Some (OV_VOCS_SEND, (h, self)) else
  f ← ov_json_is_false h data;
  Some (if f : bool then OV_VOCS_RECV else OV_VOCS_NONE, (h, self)).

(** From ov_vocs_json.c. *)
Definition ov_vocs_json_get_id (h : json_heap) (val : Z) : option (option string) :=
  itm ← ov_json_object_get h val OV_KEY_ID; ov_json_string_get h itm.
Definition ov_vocs_json_is_admin_user (h : json_heap) (val : Z) (user : string) : option bool :=
  if val =? 0 then Some false else
  roles ← ov_json_object_get h val OV_KEY_ROLES;
  role ← ov_json_object_get h roles OV_KEY_ADMIN;
  users ← ov_json_object_get h role OV_KEY_USERS;
  u ← ov_json_object_get h users user; Some (negb (u =? 0)).
(** [static authorize_domain_admin] and [authorize_project_admin] *)
Definition authorize_domain_admin (st : db_state) (user : string) (id : option string) : option bool :=
  domain ← impl_dict_get (domains st.2) id; ov_vocs_json_is_admin_user st.1 domain user.
Definition ov_vocs_db_authorize_domain_admin (lock : bool) (st : db_state) (user id : string) : option bool :=
  if negb lock then Some false else authorize_domain_admin st user (Some id).
Definition authorize_project_admin (st : db_state) (user id : string) : option bool :=
  project ← impl_dict_get (projects st.2) (Some id);
  if project =? 0 then Some false else
  result ← ov_vocs_json_is_admin_user st.1 project user;
  if result : bool then Some true else
  v ← jload st.1 project;
  if parent v =? 0 then Some false else
  w ← jload st.1 (parent v);
  if parent w =? 0 then Some false else
  id ← ov_vocs_json_get_id st.1 (parent w);
  authorize_domain_admin st user id.
Definition ov_vocs_db_authorize_project_admin (lock : bool) (st : db_state) (user id : string) : option bool :=
  if negb lock then Some false else authorize_project_admin st user id.

(** A member of an object that is made when it is missing; the outcome of setting
    it is not looked at. *)
Definition get_or_make (h : json_heap) (object : Z) (key : string) : option (Z * json_heap) :=
  v ← ov_json_object_get h object key;
  if negb (v =? 0) then Some (v, h) else
  '(v, h) ← ov_json_object h; '(_, h) ← ov_json_object_set h object key v; Some (v, h).
Definition add_admin (st : db_state) (obj : Z) (id : string) : option (bool * db_state) :=
  let '(h, self) := st in
  '(roles, h) ← get_or_make h obj OV_KEY_ROLES;
  '(admin, h) ← get_or_make h roles OV_KEY_ADMIN;
  '(users, h) ← get_or_make h admin OV_KEY_USERS;
  let '(null, h) := ov_json_null h in
  '(result, h) ← ov_json_object_set h users id null; Some (result, (h, self)).
Definition ov_vocs_db_add_project_admin (lock : bool) (st : db_state) (project id : string) : option (bool * db_state) :=
  if negb lock then Some (false, st) else
  project_obj ← impl_dict_get (projects st.2) (Some project);
  if project_obj =? 0 then Some (false, st) else add_admin st project_obj id.
Definition ov_vocs_db_add_domain_admin (lock : bool) (st : db_state) (domain id : string) : option (bool * db_state) :=
  if negb lock then Some (false, st) else
  domain_obj ← impl_dict_get (domains st.2) (Some domain);
  if domain_obj =? 0 then Some (false, st) else add_admin st domain_obj id.

(** ** The code: ids and parents *)

Definition ov_vocs_db_check_id_exists (lock : bool) (self : ov_vocs_db) (id : string) : option bool :=
  if negb lock then Some true else
  d ← impl_dict_get (domains self) (Some id); if negb (d =? 0) then Some true else
  p ← impl_dict_get (projects self) (Some id); if negb (p =? 0) then Some true else
  u ← impl_dict_get (users self) (Some id); if negb (u =? 0) then Some true else
  r ← impl_dict_get (roles self) (Some id); if negb (r =? 0) then Some true else
  l ← impl_dict_get (loops self) (Some id); Some (negb (l =? 0)).
Definition ov_vocs_db_check_entity_id_exists (lock : bool) (self : ov_vocs_db) (entity : ov_vocs_db_entity) (id : string)
    : option bool :=
  match get_index_dict self entity with
  | None => Some true
  | Some dict => if negb lock then Some true else v ← impl_dict_get dict (Some id); Some (negb (v =? 0))
  end.
(** [ov_vocs_db_get_parent]; the result is the scope and the id. *)
Definition ov_vocs_db_get_parent (lock : bool) (st : db_state) (entity : ov_vocs_db_entity) (id : string)
    : option (ov_vocs_db_scope * option string * json_heap) :=
  let '(h, self) := st in
  let none h := Some (OV_VOCS_DB_SCOPE_DOMAIN, None, h) in
  if negb lock then none h else
  match get_index_dict self entity with
  | None => none h
  | Some index =>
      item ← impl_dict_get index (Some id);
      if item =? 0 then none h else
      if bool_decide (entity = OV_VOCS_DB_DOMAIN) then Some (OV_VOCS_DB_SCOPE_DOMAIN, Some id, h) else
      v ← jload h item; w ← jload h (parent v);
      let second_up := parent w in
      '(p, h) ← ov_json_get h second_up "/projects";
      '(i, h) ← ov_json_get h second_up "/id";
      s ← ov_json_string_get h i;
      Some (if negb (p =? 0) then OV_VOCS_DB_SCOPE_DOMAIN else OV_VOCS_DB_SCOPE_PROJECT, s, h)
  end.

(** ** The code: the state of loops *)

(** A member of an object that is made when it is missing, or 0. *)
Definition get_set (h : json_heap) (object : Z) (key : string) : option (Z * json_heap) :=
  v ← ov_json_object_get h object key;
  if negb (v =? 0) then Some (v, h) else
  '(v, h) ← ov_json_object h;
  '(ok, h) ← ov_json_object_set h object key v;
  if (ok : bool) then Some (v, h) else '(_, h) ← ov_json_value_free h v; Some (0, h).
Definition get_set_loop (st : db_state) (user role loop : string) : option (Z * db_state) :=
  let '(h, self) := st in
  '(h, self) ← (if negb (data_state self =? 0) then Some (h, self) else
                '(p, h) ← ov_json_object h; Some (h, with_data_state self p));
  '(u, h) ← get_set h (data_state self) user; if u =? 0 then Some (0, (h, self)) else
  '(r, h) ← get_set h u role; if r =? 0 then Some (0, (h, self)) else
  '(l, h) ← get_set h r loop; Some (l, (h, self)).
Definition get_loop_settings (st : db_state) (user role loop : string) : option Z :=
  u ← ov_json_object_get st.1 (data_state st.2) user;
  r ← ov_json_object_get st.1 u role;
  ov_json_object_get st.1 r loop.
Definition ov_vocs_db_set_state (lock : bool) (st : db_state) (user role loop : string) (state : ov_vocs_permission)
    : option (bool * db_state) :=
  if negb lock then Some (false, st) else
  '(obj, (h, self)) ← get_set_loop st user role loop;
  if obj =? 0 then Some (false, (h, self)) else
  let '(val, h) := ov_json_string h (Some (ov_vocs_permission_to_string state)) in
  '(result, h) ← ov_json_object_set h obj OV_KEY_STATE val;
  if (result : bool) then Some (true, (h, self)) else
  '(_, h) ← ov_json_value_free h val; Some (false, (h, self)).
Definition ov_vocs_db_get_state (lock : bool) (st : db_state) (user role loop : string) : option ov_vocs_permission :=
  if negb lock then Some OV_VOCS_NONE else
  obj ← get_loop_settings st user role loop;
  if obj =? 0 then Some OV_VOCS_NONE else
  state ← ov_json_object_get st.1 obj OV_KEY_STATE;
  ov_vocs_permission_from_json st.1 state.
