(* ===== verification/VocsDbInv.v ===== *)
(** * The domain database: its invariant

    [entity_path] says where entities are in the tree; [db_inv]: the index leads
    from every id to the entity of that id and to nothing else, only admin roles
    may be missing in it. *)
From S2P Require Import Prelude Hashtable OvList Dict JsonValue JsonTree JsonOps JsonPaths JsonPointer Permission VocsDb.
From Stdlib Require Import Ascii.

(** ** Where entities are *)

Inductive leaf : ov_vocs_db_entity -> string -> Prop :=
  | leaf_user : leaf OV_VOCS_DB_USER OV_KEY_USERS
  | leaf_role : leaf OV_VOCS_DB_ROLE OV_KEY_ROLES
  | leaf_loop : leaf OV_VOCS_DB_LOOP OV_KEY_LOOPS.
Inductive owner_path : list string -> Prop :=
  | owner_domain d : owner_path [d]
  | owner_project d p : owner_path [d; OV_KEY_PROJECTS; p].
Inductive entity_path : ov_vocs_db_entity -> list string -> string -> Prop :=
  | path_domain id : entity_path OV_VOCS_DB_DOMAIN [id] id
  | path_project d id : entity_path OV_VOCS_DB_PROJECT [d; OV_KEY_PROJECTS; id] id
  | path_leaf e k o id : leaf e k -> owner_path o -> entity_path e (o ++ [k; id]) id.

Definition is_string (h : json_heap) (p : Z) (s : string) : Prop := exists v, h !! p = Some v /\ type v = OV_JSON_STRING (Some s).
(** The index as a map, for every kind of entity. *)
Definition index (db : ov_vocs_db) (e : ov_vocs_db_entity) : gmap string Z :=
  match get_index_dict db e with Some d => dict_map d | None => ∅ end.

Record db_inv (st : db_state) : Prop := {
  inv_wf : wf st.1;
  inv_domains : data_domains st.2 = 0 \/ is_root st.1 (data_domains st.2);
  inv_state : data_state st.2 = 0 \/ is_root st.1 (data_state st.2);
  inv_apart : data_domains st.2 = data_state st.2 -> data_domains st.2 = 0;
  inv_dicts e d : get_index_dict st.2 e = Some d -> dict_ok d;
  inv_sound e id q : index st.2 e !! id = Some q ->
    exists ks, entity_path e ks id /\ get_path st.1 (data_domains st.2) ks = Some q;
  inv_complete e ks id q : entity_path e ks id -> get_path st.1 (data_domains st.2) ks = Some q ->
    is_admin_role e id = false -> index st.2 e !! id = Some q;
  inv_entity e ks id q : entity_path e ks id -> get_path st.1 (data_domains st.2) ks = Some q -> is_object st.1 q;
  inv_container e ks id q : entity_path e (ks ++ [id]) id -> data_domains st.2 <> 0 ->
    get_path st.1 (data_domains st.2) ks = Some q -> is_object st.1 q;
  inv_ids d x : get_path st.1 (data_domains st.2) [d] = Some x ->
    exists i, get_path st.1 (data_domains st.2) [d; OV_KEY_ID] = Some i /\ is_string st.1 i d
}.

(** ** Shapes of paths *)

Lemma entity_path_nonempty e ks id : entity_path e ks id -> exists a, ks = a ++ [id].
Proof. intros H. destruct H as [id|d id|e k o id _ _]; [by exists []|by exists [d; OV_KEY_PROJECTS]|]. exists (o ++ [k]). by rewrite <- app_assoc. Qed.
Lemma entity_path_last e a k id : entity_path e (a ++ [k]) id -> k = id.
Proof. intros H. destruct (entity_path_nonempty _ _ _ H) as [b E]. by apply app_inj_tail in E as [_ ->]. Qed.
Lemma leaf_key e e' k : leaf e k -> leaf e' k -> e = e'.
Proof. intros H H'. destruct H; inversion H'; done. Qed.
Lemma leaf_key_fun e k k' : leaf e k -> leaf e k' -> k = k'.
Proof. intros H H'. destruct H; inversion H'; done. Qed.
Lemma leaf_not_projects e : ~ leaf e OV_KEY_PROJECTS.
Proof. intros H. inversion H. Qed.
(** The entities by the length of their paths. *)
Ltac path_inversion H :=
  inversion H; subst; try match goal with Ho : owner_path ?o |- _ => destruct Ho end; simplify_eq/=.
Lemma entity_path_1 e a id : entity_path e [a] id -> e = OV_VOCS_DB_DOMAIN /\ a = id.
Proof. intros H. path_inversion H. done. Qed.
Lemma entity_path_3 e a b c id : entity_path e [a; b; c] id ->
  c = id /\ (e = OV_VOCS_DB_PROJECT /\ b = OV_KEY_PROJECTS \/ leaf e b).
Proof. intros H. path_inversion H; auto. Qed.
Lemma entity_path_5 e a b c k d id : entity_path e [a; b; c; k; d] id -> d = id /\ b = OV_KEY_PROJECTS /\ leaf e k.
Proof. intros H. path_inversion H; auto. Qed.
Lemma entity_path_cases e ks id : entity_path e ks id ->
  ks = [id] \/ (exists a b, ks = [a; b; id]) \/ exists a b c k, ks = [a; b; c; k; id].
Proof. intros H. destruct H as [id|d id|e k o id _ Ho]; [by left|right; left; by exists d, OV_KEY_PROJECTS|]. destruct Ho as [d|d p]; right; [left|right]; by repeat eexists. Qed.
Lemma entity_path_kind e e' ks id id' : entity_path e ks id -> entity_path e' ks id' -> e = e' /\ id = id'.
Proof.
  intros H H'. destruct (entity_path_cases _ _ _ H) as [->|[(a & b & ->)|(a & b & c & k & ->)]].
  - apply entity_path_1 in H as [-> _], H' as [-> ->]. done.
  - apply entity_path_3 in H as [_ H], H' as [-> H']. split; [|done].
    destruct H as [[-> ->]|H], H' as [[-> E]|H']; try done; try (by destruct (leaf_not_projects e')).
    + subst. by destruct (leaf_not_projects e).
    + by eapply leaf_key.
  - apply entity_path_5 in H as (_ & _ & H), H' as (-> & _ & H'). split; [by eapply leaf_key|done].
Qed.
(** An entity inside of another one. *)
Lemma entity_path_inside e e' a b id id' : entity_path e a id -> entity_path e' (a ++ b) id' ->
  (b = [] /\ e' = e /\ id' = id) \/
  (e = OV_VOCS_DB_DOMAIN /\ b = [OV_KEY_PROJECTS; id'] /\ e' = OV_VOCS_DB_PROJECT) \/
  (e = OV_VOCS_DB_DOMAIN /\ exists p k, b = [OV_KEY_PROJECTS; p; k; id'] /\ leaf e' k) \/
  ((e = OV_VOCS_DB_DOMAIN \/ e = OV_VOCS_DB_PROJECT) /\ exists k, b = [k; id'] /\ leaf e' k).
Proof.
  intros H H'. destruct b as [|b1 b].
  { left. rewrite app_nil_r in H'. by destruct (entity_path_kind _ _ _ _ _ H H') as [-> ->]. }
  right. destruct (entity_path_cases _ _ _ H) as [->|[(x & y & ->)|(x & y & z & k & ->)]].
  - apply entity_path_1 in H as [-> _]. destruct (entity_path_cases _ _ _ H') as [E|[(a & c & E)|(a & c & d & k & E)]]; cbn in E; simplify_eq.
    + apply entity_path_3 in H' as [_ [[-> ->]|Hl]]; [by left|]. right; right. split; [by left|]. eauto.
    + apply entity_path_5 in H' as (_ & -> & Hl). right; left. eauto 10.
  - destruct (entity_path_cases _ _ _ H') as [E|[(a & c & E)|(a & c & d & k & E)]]; cbn in E; simplify_eq.
    apply entity_path_5 in H' as (_ & -> & Hl). apply entity_path_3 in H as [_ [[-> _]|Hl']]; [|by destruct (leaf_not_projects e)].
    right; right. split; [by right|]. eauto.
  - destruct (entity_path_cases _ _ _ H') as [E|[(a & c & E)|(a & c & d & k' & E)]]; cbn in E; simplify_eq.
Qed.

(** ** Reading *)

Ltac slashes :=
  try change "/users"%string with (String "/"%char OV_KEY_USERS);
  try change "/roles"%string with (String "/"%char OV_KEY_ROLES);
  try change "/loops"%string with (String "/"%char OV_KEY_LOOPS);
  try change "/projects"%string with (String "/"%char OV_KEY_PROJECTS);
  try change "/id"%string with (String "/"%char OV_KEY_ID).

Lemma slash_spec h p k : wf h -> (p = 0 \/ is_Some (h !! p)) -> plain_key k = true ->
  ov_json_get h p (String "/"%char k) = Some (default 0 (get_key h p k), h).
Proof.
  intros W Hp Hk. assert (exists v, p = 0 \/ h !! p = Some v) as [v Hv].
  { destruct Hp as [->|[v Hv]]; [|by eauto]. exists {| type := OV_JSON_NULL; parent := 0 |}. by left. }
  rewrite (json_get_key h p v k (jw_zero _ h W) Hv Hk). destruct (Z.eqb_spec p 0) as [->|Hp0].
  { unfold get_key. by rewrite (jw_zero _ h W). }
  destruct Hv as [|Hv]; [done|]. pose proof (json_get_spec h p k W Hp) as E. unfold get_key in *. rewrite Hv in *.
  destruct (type v); try done. rewrite E. done.
Qed.
Lemma key_live h p k : wf h -> default 0 (get_key h p k) = 0 \/ is_Some (h !! default 0 (get_key h p k)).
Proof.
  intros W. destruct (get_key h p k) as [c|] eqn:E; [right|by left]. destruct (get_key_parent _ h p k c W E) as (w & Hw & _). by exists w.
Qed.
Lemma index_get_spec db e id : (forall e d, get_index_dict db e = Some d -> dict_ok d) ->
  index_get (get_index_dict db e) id = Some (default 0 (index db e !! id)).
Proof.
  intros Hd. unfold index_get, index. destruct (get_index_dict db e) as [d|] eqn:E; [|by rewrite lookup_empty].
  apply dict_get_spec. by eapply Hd.
Qed.
Lemma index_is_set_spec db e id : (forall e d, get_index_dict db e = Some d -> dict_ok d) ->
  index_is_set (get_index_dict db e) id = Some (bool_decide (is_Some (index db e !! id))).
Proof.
  intros Hd. unfold index_is_set, index. destruct (get_index_dict db e) as [d|] eqn:E.
  - apply dict_is_set_spec. by eapply Hd.
  - rewrite lookup_empty. by rewrite bool_decide_eq_false_2 by (by intros [? ?]).
Qed.

Section inv.
Context (h : json_heap) (db : ov_vocs_db) (I : db_inv (h, db)).
#[local] Abbreviation D := (data_domains db).
Lemma I_wf : wf h.
Proof using I. apply (inv_wf _ I). Qed.
Lemma I_path_root e ks id q : entity_path e ks id -> get_path h D ks = Some q -> D <> 0 /\ is_root h D.
Proof using I.
  intros He Hp. destruct (inv_domains _ I) as [E|Hr]; cbn [fst snd] in *.
  - rewrite E in Hp. destruct (entity_path_nonempty _ _ _ He) as [[|k a] ->];
      apply walk_cons_Some in Hp as (c & Hc & _); unfold get_key in Hc; by rewrite (jw_zero _ h I_wf) in Hc.
  - split; [|done]. destruct Hr as (v & Hv & _). by eapply live_nonzero; [apply (jw_zero _ h I_wf)|].
Qed.
Lemma I_index e id q : index db e !! id = Some q -> exists ks, entity_path e ks id /\ get_path h D ks = Some q.
Proof using I. apply (inv_sound _ I). Qed.
Lemma I_live e id q : index db e !! id = Some q -> is_object h q.
Proof using I. intros Hq. destruct (I_index e id q Hq) as (ks & He & Hp). by apply (inv_entity _ I e ks id). Qed.
Lemma I_default e id : default 0 (index db e !! id) = 0 \/ is_Some (h !! default 0 (index db e !! id)).
Proof using I.
  destruct (index db e !! id) as [q|] eqn:E; [right|by left]. destruct (I_live e id q E) as (d & r & Hq). by exists {| type := OV_JSON_OBJECT d; parent := r |}.
Qed.
(** One node, one entity. *)
Lemma I_same e e' ks ks' id id' q : entity_path e ks id -> entity_path e' ks' id' ->
  get_path h D ks = Some q -> get_path h D ks' = Some q -> ks = ks' /\ e = e' /\ id = id'.
Proof using I.
  intros He He' Hp Hp'. destruct (I_path_root e ks id q He Hp) as [_ Hr].
  pose proof (path_inj h D ks ks' q I_wf Hr Hp Hp') as <-. split; [done|]. by eapply entity_path_kind.
Qed.
(** The container of an entity and its owner. *)
Lemma I_container e ks id q : entity_path e (ks ++ [id]) id -> get_path h D (ks ++ [id]) = Some q ->
  exists c v, get_path h D ks = Some c /\ get_key h c id = Some q /\ is_object h c /\ h !! q = Some v /\ parent v = c.
Proof using I.
  intros He Hp. destruct (I_path_root _ _ _ _ He Hp) as [HD _]. rewrite walk_snoc in Hp.
  destruct (get_path h D ks) as [c|] eqn:Ec; [|done]. cbn in Hp. destruct (get_key_parent _ h c id q I_wf Hp) as (v & Hv & E).
  exists c, v. split; [done|]. split; [done|]. split; [by eapply (inv_container _ I)|done].
Qed.
(** The members of an owner at [k] are an object, when they exist. *)
Lemma I_members e k o x c : leaf e k -> owner_path o -> get_path h D o = Some x -> get_key h x k = Some c -> is_object h c.
Proof using I.
  intros Hl Ho Hx Hc. assert (He : entity_path e ((o ++ [k]) ++ [""%string]) "") by (rewrite <- app_assoc; by apply path_leaf).
  assert (Hp : get_path h D (o ++ [k]) = Some c) by (rewrite walk_snoc, Hx; done).
  eapply (inv_container _ I); [done| |done]. destruct Ho as [d|d p].
  - eapply I_path_root; [apply path_domain|done].
  - eapply I_path_root; [apply path_project|done].
Qed.
Lemma I_projects d x c : get_path h D [d] = Some x -> get_key h x OV_KEY_PROJECTS = Some c -> is_object h c.
Proof using I.
  intros Hx Hc. eapply (inv_container _ I OV_VOCS_DB_PROJECT [d; OV_KEY_PROJECTS] ""); [apply path_project| |].
  - eapply I_path_root; [apply path_domain|done].
  - change [d; OV_KEY_PROJECTS] with ([d] ++ [OV_KEY_PROJECTS]). cbn [fst snd]. by rewrite walk_snoc, Hx.
Qed.
End inv.

(** ** Taking ids out of the index *)

Definition dicts_ok (db : ov_vocs_db) : Prop := forall e d, get_index_dict db e = Some d -> dict_ok d.
Lemma set_index_ok db e d : dicts_ok db -> dict_ok d -> dicts_ok (set_index_dict db e d).
Proof. intros H Hd e' d'. pose proof (H e' d') as He. destruct e, e'; cbn in *; try done; by intros [= <-] || by apply He. Qed.
Lemma index_set db e d e' : e <> OV_VOCS_DB_ENTITY_ERROR ->
  index (set_index_dict db e d) e' = if decide (e' = e) then dict_map d else index db e'.
Proof. intros He. destruct e, e'; done. Qed.
Lemma set_index_trees db e d :
  data_domains (set_index_dict db e d) = data_domains db /\ data_state (set_index_dict db e d) = data_state db.
Proof. by destruct e. Qed.

(** [db'] is [db] without the ids [X]. *)
Record cut (db db' : ov_vocs_db) (X : ov_vocs_db_entity -> string -> Prop) : Prop := {
  cut_domains : data_domains db' = data_domains db;
  cut_state : data_state db' = data_state db;
  cut_ok : dicts_ok db';
  cut_in e id q : index db' e !! id = Some q -> index db e !! id = Some q /\ ~ X e id;
  cut_out e id q : index db e !! id = Some q -> ~ X e id -> index db' e !! id = Some q
}.
Lemma cut_refl db : dicts_ok db -> cut db db (fun _ _ => False).
Proof. intros H. split; try done. intros e id q Hq. by split; [|intros []]. Qed.
Lemma cut_trans db db1 db2 X Y : cut db db1 X -> cut db1 db2 Y -> cut db db2 (fun e id => X e id \/ Y e id).
Proof.
  intros C1 C2. split.
  - rewrite (cut_domains _ _ _ C2). apply (cut_domains _ _ _ C1).
  - rewrite (cut_state _ _ _ C2). apply (cut_state _ _ _ C1).
  - apply (cut_ok _ _ _ C2).
  - intros e id q Hq. apply (cut_in _ _ _ C2) in Hq as [Hq HY]. apply (cut_in _ _ _ C1) in Hq as [Hq HX]. naive_solver.
  - intros e id q Hq Hn. apply (cut_out _ _ _ C2); [apply (cut_out _ _ _ C1)|]; naive_solver.
Qed.
Lemma cut_iff db db' X Y : cut db db' X -> (forall e id, X e id <-> Y e id) -> cut db db' Y.
Proof.
  intros C H. split; try apply C.
  - intros e id q Hq. apply (cut_in _ _ _ C) in Hq as [Hq HX]. by rewrite <- H.
  - intros e id q Hq HY. apply (cut_out _ _ _ C); [done|by rewrite H].
Qed.
Definition one (e : ov_vocs_db_entity) (key : string) : ov_vocs_db_entity -> string -> Prop := fun e' id => e' = e /\ id = key.
Lemma cut_one db e d key : dicts_ok db -> get_index_dict db e = Some d ->
  exists v d', impl_dict_del d key = Some (v, d') /\ cut db (set_index_dict db e d') (one e key).
Proof.
  intros H Hd. destruct (dict_remove_spec d key (H e d Hd)) as (d' & E & Hok & Hm). exists (default 0 (dict_map d !! key)), d'.
  split; [done|]. assert (He : e <> OV_VOCS_DB_ENTITY_ERROR) by (by intros ->).
  destruct (set_index_trees db e d') as [E1 E2]. assert (Hi : index db e = dict_map d) by (unfold index; by rewrite Hd).
  split; try done.
  - by apply set_index_ok.
  - intros e' id q. rewrite index_set by done. case_decide as Ee; [|intros Hq; split; [done|]; by intros []].
    subst e'. rewrite Hm, Hi, lookup_delete_Some. intros [Hne Hq]. split; [done|]. by intros [_ ->].
  - intros e' id q Hq Hn. rewrite index_set by done. case_decide as Ee; [|done]. subst e'. rewrite Hm, lookup_delete_Some, <- Hi.
    split; [|done]. intros ->. by apply Hn.
Qed.
Definition unindexes (e : ov_vocs_db_entity) (f : string -> Z -> ov_vocs_db -> option (bool * ov_vocs_db)) : Prop :=
  forall key v db, dicts_ok db -> exists db', f key v db = Some (true, db') /\ cut db db' (one e key).
Lemma unindexes_users : unindexes OV_VOCS_DB_USER unindex_users.
Proof.
  intros key v db H. destruct (cut_one db OV_VOCS_DB_USER (users db) key H eq_refl) as (x & d & E & C).
  unfold unindex_users. rewrite E. by eexists.
Qed.
Lemma unindexes_roles : unindexes OV_VOCS_DB_ROLE unindex_roles.
Proof.
  intros key v db H. destruct (cut_one db OV_VOCS_DB_ROLE (roles db) key H eq_refl) as (x & d & E & C).
  unfold unindex_roles. rewrite E. by eexists.
Qed.
Lemma unindexes_loops : unindexes OV_VOCS_DB_LOOP unindex_loops.
Proof.
  intros key v db H. destruct (cut_one db OV_VOCS_DB_LOOP (loops db) key H eq_refl) as (x & d & E & C).
  unfold unindex_loops. rewrite E. by eexists.
Qed.
(** The pairs of an object. *)
Lemma for_each_object {A} h p (a : A) f : wf h -> is_object h p -> exists l,
  ov_json_object_for_each h p a f = each_pair f l a /\ forall k c, (k, c) ∈ l <-> get_key h p k = Some c.
Proof.
  intros W Hp. destruct (object_lookup h p Hp) as (v & d & Hv & Hd). exists (concat (items d)). split.
  - unfold ov_json_object_for_each. by rewrite (as_object h p v d W Hv Hd).
  - intros k c. rewrite (get_key_object h p v d Hv Hd). symmetry. apply dict_map_elem. by apply (object_dict_ok h p v).
Qed.
(** The members of the object at a key of [v]. *)
Definition members (h : json_heap) (v : Z) (k : string) (i : string) : Prop := exists q, get_path h v [k; i] = Some q.
Lemma each_of_unindex e f h v k db : unindexes e f -> wf h -> dicts_ok db ->
  (forall c, get_key h v k = Some c -> is_object h c) ->
  exists db', each_of h (default 0 (get_key h v k)) db f = Some (true, db') /\
    cut db db' (fun e' i => e' = e /\ members h v k i).
Proof.
  intros Hf W Hd Hc. unfold each_of, members. cbn [walk]. destruct (get_key h v k) as [c|] eqn:E; cbn [from_option mbind option_bind].
  2:{ exists db. split; [done|]. eapply cut_iff; [by apply cut_refl|]. intros e' i. split; [done|]. by intros (_ & ? & ?). }
  unfold id. rewrite (proj2 (Z.eqb_neq c 0)) by (by eapply get_key_nonzero).
  destruct (for_each_object h c db f W (Hc c eq_refl)) as (l & -> & Hl).
  destruct (each_pair_inv f (fun done db' => cut db db' (fun e' i => e' = e /\ i ∈ done.*1)) l db) as (db' & E' & C').
  - eapply cut_iff; [by apply cut_refl|]. intros e' i. split; [done|]. by intros [_ ?%elem_of_nil].
  - intros done key x db1 _ C1. destruct (Hf key x db1 (cut_ok _ _ _ C1)) as (db2 & E2 & C2). exists db2. split; [assumption|].
    eapply cut_iff; [by eapply cut_trans|]. intros e' i. unfold one. rewrite fmap_app, elem_of_app, fmap_cons, list_elem_of_singleton. cbn. naive_solver.
  - exists db'. split; [done|]. eapply cut_iff; [done|]. intros e' i. cbn beta. rewrite list_elem_of_fmap. split.
    + intros [-> ((k' & q) & -> & Hq)]. split; [done|]. exists q. apply Hl in Hq. cbn. by rewrite Hq.
    + intros [-> (q & Hq)]. split; [done|]. destruct (get_key h c i) as [q'|] eqn:Eq; [|done]. exists (i, q'). split; [done|]. by apply Hl.
Qed.

(** The containers of a project, or domain. *)
Definition owner_ok (h : json_heap) (v : Z) : Prop :=
  is_object h v /\ forall e k c, leaf e k -> get_key h v k = Some c -> is_object h c.
Definition in_owner (h : json_heap) (v : Z) (e : ov_vocs_db_entity) (i : string) : Prop := exists k, leaf e k /\ members h v k i.
Definition in_project (h : json_heap) (v : Z) (id : string) (e : ov_vocs_db_entity) (i : string) : Prop :=
  one OV_VOCS_DB_PROJECT id e i \/ in_owner h v e i.
Lemma in_owner_cases h v e i : in_owner h v e i <->
  ((e = OV_VOCS_DB_USER /\ members h v OV_KEY_USERS i) \/ (e = OV_VOCS_DB_ROLE /\ members h v OV_KEY_ROLES i)) \/
  (e = OV_VOCS_DB_LOOP /\ members h v OV_KEY_LOOPS i).
Proof.
  split; [intros (k & Hl & Hm); destruct Hl; auto|].
  intros [[[-> H]|[-> H]]|[-> H]]; eexists; (split; [constructor|done]).
Qed.
Lemma is_object_live h p : is_object h p -> is_Some (h !! p).
Proof. intros (d & q & Hp). rewrite Hp. eauto. Qed.
Lemma unindex_project_spec h db id v : wf h -> dicts_ok db -> index db OV_VOCS_DB_PROJECT !! id = Some v -> owner_ok h v ->
  exists db', unindex_project (h, db) id = Some (true, (h, db')) /\ cut db db' (in_project h v id).
Proof.
  intros W Hd Hi [Hv Hc]. pose proof (is_object_live h v Hv) as Hlv.
  assert (Hv0 : v <> 0) by (destruct Hlv as [? Hx]; by eapply live_nonzero; [apply (jw_zero _ h W)|]).
  assert (Hsl : forall k, plain_key k = true -> ov_json_get h v (String "/"%char k) = Some (default 0 (get_key h v k), h))
    by (intros k Hk; apply slash_spec; auto).
  pose proof (index_get_spec db OV_VOCS_DB_PROJECT id Hd) as Eg. rewrite Hi in Eg.
  change (default 0 (Some v)) with v in Eg. change (impl_dict_get (projects db) (Some id) = Some v) in Eg.
  unfold unindex_project. slashes. rewrite Eg. cbn [mbind option_bind]. rewrite (proj2 (Z.eqb_neq v 0) Hv0).
  rewrite (Hsl OV_KEY_USERS eq_refl). cbn [mbind option_bind].
  destruct (each_of_unindex _ _ h v OV_KEY_USERS db unindexes_users W Hd (fun c => Hc _ _ c leaf_user)) as (db1 & -> & C1).
  cbn [mbind option_bind negb]. rewrite (Hsl OV_KEY_ROLES eq_refl). cbn [mbind option_bind].
  destruct (each_of_unindex _ _ h v OV_KEY_ROLES db1 unindexes_roles W (cut_ok _ _ _ C1) (fun c => Hc _ _ c leaf_role)) as (db2 & -> & C2).
  cbn [mbind option_bind negb]. rewrite (Hsl OV_KEY_LOOPS eq_refl). cbn [mbind option_bind].
  destruct (each_of_unindex _ _ h v OV_KEY_LOOPS db2 unindexes_loops W (cut_ok _ _ _ C2) (fun c => Hc _ _ c leaf_loop)) as (db3 & -> & C3).
  cbn [mbind option_bind negb].
  destruct (cut_one db3 OV_VOCS_DB_PROJECT (projects db3) id (cut_ok _ _ _ C3) eq_refl) as (x & d & E & C4).
  rewrite E. cbn [mbind option_bind]. eexists. split; [done|].
  eapply cut_iff; [eapply cut_trans; [eapply cut_trans; [eapply cut_trans; [exact C1|exact C2]|exact C3]|exact C4]|].
  intros e i. unfold in_project. rewrite in_owner_cases. tauto.
Qed.
(** All entities of a domain. *)
Definition in_domain (h : json_heap) (v : Z) (id : string) (e : ov_vocs_db_entity) (i : string) : Prop :=
  one OV_VOCS_DB_DOMAIN id e i \/ in_owner h v e i \/
  exists c p x, get_key h v OV_KEY_PROJECTS = Some c /\ get_key h c p = Some x /\ in_project h x p e i.
Lemma each_of_projects h v db : wf h -> dicts_ok db ->
  (forall c, get_key h v OV_KEY_PROJECTS = Some c -> is_object h c /\ forall p x, get_key h c p = Some x ->
    index db OV_VOCS_DB_PROJECT !! p = Some x /\ owner_ok h x) ->
  exists db', each_of h (default 0 (get_key h v OV_KEY_PROJECTS)) (h, db) unindex_projects = Some (true, (h, db')) /\
    cut db db' (fun e i => exists c p x, get_key h v OV_KEY_PROJECTS = Some c /\ get_key h c p = Some x /\ in_project h x p e i).
Proof.
  intros W Hd Hc. unfold each_of. destruct (get_key h v OV_KEY_PROJECTS) as [c|] eqn:E; cbn [from_option].
  2:{ exists db. split; [done|]. eapply cut_iff; [by apply cut_refl|]. intros e' i. split; [done|]. by intros (? & ? & ? & ? & _). }
  unfold id. rewrite (proj2 (Z.eqb_neq c 0)) by (by eapply get_key_nonzero). destruct (Hc c eq_refl) as [Hco Hp].
  destruct (for_each_object h c (h, db) unindex_projects W Hco) as (l & -> & Hl).
  destruct (each_pair_inv unindex_projects (fun done st => (forall p x, (p, x) ∈ done -> get_key h c p = Some x) /\ exists db', st = (h, db') /\
    cut db db' (fun e i => exists p x, (p, x) ∈ done /\ in_project h x p e i)) l (h, db)) as (st & E' & _ & db' & -> & C').
  - split; [by intros p x ?%elem_of_nil|]. exists db. split; [done|]. eapply cut_iff; [by apply cut_refl|]. intros e' i. split; [done|]. by intros (p & x & ?%elem_of_nil & _).
  - intros done p x st Hin (Hdl & db1 & -> & C1). apply Hl in Hin.
    assert (Hdl' : forall p' x', (p', x') ∈ done ++ [(p, x)] -> get_key h c p' = Some x').
    { intros p' x' [Hin'|Hin']%elem_of_app; [by apply Hdl|]. apply list_elem_of_singleton in Hin'. by injection Hin' as -> ->. } destruct (Hp p x Hin) as [Hi Ho]. unfold unindex_projects.
    destruct (index db1 OV_VOCS_DB_PROJECT !! p) as [x'|] eqn:E1.
    + assert (x' = x) as -> by (apply (cut_in _ _ _ C1) in E1 as [E1 _]; congruence).
      destruct (unindex_project_spec h db1 p x W (cut_ok _ _ _ C1) E1 Ho) as (db2 & -> & C2). eexists. split; [reflexivity|]. split; [exact Hdl'|].
      exists db2. split; [reflexivity|]. eapply cut_iff; [by eapply cut_trans|]. intros e' i. cbn beta. split.
      * intros [(p' & x' & Hin' & Hx)|Hx]; [exists p', x'|exists p, x]; rewrite elem_of_app, list_elem_of_singleton; auto.
      * intros (p' & x' & [Hin'|Hin']%elem_of_app & Hx); [left; by exists p', x'|right].
        apply list_elem_of_singleton in Hin'. by injection Hin' as -> ->.
    + unfold unindex_project. pose proof (index_get_spec db1 OV_VOCS_DB_PROJECT p (cut_ok _ _ _ C1)) as Eg. rewrite E1 in Eg. cbn in Eg.
      change (impl_dict_get (projects db1) (Some p) = Some 0) in Eg.
      rewrite Eg. eexists. split; [reflexivity|]. split; [exact Hdl'|]. exists db1. split; [reflexivity|].
      assert (Hdone : (p, x) ∈ done).
      { destruct (decide ((p, x) ∈ done)) as [|Hn]; [assumption|]. exfalso.
        rewrite (cut_out _ _ _ C1 _ _ x Hi) in E1; [congruence|]. intros (p' & x' & Hin' & [[_ Epp]|(k & Hk & _)]); [|by inversion Hk].
        subst p'. apply Hn. by replace x with x' by (pose proof (Hdl p x' Hin'); congruence). }
      eapply cut_iff; [exact C1|]. intros e' i. cbn beta. split; intros (p' & x' & Hin' & Hx); exists p', x'.
      * rewrite elem_of_app. auto.
      * apply elem_of_app in Hin' as [|Hin']; [auto|]. apply list_elem_of_singleton in Hin'. by injection Hin' as -> ->.
  - exists db'. rewrite E'. split; [done|]. eapply cut_iff; [done|]. intros e i. cbn beta. split.
    + intros (p & x & Hin & Hx). exists c, p, x. split; [done|]. split; [by apply Hl|done].
    + intros (c' & p & x & [= <-] & Hin & Hx). exists p, x. split; [by apply Hl|done].
Qed.
Lemma unindex_domain_spec h db id v : wf h -> dicts_ok db ->
  (data_domains db = 0 \/ is_Some (h !! data_domains db)) -> get_key h (data_domains db) id = Some v -> owner_ok h v ->
  (forall c, get_key h v OV_KEY_PROJECTS = Some c -> is_object h c /\ forall p x, get_key h c p = Some x ->
    index db OV_VOCS_DB_PROJECT !! p = Some x /\ owner_ok h x) ->
  exists db', unindex_domain (h, db) id = Some (true, (h, db')) /\ cut db db' (in_domain h v id).
Proof.
  intros W Hd HD Hv [Hvo Hc] Hp. pose proof (is_object_live h v Hvo) as Hlv.
  assert (Hv0 : v <> 0) by (by eapply get_key_nonzero).
  assert (Hsl : forall k, plain_key k = true -> ov_json_get h v (String "/"%char k) = Some (default 0 (get_key h v k), h))
    by (intros k Hk; apply slash_spec; auto).
  unfold unindex_domain. slashes. rewrite (json_get_spec h _ id W HD), Hv. change (default 0 (Some v)) with v.
  cbn [mbind option_bind]. rewrite (proj2 (Z.eqb_neq v 0) Hv0).
  rewrite (Hsl OV_KEY_PROJECTS eq_refl). cbn [mbind option_bind].
  destruct (each_of_projects h v db W Hd Hp) as (db0 & -> & C0).
  cbn [mbind option_bind negb]. rewrite (Hsl OV_KEY_USERS eq_refl). cbn [mbind option_bind].
  destruct (each_of_unindex _ _ h v OV_KEY_USERS db0 unindexes_users W (cut_ok _ _ _ C0) (fun c => Hc _ _ c leaf_user)) as (db1 & -> & C1).
  cbn [mbind option_bind negb]. rewrite (Hsl OV_KEY_ROLES eq_refl). cbn [mbind option_bind].
  destruct (each_of_unindex _ _ h v OV_KEY_ROLES db1 unindexes_roles W (cut_ok _ _ _ C1) (fun c => Hc _ _ c leaf_role)) as (db2 & -> & C2).
  cbn [mbind option_bind negb]. rewrite (Hsl OV_KEY_LOOPS eq_refl). cbn [mbind option_bind].
  destruct (each_of_unindex _ _ h v OV_KEY_LOOPS db2 unindexes_loops W (cut_ok _ _ _ C2) (fun c => Hc _ _ c leaf_loop)) as (db3 & -> & C3).
  cbn [mbind option_bind negb].
  destruct (cut_one db3 OV_VOCS_DB_DOMAIN (domains db3) id (cut_ok _ _ _ C3) eq_refl) as (x & d & E & C4).
  rewrite E. cbn [mbind option_bind]. eexists. split; [done|].
  eapply cut_iff; [eapply cut_trans; [eapply cut_trans; [eapply cut_trans; [eapply cut_trans; [exact C0|exact C1]|exact C2]|exact C3]|exact C4]|].
  intros e i. unfold in_domain. rewrite in_owner_cases. tauto.
Qed.

(** The entities whose paths run through [src]. *)
Definition inside (st : db_state) (src : Z) (e : ov_vocs_db_entity) (i : string) : Prop :=
  exists a b q, entity_path e (a ++ b) i /\ get_path st.1 (data_domains st.2) a = Some src /\ get_path st.1 src b = Some q.
Section inside.
Context (h : json_heap) (db : ov_vocs_db) (I : db_inv (h, db)).
#[local] Abbreviation D := (data_domains db).
Lemma I_owner o x : owner_path o -> get_path h D o = Some x -> owner_ok h x.
Proof using I.
  intros Ho Hx. split; [|intros e k c Hl Hc; by eapply (I_members h db I e k o x c)].
  destruct Ho as [d|d p]; [eapply (inv_entity _ I _ _ _ x (path_domain d))|eapply (inv_entity _ I _ _ _ x (path_project d p))]; done.
Qed.
Lemma in_project_inside d p x e i : get_path h D [d; OV_KEY_PROJECTS; p] = Some x ->
  in_project h x p e i <-> inside (h, db) x e i.
Proof using I.
  intros Hx. pose proof (path_project d p) as Hep. split.
  - intros [[-> ->]|(k & Hl & (q & Hq))].
    + exists [d; OV_KEY_PROJECTS; p], [], x. done.
    + exists [d; OV_KEY_PROJECTS; p], [k; i], q. split; [|done]. apply (path_leaf e k [d; OV_KEY_PROJECTS; p] i Hl). constructor.
  - intros (a & b & q & He & Ha & Hb). cbn [fst snd] in *. destruct (I_path_root h db I _ _ _ _ Hep Hx) as [_ Hr].
    pose proof (path_inj h D _ _ x (I_wf h db I) Hr Ha Hx) as ->.
    destruct (entity_path_inside _ _ _ _ _ _ Hep He) as [(-> & -> & ->)|[(? & _)|[(? & _)|(_ & k & -> & Hl)]]]; [by left|done|done|].
    right. exists k. split; [done|]. by exists q.
Qed.
Lemma in_domain_inside d x e i : get_path h D [d] = Some x -> in_domain h x d e i <-> inside (h, db) x e i.
Proof using I.
  intros Hx. pose proof (path_domain d) as Hep. split.
  - intros [[-> ->]|[(k & Hl & (q & Hq))|(c & p & y & Hc & Hy & [[-> ->]|(k & Hl & (q & Hq))])]].
    + exists [d], [], x. done.
    + exists [d], [k; i], q. split; [|done]. apply (path_leaf e k [d] i Hl). constructor.
    + exists [d], [OV_KEY_PROJECTS; p], y. split; [apply path_project|]. split; [done|]. cbn [fst snd walk]. by rewrite Hc; cbn; rewrite Hy.
    + exists [d], [OV_KEY_PROJECTS; p; k; i], q. split; [apply (path_leaf e k [d; OV_KEY_PROJECTS; p] i Hl); constructor|].
      split; [done|]. cbn [fst walk] in Hq |- *. rewrite Hc. cbn. by rewrite Hy.
  - intros (a & b & q & He & Ha & Hb). cbn [fst snd] in *. destruct (I_path_root h db I _ _ _ _ Hep Hx) as [_ Hr].
    pose proof (path_inj h D _ _ x (I_wf h db I) Hr Ha Hx) as ->.
    destruct (entity_path_inside _ _ _ _ _ _ Hep He) as [(-> & -> & ->)|[(_ & -> & ->)|[(_ & p & k & -> & Hl)|(_ & k & -> & Hl)]]].
    + by left.
    + right; right. cbn [walk] in Hb. destruct (get_key h x OV_KEY_PROJECTS) as [c|] eqn:Ec; [|done]. cbn in Hb.
      destruct (get_key h c i) as [y|] eqn:Ey; [|done]. exists c, i, y. split; [done|]. split; [done|]. by left.
    + right; right. cbn [walk] in Hb. destruct (get_key h x OV_KEY_PROJECTS) as [c|] eqn:Ec; [|done]. cbn [mbind option_bind] in Hb.
      destruct (get_key h c p) as [y|] eqn:Ey; [|done]. cbn [mbind option_bind] in Hb. exists c, p, y. split; [done|]. split; [done|]. right. exists k. split; [done|]. by exists q.
    + right; left. exists k. split; [done|]. by exists q.
Qed.
Lemma in_leaf_inside o k s i x : leaf s k -> owner_path o -> get_path h D (o ++ [k; i]) = Some x ->
  forall e' i', one s i e' i' <-> inside (h, db) x e' i'.
Proof using I.
  intros Hl Ho Hx e' i'. pose proof (path_leaf s k o i Hl Ho) as Hep. split.
  - intros [-> ->]. exists (o ++ [k; i]), [], x. rewrite app_nil_r. done.
  - intros (a & b & q & He & Ha & Hb). cbn [fst snd] in *. destruct (I_path_root h db I _ _ _ _ Hep Hx) as [_ Hr].
    pose proof (path_inj h D _ _ x (I_wf h db I) Hr Ha Hx) as ->.
    destruct (entity_path_inside _ _ _ _ _ _ Hep He) as [(-> & -> & ->)|[(-> & _)|[(-> & _)|([->| ->] & _)]]]; [done|inversion Hl..].
Qed.
End inside.

(** [db_delete] in two steps. *)
Definition unindex_entity (st : db_state) (id : string) (entity : ov_vocs_db_entity) : option (bool * db_state) :=
  match entity with
  | OV_VOCS_DB_DOMAIN => unindex_domain st id
  | OV_VOCS_DB_PROJECT => unindex_project st id
  | OV_VOCS_DB_LOOP => '(ok, self) ← unindex_loops id 0 st.2; Some (ok, (st.1, self))
  | OV_VOCS_DB_ROLE => '(ok, self) ← unindex_roles id 0 st.2; Some (ok, (st.1, self))
  | OV_VOCS_DB_USER => '(ok, self) ← unindex_users id 0 st.2; Some (ok, (st.1, self))
  | OV_VOCS_DB_ENTITY_ERROR => Some (false, st)
  end.
Lemma unindex_entity_spec h db id e src : db_inv (h, db) -> index db e !! id = Some src ->
  exists db', unindex_entity (h, db) id e = Some (true, (h, db')) /\ cut db db' (inside (h, db) src).
Proof.
  intros I Hi. destruct (I_index h db I e id src Hi) as (ks & He & Hp). pose proof (I_wf h db I) as W.
  pose proof (inv_dicts _ I) as Hd. cbn [snd] in Hd. destruct (I_path_root h db I _ _ _ _ He Hp) as [HD0 Hr].
  inversion He; subst; cbn [unindex_entity fst snd].
  - cbn [walk] in Hp. destruct (get_key h (data_domains db) id) as [x|] eqn:Ex; [|done]. injection Hp as ->.
    assert (Hx : get_path h (data_domains db) [id] = Some src) by (cbn; by rewrite Ex).
    destruct (unindex_domain_spec h db id src W Hd) as (db' & E & C).
    + right. destruct Hr as (v & Hv & _). by exists v.
    + done.
    + eapply (I_owner h db I); [constructor|done].
    + intros c Hc. split; [by eapply (I_projects h db I)|]. intros p x Hpx.
      assert (Hy : get_path h (data_domains db) [id; OV_KEY_PROJECTS; p] = Some x) by (cbn [walk]; rewrite Ex; cbn; rewrite Hc; cbn; by rewrite Hpx).
      split; [by apply (inv_complete _ I _ _ _ _ (path_project id p))|]. by eapply (I_owner h db I); [constructor|].
    + exists db'. split; [done|]. eapply cut_iff; [done|]. intros e i. by apply (in_domain_inside h db I).
  - destruct (unindex_project_spec h db id src W Hd Hi) as (db' & E & C).
    + eapply (I_owner h db I); [constructor|done].
    + exists db'. split; [done|]. eapply cut_iff; [done|]. intros e i. by apply (in_project_inside h db I d).
  - pose proof (in_leaf_inside h db I _ _ _ _ _ H H0 Hp) as Hin.
    destruct H; cbn [unindex_entity fst snd];
      [destruct (unindexes_users id 0 db Hd) as (db' & -> & C)|destruct (unindexes_roles id 0 db Hd) as (db' & -> & C)|
      destruct (unindexes_loops id 0 db Hd) as (db' & -> & C)]; (eexists; split; [done|]; by eapply cut_iff).
Qed.

(** ** Nodes go *)

(** [h'] is [h] without the nodes [U]; objects stay objects. *)
Record dropped (h h' : json_heap) (U : Z -> Prop) : Prop := {
  dr_wf : wf h';
  dr_root r : is_root h r -> is_root h' r;
  dr_path r ks q : is_root h r -> get_path h' r ks = Some q <-> get_path h r ks = Some q /\ ~ U q;
  dr_object q : is_object h q -> ~ U q -> is_object h' q;
  dr_string q s : is_string h q s -> ~ U q -> is_string h' q s
}.
Lemma dropped_changed h p k h' : wf h -> changed h p k None h' -> dropped h h' (at_key h p k).
Proof.
  intros W C. split; [apply (ch_wf _ _ _ _ _ C)| | | |].
  - intros r Hr. by eapply changed_root.
  - intros r ks q Hr. by eapply changed_cut.
  - intros q. by eapply changed_object.
  - intros q s (v & Hv & Ht) Hn. destruct (decide (q = p)) as [->|Hqp].
    + destruct (ch_object _ _ _ _ _ C v Hv) as [d E]. congruence.
    + destruct (changed_type C q v Hv Hn Hqp) as (v' & Hv' & E). exists v'. split; [done|congruence].
Qed.
(** The invariant after the entities [X] left the index and the nodes [U] the
    tree. *)
Lemma db_inv_drop h db h' db' X U : db_inv (h, db) -> cut db db' X -> dropped h h' U ->
  (forall e ks id q, entity_path e ks id -> get_path h (data_domains db) ks = Some q -> U q -> X e id \/ index db e !! id <> Some q) ->
  (forall e ks id q, entity_path e ks id -> get_path h (data_domains db) ks = Some q -> X e id -> is_admin_role e id = false -> U q) ->
  (forall d x i, get_path h (data_domains db) [d] = Some x -> get_path h (data_domains db) [d; OV_KEY_ID] = Some i -> U i -> U x) ->
  db_inv (h', db').
Proof.
  intros I C Dr HX HU Hid. pose proof (cut_domains _ _ _ C) as ED. pose proof (cut_state _ _ _ C) as ES.
  assert (Hpath : forall e ks id q, entity_path e ks id -> get_path h' (data_domains db) ks = Some q ->
    get_path h (data_domains db) ks = Some q /\ ~ U q).
  { intros e ks id q He Hp. destruct (inv_domains _ I) as [E0|Hr]; cbn [fst snd] in *; [|by apply (dr_path _ _ _ Dr)].
    rewrite E0 in Hp. destruct (entity_path_nonempty _ _ _ He) as [[|k a] ->];
      apply walk_cons_Some in Hp as (c & Hc & _); unfold get_key in Hc; by rewrite (jw_zero _ h' (dr_wf _ _ _ Dr)) in Hc. }
  split; cbn [fst snd]; rewrite ?ED, ?ES.
  - apply (dr_wf _ _ _ Dr).
  - destruct (inv_domains _ I) as [|Hr]; [by left|right]. by apply (dr_root _ _ _ Dr).
  - destruct (inv_state _ I) as [|Hr]; [by left|right]. by apply (dr_root _ _ _ Dr).
  - apply (inv_apart _ I).
  - apply (cut_ok _ _ _ C).
  - intros e id q Hq. apply (cut_in _ _ _ C) in Hq as [Hq Hn]. destruct (I_index h db I e id q Hq) as (ks & He & Hp).
    exists ks. split; [done|]. destruct (I_path_root h db I _ _ _ _ He Hp) as [_ Hr]. apply (dr_path _ _ _ Dr); [done|].
    split; [done|]. intros Hu. by destruct (HX e ks id q He Hp Hu).
  - intros e ks id q He Hp Ha. destruct (Hpath _ _ _ _ He Hp) as [Hp' Hu].
    apply (cut_out _ _ _ C); [by eapply (inv_complete _ I)|]. intros Hx. apply Hu. by eapply HU.
  - intros e ks id q He Hp. destruct (Hpath _ _ _ _ He Hp) as [Hp' Hu]. apply (dr_object _ _ _ Dr); [|done].
    by eapply (inv_entity _ I).
  - intros e ks id q He HD Hp. destruct (inv_domains _ I) as [E0|Hr]; cbn [fst snd] in *; [done|].
    apply (dr_path _ _ _ Dr) in Hp as [Hp Hu]; [|done]. apply (dr_object _ _ _ Dr); [|done]. by eapply (inv_container _ I).
  - intros d x Hx. destruct (Hpath _ _ _ _ (path_domain d) Hx) as [Hx' Hu]. destruct (inv_ids _ I d x Hx') as (i & Hi & Hs).
    destruct (I_path_root h db I _ _ _ _ (path_domain d) Hx') as [_ Hr]. assert (Hui : ~ U i) by (intros Hui; by apply Hu, (Hid d x i)).
    exists i. split; [by apply (dr_path _ _ _ Dr)|]. by apply (dr_string _ _ _ Dr).
Qed.
