(* ===== verification/VocsDbOps.v ===== *)
(** * The domain database: deleting and creating entities

    Both keep the invariant [db_inv]. Deleting takes the entity and all that
    is in it out of the tree and out of the index; creating adds exactly one
    entity, and fails when the id is used or the owner does not exist. *)
From S2P Require Import Prelude Hashtable OvList Dict JsonValue JsonTree JsonOps JsonPaths JsonPointer Permission VocsDb VocsDbInv.

(** ** Deleting *)

Lemma dropped_iff h h' U V : dropped h h' U -> (forall q, U q <-> V q) -> dropped h h' V.
Proof.
  intros D H. split; try apply D.
  - intros r ks q Hr. rewrite (dr_path _ _ _ D r ks q Hr). by rewrite H.
  - intros q Ho Hq. apply (dr_object _ _ _ D); [done|by rewrite H].
  - intros q s Hs Hq. apply (dr_string _ _ _ D); [done|by rewrite H].
Qed.
(** The id of a domain is not in anything deeper. *)
Lemma domain_id_below h db d i ks o : wf h -> is_root h (data_domains db) -> get_path h (data_domains db) [d; OV_KEY_ID] = Some i ->
  get_path h (data_domains db) ks = Some o -> below h o i -> (ks = [] \/ ks = [d]) \/ ks = [d; OV_KEY_ID].
Proof.
  intros W Hr Hi Ho Hb. destruct (below_path h _ _ o i W Hr Hi Hb) as (a & b & E & Ha & _).
  rewrite (path_inj h _ ks a o W Hr Ho Ha). destruct a as [|a1 [|a2 [|a3 a]]]; cbn in E; simplify_eq; auto.
Qed.
Lemma db_delete_eq st id e : db_delete st id e =
  (src ← index_get (get_index_dict st.2 e) id;
   if src =? 0 then Some (true, st) else
   '(result, (h, self)) ← unindex_entity st id e;
   v ← jload h src;
   if parent v =? 0 then None else
   '(ok, h) ← ov_json_object_del h (parent v) id; Some (result && ok, (h, self))).
Proof. done. Qed.
Lemma db_delete_absent h db e id : db_inv (h, db) -> index db e !! id = None -> db_delete (h, db) id e = Some (true, (h, db)).
Proof.
  intros I Hi. unfold db_delete. cbn [snd]. rewrite (index_get_spec db e id (inv_dicts _ I)), Hi. done.
Qed.
Lemma db_delete_spec h db e id src : db_inv (h, db) -> index db e !! id = Some src ->
  exists h' db', db_delete (h, db) id e = Some (true, (h', db')) /\ db_inv (h', db') /\
    cut db db' (inside (h, db) src) /\ dropped h h' (below h src) /\ index db' e !! id = None.
Proof.
  intros I Hi. pose proof (I_wf h db I) as W. destruct (I_index h db I e id src Hi) as (ks & He & Hp).
  destruct (I_path_root h db I _ _ _ _ He Hp) as [HD0 Hr].
  destruct (unindex_entity_spec h db id e src I Hi) as (db' & Eu & C).
  destruct (entity_path_nonempty _ _ _ He) as [a ->].
  destruct (I_container h db I e a id src He Hp) as (c & v & Hc & Hk & Hco & Hv & Epv).
  destruct (del_changed h c id W Hco) as (h' & Ed & Ch).
  assert (Hat : forall q, at_key h c id q <-> below h src q).
  { intros q. unfold at_key. rewrite Hk. split; [by intros (o & [= <-] & Hb)|]. eauto. }
  assert (Hs0 : src <> 0) by (by eapply get_key_nonzero).
  assert (Hc0 : c <> 0) by (apply is_object_live in Hco as [u Hu]; by eapply live_nonzero; [apply (jw_zero _ h W)|]).
  exists h', db'. split; [|split; [|split; [done|split]]].
  - rewrite db_delete_eq. cbn [snd]. rewrite (index_get_spec db e id (inv_dicts _ I)), Hi. change (default 0 (Some src)) with src.
    cbn [mbind option_bind]. rewrite (proj2 (Z.eqb_neq src 0) Hs0). rewrite Eu.
    cbn [mbind option_bind]. rewrite (jload_Some h src v (jw_zero _ h W) Hv). cbn [mbind option_bind]. rewrite Epv.
    rewrite (proj2 (Z.eqb_neq c 0) Hc0), Ed. done.
  - eapply (db_inv_drop h db h' db' _ (at_key h c id) I C); [by apply dropped_changed| | |].
    + intros e' ks' id' q He' Hp' Hu. left. apply Hat in Hu.
      destruct (below_path h _ ks' src q W Hr Hp' Hu) as (a' & b & -> & Ha & Hb). by exists a', b, q.
    + intros e' ks' id' q He' Hp' (a' & b & q2 & He2 & Ha & Hb) Hadm. cbn [fst snd] in *.
      assert (Hq2 : get_path h (data_domains db) (a' ++ b) = Some q2) by (apply walk_app_Some; by exists src).
      pose proof (inv_complete _ I e' ks' id' q He' Hp' Hadm) as E1.
      pose proof (inv_complete _ I e' _ id' q2 He2 Hq2 Hadm) as E2. cbn [fst snd] in *.
      assert (q = q2) as -> by congruence. apply Hat. by eapply path_below.
    + intros d x i Hx Hi' Hu. apply Hat in Hu. destruct (domain_id_below h db d i _ src W Hr Hi' Hp Hu) as [[E|E]|E].
      * by destruct a.
      * rewrite E in Hp. assert (src = x) as -> by congruence. by apply Hat.
      * rewrite E in He. by destruct (entity_path_cases _ _ _ He) as [E'|[(? & ? & E')|(? & ? & ? & ? & E')]].
  - eapply dropped_iff; [by apply dropped_changed|done].
  - destruct (index db' e !! id) as [q|] eqn:Eq; [|done]. apply (cut_in _ _ _ C) in Eq as [_ Hn]. destruct Hn.
    exists (a ++ [id]), [], src. by rewrite app_nil_r.
Qed.

(** One step of [delete_in]: the member [id] of the object at [item] goes. *)
Lemma delete_in_parent_spec h id item key v : wf h -> is_Some (h !! v) ->
  exists ok h' U, delete_in_parent id item key v h = Some (ok, h') /\ dropped h h' U /\
    (forall q, U q -> exists c o, get_key h v item = Some c /\ get_key h c id = Some o /\ below h o q) /\
    (forall c o, get_key h v item = Some c -> get_key h c id = Some o -> U o) /\
    (ok = false -> exists c, get_key h v item = Some c /\ ~ is_object h c).
Proof.
  intros W [x Hx]. pose proof (live_nonzero h v x (jw_zero _ h W) Hx) as Hv0. unfold delete_in_parent, ov_json_value_cast.
  rewrite (proj2 (Z.eqb_neq v 0) Hv0), (jload_Some h v x (jw_zero _ h W) Hx). cbn [mbind option_bind].
  rewrite (proj2 (Z.eqb_neq v 0) Hv0). rewrite json_get_spec by eauto. cbn [mbind option_bind].
  assert (Hno : dropped h h (fun _ => False)) by (split; [done|done|naive_solver|done|done]).
  destruct (get_key h v item) as [c|] eqn:E.
  2:{ exists true, h, (fun _ => False). split; [done|]. split; [done|]. split; [by intros q []|]. by split. }
  change (default 0 (Some c)) with c. rewrite (proj2 (Z.eqb_neq c 0)) by (by eapply get_key_nonzero).
  destruct (get_key_parent _ h v item c W E) as (y & Hy & _).
  destruct (type y) as [d| | | | | |] eqn:Et.
  1:{ assert (Hco : is_object h c) by (exists d, (parent y); rewrite <- Et; by destruct y).
      destruct (del_changed h c id W Hco) as (h' & -> & Ch). exists true, h', (at_key h c id). split; [done|].
      split; [by apply dropped_changed|]. split; [intros q (o & Ho & Hb); by exists c, o|]. split; [|done].
      intros c' o [= <-] Ho. by exists o. }
  all: assert (Hn : ~ is_object h c) by (intros (d & q & Hd); rewrite Hy in Hd; by injection Hd as ->);
    destruct (set_not_object h c id 0 (jw_zero _ h W) ltac:(right; by exists y) Hn) as (_ & -> & _);
    exists false, h, (fun _ => False); split; [done|]; split; [done|]; split; [done|]; split; [|by intros _; exists c];
    intros c' o [= <-] Ho; by apply get_key_is_object in Ho.
Qed.

(** Entities that are not below the nodes that go stay. *)
Definition same_entities (db : ov_vocs_db) (h h' : json_heap) : Prop := forall e ks id q, entity_path e ks id ->
  get_path h' (data_domains db) ks = Some q <-> get_path h (data_domains db) ks = Some q.
(** The same, but for admin roles when an admin role is deleted. *)
Definition kept (db : ov_vocs_db) (e : ov_vocs_db_entity) (id : string) (h h' : json_heap) : Prop :=
  forall e' ks i q, entity_path e' ks i -> is_admin_role e id && is_admin_role e' i = false ->
  get_path h' (data_domains db) ks = Some q <-> get_path h (data_domains db) ks = Some q.
(** Nothing is new. *)
Definition shrinks (db : ov_vocs_db) (h h' : json_heap) : Prop := forall ks q, ks <> [] ->
  get_path h' (data_domains db) ks = Some q -> get_path h (data_domains db) ks = Some q.
Definition container_key (e : ov_vocs_db_entity) (k : string) : Prop :=
  leaf e k \/ (e = OV_VOCS_DB_PROJECT /\ k = OV_KEY_PROJECTS).
(** The path of a member of an owner, or of a domain's projects. *)
Definition owns (e : ov_vocs_db_entity) (k : string) (o : list string) : Prop :=
  (leaf e k /\ owner_path o) \/ (e = OV_VOCS_DB_PROJECT /\ k = OV_KEY_PROJECTS /\ exists d, o = [d]).
Lemma owns_path e k o id : owns e k o -> entity_path e (o ++ [k; id]) id.
Proof. intros [[Hl Ho]|(-> & -> & d & ->)]; [by apply path_leaf|constructor]. Qed.
Lemma owns_owner e k o : owns e k o -> owner_path o.
Proof. intros [[_ Ho]|(_ & _ & d & ->)]; [done|constructor]. Qed.

Section step.
Context (h : json_heap) (db : ov_vocs_db) (I : db_inv (h, db)).
#[local] Abbreviation D := (data_domains db).
Lemma dropped_same U h' : dropped h h' U ->
  (forall e ks id q, entity_path e ks id -> get_path h D ks = Some q -> ~ U q) -> same_entities db h h'.
Proof using I.
  intros Dr Hu e ks id q He. split.
  - intros Hp. destruct (inv_domains _ I) as [E0|Hr]; cbn [fst snd] in *; [|by apply (dr_path _ _ _ Dr) in Hp as [Hp _]].
    rewrite E0 in Hp. destruct (entity_path_nonempty _ _ _ He) as [[|k a] ->];
      apply walk_cons_Some in Hp as (c & Hc & _); unfold get_key in Hc; by rewrite (jw_zero _ h' (dr_wf _ _ _ Dr)) in Hc.
  - intros Hp. destruct (I_path_root h db I _ _ _ _ He Hp) as [_ Hr]. apply (dr_path _ _ _ Dr); [done|]. split; [done|]. by eapply Hu.
Qed.
Lemma dropped_shrinks U h' : dropped h h' U -> shrinks db h h'.
Proof using I.
  intros Dr ks q Hne Hp. destruct (inv_domains _ I) as [E0|Hr]; cbn [fst snd] in *; [|by apply (dr_path _ _ _ Dr) in Hp as [Hp _]].
  rewrite E0 in Hp. destruct ks as [|k ks]; [done|].
  apply walk_cons_Some in Hp as (c & Hc & _). unfold get_key in Hc. by rewrite (jw_zero _ h' (dr_wf _ _ _ Dr)) in Hc.
Qed.
(** The node at [id] among the members of an owner, when the index does not know
    the id: there is none, or it is an admin role. *)
Lemma delete_member_step key e k o v id : owns e k o -> get_path h D o = Some v -> index db e !! id = None ->
  exists h', delete_in_parent id k key v h = Some (true, h') /\ db_inv (h', db) /\
    kept db e id h h' /\ shrinks db h h' /\ get_path h' D (o ++ [k; id]) = None.
Proof using I.
  intros Ho Hv Hi. pose proof (I_wf h db I) as W. pose proof (owns_owner e k o Ho) as Hop. pose proof (I_owner h db I o v Hop Hv) as [Hvo _].
  destruct (delete_in_parent_spec h id k key v W (is_object_live h v Hvo)) as (ok & h' & U & E & Dr & HU & HU' & Hok).
  assert (Hent : forall c q, get_key h v k = Some c -> get_key h c id = Some q ->
    get_path h D (o ++ [k; id]) = Some q /\ is_admin_role e id = true).
  { intros c q Hc Hq. assert (Hp : get_path h D (o ++ [k; id]) = Some q).
    { apply walk_app_Some. exists v. split; [done|]. cbn. by rewrite Hc; cbn; rewrite Hq. }
    split; [done|]. destruct (is_admin_role e id) eqn:Ea; [done|].
    pose proof (inv_complete _ I _ _ _ _ (owns_path e k o id Ho) Hp Ea) as E'. cbn [fst snd] in E'. congruence. }
  assert (ok = true) as ->.
  { destruct ok; [done|]. destruct (Hok eq_refl) as (c & Hc & Hn). destruct Hn.
    destruct Ho as [[Hl _]|(-> & -> & d & ->)]; [by eapply (I_members h db I e k o v)|by eapply (I_projects h db I)]. }
  assert (Hadm : forall e' ks id' q, entity_path e' ks id' -> get_path h D ks = Some q -> U q ->
    e' = e /\ id' = id /\ is_admin_role e id = true).
  { intros e' ks id' q He Hp Hu. destruct (HU q Hu) as (c & x & Hc & Hx & Hb). destruct (Hent c x Hc Hx) as [Hpx Ha].
    destruct (I_path_root h db I _ _ _ _ He Hp) as [_ Hr].
    destruct (below_path h _ ks x q W Hr Hp Hb) as (a' & b & -> & Ha' & Hb').
    pose proof (path_inj h _ _ _ x W Hr Ha' Hpx) as ->. split; [|split; [|done]]; unfold is_admin_role in Ha; destruct e; try done;
    by destruct (entity_path_inside _ _ _ _ _ _ (owns_path _ k o id Ho) He) as [(-> & -> & ->)|[(? & _)|[(? & _)|([?|?] & _)]]]. }
  exists h'. split; [done|]. split; [|split; [|split]].
  - eapply (db_inv_drop h db h' db _ U I (cut_refl db (inv_dicts _ I)) Dr); [|by intros ? ? ? ? _ _ []|].
    2:{ intros d y i Hy Hid Hu. destruct (HU i Hu) as (c & x & Hc & Hx & Hb). destruct (Hent c x Hc Hx) as [Hpx _]. exfalso.
        destruct (I_path_root h db I _ _ _ _ (path_domain d) Hy) as [_ Hr].
        destruct (domain_id_below h db d i _ x W Hr Hid Hpx Hb) as [[E'|E']|E']; by destruct Hop. }
    intros e' ks id' q He Hp Hu. right. destruct (Hadm e' ks id' q He Hp Hu) as (-> & -> & _). by rewrite Hi.
  - intros e' ks i q He Hn. split; [apply (dropped_shrinks U h' Dr); by destruct (entity_path_nonempty _ _ _ He) as [[|? ?] ->]|].
    intros Hp. destruct (I_path_root h db I _ _ _ _ He Hp) as [_ Hr]. apply (dr_path _ _ _ Dr); [done|]. split; [done|].
    intros Hu. destruct (Hadm e' ks i q He Hp Hu) as (-> & -> & Ha). by rewrite Ha in Hn.
  - by eapply dropped_shrinks.
  - destruct (get_path h' D (o ++ [k; id])) as [q|] eqn:Eq; [|done]. exfalso.
    assert (Hq : get_path h D (o ++ [k; id]) = Some q) by (eapply dropped_shrinks; [done|by destruct o|done]).
    destruct (I_path_root h db I _ _ _ _ (owns_path _ k o id Ho) Hq) as [_ Hr]. apply (dr_path _ _ _ Dr) in Eq as [_ Hu]; [|done].
    apply walk_app_Some in Hq as (v' & Hv' & Hq). assert (v' = v) as -> by congruence.
    cbn [walk] in Hq. destruct (get_key h v k) as [c|] eqn:Ec; [|done]. cbn in Hq.
    destruct (get_key h c id) as [y|] eqn:Ey; [|done]. cbn in Hq. injection Hq as ->. by apply Hu, (HU' c q).
Qed.
(** The members of a role are no entities. *)
Lemma delete_user_step r v id : index db OV_VOCS_DB_ROLE !! r = Some v ->
  exists ok h' U, delete_in_parent id OV_KEY_USERS r v h = Some (ok, h') /\ db_inv (h', db) /\ same_entities db h h' /\
    dropped h h' U /\ forall c q, get_key h v OV_KEY_USERS = Some c -> get_key h c id = Some q -> U q.
Proof using I.
  intros Hi. pose proof (I_wf h db I) as W. destruct (I_index h db I _ r v Hi) as (ks & He & Hv).
  pose proof (I_live h db I _ r v Hi) as Hvo.
  destruct (delete_in_parent_spec h id OV_KEY_USERS r v W (is_object_live h v Hvo)) as (ok & h' & U & E & Dr & HU & HU' & _).
  assert (Hno : forall e' ks' id' q, entity_path e' ks' id' -> get_path h D ks' = Some q -> ~ U q).
  { intros e' ks' id' q He' Hp Hu. destruct (HU q Hu) as (c & x & Hc & Hx & Hb). destruct (I_path_root h db I _ _ _ _ He' Hp) as [_ Hr].
    destruct (below_path h _ ks' x q W Hr Hp Hb) as (a' & b & -> & Ha' & Hb').
    assert (Hpx : get_path h D (ks ++ [OV_KEY_USERS; id]) = Some x).
    { apply walk_app_Some. exists v. split; [done|]. cbn [walk]. rewrite Hc. cbn. by rewrite Hx. }
    pose proof (path_inj h _ _ _ x W Hr Ha' Hpx) as ->. rewrite <- app_assoc in He'.
    by destruct (entity_path_inside _ _ _ _ _ _ He He') as [(? & _)|[(? & _)|[(? & _)|([?|?] & _)]]]. }
  exists ok, h', U. split; [done|]. split; [|split; [by eapply dropped_same|done]].
  eapply (db_inv_drop h db h' db _ U I (cut_refl db (inv_dicts _ I)) Dr); [|by intros ? ? ? ? _ _ []|].
  { intros e' ks' id' q He' Hp Hu. by destruct (Hno e' ks' id' q). }
  intros d y i Hy Hid Hu. destruct (HU i Hu) as (c & x & Hc & Hx & Hb). exfalso.
  destruct (I_path_root h db I _ _ _ _ (path_domain d) Hy) as [_ Hr].
  assert (Hpx : get_path h D (ks ++ [OV_KEY_USERS; id]) = Some x).
  { apply walk_app_Some. exists v. split; [done|]. cbn [walk]. rewrite Hc. cbn. by rewrite Hx. }
  destruct (entity_path_cases _ _ _ He) as [->|[(? & ? & ->)|(? & ? & ? & ? & ->)]];
    by destruct (domain_id_below h db d i _ x W Hr Hid Hpx Hb) as [[E'|E']|E'].
Qed.
End step.

Lemma index_pairs db e d k v : dicts_ok db -> get_index_dict db e = Some d -> (k, v) ∈ concat (items d) <-> index db e !! k = Some v.
Proof. intros H Hd. unfold index. rewrite Hd. symmetry. apply dict_map_elem. by eapply H. Qed.
Lemma same_entities_trans db h h1 h2 : same_entities db h h1 -> same_entities db h1 h2 -> same_entities db h h2.
Proof. intros H1 H2 e ks id q He. by rewrite (H2 _ _ _ _ He), (H1 _ _ _ _ He). Qed.
Lemma kept_trans db e id h h1 h2 : kept db e id h h1 -> kept db e id h1 h2 -> kept db e id h h2.
Proof. intros H1 H2 e' ks i q He Hn. by rewrite (H2 _ _ _ _ He Hn), (H1 _ _ _ _ He Hn). Qed.
Lemma shrinks_trans db h h1 h2 : shrinks db h h1 -> shrinks db h1 h2 -> shrinks db h h2.
Proof. intros H1 H2 ks q Hne Hq. apply H1, H2; done. Qed.
(** [delete_in] over the index of the owners. *)
Lemma delete_in_owners h db eo d e k id result : db_inv (h, db) -> get_index_dict db eo = Some d ->
  (forall o x, entity_path eo o x -> owns e k o) -> (forall x, is_admin_role eo x = false) -> index db e !! id = None ->
  exists h', delete_in d id k result h = Some (result && true, h') /\ db_inv (h', db) /\
    kept db e id h h' /\ shrinks db h h' /\
    forall o x, entity_path eo o x -> get_path h' (data_domains db) (o ++ [k; id]) = None.
Proof.
  intros I Hd Hown Hna Hi. unfold delete_in, impl_dict_for_each.
  destruct (each_pair_inv (delete_in_parent id k) (fun done h1 => db_inv (h1, db) /\ kept db e id h h1 /\ shrinks db h h1 /\
    forall r v, (r, v) ∈ done -> forall o, entity_path eo o r -> get_path h1 (data_domains db) (o ++ [k; id]) = None)
    (concat (items d)) h) as (h' & -> & I' & K' & Sh' & N').
  - split; [done|]. split; [by intros ? ? ? ? _ _|]. split; [by intros ? ? _|]. by intros r v ?%elem_of_nil.
  - intros done key v h1 Hin (I1 & K1 & Sh1 & N1). apply (index_pairs db eo d key v (inv_dicts _ I)) in Hin; [|done].
    destruct (I_index h1 db I1 eo key v Hin) as (o & He & Hv).
    destruct (delete_member_step h1 db I1 key e k o v id (Hown _ _ He) Hv Hi) as (h2 & E & I2 & K2 & Sh2 & N2).
    exists h2. split; [done|]. split; [done|]. split; [by eapply kept_trans|]. split; [by eapply shrinks_trans|].
    intros r v' [Hr|Hr]%elem_of_app o' He'.
    + pose proof (N1 r v' Hr o' He') as Hn. destruct (get_path h2 _ (o' ++ [k; id])) as [q|] eqn:Eq; [|done].
      apply Sh2 in Eq; [congruence|by destruct o'].
    + apply list_elem_of_singleton in Hr. injection Hr as -> ->.
      destruct (get_path h2 _ (o' ++ [k; id])) as [q|] eqn:Eq; [|done]. exfalso.
      assert (Eq1 : get_path h1 (data_domains db) (o' ++ [k; id]) = Some q) by (apply Sh2; [by destruct o'|done]).
      apply walk_app_Some in Eq1 as (x & Hx & _). pose proof (inv_complete _ I1 _ _ _ _ He' Hx (Hna key)) as Hx'. cbn [fst snd] in Hx'.
      assert (x = v) as -> by congruence. destruct (I_same h1 db I1 _ _ _ _ _ _ _ He He' Hv Hx) as [-> _]. congruence.
  - exists h'. split; [done|]. split; [done|]. split; [done|]. split; [done|]. intros o x He.
    destruct (get_path h' _ (o ++ [k; id])) as [q|] eqn:Eq; [|done]. exfalso. pose proof Eq as Hq.
    apply walk_app_Some in Hq as (y & Hy & _). pose proof (inv_complete _ I' _ _ _ _ He Hy (Hna x)) as Hx. cbn [fst snd] in Hx.
    apply (index_pairs db eo d x y (inv_dicts _ I)) in Hx; [|done]. by rewrite (N' x y Hx o He) in Eq.
Qed.
Lemma delete_in_roles h db id result : db_inv (h, db) ->
  exists ok h', delete_in (roles db) id OV_KEY_USERS result h = Some (result && ok, h') /\ db_inv (h', db) /\ same_entities db h h' /\
    (ok = true -> forall r v, index db OV_VOCS_DB_ROLE !! r = Some v -> get_path h' v [OV_KEY_USERS; id] = None).
Proof.
  intros I. unfold delete_in, impl_dict_for_each.
  destruct (each_pair_keep (delete_in_parent id OV_KEY_USERS) (fun done h1 => db_inv (h1, db) /\ same_entities db h h1 /\
    forall r v, (r, v) ∈ done -> index db OV_VOCS_DB_ROLE !! r = Some v /\ get_path h1 v [OV_KEY_USERS; id] = None)
    (concat (items (roles db))) h) as (ok & done & h' & -> & (I' & S' & Hdone) & Hok).
  - split; [done|]. split; [done|]. by intros r v ?%elem_of_nil.
  - intros done key v h1 Hin (I1 & S1 & Hd1). apply (index_pairs db OV_VOCS_DB_ROLE (roles db) key v (inv_dicts _ I) eq_refl) in Hin.
    destruct (delete_user_step h1 db I1 key v id Hin) as (ok & h2 & U & E & I2 & S2 & Dr & HU). exists ok, h2.
    split; [done|]. split; [done|]. split; [by eapply same_entities_trans|].
    assert (Hroot : is_root h1 (data_domains db)).
    { destruct (I_index h1 db I1 _ key v Hin) as (ks & He & Hv). by destruct (I_path_root h1 db I1 _ _ _ _ He Hv). }
    assert (Hback : forall x ks q, (exists a, get_path h1 (data_domains db) a = Some x /\ get_path h2 (data_domains db) a = Some x) ->
      get_path h2 x ks = Some q -> get_path h1 x ks = Some q /\ ~ U q).
    { intros x ks q (a & Ha1 & Ha2) Hq. assert (Hq2 : get_path h2 (data_domains db) (a ++ ks) = Some q) by (apply walk_app_Some; eauto).
      apply (dr_path _ _ _ Dr) in Hq2 as [Hq2 Hu]; [|done]. split; [|done]. apply walk_app_Some in Hq2 as (y & Hy & Hq2). congruence. }
    assert (Hrole : forall r x, index db OV_VOCS_DB_ROLE !! r = Some x ->
      exists a, get_path h1 (data_domains db) a = Some x /\ get_path h2 (data_domains db) a = Some x).
    { intros r x Hx. destruct (I_index h1 db I1 _ r x Hx) as (ks & He & Hv). exists ks. split; [done|]. by apply (S2 _ _ _ _ He). }
    intros r x Hin'. split.
    { apply elem_of_app in Hin' as [Hin'|Hin']; [by apply Hd1|]. apply list_elem_of_singleton in Hin'. by injection Hin' as -> ->. }
    destruct (get_path h2 x [OV_KEY_USERS; id]) as [q|] eqn:Eq; [|done]. exfalso.
    apply elem_of_app in Hin' as [Hin'|Hin'].
    + destruct (Hback x _ q (Hrole r x (proj1 (Hd1 r x Hin'))) Eq) as [Eq1 _]. by rewrite (proj2 (Hd1 r x Hin')) in Eq1.
    + apply list_elem_of_singleton in Hin'. injection Hin' as -> ->. destruct (Hback v _ q (Hrole key v Hin) Eq) as [Eq1 Hu].
      cbn [walk] in Eq1. destruct (get_key h1 v OV_KEY_USERS) as [c|] eqn:Ec; [|done]. cbn in Eq1.
      destruct (get_key h1 c id) as [y|] eqn:Ey; [|done]. cbn in Eq1. injection Eq1 as ->. by apply Hu, (HU c q).
  - exists ok, h'. cbn [mbind option_bind]. split; [done|]. split; [done|]. split; [done|]. intros E r v Hv. apply (Hdone r v).
    rewrite (Hok E). by apply (index_pairs db OV_VOCS_DB_ROLE (roles db) r v (inv_dicts _ I) eq_refl).
Qed.

(** The entities of [h'] are those of [h] that are not in the entity [id]; when a
    role called admin is deleted, other admin roles may be gone, too. *)
Definition without (h : json_heap) (db : ov_vocs_db) (e : ov_vocs_db_entity) (id : string) (h' : json_heap) : Prop :=
  forall e' ks i q, entity_path e' ks i -> is_admin_role e id && is_admin_role e' i = false ->
    get_path h' (data_domains db) ks = Some q <->
      get_path h (data_domains db) ks = Some q /\ forall src, index db e !! id = Some src -> ~ below h src q.
(** No domain and no project has a role called admin. *)
Definition no_admin_role (h : json_heap) (db : ov_vocs_db) : Prop :=
  forall o, owner_path o -> get_path h (data_domains db) (o ++ [OV_KEY_ROLES; OV_KEY_ADMIN]) = None.
Lemma db_delete_total h db e id : db_inv (h, db) -> exists h' db', db_delete (h, db) id e = Some (true, (h', db')) /\
  db_inv (h', db') /\ (forall e' i q, index db' e' !! i = Some q -> index db e' !! i = Some q) /\
  data_domains db' = data_domains db /\ index db' e !! id = None /\ without h db e id h'.
Proof.
  intros I. destruct (index db e !! id) as [src|] eqn:Hi.
  - destruct (db_delete_spec h db e id src I Hi) as (h' & db' & E & I' & C & Dr & Hn). exists h', db'.
    split; [done|]. split; [done|]. split; [intros e' i q Hq; by apply (cut_in _ _ _ C) in Hq as [Hq _]|]. split; [apply (cut_domains _ _ _ C)|]. split; [done|]. intros e' ks i q He _.
    destruct (I_index h db I e id src Hi) as (ks0 & He0 & Hp0). destruct (I_path_root h db I _ _ _ _ He0 Hp0) as [_ Hr].
    rewrite (dr_path _ _ _ Dr _ _ _ Hr), Hi. split; intros [Hp Hb]; (split; [done|]); [by intros s [= <-]|by apply Hb].
  - exists h, db. split; [by apply db_delete_absent|]. split; [done|]. split; [done|]. split; [done|]. split; [done|].
    intros e' ks i q He _. rewrite Hi. split; [by split|by intros []].
Qed.
Lemma without_kept h db db1 e id h1 h2 : data_domains db1 = data_domains db ->
  without h db e id h1 -> kept db1 e id h1 h2 -> without h db e id h2.
Proof. intros E H1 H2 e' ks i q He Hn. rewrite <- (H1 e' ks i q He Hn). rewrite <- E. by apply (H2 e' ks i q). Qed.
Lemma same_kept db e id h h' : same_entities db h h' -> kept db e id h h'.
Proof. intros H e' ks i q He _. by eapply H. Qed.
Lemma domain_owns e k o x : container_key e k -> entity_path OV_VOCS_DB_DOMAIN o x -> owns e k o.
Proof. intros Hc H. inversion H; subst; [|by inversion H0]. destruct Hc as [Hl|[-> ->]]; [left; split; [done|constructor]|right; eauto]. Qed.
Lemma project_owns e k o x : leaf e k -> entity_path OV_VOCS_DB_PROJECT o x -> owns e k o.
Proof. intros Hl H. inversion H; subst; [|by inversion H0]. left. split; [done|constructor]. Qed.

(** The members of domains and of projects, when the index does not know the id. *)
Lemma delete_in_both h db e k id : db_inv (h, db) -> leaf e k -> index db e !! id = None ->
  exists h', ('(result, h1) ← delete_in (domains db) id k true h; delete_in (projects db) id k result h1) = Some (true, h') /\
    db_inv (h', db) /\ kept db e id h h' /\
    forall o, owner_path o -> get_path h' (data_domains db) (o ++ [k; id]) = None.
Proof.
  intros I Hl Hn.
  destruct (delete_in_owners h db OV_VOCS_DB_DOMAIN (domains db) e k id true I eq_refl) as (h2 & -> & I2 & K2 & _ & N2);
    [intros o x; apply domain_owns; by left|done..|]. cbn [mbind option_bind andb].
  destruct (delete_in_owners h2 db OV_VOCS_DB_PROJECT (projects db) e k id true I2 eq_refl) as (h3 & -> & I3 & K3 & Sh3 & N3);
    [intros o x; by apply project_owns|done..|]. exists h3. split; [done|]. split; [done|]. split; [by eapply kept_trans|].
  intros o [d|d p]; [|by apply (N3 _ p); constructor].
  destruct (get_path h3 _ ([d] ++ [k; id])) as [q|] eqn:Eq; [|done]. apply Sh3 in Eq; [|done].
  by rewrite (N2 [d] d) in Eq by constructor.
Qed.
(** Deleting an entity of a database in order returns; the database is in
    order again, the id is not known any more, and what is left of the domains is
    what was not in the deleted entity; when it is a role called admin all other
    admin roles are gone, too. When a user is deleted with success no known role
    has a member of that name any more. *)
Lemma delete_entity_spec st e id : db_inv st ->
  exists b h' db', ov_vocs_db_delete_entity true st e id = Some (b, (h', db')) /\ db_inv (h', db') /\
    (forall e' i q, index db' e' !! i = Some q -> index st.2 e' !! i = Some q) /\
    data_domains db' = data_domains st.2 /\ index db' e !! id = None /\
    (e <> OV_VOCS_DB_ENTITY_ERROR -> e <> OV_VOCS_DB_USER -> b = true) /\
    without st.1 st.2 e id h' /\ (is_admin_role e id = true -> no_admin_role h' st.2) /\
    (e = OV_VOCS_DB_USER -> b = true -> forall r v, index db' OV_VOCS_DB_ROLE !! r = Some v -> get_path h' v [OV_KEY_USERS; id] = None).
Proof.
  destruct st as [h db]. intros I. cbn [fst snd]. destruct (db_delete_total h db e id I) as (h1 & db1 & E1 & I1 & Hs & ED & Hn & Hw).
  unfold ov_vocs_db_delete_entity. cbn [negb]. rewrite E1. cbn [mbind option_bind].
  destruct e; cbn [mbind option_bind].
  - exists false, h1, db1. by repeat (split; [done|]).
  - assert (unindex_domain (h1, db1) id = Some (true, (h1, db1))) as ->.
    { unfold unindex_domain. rewrite json_get_spec.
      - destruct (get_key h1 (data_domains db1) id) as [q|] eqn:Eq; [|done]. exfalso.
        pose proof (inv_complete _ I1 _ [id] id q (path_domain id)) as Hc. cbn [fst snd walk] in Hc. rewrite Eq in Hc.
        rewrite Hc in Hn; done.
      - apply (I_wf h1 db1 I1).
      - destruct (inv_domains _ I1) as [|(v & Hv & _)]; [by left|right; by exists v]. }
    cbn [mbind option_bind]. exists true, h1, db1. by repeat (split; [done|]).
  - destruct (delete_in_owners h1 db1 OV_VOCS_DB_DOMAIN (domains db1) OV_VOCS_DB_PROJECT OV_KEY_PROJECTS id true I1 eq_refl) as (h2 & -> & I2 & K2 & _);
      [intros o x; apply domain_owns; by right|done..|]. cbn [mbind option_bind andb]. exists true, h2, db1.
    repeat (split; [done|]). split; [by eapply without_kept|done].
  - destruct (delete_in_both h1 db1 OV_VOCS_DB_LOOP OV_KEY_LOOPS id I1 leaf_loop Hn) as (h2 & E & I2 & K2 & _).
    destruct (delete_in (domains db1) id OV_KEY_LOOPS true h1) as [[r h']|]; [|done]. cbn [mbind option_bind] in E |- *.
    rewrite E. cbn [mbind option_bind]. exists true, h2, db1. repeat (split; [done|]). split; [by eapply without_kept|done].
  - destruct (delete_in_both h1 db1 OV_VOCS_DB_ROLE OV_KEY_ROLES id I1 leaf_role Hn) as (h2 & E & I2 & K2 & N2).
    destruct (delete_in (domains db1) id OV_KEY_ROLES true h1) as [[r h']|]; [|done]. cbn [mbind option_bind] in E |- *.
    rewrite E. cbn [mbind option_bind]. exists true, h2, db1. repeat (split; [done|]). split; [by eapply without_kept|]. split; [|done].
    intros Ha%bool_decide_eq_true o Ho. rewrite <- ED. subst id. by apply N2.
  - destruct (delete_in_roles h1 db1 id true I1) as (ok & h2 & -> & I2 & S2 & Hr). cbn [mbind option_bind andb]. exists ok, h2, db1.
    repeat (split; [done|]). split; [by eapply without_kept, same_kept|done].
Qed.
