(* ===== verification/VocsDbCreate.v ===== *)
(** * The domain database: creating entities and administrators

    What [ov_vocs_db_create_entity] and the functions that add administrators do
    to a database in order. *)
From S2P Require Import Prelude Hashtable OvList Dict JsonValue JsonTree JsonOps JsonPaths JsonPointer Permission VocsDb VocsDbInv VocsDbOps.

(** ** More nodes, the same paths *)

(** [h1] has all that is in [h] and perhaps trees of its own. *)
Record more (h h1 : json_heap) : Prop := {
  mo_wf : wf h1;
  mo_root r : is_root h r -> is_root h1 r;
  mo_path r ks : is_Some (h !! r) -> get_path h1 r ks = get_path h r ks;
  mo_object q : is_object h q -> is_object h1 q;
  mo_live q : is_Some (h !! q) -> is_Some (h1 !! q);
  mo_string q s : is_string h q s -> is_string h1 q s
}.
Lemma more_refl h : wf h -> more h h.
Proof. by split. Qed.
Lemma more_trans h h1 h2 : more h h1 -> more h1 h2 -> more h h2.
Proof.
  intros M1 M2. split.
  - apply (mo_wf _ _ M2).
  - intros r Hr. by apply (mo_root _ _ M2), (mo_root _ _ M1).
  - intros r ks Hr. rewrite (mo_path _ _ M2) by (by apply (mo_live _ _ M1)). by apply (mo_path _ _ M1).
  - intros q Hq. by apply (mo_object _ _ M2), (mo_object _ _ M1).
  - intros q Hq. by apply (mo_live _ _ M2), (mo_live _ _ M1).
  - intros q s Hq. by apply (mo_string _ _ M2), (mo_string _ _ M1).
Qed.
Lemma more_created h t c h1 : (forall x, ~ kid t x) -> created h t c h1 -> more h h1.
Proof.
  intros Ht C. split.
  - apply (cr_wf _ _ _ _ C).
  - intros r. by apply (created_is_root C).
  - intros r ks _. by apply (created_path C).
  - intros q. by apply (created_object C).
  - intros q [v Hv]. exists v. by apply (created_old C).
  - intros q s (v & Hv & Hs). exists v. split; [by apply (created_old C)|done].
Qed.
Lemma changed_string {h p k new h'} (C : changed h p k new h') q s : is_string h q s -> ~ at_key h p k q -> is_string h' q s.
Proof.
  intros (v & Hv & Ht) Hn. destruct (decide (q = p)) as [->|Hqp]; [destruct (ch_object _ _ _ _ _ C v Hv) as [d E]; congruence|].
  destruct (changed_type C q v Hv Hn Hqp) as (v' & Hv' & E). exists v'. split; [done|congruence].
Qed.
(** A new root [p] gets a new root below it. *)
Lemma more_attached h h1 p k c h2 : wf h -> more h h1 -> h !! p = None -> get_key h1 p k = None ->
  h !! c = None -> is_root h1 p -> is_root h1 c -> p <> c -> changed h1 p k (Some c) h2 -> more h h2.
Proof.
  intros W M Hp Hk Hc Hrp Hrc Hne C. pose proof (at_key_free h1 p k Hk) as Hat.
  assert (Hnew : forall r, is_Some (h !! r) -> r <> p /\ r <> c) by (intros r [v Hv]; split; intros ->; congruence).
  split.
  - apply (ch_wf _ _ _ _ _ C).
  - intros r Hr. apply (changed_root C (mo_wf _ _ M)); [by apply (mo_root _ _ M)|]. intros [= ->].
    destruct Hr as (v & Hv & _). congruence.
  - intros r ks Hr. rewrite <- (mo_path _ _ M r ks Hr). revert r Hr. induction ks as [|k' ks IH]; intros r Hr; [done|]. cbn [walk].
    destruct (Hnew r Hr) as [Hrp' _]. rewrite (changed_key C) by done. rewrite decide_False by naive_solver.
    destruct (get_key h1 r k') as [x|] eqn:Ex; [|done]. cbn [mbind option_bind]. apply IH.
    pose proof (mo_path _ _ M r [k'] Hr) as E. cbn [walk] in E. rewrite Ex in E. cbn in E.
    destruct (get_key h r k') as [y|] eqn:Ey; [|done]. cbn in E. injection E as ->.
    destruct (get_key_parent _ h r k' y W Ey) as (w & Hw & _). by exists w.
  - intros q Hq. apply (changed_object C); [by apply (mo_object _ _ M)|done].
  - intros q Hq. apply (changed_live C). split; [by apply (mo_live _ _ M)|done].
  - intros q s Hq. apply (changed_string C); [by apply (mo_string _ _ M)|done].
Qed.
Lemma db_inv_more h db h1 : db_inv (h, db) -> more h h1 -> db_inv (h1, db).
Proof.
  intros I M. pose proof (I_wf h db I) as W.
  assert (Hpath : forall ks q, ks <> [] -> get_path h1 (data_domains db) ks = Some q -> get_path h (data_domains db) ks = Some q).
  { intros ks q Hne Hp. destruct (inv_domains _ I) as [E0|(v & Hv & _)]; cbn [fst snd] in *; [|by rewrite (mo_path _ _ M) in Hp].
    rewrite E0 in Hp. destruct ks as [|k ks]; [done|]. apply walk_cons_Some in Hp as (x & Hx & _). unfold get_key in Hx.
    by rewrite (jw_zero _ h1 (mo_wf _ _ M)) in Hx. }
  assert (Hne : forall e ks id, entity_path e ks id -> ks <> []) by (intros e ks id He ->; inversion He as [| |? ? o]; by destruct o).
  split; cbn [fst snd].
  - apply (mo_wf _ _ M).
  - destruct (inv_domains _ I) as [|Hr]; [by left|right]. by apply (mo_root _ _ M).
  - destruct (inv_state _ I) as [|Hr]; [by left|right]. by apply (mo_root _ _ M).
  - apply (inv_apart _ I).
  - apply (inv_dicts _ I).
  - intros e id q Hq. destruct (I_index h db I e id q Hq) as (ks & He & Hp). exists ks. split; [done|].
    destruct (I_path_root h db I _ _ _ _ He Hp) as [_ (v & Hv & _)]. rewrite (mo_path _ _ M); [done|]. by exists v.
  - intros e ks id q He Hp. apply (inv_complete _ I _ _ _ _ He). apply (Hpath _ _ (Hne _ _ _ He) Hp).
  - intros e ks id q He Hp. apply (mo_object _ _ M), (inv_entity _ I _ _ _ _ He). apply (Hpath _ _ (Hne _ _ _ He) Hp).
  - intros e ks id q He HD Hp. apply (mo_object _ _ M), (inv_container _ I e ks id q He HD). cbn [fst snd].
    destruct (inv_domains _ I) as [E0|(v & Hv & _)]; cbn [fst snd] in *; [done|]. rewrite (mo_path _ _ M) in Hp; [done|]. by exists v.
  - intros d x Hx. apply Hpath in Hx; [|done]. destruct (inv_ids _ I d x Hx) as (i & Hi & Hs). exists i.
    destruct (I_path_root h db I _ _ _ _ (path_domain d) Hx) as [_ (v & Hv & _)].
    rewrite (mo_path _ _ M) by (by exists v). split; [done|]. by apply (mo_string _ _ M).
Qed.

(** ** A tree is linked into the domains *)

Section attach.
Context (h : json_heap) (db : ov_vocs_db) (I : db_inv (h, db)).
#[local] Abbreviation D := (data_domains db).
Context (ps : list string) (p : Z) (k : string) (c : Z) (h' : json_heap).
Context (HD : D <> 0) (Hp : get_path h D ps = Some p) (Hc : is_root h c) (HcD : c <> D) (HcS : c <> data_state db).
Context (C : changed h p k (Some c) h').
Lemma domains_root : is_root h D.
Proof using I HD. by destruct (inv_domains _ I). Qed.
Lemma not_below_p : ~ below h c p.
Proof using I HD Hp Hc HcD.
  intros Hb. pose proof (I_wf h db I) as W. destruct (below_path h _ ps c p W domains_root Hp Hb) as (a & b & -> & Ha & _).
  apply path_below in Ha. apply HcD. symmetry. by apply (root_alone h c).
Qed.
(** The paths to the nodes of the new tree start with this one. *)
Lemma attached_path ks q : get_path h' D ks = Some q <->
  (get_path h D ks = Some q /\ ~ at_key h p k q) \/ exists b, ks = ps ++ k :: b /\ get_path h c b = Some q.
Proof using I HD Hp Hc HcD C.
  pose proof (I_wf h db I) as W. rewrite (changed_set C W c D ks q eq_refl Hc not_below_p domains_root). split.
  - intros [|(a & b & -> & Ha & Hb)]; [by left|right]. exists b. split; [|done]. by rewrite (path_inj h D a ps p W domains_root Ha Hp).
  - intros [|(b & -> & Hb)]; [by left|right]. by exists ps, b.
Qed.
Lemma attached_no_at_key b q : get_path h c b = Some q -> ~ at_key h p k q.
Proof using I HD Hp Hc HcD.
  intros Hq (o & Ho & Hb). pose proof (I_wf h db I) as W. destruct (below_chain _ h c o q W (path_below _ _ _ _ Hq) Hb) as [Hco|Hoc].
  - apply rtc_inv_r in Hco as [<-|(y & Hy & Hye)].
    + apply (root_not_at_key h p k c W Hc). by exists c.
    + apply not_below_p. by rewrite <- (edge_inj _ h y p o W Hye (get_key_edge _ _ _ _ Ho)).
  - apply (root_not_at_key h p k c W Hc). by exists o.
Qed.
(** The domains carry their ids; so does the new tree when it is a domain. *)
Lemma attached_ids d x : (forall q, ~ at_key h p k q) \/ (2 <= length ps)%nat ->
  (ps = [] -> exists i, get_path h c [OV_KEY_ID] = Some i /\ is_string h i k) ->
  get_path h' D [d] = Some x -> exists i, get_path h' D [d; OV_KEY_ID] = Some i /\ is_string h' i d.
Proof using I HD Hp Hc HcD C.
  intros Hat Hnew [[Hx _]|(b & E & _)]%attached_path.
  - destruct (inv_ids _ I d x Hx) as (i & Hi & Hs). cbn [fst snd] in *. assert (Hn : ~ at_key h p k i).
    { destruct Hat as [Hat|Hlen]; [done|]. intros (o & Ho & Hb).
      assert (Hpo : get_path h D (ps ++ [k]) = Some o) by (by rewrite walk_snoc, Hp).
      destruct (domain_id_below h db d i _ o (I_wf h db I) domains_root Hi Hpo Hb) as [[E|E]|E];
        apply (f_equal length) in E; rewrite length_app in E; cbn in E; lia. }
    exists i. split; [apply attached_path; by left|]. by apply (changed_string C).
  - assert (Hps : ps = [] /\ d = k) by (clear -E; destruct ps as [|y [|]]; cbn in E; simplify_eq; done).
    destruct Hps as [Hps Hdk]. destruct (Hnew Hps) as (i & Hi & Hs). rewrite Hdk.
    exists i. split; [apply attached_path; right; exists [OV_KEY_ID]; by rewrite Hps|]. apply (changed_string C); [done|]. by eapply attached_no_at_key.
Qed.
Lemma db_inv_attach db' : data_domains db' = D -> data_state db' = data_state db -> dicts_ok db' ->
  (forall e id q, index db' e !! id = Some q ->
    (index db e !! id = Some q /\ ~ at_key h p k q) \/ exists b, entity_path e (ps ++ k :: b) id /\ get_path h c b = Some q) ->
  (forall e id q, index db e !! id = Some q -> ~ at_key h p k q -> is_admin_role e id = false -> index db' e !! id = Some q) ->
  (forall e b id q, entity_path e (ps ++ k :: b) id -> get_path h c b = Some q ->
    is_object h q /\ (is_admin_role e id = false -> index db' e !! id = Some q)) ->
  (forall e b id q, entity_path e ((ps ++ k :: b) ++ [id]) id -> get_path h c b = Some q -> is_object h q) ->
  (forall q, ~ at_key h p k q) \/ (2 <= length ps)%nat ->
  (ps = [] -> exists i, get_path h c [OV_KEY_ID] = Some i /\ is_string h i k) ->
  db_inv (h', db').
Proof using I HD Hp Hc HcD HcS C.
  intros ED ES Hok Hs Hi He Hcon Hat Hids. pose proof (I_wf h db I) as W. pose proof domains_root as Hr.
  pose proof attached_no_at_key as Hnat.
  split; cbn [fst snd]; rewrite ?ED, ?ES.
  - apply (ch_wf _ _ _ _ _ C).
  - right. apply (changed_root C W); [done|congruence].
  - destruct (inv_state _ I) as [|Hrs]; [by left|right]. cbn [fst snd] in Hrs. apply (changed_root C W); [done|congruence].
  - apply (inv_apart _ I).
  - done.
  - intros e id q Hq. destruct (Hs e id q Hq) as [[Hq' Hn]|(b & Hb & Hqb)].
    + destruct (I_index h db I e id q Hq') as (ks & Hks & Hpq). exists ks. split; [done|]. apply attached_path. by left.
    + exists (ps ++ k :: b). split; [done|]. apply attached_path. right. by exists b.
  - intros e ks id q Hks [[Hq Hn]|(b & -> & Hb)]%attached_path Ha; [|by apply (He e b id q)].
    apply Hi; [|done|done]. by eapply (inv_complete _ I).
  - intros e ks id q Hks [[Hq Hn]|(b & -> & Hb)]%attached_path; (apply (changed_object C); [|by eauto]); [by eapply (inv_entity _ I)|by eapply He].
  - intros e ks id q Hks _ [[Hq Hn]|(b & -> & Hb)]%attached_path; (apply (changed_object C); [|by eauto]); [by eapply (inv_container _ I)|by eapply Hcon].
  - intros d x. by apply attached_ids.
Qed.
End attach.

(** ** The container of a new entity *)

Lemma created_no_key {h d c h1} : created h (OV_JSON_OBJECT d) c h1 -> dict_map d = ∅ -> forall x, ~ kid (OV_JSON_OBJECT d) x.
Proof. intros _ Hd x (k & Hk). by rewrite Hd, lookup_empty in Hk. Qed.
Lemma created_walk {h d c h1} : created h (OV_JSON_OBJECT d) c h1 -> dict_map d = ∅ -> forall b q, get_path h1 c b = Some q -> b = [] /\ q = c.
Proof.
  intros C Hd [|k b] q; [by intros [= <-]|]. rewrite walk_cons_Some. intros (x & Hx & _). apply get_key_edge in Hx as (v & Hv & Hk).
  rewrite (created_c C) in Hv. injection Hv as <-. by destruct (created_no_key C Hd x).
Qed.
Lemma created_fresh_root {h t c h1} r : created h t c h1 -> r = 0 \/ is_root h r -> c <> r.
Proof. intros C [->|(v & Hv & _)]; [apply (cr_nonzero _ _ _ _ C)|]. intros ->. by rewrite (cr_fresh _ _ _ _ C) in Hv. Qed.
(** No entity ends at the key of a container. *)
Lemma owns_not_entity e k o e' i : owns e k o -> ~ entity_path e' (o ++ [k]) i.
Proof.
  intros Ho He. destruct (owns_owner e k o Ho) as [d|d p].
  - destruct (entity_path_cases _ _ _ He) as [E|[(a & b & E)|(a & b & c & x & E)]]; done.
  - destruct (entity_path_cases _ _ _ He) as [E|[(a & b & E)|(a & b & c & x & E)]]; done.
Qed.
(** An empty object under a key that was not there, where no entity is but an
    admin role. *)
Lemma attach_empty h db ps p k : db_inv (h, db) -> data_domains db <> 0 -> get_path h (data_domains db) ps = Some p ->
  is_object h p -> get_key h p k = None -> (forall e i, entity_path e (ps ++ [k]) i -> is_admin_role e i = true) -> ps <> [] ->
  exists c h1 h2, ov_json_object h = Some (c, h1) /\ ov_json_object_set h1 p k c = Some (true, h2) /\ db_inv (h2, db) /\
    c <> 0 /\ is_object h2 c /\ (forall ks q, get_path h2 (data_domains db) ks = Some q <->
      get_path h (data_domains db) ks = Some q \/ ks = ps ++ [k] /\ q = c).
Proof.
  intros I HD Hp Hpo Hk Hent Hps. pose proof (I_wf h db I) as W.
  destruct (object_created h W) as (c & d & h1 & E1 & C1 & _ & Hm).
  pose proof (more_created _ _ _ _ (created_no_key C1 Hm) C1) as M1. pose proof (db_inv_more h db h1 I M1) as I1.
  assert (Hcp : c <> p) by (intros ->; destruct Hpo as (? & ? & Hx); by rewrite (cr_fresh _ _ _ _ C1) in Hx).
  destruct (inv_domains _ I) as [|Hr]; [done|]. cbn [fst snd] in Hr.
  assert (Hlr : is_Some (h !! data_domains db)) by (destruct Hr as (v & Hv & _); by exists v).
  destruct (set_changed h1 p k c (mo_wf _ _ M1) (mo_object _ _ M1 _ Hpo) (created_root C1)) as (h2 & E2 & C2).
  { intros Hb. apply Hcp. symmetry. apply (created_below C1); [by apply (created_no_key C1)|done]. }
  assert (Hp1 : get_path h1 (data_domains db) ps = Some p) by (by rewrite (mo_path _ _ M1)).
  assert (Hk1 : get_key h1 p k = None) by (rewrite (created_key C1); [done|by apply (created_no_key C1)]).
  pose proof (at_key_free h1 p k Hk1) as Hat.
  assert (HcD : c <> data_domains db) by (eapply created_fresh_root; [done|by right]).
  assert (HcS : c <> data_state db) by (eapply created_fresh_root; [done|apply (inv_state _ I)]).
  exists c, h1, h2. split; [done|]. split; [done|]. split; [|split; [apply (cr_nonzero _ _ _ _ C1)|split]].
  - eapply (db_inv_attach h1 db I1 ps p k c h2 HD Hp1 (created_root C1) HcD HcS C2 db); try done.
    + exact (inv_dicts _ I).
    + intros e' id q Hq. left. split; [done|apply Hat].
    + intros e' b id q He Hb. apply (created_walk C1 Hm) in Hb as [-> ->]. split; [eexists _, _; apply (created_c C1)|].
      rewrite (Hent e' id He). done.
    + intros e' b id q _ Hb. apply (created_walk C1 Hm) in Hb as [-> ->]. eexists _, _. apply (created_c C1).
    + by left.
  - apply (changed_object C2); [|apply Hat]. eexists _, _. apply (created_c C1).
  - intros ks q. rewrite (attached_path h1 db I1 ps p k c h2 HD Hp1 (created_root C1) HcD C2), (mo_path _ _ M1) by done. split.
    + intros [[Hq _]|(b & -> & Hb)]; [by left|right]. by apply (created_walk C1 Hm) in Hb as [-> ->].
    + intros [Hq|[-> ->]]; [left; split; [done|apply Hat]|right; by exists []].
Qed.
Lemma get_create_parent_spec h db e k o data : db_inv (h, db) -> owns e k o -> get_path h (data_domains db) o = Some data ->
  exists c h', get_create_parent h data k = Some (c, h') /\ db_inv (h', db) /\ c <> 0 /\ is_object h' c /\
    get_path h' (data_domains db) (o ++ [k]) = Some c /\ same_entities db h h'.
Proof.
  intros I Ho Hdata. pose proof (I_wf h db I) as W. pose proof (owns_owner e k o Ho) as Hop.
  destruct (I_owner h db I o data Hop Hdata) as [Hdo _].
  assert (Hd0 : data <> 0) by (apply is_object_live in Hdo as [u Hu]; by eapply live_nonzero; [apply (jw_zero _ h W)|]).
  assert (HD : data_domains db <> 0).
  { destruct Hop as [d|d p]; [exact (proj1 (I_path_root h db I _ _ _ _ (path_domain d) Hdata))|
      exact (proj1 (I_path_root h db I _ _ _ _ (path_project d p) Hdata))]. }
  unfold get_create_parent. rewrite (proj2 (Z.eqb_neq data 0) Hd0), (json_get_spec h data k W (or_intror (is_object_live h data Hdo))).
  cbn [mbind option_bind]. destruct (get_key h data k) as [c|] eqn:Ec.
  - change (default 0 (Some c)) with c. assert (Hc0 : c <> 0) by (by eapply get_key_nonzero). rewrite (proj2 (Z.eqb_neq c 0) Hc0).
    exists c, h. split; [done|]. split; [done|]. split; [done|]. split; [|split; [by rewrite walk_snoc, Hdata|done]].
    destruct Ho as [[Hl _]|(-> & -> & d & ->)]; [by eapply (I_members h db I e k o data)|by eapply (I_projects h db I)].
  - destruct (attach_empty h db o data k I HD Hdata Hdo Ec) as (c & h1 & h2 & E1 & E2 & I2 & Hc0 & Hco & Hap).
    { intros e' i He. by destruct (owns_not_entity e k o e' i Ho). }
    { by destruct Hop. }
    change (negb (default 0 None =? 0)) with false. cbn match. rewrite E1. cbn [mbind option_bind]. rewrite E2. cbn [mbind option_bind].
    exists c, h2. split; [done|]. split; [done|]. split; [done|]. split; [done|]. split; [apply Hap; by right|].
    intros e' ks i q He. rewrite Hap. split; [|by left]. intros [|[-> _]]; [done|]. by destruct (owns_not_entity e k o e' i Ho).
Qed.

(** ** The new entity *)

(** The end of [ov_vocs_db_create_entity]. *)
Definition create_in (st : db_state) (parent : Z) (entity : ov_vocs_db_entity) (id : string) : option (bool * db_state) :=
  let '(h, self) := st in
  '(out, h) ← ov_json_object h;
  let '(val, h) := ov_json_string h (Some id) in
  '(ok, h) ← ov_json_object_set h out OV_KEY_ID val;
  if negb ok then
    '(_, h) ← ov_json_value_free h out; '(_, h) ← ov_json_value_free h val; Some (false, (h, self))
  else
  '(ok, h) ← ov_json_object_set h parent id out;
  if negb ok then '(_, h) ← ov_json_value_free h out; Some (false, (h, self)) else
  if is_admin_role entity id then Some (true, (h, self)) else
  d ← get_index_dict self entity;
  d ← reindex id out d;
  Some (true, (h, set_index_dict self entity d)).
Lemma create_entity_eq st entity id scope scope_id : ov_vocs_db_create_entity true st entity id scope scope_id =
  (used ← (if is_admin_role entity id then Some false else index_is_set (get_index_dict st.2 entity) id);
   if used : bool then Some (false, st) else
   '(parent, st) ← get_parent st entity scope scope_id;
   if parent =? 0 then Some (false, st) else create_in st parent entity id).
Proof.
  unfold ov_vocs_db_create_entity. cbn [negb]. destruct (if is_admin_role entity id then _ else _) as [used|]; [|done].
  cbn [mbind option_bind]. destruct used; [done|]. by destruct (get_parent st entity scope scope_id) as [[parent [h self]]|].
Qed.

(** A new object with its id. *)
Lemma new_entity h id : wf h -> exists out h2 val h3,
  (exists h1, ov_json_object h = Some (out, h1) /\ ov_json_string h1 (Some id) = (val, h2)) /\
  ov_json_object_set h2 out OV_KEY_ID val = Some (true, h3) /\ more h h3 /\ h !! out = None /\ out <> 0 /\
  is_root h3 out /\ is_object h3 out /\ get_key h3 out OV_KEY_ID = Some val /\
  (exists v, h3 !! val = Some v /\ type v = OV_JSON_STRING (Some id)) /\
  (forall b q, get_path h3 out b = Some q -> (b = [] /\ q = out) \/ (b = [OV_KEY_ID] /\ q = val)).
Proof.
  intros W. destruct (object_created h W) as (out & d & h1 & E1 & C1 & _ & Hm). pose proof (created_no_key C1 Hm) as Hnk.
  pose proof (more_created _ _ _ _ Hnk C1) as M1.
  pose proof (new_created h1 (OV_JSON_STRING (Some id)) (mo_wf _ _ M1) I (fun _ F => F)) as C2.
  destruct (new_value h1 (OV_JSON_STRING (Some id))) as [val h2] eqn:E2. cbn [fst snd] in C2.
  assert (Hns : forall x, ~ kid (OV_JSON_STRING (Some id)) x) by (intros x F; exact F).
  pose proof (more_created _ _ _ _ Hns C2) as M2. pose proof (mo_wf _ _ M2) as W2.
  assert (Hout1 : h1 !! out = Some {| type := OV_JSON_OBJECT d; parent := 0 |}) by apply (created_c C1).
  assert (Hov : out <> val) by (apply (created_ne C2); rewrite Hout1; by eexists).
  pose proof (created_old C2 _ _ Hout1) as Hout2. assert (Hro : is_root h2 out) by (by eexists).
  destruct (set_changed h2 out OV_KEY_ID val W2) as (h3 & E3 & C3).
  { by eexists _, _. } { apply (created_root C2). }
  { intros Hb. apply Hov. by apply (created_below C2). }
  assert (Hk2 : forall k, get_key h2 out k = None).
  { intros k. unfold get_key. rewrite Hout2. cbn. by rewrite Hm. }
  pose proof (at_key_free h2 out OV_KEY_ID (Hk2 _)) as Hat.
  assert (Hval : h3 !! val = Some {| type := OV_JSON_STRING (Some id); parent := out |}).
  { apply (ch_new _ _ _ _ _ C3 val _ eq_refl (created_c C2)). }
  assert (Hk3 : forall k, get_key h3 out k = if decide (k = OV_KEY_ID) then Some val else None).
  { intros k. rewrite (changed_key C3) by apply Hat. rewrite Hk2. destruct (decide (k = OV_KEY_ID)) as [->|Hk]; [by rewrite decide_True|].
    rewrite decide_False; [done|naive_solver]. }
  exists out, h2, val, h3. split; [by exists h1|]. split; [done|]. split; [|split; [apply (cr_fresh _ _ _ _ C1)|split; [apply (cr_nonzero _ _ _ _ C1)|]]].
  - eapply (more_attached h h2 out OV_KEY_ID val h3 W); try done.
    + by eapply more_trans.
    + apply (cr_fresh _ _ _ _ C1).
    + destruct (h !! val) as [v|] eqn:Ev; [|done]. pose proof (created_old C1 _ _ Ev) as Hx. by rewrite (cr_fresh _ _ _ _ C2) in Hx.
    + apply (created_root C2).
  - split; [apply (changed_root C3 W2); [done|congruence]|]. split; [apply (changed_object C3); [by eexists _, _|apply Hat]|].
    split; [by rewrite Hk3|]. split; [by eexists|]. intros [|k b] q; [intros [= <-]; by left|]. rewrite walk_cons_Some, Hk3.
    intros (c & Hc & Hb). case_decide as Hk; [|done]. injection Hc as <-. subst k. right.
    destruct b as [|k b]; [by injection Hb as <-|]. apply walk_cons_Some in Hb as (c & Hc & _). unfold get_key in Hc. by rewrite Hval in Hc.
Qed.

(** Entities elsewhere are not changed. *)
Definition only_new (db : ov_vocs_db) (h : json_heap) (db' : ov_vocs_db) (h' : json_heap) (ks0 : list string) : Prop :=
  forall e ks i q, entity_path e ks i -> ks <> ks0 ->
    get_path h' (data_domains db') ks = Some q <-> get_path h (data_domains db) ks = Some q.
Lemma entity_extended e ps id e' b i : entity_path e (ps ++ [id]) id -> entity_path e' (ps ++ id :: b) i ->
  (b = [] \/ b = [OV_KEY_ID]) -> b = [] /\ e' = e /\ i = id.
Proof.
  intros He He' Hb. replace (ps ++ id :: b) with ((ps ++ [id]) ++ b) in He' by (by rewrite <- app_assoc).
  destruct (entity_path_inside _ _ _ _ _ _ He He') as [H|[(_ & E & _)|[(_ & p & k & E & _)|(_ & k & E & _)]]]; [done|..]; by destruct Hb; subst.
Qed.
Lemma extended_not_container e ps id e' b i : entity_path e (ps ++ [id]) id -> b = [OV_KEY_ID] -> ~ entity_path e' ((ps ++ id :: b) ++ [i]) i.
Proof.
  intros He -> He'. replace ((ps ++ [id; OV_KEY_ID]) ++ [i]) with ((ps ++ [id]) ++ [OV_KEY_ID; i]) in He' by (by rewrite <- !app_assoc).
  destruct (entity_path_inside _ _ _ _ _ _ He He') as [H|[(_ & E & _)|[(_ & p & k & E & _)|(_ & k & E & Hl)]]]; [by destruct H|done|done|].
  injection E as <-. inversion Hl.
Qed.
Lemma entity_has_index e ks id db : entity_path e ks id -> exists d, get_index_dict db e = Some d.
Proof. intros He. inversion He as [| |? ? ? ? Hl]; [by eexists..|]. destruct Hl; by eexists. Qed.

Lemma create_in_spec h db e id ps p : db_inv (h, db) -> data_domains db <> 0 -> get_path h (data_domains db) ps = Some p ->
  is_object h p -> entity_path e (ps ++ [id]) id -> index db e !! id = None ->
  exists h' db' out, create_in (h, db) p e id = Some (true, (h', db')) /\ db_inv (h', db') /\ data_domains db' = data_domains db /\
    get_path h' (data_domains db) (ps ++ [id]) = Some out /\ (is_admin_role e id = false -> index db' e !! id = Some out) /\
    (forall e' i, e' <> e \/ i <> id \/ is_admin_role e id = true -> index db' e' !! i = index db e' !! i) /\
    only_new db h db' h' (ps ++ [id]).
Proof.
  intros I HD Hp Hpo He Hi. pose proof (I_wf h db I) as W. destruct (inv_domains _ I) as [|Hr]; [done|]. cbn [fst snd] in Hr.
  destruct (new_entity h id W) as (out & h2 & val & h3 & (h1 & E1 & E2) & E3 & M & Hfresh & Hout0 & Hroot & Hobj & Hval & Hstr & Hwalk).
  pose proof (mo_wf _ _ M) as W3. pose proof (db_inv_more h db h3 I M) as I3.
  assert (Hlr : is_Some (h !! data_domains db)) by (destruct Hr as (v & Hv & _); by exists v).
  assert (Hp3 : get_path h3 (data_domains db) ps = Some p) by (by rewrite (mo_path _ _ M)).
  assert (HoD : out <> data_domains db) by (intros ->; destruct Hlr; congruence).
  assert (HoS : out <> data_state db) by (intros ->; destruct (inv_state _ I) as [|(v & Hv & _)]; cbn in *; congruence).
  pose proof (not_below_p h3 db I3 ps p out HD Hp3 Hroot HoD) as Hbp.
  destruct (set_changed h3 p id out W3 (mo_object _ _ M p Hpo) Hroot Hbp) as (h4 & E4 & C4).
  pose proof (fun ks q => attached_path h3 db I3 ps p id out h4 HD Hp3 Hroot HoD C4 ks q) as Hap.
  destruct (entity_has_index e _ id db He) as [d Hd].
  assert (Hne : e <> OV_VOCS_DB_ENTITY_ERROR) by (by intros ->).
  destruct (dict_set_spec d id out (inv_dicts _ I e d Hd)) as (d' & Ed & Hok & Hm).
  set (db' := if is_admin_role e id then db else set_index_dict db e d').
  assert (Edb : data_domains db' = data_domains db /\ data_state db' = data_state db).
  { unfold db'. destruct (is_admin_role e id); [done|]. apply set_index_trees. }
  assert (Hidx : forall e' i, index db' e' !! i = if decide (is_admin_role e id = false /\ e' = e /\ i = id) then Some out else index db e' !! i).
  { intros e' i. unfold db'. destruct (is_admin_role e id); [by rewrite decide_False by naive_solver|]. rewrite index_set by done.
    destruct (decide (e' = e)) as [->|Hee]; [|by rewrite decide_False by naive_solver]. rewrite Hm.
    destruct (decide (i = id)) as [->|Hii]; [by rewrite lookup_insert_eq, decide_True by done|].
    rewrite lookup_insert_ne, decide_False by naive_solver. unfold index. by rewrite Hd. }
  (* the node that is replaced is no known entity, nor is one below it *)
  assert (Hold : forall e' ks i q, entity_path e' ks i -> get_path h3 (data_domains db) ks = Some q -> at_key h3 p id q ->
    ks = ps ++ [id] /\ e' = e /\ i = id /\ index db e' !! i = None /\ is_admin_role e id = true).
  { intros e' ks i q He' Hq (o & Ho & Hb). destruct (below_path h3 _ ks o q W3 (mo_root _ _ M _ Hr) Hq Hb) as (a & b & -> & Ha & Hb').
    assert (Hpo3 : get_path h3 (data_domains db) (ps ++ [id]) = Some o) by (by rewrite walk_snoc, Hp3).
    pose proof (path_inj h3 _ _ _ o W3 (mo_root _ _ M _ Hr) Ha Hpo3) as ->.
    assert (Hadm : is_admin_role e id = true).
    { destruct (is_admin_role e id) eqn:Ea; [done|]. pose proof (inv_complete _ I3 _ _ _ _ He Hpo3 Ea) as Hx. cbn [fst snd] in Hx. congruence. }
    unfold is_admin_role in Hadm. destruct e; try done.
    destruct (entity_path_inside _ _ _ _ _ _ He He') as [(-> & -> & ->)|[(? & _)|[(? & _)|([?|?] & _)]]]; try done.
    by rewrite app_nil_r. }
  exists h4, db', out. split; [|split; [|split; [apply Edb|split; [apply Hap; right; by exists []|split; [|split]]]]].
  - unfold create_in. rewrite E1. cbn [mbind option_bind]. rewrite E2, E3. cbn [mbind option_bind negb]. rewrite E4. cbn [mbind option_bind negb].
    unfold db'. destruct (is_admin_role e id); [done|]. rewrite Hd. cbn [mbind option_bind]. unfold reindex. by rewrite Ed.
  - eapply (db_inv_attach h3 db I3 ps p id out h4 HD Hp3 Hroot HoD HoS C4 db'); try apply Edb.
    + unfold db'. destruct (is_admin_role e id); [exact (inv_dicts _ I)|]. by apply set_index_ok; [exact (inv_dicts _ I)|].
    + intros e' i q Hq. rewrite Hidx in Hq. case_decide as Hdec.
      * destruct Hdec as (_ & -> & ->). injection Hq as <-. right. by exists [].
      * left. split; [done|]. intros Hat. destruct (I_index h3 db I3 e' i q Hq) as (ks & Hks & Hpq).
        destruct (Hold e' ks i q Hks Hpq Hat) as (_ & _ & _ & Hn & _). congruence.
    + intros e' i q Hq _ _. rewrite Hidx. rewrite decide_False; [done|]. intros (_ & -> & ->). congruence.
    + intros e' b i q Hb Hq. destruct (Hwalk b q Hq) as [[-> ->]|[-> ->]];
        (destruct (entity_extended e ps id e' _ i He Hb) as (E & -> & ->); [auto|]); [|done].
      split; [done|]. intros Ha. by rewrite Hidx, decide_True.
    + intros e' b i q Hb Hq. destruct (Hwalk b q Hq) as [[-> ->]|[-> ->]]; [done|]. by destruct (extended_not_container e ps id e' [OV_KEY_ID] i He eq_refl).
    + destruct (is_admin_role e id) eqn:Ea.
      * right. unfold is_admin_role in Ea. destruct e; try done.
        destruct (entity_path_cases _ _ _ He) as [E|[(x & y & E)|(x & y & z & t & E)]]; apply (f_equal length) in E; rewrite length_app in E; cbn in E; try lia.
        exfalso. destruct ps; [|cbn in E; lia]. by apply entity_path_1 in He as [? _].
      * left. intros q (o & Ho & _). assert (Hpo3 : get_path h3 (data_domains db) (ps ++ [id]) = Some o) by (by rewrite walk_snoc, Hp3).
        pose proof (inv_complete _ I3 _ _ _ _ He Hpo3 Ea) as Hx. cbn [fst snd] in Hx. congruence.
    + intros _. exists val. split; [cbn [walk]; by rewrite Hval|done].
  - intros Ha. by rewrite Hidx, decide_True.
  - intros e' i Hoth. rewrite Hidx, decide_False; [done|]. intros (Ha & -> & ->). rewrite Ha in Hoth. naive_solver.
  - intros e' ks i q Hks Hne'. rewrite (proj1 Edb), Hap. rewrite (mo_path _ _ M) by done. split.
    + intros [[Hq _]|(b & -> & Hb)]; [done|]. exfalso. apply Hne'.
      destruct (Hwalk b q Hb) as [[-> ->]|[-> ->]]; (destruct (entity_extended e ps id e' _ i He Hks) as (E & _ & _); [auto|]); done.
    + intros Hq. left. split; [done|]. intros Hat. apply Hne'. eapply (Hold e' ks i q); [done| |done]. by rewrite (mo_path _ _ M).
Qed.

(** ** The owner of a new entity *)

(** Where an entity goes: the path of its container. *)
Inductive home (h : json_heap) (db : ov_vocs_db) : ov_vocs_db_entity -> ov_vocs_db_scope -> string -> list string -> Prop :=
  | home_domain sid : home h db OV_VOCS_DB_DOMAIN OV_VOCS_DB_SCOPE_DOMAIN sid []
  | home_in_domain e k sid x : container_key e k -> get_path h (data_domains db) [sid] = Some x ->
      home h db e OV_VOCS_DB_SCOPE_DOMAIN sid [sid; k]
  | home_in_project e k d sid x : leaf e k -> get_path h (data_domains db) [d; OV_KEY_PROJECTS; sid] = Some x ->
      home h db e OV_VOCS_DB_SCOPE_PROJECT sid [d; OV_KEY_PROJECTS; sid; k].
(** Every entity is where it was; the domains may have got their tree. *)
Definition still (db : ov_vocs_db) (h : json_heap) (db' : ov_vocs_db) (h' : json_heap) : Prop :=
  forall e ks i q, entity_path e ks i -> get_path h' (data_domains db') ks = Some q <-> get_path h (data_domains db) ks = Some q.

(** The first domain: the tree is made. *)
Lemma first_tree h db c d h1 : db_inv (h, db) -> data_domains db = 0 -> created h (OV_JSON_OBJECT d) c h1 -> dict_map d = ∅ ->
  db_inv (h1, with_data_domains db c) /\ still db h (with_data_domains db c) h1.
Proof.
  intros I E0 C Hd. pose proof (I_wf h db I) as W.
  assert (Hno : forall e ks i q, entity_path e ks i -> get_path h (data_domains db) ks <> Some q).
  { intros e ks i q He Hq. by destruct (I_path_root h db I _ _ _ _ He Hq). }
  assert (Hno1 : forall e ks i q, entity_path e ks i -> get_path h1 c ks <> Some q).
  { intros e ks i q He Hq. apply (created_walk C Hd) in Hq as [-> _]. destruct (entity_path_nonempty _ _ _ He) as [a E]. by destruct a. }
  assert (HcS : c <> data_state db) by (eapply created_fresh_root; [done|apply (inv_state _ I)]).
  assert (Hi : forall e i q, index db e !! i <> Some q).
  { intros e i q Hq. destruct (I_index h db I e i q Hq) as (ks & He & Hp). by apply (Hno e ks i q). }
  split; [split; cbn [fst snd with_data_domains data_domains data_state]|].
  - apply (cr_wf _ _ _ _ C).
  - right. apply (created_root C).
  - destruct (inv_state _ I) as [|Hr]; [by left|right]. by apply (created_is_root C).
  - done.
  - intros e d' Hd'. apply (inv_dicts _ I e d'). by destruct e.
  - intros e i q Hq. exfalso. apply (Hi e i q). by destruct e.
  - intros e ks i q He Hq. by destruct (Hno1 e ks i q He).
  - intros e ks i q He Hq. by destruct (Hno1 e ks i q He).
  - intros e ks i q _ _ Hq. apply (created_walk C Hd) in Hq as [_ ->]. eexists _, _. apply (created_c C).
  - intros d' x Hx. by destruct (Hno1 _ _ _ x (path_domain d')).
  - intros e ks i q He. cbn [data_domains with_data_domains]. split; intros Hq; [by destruct (Hno1 e ks i q He)|by destruct (Hno e ks i q He)].
Qed.
Lemma get_parent_owned h db e k o data sid scope : db_inv (h, db) -> owns e k o -> get_path h (data_domains db) o = Some data ->
  home h db e scope sid (o ++ [k]) ->
  exists p h1, (('(p, h1) ← get_create_parent h data k; Some (p, (h1, db))) : option (Z * db_state)) = Some (p, (h1, db)) /\
    db_inv (h1, db) /\ still db h db h1 /\ p <> 0 /\
    exists ps, home h db e scope sid ps /\ data_domains db <> 0 /\ get_path h1 (data_domains db) ps = Some p /\ is_object h1 p /\
      forall id, entity_path e (ps ++ [id]) id.
Proof.
  intros I Ho Hd Hh. destruct (get_create_parent_spec h db e k o data I Ho Hd) as (p & h1 & E & I1 & Hp0 & Hpo & Hpp & S).
  exists p, h1. rewrite E. split; [done|]. split; [done|]. split; [exact S|]. split; [done|].
  exists (o ++ [k]). split; [done|]. split; [|split; [done|split; [done|]]].
  - destruct (owns_owner e k o Ho) as [d|d x]; [exact (proj1 (I_path_root h db I _ _ _ _ (path_domain d) Hd))|
      exact (proj1 (I_path_root h db I _ _ _ _ (path_project d x) Hd))].
  - intros id. rewrite <- app_assoc. by apply owns_path.
Qed.
(** What [get_parent] returns: 0 when there is no home, or the container. *)
Definition parent_found (h : json_heap) (db : ov_vocs_db) (e : ov_vocs_db_entity) (scope : ov_vocs_db_scope) (sid : string)
    (r : option (Z * db_state)) : Prop :=
  exists p h1 db1, r = Some (p, (h1, db1)) /\ db_inv (h1, db1) /\
    (forall e', index db1 e' = index db e') /\ still db h db1 h1 /\
    ((p = 0 /\ forall ps, ~ home h db e scope sid ps) \/
     (p <> 0 /\ exists ps, home h db e scope sid ps /\ data_domains db1 <> 0 /\ get_path h1 (data_domains db1) ps = Some p /\
        is_object h1 p /\ forall id, entity_path e (ps ++ [id]) id)).
Section get_parent.
Context (h : json_heap) (db : ov_vocs_db) (e : ov_vocs_db_entity) (scope : ov_vocs_db_scope) (sid : string) (I : db_inv (h, db)).
Lemma no_parent : (forall ps, ~ home h db e scope sid ps) -> parent_found h db e scope sid (Some (0, (h, db))).
Proof using I. intros Hn. exists 0, h, db. repeat (split; [done|]). by left. Qed.
Lemma owned_parent k o data : owns e k o -> get_path h (data_domains db) o = Some data -> home h db e scope sid (o ++ [k]) ->
  parent_found h db e scope sid ('(p, h1) ← get_create_parent h data k; Some (p, (h1, db))).
Proof using I.
  intros Ho Hd Hh. destruct (get_parent_owned h db e k o data sid scope I Ho Hd Hh) as (p & h1 & E & I1 & S & Hp & Hps).
  exists p, h1, db. repeat (split; [done|]). by right.
Qed.
Lemma no_domain : get_key h (data_domains db) sid = None -> scope = OV_VOCS_DB_SCOPE_DOMAIN -> e <> OV_VOCS_DB_DOMAIN ->
  forall ps, ~ home h db e scope sid ps.
Proof using I. intros E Es He ps Hh. inversion Hh as [|e0 k0 s0 x0 Hk0 Hx0|]; subst; try done. cbn in Hx0. by rewrite E in Hx0. Qed.
Lemma no_project : index db OV_VOCS_DB_PROJECT !! sid = None -> scope = OV_VOCS_DB_SCOPE_PROJECT -> forall ps, ~ home h db e scope sid ps.
Proof using I.
  intros E -> ps Hh. inversion Hh as [| |e0 k0 d0 s0 x0 Hk0 Hx0]. subst.
  pose proof (inv_complete _ I _ _ _ _ (path_project d0 sid) Hx0 eq_refl) as Hx. cbn [fst snd] in Hx. congruence.
Qed.
(** The lookup of a domain, for an entity with a container. *)
Lemma parent_in_domain k : scope = OV_VOCS_DB_SCOPE_DOMAIN -> container_key e k ->
  parent_found h db e scope sid
    (data ← ov_json_object_get h (data_domains db) sid; if data =? 0 then Some (0, (h, db)) else
     '(p, h1) ← get_create_parent h data k; Some (p, (h1, db))).
Proof using I.
  intros Es Hk. assert (He : e <> OV_VOCS_DB_DOMAIN) by (intros ->; destruct Hk as [Hl|[? _]]; [inversion Hl|done]).
  rewrite (json_get_spec h _ sid (I_wf h db I)).
  2:{ destruct (inv_domains _ I) as [|(v & Hv & _)]; [by left|right; by exists v]. }
  cbn [mbind option_bind]. destruct (get_key h (data_domains db) sid) as [x|] eqn:Ex; [|apply no_parent; by apply no_domain].
  change (default 0 (Some x)) with x. rewrite (proj2 (Z.eqb_neq x 0)) by (eapply get_key_nonzero; [apply (I_wf h db I)|done]).
  assert (Hx : get_path h (data_domains db) [sid] = Some x) by (cbn; by rewrite Ex).
  apply (owned_parent k [sid] x); [|done|rewrite Es; by apply (home_in_domain h db e k sid x)].
  destruct Hk as [Hl|[-> ->]]; [left; split; [done|constructor]|right; eauto].
Qed.
Lemma parent_in_project k : scope = OV_VOCS_DB_SCOPE_PROJECT -> leaf e k ->
  parent_found h db e scope sid
    (data ← impl_dict_get (projects db) (Some sid); if data =? 0 then Some (0, (h, db)) else
     '(p, h1) ← get_create_parent h data k; Some (p, (h1, db))).
Proof using I.
  intros Es Hl. pose proof (index_get_spec db OV_VOCS_DB_PROJECT sid (inv_dicts _ I)) as E. cbn [get_index_dict index_get] in E.
  rewrite E. cbn [mbind option_bind]. destruct (index db OV_VOCS_DB_PROJECT !! sid) as [x|] eqn:Ex; [|apply no_parent; by apply no_project].
  change (default 0 (Some x)) with x. destruct (I_index h db I _ sid x Ex) as (ks & He & Hx).
  destruct (is_object_live h x (I_live h db I _ sid x Ex)) as [u Hu].
  rewrite (proj2 (Z.eqb_neq x 0)) by (eapply live_nonzero; [apply (jw_zero _ h (I_wf h db I))|done]).
  revert Es. inversion He as [|d ?|? ? ? ? Hk]; subst; [|inversion Hk]. intros Es.
  apply (owned_parent k [d; OV_KEY_PROJECTS; sid] x); [left; split; [done|constructor]|done|rewrite Es; by apply (home_in_project h db e k d sid x)].
Qed.
End get_parent.
Lemma get_parent_spec h db e scope sid : db_inv (h, db) -> parent_found h db e scope sid (get_parent (h, db) e scope sid).
Proof.
  intros I. destruct e.
  - assert (Hn : forall ps, ~ home h db OV_VOCS_DB_ENTITY_ERROR scope sid ps).
    { intros ps Hh. inversion Hh as [|? ? ? ? Hk|? ? ? ? ? Hk]; [destruct Hk as [Hk|[Hk _]]; [inversion Hk|done]|inversion Hk]. }
    cbn [get_parent]. destruct scope.
    + rewrite (json_get_spec h _ sid (I_wf h db I)); [|destruct (inv_domains _ I) as [|(v & Hv & _)]; [by left|right; by exists v]].
      cbn [mbind option_bind]. destruct (_ =? 0); by apply no_parent.
    + pose proof (index_get_spec db OV_VOCS_DB_PROJECT sid (inv_dicts _ I)) as E. cbn [get_index_dict index_get] in E. rewrite E.
      cbn [mbind option_bind]. destruct (_ =? 0); by apply no_parent.
  - cbn [get_parent]. destruct scope; [|apply no_parent; [done|]; intros ps Hh; inversion Hh as [| |? ? ? ? ? Hk]; inversion Hk].
    destruct (Z.eqb_spec (data_domains db) 0) as [E0|HD]; cbn [negb].
    + destruct (object_created h (I_wf h db I)) as (c & d & h1 & E & C & _ & Hd). rewrite E. cbn [mbind option_bind].
      destruct (first_tree h db c d h1 I E0 C Hd) as [I1 S1]. exists c, h1, (with_data_domains db c). split; [done|]. split; [done|].
      split; [by intros []|]. split; [done|]. right. split; [apply (cr_nonzero _ _ _ _ C)|]. exists []. split; [constructor|].
      split; [apply (cr_nonzero _ _ _ _ C)|]. split; [done|]. split; [eexists _, _; apply (created_c C)|]. intros id. constructor.
    + exists (data_domains db), h, db. split; [done|]. split; [done|]. split; [done|]. split; [done|]. right. split; [done|].
      exists []. split; [constructor|]. split; [done|]. split; [done|]. split; [|intros id; constructor].
      by apply (inv_container _ I OV_VOCS_DB_DOMAIN [] "" (data_domains db) (path_domain "")).
  - cbn [get_parent]. destruct scope; [apply parent_in_domain; [done|done|by right]|].
    pose proof (index_get_spec db OV_VOCS_DB_PROJECT sid (inv_dicts _ I)) as E. cbn [get_index_dict index_get] in E. rewrite E.
    cbn [mbind option_bind]. destruct (_ =? 0); (apply no_parent; [done|]; intros ps Hh; inversion Hh as [| |? ? ? ? ? Hk]; inversion Hk).
  - cbn [get_parent]. destruct scope; [apply parent_in_domain; [done|done|left; constructor]|apply parent_in_project; [done|done|constructor]].
  - cbn [get_parent]. destruct scope; [apply parent_in_domain; [done|done|left; constructor]|apply parent_in_project; [done|done|constructor]].
  - cbn [get_parent]. destruct scope; [apply parent_in_domain; [done|done|left; constructor]|apply parent_in_project; [done|done|constructor]].
Qed.

(** Creating an entity in a database in order returns, and the database is in
    order again. It succeeds exactly when the id is not known for this kind of
    entity and the domain or project it shall belong to exists; then the tree has
    the new entity under its owner, the index leads to it (but not to an admin
    role) and every other entity is where it was. When it fails no entity has
    changed. An admin role that the index knows is not created again: that frees
    the node the index leads to. *)
Lemma create_entity_spec st e id scope scope_id : db_inv st ->
  (is_admin_role e id = true -> index st.2 e !! id = None) ->
  exists b h' db', ov_vocs_db_create_entity true st e id scope scope_id = Some (b, (h', db')) /\ db_inv (h', db') /\
    (forall e' i, e' <> e \/ i <> id \/ is_admin_role e id = true -> index db' e' !! i = index st.2 e' !! i) /\
    (b = true <-> index st.2 e !! id = None /\ exists ps, home st.1 st.2 e scope scope_id ps) /\
    (b = true -> exists ps out, home st.1 st.2 e scope scope_id ps /\ entity_path e (ps ++ [id]) id /\
       get_path h' (data_domains db') (ps ++ [id]) = Some out /\
       (is_admin_role e id = false -> index db' e !! id = Some out) /\ only_new st.2 st.1 db' h' (ps ++ [id])) /\
    (b = false -> still st.2 st.1 db' h').
Proof.
  destruct st as [h db]. cbn [fst snd]. intros I Hadm. rewrite create_entity_eq.
  assert (E : (if is_admin_role e id then Some false else index_is_set (get_index_dict db e) id) = Some (bool_decide (is_Some (index db e !! id)))).
  { rewrite (index_is_set_spec db e id (inv_dicts _ I)). destruct (is_admin_role e id); [|done]. rewrite Hadm by done.
    by rewrite bool_decide_eq_false_2 by (by intros [? ?]). }
  cbn [snd]. rewrite E. cbn [mbind option_bind]. case_bool_decide as Hu.
  { exists false, h, db. split; [done|]. split; [done|]. split; [done|]. split; [|split; [done|]; intros _ ? ? ? ? _; done].
    split; [done|]. intros [Hn _]. rewrite Hn in Hu. by destruct Hu. }
  apply eq_None_not_Some in Hu.
  destruct (get_parent_spec h db e scope scope_id I) as (p & h1 & db1 & Ep & I1 & Hi1 & S1 & Hcase). rewrite Ep. cbn [mbind option_bind].
  destruct Hcase as [[-> Hn]|(Hp0 & ps & Hh & HD & Hp & Hpo & He)].
  { exists false, h1, db1. split; [done|]. split; [done|]. split; [intros e' i _; by rewrite Hi1|]. split; [split; [done|]; intros [_ [ps Hh]]; by destruct (Hn ps)|]. split; [done|]. by intros _. }
  rewrite (proj2 (Z.eqb_neq p 0) Hp0). rewrite <- Hi1 in Hu.
  destruct (create_in_spec h1 db1 e id ps p I1 HD Hp Hpo (He id) Hu) as (h2 & db2 & out & E2 & I2 & ED & Hout & Hidx & Hoth & Hnew).
  exists true, h2, db2. split; [done|]. split; [done|]. split; [intros e' i H; by rewrite Hoth, Hi1|]. rewrite Hi1 in Hu. split; [split; [|done]; intros _; split; [done|by exists ps]|].
  split; [|done]. intros _. exists ps, out. split; [done|]. split; [done|]. split; [by rewrite ED|]. split; [done|].
  intros e' ks i q He' Hne. rewrite (Hnew e' ks i q He' Hne). by apply (S1 e' ks i q).
Qed.
