(* ===== verification/VocsDbAuth.v ===== *)
(** * The domain database: who may do what

    What the questions to a database in order answer, in terms of the tree of the
    domains; adding administrators; the state of loops. *)
From S2P Require Import Prelude Hashtable OvList Dict JsonValue JsonTree JsonOps.
From S2P Require Import JsonPaths JsonPointer Permission VocsDb VocsDbInv VocsDbOps VocsDbCreate.
From Stdlib Require Import Ascii.

(** ** Reading along a path *)

Lemma get_key_zero h k : wf h -> get_key h 0 k = None.
Proof. intros W. unfold get_key. by rewrite (jw_zero _ h W). Qed.
Lemma default_key h p k : wf h -> default 0 (get_key h p k) <> 0 <-> is_Some (get_key h p k).
Proof.
  intros W. destruct (get_key h p k) as [c|] eqn:E; cbn; [|split; [done|]; by intros [? ?]].
  split; [by eexists|]. intros _. by eapply get_key_nonzero.
Qed.
(** Going on from a value that may be missing. *)
Lemma walk_default h p k ks : wf h -> ks <> [] -> get_path h (default 0 (get_key h p k)) ks = get_path h p (k :: ks).
Proof.
  intros W Hne. cbn [walk]. destruct (get_key h p k) as [c|]; [done|]. cbn. destruct ks as [|k' ks]; [done|]. cbn [walk].
  by rewrite get_key_zero.
Qed.
Lemma two_keys h p k k' m : wf h ->
  get_path h p [k; k'] = Some m <-> get_key h (default 0 (get_key h p k)) k' = Some m.
Proof. intros W. rewrite <- walk_default by done. cbn [walk]. by destruct (get_key h _ k'). Qed.
Lemma is_admin_user_spec h v user : wf h -> (v = 0 \/ is_Some (h !! v)) ->
  ov_vocs_json_is_admin_user h v user =
    Some (bool_decide (is_Some (get_path h v [OV_KEY_ROLES; OV_KEY_ADMIN; OV_KEY_USERS; user]))).
Proof.
  intros W Hv. unfold ov_vocs_json_is_admin_user. destruct (Z.eqb_spec v 0) as [->|Hv0].
  { cbn [walk]. rewrite get_key_zero by done. by rewrite bool_decide_eq_false_2 by (by intros [? ?]). }
  rewrite (json_get_spec h v _ W Hv). cbn [mbind option_bind]. rewrite (json_get_spec h _ _ W (key_live h v _ W)). cbn [mbind option_bind].
  rewrite (json_get_spec h _ _ W (key_live h _ _ W)). cbn [mbind option_bind]. rewrite (json_get_spec h _ _ W (key_live h _ _ W)). cbn [mbind option_bind].
  f_equal. rewrite <- walk_default, <- walk_default, <- walk_default by done. cbn [walk].
  set (x := default 0 (get_key h (default 0 (get_key h v OV_KEY_ROLES)) OV_KEY_ADMIN)).
  set (y := default 0 (get_key h x OV_KEY_USERS)). pose proof (default_key h y user W) as Hd.
  destruct (get_key h y user) as [m|] eqn:Em.
  - cbn. by rewrite (proj2 (Z.eqb_neq m 0)) by (by eapply get_key_nonzero).
  - done.
Qed.

(** ** Authorization *)

(** The tree has an entity. *)
Definition entity (st : db_state) (e : ov_vocs_db_entity) (id : string) (q : Z) : Prop :=
  exists ks, entity_path e ks id /\ get_path st.1 (data_domains st.2) ks = Some q.
Lemma entity_index st e id q : db_inv st -> is_admin_role e id = false -> entity st e id q <-> index st.2 e !! id = Some q.
Proof.
  intros I Ha. split; [intros (ks & He & Hp); by eapply (inv_complete _ I)|]. apply (inv_sound _ I).
Qed.

(** An id is looked up: 0, or a value that exists. *)
Lemma lookup_id h db e d id : db_inv (h, db) -> get_index_dict db e = Some d ->
  impl_dict_get d (Some id) = Some (default 0 (index db e !! id)) /\
  match index db e !! id with Some q => q <> 0 /\ is_Some (h !! q) | None => True end.
Proof.
  intros I Hd. pose proof (index_get_spec db e id (inv_dicts _ I)) as E. rewrite Hd in E. split; [exact E|].
  destruct (index db e !! id) as [q|] eqn:Eq; [|done]. pose proof (is_object_live h q (I_live h db I e id q Eq)) as Hl. split; [|done].
  destruct Hl as [v Hv]. by eapply live_nonzero; [apply (jw_zero _ h (I_wf h db I))|].
Qed.
Lemma authorize_spec h db user role : db_inv (h, db) -> exists b, ov_vocs_db_authorize true (h, db) user role = Some (b, (h, db)) /\
  (b = true <-> exists u r m, index db OV_VOCS_DB_USER !! user = Some u /\ index db OV_VOCS_DB_ROLE !! role = Some r /\
     get_path h r [OV_KEY_USERS; user] = Some m).
Proof.
  intros I. pose proof (I_wf h db I) as W. unfold ov_vocs_db_authorize. cbn [negb].
  destruct (lookup_id h db OV_VOCS_DB_USER _ user I eq_refl) as [-> Hu]. cbn [mbind option_bind].
  destruct (index db OV_VOCS_DB_USER !! user) as [u|] eqn:Eu; [|exists false; split; [done|]; split; [done|]; by intros (? & ? & ? & ? & _)].
  change (default 0 (Some u)) with u. rewrite (proj2 (Z.eqb_neq u 0) (proj1 Hu)).
  destruct (lookup_id h db OV_VOCS_DB_ROLE _ role I eq_refl) as [-> Hr]. cbn [mbind option_bind].
  destruct (index db OV_VOCS_DB_ROLE !! role) as [r|] eqn:Er; [|exists false; split; [done|]; split; [done|]; by intros (? & ? & ? & _ & ? & _)].
  change (default 0 (Some r)) with r. rewrite (proj2 (Z.eqb_neq r 0) (proj1 Hr)).
  slashes. rewrite (slash_spec h r OV_KEY_USERS W (or_intror (proj2 Hr)) eq_refl). cbn [mbind option_bind].
  rewrite (json_get_spec h _ user W (key_live h r _ W)). cbn [mbind option_bind].
  eexists. split; [done|]. rewrite negb_true_iff, Z.eqb_neq, default_key by done. split.
  - intros [m Hm]. exists u, r, m. split; [done|]. split; [done|]. by apply two_keys.
  - intros (u' & r' & m & _ & Hr' & Hm). assert (r' = r) as -> by congruence. exists m. by apply two_keys.
Qed.

(** ** Administrators *)

(** [user] is among the users of the admin role of the owner at [o]. *)
Definition is_admin (st : db_state) (o : list string) (user : string) : Prop :=
  exists m, get_path st.1 (data_domains st.2) (o ++ [OV_KEY_ROLES; OV_KEY_ADMIN; OV_KEY_USERS; user]) = Some m.
Lemma is_admin_at h db o x user : get_path h (data_domains db) o = Some x ->
  is_admin (h, db) o user <-> is_Some (get_path h x [OV_KEY_ROLES; OV_KEY_ADMIN; OV_KEY_USERS; user]).
Proof.
  intros Hx. unfold is_admin. cbn [fst snd]. split.
  - intros (m & Hm). apply walk_app_Some in Hm as (y & Hy & Hm). assert (y = x) as -> by congruence. by exists m.
  - intros [m Hm]. exists m. apply walk_app_Some. by exists x.
Qed.
Lemma authorize_domain_admin_spec h db user d : db_inv (h, db) -> exists b, authorize_domain_admin (h, db) user (Some d) = Some b /\
  (b = true <-> is_admin (h, db) [d] user).
Proof.
  intros I. pose proof (I_wf h db I) as W. unfold authorize_domain_admin. cbn [fst snd].
  pose proof (index_get_spec db OV_VOCS_DB_DOMAIN d (inv_dicts _ I)) as E. cbn [get_index_dict index_get] in E. rewrite E.
  cbn [mbind option_bind]. rewrite is_admin_user_spec by (done || by apply (I_default h db I)). eexists. split; [done|].
  rewrite bool_decide_eq_true. destruct (index db OV_VOCS_DB_DOMAIN !! d) as [x|] eqn:Ex; cbn [from_option].
  - unfold id. destruct (I_index h db I _ d x Ex) as (ks & He & Hp). inversion He as [| |? ? ? ? Hl]; subst; [|inversion Hl].
    by rewrite (is_admin_at h db [d] x user Hp).
  - split.
    + intros [m Hm]. cbn [walk] in Hm. by rewrite get_key_zero in Hm.
    + intros (m & Hm). cbn [fst snd] in Hm. apply walk_app_Some in Hm as (x & Hx & _).
      pose proof (inv_complete _ I _ _ _ _ (path_domain d) Hx eq_refl) as Hi. cbn [fst snd] in Hi. congruence.
Qed.

(** ** Adding administrators *)

(** [get_or_make] below an object, where at most an admin role is an entity. *)
Lemma get_or_make_spec h db ps p k : db_inv (h, db) -> data_domains db <> 0 -> get_path h (data_domains db) ps = Some p ->
  is_object h p -> (forall e i, entity_path e (ps ++ [k]) i -> is_admin_role e i = true) -> ps <> [] ->
  exists c h', get_or_make h p k = Some (c, h') /\ db_inv (h', db) /\ get_path h' (data_domains db) (ps ++ [k]) = Some c /\
    (get_key h p k = None -> is_object h' c) /\ (forall ks q, ks <> ps ++ [k] ->
      get_path h' (data_domains db) ks = Some q <-> get_path h (data_domains db) ks = Some q) /\
    (is_Some (get_key h p k) -> h' = h).
Proof.
  intros I HD Hp Hpo Hent Hps. pose proof (I_wf h db I) as W. unfold get_or_make.
  rewrite (json_get_spec h p k W (or_intror (is_object_live h p Hpo))). cbn [mbind option_bind].
  destruct (get_key h p k) as [c|] eqn:Ek.
  - change (default 0 (Some c)) with c. rewrite (proj2 (Z.eqb_neq c 0)) by (by eapply get_key_nonzero).
    exists c, h. split; [done|]. split; [done|]. split; [by rewrite walk_snoc, Hp|]. done.
  - destruct (attach_empty h db ps p k I HD Hp Hpo Ek Hent Hps) as (c & h1 & h2 & E1 & E2 & I2 & Hc0 & Hco & Hap).
    change (negb (default 0 None =? 0)) with false. cbn match. rewrite E1. cbn [mbind option_bind]. rewrite E2. cbn [mbind option_bind].
    exists c, h2. split; [done|]. split; [done|]. split; [apply Hap; by right|]. split; [done|]. split; [|by intros [? ?]].
    intros ks q Hne. rewrite Hap. split; [by intros [|[-> _]]|by left].
Qed.
(** A leaf value [c] under a key of [p], deep in an admin role. *)
Lemma set_deep h db ps p k t c h1 : db_inv (h, db) -> data_domains db <> 0 -> get_path h (data_domains db) ps = Some p ->
  is_object h p -> created h t c h1 -> (forall x, ~ kid t x) ->
  (forall e b i, ~ entity_path e (ps ++ k :: b) i) -> (forall e i, ~ entity_path e ((ps ++ [k]) ++ [i]) i) -> (2 <= length ps)%nat ->
  exists h2, ov_json_object_set h1 p k c = Some (true, h2) /\ db_inv (h2, db) /\
    get_path h2 (data_domains db) (ps ++ [k]) = Some c /\
    (forall ks q, (forall b, ks <> ps ++ k :: b) -> get_path h2 (data_domains db) ks = Some q <-> get_path h (data_domains db) ks = Some q).
Proof.
  intros I HD Hp Hpo C1 Ht Hent Hcon Hlen. pose proof (more_created _ _ _ _ Ht C1) as M1. pose proof (db_inv_more h db h1 I M1) as I1.
  destruct (inv_domains _ I) as [|Hr]; [done|]. cbn [fst snd] in Hr.
  assert (Hlr : is_Some (h !! data_domains db)) by (destruct Hr as (v & Hv & _); by exists v).
  assert (Hcp : c <> p) by (intros ->; destruct Hpo as (? & ? & Hx); by rewrite (cr_fresh _ _ _ _ C1) in Hx).
  destruct (set_changed h1 p k c (mo_wf _ _ M1) (mo_object _ _ M1 _ Hpo) (created_root C1)) as (h2 & E2 & C2).
  { intros Hb. apply Hcp. symmetry. by apply (created_below C1). }
  assert (Hp1 : get_path h1 (data_domains db) ps = Some p) by (by rewrite (mo_path _ _ M1)).
  assert (HcD : c <> data_domains db) by (eapply created_fresh_root; [done|by right]).
  assert (HcS : c <> data_state db) by (eapply created_fresh_root; [done|apply (inv_state _ I)]).
  assert (Hwalk : forall b q, get_path h1 c b = Some q -> b = [] /\ q = c).
  { intros [|k' b] q; [by intros [= <-]|]. rewrite walk_cons_Some. intros (x & Hx & _). apply get_key_edge in Hx as (v & Hv & Hk').
    rewrite (created_c C1) in Hv. injection Hv as <-. by destruct (Ht x). }
  pose proof (fun ks q => attached_path h1 db I1 ps p k c h2 HD Hp1 (created_root C1) HcD C2 ks q) as Hap.
  assert (Hat : forall e ks i q, entity_path e ks i -> get_path h1 (data_domains db) ks = Some q -> ~ at_key h1 p k q).
  { intros e ks i q He Hq (o & Ho & Hb). destruct (below_path h1 _ ks o q (mo_wf _ _ M1) (mo_root _ _ M1 _ Hr) Hq Hb) as (a & b & -> & Ha & _).
    assert (Hpo1 : get_path h1 (data_domains db) (ps ++ [k]) = Some o) by (by rewrite walk_snoc, Hp1).
    pose proof (path_inj h1 _ _ _ o (mo_wf _ _ M1) (mo_root _ _ M1 _ Hr) Ha Hpo1) as ->. rewrite <- app_assoc in He. by apply (Hent e b i). }
  exists h2. split; [done|]. split; [|split].
  - eapply (db_inv_attach h1 db I1 ps p k c h2 HD Hp1 (created_root C1) HcD HcS C2 db); try done.
    + exact (inv_dicts _ I).
    + intros e i q Hq. left. split; [done|]. destruct (I_index h1 db I1 e i q Hq) as (ks & He & Hpq). by eapply Hat.
    + intros e b i q He. by destruct (Hent e b i).
    + intros e b i q He Hb. apply Hwalk in Hb as [-> ->]. by destruct (Hcon e i).
    + by right.
    + intros ->. by cbn in Hlen; lia.
  - apply Hap. right. by exists [].
  - intros ks q Hne. rewrite Hap, (mo_path _ _ M1) by done. split.
    + intros [[Hq _]|(b & -> & _)]; [done|]. by destruct (Hne b).
    + intros Hq. left. split; [done|]. intros (o & Ho & Hb). assert (Hq1 : get_path h1 (data_domains db) ks = Some q) by (by rewrite (mo_path _ _ M1)).
      destruct (below_path h1 _ ks o q (mo_wf _ _ M1) (mo_root _ _ M1 _ Hr) Hq1 Hb) as (a & b & -> & Ha & _).
      assert (Hpo1 : get_path h1 (data_domains db) (ps ++ [k]) = Some o) by (by rewrite walk_snoc, Hp1).
      pose proof (path_inj h1 _ _ _ o (mo_wf _ _ M1) (mo_root _ _ M1 _ Hr) Ha Hpo1) as ->. apply (Hne b). by rewrite <- app_assoc.
Qed.

Definition admins (o : list string) : list string := o ++ [OV_KEY_ROLES; OV_KEY_ADMIN; OV_KEY_USERS].
(** Paths of members of admin roles are not touched on the way. *)
Lemma admins_apart o o' u : owner_path o -> owner_path o' ->
  o' ++ [OV_KEY_ROLES; OV_KEY_ADMIN; OV_KEY_USERS; u] <> o ++ [OV_KEY_ROLES] /\
  o' ++ [OV_KEY_ROLES; OV_KEY_ADMIN; OV_KEY_USERS; u] <> (o ++ [OV_KEY_ROLES]) ++ [OV_KEY_ADMIN] /\
  o' ++ [OV_KEY_ROLES; OV_KEY_ADMIN; OV_KEY_USERS; u] <> ((o ++ [OV_KEY_ROLES]) ++ [OV_KEY_ADMIN]) ++ [OV_KEY_USERS].
Proof. intros Ho Ho'. destruct Ho, Ho'; done. Qed.
Lemma admins_same o o' u user b : owner_path o -> owner_path o' ->
  o' ++ [OV_KEY_ROLES; OV_KEY_ADMIN; OV_KEY_USERS; u] = (((o ++ [OV_KEY_ROLES]) ++ [OV_KEY_ADMIN]) ++ [OV_KEY_USERS]) ++ user :: b ->
  o' = o /\ u = user.
Proof. intros Ho Ho' E. destruct Ho, Ho'; cbn in E; simplify_eq; done. Qed.
(** No entity is below the users of an admin role. *)
Lemma admins_no_entity o e b i : owner_path o -> ~ entity_path e (((o ++ [OV_KEY_ROLES]) ++ [OV_KEY_ADMIN]) ++ OV_KEY_USERS :: b) i.
Proof.
  intros Ho He. assert (Ha : entity_path OV_VOCS_DB_ROLE ((o ++ [OV_KEY_ROLES]) ++ [OV_KEY_ADMIN]) OV_KEY_ADMIN)
    by (rewrite <- app_assoc; apply path_leaf; [constructor|done]).
  destruct (entity_path_inside _ _ _ _ _ _ Ha He) as [(? & _)|[(? & _)|[(? & _)|([?|?] & _)]]]; done.
Qed.
(** The users of the admin role, made where they are missing. *)
Definition admin_users (h : json_heap) (obj : Z) : option (Z * json_heap) :=
  '(roles, h) ← get_or_make h obj OV_KEY_ROLES;
  '(admin, h) ← get_or_make h roles OV_KEY_ADMIN;
  get_or_make h admin OV_KEY_USERS.
Lemma add_admin_eq h db obj id : add_admin (h, db) obj id =
  ('(users, h) ← admin_users h obj;
   let '(null, h) := ov_json_null h in
   '(result, h) ← ov_json_object_set h users id null; Some (result, (h, db))).
Proof.
  unfold add_admin, admin_users. destruct (get_or_make h obj OV_KEY_ROLES) as [[r h1]|]; [|done]. cbn [mbind option_bind].
  by destruct (get_or_make h1 r OV_KEY_ADMIN) as [[a h2]|].
Qed.
Lemma admin_users_spec h db o x : db_inv (h, db) -> owner_path o -> get_path h (data_domains db) o = Some x ->
  exists us h', admin_users h x = Some (us, h') /\ db_inv (h', db) /\ data_domains db <> 0 /\
    get_path h' (data_domains db) (((o ++ [OV_KEY_ROLES]) ++ [OV_KEY_ADMIN]) ++ [OV_KEY_USERS]) = Some us /\
    (is_object h' us \/ get_path h (data_domains db) (admins o) = Some us /\ h' = h) /\
    forall o' u' q, owner_path o' ->
      get_path h' (data_domains db) (o' ++ [OV_KEY_ROLES; OV_KEY_ADMIN; OV_KEY_USERS; u']) = Some q <->
      get_path h (data_domains db) (o' ++ [OV_KEY_ROLES; OV_KEY_ADMIN; OV_KEY_USERS; u']) = Some q.
Proof.
  intros I Ho Hx. destruct (I_owner h db I o x Ho Hx) as [Hxo _].
  assert (HD : data_domains db <> 0).
  { destruct Ho as [d|d p]; [exact (proj1 (I_path_root h db I _ _ _ _ (path_domain d) Hx))|
      exact (proj1 (I_path_root h db I _ _ _ _ (path_project d p) Hx))]. }
  destruct (get_or_make_spec h db o x OV_KEY_ROLES I HD Hx Hxo) as (r & h1 & E1 & I1 & Hr & _ & P1 & Q1).
  { intros e i He. exfalso. apply (owns_not_entity OV_VOCS_DB_ROLE OV_KEY_ROLES o e i); [left; split; [constructor|done]|done]. } { by destruct Ho. }
  assert (Hro : is_object h1 r).
  { assert (Hx1 : get_path h1 (data_domains db) o = Some x) by (apply P1; [by destruct Ho|done]).
    apply (I_members h1 db I1 OV_VOCS_DB_ROLE OV_KEY_ROLES o x r leaf_role Ho Hx1). rewrite walk_snoc, Hx1 in Hr. done. }
  assert (Ha : entity_path OV_VOCS_DB_ROLE ((o ++ [OV_KEY_ROLES]) ++ [OV_KEY_ADMIN]) OV_KEY_ADMIN)
    by (rewrite <- app_assoc; apply path_leaf; [constructor|done]).
  destruct (get_or_make_spec h1 db (o ++ [OV_KEY_ROLES]) r OV_KEY_ADMIN I1 HD Hr Hro) as (a & h2 & E2 & I2 & Hap & _ & P2 & Q2).
  { intros e i He. by destruct (entity_path_kind _ _ _ _ _ Ha He) as [<- <-]. } { by destruct Ho. }
  assert (Hao : is_object h2 a) by (by eapply (inv_entity _ I2)).
  destruct (get_or_make_spec h2 db ((o ++ [OV_KEY_ROLES]) ++ [OV_KEY_ADMIN]) a OV_KEY_USERS I2 HD Hap Hao) as (us & h3 & E3 & I3 & Hup & Huo & P3 & Q3).
  { intros e i He. by destruct (admins_no_entity o e [] i Ho). } { by destruct Ho. }
  exists us, h3. split; [unfold admin_users; rewrite E1; cbn [mbind option_bind]; by rewrite E2|]. split; [done|]. split; [done|]. split; [done|]. split.
  - destruct (get_key h2 a OV_KEY_USERS) as [y|] eqn:Ey; [right|by left; apply Huo]. rewrite (Q3 ltac:(by eexists)) in *.
    assert (Hy0 : get_path h (data_domains db) (((o ++ [OV_KEY_ROLES]) ++ [OV_KEY_ADMIN]) ++ [OV_KEY_USERS]) = Some us)
      by (apply P1; [by destruct Ho|]; apply P2; [by destruct Ho|done]).
    assert (h1 = h) as ->.
    { apply Q1. rewrite <- !app_assoc in Hy0. rewrite walk_app, Hx in Hy0. cbn in Hy0. destruct (get_key h x OV_KEY_ROLES); [by eexists|done]. }
    assert (h2 = h) as ->.
    { apply Q2. rewrite <- (app_assoc (o ++ [OV_KEY_ROLES])) in Hy0. rewrite walk_app, Hr in Hy0. cbn in Hy0. destruct (get_key h r OV_KEY_ADMIN); [by eexists|done]. }
    split; [|done]. unfold admins. by rewrite <- !app_assoc in Hy0.
  - intros o' u' q Ho'. destruct (admins_apart o o' u' Ho Ho') as (N1 & N2 & N3). by rewrite P3, P2, P1.
Qed.
Lemma add_admin_set h db o us user : db_inv (h, db) -> owner_path o -> data_domains db <> 0 ->
  get_path h (data_domains db) (((o ++ [OV_KEY_ROLES]) ++ [OV_KEY_ADMIN]) ++ [OV_KEY_USERS]) = Some us -> is_object h us ->
  exists h', (let '(null, h) := ov_json_null h in '(result, h) ← ov_json_object_set h us user null; Some (result, (h, db))) = Some (true, (h', db)) /\
    db_inv (h', db) /\ is_admin (h', db) o user /\
    forall o' u', owner_path o' -> ~ (o' = o /\ u' = user) -> is_admin (h', db) o' u' <-> is_admin (h, db) o' u'.
Proof.
  intros I Ho HD Hup Huso. pose proof (new_created h OV_JSON_NULL (I_wf h db I) Logic.I (fun _ F => F)) as C.
  destruct (set_deep h db _ us user OV_JSON_NULL _ _ I HD Hup Huso C (fun _ F => F)) as (h5 & E5 & I5 & Hn & P5).
  { intros e b i. rewrite <- app_assoc. by apply admins_no_entity. }
  { intros e i. rewrite <- !app_assoc. rewrite (app_assoc o), (app_assoc (o ++ _)). by apply admins_no_entity. } { rewrite !length_app. cbn. lia. }
  exists h5. split; [|split; [done|split]].
  - unfold ov_json_null. destruct (new_value h OV_JSON_NULL) as [n h4]. cbn [fst snd] in *. by rewrite E5.
  - eexists. cbn [fst snd]. by rewrite <- !app_assoc in Hn.
  - intros o' u' Ho' Hne. unfold is_admin. cbn [fst snd].
    split; intros (m & Hm); exists m; [apply P5 in Hm|apply P5]; try done; intros b E; by apply Hne, (admins_same o o' u' user b).
Qed.
Lemma add_admin_spec h db o x user : db_inv (h, db) -> owner_path o -> get_path h (data_domains db) o = Some x ->
  (forall u, get_path h (data_domains db) (admins o) = Some u -> is_object h u) ->
  exists h', add_admin (h, db) x user = Some (true, (h', db)) /\ db_inv (h', db) /\ is_admin (h', db) o user /\
    forall o' u', owner_path o' -> ~ (o' = o /\ u' = user) -> is_admin (h', db) o' u' <-> is_admin (h, db) o' u'.
Proof.
  intros I Ho Hx Hus. destruct (admin_users_spec h db o x I Ho Hx) as (us & h3 & E3 & I3 & HD & Hup & Huo & P3).
  assert (Huso : is_object h3 us) by (destruct Huo as [|[Hu ->]]; [done|by apply Hus]).
  destruct (add_admin_set h3 db o us user I3 Ho HD Hup Huso) as (h5 & E5 & I5 & Hadm & P5).
  exists h5. rewrite add_admin_eq, E3. split; [exact E5|]. split; [done|]. split; [done|].
  intros o' u' Ho' Hne. rewrite (P5 o' u' Ho' Hne). unfold is_admin. cbn [fst snd]. split; intros (m & Hm); exists m; by apply P3.
Qed.
(** Whatever the users are. *)
Lemma add_admin_keeps h db o x user : db_inv (h, db) -> owner_path o -> get_path h (data_domains db) o = Some x ->
  exists b h', add_admin (h, db) x user = Some (b, (h', db)) /\ db_inv (h', db).
Proof.
  intros I Ho Hx. destruct (admin_users_spec h db o x I Ho Hx) as (us & h3 & E3 & I3 & HD & Hup & _).
  assert (Hlu : is_Some (h3 !! us)).
  { eapply path_live; [apply (I_wf h3 db I3)| |done]. destruct (inv_domains _ I3) as [|(v & Hv & _)]; [done|by exists v]. }
  destruct Hlu as [w Hw]. rewrite add_admin_eq, E3. cbn [mbind option_bind].
  destruct (type w) as [d| | | | | |] eqn:Et.
  1:{ destruct (add_admin_set h3 db o us user I3 Ho HD Hup) as (h5 & E5 & I5 & _); [exists d, (parent w); rewrite <- Et; by destruct w|]. eauto. }
  all: pose proof (new_created h3 OV_JSON_NULL (I_wf h3 db I3) Logic.I (fun _ F => F)) as C; pose proof (created_old C _ _ Hw) as Hw4;
    assert (Hn : ~ is_object (new_value h3 OV_JSON_NULL).2 us) by (intros (dx & q & Hq); rewrite Hw4 in Hq; by injection Hq as ->);
    destruct (set_not_object _ us user (new_value h3 OV_JSON_NULL).1 (jw_zero _ _ (cr_wf _ _ _ _ C)) ltac:(right; by exists w) Hn) as (E & _ & _);
    unfold ov_json_null; pose proof (db_inv_more h3 db _ I3 (more_created h3 OV_JSON_NULL _ _ (fun _ F => F) C)) as I4;
    destruct (new_value h3 OV_JSON_NULL) as [n h4]; cbn [fst snd] in *; rewrite E; cbn [mbind option_bind]; eauto.
Qed.

