(* ===== verification/VocsDbState.v ===== *)
(** * The domain database: the state of loops, and every sequence of operations

    Setting the state of a loop works on the second tree and leaves the domains
    alone. The last part runs any sequence of operations from an empty
    database. *)
From S2P Require Import Prelude Hashtable OvList Dict JsonValue JsonTree JsonOps.
From S2P Require Import JsonPaths JsonPointer Permission VocsDb VocsDbInv VocsDbOps VocsDbCreate VocsDbAuth.

(** ** The other tree *)

(** What is reached from the domains is the same. *)
Lemma db_inv_same h db h' : db_inv (h, db) -> wf h' -> (is_root h (data_domains db) -> is_root h' (data_domains db)) ->
  (is_root h (data_state db) -> is_root h' (data_state db)) ->
  (forall ks q, is_root h (data_domains db) -> get_path h' (data_domains db) ks = Some q <-> get_path h (data_domains db) ks = Some q) ->
  (forall ks q, get_path h (data_domains db) ks = Some q -> is_root h (data_domains db) ->
    (is_object h q -> is_object h' q) /\ forall s, is_string h q s -> is_string h' q s) ->
  db_inv (h', db).
Proof.
  intros I W' HrD HrS Hp Hk.
  assert (Hpath : forall ks q, ks <> [] -> get_path h' (data_domains db) ks = Some q -> get_path h (data_domains db) ks = Some q /\ is_root h (data_domains db)).
  { intros ks q Hne Hq. destruct (inv_domains _ I) as [E0|Hr]; cbn [fst snd] in *; [|split; [by apply Hp|done]].
    rewrite E0 in Hq. destruct ks as [|k ks]; [done|]. apply walk_cons_Some in Hq as (x & Hx & _). unfold get_key in Hx. by rewrite (jw_zero _ h' W') in Hx. }
  assert (Hne : forall e ks id, entity_path e ks id -> ks <> []) by (intros e ks id He ->; inversion He as [| |? ? o]; by destruct o).
  split; cbn [fst snd]; try apply I; try done.
  - destruct (inv_domains _ I) as [|Hr]; [by left|right]. by apply HrD.
  - destruct (inv_state _ I) as [|Hr]; [by left|right]. by apply HrS.
  - intros e id q Hq. destruct (I_index h db I e id q Hq) as (ks & He & Hq'). exists ks. split; [done|].
    destruct (I_path_root h db I _ _ _ _ He Hq') as [_ Hr]. by apply Hp.
  - intros e ks id q He [Hq _]%Hpath; [|by eapply Hne]. by eapply (inv_complete _ I).
  - intros e ks id q He [Hq Hr]%Hpath; [|by eapply Hne]. apply (proj1 (Hk ks q Hq Hr)). by eapply (inv_entity _ I).
  - intros e ks id q He HD Hq. destruct (inv_domains _ I) as [|Hr]; cbn [fst snd] in *; [done|]. apply Hp in Hq; [|done].
    apply (proj1 (Hk ks q Hq Hr)). by eapply (inv_container _ I).
  - intros d x [Hx Hr]%Hpath; [|done]. destruct (inv_ids _ I d x Hx) as (i & Hi & Hs). exists i.
    split; [by apply Hp|]. by apply (proj2 (Hk _ i Hi Hr)).
Qed.
Lemma domains_apart h db ks ks' q : db_inv (h, db) -> is_root h (data_domains db) -> is_root h (data_state db) ->
  get_path h (data_domains db) ks = Some q -> below h (data_state db) q -> get_path h (data_state db) ks' = Some (data_state db) -> False.
Proof.
  intros I HD HS Hq Hb _. pose proof (I_wf h db I) as W. apply path_below in Hq.
  assert (E : data_domains db = data_state db).
  { destruct (below_chain _ h _ _ q W Hq Hb) as [H|H]; [by apply (root_alone h _ _ W HS)|symmetry; by apply (root_alone h _ _ W HD)]. }
  destruct HD as (v & Hv & _). apply (inv_apart _ I) in E. cbn [fst snd] in E. rewrite E in Hv. by rewrite (jw_zero _ h W) in Hv.
Qed.
(** The string at a path of the state. *)
Definition string_of (t : ov_json_t) : option string := match t with OV_JSON_STRING s => s | _ => None end.
Definition state_string (h : json_heap) (db : ov_vocs_db) (ks : list string) : option string :=
  q ← get_path h (data_state db) ks; v ← h !! q; string_of (type v).
Lemma state_string_created h db t c h' ks : wf h -> (data_state db = 0 \/ is_root h (data_state db)) -> created h t c h' -> (forall x, ~ kid t x) ->
  state_string h' db ks = state_string h db ks.
Proof.
  intros W HS C Ht. unfold state_string. rewrite (created_path C) by done.
  destruct (get_path h (data_state db) ks) as [q|] eqn:E; [|done]. cbn. destruct HS as [HS|(v & Hv & _)].
  - rewrite HS in E. destruct ks as [|k ks].
    + injection E as <-. by rewrite (jw_zero _ h W), (jw_zero _ h' (cr_wf _ _ _ _ C)).
    + apply walk_cons_Some in E as (x & Hx & _). unfold get_key in Hx. by rewrite (jw_zero _ h W) in Hx.
  - destruct (path_live none h (data_state db) ks q W ltac:(by exists v) E) as [w Hw]. by rewrite Hw, (created_old C _ _ Hw).
Qed.
Lemma state_string_set h db ps p k c t h' : wf h -> is_root h (data_state db) -> get_path h (data_state db) ps = Some p -> is_object h p ->
  h !! c = Some {| type := t; parent := 0 |} -> (forall k', get_key h c k' = None) -> ~ below h c p -> changed h p k (Some c) h' -> forall ks,
  (string_of t = None /\ get_key h p k = None) \/ ~ (ps ++ [k]) `prefix_of` ks -> state_string h' db ks = state_string h db ks.
Proof.
  intros W HS Hp Hpo Hc Hck Hcb C ks Hks. assert (Hcr : is_root h c) by (by eexists).
  assert (Hat : forall q, get_path h (data_state db) ks = Some q -> ~ at_key h p k q).
  { intros q Hq (o & Ho & Hb). destruct Hks as [[_ E]|Hn]; [congruence|]. apply Hn.
    destruct (below_path h _ ks o q W HS Hq Hb) as (a & b & -> & Ha & _). exists b. f_equal.
    apply (path_inj h (data_state db) _ _ o W HS Ha). by rewrite walk_snoc, Hp. }
  unfold state_string. destruct (get_path h (data_state db) ks) as [q|] eqn:Eq; cbn [mbind option_bind].
  - rewrite (proj2 (changed_set C W c _ ks q eq_refl Hcr Hcb HS)) by (left; auto). cbn [mbind option_bind].
    destruct (path_live none h (data_state db) ks q W ltac:(destruct HS as (v & Hv & _); by exists v) Eq) as [v Hv]. rewrite Hv. cbn.
    destruct (decide (q = p)) as [->|Hqp].
    + destruct Hpo as (d & r & Ho). assert (v = {| type := OV_JSON_OBJECT d; parent := r |}) as -> by congruence.
      destruct (ch_p _ _ _ _ _ C _ Ho) as [d' ->]. done.
    + destruct (changed_type C q v Hv (Hat q eq_refl) Hqp) as (v' & -> & E). cbn. by rewrite E.
  - destruct (get_path h' (data_state db) ks) as [q|] eqn:Eq'; [|done]. cbn.
    apply (changed_set C W c _ ks q eq_refl Hcr Hcb HS) in Eq' as [[Eq' _]|(a & b & -> & Ha & Hb)]; [congruence|].
    destruct b as [|b1 b]; [injection Hb as <-|by rewrite walk_cons_Some in Hb; destruct Hb as (x & Hx & _); rewrite Hck in Hx].
    assert (a = ps) as -> by (by apply (path_inj h (data_state db) _ _ p W HS)).
    destruct Hks as [[Et _]|Hn]; [|by destruct Hn]. by rewrite (ch_new _ _ _ _ _ C c _ eq_refl Hc).
Qed.
(** A new value is set in the state. *)
Lemma set_in_state h db ps p k t c h1 : db_inv (h, db) -> is_root h (data_state db) -> get_path h (data_state db) ps = Some p ->
  is_object h p -> created h t c h1 -> (forall x, ~ kid t x) ->
  exists h2, ov_json_object_set h1 p k c = Some (true, h2) /\ db_inv (h2, db) /\ is_root h2 (data_state db) /\
    get_path h2 (data_state db) (ps ++ [k]) = Some c /\ h2 !! c = Some {| type := t; parent := p |} /\ (forall k', get_key h2 c k' = None) /\
    (forall ks, (string_of t = None /\ get_key h p k = None) \/ ~ (ps ++ [k]) `prefix_of` ks ->
       state_string h2 db ks = state_string h db ks).
Proof.
  intros I HS Hp Hpo C1 Ht. pose proof (more_created _ _ _ _ Ht C1) as M1. pose proof (db_inv_more h db h1 I M1) as I1.
  pose proof (mo_wf _ _ M1) as W1. pose proof (mo_root _ _ M1 _ HS) as HS1.
  assert (Hcp : c <> p) by (intros ->; destruct Hpo as (? & ? & Hx); by rewrite (cr_fresh _ _ _ _ C1) in Hx).
  assert (Hcb : ~ below h1 c p) by (intros Hb; apply Hcp; symmetry; by apply (created_below C1)).
  destruct (set_changed h1 p k c W1 (mo_object _ _ M1 _ Hpo) (created_root C1) Hcb) as (h2 & E2 & C2).
  assert (HcS : c <> data_state db) by (eapply created_fresh_root; [done|by right]).
  assert (HcD : c <> data_domains db) by (eapply created_fresh_root; [done|apply (inv_domains _ I)]).
  assert (Hp1 : get_path h1 (data_state db) ps = Some p).
  { rewrite (mo_path _ _ M1); [done|]. destruct HS as (v & Hv & _). by exists v. }
  assert (HSp : forall q, at_key h1 p k q \/ q = p -> below h1 (data_state db) q).
  { intros q [(o & Ho & Hb)| ->]; [|by eapply path_below]. transitivity p; [by eapply path_below|].
    eapply rtc_l; [by eapply get_key_edge|done]. }
  assert (Hno : forall ks q, is_root h1 (data_domains db) -> get_path h1 (data_domains db) ks = Some q -> ~ at_key h1 p k q /\ q <> p).
  { intros ks q HD Hq. split; intros Hx; apply (domains_apart h1 db ks [] q I1 HD HS1 Hq); auto. }
  assert (HnS : ~ at_key h1 p k c) by (apply (root_not_at_key h1 p k c W1), (created_root C1)).
  exists h2. split; [done|]. split; [|split; [apply (changed_root C2 W1); [done|congruence]|split; [|split]]].
  - eapply (db_inv_same h1 db h2 I1 (ch_wf _ _ _ _ _ C2)).
    + intros Hr. apply (changed_root C2 W1); [done|congruence].
    + intros Hr. apply (changed_root C2 W1); [done|congruence].
    + intros ks q HD. rewrite (changed_set C2 W1 c _ ks q eq_refl (created_root C1) Hcb HD). split.
      * intros [[Hq _]|(a & b & -> & Ha & _)]; [done|]. by destruct (Hno a p HD Ha).
      * intros Hq. left. split; [done|]. by apply (Hno ks q HD).
    + intros ks q Hq HD. destruct (Hno ks q HD Hq) as [Hn _]. split; [intros Ho; by apply (changed_object C2)|].
      intros s Hs. by apply (changed_string C2).
  - apply (changed_set C2 W1 c _ _ c eq_refl (created_root C1) Hcb HS1). right. by exists ps, [].
  - apply (ch_new _ _ _ _ _ C2 c _ eq_refl (created_c C1)).
  - split.
    + intros k'. unfold get_key. rewrite (ch_new _ _ _ _ _ C2 c _ eq_refl (created_c C1)). cbn. destruct t as [d| | | | | |]; try done.
      destruct (dict_map d !! k') as [x|] eqn:Ex; [|done]. by destruct (Ht x); exists k'.
    + intros ks Hks. rewrite <- (state_string_created h db t c h1 ks (I_wf h db I) (or_intror HS) C1 Ht).
      assert (Hck : forall k', get_key h1 c k' = None).
      { intros k'. unfold get_key. rewrite (created_c C1). cbn. destruct t as [d| | | | | |]; try done.
        destruct (dict_map d !! k') as [x|] eqn:Ex; [|done]. by destruct (Ht x); exists k'. }
      apply (state_string_set h1 db ps p k c t h2 W1 HS1 Hp1 (mo_object _ _ M1 _ Hpo) (created_c C1) Hck Hcb C2).
      destruct Hks as [[Et Ek]|Hks]; [left|by right]. split; [done|]. by rewrite (created_key C1).
Qed.
Lemma free_created h t c h1 : wf h -> created h t c h1 -> (forall x, ~ kid t x) -> ov_json_value_free h1 c = Some (0, h).
Proof.
  intros W C Ht. pose proof (cr_wf _ _ _ _ C) as W1. destruct (json_free_detached none h1 c _ W1 (created_c C)) as (h' & E & _ & F).
  { apply (detached_root none h1 c _ W1 (created_c C) eq_refl). } { by intros x u []. }
  rewrite E. do 2 f_equal. apply map_eq. intros q. destruct (decide (q = c)) as [->|Hq].
  - rewrite (fr_gone _ _ _ F) by (by left). symmetry. apply (cr_fresh _ _ _ _ C).
  - rewrite (fr_rest _ _ _ F); [by rewrite (cr_heap _ _ _ _ C), lookup_insert_ne|]. intros x ->%list_elem_of_singleton Hb.
    apply Hq. by apply (created_below C).
Qed.

(** ** Setting and reading *)

(** [get_set]: the member, old or new; 0 when the value is no object. *)
Lemma get_set_spec h db ps p k : db_inv (h, db) -> is_root h (data_state db) -> get_path h (data_state db) ps = Some p ->
  exists v h', get_set h p k = Some (v, h') /\ db_inv (h', db) /\ is_root h' (data_state db) /\
    (v <> 0 -> get_path h' (data_state db) (ps ++ [k]) = Some v) /\
    (forall ks, state_string h' db ks = state_string h db ks) /\
    (is_object h p -> v <> 0 /\ ((get_key h p k = None /\ is_object h' v /\ forall k', get_key h' v k' = None) \/ (get_key h p k = Some v /\ h' = h))).
Proof.
  intros I HS Hp. pose proof (I_wf h db I) as W.
  assert (Hlp : is_Some (h !! p)) by (eapply path_live; [done| |done]; destruct HS as (v & Hv & _); by exists v).
  unfold get_set. rewrite (json_get_spec h p k W (or_intror Hlp)). cbn [mbind option_bind].
  destruct (get_key h p k) as [v|] eqn:Ek.
  { change (default 0 (Some v)) with v. assert (v <> 0) by (by eapply get_key_nonzero). rewrite (proj2 (Z.eqb_neq v 0)) by done.
    exists v, h. split; [done|]. split; [done|]. split; [done|]. split; [by rewrite walk_snoc, Hp|]. split; [done|]. auto. }
  destruct (object_created h W) as (c & d & h1 & E1 & C1 & _ & Hm). pose proof (created_no_key C1 Hm) as Hnk.
  change (negb (default 0 None =? 0)) with false. cbn match. rewrite E1. cbn [mbind option_bind].
  destruct Hlp as [u Hu]. destruct (type u) as [du| | | | | |] eqn:Et.
  1:{ assert (Hpo : is_object h p) by (exists du, (parent u); rewrite <- Et; by destruct u).
      destruct (set_in_state h db ps p k _ c h1 I HS Hp Hpo C1 Hnk) as (h2 & -> & I2 & HS2 & Hc & Hc2 & Hck & Hst). cbn [mbind option_bind].
      exists c, h2. split; [done|]. split; [done|]. split; [done|]. split; [done|].
      split; [intros ks; apply Hst; by left|]. intros _. split; [apply (cr_nonzero _ _ _ _ C1)|].
      left. split; [done|]. split; [by eexists _, _|done]. }
  all: assert (Hn : ~ is_object h p) by (intros (dx & q & Hx); rewrite Hu in Hx; by injection Hx as ->);
    pose proof (created_old C1 _ _ Hu) as Hu1;
    assert (Hn1 : ~ is_object h1 p) by (intros (dx & q & Hx); rewrite Hu1 in Hx; by injection Hx as ->);
    destruct (set_not_object h1 p k c (jw_zero _ h1 (cr_wf _ _ _ _ C1)) ltac:(right; by exists u) Hn1) as (-> & _ & _);
    cbn [mbind option_bind]; rewrite (free_created h _ c h1 W C1 Hnk); cbn [mbind option_bind];
    exists 0, h; split; [done|]; split; [done|]; split; [done|]; split; [done|]; by split.
Qed.
(** The state tree exists afterwards. *)
Lemma state_tree h db : db_inv (h, db) -> exists h1 db1,
  (if negb (data_state db =? 0) then Some (h, db) else '(p, h1) ← ov_json_object h; Some (h1, with_data_state db p)) = Some (h1, db1) /\
  db_inv (h1, db1) /\ is_root h1 (data_state db1) /\ (forall e, index db1 e = index db e) /\
  (forall ks, state_string h1 db1 ks = state_string h db ks) /\
  ((data_state db = 0 /\ is_object h1 (data_state db1) /\ forall k, get_key h1 (data_state db1) k = None) \/ (h1 = h /\ db1 = db)).
Proof.
  intros I. pose proof (I_wf h db I) as W. destruct (Z.eqb_spec (data_state db) 0) as [E0|HS]; cbn [negb].
  - destruct (object_created h W) as (c & d & h1 & -> & C1 & _ & Hm). cbn [mbind option_bind]. pose proof (created_no_key C1 Hm) as Hnk.
    exists h1, (with_data_state db c). pose proof (db_inv_more h db h1 I (more_created _ _ _ _ Hnk C1)) as I1.
    split; [done|]. split; [|split; [apply (created_root C1)|split; [by intros []|split]]].
    + split; try apply I1; cbn [fst snd data_state with_data_state data_domains].
      * right. apply (created_root C1).
      * intros E. exfalso. revert E. apply not_eq_sym. eapply created_fresh_root; [done|apply (inv_domains _ I)].
    + intros ks. unfold state_string. cbn [data_state with_data_state]. rewrite E0. destruct ks as [|k ks]; cbn [walk].
      * cbn. by rewrite (created_c C1), (jw_zero _ h W).
      * rewrite (created_key C1) by done. unfold get_key. by rewrite (cr_fresh _ _ _ _ C1), (jw_zero _ h W).
    + left. split; [done|]. split; [eexists _, _; apply (created_c C1)|]. intros k. cbn. rewrite (created_key C1) by done.
      unfold get_key. by rewrite (cr_fresh _ _ _ _ C1).
  - exists h, db. split; [done|]. split; [done|]. split; [by destruct (inv_state _ I)|]. split; [done|]. split; [done|]. by right.
Qed.
(** The values on the way are objects, where they exist. *)
Definition state_typed (h : json_heap) (s : Z) (keys : list string) : Prop :=
  forall ks q, ks `prefix_of` keys -> get_path h s ks = Some q -> is_object h q.
Lemma get_set_loop_spec h db user role loop : db_inv (h, db) -> exists l h' db', get_set_loop (h, db) user role loop = Some (l, (h', db')) /\
  db_inv (h', db') /\ is_root h' (data_state db') /\ (forall e, index db' e = index db e) /\
  (l <> 0 -> get_path h' (data_state db') [user; role; loop] = Some l) /\
  (forall ks, state_string h' db' ks = state_string h db ks) /\
  (data_state db = 0 \/ state_typed h (data_state db) [user; role; loop] -> is_object h' l).
Proof.
  intros I. unfold get_set_loop. destruct (state_tree h db I) as (h0 & db0 & E0 & I0 & S0 & Hi & F0 & H0). rewrite E0. cbn [mbind option_bind].
  set (T := data_state db = 0 \/ state_typed h (data_state db) [user; role; loop]).
  assert (T0 : T -> is_object h0 (data_state db0) /\
    ((forall k, get_key h0 (data_state db0) k = None) \/ state_typed h0 (data_state db0) [user; role; loop])).
  { intros HT. destruct H0 as [(_ & Ho & Hk)|[-> ->]]; [by auto|]. destruct HT as [HT|HT].
    - destruct S0 as (v & Hv & _). rewrite HT in Hv. by rewrite (jw_zero _ h (I_wf h db I)) in Hv.
    - split; [|by right]. apply (HT []); [apply prefix_nil|done]. }
  destruct (get_set_spec h0 db0 [] (data_state db0) user I0 S0 eq_refl) as (u & h1 & -> & I1 & S1 & P1 & F1 & O1). cbn [mbind option_bind app] in *.
  destruct (Z.eqb_spec u 0) as [->|Hu0].
  { exists 0, h1, db0. split; [done|]. split; [done|]. split; [done|]. split; [done|]. split; [done|]. split; [intros ks; by rewrite F1|].
    intros HT. by destruct (O1 (proj1 (T0 HT))). }
  assert (T1 : T -> is_object h1 u /\ ((forall k, get_key h1 u k = None) \/ h1 = h0 /\ state_typed h0 (data_state db0) [user; role; loop])).
  { intros HT. destruct (T0 HT) as [Ho Hk]. destruct (O1 Ho) as [_ [(_ & Hu & Hn)|(Hu & ->)]]; [by auto|].
    destruct Hk as [Hk|Hk]; [by rewrite Hk in Hu|]. split; [|by right]. apply (Hk [user]); [by exists [role; loop]|by apply P1]. }
  destruct (get_set_spec h1 db0 [user] u role I1 S1 (P1 Hu0)) as (r & h2 & -> & I2 & S2 & P2 & F2 & O2). cbn [mbind option_bind app] in *.
  destruct (Z.eqb_spec r 0) as [->|Hr0].
  { exists 0, h2, db0. split; [done|]. split; [done|]. split; [done|]. split; [done|]. split; [done|]. split; [intros ks; by rewrite F2, F1|].
    intros HT. by destruct (O2 (proj1 (T1 HT))). }
  assert (T2 : T -> is_object h2 r /\ ((forall k, get_key h2 r k = None) \/ h2 = h0 /\ state_typed h0 (data_state db0) [user; role; loop])).
  { intros HT. destruct (T1 HT) as [Ho Hk]. destruct (O2 Ho) as [_ [(_ & Hr & Hn)|(Hr & ->)]]; [by auto|].
    destruct Hk as [Hk|[-> Hk]]; [by rewrite Hk in Hr|]. split; [|by right]. apply (Hk [user; role]); [by exists [loop]|by apply P2]. }
  destruct (get_set_spec h2 db0 [user; role] r loop I2 S2 (P2 Hr0)) as (l & h3 & -> & I3 & S3 & P3 & F3 & O3). cbn [mbind option_bind app] in *.
  exists l, h3, db0. split; [done|]. split; [done|]. split; [done|]. split; [done|]. split; [done|]. split; [intros ks; by rewrite F3, F2, F1|].
  intros HT. destruct (T2 HT) as [Ho Hk]. destruct (O3 Ho) as [Hl [(_ & Hlo & _)|(Hlk & ->)]]; [done|].
  destruct Hk as [Hk|[-> Hk]]; [by rewrite Hk in Hlk|]. apply (Hk [user; role; loop]); [done|by apply P3].
Qed.

(** The state of a loop is read from its string; without one it is none. *)
Lemma get_state_spec h db user role loop : db_inv (h, db) ->
  ov_vocs_db_get_state true (h, db) user role loop =
    Some (ov_vocs_permission_from_string (state_string h db [user; role; loop; OV_KEY_STATE])).
Proof.
  intros I. pose proof (I_wf h db I) as W. unfold ov_vocs_db_get_state, get_loop_settings. cbn [negb fst snd].
  rewrite (json_get_spec h _ user W); [|destruct (inv_state _ I) as [|(x & Hx & _)]; [by left|right; by exists x]]. cbn [mbind option_bind].
  rewrite (json_get_spec h _ role W (key_live h _ user W)). cbn [mbind option_bind].
  rewrite (json_get_spec h _ loop W (key_live h _ role W)). cbn [mbind option_bind]. unfold state_string.
  rewrite <- walk_default, <- walk_default, <- walk_default by done. cbn [walk].
  set (l := default 0 (get_key h (default 0 (get_key h (default 0 (get_key h (data_state db) user)) role)) loop)) in *.
  destruct (Z.eqb_spec l 0) as [E|Hl]; [rewrite E, get_key_zero by done; done|].
  rewrite (json_get_spec h l OV_KEY_STATE W (key_live h _ loop W)). cbn [mbind option_bind].
  unfold ov_vocs_permission_from_json, ov_json_string_get. destruct (get_key h l OV_KEY_STATE) as [val|] eqn:Ex; [|done].
  change (default 0 (Some val)) with val. rewrite (proj2 (Z.eqb_neq val 0)) by (by eapply get_key_nonzero).
  destruct (get_key_parent _ h l _ val W Ex) as (v & Hv & _). cbn [mbind option_bind].
  rewrite (jload_Some h val v (jw_zero _ h W) Hv), Hv. cbn. by destruct (type v).
Qed.

(** Setting the state of a loop of a user and a role in a database in order
    returns, the database is in order again and knows the same entities; it
    succeeds when the values on the way are objects or not there yet, and when it
    succeeded the state that is read is the one that was set. *)
Lemma set_state_spec st user role loop p : db_inv st ->
  exists b h' db', ov_vocs_db_set_state true st user role loop p = Some (b, (h', db')) /\ db_inv (h', db') /\
    (forall e, index db' e = index st.2 e) /\
    (data_state st.2 = 0 \/ state_typed st.1 (data_state st.2) [user; role; loop] -> b = true) /\
    (b = true -> ov_vocs_db_get_state true (h', db') user role loop = Some p) /\
    forall user' role' loop', b = false \/ (user', role', loop') <> (user, role, loop) ->
      ov_vocs_db_get_state true (h', db') user' role' loop' = ov_vocs_db_get_state true st user' role' loop'.
Proof.
  destruct st as [h db]. cbn [fst snd]. intros I.
  destruct (get_set_loop_spec h db user role loop I) as (l & h1 & db1 & E1 & I1 & S1 & Hi & P1 & F1 & T1). unfold ov_vocs_db_set_state.
  cbn [negb]. rewrite E1. cbn [mbind option_bind].
  assert (F : forall h' db', db_inv (h', db') -> forall user' role' loop',
    state_string h' db' [user'; role'; loop'; OV_KEY_STATE] = state_string h1 db1 [user'; role'; loop'; OV_KEY_STATE] ->
    ov_vocs_db_get_state true (h', db') user' role' loop' = ov_vocs_db_get_state true (h, db) user' role' loop').
  { intros h' db' I' user' role' loop' E. by rewrite !get_state_spec, E, F1. }
  destruct (Z.eqb_spec l 0) as [->|Hl].
  { exists false, h1, db1. split; [done|]. split; [done|]. split; [done|]. split; [|split; [done|]; intros; by apply F].
    intros HT. destruct (T1 HT) as (? & ? & Hx). by rewrite (jw_zero _ h1 (I_wf h1 db1 I1)) in Hx. }
  set (str := OV_JSON_STRING (Some (ov_vocs_permission_to_string p))). pose proof (I_wf h1 db1 I1) as W1.
  pose proof (new_created h1 str W1 Logic.I (fun _ F => F)) as C2.
  unfold ov_json_string. fold str. destruct (new_value h1 str) as [val h2] eqn:Ev. cbn [fst snd] in C2.
  assert (Hll : is_Some (h1 !! l)) by (eapply path_live; [done| |by apply P1]; destruct S1 as (v & Hv & _); by exists v).
  destruct Hll as [w Hw]. assert (Hty : is_object h1 l \/ ~ is_object h1 l).
  { destruct (type w) eqn:Et; [left; exists data, (parent w); rewrite <- Et; by destruct w|right..];
      intros (dx & q & Hq); rewrite Hw in Hq; by injection Hq as ->. }
  destruct Hty as [Hlo|Hn].
  - destruct (set_in_state h1 db1 _ l OV_KEY_STATE str val h2 I1 S1 (P1 Hl) Hlo C2 (fun _ F => F)) as (h3 & -> & I3 & S3 & P3 & Hval & _ & F3).
    cbn [mbind option_bind]. exists true, h3, db1. split; [done|]. split; [done|]. split; [done|]. split; [done|]. split.
    + intros _. rewrite (get_state_spec h3 db1 user role loop I3). unfold state_string. change [user; role; loop; OV_KEY_STATE] with ([user; role; loop] ++ [OV_KEY_STATE]).
      rewrite P3. cbn [mbind option_bind]. rewrite Hval. cbn [mbind option_bind type]. unfold str. cbn [string_of]. by rewrite permission_string_roundtrip.
    + intros user' role' loop' [|Hne]; [done|]. apply F; [done|]. apply F3. right. intros [z Hz]. destruct z; cbn in Hz; [|done].
      apply Hne. congruence.
  - pose proof (created_old C2 _ _ Hw) as Hw2. assert (Hn2 : ~ is_object h2 l).
    { intros (dx & q & Hq). apply Hn. exists dx, q. by rewrite Hw, <- Hw2. }
    destruct (set_not_object h2 l OV_KEY_STATE val (jw_zero _ h2 (cr_wf _ _ _ _ C2)) ltac:(right; by exists w) Hn2) as (-> & _ & _).
    cbn [mbind option_bind]. rewrite (free_created h1 str val h2 W1 C2 (fun _ F => F)). cbn [mbind option_bind].
    exists false, h1, db1. split; [done|]. split; [done|]. split; [done|]. split; [|split; [done|]; intros; by apply F].
    intros HT. destruct Hn. by apply T1.
Qed.
