(* ===== verification/VocsDbProps.v ===== *)
(** * The domain database: what it promises

    Any sequence of operations from an empty database, and the promises of the
    single operations: they hold in every database in order, and every sequence
    leads to one. [demo] is a database that some operations made. *)
From S2P Require Import Prelude Hashtable OvList Dict JsonValue JsonTree JsonOps JsonPaths.
From S2P Require Import JsonPointer Permission VocsDb VocsDbInv VocsDbOps VocsDbCreate VocsDbAuth VocsDbState.

(** ** Sequences of operations *)

Definition empty_db : option db_state := db ← ov_vocs_db_create; Some (∅, db).
Inductive db_op :=
  | op_create (lock : bool) (e : ov_vocs_db_entity) (id : string) (scope : ov_vocs_db_scope) (scope_id : string)
  | op_delete (lock : bool) (e : ov_vocs_db_entity) (id : string)
  | op_domain_admin (lock : bool) (domain user : string)
  | op_project_admin (lock : bool) (project user : string)
  | op_set_state (lock : bool) (user role loop : string) (p : ov_vocs_permission)
  | op_authorize (lock : bool) (user role : string).
Definition db_step (st : db_state) (o : db_op) : option db_state :=
  '(_, st) ← match o with
    | op_create lock e id scope scope_id => ov_vocs_db_create_entity lock st e id scope scope_id
    | op_delete lock e id => ov_vocs_db_delete_entity lock st e id
    | op_domain_admin lock domain user => ov_vocs_db_add_domain_admin lock st domain user
    | op_project_admin lock project user => ov_vocs_db_add_project_admin lock st project user
    | op_set_state lock user role loop p => ov_vocs_db_set_state lock st user role loop p
    | op_authorize lock user role => ov_vocs_db_authorize lock st user role
    end; Some st.
Fixpoint db_run (st : db_state) (l : list db_op) : option db_state :=
  match l with [] => Some st | o :: l => st ← db_step st o; db_run st l end.

(** No admin role is in the index: it was never filled from a tree. *)
Definition db_fresh (st : db_state) : Prop := db_inv st /\ index st.2 OV_VOCS_DB_ROLE !! OV_KEY_ADMIN = None.
Lemma empty_db_spec : exists st, empty_db = Some st /\ db_fresh st.
Proof.
  destruct (dict_create_spec 255) as (d & E & Hok & Hm); [lia|]. unfold empty_db, ov_vocs_db_create.
  change (ov_dict_string_key_config 255) with 255%nat. rewrite E. cbn [mbind option_bind]. eexists. split; [done|].
  assert (Hi : forall e, index {| domains := d; projects := d; users := d; roles := d; loops := d; data_domains := 0; data_state := 0 |} e = ∅)
    by (by intros []). assert (Hp : forall ks q, ks <> [] -> get_path ∅ 0 ks <> Some q) by (by intros [|k ks] q).
  assert (Hne : forall e ks id, entity_path e ks id -> ks <> []) by (intros e ks id He ->; inversion He as [| |? ? o]; by destruct o).
  split; [|cbn [snd]; by rewrite Hi]. split; cbn [fst snd data_domains data_state]; try done.
  - by left.
  - by left.
  - intros e dd He. destruct e; cbn in He; congruence.
  - intros e id q Hq. by rewrite Hi in Hq.
  - intros e ks id q He Hq. by destruct (Hp ks q (Hne _ _ _ He)).
  - intros e ks id q He Hq. by destruct (Hp ks q (Hne _ _ _ He)).
Qed.
(** What a failing lock and every operation keep. *)
Lemma add_admin_fresh h db e o x id : db_fresh (h, db) -> entity_path e o id -> owner_path o ->
  get_path h (data_domains db) o = Some x -> forall user, exists b st', add_admin (h, db) x user = Some (b, st') /\ db_fresh st'.
Proof.
  intros [I Hi] _ Ho Hx user. destruct (add_admin_keeps h db o x user I Ho Hx) as (b & h' & E & I'). exists b, (h', db). done.
Qed.
Lemma db_step_fresh st o : db_fresh st -> exists st', db_step st o = Some st' /\ db_fresh st'.
Proof.
  intros Hf. destruct st as [h db]. pose proof Hf as [I Hi]. cbn [snd] in Hi.
  assert (Hlock : forall r, r = Some (false, (h, db)) -> exists st', ('(_, st) ← r; Some st) = Some st' /\ db_fresh st') by (intros r ->; by eexists).
  destruct o as [[] e id scope sid|[] e id|[] domain user|[] project user|[] user role loop p|[] user role]; try (by apply Hlock); unfold db_step.
  - destruct (create_entity_spec (h, db) e id scope sid I) as (b & h' & db' & -> & I' & Hs & _).
    { unfold is_admin_role. destruct e; try done. by intros ->%bool_decide_eq_true. }
    exists (h', db'). split; [done|]. split; [done|]. cbn [snd]. rewrite Hs; [done|]. cbn [snd].
    destruct (decide (OV_VOCS_DB_ROLE = e)) as [<-|]; [|by left]. destruct (decide (OV_KEY_ADMIN = id)) as [<-|]; [by right; right|by right; left].
  - destruct (delete_entity_spec (h, db) e id I) as (b & h' & db' & -> & I' & Hs & _). exists (h', db'). split; [done|]. split; [done|]. cbn [snd] in *.
    destruct (index db' OV_VOCS_DB_ROLE !! OV_KEY_ADMIN) as [q|] eqn:Eq; [|done]. apply Hs in Eq. congruence.
  - unfold ov_vocs_db_add_domain_admin. cbn [negb snd]. destruct (lookup_id h db OV_VOCS_DB_DOMAIN _ domain I eq_refl) as [-> Hx]. cbn [mbind option_bind].
    destruct (index db OV_VOCS_DB_DOMAIN !! domain) as [x|] eqn:Ex; [|by eexists].
    change (default 0 (Some x)) with x. rewrite (proj2 (Z.eqb_neq x 0) (proj1 Hx)). destruct (I_index h db I _ _ _ Ex) as (ks & He & Hp).
    destruct (add_admin_fresh h db _ ks x domain Hf He) with (user := user) as (b & st' & -> & Hf'); [inversion He as [| |? ? ? ? Hl]; [constructor|inversion Hl]|done|by eexists].
  - unfold ov_vocs_db_add_project_admin. cbn [negb snd]. destruct (lookup_id h db OV_VOCS_DB_PROJECT _ project I eq_refl) as [-> Hx]. cbn [mbind option_bind].
    destruct (index db OV_VOCS_DB_PROJECT !! project) as [x|] eqn:Ex; [|by eexists].
    change (default 0 (Some x)) with x. rewrite (proj2 (Z.eqb_neq x 0) (proj1 Hx)). destruct (I_index h db I _ _ _ Ex) as (ks & He & Hp).
    destruct (add_admin_fresh h db _ ks x project Hf He) with (user := user) as (b & st' & -> & Hf'); [inversion He as [| |? ? ? ? Hl]; [constructor|inversion Hl]|done|by eexists].
  - destruct (set_state_spec (h, db) user role loop p I) as (b & h' & db' & -> & I' & Hidx & _). exists (h', db'). split; [done|]. split; [done|]. cbn [snd]. by rewrite Hidx.
  - destruct (authorize_spec h db user role I) as (b & -> & _). by exists (h, db).
Qed.

Lemma db_run_fresh l st : db_fresh st -> exists st', db_run st l = Some st' /\ db_fresh st'.
Proof.
  revert st. induction l as [|o l IH]; intros st F; [by exists st|]. cbn [db_run].
  destruct (db_step_fresh st o F) as (st1 & -> & F1). by apply IH.
Qed.
Definition db_reach (l : list db_op) : option db_state := st ← empty_db; db_run st l.
Lemma db_reach_fresh l st : db_reach l = Some st -> db_fresh st.
Proof.
  unfold db_reach. destruct empty_db_spec as (st0 & -> & F0). cbn [mbind option_bind]. intros H.
  destruct (db_run_fresh l st0 F0) as (st' & E & F). congruence.
Qed.

(** ** A database *)

Definition demo_ops : list db_op := [
  op_create true OV_VOCS_DB_DOMAIN "moon" OV_VOCS_DB_SCOPE_DOMAIN "";
  op_create true OV_VOCS_DB_USER "ada" OV_VOCS_DB_SCOPE_DOMAIN "moon";
  op_create true OV_VOCS_DB_PROJECT "base" OV_VOCS_DB_SCOPE_DOMAIN "moon";
  op_create true OV_VOCS_DB_ROLE "flight" OV_VOCS_DB_SCOPE_PROJECT "base";
  op_create true OV_VOCS_DB_LOOP "voice" OV_VOCS_DB_SCOPE_PROJECT "base";
  op_domain_admin true "moon" "ada";
  op_project_admin true "base" "bob";
  op_set_state true "ada" "flight" "voice" OV_VOCS_RECV].
Definition no_dict : ov_dict := {| slots := 0; items := [] |}.
Definition no_db : db_state :=
  (∅, {| domains := no_dict; projects := no_dict; users := no_dict; roles := no_dict; loops := no_dict; data_domains := 0; data_state := 0 |}).
Definition demo : db_state := default no_db (db_reach demo_ops).
Lemma demo_reach : db_reach demo_ops = Some demo.
Proof.
  unfold demo, db_reach. destruct empty_db_spec as (st0 & -> & F0). cbn [mbind option_bind].
  by destruct (db_run_fresh demo_ops st0 F0) as (st' & -> & _).
Qed.
Lemma demo_inv : db_inv demo.
Proof. apply (db_reach_fresh demo_ops demo demo_reach). Qed.
#[local] Opaque demo.
(** What is decided by running. *)
Ltac run := vm_compute; reflexivity.

(** ** Safety *)

(** C4: every sequence of creating and deleting entities, making administrators,
    setting states and asking for authorization runs from an empty database
    without touching a value that is gone; afterwards the database is in order. An
    id leads to one entity of a kind, and the index has exactly the entities of
    the tree, but for roles called admin: these are never in the index, and
    every domain and every project may have one. *)
Theorem vocs_db_safe l : exists st, db_reach l = Some st /\ db_inv st /\
  (forall e id q q', is_admin_role e id = false -> entity st e id q -> entity st e id q' -> q = q') /\
  (forall e id q, is_admin_role e id = false -> entity st e id q <-> index st.2 e !! id = Some q) /\
  index st.2 OV_VOCS_DB_ROLE !! OV_KEY_ADMIN = None.
Proof.
  unfold db_reach. destruct empty_db_spec as (st0 & -> & F0). cbn [mbind option_bind].
  destruct (db_run_fresh l st0 F0) as (st & E & I & Ha). exists st. split; [done|]. split; [done|]. split; [|split; [|done]].
  - intros e id q q' Hn Hq Hq'. apply entity_index in Hq, Hq'; try done. congruence.
  - intros e id q Hn. by apply entity_index.
Qed.
Lemma vocs_db_safe_witness : exists st, db_reach (op_delete true OV_VOCS_DB_PROJECT "base" :: demo_ops ++ [op_delete true OV_VOCS_DB_PROJECT "base"]) = Some st /\
  db_inv st.
Proof.
  destruct (vocs_db_safe (op_delete true OV_VOCS_DB_PROJECT "base" :: demo_ops ++ [op_delete true OV_VOCS_DB_PROJECT "base"])) as (st & E & I & _). exists st. split; [exact E|exact I].
Defined.

(** ** Creating and deleting *)

(** C14: creating an entity in a database in order (where no role called admin is
    in the index, as in every database that operations made) leads to a database
    in order. It succeeds exactly when its parent exists and the kind has no
    entity of that id; this does not hold a role called admin back, which takes
    the place of the one its parent may have (see [admins_replaced]). After a
    success the entity is there, below that parent, and every entity elsewhere is
    what it was; otherwise all entities are. *)
Theorem create_entity_exact st e id scope scope_id : db_inv st -> (is_admin_role e id = true -> index st.2 e !! id = None) ->
  exists b h' db', ov_vocs_db_create_entity true st e id scope scope_id = Some (b, (h', db')) /\ db_inv (h', db') /\
    (b = true <-> (is_admin_role e id = true \/ forall q, ~ entity st e id q) /\ exists ps, home st.1 st.2 e scope scope_id ps) /\
    (b = true -> exists ps out, home st.1 st.2 e scope scope_id ps /\ entity_path e (ps ++ [id]) id /\
       get_path h' (data_domains db') (ps ++ [id]) = Some out /\ only_new st.2 st.1 db' h' (ps ++ [id])) /\
    (b = false -> still st.2 st.1 db' h').
Proof.
  intros I Ha. destruct (create_entity_spec st e id scope scope_id I Ha) as (b & h' & db' & E & I' & _ & Hb & Ht & Hf).
  exists b, h', db'. split; [done|]. split; [done|]. split; [|split; [|done]].
  - rewrite Hb. destruct (is_admin_role e id) eqn:Er.
    + split; [intros [_ ?]; split; [by left|done]|]. intros [_ ?]. split; [by apply Ha|done].
    + assert (index st.2 e !! id = None <-> forall q, ~ entity st e id q) as ->; [|naive_solver].
      split; [intros Hn q Hq; apply entity_index in Hq; congruence|]. intros Hn.
      destruct (index st.2 e !! id) as [q|] eqn:Eq; [|done]. destruct (Hn q). by apply entity_index.
  - intros Hb1. destruct (Ht Hb1) as (ps & out & Hh & He & Hp & _ & Ho). by exists ps, out.
Qed.
Lemma create_entity_exact_witness : exists h' db',
  ov_vocs_db_create_entity true demo OV_VOCS_DB_USER "eva" OV_VOCS_DB_SCOPE_PROJECT "base" = Some (true, (h', db')) /\ db_inv (h', db').
Proof.
  destruct (create_entity_exact demo OV_VOCS_DB_USER "eva" OV_VOCS_DB_SCOPE_PROJECT "base" demo_inv) as (b & h' & db' & E & I & _); [discriminate|].
  exists h', db'. split; [|done]. rewrite E. do 2 f_equal.
  assert (fst <$> ov_vocs_db_create_entity true demo OV_VOCS_DB_USER "eva" OV_VOCS_DB_SCOPE_PROJECT "base" = Some true) as H by run.
  rewrite E in H. by injection H.
Defined.

(** C6: deleting an entity of a database in order leads to a database in order
    that does not know the id any more and has no new entities. What is left in
    the domains is what was not in the deleted entity; when a role called admin
    is deleted, the admin roles of all domains and projects go with it, and
    nothing else. Deleting anything but a user succeeds always, also when
    there is no such entity; when a user is deleted with success no known role
    lists it (an admin role may). *)
Theorem delete_entity_exact st e id : db_inv st ->
  exists b h' db', ov_vocs_db_delete_entity true st e id = Some (b, (h', db')) /\ db_inv (h', db') /\
    index db' e !! id = None /\ (forall e' i q, index db' e' !! i = Some q -> index st.2 e' !! i = Some q) /\
    data_domains db' = data_domains st.2 /\
    (forall e' ks i q, entity_path e' ks i -> is_admin_role e id && is_admin_role e' i = false ->
       get_path h' (data_domains st.2) ks = Some q <->
         get_path st.1 (data_domains st.2) ks = Some q /\ forall src, index st.2 e !! id = Some src -> ~ below st.1 src q) /\
    (is_admin_role e id = true -> no_admin_role h' st.2) /\
    (e <> OV_VOCS_DB_ENTITY_ERROR -> e <> OV_VOCS_DB_USER -> b = true) /\
    (e = OV_VOCS_DB_USER -> b = true -> forall r v, index db' OV_VOCS_DB_ROLE !! r = Some v -> get_path h' v [OV_KEY_USERS; id] = None).
Proof.
  intros I. destruct (delete_entity_spec st e id I) as (b & h' & db' & E & I' & Hs & HD & Hn & Hb & Hw & Ha & Hu). by exists b, h', db'.
Qed.
Lemma delete_entity_exact_witness : exists h' db',
  ov_vocs_db_delete_entity true demo OV_VOCS_DB_PROJECT "base" = Some (true, (h', db')) /\ index db' OV_VOCS_DB_PROJECT !! "base" = None /\
  without demo.1 demo.2 OV_VOCS_DB_PROJECT "base" h'.
Proof.
  destruct (delete_entity_exact demo OV_VOCS_DB_PROJECT "base" demo_inv) as (b & h' & db' & E & _ & Hn & _ & _ & Hw & _ & Hb & _).
  exists h', db'. rewrite E, Hb by done. split; [done|]. split; [done|]. exact Hw.
Defined.

(** ** Who may do what *)

(** C12: in a database in order a user is authorized for a role that is not called
    admin exactly when the domains have a user of that name, have a role of that
    name, and the role lists the user. For the role admin the answer is no, also
    for administrators, as long as no admin role is in the index, that is in
    every database that operations made. Asking changes nothing. *)
Theorem authorize_exact st user role : db_inv st ->
  exists b, ov_vocs_db_authorize true st user role = Some (b, st) /\
    (role <> OV_KEY_ADMIN ->
       b = true <-> (exists u, entity st OV_VOCS_DB_USER user u) /\
                    exists r m, entity st OV_VOCS_DB_ROLE role r /\ get_path st.1 r [OV_KEY_USERS; user] = Some m) /\
    (role = OV_KEY_ADMIN -> index st.2 OV_VOCS_DB_ROLE !! OV_KEY_ADMIN = None -> b = false).
Proof.
  destruct st as [h db]. intros I. destruct (authorize_spec h db user role I) as (b & E & Hb). exists b. split; [done|]. split.
  - intros Hr. assert (Ha : is_admin_role OV_VOCS_DB_ROLE role = false) by (by apply bool_decide_eq_false_2). rewrite Hb. split.
    + intros (u & r & m & Hu & Hrr & Hm). split; [exists u; by apply entity_index|]. exists r, m. split; [by apply entity_index|done].
    + intros [(u & Hu) (r & m & Hrr & Hm)]. exists u, r, m. split; [by apply entity_index in Hu|]. split; [by apply entity_index in Hrr|done].
  - intros -> Hn. cbn [snd] in Hn. destruct b; [|done]. destruct (proj1 Hb eq_refl) as (u & r & m & _ & Hr & _). congruence.
Qed.
(** The role of [demo] with a user: as by a client that fills its list. *)
Lemma flight_deep e b i : ~ entity_path e (["moon"; OV_KEY_PROJECTS; "base"; OV_KEY_ROLES; "flight"; OV_KEY_USERS] ++ b) i.
Proof.
  intros H. apply entity_path_cases in H as [E|[(? & ? & E)|(? & ? & ? & ? & E)]]; discriminate.
Qed.
Lemma demo_member : exists h u r m, db_inv (h, demo.2) /\ index demo.2 OV_VOCS_DB_USER !! "ada" = Some u /\
  index demo.2 OV_VOCS_DB_ROLE !! "flight" = Some r /\ get_path h r [OV_KEY_USERS; "ada"] = Some m.
Proof.
  set (ps := ["moon"; OV_KEY_PROJECTS; "base"; OV_KEY_ROLES; "flight"]).
  assert (exists u, index demo.2 OV_VOCS_DB_USER !! "ada" = Some u) as [u Hu] by (eexists; run).
  assert (exists r, index demo.2 OV_VOCS_DB_ROLE !! "flight" = Some r /\ get_path demo.1 (data_domains demo.2) ps = Some r /\
    get_key demo.1 r OV_KEY_USERS = None) as (r & Hr & Hp & Hk) by (eexists; split; [run|split; run]).
  assert (HD : data_domains demo.2 <> 0) by (intros E; assert (negb (data_domains demo.2 =? 0) = true) as H by run; by rewrite E in H).
  pose proof demo_inv as I. destruct demo as [h db]. cbn [fst snd] in *.
  assert (He : entity_path OV_VOCS_DB_ROLE ps "flight") by (apply (path_leaf OV_VOCS_DB_ROLE _ ["moon"; OV_KEY_PROJECTS; "base"]); constructor).
  destruct (get_or_make_spec h db ps r OV_KEY_USERS I HD Hp (inv_entity _ I _ _ _ _ He Hp)) as (us & h1 & _ & I1 & Hus & Huo & Hkeep & _).
  { intros e i H. by destruct (flight_deep e [] i). } { done. }
  assert (Hp1 : get_path h1 (data_domains db) ps = Some r) by (by apply Hkeep).
  pose proof (new_created h1 OV_JSON_NULL (I_wf h1 db I1) Logic.I (fun _ F => F)) as C.
  destruct (set_deep h1 db (ps ++ [OV_KEY_USERS]) us "ada" OV_JSON_NULL _ _ I1 HD Hus (Huo Hk) C (fun _ F => F)) as (h2 & _ & I2 & Hm & P2).
  { intros e b i. apply (flight_deep e ("ada" :: b)). } { intros e i. apply (flight_deep e ["ada"; i]). } { cbn. lia. }
  assert (Hp2 : get_path h2 (data_domains db) ps = Some r) by (by apply P2).
  exists h2, u, r. eexists. split; [done|]. split; [done|]. split; [done|].
  change ((ps ++ [OV_KEY_USERS]) ++ ["ada"]) with (ps ++ [OV_KEY_USERS; "ada"]) in Hm. rewrite walk_app, Hp2 in Hm. exact Hm.
Qed.
Lemma authorize_exact_witness :
  ov_vocs_db_authorize true demo "ada" "flight" = Some (false, demo) /\
  (exists h u r m, db_inv (h, demo.2) /\ entity (h, demo.2) OV_VOCS_DB_USER "ada" u /\ entity (h, demo.2) OV_VOCS_DB_ROLE "flight" r /\
     get_path h r [OV_KEY_USERS; "ada"] = Some m /\
     ov_vocs_db_authorize true (h, demo.2) "ada" "flight" = Some (true, (h, demo.2))).
Proof.
  split.
  - destruct (authorize_exact demo "ada" "flight" demo_inv) as (b & E & _). rewrite E.
    assert (fst <$> ov_vocs_db_authorize true demo "ada" "flight" = Some false) as H by run. rewrite E in H. injection H as ->. reflexivity.
  - destruct demo_member as (h & u & r & m & I & Hu & Hr & Hm).
    apply (entity_index (h, demo.2) OV_VOCS_DB_USER "ada" u I eq_refl) in Hu. apply (entity_index (h, demo.2) OV_VOCS_DB_ROLE "flight" r I eq_refl) in Hr.
    destruct (authorize_exact (h, demo.2) "ada" "flight" I) as (b & E & Hb & _).
    assert (b = true) as ->.
    { apply Hb; [discriminate|]. split; [exists u; exact Hu|]. exists r, m. split; [exact Hr|exact Hm]. }
    exists h, u, r, m. split; [exact I|]. split; [exact Hu|]. split; [exact Hr|]. split; [exact Hm|exact E].
Defined.

(** The permission of a role on a loop of a database in order is read from the
    loop's list of roles: true is sending, false is receiving, anything else, and
    a loop or role that is not there, is none; asking changes nothing. *)
Lemma permission_exact st role loop : db_inv st ->
  exists p, ov_vocs_db_get_permission true st role loop = Some (p, st) /\
    (p <> OV_VOCS_NONE <-> exists l m v, entity st OV_VOCS_DB_LOOP loop l /\ get_path st.1 l [OV_KEY_ROLES; role] = Some m /\
       st.1 !! m = Some v /\ type v = (if bool_decide (p = OV_VOCS_SEND) then OV_JSON_TRUE else OV_JSON_FALSE)).
Proof.
  destruct st as [h db]. intros I. pose proof (I_wf h db I) as W. unfold ov_vocs_db_get_permission. cbn [negb fst].
  destruct (lookup_id h db OV_VOCS_DB_LOOP _ loop I eq_refl) as [-> Hl]. cbn [mbind option_bind].
  destruct (index db OV_VOCS_DB_LOOP !! loop) as [l|] eqn:El.
  2:{ exists OV_VOCS_NONE. split; [done|]. split; [done|]. intros (l & m & v & Hl' & _). apply entity_index in Hl'; [|done|done].
      cbn [fst snd] in Hl'. congruence. }
  change (default 0 (Some l)) with l. rewrite (proj2 (Z.eqb_neq l 0) (proj1 Hl)). slashes.
  rewrite (slash_spec h l OV_KEY_ROLES W (or_intror (proj2 Hl)) eq_refl). cbn [mbind option_bind].
  rewrite (json_get_spec h _ role W (key_live h l _ W)). cbn [mbind option_bind].
  assert (Hw : forall l', entity (h, db) OV_VOCS_DB_LOOP loop l' -> l' = l).
  { intros l' Hl'. apply entity_index in Hl'; [|done|done]. cbn [fst snd] in Hl'. congruence. }
  pose proof (fun m => two_keys h l OV_KEY_ROLES role m W) as Hm.
  destruct (get_key h (default 0 (get_key h l OV_KEY_ROLES)) role) as [m|] eqn:Em.
  2:{ exists OV_VOCS_NONE. split; [done|]. split; [done|]. intros (l' & m & v & Hl' & Hm' & _). rewrite (Hw l' Hl') in Hm'. by apply Hm in Hm'. }
  change (default 0 (Some m)) with m. rewrite (proj2 (Z.eqb_neq m 0)) by (by eapply get_key_nonzero).
  destruct (get_key_parent _ h _ _ _ W Em) as (v & Hv & _). unfold ov_json_is_true, ov_json_is_false.
  rewrite (proj2 (Z.eqb_neq m 0)) by (by eapply get_key_nonzero). rewrite (jload_Some h m v (jw_zero _ h W) Hv). cbn [mbind option_bind].
  assert (Hent : entity (h, db) OV_VOCS_DB_LOOP loop l) by (by apply entity_index).
  destruct (type v) eqn:Et; eexists; (split; [reflexivity|]); (split; [|intros (l' & m' & v' & Hl' & Hm' & Hv' & Ht');
    rewrite (Hw l' Hl') in Hm'; apply Hm in Hm'; assert (m' = m) as -> by congruence; assert (v' = v) as -> by congruence; by rewrite Et in Ht']);
    try done; intros _; exists l, m, v; by rewrite Hm, Et.
Qed.
Lemma permission_exact_witness : ov_vocs_db_get_permission true demo "flight" "voice" = Some (OV_VOCS_NONE, demo).
Proof.
  destruct (permission_exact demo "flight" "voice" demo_inv) as (p & E & _). rewrite E. do 2 f_equal.
  assert (fst <$> ov_vocs_db_get_permission true demo "flight" "voice" = Some OV_VOCS_NONE) as H by run. rewrite E in H. by injection H.
Defined.

(** In a database in order a user may
    administrate a project exactly when the project exists and the user is
    an administrator of the project or of the domain that has the project. *)
Lemma project_admin_exact st user id : db_inv st ->
  exists b, ov_vocs_db_authorize_project_admin true st user id = Some b /\
    (b = true <-> exists d p, get_path st.1 (data_domains st.2) [d; OV_KEY_PROJECTS; id] = Some p /\
       (is_admin st [d; OV_KEY_PROJECTS; id] user \/ is_admin st [d] user)).
Proof.
  destruct st as [h db]. intros I. pose proof (I_wf h db I) as W. cbn [fst snd]. unfold ov_vocs_db_authorize_project_admin, authorize_project_admin.
  cbn [negb fst snd]. pose proof (index_get_spec db OV_VOCS_DB_PROJECT id (inv_dicts _ I)) as E. cbn [get_index_dict index_get] in E. rewrite E.
  cbn [mbind option_bind]. destruct (index db OV_VOCS_DB_PROJECT !! id) as [p|] eqn:Ep.
  2:{ exists false. split; [done|]. split; [done|]. intros (d & p & Hp & _).
      pose proof (inv_complete _ I _ _ _ _ (path_project d id) Hp eq_refl) as Hi. cbn [fst snd] in Hi. congruence. }
  change (default 0 (Some p)) with p. destruct (I_index h db I _ id p Ep) as (ks & He & Hp).
  inversion He as [|d ?|? ? ? ? Hl]; subst; [|inversion Hl].
  destruct (I_container h db I _ [d; OV_KEY_PROJECTS] id p He Hp) as (c & v & Hc & _ & Hco & Hv & Epc).
  assert (Hp0 : p <> 0) by (by eapply live_nonzero; [apply (jw_zero _ h W)|]).
  assert (Hdx : exists x, get_path h (data_domains db) [d] = Some x /\ get_key h x OV_KEY_PROJECTS = Some c).
  { change [d; OV_KEY_PROJECTS] with ([d] ++ [OV_KEY_PROJECTS]) in Hc. rewrite walk_snoc in Hc.
    destruct (get_path h (data_domains db) [d]) as [x|]; [|done]. by exists x. }
  destruct Hdx as (x & Hx & Hxc). destruct (get_key_parent _ h x OV_KEY_PROJECTS c W Hxc) as (w & Hw & Ew).
  assert (Honly : forall d' p', get_path h (data_domains db) [d'; OV_KEY_PROJECTS; id] = Some p' -> d' = d).
  { intros d' p' Hp'. pose proof (inv_complete _ I _ _ _ _ (path_project d' id) Hp' eq_refl) as Hi. cbn [fst snd] in Hi.
    assert (p' = p) as -> by congruence. by destruct (I_same h db I _ _ _ _ _ _ _ (path_project d' id) He Hp' Hp) as [[= ->] _]. }
  rewrite (proj2 (Z.eqb_neq p 0) Hp0), is_admin_user_spec by (done || (right; by exists v)). cbn [mbind option_bind].
  case_bool_decide as Hadm.
  { exists true. split; [done|]. split; [|done]. intros _. exists d, p. split; [done|]. left. by apply (is_admin_at h db _ p). }
  rewrite (jload_Some h p v (jw_zero _ h W) Hv). cbn [mbind option_bind]. rewrite Epc.
  assert (Hc0 : c <> 0) by (by eapply live_nonzero; [apply (jw_zero _ h W)|]). rewrite (proj2 (Z.eqb_neq c 0) Hc0).
  rewrite (jload_Some h c w (jw_zero _ h W) Hw). cbn [mbind option_bind]. rewrite Ew.
  destruct (inv_ids _ I d x Hx) as (i & Hi & (s & Hs & Ht)). cbn [fst snd] in *.
  change [d; OV_KEY_ID] with ([d] ++ [OV_KEY_ID]) in Hi. rewrite walk_snoc, Hx in Hi. cbn [mbind option_bind] in Hi.
  pose proof (is_object_live h x (get_key_is_object h x _ i Hi)) as Hlx.
  assert (Hx0 : x <> 0) by (destruct Hlx as [? ?]; by eapply live_nonzero; [apply (jw_zero _ h W)|]).
  rewrite (proj2 (Z.eqb_neq x 0) Hx0). unfold ov_vocs_json_get_id. rewrite (json_get_spec h x _ W (or_intror Hlx)), Hi.
  change (default 0 (Some i)) with i. cbn [mbind option_bind]. unfold ov_json_string_get.
  rewrite (proj2 (Z.eqb_neq i 0)) by (by eapply get_key_nonzero). rewrite (jload_Some h i s (jw_zero _ h W) Hs). cbn [mbind option_bind]. rewrite Ht. cbn [mbind option_bind].
  destruct (authorize_domain_admin_spec h db user d I) as (b & -> & Hb). exists b. split; [done|]. rewrite Hb. split.
  - intros H. exists d, p. auto.
  - intros (d' & p' & Hp' & Ha). pose proof (Honly d' p' Hp') as ->. destruct Ha as [Ha|]; [|done].
    by apply (is_admin_at h db _ p) in Ha.
Qed.
Lemma project_admin_exact_witness : exists d p, get_path demo.1 (data_domains demo.2) [d; OV_KEY_PROJECTS; "base"] = Some p /\
  (is_admin demo [d; OV_KEY_PROJECTS; "base"] "ada" \/ is_admin demo [d] "ada").
Proof. destruct (project_admin_exact demo "ada" "base" demo_inv) as (b & E & Hb). apply Hb. cut (Some b = Some true); [by intros [= ->]|]. rewrite <- E. run. Defined.

(** Making a user an administrator of a domain of a database in order
    succeeds exactly when the domain exists; the database is in order again, the
    user may administrate the domain from then on, and for every other user and
    every other domain the answer is what it was. *)
Lemma add_domain_admin_exact st domain user : db_inv st ->
  (forall u, get_path st.1 (data_domains st.2) (admins [domain]) = Some u -> is_object st.1 u) ->
  exists b st', ov_vocs_db_add_domain_admin true st domain user = Some (b, st') /\ db_inv st' /\
    (b = true <-> exists x, entity st OV_VOCS_DB_DOMAIN domain x) /\
    forall domain' user', ov_vocs_db_authorize_domain_admin true st' user' domain' =
      if b && bool_decide (domain' = domain /\ user' = user) then Some true
      else ov_vocs_db_authorize_domain_admin true st user' domain'.
Proof.
  destruct st as [h db]. cbn [fst snd]. intros I Hus. unfold ov_vocs_db_add_domain_admin, ov_vocs_db_authorize_domain_admin. cbn [negb fst snd].
  pose proof (index_get_spec db OV_VOCS_DB_DOMAIN domain (inv_dicts _ I)) as E. cbn [get_index_dict index_get] in E. rewrite E.
  cbn [mbind option_bind]. destruct (index db OV_VOCS_DB_DOMAIN !! domain) as [x|] eqn:Ex.
  2:{ exists false, (h, db). split; [done|]. split; [done|]. split; [|done]. split; [done|]. intros (x & Hx).
      apply entity_index in Hx; [|done|done]. cbn [fst snd] in Hx. congruence. }
  change (default 0 (Some x)) with x. destruct (I_index h db I _ domain x Ex) as (ks & He & Hx).
  inversion He as [| |? ? ? ? Hl]; subst; [|inversion Hl].
  destruct (is_object_live h x (I_live h db I _ _ _ Ex)) as [v Hv].
  rewrite (proj2 (Z.eqb_neq x 0)) by (by eapply live_nonzero; [apply (jw_zero _ h (I_wf h db I))|]).
  destruct (add_admin_spec h db [domain] x user I (owner_domain domain) Hx Hus) as (h' & E' & I' & Hadm & Hoth).
  exists true, (h', db). split; [done|]. split; [done|]. split; [split; [|done]; intros _; exists x; by exists [domain]|].
  intros domain' user'. destruct (authorize_domain_admin_spec h' db user' domain' I') as (b' & -> & Hb').
  case_bool_decide as Hd; cbn [andb].
  - destruct Hd as [-> ->]. f_equal. by apply Hb'.
  - destruct (authorize_domain_admin_spec h db user' domain' I) as (b0 & -> & Hb0). f_equal. apply eq_bool_prop_intro.
    rewrite !Is_true_true, Hb', Hb0. apply Hoth; [constructor|]. intros [[= ->] ->]. by apply Hd.
Qed.
Lemma add_domain_admin_exact_witness : exists st', ov_vocs_db_add_domain_admin true demo "moon" "eva" = Some (true, st') /\
  ov_vocs_db_authorize_domain_admin true st' "eva" "moon" = Some true /\ ov_vocs_db_authorize_domain_admin true st' "bob" "moon" = Some false.
Proof.
  destruct (add_domain_admin_exact demo "moon" "eva" demo_inv) as (b & st' & E & _ & _ & H).
  { intros u Hu. assert (exists u, get_path demo.1 (data_domains demo.2) (admins ["moon"]) = Some u /\ is_object demo.1 u) as (u' & Hu' & Ho).
    { eexists. split; [run|]. eexists _, _. run. } congruence. }
  assert (b = true) as ->.
  { assert (fst <$> ov_vocs_db_add_domain_admin true demo "moon" "eva" = Some true) as Hr by run. rewrite E in Hr. by injection Hr. }
  exists st'. split; [done|]. rewrite !H. split; run.
Defined.

(** ** The state of loops *)

(** C13: setting the state of a loop of a user and a role in a database in order
    leads to a database in order that knows the same entities. It succeeds when
    the values on the way are objects or not there yet; when it succeeded the
    state that is read is the one that was set; every other state that
    is read is the one that was read before. *)
Theorem set_state_exact st user role loop p : db_inv st ->
  exists b h' db', ov_vocs_db_set_state true st user role loop p = Some (b, (h', db')) /\ db_inv (h', db') /\
    (forall e, index db' e = index st.2 e) /\
    (data_state st.2 = 0 \/ state_typed st.1 (data_state st.2) [user; role; loop] -> b = true) /\
    (b = true -> ov_vocs_db_get_state true (h', db') user role loop = Some p) /\
    forall user' role' loop', b = false \/ (user', role', loop') <> (user, role, loop) ->
      ov_vocs_db_get_state true (h', db') user' role' loop' = ov_vocs_db_get_state true st user' role' loop'.
Proof. apply set_state_spec. Qed.
Lemma set_state_exact_witness : exists st', ov_vocs_db_set_state true demo "bob" "flight" "voice" OV_VOCS_SEND = Some (true, st') /\
  ov_vocs_db_get_state true st' "bob" "flight" "voice" = Some OV_VOCS_SEND /\ ov_vocs_db_get_state true st' "ada" "flight" "voice" = Some OV_VOCS_RECV.
Proof.
  destruct (set_state_exact demo "bob" "flight" "voice" OV_VOCS_SEND demo_inv) as (b & h' & db' & E & _ & _ & _ & Hs & Ho).
  assert (b = true) as ->.
  { assert (fst <$> ov_vocs_db_set_state true demo "bob" "flight" "voice" OV_VOCS_SEND = Some true) as Hr by run. rewrite E in Hr. by injection Hr. }
  exists (h', db'). split; [done|]. split; [by apply Hs|]. rewrite Ho; [run|]. right. congruence.
Defined.

(** ** The parent of an entity *)

(** The parent that is reported for an entity (not a domain) of a database in
    order is the project or domain that has the entity, its id that of the
    domain when it is a domain; the scope says domain exactly when that parent has a
    list of projects. *)
Lemma get_parent_exact st e id q : db_inv st -> e <> OV_VOCS_DB_DOMAIN -> index st.2 e !! id = Some q ->
  exists o k x scope s, entity_path e (o ++ [k; id]) id /\ owner_path o /\
    get_path st.1 (data_domains st.2) (o ++ [k; id]) = Some q /\ get_path st.1 (data_domains st.2) o = Some x /\
    ov_vocs_db_get_parent true st e id = Some (scope, s, st.1) /\
    (scope = OV_VOCS_DB_SCOPE_DOMAIN <-> is_Some (get_key st.1 x OV_KEY_PROJECTS)) /\
    forall d, o = [d] -> s = Some d.
Proof.
  destruct st as [h db]. cbn [fst snd]. intros I He Hq. pose proof (I_wf h db I) as W.
  destruct (I_index h db I e id q Hq) as (ks & Hks & Hp).
  assert (exists o k, ks = o ++ [k; id] /\ owner_path o) as (o & k & -> & Ho).
  { destruct Hks as [|d id|e k o id _ Ho]; [done| |by exists o, k]. exists [d], OV_KEY_PROJECTS. split; [done|constructor]. }
  pose proof Hp as Hx. change [k; id] with ([k] ++ [id]) in Hx. rewrite app_assoc in Hx. apply walk_app_Some in Hx as (c & Hc & Hq1).
  apply walk_app_Some in Hc as (x & Hx & Hc). apply walk_cons_Some in Hc as (c' & Hc & [= ->]), Hq1 as (q' & Hq1 & [= ->]).
  destruct (get_key_parent _ h _ _ _ W Hq1) as (v & Hv & Ev), (get_key_parent _ h _ _ _ W Hc) as (w & Hw & Ew).
  assert (Hi : is_Some (get_index_dict db e)).
  { unfold index in Hq. destruct (get_index_dict db e); [by eexists|]. by rewrite lookup_empty in Hq. }
  destruct Hi as [dd Hdd]. destruct (lookup_id h db e dd id I Hdd) as [El Hl]. rewrite Hq in El, Hl.
  assert (Hx0 : x = 0 \/ is_Some (h !! x)).
  { right. unfold get_key in Hc. destruct (h !! x); [by eexists|done]. }
  exists o, k, x, (if negb (default 0 (get_key h x OV_KEY_PROJECTS) =? 0) then OV_VOCS_DB_SCOPE_DOMAIN else OV_VOCS_DB_SCOPE_PROJECT).
  assert (exists s, ov_json_string_get h (default 0 (get_key h x OV_KEY_ID)) = Some s /\ forall d, o = [d] -> s = Some d) as (s & Es & Hs).
  { unfold ov_json_string_get. destruct (get_key h x OV_KEY_ID) as [i|] eqn:Ei.
    - change (default 0 (Some i)) with i. rewrite (proj2 (Z.eqb_neq i 0)) by (by eapply get_key_nonzero).
      destruct (get_key_parent _ h _ _ _ W Ei) as (u & Hu & _). rewrite (jload_Some h i u (jw_zero _ h W) Hu). cbn [mbind option_bind].
      exists (string_of (type u)). split; [by destruct (type u)|]. intros d ->. destruct (inv_ids _ I d x Hx) as (i' & Hi' & u' & Hu' & Et).
      cbn [fst snd] in *. change [d; OV_KEY_ID] with ([d] ++ [OV_KEY_ID]) in Hi'. rewrite walk_snoc, Hx in Hi'. cbn in Hi'.
      assert (i' = i) as -> by congruence. assert (u' = u) as -> by congruence. by rewrite Et.
    - exists None. split; [done|]. intros d ->. destruct (inv_ids _ I d x Hx) as (i' & Hi' & _). cbn [fst snd] in Hi'.
      change [d; OV_KEY_ID] with ([d] ++ [OV_KEY_ID]) in Hi'. rewrite walk_snoc, Hx in Hi'. cbn in Hi'. congruence. }
  exists s. split; [done|]. split; [done|]. split; [done|]. split; [done|]. split; [|split; [|done]].
  - unfold ov_vocs_db_get_parent. cbn [negb]. rewrite Hdd, El. cbn [mbind option_bind]. change (default 0 (Some q)) with q.
    rewrite (proj2 (Z.eqb_neq q 0)) by apply Hl. rewrite bool_decide_eq_false_2 by done.
    rewrite (jload_Some h q v (jw_zero _ h W) Hv). cbn [mbind option_bind]. rewrite Ev. rewrite (jload_Some h c w (jw_zero _ h W) Hw). cbn [mbind option_bind]. rewrite Ew.
    slashes. rewrite (slash_spec h x OV_KEY_PROJECTS W Hx0 eq_refl). cbn [mbind option_bind].
    rewrite (slash_spec h x OV_KEY_ID W Hx0 eq_refl). cbn [mbind option_bind]. unfold default in *. by rewrite Es.
  - rewrite <- default_key by done. destruct (Z.eqb_spec (default 0 (get_key h x OV_KEY_PROJECTS)) 0); cbn [negb]; by split.
Qed.
Lemma get_parent_exact_witness : exists q, index demo.2 OV_VOCS_DB_USER !! "ada" = Some q /\
  ov_vocs_db_get_parent true demo OV_VOCS_DB_USER "ada" = Some (OV_VOCS_DB_SCOPE_DOMAIN, Some "moon", demo.1).
Proof.
  assert (exists q, index demo.2 OV_VOCS_DB_USER !! "ada" = Some q) as [q Hq] by (eexists; run). exists q. split; [exact Hq|].
  destruct (get_parent_exact demo OV_VOCS_DB_USER "ada" q demo_inv) as (o & k & x & scope & s & _ & _ & _ & _ & E & _); [discriminate|exact Hq|].
  rewrite E. f_equal. assert (fst <$> ov_vocs_db_get_parent true demo OV_VOCS_DB_USER "ada" = Some (OV_VOCS_DB_SCOPE_DOMAIN, Some "moon")) as H by run.
  rewrite E in H. injection H as -> ->. reflexivity.
Defined.

(** ** What it does not promise *)

(** A domain without projects is taken for a project. *)
Example parent_without_projects :
  (st ← db_reach [op_create true OV_VOCS_DB_DOMAIN "moon" OV_VOCS_DB_SCOPE_DOMAIN ""; op_create true OV_VOCS_DB_USER "ada" OV_VOCS_DB_SCOPE_DOMAIN "moon"];
   fst <$> ov_vocs_db_get_parent true st OV_VOCS_DB_USER "ada") = Some (OV_VOCS_DB_SCOPE_PROJECT, Some "moon").
Proof. run. Qed.
(** A user that is deleted stays the administrator of a domain. *)
Example deleted_user_is_admin :
  (st ← db_reach (demo_ops ++ [op_delete true OV_VOCS_DB_USER "ada"]); e ← ov_vocs_db_check_entity_id_exists true st.2 OV_VOCS_DB_USER "ada";
   a ← ov_vocs_db_authorize_domain_admin true st "ada" "moon"; Some (e, a)) = Some (false, true).
Proof. run. Qed.
(** Creating the admin role of a domain again takes its administrators away. *)
Example admins_replaced :
  (st ← db_reach (demo_ops ++ [op_create true OV_VOCS_DB_ROLE OV_KEY_ADMIN OV_VOCS_DB_SCOPE_DOMAIN "moon"]);
   ov_vocs_db_authorize_domain_admin true st "ada" "moon") = Some false.
Proof. run. Qed.
(** Deleting the role admin takes the administrators of every domain and project
    away. *)
Example admins_deleted :
  (st ← db_reach (demo_ops ++ [op_delete true OV_VOCS_DB_ROLE OV_KEY_ADMIN]);
   a ← ov_vocs_db_authorize_domain_admin true st "ada" "moon"; b ← ov_vocs_db_authorize_project_admin true st "bob" "base"; Some (a, b)) =
  Some (false, false).
Proof. run. Qed.
(** Once the index is filled from a tree it leads to an admin role; creating
    that role again leaves the index with a value that is gone, and asking for it
    reads that value. *)
Example admin_role_dangles :
  (st ← db_reach [op_create true OV_VOCS_DB_DOMAIN "moon" OV_VOCS_DB_SCOPE_DOMAIN "";
     op_create true OV_VOCS_DB_USER "ada" OV_VOCS_DB_SCOPE_DOMAIN "moon"; op_domain_admin true "moon" "ada"];
   db ← ov_vocs_db_create; '(ok, st) ← inject_auth true (st.1, db) (data_domains st.2);
   '(a, st) ← ov_vocs_db_authorize true st "ada" OV_KEY_ADMIN;
   '(b, st) ← ov_vocs_db_create_entity true st OV_VOCS_DB_ROLE OV_KEY_ADMIN OV_VOCS_DB_SCOPE_DOMAIN "moon";
   Some (ok, a, b, bool_decide (ov_vocs_db_authorize true st "ada" OV_KEY_ADMIN = None))) = Some (true, true, true, true).
Proof. run. Qed.
