(* ===== verification/BackendRegistry.v ===== *)
(** * The registry of mixers (src/lib/ov_vocs/src/ov_mc_backend_registry.c)

    A mixer connects on a socket, and a user who speaks gets a mixer of his own.
    The registry is an array with a slot for every socket and a dictionary that
    leads from a user to the socket of his mixer. An access outside of the array,
    a failed [OV_ASSERT], and reading an id that fills its 37 octets without a
    terminating NUL are [None].

    [reg_rep] says which mixers the registry represents. Under the discipline
    [allowed] (a user asks for one mixer at a time, and a mixer comes and goes
    without a user) every operation acts on the map of the mixers, and no two users
    share a mixer. The code around does not keep to it when a connection breaks;
    [mixer_shared] shows what happens. *)
From S2P Require Import Prelude Hashtable Dict.

(** ** The code *)

(** The remote address ([ov_socket_data]) is only copied. *)
Record ov_mc_mixer_data := { md_socket : Z; md_remote : Z; md_uuid : string; md_user : string }.
Definition OV_ID_LENGTH : nat := 36.
Definition zero_data : ov_mc_mixer_data := {| md_socket := 0; md_remote := 0; md_uuid := ""; md_user := "" |}.
Definition with_user (d : ov_mc_mixer_data) (user : string) : ov_mc_mixer_data :=
  {| md_socket := md_socket d; md_remote := md_remote d; md_uuid := md_uuid d; md_user := user |}.
Definition init_socket (self : ov_mc_mixer_data) : ov_mc_mixer_data :=
  {| md_socket := -1; md_remote := md_remote self; md_uuid := md_uuid self; md_user := md_user self |}.
Record ov_mc_backend_registry := { reg_users : ov_dict; reg_socket : list ov_mc_mixer_data }.
Definition reg_sockets (self : ov_mc_backend_registry) : Z := Z.of_nat (length (reg_socket self)).
Definition with_slot (self : ov_mc_backend_registry) (i : Z) (d : ov_mc_mixer_data) : option ov_mc_backend_registry :=
  if (0 <=? i) && (i <? reg_sockets self)
  then Some {| reg_users := reg_users self; reg_socket := <[Z.to_nat i := d]> (reg_socket self) |} else None.
Definition slot_at (self : ov_mc_backend_registry) (i : Z) : option ov_mc_mixer_data :=
  if i <? 0 then None else reg_socket self !! Z.to_nat i.

(** [max_sockets] is what the system allows. *)
Definition ov_mc_backend_registry_create (max_sockets : nat) : option ov_mc_backend_registry :=
  users ← ov_dict_create (ov_dict_string_key_config 255);
  Some {| reg_users := users; reg_socket := replicate max_sockets (init_socket zero_data) |}.
Definition ov_mc_backend_registry_register_mixer (self : ov_mc_backend_registry) (data : ov_mc_mixer_data)
    : option (bool * ov_mc_backend_registry) :=
  if reg_sockets self <? md_socket data then Some (false, self) else
  if md_socket data <? 1 then Some (false, self) else
  self ← with_slot self (md_socket data) (with_user data ""); Some (true, self).
Definition ov_mc_backend_registry_unregister_mixer (self : ov_mc_backend_registry) (socket : Z)
    : option (bool * ov_mc_backend_registry) :=
  if reg_sockets self <? socket then Some (false, self) else
  if socket <? 1 then Some (false, self) else
  self ← with_slot self socket (init_socket zero_data); Some (true, self).
Definition is_used (d : ov_mc_mixer_data) : bool := negb (bool_decide (md_user d = "")).
Fixpoint count_loop (l : list ov_mc_mixer_data) (mixers used : Z) : Z * Z :=
  match l with
  | [] => (mixers, used)
  | d :: l => if md_socket d =? -1 then count_loop l mixers used
              else count_loop l (mixers + 1) (if is_used d then used + 1 else used)
  end.
Definition ov_mc_backend_registry_count_mixers (self : ov_mc_backend_registry) : Z * Z := count_loop (reg_socket self) 0 0.
(** The first slot from [i] on with a mixer that is not used. *)
Fixpoint free_slot (l : list ov_mc_mixer_data) (i : nat) : option (nat * ov_mc_mixer_data) :=
  match l with
  | [] => None
  | d :: l => if (md_socket d =? -1) || is_used d then free_slot l (S i) else Some (i, d)
  end.
Definition ov_mc_backend_registry_acquire_user (self : ov_mc_backend_registry) (uuid : string)
    : option (ov_mc_mixer_data * ov_mc_backend_registry) :=
  match free_slot (reg_socket self) 0 with
  | None => Some (zero_data, self)
  | Some (i, slot) =>
      if (OV_ID_LENGTH <? String.length uuid)%nat then None else
      let slot := with_user slot uuid in
      self ← with_slot self (Z.of_nat i) slot;
      '(_, users) ← impl_dict_set (reg_users self) uuid (md_socket slot);
      Some (slot, {| reg_users := users; reg_socket := reg_socket self |})
  end.
Definition ov_mc_backend_registry_get_user (self : ov_mc_backend_registry) (uuid : string) : option ov_mc_mixer_data :=
  slot ← impl_dict_get (reg_users self) (Some uuid); slot_at self slot.
Definition ov_mc_backend_registry_get_socket (self : ov_mc_backend_registry) (socket : Z) : option ov_mc_mixer_data :=
  if reg_sockets self <? socket then Some zero_data else
  if socket <? 1 then Some zero_data else slot_at self socket.
Definition ov_mc_backend_registry_release_user (self : ov_mc_backend_registry) (uuid : string)
    : option (bool * ov_mc_backend_registry) :=
  slot ← impl_dict_get (reg_users self) (Some uuid);
  _ ← OV_ASSERT (slot <? reg_sockets self);
  _ ← OV_ASSERT (0 <=? slot);
  data ← slot_at self slot;
  self ← with_slot self slot (with_user data "");
  '(_, users) ← impl_dict_del (reg_users self) uuid;
  Some (true, {| reg_users := users; reg_socket := reg_socket self |}).

(** ** Operations, and what they do to the map of the mixers *)

Inductive reg_op :=
  | r_register (data : ov_mc_mixer_data) | r_unregister (socket : Z) | r_acquire (user : string) | r_release (user : string)
  | r_get_user (user : string) | r_get_socket (socket : Z) | r_count.
Inductive reg_result := r_bool (b : bool) | r_data (d : ov_mc_mixer_data) | r_number (mixers used : Z).
Definition reg_run (self : ov_mc_backend_registry) (op : reg_op) : option (reg_result * ov_mc_backend_registry) :=
  match op with
  | r_register data => '(b, self) ← ov_mc_backend_registry_register_mixer self data; Some (r_bool b, self)
  | r_unregister s => '(b, self) ← ov_mc_backend_registry_unregister_mixer self s; Some (r_bool b, self)
  | r_acquire u => '(d, self) ← ov_mc_backend_registry_acquire_user self u; Some (r_data d, self)
  | r_release u => '(b, self) ← ov_mc_backend_registry_release_user self u; Some (r_bool b, self)
  | r_get_user u => d ← ov_mc_backend_registry_get_user self u; Some (r_data d, self)
  | r_get_socket s => d ← ov_mc_backend_registry_get_socket self s; Some (r_data d, self)
  | r_count => let '(m, u) := ov_mc_backend_registry_count_mixers self in Some (r_number m u, self)
  end.

Abbreviation mixers := (gmap Z ov_mc_mixer_data).
Definition no_mixer : ov_mc_mixer_data := init_socket zero_data.
Definition in_range (n s : Z) : bool := (1 <=? s) && (s <? n).
Definition has_mixer (m : mixers) (u : string) (s : Z) (d : ov_mc_mixer_data) : Prop := m !! s = Some d /\ md_user d = u.
(** [n] is the number of slots. *)
Inductive mixers_step (n : Z) (m : mixers) : reg_op -> reg_result -> mixers -> Prop :=
  | step_register d : in_range n (md_socket d) = true -> mixers_step n m (r_register d) (r_bool true) (<[md_socket d := with_user d ""]> m)
  | step_not_registered d : in_range n (md_socket d) = false -> mixers_step n m (r_register d) (r_bool false) m
  | step_unregister s : in_range n s = true -> mixers_step n m (r_unregister s) (r_bool true) (delete s m)
  | step_not_unregistered s : in_range n s = false -> mixers_step n m (r_unregister s) (r_bool false) m
  | step_acquire u s d : has_mixer m "" s d -> (forall s' d', has_mixer m "" s' d' -> s <= s') ->
      mixers_step n m (r_acquire u) (r_data (with_user d u)) (<[s := with_user d u]> m)
  | step_all_used u : (forall s d, ~ has_mixer m "" s d) -> mixers_step n m (r_acquire u) (r_data zero_data) m
  | step_release u s d : u <> "" -> has_mixer m u s d -> mixers_step n m (r_release u) (r_bool true) (<[s := with_user d ""]> m)
  | step_no_release u : u = "" \/ (forall s d, ~ has_mixer m u s d) -> mixers_step n m (r_release u) (r_bool true) m
  | step_get_user u s d : u <> "" -> has_mixer m u s d -> mixers_step n m (r_get_user u) (r_data d) m
  | step_no_user u : u = "" \/ (forall s d, ~ has_mixer m u s d) -> mixers_step n m (r_get_user u) (r_data no_mixer) m
  | step_get_socket s : in_range n s = true -> mixers_step n m (r_get_socket s) (r_data (default no_mixer (m !! s))) m
  | step_no_socket s : in_range n s = false -> mixers_step n m (r_get_socket s) (r_data zero_data) m
  | step_count : mixers_step n m r_count (r_number (Z.of_nat (size m)) (Z.of_nat (size (filter (fun '(_, d) => md_user d <> "") m)))) m.
(** Slots exist, a mixer comes and goes without a user, a user has one mixer. *)
Definition allowed (n : Z) (m : mixers) (op : reg_op) : Prop :=
  match op with
  | r_register d => md_socket d <> n /\ forall d', m !! md_socket d = Some d' -> md_user d' = ""
  | r_unregister s => s <> n /\ forall d', m !! s = Some d' -> md_user d' = ""
  | r_acquire u => u <> "" /\ (String.length u <= OV_ID_LENGTH)%nat /\ forall s d, ~ has_mixer m u s d
  | r_get_socket s => s <> n
  | _ => True
  end.

(** ** The mixers of a registry *)

Record reg_rep (self : ov_mc_backend_registry) (m : mixers) : Prop := {
  rr_dict : dict_ok (reg_users self);
  rr_size : (0 < length (reg_socket self))%nat;
  rr_slot i : (i < length (reg_socket self))%nat -> reg_socket self !! i = Some (default no_mixer (m !! Z.of_nat i));
  rr_mixer s d : m !! s = Some d -> in_range (reg_sockets self) s = true /\ md_socket d = s;
  rr_user u s : dict_map (reg_users self) !! u = Some s <-> u <> "" /\ exists d, has_mixer m u s d
}.

Lemma in_range_spec n s : in_range n s = true <-> 1 <= s < n.
Proof. unfold in_range. rewrite andb_true_iff, Z.leb_le, Z.ltb_lt. done. Qed.
(** The guards of the code, for a socket that is not the number of slots. *)
Lemma guards {A} n s (a b : A) : s <> n ->
  (if n <? s then a else if s <? 1 then a else b) = if in_range n s then b else a.
Proof.
  intros H. unfold in_range. destruct (Z.ltb_spec n s), (Z.ltb_spec s 1), (Z.leb_spec 1 s), (Z.ltb_spec s n); done || lia.
Qed.
Lemma slots_set l (m m' : mixers) s x :
  (forall i, (i < length l)%nat -> l !! i = Some (default no_mixer (m !! Z.of_nat i))) -> 0 <= s ->
  x = default no_mixer (m' !! s) -> (forall s', s' <> s -> m' !! s' = m !! s') ->
  forall i, (i < length (<[Z.to_nat s := x]> l))%nat -> <[Z.to_nat s := x]> l !! i = Some (default no_mixer (m' !! Z.of_nat i)).
Proof.
  intros Hl Hs -> Hm i Hi. rewrite length_insert in Hi. destruct (decide (i = Z.to_nat s)) as [->|Hne].
  - rewrite list_lookup_insert_eq by done. by rewrite Z2Nat.id.
  - rewrite list_lookup_insert_ne by done. rewrite Hm by lia. by apply Hl.
Qed.
Lemma users_same (m m' : mixers) s u s' : (forall s', s' <> s -> m' !! s' = m !! s') ->
  (forall d, m !! s = Some d -> md_user d = "") -> (forall d, m' !! s = Some d -> md_user d = "") -> u <> "" ->
  (exists d, has_mixer m' u s' d) <-> exists d, has_mixer m u s' d.
Proof.
  intros Hm H1 H2 Hu. unfold has_mixer. destruct (decide (s' = s)) as [->|Hne]; [|by rewrite Hm].
  split; intros (d & E & Eu); exfalso; apply Hu; rewrite <- Eu; [by apply H2|by apply H1].
Qed.
Lemma with_slot_in self i d : 0 <= i < reg_sockets self -> with_slot self i d =
  Some {| reg_users := reg_users self; reg_socket := <[Z.to_nat i := d]> (reg_socket self) |}.
Proof. intros H. unfold with_slot. by rewrite (proj2 (Z.leb_le 0 i)), (proj2 (Z.ltb_lt i _)) by lia. Qed.
Lemma slot_at_rep self m s : reg_rep self m -> 0 <= s < reg_sockets self -> slot_at self s = Some (default no_mixer (m !! s)).
Proof.
  intros H Hs. unfold slot_at. destruct (Z.ltb_spec s 0); [lia|]. unfold reg_sockets in Hs.
  rewrite (rr_slot self m H) by lia. by rewrite Z2Nat.id by lia.
Qed.

(** A slot in range is written, and its old and its new mixer, if any, are free. *)
Lemma write_free self m m' s x : reg_rep self m -> in_range (reg_sockets self) s = true ->
  x = default no_mixer (m' !! s) -> (forall s', s' <> s -> m' !! s' = m !! s') ->
  (forall d, m !! s = Some d -> md_user d = "") -> (forall d, m' !! s = Some d -> md_user d = "" /\ md_socket d = s) ->
  exists self', with_slot self s x = Some self' /\ reg_rep self' m'.
Proof.
  intros H Hs Ex Hm H1 H2. pose proof (proj1 (in_range_spec _ _) Hs) as Hr. rewrite with_slot_in by lia.
  eexists. split; [done|]. split; cbn [reg_users reg_socket].
  - apply (rr_dict _ _ H).
  - rewrite length_insert. apply (rr_size _ _ H).
  - apply (slots_set _ m m'); [apply (rr_slot _ _ H)|lia|done|done].
  - intros s' d. unfold reg_sockets. cbn [reg_socket]. rewrite length_insert.
    destruct (decide (s' = s)) as [->|Hne]; [intros E; split; [done|by apply H2]|]. rewrite Hm by done. apply (rr_mixer _ _ H).
  - intros u s'. rewrite (rr_user _ _ H). split; intros [Hu E]; (split; [done|]);
      eapply (users_same m m' s); try done; intros d Ed; by apply H2.
Qed.
Lemma register_step self m d : reg_rep self m -> allowed (reg_sockets self) m (r_register d) ->
  exists r self' m', reg_run self (r_register d) = Some (r, self') /\
    mixers_step (reg_sockets self) m (r_register d) r m' /\ reg_rep self' m'.
Proof.
  intros H [Hn Hf]. cbn [reg_run]. unfold ov_mc_backend_registry_register_mixer. rewrite guards by done.
  destruct (in_range _ _) eqn:Er; cbn [mbind option_bind].
  - destruct (write_free self m (<[md_socket d := with_user d ""]> m) (md_socket d) (with_user d "")) as (self' & -> & H'); try done.
    + by rewrite lookup_insert_eq.
    + intros s' Hne. by rewrite lookup_insert_ne.
    + intros d'. rewrite lookup_insert_eq. by intros [= <-].
    + cbn [mbind option_bind]. eexists _, _, _. split; [done|]. split; [by constructor|done].
  - eexists _, _, _. split; [done|]. split; [by constructor|done].
Qed.
Lemma unregister_step self m s : reg_rep self m -> allowed (reg_sockets self) m (r_unregister s) ->
  exists r self' m', reg_run self (r_unregister s) = Some (r, self') /\
    mixers_step (reg_sockets self) m (r_unregister s) r m' /\ reg_rep self' m'.
Proof.
  intros H [Hn Hf]. cbn [reg_run]. unfold ov_mc_backend_registry_unregister_mixer. rewrite guards by done.
  destruct (in_range _ _) eqn:Er; cbn [mbind option_bind].
  - destruct (write_free self m (delete s m) s (init_socket zero_data)) as (self' & -> & H'); try done.
    + by rewrite lookup_delete_eq.
    + intros s' Hne. by rewrite lookup_delete_ne.
    + intros d'. by rewrite lookup_delete_eq.
    + cbn [mbind option_bind]. eexists _, _, _. split; [done|]. split; [by constructor|done].
  - eexists _, _, _. split; [done|]. split; [by constructor|done].
Qed.

Lemma slot_unused (m : mixers) s : md_socket (default no_mixer (m !! s)) = -1 \/ exists d, m !! s = Some d /\ default no_mixer (m !! s) = d.
Proof. destruct (m !! s) as [d|] eqn:E; [right; by exists d|by left]. Qed.
(** The loop over the slots finds the first free mixer. *)
Lemma free_slot_spec l (m : mixers) k : (forall s d, m !! s = Some d -> 1 <= s /\ md_socket d = s) ->
  (forall i, (i < length l)%nat -> l !! i = Some (default no_mixer (m !! Z.of_nat (k + i)))) ->
  match free_slot l k with
  | Some (i, d) => (k <= i < k + length l)%nat /\ has_mixer m "" (Z.of_nat i) d /\
      forall j d', (k <= j < i)%nat -> ~ has_mixer m "" (Z.of_nat j) d'
  | None => forall j d', (k <= j < k + length l)%nat -> ~ has_mixer m "" (Z.of_nat j) d'
  end.
Proof.
  intros Hm. revert k. induction l as [|x l IH]; intros k Hl; cbn [free_slot length]; [intros; lia|].
  pose proof (Hl O ltac:(cbn; lia)) as Ex. cbn in Ex. rewrite Nat.add_0_r in Ex. injection Ex as Ex.
  specialize (IH (S k)). destruct ((md_socket x =? -1) || is_used x) eqn:Eb.
  - assert (Hx : forall d', ~ has_mixer m "" (Z.of_nat k) d').
    { intros d' [E Eu]. rewrite E in Ex. cbn in Ex. subst d'. destruct (Hm _ _ E) as [_ Es].
      unfold is_used in Eb. rewrite Eu, orb_true_iff, Z.eqb_eq in Eb. destruct Eb; [lia|done]. }
    assert (Hl' : forall i, (i < length l)%nat -> l !! i = Some (default no_mixer (m !! Z.of_nat (S k + i)))).
    { intros i Hi. specialize (Hl (S i) ltac:(cbn; lia)). change ((x :: l) !! S i) with (l !! i) in Hl. rewrite Hl. do 4 f_equal. lia. }
    specialize (IH Hl'). destruct (free_slot l (S k)) as [[i d]|].
    + destruct IH as (Hi & Hd & Hj). split; [lia|]. split; [done|]. intros j d' Hj'.
      destruct (decide (j = k)) as [->|]; [apply Hx|apply Hj; lia].
    + intros j d' Hj. destruct (decide (j = k)) as [->|]; [apply Hx|apply IH; lia].
  - apply orb_false_iff in Eb as [E1 E2]. apply Z.eqb_neq in E1.
    unfold is_used in E2. apply negb_false_iff, bool_decide_eq_true in E2. split; [lia|]. split; [|intros; lia].
    destruct (slot_unused m (Z.of_nat k)) as [E|(d & E & Ed)]; [congruence|]. split; [|done]. by rewrite E, Ex, Ed.
Qed.
Lemma one_mixer self m u s s' : reg_rep self m -> u <> "" ->
  (exists d, has_mixer m u s d) -> (exists d, has_mixer m u s' d) -> s = s'.
Proof.
  intros H Hu H1 H2. pose proof (proj2 (rr_user _ _ H u s) (conj Hu H1)).
  pose proof (proj2 (rr_user _ _ H u s') (conj Hu H2)). congruence.
Qed.
(** Writing the user of a mixer, and the dictionary that goes with it. *)
Lemma write_user self m s d u users : reg_rep self m -> m !! s = Some d -> dict_ok users ->
  (forall v t, dict_map users !! v = Some t <-> v <> "" /\ exists d', has_mixer (<[s := with_user d u]> m) v t d') ->
  reg_rep {| reg_users := users; reg_socket := <[Z.to_nat s := with_user d u]> (reg_socket self) |} (<[s := with_user d u]> m).
Proof.
  intros H Hs Hok Hu. destruct (rr_mixer _ _ H _ _ Hs) as [Hr%in_range_spec Es]. split; cbn [reg_users reg_socket]; try done.
  - rewrite length_insert. apply (rr_size _ _ H).
  - apply (slots_set _ m); [apply (rr_slot _ _ H)|lia|by rewrite lookup_insert_eq|]. intros. by rewrite lookup_insert_ne.
  - intros s' d'. unfold reg_sockets. cbn [reg_socket]. rewrite length_insert. destruct (decide (s' = s)) as [->|Hne].
    + rewrite lookup_insert_eq. intros [= <-]. split; [by apply in_range_spec|done].
    + rewrite lookup_insert_ne by done. apply (rr_mixer _ _ H).
Qed.
Lemma acquire_step self m u : reg_rep self m -> allowed (reg_sockets self) m (r_acquire u) ->
  exists r self' m', reg_run self (r_acquire u) = Some (r, self') /\
    mixers_step (reg_sockets self) m (r_acquire u) r m' /\ reg_rep self' m'.
Proof.
  intros H (Hu & Hlen & Hnew). cbn [reg_run]. unfold ov_mc_backend_registry_acquire_user.
  assert (Hm : forall s d, m !! s = Some d -> 1 <= s /\ md_socket d = s).
  { intros s d E. destruct (rr_mixer _ _ H _ _ E) as [?%in_range_spec ?]. lia. }
  pose proof (free_slot_spec (reg_socket self) m 0 Hm (rr_slot _ _ H)) as Hf.
  destruct (free_slot (reg_socket self) 0) as [[i d]|].
  - destruct Hf as (Hi & [Ed Eu] & Hj). destruct (Nat.ltb_spec OV_ID_LENGTH (String.length u)); [lia|].
    rewrite with_slot_in by (unfold reg_sockets; lia). cbn [mbind option_bind reg_users reg_socket].
    destruct (dict_set_spec (reg_users self) u (md_socket (with_user d u)) (rr_dict _ _ H)) as (users & -> & Hok & Emap).
    cbn [mbind option_bind]. eexists _, _, _. split; [done|]. split.
    + apply (step_acquire _ m u (Z.of_nat i) d); [done|]. intros s' d' Hs'.
      destruct (Hm _ _ (proj1 Hs')) as [Hge _]. destruct (Z.le_gt_cases (Z.of_nat i) s'); [done|]. exfalso.
      eapply (Hj (Z.to_nat s')); [lia|]. rewrite Z2Nat.id by lia. done.
    + apply write_user; [done|done|done|]. intros v t. rewrite Emap. cbn [md_socket with_user].
      rewrite (proj2 (Hm _ _ Ed)). destruct (decide (v = u)) as [->|Hne].
      * rewrite lookup_insert_eq. split; [intros [= <-]; split; [done|]; exists (with_user d u); split; [by rewrite lookup_insert_eq|done]|].
        intros (_ & d' & E & Eu'). destruct (decide (t = Z.of_nat i)) as [->|Ht]; [done|].
        rewrite lookup_insert_ne in E by done. exfalso. by apply (Hnew t d').
      * rewrite lookup_insert_ne by done. rewrite (rr_user _ _ H).
        unfold has_mixer. destruct (decide (t = Z.of_nat i)) as [->|Ht]; [|by rewrite lookup_insert_ne].
        rewrite lookup_insert_eq, Ed. split; intros (Hv & d' & [= <-] & E); cbn in E; congruence.
  - eexists _, _, _. split; [done|]. split; [|done]. apply step_all_used. intros s d Hs.
    destruct (rr_mixer _ _ H _ _ (proj1 Hs)) as [Hr%in_range_spec _]. unfold reg_sockets in Hr.
    eapply (Hf (Z.to_nat s)); [lia|]. rewrite Z2Nat.id by lia. done.
Qed.

Lemma no_slot_zero self m : reg_rep self m -> m !! 0 = None.
Proof.
  intros H. destruct (m !! 0) eqn:E; [|done]. by destruct (rr_mixer _ _ H _ _ E) as [?%in_range_spec _]; lia.
Qed.
Lemma user_slot_spec self m u : reg_rep self m -> exists s, impl_dict_get (reg_users self) (Some u) = Some s /\
  0 <= s < reg_sockets self /\
  ((u <> "" /\ exists d, has_mixer m u s d) \/ s = 0 /\ (u = "" \/ forall t d, ~ has_mixer m u t d)).
Proof.
  intros H. rewrite dict_get_spec by apply (rr_dict _ _ H). eexists. split; [done|].
  pose proof (rr_size _ _ H). destruct (dict_map (reg_users self) !! u) as [s|] eqn:E; cbn [default from_option id].
  - apply (rr_user _ _ H) in E as (Hu & d & Hd). destruct (rr_mixer _ _ H _ _ (proj1 Hd)) as [Hr%in_range_spec _].
    split; [lia|]. left. split; [done|by exists d].
  - split; [unfold reg_sockets; lia|]. right. split; [done|]. destruct (decide (u = "")) as [|Hu]; [by left|right]. intros t d Ht.
    assert (dict_map (reg_users self) !! u = Some t) by (apply (rr_user _ _ H); split; [done|by exists d]). congruence.
Qed.
Lemma release_step self m u : reg_rep self m ->
  exists r self' m', reg_run self (r_release u) = Some (r, self') /\
    mixers_step (reg_sockets self) m (r_release u) r m' /\ reg_rep self' m'.
Proof.
  intros H. cbn [reg_run]. unfold ov_mc_backend_registry_release_user, impl_dict_del.
  destruct (user_slot_spec self m u H) as (s & -> & Hs & Hc). cbn [mbind option_bind].
  rewrite (proj2 (Z.ltb_lt s _)), (proj2 (Z.leb_le 0 s)) by lia. cbn [OV_ASSERT mbind option_bind].
  rewrite (slot_at_rep _ m) by done. cbn [mbind option_bind]. rewrite with_slot_in by done. cbn [mbind option_bind reg_users reg_socket].
  destruct (dict_remove_spec (reg_users self) u (rr_dict _ _ H)) as (users & -> & Hok & Emap). cbn [mbind option_bind].
  destruct Hc as [(Hu & d & Ed & Eu)|[-> Hstep]].
  - rewrite Ed. cbn [default from_option id]. eexists _, _, _. split; [done|]. split; [by apply step_release|].
    apply write_user; [done|done|done|]. intros v t. rewrite Emap. destruct (decide (v = u)) as [->|Hne].
    + rewrite lookup_delete_eq. split; [done|]. intros (_ & d' & E & E'). destruct (decide (t = s)) as [->|Ht].
      * rewrite lookup_insert_eq in E. injection E as <-. by cbn in E'.
      * rewrite lookup_insert_ne in E by done. destruct Ht. apply (one_mixer self m u); [done|done| |]; eexists; split; done.
    + rewrite lookup_delete_ne by done. rewrite (rr_user _ _ H). unfold has_mixer.
      destruct (decide (t = s)) as [->|Ht]; [|by rewrite lookup_insert_ne].
      rewrite lookup_insert_eq, Ed. split; intros (Hv & d' & [= <-] & E); cbn in E; congruence.
  - rewrite (no_slot_zero self m H). cbn [default from_option id]. eexists _, _, m. split; [done|]. split; [by constructor|].
    assert (Eq : <[Z.to_nat 0 := with_user no_mixer ""]> (reg_socket self) = reg_socket self).
    { apply list_insert_id. change (Z.to_nat 0) with O. rewrite (rr_slot _ _ H) by apply (rr_size _ _ H).
      change (Z.of_nat 0) with 0. by rewrite (no_slot_zero self m H). }
    rewrite Eq. destruct H as [? ? ? ? Hu]. split; try done. intros v t. cbn [reg_users]. rewrite Emap, <- Hu.
    rewrite delete_id; [done|]. destruct (dict_map _ !! u) as [t'|] eqn:E; [|done].
    apply Hu in E as (Hne & d & Hd). destruct Hstep as [|Hno]; [done|]. by destruct (Hno t' d).
Qed.
Lemma get_user_step self m u : reg_rep self m ->
  exists r self' m', reg_run self (r_get_user u) = Some (r, self') /\
    mixers_step (reg_sockets self) m (r_get_user u) r m' /\ reg_rep self' m'.
Proof.
  intros H. cbn [reg_run]. unfold ov_mc_backend_registry_get_user.
  destruct (user_slot_spec self m u H) as (s & -> & Hs & Hc). cbn [mbind option_bind].
  rewrite (slot_at_rep _ m) by done. cbn [mbind option_bind]. eexists _, _, _. split; [done|]. split; [|done].
  destruct Hc as [(Hu & d & Ed & Eu)|[-> Hno]].
  - rewrite Ed. by eapply step_get_user.
  - rewrite (no_slot_zero self m H). by constructor.
Qed.
Lemma get_socket_step self m s : reg_rep self m -> s <> reg_sockets self ->
  exists r self' m', reg_run self (r_get_socket s) = Some (r, self') /\
    mixers_step (reg_sockets self) m (r_get_socket s) r m' /\ reg_rep self' m'.
Proof.
  intros H Hn. cbn [reg_run]. unfold ov_mc_backend_registry_get_socket. rewrite guards by done.
  destruct (in_range _ _) eqn:Er.
  - rewrite (slot_at_rep _ m) by (done || apply in_range_spec in Er; lia). cbn [mbind option_bind].
    eexists _, _, _. split; [done|]. split; [by constructor|done].
  - eexists _, _, _. split; [done|]. split; [by constructor|done].
Qed.

(** A slot more. *)
Lemma count_mixers_spec l (m : mixers) k a b : (forall s d, m !! s = Some d -> Z.of_nat k <= s < Z.of_nat (k + length l) /\ md_socket d = s /\ 1 <= s) ->
  (forall i, (i < length l)%nat -> l !! i = Some (default no_mixer (m !! Z.of_nat (k + i)))) ->
  count_loop l a b = (a + Z.of_nat (size m), b + Z.of_nat (size (filter (fun '(_, d) => md_user d <> "") m))).
Proof.
  revert m k a b. induction l as [|x l IH]; intros m k a b Hm Hl; cbn [count_loop].
  { assert (m = ∅) as ->; [|by rewrite map_filter_empty, map_size_empty, !Z.add_0_r].
    apply map_empty. intros s. destruct (m !! s) eqn:E; [|done]. destruct (Hm _ _ E) as [Hb _]. cbn in Hb. lia. }
  pose proof (Hl O ltac:(cbn; lia)) as Ex. cbn in Ex. rewrite Nat.add_0_r in Ex. injection Ex as Ex.
  assert (Hl' : forall i, (i < length l)%nat -> l !! i = Some (default no_mixer (m !! Z.of_nat (S k + i)))).
  { intros i Hi. specialize (Hl (S i) ltac:(cbn; lia)). change ((x :: l) !! S i) with (l !! i) in Hl. rewrite Hl. do 4 f_equal. lia. }
  destruct (m !! Z.of_nat k) as [d|] eqn:Ek; cbn [default from_option id] in Ex; subst x.
  - destruct (Hm _ _ Ek) as (_ & Es & H1). destruct (Z.eqb_spec (md_socket d) (-1)); [lia|].
    rewrite (IH (delete (Z.of_nat k) m) (S k)).
    + rewrite map_size_delete_Some by done. assert (size m <> 0%nat) by (intros E%map_size_empty_iff; by rewrite E in Ek).
      rewrite map_filter_delete. unfold is_used. case_bool_decide as Eu; cbn [negb].
      * rewrite delete_id by (apply map_lookup_filter_None; right; intros d'; rewrite Ek; intros [= <-] Hu; by apply Hu). f_equal. lia.
      * assert (Ef : filter (fun '(_, d) => md_user d <> "") m !! Z.of_nat k = Some d) by (by apply map_lookup_filter_Some).
        rewrite map_size_delete_Some by done.
        assert (size (filter (fun '(_, d) => md_user d <> "") m) <> 0%nat) by (intros E%map_size_empty_iff; by rewrite E in Ef).
        f_equal; lia.
    + intros s d' [Hne E]%lookup_delete_Some. destruct (Hm _ _ E) as (Hb & ? & ?). cbn in Hb. lia.
    + intros i Hi. rewrite lookup_delete_ne by lia. by apply Hl'.
  - cbn [md_socket no_mixer init_socket Z.eqb Pos.eqb]. apply (IH m (S k)); [|done].
    intros s d E. destruct (Hm _ _ E) as (Hb & ? & ?). cbn in Hb. assert (s <> Z.of_nat k) by congruence. lia.
Qed.
Lemma count_step self m : reg_rep self m ->
  exists r self' m', reg_run self r_count = Some (r, self') /\ mixers_step (reg_sockets self) m r_count r m' /\ reg_rep self' m'.
Proof.
  intros H. cbn [reg_run]. unfold ov_mc_backend_registry_count_mixers.
  rewrite (count_mixers_spec _ m 0 0 0).
  - eexists _, _, _. split; [done|]. split; [rewrite !Z.add_0_l; constructor|done].
  - intros s d E. destruct (rr_mixer _ _ H _ _ E) as [Hr%in_range_spec Es]. unfold reg_sockets in Hr. cbn. lia.
  - apply (rr_slot _ _ H).
Qed.

Lemma with_slot_sockets self i d self' : with_slot self i d = Some self' -> reg_sockets self' = reg_sockets self.
Proof. unfold with_slot. case_match; [|done]. intros [= <-]. unfold reg_sockets. cbn. by rewrite length_insert. Qed.
Lemma run_sockets self op r self' : reg_run self op = Some (r, self') -> reg_sockets self' = reg_sockets self.
Proof.
  intros H. destruct op; cbn [reg_run] in H;
    unfold ov_mc_backend_registry_register_mixer, ov_mc_backend_registry_unregister_mixer,
      ov_mc_backend_registry_acquire_user, ov_mc_backend_registry_release_user in H;
    repeat (simplify_option_eq || case_match); try done; try (by eapply with_slot_sockets);
    unfold reg_sockets; cbn [reg_socket]; by eapply with_slot_sockets.
Qed.

Lemma create_rep n : (0 < n)%nat -> exists self, ov_mc_backend_registry_create n = Some self /\ reg_rep self ∅ /\ reg_sockets self = Z.of_nat n.
Proof.
  intros Hn. unfold ov_mc_backend_registry_create.
  destruct (dict_create_spec (ov_dict_string_key_config 255) ltac:(cbv; lia)) as (users & -> & Hok & Em).
  cbn [mbind option_bind]. eexists. split; [done|]. split; [|unfold reg_sockets; cbn; by rewrite length_replicate].
  split; cbn [reg_users reg_socket].
  - done.
  - by rewrite length_replicate.
  - intros i Hi. rewrite length_replicate in Hi. rewrite lookup_empty. by apply lookup_replicate.
  - intros s d. by rewrite lookup_empty.
  - intros u s. rewrite Em. unfold has_mixer. rewrite lookup_empty. setoid_rewrite lookup_empty. naive_solver.
Qed.

Fixpoint reg_runs (self : ov_mc_backend_registry) (ops : list reg_op) : option (list reg_result * ov_mc_backend_registry) :=
  match ops with
  | [] => Some ([], self)
  | op :: ops => '(r, self) ← reg_run self op; '(rs, self) ← reg_runs self ops; Some (r :: rs, self)
  end.
Lemma registry_step self m op : reg_rep self m -> allowed (reg_sockets self) m op ->
  exists r self' m', reg_run self op = Some (r, self') /\ mixers_step (reg_sockets self) m op r m' /\ reg_rep self' m'.
Proof.
  intros H Ha. destruct op.
  - by apply register_step.
  - by apply unregister_step.
  - by apply acquire_step.
  - by apply release_step.
  - by apply get_user_step.
  - by apply get_socket_step.
  - by apply count_step.
Qed.

(** C38: A new registry of [n] sockets has no mixers, and a registry that
    represents a map [m] from sockets to mixers carries out every call the
    discipline allows: it is defined (no access outside of the array, no failed
    assertion), gives the answer [mixers_step] allows, and represents the map
    [mixers_step] leads to, with as many sockets. Acquiring takes the free mixer
    with the lowest socket, a user is led to his mixer and to no other, and no
    two users have the same. *)
Theorem backend_registry_refines n : (0 < n)%nat ->
  (exists self, ov_mc_backend_registry_create n = Some self /\ reg_rep self ∅ /\ reg_sockets self = Z.of_nat n) /\
  (forall self m op, reg_rep self m -> allowed (reg_sockets self) m op ->
    exists r self' m', reg_run self op = Some (r, self') /\ mixers_step (reg_sockets self) m op r m' /\
      reg_rep self' m' /\ reg_sockets self' = reg_sockets self) /\
  (forall self m s s' d d', reg_rep self m -> m !! s = Some d -> m !! s' = Some d' ->
    md_user d <> "" -> md_user d = md_user d' -> s = s').
Proof.
  intros Hn. split; [by apply create_rep|]. split.
  - intros self m op H Ha. destruct (registry_step self m op H Ha) as (r & self' & m' & E & Hs & H').
    exists r, self', m'. pose proof (run_sockets _ _ _ _ E). done.
  - intros self m s s' d d' H E E' Hu Eu. eapply (one_mixer self m (md_user d)); [done|done|by exists d|by exists d'].
Qed.

Definition mixer_at (s : Z) : ov_mc_mixer_data := {| md_socket := s; md_remote := 7; md_uuid := "mixer"; md_user := "" |}.
Definition two_calls (m : mixers) : Prop :=
  forall self, ov_mc_backend_registry_create 8 = Some self ->
  exists self' self'', reg_run self (r_register (mixer_at 3)) = Some (r_bool true, self') /\
    reg_run self' (r_acquire "alice") = Some (r_data (with_user (mixer_at 3) "alice"), self'') /\ reg_rep self'' m.
Lemma backend_registry_refines_witness : two_calls {[3 := with_user (mixer_at 3) "alice"]}.
Proof.
  intros self E. destruct (backend_registry_refines 8 ltac:(lia)) as ((self0 & E0 & H0 & N0) & Hstep & _).
  rewrite E in E0. injection E0 as <-.
  destruct (Hstep self ∅ (r_register (mixer_at 3)) H0) as (r1 & s1 & m1 & R1 & S1 & H1 & N1).
  { rewrite N0. split; [by vm_compute|]. intros d'. by rewrite lookup_empty. }
  rewrite N0 in S1, N1. inversion S1; subst; [|done]. rewrite insert_empty in *.
  destruct (Hstep s1 _ (r_acquire "alice") H1) as (r2 & s2 & m2 & R2 & S2 & K2 & N2).
  { split; [done|]. split; [unfold OV_ID_LENGTH; cbn; lia|]. intros s d [[<- <-]%lookup_singleton_Some Hu]. done. }
  rewrite N1 in S2. exists s1, s2. split; [done|].
  assert (Hfree : has_mixer {[3 := mixer_at 3]} "" 3 (mixer_at 3)) by (by vm_compute).
  inversion S2 as [| | | |u s d Hd Hmin| u Hno | | | | | | |]; subst.
  - destruct Hd as [[<- <-]%lookup_singleton_Some _]. split; [exact R2|]. by rewrite insert_singleton_eq in K2.
  - by destruct (Hno 3 (mixer_at 3)).
Defined.

(** The mixer of a user loses its connection and comes back, as it may while the
    user is still there: two more users get that mixer. *)
Example mixer_shared :
  (self ← ov_mc_backend_registry_create 4; '(rs, _) ← reg_runs self
    [r_register (mixer_at 1); r_acquire "u"; r_unregister 1; r_register (mixer_at 1); r_acquire "v"; r_release "u";
     r_acquire "w"; r_get_user "v"; r_get_user "w"]; Some rs) =
  Some [r_bool true; r_data (with_user (mixer_at 1) "u"); r_bool true; r_bool true; r_data (with_user (mixer_at 1) "v"); r_bool true;
        r_data (with_user (mixer_at 1) "w"); r_data (with_user (mixer_at 1) "w"); r_data (with_user (mixer_at 1) "w")].
Proof. vm_compute. reflexivity. Qed.
(** A socket that is the number of slots gets past the guards. *)
Example register_past_slots :
  (self ← ov_mc_backend_registry_create 4; reg_run self (r_register (mixer_at 4))) = None.
Proof. vm_compute. reflexivity. Qed.
