(* ===== verification/LinkedList.v ===== *)
(** * The linked list (src/lib/ov_base/src/list/ov_linked_list.c)

    The entities of lists are a heap; the list itself is the address of its
    [head], an entity of the same heap. An access to an address that holds no
    entity is undefined, [None], and so are a failing assertion and a walk
    through the entities that does not end. A pointer is 0 for [NULL]. Entities
    are allocated at a fresh address; whether a released entity goes to the
    cache or to the allocator makes no difference here, because it is cleared.
    Every [ov_list] is a linked list. *)
From S2P Require Import Prelude OvList.

(** ** The code *)

Record ListEntity := { content : Z; next : Z; last : Z }.
Abbreviation heap := (gmap Z ListEntity).

Definition load (h : heap) (p : Z) : option ListEntity := if p =? 0 then None else h !! p.
Definition set_content (h : heap) (p v : Z) : option heap :=
  e ← load h p; Some (<[p := {| content := v; next := next e; last := last e |}]> h).
Definition set_next (h : heap) (p v : Z) : option heap :=
  e ← load h p; Some (<[p := {| content := content e; next := v; last := last e |}]> h).
Definition set_last (h : heap) (p v : Z) : option heap :=
  e ← load h p; Some (<[p := {| content := content e; next := next e; last := v |}]> h).

(** [pointer -> last] is [NULL], if there is a pointer. *)
Definition ASSERT_LIST_INVARIANTS (h : heap) (ll : Z) : option unit :=
  head ← load h ll;
  a ← (if next head =? 0 then Some true else e ← load h (next head); Some (last e =? 0));
  _ ← OV_ASSERT a;
  b ← (if last head =? 0 then Some true else e ← load h (last head); Some (next e =? 0));
  _ ← OV_ASSERT b;
  OV_ASSERT (negb (next head =? 0) && negb (last head =? 0) || (next head =? 0) && (last head =? 0)).

Definition fresh_entity (h : heap) : Z := map_fold (fun k _ acc => Z.max acc (k + 1)) 1 h.
Definition acquire_list_entity (h : heap) : Z * heap :=
  let p := fresh_entity h in (p, <[p := {| content := 0; next := 0; last := 0 |}]> h).
Definition release_list_entity (h : heap) (entity : Z) : option heap :=
  if entity =? 0 then Some h else _ ← load h entity; Some (delete entity h).

Definition ov_linked_list_create (h : heap) : Z * heap :=
  let p := fresh_entity h in (p, <[p := {| content := 0; next := 0; last := 0 |}]> h).

(** A walk visits no entity twice: enough turns. *)
Definition turns (h : heap) : nat := S (size h).

Fixpoint position_loop (fuel : nat) (h : heap) (entity : Z) (counter pos : nat) : option (Z * nat) :=
  match fuel with
  | O => None
  | S fuel =>
      if entity =? 0 then Some (entity, counter) else
      let counter := S counter in
      if (counter =? pos)%nat then Some (entity, counter) else
      e ← load h entity; position_loop fuel h (next e) counter pos
  end.
Definition get_entity_at_position (h : heap) (ll : Z) (pos : nat) : option Z :=
  if (ll =? 0) || (pos =? 0)%nat then Some 0 else
  _ ← ASSERT_LIST_INVARIANTS h ll;
  head ← load h ll;
  '(entity, counter) ← position_loop (turns h) h (next head) O pos;
  if negb (counter =? pos)%nat then _ ← ASSERT_LIST_INVARIANTS h ll; Some 0 else
  _ ← ASSERT_LIST_INVARIANTS h ll;
  Some entity.

Definition impl_linked_list_push (h : heap) (ll item : Z) : option (bool * heap) :=
  if ll =? 0 then Some (false, h) else
  _ ← ASSERT_LIST_INVARIANTS h ll;
  let '(new, h) := acquire_list_entity h in
  h ← set_content h new item;
  head ← load h ll;
  h ← (if next head =? 0 then
         h ← set_next h ll new;
         set_last h ll new
       else
         h ← set_next h (last head) new;
         h ← set_last h new (last head);
         set_last h ll new);
  _ ← ASSERT_LIST_INVARIANTS h ll;
  Some (true, h).

(** [n] steps from [entity], whose successor is [next_]; the result 0 is an
    error. *)
Fixpoint expand_loop (n : nat) (h : heap) (ll entity next_ : Z) : option (Z * heap) :=
  match n with
  | O => Some (entity, h)
  | S n =>
      if next_ =? 0 then
        '(ok, h) ← impl_linked_list_push h ll 0;
        if negb ok then Some (0, h) else
        head ← load h ll;
        expand_loop n h ll (last head) next_
      else
        e ← load h next_;
        expand_loop n h ll next_ (next e)
  end.
Definition expand_list_to_position (h : heap) (ll : Z) (pos : nat) : option (Z * heap) :=
  if ll =? 0 then Some (0, h) else
  if (pos =? 0)%nat then Some (0, h) else
  head ← load h ll;
  expand_loop (pos - 1) h ll ll (next head).

Definition impl_linked_list_is_empty (h : heap) (ll : Z) : option bool :=
  if ll =? 0 then Some false else
  _ ← ASSERT_LIST_INVARIANTS h ll;
  head ← load h ll;
  Some (next head =? 0).

(** [item_free]: whether the list has a function that frees an item; the items
    it was called with are returned. *)
Fixpoint clear_loop (fuel : nat) (h : heap) (item_free : bool) (next_ : Z) (freed : list Z)
    : option (list Z * heap) :=
  match fuel with
  | O => None
  | S fuel =>
      if next_ =? 0 then Some (freed, h) else
      e ← load h next_;
      let freed := if item_free then freed ++ [content e] else freed in
      h ← release_list_entity h next_;
      clear_loop fuel h item_free (next e) freed
  end.
Definition impl_linked_list_clear (h : heap) (item_free : bool) (ll : Z) : option (bool * list Z * heap) :=
  if ll =? 0 then Some (false, [], h) else
  _ ← ASSERT_LIST_INVARIANTS h ll;
  head ← load h ll;
  '(freed, h) ← clear_loop (turns h) h item_free (next head) [];
  h ← set_next h ll 0;
  h ← set_last h ll 0;
  _ ← ASSERT_LIST_INVARIANTS h ll;
  Some (true, freed, h).
(** The result is the list when it could not be freed. *)
Definition impl_linked_list_free (h : heap) (item_free : bool) (ll : Z) : option (Z * list Z * heap) :=
  if ll =? 0 then Some (ll, [], h) else
  _ ← ASSERT_LIST_INVARIANTS h ll;
  '(ok, freed, h) ← impl_linked_list_clear h item_free ll;
  if negb ok then Some (ll, freed, h) else
  h ← release_list_entity h ll;
  Some (0, freed, h).

Fixpoint get_pos_loop (fuel : nat) (h : heap) (next_ item : Z) (count : nat) : option nat :=
  match fuel with
  | O => None
  | S fuel =>
      if next_ =? 0 then Some O else
      e ← load h next_;
      if content e =? item then Some count else get_pos_loop fuel h (next e) item (S count)
  end.
Definition impl_linked_list_get_pos (h : heap) (ll item : Z) : option nat :=
  if ll =? 0 then Some O else
  _ ← ASSERT_LIST_INVARIANTS h ll;
  if item =? 0 then Some O else
  head ← load h ll;
  get_pos_loop (turns h) h (next head) item 1.

Definition impl_linked_list_get (h : heap) (ll : Z) (pos : nat) : option Z :=
  entity ← get_entity_at_position h ll pos;
  if entity =? 0 then Some 0 else
  e ← load h entity; Some (content e).

(** With the item that [old] is set to, if it is set. *)
Definition impl_linked_list_set (h : heap) (ll : Z) (pos : nat) (item : Z) : option (bool * option Z * heap) :=
  if ll =? 0 then Some (false, None, h) else
  if (pos =? 0)%nat then _ ← ASSERT_LIST_INVARIANTS h ll; Some (false, None, h) else
  _ ← ASSERT_LIST_INVARIANTS h ll;
  '(entity, h) ← expand_list_to_position h ll pos;
  if entity =? 0 then _ ← ASSERT_LIST_INVARIANTS h ll; Some (false, None, h) else
  e ← load h entity;
  if next e =? 0 then '(ok, h) ← impl_linked_list_push h ll item; Some (ok, None, h) else
  n ← load h (next e);
  h ← set_content h (next e) item;
  _ ← ASSERT_LIST_INVARIANTS h ll;
  Some (true, Some (content n), h).

(** A new entity behind [entity]. *)
Definition insert_behind (h : heap) (ll entity item : Z) : option heap :=
  let '(new, h) := acquire_list_entity h in
  e ← load h entity;
  h ← set_last h new entity;
  h ← set_next h new (next e);
  h ← set_content h new item;
  h ← (if next e =? 0 then Some h else set_last h (next e) new);
  h ← set_next h entity new;
  head ← load h ll;
  h ← (if entity =? last head then set_last h ll new else Some h);
  h ← (if entity =? ll then set_last h new 0 else Some h);
  head ← load h ll;
  if 0 =? last head then set_last h ll new else Some h.
Definition impl_linked_list_insert (h : heap) (ll : Z) (pos : nat) (item : Z) : option (bool * heap) :=
  if (ll =? 0) || (pos =? 0)%nat then Some (false, h) else
  _ ← ASSERT_LIST_INVARIANTS h ll;
  '(entity, h) ← expand_list_to_position h ll pos;
  if entity =? 0 then _ ← ASSERT_LIST_INVARIANTS h ll; Some (false, h) else
  h ← insert_behind h ll entity item;
  _ ← ASSERT_LIST_INVARIANTS h ll;
  Some (true, h).

(** [entity] is taken out of the list and released. *)
Definition plug_out (h : heap) (ll entity : Z) : option heap :=
  e ← load h entity;
  head ← load h ll;
  h ← (if next head =? entity then set_next h ll (next e) else Some h);
  h ← (if last head =? entity then set_last h ll (last e) else Some h);
  h ← (if last e =? 0 then Some h else set_next h (last e) (next e));
  h ← (if next e =? 0 then Some h else set_last h (next e) (last e));
  release_list_entity h entity.
Definition impl_linked_list_remove (h : heap) (ll : Z) (pos : nat) : option (Z * heap) :=
  if ll =? 0 then Some (0, h) else
  _ ← ASSERT_LIST_INVARIANTS h ll;
  entity ← get_entity_at_position h ll pos;
  if entity =? 0 then _ ← ASSERT_LIST_INVARIANTS h ll; Some (0, h) else
  e ← load h entity;
  h ← plug_out h ll entity;
  _ ← ASSERT_LIST_INVARIANTS h ll;
  Some (content e, h).

Definition drop_last (h : heap) (ll last_ : Z) : option heap :=
  e ← load h last_;
  h ← set_last h ll (last e);
  if negb (last e =? 0) then
    h ← set_next h (last e) 0;
    release_list_entity h last_
  else
    h ← release_list_entity h last_;
    h ← set_last h ll 0;
    set_next h ll 0.
Definition impl_linked_list_pop (h : heap) (ll : Z) : option (Z * heap) :=
  if ll =? 0 then Some (0, h) else
  _ ← ASSERT_LIST_INVARIANTS h ll;
  head ← load h ll;
  let last_ := last head in
  if last_ =? 0 then _ ← ASSERT_LIST_INVARIANTS h ll; Some (0, h) else
  e ← load h last_;
  h ← drop_last h ll last_;
  _ ← ASSERT_LIST_INVARIANTS h ll;
  Some (content e, h).

Fixpoint count_loop (fuel : nat) (h : heap) (next_ : Z) (count : nat) : option nat :=
  match fuel with
  | O => None
  | S fuel => if next_ =? 0 then Some count else e ← load h next_; count_loop fuel h (next e) (S count)
  end.
Definition impl_linked_list_count (h : heap) (ll : Z) : option nat :=
  if ll =? 0 then Some O else
  _ ← ASSERT_LIST_INVARIANTS h ll;
  head ← load h ll;
  count ← count_loop (turns h) h (next head) O;
  _ ← ASSERT_LIST_INVARIANTS h ll;
  Some count.

Fixpoint for_each_loop {S} (fuel : nat) (h : heap) (next_ : Z) (function : Z -> S -> bool * S) (data : S)
    : option (bool * S) :=
  match fuel with
  | O => None
  | Datatypes.S fuel =>
      if next_ =? 0 then Some (true, data) else
      e ← load h next_;
      let '(ok, data) := function (content e) data in
      if negb ok then Some (false, data) else for_each_loop fuel h (next e) function data
  end.
(** [function] is [None] for a null pointer; the callback leaves lists alone. *)
Definition impl_linked_list_for_each {S} (h : heap) (ll : Z) (function : option (Z -> S -> bool * S)) (data : S)
    : option (bool * S) :=
  if ll =? 0 then Some (false, data) else
  _ ← ASSERT_LIST_INVARIANTS h ll;
  match function with
  | None => _ ← ASSERT_LIST_INVARIANTS h ll; Some (false, data)
  | Some function =>
      head ← load h ll;
      '(ok, data) ← for_each_loop (turns h) h (next head) function data;
      _ ← ASSERT_LIST_INVARIANTS h ll;
      Some (ok, data)
  end.

Definition impl_linked_list_iter (h : heap) (ll : Z) : option Z :=
  if ll =? 0 then Some 0 else
  _ ← ASSERT_LIST_INVARIANTS h ll;
  head ← load h ll; Some (next head).
(** The next iterator, and the item [element] is set to, if it is set. *)
Definition impl_linked_list_next (h : heap) (ll iter : Z) : option (Z * option Z) :=
  if ll =? 0 then Some (0, None) else
  _ ← ASSERT_LIST_INVARIANTS h ll;
  if iter =? 0 then _ ← ASSERT_LIST_INVARIANTS h ll; Some (0, Some 0) else
  e ← load h iter;
  _ ← ASSERT_LIST_INVARIANTS h ll;
  Some (next e, Some (content e)).
