(* ===== verification/LinkedListRep.v ===== *)
(** * Linked lists: what a heap of entities represents

    [rep h ll ps xs]: the list at [ll] has the items [xs] in the entities [ps].
    The segment lemmas, and one lemma per operation: it returns what the
    contract of [OvList.v] says, the list then represents what the contract
    says, and no other entity changes. *)
From S2P Require Import Prelude OvList LinkedList.

(** ** Doubly linked segments *)

Abbreviation first := (List.hd).
Definition final (ps : list Z) (d : Z) : Z := List.last ps d.

Fixpoint dseg (h : heap) (prev : Z) (ps xs : list Z) (nxt : Z) : Prop :=
  match ps, xs with
  | [], [] => True
  | p :: ps, x :: xs =>
      p <> 0 /\ h !! p = Some {| content := x; next := first nxt ps; last := prev |} /\ dseg h p ps xs nxt
  | _, _ => False
  end.
Record rep (h : heap) (ll : Z) (ps xs : list Z) : Prop := {
  rep_address : ll <> 0;
  rep_NoDup : NoDup (ll :: ps);
  rep_head : h !! ll = Some {| content := 0; next := first 0 ps; last := final ps 0 |};
  rep_dseg : dseg h 0 ps xs 0
}.

Lemma final_cons p ps d : final (p :: ps) d = final ps p.
Proof.
  revert p d. induction ps as [|q ps IH]; intros p d; [done|]. change (final (q :: ps) d = final (q :: ps) p).
  by rewrite !IH.
Qed.
Lemma final_snoc ps p d : final (ps ++ [p]) d = p.
Proof. apply List.last_last. Qed.
Lemma final_app ps qs d : final (ps ++ qs) d = final qs (final ps d).
Proof.
  revert d. induction ps as [|p ps IH]; intros d; [done|]. cbn [app]. by rewrite !final_cons, IH.
Qed.
Lemma final_in ps d : ps <> [] -> final ps d ∈ ps.
Proof.
  destruct ps as [|p ps] using rev_ind; [done|]. intros _. rewrite final_snoc. set_solver.
Qed.
Lemma final_nonempty ps d d' : ps <> [] -> final ps d = final ps d'.
Proof. destruct ps as [|p ps]; [done|]. by rewrite !final_cons. Qed.

Lemma dseg_length h prev ps xs nxt : dseg h prev ps xs nxt -> length ps = length xs.
Proof.
  revert prev xs. induction ps as [|p ps IH]; intros prev [|x xs]; try done.
  intros (_ & _ & H). cbn. by rewrite (IH _ _ H).
Qed.
Lemma dseg_app h prev ps1 ps2 xs1 xs2 nxt : length ps1 = length xs1 ->
  dseg h prev (ps1 ++ ps2) (xs1 ++ xs2) nxt <->
  dseg h prev ps1 xs1 (first nxt ps2) /\ dseg h (final ps1 prev) ps2 xs2 nxt.
Proof.
  revert prev xs1. induction ps1 as [|p ps1 IH]; intros prev [|x xs1] Hl; try done; [cbn; tauto|].
  cbn [app dseg]. rewrite IH by (cbn in Hl; lia). rewrite final_cons.
  assert (first nxt (ps1 ++ ps2) = first (first nxt ps2) ps1) as -> by by destruct ps1. tauto.
Qed.
Lemma dseg_nonzero h prev ps xs nxt p : dseg h prev ps xs nxt -> p ∈ ps -> p <> 0 /\ is_Some (h !! p).
Proof.
  revert prev xs. induction ps as [|q ps IH]; intros prev [|x xs]; try done.
  - intros _ Hp. set_solver.
  - intros (Hq & Hh & H) [->|Hp]%elem_of_cons; [by rewrite Hh|by eapply IH].
Qed.
(** A segment depends on its entities only. *)
Lemma dseg_same h h' prev ps xs nxt : (forall p, p ∈ ps -> h' !! p = h !! p) ->
  dseg h prev ps xs nxt -> dseg h' prev ps xs nxt.
Proof.
  revert prev xs. induction ps as [|q ps IH]; intros prev [|x xs] Hs; try done.
  intros (Hq & Hh & H). split; [done|]. split; [rewrite Hs; [done|set_solver]|].
  apply IH; [|done]. intros p Hp. apply Hs. set_solver.
Qed.
Lemma dseg_insert h a e prev ps xs nxt : a ∉ ps -> dseg h prev ps xs nxt -> dseg (<[a:=e]> h) prev ps xs nxt.
Proof. intros Ha. apply dseg_same. intros p Hp. apply lookup_insert_ne. by intros ->. Qed.
Lemma dseg_delete h a prev ps xs nxt : a ∉ ps -> dseg h prev ps xs nxt -> dseg (delete a h) prev ps xs nxt.
Proof. intros Ha. apply dseg_same. intros p Hp. apply lookup_delete_ne. by intros ->. Qed.
(** The first and the last entity of a segment. *)
Lemma dseg_set_last h prev prev' p ps x xs nxt : NoDup (p :: ps) -> dseg h prev (p :: ps) (x :: xs) nxt ->
  dseg (<[p := {| content := x; next := first nxt ps; last := prev' |}]> h) prev' (p :: ps) (x :: xs) nxt.
Proof.
  intros [Hp _]%NoDup_cons (H0 & _ & H). split; [done|]. split; [apply lookup_insert_eq|]. by apply dseg_insert.
Qed.
Lemma dseg_final h prev ps xs q x nxt : length ps = length xs -> dseg h prev (ps ++ [q]) (xs ++ [x]) nxt ->
  q <> 0 /\ h !! q = Some {| content := x; next := nxt; last := final ps prev |}.
Proof. intros Hl [_ (? & ? & _)]%dseg_app; done. Qed.
Lemma dseg_set_next h prev ps xs q x nxt nxt' : length ps = length xs -> NoDup (ps ++ [q]) ->
  dseg h prev (ps ++ [q]) (xs ++ [x]) nxt ->
  dseg (<[q := {| content := x; next := nxt'; last := final ps prev |}]> h) prev (ps ++ [q]) (xs ++ [x]) nxt'.
Proof.
  intros Hl Hn [H1 (H0 & _ & _)]%dseg_app; [|done]. apply NoDup_app in Hn as (_ & Hq & _). apply dseg_app; [done|].
  split; [apply dseg_insert; [|done]; intros Hx; by apply (Hq q Hx), list_elem_of_singleton|].
  split; [done|]. by rewrite lookup_insert_eq.
Qed.

(** ** The invariants and the walks *)

Lemma load_Some h p e : p <> 0 -> h !! p = Some e -> load h p = Some e.
Proof. intros Hp He. unfold load. by destruct (Z.eqb_spec p 0). Qed.
Lemma rep_load h ll ps xs : rep h ll ps xs -> load h ll = Some {| content := 0; next := first 0 ps; last := final ps 0 |}.
Proof. intros []. by apply load_Some. Qed.
Lemma rep_length h ll ps xs : rep h ll ps xs -> length ps = length xs.
Proof. intros []. by eapply dseg_length. Qed.
Lemma rep_assert h ll ps xs : rep h ll ps xs -> ASSERT_LIST_INVARIANTS h ll = Some tt.
Proof.
  intros Hr. unfold ASSERT_LIST_INVARIANTS. rewrite (rep_load _ _ _ _ Hr). cbn [mbind option_bind next last].
  pose proof (rep_length _ _ _ _ Hr) as Hl. destruct Hr as [_ _ _ Hd].
  destruct ps as [|p ps]; [done|]. destruct xs as [|x xs]; [done|]. pose proof Hd as (Hp & Hh & _).
  cbn [first]. rewrite (load_Some _ _ _ Hp Hh). destruct (Z.eqb_spec p 0); [done|].
  cbn [mbind option_bind last Z.eqb OV_ASSERT negb andb orb].
  destruct (exists_last (l := p :: ps)) as (qs & q & Eq); [done|]. rewrite Eq in Hd |- *.
  destruct (exists_last (l := x :: xs)) as (ys & y & Ey); [done|]. rewrite Ey in Hd. rewrite final_snoc.
  apply dseg_final in Hd as [Hq Hy].
  - rewrite (load_Some _ _ _ Hq Hy). by destruct (Z.eqb_spec q 0).
  - apply (f_equal length) in Eq, Ey. rewrite length_app in Eq, Ey. cbn in *. lia.
Qed.
Lemma size_le (h : heap) ps : NoDup ps -> (forall p, p ∈ ps -> is_Some (h !! p)) -> (length ps <= size h)%nat.
Proof.
  intros Hn Hh. rewrite <- size_dom, <- (size_list_to_set (C := gset Z)) by done.
  apply subseteq_size. intros p Hp. apply elem_of_dom, Hh. by apply elem_of_list_to_set in Hp.
Qed.
Lemma rep_turns h ll ps xs : rep h ll ps xs -> (length ps < turns h)%nat.
Proof.
  intros [_ [_ Hn]%NoDup_cons _ Hd]. unfold turns. pose proof (size_le h ps Hn) as H.
  enough (length ps <= size h)%nat by lia. apply H. intros p Hp. by apply (dseg_nonzero _ _ _ _ _ _ Hd).
Qed.

Lemma count_loop_spec h prev ps xs fuel n : dseg h prev ps xs 0 -> (length ps < fuel)%nat ->
  count_loop fuel h (first 0 ps) n = Some (n + length xs)%nat.
Proof.
  revert prev xs fuel n. induction ps as [|p ps IH]; intros prev [|x xs] [|fuel] n; try done; cbn [length]; try lia.
  - intros _ _. cbn. by rewrite Nat.add_0_r.
  - intros (Hp & Hh & Hd) Hf. cbn [count_loop first]. destruct (Z.eqb_spec p 0); [done|].
    rewrite (load_Some _ _ _ Hp Hh). cbn [mbind option_bind next]. rewrite (IH p xs) by (done || lia). f_equal. lia.
Qed.
Lemma get_pos_loop_spec h prev ps xs fuel item n : dseg h prev ps xs 0 -> (length ps < fuel)%nat ->
  get_pos_loop fuel h (first 0 ps) item n = Some (find_pos xs item n).
Proof.
  revert prev xs fuel n. induction ps as [|p ps IH]; intros prev [|x xs] [|fuel] n; try done; cbn [length]; try lia.
  intros (Hp & Hh & Hd) Hf. cbn [get_pos_loop first]. destruct (Z.eqb_spec p 0); [done|].
  rewrite (load_Some _ _ _ Hp Hh). cbn [mbind option_bind next content find_pos].
  destruct (x =? item); [done|]. rewrite (IH p xs) by (done || lia). done.
Qed.
Lemma for_each_loop_spec {S} h prev ps xs fuel (f : Z -> S -> bool * S) s :
  dseg h prev ps xs 0 -> (length ps < fuel)%nat ->
  for_each_loop fuel h (first 0 ps) f s = Some (list_for_each xs f s).
Proof.
  revert prev xs fuel s. induction ps as [|p ps IH]; intros prev [|x xs] [|fuel] s; try done; cbn [length]; try lia.
  intros (Hp & Hh & Hd) Hf. cbn [for_each_loop first]. destruct (Z.eqb_spec p 0); [done|].
  rewrite (load_Some _ _ _ Hp Hh). cbn [mbind option_bind next content list_for_each].
  destruct (f x s) as [[] s']; [|done]. cbn [negb]. by rewrite (IH p xs) by (done || lia).
Qed.
(** The walk to the entity at a position. *)
Lemma position_loop_spec h prev ps xs fuel c pos : dseg h prev ps xs 0 -> (length ps < fuel)%nat -> (c < pos)%nat ->
  exists e c', position_loop fuel h (first 0 ps) c pos = Some (e, c') /\
    match ps !! (pos - c - 1)%nat with Some p => e = p /\ c' = pos | None => c' <> pos end.
Proof.
  revert prev xs fuel c. induction ps as [|p ps IH]; intros prev [|x xs] [|fuel] c; try done; cbn [length]; try lia.
  - intros _ _ Hc. cbn. exists 0, c. split; [done|]. rewrite lookup_nil. lia.
  - intros (Hp & Hh & Hd) Hf Hc. cbn [position_loop first]. destruct (Z.eqb_spec p 0); [done|].
    destruct (Nat.eqb_spec (S c) pos) as [<-|Hne].
    + exists p, (S c). split; [done|]. by replace (S c - c - 1)%nat with O by lia.
    + rewrite (load_Some _ _ _ Hp Hh). cbn [mbind option_bind next].
      destruct (IH p xs fuel (S c) Hd ltac:(lia) ltac:(lia)) as (e & c' & E & H). exists e, c'. split; [done|].
      by replace (pos - c - 1)%nat with (S (pos - S c - 1)) by lia.
Qed.

Lemma rep_in h ll ps xs a : rep h ll ps xs -> a ∈ ps -> is_Some (h !! a).
Proof. intros [_ _ _ Hd] Ha. by apply (dseg_nonzero _ _ _ _ _ _ Hd). Qed.
Lemma rep_out h ll ps xs : rep h ll ps xs -> ll ∉ ps.
Proof. by intros [_ [? _]%NoDup_cons _ _]. Qed.

(** ** What an operation may change *)

Record changed (h h' : heap) (ll : Z) (ps ps' : list Z) : Prop := {
  changed_out : forall a, a ∉ ll :: ps -> a ∉ ps' -> h' !! a = h !! a;
  changed_new : forall a, a ∈ ps' -> a ∈ ps \/ h !! a = None;
  changed_gone : forall a, a ∈ ps -> a ∈ ps' \/ h' !! a = None
}.
Lemma changed_refl h ll ps : changed h h ll ps ps.
Proof. split; auto. Qed.
Lemma changed_trans h1 h2 h3 ll ps1 ps2 ps3 :
  (forall a, a ∈ ps1 -> is_Some (h1 !! a)) -> (forall a, a ∈ ps2 -> is_Some (h2 !! a)) -> is_Some (h1 !! ll) ->
  ll ∉ ps2 -> ll ∉ ps3 ->
  (forall a, a ∈ ps1 -> a ∈ ps2) ->
  changed h1 h2 ll ps1 ps2 -> changed h2 h3 ll ps2 ps3 -> changed h1 h3 ll ps1 ps3.
Proof.
  intros D1 D2 Hll L2 L3 Hsub [O1 N1 G1] [O2 N2 G2]. split.
  - intros a Ha Ha3. destruct (decide (a ∈ ps2)) as [H2|H2].
    + destruct (N1 a H2) as [|Hn]; [set_solver|]. destruct (G2 a H2) as [|H3]; [done|congruence].
    + rewrite O2 by set_solver. by apply O1.
  - intros a Ha. destruct (N2 a Ha) as [H2|H2]; [by apply N1|].
    destruct (decide (a ∈ ps1)); [by left|]. destruct (decide (a = ll)) as [->|]; [done|].
    right. rewrite <- O1; [done|set_solver|]. intros H3. apply D2 in H3 as [? ?]. congruence.
  - intros a Ha. by apply G2, Hsub.
Qed.
Lemma grow_trans h h1 h2 ll ps qs ps2 xs xs1 xs2 :
  rep h ll ps xs -> rep h1 ll (ps ++ qs) xs1 -> rep h2 ll ps2 xs2 ->
  changed h h1 ll ps (ps ++ qs) -> changed h1 h2 ll (ps ++ qs) ps2 -> changed h h2 ll ps ps2.
Proof.
  intros Hr Hr1 Hr2. apply changed_trans.
  - intros a. by apply (rep_in _ _ _ _ _ Hr).
  - intros a. by apply (rep_in _ _ _ _ _ Hr1).
  - destruct Hr as [_ _ -> _]. by eexists.
  - by eapply rep_out.
  - by eapply rep_out.
  - intros a Ha. apply elem_of_app. by left.
Qed.
(** Another list, in other entities, is not affected. *)
Lemma changed_other h h' ll ps ps' l2 ps2 xs2 : changed h h' ll ps ps' -> rep h l2 ps2 xs2 ->
  (forall a, a ∈ l2 :: ps2 -> a ∉ ll :: ps) ->
  rep h' l2 ps2 xs2 /\ forall a, a ∈ l2 :: ps2 -> a ∉ ps'.
Proof.
  intros [O N _] [Ha Hn Hh Hd] Hs.
  assert (Hs' : forall a, a ∈ l2 :: ps2 -> a ∉ ps').
  { intros a Hin H'. destruct (N a H') as [H|H]; [specialize (Hs a Hin); set_solver|].
    apply elem_of_cons in Hin as [->|Hin]; [congruence|]. apply (dseg_nonzero _ _ _ _ _ _ Hd) in Hin as [_ [? ?]]. congruence. }
  split; [|done]. split; [done|done| |].
  - rewrite O; [done|apply Hs; set_solver|apply Hs'; set_solver].
  - eapply dseg_same, Hd. intros p Hp. apply O; [apply Hs; set_solver|apply Hs'; set_solver].
Qed.

Lemma fresh_entity_spec (h : heap) : 1 <= fresh_entity h /\ forall k, is_Some (h !! k) -> k < fresh_entity h.
Proof.
  unfold fresh_entity. apply (map_fold_weak_ind (fun acc m => 1 <= acc /\ forall k, is_Some (m !! k) -> k < acc)).
  - split; [lia|]. intros k [x Hx]. by rewrite lookup_empty in Hx.
  - intros i x m' acc _ [H1 H2]. split; [lia|]. intros k [y Hy].
    destruct (decide (k = i)) as [->|]; [lia|]. rewrite lookup_insert_ne in Hy by done.
    specialize (H2 k (mk_is_Some _ _ Hy)). lia.
Qed.
(** A fresh entity belongs to no list. *)
Lemma fresh_entity_out h ll ps xs : rep h ll ps xs ->
  let a := fresh_entity h in a <> 0 /\ h !! a = None /\ a <> ll /\ a ∉ ps.
Proof.
  intros [Hl Hn Hh Hd] a. pose proof (fresh_entity_spec h) as [H1 H2]. fold a in H1, H2.
  assert (Hnone : h !! a = None).
  { apply eq_None_not_Some. intros H. apply H2 in H. lia. }
  split; [lia|]. split; [done|]. split; [intros E; rewrite E in Hnone; congruence|].
  intros Hin. apply (dseg_nonzero _ _ _ _ _ _ Hd) in Hin as [_ [? ?]]. congruence.
Qed.

(** [mset]: the next access, of an address whose entity the context or the
    heap's expression shows. *)
Lemma set_content_Some h p v e : p <> 0 -> h !! p = Some e ->
  set_content h p v = Some (<[p := {| content := v; next := next e; last := last e |}]> h).
Proof. intros. unfold set_content. by rewrite (load_Some h p e). Qed.
Lemma set_next_Some h p v e : p <> 0 -> h !! p = Some e ->
  set_next h p v = Some (<[p := {| content := content e; next := v; last := last e |}]> h).
Proof. intros. unfold set_next. by rewrite (load_Some h p e). Qed.
Lemma set_last_Some h p v e : p <> 0 -> h !! p = Some e ->
  set_last h p v = Some (<[p := {| content := content e; next := next e; last := v |}]> h).
Proof. intros. unfold set_last. by rewrite (load_Some h p e). Qed.
Ltac skip_others :=
  repeat first [ rewrite lookup_insert_ne by congruence | rewrite lookup_delete_ne by congruence ].
Ltac hlook := skip_others; first [apply lookup_insert_eq | eassumption].
Ltac hstep :=
  match goal with
  | |- context [set_content ?h ?p ?v] => erewrite (set_content_Some h p v) by (done || hlook)
  | |- context [set_next ?h ?p ?v] => erewrite (set_next_Some h p v) by (done || hlook)
  | |- context [set_last ?h ?p ?v] => erewrite (set_last_Some h p v) by (done || hlook)
  | |- context [load ?h ?p] => erewrite (load_Some h p) by (done || hlook)
  end; cbn [mbind option_bind content next last].

Lemma push_spec h ll ps xs item : rep h ll ps xs ->
  exists h', impl_linked_list_push h ll item = Some (true, h') /\
    rep h' ll (ps ++ [fresh_entity h]) (list_push xs item) /\ changed h h' ll ps (ps ++ [fresh_entity h]).
Proof.
  intros Hr. pose proof (rep_assert _ _ _ _ Hr) as HA. pose proof (rep_length _ _ _ _ Hr) as Hl.
  pose proof (fresh_entity_out _ _ _ _ Hr) as (Ha0 & Ha & Hal & Hap). pose proof Hr as [Hll Hn Hh Hd].
  unfold impl_linked_list_push, list_push. destruct (Z.eqb_spec ll 0); [done|]. rewrite HA. clear HA.
  cbn [mbind option_bind]. unfold acquire_list_entity. set (a := fresh_entity h) in *.
  repeat hstep. apply NoDup_cons in Hn as [Hnl Hn].
  assert (Hn' : NoDup (ll :: ps ++ [a])).
  { apply NoDup_cons. split; [set_solver|]. apply NoDup_app. split; [done|]. split; [set_solver|apply NoDup_singleton]. }
  destruct ps as [|q ps _] using rev_ind; [destruct xs; [|done]|].
  - cbn [first Z.eqb]. repeat hstep.
    cbn [mbind option_bind].
    match goal with |- context [ASSERT_LIST_INVARIANTS ?h' ll] => assert (Hr' : rep h' ll [a] [item]) end.
    { split; [done|done|hlook|]. split; [done|]. split; [|done]. hlook. }
    rewrite (rep_assert _ _ _ _ Hr'). eexists. split; [done|]. split; [done|].
    split; [|set_solver|set_solver]. intros b Hb1 Hb2. rewrite !lookup_insert_ne by set_solver. done.
  - destruct xs as [|x xs _] using rev_ind; [rewrite length_app in Hl; cbn in Hl; lia|].
    rewrite !length_app in Hl. cbn in Hl. assert (Hlx : length ps = length xs) by lia.
    pose proof (dseg_final _ _ _ _ _ _ _ Hlx Hd) as [Hq Hqe].
    assert (Hfn : first 0 (ps ++ [q]) =? 0 = false).
    { destruct ps as [|p ps]; cbn [app first]; [by apply Z.eqb_neq|].
      apply Z.eqb_neq. eapply dseg_nonzero; [exact Hd|set_solver]. }
    rewrite Hfn, final_snoc. assert (q <> a /\ q <> ll) as [? ?] by set_solver.
    repeat hstep. cbn [mbind option_bind].
    match goal with |- context [ASSERT_LIST_INVARIANTS ?h' ll] =>
      assert (Hr' : rep h' ll ((ps ++ [q]) ++ [a]) ((xs ++ [x]) ++ [item])) end.
    { split; [done|done| |].
      - rewrite final_snoc. rewrite lookup_insert_eq. f_equal. f_equal. by destruct ps.
      - apply dseg_app; [rewrite !length_app; cbn; lia|]. split.
        + do 2 (apply dseg_insert; [set_solver|]). eapply dseg_set_next; [lia|done|].
          do 2 (apply dseg_insert; [done|]). done.
        + split; [done|]. split; [|done]. rewrite final_snoc. hlook. }
    rewrite (rep_assert _ _ _ _ Hr'). eexists. split; [done|]. split; [done|].
    split; [|set_solver|set_solver]. intros b Hb1 Hb2. rewrite !lookup_insert_ne by set_solver. done.
Qed.

Lemma dseg_lookup h prev ps xs nxt i p : dseg h prev ps xs nxt -> ps !! i = Some p ->
  exists x, xs !! i = Some x /\ p <> 0 /\
    h !! p = Some {| content := x; next := first nxt (drop (S i) ps); last := final (take i ps) prev |}.
Proof.
  intros Hd Hp. pose proof (dseg_length _ _ _ _ _ Hd) as Hl. pose proof (lookup_lt_Some _ _ _ Hp) as Hi.
  destruct (xs !! i) as [x|] eqn:Hx; [|apply lookup_ge_None in Hx; lia].
  exists x. split; [done|]. rewrite <- (take_drop_middle _ _ _ Hp) in Hd. rewrite <- (take_drop_middle _ _ _ Hx) in Hd.
  apply dseg_app in Hd as [_ (H0 & Hh & _)]; [done|]. rewrite !length_take. lia.
Qed.
Lemma final_take_S ps i p d : ps !! i = Some p -> final (take (S i) ps) d = p.
Proof. intros Hp. by rewrite (take_S_r _ _ _ Hp), final_snoc. Qed.
Lemma pad_to_push i n xs : i = length xs -> pad_to (i + S n) xs = pad_to (S i + n) (xs ++ [0]).
Proof.
  intros ->. unfold pad_to. rewrite length_app. cbn [length].
  replace (length xs + S n - length xs)%nat with (S n) by lia.
  replace (S (length xs) + n - (length xs + 1))%nat with n by lia. by rewrite <- app_assoc.
Qed.

Lemma list_expand_loop_spec n h ll ps xs i : rep h ll ps xs -> (i <= length ps)%nat ->
  exists qs h', expand_loop n h ll (final (take i ps) ll) (first 0 (drop i ps)) =
      Some (final (take (i + n) (ps ++ qs)) ll, h') /\
    rep h' ll (ps ++ qs) (pad_to (i + n) xs) /\ changed h h' ll ps (ps ++ qs) /\
    (i + n <= length (ps ++ qs))%nat.
Proof.
  revert h ps xs i. induction n as [|n IH]; intros h ps xs i Hr Hi; cbn [expand_loop].
  - exists [], h. rewrite Nat.add_0_r, app_nil_r, pad_to_le by (rewrite <- (rep_length _ _ _ _ Hr); done).
    split; [done|]. split; [done|]. by split; [apply changed_refl|].
  - pose proof (rep_length _ _ _ _ Hr) as Hl. destruct (ps !! i) as [p|] eqn:Hp.
    + pose proof Hr as [_ _ _ Hd]. destruct (dseg_lookup _ _ _ _ _ _ _ Hd Hp) as (x & _ & Hp0 & Hph).
      rewrite (drop_S _ _ _ Hp). cbn [first]. destruct (Z.eqb_spec p 0); [done|].
      rewrite (load_Some _ _ _ Hp0 Hph). cbn [mbind option_bind next].
      apply lookup_lt_Some in Hp as Hlt. destruct (IH h ps xs (S i) Hr ltac:(lia)) as (qs & h' & E & H).
      rewrite (final_take_S _ _ _ _ Hp) in E. exists qs, h'. rewrite <- Nat.add_succ_comm in *. by rewrite E.
    + apply lookup_ge_None in Hp as Hge. rewrite drop_ge by done. cbn [first Z.eqb].
      destruct (push_spec h ll ps xs 0 Hr) as (h1 & -> & Hr1 & Hc1). cbn [mbind option_bind negb].
      rewrite (rep_load _ _ _ _ Hr1). cbn [mbind option_bind last]. set (a := fresh_entity h) in *.
      destruct (IH h1 (ps ++ [a]) (list_push xs 0) (S i) Hr1) as (qs & h' & E & Hr' & Hc & Hle);
        [rewrite length_app; cbn; lia|].
      rewrite drop_ge, take_ge in E by (rewrite length_app; cbn; lia). rewrite !final_snoc in *. cbn [first] in E.
      exists (a :: qs), h'. rewrite <- app_assoc in *. cbn [app] in *. rewrite E.
      rewrite pad_to_push by lia. rewrite <- Nat.add_succ_comm. split; [done|]. split; [done|]. split; [|done].
      by eapply (grow_trans h h1).
Qed.
Lemma expand_spec h ll ps xs pos : rep h ll ps xs -> pos <> O ->
  exists qs h', expand_list_to_position h ll pos = Some (final (take (pos - 1) (ps ++ qs)) ll, h') /\
    rep h' ll (ps ++ qs) (pad_to (pos - 1) xs) /\ changed h h' ll ps (ps ++ qs) /\
    (pos - 1 <= length (ps ++ qs))%nat.
Proof.
  intros Hr Hpos. unfold expand_list_to_position. pose proof Hr as [Hll _ _ _].
  destruct (Z.eqb_spec ll 0); [done|]. destruct (Nat.eqb_spec pos 0); [done|].
  rewrite (rep_load _ _ _ _ Hr). cbn [mbind option_bind next].
  apply (list_expand_loop_spec (pos - 1) h ll ps xs 0 Hr). lia.
Qed.
