(* ===== verification/LinkedListOps.v ===== *)
(** * Linked lists: inserting and taking out entities

    Both change the [next] of the entity before the place and the [last] of the
    one behind it; the list's head takes both parts where there is none. *)
From S2P Require Import Prelude OvList LinkedList LinkedListRep.

(** ** Two links are redirected *)

(** [e], the entity at [b], after the [next] of [p] and the [last] of [s] were
    set. *)
Definition relink (p nxt s prv b : Z) (e : ListEntity) : ListEntity :=
  {| content := content e; next := if decide (b = p) then nxt else next e;
     last := if decide (b = s) then prv else last e |}.
Lemma relink_other p nxt s prv b e : b <> p -> b <> s -> relink p nxt s prv b e = e.
Proof. intros. unfold relink. rewrite !decide_False by done. by destruct e. Qed.

Lemma dseg_relink_end h h' prev ps xs n ll n' s prv : dseg h prev ps xs n -> NoDup ps -> s ∉ ps ->
  (forall b, b ∈ ps -> h' !! b = relink (final ps ll) n' s prv b <$> h !! b) ->
  dseg h' prev ps xs n'.
Proof.
  intros Hd Hn Hs Hb. destruct ps as [|q ps _] using rev_ind; [by destruct xs|].
  pose proof (dseg_length _ _ _ _ _ Hd) as Hl. destruct xs as [|x xs _] using rev_ind.
  { rewrite length_app in Hl. cbn in Hl. lia. }
  assert (Hlx : length ps = length xs) by (rewrite !length_app in Hl; cbn in Hl; lia).
  rewrite final_snoc in Hb. apply NoDup_app in Hn as (_ & Hq & _).
  apply dseg_app in Hd as [H1 (H0 & Hqe & _)]; [|done]. apply dseg_app; [done|]. split.
  - eapply dseg_same, H1. intros p Hp. rewrite Hb by set_solver.
    destruct (dseg_nonzero _ _ _ _ _ _ H1 Hp) as [_ [e ->]]. cbn. f_equal.
    apply relink_other; intros ->; [|set_solver]. apply (Hq q Hp). set_solver.
  - split; [done|]. split; [|done]. rewrite Hb, Hqe by set_solver. cbn. unfold relink.
    rewrite decide_True by done. rewrite decide_False by set_solver. done.
Qed.
Lemma dseg_relink_start h h' prev ps xs n ll p nxt prev' : dseg h prev ps xs n -> NoDup ps -> p ∉ ps ->
  (forall b, b ∈ ps -> h' !! b = relink p nxt (first ll ps) prev' b <$> h !! b) ->
  dseg h' prev' ps xs n.
Proof.
  intros Hd Hn Hp Hb. destruct ps as [|q ps]; [by destruct xs|]. destruct xs as [|x xs]; [done|].
  destruct Hd as (H0 & Hqe & Hd). cbn [first] in Hb. apply NoDup_cons in Hn as [Hq Hn]. split; [done|]. split.
  - rewrite Hb, Hqe by set_solver. cbn. unfold relink. rewrite decide_False by set_solver.
    by rewrite decide_True by done.
  - eapply dseg_same, Hd. intros b Hin. rewrite Hb by set_solver.
    destruct (dseg_nonzero _ _ _ _ _ _ Hd Hin) as [_ [e ->]]. cbn. f_equal. apply relink_other; set_solver.
Qed.
Lemma final_in_cons ps ll : final ps ll ∈ ll :: ps.
Proof.
  destruct ps as [|p ps]; [cbn; set_solver|]. apply elem_of_cons. right. by apply final_in.
Qed.
Lemma first_in_cons (ps : list Z) ll : first ll ps ∈ ll :: ps.
Proof. destruct ps; cbn; set_solver. Qed.

(** The entities of two parts of a list. *)
Record parts (ll : Z) (ps1 ps2 : list Z) : Prop := {
  parts_ll1 : ll ∉ ps1;
  parts_ll2 : ll ∉ ps2;
  parts_12 : forall p, p ∈ ps1 -> p ∉ ps2;
  parts_1 : NoDup ps1;
  parts_2 : NoDup ps2
}.
Lemma NoDup_parts ll ps1 ps2 : NoDup (ll :: ps1 ++ ps2) <-> parts ll ps1 ps2.
Proof.
  rewrite NoDup_cons, NoDup_app, not_elem_of_app. split; [intros ([] & ? & ? & ?); by split|intros []; tauto].
Qed.
Lemma final_out ll ps1 ps2 : parts ll ps1 ps2 -> final ps1 ll ∉ ps2.
Proof.
  intros [_ H2 H12 _ _]. pose proof (final_in_cons ps1 ll) as [->|Hin]%elem_of_cons; [done|by apply H12].
Qed.
Lemma first_out ll ps1 ps2 : parts ll ps1 ps2 -> first ll ps2 ∉ ps1.
Proof.
  intros [H1 _ H12 _ _]. pose proof (first_in_cons ps2 ll) as [->|Hin]%elem_of_cons; [done|].
  intros H. by apply (H12 _ H).
Qed.
Lemma head_next ll ps1 ps2 n : parts ll ps1 ps2 ->
  (if decide (ll = final ps1 ll) then n else first 0 (ps1 ++ ps2)) = first n ps1.
Proof.
  intros H. destruct ps1 as [|p ps1]; [by rewrite decide_True|]. rewrite decide_False; [done|].
  intros E. apply (parts_ll1 _ _ _ H). rewrite E at 1. by apply final_in.
Qed.
Lemma head_last ll ps1 ps2 n : parts ll ps1 ps2 ->
  (if decide (ll = first ll ps2) then n else final (ps1 ++ ps2) 0) = final ps2 n.
Proof.
  intros H. destruct ps2 as [|p ps2]; [by rewrite decide_True|]. rewrite decide_False.
  - rewrite final_app. by apply final_nonempty.
  - cbn. intros E. apply (parts_ll2 _ _ _ H). rewrite E. by left.
Qed.

(** What lies before and behind the place, after the links were redirected. *)
Lemma relinked_parts h h' ll ps1 ps2 xs1 xs2 n1 n2 p1 p2 nxt prv :
  dseg h p1 ps1 xs1 n1 -> dseg h p2 ps2 xs2 n2 -> parts ll ps1 ps2 ->
  (forall b, b ∈ ll :: ps1 ++ ps2 -> h' !! b = relink (final ps1 ll) nxt (first ll ps2) prv b <$> h !! b) ->
  dseg h' p1 ps1 xs1 nxt /\ dseg h' prv ps2 xs2 n2.
Proof.
  intros H1 H2 Hp Hb. pose proof Hp as [? ? ? ? ?]. split.
  - eapply dseg_relink_end; [exact H1|done|by eapply first_out|].
    intros b Hin. apply Hb. right. apply elem_of_app. by left.
  - eapply dseg_relink_start; [exact H2|done|by eapply final_out|].
    intros b Hin. apply Hb. right. apply elem_of_app. by right.
Qed.
Lemma relink_out (h h' : heap) ll ps1 ps2 nxt prv b : b ∉ ll :: ps1 ++ ps2 ->
  h' !! b = relink (final ps1 ll) nxt (first ll ps2) prv b <$> h !! b -> h' !! b = h !! b.
Proof.
  intros Hb ->. destruct (h !! b) as [e|]; [|done]. cbn. f_equal.
  apply not_elem_of_cons in Hb as [Hl [H1 H2]%not_elem_of_app]. apply relink_other; intros ->.
  - pose proof (final_in_cons ps1 ll) as [|]%elem_of_cons; done.
  - pose proof (first_in_cons ps2 ll) as [|]%elem_of_cons; done.
Qed.

Lemma rep_insert h h' ll ps1 ps2 xs1 xs2 a item :
  rep h ll (ps1 ++ ps2) (xs1 ++ xs2) -> length ps1 = length xs1 -> a <> 0 -> h !! a = None ->
  h' !! a = Some {| content := item; next := first 0 ps2; last := final ps1 0 |} ->
  (forall b, b <> a -> h' !! b = relink (final ps1 ll) a (first ll ps2) a b <$> h !! b) ->
  rep h' ll (ps1 ++ a :: ps2) (xs1 ++ item :: xs2) /\ changed h h' ll (ps1 ++ ps2) (ps1 ++ a :: ps2).
Proof.
  intros Hr Hl Ha0 Ha Ha' Hb. pose proof Hr as [Hll Hn Hh Hd].
  assert (Hal : a ∉ ll :: ps1 ++ ps2).
  { intros [->|Hin]%elem_of_cons; [congruence|]. destruct (rep_in _ _ _ _ _ Hr Hin). congruence. }
  assert (Hb' : forall b, b ∈ ll :: ps1 ++ ps2 -> h' !! b = relink (final ps1 ll) a (first ll ps2) a b <$> h !! b)
    by (intros b Hin; apply Hb; by intros ->).
  pose proof Hn as Hp%NoDup_parts. apply dseg_app in Hd as [H1 H2]; [|done].
  destruct (relinked_parts _ _ _ _ _ _ _ _ _ _ _ _ _ H1 H2 Hp Hb') as [H1' H2']. split; [split|split].
  - done.
  - rewrite <- (Permutation_middle ps1 ps2 a). apply not_elem_of_cons in Hal as [Hal Hap].
    apply NoDup_cons in Hn as [Hn1 Hn2]. apply NoDup_cons. split; [by apply not_elem_of_cons|]. by apply NoDup_cons.
  - rewrite Hb', Hh by by left. cbn. unfold relink. f_equal. cbn [content next last].
    rewrite head_next, head_last, final_app, final_cons by done. f_equal. by destruct ps1.
  - by apply dseg_app.
  - intros b Hb1 Hb2. eapply relink_out; [exact Hb1|]. apply Hb. intros ->. apply Hb2. apply elem_of_app. right. by left.
  - intros b. rewrite !elem_of_app, elem_of_cons. intros [?|[->|?]]; auto.
  - intros b. rewrite !elem_of_app, elem_of_cons. tauto.
Qed.
Lemma rep_delete h h' ll ps1 ps2 xs1 xs2 d x :
  rep h ll (ps1 ++ d :: ps2) (xs1 ++ x :: xs2) -> length ps1 = length xs1 -> h' !! d = None ->
  (forall b, b <> d -> h' !! b = relink (final ps1 ll) (first 0 ps2) (first ll ps2) (final ps1 0) b <$> h !! b) ->
  rep h' ll (ps1 ++ ps2) (xs1 ++ xs2) /\ changed h h' ll (ps1 ++ d :: ps2) (ps1 ++ ps2).
Proof.
  intros Hr Hl Hd' Hb. pose proof Hr as [Hll Hn Hh Hd].
  assert (Hn' : NoDup (d :: ll :: ps1 ++ ps2)) by (rewrite <- (Permutation_middle ps1 ps2 d) in Hn; by rewrite Permutation_swap).
  apply NoDup_cons in Hn' as [Hdn Hn'%NoDup_parts].
  assert (Hb' : forall b, b ∈ ll :: ps1 ++ ps2 ->
    h' !! b = relink (final ps1 ll) (first 0 ps2) (first ll ps2) (final ps1 0) b <$> h !! b)
    by (intros b Hin; apply Hb; by intros ->).
  apply dseg_app in Hd as [H1 (_ & _ & H2)]; [|done].
  destruct (relinked_parts _ _ _ _ _ _ _ _ _ _ _ _ _ H1 H2 Hn' Hb') as [H1' H2']. split; [split|split].
  - done.
  - by apply NoDup_parts.
  - rewrite Hb', Hh by by left. cbn. unfold relink. f_equal. cbn [content next last].
    pose proof Hn as Hn1%NoDup_parts. rewrite (head_next _ _ _ _ Hn1).
    rewrite (app_assoc ps1 [d] ps2 : ps1 ++ d :: ps2 = _) in Hn |- *. apply NoDup_parts in Hn.
    rewrite (head_last _ _ _ _ Hn), final_app. f_equal. by destruct ps1.
  - by apply dseg_app.
  - intros b Hb1 Hb2. eapply relink_out; [|apply Hb].
    + intros Hin. apply Hb1. revert Hin. rewrite !elem_of_cons, !elem_of_app, elem_of_cons. tauto.
    + intros ->. apply Hb1. rewrite elem_of_cons, elem_of_app, elem_of_cons. auto.
  - intros b. rewrite !elem_of_app, elem_of_cons. tauto.
  - intros b. rewrite !elem_of_app, elem_of_cons. intros [?|[->|?]]; auto.
Qed.

(** ** The operations *)

(** Compare the heap after the stores with the relinked one. *)
Ltac split_address :=
  repeat match goal with
  | |- context [<[?p := _]> _ !! ?b] =>
      destruct (decide (b = p)) as [?|?]; [subst; rewrite lookup_insert_eq|rewrite lookup_insert_ne by congruence]
  end.
Ltac zif :=
  match goal with
  | |- context [if ?a =? ?b then _ else _] =>
      first [ replace (a =? b) with false by (symmetry; apply Z.eqb_neq; done || congruence)
            | replace (a =? b) with true by (symmetry; apply Z.eqb_eq; done || congruence) ]; cbn match; cbn [mbind option_bind]
  end.
Ltac hsteps := repeat (hstep || zif).
(** The heap after the stores has the new entity, and the two links. *)
Ltac relinked :=
  eexists; split; [done|]; split;
  [rewrite ?lookup_insert_ne by congruence; rewrite lookup_insert_eq; repeat f_equal; done || congruence
  |intros b Hb; unfold relink;
   repeat match goal with |- context [decide (?x = ?y)] => destruct (decide (x = y)); [subst|] end;
   rewrite ?lookup_insert_ne by congruence; rewrite ?lookup_insert_eq;
   try match goal with H : ?h !! ?p = Some _ |- context [?h !! ?p] => rewrite H end; done || congruence ||
   (match goal with |- _ = _ <$> ?h !! ?p => by destruct (h !! p) as [[]|] end)].
Lemma rep_split h ll ps xs i : rep h ll ps xs -> (i <= length ps)%nat ->
  rep h ll (take i ps ++ drop i ps) (take i xs ++ drop i xs) /\ length (take i ps) = length (take i xs).
Proof.
  intros Hr Hi. rewrite !take_drop, !length_take. split; [done|]. by rewrite (rep_length _ _ _ _ Hr).
Qed.
(** The entity before a place, its [next], and the one behind the place. *)
Lemma rep_before h ll ps1 ps2 xs : rep h ll (ps1 ++ ps2) xs ->
  exists e, h !! final ps1 ll = Some e /\ final ps1 ll <> 0 /\ next e = first 0 ps2 /\
    (ps1 = [] -> last e = final ps2 0) /\ (ps1 <> [] -> first 0 (ps1 ++ ps2) <> 0).
Proof.
  intros [Hll Hn Hh Hd]. destruct ps1 as [|q ps1 _] using rev_ind; [by eexists|].
  rewrite final_snoc. assert (Hq : ((ps1 ++ [q]) ++ ps2) !! length ps1 = Some q).
  { rewrite <- app_assoc. by apply list_lookup_middle. }
  destruct (dseg_lookup _ _ _ _ _ _ _ Hd Hq) as (x & _ & Hq0 & Hqe). eexists. split; [done|]. split; [done|]. split.
  - cbn [next]. f_equal. rewrite <- app_assoc. rewrite drop_app_ge by lia.
    by replace (S (length ps1) - length ps1)%nat with 1%nat by lia.
  - split; [by destruct ps1|]. intros _. destruct ps1 as [|p ps1]; [done|].
    cbn. eapply (dseg_nonzero _ _ _ _ _ p Hd). by left.
Qed.
Lemma insert_at h ll ps1 ps2 xs1 xs2 item (r := fresh_entity h) :
  rep h ll (ps1 ++ ps2) (xs1 ++ xs2) -> length ps1 = length xs1 ->
  exists h',
    insert_behind h ll (final ps1 ll) item = Some h' /\
    rep h' ll (ps1 ++ r :: ps2) (xs1 ++ item :: xs2) /\ changed h h' ll (ps1 ++ ps2) (ps1 ++ r :: ps2).
Proof.
  intros Hr Hl. destruct (fresh_entity_out _ _ _ _ Hr) as (Ha0 & Ha & Hal & Hap).
  pose proof Hr as [Hll Hn Hh Hd]. apply NoDup_parts in Hn. unfold insert_behind, acquire_list_entity. fold r in Ha0, Ha, Hal, Hap |- *.
  destruct (rep_before _ _ _ _ _ Hr) as (e & He & Hf0 & Hne & _ & _). set (f := final ps1 ll) in *.
  assert (Hfa : f <> r) by congruence. repeat hstep. rewrite Hne.
  assert (Hs2 : ps2 <> [] -> first 0 ps2 <> 0 /\ first 0 ps2 <> r /\ first 0 ps2 <> f /\ first 0 ps2 <> ll /\
                is_Some (h !! first 0 ps2)).
  { destruct ps2 as [|s ps2]; [done|]. intros _. cbn [first].
    assert (Hin : s ∈ ps1 ++ s :: ps2) by (apply elem_of_app; right; by left).
    destruct (dseg_nonzero _ _ _ _ _ _ Hd Hin). split; [done|]. split; [by intros ->|]. split.
    - intros E. apply (final_out _ _ _ Hn). fold f. rewrite <- E. by left.
    - split; [|done]. intros ->. apply (parts_ll2 _ _ _ Hn). by left. }
  match goal with |- exists h', ?e = Some h' /\ _ =>
    enough (exists h', e = Some h' /\ h' !! r = Some {| content := item; next := first 0 ps2; last := final ps1 0 |} /\
      forall b, b <> r -> h' !! b = relink f r (first ll ps2) r b <$> h !! b) as (h' & E & H1 & H2) end.
  { exists h'. split; [done|]. by eapply rep_insert. }
  clear Hr. destruct ps1 as [|q ps1 _] using rev_ind.
  - cbn [app] in *. change f with ll in *. clear f. rewrite Hh in He. injection He as <-. rewrite Z.eqb_refl.
    destruct ps2 as [|s ps2]; cbn [first] in *; [|destruct Hs2 as (Hs0 & Hsr & _ & Hsl & [es Hs]); [done|]].
    + hsteps. relinked.
    + assert (final (s :: ps2) 0 <> 0 /\ final (s :: ps2) 0 <> ll) as [Hz Hzl].
      { pose proof (final_in (s :: ps2) 0 ltac:(done)) as Hin. split; [|intros E].
        - eapply (dseg_nonzero _ _ _ _ _ _ Hd). done.
        - apply (parts_ll2 _ _ _ Hn). by rewrite <- E. }
      hsteps. relinked.
  - assert (Hfl : f <> ll).
    { unfold f. intros E. apply (parts_ll1 _ _ _ Hn). rewrite <- E. apply final_in. by destruct ps1. }
    assert (Ef : final (ps1 ++ [q]) 0 = f) by (apply final_nonempty; by destruct ps1). rewrite final_app, Ef in Hh. rewrite Ef.
    pose proof (final_out _ _ _ Hn : f ∉ ps2) as Hfo. clearbody f.
    destruct ps2 as [|s ps2]; cbn [first] in *; [|destruct Hs2 as (Hs0 & Hsr & Hsf & Hsl & [es Hs]); [done|]].
    + cbn [final List.last] in *. hsteps. relinked.
    + assert (final (s :: ps2) f <> 0 /\ final (s :: ps2) f <> f) as [Hz Hzf].
      { pose proof (final_in (s :: ps2) f ltac:(done)) as Hin. split; [|intros E; apply Hfo; by rewrite <- E at 1].
        eapply (dseg_nonzero _ _ _ _ _ _ Hd). apply elem_of_app. by right. }
      hsteps. relinked.
Qed.

Lemma insert_spec h ll ps xs pos item : rep h ll ps xs ->
  exists ps' h', impl_linked_list_insert h ll pos item = Some (fst (list_insert xs pos item), h') /\
    rep h' ll ps' (snd (list_insert xs pos item)) /\ changed h h' ll ps ps'.
Proof.
  intros Hr. unfold impl_linked_list_insert, list_insert. pose proof Hr as [Hll _ _ _].
  destruct (Z.eqb_spec ll 0); [done|]. destruct pos as [|i]; cbn [Nat.eqb orb].
  { exists ps, h. split; [done|]. split; [done|apply changed_refl]. }
  rewrite (rep_assert _ _ _ _ Hr). cbn [mbind option_bind fst snd].
  destruct (expand_spec h ll ps xs (S i) Hr) as (qs & h1 & -> & Hr1 & Hc1 & Hle); [done|].
  replace (S i - 1)%nat with i in * by lia. cbn [mbind option_bind].
  destruct (rep_split _ _ _ _ i Hr1 Hle) as [Hs Hl].
  destruct (rep_before _ _ _ _ _ Hs) as (e & _ & Hf0 & _).
  destruct (Z.eqb_spec (final (take i (ps ++ qs)) ll) 0); [done|].
  destruct (insert_at h1 ll _ _ _ _ item Hs Hl) as (h2 & E & Hr2 & Hc2).
  rewrite E. cbn [mbind option_bind]. rewrite (rep_assert _ _ _ _ Hr2). eexists _, h2. split; [done|].
  unfold pad_to in Hr1. cbn [fst snd]. split; [exact Hr2|].
  rewrite take_drop in Hc2. by eapply (grow_trans h h1).
Qed.

(** The heap after the stores lacks the entity [d], and has the two links. *)
Ltac unlinked :=
  eexists; split; [done|]; split;
  [skip_others; apply lookup_delete_eq
  |intros b Hb; unfold relink;
   repeat match goal with |- context [decide (?x = ?y)] => destruct (decide (x = y)); [subst|] end;
   skip_others; rewrite ?lookup_insert_eq;
   try match goal with H : ?h !! ?p = Some _ |- context [?h !! ?p] => rewrite H end; done || congruence ||
   (match goal with |- _ = _ <$> ?h !! ?p => by destruct (h !! p) as [[]|] end)].
Lemma release_Some (h : heap) p e : p <> 0 -> h !! p = Some e -> release_list_entity h p = Some (delete p h).
Proof. intros. unfold release_list_entity. destruct (Z.eqb_spec p 0); [done|]. by rewrite (load_Some h p e). Qed.
Ltac hrelease :=
  match goal with |- context [release_list_entity ?h ?p] => erewrite (release_Some h p) by (done || hlook) end;
  cbn [mbind option_bind].

(** The parts of a list around one entity. *)
Record around (h : heap) (ll d x : Z) (ps1 ps2 : list Z) : Prop := {
  ar_d : d <> 0 /\ d <> ll /\ h !! d = Some {| content := x; next := first 0 ps2; last := final ps1 0 |};
  ar_head : exists n l, h !! ll = Some {| content := 0; next := n; last := l |} /\
    (if decide (ps1 = []) then n = d else n <> d) /\ (if decide (ps2 = []) then l = d else l <> d);
  ar_before : ps1 <> [] -> let p := final ps1 0 in
    p <> 0 /\ p <> d /\ p <> ll /\ p <> first ll ps2 /\ final ps1 ll = p /\ is_Some (h !! p);
  ar_behind : ps2 <> [] -> let s := first 0 ps2 in s <> 0 /\ s <> d /\ s <> ll /\ is_Some (h !! s)
}.
Lemma rep_around h ll ps1 ps2 xs1 xs2 d x : rep h ll (ps1 ++ d :: ps2) (xs1 ++ x :: xs2) -> length ps1 = length xs1 ->
  ll <> 0 /\ around h ll d x ps1 ps2.
Proof.
  intros Hr Hl. pose proof Hr as [Hll Hn Hh Hd]. split; [done|].
  assert (Hn' : NoDup (d :: ll :: ps1 ++ ps2)) by (rewrite <- (Permutation_middle ps1 ps2 d) in Hn; by rewrite Permutation_swap).
  apply NoDup_cons in Hn' as [Hdn Hp%NoDup_parts]. apply not_elem_of_cons in Hdn as [Hdl [Hd1 Hd2]%not_elem_of_app].
  assert (Hin : forall b, b ∈ ps1 \/ b ∈ ps2 -> b <> 0 /\ is_Some (h !! b)).
  { intros b Hb. eapply dseg_nonzero; [exact Hd|]. rewrite elem_of_app, elem_of_cons. tauto. }
  apply dseg_app in Hd as [_ (Hd0 & Hde & _)]; [|done]. split.
  - done.
  - eexists _, _. split; [exact Hh|]. split.
    + destruct ps1 as [|p ps1]; cbn [decide]; [by rewrite decide_True|]. rewrite decide_False by done.
      cbn. intros ->. apply Hd1. by left.
    + rewrite final_app, final_cons. destruct ps2 as [|p ps2]; [by rewrite decide_True|]. rewrite decide_False by done.
      intros E. apply Hd2. rewrite <- E at 1. by apply final_in.
  - intros Hne p. pose proof (final_in ps1 0 Hne : p ∈ ps1) as Hpin. destruct (Hin p); [by left|].
    split; [done|]. split; [by intros ->|]. split; [intros ->; by apply (parts_ll1 _ _ _ Hp)|]. split.
    + intros E. apply (first_out _ _ _ Hp). by rewrite <- E.
    + split; [by apply final_nonempty|done].
  - intros Hne s. assert (Hsin : s ∈ ps2) by (destruct ps2; [done|by left]). destruct (Hin s); [by right|].
    split; [done|]. split; [by intros ->|]. split; [|done]. intros ->. by apply (parts_ll2 _ _ _ Hp).
Qed.
Lemma plug_at h ll ps1 ps2 xs1 xs2 d x :
  rep h ll (ps1 ++ d :: ps2) (xs1 ++ x :: xs2) -> length ps1 = length xs1 ->
  exists h', plug_out h ll d = Some h' /\ rep h' ll (ps1 ++ ps2) (xs1 ++ xs2) /\
    changed h h' ll (ps1 ++ d :: ps2) (ps1 ++ ps2).
Proof.
  intros Hr Hl. destruct (rep_around _ _ _ _ _ _ _ _ Hr Hl) as [Hll [(Hd0 & Hdl & Hde) Hh Hb1 Hb2]].
  enough (exists h', plug_out h ll d = Some h' /\ h' !! d = None /\
    forall b, b <> d -> h' !! b = relink (final ps1 ll) (first 0 ps2) (first ll ps2) (final ps1 0) b <$> h !! b)
    as (h' & E & H1 & H2) by (exists h'; split; [done|]; by eapply rep_delete).
  clear Hr. destruct Hh as (n & l & Hh & Hn & Hlt). unfold plug_out. do 2 hstep.
  destruct (decide (ps1 = [])) as [->|Hne1], (decide (ps2 = [])) as [->|Hne2]; cbn [first final List.last] in *.
  - hsteps. hrelease. unlinked.
  - destruct (Hb2 Hne2) as (Hs0 & Hsd & Hsl & [es Hs]). hsteps. hrelease.
    assert (first ll ps2 = first 0 ps2) as -> by by destruct ps2. unlinked.
  - destruct (Hb1 Hne1) as (Hp0 & Hpd & Hpl & _ & -> & [ep Hp]). cbn [first] in *. hsteps. hrelease. unlinked.
  - destruct (Hb1 Hne1) as (Hp0 & Hpd & Hpl & Hps & -> & [ep Hp]).
    destruct (Hb2 Hne2) as (Hs0 & Hsd & Hsl & [es Hs]).
    assert (first ll ps2 = first 0 ps2) as E by by destruct ps2. rewrite E in *. hsteps. hrelease. unlinked.
Qed.

Lemma get_entity_spec h ll ps xs pos : rep h ll ps xs ->
  get_entity_at_position h ll pos = Some (match pos with O => 0 | S i => default 0 (ps !! i) end).
Proof.
  intros Hr. unfold get_entity_at_position. pose proof Hr as [Hll _ _ Hd]. destruct (Z.eqb_spec ll 0); [done|].
  destruct pos as [|i]; [done|]. cbn [Nat.eqb orb]. rewrite (rep_assert _ _ _ _ Hr), (rep_load _ _ _ _ Hr).
  cbn [mbind option_bind next].
  destruct (position_loop_spec h 0 ps xs (turns h) 0 (S i)) as (e & c & -> & H);
    [done|by eapply rep_turns|lia|]. cbn [mbind option_bind].
  replace (S i - 0 - 1)%nat with i in H by lia. destruct (ps !! i) as [p|] eqn:Hp.
  - destruct H as [-> ->]. by rewrite Nat.eqb_refl.
  - apply Nat.eqb_neq in H. by rewrite H.
Qed.
Lemma get_spec h ll ps xs pos : rep h ll ps xs -> impl_linked_list_get h ll pos = Some (list_get xs pos).
Proof.
  intros Hr. unfold impl_linked_list_get, list_get. rewrite (get_entity_spec _ _ _ _ _ Hr). cbn [mbind option_bind].
  destruct pos as [|i]; [done|]. destruct (ps !! i) as [p|] eqn:Hp.
  - destruct Hr as [_ _ _ Hd]. destruct (dseg_lookup _ _ _ _ _ _ _ Hd Hp) as (x & -> & Hp0 & Hpe). cbn.
    destruct (Z.eqb_spec p 0); [done|]. by rewrite (load_Some _ _ _ Hp0 Hpe).
  - cbn. apply lookup_ge_None in Hp. rewrite (rep_length _ _ _ _ Hr) in Hp. by rewrite lookup_ge_None_2.
Qed.
Lemma remove_spec h ll ps xs pos : rep h ll ps xs ->
  exists ps' h', impl_linked_list_remove h ll pos = Some (fst (list_remove xs pos), h') /\
    rep h' ll ps' (snd (list_remove xs pos)) /\ changed h h' ll ps ps'.
Proof.
  intros Hr. unfold impl_linked_list_remove, list_remove. pose proof (rep_length _ _ _ _ Hr) as Hl.
  pose proof Hr as [Hll _ _ Hd].
  destruct (Z.eqb_spec ll 0); [done|]. rewrite (get_entity_spec _ _ _ _ _ Hr), (rep_assert _ _ _ _ Hr).
  cbn [mbind option_bind].
  destruct pos as [|i]; [exists ps, h; split; [done|]; split; [done|apply changed_refl]|].
  destruct (ps !! i) as [d|] eqn:Hp; cbn [default fst snd].
  - destruct (dseg_lookup _ _ _ _ _ _ _ Hd Hp) as (x & Hx & Hd0 & Hde). rewrite Hx. cbn [fst snd].
    unfold id. destruct (Z.eqb_spec d 0); [done|]. rewrite (load_Some _ _ _ Hd0 Hde). cbn [mbind option_bind content].
    rewrite <- (take_drop_middle _ _ _ Hp), <- (take_drop_middle _ _ _ Hx) in Hr.
    destruct (plug_at _ _ _ _ _ _ _ _ Hr) as (h' & -> & Hr' & Hc); [rewrite !length_take; lia|].
    cbn [mbind option_bind]. rewrite (rep_assert _ _ _ _ Hr'). eexists _, h'. split; [done|].
    rewrite (delete_take_drop xs). split; [exact Hr'|]. by rewrite (take_drop_middle _ _ _ Hp) in Hc.
  - apply lookup_ge_None in Hp. rewrite (lookup_ge_None_2 xs) by lia. cbn [default Z.eqb fst snd].
    exists ps, h. split; [done|]. split; [done|apply changed_refl].
Qed.
Lemma drop_last_plug h ll ps d x xs xs2 : rep h ll (ps ++ [d]) (xs ++ x :: xs2) -> length ps = length xs ->
  exists h', drop_last h ll d = Some h' /\ rep h' ll ps xs /\ changed h h' ll (ps ++ [d]) ps.
Proof.
  intros Hr Hl. assert (xs2 = []) as ->.
  { apply rep_length in Hr. rewrite !length_app in Hr. destruct xs2; [done|]. cbn in Hr. lia. }
  destruct (rep_around _ _ _ _ _ _ _ _ Hr Hl) as [Hll [(Hd0 & Hdl & Hde) Hh Hb1 _]].
  enough (exists h', drop_last h ll d = Some h' /\ h' !! d = None /\
    forall b, b <> d -> h' !! b = relink (final ps ll) (first 0 []) (first ll []) (final ps 0) b <$> h !! b)
    as (h' & E & H1 & H2).
  { exists h'. split; [done|]. pose proof (rep_delete _ _ _ _ _ _ _ _ _ Hr Hl H1 H2) as H. by rewrite !app_nil_r in H. }
  clear Hr. destruct Hh as (n & l & Hh & Hn & Hlt). unfold drop_last. do 2 hstep.
  destruct (decide (ps = [])) as [->|Hne]; cbn [first final List.last] in *.
  - rewrite Z.eqb_refl. cbn [negb]. hrelease. hsteps. unlinked.
  - destruct (Hb1 Hne) as (Hp0 & Hpd & Hpl & _ & -> & [ep Hp]). destruct (Z.eqb_spec (final ps 0) 0); [done|].
    cbn [negb first] in *. hsteps. hrelease. unlinked.
Qed.
Lemma list_pop_spec h ll ps xs : rep h ll ps xs ->
  exists ps' h', impl_linked_list_pop h ll = Some (fst (list_pop xs), h') /\
    rep h' ll ps' (snd (list_pop xs)) /\ changed h h' ll ps ps'.
Proof.
  intros Hr. unfold impl_linked_list_pop, list_pop. pose proof (rep_length _ _ _ _ Hr) as Hl.
  pose proof Hr as [Hll _ _ Hd]. destruct (Z.eqb_spec ll 0); [done|].
  rewrite (rep_assert _ _ _ _ Hr), (rep_load _ _ _ _ Hr). cbn [mbind option_bind last fst snd].
  destruct ps as [|d ps _] using rev_ind.
  - destruct xs; [|done]. cbn. exists [], h. split; [done|]. split; [done|apply changed_refl].
  - destruct xs as [|x xs _] using rev_ind; [rewrite length_app in Hl; cbn in Hl; lia|].
    assert (Hlx : length ps = length xs) by (rewrite !length_app in Hl; cbn in Hl; lia).
    rewrite final_snoc, last_snoc, removelast_last. destruct (dseg_final _ _ _ _ _ _ _ Hlx Hd) as [Hd0 Hde].
    destruct (Z.eqb_spec d 0); [done|]. rewrite (load_Some _ _ _ Hd0 Hde). cbn [mbind option_bind content].
    destruct (drop_last_plug _ _ _ _ _ _ _ Hr Hlx) as (h' & -> & Hr' & Hc). cbn [mbind option_bind].
    rewrite (rep_assert _ _ _ _ Hr'). by exists ps, h'.
Qed.
Lemma rep_set_content h ll ps xs i d x item : rep h ll ps xs -> ps !! i = Some d -> xs !! i = Some x ->
  forall e, h !! d = Some e ->
  let h' := <[d := {| content := item; next := next e; last := last e |}]> h in
  rep h' ll ps (<[i := item]> xs) /\ changed h h' ll ps ps.
Proof.
  intros Hr Hp Hx e He h'. pose proof Hr as [Hll Hn Hh Hd].
  assert (Hin : d ∈ ps) by by eapply list_elem_of_lookup_2.
  assert (Hdl : d <> ll) by (intros ->; by eapply rep_out). split.
  - split; [done|done|by unfold h'; rewrite lookup_insert_ne|].
    rewrite <- (take_drop_middle _ _ _ Hp) in Hd, Hn |- *. rewrite <- (take_drop_middle _ _ _ Hx) in Hd.
    pose proof (lookup_lt_Some _ _ _ Hx) as Hi. pose proof (lookup_lt_Some _ _ _ Hp) as Hi'.
    rewrite insert_take_drop by done.
    apply NoDup_cons in Hn as [_ (_ & H12 & [H2 _]%NoDup_cons)%NoDup_app].
    apply dseg_app in Hd as [H1' (Hd0 & Hde & H2')]; [|rewrite !length_take; lia].
    rewrite He in Hde. injection Hde as ->. apply dseg_app; [rewrite !length_take; lia|].
    split; [apply dseg_insert; [|done]; intros Ht; apply (H12 _ Ht); by left|].
    split; [done|]. split; [by unfold h'; rewrite lookup_insert_eq|by apply dseg_insert].
  - split; [|auto|auto]. intros a Ha _. apply lookup_insert_ne. intros ->. apply Ha. by right.
Qed.
Lemma set_spec h ll ps xs pos item : rep h ll ps xs ->
  exists ps' h', impl_linked_list_set h ll pos item = Some (fst (list_set xs pos item), h') /\
    rep h' ll ps' (snd (list_set xs pos item)) /\ changed h h' ll ps ps'.
Proof.
  intros Hr. unfold impl_linked_list_set, list_set. pose proof Hr as [Hll _ _ _]. pose proof (rep_length _ _ _ _ Hr) as Hl.
  destruct (Z.eqb_spec ll 0); [done|]. rewrite (rep_assert _ _ _ _ Hr).
  destruct pos as [|i]; [exists ps, h; split; [done|]; split; [done|apply changed_refl]|]. cbn [Nat.eqb mbind option_bind].
  destruct (expand_spec h ll ps xs (S i) Hr) as (qs & h1 & -> & Hr1 & Hc1 & Hle); [done|].
  replace (S i - 1)%nat with i in * by lia. cbn [mbind option_bind].
  destruct (rep_split _ _ _ _ i Hr1 Hle) as [Hs Hls]. destruct (rep_before _ _ _ _ _ Hs) as (e & He & Hf0 & Hne & _).
  destruct (Z.eqb_spec (final (take i (ps ++ qs)) ll) 0); [done|]. rewrite (load_Some _ _ _ Hf0 He).
  cbn [mbind option_bind]. rewrite Hne. pose proof Hr1 as [_ _ _ Hd1].
  destruct ((ps ++ qs) !! i) as [d|] eqn:Hp.
  - destruct (dseg_lookup _ _ _ _ _ _ _ Hd1 Hp) as (x & Hx & Hd0 & Hde).
    rewrite (drop_S _ _ _ Hp). cbn [first]. destruct (Z.eqb_spec d 0); [done|].
    rewrite (load_Some _ _ _ Hd0 Hde). cbn [mbind option_bind]. rewrite (set_content_Some _ _ _ _ Hd0 Hde).
    cbn [mbind option_bind content next last].
    destruct (rep_set_content h1 ll (ps ++ qs) _ i d x item Hr1 Hp Hx _ Hde) as [Hr2 Hc2].
    cbn [next last] in Hr2, Hc2.
    rewrite (rep_assert _ _ _ _ Hr2). cbn [mbind option_bind].
    assert (Hlt : (i < length (ps ++ qs))%nat) by by eapply lookup_lt_Some.
    destruct (xs !! i) as [y|] eqn:Hy.
    + assert (Hi : (i < length xs)%nat) by by eapply lookup_lt_Some. rewrite pad_to_le in Hx, Hr2 by lia.
      rewrite Hy in Hx. injection Hx as <-. eexists _, _. split; [done|]. split; [exact Hr2|].
      by eapply (grow_trans h h1).
    + exfalso. apply lookup_ge_None in Hy. rewrite (rep_length _ _ _ _ Hr1), length_pad_to in Hlt. lia.
  - apply lookup_ge_None in Hp. rewrite drop_ge by done. cbn [first Z.eqb].
    assert (Hge : (length xs <= i)%nat) by (rewrite (rep_length _ _ _ _ Hr1), length_pad_to in Hp; lia).
    rewrite (lookup_ge_None_2 xs) by done.
    destruct (push_spec _ _ _ _ item Hr1) as (h2 & -> & Hr2 & Hc2). cbn [mbind option_bind fst snd].
    eexists _, h2. split; [done|]. split; [exact Hr2|].
    by eapply (grow_trans h h1).
Qed.

(** ** Reading, clearing and releasing a list *)

Lemma is_empty_spec h ll ps xs : rep h ll ps xs -> impl_linked_list_is_empty h ll = Some (bool_decide (xs = [])).
Proof.
  intros Hr. unfold impl_linked_list_is_empty. pose proof Hr as [Hll _ _ Hd]. destruct (Z.eqb_spec ll 0); [done|].
  rewrite (rep_assert _ _ _ _ Hr), (rep_load _ _ _ _ Hr). cbn [mbind option_bind next].
  destruct ps as [|p ps], xs as [|x xs]; try done. destruct Hd as (Hp & _). cbn [first]. by destruct (Z.eqb_spec p 0).
Qed.
Lemma count_spec h ll ps xs : rep h ll ps xs -> impl_linked_list_count h ll = Some (length xs).
Proof.
  intros Hr. unfold impl_linked_list_count. pose proof Hr as [Hll _ _ Hd]. destruct (Z.eqb_spec ll 0); [done|].
  rewrite (rep_assert _ _ _ _ Hr), (rep_load _ _ _ _ Hr). cbn [mbind option_bind next].
  by rewrite (count_loop_spec h 0 ps xs) by (done || by eapply rep_turns).
Qed.
Lemma get_pos_spec h ll ps xs item : rep h ll ps xs ->
  impl_linked_list_get_pos h ll item = Some (list_get_pos xs item).
Proof.
  intros Hr. unfold impl_linked_list_get_pos, list_get_pos. pose proof Hr as [Hll _ _ Hd].
  destruct (Z.eqb_spec ll 0); [done|]. rewrite (rep_assert _ _ _ _ Hr), (rep_load _ _ _ _ Hr).
  cbn [mbind option_bind next]. destruct (item =? 0); [done|].
  by apply (get_pos_loop_spec h 0 ps xs); [|eapply rep_turns].
Qed.
Lemma for_each_spec {S} h ll ps xs (f : Z -> S -> bool * S) s : rep h ll ps xs ->
  impl_linked_list_for_each h ll (Some f) s = Some (list_for_each xs f s).
Proof.
  intros Hr. unfold impl_linked_list_for_each. pose proof Hr as [Hll _ _ Hd].
  destruct (Z.eqb_spec ll 0); [done|]. rewrite (rep_assert _ _ _ _ Hr), (rep_load _ _ _ _ Hr).
  cbn [mbind option_bind next]. rewrite (for_each_loop_spec h 0 ps xs) by (done || by eapply rep_turns).
  cbn [mbind option_bind]. by destruct (list_for_each xs f s).
Qed.
(** A client's loop over a list with [iter] and [next]. *)
Fixpoint walk (fuel : nat) (h : heap) (ll iter : Z) : option (list Z) :=
  match fuel with
  | O => None
  | S fuel =>
      if iter =? 0 then Some [] else
      '(iter, element) ← impl_linked_list_next h ll iter;
      rest ← walk fuel h ll iter;
      Some (match element with Some x => x :: rest | None => rest end)
  end.
Lemma walk_loop h ll prev ps xs fuel : ll <> 0 -> ASSERT_LIST_INVARIANTS h ll = Some tt ->
  dseg h prev ps xs 0 -> (length ps < fuel)%nat -> walk fuel h ll (first 0 ps) = Some xs.
Proof.
  intros Hll HA. revert prev xs fuel. induction ps as [|p ps IH]; intros prev [|x xs] [|fuel]; try done; cbn [length]; try lia.
  intros (Hp & Hh & Hd) Hf. cbn [walk first]. destruct (Z.eqb_spec p 0); [done|]. unfold impl_linked_list_next.
  destruct (Z.eqb_spec ll 0); [done|]. destruct (Z.eqb_spec p 0); [done|]. rewrite HA, (load_Some _ _ _ Hp Hh).
  cbn [mbind option_bind next content].
  by rewrite (IH p xs) by (done || lia).
Qed.
Definition iterate (h : heap) (ll : Z) : option (list Z) :=
  iter ← impl_linked_list_iter h ll; walk (turns h) h ll iter.
Lemma iterate_spec h ll ps xs : rep h ll ps xs -> iterate h ll = Some xs.
Proof.
  intros Hr. unfold iterate, impl_linked_list_iter. pose proof Hr as [Hll _ _ Hd]. destruct (Z.eqb_spec ll 0); [done|].
  pose proof (rep_assert _ _ _ _ Hr) as HA. rewrite HA, (rep_load _ _ _ _ Hr). cbn [mbind option_bind next].
  eapply walk_loop; [done|done|done|by eapply rep_turns].
Qed.

Lemma list_clear_loop_spec h b prev ps xs fuel freed : dseg h prev ps xs 0 -> NoDup ps -> (length ps < fuel)%nat ->
  exists h', clear_loop fuel h b (first 0 ps) freed = Some (freed ++ (if b then xs else []), h') /\
    forall a, h' !! a = if decide (a ∈ ps) then None else h !! a.
Proof.
  revert h prev xs fuel freed. induction ps as [|p ps IH]; intros h prev [|x xs] [|fuel] freed;
    try done; cbn [length]; try lia.
  - intros _ _ _. exists h. cbn. split; [by destruct b; rewrite app_nil_r|]. intros a. by rewrite decide_False by set_solver.
  - intros (Hp & Hh & Hd) [Hpn Hn]%NoDup_cons Hf. cbn [clear_loop first]. destruct (Z.eqb_spec p 0); [done|].
    rewrite (load_Some _ _ _ Hp Hh). cbn [mbind option_bind next content].
    rewrite (release_Some _ _ _ Hp Hh). cbn [mbind option_bind].
    destruct (IH (delete p h) p xs fuel (if b then freed ++ [x] else freed)) as (h' & -> & Ha);
      [by apply dseg_delete|done|lia|]. exists h'. split; [by destruct b; rewrite <- ?app_assoc|].
    intros a. rewrite Ha. destruct (decide (a ∈ ps)).
    + rewrite decide_True; [done|by right].
    + destruct (decide (a = p)) as [->|]; [rewrite decide_True by (by left); apply lookup_delete_eq|].
      rewrite decide_False by (by intros [->|]%elem_of_cons). by apply lookup_delete_ne.
Qed.
Lemma list_clear_spec h b ll ps xs : rep h ll ps xs ->
  exists h', impl_linked_list_clear h b ll = Some (true, if b then xs else [], h') /\
    rep h' ll [] [] /\ changed h h' ll ps [].
Proof.
  intros Hr. unfold impl_linked_list_clear. pose proof Hr as [Hll [Hn1 Hn]%NoDup_cons Hh Hd].
  destruct (Z.eqb_spec ll 0); [done|]. rewrite (rep_assert _ _ _ _ Hr), (rep_load _ _ _ _ Hr).
  cbn [mbind option_bind next].
  destruct (list_clear_loop_spec h b 0 ps xs (turns h) [] Hd Hn) as (h1 & -> & Ha); [by eapply rep_turns|].
  cbn [mbind option_bind app]. assert (Hl1 : h1 !! ll = h !! ll) by (rewrite Ha; by rewrite decide_False).
  rewrite Hh in Hl1. hsteps.
  match goal with |- context [ASSERT_LIST_INVARIANTS ?h' ll] => assert (Hr' : rep h' ll [] []) end.
  { split; [done|by apply NoDup_singleton|by rewrite lookup_insert_eq|done]. }
  rewrite (rep_assert _ _ _ _ Hr'). eexists. split; [done|]. split; [done|].
  split; [| |]; intros a; try by intros ?%elem_of_nil.
  - intros [H1 H2]%not_elem_of_cons _. rewrite !lookup_insert_ne by done. by rewrite Ha, decide_False.
  - intros Hin. right. rewrite !lookup_insert_ne by (by intros ->). by rewrite Ha, decide_True.
Qed.
Lemma free_spec h b ll ps xs : rep h ll ps xs ->
  exists h', impl_linked_list_free h b ll = Some (0, if b then xs else [], h') /\
    forall a, h' !! a = if decide (a ∈ ll :: ps) then None else h !! a.
Proof.
  intros Hr. unfold impl_linked_list_free. pose proof Hr as [Hll _ _ _].
  destruct (Z.eqb_spec ll 0); [done|]. rewrite (rep_assert _ _ _ _ Hr). cbn [mbind option_bind].
  destruct (list_clear_spec h b ll ps xs Hr) as (h1 & -> & Hr1 & [O N G]). cbn [mbind option_bind negb].
  destruct Hr1 as [_ _ Hh1 _]. rewrite (release_Some _ _ _ Hll Hh1). eexists. split; [done|].
  intros a. destruct (decide (a = ll)) as [->|]; [rewrite decide_True by (by left); apply lookup_delete_eq|].
  rewrite lookup_delete_ne by done. destruct (decide (a ∈ ps)) as [Hin|Hin].
  - rewrite decide_True by by right. by destruct (G a Hin) as [?%elem_of_nil|].
  - rewrite decide_False by (by intros [|]%elem_of_cons). apply O; [by intros [|]%elem_of_cons|by intros ?%elem_of_nil].
Qed.
Lemma create_spec h :
  let '(p, h') := ov_linked_list_create h in
  p <> 0 /\ h !! p = None /\ rep h' p [] [] /\ forall a, a <> p -> h' !! a = h !! a.
Proof.
  unfold ov_linked_list_create. pose proof (fresh_entity_spec h) as [H1 H2]. set (p := fresh_entity h) in *.
  split; [lia|]. split; [apply eq_None_not_Some; intros H; apply H2 in H; lia|]. split.
  - split; [lia|apply NoDup_singleton|apply lookup_insert_eq|done].
  - intros a Ha. by apply lookup_insert_ne.
Qed.
