(* ===== verification/ListStore.v ===== *)
(** * Linked lists: a heap of lists refines a store of sequences

    Any number of lists share the heap. [heap_rep] says which sequences the heap
    represents; every operation on one list changes its sequence as the contract
    of [OvList.v] says and leaves the other lists alone, and no entity leaks. *)
From S2P Require Import Prelude OvList LinkedList LinkedListRep LinkedListOps.

Abbreviation store := (gmap Z (list Z)).

(** [F] gives the entities of a list. *)
Record represents (h : heap) (L : store) (F : Z -> list Z) : Prop := {
  hr_rep l xs : L !! l = Some xs -> rep h l (F l) xs;
  hr_sep l k : is_Some (L !! l) -> is_Some (L !! k) -> l <> k -> forall a, a ∈ l :: F l -> a ∉ k :: F k;
  hr_all a : is_Some (h !! a) -> exists l, is_Some (L !! l) /\ a ∈ l :: F l
}.
Definition heap_rep (h : heap) (L : store) : Prop := exists F, represents h L F.

(** ** Operations on a heap of lists, and on a store of sequences *)

Inductive list_op :=
  | Create | Push (l item : Z) | Pop (l : Z) | Get (l : Z) (pos : nat) | Set_ (l : Z) (pos : nat) (item : Z)
  | Insert (l : Z) (pos : nat) (item : Z) | Remove (l : Z) (pos : nat) | Count (l : Z) | IsEmpty (l : Z)
  | GetPos (l item : Z) | Iterate (l : Z) | Clear (l : Z) (item_free : bool) | Free (l : Z) (item_free : bool).
Inductive list_result :=
  | Address (p : Z) | Flag (b : bool) | Item (x : Z) | Replaced (b : bool) (old : option Z) | Number (n : nat)
  | Items (xs : list Z) | Freed (b : bool) (xs : list Z).
Definition op_list (op : list_op) : option Z :=
  match op with
  | Create => None
  | Push l _ | Pop l | Get l _ | Set_ l _ _ | Insert l _ _ | Remove l _ | Count l | IsEmpty l | GetPos l _
  | Iterate l | Clear l _ | Free l _ => Some l
  end.

Definition run_op (h : heap) (op : list_op) : option (list_result * heap) :=
  match op with
  | Create => let '(p, h) := ov_linked_list_create h in Some (Address p, h)
  | Push l item => '(b, h) ← impl_linked_list_push h l item; Some (Flag b, h)
  | Pop l => '(x, h) ← impl_linked_list_pop h l; Some (Item x, h)
  | Get l pos => x ← impl_linked_list_get h l pos; Some (Item x, h)
  | Set_ l pos item => '(b, old, h) ← impl_linked_list_set h l pos item; Some (Replaced b old, h)
  | Insert l pos item => '(b, h) ← impl_linked_list_insert h l pos item; Some (Flag b, h)
  | Remove l pos => '(x, h) ← impl_linked_list_remove h l pos; Some (Item x, h)
  | Count l => n ← impl_linked_list_count h l; Some (Number n, h)
  | IsEmpty l => b ← impl_linked_list_is_empty h l; Some (Flag b, h)
  | GetPos l item => n ← impl_linked_list_get_pos h l item; Some (Number n, h)
  | Iterate l => xs ← iterate h l; Some (Items xs, h)
  | Clear l b => '(ok, xs, h) ← impl_linked_list_clear h b l; Some (Freed ok xs, h)
  | Free l b => '(p, xs, h) ← impl_linked_list_free h b l; Some (Freed (p =? 0) xs, h)
  end.
(** The result of an operation on a sequence, and what becomes of it: [None]
    when the list is no more. *)
Definition seq_op (op : list_op) (xs : list Z) : list_result * option (list Z) :=
  match op with
  | Create => (Address 0, Some xs)
  | Push _ item => (Flag true, Some (list_push xs item))
  | Pop _ => (Item (fst (list_pop xs)), Some (snd (list_pop xs)))
  | Get _ pos => (Item (list_get xs pos), Some xs)
  | Set_ _ pos item => let '(b, old, ys) := list_set xs pos item in (Replaced b old, Some ys)
  | Insert _ pos item => let '(b, ys) := list_insert xs pos item in (Flag b, Some ys)
  | Remove _ pos => let '(x, ys) := list_remove xs pos in (Item x, Some ys)
  | Count _ => (Number (length xs), Some xs)
  | IsEmpty _ => (Flag (bool_decide (xs = [])), Some xs)
  | GetPos _ item => (Number (list_get_pos xs item), Some xs)
  | Iterate _ => (Items xs, Some xs)
  | Clear _ b => (Freed true (if b then xs else []), Some [])
  | Free _ b => (Freed true (if b then xs else []), None)
  end.
Inductive store_step (L : store) : list_op -> list_result -> store -> Prop :=
  | step_create p : p <> 0 -> L !! p = None -> store_step L Create (Address p) (<[p := []]> L)
  | step_list op l xs : op_list op = Some l -> L !! l = Some xs ->
      store_step L op (fst (seq_op op xs)) (partial_alter (fun _ => snd (seq_op op xs)) l L).

(** ** The store after a change of one list *)

Lemma heap_rep_changed h h' L F l xs ps' xs' : represents h L F -> L !! l = Some xs ->
  rep h' l ps' xs' -> changed h h' l (F l) ps' -> heap_rep h' (<[l := xs']> L).
Proof.
  intros [HR HS HA] Hl Hr' Hc. assert (Ho : forall k ys, L !! k = Some ys -> k <> l ->
    rep h' k (F k) ys /\ forall a, a ∈ k :: F k -> a ∉ ps').
  { intros k ys Hk Hne. apply (changed_other h h' l (F l) ps' k (F k) ys Hc (HR k ys Hk)).
    apply HS; [by eexists|by eexists|done]. }
  exists (fun k => if decide (k = l) then ps' else F k). split.
  - intros k ys Hk. destruct (decide (k = l)) as [->|Hne].
    + rewrite lookup_insert_eq in Hk. by injection Hk as <-.
    + rewrite lookup_insert_ne in Hk by done. by apply (Ho k ys).
  - intros k j Hk Hj Hne a. destruct (decide (k = l)) as [->|Hkl], (decide (j = l)) as [->|Hjl]; try done.
    + rewrite lookup_insert_ne in Hj by done. destruct Hj as [ys Hy]. destruct (Ho j ys Hy Hjl) as [_ Hout].
      intros Ha Hin. pose proof (Hout a Hin). apply elem_of_cons in Ha as [->|Ha]; [|done].
      eapply (HS j l); [by eexists|by eexists|done|exact Hin|by left].
    + rewrite lookup_insert_ne in Hk by done. destruct Hk as [ys Hy]. destruct (Ho k ys Hy Hkl) as [_ Hout].
      intros Hin Ha. pose proof (Hout a Hin). apply elem_of_cons in Ha as [->|Ha]; [|done].
      eapply (HS k l); [by eexists|by eexists|done|exact Hin|by left].
    + rewrite lookup_insert_ne in Hk, Hj by done. by apply HS.
  - destruct Hc as [O N G]. intros a Ha. destruct (decide (a ∈ l :: ps')) as [Hin|Hin].
    { exists l. rewrite lookup_insert_eq, decide_True by done. split; [by eexists|done]. }
    apply not_elem_of_cons in Hin as [Hal Hap]. destruct (decide (a ∈ F l)) as [Hf|Hf].
    { destruct (G a Hf) as [|E]; [done|]. rewrite E in Ha. by destruct Ha. }
    rewrite O in Ha by (done || by apply not_elem_of_cons). destruct (HA a Ha) as (k & Hk & Hin).
    destruct (decide (k = l)) as [->|Hne]; [by apply elem_of_cons in Hin as [|]|].
    exists k. rewrite lookup_insert_ne, decide_False by done. done.
Qed.
Lemma heap_rep_same h L F l xs : represents h L F -> L !! l = Some xs -> heap_rep h (<[l := xs]> L).
Proof. intros H Hl. rewrite insert_id by done. by exists F. Qed.
Lemma heap_rep_free h h' L F l : represents h L F -> is_Some (L !! l) ->
  (forall a, h' !! a = if decide (a ∈ l :: F l) then None else h !! a) -> heap_rep h' (delete l L).
Proof.
  intros [HR HS HA] Hl Ha. exists F. split.
  - intros k ys Hk. apply lookup_delete_Some in Hk as [Hne Hk]. pose proof (HR k ys Hk) as [H1 H2 H3 H4].
    assert (Hs : forall a, a ∈ k :: F k -> h' !! a = h !! a).
    { intros a Hin. rewrite Ha, decide_False; [done|]. eapply (HS k l); [by eexists|done|congruence|done]. }
    split; [done|done|rewrite Hs; [done|by left]|]. eapply dseg_same, H4. intros p Hp. apply Hs. by right.
  - intros k j [ys [_ Hk]%lookup_delete_Some] [zs [_ Hj]%lookup_delete_Some]. apply HS; by eexists.
  - intros a Hin. rewrite Ha in Hin. destruct (decide (a ∈ l :: F l)) as [|Hn]; [by destruct Hin|].
    destruct (HA a Hin) as (k & Hk & Hak). exists k. rewrite lookup_delete_ne by (by intros ->). done.
Qed.
Lemma heap_rep_create h L p h' : heap_rep h L -> ov_linked_list_create h = (p, h') ->
  p <> 0 /\ L !! p = None /\ heap_rep h' (<[p := []]> L).
Proof.
  intros [F [HR HS HA]] E. pose proof (create_spec h) as C. rewrite E in C. destruct C as (Hp & Hh & Hr & Ho).
  assert (Hn : L !! p = None).
  { apply eq_None_not_Some. intros [xs Hx]. destruct (HR p xs Hx) as [_ _ Hh' _]. congruence. }
  assert (Hnot : forall l, is_Some (L !! l) -> p ∉ l :: F l).
  { intros l [xs Hx] Hin. destruct (HR l xs Hx) as [_ _ Hh' Hd]. apply elem_of_cons in Hin as [->|Hin]; [congruence|].
    destruct (dseg_nonzero _ _ _ _ _ _ Hd Hin) as [_ [? ?]]. congruence. }
  split; [done|]. split; [done|]. exists (fun k => if decide (k = p) then [] else F k). split.
  - intros k ys Hk. destruct (decide (k = p)) as [->|Hne].
    + rewrite lookup_insert_eq in Hk. by injection Hk as <-.
    + rewrite lookup_insert_ne in Hk by done. pose proof (HR k ys Hk) as [H1 H2 H3 H4].
      pose proof (Hnot k ltac:(by eexists)) as [? ?]%not_elem_of_cons.
      split; [done|done|by rewrite Ho|]. eapply dseg_same, H4. intros b Hb. apply Ho. by intros ->.
  - intros k j Hk Hj Hne a. destruct (decide (k = p)) as [->|Hkl], (decide (j = p)) as [->|Hjl]; try done.
    + rewrite lookup_insert_ne in Hj by done. intros ->%list_elem_of_singleton. by apply Hnot.
    + rewrite lookup_insert_ne in Hk by done. intros Hin ->%list_elem_of_singleton. by apply (Hnot k).
    + rewrite lookup_insert_ne in Hk, Hj by done. by apply HS.
  - intros a Ha. destruct (decide (a = p)) as [->|Hne].
    + exists p. rewrite lookup_insert_eq, decide_True by done. split; [by eexists|by left].
    + rewrite Ho in Ha by done. destruct (HA a Ha) as (k & Hk & Hin). exists k.
      assert (k <> p) by (intros ->; rewrite Hn in Hk; by destruct Hk). by rewrite lookup_insert_ne, decide_False.
Qed.
Lemma heap_rep_empty : heap_rep ∅ ∅.
Proof.
  exists (fun _ => []). split.
  - intros l xs H. by rewrite lookup_empty in H.
  - intros l k [? H]. by rewrite lookup_empty in H.
  - intros a [? H]. by rewrite lookup_empty in H.
Qed.

(** C23: the linked lists of one heap refine sequences: every operation on a
    list that exists returns - no assertion fails, no released or foreign
    entity is touched and every walk ends - with the result its contract gives
    for the sequence of the list; afterwards the list holds the sequence of the
    contract, all other lists hold what they held before, and every entity in
    use belongs to one of the lists: nothing leaks. *)
Theorem linked_lists_refine h L op :
  heap_rep h L -> (forall l, op_list op = Some l -> is_Some (L !! l)) ->
  exists r h' L', run_op h op = Some (r, h') /\ store_step L op r L' /\ heap_rep h' L'.
Proof.
  intros HR Hop. destruct (op_list op) as [l|] eqn:El.
  2: { destruct op; try done. destruct (ov_linked_list_create h) as [p h'] eqn:E.
       destruct (heap_rep_create h L p h' HR E) as (Hp & Hn & HR'). cbn [run_op]. rewrite E.
       eexists _, _, _. split; [done|]. by split; [constructor|]. }
  destruct (Hop l eq_refl) as [xs Hl]. destruct HR as [F HF]. pose proof (hr_rep _ _ _ HF l xs Hl) as Hr.
  exists (fst (seq_op op xs)). pose proof (step_list L op l xs El Hl) as Hstep.
  assert (Hkeep : forall ps' xs' h', rep h' l ps' xs' -> changed h h' l (F l) ps' -> heap_rep h' (<[l:=xs']> L))
    by (intros; by eapply heap_rep_changed).
  pose proof (heap_rep_same h L F l xs HF Hl) as Hsame.
  destruct op; cbn [op_list] in El; simplify_eq; cbn [run_op seq_op fst snd] in *.
  - destruct (push_spec h l (F l) xs item Hr) as (h' & -> & Hr' & Hc). eexists _, _. eauto.
  - destruct (list_pop_spec h l (F l) xs Hr) as (ps' & h' & -> & Hr' & Hc). eexists _, _. eauto.
  - rewrite (get_spec h l (F l) xs) by done. eexists _, _. eauto.
  - destruct (set_spec h l (F l) xs pos item Hr) as (ps' & h' & -> & Hr' & Hc).
    destruct (list_set xs pos item) as [[b old] ys]. eexists _, _. eauto.
  - destruct (insert_spec h l (F l) xs pos item Hr) as (ps' & h' & -> & Hr' & Hc).
    destruct (list_insert xs pos item) as [b ys]. eexists _, _. eauto.
  - destruct (remove_spec h l (F l) xs pos Hr) as (ps' & h' & -> & Hr' & Hc).
    destruct (list_remove xs pos) as [x ys]. eexists _, _. eauto.
  - rewrite (count_spec h l (F l) xs) by done. eexists _, _. eauto.
  - rewrite (is_empty_spec h l (F l) xs) by done. eexists _, _. eauto.
  - rewrite (get_pos_spec h l (F l) xs) by done. eexists _, _. eauto.
  - rewrite (iterate_spec h l (F l) xs) by done. eexists _, _. eauto.
  - destruct (list_clear_spec h item_free l (F l) xs Hr) as (h' & -> & Hr' & Hc). eexists _, _. eauto.
  - destruct (free_spec h item_free l (F l) xs Hr) as (h' & -> & Ha). eexists _, _. split; [done|].
    split; [done|]. by eapply heap_rep_free.
Qed.

(** Two lists, an item behind the end of one of them. *)
Definition demo_lists : Z * heap := ov_linked_list_create (snd (ov_linked_list_create ∅)).
Lemma demo_lists_rep : heap_rep (snd demo_lists) (<[2 := []]> (<[1 := []]> ∅)).
Proof.
  apply (heap_rep_create (snd (ov_linked_list_create ∅)) _ 2); [|done].
  by apply (heap_rep_create ∅ ∅ 1); [apply heap_rep_empty|].
Qed.
Lemma linked_lists_refine_witness :
  match run_op (snd demo_lists) (Insert 2 3 7) with Some (_, h) => iterate h 2 | None => None end = Some [0; 0; 7] /\
  exists r h' L', run_op (snd demo_lists) (Insert 2 3 7) = Some (r, h') /\
    store_step (<[2 := []]> (<[1 := []]> ∅)) (Insert 2 3 7) r L' /\ heap_rep h' L'.
Proof.
  split; [by vm_compute|].
  apply (linked_lists_refine (snd demo_lists) (<[2 := []]> (<[1 := []]> ∅)) (Insert 2 3 7) demo_lists_rep).
  intros l [= <-]. by exists [].
Defined.
