(* ===== verification/VectorList.v ===== *)
(** * Vector lists (src/lib/ov_base/src/list/ov_vector_list.c)

    The second implementation of a list: an array of slots whose first slot is not
    used, with the position of the last item and a size. The array is the list of
    its slots; an access outside of it is [None]. What [realloc] leaves in new
    slots is arbitrary ([junk]). Positions and sizes are small enough for the
    memory, and there is enough of it.

    The contract is the one of [OvList.v], in the form [ListStore.v] gives it
    ([seq_op]), so both implementations have the same one. The vector keeps
    it, except that a vector that never grew is one slot short: at 98 items an
    insertion writes behind the array, at 99 items a removal reads behind it
    ([overruns]). *)
From S2P Require Import Prelude OvList LinkedList LinkedListRep LinkedListOps ListStore.

(** ** The code *)

Record VectorList := { vl_shrink : bool; vl_rate : nat; vl_last : nat; vl_size : nat; vl_items : list Z }.
Definition VECTOR_DEFAULT_SIZE : nat := 100.
Definition with_items (v : VectorList) (last : nat) (items : list Z) : VectorList :=
  {| vl_shrink := vl_shrink v; vl_rate := vl_rate v; vl_last := last; vl_size := vl_size v; vl_items := items |}.
Definition with_size (v : VectorList) (size : nat) (items : list Z) : VectorList :=
  {| vl_shrink := vl_shrink v; vl_rate := vl_rate v; vl_last := vl_last v; vl_size := size; vl_items := items |}.
(** Writing a slot. *)
Definition put (items : list Z) (i : nat) (x : Z) : option (list Z) :=
  if (i <? length items)%nat then Some (<[i := x]> items) else None.

Definition ov_vector_list_create : VectorList :=
  {| vl_shrink := false; vl_rate := VECTOR_DEFAULT_SIZE; vl_last := 0; vl_size := VECTOR_DEFAULT_SIZE;
     vl_items := replicate VECTOR_DEFAULT_SIZE 0 |}.
Definition ov_vector_list_set_shrink (v : VectorList) (shrink : bool) : bool * VectorList :=
  (true, {| vl_shrink := shrink; vl_rate := vl_rate v; vl_last := vl_last v; vl_size := vl_size v; vl_items := vl_items v |}).
Definition ov_vector_list_set_rate (v : VectorList) (rate : nat) : bool * VectorList :=
  if (rate <? 1)%nat then (false, v) else
  (true, {| vl_shrink := vl_shrink v; vl_rate := rate; vl_last := vl_last v; vl_size := vl_size v; vl_items := vl_items v |}).

(** [n] slots from [i] on are set to NULL. *)
Fixpoint null_slots (items : list Z) (i n : nat) : option (list Z) :=
  match n with O => Some items | S n => items ← put items i 0; null_slots items (S i) n end.
(** [items[i] = items[i + 1]] for [n] slots from [i] on. *)
Fixpoint shift_down (items : list Z) (i n : nat) : option (list Z) :=
  match n with O => Some items | S n => x ← items !! S i; items ← put items i x; shift_down items (S i) n end.
(** [items[i] = items[i - 1]] for [n] slots from [i] down. *)
Fixpoint shift_up (items : list Z) (i n : nat) : option (list Z) :=
  match n with O => Some items | S n => x ← items !! (i - 1)%nat; items ← put items i x; shift_up items (i - 1) n end.
(** The slots [i], [i + 1], ... are compared, [n] of them. *)
Fixpoint find_slot (items : list Z) (item : Z) (i n : nat) : option nat :=
  match n with
  | O => Some O
  | S n => x ← items !! i; if x =? item then Some i else find_slot items item (S i) n
  end.
(** What is given to the free function, in order; freeing NULL is nothing. *)
Fixpoint clear_slots (items : list Z) (item_free : bool) (i n : nat) (freed : list Z) : option (list Z * list Z) :=
  match n with
  | O => Some (freed, items)
  | S n =>
      x ← items !! i; items ← put items i 0;
      clear_slots items item_free (S i) n (if item_free && negb (x =? 0) then freed ++ [x] else freed)
  end.

Section code.
Context (junk : Z).

Definition vector_resize (vector : VectorList) (slots : nat) : option (bool * VectorList) :=
  if (slots =? 0)%nat || (slots - 1 <=? vl_last vector)%nat then Some (false, vector) else
  if (vl_size vector =? slots - 1)%nat then Some (true, vector) else
  let old_max := vl_size vector in
  let items := take slots (vl_items vector) ++ replicate (slots - length (vl_items vector)) junk in
  let size := (slots - 1)%nat in
  items ← null_slots items old_max (S size - old_max); Some (true, with_size vector size items).
Definition vector_auto_adjust (self : VectorList) : option (bool * VectorList) :=
  if (vl_size self <=? vl_last self)%nat then Some (false, self) else
  if (vl_last self =? vl_size self - 1)%nat then vector_resize self (vl_size self + vl_rate self + 1) else
  if negb (vl_shrink self) then Some (true, self) else
  if (vl_rate self <? vl_size self - vl_last self)%nat then vector_resize self (vl_last self + vl_rate self + 1)
  else Some (true, self).

Definition impl_vector_list_is_empty (list : VectorList) : bool := (vl_last list =? 0)%nat.
Definition impl_vector_list_clear (list : VectorList) (item_free : bool) : option (bool * Datatypes.list Z * VectorList) :=
  '(freed, items) ← clear_slots (vl_items list) item_free 0 (vl_size list) [];
  Some (true, freed, with_items list 0 items).
Definition impl_vector_list_get_pos (list : VectorList) (item : Z) : option nat :=
  if item =? 0 then Some O else find_slot (vl_items list) item 0 (S (vl_last list)).
Definition impl_vector_list_get (list : VectorList) (pos : nat) : option Z :=
  if (pos =? 0)%nat || (vl_last list <? pos)%nat then Some 0 else vl_items list !! pos.
(** Whether it succeeds, what [old] is set to, and the list. *)
Definition impl_vector_list_set (list : VectorList) (pos : nat) (item : Z) : option (bool * option Z * VectorList) :=
  if (pos =? 0)%nat then Some (false, None, list) else
  '(ok, list) ← (if (vl_size list <=? pos)%nat then vector_resize list (pos + 2) else Some (true, list));
  if negb ok then Some (false, None, list) else
  old ← vl_items list !! pos;
  items ← put (vl_items list) pos item;
  Some (true, Some old, with_items list (Nat.max (vl_last list) pos) items).
Definition impl_vector_list_insert (list : VectorList) (pos : nat) (item : Z) : option (bool * VectorList) :=
  if (pos =? 0)%nat then Some (false, list) else
  if (vl_last list <? pos)%nat then '(ok, _, list) ← impl_vector_list_set list pos item; Some (ok : bool, list) else
  '(ok, list) ← (if (vl_last list =? vl_size list - 1)%nat then vector_resize list (vl_size list + vl_rate list) else Some (true, list));
  if negb ok then Some (false, list) else
  let last := S (vl_last list) in
  items ← shift_up (vl_items list) (last + 1) (last + 1 - pos);
  items ← put items pos item; Some (true, with_items list last items).
Definition impl_vector_list_remove (list : VectorList) (pos : nat) : option (Z * VectorList) :=
  if (pos =? 0)%nat || (vl_last list <? pos)%nat then Some (0, list) else
  item ← vl_items list !! pos;
  items ← shift_down (vl_items list) pos (S (vl_last list) - pos);
  items ← put items (vl_last list) 0;
  '(_, list) ← vector_auto_adjust (with_items list (vl_last list - 1) items); Some (item, list).
Definition impl_vector_list_push (list : VectorList) (item : Z) : option (bool * VectorList) :=
  '(ok, list) ← (if (vl_last list =? vl_size list - 1)%nat then vector_resize list (vl_size list + vl_rate list) else Some (true, list));
  if negb ok then Some (false, list) else
  items ← put (vl_items list) (S (vl_last list)) item; Some (true, with_items list (S (vl_last list)) items).
Definition impl_vector_list_pop (list : VectorList) : option (Z * VectorList) :=
  if (vl_last list =? 0)%nat then Some (0, list) else
  item ← vl_items list !! vl_last list;
  items ← put (vl_items list) (vl_last list) 0;
  '(_, list) ← vector_auto_adjust (with_items list (vl_last list - 1) items); Some (item, list).
Definition impl_vector_list_count (list : VectorList) : nat :=
  if impl_vector_list_is_empty list then O else vl_last list.
(** The callback gets the slots [i], [i + 1], ..., [n] of them. *)
Fixpoint each_slot {A} (items : list Z) (function : Z -> A -> bool * A) (i n : nat) (data : A) : option (bool * A) :=
  match n with
  | O => Some (true, data)
  | S n => x ← items !! i; let '(ok, data) := function x data in
           if ok then each_slot items function (S i) n data else Some (false, data)
  end.
Definition impl_vector_list_for_each {A} (list : VectorList) (data : A) (function : Z -> A -> bool * A) : option (bool * A) :=
  if (vl_last list =? 0)%nat then Some (true, data) else each_slot (vl_items list) function 1 (vl_last list) data.
(** An iterator is the pointer in the first slot, which is NULL, advanced by the
    position. *)
Definition impl_vector_list_iter (list : VectorList) : option Z :=
  if impl_vector_list_is_empty list then Some 0 else x ← vl_items list !! O; Some (x + 1).
Definition impl_vector_list_next (list : VectorList) (iter : Z) : option (Z * Z) :=
  if iter =? 0 then Some (0, 0) else
  x ← vl_items list !! O;
  if Z.of_nat (vl_last list) <? iter - x then Some (0, 0) else
  let pos := iter - x in
  if pos <? 0 then None else
  element ← vl_items list !! Z.to_nat pos;
  Some (if pos =? Z.of_nat (vl_last list) then 0 else x + pos + 1, element).
(** NULL, or the list when it cannot be cleared; and what was freed. *)
Definition impl_vector_list_free (list : VectorList) (item_free : bool) : option (option VectorList * Datatypes.list Z) :=
  '(ok, freed, list) ← impl_vector_list_clear list item_free; Some (if ok : bool then None else Some list, freed).
End code.

(** ** The slots and the items *)

(** The slot of a position holds the item there, or NULL. *)
Record vec_rep (v : VectorList) (xs : list Z) : Prop := {
  vr_last : vl_last v = length xs;
  vr_size : (length xs < vl_size v)%nat;
  vr_slots : length (vl_items v) = vl_size v \/ length (vl_items v) = S (vl_size v);
  vr_items j : (j < length (vl_items v))%nat -> vl_items v !! j = Some (list_get xs j);
  vr_rate : (2 <= vl_rate v)%nat
}.
(** The same without the condition on the rate of growth, which a client may set. *)
Definition holds_items (v : VectorList) (xs : list Z) : Prop :=
  vl_last v = length xs /\ (length xs < vl_size v)%nat /\
  (length (vl_items v) = vl_size v \/ length (vl_items v) = S (vl_size v)) /\
  forall j, (j < length (vl_items v))%nat -> vl_items v !! j = Some (list_get xs j).
Lemma vec_rep_holds v xs : vec_rep v xs <-> holds_items v xs /\ (2 <= vl_rate v)%nat.
Proof. split; [intros []; by split|]. by intros [(? & ? & ? & ?) ?]. Qed.

Lemma list_get_beyond xs j : (length xs < j)%nat -> list_get xs j = 0.
Proof. intros H. destruct j as [|j]; [lia|]. cbn. rewrite lookup_ge_None_2; [done|lia]. Qed.
Lemma list_get_in xs i x : xs !! i = Some x -> list_get xs (S i) = x.
Proof. cbn. by intros ->. Qed.
Lemma list_get_push xs x j : list_get (xs ++ [x]) j = if decide (j = S (length xs)) then x else list_get xs j.
Proof.
  destruct j as [|j]; [done|]. cbn. case_decide as E.
  - injection E as ->. by rewrite lookup_app_r, Nat.sub_diag by lia.
  - destruct (decide (j < length xs)%nat); [by rewrite lookup_app_l|]. rewrite !lookup_ge_None_2; [done|lia|rewrite length_app; cbn; lia].
Qed.
Lemma list_get_pad n xs j : list_get (pad_to n xs) j = list_get xs j.
Proof.
  destruct j as [|j]; [done|]. unfold pad_to. cbn. destruct (decide (j < length xs)%nat) as [H|H]; [by rewrite lookup_app_l|].
  rewrite lookup_app_r by lia. rewrite (lookup_ge_None_2 xs) by lia.
  destruct (decide (j - length xs < n - length xs)%nat); [by rewrite lookup_replicate_2|]. by rewrite lookup_ge_None_2 by (rewrite length_replicate; lia).
Qed.
Lemma list_get_pop xs j : list_get (removelast xs) j = if decide (j = length xs) then 0 else list_get xs j.
Proof.
  destruct xs as [|x xs _] using rev_ind; [by destruct j; cbn; case_decide|]. rewrite removelast_last, list_get_push, length_app. cbn.
  rewrite Nat.add_1_r. case_decide as E; [|done]. subst. by rewrite list_get_beyond by lia.
Qed.
Lemma list_get_set xs i x j : (i < length xs)%nat -> list_get (<[i := x]> xs) j = if decide (j = S i) then x else list_get xs j.
Proof.
  intros Hi. destruct j as [|j]; [done|]. cbn. case_decide as E.
  - injection E as ->. by rewrite list_lookup_insert_eq.
  - rewrite list_lookup_insert_ne by congruence. done.
Qed.
Lemma list_get_remove xs i j : list_get (delete i xs) j = if decide (j < S i)%nat then list_get xs j else list_get xs (S j).
Proof.
  destruct j as [|j]; [done|]. cbn. case_decide as E.
  - by rewrite list_lookup_delete_lt by lia.
  - by rewrite list_lookup_delete_ge by lia.
Qed.
Lemma list_get_insert xs i x j : (i <= length xs)%nat -> list_get (take i xs ++ x :: drop i xs) j =
  if decide (j = S i) then x else if decide (j < S i)%nat then list_get xs j else list_get xs (j - 1).
Proof.
  intros Hi. destruct j as [|j]; [done|]. cbn [list_get]. assert (Hl : length (take i xs) = i) by (rewrite length_take; lia).
  case_decide as E; [|case_decide as E'].
  - injection E as ->. by rewrite lookup_app_r, Hl, Nat.sub_diag by lia.
  - rewrite lookup_app_l by lia. by rewrite lookup_take_lt by lia.
  - rewrite lookup_app_r by lia. rewrite Hl. destruct (j - i)%nat as [|m] eqn:Em; [lia|].
    change ((x :: drop i xs) !! S m) with (drop i xs !! m). rewrite lookup_drop.
    destruct j as [|j]; [lia|]. replace (i + m)%nat with j by lia. by rewrite Nat.sub_succ, Nat.sub_0_r.
Qed.

(** ** The loops *)

Lemma put_Some items i x : (i < length items)%nat -> put items i x = Some (<[i := x]> items).
Proof. intros H. unfold put. by rewrite (proj2 (Nat.ltb_lt _ _)). Qed.
Lemma put_None items i x : (length items <= i)%nat -> put items i x = None.
Proof. intros H. unfold put. by rewrite (proj2 (Nat.ltb_ge _ _)). Qed.
Lemma null_slots_spec items i n : n = O \/ (i + n <= length items)%nat -> exists items', null_slots items i n = Some items' /\
  length items' = length items /\ forall j, items' !! j = if decide (i <= j < i + n)%nat then Some 0 else items !! j.
Proof.
  revert items i. induction n as [|n IH]; intros items i H; cbn [null_slots].
  { exists items. split; [done|]. split; [done|]. intros j. rewrite decide_False by lia. done. }
  rewrite put_Some by lia. cbn [mbind option_bind]. destruct (IH (<[i := 0]> items) (S i)) as (items' & -> & Hl & Hj).
  { rewrite length_insert. lia. } rewrite length_insert in Hl. exists items'. split; [done|]. split; [done|].
  intros j. rewrite Hj. destruct (decide (j = i)) as [->|].
  - rewrite decide_False, decide_True by lia. apply list_lookup_insert_eq. lia.
  - rewrite list_lookup_insert_ne by done. by repeat case_decide; try lia.
Qed.
Lemma shift_down_spec items i n : (i + n < length items)%nat -> exists items', shift_down items i n = Some items' /\
  length items' = length items /\ forall j, items' !! j = if decide (i <= j < i + n)%nat then items !! S j else items !! j.
Proof.
  revert items i. induction n as [|n IH]; intros items i H; cbn [shift_down].
  { exists items. split; [done|]. split; [done|]. intros j. rewrite decide_False by lia. done. }
  destruct (lookup_lt_is_Some_2 items (S i)) as [x Hx]; [lia|]. rewrite Hx. cbn [mbind option_bind]. rewrite put_Some by lia. cbn [mbind option_bind].
  destruct (IH (<[i := x]> items) (S i)) as (items' & -> & Hl & Hj).
  { rewrite length_insert. lia. } rewrite length_insert in Hl. exists items'. split; [done|]. split; [done|].
  intros j. rewrite Hj. destruct (decide (j = i)) as [->|].
  - rewrite decide_False, decide_True by lia. rewrite list_lookup_insert_eq by lia. done.
  - repeat case_decide; try lia; by rewrite list_lookup_insert_ne by lia.
Qed.
Lemma shift_up_spec items i n : (n <= i)%nat -> (i < length items)%nat -> exists items', shift_up items i n = Some items' /\
  length items' = length items /\ forall j, items' !! j = if decide (i - n < j <= i)%nat then items !! (j - 1)%nat else items !! j.
Proof.
  revert items i. induction n as [|n IH]; intros items i Hn H; cbn [shift_up].
  { exists items. split; [done|]. split; [done|]. intros j. rewrite decide_False by lia. done. }
  destruct (lookup_lt_is_Some_2 items (i - 1)) as [x Hx]; [lia|]. rewrite Hx. cbn [mbind option_bind]. rewrite put_Some by lia. cbn [mbind option_bind].
  destruct (IH (<[i := x]> items) (i - 1)%nat) as (items' & -> & Hl & Hj); [lia| |].
  { rewrite length_insert. lia. } rewrite length_insert in Hl. exists items'. split; [done|]. split; [done|].
  intros j. rewrite Hj. destruct (decide (j = i)) as [->|].
  - rewrite decide_False, decide_True by lia. rewrite list_lookup_insert_eq by lia. done.
  - destruct (decide (i - 1 - n < j <= i - 1)%nat).
    + rewrite decide_True by lia. rewrite list_lookup_insert_ne by lia. done.
    + rewrite decide_False by lia. by rewrite list_lookup_insert_ne by done.
Qed.
(** An overrun. *)
Lemma shift_down_overrun items i n : length items = (i + n)%nat -> (0 < n)%nat -> shift_down items i n = None.
Proof.
  revert items i. induction n as [|n IH]; intros items i H Hn; [lia|]. cbn [shift_down].
  destruct (items !! S i) as [x|] eqn:Ex; [|done]. cbn [mbind option_bind]. apply lookup_lt_Some in Ex.
  rewrite put_Some by lia. cbn [mbind option_bind]. apply IH; [rewrite length_insert|]; lia.
Qed.

(** ** The operations *)

Section ops.
Context (junk : Z).

Lemma vec_length v xs : vec_rep v xs -> (length xs < length (vl_items v))%nat /\ (vl_size v <= length (vl_items v))%nat.
Proof. intros R. pose proof (vr_size _ _ R). destruct (vr_slots _ _ R); lia. Qed.
(** A changed array with its number of items. *)
Lemma vec_rep_with v xs xs' items : vec_rep v xs -> length items = length (vl_items v) -> (length xs' < vl_size v)%nat ->
  (forall j, (j < length items)%nat -> items !! j = Some (list_get xs' j)) -> vec_rep (with_items v (length xs') items) xs'.
Proof.
  intros R Hl Hs Hi. pose proof (vr_slots _ _ R) as Hsl. pose proof (vr_rate _ _ R). split; cbn [with_items vl_last vl_size vl_items vl_rate]; try done.
  by rewrite Hl.
Qed.
Lemma vector_resize_spec v xs slots : vec_rep v xs -> (S (length xs) < slots)%nat ->
  exists v', vector_resize junk v slots = Some (true, v') /\ vec_rep v' xs /\ vl_size v' = (slots - 1)%nat /\
    (slots <> S (vl_size v) -> length (vl_items v') = slots).
Proof.
  intros R Hs. pose proof (vec_length v xs R) as [Hl Hsl]. pose proof (vr_size _ _ R). unfold vector_resize. rewrite (vr_last _ _ R).
  rewrite (proj2 (Nat.eqb_neq slots 0)), (proj2 (Nat.leb_gt _ _)) by lia. cbn [orb].
  destruct (Nat.eqb_spec (vl_size v) (slots - 1)) as [E|E]; [exists v; split; [done|]; split; [done|]; split; [done|]; lia|].
  assert (Hi : forall j, (j < vl_size v)%nat -> (j < slots)%nat ->
    (take slots (vl_items v) ++ replicate (slots - length (vl_items v)) junk) !! j = Some (list_get xs j)).
  { intros j Hj Hjs. rewrite lookup_app_l by (rewrite length_take; lia). rewrite lookup_take_lt by lia. apply (vr_items _ _ R). lia. }
  set (items := take slots (vl_items v) ++ _) in *. assert (Hlen : length items = slots).
  { unfold items. rewrite length_app, length_take, length_replicate. lia. }
  destruct (null_slots_spec items (vl_size v) (S (slots - 1) - vl_size v)) as (items' & E' & Hl' & Hj); [lia|].
  rewrite E'. cbn [mbind option_bind]. eexists. split; [done|]. split; [|split; [done|cbn; lia]].
  split; cbn [with_size vl_last vl_size vl_items vl_rate]; try apply R; [lia|lia|].
  intros j Hlt. rewrite Hj. case_decide; [|apply Hi; lia]. by rewrite list_get_beyond by lia.
Qed.
Lemma vector_auto_adjust_spec v xs : vec_rep v xs -> exists b v', vector_auto_adjust junk v = Some (b, v') /\ vec_rep v' xs.
Proof.
  intros R. pose proof (vr_last _ _ R) as El. pose proof (vr_size _ _ R) as Hs. pose proof (vr_rate _ _ R) as Hr. unfold vector_auto_adjust.
  assert (Hz : forall slots, (S (length xs) < slots)%nat -> exists b v', vector_resize junk v slots = Some (b, v') /\ vec_rep v' xs).
  { intros slots Hsl. destruct (vector_resize_spec v xs slots R Hsl) as (v' & E & R' & _). eauto. }
  rewrite (proj2 (Nat.leb_gt _ _)) by lia. destruct (Nat.eqb_spec (vl_last v) (vl_size v - 1)); [apply Hz; lia|].
  destruct (vl_shrink v); cbn [negb]; [|by eauto]. destruct (vl_rate v <? vl_size v - vl_last v)%nat; [apply Hz; lia|by eauto].
Qed.
(** Room for one more item. *)
Lemma vector_room_spec v xs : vec_rep v xs -> exists v',
  (if (vl_last v =? vl_size v - 1)%nat then vector_resize junk v (vl_size v + vl_rate v) else Some (true, v)) = Some (true, v') /\
  vec_rep v' xs /\ (S (length xs) < vl_size v')%nat /\
  (vl_last v = (vl_size v - 1)%nat -> length (vl_items v') = S (vl_size v')) /\ (vl_last v <> (vl_size v - 1)%nat -> v' = v).
Proof.
  intros R. pose proof (vr_last _ _ R) as El. pose proof (vr_size _ _ R) as Hs. pose proof (vr_rate _ _ R) as Hr.
  destruct (Nat.eqb_spec (vl_last v) (vl_size v - 1)) as [E|E]; [|exists v; repeat split; (done || lia || apply R)].
  destruct (vector_resize_spec v xs (vl_size v + vl_rate v) R) as (v' & -> & R' & Es & Ei); [lia|]. exists v'. rewrite Es, Ei by lia.
  split; [done|]. split; [done|]. split; [lia|]. split; [lia|done].
Qed.
Lemma vec_push v xs item : vec_rep v xs -> exists v', impl_vector_list_push junk v item = Some (true, v') /\ vec_rep v' (list_push xs item).
Proof.
  intros R. unfold impl_vector_list_push. destruct (vector_room_spec v xs R) as (v1 & -> & R1 & Hs & _). cbn [mbind option_bind negb].
  pose proof (vec_length v1 _ R1) as [Hl Hsl]. rewrite (vr_last _ _ R1). rewrite put_Some by lia. cbn [mbind option_bind].
  eexists. split; [done|]. unfold list_push. replace (S (length xs)) with (length (xs ++ [item])) at 1 by (rewrite length_app; cbn; lia).
  eapply vec_rep_with; [done|by rewrite length_insert|rewrite length_app; cbn; lia|]. rewrite length_insert. intros j Hj. rewrite list_get_push.
  case_decide as E; [rewrite E in Hj |- *; by apply list_lookup_insert_eq|]. rewrite list_lookup_insert_ne by done. by apply (vr_items _ _ R1).
Qed.
Lemma vec_pop v xs : vec_rep v xs -> exists v', impl_vector_list_pop junk v = Some (fst (list_pop xs), v') /\ vec_rep v' (snd (list_pop xs)).
Proof.
  intros R. pose proof (vec_length v _ R) as [Hl Hsl]. pose proof (vr_size _ _ R). unfold impl_vector_list_pop. rewrite (vr_last _ _ R).
  destruct (Nat.eqb_spec (length xs) 0) as [E|E]; [destruct xs; [|done]; by exists v|].
  rewrite (vr_items _ _ R) by lia. cbn [mbind option_bind]. rewrite put_Some by lia. cbn [mbind option_bind].
  assert (Hlen : length (removelast xs) = (length xs - 1)%nat).
  { destruct xs as [|y ys _] using rev_ind; [done|]. rewrite removelast_last, length_app. cbn. lia. }
  destruct (vector_auto_adjust_spec (with_items v (length xs - 1) (<[length xs:=0]> (vl_items v))) (removelast xs)) as (b & v' & -> & R').
  - rewrite <- Hlen. eapply vec_rep_with; [done|by rewrite length_insert|lia|]. rewrite length_insert. intros j Hj. rewrite list_get_pop.
    case_decide as E'; [rewrite E'; apply list_lookup_insert_eq; lia|]. rewrite list_lookup_insert_ne by done. by apply (vr_items _ _ R).
  - cbn [mbind option_bind]. exists v'. split; [|done]. do 2 f_equal. destruct xs as [|y ys _] using rev_ind; [done|].
    unfold list_pop. cbn [fst]. rewrite last_snoc, length_app, Nat.add_1_r. cbn. by rewrite lookup_app_r, Nat.sub_diag by lia.
Qed.
Lemma vec_get v xs pos : vec_rep v xs -> impl_vector_list_get v pos = Some (list_get xs pos).
Proof.
  intros R. pose proof (vec_length v _ R) as [Hl _]. unfold impl_vector_list_get. rewrite (vr_last _ _ R).
  destruct (Nat.eqb_spec pos 0) as [->|]; [done|]. cbn [orb]. destruct (Nat.ltb_spec (length xs) pos); [by rewrite list_get_beyond|].
  apply (vr_items _ _ R). lia.
Qed.
Lemma vec_set v xs pos item : vec_rep v xs -> exists v', impl_vector_list_set junk v pos item =
    Some (fst (fst (list_set xs pos item)), (if (pos =? 0)%nat then None else Some (list_get xs pos)), v') /\
  vec_rep v' (snd (list_set xs pos item)).
Proof.
  intros R. unfold impl_vector_list_set. destruct (Nat.eqb_spec pos 0) as [->|Hp]; [by exists v|].
  assert (exists v1, (if (vl_size v <=? pos)%nat then vector_resize junk v (pos + 2) else Some (true, v)) = Some (true, v1) /\
    vec_rep v1 xs /\ (pos < vl_size v1)%nat) as (v1 & -> & R1 & Hs).
  { pose proof (vr_size _ _ R). destruct (Nat.leb_spec (vl_size v) pos); [|by exists v].
    destruct (vector_resize_spec v xs (pos + 2) R) as (v1 & -> & R1 & Es & _); [lia|]. exists v1. split; [done|]. split; [done|lia]. }
  cbn [mbind option_bind negb]. pose proof (vec_length v1 _ R1) as [Hl Hsl]. pose proof (vr_size _ _ R1).
  rewrite (vr_items _ _ R1) by lia. cbn [mbind option_bind]. rewrite put_Some by lia. cbn [mbind option_bind]. rewrite (vr_last _ _ R1).
  eexists. split; [destruct pos; [done|]; cbn; by destruct (xs !! pos)|].
  assert (Hx : forall xs', length xs' = Nat.max (length xs) pos ->
    (forall j, list_get xs' j = if decide (j = pos) then item else list_get xs j) ->
    vec_rep (with_items v1 (Nat.max (length xs) pos) (<[pos:=item]> (vl_items v1))) xs').
  { intros xs' Hlen Hg. rewrite <- Hlen. eapply vec_rep_with; [done|by rewrite length_insert|lia|]. rewrite length_insert. intros j Hj.
    rewrite Hg. case_decide as E; [rewrite E; apply list_lookup_insert_eq; lia|]. rewrite list_lookup_insert_ne by done. by apply (vr_items _ _ R1). }
  destruct pos as [|i]; [done|]. cbn [list_set]. destruct (xs !! i) as [old|] eqn:Eo; cbn [snd]; apply Hx.
  - rewrite length_insert. apply lookup_lt_Some in Eo. lia.
  - intros j. apply list_get_set. by eapply lookup_lt_Some.
  - apply lookup_ge_None in Eo. rewrite length_app, length_pad_to. cbn. lia.
  - intros j. apply lookup_ge_None in Eo. rewrite list_get_push, length_pad_to. replace (Nat.max i (length xs)) with i by lia. by rewrite list_get_pad.
Qed.

(** A vector that never grew has a slot too few. *)
Definition overruns (v : VectorList) (op : list_op) : Prop :=
  length (vl_items v) = vl_size v /\
  match op with
  | Insert _ pos _ => (1 <= pos <= vl_last v)%nat /\ (vl_last v + 2 = vl_size v)%nat
  | Remove _ pos => (1 <= pos <= vl_last v)%nat /\ (vl_last v + 1 = vl_size v)%nat
  | _ => False
  end.
Lemma vec_insert v xs pos item l : vec_rep v xs -> ~ overruns v (Insert l pos item) ->
  exists v', impl_vector_list_insert junk v pos item = Some (fst (list_insert xs pos item), v') /\ vec_rep v' (snd (list_insert xs pos item)).
Proof.
  intros R Hno. unfold impl_vector_list_insert. destruct (Nat.eqb_spec pos 0) as [->|Hp]; [by exists v|].
  destruct pos as [|i]; [done|]. clear Hp. cbn [list_insert fst snd]. unfold overruns in Hno. rewrite (vr_last _ _ R) in *.
  destruct (Nat.ltb_spec (length xs) (S i)) as [Hb|Hb].
  - destruct (vec_set v xs (S i) item R) as (v' & -> & R'). cbn [mbind option_bind]. exists v'.
    cbn [list_set] in *. rewrite (lookup_ge_None_2 xs) in * by lia. cbn [fst snd] in *. split; [done|].
    assert (Hlp : length (pad_to i xs) = i) by (rewrite length_pad_to; lia). rewrite take_ge, drop_ge by lia. done.
  - rewrite pad_to_le by lia. pose proof (vr_last _ _ R) as El. destruct (vector_room_spec v xs R) as (v1 & E1 & R1 & Hs & Hg & Hk). rewrite El in E1. rewrite E1.
    cbn [mbind option_bind negb]. rewrite (vr_last _ _ R1). pose proof (vec_length v1 _ R1) as [Hl Hsl].
    assert (Hroom : (S (length xs) + 1 < length (vl_items v1))%nat).
    { destruct (decide (vl_last v = vl_size v - 1)%nat) as [E|E]; [rewrite (Hg E); lia|]. rewrite (Hk E) in *.
      pose proof (vr_slots _ _ R). assert (~ (length (vl_items v) = vl_size v /\ (length xs + 2 = vl_size v)%nat)) by (intros [? ?]; apply Hno; split; lia). lia. }
    destruct (shift_up_spec (vl_items v1) (S (length xs) + 1) (S (length xs) + 1 - S i)) as (items & -> & Hli & Hj); [lia|lia|].
    cbn [mbind option_bind]. rewrite put_Some by lia. cbn [mbind option_bind]. eexists. split; [done|].
    assert (Hlx : length (take i xs ++ item :: drop i xs) = S (length xs)).
    { rewrite length_app, length_take. cbn. rewrite length_drop. lia. }
    rewrite <- Hlx. eapply vec_rep_with; [done|by rewrite length_insert|lia|]. rewrite length_insert. intros j Hlt. rewrite list_get_insert by lia.
    case_decide as E; [rewrite E; apply list_lookup_insert_eq; lia|]. rewrite list_lookup_insert_ne by done. rewrite Hj.
    destruct (decide (j < S i)%nat).
    + rewrite decide_False by lia. apply (vr_items _ _ R1). lia.
    + destruct (decide (S (length xs) + 1 - (S (length xs) + 1 - S i) < j <= S (length xs) + 1)%nat); [apply (vr_items _ _ R1); lia|].
      rewrite (vr_items _ _ R1) by lia. by rewrite !list_get_beyond by lia.
Qed.
Lemma vec_remove v xs pos l : vec_rep v xs -> ~ overruns v (Remove l pos) ->
  exists v', impl_vector_list_remove junk v pos = Some (fst (list_remove xs pos), v') /\ vec_rep v' (snd (list_remove xs pos)).
Proof.
  intros R Hno. unfold impl_vector_list_remove. unfold overruns in Hno. rewrite (vr_last _ _ R) in *.
  destruct pos as [|i]; [by exists v|]. cbn [Nat.eqb orb list_remove]. destruct (Nat.ltb_spec (length xs) (S i)) as [Hb|Hb].
  { rewrite lookup_ge_None_2 by lia. by exists v. }
  pose proof (vec_length v _ R) as [Hl Hsl]. pose proof (vr_size _ _ R). destruct (lookup_lt_is_Some_2 xs i) as [x Hx]; [lia|]. rewrite Hx. cbn [fst snd].
  rewrite (vr_items _ _ R) by lia. rewrite (list_get_in xs i x Hx). cbn [mbind option_bind].
  assert (Hroom : (S (length xs) < length (vl_items v))%nat).
  { pose proof (vr_slots _ _ R). assert (~ (length (vl_items v) = vl_size v /\ (length xs + 1 = vl_size v)%nat)) by (intros [? ?]; apply Hno; split; lia). lia. }
  destruct (shift_down_spec (vl_items v) (S i) (S (length xs) - S i)) as (items & -> & Hli & Hj); [lia|]. cbn [mbind option_bind].
  rewrite put_Some by lia. cbn [mbind option_bind]. assert (Hlx : length (delete i xs) = (length xs - 1)%nat) by (apply length_delete; by eexists).
  destruct (vector_auto_adjust_spec (with_items v (length xs - 1) (<[length xs:=0]> items)) (delete i xs)) as (b & v' & -> & R').
  - rewrite <- Hlx. eapply vec_rep_with; [done|by rewrite length_insert|lia|]. rewrite length_insert. intros j Hlt. rewrite list_get_remove.
    destruct (decide (j = length xs)) as [->|E].
    + rewrite list_lookup_insert_eq by lia. rewrite decide_False by lia. by rewrite list_get_beyond by lia.
    + rewrite list_lookup_insert_ne by done. rewrite Hj. destruct (decide (j < S i)%nat).
      * rewrite decide_False by lia. apply (vr_items _ _ R). lia.
      * destruct (decide (S i <= j < S i + (S (length xs) - S i))%nat); [apply (vr_items _ _ R); lia|].
        rewrite (vr_items _ _ R) by lia. by rewrite !list_get_beyond by lia.
  - cbn [mbind option_bind]. by exists v'.
Qed.
Lemma vec_overruns v xs op : vec_rep v xs -> overruns v op -> match op with
  | Insert _ pos item => impl_vector_list_insert junk v pos item = None
  | Remove _ pos => impl_vector_list_remove junk v pos = None
  | _ => True end.
Proof.
  intros R [Hsl Ho]. pose proof (vr_last _ _ R) as El. destruct op; try done.
  - destruct Ho as [Hp Ho]. unfold impl_vector_list_insert. rewrite (proj2 (Nat.eqb_neq pos 0)), (proj2 (Nat.ltb_ge _ _)) by lia.
    destruct (Nat.eqb_spec (vl_last v) (vl_size v - 1)); [lia|]. cbn [mbind option_bind negb].
    replace (S (vl_last v) + 1 - pos)%nat with (S (S (vl_last v) - pos)) by lia. cbn [shift_up].
    destruct (vl_items v !! (S (vl_last v) + 1 - 1)%nat); [|done]. cbn [mbind option_bind]. by rewrite put_None by lia.
  - destruct Ho as [Hp Ho]. unfold impl_vector_list_remove. rewrite (proj2 (Nat.eqb_neq pos 0)), (proj2 (Nat.ltb_ge _ _)) by lia. cbn [orb].
    destruct (vl_items v !! pos); [|done]. cbn [mbind option_bind]. by rewrite shift_down_overrun by lia.
Qed.

(** ** Walking over the items *)

(** The slots from [i] on hold [ys]. *)
Definition holds (items : list Z) (i : nat) (ys : list Z) : Prop := forall j y, ys !! j = Some y -> items !! (i + j)%nat = Some y.
Lemma holds_cons items i y ys : holds items i (y :: ys) -> items !! i = Some y /\ holds items (S i) ys.
Proof.
  intros H. split; [rewrite <- (Nat.add_0_r i); by apply (H O)|]. intros j z Hz. rewrite Nat.add_succ_l, <- Nat.add_succ_r. by apply (H (S j)).
Qed.
Lemma vec_holds v xs : vec_rep v xs -> vl_items v !! O = Some 0 /\ holds (vl_items v) 1 xs.
Proof.
  intros R. pose proof (vec_length v _ R) as [Hl _]. split; [by apply (vr_items _ _ R); lia|]. intros j y Hy. cbn [Nat.add].
  rewrite (vr_items _ _ R) by (apply lookup_lt_Some in Hy; lia). by rewrite (list_get_in xs j y Hy).
Qed.
Lemma find_slot_spec items item i ys : holds items i ys -> find_slot items item i (length ys) = Some (find_pos ys item i).
Proof.
  revert i. induction ys as [|y ys IH]; intros i H; [done|]. apply holds_cons in H as [Hy H]. cbn [length find_slot find_pos].
  rewrite Hy. cbn [mbind option_bind]. destruct (y =? item); [done|]. by apply IH.
Qed.
Lemma vec_get_pos v xs item : vec_rep v xs -> impl_vector_list_get_pos v item = Some (list_get_pos xs item).
Proof.
  intros R. destruct (vec_holds v xs R) as [H0 H]. unfold impl_vector_list_get_pos, list_get_pos. destruct (Z.eqb_spec item 0); [done|].
  rewrite (vr_last _ _ R). cbn [find_slot]. rewrite H0. cbn [mbind option_bind]. rewrite (proj2 (Z.eqb_neq 0 item)) by lia. by apply find_slot_spec.
Qed.
Lemma vec_for_each {A} v xs (f : Z -> A -> bool * A) a : vec_rep v xs -> impl_vector_list_for_each v a f = Some (list_for_each xs f a).
Proof.
  intros R. destruct (vec_holds v xs R) as [_ H]. unfold impl_vector_list_for_each. rewrite (vr_last _ _ R).
  destruct (Nat.eqb_spec (length xs) 0) as [E|_]; [by destruct xs|]. clear R. revert H. generalize 1%nat as i. revert a.
  induction xs as [|x xs IH]; intros a i H; [done|]. apply holds_cons in H as [Hx H]. cbn [length each_slot list_for_each]. rewrite Hx. cbn [mbind option_bind].
  destruct (f x a) as [[] a']; [by apply IH|done].
Qed.
Lemma clear_vector_spec items b i n freed : (i + n <= length items)%nat -> exists items',
  clear_slots items b i n freed = Some (freed ++ (if b then filter (fun x => x <> 0) (take n (drop i items)) else []), items') /\
  length items' = length items /\ forall j, items' !! j = if decide (i <= j < i + n)%nat then Some 0 else items !! j.
Proof.
  revert items i freed. induction n as [|n IH]; intros items i freed H; cbn [clear_slots].
  { exists items. split; [|split; [done|]]; [by destruct b; rewrite app_nil_r|]. intros j. by rewrite decide_False by lia. }
  destruct (lookup_lt_is_Some_2 items i) as [x Hx]; [lia|]. rewrite Hx. cbn [mbind option_bind]. rewrite put_Some by lia. cbn [mbind option_bind].
  destruct (IH (<[i := 0]> items) (S i) (if b && negb (x =? 0) then freed ++ [x] else freed)) as (items' & -> & Hl & Hj).
  { rewrite length_insert. lia. } rewrite length_insert in Hl. exists items'. split; [|split; [done|]].
  - do 2 f_equal. rewrite (drop_S items x i Hx). cbn [take]. rewrite drop_insert_lt by lia. destruct b; [|done]. cbn [andb].
    rewrite filter_cons. destruct (Z.eqb_spec x 0) as [->|Hne]; cbn [negb].
    + by rewrite decide_False by (intros Hf; by apply Hf).
    + rewrite decide_True by done. by rewrite <- app_assoc.
  - intros j. rewrite Hj. destruct (decide (j = i)) as [->|].
    + rewrite decide_False, decide_True by lia. apply list_lookup_insert_eq. lia.
    + rewrite list_lookup_insert_ne by done. by repeat case_decide; try lia.
Qed.
Lemma filter_zeros n : filter (fun x : Z => x <> 0) (replicate n 0) = [].
Proof. induction n as [|n IH]; [done|]. cbn [replicate]. rewrite filter_cons, decide_False by (intros Hf; by apply Hf). done. Qed.
Lemma vec_clear v xs b : vec_rep v xs -> exists v',
  impl_vector_list_clear v b = Some (true, if b then filter (fun x => x <> 0) xs else [], v') /\ vec_rep v' [].
Proof.
  intros R. pose proof (vec_length v _ R) as [Hl Hsl]. pose proof (vr_size _ _ R) as Hs. unfold impl_vector_list_clear.
  destruct (clear_vector_spec (vl_items v) b 0 (vl_size v) []) as (items & -> & Hli & Hj); [lia|]. cbn [mbind option_bind app].
  eexists. split.
  - do 3 f_equal. destruct b; [|done]. rewrite drop_0.
    assert (E : take (vl_size v) (vl_items v) = 0 :: xs ++ replicate (vl_size v - S (length xs)) 0).
    { apply list_eq. intros j. destruct (decide (j < vl_size v)%nat) as [Hlt|Hge].
      - rewrite lookup_take_lt by done. rewrite (vr_items _ _ R) by lia. destruct j as [|j]; [done|]. rewrite lookup_cons. cbn [list_get].
        destruct (xs !! j) as [x|] eqn:Ex; [by rewrite (lookup_app_l_Some _ _ _ _ Ex)|].
        rewrite lookup_app_r by (by apply lookup_ge_None). apply lookup_ge_None in Ex. by rewrite lookup_replicate_2 by lia.
      - rewrite !lookup_ge_None_2; [done| |rewrite length_take; lia]. cbn. rewrite length_app, length_replicate. lia. }
    rewrite E, filter_cons, decide_False by (intros Hf; by apply Hf). by rewrite filter_app, filter_zeros, app_nil_r.
  - apply (vec_rep_with v xs [] items R Hli); [cbn; lia|]. intros j Hlt. rewrite Hj. assert (list_get [] j = 0) as -> by (by destruct j).
    destruct (decide (0 <= j < 0 + vl_size v)%nat); [done|]. rewrite (vr_items _ _ R) by lia. by rewrite list_get_beyond by lia.
Qed.
End ops.

(** ** The vector keeps the contract *)

(** A client's loop over the iterators. *)
Fixpoint vec_walk (fuel : nat) (v : VectorList) (iter : Z) : option (list Z) :=
  match fuel with
  | O => None
  | S fuel => if iter =? 0 then Some [] else
      '(iter, x) ← impl_vector_list_next v iter; xs ← vec_walk fuel v iter; Some (x :: xs)
  end.
Definition vec_iterate (v : VectorList) : option (list Z) := iter ← impl_vector_list_iter v; vec_walk (S (vl_size v)) v iter.
Definition vec_op (junk : Z) (v : VectorList) (op : list_op) : option (list_result * option VectorList) :=
  match op with
  | Create => Some (Address 0, Some v)
  | Push _ item => '(b, v) ← impl_vector_list_push junk v item; Some (Flag b, Some v)
  | Pop _ => '(x, v) ← impl_vector_list_pop junk v; Some (Item x, Some v)
  | Get _ pos => x ← impl_vector_list_get v pos; Some (Item x, Some v)
  | Set_ _ pos item => '(b, old, v) ← impl_vector_list_set junk v pos item; Some (Replaced b old, Some v)
  | Insert _ pos item => '(b, v) ← impl_vector_list_insert junk v pos item; Some (Flag b, Some v)
  | Remove _ pos => '(x, v) ← impl_vector_list_remove junk v pos; Some (Item x, Some v)
  | Count _ => Some (Number (impl_vector_list_count v), Some v)
  | IsEmpty _ => Some (Flag (impl_vector_list_is_empty v), Some v)
  | GetPos _ item => n ← impl_vector_list_get_pos v item; Some (Number n, Some v)
  | Iterate _ => xs ← vec_iterate v; Some (Items xs, Some v)
  | Clear _ b => '(ok, xs, v) ← impl_vector_list_clear v b; Some (Freed ok xs, Some v)
  | Free _ b => '(p, xs) ← impl_vector_list_free v b; Some (Freed (match p with None => true | _ => false end) xs, p)
  end.
(** A position that had no item had NULL; to free NULL is nothing. *)
Definition norm (r : list_result) : list_result :=
  match r with
  | Replaced b old => Replaced b (Some (default 0 old))
  | Freed b xs => Freed b (filter (fun x => x <> 0) xs)
  | r => r
  end.

Lemma vec_walk_spec v xs i ys fuel : vec_rep v xs -> xs = take i xs ++ ys -> length (take i xs) = i -> ys <> [] -> (length ys < fuel)%nat ->
  vec_walk fuel v (Z.of_nat (S i)) = Some ys.
Proof.
  intros R. destruct (vec_holds v xs R) as [H0 H]. revert i fuel. induction ys as [|y ys IH]; intros i [|fuel] E Hi Hne Hf; try done; cbn [length] in Hf; [lia|].
  cbn [vec_walk]. rewrite (proj2 (Z.eqb_neq (Z.of_nat (S i)) 0)) by lia. unfold impl_vector_list_next.
  rewrite (proj2 (Z.eqb_neq (Z.of_nat (S i)) 0)) by lia. rewrite H0. cbn [mbind option_bind]. rewrite !Z.sub_0_r, (vr_last _ _ R).
  assert (Hlen : length xs = (i + S (length ys))%nat) by (rewrite E, length_app, Hi; done).
  rewrite (proj2 (Z.ltb_ge _ _)), (proj2 (Z.ltb_ge _ _)) by lia.
  assert (Hy : xs !! i = Some y) by (rewrite E, lookup_app_r, Hi, Nat.sub_diag by lia; done).
  rewrite Nat2Z.id. pose proof (H i y Hy) as Hv. cbn [Nat.add] in Hv. rewrite Hv. cbn [mbind option_bind].
  destruct (Z.eqb_spec (Z.of_nat (S i)) (Z.of_nat (length xs))) as [Ee|Ee].
  - destruct ys as [|]; [|cbn in Hlen; lia]. destruct fuel; [lia|]. done.
  - rewrite Z.add_0_l. replace (Z.of_nat (S i) + 1) with (Z.of_nat (S (S i))) by lia. rewrite (IH (S i)); [done| | | |lia].
    + rewrite (take_S_r _ _ _ Hy), <- app_assoc. done.
    + rewrite length_take. lia.
    + intros ->. cbn in Hlen. lia.
Qed.
Lemma vec_iterate_spec v xs : vec_rep v xs -> vec_iterate v = Some xs.
Proof.
  intros R. destruct (vec_holds v xs R) as [H0 _]. pose proof (vr_size _ _ R). unfold vec_iterate, impl_vector_list_iter, impl_vector_list_is_empty. rewrite (vr_last _ _ R).
  destruct (Nat.eqb_spec (length xs) 0) as [E|E]; [by destruct xs|]. rewrite H0. cbn [mbind option_bind].
  change (0 + 1) with (Z.of_nat 1). apply (vec_walk_spec v xs 0 xs); [done|done|done|by intros ->|lia].
Qed.
Lemma vector_create_spec : vec_rep ov_vector_list_create [].
Proof.
  split; [done|cbn; unfold VECTOR_DEFAULT_SIZE; lia|by left| |cbn; unfold VECTOR_DEFAULT_SIZE; lia].
  intros j Hj. cbn [vl_items ov_vector_list_create] in *. rewrite length_replicate in Hj. rewrite lookup_replicate_2 by done. by destruct j.
Qed.
(** The settings of the growth, but for a rate of one. *)
Lemma vector_settings v xs shrink rate : vec_rep v xs -> (2 <= rate)%nat ->
  vec_rep (ov_vector_list_set_shrink v shrink).2 xs /\ vec_rep (ov_vector_list_set_rate v rate).2 xs.
Proof.
  intros R Hr. split; [|unfold ov_vector_list_set_rate; rewrite (proj2 (Nat.ltb_ge _ _)) by lia]; split; try apply R; done.
Qed.

Lemma vec_op_spec junk v xs op : vec_rep v xs ->
  (overruns v op -> vec_op junk v op = None) /\
  (~ overruns v op -> exists r v', vec_op junk v op = Some (r, v') /\ norm r = norm (seq_op op xs).1 /\
     match v', (seq_op op xs).2 with Some v', Some xs' => vec_rep v' xs' | None, None => True | _, _ => False end).
Proof.
  intros R. split.
  { intros Ho. pose proof (vec_overruns junk v xs op R Ho) as E. destruct op; try (by destruct Ho); cbn [vec_op]; by rewrite E. }
  intros Ho. destruct op as [|l item|l|l pos|l pos item|l pos item|l pos|l|l|l item|l|l b|l b]; cbn [vec_op seq_op fst snd].
  - by eexists _, _.
  - destruct (vec_push junk v xs item R) as (v' & -> & R'). by eexists _, _.
  - destruct (vec_pop junk v xs R) as (v' & -> & R'). by eexists _, _.
  - rewrite (vec_get v xs pos R). by eexists _, _.
  - destruct (vec_set junk v xs pos item R) as (v' & -> & R'). destruct (list_set xs pos item) as [[ok old] ys] eqn:E. eexists _, _. split; [done|].
    split; [|done]. destruct pos as [|i]; [cbn in E; by injection E as <- <- <-|]. cbn in E |- *. by destruct (xs !! i); injection E as <- <- <-.
  - destruct (vec_insert junk v xs pos item l R Ho) as (v' & -> & R'). destruct (list_insert xs pos item) as [ok ys]. by eexists _, _.
  - destruct (vec_remove junk v xs pos l R Ho) as (v' & -> & R'). destruct (list_remove xs pos) as [x ys]. by eexists _, _.
  - eexists _, _. split; [done|]. split; [|done]. unfold impl_vector_list_count, impl_vector_list_is_empty. rewrite (vr_last _ _ R).
    by destruct (Nat.eqb_spec (length xs) 0) as [->|].
  - eexists _, _. split; [done|]. split; [|done]. unfold impl_vector_list_is_empty. rewrite (vr_last _ _ R). by destruct xs.
  - rewrite (vec_get_pos v xs item R). by eexists _, _.
  - rewrite (vec_iterate_spec v xs R). by eexists _, _.
  - destruct (vec_clear v xs b R) as (v' & -> & R'). eexists _, _. split; [done|]. split; [|done]. cbn [norm]. f_equal.
    destruct b; [|done]. apply list_filter_filter_l. done.
  - unfold impl_vector_list_free. destruct (vec_clear v xs b R) as (v' & -> & R'). eexists _, _. split; [done|]. split; [|done]. cbn [norm]. f_equal.
    destruct b; [|done]. apply list_filter_filter_l. done.
Qed.
(** C37: every operation on a vector list that grows by at least two slots at a time
    (the default is 100; with the rate 1, which [ov_vector_list_set_rate] takes,
    pushing overruns the array, see [vector_rate_one_overruns]) acts as the
    contract of a list on the sequence of its items (the same contract the linked
    list has), whatever new memory contains and with every growth, shrinking
    included - but for an insertion or a removal that works at the end of an array
    that never grew: exactly then ([overruns]) the array is overrun. *)
Theorem vector_list_refines junk v xs op : holds_items v xs -> (2 <= vl_rate v)%nat ->
  (overruns v op -> vec_op junk v op = None) /\
  (~ overruns v op -> exists r v', vec_op junk v op = Some (r, v') /\ norm r = norm (seq_op op xs).1 /\
     match v', (seq_op op xs).2 with
     | Some v', Some xs' => holds_items v' xs' /\ (2 <= vl_rate v')%nat
     | None, None => True
     | _, _ => False
     end).
Proof.
  intros Hh Hrate. destruct (vec_op_spec junk v xs op) as [H1 H2]; [by apply vec_rep_holds|]. split; [done|].
  intros Ho. destruct (H2 Ho) as (r & v' & E & Hr & Hv). exists r, v'. split; [done|]. split; [done|].
  destruct v', (seq_op op xs).2; try done. by apply vec_rep_holds.
Qed.
Lemma vector_list_refines_witness : holds_items ov_vector_list_create [] /\ (2 <= vl_rate ov_vector_list_create)%nat /\
  exists v', vec_op 7 ov_vector_list_create (Push 0 5) = Some (Flag true, Some v') /\ holds_items v' [5].
Proof.
  destruct (proj1 (vec_rep_holds _ _) vector_create_spec) as [H0 Hr0]. split; [exact H0|]. split; [exact Hr0|].
  destruct (vector_list_refines 7 ov_vector_list_create [] (Push 0 5) H0 Hr0) as [_ H].
  destruct H as (r & v' & E & Hr & Hv); [by intros []|]. destruct v' as [v'|]; [|done]. exists v'. split; [|exact (proj1 Hv)].
  rewrite E. destruct r as [|b| | | | |]; try discriminate Hr. injection Hr as ->. reflexivity.
Defined.

(** ** Overruns *)

(** [n] items, one after the other. *)
Definition pushed (v : VectorList) (n : nat) : option VectorList :=
  foldr (fun x o => v ← o; '(_, v) ← impl_vector_list_push 0 v (Z.of_nat x); Some v) (Some v) (seq 1 n).
Example vector_insert_overruns : (v ← pushed ov_vector_list_create 98; impl_vector_list_insert 0 v 1 7) = None /\
  is_Some (v ← pushed ov_vector_list_create 97; impl_vector_list_insert 0 v 1 7).
Proof. split; [vm_compute; reflexivity|]. eexists. vm_compute. reflexivity. Qed.
Example vector_remove_overruns : (v ← pushed ov_vector_list_create 99; impl_vector_list_remove 0 v 1) = None /\
  is_Some (v ← pushed ov_vector_list_create 98; impl_vector_list_remove 0 v 1).
Proof. split; [vm_compute; reflexivity|]. eexists. vm_compute. reflexivity. Qed.
(** With a rate of one the vector does not grow any more. *)
Example vector_rate_one_overruns : pushed (ov_vector_list_set_rate ov_vector_list_create 1).2 100 = None /\
  is_Some (pushed (ov_vector_list_set_rate ov_vector_list_create 2).2 100).
Proof. split; [vm_compute; reflexivity|]. eexists. vm_compute. reflexivity. Qed.
