(* ===== verification/FrameBuffer.v ===== *)
(** * The RTP frame buffer (src/lib/ov_base/src/rtp/ov_rtp_frame_buffer.c)

    A stage is the sequence of the items of its list, pointers to frames, and
    the stages are a list of them; what the methods of a list do to a sequence
    is in [OvList.v], and that the linked lists do it, in [ListStore.v]. The
    frames are not changed: their SSRC and sequence number are functions of the
    pointer. [None] is a failing assertion or an access through [NULL];
    assertions that repeat the test before them are left out. *)
From S2P Require Import Prelude OvList.

(** ** The code *)

Section FrameBuffer.
Variables ssrc sequence_number : Z -> Z.

Definition NUM_FRAMES_TO_BUFFER_DEFAULT : nat := 2.

Record internal_frame_buffer := { stages : list (list Z); num_frames_to_buffer_per_stream : nat }.
Definition with_stages (b : internal_frame_buffer) (l : list (list Z)) : internal_frame_buffer :=
  {| stages := l; num_frames_to_buffer_per_stream := num_frames_to_buffer_per_stream b |}.

(** What [insert_into_stage] and [insert_into_stages] return: [NULL], the
    marker, or a frame. *)
Inductive inserted := Done | ALREADY_PRESENT | Frame (f : Z).

(** A new stage, unless there are enough. *)
Definition add_stage (stages : list (list Z)) (MAX_STAGES : nat) : option (list Z * list (list Z)) :=
  if (MAX_STAGES <=? length stages)%nat then None else Some ([], stages ++ [[]]).

(** [rest]: the items from the iterator on, the first of them at position [i]. *)
Fixpoint insert_stage_loop (stage rest : list Z) (i : nat) (frame : Z) : inserted * list Z :=
  match rest with
  | [] => (Done, list_push stage frame)
  | current :: rest =>
      if current =? 0 then insert_stage_loop stage rest (S i) frame else
      let CURRENT_SSID := ssrc current in
      if CURRENT_SSID <? ssrc frame then insert_stage_loop stage rest (S i) frame else
      if ssrc frame <? CURRENT_SSID then (Done, snd (list_insert stage i frame)) else
      let CURRENT_SEQUENCE_NUMBER := sequence_number current in
      if CURRENT_SEQUENCE_NUMBER <? sequence_number frame then (Frame frame, stage) else
      if sequence_number frame =? CURRENT_SEQUENCE_NUMBER then (ALREADY_PRESENT, stage) else
      let '(ok, old, stage) := list_set stage i frame in
      if ok then (Frame (default current old), stage) else insert_stage_loop stage rest (S i) frame
  end.
Definition insert_into_stage (stage : list Z) (frame : Z) : option (inserted * list Z) :=
  _ ← OV_ASSERT (negb (frame =? 0));
  Some (insert_stage_loop stage stage 1 frame).

Fixpoint insert_stages_loop (stages : list (list Z)) (remainder : Z) : option (inserted * list (list Z)) :=
  match stages with
  | [] => Some (Frame remainder, [])
  | stage :: rest =>
      _ ← OV_ASSERT (negb (remainder =? 0));
      '(retval, stage) ← insert_into_stage stage remainder;
      match retval with
      | Done => Some (Done, stage :: rest)
      | ALREADY_PRESENT => Some (ALREADY_PRESENT, stage :: rest)
      | Frame remainder =>
          _ ← OV_ASSERT (negb (remainder =? 0));
          '(r, rest) ← insert_stages_loop rest remainder; Some (r, stage :: rest)
      end
  end.
Definition insert_into_stages (stages : list (list Z)) (MAX_STAGES : nat) (frame : Z)
    : option (inserted * list (list Z)) :=
  _ ← OV_ASSERT (negb (frame =? 0));
  if (length stages =? 0)%nat then
    match add_stage stages MAX_STAGES with
    | None => Some (Done, stages)
    | Some (_, stages) => insert_stages_loop stages frame
    end
  else insert_stages_loop stages frame.

(** The frame, or 0, and the stage without it. *)
Fixpoint drop_stage_loop (stage rest : list Z) (i : nat) (SSID : Z) : option (Z * list Z) :=
  match rest with
  | [] => Some (0, stage)
  | frame :: rest =>
      if frame =? 0 then None else
      let CURRENT_SSID := ssrc frame in
      if SSID =? CURRENT_SSID then Some (list_remove stage i) else
      if SSID <? CURRENT_SSID then Some (0, stage) else drop_stage_loop stage rest (S i) SSID
  end.
Definition drop_frame_from_stage (stage : list Z) (SSID : Z) : option (Z * list Z) :=
  drop_stage_loop stage stage 1 SSID.

(** The frames of the stages behind [prev_stage] move one stage ahead. *)
Fixpoint shift_loop (prev_stage : list Z) (rest : list (list Z)) (SSID : Z) : option (list (list Z)) :=
  match rest with
  | [] => Some [prev_stage]
  | current_stage :: rest =>
      '(frame_to_shift, current_stage) ← drop_frame_from_stage current_stage SSID;
      _ ← OV_ASSERT (negb (frame_to_shift =? 0));
      '(old, prev_stage) ← insert_into_stage prev_stage frame_to_shift;
      _ ← OV_ASSERT (match old with Done => true | _ => false end);
      stages ← shift_loop current_stage rest SSID;
      Some (prev_stage :: stages)
  end.
Definition drop_oldest_frame (stages : list (list Z)) (frame : Z) : option (Z * list (list Z)) :=
  _ ← OV_ASSERT (negb (frame =? 0));
  let SSID := ssrc frame in
  match stages with
  | [] => Some (0, stages)
  | prev_stage :: rest =>
      '(remainder, prev_stage) ← drop_frame_from_stage prev_stage SSID;
      _ ← OV_ASSERT (negb (remainder =? 0));
      stages ← shift_loop prev_stage rest SSID;
      Some (remainder, stages)
  end.

Definition ov_rtp_frame_buffer_create (num_frames : nat) : internal_frame_buffer :=
  {| stages := [];
     num_frames_to_buffer_per_stream := if (num_frames =? 0)%nat then NUM_FRAMES_TO_BUFFER_DEFAULT else num_frames |}.

(** Whether the remainder got a stage of its own at the end. *)
Definition try_new_stage (stages : list (list Z)) (MAX_STAGES : nat) (remainder : Z)
    : option (bool * list (list Z)) :=
  match add_stage stages MAX_STAGES with
  | None => Some (false, stages)
  | Some (new_stage, _) =>
      '(r, new_stage) ← insert_into_stage new_stage remainder;
      Some (match r with Done => true | _ => false end, stages ++ [new_stage])
  end.
(** The frame that is not, or no more, in the buffer, 0 for none. *)
Definition ov_rtp_frame_buffer_add (self : option internal_frame_buffer) (frame : Z)
    : option (Z * option internal_frame_buffer) :=
  if frame =? 0 then Some (frame, self) else
  match self with
  | None => Some (frame, self)
  | Some internal =>
      let MAX_STAGES := num_frames_to_buffer_per_stream internal in
      '(remainder, stages) ← insert_into_stages (stages internal) MAX_STAGES frame;
      match remainder with
      | Done => Some (0, Some (with_stages internal stages))
      | ALREADY_PRESENT => Some (frame, Some (with_stages internal stages))
      | Frame remainder =>
          '(placed, stages) ← try_new_stage stages MAX_STAGES remainder;
          if (placed : bool) then Some (0, Some (with_stages internal stages)) else
          '(dropped_frame, stages) ← drop_oldest_frame stages remainder;
          _ ← OV_ASSERT (negb (dropped_frame =? 0));
          '(_, stages) ← insert_into_stages stages MAX_STAGES remainder;
          Some (dropped_frame, Some (with_stages internal stages))
      end
  end.

(** The list of the oldest frames, [None] for [NULL]. *)
Definition ov_rtp_frame_buffer_get_current_frames (self : option internal_frame_buffer)
    : option (list Z) * option internal_frame_buffer :=
  match self with
  | None => (None, None)
  | Some internal =>
      match stages internal with
      | [] => (None, Some internal)
      | current :: rest => (Some current, Some (with_stages internal rest))
      end
  end.

(** The frames in the order in which they are freed: the last stage first. *)
Definition free_stages (stages : list (list Z)) : list Z :=
  concat (filter (fun f => f <> 0) <$> reverse stages).
Definition ov_rtp_frame_buffer_free (self : option internal_frame_buffer) : list Z :=
  match self with None => [] | Some internal => free_stages (stages internal) end.

(** ** Streams

    [column s]: what the stages hold of the stream with SSRC [s]. *)

Definition in_stage (s : Z) (stage : list Z) : option Z := List.find (fun f => ssrc f =? s) stage.
Definition column (s : Z) (l : list (list Z)) : list (option Z) := in_stage s <$> l.
(** A stage: frames with ascending SSRC. *)
Inductive stage_ok : list Z -> Prop :=
  | stage_nil : stage_ok []
  | stage_cons f l : f <> 0 -> (forall g, g ∈ l -> ssrc f < ssrc g) -> stage_ok l -> stage_ok (f :: l).
(** Frames with ascending sequence numbers. *)
Fixpoint ascending (l : list Z) : Prop :=
  match l with
  | [] => True
  | a :: l => (forall b, b ∈ l -> sequence_number a < sequence_number b) /\ ascending l
  end.
Fixpoint sorted_insert (l : list Z) (f : Z) : list Z :=
  match l with
  | [] => [f]
  | a :: l => if sequence_number f <? sequence_number a then f :: a :: l else a :: sorted_insert l f
  end.
Definition present (l : list Z) (f : Z) : bool := existsb (fun a => sequence_number a =? sequence_number f) l.

End FrameBuffer.
