(* ===== verification/FrameBufferLaws.v ===== *)
(** * The RTP frame buffer: every stream is a bounded sorted queue

    The stages are read by columns: the column of a stream is the frames of the
    stream, oldest first, then nothing. Inserting, dropping and taking the
    current frames are operations on the columns. *)
From S2P Require Import Prelude OvList FrameBuffer.

(** ** Sorted frames *)

Section Sorted.
Variable sequence_number : Z -> Z.
Abbreviation ascending := (ascending sequence_number).
Abbreviation sorted_insert := (sorted_insert sequence_number).
Abbreviation present := (present sequence_number).

Lemma sorted_insert_first l f : (forall b, b ∈ l -> sequence_number f < sequence_number b) ->
  sorted_insert l f = f :: l.
Proof.
  destruct l as [|a l]; [done|]. intros H. cbn. specialize (H a ltac:(by left)).
  by replace (sequence_number f <? sequence_number a) with true by (symmetry; lia).
Qed.
Lemma sorted_insert_nonempty l f : sorted_insert l f <> [].
Proof. destruct l as [|a l]; cbn; [done|by destruct (_ <? _)]. Qed.
Lemma length_sorted_insert l f : length (sorted_insert l f) = S (length l).
Proof. induction l as [|a l IH]; cbn; [done|]. destruct (_ <? _); cbn; [done|by rewrite IH]. Qed.
Lemma present_below l f : (forall b, b ∈ l -> sequence_number f < sequence_number b) -> present l f = false.
Proof.
  intros H. unfold FrameBuffer.present. apply not_true_is_false. intros (b & Hb & E)%existsb_exists.
  apply list_elem_of_In in Hb. specialize (H b Hb). lia.
Qed.
Lemma elem_sorted_insert l f b : b ∈ sorted_insert l f <-> b = f \/ b ∈ l.
Proof.
  induction l as [|a l IH]; cbn; [rewrite list_elem_of_singleton, elem_of_nil; tauto|].
  destruct (_ <? _); rewrite !elem_of_cons; [tauto|]. rewrite IH. tauto.
Qed.
Lemma ascending_sorted_insert l f : ascending l -> present l f = false -> ascending (sorted_insert l f).
Proof.
  induction l as [|a l IH]; cbn; [intros _ _; split; [by intros b ?%elem_of_nil|done]|].
  intros [Ha Hl] [Hne Hp]%orb_false_iff. destruct (Z.ltb_spec (sequence_number f) (sequence_number a)); cbn.
  - split; [|done]. intros b [->|Hb]%elem_of_cons; [done|specialize (Ha b Hb); lia].
  - split; [|by apply IH]. intros b [->|Hb]%elem_sorted_insert; [lia|by apply Ha].
Qed.

Lemma ascending_snoc k x : ascending (k ++ [x]) -> ascending k /\ forall b, b ∈ k -> sequence_number b < sequence_number x.
Proof.
  induction k as [|a k IH]; cbn; [intros _; split; [done|]; by intros b ?%elem_of_nil|].
  intros [H1 H2]. destruct (IH H2) as [H3 H4]. split; [split; [|done]|].
  - intros b Hb. apply H1, elem_of_app. by left.
  - intros b [->|Hb]%elem_of_cons; [|by apply H4]. apply H1, elem_of_app. right. by left.
Qed.
Lemma ascending_tail a k : ascending (a :: k) -> ascending k.
Proof. by intros []. Qed.
Lemma sorted_insert_last k x : (forall b, b ∈ k -> sequence_number b < sequence_number x) -> sorted_insert k x = k ++ [x].
Proof.
  induction k as [|a k IH]; [done|]. intros H. cbn. pose proof (H a ltac:(by left)).
  replace (sequence_number x <? sequence_number a) with false by (symmetry; lia).
  rewrite IH; [done|]. intros b Hb. apply H. by right.
Qed.
Lemma present_above k x : (forall b, b ∈ k -> sequence_number b < sequence_number x) -> present k x = false.
Proof.
  intros H. unfold FrameBuffer.present. apply not_true_is_false. intros (b & Hb & E)%existsb_exists.
  apply list_elem_of_In in Hb. specialize (H b Hb). lia.
Qed.
End Sorted.

Section Laws.
#[local] Set Default Proof Using "Type".
Variables ssrc sequence_number : Z -> Z.
Abbreviation in_stage := (in_stage ssrc).
Abbreviation column := (column ssrc).
Abbreviation stage_ok := (stage_ok ssrc).
Abbreviation ascending := (ascending sequence_number).
Abbreviation sorted_insert := (sorted_insert sequence_number).
Abbreviation present := (present sequence_number).
Abbreviation insert_stage_loop := (insert_stage_loop ssrc sequence_number).
Abbreviation insert_into_stage := (insert_into_stage ssrc sequence_number).

(** ** One stage *)

Lemma in_stage_cons s f l : in_stage s (f :: l) = if ssrc f =? s then Some f else in_stage s l.
Proof. done. Qed.
Lemma in_stage_Some s l f : in_stage s l = Some f -> f ∈ l /\ ssrc f = s.
Proof. intros [H1 H2]%List.find_some. split; [by apply list_elem_of_In|lia]. Qed.
Lemma in_stage_app s l k :
  in_stage s (l ++ k) = match in_stage s l with Some f => Some f | None => in_stage s k end.
Proof. induction l as [|f l IH]; [done|]. cbn [app]. rewrite !in_stage_cons, IH. by destruct (_ =? _). Qed.
Lemma in_stage_below s l : (forall f, f ∈ l -> s < ssrc f) -> in_stage s l = None.
Proof.
  intros H. destruct (in_stage s l) as [f|] eqn:E; [|done]. apply in_stage_Some in E as [E1 E2].
  specialize (H f E1). lia.
Qed.
Lemma in_stage_above s l : (forall f, f ∈ l -> ssrc f < s) -> in_stage s l = None.
Proof.
  intros H. destruct (in_stage s l) as [f|] eqn:E; [|done]. apply in_stage_Some in E as [E1 E2].
  specialize (H f E1). lia.
Qed.
Lemma stage_ok_app l k : stage_ok (l ++ k) <->
  stage_ok l /\ stage_ok k /\ forall f g, f ∈ l -> g ∈ k -> ssrc f < ssrc g.
Proof.
  induction l as [|a l IH]; cbn [app].
  - split; [intros H; split; [constructor|]; split; [done|]; by intros f g ?%elem_of_nil|by intros (_ & H & _)].
  - split.
    + inversion 1 as [|? ? Ha Hl Hok]; subst. apply IH in Hok as (H1 & H2 & H3). split; [|split; [done|]].
      * constructor; [done| |done]. intros g Hg. apply Hl, elem_of_app. by left.
      * intros f g [->|Hf]%elem_of_cons Hg; [apply Hl, elem_of_app; by right|by apply H3].
    + intros (H1 & H2 & H3). inversion H1 as [|? ? Ha Hl Hok]; subst. constructor; [done| |].
      * intros g [Hg|Hg]%elem_of_app; [by apply Hl|apply H3; [by left|done]].
      * apply IH. split; [done|]. split; [done|]. intros f g Hf Hg. apply H3; [by right|done].
Qed.
Lemma stage_ok_nonzero l f : stage_ok l -> f ∈ l -> f <> 0.
Proof. induction 1 as [|g l Hg _ _ IH]; [by intros ?%elem_of_nil|]. intros [->|]%elem_of_cons; [done|by apply IH]. Qed.
Lemma stage_ok_singleton f : f <> 0 -> stage_ok [f].
Proof. intros. constructor; [done|by intros g ?%elem_of_nil|constructor]. Qed.

(** What becomes of a stage when a frame is put into it, and what is returned. *)
Definition put_spec (l : list Z) (f : Z) (r : inserted) (l' : list Z) : Prop :=
  match in_stage (ssrc f) l with
  | None => r = Done /\ stage_ok l' /\ forall s, in_stage s l' = if s =? ssrc f then Some f else in_stage s l
  | Some a =>
      if sequence_number a <? sequence_number f then r = Frame f /\ l' = l
      else if sequence_number a =? sequence_number f then r = ALREADY_PRESENT /\ l' = l
      else r = Frame a /\ stage_ok l' /\ forall s, in_stage s l' = if s =? ssrc f then Some f else in_stage s l
  end.
(** A frame between two parts of a stage. *)
Lemma stage_put l k f : f <> 0 -> stage_ok (l ++ k) -> (forall g, g ∈ l -> ssrc g < ssrc f) ->
  (forall g, g ∈ k -> ssrc f < ssrc g) ->
  stage_ok (l ++ f :: k) /\ forall s, in_stage s (l ++ f :: k) = if s =? ssrc f then Some f else in_stage s (l ++ k).
Proof.
  intros Hf (Hl & Hk & Hlk)%stage_ok_app Hlf Hfk. split.
  - apply stage_ok_app. split; [done|]. split; [by constructor|].
    intros g h Hg [->|Hh]%elem_of_cons; [by apply Hlf|by apply Hlk].
  - intros s. rewrite !in_stage_app, in_stage_cons, (Z.eqb_sym s). destruct (Z.eqb_spec (ssrc f) s) as [<-|]; [|done].
    by rewrite (in_stage_above (ssrc f) l).
Qed.
Lemma insert_stage_loop_spec l k f : f <> 0 -> stage_ok (l ++ k) -> (forall g, g ∈ l -> ssrc g < ssrc f) ->
  let '(r, l') := insert_stage_loop (l ++ k) k (S (length l)) f in put_spec (l ++ k) f r l'.
Proof.
  revert l. induction k as [|a k IH]; intros l Hf Hok Hl; cbn [FrameBuffer.insert_stage_loop].
  - unfold put_spec. rewrite in_stage_above by (by rewrite app_nil_r). split; [done|].
    unfold list_push. rewrite app_nil_r in *. destruct (stage_put l [] f) as [H1 H2];
      [done|by rewrite app_nil_r|done|by intros g ?%elem_of_nil|]. split; [done|]. intros s. by rewrite H2, app_nil_r.
  - pose proof Hok as (Hokl & Hoka & Hla)%stage_ok_app. inversion Hoka as [|? ? Ha0 Hak Hokk]; subst.
    destruct (Z.eqb_spec a 0); [done|]. destruct (Z.ltb_spec (ssrc a) (ssrc f)) as [Hlt|Hge].
    + specialize (IH (l ++ [a]) Hf). rewrite <- app_assoc, length_app, Nat.add_1_r in IH. apply IH; [done|].
      intros g [Hg| ->%list_elem_of_singleton]%elem_of_app; [by apply Hl|done].
    + destruct (Z.ltb_spec (ssrc f) (ssrc a)) as [Hlt|Hle].
      * assert (Hfa : forall g, g ∈ a :: k -> ssrc f < ssrc g)
          by (intros g [->|Hg]%elem_of_cons; [done|specialize (Hak g Hg); lia]).
        unfold put_spec. rewrite in_stage_app, in_stage_above by done. rewrite in_stage_below by done.
        split; [done|]. unfold list_insert. cbn [snd]. rewrite pad_to_le by (rewrite length_app; lia).
        rewrite take_app_length, drop_app_length. by apply stage_put.
      * assert (Es : ssrc a = ssrc f) by lia. unfold put_spec. rewrite in_stage_app, in_stage_above by done.
        rewrite in_stage_cons, Es, Z.eqb_refl. destruct (Z.ltb_spec (sequence_number a) (sequence_number f)); [done|].
        rewrite (Z.eqb_sym (sequence_number f)).
        destruct (Z.eqb_spec (sequence_number a) (sequence_number f)); [done|]. unfold list_set.
        rewrite list_lookup_middle by done. cbn [default].
        rewrite insert_app_r_alt, Nat.sub_diag by done. cbn [insert list_insert].
        change (<[0%nat:=f]> (a :: k)) with (f :: k). split; [done|].
        assert (Hfk : forall g, g ∈ k -> ssrc f < ssrc g) by (intros g Hg; rewrite <- Es; by apply Hak).
        destruct (stage_put l k f) as [H1 H2]; [done| |done|done|].
        { apply stage_ok_app. split; [done|]. split; [done|]. intros g h Hg Hh. apply Hla; [done|by right]. }
        split; [done|]. intros s. rewrite H2, !in_stage_app, in_stage_cons, Es, (Z.eqb_sym s).
        destruct (Z.eqb_spec (ssrc f) s); [done|]. done.
Qed.
Lemma insert_into_stage_spec l f : f <> 0 -> stage_ok l ->
  exists r l', insert_into_stage l f = Some (r, l') /\ put_spec l f r l'.
Proof.
  intros Hf Hok. unfold FrameBuffer.insert_into_stage. destruct (Z.eqb_spec f 0); [done|]. cbn.
  pose proof (insert_stage_loop_spec [] l f Hf Hok ltac:(by intros g ?%elem_of_nil)) as H. cbn [app length] in H.
  destruct (insert_stage_loop l l 1 f) as [r l']. by exists r, l'.
Qed.

Lemma drop_stage_loop_spec l k s : stage_ok (l ++ k) -> (forall g, g ∈ l -> ssrc g < s) ->
  exists a l', drop_stage_loop ssrc (l ++ k) k (S (length l)) s = Some (a, l') /\ stage_ok l' /\
    match in_stage s (l ++ k) with
    | None => a = 0 /\ l' = l ++ k
    | Some b => a = b /\ forall t, in_stage t l' = if t =? s then None else in_stage t (l ++ k)
    end.
Proof.
  revert l. induction k as [|a k IH]; intros l Hok Hl; cbn [drop_stage_loop].
  - exists 0, (l ++ []). split; [done|]. split; [done|]. by rewrite in_stage_above by (by rewrite app_nil_r).
  - pose proof Hok as (Hokl & Hoka & Hla)%stage_ok_app. inversion Hoka as [|? ? Ha0 Hak Hokk]; subst.
    destruct (Z.eqb_spec a 0); [done|]. destruct (Z.eqb_spec s (ssrc a)) as [->|Hne].
    + unfold list_remove. rewrite list_lookup_middle by done. eexists _, _. split; [done|].
      rewrite delete_middle. assert (Hk : stage_ok (l ++ k)).
      { apply stage_ok_app. split; [done|]. split; [done|]. intros g h Hg Hh. apply Hla; [done|by right]. }
      split; [done|]. rewrite in_stage_app, in_stage_above by done. rewrite in_stage_cons, Z.eqb_refl.
      split; [done|]. intros t. rewrite !in_stage_app, in_stage_cons, (Z.eqb_sym t).
      destruct (Z.eqb_spec (ssrc a) t) as [<-|]; [|done]. rewrite in_stage_above by done. by apply in_stage_below.
    + destruct (Z.ltb_spec s (ssrc a)) as [Hlt|Hge].
      * exists 0, (l ++ a :: k). split; [done|]. split; [done|]. rewrite in_stage_app, in_stage_above by done.
        rewrite in_stage_below; [done|]. intros g [->|Hg]%elem_of_cons; [done|specialize (Hak g Hg); lia].
      * specialize (IH (l ++ [a])). rewrite <- app_assoc, length_app, Nat.add_1_r in IH. apply IH; [done|].
        intros g [Hg| ->%list_elem_of_singleton]%elem_of_app; [by apply Hl|lia].
Qed.
Lemma drop_frame_spec l s : stage_ok l ->
  exists a l', drop_frame_from_stage ssrc l s = Some (a, l') /\ stage_ok l' /\
    match in_stage s l with
    | None => a = 0 /\ l' = l
    | Some b => a = b /\ forall t, in_stage t l' = if t =? s then None else in_stage t l
    end.
Proof. intros Hok. apply (drop_stage_loop_spec [] l s Hok). by intros g ?%elem_of_nil. Qed.

(** ** The columns *)

Definition filled (l : list Z) (n : nat) : list (option Z) := (Some <$> l) ++ replicate n None.
Lemma filled_length l n : length (filled l n) = (length l + n)%nat.
Proof. unfold filled. by rewrite length_app, length_fmap, length_replicate. Qed.
Lemma filled_cons_None c l n : None :: c = filled l n -> l = [] /\ exists m, n = S m /\ c = filled [] m.
Proof. destruct l as [|a l], n as [|n]; unfold filled; cbn; intros H; simplify_eq; eauto. Qed.
Lemma filled_cons_Some a c l n : Some a :: c = filled l n -> exists k, l = a :: k /\ c = filled k n.
Proof. destruct l as [|b l], n as [|n]; unfold filled; cbn; intros H; simplify_eq; eauto. Qed.
(** The columns but for one stream are unchanged. *)
Definition others_same (s : Z) (old new : list (list Z)) : Prop := forall t, t <> s -> column t new = column t old.
Lemma column_cons t stage l : column t (stage :: l) = in_stage t stage :: column t l.
Proof. done. Qed.
Lemma others_same_cons s stage stage' l l' :
  (forall t, t <> s -> in_stage t stage' = in_stage t stage) -> others_same s l l' ->
  others_same s (stage :: l) (stage' :: l').
Proof. intros H1 H2 t Ht. rewrite !column_cons. by rewrite H1, H2. Qed.
Lemma others_same_refl s l : others_same s l l.
Proof. by intros t Ht. Qed.
Lemma column_length t l : length (column t l) = length l.
Proof. apply length_fmap. Qed.

(** A frame is put into its stream, and the last frame falls out when all
    stages hold one. *)
Definition insert_result (l : list Z) (n : nat) (f : Z) (s : Z) (r : inserted) (stages stages' : list (list Z)) : Prop :=
  if present l f then r = ALREADY_PRESENT /\ stages' = stages
  else match n with
       | S m => r = Done /\ column s stages' = filled (sorted_insert l f) m
       | O => exists k x, sorted_insert l f = k ++ [x] /\ r = Frame x /\ column s stages' = filled k 0
       end.
Lemma insert_stages_loop_spec stages f l n s : s = ssrc f -> f <> 0 -> Forall stage_ok stages ->
  column s stages = filled l n -> ascending l ->
  exists r stages', insert_stages_loop ssrc sequence_number stages f = Some (r, stages') /\
    Forall stage_ok stages' /\ length stages' = length stages /\ others_same s stages stages' /\
    insert_result l n f s r stages stages'.
Proof.
  intros Es Hf Hok. revert f l Es Hf. induction Hok as [|stage rest Hst Hok IH]; intros f l Es Hf Hc Ha.
  - exists (Frame f), []. split; [done|]. split; [done|]. split; [done|]. split; [done|].
    destruct l as [|a l], n as [|n]; try done. exists [], f. done.
  - cbn [insert_stages_loop]. destruct (Z.eqb_spec f 0); [done|]. cbn [negb OV_ASSERT mbind option_bind].
    destruct (insert_into_stage_spec stage f Hf Hst) as (r & stage' & -> & Hput). cbn [mbind option_bind].
    unfold put_spec in Hput. rewrite <- Es in Hput. rewrite column_cons in Hc. destruct (in_stage s stage) as [a|] eqn:Ea.
    + apply filled_cons_Some in Hc as (k & -> & Hc). destruct Ha as [Hak Hk].
      apply in_stage_Some in Ea as Hin. destruct Hin as [Hin Esa].
      destruct (Z.ltb_spec (sequence_number a) (sequence_number f)) as [Hlt|Hge].
      * destruct Hput as [-> ->]. rewrite (proj2 (Z.eqb_neq f 0) Hf). cbn [negb OV_ASSERT mbind option_bind].
        destruct (IH f k Es Hf Hc Hk) as (r & rest' & -> & Hok' & Hlen & Hoth & Hres). cbn [mbind option_bind].
        exists r, (stage :: rest'). split; [done|]. split; [by constructor|]. split; [cbn; by rewrite Hlen|].
        split; [by apply others_same_cons|]. unfold insert_result in *. cbn [FrameBuffer.present existsb].
        replace (sequence_number a =? sequence_number f) with false by (symmetry; lia). cbn [orb].
        fold (present k f). destruct (present k f); [by destruct Hres as [-> ->]|].
        cbn [FrameBuffer.sorted_insert]. replace (sequence_number f <? sequence_number a) with false by (symmetry; lia).
        rewrite column_cons, Ea. destruct n as [|m].
        -- destruct Hres as (k' & x & E & -> & Hcol). exists (a :: k'), x. rewrite E, Hcol. done.
        -- destruct Hres as [-> Hcol]. by rewrite Hcol.
      * destruct (Z.eqb_spec (sequence_number a) (sequence_number f)) as [Eq|Hne].
        -- destruct Hput as [-> ->]. exists ALREADY_PRESENT, (stage :: rest). split; [done|].
           split; [by constructor|]. split; [done|]. split; [apply others_same_refl|].
           unfold insert_result. cbn [FrameBuffer.present existsb]. rewrite (proj2 (Z.eqb_eq (sequence_number a) _) Eq). done.
        -- destruct Hput as (-> & Hst' & Hat). assert (Ha0 : a <> 0) by by (eapply (stage_ok_nonzero stage); done).
           rewrite (proj2 (Z.eqb_neq a 0) Ha0). cbn [negb OV_ASSERT mbind option_bind].
           destruct (IH a k (eq_sym Esa) Ha0 Hc Hk) as (r & rest' & -> & Hok' & Hlen & Hoth & Hres). cbn [mbind option_bind].
           exists r, (stage' :: rest'). split; [done|]. split; [by constructor|]. split; [cbn; by rewrite Hlen|].
           split; [apply others_same_cons; [intros t Ht; rewrite Hat; by destruct (Z.eqb_spec t s)|done]|].
           unfold insert_result in *. rewrite present_below in Hres by done.
           rewrite present_below by (intros b [->|Hb]%elem_of_cons; [lia|specialize (Hak b Hb); lia]).
           rewrite sorted_insert_first in Hres by done. cbn [FrameBuffer.sorted_insert].
           replace (sequence_number f <? sequence_number a) with true by (symmetry; lia).
           rewrite column_cons, Hat, Z.eqb_refl. destruct n as [|m].
           ++ destruct Hres as (k' & x & E & -> & Hcol). exists (f :: k'), x. rewrite E, Hcol. done.
           ++ destruct Hres as [-> Hcol]. by rewrite Hcol.
    + apply filled_cons_None in Hc as (-> & m & -> & Hc). destruct Hput as (-> & Hst' & Hat).
      exists Done, (stage' :: rest). split; [done|]. split; [by constructor|]. split; [done|].
      split; [apply others_same_cons; [intros t Ht; rewrite Hat; by destruct (Z.eqb_spec t s)|apply others_same_refl]|].
      split; [done|]. rewrite column_cons, Hat, Z.eqb_refl, Hc. done.
Qed.

(** The oldest frame of a stream falls out, when all stages hold one. *)
Lemma shift_loop_spec prev rest s l : stage_ok prev -> Forall stage_ok rest -> in_stage s prev = None ->
  column s rest = filled l 0 ->
  exists stages', shift_loop ssrc sequence_number prev rest s = Some stages' /\ Forall stage_ok stages' /\
    length stages' = S (length rest) /\ others_same s (prev :: rest) stages' /\ column s stages' = filled l 1.
Proof.
  intros Hp Hok. revert prev l Hp. induction Hok as [|cur rest Hcur Hok IH]; intros prev l Hp Hnone Hc; cbn [shift_loop].
  - exists [prev]. destruct l; [|done]. split; [done|]. split; [by repeat constructor|]. split; [done|].
    split; [apply others_same_refl|]. by rewrite column_cons, Hnone.
  - rewrite column_cons in Hc. destruct l as [|a l]; [done|]. injection Hc as Ea Hc.
    destruct (drop_frame_spec cur s Hcur) as (b & cur' & -> & Hcur' & Hd). rewrite Ea in Hd. destruct Hd as [-> Hat].
    apply in_stage_Some in Ea as Hin. destruct Hin as [Hin Esa]. assert (Ha0 : a <> 0) by by (eapply (stage_ok_nonzero cur); done).
    cbn [mbind option_bind]. rewrite (proj2 (Z.eqb_neq a 0) Ha0). cbn [negb OV_ASSERT mbind option_bind].
    destruct (insert_into_stage_spec prev a Ha0 Hp) as (r & prev' & -> & Hput). cbn [mbind option_bind].
    unfold put_spec in Hput. rewrite Esa, Hnone in Hput. destruct Hput as (-> & Hp' & Hat').
    cbn [OV_ASSERT mbind option_bind].
    destruct (IH cur' l Hcur') as (stages' & -> & Hok' & Hlen & Hoth & Hcol);
      [by rewrite Hat, Z.eqb_refl|done|]. cbn [mbind option_bind].
    exists (prev' :: stages'). split; [done|]. split; [by constructor|]. split; [cbn; by rewrite Hlen|]. split.
    + apply others_same_cons; [intros t Ht; rewrite Hat'; by destruct (Z.eqb_spec t s)|].
      intros t Ht. rewrite (Hoth t Ht). rewrite !column_cons, Hat. by destruct (Z.eqb_spec t s).
    + rewrite column_cons, Hat', Z.eqb_refl, Hcol. done.
Qed.
Lemma drop_oldest_spec stages f a l : f <> 0 -> Forall stage_ok stages -> column (ssrc f) stages = filled (a :: l) 0 ->
  exists stages', drop_oldest_frame ssrc sequence_number stages f = Some (a, stages') /\ a <> 0 /\
    Forall stage_ok stages' /\ length stages' = length stages /\ others_same (ssrc f) stages stages' /\
    column (ssrc f) stages' = filled l 1.
Proof.
  intros Hf Hok Hc. unfold drop_oldest_frame. rewrite (proj2 (Z.eqb_neq f 0) Hf). cbn [negb OV_ASSERT mbind option_bind].
  destruct stages as [|prev rest]; [done|]. inversion Hok as [|? ? Hp Hr]; subst. rewrite column_cons in Hc.
  injection Hc as Ea Hc. destruct (drop_frame_spec prev (ssrc f) Hp) as (b & prev' & -> & Hp' & Hd).
  rewrite Ea in Hd. destruct Hd as [-> Hat]. apply in_stage_Some in Ea as [Hin Esa].
  assert (Ha0 : a <> 0) by by (eapply (stage_ok_nonzero prev); done). cbn [mbind option_bind].
  rewrite (proj2 (Z.eqb_neq a 0) Ha0). cbn [negb OV_ASSERT mbind option_bind].
  destruct (shift_loop_spec prev' rest (ssrc f) l) as (stages' & -> & Hok' & Hlen & Hoth & Hcol);
    [done|done|by rewrite Hat, Z.eqb_refl|done|]. exists stages'. split; [done|]. split; [done|]. split; [done|].
  split; [done|]. split; [|done]. intros t Ht. rewrite (Hoth t Ht), !column_cons, Hat. by destruct (Z.eqb_spec t (ssrc f)).
Qed.
End Laws.
