(* ===== verification/FrameBufferQueue.v ===== *)
(** * The RTP frame buffer refines bounded sorted queues, one per stream

    Of every stream the buffer keeps the frames with the highest sequence
    numbers, at most as many as configured, sorted; [streams] gives the frames
    by SSRC. *)
From S2P Require Import Prelude OvList FrameBuffer FrameBufferLaws.

Section Queue.
#[local] Set Default Proof Using "Type".
Variables ssrc sequence_number : Z -> Z.
Abbreviation column := (column ssrc).
Abbreviation stage_ok := (stage_ok ssrc).
Abbreviation ascending := (ascending sequence_number).
Abbreviation sorted_insert := (sorted_insert sequence_number).
Abbreviation present := (present sequence_number).
Abbreviation add := (ov_rtp_frame_buffer_add ssrc sequence_number).

(** ** The abstract buffer *)

Definition streams : Type := Z -> list Z.
(** The frame that is given back, 0 for none, and the frames of the stream. *)
Definition stream_add (max : nat) (l : list Z) (f : Z) : Z * list Z :=
  if present l f then (f, l)
  else let l := sorted_insert l f in
       if (max <? length l)%nat then (List.hd 0 l, List.tl l) else (0, l).
Definition set_stream (B : streams) (s : Z) (l : list Z) : streams := fun t => if t =? s then l else B t.

Inductive buffer_op := Add (f : Z) | TakeCurrent.
Inductive outcome := Returned (f : Z) | Frames (fs : option (list Z)).
Inductive buffer_step (max : nat) (B : streams) : buffer_op -> outcome -> streams -> Prop :=
  | step_add f : let r := stream_add max (B (ssrc f)) f in
      buffer_step max B (Add f) (Returned (fst r)) (set_stream B (ssrc f) (snd r))
  | step_empty : (forall s, B s = []) -> buffer_step max B TakeCurrent (Frames None) B
  | step_take fs : fs <> [] -> stage_ok fs -> (forall s, in_stage ssrc s fs = List.hd_error (B s)) ->
      buffer_step max B TakeCurrent (Frames (Some fs)) (fun s => List.tl (B s)).
Inductive buffer_steps (max : nat) : streams -> list buffer_op -> list outcome -> streams -> Prop :=
  | steps_nil B : buffer_steps max B [] [] B
  | steps_cons B op o B' ops os B'' : buffer_step max B op o B' -> buffer_steps max B' ops os B'' ->
      buffer_steps max B (op :: ops) (o :: os) B''.

Definition run_buffer_op (b : internal_frame_buffer) (op : buffer_op) : option (outcome * internal_frame_buffer) :=
  match op with
  | Add f => '(r, b') ← add (Some b) f; b' ← b'; Some (Returned r, b')
  | TakeCurrent =>
      let '(fs, b') := ov_rtp_frame_buffer_get_current_frames (Some b) in b' ← b'; Some (Frames fs, b')
  end.
Fixpoint run_buffer_ops (b : internal_frame_buffer) (ops : list buffer_op)
    : option (list outcome * internal_frame_buffer) :=
  match ops with
  | [] => Some ([], b)
  | op :: ops => '(o, b) ← run_buffer_op b op; '(os, b) ← run_buffer_ops b ops; Some (o :: os, b)
  end.

(** ** What a buffer represents *)

Record keeps (l : list (list Z)) (max : nat) (B : streams) : Prop := {
  kp_ok : Forall stage_ok l;
  kp_column s : exists n, column s l = filled (B s) n;
  kp_ascending s : ascending (B s);
  kp_room : (length l <= max)%nat;
  kp_used : l = [] \/ exists t, length (B t) = length l
}.

Lemma column_elem s l a : Some a ∈ column s l -> exists stage, stage ∈ l /\ a ∈ stage /\ ssrc a = s.
Proof. intros (stage & E & Hin)%list_elem_of_fmap. symmetry in E. apply in_stage_Some in E as [? ?]. eauto. Qed.
Lemma stream_elem l s k n a : Forall stage_ok l -> column s l = filled k n -> a ∈ k -> a <> 0 /\ ssrc a = s.
Proof.
  intros Hok Hc Ha. destruct (column_elem s l a) as (stage & Hin & Hst & Es).
  { rewrite Hc. unfold filled. apply elem_of_app. left. by apply list_elem_of_fmap_2. }
  split; [|done]. eapply stage_ok_nonzero; [|exact Hst]. rewrite Forall_forall in Hok. by apply Hok.
Qed.
Lemma set_stream_eq B s l : set_stream B s l s = l.
Proof. unfold set_stream. by rewrite Z.eqb_refl. Qed.
Lemma set_stream_ne B s l t : t <> s -> set_stream B s l t = B t.
Proof. intros. unfold set_stream. by destruct (Z.eqb_spec t s). Qed.

(** A change of one stream, and as many stages as before, or one more. *)
Lemma keeps_set l l' max B s k n extra : keeps l max B -> Forall stage_ok l' -> ascending k ->
  length l' = (length l + extra)%nat -> (length l' <= max)%nat -> length k = length l' \/ (length (B s) <= length k)%nat ->
  (length k = length l' \/ extra = 0%nat) ->
  (forall t, t <> s -> column t l' = column t l ++ replicate extra None) -> column s l' = filled k n ->
  keeps l' max (set_stream B s k).
Proof.
  intros [H1 H2 H3 H4 H5] Hok Ha Hlen Hmax Hk He Hother Hs. split; [done| | |done|].
  - intros t. destruct (decide (t = s)) as [->|Hne]; [rewrite set_stream_eq; eauto|].
    rewrite set_stream_ne, Hother by done. destruct (H2 t) as [m ->]. exists (m + extra)%nat.
    unfold filled. by rewrite <- app_assoc, replicate_add.
  - intros t. destruct (decide (t = s)) as [->|Hne]; [by rewrite set_stream_eq|by rewrite set_stream_ne].
  - destruct He as [E| ->]; [right; exists s; by rewrite set_stream_eq|]. rewrite Nat.add_0_r in Hlen.
    destruct H5 as [->|[t Ht]]; [left; by destruct l'|right].
    destruct (decide (t = s)) as [->|Hne]; [|exists t; by rewrite set_stream_ne, Hlen].
    exists s. rewrite set_stream_eq. assert (length k <= length l')%nat; [|lia].
    rewrite <- (column_length ssrc s l'), Hs, filled_length. lia.
Qed.

(** The stages [insert_into_stages] works on. *)
Definition some_stages (l : list (list Z)) : list (list Z) := match l with [] => [[]] | _ => l end.
Lemma insert_into_stages_eq l max f : f <> 0 -> (0 < max)%nat ->
  insert_into_stages ssrc sequence_number l max f = insert_stages_loop ssrc sequence_number (some_stages l) f.
Proof.
  intros Hf Hm. unfold insert_into_stages. rewrite (proj2 (Z.eqb_neq f 0) Hf). cbn [negb OV_ASSERT mbind option_bind].
  destruct l as [|st l]; [|done]. cbn [length Nat.eqb]. unfold add_stage. cbn [length].
  by replace (max <=? 0)%nat with false by (symmetry; apply Nat.leb_gt; lia).
Qed.
Lemma keeps_some_stages l max B s : keeps l max B -> (0 < max)%nat ->
  Forall stage_ok (some_stages l) /\ (0 < length (some_stages l) <= max)%nat /\
  (exists n, column s (some_stages l) = filled (B s) n) /\
  (l = [] -> forall t, B t = []).
Proof.
  intros [H1 H2 H3 H4 H5] Hm. destruct l as [|st l].
  - assert (HB : forall t, B t = []).
    { intros t. destruct (H2 t) as [n Hn]. destruct (B t); [done|]. by unfold filled in Hn. }
    split; [repeat constructor|]. split; [cbn; lia|]. split; [|done]. exists 1%nat. by rewrite HB.
  - split; [done|]. split; [cbn in *; lia|]. split; [apply H2|done].
Qed.
Lemma others_filled s l l' : others_same ssrc s (some_stages l) l' ->
  forall t, t <> s -> column t l' = column t l ++ replicate (length (some_stages l) - length l) None.
Proof.
  intros H t Ht. rewrite (H t Ht). destruct l as [|st l]; [done|]. cbn [some_stages].
  rewrite Nat.sub_diag. by rewrite app_nil_r.
Qed.

(** The frame that fell out goes to a new stage, or the oldest frame leaves. *)
Lemma add_overflow b B f k x l' (l := stages b) (max := num_frames_to_buffer_per_stream b) (s := ssrc f) :
  keeps l max B -> (0 < max)%nat -> f <> 0 -> present (B s) f = false ->
  insert_into_stages ssrc sequence_number l max f = Some (Frame x, l') ->
  Forall stage_ok l' -> length l' = length (some_stages l) -> length (B s) = length l' ->
  others_same ssrc s (some_stages l) l' -> sorted_insert (B s) f = k ++ [x] -> column s l' = filled k 0 ->
  l <> [] -> x <> 0 -> ssrc x = s ->
  exists b', add (Some b) f = Some (fst (stream_add max (B s) f), Some b') /\
    num_frames_to_buffer_per_stream b' = max /\ keeps (stages b') max (set_stream B s (snd (stream_add max (B s) f))).
Proof.
  intros HK Hm Hf Hpres E Hok Hlen HlB Hoth Hk Hcol Hne Hx Hsx. unfold ov_rtp_frame_buffer_add.
  rewrite (proj2 (Z.eqb_neq f 0) Hf). fold l max. rewrite E. cbn [mbind option_bind].
  assert (Ha : ascending (k ++ [x])) by (rewrite <- Hk; apply ascending_sorted_insert; [apply (kp_ascending _ _ _ HK)|done]).
  apply ascending_snoc in Ha as Hsn. destruct Hsn as [Hak Hkx].
  assert (Elen : length l' = length l) by (destruct l; [done|exact Hlen]).
  assert (Hoth' : forall t, t <> s -> column t l' = column t l).
  { intros t Ht. rewrite (others_filled s l l' Hoth t Ht), <- Hlen, Elen, Nat.sub_diag. apply app_nil_r. }
  assert (Hlk : length k = length (B s)).
  { apply (f_equal length) in Hk. rewrite length_sorted_insert, length_app in Hk. cbn in Hk. lia. }
  unfold stream_add. rewrite Hpres, Hk. unfold try_new_stage, add_stage.
  rewrite length_app. cbn [length]. rewrite Nat.add_1_r.
  destruct (Nat.leb_spec max (length l')) as [Hfull|Hroom].
  - replace (max <? S (length k))%nat with true by (symmetry; apply Nat.ltb_lt; lia). cbn [mbind option_bind].
    destruct k as [|a k]; [exfalso; cbn in Hlk; lia|].
    destruct (drop_oldest_spec ssrc sequence_number l' x a k) as (l2 & -> & Ha0 & Hok2 & Hlen2 & Hoth2 & Hcol2);
      [done|done|by rewrite Hsx|]. rewrite Hsx in Hoth2, Hcol2. cbn [mbind option_bind].
    rewrite (proj2 (Z.eqb_neq a 0) Ha0). cbn [negb OV_ASSERT mbind option_bind].
    rewrite insert_into_stages_eq by done.
    assert (some_stages l2 = l2) as -> by (destruct l2; [cbn in Hlen2; cbn in Hlk; lia|done]).
    assert (Hkx' : forall c, c ∈ k -> sequence_number c < sequence_number x) by (intros c Hc; apply Hkx; by right).
    destruct (insert_stages_loop_spec ssrc sequence_number l2 x k 1 s) as (r & l3 & -> & Hok3 & Hlen3 & Hoth3 & Hres);
      [done|done|done|done|by eapply ascending_tail|]. cbn [mbind option_bind].
    unfold insert_result in Hres. rewrite present_above in Hres by done. destruct Hres as [_ Hcol3].
    rewrite sorted_insert_last in Hcol3 by done.
    eexists. split; [done|]. split; [done|]. cbn [fst snd List.hd List.tl app stages with_stages].
    eapply (keeps_set l l3 max B s (k ++ [x]) 0 0 HK); [done|by destruct Ha|lia|destruct HK; lia| |by right| |done].
    + left. rewrite length_app. cbn in *. lia.
    + intros t Ht. rewrite (Hoth3 t Ht), (Hoth2 t Ht), (Hoth' t Ht). by rewrite app_nil_r.
  - replace (max <? S (length k))%nat with false by (symmetry; apply Nat.ltb_ge; lia). cbn [mbind option_bind].
    unfold insert_into_stage. rewrite (proj2 (Z.eqb_neq x 0) Hx). cbn [negb OV_ASSERT mbind option_bind insert_stage_loop list_push app].
    eexists. split; [done|]. split; [done|]. cbn [fst snd stages with_stages].
    assert (Hlx : length (l' ++ [[x]]) = (length l + 1)%nat) by (rewrite length_app; cbn; lia).
    assert (Hcx : forall t, column t (l' ++ [[x]]) = column t l' ++ [if ssrc x =? t then Some x else None]).
    { intros t. unfold FrameBuffer.column. rewrite fmap_app. cbn. by destruct (ssrc x =? t). }
    eapply (keeps_set l (l' ++ [[x]]) max B s (k ++ [x]) 0 1 HK); [|done|done|lia| | | |].
    + apply Forall_app. split; [done|]. constructor; [by apply stage_ok_singleton|constructor].
    + left. rewrite length_app. cbn. lia.
    + left. rewrite length_app. cbn. lia.
    + intros t Ht. rewrite Hcx, (Hoth' t Ht). by rewrite (proj2 (Z.eqb_neq (ssrc x) t)) by congruence.
    + rewrite Hcx, Hcol, Hsx, Z.eqb_refl. unfold filled. rewrite !app_nil_r. by rewrite fmap_app.
Qed.

Lemma stream_add_present max l f : present l f = true -> stream_add max l f = (f, l).
Proof. unfold stream_add. by intros ->. Qed.
Lemma keeps_ext l max B B' : (forall s, B' s = B s) -> keeps l max B -> keeps l max B'.
Proof.
  intros E [H1 H2 H3 H4 H5]. split; [done| | |done|].
  - intros s. rewrite E. apply H2.
  - intros s. rewrite E. apply H3.
  - destruct H5 as [|[t Ht]]; [by left|right]. exists t. by rewrite E.
Qed.
Lemma add_spec b B f (max := num_frames_to_buffer_per_stream b) (s := ssrc f) :
  keeps (stages b) max B -> (0 < max)%nat -> f <> 0 ->
  exists b', add (Some b) f = Some (fst (stream_add max (B s) f), Some b') /\
    num_frames_to_buffer_per_stream b' = max /\ keeps (stages b') max (set_stream B s (snd (stream_add max (B s) f))).
Proof.
  intros HK Hm Hf. destruct (keeps_some_stages _ _ _ s HK Hm) as (Hok & Hlen & (n & Hcol) & Hnil).
  destruct (insert_stages_loop_spec ssrc sequence_number (some_stages (stages b)) f (B s) n s)
    as (r & l' & E & Hok' & Hlen' & Hoth & Hres); [done|done|done|done|apply (kp_ascending _ _ _ HK)|].
  rewrite <- (insert_into_stages_eq (stages b) max f Hf Hm) in E. unfold insert_result in Hres.
  destruct (present (B s) f) eqn:Hp; [|destruct n as [|n]].
  - destruct Hres as [-> ->]. rewrite stream_add_present by done. cbn [fst snd].
    unfold ov_rtp_frame_buffer_add. rewrite (proj2 (Z.eqb_neq f 0) Hf). fold max. rewrite E.
    eexists. split; [done|]. split; [done|]. cbn [stages with_stages].
    assert (some_stages (stages b) = stages b) as ->.
    { destruct (stages b); [|done]. by rewrite (Hnil eq_refl s) in Hp. }
    eapply keeps_ext, HK. intros t. unfold set_stream. by destruct (Z.eqb_spec t s) as [->|].
  - destruct Hres as (k & x & Hk & -> & Hcol').
    assert (Hx : x ∈ sorted_insert (B s) f) by (rewrite Hk; apply elem_of_app; right; by left).
    assert (x <> 0 /\ ssrc x = s) as [Hx0 Hsx].
    { apply elem_sorted_insert in Hx as [->|Hx]; [done|]. by eapply (stream_elem (some_stages (stages b))). }
    assert (HlB : length (B s) = length (some_stages (stages b))).
    { rewrite <- (column_length ssrc s), Hcol, filled_length. lia. }
    eapply add_overflow; try done; [by rewrite Hlen'|]. intros En. rewrite (Hnil En) in HlB. cbn in HlB. lia.
  - destruct Hres as [-> Hcol']. unfold ov_rtp_frame_buffer_add. rewrite (proj2 (Z.eqb_neq f 0) Hf). fold max.
    rewrite E. exists (with_stages b l'). cbn [mbind option_bind stages with_stages].
    assert (Hadd : stream_add max (B s) f = (0, sorted_insert (B s) f)).
    { unfold stream_add. rewrite Hp, length_sorted_insert.
      rewrite <- (column_length ssrc s), Hcol, filled_length in Hlen.
      by replace (max <? S (length (B s)))%nat with false by (symmetry; apply Nat.ltb_ge; lia). }
    rewrite Hadd. split; [done|]. split; [done|]. cbn [snd].
    + assert (El : length l' = (length (B s) + S n)%nat)
        by (rewrite Hlen', <- (column_length ssrc s), Hcol; apply filled_length).
      eapply (keeps_set (stages b) l' max B s _ n (length (some_stages (stages b)) - length (stages b)) HK);
        [done|apply ascending_sorted_insert; [apply (kp_ascending _ _ _ HK)|done]| |lia| | |by apply others_filled|done].
      * rewrite Hlen'. destruct (stages b); cbn; lia.
      * right. rewrite length_sorted_insert. lia.
      * destruct (stages b) as [|st l]; [|right; cbn; lia]. left. rewrite length_sorted_insert, Hlen'.
        by rewrite (Hnil eq_refl s).
Qed.

Lemma take_spec b B (max := num_frames_to_buffer_per_stream b) : keeps (stages b) max B ->
  match ov_rtp_frame_buffer_get_current_frames (Some b) with
  | (None, b') => b' = Some b /\ forall s, B s = []
  | (Some fs, b') => exists b2, b' = Some b2 /\ num_frames_to_buffer_per_stream b2 = max /\
      keeps (stages b2) max (fun s => List.tl (B s)) /\
      fs <> [] /\ stage_ok fs /\ forall s, in_stage ssrc s fs = List.hd_error (B s)
  end.
Proof.
  intros HK. pose proof HK as [H1 H2 H3 H4 H5]. unfold ov_rtp_frame_buffer_get_current_frames.
  destruct (stages b) as [|cur rest] eqn:Eb.
  - split; [done|]. intros s. destruct (H2 s) as [n Hn]. destruct (B s); [done|]. by unfold filled in Hn.
  - inversion H1 as [|? ? Hcur Hrest]; subst.
    assert (Hcol : forall s, in_stage ssrc s cur = List.hd_error (B s) /\ exists n, column s rest = filled (List.tl (B s)) n).
    { intros s. destruct (H2 s) as [n Hn]. rewrite column_cons in Hn. destruct (in_stage ssrc s cur) as [a|].
      - apply filled_cons_Some in Hn as (k & -> & Hn). by eauto.
      - apply filled_cons_None in Hn as (-> & m & _ & Hn). by eauto. }
    eexists. split; [done|]. split; [done|]. split; [|split; [|split; [done|apply Hcol]]].
    + split; [done|apply Hcol| |cbn in *; lia|].
      * intros s. specialize (H3 s). destruct (B s); [done|]. by destruct H3.
      * destruct H5 as [|[t Ht]]; [done|]. right. exists t. cbn in *. destruct (B t); cbn in *; lia.
    + intros ->. destruct H5 as [|[t Ht]]; [done|]. destruct (Hcol t) as [Hh _].
      destruct (B t); [cbn in Ht; lia|]. done.
Qed.

(** C24: over every sequence of additions and removals the buffer keeps, of every
    stream, exactly the frames with the highest sequence numbers, at most as
    many as configured: adding a frame gives back the frame itself if its number
    is in the buffer, the oldest frame of its stream if there are too many, and
    nothing otherwise; the current frames are the oldest of each stream, sorted
    by SSRC. No assertion fails and no frame of another stream is lost. *)
Theorem frame_buffer_refines num ops :
  (forall f, Add f ∈ ops -> f <> 0) ->
  let b := ov_rtp_frame_buffer_create num in
  exists os b' B, run_buffer_ops b ops = Some (os, b') /\
    buffer_steps (num_frames_to_buffer_per_stream b) (fun _ => []) ops os B /\
    keeps (stages b') (num_frames_to_buffer_per_stream b) B.
Proof.
  intros Hops b. assert (Hm : (0 < num_frames_to_buffer_per_stream b)%nat).
  { unfold b, ov_rtp_frame_buffer_create. cbn. destruct (Nat.eqb_spec num 0); unfold NUM_FRAMES_TO_BUFFER_DEFAULT; lia. }
  assert (HK : keeps (stages b) (num_frames_to_buffer_per_stream b) (fun _ => [])).
  { split; [constructor|by exists O|done|cbn; lia|by left]. }
  set (max := num_frames_to_buffer_per_stream b) in *. assert (Emax : num_frames_to_buffer_per_stream b = max) by done.
  clearbody max b. revert b HK Emax. generalize (fun _ : Z => @nil Z) as B.
  induction ops as [|op ops IH]; intros B b HK Emax.
  - exists [], b, B. split; [done|]. split; [constructor|done].
  - assert (Hops' : forall f, Add f ∈ ops -> f <> 0) by (intros f Hf; apply Hops; by right).
    cbn [run_buffer_ops run_buffer_op]. destruct op as [f|].
    + subst max. destruct (add_spec b B f HK Hm) as (b1 & E & Emax1 & HK1); [apply Hops; by left|].
      cbn [run_buffer_op]. rewrite E. cbn [mbind option_bind].
      destruct (IH Hops' _ b1 HK1 Emax1) as (os & b' & B' & -> & Hs & HK'). cbn [mbind option_bind].
      eexists _, b', B'. split; [done|]. split; [|done]. econstructor; [constructor|done].
    + subst max. pose proof (take_spec b B HK) as Ht. cbn [run_buffer_op].
      destruct (ov_rtp_frame_buffer_get_current_frames (Some b)) as [[fs|] b1].
      * destruct Ht as (b2 & -> & Emax2 & HK2 & Hne & Hok & Hin). cbn [mbind option_bind].
        destruct (IH Hops' _ b2 HK2 Emax2) as (os & b' & B' & -> & Hs & HK'). cbn [mbind option_bind].
        eexists _, b', B'. split; [done|]. split; [|done]. econstructor; [by constructor|done].
      * destruct Ht as [-> Hnil]. cbn [mbind option_bind].
        destruct (IH Hops' _ b HK eq_refl) as (os & b' & B' & -> & Hs & HK'). cbn [mbind option_bind].
        eexists _, b', B'. split; [done|]. split; [|done]. econstructor; [by constructor|done].
Qed.
End Queue.

(** ** Inputs

    Frames whose address tells the SSRC and the sequence number. *)

Definition demo_ssrc (f : Z) : Z := f / 100000.
Definition demo_sequence_number (f : Z) : Z := f mod 100000.
Definition demo_ops : list buffer_op :=
  [Add 200003; Add 100007; Add 100005; Add 100005; Add 100006; TakeCurrent; Add 100004; TakeCurrent; TakeCurrent; TakeCurrent].

(** Two frames per stream: the frame that is there already and the oldest one
    come back. *)
Lemma frame_buffer_refines_witness : let b := ov_rtp_frame_buffer_create 0 in
  (forall f, Add f ∈ demo_ops -> f <> 0) /\
  (fst <$> run_buffer_ops demo_ssrc demo_sequence_number b demo_ops) =
    Some [Returned 0; Returned 0; Returned 0; Returned 100005; Returned 100005; Frames (Some [100006; 200003]);
          Returned 0; Frames (Some [100004]); Frames (Some [100007]); Frames None] /\
  exists os b' B, run_buffer_ops demo_ssrc demo_sequence_number b demo_ops = Some (os, b') /\
    buffer_steps demo_ssrc demo_sequence_number (num_frames_to_buffer_per_stream b) (fun _ => []) demo_ops os B /\
    keeps demo_ssrc demo_sequence_number (stages b') (num_frames_to_buffer_per_stream b) B.
Proof.
  intros b. assert (H : forall f, Add f ∈ demo_ops -> f <> 0).
  { intros f Hf. apply list_elem_of_In in Hf. cbn in Hf. intuition (congruence || discriminate). }
  split; [exact H|]. split; [reflexivity|]. exact (frame_buffer_refines demo_ssrc demo_sequence_number 0 demo_ops H).
Defined.

(** Sequence numbers have 16 bits and start again at 0: the frame behind 65535
    is taken for the oldest one and comes back at once. *)
Lemma wrapped_number_is_dropped :
  (fst <$> run_buffer_ops demo_ssrc demo_sequence_number (ov_rtp_frame_buffer_create 2)
             [Add 165534; Add 165535; Add 100000; TakeCurrent]) =
  Some [Returned 0; Returned 0; Returned 100000; Frames (Some [165534])].
Proof. reflexivity. Qed.
